(* ===== verification/_CoqProject ===== *)
-Q . S2P
Prelude.v
StringLib.v
Pmm.v
Vmm.v
Bytes.v
BufCache.v
Cluster.v
FatFile.v
Pipe.v
Lock.v
Sched.v
Dirent.v
Directory.v
FatDir.v
Tsleep.v
Kmalloc.v
KernelPages.v
Futex.v
UserMem.v
Fork.v
Proc.v
FdTable.v
FdFile.v
Signal.v
ITimer.v
Socket.v
HashMap.v
Mmap.v
Shm.v
Elf.v
AddrSpace.v
Print.v
Virtio.v
Unlink.v
ProcArg.v
