(* ===== verification/Prelude.v ===== *)
(** * FarmOS kernel: verification library

    A model of the FarmOS kernel (a RISC-V Unix-like kernel in C, [src/kern],
    [src/lib], [src/include]) and the theorems that make its parts correct.
    Every definition is a translation of the C function it is named after; the
    properties are stated of those definitions.

    ** The program and the files

    - Memory.  [pmm.c] hands out physical pages, [vmm.c] builds Sv39 page
      tables from them, [vmtools.c] walks a whole directory, [kmalloc.c] carves
      the kernel heap out of mapped pages, [trap_pgfault.c] resolves page
      faults, [transfer.c] copies between user and kernel, and [fork.c] shares
      the parent's pages with the child copy-on-write; [procinit.c] builds and
      releases the address space of a process, [sys_mm.c] and [sys_mmap.c] are
      its memory calls, [shm.c] its shared segments.
      Files [Pmm], [Vmm], [Kmalloc] (against the interface [PageMapper]),
      [KernelPages] (its instance on [Vmm]), [UserMem], [Fork], [AddrSpace],
      [Mmap] (against [FileMapper]), [Shm].
    - Programs.  [elfloader.c] and [elf.c] load the segments of an image,
      [procarg.c], [proc_setustack] and the end of [parseElf] pass arguments,
      environment and auxiliary vector to the program on its stack, which
      [copy_arg] moves into its table.  Files [Elf], [ProcArg].
    - Threads.  [lock.c] and [mutex.c] give spin locks and mutexes; [sched.c],
      [sleep.c] and [thread.c] the run queue, sleep queues and threads;
      [tsleep.c] sleeps with a deadline; [futex_event.c] and
      [futex_interface.c] the futexes on top; [proc.c], [wait.c] and the
      process part of [fork.c] and [thread.c] the processes, their exit and
      the wait for it; [signal/*.c] the pool of signal events, sending,
      handlers and their returns, and the interval timers; [timer.c] the
      clocks.
      Files [Lock], [Sched], [Tsleep], [Futex], [Proc], [Signal], [ITimer]
      (against the interface [TimerHeap]).
    - Files.  [buf.c] caches disk blocks; [cluster.c] and [base.c] the clusters
      and the file allocation table; [filepnt.c] and [file.c] the files;
      [directory.c] directories and long names; [dirent.c] and [fs.c] the tree
      of entries, mounts and path lookup; [pipe.c] the pipes; [fd.c],
      [thread_fs.c] and [fd/file.c] the descriptors of processes and of the
      kernel; [socket.c] the stream and datagram sockets of the host; [link.c]
      removes files; [virtio.c] drives the disk below the cache.
      Files [BufCache] (instance of the interface [SectorStore]), [Cluster]
      and [FatFile] (against it), [Directory] (against [DirFile]), [FatDir]
      (the instance of [DirFile] on [FatFile]), [Dirent], [Pipe], [FdTable]
      (against [FdRw], [FdClose], [FileStat] and [Vfs]: what an open object and
      the file system offer), [FdFile] (their instance on [FatFile]), [Socket]
      (on the descriptors of [FdTable] and the ring of [Pipe]), [Unlink] (on
      [FatFile] and [FatDir]), [Virtio] (against the interface [VirtioDevice]).
    - Library.  [string.c], [wchar.c]: file [StringLib]; [hashmap.c] and the
      profiler on it, [profiling.c]: file [HashMap]; [vprint.c] and the
      callbacks of [printf.c]: file [Print] (against [Sink]).
      [Bytes] holds buffers and little-endian fields, and this file the fault
      monad, machine integers and the shared tactics.

    ** How code becomes definitions

    A function that may stop the kernel is a value of [M S A]: it takes the
    component's state (a record of the C globals) and returns a value and the
    next state, or the [fault] that ended it.  Pointers into pools are indices
    or addresses with [0] for [NULL].  Integers are [Z], cut to their width
    where the C type wraps ([wrap8] to [wrap64], [sext32]).  Intrusive lists
    are lists of pointers in queue order.  A definition is one critical
    section where the code takes locks: a call that releases its locks on the
    way is several definitions, and the reachability theorems quantify over
    all interleavings of them.  A loop whose number of iterations the code
    does not bound takes fuel; its theorem says how much is enough (and so
    that the loop ends): the length of the cluster chain for
    [clus_sequence_free], the pages of the range for [userToKernel], two
    passes for [twakeup], two more than the queue is long for [sig_check], the
    length of the list for [itimer_check], three rounds for
    [virtio_disk_intr], the pages a string or vector can touch for the pushes
    of [ProcArg], and [MAXARG] for its vectors, which the code asserts.

    ** What the theorems show

    - [BufCache], [Cluster], [FatFile], [Directory], [FatDir], [Dirent]: the
      write-back cache is a refinement of a plain array of blocks; cluster
      allocation and freeing change exactly the entries they should; what a
      file operation writes is what it reads back, with sizes, gaps and other
      files accounted for; a created file is found again; a path resolves to
      the entry its components name, with exact reference counts, and the path
      of an entry resolves to it.
    - [Pmm], [Vmm], [Kmalloc], [KernelPages]: the allocator's invariant from
      boot on; mapping and unmapping change one translation and the reference
      counts; heap blocks are disjoint, zeroed and on mapped pages.
    - [UserMem], [Fork]: over two page tables in one memory, faults are
      invisible to programs, copies move exactly the bytes a program sees, a
      fork gives the child what the parent sees, and afterwards a write of
      either is not seen by the other.
    - [AddrSpace], [Mmap], [Shm]: a new table has its trampolines, trap frame
      and stack and nothing else; the release frees exactly the tables and the
      pages nobody shares; memory mapped by [mmap] can be written and read as
      its protection says, and is gone after [munmap]; an attached segment
      lies on the pages the kernel keeps for it, marked shared.
    - [Elf], [ProcArg]: an image is in memory byte for byte, zeros included; the
      strings of the caller of exec are found by the new program at the
      addresses its vectors name, and its stack is laid out as C programs
      expect it.
    - [Virtio], [Unlink]: with any device that keeps to the standard, the driver
      is a disk with atomic requests (the disk [BufCache] writes back to), and
      no completion is lost; a removed file's clusters are free, its entries
      deleted, and every other file as it was.
    - [Print]: a format prints the text its directives say, to every sink, and
      numbers print as they read back.
    - [Lock], [Sched], [Tsleep], [Futex], [Pipe]: mutual exclusion; every
      thread in exactly one place; no lost wakeup of a sleep mutex; timeouts
      and wakeups end exactly the sleeps they should; a futex wakes in order of
      arrival; a pipe is a FIFO queue and does not deadlock.
    - [Proc]: parents, children, pids and the free list agree in every
      reachable state; a parent asleep in [wait] has no zombie it waits for;
      [wait] collects the first zombie child and accounts for it.
    - [FdTable], [FdFile]: the count of every open file is the number of
      descriptors that name it, over all opens, duplications, closes, forks and
      exits; [openat] takes the lowest free descriptor or changes nothing; what
      is written through one descriptor is read through another, down to the
      cache; [readv] is one read scattered over the buffers.
    - [Signal], [ITimer]: every event is free or in one queue; [sig_check] ends
      with the verdict of one pass over the queue; handlers nest, and a return
      restores what the innermost one interrupted; ticks fire exactly the
      timers that ran out, and a timer reads back as it was set.
    - [Socket]: a stream is a FIFO queue of bytes in every reachable state; what
      a write returns, and with which locks, in every case; a connection pairs
      the client with the accepted socket; bytes and datagrams arrive as sent.
    - [HashMap]: the table answers as a list of all entries would, a traversal
      meets each once, and the profiler keeps the sums per name.
    - Defects of the code are theorems too: [Cluster.clusterAlloc_ignores_lower],
      [Directory.dir_alloc_file_clobbers], [Elf.elf_small_segment_lost],
      [FatFile.file_shrink_leaves_stale],
      [FdFile.lseek_returns_lost_bits], [FdTable.dup3_bad_old_dangles],
      [FdTable.fork_during_open_panics], [Futex.futex_wake_lost],
      [HashMap.profiling_race_loses],
      [ITimer.disable_writes_freed], [ITimer.getitimer_wraps],
      [ITimer.itimer_outlives_thread], [Kmalloc.kmalloc_exceeds_limit],
      [Mmap.brk_misses_page], [Mmap.brk_shrink_panics],
      [Mmap.mmap_length_wraps], [Mmap.mprotect_breaks_cow],
      [Mmap.munmap_hole_panics],
      [Pipe.pipe_write_overruns], [Print.unsigned_prints_signed],
      [Proc.orphan_stays_zombie],
      [Proc.td_destroy_race], [Proc.wait_takes_foreign_child],
      [Proc.waitpid_nohang_skips_zombie], [Sched.wakeup_td_race],
      [Shm.shm_attach_overlaps], [Shm.shmget_duplicates],
      [Signal.nested_sigreturn_panics], [Signal.sigaction_size_overwrites],
      [Signal.sigsuspend_in_handler_panics], [Signal.tkill_flood_panics],
      [Signal.tkill_zero_panics], [Socket.connect_full_keeps_lock],
      [Socket.long_datagram_overruns], [Socket.unconnected_sockets_talk],
      [Socket.write_after_close_panics],
      [StringLib.memset_short_never_returns], [Tsleep.tsleep_timeout_lost],
      [Unlink.deleted_never_reused], [UserMem.copy_in_unmapped_panics],
      [Virtio.virtio_accepts_two], [Vmm.ptUnmap_unmapped_leaks_lock].

    ** Parameters

    The addresses the linker assigns ([end_text], [trampoline] and the signal
    trampoline), the virtio device and its registers, the file system's mapping
    of files ([FileMapper]), where [kmalloc] puts a block in [ProcArg], the
    bytes a C array has before it is written, the sizes of
    structures whose layout the compiler chooses ([Pmm.sizeofs]), the number of
    CPUs and threads where a theorem does not depend on them, the current time
    and the frequency of its counter, the sizes of [siginfo_t] and
    [ucontext_t], and what lies behind the terminator of a name buffer ([junk]).

    ** Not modelled

    The SD card driver and the other devices, traps and context switches
    (registers and assembly); the console and the wrappers that print log lines;
    the dynamic linker's image and the reading of files into kernel memory
    ([kload.c]); links, renaming, the removal of directories, mounting and the
    building of the tree from a disk; [getdents64] and [copy_file_range]; the
    system-call layer, which unpacks arguments and calls the functions above;
    [bufSync], which the build disables.  These are glue between the parts above
    and assembly, hardware or user buffers, or repeat them for other kinds of
    entries.  Reordering of memory accesses between harts is not
    modelled: shared data is changed under the locks of [Lock]. *)

From Stdlib Require Import ZArith Lia Bool List.
From stdpp Require Import base tactics list.
Open Scope Z_scope.

(** ** Results: a value, or the way the kernel stopped *)

(** [Panic] is [panic], [error], [panic_on] or a failed [assert] (all call
    [_error], which does not return); [BadPtr] is a dereference of an invalid
    pointer; [Undef] is behaviour the C standard leaves undefined; [NoFuel]
    is a loop that has not ended within the given number of iterations. *)
Inductive fault : Type := Panic | BadPtr | Undef | NoFuel.

Inductive res (A : Type) : Type :=
| Ok (a : A)
| Err (f : fault).
Arguments Ok {A} a.
Arguments Err {A} f.

#[export] Instance fault_eq_dec : EqDecision fault.
Proof. solve_decision. Defined.

Definition res_bind {A B : Type} (r : res A) (k : A -> res B) : res B :=
  match r with Ok a => k a | Err f => Err f end.

Definition is_ok {A : Type} (r : res A) : bool :=
  match r with Ok _ => true | Err _ => false end.

(** ** The state-and-fault monad *)

Definition M (S A : Type) : Type := S -> res (A * S).

Definition ret {S A : Type} (a : A) : M S A := fun s => Ok (a, s).
Definition bind {S A B : Type} (c : M S A) (k : A -> M S B) : M S B :=
  fun s => match c s with Ok (a, s') => k a s' | Err f => Err f end.
Definition fail {S A : Type} (f : fault) : M S A := fun _ => Err f.
Definition gets {S A : Type} (f : S -> A) : M S A := fun s => Ok (f s, s).
Definition modify {S : Type} (f : S -> S) : M S unit := fun s => Ok (tt, f s).
(** [assert(b)] and [panic_on(!b)]. *)
Definition massert {S : Type} (b : bool) : M S unit :=
  if b then ret tt else fail Panic.

Declare Scope monad_scope.
Delimit Scope monad_scope with monad.
Notation "'let*' x ':=' c 'in' k" := (bind c (fun x => k))
  (at level 10, x pattern, c at level 100, k at level 200) : monad_scope.
Notation "c ';;;' k" := (bind c (fun _ => k))
  (at level 199, k at level 200, right associativity) : monad_scope.
Open Scope monad_scope.

Create HintDb farm.
Create Rewrite HintDb farm.

Section MonadLemmas.
Context {S A B : Type}.

Lemma bind_ok (c : M S A) (k : A -> M S B) s b s' :
  bind c k s = Ok (b, s') <->
  exists a s1, c s = Ok (a, s1) /\ k a s1 = Ok (b, s').
Proof.
  unfold bind; split.
  - destruct (c s) as [[a s1]|f]; [eauto | discriminate].
  - intros (a & s1 & -> & H); exact H.
Qed.

Lemma bind_run (c : M S A) (k : A -> M S B) s a s1 :
  c s = Ok (a, s1) -> bind c k s = k a s1.
Proof. unfold bind; now intros ->. Qed.

Lemma bind_err (c : M S A) (k : A -> M S B) s f :
  c s = Err f -> bind c k s = Err f.
Proof. unfold bind; now intros ->. Qed.

Lemma massert_ok (b : bool) (s : S) u s' :
  massert b s = Ok (u, s') <-> b = true /\ s' = s.
Proof.
  destruct b, u; unfold massert, ret, fail; split; intros H;
    [inversion H; auto | destruct H as [_ ->]; auto | discriminate | destruct H; discriminate].
Qed.
Lemma massert_run (b : bool) (k : unit -> M S B) s : b = true -> bind (massert b) k s = k tt s.
Proof. now intros ->. Qed.
End MonadLemmas.
Lemma bind_assoc {S A B C : Type} (c : M S A) (f : A -> M S B) (g : B -> M S C) s :
  bind c (fun a => bind (f a) g) s = bind (bind c f) g s.
Proof. unfold bind. destruct (c s) as [[a s1]|]; reflexivity. Qed.
(** Four steps whose joint result is known. *)
Lemma bind_run4 {S A B C D E : Type} (c1 : M S A) (c2 : M S B) (c3 : M S C) (c4 : C -> M S D) (k : D -> M S E) s d s' :
  (c1 ;;; c2 ;;; bind c3 c4) s = Ok (d, s') -> (c1 ;;; c2 ;;; bind c3 (fun n => bind (c4 n) k)) s = k d s'.
Proof.
  unfold bind. destruct (c1 s) as [[a s1]|]; [|discriminate]. destruct (c2 s1) as [[b s2]|]; [|discriminate].
  destruct (c3 s2) as [[n s3]|]; [|discriminate]. now intros ->.
Qed.

(** The state after a run, and its value, for states given by a computation. *)
Definition after {S A : Type} (c : M S A) (s : S) : S := match c s with Ok (_, s') => s' | Err _ => s end.
Definition value {S A : Type} (c : M S A) (s : S) : option A := match c s with Ok (a, _) => Some a | Err _ => None end.
Lemma after_ok {S A : Type} (c : M S A) s a : value c s = Some a -> c s = Ok (a, after c s).
Proof. unfold value, after. destruct (c s) as [[b s']|]; [now intros [= <-]|discriminate]. Qed.
(** Proves that a run on a closed state returns [a], and closed equations. *)
Ltac runs c s a := exact (after_ok c s a ltac:(vm_compute; reflexivity)).
Ltac evals := vm_compute; reflexivity.

(** Runs one step of a monadic program whose result is already known. *)
Ltac mrun := erewrite bind_run by eauto with farm.
(** Decomposes a successful run of a monadic program. *)
Ltac minv H :=
  repeat lazymatch type of H with
  | bind _ _ _ = Ok _ =>
      let x := fresh "x" in let s := fresh "s" in let E := fresh "E" in
      apply bind_ok in H; destruct H as (x & s & E & H)
  end.

(** ** Machine integers *)

Definition wrap8 (z : Z) : Z := z mod 256.
Definition wrap16 (z : Z) : Z := z mod 65536.
Definition wrap32 (z : Z) : Z := z mod 4294967296.
Definition wrap64 (z : Z) : Z := z mod 18446744073709551616.
(** The value of an [int] holding the low 32 bits of [z]. *)
Definition sext32 (z : Z) : Z := (z + 2147483648) mod 4294967296 - 2147483648.

Ltac zlia := Z.div_mod_to_equations; lia.

Lemma wrap8_small z : 0 <= z < 256 -> wrap8 z = z.
Proof. apply Z.mod_small. Qed.
Lemma wrap16_small z : 0 <= z < 65536 -> wrap16 z = z.
Proof. apply Z.mod_small. Qed.
Lemma wrap32_small z : 0 <= z < 4294967296 -> wrap32 z = z.
Proof. apply Z.mod_small. Qed.
Lemma wrap64_small z : 0 <= z < 18446744073709551616 -> wrap64 z = z.
Proof. apply Z.mod_small. Qed.
Lemma sext32_small z : -2147483648 <= z < 2147483648 -> sext32 z = z.
Proof. intros; unfold sext32; rewrite Z.mod_small; lia. Qed.
Lemma wrap8_range z : 0 <= wrap8 z < 256.
Proof. apply Z.mod_pos_bound; lia. Qed.
Lemma wrap32_range z : 0 <= wrap32 z < 4294967296.
Proof. apply Z.mod_pos_bound; lia. Qed.
Lemma wrap64_range z : 0 <= wrap64 z < 18446744073709551616.
Proof. apply Z.mod_pos_bound; lia. Qed.
#[export] Hint Resolve wrap8_small wrap16_small wrap32_small wrap64_small
  wrap8_range wrap32_range wrap64_range : farm.

(** Turns boolean comparisons of the code into propositions. *)
Ltac zbool :=
  repeat match goal with
  | H : (_ <? _) = true |- _ => apply Z.ltb_lt in H
  | H : (_ <? _) = false |- _ => apply Z.ltb_ge in H
  | H : (_ <=? _) = true |- _ => apply Z.leb_le in H
  | H : (_ <=? _) = false |- _ => apply Z.leb_gt in H
  | H : (_ =? _) = true |- _ => apply Z.eqb_eq in H
  | H : (_ =? _) = false |- _ => apply Z.eqb_neq in H
  | H : _ && _ = true |- _ => apply andb_prop in H; destruct H
  | H : _ || _ = false |- _ => apply orb_false_elim in H; destruct H
  | H : negb _ = true |- _ => apply negb_true_iff in H
  | H : negb _ = false |- _ => apply negb_false_iff in H
  end.
(** Case analysis on the first comparison of the goal. *)
Ltac zcase :=
  match goal with
  | |- context [if ?a <? ?b then _ else _] => destruct (Z.ltb_spec a b)
  | |- context [if ?a <=? ?b then _ else _] => destruct (Z.leb_spec a b)
  | |- context [if ?a =? ?b then _ else _] => destruct (Z.eqb_spec a b)
  end.

(** Decides a goal by cases on all its comparisons. *)
Ltac zcases :=
  repeat match goal with
  | |- context [?a <=? ?b] => destruct (Z.leb_spec a b)
  | |- context [?a <? ?b] => destruct (Z.ltb_spec a b)
  | |- context [?a =? ?b] => destruct (Z.eqb_spec a b)
  end; cbn [andb orb negb]; try reflexivity; try lia; auto.

(** ** Total maps from integers, the model of C arrays and memories *)

Definition upd {V : Type} (m : Z -> V) (a : Z) (v : V) : Z -> V :=
  fun x => if x =? a then v else m x.

Lemma upd_eq {V} (m : Z -> V) a v : upd m a v a = v.
Proof. unfold upd. now rewrite Z.eqb_refl. Qed.
Lemma upd_ne {V} (m : Z -> V) a v x : x <> a -> upd m a v x = m x.
Proof. unfold upd. intros. now rewrite (proj2 (Z.eqb_neq _ _)). Qed.

(** Splits a goal about cells of updated memories into its address cases. *)
Ltac mem_cases :=
  repeat match goal with
  | |- context [if ?a <=? ?b then _ else _] => destruct (Z.leb_spec a b)
  | |- context [if ?a <? ?b then _ else _] => destruct (Z.ltb_spec a b)
  | |- context [if ?a =? ?b then _ else _] => destruct (Z.eqb_spec a b)
  | |- context [(?a <=? ?b) && _] => destruct (Z.leb_spec a b); cbn [andb]
  | |- context [(?a <? ?b) && _] => destruct (Z.ltb_spec a b); cbn [andb]
  | |- context [?a <? ?b] => destruct (Z.ltb_spec a b); cbn [andb]
  end.

(** ** Lists *)

Lemma filter_in {A : Type} (p : A -> bool) l x : x ∈ List.filter p l <-> x ∈ l /\ p x = true.
Proof. rewrite !list_elem_of_In. apply List.filter_In. Qed.
Lemma filter_NoDup {A : Type} (p : A -> bool) l : NoDup l -> NoDup (List.filter p l).
Proof. rewrite !NoDup_ListNoDup. apply List.NoDup_filter. Qed.
Lemma rev_NoDup {A : Type} (l : list A) : NoDup l -> NoDup (rev l).
Proof. rewrite !NoDup_ListNoDup. apply List.NoDup_rev. Qed.
Lemma rev_in {A : Type} (l : list A) x : x ∈ rev l <-> x ∈ l.
Proof. rewrite !list_elem_of_In. symmetry. apply List.in_rev. Qed.
(** [q] without the element [e]. *)
Definition without (e : Z) (q : list Z) : list Z := List.filter (fun x => negb (x =? e)) q.
Lemma without_in p q x : x ∈ without p q <-> x ∈ q /\ x <> p.
Proof. unfold without. rewrite filter_in, negb_true_iff, Z.eqb_neq. easy. Qed.
Lemma without_notin e q : e ∉ q -> without e q = q.
Proof.
  induction q as [|x q IH]; intros H; cbn; [reflexivity|]. rewrite not_elem_of_cons in H. destruct H as [Hx Hq].
  destruct (Z.eqb_spec x e); [congruence|]. cbn. f_equal. now apply IH.
Qed.
Lemma without_perm e (q : list Z) : NoDup q -> e ∈ q -> q ≡ₚ e :: without e q.
Proof.
  induction q as [|x q IH]; intros Hn He; [now apply not_elem_of_nil in He|]. apply NoDup_cons in Hn as [Hx Hn]. unfold without. cbn [List.filter]. destruct (Z.eqb_spec x e) as [->|Ne]; cbn [negb].
  - change (List.filter (fun x => negb (x =? e)) q) with (without e q). now rewrite without_notin.
  - rewrite Permutation_swap. apply Permutation_skip, IH; [exact Hn|]. now apply elem_of_cons in He as [He|He]; [congruence|].
Qed.
