(* ===== verification/StringLib.v ===== *)
(** * Memory and string routines

    [src/lib/string.c] and [src/kern/lib/wchar.c].  Memory is a total map from
    addresses to cells; a byte memory ([mem_ok]) has a byte in every cell, and
    an array of [wchar] is a memory of its own with one 16-bit element per
    index.  [char] is unsigned on RISC-V.  A routine that returns its first
    argument returns it here too, with the new memory. *)

From S2P Require Import Prelude.
From Stdlib Require Import ZArith Lia Bool List.
From stdpp Require Import base tactics list.
Open Scope Z_scope.

(** ** Memory *)

Abbreviation mem := (Z -> Z).
(** A byte store truncates the value. *)
Definition st8 (m : mem) (a v : Z) : mem := upd m a (wrap8 v).
(** Little-endian 64-bit load and store. *)
Definition ld64 (m : mem) (a : Z) : Z :=
  m a + 256 * m (a + 1) + 65536 * m (a + 2) + 16777216 * m (a + 3)
  + 4294967296 * m (a + 4) + 1099511627776 * m (a + 5)
  + 281474976710656 * m (a + 6) + 72057594037927936 * m (a + 7).
Definition st64 (m : mem) (a v : Z) : mem :=
  fun x => if (a <=? x) && (x <? a + 8) then wrap8 (Z.shiftr v (8 * (x - a))) else m x.

Definition mem_ok (m : mem) : Prop := forall a, 0 <= m a < 256.

(** [memset] *)

(** [for (i = 0; i < k; i++) a[i] = ch;] *)
Fixpoint set_bytes (k : nat) (m : mem) (a ch : Z) : mem :=
  match k with
  | O => m
  | S k' => set_bytes k' (st8 m a ch) (a + 1) ch
  end.

(** The eight-byte loop: [i] is an [int], [n] a [uint], so the comparison and
    the subtraction are unsigned; an increment past [INT_MAX] is undefined. *)
Fixpoint memset_words (fuel : nat) (m : mem) (p i n data : Z) : res (mem * Z) :=
  match fuel with
  | O => Err NoFuel
  | S f =>
      if wrap32 i <=? wrap32 (n - 8) then
        if 2147483647 <? i + 8 then Err Undef
        else memset_words f (st64 m p data) (p + 8) (i + 8) n data
      else Ok (m, i)
  end.

Definition memset_data (c : Z) : Z :=
  let ch := wrap8 c in
  if c =? 0 then 0
  else Z.lor (Z.lor (Z.lor (Z.lor (Z.lor (Z.lor (Z.lor
         (Z.shiftl ch 56) (Z.shiftl ch 48)) (Z.shiftl ch 40)) (Z.shiftl ch 32))
         (Z.shiftl ch 24)) (Z.shiftl ch 16)) (Z.shiftl ch 8)) ch.

(** The number of bytes before the first 8-aligned address. *)
Definition memset_head (dst : Z) : Z :=
  if negb (dst mod 8 =? 0) then 8 - Z.land dst 7 else 0.

Definition memset (fuel : nat) (m : mem) (dst c n : Z) : res (Z * mem) :=
  let ch := wrap8 c in
  let data := memset_data c in
  let '(m1, cdst, n1) :=
    if negb (dst mod 8 =? 0) then
      let sum := 8 - Z.land dst 7 in
      (set_bytes (Z.to_nat sum) m dst ch, Z.land (dst + 7) (Z.lnot 7), wrap32 (n - sum))
    else (m, dst, n) in
  res_bind (memset_words fuel m1 cdst 0 n1 data) (fun '(m2, i) =>
    if i =? n1 then Ok (dst, m2)
    else Ok (dst, set_bytes (Z.to_nat (n1 - i)) m2 (cdst + i) ch)).

Definition slow_memset (m : mem) (dst c n : Z) : Z * mem :=
  (dst, set_bytes (Z.to_nat n) m dst c).

(** [memmove], [memcpy], [memcmp] *)

(** [while (n-- > 0) *--d = *--s;] *)
Fixpoint copy_back (k : nat) (m : mem) (d s : Z) : mem :=
  match k with
  | O => m
  | S k' => copy_back k' (upd m (d - 1) (m (s - 1))) (d - 1) (s - 1)
  end.
(** [while (n-- > 0) *d++ = *s++;] *)
Fixpoint copy_fwd (k : nat) (m : mem) (d s : Z) : mem :=
  match k with
  | O => m
  | S k' => copy_fwd k' (upd m d (m s)) (d + 1) (s + 1)
  end.
(** [k] rounds of [*pd++ = *ps++] on [u64] pointers. *)
Fixpoint copy_words (k : nat) (m : mem) (d s : Z) : mem :=
  match k with
  | O => m
  | S k' => copy_words k' (st64 m d (ld64 m s)) (d + 8) (s + 8)
  end.

Definition memmove (m : mem) (dst src n : Z) : Z * mem :=
  if n =? 0 then (dst, m)
  else if (src <? dst) && (dst <? src + n) then
    (dst, copy_back (Z.to_nat n) m (dst + n) (src + n))
  else if (src mod 8 =? 0) && (dst mod 8 =? 0) then
    (* [for (; n >= 8; n -= 8)] runs [n / 8] times and leaves [n mod 8] *)
    let w := n / 8 in
    let m1 := copy_words (Z.to_nat w) m dst src in
    (dst, copy_fwd (Z.to_nat (n mod 8)) m1 (dst + 8 * w) (src + 8 * w))
  else (dst, copy_fwd (Z.to_nat n) m dst src).

Definition memcpy (m : mem) (dst src n : Z) : Z * mem := memmove m dst src n.

Fixpoint memcmp (n : nat) (m : mem) (s1 s2 : Z) : Z :=
  match n with
  | O => 0
  | S n' => if negb (m s1 =? m s2) then m s1 - m s2 else memcmp n' m (s1 + 1) (s2 + 1)
  end.

(** ** Strings *)

Fixpoint strlen_from (fuel : nat) (m : mem) (s n : Z) : res Z :=
  match fuel with
  | O => Err NoFuel
  | S f => if m (s + n) =? 0 then Ok n else strlen_from f m s (n + 1)
  end.
Definition strlen (fuel : nat) (m : mem) (s : Z) : res Z := strlen_from fuel m s 0.

Fixpoint strncmp (n : nat) (m : mem) (p q : Z) : Z :=
  match n with
  | O => 0
  | S n' =>
      if negb (m p =? 0) && (m p =? m q) then strncmp n' m (p + 1) (q + 1)
      else if (m p =? 0) && (m q =? 0) then 0 else m p - m q
  end.

(** [while (n-- > 0 && ( *s++ = *t++ ) != 0) ;] and the final [s]. *)
Fixpoint strncpy_loop (n : nat) (m : mem) (s t : Z) : mem * Z :=
  match n with
  | O => (m, s)
  | S n' =>
      let c := m t in
      let m' := upd m s c in
      if negb (c =? 0) then strncpy_loop n' m' (s + 1) (t + 1) else (m', s + 1)
  end.
Definition strncpy (m : mem) (s t n : Z) : Z * mem :=
  (s, fst (strncpy_loop (Z.to_nat n) m s t)).

Definition safestrcpy (m : mem) (s t n : Z) : Z * mem :=
  if n <=? 0 then (s, m)
  else
    (* [while (--n > 0 && ...)] runs at most [n - 1] times *)
    let '(m1, s1) := strncpy_loop (Z.to_nat (n - 1)) m s t in
    if negb (m1 (s1 - 1) =? 0) then (s, upd m1 (s1 - 1) 0) else (s, m1).

(** [for (i = lbuf; i >= 0; i--) buf[i + len] = buf[i];] is the backward
    copy of [lbuf + 1] cells; the second loop is a forward copy. *)
Definition ins_front (m : mem) (buf str lbuf len : Z) : mem :=
  let m1 := copy_back (Z.to_nat (lbuf + 1)) m (buf + len + lbuf + 1) (buf + lbuf + 1) in
  copy_fwd (Z.to_nat len) m1 buf str.

Definition strins (fuel : nat) (m : mem) (buf str : Z) : res mem :=
  res_bind (strlen fuel m buf) (fun lbuf =>
  res_bind (strlen fuel m str) (fun len => Ok (ins_front m buf str lbuf len))).

Definition strnins (fuel : nat) (m : mem) (buf str len : Z) : res mem :=
  res_bind (strlen fuel m buf) (fun lbuf => Ok (ins_front m buf str lbuf len)).

(** [for (i = 0; i <= len; i++) buf[lbuf + i] = str[i];] *)
Definition strcat (fuel : nat) (m : mem) (buf str : Z) : res mem :=
  res_bind (strlen fuel m buf) (fun lbuf =>
  res_bind (strlen fuel m str) (fun len =>
    Ok (copy_fwd (Z.to_nat (len + 1)) m (buf + lbuf) str))).

Fixpoint strchr (fuel : nat) (m : mem) (s c : Z) : res (option Z) :=
  match fuel with
  | O => Err NoFuel
  | S f => if m s =? 0 then Ok None
           else if m s =? c then Ok (Some s) else strchr f m (s + 1) c
  end.

(** ** Wide strings *)

Definition wstrlen (fuel : nat) (m : mem) (s : Z) : res Z := strlen_from fuel m s 0.
Definition wstrnins (fuel : nat) (m : mem) (buf str len : Z) : res mem :=
  res_bind (wstrlen fuel m buf) (fun lbuf => Ok (ins_front m buf str lbuf len)).

(** The loop [for (i = 0; src[i]; i++) dst[i] = f(src[i]);] between a source
    and a destination memory; the result has the final [i]. *)
Fixpoint conv_loop (fuel : nat) (f : Z -> Z) (md ms : mem) (dst src i : Z) : res (mem * Z) :=
  match fuel with
  | O => Err NoFuel
  | S k => if ms (src + i) =? 0 then Ok (md, i)
           else conv_loop k f (upd md (dst + i) (f (ms (src + i)))) ms dst src (i + 1)
  end.
Definition wstr2str (fuel : nat) (md ms : mem) (dst src : Z) : res (Z * mem) :=
  res_bind (conv_loop fuel (fun c => wrap8 (Z.land c 255)) md ms dst src 0)
    (fun '(md', i) => Ok (i, upd md' (dst + i) 0)).
Definition str2wstr (fuel : nat) (md ms : mem) (dst src : Z) : res (Z * mem) :=
  res_bind (conv_loop fuel (fun c => c) md ms dst src 0)
    (fun '(md', i) => Ok (i, upd md' (dst + i) 0)).

Fixpoint strn2wstr_loop (k : nat) (md ms : mem) (dst src i : Z) : mem * Z :=
  match k with
  | O => (md, i)
  | S k' => if ms (src + i) =? 0 then (md, i)
            else strn2wstr_loop k' (upd md (dst + i) (ms (src + i))) ms dst src (i + 1)
  end.
Definition strn2wstr (md ms : mem) (dst src n : Z) : Z * mem :=
  let '(md', i) := strn2wstr_loop (Z.to_nat n) md ms dst src 0 in
  if i <? n then (i, upd md' (dst + i) 0) else (i, md').

(** ** Facts about the loops *)

Lemma set_bytes_spec k : forall m a ch x,
  set_bytes k m a ch x =
  if (a <=? x) && (x <? a + Z.of_nat k) then wrap8 ch else m x.
Proof.
  induction k as [|k IH]; intros m a ch x; cbn [set_bytes].
  - mem_cases; auto; lia.
  - rewrite IH. unfold st8, upd. mem_cases; auto; lia.
Qed.

Lemma copy_fwd_spec k : forall m d s x,
  d <= s \/ s + Z.of_nat k <= d ->
  copy_fwd k m d s x = if (d <=? x) && (x <? d + Z.of_nat k) then m (s + (x - d)) else m x.
Proof.
  induction k as [|k IH]; intros m d s x Hds; cbn [copy_fwd].
  - mem_cases; auto; lia.
  - rewrite IH by lia. unfold upd.
    mem_cases; auto; try lia; f_equal; lia.
Qed.

Lemma copy_back_spec k : forall m d s x,
  s <= d \/ d + Z.of_nat k <= s ->
  copy_back k m d s x =
  if (d - Z.of_nat k <=? x) && (x <? d) then m (s + (x - d)) else m x.
Proof.
  induction k as [|k IH]; intros m d s x Hds; cbn [copy_back].
  - mem_cases; auto; lia.
  - rewrite IH by lia. unfold upd.
    mem_cases; auto; try lia; f_equal; lia.
Qed.

Lemma ld64_byte m a j :
  mem_ok m -> 0 <= j < 8 -> wrap8 (Z.shiftr (ld64 m a) (8 * j)) = m (a + j).
Proof.
  intros Hm Hj. unfold ld64, wrap8.
  pose proof (Hm a); pose proof (Hm (a + 1)); pose proof (Hm (a + 2)); pose proof (Hm (a + 3)).
  pose proof (Hm (a + 4)); pose proof (Hm (a + 5)); pose proof (Hm (a + 6)); pose proof (Hm (a + 7)).
  rewrite Z.shiftr_div_pow2 by lia.
  assert (Hc : j = 0 \/ j = 1 \/ j = 2 \/ j = 3 \/ j = 4 \/ j = 5 \/ j = 6 \/ j = 7) by lia.
  destruct Hc as [->|[->|[->|[->|[->|[->|[->| ->]]]]]]]; rewrite ?Z.add_0_r;
    match goal with |- context [2 ^ ?e] => let v := eval compute in (2 ^ e) in change (2 ^ e) with v end;
    zlia.
Qed.

Lemma copy_words_spec k : forall m d s x,
  mem_ok m -> d <= s \/ s + 8 * Z.of_nat k <= d ->
  copy_words k m d s x =
  if (d <=? x) && (x <? d + 8 * Z.of_nat k) then m (s + (x - d)) else m x.
Proof.
  induction k as [|k IH]; intros m d s x Hm Hds; cbn [copy_words].
  - mem_cases; auto; lia.
  - assert (Hst : forall y, st64 m d (ld64 m s) y =
               if (d <=? y) && (y <? d + 8) then m (s + (y - d)) else m y).
    { intros y. unfold st64. mem_cases; auto. rewrite ld64_byte by (auto; lia). f_equal; lia. }
    rewrite IH; [| intros y; rewrite Hst; mem_cases; apply Hm | lia].
    rewrite !Hst. mem_cases; auto; try lia; f_equal; lia.
Qed.

(** A backward copy of [k] cells ending at [d + k] and [s + k], the way the
    routines call it. *)
Lemma copy_back_end k m d s x :
  s <= d ->
  copy_back k m (d + Z.of_nat k) (s + Z.of_nat k) x =
  if (d <=? x) && (x <? d + Z.of_nat k) then m (s + (x - d)) else m x.
Proof.
  intros. rewrite copy_back_spec by lia.
  replace (d + Z.of_nat k - Z.of_nat k) with d by lia.
  mem_cases; auto. f_equal; lia.
Qed.

(** ** [memset] *)

Lemma memset_data_byte c j : 0 <= j < 8 -> wrap8 (Z.shiftr (memset_data c) (8 * j)) = wrap8 c.
Proof.
  intros Hj. unfold memset_data.
  destruct (Z.eqb_spec c 0) as [->|_]; [now rewrite Z.shiftr_0_l|].
  pose proof (wrap8_range c) as Hc. revert Hc. generalize (wrap8 c). intros ch Hc.
  assert (Hall : forallb (fun j => forallb (fun ch =>
      wrap8 (Z.shiftr (Z.lor (Z.lor (Z.lor (Z.lor (Z.lor (Z.lor (Z.lor
         (Z.shiftl ch 56) (Z.shiftl ch 48)) (Z.shiftl ch 40)) (Z.shiftl ch 32))
         (Z.shiftl ch 24)) (Z.shiftl ch 16)) (Z.shiftl ch 8)) ch) (8 * j)) =? ch)
      (map Z.of_nat (seq 0 256))) (map Z.of_nat (seq 0 8)) = true) by (vm_compute; reflexivity).
  rewrite forallb_forall in Hall. specialize (Hall j).
  rewrite forallb_forall in Hall.
  apply Z.eqb_eq, Hall; apply in_map_iff;
    [exists (Z.to_nat j) | exists (Z.to_nat ch)]; (split; [lia | apply in_seq; lia]).
Qed.

Lemma memset_words_spec fuel : forall m p i n c,
  0 <= i -> i mod 8 = 0 -> 8 <= n < 2147483648 -> i <= n -> n - i < 8 * Z.of_nat fuel ->
  exists m' : mem, memset_words fuel m p i n (memset_data c) = Ok (m', n - n mod 8) /\
    forall x, m' x = if (p <=? x) && (x <? p + (n - n mod 8 - i)) then wrap8 c else m x.
Proof.
  induction fuel as [|f IH]; intros m p i n c Hi Hi8 Hn Hin Hf; [lia|].
  cbn [memset_words]. rewrite (wrap32_small i), (wrap32_small (n - 8)) by lia.
  destruct (Z.leb_spec i (n - 8)).
  - destruct (Z.ltb_spec 2147483647 (i + 8)); [lia|].
    destruct (IH (st64 m p (memset_data c)) (p + 8) (i + 8) n c) as (m' & -> & Hm'); try lia.
    { zlia. }
    eexists; split; [reflexivity|]. intros x. rewrite Hm'. unfold st64.
    assert (8 <= n - n mod 8 - i) by zlia.
    mem_cases; auto; try lia.
    apply memset_data_byte; lia.
  - assert (n - n mod 8 = i) as E by zlia. rewrite E.
    exists m; split; [reflexivity|]. intros x. mem_cases; auto; lia.
Qed.

Lemma memset_head_eq dst : 0 <= dst ->
  memset_head dst = (- dst) mod 8 /\
  (dst mod 8 <> 0 -> 8 - Z.land dst 7 = (- dst) mod 8 /\
                     Z.land (dst + 7) (Z.lnot 7) = dst + (- dst) mod 8).
Proof.
  intros Hd.
  assert (Hl : Z.land dst 7 = dst mod 8) by (change 7 with (Z.ones 3); apply Z.land_ones; lia).
  assert (Hn : Z.land (dst + 7) (Z.lnot 7) = (dst + 7) - (dst + 7) mod 8).
  { change (Z.lnot 7) with (Z.lnot (Z.ones 3)).
    rewrite <- Z.ldiff_land, Z.ldiff_ones_r by lia.
    rewrite Z.shiftr_div_pow2, Z.shiftl_mul_pow2 by lia. change (2 ^ 3) with 8. zlia. }
  unfold memset_head. rewrite Hl, Hn.
  destruct (Z.eqb_spec (dst mod 8) 0); cbn [negb]; split; try (intros; split); zlia.
Qed.

Lemma memset_equiv_run (m : mem) (dst c n : Z) :
  0 <= dst -> 8 + memset_head dst <= n < 2147483648 ->
  exists m', memset (Z.to_nat n) m dst c n = Ok (dst, m') /\
    fst (slow_memset m dst c n) = dst /\
    forall x, m' x = snd (slow_memset m dst c n) x.
Proof.
  intros Hd Hn. destruct (memset_head_eq dst Hd) as [Hh Hh'].
  rewrite Hh in Hn. pose proof (Z.mod_pos_bound (- dst) 8 ltac:(lia)) as Hb.
  unfold memset, slow_memset; cbn [fst snd].
  set (h := (- dst) mod 8) in *.
  assert (E : (if negb (dst mod 8 =? 0)
               then (set_bytes (Z.to_nat (8 - Z.land dst 7)) m dst (wrap8 c),
                     Z.land (dst + 7) (Z.lnot 7), wrap32 (n - (8 - Z.land dst 7)))
               else (m, dst, n)) =
              (set_bytes (Z.to_nat h) m dst (wrap8 c), dst + h, n - h)).
  { destruct (Z.eqb_spec (dst mod 8) 0) as [E|E]; cbn [negb].
    - assert (h = 0) as -> by (unfold h; zlia). cbn [set_bytes Z.to_nat]. repeat f_equal; lia.
    - destruct (Hh' E) as [-> ->]. rewrite wrap32_small by lia. reflexivity. }
  cbv zeta. rewrite E.
  destruct (memset_words_spec (Z.to_nat n) (set_bytes (Z.to_nat h) m dst (wrap8 c))
              (dst + h) 0 (n - h) c) as (m2 & -> & Hm2); try lia; [reflexivity|].
  cbn [res_bind].
  assert (Hww : wrap8 (wrap8 c) = wrap8 c) by (apply wrap8_small, wrap8_range).
  destruct (Z.eqb_spec (n - h - (n - h) mod 8) (n - h)) as [E2|E2];
    (eexists; split; [reflexivity|]; split; [reflexivity|]; intros x;
     rewrite !set_bytes_spec, ?Hm2, ?set_bytes_spec, ?Hww;
     pose proof (Z.mod_pos_bound (n - h) 8 ltac:(lia));
     mem_cases; auto; lia).
Qed.
Lemma memset_clears (m : mem) (dst c n : Z) : 0 <= dst -> 8 + memset_head dst <= n < 2147483648 ->
  exists m', memset (Z.to_nat n) m dst c n = Ok (dst, m') /\
    forall x, m' x = if (dst <=? x) && (x <? dst + n) then wrap8 c else m x.
Proof.
  intros Hd Hn. destruct (memset_equiv_run m dst c n Hd Hn) as (m' & E & _ & Hm). exists m'. split; [exact E|].
  intros x. rewrite Hm. unfold slow_memset. cbn [snd]. rewrite set_bytes_spec, Z2Nat.id; [reflexivity|].
  unfold memset_head in Hn. destruct (negb _); [|lia]. change 7 with (Z.ones 3) in Hn. rewrite Z.land_ones in Hn by lia. zlia.
Qed.

(** The word-at-a-time [memset] computes what the byte-at-a-time
    [slow_memset] computes, and terminates, whenever at least eight bytes are
    left once the destination is aligned: it returns [dst] and every cell of
    memory is the one the reference leaves. *)
Theorem memset_equiv_slow (m : mem) (dst c n : Z) :
  0 <= dst -> 8 + memset_head dst <= n < 2147483648 ->
  exists m', memset (Z.to_nat n) m dst c n = Ok (dst, m') /\
    fst (slow_memset m dst c n) = dst /\
    forall x, m' x = snd (slow_memset m dst c n) x.
Proof. apply memset_equiv_run. Qed.
Lemma memset_equiv_slow_witness :
  exists m', memset (Z.to_nat 21) (fun _ => 7) 1003 65 21 = Ok (1003, m') /\
    fst (slow_memset (fun _ => 7) 1003 65 21) = 1003 /\
    forall x, m' x = snd (slow_memset (fun _ => 7) 1003 65 21) x.
Proof. apply (memset_equiv_slow (fun _ => 7) 1003 65 21); vm_compute; repeat split; discriminate. Defined.

Lemma memset_words_short fuel : forall m p i n data,
  0 <= i < 2147483648 -> 0 <= wrap32 n < 8 \/ 2147483656 <= wrap32 n ->
  forall r, memset_words fuel m p i n data <> Ok r.
Proof.
  induction fuel as [|f IH]; intros m p i n data Hi Hn r; cbn [memset_words]; [discriminate|].
  rewrite (wrap32_small i) by lia.
  assert (2147483648 <= wrap32 (n - 8)) by (unfold wrap32 in *; zlia).
  destruct (Z.leb_spec i (wrap32 (n - 8))); [|lia].
  destruct (Z.ltb_spec 2147483647 (i + 8)); [discriminate|]. apply IH; lia.
Qed.

(** With fewer than eight bytes left after alignment the bound [n - 8] of
    the word loop wraps around: [memset] never returns, whatever the number of
    iterations allowed. *)
Theorem memset_short_never_returns (fuel : nat) (m : mem) (dst c n : Z) :
  0 <= dst -> 0 <= n < 8 + memset_head dst ->
  forall r, memset fuel m dst c n <> Ok r.
Proof.
  intros Hd Hn r. destruct (memset_head_eq dst Hd) as [Hh Hh'].
  rewrite Hh in Hn. pose proof (Z.mod_pos_bound (- dst) 8 ltac:(lia)) as Hb.
  unfold memset. cbv zeta.
  destruct (Z.eqb_spec (dst mod 8) 0) as [E|E]; cbn [negb].
  - assert ((- dst) mod 8 = 0) by zlia.
    destruct (memset_words _ _ _ _ _ _) eqn:Ew; cbn [res_bind]; [|discriminate].
    exfalso. eapply memset_words_short; [| |exact Ew]; [lia|].
    left. rewrite wrap32_small; lia.
  - destruct (Hh' E) as [-> ->].
    destruct (memset_words _ _ _ _ _ _) eqn:Ew; cbn [res_bind]; [|discriminate].
    exfalso. eapply memset_words_short; [| |exact Ew]; [lia|].
    unfold wrap32 in *; zlia.
Qed.
Lemma memset_short_never_returns_witness :
  memset 50 (fun _ => 1) 4096 0 4 <> Ok (4096, fun _ => 0).
Proof. apply (memset_short_never_returns 50 (fun _ => 1) 4096 0 4); vm_compute; repeat split; discriminate. Defined.

(** ** [memmove] and comparisons *)

(** [memmove] (and so [memcpy]) copies the old contents of the source
    range into the destination range for every overlap and alignment of the
    two, and changes nothing else: the backward, the word and the byte copies
    all implement the simultaneous copy. *)
Theorem memmove_spec (m : mem) (dst src n : Z) :
  mem_ok m -> 0 <= n ->
  fst (memmove m dst src n) = dst /\
  forall x, snd (memmove m dst src n) x =
    if (dst <=? x) && (x <? dst + n) then m (src + (x - dst)) else m x.
Proof.
  intros Hm Hn. unfold memmove.
  destruct (Z.eqb_spec n 0) as [->|Hn0]; cbn [fst snd].
  { split; [reflexivity|]. intros x; mem_cases; auto; lia. }
  destruct ((src <? dst) && (dst <? src + n)) eqn:Eo;
    [|destruct ((src mod 8 =? 0) && (dst mod 8 =? 0)) eqn:Ea]; cbn [fst snd];
    (split; [reflexivity|]; intros x); zbool.
  - rewrite <- (Z2Nat.id n) at 2 3 by lia. rewrite copy_back_end by lia.
    rewrite Z2Nat.id by lia. reflexivity.
  - assert (Hds : dst <= src \/ src + n <= dst).
    { apply andb_false_iff in Eo as [Eo|Eo]; zbool; lia. }
    rewrite copy_fwd_spec by zlia.
    rewrite !copy_words_spec by (auto; zlia).
    rewrite !Z2Nat.id by zlia.
    assert (n = 8 * (n / 8) + n mod 8 /\ 0 <= n mod 8 < 8) as [En Er] by zlia.
    mem_cases; auto; try lia; f_equal; lia.
  - assert (Hds : dst <= src \/ src + n <= dst).
    { apply andb_false_iff in Eo as [Eo|Eo]; zbool; lia. }
    rewrite copy_fwd_spec by lia. rewrite Z2Nat.id by lia. reflexivity.
Qed.
Lemma memmove_spec_witness :
  fst (memmove (fun a => a mod 256) 1008 1000 20) = 1008 /\
  forall x, snd (memmove (fun a => a mod 256) 1008 1000 20) x =
    if (1008 <=? x) && (x <? 1028) then (1000 + (x - 1008)) mod 256 else x mod 256.
Proof.
  apply (memmove_spec (fun a => a mod 256) 1008 1000 20).
  - intros a. apply Z.mod_pos_bound; reflexivity.
  - discriminate.
Defined.

(** [bytes_at m a l]: the cells from [a] on hold [l]. *)
Definition bytes_at (m : mem) (a : Z) (l : list Z) : Prop :=
  forall i x, l !! i = Some x -> m (a + Z.of_nat i) = x.
(** A NUL-terminated string: no character of [l] is NUL. *)
Definition cstr (m : mem) (a : Z) (l : list Z) : Prop :=
  bytes_at m a (l ++ [0]) /\ Forall (fun c => c <> 0) l.

Lemma bytes_at_nil m a : bytes_at m a [].
Proof. intros i x H. rewrite lookup_nil in H. discriminate. Qed.
Lemma bytes_at_cons m a c l : bytes_at m a (c :: l) <-> m a = c /\ bytes_at m (a + 1) l.
Proof.
  split.
  - intros H. split; [rewrite <- (H 0%nat c eq_refl); f_equal; lia|].
    intros i x Hi. rewrite <- (H (S i) x Hi). f_equal; lia.
  - intros [Ha Hl] [|i] x Hi; cbn in Hi.
    + injection Hi as <-. rewrite <- Ha. f_equal; lia.
    + rewrite <- (Hl i x Hi). f_equal; lia.
Qed.
Lemma bytes_at_app m a l1 l2 :
  bytes_at m a (l1 ++ l2) <-> bytes_at m a l1 /\ bytes_at m (a + Z.of_nat (length l1)) l2.
Proof.
  revert a; induction l1 as [|c l1 IH]; intros a; cbn [app length].
  - rewrite Z.add_0_r. split; [split; [apply bytes_at_nil|auto] | tauto].
  - rewrite !bytes_at_cons, IH.
    replace (a + 1 + Z.of_nat (length l1)) with (a + Z.of_nat (S (length l1))) by lia. tauto.
Qed.
Lemma bytes_at_ext m m' a l :
  (forall x, a <= x < a + Z.of_nat (length l) -> m' x = m x) -> bytes_at m a l -> bytes_at m' a l.
Proof.
  intros Hx H i x Hi. rewrite Hx; [auto|]. apply lookup_lt_Some in Hi. lia.
Qed.
(** The contents of a range after a copy of another one. *)
Lemma bytes_at_copied m m' d s l :
  (forall x, d <= x < d + Z.of_nat (length l) -> m' x = m (s + (x - d))) ->
  bytes_at m s l -> bytes_at m' d l.
Proof.
  intros Hx H i x Hi. pose proof (lookup_lt_Some _ _ _ Hi).
  rewrite Hx by lia. rewrite <- (H i x Hi). f_equal; lia.
Qed.

Lemma cstr_cons m a c l : cstr m a (c :: l) <-> c <> 0 /\ m a = c /\ cstr m (a + 1) l.
Proof. unfold cstr. cbn [app]. rewrite bytes_at_cons, Forall_cons. tauto. Qed.
Lemma cstr_nil m a : cstr m a [] <-> m a = 0.
Proof.
  unfold cstr; cbn [app]. rewrite bytes_at_cons.
  split; [tauto | split; [split; auto using bytes_at_nil | constructor]].
Qed.

(** [memcmp] decides equality of the two ranges: zero exactly when all [n]
    bytes agree. *)
Theorem memcmp_zero_iff (n : nat) (m : mem) (s1 s2 : Z) :
  memcmp n m s1 s2 = 0 <-> forall i, 0 <= i < Z.of_nat n -> m (s1 + i) = m (s2 + i).
Proof.
  revert s1 s2; induction n as [|n IH]; intros s1 s2; cbn [memcmp].
  - split; [lia | reflexivity].
  - destruct (Z.eqb_spec (m s1) (m s2)) as [E|E]; cbn [negb].
    + rewrite IH. split; intros H i Hi.
      * destruct (Z.eq_dec i 0) as [->|]; [now rewrite !Z.add_0_r|].
        specialize (H (i - 1) ltac:(lia)).
        replace (s1 + 1 + (i - 1)) with (s1 + i) in H by lia.
        replace (s2 + 1 + (i - 1)) with (s2 + i) in H by lia. exact H.
      * specialize (H (i + 1) ltac:(lia)).
        replace (s1 + (i + 1)) with (s1 + 1 + i) in H by lia.
        replace (s2 + (i + 1)) with (s2 + 1 + i) in H by lia. exact H.
    + split; [lia|]. intros H. specialize (H 0 ltac:(lia)). rewrite !Z.add_0_r in H. lia.
Qed.

Lemma strlen_from_cstr fuel : forall m s n l,
  cstr m (s + n) l -> (length l < fuel)%nat ->
  strlen_from fuel m s n = Ok (n + Z.of_nat (length l)).
Proof.
  induction fuel as [|f IH]; intros m s n l Hl Hf; [lia|]. cbn [strlen_from].
  destruct l as [|c l].
  - apply cstr_nil in Hl. rewrite Hl. cbn. f_equal; lia.
  - apply cstr_cons in Hl as (Hc & Hm & Hl). rewrite Hm, (proj2 (Z.eqb_neq _ _) Hc).
    rewrite (IH m s (n + 1) l); [f_equal; cbn [length]; lia | | cbn in Hf; lia].
    now replace (s + (n + 1)) with (s + n + 1) by lia.
Qed.
Lemma strlen_cstr fuel m s l :
  cstr m s l -> (length l < fuel)%nat -> strlen fuel m s = Ok (Z.of_nat (length l)).
Proof.
  intros H Hf. unfold strlen. rewrite (strlen_from_cstr fuel m s 0 l); auto.
  now rewrite Z.add_0_r.
Qed.

(** [strncmp] on two NUL-terminated strings is zero exactly when their
    first [n] characters agree. *)
Theorem strncmp_zero_iff (n : nat) (m : mem) (p q : Z) (l1 l2 : list Z) :
  cstr m p l1 -> cstr m q l2 ->
  strncmp n m p q = 0 <-> take n l1 = take n l2.
Proof.
  revert p q l1 l2; induction n as [|n IH]; intros p q l1 l2 H1 H2; cbn [strncmp]; [tauto|].
  destruct l1 as [|c1 l1], l2 as [|c2 l2]; cbn [take];
    (rewrite cstr_nil in H1 || rewrite cstr_cons in H1); (rewrite cstr_nil in H2 || rewrite cstr_cons in H2).
  - rewrite H1, H2. cbn. tauto.
  - destruct H2 as (Hc & -> & _). rewrite H1. cbn [Z.eqb negb andb].
    rewrite (proj2 (Z.eqb_neq _ _) Hc). split; [lia|discriminate].
  - destruct H1 as (Hc & -> & _). rewrite H2, (proj2 (Z.eqb_neq _ _) Hc). cbn [negb andb].
    split; [lia|discriminate].
  - destruct H1 as (Hc1 & -> & H1), H2 as (Hc2 & -> & H2).
    rewrite (proj2 (Z.eqb_neq _ _) Hc1). cbn [negb andb].
    destruct (Z.eqb_spec c1 c2) as [->|E].
    + rewrite IH by eauto. split; [intros E; now rewrite E | intros E; now injection E].
    + split; [lia | intros E2; now injection E2].
Qed.
Lemma strncmp_zero_iff_witness :
  let m := fun a => if a =? 10 then 46 else if a =? 20 then 46 else if a =? 21 then 46 else 0 in
  strncmp 2 m 10 20 = 0 <-> take 2 [46] = take 2 [46; 46].
Proof.
  intros m. apply (strncmp_zero_iff 2 m 10 20 [46] [46; 46]);
    rewrite ?cstr_cons, cstr_nil; repeat split; (reflexivity || discriminate).
Defined.

(** ** Copying strings *)

(** Two ranges do not meet. *)
Definition disjoint_ranges (a la b lb : Z) : Prop := a + la <= b \/ b + lb <= a.

Lemma cstr_upd_outside m a l x v :
  ~ (a <= x < a + Z.of_nat (length l) + 1) -> cstr m a l -> cstr (upd m x v) a l.
Proof.
  intros Hx [Hb Hf]. split; [|exact Hf]. eapply bytes_at_ext; [|exact Hb].
  intros y Hy. rewrite length_app in Hy; cbn [length] in Hy. apply upd_ne. lia.
Qed.

Lemma strncpy_loop_spec k : forall m s t l,
  cstr m t l -> disjoint_ranges s (Z.of_nat k) t (Z.of_nat (length l) + 1) ->
  let j := Z.min (Z.of_nat k) (Z.of_nat (length l) + 1) in
  snd (strncpy_loop k m s t) = s + j /\
  forall x, fst (strncpy_loop k m s t) x =
            if (s <=? x) && (x <? s + j) then m (t + (x - s)) else m x.
Proof.
  unfold disjoint_ranges.
  induction k as [|k IH]; intros m s t l Hl Hd; cbn [strncpy_loop fst snd].
  - split; [lia|]. intros x. mem_cases; auto; lia.
  - destruct l as [|c l].
    + apply cstr_nil in Hl. rewrite Hl. cbn [Z.eqb negb fst snd length]. split; [lia|].
      intros x. unfold upd. mem_cases; auto; try lia. subst. rewrite <- Hl. f_equal; lia.
    + pose proof Hl as Hl0. apply cstr_cons in Hl as (Hc & Hm & Hl).
      rewrite Hm, (proj2 (Z.eqb_neq _ _) Hc). cbn [negb length] in *.
      specialize (IH (upd m s c) (s + 1) (t + 1) l).
      destruct IH as [IHs IHm]; [apply cstr_upd_outside; [lia|auto] | lia |].
      split; [rewrite IHs; lia|]. intros x. rewrite IHm. unfold upd.
      mem_cases; auto; try lia; subst; f_equal; try lia.
Qed.

Lemma cstr_copied m m' d t l :
  (forall x, d <= x < d + Z.of_nat (length l) + 1 -> m' x = m (t + (x - d))) ->
  cstr m t l -> cstr m' d l.
Proof.
  intros Hx [Hb Hf]. split; [|exact Hf]. eapply bytes_at_copied; [|exact Hb].
  intros x H. rewrite length_app in H; cbn [length] in H. apply Hx. lia.
Qed.

(** Truncation: a copied prefix followed by a NUL. *)
Lemma cstr_truncated m m' d t l k :
  (k <= length l)%nat ->
  (forall x, d <= x < d + Z.of_nat k -> m' x = m (t + (x - d))) -> m' (d + Z.of_nat k) = 0 ->
  cstr m t l -> cstr m' d (take k l).
Proof.
  intros Hk Hx H0 [Hb Hf]. split; [|now apply Forall_take].
  apply bytes_at_app. rewrite length_take_le by lia. split.
  - eapply bytes_at_copied with (s := t).
    + intros x. rewrite length_take_le by lia. apply Hx.
    + intros i x Hi. apply Hb. apply lookup_take_Some in Hi as [Hi _].
      now apply lookup_app_l_Some.
  - apply bytes_at_cons. split; [exact H0 | apply bytes_at_nil].
Qed.

(** [safestrcpy] always leaves a NUL-terminated string in a buffer of at
    least two bytes, the longest prefix of the source of at most [n - 2]
    characters, and writes only inside the first [n - 1] bytes. *)
Theorem safestrcpy_terminates (m : mem) (s t n : Z) (l : list Z) :
  2 <= n -> cstr m t l ->
  disjoint_ranges s n t (Z.of_nat (length l) + 1) ->
  let m' := snd (safestrcpy m s t n) in
  fst (safestrcpy m s t n) = s /\
  cstr m' s (take (Z.to_nat (n - 2)) l) /\
  forall x, ~ (s <= x < s + (n - 1)) -> m' x = m x.
Proof.
  intros Hn Hl Hd. unfold safestrcpy.
  destruct (Z.leb_spec n 0); [lia|].
  destruct (strncpy_loop_spec (Z.to_nat (n - 1)) m s t l Hl) as [Hs Hm];
    [unfold disjoint_ranges in *; lia|].
  destruct (strncpy_loop (Z.to_nat (n - 1)) m s t) as [m1 s1] eqn:E; cbn [fst snd] in *.
  rewrite Z2Nat.id in * by lia.
  destruct (Z.le_gt_cases (Z.of_nat (length l) + 1) (n - 1)) as [Hlen|Hlen].
  - (* the terminator was copied *)
    assert (m1 (s1 - 1) = 0) as H0.
    { rewrite Hm, Hs. mem_cases; try lia. destruct Hl as [Hb _].
      replace (t + _) with (t + Z.of_nat (length l)) by lia.
      apply Hb. apply list_lookup_middle; reflexivity. }
    rewrite H0; cbn [Z.eqb negb fst snd]. split; [reflexivity|]. split.
    + rewrite take_ge by lia. eapply cstr_copied; [|exact Hl].
      intros x Hx. rewrite Hm. mem_cases; auto; lia.
    + intros x Hx. rewrite Hm. mem_cases; auto; lia.
  - (* truncated: the last copied character is overwritten *)
    assert (m1 (s1 - 1) <> 0) as H0.
    { rewrite Hm, Hs. mem_cases; try lia. destruct Hl as [Hb Hf].
      replace (t + _) with (t + Z.of_nat (Z.to_nat (n - 2))) by lia.
      destruct (lookup_lt_is_Some_2 l (Z.to_nat (n - 2))) as [c Hc]; [lia|].
      rewrite (Hb _ c) by (now apply lookup_app_l_Some).
      rewrite Forall_forall in Hf. apply Hf. eapply list_elem_of_lookup_2; eauto. }
    rewrite (proj2 (Z.eqb_neq _ _) H0); cbn [negb fst snd]. split; [reflexivity|]. split.
    + eapply cstr_truncated; [lia | | | exact Hl].
      * intros x Hx. rewrite upd_ne by lia. rewrite Hm. mem_cases; auto; lia.
      * replace (s + Z.of_nat (Z.to_nat (n - 2))) with (s1 - 1) by lia. apply upd_eq.
    + intros x Hx. rewrite upd_ne by lia. rewrite Hm. mem_cases; auto; lia.
Qed.
(** A memory with the strings [l1] at 10 and [l2] at 100, zero elsewhere. *)
Definition two_strings (l1 l2 : list Z) : mem :=
  fun a => if (10 <=? a) && (a <? 100) then nth (Z.to_nat (a - 10)) l1 0
           else if 100 <=? a then nth (Z.to_nat (a - 100)) l2 0 else 0.
Ltac cstr_eval := repeat (apply cstr_cons; split; [discriminate|]; split; [reflexivity|]);
                  apply cstr_nil; reflexivity.
Lemma safestrcpy_terminates_witness :
  let m := two_strings [] [97; 98; 99; 100; 101] in
  let m' := snd (safestrcpy m 10 100 4) in
  fst (safestrcpy m 10 100 4) = 10 /\ cstr m' 10 [97; 98] /\
  forall x, ~ (10 <= x < 13) -> m' x = m x.
Proof.
  intros m. apply (safestrcpy_terminates m 10 100 4 [97; 98; 99; 100; 101]).
  - discriminate.
  - cstr_eval.
  - left; vm_compute; discriminate.
Defined.

(** With [n = 1] the loop of [safestrcpy] copies nothing and the
    terminator goes to the byte before the buffer: [s[0]] is left as it was
    and a non-zero [s[-1]] is cleared. *)
Theorem safestrcpy_one_underflows (m : mem) (s t : Z) :
  forall x, snd (safestrcpy m s t 1) x = if x =? s - 1 then 0 else m x.
Proof.
  intros x. unfold safestrcpy. change (1 <=? 0) with false. change (Z.to_nat (1 - 1)) with O.
  cbn [strncpy_loop].
  destruct (Z.eqb_spec (m (s - 1)) 0) as [E|E]; cbn [negb snd]; unfold upd;
    destruct (Z.eqb_spec x (s - 1)); subst; congruence.
Qed.

(** ** Concatenation *)

(** [ins_front] puts [ls] before the [lb] cells and the terminator of [buf]. *)
Lemma ins_front_spec m buf str lb ls :
  cstr m buf lb -> bytes_at m str ls -> Forall (fun c => c <> 0) ls ->
  disjoint_ranges buf (Z.of_nat (length ls + length lb) + 1) str (Z.of_nat (length ls)) ->
  let m' := ins_front m buf str (Z.of_nat (length lb)) (Z.of_nat (length ls)) in
  cstr m' buf (ls ++ lb) /\
  forall x, ~ (buf <= x < buf + Z.of_nat (length ls + length lb) + 1) -> m' x = m x.
Proof.
  intros [Hb Hf] Hs Hfs Hd. unfold ins_front, disjoint_ranges in *.
  set (B := Z.of_nat (length lb)) in *. set (L := Z.of_nat (length ls)) in *.
  assert (Hm : forall x, copy_fwd (Z.to_nat L)
      (copy_back (Z.to_nat (B + 1)) m (buf + L + B + 1) (buf + B + 1)) buf str x =
      if (buf <=? x) && (x <? buf + L) then m (str + (x - buf))
      else if (buf + L <=? x) && (x <? buf + L + B + 1) then m (x - L) else m x).
  { intros x. rewrite copy_fwd_spec by lia.
    replace (buf + L + B + 1) with (buf + L + Z.of_nat (Z.to_nat (B + 1))) by lia.
    replace (buf + B + 1) with (buf + Z.of_nat (Z.to_nat (B + 1))) by lia.
    rewrite !copy_back_end by lia. rewrite !Z2Nat.id by lia.
    mem_cases; auto; try lia; f_equal; lia. }
  cbv zeta. split.
  - split; [|now apply Forall_app]. rewrite <- app_assoc. apply bytes_at_app. split.
    + eapply bytes_at_copied; [|exact Hs]. intros x Hx. rewrite Hm. mem_cases; auto; lia.
    + eapply bytes_at_copied; [|exact Hb]. intros x Hx. rewrite length_app in Hx; cbn [length] in Hx.
      rewrite Hm. fold L. mem_cases; try lia. f_equal; lia.
  - intros x Hx. rewrite Hm. mem_cases; auto; lia.
Qed.

(** [strins] prepends: a buffer holding [lb] holds [ls ++ lb] afterwards,
    and nothing outside the string's new extent changes. *)
Theorem strins_prepends (fuel : nat) (m : mem) (buf str : Z) (lb ls : list Z) :
  cstr m buf lb -> cstr m str ls ->
  disjoint_ranges buf (Z.of_nat (length ls + length lb) + 1) str (Z.of_nat (length ls) + 1) ->
  (length lb < fuel)%nat -> (length ls < fuel)%nat ->
  exists m', strins fuel m buf str = Ok m' /\ cstr m' buf (ls ++ lb) /\
    forall x, ~ (buf <= x < buf + Z.of_nat (length ls + length lb) + 1) -> m' x = m x.
Proof.
  intros Hb Hs Hd Hfb Hfs. unfold strins.
  rewrite (strlen_cstr fuel m buf lb Hb Hfb), (strlen_cstr fuel m str ls Hs Hfs).
  eexists; split; [reflexivity|]. destruct Hs as [Hs Hn].
  apply ins_front_spec; auto; [now apply bytes_at_app in Hs | unfold disjoint_ranges in *; lia].
Qed.
Lemma strins_prepends_witness :
  let m := two_strings [98; 105; 110] [47] in
  exists m', strins 9 m 10 100 = Ok m' /\ cstr m' 10 [47; 98; 105; 110] /\
    forall x, ~ (10 <= x < 15) -> m' x = m x.
Proof.
  intros m. apply (strins_prepends 9 m 10 100 [98; 105; 110] [47]);
    [cstr_eval | cstr_eval | left; vm_compute; discriminate | vm_compute; lia | vm_compute; lia].
Defined.

Lemma strnins_spec fuel m buf str lb ls :
  cstr m buf lb -> bytes_at m str ls -> Forall (fun c => c <> 0) ls ->
  disjoint_ranges buf (Z.of_nat (length ls + length lb) + 1) str (Z.of_nat (length ls)) ->
  (length lb < fuel)%nat ->
  exists m', strnins fuel m buf str (Z.of_nat (length ls)) = Ok m' /\ cstr m' buf (ls ++ lb) /\
    forall x, ~ (buf <= x < buf + Z.of_nat (length ls + length lb) + 1) -> m' x = m x.
Proof.
  intros Hb Hs Hn Hd Hf. unfold strnins. rewrite (strlen_cstr fuel m buf lb Hb Hf).
  eexists; split; [reflexivity|]. now apply ins_front_spec.
Qed.

Lemma cstr_app_iff m a l1 l2 :
  cstr m a (l1 ++ l2) <->
  bytes_at m a l1 /\ Forall (fun c => c <> 0) l1 /\ cstr m (a + Z.of_nat (length l1)) l2.
Proof. unfold cstr. rewrite <- app_assoc, bytes_at_app, Forall_app. tauto. Qed.

(** [strcat] appends: a buffer holding [lb] holds [lb ++ ls] afterwards. *)
Theorem strcat_appends (fuel : nat) (m : mem) (buf str : Z) (lb ls : list Z) :
  cstr m buf lb -> cstr m str ls ->
  disjoint_ranges buf (Z.of_nat (length lb + length ls) + 1) str (Z.of_nat (length ls) + 1) ->
  (length lb < fuel)%nat -> (length ls < fuel)%nat ->
  exists m', strcat fuel m buf str = Ok m' /\ cstr m' buf (lb ++ ls) /\
    forall x, ~ (buf <= x < buf + Z.of_nat (length lb + length ls) + 1) -> m' x = m x.
Proof.
  intros Hb Hs Hd Hfb Hfs. unfold strcat, disjoint_ranges in *.
  rewrite (strlen_cstr fuel m buf lb Hb Hfb), (strlen_cstr fuel m str ls Hs Hfs).
  eexists; split; [reflexivity|]. cbn [res_bind].
  assert (Hm : forall x, copy_fwd (Z.to_nat (Z.of_nat (length ls) + 1)) m
        (buf + Z.of_nat (length lb)) str x = if (buf + Z.of_nat (length lb) <=? x) &&
        (x <? buf + Z.of_nat (length lb + length ls) + 1)
        then m (str + (x - (buf + Z.of_nat (length lb)))) else m x).
  { intros x. rewrite copy_fwd_spec by lia. mem_cases; auto; lia. }
  split.
  - destruct Hb as [Hb Hf]. apply bytes_at_app in Hb as [Hb _]. apply cstr_app_iff. split; [|split].
    + eapply bytes_at_ext; [|exact Hb]. intros x Hx. rewrite Hm. mem_cases; auto; lia.
    + exact Hf.
    + eapply cstr_copied; [|exact Hs]. intros x Hx. rewrite Hm. mem_cases; auto; lia.
  - intros x Hx. rewrite Hm. mem_cases; auto; lia.
Qed.
Lemma strcat_appends_witness :
  let m := two_strings [47; 97] [47; 98] in
  exists m', strcat 9 m 10 100 = Ok m' /\ cstr m' 10 [47; 97; 47; 98] /\
    forall x, ~ (10 <= x < 15) -> m' x = m x.
Proof.
  intros m. apply (strcat_appends 9 m 10 100 [47; 97] [47; 98]);
    [cstr_eval | cstr_eval | left; vm_compute; discriminate | vm_compute; lia | vm_compute; lia].
Defined.

(** ** Searching and wide strings *)

Lemma strchr_spec fuel : forall m s c l,
  c <> 0 -> cstr m s l -> (length l < fuel)%nat ->
  strchr fuel m s c = Ok (match list_find (eq c) l with
                          | Some (i, _) => Some (s + Z.of_nat i)
                          | None => None
                          end).
Proof.
  induction fuel as [|f IH]; intros m s c l Hc Hl Hf; [lia|]. cbn [strchr].
  destruct l as [|d l].
  - apply cstr_nil in Hl. now rewrite Hl.
  - apply cstr_cons in Hl as (Hd & Hm & Hl). rewrite Hm, (proj2 (Z.eqb_neq _ _) Hd).
    cbn [list_find length] in *.
    destruct (Z.eqb_spec d c) as [->|E].
    + rewrite decide_True by reflexivity. do 2 f_equal; lia.
    + rewrite decide_False by congruence. rewrite (IH m (s + 1) c l) by (auto; lia).
      destruct (list_find (eq c) l) as [[i y]|]; cbn; [|reflexivity].
      do 2 f_equal. lia.
Qed.

Lemma conv_loop_spec fuel f : forall md ms dst src i l,
  cstr ms (src + i) l -> (length l < fuel)%nat ->
  exists md', conv_loop fuel f md ms dst src i = Ok (md', i + Z.of_nat (length l)) /\
    forall x, md' x = if (dst + i <=? x) && (x <? dst + i + Z.of_nat (length l))
                      then f (ms (src + (x - dst))) else md x.
Proof.
  induction fuel as [|k IH]; intros md ms dst src i l Hl Hf; [lia|]. cbn [conv_loop].
  destruct l as [|c l].
  - apply cstr_nil in Hl. rewrite Hl. cbn [Z.eqb length].
    exists md. split; [do 2 f_equal; lia|]. intros x. mem_cases; auto; lia.
  - apply cstr_cons in Hl as (Hc & Hm & Hl). rewrite Hm, (proj2 (Z.eqb_neq _ _) Hc).
    cbn [length] in *.
    destruct (IH (upd md (dst + i) (f c)) ms dst src (i + 1) l) as (md' & -> & Hmd');
      [now replace (src + (i + 1)) with (src + i + 1) by lia | lia |].
    exists md'. split; [do 2 f_equal; lia|].
    intros x. rewrite Hmd'. unfold upd. mem_cases; auto; try lia.
    subst x. rewrite <- Hm. do 2 f_equal; lia.
Qed.

Lemma cstr_mapped (g : Z -> Z) md ms dst src l :
  (forall x, dst <= x < dst + Z.of_nat (length l) -> md x = g (ms (src + (x - dst)))) ->
  md (dst + Z.of_nat (length l)) = 0 ->
  Forall (fun c => g c <> 0) l -> cstr ms src l -> cstr md dst (map g l).
Proof.
  intros Hx H0 Hg [Hb _]. split; [|now rewrite Forall_fmap].
  apply bytes_at_app. rewrite length_map. split; [|apply bytes_at_cons; auto using bytes_at_nil].
  intros i y Hi. apply (list_lookup_fmap_Some_1 g) in Hi as (c & Hg' & Hi).
  pose proof (lookup_lt_Some _ _ _ Hi). rewrite Hx by lia. subst y. f_equal.
  apply bytes_at_app in Hb as [Hb _]. rewrite <- (Hb i c Hi). f_equal; lia.
Qed.

Lemma str2wstr_spec fuel md ms dst src l :
  cstr ms src l -> (length l < fuel)%nat ->
  exists md', str2wstr fuel md ms dst src = Ok (Z.of_nat (length l), md') /\ cstr md' dst l.
Proof.
  intros Hl Hf. unfold str2wstr.
  destruct (conv_loop_spec fuel (fun c => c) md ms dst src 0 l) as (md' & -> & Hm);
    [now rewrite Z.add_0_r | auto |].
  cbn [res_bind]. rewrite Z.add_0_l. eexists; split; [reflexivity|].
  enough (H : cstr (upd md' (dst + Z.of_nat (length l)) 0) dst (map (fun c => c) l))
    by (now rewrite map_id in H).
  eapply cstr_mapped; [| |apply Hl|exact Hl].
  - intros x Hx. rewrite upd_ne by lia. rewrite Hm. mem_cases; auto; lia.
  - apply upd_eq.
Qed.

(** Widening a byte string and narrowing it again gives the string back:
    [wstr2str] inverts [str2wstr], and both return the length. *)
Theorem wstr_roundtrip (fuel : nat) (mw md ms : mem) (wdst dst src : Z) (l : list Z) :
  cstr ms src l -> Forall (fun c => 0 < c < 256) l -> (length l < fuel)%nat ->
  exists mw' md', str2wstr fuel mw ms wdst src = Ok (Z.of_nat (length l), mw') /\
    wstr2str fuel md mw' dst wdst = Ok (Z.of_nat (length l), md') /\ cstr md' dst l.
Proof.
  intros Hl Hr Hf. destruct (str2wstr_spec fuel mw ms wdst src l Hl Hf) as (mw' & E1 & Hw).
  destruct (conv_loop_spec fuel (fun c => wrap8 (Z.land c 255)) md mw' dst wdst 0 l)
    as (md' & E2 & Hm); [now rewrite Z.add_0_r | auto |].
  exists mw'. eexists. split; [exact E1|]. unfold wstr2str. rewrite E2. cbn [res_bind].
  rewrite Z.add_0_l. split; [reflexivity|].
  assert (Hg : Forall (fun c => wrap8 (Z.land c 255) = c) l).
  { eapply Forall_impl; [exact Hr|]. intros c Hc. cbv beta in Hc |- *.
    change 255 with (Z.ones 8). rewrite Z.land_ones by lia. unfold wrap8.
    change (2 ^ 8) with 256. zlia. }
  assert (El : map (fun c => wrap8 (Z.land c 255)) l = l).
  { clear -Hg. induction Hg; cbn; [reflexivity | congruence]. }
  enough (H : cstr (upd md' (dst + Z.of_nat (length l)) 0) dst
                (map (fun c => wrap8 (Z.land c 255)) l)) by (now rewrite El in H).
  eapply cstr_mapped; [| | |exact Hw].
  - intros x Hx. rewrite upd_ne by lia. rewrite Hm. mem_cases; auto; lia.
  - apply upd_eq.
  - rewrite Forall_forall in *. intros c Hc. rewrite Hg by auto. specialize (Hr c Hc). lia.
Qed.
Lemma wstr_roundtrip_witness :
  let ms := two_strings [98; 255; 110] [] in
  exists mw' md', str2wstr 9 (fun _ => 0) ms 0 10 = Ok (3, mw') /\
    wstr2str 9 (fun _ => 1) mw' 50 0 = Ok (3, md') /\ cstr md' 50 [98; 255; 110].
Proof.
  intros ms. apply (wstr_roundtrip 9 (fun _ => 0) (fun _ => 1) ms 0 50 10 [98; 255; 110]).
  - cstr_eval.
  - repeat constructor.
  - vm_compute; lia.
Defined.
