(* ===== verification/Pmm.v ===== *)
(** * Physical page manager

    [src/kern/mm/pmm.c].  A [Page *] is its index in the array [pages]; the
    free list is the list of indices from [LIST_FIRST] on.  The state also
    carries what the virtual-memory manager needs on top of the pages: the
    contents of physical memory, the depth at which this hart holds [kvmlock]
    and the addresses whose TLB entries were flushed. *)

From S2P Require Import Prelude.
From Stdlib Require Import ZArith Lia Bool.
From stdpp Require Import base tactics numbers list.
Open Scope Z_scope.

Definition PAGE_SHIFT : Z := 12.
Definition PAGE_SIZE : Z := 4096.
Definition MEMBASE : Z := 2147483648.
Definition PGROUNDUP (a : Z) : Z := Z.land (a + PAGE_SIZE - 1) (Z.lnot (PAGE_SIZE - 1)).
Definition PGROUNDDOWN (a : Z) : Z := Z.land a (Z.lnot (PAGE_SIZE - 1)).

Record mm : Type := MkMm {
  npage : Z;                 (* u64 npage *)
  page_ref : Z -> Z;         (* pages[i].ref, u32 *)
  pageFreeList : list Z;     (* LIST of pages *)
  pageleft : Z;              (* u64 pageleft *)
  pmem : Z -> Z;             (* the 64-bit word at each 8-aligned physical address *)
  kvm_depth : Z;             (* mtx_depth of kvmlock, 0 when this hart does not hold it *)
  tlb_flushed : list Z       (* pages passed to tlbFlush, newest first *)
}.

Definition set_ref (r : Z -> Z) (s : mm) : mm :=
  MkMm s.(npage) r s.(pageFreeList) s.(pageleft) s.(pmem) s.(kvm_depth) s.(tlb_flushed).
Definition set_free (l : list Z) (left : Z) (s : mm) : mm :=
  MkMm s.(npage) s.(page_ref) l left s.(pmem) s.(kvm_depth) s.(tlb_flushed).
Definition set_pmem (m : Z -> Z) (s : mm) : mm :=
  MkMm s.(npage) s.(page_ref) s.(pageFreeList) s.(pageleft) m s.(kvm_depth) s.(tlb_flushed).
Definition set_depth (d : Z) (s : mm) : mm :=
  MkMm s.(npage) s.(page_ref) s.(pageFreeList) s.(pageleft) s.(pmem) d s.(tlb_flushed).
Definition set_tlb (l : list Z) (s : mm) : mm :=
  MkMm s.(npage) s.(page_ref) s.(pageFreeList) s.(pageleft) s.(pmem) s.(kvm_depth) l.

(** ** Address conversions *)

Definition pageToPpn (p : Z) : Z := p.
Definition pageToPa (p : Z) : Z := wrap64 (MEMBASE + wrap64 (Z.shiftl (pageToPpn p) PAGE_SHIFT)).
Definition paToPage (pa : Z) : Z := Z.shiftr (wrap64 (pa - MEMBASE)) PAGE_SHIFT.
Definition pmTop (s : mm) : Z := wrap64 (MEMBASE + wrap64 (Z.shiftl s.(npage) PAGE_SHIFT)).

(** ** Allocation and reference counts *)

(** [memset(pa, 0, PAGE_SIZE)] *)
Definition zero_page (pa : Z) (m : Z -> Z) : Z -> Z :=
  fun a => if (pa <=? a) && (a <? pa + PAGE_SIZE) then 0 else m a.

Definition pmAlloc : M mm Z := fun s =>
  match s.(pageFreeList) with
  | [] => Err Panic
  | pp :: rest =>
      Ok (pp, set_pmem (zero_page (pageToPa pp) s.(pmem))
                (set_free rest (wrap64 (s.(pageleft) - 1)) s))
  end.

(** An index outside [pages] is an access out of the array. *)
Definition page_valid (s : mm) (pp : Z) : bool := (0 <=? pp) && (pp <? s.(npage)).

Definition pmPageIncRef (pp : Z) : M mm unit := fun s =>
  if page_valid s pp then
    Ok (tt, set_ref (upd s.(page_ref) pp (wrap32 (s.(page_ref) pp + 1))) s)
  else Err BadPtr.

Definition pmPageDecRef (pp : Z) : M mm unit := fun s =>
  if page_valid s pp then
    if s.(page_ref) pp =? 0 then Err Panic
    else
      let r := s.(page_ref) pp - 1 in
      let s1 := set_ref (upd s.(page_ref) pp r) s in
      if r =? 0 then
        Ok (tt, set_free (pp :: s.(pageFreeList)) (wrap64 (s.(pageleft) + 1)) s1)
      else Ok (tt, s1)
  else Err BadPtr.

(** ** Initialisation *)

(** [pmInitPush] clears the region with [memset], whose length is a [uint]; the region it hands out starts at [start]; the result is
    [( *freemem, start )]. *)
Definition pmInitPush (start size : Z) (m : Z -> Z) : Z * Z * (Z -> Z) :=
  let push := PGROUNDUP size in
  (wrap64 (start + push), start,
   fun a => if (start <=? a) && (a <? start + wrap32 push) then 0 else m a).

(** The sizes [pmmInit] pushes, in its order; the [sizeof]s of the structures
    are fixed by the compiler and are parameters here. *)
Record sizeofs : Type := {
  sz_Page : Z; sz_proc : Z; sz_thread : Z; sz_sigaction : Z; sz_sigevent : Z;
  sz_BufferDataGroup : Z; sz_BufferGroup : Z; sz_Dirent : Z }.
Definition NPROC : Z := 480.
Definition NTHREAD : Z := NPROC.
Definition NPROCSIGNALS : Z := 128.
Definition NSIGEVENTS : Z := 512.
Definition MAX_DIRENT : Z := 160000.
Definition BGROUP_NUM : Z := 16384.
Definition TD_KSTACK_PAGE_NUM : Z := 4.
Definition pmm_push_sizes (z : sizeofs) (npages : Z) : list Z :=
  [ npages * z.(sz_Page);
    NPROC * z.(sz_proc); NTHREAD * z.(sz_thread);
    NPROCSIGNALS * NPROC * z.(sz_sigaction); NSIGEVENTS * z.(sz_sigevent);
    2 * PAGE_SIZE;
    BGROUP_NUM * z.(sz_BufferDataGroup); BGROUP_NUM * z.(sz_BufferGroup);
    NTHREAD * z.(sz_thread); NPROC * z.(sz_proc);
    NPROCSIGNALS * NPROC * z.(sz_sigaction); NSIGEVENTS * z.(sz_sigevent);
    MAX_DIRENT * z.(sz_Dirent);
    NPROC * TD_KSTACK_PAGE_NUM * PAGE_SIZE ].

(** The regions handed out, oldest first, and the final [freemem]. *)
Fixpoint push_all (start : Z) (sizes : list Z) (m : Z -> Z) : list (Z * Z) * Z * (Z -> Z) :=
  match sizes with
  | [] => ([], start, m)
  | sz :: rest =>
      let '(free, base, m1) := pmInitPush start sz m in
      let '(regions, final, m2) := push_all free rest m1 in
      ((base, PGROUNDUP sz) :: regions, final, m2)
  end.

(** [for (i = 0; i < pageused; i++) pages[i].ref = 1;] on the zeroed array. *)
Definition init_refs (pageused : Z) : Z -> Z :=
  fun i => if (0 <=? i) && (i <? pageused) then 1 else 0.
(** [for (i = pageused; i < npage; i++) LIST_INSERT_HEAD(...);] *)
Definition init_free (pageused npages : Z) : list Z :=
  reverse (seqZ pageused (npages - pageused)).

Definition pmmInit (z : sizeofs) (kend memsize : Z) (m : Z -> Z) : list (Z * Z) * mm :=
  let npages := memsize / PAGE_SIZE in
  let '(regions, freemem, m1) := push_all (PGROUNDUP kend) (pmm_push_sizes z npages) m in
  let pageused := Z.shiftr (wrap64 (freemem - MEMBASE)) PAGE_SHIFT in
  (regions,
   MkMm npages (init_refs pageused) (init_free pageused npages)
        (wrap64 (npages - pageused)) m1 0 []).

(** ** Invariant *)

(** Free pages are distinct, inside the array and unreferenced, [pageleft] is
    their number, and reference counts are 32-bit; page 0 (at [MEMBASE], below
    the kernel image) is never free.  There are fewer than 2^32 pages, so
    physical addresses fit the 44-bit page numbers of Sv39 entries. *)
Record mm_ok (s : mm) : Prop := {
  mm_npage : 0 <= s.(npage) < 4294967296;
  mm_nodup : NoDup s.(pageFreeList);
  mm_free_in : forall p, p ∈ s.(pageFreeList) -> 0 < p < s.(npage) /\ s.(page_ref) p = 0;
  mm_left : s.(pageleft) = Z.of_nat (length s.(pageFreeList));
  mm_ref : forall p, 0 <= s.(page_ref) p < 4294967296 }.

(** A page other than the first one, not on the free list. *)
Definition in_use (s : mm) (p : Z) : Prop :=
  0 < p < s.(npage) /\ p ∉ s.(pageFreeList).

(** ** Address conversions *)

Lemma pageToPa_eq p : 0 <= p < 4294967296 -> pageToPa p = MEMBASE + 4096 * p.
Proof.
  intros. unfold pageToPa, pageToPpn, PAGE_SHIFT, MEMBASE.
  rewrite Z.shiftl_mul_pow2 by lia. change (2 ^ 12) with 4096.
  rewrite (wrap64_small (p * 4096)), wrap64_small by lia. lia.
Qed.
Lemma paToPage_eq pa :
  MEMBASE <= pa < 18446744073709551616 -> paToPage pa = (pa - MEMBASE) / 4096.
Proof.
  intros. unfold paToPage, PAGE_SHIFT, MEMBASE in *.
  rewrite wrap64_small, Z.shiftr_div_pow2 by lia. reflexivity.
Qed.
Lemma pmTop_eq s : 0 <= s.(npage) < 4294967296 -> pmTop s = MEMBASE + 4096 * s.(npage).
Proof. apply pageToPa_eq. Qed.

(** Converting a page of the array to its physical address and back gives
    the page, and the other way round for page-aligned addresses; distinct
    pages occupy disjoint 4 KiB frames between [MEMBASE] and [pmTop]. *)
Theorem page_addr_roundtrip (s : mm) (p : Z) :
  0 <= p < s.(npage) -> s.(npage) < 4294967296 ->
  paToPage (pageToPa p) = p /\
  MEMBASE <= pageToPa p /\ pageToPa p + PAGE_SIZE <= pmTop s /\
  forall q, 0 <= q < s.(npage) -> q <> p ->
    pageToPa q + PAGE_SIZE <= pageToPa p \/ pageToPa p + PAGE_SIZE <= pageToPa q.
Proof.
  intros Hp Hn. rewrite pmTop_eq, pageToPa_eq by lia.
  rewrite paToPage_eq by (unfold MEMBASE; lia).
  unfold PAGE_SIZE. split; [unfold MEMBASE; zlia|]. split; [lia|]. split; [lia|].
  intros q Hq Hqp. rewrite pageToPa_eq by lia. lia.
Qed.
Definition demo_mm : mm := MkMm 8 (fun p => if p <? 3 then 1 else 0) [7; 6; 5; 4; 3] 5 (fun _ => 9) 0 [].
Lemma page_addr_roundtrip_witness :
  paToPage (pageToPa 5) = 5 /\
  MEMBASE <= pageToPa 5 /\ pageToPa 5 + PAGE_SIZE <= pmTop demo_mm /\
  forall q, 0 <= q < 8 -> q <> 5 ->
    pageToPa q + PAGE_SIZE <= pageToPa 5 \/ pageToPa 5 + PAGE_SIZE <= pageToPa q.
Proof. apply (page_addr_roundtrip demo_mm 5); cbn; lia. Defined.

(** ** Preservation of the invariant *)

Lemma nodup_range_length (l : list Z) n :
  NoDup l -> (forall p, p ∈ l -> 0 <= p < n) -> Z.of_nat (length l) <= Z.max 0 n.
Proof.
  intros Hnd Hin.
  assert (l ⊆+ seqZ 0 n) as Hs.
  { apply NoDup_submseteq; [exact Hnd|]. intros p Hp. apply elem_of_seqZ.
    specialize (Hin p Hp). lia. }
  apply submseteq_length in Hs. rewrite length_seqZ in Hs. lia.
Qed.
Lemma mm_free_bound s : mm_ok s -> Z.of_nat (length s.(pageFreeList)) <= s.(npage).
Proof.
  intros [Hn Hnd Hin _ _].
  assert (forall p, p ∈ s.(pageFreeList) -> 0 <= p < s.(npage)) as Hin'
    by (intros p Hp; destruct (Hin p Hp); lia).
  pose proof (nodup_range_length _ _ Hnd Hin'). lia.
Qed.

(** What [pmAlloc] does when a page is free. *)
Lemma pmAlloc_spec s pp rest :
  mm_ok s -> s.(pageFreeList) = pp :: rest ->
  let s' := set_pmem (zero_page (pageToPa pp) s.(pmem)) (set_free rest (s.(pageleft) - 1) s) in
  pmAlloc s = Ok (pp, s') /\ mm_ok s' /\ in_use s' pp /\ s.(page_ref) pp = 0.
Proof.
  intros Hok Hf. pose proof (mm_free_bound s Hok) as Hb.
  destruct Hok as [Hn Hnd Hin Hl Hr]. rewrite Hf in *.
  apply NoDup_cons in Hnd as [Hpp Hnd]. cbn [length] in *.
  unfold pmAlloc. rewrite Hf, wrap64_small by lia.
  destruct (Hin pp) as [Hpr Hp0]; [now left|].
  split; [reflexivity|]. split; [|split; [split; cbn; auto|exact Hp0]].
  constructor; cbn; auto; [|lia]. intros p Hp. apply Hin. now right.
Qed.

Lemma pmPageIncRef_spec s pp :
  mm_ok s -> in_use s pp -> s.(page_ref) pp < 4294967295 ->
  let s' := set_ref (upd s.(page_ref) pp (s.(page_ref) pp + 1)) s in
  pmPageIncRef pp s = Ok (tt, s') /\ mm_ok s'.
Proof.
  intros [Hn Hnd Hin Hl Hr] [Hp Hnf] Hlt. pose proof (Hr pp).
  unfold pmPageIncRef, page_valid.
  rewrite (proj2 (Z.leb_le _ _)), (proj2 (Z.ltb_lt _ _)) by lia. cbn [andb].
  rewrite wrap32_small by lia. split; [reflexivity|].
  constructor; cbn; auto.
  - intros p Hpf. rewrite upd_ne by congruence. now apply Hin.
  - intros p. unfold upd. zcase; [lia|apply Hr].
Qed.

(** The state after dropping one reference of an in-use page. *)
Definition dec_ref (s : mm) (pp : Z) : mm :=
  let s1 := set_ref (upd s.(page_ref) pp (s.(page_ref) pp - 1)) s in
  if s.(page_ref) pp =? 1 then set_free (pp :: s.(pageFreeList)) (s.(pageleft) + 1) s1 else s1.

Lemma pmPageDecRef_spec s pp :
  mm_ok s -> in_use s pp -> 0 < s.(page_ref) pp ->
  pmPageDecRef pp s = Ok (tt, dec_ref s pp) /\ mm_ok (dec_ref s pp).
Proof.
  intros Hok [Hp Hnf] Hpos. destruct Hok as [Hn Hnd Hin Hl Hr]. pose proof (Hr pp).
  assert (Hb : Z.of_nat (length (pp :: s.(pageFreeList))) <= Z.max 0 s.(npage)).
  { apply nodup_range_length; [now constructor|].
    intros p [->|Hpf]%elem_of_cons; [lia|]. destruct (Hin p Hpf); lia. }
  cbn [length] in Hb.
  unfold pmPageDecRef, page_valid, dec_ref.
  rewrite (proj2 (Z.leb_le _ _)), (proj2 (Z.ltb_lt _ _)), (proj2 (Z.eqb_neq _ 0)) by lia.
  cbn [andb].
  destruct (Z.eqb_spec (s.(page_ref) pp) 1) as [E|E].
  - rewrite (proj2 (Z.eqb_eq (_ - 1) 0)) by lia. rewrite wrap64_small by lia.
    split; [reflexivity|]. constructor; cbn; auto; try lia.
    + now constructor.
    + intros p [->|Hpf]%elem_of_cons; [rewrite upd_eq; lia|].
      rewrite upd_ne by congruence. now apply Hin.
    + intros p. unfold upd. zcase; [lia|apply Hr].
  - rewrite (proj2 (Z.eqb_neq (_ - 1) 0)) by lia. split; [reflexivity|].
    constructor; cbn; auto.
    + intros p Hpf. rewrite upd_ne by congruence. now apply Hin.
    + intros p. unfold upd. zcase; [lia|apply Hr].
Qed.

(** [pmAlloc] hands out a page that was not in use, fills it with zeros,
    and leaves every page in use, its reference count and its contents alone;
    the state stays well formed.  With no free page it panics. *)
Theorem pmAlloc_fresh (s : mm) :
  mm_ok s ->
  (s.(pageFreeList) = [] /\ pmAlloc s = Err Panic) \/
  exists p s', pmAlloc s = Ok (p, s') /\ mm_ok s' /\
    p ∈ s.(pageFreeList) /\ in_use s' p /\
    (forall a, pageToPa p <= a < pageToPa p + PAGE_SIZE -> s'.(pmem) a = 0) /\
    forall q, in_use s q -> in_use s' q /\ s'.(page_ref) q = s.(page_ref) q /\
      forall a, pageToPa q <= a < pageToPa q + PAGE_SIZE -> s'.(pmem) a = s.(pmem) a.
Proof.
  intros Hok. destruct s.(pageFreeList) as [|pp rest] eqn:Hf.
  { left. unfold pmAlloc. rewrite Hf. auto. }
  right. destruct (pmAlloc_spec s pp rest Hok Hf) as (E & Hok' & Hu & H0).
  exists pp; eexists; split; [exact E|]. split; [exact Hok'|].
  split; [now left|]. split; [exact Hu|].
  pose proof (mm_npage _ Hok). pose proof (mm_free_in _ Hok pp) as Hp. rewrite Hf in Hp.
  destruct Hp as [Hp _]; [now left|]. cbn. split.
  - intros a Ha. unfold zero_page. mem_cases; auto; lia.
  - intros q [Hq Hqf]. rewrite Hf in Hqf. apply not_elem_of_cons in Hqf as [Hne Hqf].
    split; [split; cbn; auto|]. split; [reflexivity|].
    intros a. rewrite !pageToPa_eq by lia. unfold zero_page, PAGE_SIZE.
    intros Ha. mem_cases; auto; lia.
Qed.
Lemma demo_mm_ok : mm_ok demo_mm.
Proof.
  constructor; cbn [demo_mm npage page_ref pageFreeList pageleft].
  - lia.
  - apply (bool_decide_unpack (NoDup [7; 6; 5; 4; 3])). vm_compute. exact I.
  - intros p Hp. repeat (apply elem_of_cons in Hp as [->|Hp]; [split; [lia|reflexivity]|]).
    now apply not_elem_of_nil in Hp.
  - reflexivity.
  - intros p. zcase; lia.
Qed.
Lemma pmAlloc_fresh_witness :
  (demo_mm.(pageFreeList) = [] /\ pmAlloc demo_mm = Err Panic) \/
  exists p s', pmAlloc demo_mm = Ok (p, s') /\ mm_ok s' /\
    p ∈ demo_mm.(pageFreeList) /\ in_use s' p /\
    (forall a, pageToPa p <= a < pageToPa p + PAGE_SIZE -> s'.(pmem) a = 0) /\
    forall q, in_use demo_mm q -> in_use s' q /\ s'.(page_ref) q = demo_mm.(page_ref) q /\
      forall a, pageToPa q <= a < pageToPa q + PAGE_SIZE -> s'.(pmem) a = demo_mm.(pmem) a.
Proof. apply (pmAlloc_fresh demo_mm). exact demo_mm_ok. Defined.

(** ** Initialisation *)

Lemma PGROUNDUP_eq a : 0 <= a -> PGROUNDUP a = (a + 4095) / 4096 * 4096.
Proof.
  intros. unfold PGROUNDUP, PAGE_SIZE. change (4096 - 1) with (Z.ones 12).
  rewrite <- Z.ldiff_land, Z.ldiff_ones_r by lia.
  rewrite Z.shiftr_div_pow2, Z.shiftl_mul_pow2 by lia. change (2 ^ 12) with 4096.
  f_equal. f_equal. lia.
Qed.
Lemma PGROUNDDOWN_eq a : 0 <= a -> PGROUNDDOWN a = a / 4096 * 4096.
Proof.
  intros. unfold PGROUNDDOWN, PAGE_SIZE. change (4096 - 1) with (Z.ones 12).
  rewrite <- Z.ldiff_land, Z.ldiff_ones_r by lia.
  rewrite Z.shiftr_div_pow2, Z.shiftl_mul_pow2 by lia. reflexivity.
Qed.

Fixpoint sum_pages (sizes : list Z) : Z :=
  match sizes with [] => 0 | sz :: rest => PGROUNDUP sz + sum_pages rest end.

Lemma sum_pages_nonneg sizes : Forall (fun z => 0 <= z) sizes -> 0 <= sum_pages sizes.
Proof.
  induction 1 as [|z l Hz _ IH]; cbn [sum_pages]; [lia|]. rewrite PGROUNDUP_eq by lia. zlia.
Qed.

(** The regions are page-aligned and laid out one after the other. *)
Inductive chained : Z -> list (Z * Z) -> Z -> Prop :=
| chained_nil a : chained a [] a
| chained_cons a sz rest b :
    a mod 4096 = 0 -> sz mod 4096 = 0 -> 0 <= sz ->
    chained (a + sz) rest b -> chained a ((a, sz) :: rest) b.

Lemma push_all_spec sizes : forall start m,
  0 <= start -> start mod 4096 = 0 ->
  Forall (fun z => 0 <= z) sizes -> start + sum_pages sizes < 18446744073709551616 ->
  let '(regions, final, m') := push_all start sizes m in
  final = start + sum_pages sizes /\ chained start regions final /\
  map snd regions = map PGROUNDUP sizes.
Proof.
  induction sizes as [|sz rest IH]; intros start m Hs Ha Hz Hb; cbn [push_all].
  - split; [cbn; lia|]. split; [constructor|reflexivity].
  - apply Forall_cons in Hz as [Hz Hzs]. cbn [sum_pages] in Hb.
    pose proof (sum_pages_nonneg rest Hzs).
    assert (0 <= PGROUNDUP sz /\ PGROUNDUP sz mod 4096 = 0) as [H1 H2]
      by (rewrite PGROUNDUP_eq by lia; zlia).
    unfold pmInitPush. rewrite wrap64_small by lia.
    match goal with |- context [push_all ?a rest ?m] =>
      specialize (IH a m); destruct (push_all a rest m) as [[regions final] m'] end.
    destruct IH as (Hf & Hc & Hm); [lia | zlia | auto | lia |].
    cbn [sum_pages map snd]. split; [lia|]. split; [|congruence].
    constructor; auto.
Qed.

(** [pmmInit] lays the boot-time arrays out one after the other from the
    end of the kernel on page boundaries, marks exactly the pages below them
    as referenced, puts every other page on the free list, and so establishes
    the allocator's invariant, provided memory is large enough. *)
Theorem pmmInit_establishes (z : sizeofs) (kend memsize : Z) (m : Z -> Z) :
  let npages := memsize / 4096 in
  let top := PGROUNDUP kend + sum_pages (pmm_push_sizes z npages) in
  MEMBASE < kend -> npages < 4294967296 ->
  Forall (fun x => 0 <= x) (pmm_push_sizes z npages) ->
  top <= MEMBASE + memsize ->
  let '(regions, s) := pmmInit z kend memsize m in
  mm_ok s /\ chained (PGROUNDUP kend) regions top /\
  s.(pageleft) = npages - (top - MEMBASE) / 4096 /\
  forall p, 0 <= p < npages ->
    (p ∈ s.(pageFreeList) <-> top <= pageToPa p) /\
    (s.(page_ref) p = 1 <-> pageToPa p < top).
Proof.
  intros npages top Hk Hn Hz Htop. unfold pmmInit. fold PAGE_SIZE in npages.
  change (memsize / PAGE_SIZE) with npages.
  pose proof (sum_pages_nonneg _ Hz) as Hs0.
  assert (Hke : PGROUNDUP kend mod 4096 = 0 /\ kend <= PGROUNDUP kend).
  { rewrite PGROUNDUP_eq by (unfold MEMBASE in *; lia). zlia. }
  assert (Hms : memsize < 17592186044416) by (unfold npages, PAGE_SIZE in Hn; zlia).
  pose proof (push_all_spec (pmm_push_sizes z npages) (PGROUNDUP kend) m) as Hpush.
  destruct (push_all _ _ m) as [[regions final] m1].
  destruct Hpush as (Hf & Hc & _); [unfold MEMBASE in *; lia | lia | auto | unfold top, MEMBASE in *; lia |].
  fold top in Hf. rewrite Hf in *.
  assert (Ht : top mod 4096 = 0).
  { assert (forall a l b, a mod 4096 = 0 -> chained a l b -> b mod 4096 = 0) as Hal.
    { clear. intros a l b Ha H. revert Ha. induction H; intros; auto. apply IHchained. zlia. }
    eapply Hal; [|exact Hc]. lia. }
  unfold PAGE_SHIFT. rewrite (wrap64_small (top - MEMBASE)) by (unfold top, MEMBASE in *; lia).
  rewrite Z.shiftr_div_pow2 by lia. change (2 ^ 12) with 4096.
  set (used := (top - MEMBASE) / 4096).
  assert (Hu : top = MEMBASE + 4096 * used /\ 0 < used <= npages).
  { assert (MEMBASE < top) by (unfold top; lia).
    assert (npages = memsize / 4096) by reflexivity.
    clearbody top npages. unfold used, MEMBASE in *. zlia. }
  rewrite wrap64_small by lia.
  split; [|split; [exact Hc|split; [reflexivity|]]].
  - constructor; cbn.
    + lia.
    + unfold init_free. rewrite reverse_Permutation. apply NoDup_seqZ.
    + intros p Hp. apply elem_of_reverse, elem_of_seqZ in Hp. unfold init_refs.
      mem_cases; lia.
    + unfold init_free. rewrite length_reverse, length_seqZ. lia.
    + intros p. unfold init_refs. mem_cases; lia.
  - intros p Hp. cbn. rewrite pageToPa_eq by lia. unfold init_free, init_refs.
    rewrite elem_of_reverse, elem_of_seqZ. split; [lia|]. mem_cases; lia.
Qed.
Definition demo_sizeofs : sizeofs := Build_sizeofs 24 400 400 40 64 4096 900 1200.
Lemma pmmInit_establishes_witness :
  let top := PGROUNDUP 2151677952 + sum_pages (pmm_push_sizes demo_sizeofs 262144) in
  let '(regions, s) := pmmInit demo_sizeofs 2151677952 1073741824 (fun _ => 0) in
  mm_ok s /\ chained (PGROUNDUP 2151677952) regions top /\
  s.(pageleft) = 262144 - (top - MEMBASE) / 4096 /\
  forall p, 0 <= p < 262144 ->
    (p ∈ s.(pageFreeList) <-> top <= pageToPa p) /\
    (s.(page_ref) p = 1 <-> pageToPa p < top).
Proof.
  apply (pmmInit_establishes demo_sizeofs 2151677952 1073741824 (fun _ => 0)).
  - vm_compute; reflexivity.
  - vm_compute; reflexivity.
  - repeat constructor; vm_compute; discriminate.
  - vm_compute; discriminate.
Defined.
