(* ===== verification/Vmm.v ===== *)
(** * Sv39 page tables

    [src/kern/mm/vmm.c], [src/include/mm/vmm.h] and [tlbFlush] of
    [src/kern/mm/mmu.c], for the default [virt] machine ([PTE_MACHINE] is 0).
    A [Pte *] is the physical address of the entry; dereferencing an address
    outside physical memory (the null pointer in particular) is [BadPtr].
    [kvmlock] is a recursive spin lock, seen from the hart that runs the code:
    [kvm_depth] counts how often it holds it. *)

From S2P Require Import Prelude Pmm.
From Stdlib Require Import ZArith Lia Bool.
From stdpp Require Import base tactics numbers list.
Open Scope Z_scope.

Definition PTE_V : Z := 1.
Definition PTE_R : Z := 2.
Definition PTE_W : Z := 4.
Definition PTE_X : Z := 8.
Definition PTE_U : Z := 16.
Definition PTE_COW : Z := 256.
Definition PTE_SHARED : Z := 512.
Definition PTE_MACHINE : Z := 0.
Definition E_NO_MAP : Z := 2.

(** [x & flag] as a condition. *)
Definition has (x flag : Z) : bool := negb (Z.land x flag =? 0).

Definition PTE_PASSIVE (pte : Z) : bool := negb (has pte PTE_V) && has pte PTE_U.
Definition PTE_PERM (pte : Z) : Z := Z.land pte 1023.

(** [PTX(va, level)] with [PAGE_SHIFT] 12, three levels of nine bits. *)
Definition PTX (va level : Z) : Z := Z.land (Z.shiftr va (12 + (3 - level) * 9)) 511.

Definition paToPte (pa : Z) : Z := wrap64 (Z.shiftl (Z.shiftr pa 12) 10).
Definition pteToPa (pte : Z) : Z := wrap64 (Z.shiftl (Z.shiftr pte 10) 12).
Definition pageToPte (p : Z) : Z :=
  wrap64 (paToPte MEMBASE + wrap64 (Z.shiftl (pageToPpn p) 10)).

(** Word accesses to physical memory. *)
Definition ram (s : mm) (a : Z) : bool := (MEMBASE <=? a) && (a <? pmTop s) && (a mod 8 =? 0).
Definition rd (a : Z) : M mm Z := fun s => if ram s a then Ok (s.(pmem) a, s) else Err BadPtr.
Definition wr (a v : Z) : M mm unit :=
  fun s => if ram s a then Ok (tt, set_pmem (upd s.(pmem) a v) s) else Err BadPtr.

Definition kvm_lock : M mm unit := modify (fun s => set_depth (s.(kvm_depth) + 1) s).
Definition kvm_unlock : M mm unit :=
  fun s => if s.(kvm_depth) =? 0 then Err Panic
           else Ok (tt, set_depth (s.(kvm_depth) - 1) s).

Definition tlbFlush (va : Z) : M mm unit :=
  modify (fun s => set_tlb (PGROUNDDOWN va :: s.(tlb_flushed)) s).
Definition flush_tlb_if_need (pd va : Z) : M mm unit := tlbFlush va.

Definition pteToPage (pte : Z) : M mm Z :=
  massert (MEMBASE <? pteToPa pte) ;;; ret (paToPage (pteToPa pte)).

Definition pp_dec_on_valid (pte : Z) : M mm unit :=
  if has pte PTE_V && (MEMBASE <=? pteToPa pte) then
    let* p := pteToPage pte in pmPageDecRef p
  else ret tt.
Definition pp_inc_on_valid (pte : Z) : M mm unit :=
  if has pte PTE_V && (MEMBASE <=? pteToPa pte) then
    let* p := pteToPage pte in pmPageIncRef p
  else ret tt.

Definition ptModify (pte value : Z) : M mm unit :=
  let* old := rd pte in
  if pteToPa old =? pteToPa value then wr pte value
  else
    pp_dec_on_valid old ;;;
    wr pte value ;;;
    pp_inc_on_valid value.

Definition ptClear (pte : Z) : M mm unit :=
  let* old := rd pte in
  pp_dec_on_valid old ;;;
  wr pte 0.

(** One round of the loop of [ptWalk]: the next table, or nothing when there
    is none and [create] is false. *)
Definition ptWalk_level (pageDir va : Z) (create : bool) (i curPageTable : Z) : M mm (option Z) :=
  let curPte := curPageTable + 8 * PTX va i in
  let* e := rd curPte in
  if has e PTE_V then ret (Some (pteToPa e))
  else if create then
    let* newPage := pmAlloc in
    ptModify curPte (Z.lor (pageToPte newPage) PTE_V) ;;;
    flush_tlb_if_need pageDir va ;;;
    ret (Some (pageToPa newPage))
  else ret None.

Definition ptWalk (pageDir va : Z) (create : bool) : M mm (option Z) :=
  let* t1 := ptWalk_level pageDir va create 1 pageDir in
  match t1 with
  | None => ret None
  | Some t1 =>
      let* t2 := ptWalk_level pageDir va create 2 t1 in
      match t2 with
      | None => ret None
      | Some t2 => ret (Some (t2 + 8 * PTX va 3))
      end
  end.

(** A dereference of the pointer a walk returned. *)
Definition deref (p : option Z) : M mm Z :=
  match p with Some a => rd a | None => fail BadPtr end.

(** ** Interface functions *)

Definition kvmAlloc : M mm Z :=
  kvm_lock ;;;
  let* pp := pmAlloc in
  pmPageIncRef pp ;;;
  kvm_unlock ;;;
  ret (pageToPa pp).

Definition kvmFree (pa : Z) : M mm unit :=
  kvm_lock ;;;
  pmPageDecRef (paToPage pa) ;;;
  kvm_unlock.

Definition vmAlloc : M mm Z :=
  kvm_lock ;;;
  let* pp := pmAlloc in
  kvm_unlock ;;;
  ret (pageToPa pp).

Definition ptLookup (pgdir va : Z) : M mm Z :=
  kvm_lock ;;;
  let* pte := ptWalk pgdir va false in
  kvm_unlock ;;;
  match pte with None => ret 0 | Some a => rd a end.

(** The entry a valid mapping writes. *)
Definition mk_pte (pa perm : Z) : Z :=
  Z.lor (Z.lor (Z.lor (paToPte pa) perm) PTE_V) PTE_MACHINE.

Definition ptMap (pgdir va pa perm : Z) : M mm Z :=
  kvm_lock ;;;
  let* pte0 := ptWalk pgdir va false in
  let* pte := match pte0 with
              | None => ptWalk pgdir va true
              | Some a => ret (Some a)
              end in
  let* e := deref pte in
  let a := default 0 pte in
  if has e PTE_V then
    massert (negb (pa =? 0)) ;;;
    ptModify a (mk_pte pa perm) ;;;
    flush_tlb_if_need pgdir va ;;; kvm_unlock ;;; ret 0
  else if pa =? 0 then
    massert (has perm PTE_U) ;;;
    ptModify a perm ;;;
    kvm_unlock ;;; ret 0
  else
    massert (MEMBASE <=? pa) ;;;
    ptModify a (mk_pte pa perm) ;;;
    flush_tlb_if_need pgdir va ;;; kvm_unlock ;;; ret 0.

Definition ptUnmap (pgdir va : Z) : M mm Z :=
  kvm_lock ;;;
  let* pte := ptWalk pgdir va false in
  let* e := deref pte in
  if e =? 0 then ret (- E_NO_MAP)
  else
    ptClear (default 0 pte) ;;;
    flush_tlb_if_need pgdir va ;;;
    kvm_unlock ;;;
    ret 0.

(** ** Initial mappings *)

(** The loop [for (off = 0; off < len; off += PAGE_SIZE)], [k] rounds left. *)
Fixpoint vmInitMap_loop (k : nat) (kernPd pa va off perm : Z) : M mm unit :=
  match k with
  | O => ret tt
  | S k' =>
      let* pte := ptWalk kernPd (va + off) true in
      match pte with
      | None => fail BadPtr
      | Some a => wr a (mk_pte (pa + off) perm)
      end ;;;
      vmInitMap_loop k' kernPd pa va (off + PAGE_SIZE) perm
  end.
Definition vmInitMap (kernPd pa va len perm : Z) : M mm unit :=
  vmInitMap_loop (Z.to_nat ((len + PAGE_SIZE - 1) / PAGE_SIZE)) kernPd pa va 0 perm.

(** [memoryTest]: every page from [KERNBASE] to the top is mapped to itself. *)
Definition KERNBASE : Z := 2149580800.
Fixpoint memoryTest_loop (k : nat) (kernPd va : Z) : M mm unit :=
  match k with
  | O => ret tt
  | S k' =>
      let* pte := ptLookup kernPd va in
      massert (pteToPa pte =? va) ;;;
      memoryTest_loop k' kernPd (va + PAGE_SIZE)
  end.
Definition memoryTest (kernPd : Z) : M mm unit :=
  let* top := gets pmTop in
  memoryTest_loop (Z.to_nat ((top - KERNBASE + PAGE_SIZE - 1) / PAGE_SIZE)) kernPd KERNBASE.

Definition UART0 : Z := 268435456.
Definition SPI_CTRL_ADDR : Z := 268763136.
Definition VIRTIO0 : Z := 268439552.
Definition RTC_BASE : Z := 1052672.
Definition PLIC : Z := 201326592.
Definition TRAMPOLINE : Z := 274877902848.

(** [vmmInit] with the linker symbols [end_text] and [trampoline]; the result
    is [kernPd]. *)
Definition vmmInit (end_text trampoline : Z) : M mm Z :=
  modify (set_depth 0) ;;;  (* mtx_init(&kvmlock, ...) *)
  let* p := pmAlloc in
  let kernPd := pageToPa p in
  vmInitMap kernPd UART0 UART0 PAGE_SIZE (Z.lor PTE_R PTE_W) ;;;
  vmInitMap kernPd SPI_CTRL_ADDR SPI_CTRL_ADDR PAGE_SIZE (Z.lor PTE_R PTE_W) ;;;
  vmInitMap kernPd VIRTIO0 VIRTIO0 PAGE_SIZE (Z.lor PTE_R PTE_W) ;;;
  vmInitMap kernPd RTC_BASE RTC_BASE PAGE_SIZE (Z.lor PTE_R PTE_W) ;;;
  vmInitMap kernPd PLIC PLIC 4194304 (Z.lor PTE_R PTE_W) ;;;
  vmInitMap kernPd KERNBASE KERNBASE (end_text - KERNBASE) (Z.lor PTE_R PTE_X) ;;;
  let* top := gets pmTop in
  vmInitMap kernPd end_text end_text (top - end_text) (Z.lor PTE_R PTE_W) ;;;
  vmInitMap kernPd (PGROUNDDOWN trampoline) TRAMPOLINE PAGE_SIZE (Z.lor PTE_R PTE_X) ;;;
  memoryTest kernPd ;;;
  ret kernPd.

(** ** Entries *)

Lemma has_V x : has x PTE_V = Z.testbit x 0.
Proof.
  unfold has, PTE_V. change 1 with (Z.ones 1). rewrite Z.land_ones by lia.
  change (2 ^ 1) with 2. rewrite <- Z.bit0_mod. destruct (Z.testbit x 0); reflexivity.
Qed.

Lemma shiftr10_small x : 0 <= x < 1024 -> Z.shiftr x 10 = 0.
Proof. intros. rewrite Z.shiftr_div_pow2 by lia. apply Z.div_small. exact H. Qed.

Lemma paToPte_eq pa :
  0 <= pa < 72057594037927936 -> pa mod 4096 = 0 -> paToPte pa = pa / 4096 * 1024.
Proof.
  intros. unfold paToPte. rewrite Z.shiftr_div_pow2, Z.shiftl_mul_pow2 by lia.
  change (2 ^ 12) with 4096. change (2 ^ 10) with 1024. apply wrap64_small. zlia.
Qed.

(** A page-table entry round-trips the physical address and carries the
    permissions: [pteToPa] of a mapping's entry is the page it was built for,
    its low ten bits are the requested permissions with [PTE_V] set. *)
Theorem mk_pte_roundtrip (pa perm : Z) :
  0 <= pa < 72057594037927936 -> pa mod 4096 = 0 -> 0 <= perm < 1024 ->
  pteToPa (mk_pte pa perm) = pa /\ has (mk_pte pa perm) PTE_V = true /\
  PTE_PERM (mk_pte pa perm) = Z.lor perm PTE_V.
Proof.
  intros Hpa Hal Hperm. unfold mk_pte, PTE_MACHINE. rewrite Z.lor_0_r.
  split; [|split].
  - unfold pteToPa. rewrite !Z.shiftr_lor, (shiftr10_small perm), (shiftr10_small PTE_V)
      by (unfold PTE_V; lia).
    rewrite !Z.lor_0_r, paToPte_eq by auto.
    rewrite Z.shiftr_div_pow2, Z.shiftl_mul_pow2 by lia.
    change (2 ^ 10) with 1024. change (2 ^ 12) with 4096.
    rewrite wrap64_small; zlia.
  - rewrite has_V, Z.lor_spec. apply orb_true_r.
  - unfold PTE_PERM. rewrite !Z.land_lor_distr_l.
    change 1023 with (Z.ones 10). rewrite !Z.land_ones by lia.
    rewrite paToPte_eq by auto. change (2 ^ 10) with 1024.
    rewrite Z.mod_mul, Z.lor_0_l by lia. f_equal; apply Z.mod_small; unfold PTE_V; lia.
Qed.
Lemma mk_pte_roundtrip_witness :
  pteToPa (mk_pte 2147495936 22) = 2147495936 /\ has (mk_pte 2147495936 22) PTE_V = true /\
  PTE_PERM (mk_pte 2147495936 22) = 23.
Proof. apply (mk_pte_roundtrip 2147495936 22); vm_compute; repeat split; discriminate. Defined.

Lemma pageToPte_mk p : 0 <= p < 4294967296 ->
  Z.lor (pageToPte p) PTE_V = mk_pte (MEMBASE + 4096 * p) 0.
Proof.
  intros. unfold mk_pte, PTE_MACHINE. rewrite !Z.lor_0_r. f_equal.
  unfold pageToPte, pageToPpn. rewrite !paToPte_eq by (unfold MEMBASE; zlia).
  rewrite Z.shiftl_mul_pow2 by lia. change (2 ^ 10) with 1024. unfold MEMBASE.
  rewrite (wrap64_small (p * 1024)), wrap64_small by zlia. zlia.
Qed.

Lemma PTX_range va l : 0 <= PTX va l < 512.
Proof.
  unfold PTX. change 511 with (Z.ones 9). rewrite Z.land_ones by lia.
  apply Z.mod_pos_bound. reflexivity.
Qed.

(** ** The tree of tables as pure functions of memory *)

Definition idx (i : Z) : Prop := 0 <= i < 512.
Definition child (m : Z -> Z) (t i : Z) : option Z :=
  if has (m (t + 8 * i)) PTE_V then Some (pteToPa (m (t + 8 * i))) else None.
Definition tab3 (m : Z -> Z) (root i j : Z) : option Z :=
  match child m root i with Some t => child m t j | None => None end.
Definition pte_at (m : Z -> Z) (root i j k : Z) : Z :=
  match tab3 m root i j with Some t => m (t + 8 * k) | None => 0 end.
(** The entry the hardware and [ptLookup] find for an address. *)
Definition lookup_va (m : Z -> Z) (root va : Z) : Z :=
  pte_at m root (PTX va 1) (PTX va 2) (PTX va 3).

Definition frame_of (s : mm) (a : Z) : Prop := exists p, in_use s p /\ a = MEMBASE + 4096 * p.

Definition is_table (m : Z -> Z) (root a : Z) : Prop :=
  a = root \/ (exists i, idx i /\ child m root i = Some a) \/
  (exists i j, idx i /\ idx j /\ tab3 m root i j = Some a).

(** The tables below [root] are distinct pages in use, an intermediate entry
    that is not valid is zero, and a last-level entry that is not valid (empty
    or passive) names no page. *)
Record wf_pt (s : mm) (root : Z) : Prop := {
  wf_root : frame_of s root;
  wf_t2 : forall i a, idx i -> child s.(pmem) root i = Some a -> frame_of s a /\ a <> root;
  wf_t3 : forall i j a, idx i -> idx j -> tab3 s.(pmem) root i j = Some a ->
    frame_of s a /\ a <> root /\ forall i', idx i' -> child s.(pmem) root i' <> Some a;
  wf_inj2 : forall i i' a, idx i -> idx i' ->
    child s.(pmem) root i = Some a -> child s.(pmem) root i' = Some a -> i = i';
  wf_inj3 : forall i j i' j' a, idx i -> idx j -> idx i' -> idx j' ->
    tab3 s.(pmem) root i j = Some a -> tab3 s.(pmem) root i' j' = Some a -> i = i' /\ j = j';
  wf_z2 : forall i, idx i -> child s.(pmem) root i = None -> s.(pmem) (root + 8 * i) = 0;
  wf_z3 : forall i t j, idx i -> idx j -> child s.(pmem) root i = Some t ->
    child s.(pmem) t j = None -> s.(pmem) (t + 8 * j) = 0;
  wf_leaf : forall i j k, idx i -> idx j -> idx k ->
    has (pte_at s.(pmem) root i j k) PTE_V = false -> pteToPa (pte_at s.(pmem) root i j k) = 0 }.

Lemma frame_aligned s a : frame_of s a -> (a - MEMBASE) mod 4096 = 0.
Proof. intros (p & _ & ->). zlia. Qed.

(** Entries of different frames, or different entries, have different addresses. *)
Lemma entry_addr_inj s a b i j :
  frame_of s a -> frame_of s b -> idx i -> idx j -> a + 8 * i = b + 8 * j -> a = b /\ i = j.
Proof. intros Ha%frame_aligned Hb%frame_aligned Hi Hj E. unfold idx, MEMBASE in *. zlia. Qed.

Lemma frame_ram s a i :
  0 <= s.(npage) < 4294967296 -> frame_of s a -> idx i -> ram s (a + 8 * i) = true.
Proof.
  intros Hn (p & [Hp _] & ->) Hi. unfold idx in Hi. unfold ram. rewrite pmTop_eq by lia.
  rewrite (proj2 (Z.leb_le _ _)), (proj2 (Z.ltb_lt _ _)), (proj2 (Z.eqb_eq _ _)); auto;
    unfold MEMBASE; zlia.
Qed.

Lemma is_table_frame s root a : wf_pt s root -> is_table s.(pmem) root a -> frame_of s a.
Proof.
  intros W [->|[(i & Hi & H)|(i & j & Hi & Hj & H)]].
  - apply W.
  - now apply (wf_t2 _ _ W i).
  - now apply (wf_t3 _ _ W i j).
Qed.

(** ** Changing memory outside the tables *)

Lemma child_same m m' t i : m' (t + 8 * i) = m (t + 8 * i) -> child m' t i = child m t i.
Proof. unfold child. now intros ->. Qed.

(** The root and the second-level tables. *)
Definition is_dir (m : Z -> Z) (root a : Z) : Prop :=
  a = root \/ exists i, idx i /\ child m root i = Some a.

Section Frame.
Context (s s' : mm) (root : Z).
Context (W : wf_pt s root).
Context (Hmem : forall a i, is_dir s.(pmem) root a -> idx i ->
                            s'.(pmem) (a + 8 * i) = s.(pmem) (a + 8 * i)).
Context (Huse : forall a, is_table s.(pmem) root a -> frame_of s' a).
Context (Hleaf : forall i j k, idx i -> idx j -> idx k ->
  has (pte_at s'.(pmem) root i j k) PTE_V = false -> pteToPa (pte_at s'.(pmem) root i j k) = 0).

Lemma same_child i : idx i -> child s'.(pmem) root i = child s.(pmem) root i.
Proof. clear Hleaf Huse. intros. apply child_same, Hmem; auto. now left. Qed.
Lemma same_child2 i t j :
  idx i -> idx j -> child s.(pmem) root i = Some t -> child s'.(pmem) t j = child s.(pmem) t j.
Proof. clear Hleaf Huse. intros. apply child_same, Hmem; auto. right; eauto. Qed.
Lemma same_tab3 i j : idx i -> idx j -> tab3 s'.(pmem) root i j = tab3 s.(pmem) root i j.
Proof.
  clear Hleaf Huse. intros. unfold tab3. rewrite same_child by auto.
  destruct (child _ root i) as [t|] eqn:E; [|reflexivity]. apply (same_child2 i); auto.
Qed.
Lemma frame_wf : wf_pt s' root.
Proof.
  destruct W as [w0 w2 w3 i2 i3 z2 z3 lf]. constructor; [| | | | | | |exact Hleaf].
  - apply Huse. now left.
  - intros i a Hi. rewrite same_child by auto. intros E. split; [|now apply (w2 i a)].
    apply Huse. right; left; eauto.
  - intros i j a Hi Hj. rewrite same_tab3 by auto. intros E.
    destruct (w3 i j a Hi Hj E) as (_ & Hne & Hno).
    split; [apply Huse; right; right; eauto|]. split; [exact Hne|].
    intros i' Hi'. rewrite same_child by auto. auto.
  - intros i i' a Hi Hi'. rewrite !same_child by auto. eauto.
  - intros i j i' j' a ????. rewrite !same_tab3 by auto. eauto.
  - intros i Hi. rewrite same_child by auto. intros E. rewrite Hmem; auto. now left.
  - intros i t j Hi Hj. rewrite same_child by auto. intros E.
    rewrite (same_child2 i t j) by auto. intros E2. rewrite Hmem; eauto. right; eauto.
Qed.
End Frame.

(** Writing a last-level entry changes that entry and no other. *)
Section Leaf.
Context (s s' : mm) (root i j k t v : Z).
Context (W : wf_pt s root) (Hi : idx i) (Hj : idx j) (Hk : idx k).
Context (Et : tab3 s.(pmem) root i j = Some t).
Context (Hmem : s'.(pmem) = upd s.(pmem) (t + 8 * k) v).
Context (Huse : forall a, is_table s.(pmem) root a -> frame_of s' a).
Context (Hv : has v PTE_V = false -> pteToPa v = 0).

Lemma leaf_dir a x : is_dir s.(pmem) root a -> idx x ->
  s'.(pmem) (a + 8 * x) = s.(pmem) (a + 8 * x).
Proof.
  clear Huse Hv. intros Ha Hx. rewrite Hmem. apply upd_ne. intros E.
  destruct (wf_t3 _ _ W i j t Hi Hj Et) as (Hf & Hne & Hno).
  assert (Hfa : frame_of s a).
  { destruct Ha as [->|(i' & Hi' & Ha)]; [apply W | now apply (wf_t2 _ _ W i')]. }
  destruct (entry_addr_inj s a t x k) as [-> _]; auto.
  destruct Ha as [->|(i' & Hi' & Ha)]; [congruence | now apply (Hno i')].
Qed.
Lemma leaf_pte_at i' j' k' : idx i' -> idx j' -> idx k' ->
  pte_at s'.(pmem) root i' j' k' =
  if (i' =? i) && (j' =? j) && (k' =? k) then v else pte_at s.(pmem) root i' j' k'.
Proof.
  clear Huse Hv. intros Hi' Hj' Hk'. unfold pte_at.
  rewrite (same_tab3 s s' root leaf_dir) by auto.
  destruct (tab3 s.(pmem) root i' j') as [t'|] eqn:E'.
  - rewrite Hmem. unfold upd.
    destruct (wf_t3 _ _ W i j t Hi Hj Et) as (Hf & _).
    destruct (wf_t3 _ _ W i' j' t' Hi' Hj' E') as (Hf' & _).
    destruct (Z.eqb_spec (t' + 8 * k') (t + 8 * k)) as [E|E].
    + destruct (entry_addr_inj s t' t k' k) as [-> ->]; auto.
      destruct (wf_inj3 _ _ W i' j' i j t) as [-> ->]; auto. now rewrite !Z.eqb_refl.
    + destruct ((i' =? i) && (j' =? j) && (k' =? k)) eqn:Eb; [|reflexivity].
      zbool. subst. congruence.
  - destruct ((i' =? i) && (j' =? j) && (k' =? k)) eqn:Eb; [|reflexivity].
    zbool. subst. congruence.
Qed.
Lemma leaf_wf : wf_pt s' root.
Proof.
  apply (frame_wf s); auto using leaf_dir.
  intros i' j' k' Hi' Hj' Hk'. rewrite leaf_pte_at by auto.
  destruct (_ && _); [exact Hv|]. now apply W.
Qed.
End Leaf.

(** ** Linking a new, empty table *)

(** [s2] is [s] with the zeroed frame [P], not in use before, hung at entry
    [x] of the frame [t]. *)
Record linked (s s2 : mm) (t x P : Z) : Prop := {
  lk_mem : forall a, s2.(pmem) a =
    if a =? t + 8 * x then mk_pte P 0
    else if (P <=? a) && (a <? P + 4096) then 0 else s.(pmem) a;
  lk_use : forall p, in_use s p -> in_use s2 p;
  lk_P : frame_of s2 P;
  lk_new : ~ frame_of s P;
  lk_addr : 0 <= P < 72057594037927936;
  lk_t : frame_of s t;
  lk_x : idx x }.

Lemma frame_mono s s2 a : (forall p, in_use s p -> in_use s2 p) -> frame_of s a -> frame_of s2 a.
Proof. intros H (p & Hp & ->). exists p; auto. Qed.

Section Linked.
Context (s s2 : mm) (root t x P : Z).
Context (W : wf_pt s root) (L : linked s s2 t x P).

Lemma linked_P_al : P mod 4096 = 0.
Proof. pose proof (frame_aligned _ _ (lk_P _ _ _ _ _ L)). unfold MEMBASE in *. zlia. Qed.
Lemma linked_ne a : frame_of s a -> a <> P.
Proof. intros H ->. now apply (lk_new _ _ _ _ _ L). Qed.
Lemma linked_old a i : frame_of s a -> idx i -> ~ (a = t /\ i = x) ->
  s2.(pmem) (a + 8 * i) = s.(pmem) (a + 8 * i).
Proof.
  intros Ha Hi Hne. rewrite (lk_mem _ _ _ _ _ L).
  destruct (Z.eqb_spec (a + 8 * i) (t + 8 * x)) as [E|_].
  { exfalso. apply Hne. eapply entry_addr_inj; eauto; apply L. }
  pose proof (linked_ne a Ha). pose proof linked_P_al.
  pose proof (frame_aligned _ _ Ha). unfold idx, MEMBASE in *.
  mem_cases; auto. zlia.
Qed.
Lemma linked_new : s2.(pmem) (t + 8 * x) = mk_pte P 0.
Proof. rewrite (lk_mem _ _ _ _ _ L). now rewrite Z.eqb_refl. Qed.
Lemma linked_child_new : child s2.(pmem) t x = Some P.
Proof.
  unfold child. rewrite linked_new.
  destruct (mk_pte_roundtrip P 0) as (E & V & _); [apply L|apply linked_P_al|lia|].
  now rewrite V, E.
Qed.
Lemma linked_zero k : idx k -> s2.(pmem) (P + 8 * k) = 0.
Proof.
  intros Hk. rewrite (lk_mem _ _ _ _ _ L).
  destruct (Z.eqb_spec (P + 8 * k) (t + 8 * x)) as [E|_].
  - exfalso. apply (linked_ne t); [apply L|].
    pose proof (frame_aligned _ _ (lk_t _ _ _ _ _ L)). pose proof linked_P_al.
    pose proof (lk_x _ _ _ _ _ L). unfold idx, MEMBASE in *. zlia.
  - unfold idx in *. mem_cases; auto; lia.
Qed.
Lemma linked_empty k : idx k -> child s2.(pmem) P k = None.
Proof. intros. unfold child. now rewrite linked_zero. Qed.
Lemma linked_child a i : frame_of s a -> idx i -> ~ (a = t /\ i = x) ->
  child s2.(pmem) a i = child s.(pmem) a i.
Proof. intros. apply child_same, linked_old; auto. Qed.
End Linked.

(** Hanging an empty second-level table under the root. *)
Section LinkTop.
Context (s s2 : mm) (root x P : Z).
Context (W : wf_pt s root) (L : linked s s2 root x P).
Context (Hnone : child s.(pmem) root x = None).

Lemma top_child i : idx i ->
  child s2.(pmem) root i = if i =? x then Some P else child s.(pmem) root i.
Proof.
  intros Hi. destruct (Z.eqb_spec i x) as [->|Hne].
  - eapply linked_child_new; eauto.
  - eapply linked_child; eauto; [apply W|tauto].
Qed.
Lemma top_tab3 i j : idx i -> idx j -> tab3 s2.(pmem) root i j = tab3 s.(pmem) root i j.
Proof.
  intros Hi Hj. unfold tab3. rewrite top_child by auto.
  destruct (Z.eqb_spec i x) as [->|Hne].
  - rewrite Hnone. eapply linked_empty; eauto.
  - destruct (child s.(pmem) root i) as [t|] eqn:E; [|reflexivity].
    destruct (wf_t2 _ _ W i t Hi E). eapply linked_child; eauto. tauto.
Qed.
Lemma top_pte_at i j k : idx i -> idx j -> idx k ->
  pte_at s2.(pmem) root i j k = pte_at s.(pmem) root i j k.
Proof.
  intros Hi Hj Hk. unfold pte_at. rewrite top_tab3 by auto.
  destruct (tab3 s.(pmem) root i j) as [t|] eqn:E; [|reflexivity].
  destruct (wf_t3 _ _ W i j t Hi Hj E) as (Hf & Hne & _).
  eapply linked_old; eauto. tauto.
Qed.
Lemma top_wf : wf_pt s2 root.
Proof.
  pose proof (fun a => frame_mono s s2 a (lk_use _ _ _ _ _ L)) as Hm.
  destruct W as [w0 w2 w3 i2 i3 z2 z3 lf].
  assert (HPr : P <> root) by (intros <-; now apply (lk_new _ _ _ _ _ L)).
  constructor.
  - auto.
  - intros i a Hi. rewrite top_child by auto. destruct (Z.eqb_spec i x).
    + intros [= <-]. split; [apply L|exact HPr].
    + intros E. destruct (w2 i a Hi E). auto.
  - intros i j a Hi Hj. rewrite top_tab3 by auto. intros E.
    destruct (w3 i j a Hi Hj E) as (Hf & Hne & Hno). split; [auto|]. split; [auto|].
    intros i' Hi'. rewrite top_child by auto. destruct (Z.eqb_spec i' x); [|auto].
    intros [= <-]. now apply (lk_new _ _ _ _ _ L).
  - intros i i' a Hi Hi'. rewrite !top_child by auto.
    destruct (Z.eqb_spec i x), (Z.eqb_spec i' x); intros E E'; subst; auto.
    + injection E as <-. exfalso. apply (lk_new _ _ _ _ _ L). now apply (w2 i' P).
    + injection E' as <-. exfalso. apply (lk_new _ _ _ _ _ L). now apply (w2 i P).
    + eauto.
  - intros i j i' j' a ????. rewrite !top_tab3 by auto. eauto.
  - intros i Hi. rewrite top_child by auto. destruct (Z.eqb_spec i x); [discriminate|].
    intros E. erewrite linked_old by (eauto; tauto). auto.
  - intros i t j Hi Hj. rewrite top_child by auto. destruct (Z.eqb_spec i x).
    + intros [= <-] _. eapply linked_zero; eauto.
    + intros E. destruct (w2 i t Hi E) as [Hf Hne].
      erewrite linked_child by (eauto; tauto). intros E2.
      erewrite linked_old by (eauto; tauto). eauto.
  - intros i j k Hi Hj Hk. rewrite top_pte_at by auto. auto.
Qed.
End LinkTop.

(** Hanging an empty third-level table under a second-level one. *)
Section LinkMid.
Context (s s2 : mm) (root i0 t x P : Z).
Context (W : wf_pt s root) (L : linked s s2 t x P).
Context (Hi0 : idx i0) (Ht : child s.(pmem) root i0 = Some t).
Context (Hnone : tab3 s.(pmem) root i0 x = None).

Lemma mid_t_ne : t <> root.
Proof. now apply (wf_t2 _ _ W i0). Qed.
Lemma mid_child i : idx i -> child s2.(pmem) root i = child s.(pmem) root i.
Proof.
  intros Hi. pose proof mid_t_ne. eapply linked_child; eauto; [apply W|].
  intros [? _]. congruence.
Qed.
Lemma mid_tab3 i j : idx i -> idx j ->
  tab3 s2.(pmem) root i j =
  if (i =? i0) && (j =? x) then Some P else tab3 s.(pmem) root i j.
Proof.
  intros Hi Hj. unfold tab3. rewrite mid_child by auto.
  destruct (Z.eqb_spec i i0) as [->|Hne]; cbn [andb].
  - rewrite Ht. destruct (Z.eqb_spec j x) as [->|Hne].
    + eapply linked_child_new; eauto.
    + eapply linked_child; eauto; [apply L|tauto].
  - destruct (child s.(pmem) root i) as [t'|] eqn:E; [|reflexivity].
    destruct (wf_t2 _ _ W i t' Hi E). eapply linked_child; eauto.
    intros [-> _]. apply Hne. eapply (wf_inj2 _ _ W); eauto.
Qed.
Lemma mid_pte_at i j k : idx i -> idx j -> idx k ->
  pte_at s2.(pmem) root i j k = pte_at s.(pmem) root i j k.
Proof.
  intros Hi Hj Hk. unfold pte_at. rewrite mid_tab3 by auto.
  destruct ((i =? i0) && (j =? x)) eqn:Eij.
  - apply andb_prop in Eij as [Ei Ej]. zbool. subst. rewrite Hnone.
    eapply linked_zero; eauto.
  - destruct (tab3 s.(pmem) root i j) as [t'|] eqn:E; [|reflexivity].
    destruct (wf_t3 _ _ W i j t' Hi Hj E) as (Hf & _ & Hno).
    eapply linked_old; eauto. intros [-> _]. now apply (Hno i0).
Qed.
Lemma mid_wf : wf_pt s2 root.
Proof.
  pose proof (fun a => frame_mono s s2 a (lk_use _ _ _ _ _ L)) as Hm.
  pose proof mid_t_ne as Htr. pose proof (lk_x _ _ _ _ _ L) as Hx.
  destruct W as [w0 w2 w3 i2 i3 z2 z3 lf].
  assert (HP : forall a, frame_of s a -> a <> P) by (intros a Ha ->; now apply (lk_new _ _ _ _ _ L)).
  constructor.
  - auto.
  - intros i a Hi. rewrite mid_child by auto. intros E. destruct (w2 i a Hi E); auto.
  - intros i j a Hi Hj. rewrite mid_tab3 by auto. destruct (_ && _).
    + intros [= <-]. split; [apply L|]. split; [apply not_eq_sym, HP, w0|].
      intros i' Hi'. rewrite mid_child by auto. intros E.
      destruct (w2 i' P Hi' E) as [Hf _]. now apply (HP P).
    + intros E. destruct (w3 i j a Hi Hj E) as (Hf & Hne & Hno). split; [auto|]. split; [auto|].
      intros i' Hi'. rewrite mid_child by auto. auto.
  - intros i i' a Hi Hi'. rewrite !mid_child by auto. eauto.
  - intros i j i' j' a Hi Hj Hi' Hj'. rewrite !mid_tab3 by auto.
    destruct ((i =? i0) && (j =? x)) eqn:E1, ((i' =? i0) && (j' =? x)) eqn:E2;
      intros E E'; zbool; subst; auto.
    + injection E as <-. destruct (w3 i' j' P) as (Hf & _); auto. now apply HP in Hf.
    + injection E' as <-. destruct (w3 i j P) as (Hf & _); auto. now apply HP in Hf.
    + eauto.
  - intros i Hi. rewrite mid_child by auto. intros E.
    erewrite linked_old by (eauto; intros [? _]; congruence). auto.
  - intros i t' j Hi Hj. rewrite mid_child by auto. intros E. destruct (w2 i t' Hi E) as [Hf Hne].
    destruct (decide (t' = t /\ j = x)) as [[-> ->]|Hd].
    + erewrite linked_child_new by eauto. discriminate.
    + erewrite linked_child by eauto. intros E2. erewrite linked_old by eauto. eauto.
  - intros i j k Hi Hj Hk. rewrite mid_pte_at by auto. auto.
Qed.
End LinkMid.

(** ** Walks *)

(** What a walk may do to the rest of the machine: pages in use stay in use
    with their reference counts, and outside the tables of [root] their
    contents do not change. *)
Record evolves (root : Z) (s s2 : mm) : Prop := {
  ev_npage : s2.(npage) = s.(npage);
  ev_depth : s2.(kvm_depth) = s.(kvm_depth);
  ev_use : forall p, in_use s p -> in_use s2 p /\ s2.(page_ref) p = s.(page_ref) p;
  ev_tab : forall a, frame_of s a -> is_table s2.(pmem) root a -> is_table s.(pmem) root a;
  ev_data : forall f a, frame_of s f -> ~ is_table s.(pmem) root f -> f <= a < f + 4096 ->
    s2.(pmem) a = s.(pmem) a }.

Lemma evolves_refl root s : evolves root s s.
Proof. constructor; auto. Qed.
Lemma evolves_trans root s1 s2 s3 : evolves root s1 s2 -> evolves root s2 s3 -> evolves root s1 s3.
Proof.
  intros [n d u t m] [n' d' u' t' m']. constructor; try congruence.
  - intros p Hp. destruct (u p Hp) as [Hp2 <-]. destruct (u' p Hp2). auto.
  - intros a Ha H. apply t; [exact Ha|]. apply t'; [|exact H].
    eapply frame_mono; [|exact Ha]. intros p Hp. now apply u.
  - intros f a Hf Hnt Ha. rewrite <- (m f a Hf Hnt Ha). apply (m' f); auto.
    eapply frame_mono; [|exact Hf]. intros p Hp. now apply u.
Qed.

Lemma mm_ok_tlb s l : mm_ok s -> mm_ok (set_tlb l s).
Proof. intros []. now constructor. Qed.
Lemma mm_ok_pmem s m : mm_ok s -> mm_ok (set_pmem m s).
Proof. intros []. now constructor. Qed.
Lemma mm_ok_depth s d : mm_ok s -> mm_ok (set_depth d s).
Proof. intros []. now constructor. Qed.

Lemma rd_run s a : ram s a = true -> rd a s = Ok (s.(pmem) a, s).
Proof. unfold rd. now intros ->. Qed.
Lemma wr_run s a v : ram s a = true -> wr a v s = Ok (tt, set_pmem (upd s.(pmem) a v) s).
Proof. unfold wr. now intros ->. Qed.

Lemma frame_not_free s p : in_use s p -> forall q, q ∈ s.(pageFreeList) -> q <> p.
Proof. intros [_ H] q Hq ->. contradiction. Qed.

(** The page an entry holds a reference to, if it maps physical memory. *)
Definition pte_page (e : Z) : option Z :=
  if has e PTE_V && (MEMBASE <=? pteToPa e) then Some (paToPage (pteToPa e)) else None.
Definition dec_opt (o : option Z) (s : mm) : mm :=
  match o with Some p => dec_ref s p | None => s end.
Definition inc_opt (o : option Z) (s : mm) : mm :=
  match o with Some p => set_ref (upd s.(page_ref) p (s.(page_ref) p + 1)) s | None => s end.
(** The state after [ptModify] on the entry at [a]. *)
Definition modified (s : mm) (a v : Z) : mm :=
  let old := s.(pmem) a in
  if pteToPa old =? pteToPa v then set_pmem (upd s.(pmem) a v) s
  else inc_opt (pte_page v) (set_pmem (upd s.(pmem) a v) (dec_opt (pte_page old) s)).

Lemma pte_page_low e p : pte_page e = Some p -> 0 < p ->
  has e PTE_V = true /\ MEMBASE < pteToPa e /\ p = paToPage (pteToPa e).
Proof.
  unfold pte_page. destruct (has e PTE_V); cbn [andb]; [|discriminate].
  destruct (Z.leb_spec MEMBASE (pteToPa e)) as [Hl|]; [|discriminate].
  intros [= <-] Hp. repeat split; auto.
  pose proof (wrap64_range (Z.shiftl (Z.shiftr e 10) 12)) as Hr. fold (pteToPa e) in Hr.
  rewrite paToPage_eq in Hp by lia. zlia.
Qed.

Lemma pp_dec_run e s :
  mm_ok s -> (forall p, pte_page e = Some p -> in_use s p /\ 0 < s.(page_ref) p) ->
  pp_dec_on_valid e s = Ok (tt, dec_opt (pte_page e) s) /\ mm_ok (dec_opt (pte_page e) s).
Proof.
  intros Hok Hp. unfold pp_dec_on_valid, dec_opt. unfold pte_page in *.
  destruct (has e PTE_V && (MEMBASE <=? pteToPa e)) eqn:E; [|auto].
  destruct (Hp _ eq_refl) as [Hu Hr].
  destruct (pte_page_low e (paToPage (pteToPa e))) as (_ & Hlt & _);
    [unfold pte_page; now rewrite E | apply Hu |].
  unfold pteToPage, massert. rewrite (proj2 (Z.ltb_lt _ _) Hlt).
  change (pmPageDecRef (paToPage (pteToPa e)) s = Ok (tt, dec_ref s (paToPage (pteToPa e))) /\
          mm_ok (dec_ref s (paToPage (pteToPa e)))).
  now apply pmPageDecRef_spec.
Qed.
Lemma pp_inc_run e s :
  mm_ok s -> (forall p, pte_page e = Some p -> in_use s p /\ s.(page_ref) p < 4294967295) ->
  pp_inc_on_valid e s = Ok (tt, inc_opt (pte_page e) s) /\ mm_ok (inc_opt (pte_page e) s).
Proof.
  intros Hok Hp. unfold pp_inc_on_valid, inc_opt. unfold pte_page in *.
  destruct (has e PTE_V && (MEMBASE <=? pteToPa e)) eqn:E; [|auto].
  destruct (Hp _ eq_refl) as [Hu Hr].
  destruct (pte_page_low e (paToPage (pteToPa e))) as (_ & Hlt & _);
    [unfold pte_page; now rewrite E | apply Hu |].
  unfold pteToPage, massert. rewrite (proj2 (Z.ltb_lt _ _) Hlt).
  now apply pmPageIncRef_spec.
Qed.

Lemma dec_opt_fields o s :
  (dec_opt o s).(npage) = s.(npage) /\ (dec_opt o s).(pmem) = s.(pmem) /\
  (dec_opt o s).(kvm_depth) = s.(kvm_depth) /\ (dec_opt o s).(tlb_flushed) = s.(tlb_flushed).
Proof. destruct o; [|auto]. cbn. unfold dec_ref. destruct (_ =? 1); auto. Qed.
Lemma inc_opt_fields o s :
  (inc_opt o s).(npage) = s.(npage) /\ (inc_opt o s).(pmem) = s.(pmem) /\
  (inc_opt o s).(kvm_depth) = s.(kvm_depth) /\ (inc_opt o s).(tlb_flushed) = s.(tlb_flushed) /\
  (inc_opt o s).(pageFreeList) = s.(pageFreeList).
Proof. destruct o; auto. Qed.
Lemma dec_opt_use o s p : in_use s p -> o <> Some p ->
  in_use (dec_opt o s) p /\ (dec_opt o s).(page_ref) p = s.(page_ref) p.
Proof.
  intros [Hr Hf] Ho. destruct o as [q|]; [|split; [split; auto|auto]]. cbn. unfold dec_ref.
  assert (q <> p) by congruence.
  split; [|destruct (_ =? 1); cbn; now rewrite upd_ne by congruence].
  split; [now destruct (_ =? 1)|]. destruct (_ =? 1); cbn; [|auto].
  rewrite elem_of_cons. intuition congruence.
Qed.

Lemma ram_dec_opt o s a : ram (dec_opt o s) a = ram s a.
Proof.
  destruct (dec_opt_fields o s) as (E & _). unfold ram, pmTop. now rewrite E.
Qed.

Lemma ptModify_run s a v :
  mm_ok s -> ram s a = true ->
  (forall p, pte_page (s.(pmem) a) = Some p -> in_use s p /\ 0 < s.(page_ref) p) ->
  (forall p, pte_page v = Some p -> in_use s p /\ s.(page_ref) p < 4294967295) ->
  ptModify a v s = Ok (tt, modified s a v) /\ mm_ok (modified s a v).
Proof.
  intros Hok Hram Hold Hnew. unfold ptModify, modified.
  rewrite (bind_run _ _ _ _ _ (rd_run s a Hram)).
  destruct (Z.eqb_spec (pteToPa (s.(pmem) a)) (pteToPa v)) as [E|E].
  { rewrite wr_run by auto. split; [reflexivity|]. now apply mm_ok_pmem. }
  destruct (pp_dec_run _ s Hok Hold) as [Ed Hok1]. rewrite (bind_run _ _ _ _ _ Ed).
  destruct (dec_opt_fields (pte_page (s.(pmem) a)) s) as (_ & Em & _).
  rewrite (bind_run _ _ _ _ _ (wr_run (dec_opt (pte_page (s.(pmem) a)) s) a v
             (eq_trans (ram_dec_opt _ _ _) Hram))).
  rewrite Em. apply pp_inc_run; [now apply mm_ok_pmem|].
  intros p Hp. destruct (Hnew p Hp) as [Hu Hr].
  destruct (dec_opt_use (pte_page (s.(pmem) a)) s p Hu) as [Hu' Hr'].
  - intros Hp'. apply E. destruct (pte_page_low _ _ Hp') as (_ & H1 & E1); [apply Hu|].
    destruct (pte_page_low _ _ Hp) as (_ & H2 & E2); [apply Hu|].
    clear -E1 E2 H1 H2. unfold pteToPa in *.
    set (x := Z.shiftr (s.(pmem) a) 10) in *. set (y := Z.shiftr v 10) in *.
    pose proof (wrap64_range (Z.shiftl x 12)). pose proof (wrap64_range (Z.shiftl y 12)).
    rewrite paToPage_eq in E1, E2 by lia. rewrite !Z.shiftl_mul_pow2 in * by lia.
    change (2 ^ 12) with 4096 in *. unfold wrap64, MEMBASE in *. zlia.
  - split; [exact Hu'|]. cbn. rewrite Hr'. exact Hr.
Qed.

(** The entry of a new table: a reference to a page that had none. *)
Lemma pte_page_mk pa perm p :
  0 < p < 4294967296 -> pa = MEMBASE + 4096 * p -> 0 <= perm < 1024 ->
  pte_page (mk_pte pa perm) = Some p.
Proof.
  intros Hp -> Hperm. destruct (mk_pte_roundtrip (MEMBASE + 4096 * p) perm) as (EP & EV & _);
    [unfold MEMBASE; lia | unfold MEMBASE; zlia | lia |].
  unfold pte_page. rewrite EV, EP, (proj2 (Z.leb_le _ _)) by lia. cbn [andb].
  rewrite paToPage_eq by (unfold MEMBASE; lia). f_equal. unfold MEMBASE. zlia.
Qed.

(** The allocating branch of [ptWalk_level] on an empty entry. *)
Lemma alloc_link_run s pd va t x pp rest :
  mm_ok s -> frame_of s t -> idx x -> s.(pmem) (t + 8 * x) = 0 ->
  s.(pageFreeList) = pp :: rest ->
  exists s2,
    (let* newPage := pmAlloc in
     ptModify (t + 8 * x) (Z.lor (pageToPte newPage) PTE_V) ;;;
     flush_tlb_if_need pd va ;;;
     ret (Some (pageToPa newPage))) s = Ok (Some (MEMBASE + 4096 * pp), s2) /\
    linked s s2 t x (MEMBASE + 4096 * pp) /\ mm_ok s2 /\
    s2.(pageFreeList) = rest /\ s2.(npage) = s.(npage) /\ s2.(kvm_depth) = s.(kvm_depth) /\
    (forall p, p <> pp -> s2.(page_ref) p = s.(page_ref) p).
Proof.
  intros Hok Ht Hx H0 Hf.
  destruct (pmAlloc_spec s pp rest Hok Hf) as (Ea & Hok1 & Hu & Hr0).
  rewrite (bind_run _ _ _ _ _ Ea). clear Ea. pose proof Hu as [Hpp Hnf]. cbn in Hpp.
  pose proof (mm_npage _ Hok) as Hnp. rewrite pageToPte_mk by lia.
  set (s1 := set_pmem _ _) in *. set (P := MEMBASE + 4096 * pp).
  assert (HppF : pp ∈ s.(pageFreeList)) by (rewrite Hf; now left).
  assert (Hm1 : s1.(pmem) (t + 8 * x) = 0).
  { cbn. unfold zero_page. rewrite H0. now destruct (_ && _). }
  assert (Hpg : pte_page (mk_pte P 0) = Some pp) by (apply pte_page_mk; lia).
  destruct (ptModify_run s1 (t + 8 * x) (mk_pte P 0) Hok1 (frame_ram s t x Hnp Ht Hx))
    as [Em Hok2].
  { rewrite Hm1. discriminate. }
  { rewrite Hpg. intros p [= <-]. split; [exact Hu|]. cbn. lia. }
  unfold modified in *. rewrite Hm1, Hpg in *. change (pteToPa 0) with 0 in *.
  destruct (mk_pte_roundtrip P 0) as (EP & _); [unfold P, MEMBASE; lia | unfold P, MEMBASE; zlia | lia |].
  rewrite EP, (proj2 (Z.eqb_neq 0 P)) in * by (unfold P, MEMBASE; lia). cbn [inc_opt dec_opt pte_page] in *.
  rewrite (bind_run _ _ _ _ _ Em), pageToPa_eq by lia.
  eexists; split; [reflexivity|].
  split; [|split; [apply mm_ok_tlb, Hok2|]]; [constructor; cbn; auto|].
  - intros a. unfold upd, zero_page. rewrite pageToPa_eq by lia. reflexivity.
  - intros p [Hp Hpf]. split; cbn; [exact Hp|]. intros Hin. apply Hpf. rewrite Hf. now right.
  - exists pp. split; [split; auto|reflexivity].
  - intros (q & Hq & E). apply (frame_not_free s q Hq pp HppF). unfold P in E. lia.
  - unfold P, MEMBASE; lia.
  - repeat split; auto. intros p Hp. cbn. now rewrite upd_ne.
Qed.

Lemma linked_evolves s s2 root t x P pp :
  wf_pt s root -> linked s s2 t x P -> is_table s.(pmem) root t -> P = MEMBASE + 4096 * pp ->
  s2.(npage) = s.(npage) -> s2.(kvm_depth) = s.(kvm_depth) ->
  (forall p, p <> pp -> s2.(page_ref) p = s.(page_ref) p) ->
  (forall a, is_table s2.(pmem) root a -> a = P \/ is_table s.(pmem) root a) ->
  evolves root s s2.
Proof.
  intros W L Ht HP Hn Hd Hr Htab. constructor; auto.
  - intros p Hp. split; [now apply (lk_use _ _ _ _ _ L)|]. apply Hr. intros ->.
    apply (lk_new _ _ _ _ _ L). exists pp. auto.
  - intros a Ha H. destruct (Htab a H) as [->|]; [|auto].
    exfalso. now apply (lk_new _ _ _ _ _ L).
  - intros f a Hf Hnt Ha. rewrite (lk_mem _ _ _ _ _ L).
    assert (f <> t) by congruence. assert (f <> P) by (intros ->; now apply (lk_new _ _ _ _ _ L)).
    pose proof (frame_aligned _ _ Hf). pose proof (frame_aligned _ _ (lk_t _ _ _ _ _ L)).
    pose proof (frame_aligned _ _ (lk_P _ _ _ _ _ L)). pose proof (lk_x _ _ _ _ _ L) as Hx.
    unfold idx, MEMBASE in *. mem_cases; auto; zlia.
Qed.

Lemma linked_top_tables s s2 root x P a :
  wf_pt s root -> linked s s2 root x P -> child s.(pmem) root x = None ->
  is_table s2.(pmem) root a -> a = P \/ is_table s.(pmem) root a.
Proof.
  intros W L Hn [->|[(i & Hi & E)|(i & j & Hi & Hj & E)]].
  - right. now left.
  - erewrite top_child in E by eauto. destruct (i =? x); [left; congruence|].
    right. right. left. eauto.
  - erewrite top_tab3 in E by eauto. right. right. right. eauto.
Qed.
Lemma linked_mid_tables s s2 root i0 t x P a :
  wf_pt s root -> linked s s2 t x P -> idx i0 -> child s.(pmem) root i0 = Some t ->
  is_table s2.(pmem) root a -> a = P \/ is_table s.(pmem) root a.
Proof.
  intros W L Hi0 Ht [->|[(i & Hi & E)|(i & j & Hi & Hj & E)]].
  - right. now left.
  - rewrite (mid_child s s2 root i0 t x P) in E by auto. right. right. left. eauto.
  - rewrite (mid_tab3 s s2 root i0 t x P) in E by auto. destruct (_ && _); [left; congruence|].
    right. right. right. eauto.
Qed.

(** The invariant of a state whose tables a walk extends, relative to the
    state it started from. *)
Record walked (root : Z) (s s2 : mm) (n : nat) : Prop := {
  wk_ok : mm_ok s2;
  wk_wf : wf_pt s2 root;
  wk_ev : evolves root s s2;
  wk_pte : forall i j k, idx i -> idx j -> idx k ->
    pte_at s2.(pmem) root i j k = pte_at s.(pmem) root i j k;
  wk_free : (length s.(pageFreeList) <= length s2.(pageFreeList) + n)%nat }.

(** A level that needs no new table. *)
Lemma walk_level_noalloc s pd va create l t :
  mm_ok s -> frame_of s t -> create = false \/ child s.(pmem) t (PTX va l) <> None ->
  ptWalk_level pd va create l t s = Ok (child s.(pmem) t (PTX va l), s).
Proof.
  intros Hok Ht Hc. pose proof (mm_npage _ Hok) as Hnp. pose proof (PTX_range va l) as Hi.
  unfold ptWalk_level. rewrite (bind_run _ _ _ _ _ (rd_run s _ (frame_ram s t _ Hnp Ht Hi))).
  unfold child in *. destruct (has _ PTE_V); [reflexivity|].
  destruct Hc as [->|Hc]; [reflexivity|congruence].
Qed.

(** A level that needs one. *)
Lemma walk_level_alloc s pd va l t :
  mm_ok s -> frame_of s t -> child s.(pmem) t (PTX va l) = None ->
  s.(pmem) (t + 8 * PTX va l) = 0 -> (0 < length s.(pageFreeList))%nat ->
  exists P pp s2, ptWalk_level pd va true l t s = Ok (Some P, s2) /\
    P = MEMBASE + 4096 * pp /\ linked s s2 t (PTX va l) P /\ mm_ok s2 /\
    (length s.(pageFreeList) <= length s2.(pageFreeList) + 1)%nat /\
    s2.(npage) = s.(npage) /\ s2.(kvm_depth) = s.(kvm_depth) /\
    (forall p, p <> pp -> s2.(page_ref) p = s.(page_ref) p).
Proof.
  intros Hok Ht Hn H0 Hlen. pose proof (mm_npage _ Hok) as Hnp. pose proof (PTX_range va l) as Hi.
  destruct s.(pageFreeList) as [|pp rest] eqn:Hf; [cbn in Hlen; lia|].
  destruct (alloc_link_run s pd va t (PTX va l) pp rest Hok Ht Hi H0 Hf) as
    (s2 & Er & L & Hok2 & Hf2 & Hrest).
  exists (MEMBASE + 4096 * pp), pp, s2. split; [|split; [reflexivity|]].
  - unfold ptWalk_level. rewrite (bind_run _ _ _ _ _ (rd_run s _ (frame_ram s t _ Hnp Ht Hi))).
    unfold child in Hn. destruct (has _ PTE_V); [discriminate|]. exact Er.
  - split; [exact L|]. split; [exact Hok2|]. split; [rewrite Hf2; cbn; lia|]. exact Hrest.
Qed.

(** The first two levels with [create]: the table exists afterwards. *)
Lemma walk_top_create s root va :
  mm_ok s -> wf_pt s root -> (0 < length s.(pageFreeList))%nat ->
  exists t s2, ptWalk_level root va true 1 root s = Ok (Some t, s2) /\
    child s2.(pmem) root (PTX va 1) = Some t /\ walked root s s2 1.
Proof.
  intros Hok W Hlen. pose proof (PTX_range va 1) as Hi.
  destruct (child s.(pmem) root (PTX va 1)) as [t|] eqn:E.
  - exists t, s. rewrite walk_level_noalloc by (auto; try apply W; right; congruence).
    split; [now rewrite E|]. split; [exact E|]. constructor; auto using evolves_refl. lia.
  - destruct (walk_level_alloc s root va 1 root) as (P & pp & s2 & Er & HP & L & Hok2 & Hf & Hn & Hd & Hr);
      auto; [apply W | now apply (wf_z2 _ _ W)|].
    exists P, s2. split; [exact Er|]. split; [eapply linked_child_new; exact L|].
    constructor; auto.
    + eapply top_wf; eauto.
    + eapply linked_evolves; eauto; [now left|]. intros a. eapply linked_top_tables; eauto.
    + intros. eapply top_pte_at; eauto.
Qed.
Lemma walk_mid_create s root va t :
  mm_ok s -> wf_pt s root -> child s.(pmem) root (PTX va 1) = Some t ->
  (0 < length s.(pageFreeList))%nat ->
  exists t2 s2, ptWalk_level root va true 2 t s = Ok (Some t2, s2) /\
    tab3 s2.(pmem) root (PTX va 1) (PTX va 2) = Some t2 /\ walked root s s2 1.
Proof.
  intros Hok W Et Hlen. pose proof (PTX_range va 1) as Hi. pose proof (PTX_range va 2) as Hj.
  destruct (wf_t2 _ _ W _ _ Hi Et) as [Hft Htne].
  destruct (child s.(pmem) t (PTX va 2)) as [t2|] eqn:E.
  - exists t2, s. rewrite walk_level_noalloc by (auto; right; congruence).
    split; [now rewrite E|]. split; [unfold tab3; now rewrite Et|].
    constructor; auto using evolves_refl. lia.
  - destruct (walk_level_alloc s root va 2 t) as (P & pp & s2 & Er & HP & L & Hok2 & Hf & Hn & Hd & Hr);
      auto; [now apply (wf_z3 _ _ W (PTX va 1))|].
    assert (Hnone : tab3 s.(pmem) root (PTX va 1) (PTX va 2) = None) by (unfold tab3; now rewrite Et).
    exists P, s2. split; [exact Er|].
    split; [rewrite (mid_tab3 s s2 root (PTX va 1) t (PTX va 2) P) by auto; now rewrite !Z.eqb_refl|].
    constructor; auto.
    + apply (mid_wf s s2 root (PTX va 1) t (PTX va 2) P); auto.
    + eapply linked_evolves; eauto; [right; left; eauto|].
      intros a. apply (linked_mid_tables s s2 root (PTX va 1) t (PTX va 2) P); auto.
    + intros. apply (mid_pte_at s s2 root (PTX va 1) t (PTX va 2) P); auto.
Qed.

Lemma walked_trans root s s1 s2 n n' :
  walked root s s1 n -> walked root s1 s2 n' -> walked root s s2 (n + n').
Proof.
  intros [o w e p f] [o' w' e' p' f']. constructor; auto.
  - eapply evolves_trans; eauto.
  - intros. rewrite p', p by auto. reflexivity.
  - lia.
Qed.

(** [ptWalk] without [create] reads the tree and changes nothing. *)
Lemma ptWalk_find s root va :
  mm_ok s -> wf_pt s root ->
  ptWalk root va false s =
    Ok (match tab3 s.(pmem) root (PTX va 1) (PTX va 2) with
        | Some t => Some (t + 8 * PTX va 3) | None => None end, s).
Proof.
  intros Hok W. pose proof (PTX_range va 1) as Hi. unfold ptWalk, tab3.
  rewrite (bind_run _ _ _ _ _ (walk_level_noalloc s root va false 1 root Hok (wf_root _ _ W) (or_introl eq_refl))).
  destruct (child s.(pmem) root (PTX va 1)) as [t|] eqn:E; [|reflexivity].
  destruct (wf_t2 _ _ W _ _ Hi E) as [Hft _].
  rewrite (bind_run _ _ _ _ _ (walk_level_noalloc s root va false 2 t Hok Hft (or_introl eq_refl))).
  now destruct (child s.(pmem) t (PTX va 2)).
Qed.

(** [ptWalk] with [create] always finds the entry; lookups do not change. *)
Lemma ptWalk_create s root va :
  mm_ok s -> wf_pt s root -> (2 <= length s.(pageFreeList))%nat ->
  exists t s2, ptWalk root va true s = Ok (Some (t + 8 * PTX va 3), s2) /\
    tab3 s2.(pmem) root (PTX va 1) (PTX va 2) = Some t /\ walked root s s2 2.
Proof.
  intros Hok W Hlen. unfold ptWalk.
  destruct (walk_top_create s root va Hok W) as (t & s1 & E1 & Hc & K1); [lia|].
  rewrite (bind_run _ _ _ _ _ E1). pose proof (wk_free _ _ _ _ K1).
  destruct (walk_mid_create s1 root va t) as (t2 & s2 & E2 & H3 & K2);
    [apply K1 | apply K1 | exact Hc | lia |].
  rewrite (bind_run _ _ _ _ _ E2). exists t2, s2. split; [reflexivity|].
  split; [exact H3|]. exact (walked_trans _ _ _ _ _ _ K1 K2).
Qed.

(** ** Mapping *)

Lemma modified_fields s a v :
  (modified s a v).(pmem) = upd s.(pmem) a v /\ (modified s a v).(npage) = s.(npage) /\
  (modified s a v).(kvm_depth) = s.(kvm_depth) /\ (modified s a v).(tlb_flushed) = s.(tlb_flushed).
Proof.
  unfold modified. destruct (_ =? _); [auto|].
  destruct (inc_opt_fields (pte_page v) (set_pmem (upd s.(pmem) a v) (dec_opt (pte_page (s.(pmem) a)) s)))
    as (-> & -> & -> & -> & _).
  destruct (dec_opt_fields (pte_page (s.(pmem) a)) s) as (E1 & E2 & E3 & E4). cbn. auto.
Qed.
Lemma modified_use s a v p :
  in_use s p -> pte_page (s.(pmem) a) <> Some p -> in_use (modified s a v) p.
Proof.
  intros Hu Hne. unfold modified. destruct (_ =? _); [exact Hu|].
  destruct (dec_opt_use (pte_page (s.(pmem) a)) s p Hu Hne) as [[Hr Hf] _].
  destruct (inc_opt_fields (pte_page v) (set_pmem (upd s.(pmem) a v) (dec_opt (pte_page (s.(pmem) a)) s)))
    as (En & _ & _ & _ & Ef).
  split; [rewrite En; exact Hr | rewrite Ef; exact Hf].
Qed.
(** Reference counts: one less for the page the entry named, one more for the
    page it names now. *)
Definition ref_delta (o : option Z) (q : Z) : Z :=
  match o with Some p => if q =? p then 1 else 0 | None => 0 end.
Lemma dec_opt_ref o s q : (dec_opt o s).(page_ref) q = s.(page_ref) q - ref_delta o q.
Proof.
  destruct o as [p|]; cbn; [|lia]. unfold dec_ref.
  destruct (_ =? 1); cbn; unfold upd; destruct (Z.eqb_spec q p); subst; lia.
Qed.
Lemma inc_opt_ref o s q : (inc_opt o s).(page_ref) q = s.(page_ref) q + ref_delta o q.
Proof. destruct o as [p|]; cbn; [|lia]. unfold upd. destruct (Z.eqb_spec q p); subst; lia. Qed.
Lemma modified_ref s a v q :
  (pteToPa (s.(pmem) a) = pteToPa v -> pte_page (s.(pmem) a) = pte_page v) ->
  (modified s a v).(page_ref) q =
  s.(page_ref) q - ref_delta (pte_page (s.(pmem) a)) q + ref_delta (pte_page v) q.
Proof.
  intros Hsame. unfold modified. destruct (Z.eqb_spec (pteToPa (s.(pmem) a)) (pteToPa v)) as [E|E].
  - rewrite Hsame by auto. cbn. lia.
  - rewrite inc_opt_ref. cbn. rewrite dec_opt_ref. lia.
Qed.

Lemma wf_pt_depth s root d : wf_pt s root -> wf_pt (set_depth d s) root.
Proof. intros []. constructor; auto. Qed.
Lemma wf_pt_tlb s root l : wf_pt s root -> wf_pt (set_tlb l s) root.
Proof. intros []. constructor; auto. Qed.

(** An entry that may be overwritten: the page it maps is in use, referenced,
    and not one of the tables. *)
Definition releasable (s : mm) (root e : Z) : Prop :=
  forall q, pte_page e = Some q ->
    in_use s q /\ 0 < s.(page_ref) q /\ ~ is_table s.(pmem) root (MEMBASE + 4096 * q).

Lemma releasable_evolves root s s2 e :
  evolves root s s2 -> releasable s root e -> releasable s2 root e.
Proof.
  intros Ev H q Hq. destruct (H q Hq) as (Hu & Hr & Ht). destruct (ev_use _ _ _ Ev q Hu) as [Hu2 ->].
  split; [exact Hu2|]. split; [exact Hr|]. intros Ht2. apply Ht.
  apply (ev_tab _ _ _ Ev); [exists q; auto | exact Ht2].
Qed.

(** Tables survive the overwriting of a releasable entry. *)
Lemma modified_tables s root a v :
  wf_pt s root -> releasable s root (s.(pmem) a) ->
  forall b, is_table s.(pmem) root b -> frame_of (modified s a v) b.
Proof.
  intros W Hrel b Hb. destruct (is_table_frame s root b W Hb) as (p & Hp & ->).
  exists p. split; [|reflexivity]. apply modified_use; [exact Hp|].
  intros E. destruct (Hrel p E) as (_ & _ & Hnt). contradiction.
Qed.

(** The part of [ptMap] that finds or creates the entry. *)
Lemma ptMap_find s root va :
  mm_ok s -> wf_pt s root -> (2 <= length s.(pageFreeList))%nat ->
  exists t s2,
    (let* pte0 := ptWalk root va false in
     match pte0 with None => ptWalk root va true | Some a => ret (Some a) end) s
      = Ok (Some (t + 8 * PTX va 3), s2) /\
    tab3 s2.(pmem) root (PTX va 1) (PTX va 2) = Some t /\ walked root s s2 2 /\
    (tab3 s.(pmem) root (PTX va 1) (PTX va 2) <> None -> s2 = s).
Proof.
  intros Hok W Hlen. rewrite (bind_run _ _ _ _ _ (ptWalk_find s root va Hok W)).
  destruct (tab3 s.(pmem) root (PTX va 1) (PTX va 2)) as [t|] eqn:E.
  - exists t, s. split; [reflexivity|]. split; [exact E|]. split; [|reflexivity].
    constructor; auto using evolves_refl. lia.
  - destruct (ptWalk_create s root va Hok W Hlen) as (t & s2 & H1 & H2 & H3). exists t, s2. split; [exact H1|]. split; [exact H2|]. split; [exact H3|]. intros Hn. now destruct Hn.
Qed.

Lemma kvm_unlock_run s : 0 < s.(kvm_depth) ->
  kvm_unlock s = Ok (tt, set_depth (s.(kvm_depth) - 1) s).
Proof. intros. unfold kvm_unlock. now rewrite (proj2 (Z.eqb_neq _ 0)) by lia. Qed.

(** A successful [ptModify] of the last-level entry of [va] in a well-formed
    tree. *)
Lemma leaf_modify s root va t v :
  mm_ok s -> wf_pt s root -> tab3 s.(pmem) root (PTX va 1) (PTX va 2) = Some t ->
  releasable s root (lookup_va s.(pmem) root va) ->
  (forall p, pte_page v = Some p -> in_use s p /\ s.(page_ref) p < 4294967295) ->
  (has v PTE_V = false -> pteToPa v = 0) ->
  let a := t + 8 * PTX va 3 in
  s.(pmem) a = lookup_va s.(pmem) root va /\ ram s a = true /\
  ptModify a v s = Ok (tt, modified s a v) /\ mm_ok (modified s a v) /\
  wf_pt (modified s a v) root /\
  forall va', lookup_va (modified s a v).(pmem) root va' =
    if (PTX va' 1 =? PTX va 1) && (PTX va' 2 =? PTX va 2) && (PTX va' 3 =? PTX va 3)
    then v else lookup_va s.(pmem) root va'.
Proof.
  intros Hok W Et Hrel Hnew Hv a.
  pose proof (PTX_range va 1) as Hi. pose proof (PTX_range va 2) as Hj. pose proof (PTX_range va 3) as Hk.
  destruct (wf_t3 _ _ W _ _ t Hi Hj Et) as (Hf & _).
  assert (Ea : s.(pmem) a = lookup_va s.(pmem) root va) by (unfold lookup_va, pte_at; now rewrite Et).
  assert (Hram : ram s a = true) by (apply frame_ram; auto; apply Hok).
  destruct (modified_fields s a v) as (Em & _). rewrite <- Ea in Hrel.
  pose proof (modified_tables s root a v W Hrel) as Htab.
  destruct (ptModify_run s a v Hok Hram) as [Er Hok']; [|exact Hnew|].
  { intros p Hp. destruct (Hrel p Hp) as (? & ? & _). auto. }
  do 4 (split; [assumption|]). split.
  - apply (leaf_wf s _ root (PTX va 1) (PTX va 2) (PTX va 3) t v); auto.
  - intros va'. unfold lookup_va.
    apply (leaf_pte_at s _ root (PTX va 1) (PTX va 2) (PTX va 3) t v); auto using PTX_range.
    all: apply PTX_range.
Qed.

(** Pages in use that are no tables of [root], other than the page [o] when
    this is its last reference, stay in use with their contents and become no
    tables. *)
Definition spared (root : Z) (o : option Z) (s s' : mm) : Prop :=
  forall q, in_use s q -> ~ is_table s.(pmem) root (MEMBASE + 4096 * q) -> o <> Some q \/ 1 < s.(page_ref) q ->
    in_use s' q /\ ~ is_table s'.(pmem) root (MEMBASE + 4096 * q) /\
    forall x, MEMBASE + 4096 * q <= x < MEMBASE + 4096 * q + 4096 -> s'.(pmem) x = s.(pmem) x.
Lemma dec_opt_shared s q p : in_use s p -> 1 < s.(page_ref) p -> in_use (dec_opt q s) p.
Proof.
  intros Hp Hr. destruct (decide (q = Some p)) as [->|Hne]; [|now apply dec_opt_use].
  cbn. unfold dec_ref. now rewrite (proj2 (Z.eqb_neq _ _)) by lia.
Qed.
Lemma leaf_spared s root va t v : wf_pt s root -> tab3 s.(pmem) root (PTX va 1) (PTX va 2) = Some t ->
  spared root (pte_page (lookup_va s.(pmem) root va)) s (modified s (t + 8 * PTX va 3) v).
Proof.
  intros W Et q Hq Hnt Ho. pose proof (PTX_range va 1) as Hi. pose proof (PTX_range va 2) as Hj. pose proof (PTX_range va 3) as Hk.
  set (a := t + 8 * PTX va 3). assert (Ea : s.(pmem) a = lookup_va s.(pmem) root va) by (unfold lookup_va, pte_at; now rewrite Et).
  destruct (modified_fields s a v) as (Em & _). split; [|split].
  - destruct Ho as [Ho|Hr]; [apply modified_use; [exact Hq|now rewrite Ea]|].
    unfold modified. destruct (_ =? _); [exact Hq|]. destruct (dec_opt_shared s (pte_page (pmem s a)) q Hq Hr) as [H1 H2].
    destruct (inc_opt_fields (pte_page v) (set_pmem (upd s.(pmem) a v) (dec_opt (pte_page (s.(pmem) a)) s))) as (En & _ & _ & _ & Ef).
    split; [rewrite En; exact H1|rewrite Ef; exact H2].
  - intros Ht. apply Hnt. pose proof (leaf_dir s _ root (PTX va 1) (PTX va 2) (PTX va 3) t v W Hi Hj Hk Et Em) as Hd.
    destruct Ht as [E|[(i & Hi' & E)|(i & j & Hi' & Hj' & E)]]; [now left|right; left|right; right].
    + exists i. split; [exact Hi'|]. exact (eq_trans (eq_sym (same_child s _ root Hd i Hi')) E).
    + exists i, j. split; [exact Hi'|]. split; [exact Hj'|]. exact (eq_trans (eq_sym (same_tab3 s _ root Hd i j Hi' Hj')) E).
  - intros x Hx. rewrite Em. apply upd_ne. intros ->. apply Hnt. replace (MEMBASE + 4096 * q) with t; [right; right; eauto|].
    destruct (wf_t3 _ _ W _ _ t Hi Hj Et) as ((r & _ & Er) & _). unfold a, idx in *. lia.
Qed.
(** An entry that keeps its page spares that page too. *)
Lemma leaf_spared_same s root va t v : wf_pt s root -> tab3 s.(pmem) root (PTX va 1) (PTX va 2) = Some t ->
  pteToPa (lookup_va s.(pmem) root va) = pteToPa v -> spared root None s (modified s (t + 8 * PTX va 3) v).
Proof.
  intros W Et Hpa q Hq Hnt _. assert (Ea : s.(pmem) (t + 8 * PTX va 3) = lookup_va s.(pmem) root va) by (unfold lookup_va, pte_at; now rewrite Et).
  assert (Em : modified s (t + 8 * PTX va 3) v = set_pmem (upd s.(pmem) (t + 8 * PTX va 3) v) s) by (unfold modified; now rewrite Ea, Hpa, Z.eqb_refl).
  destruct (decide (pte_page (lookup_va s.(pmem) root va) = Some q)) as [Hp|Hp]; [|apply (leaf_spared s root va t v W Et); auto].
  set (s1 := MkMm s.(npage) (fun _ => 2) s.(pageFreeList) s.(pageleft) s.(pmem) s.(kvm_depth) s.(tlb_flushed)).
  destruct (leaf_spared s1 root va t v) with (q := q) as (_ & H2 & H3); [destruct W; now constructor|exact Et|exact Hq|exact Hnt|right; cbn; lia|].
  rewrite Em. split; [exact Hq|]. unfold modified in H2, H3. change (pmem s1) with (pmem s) in *. rewrite Ea, Hpa, Z.eqb_refl in H2, H3. split; [exact H2|exact H3].
Qed.
Lemma evolves_spared root s s2 : evolves root s s2 -> spared root None s s2.
Proof.
  intros Ev q Hq Hnt _. assert (Hf : frame_of s (MEMBASE + 4096 * q)) by (exists q; auto).
  split; [now apply (ev_use _ _ _ Ev)|]. split; [intros H; apply Hnt; now apply (ev_tab _ _ _ Ev)|].
  intros x Hx. apply (ev_data _ _ _ Ev _ _ Hf); auto.
Qed.
Lemma modified_free s a v : (length s.(pageFreeList) <= length (modified s a v).(pageFreeList))%nat.
Proof.
  unfold modified. destruct (_ =? _); [reflexivity|].
  destruct (inc_opt_fields (pte_page v) (set_pmem (upd s.(pmem) a v) (dec_opt (pte_page (s.(pmem) a)) s))) as (_ & _ & _ & _ & ->).
  cbn. destruct (pte_page _) as [q|]; cbn; [|reflexivity]. unfold dec_ref. destruct (_ =? 1); cbn; lia.
Qed.
Lemma ptMap_run (s : mm) (root va p perm : Z) :
  mm_ok s -> wf_pt s root -> (2 <= length s.(pageFreeList))%nat -> 0 <= s.(kvm_depth) ->
  in_use s p -> s.(page_ref) p < 4294967295 -> 0 <= perm < 1024 ->
  releasable s root (lookup_va s.(pmem) root va) ->
  let pa := MEMBASE + 4096 * p in
  exists s', ptMap root va pa perm s = Ok (0, s') /\ mm_ok s' /\ wf_pt s' root /\
    s'.(kvm_depth) = s.(kvm_depth) /\ head s'.(tlb_flushed) = Some (PGROUNDDOWN va) /\
    (forall va', lookup_va s'.(pmem) root va' =
       if (PTX va' 1 =? PTX va 1) && (PTX va' 2 =? PTX va 2) && (PTX va' 3 =? PTX va 3)
       then mk_pte pa perm else lookup_va s.(pmem) root va') /\
    (forall q, in_use s q -> s'.(page_ref) q =
      s.(page_ref) q - ref_delta (pte_page (lookup_va s.(pmem) root va)) q + ref_delta (Some p) q) /\
    (length s.(pageFreeList) <= length s'.(pageFreeList) + 2)%nat /\ s'.(npage) = s.(npage) /\
    spared root (pte_page (lookup_va s.(pmem) root va)) s s' /\
    (tab3 s.(pmem) root (PTX va 1) (PTX va 2) <> None -> forall a x, is_dir s.(pmem) root a -> idx x ->
       s'.(pmem) (a + 8 * x) = s.(pmem) (a + 8 * x)).
Proof.
  intros Hok W Hlen Hd Hp Hrp Hperm Hrel pa.
  set (s0 := set_depth (s.(kvm_depth) + 1) s).
  assert (Hok0 : mm_ok s0) by now apply mm_ok_depth.
  assert (W0 : wf_pt s0 root) by now apply wf_pt_depth.
  destruct (ptMap_find s0 root va Hok0 W0 Hlen) as (t & s2 & Ef & Et & K & Ks).
  pose proof (wk_ev _ _ _ _ K) as Ev.
  assert (El : forall va', lookup_va s2.(pmem) root va' = lookup_va s.(pmem) root va').
  { intros. unfold lookup_va. rewrite (wk_pte _ _ _ _ K); auto using PTX_range; apply PTX_range. }
  destruct (ev_use _ _ _ Ev p Hp) as [Hp2 Hr2]. pose proof (mm_npage _ Hok) as Hnp.
  assert (Hpa : pte_page (mk_pte pa perm) = Some p) by (apply pte_page_mk; destruct Hp; auto; lia).
  destruct (mk_pte_roundtrip pa perm) as (EP & EV & _);
    [unfold pa, MEMBASE; destruct Hp; lia | unfold pa, MEMBASE; zlia | lia |].
  destruct (leaf_modify s2 root va t (mk_pte pa perm)) as (Ea & Hram & Em & Hok3 & W3 & Hl3);
    [apply K | apply K | exact Et | rewrite El; now apply (releasable_evolves root s0)
    | rewrite Hpa; intros q [= <-]; cbn in Hr2; split; [exact Hp2|lia] | rewrite EV; discriminate |].
  set (a := t + 8 * PTX va 3) in *. set (s3 := modified s2 a (mk_pte pa perm)) in *.
  destruct (modified_fields s2 a (mk_pte pa perm)) as (_ & _ & Hd3 & _). fold s3 in Hd3.
  rewrite (ev_depth _ _ _ Ev) in Hd3. cbn in Hd3.
  set (s4 := set_tlb (PGROUNDDOWN va :: s3.(tlb_flushed)) s3).
  exists (set_depth (s4.(kvm_depth) - 1) s4).
  split; [|split; [now apply mm_ok_depth, mm_ok_tlb|split; [now apply wf_pt_depth, wf_pt_tlb|]]].
  { assert (Efin : bind (ptModify a (mk_pte pa perm)) (fun _ => flush_tlb_if_need root va ;;;
                     kvm_unlock ;;; ret 0) s2 = Ok (0, set_depth (s4.(kvm_depth) - 1) s4)).
    { rewrite (bind_run _ _ _ _ _ Em). unfold flush_tlb_if_need, tlbFlush.
      rewrite (bind_run (modify _) _ s3 tt s4) by reflexivity.
      rewrite (bind_run _ _ _ _ _ (kvm_unlock_run s4 ltac:(cbn; lia))). reflexivity. }
    unfold ptMap. rewrite (bind_run kvm_lock _ s tt s0) by reflexivity.
    rewrite bind_assoc, (bind_run _ _ _ _ _ Ef). cbn [deref default].
    rewrite (bind_run _ _ _ _ _ (rd_run s2 a Hram)).
    assert (H0 : (pa =? 0) = false) by (apply Z.eqb_neq; unfold pa, MEMBASE; destruct Hp; lia).
    assert (HM : (MEMBASE <=? pa) = true) by (apply Z.leb_le; unfold pa; destruct Hp; lia).
    cbn [default id]. rewrite H0, HM. destruct (has (s2.(pmem) a) PTE_V); exact Efin. }
  split; [cbn; lia|]. split; [reflexivity|]. split.
  - intros va'. change (pmem (set_depth _ s4)) with s3.(pmem). rewrite Hl3, El. reflexivity.
  - split; [|split; [|split; [|split]]].
    5: { intros Hn f x Hf Hx. specialize (Ks Hn). change (pmem (set_depth _ s4)) with s3.(pmem). unfold s3. subst s2.
         destruct (modified_fields s0 a (mk_pte pa perm)) as (Em' & _).
         exact (leaf_dir s0 _ root (PTX va 1) (PTX va 2) (PTX va 3) t _ W0 (PTX_range va 1) (PTX_range va 2) (PTX_range va 3) Et Em' f x Hf Hx). }
    2: { change (pageFreeList (set_depth _ s4)) with s3.(pageFreeList).
         pose proof (modified_free s2 a (mk_pte pa perm)); pose proof (wk_free _ _ _ _ K); cbn in *; fold s3 in H; lia. }
    2: { destruct (modified_fields s2 a (mk_pte pa perm)) as (_ & En & _). exact (eq_trans En (ev_npage _ _ _ Ev)). }
    2: { intros q Hq Hnt Ho. destruct (evolves_spared _ _ _ Ev q Hq Hnt) as (U2 & T2 & C2); [now left|].
         destruct (ev_use _ _ _ Ev q Hq) as [_ Er].
         destruct (leaf_spared s2 root va t (mk_pte pa perm) (wk_wf _ _ _ _ K) Et q U2 T2) as (U3 & T3 & C3); [now rewrite El, Er|].
         split; [exact U3|]. split; [exact T3|]. intros x Hx. exact (eq_trans (C3 x Hx) (C2 x Hx)). }
    intros q Hq. change (page_ref (set_depth _ s4)) with s3.(page_ref). unfold s3.
    rewrite modified_ref, Ea, El, Hpa.
    + destruct (ev_use _ _ _ Ev q Hq) as [_ ->]. reflexivity.
    + rewrite Ea. intros E. unfold pte_page. rewrite E, EV.
      destruct (has (lookup_va s2.(pmem) root va) PTE_V) eqn:Eh; [reflexivity|].
      exfalso. unfold lookup_va in E, Eh. rewrite (wf_leaf _ _ (wk_wf _ _ _ _ K)) in E by (auto; apply PTX_range).
      rewrite EP in E. unfold pa, MEMBASE in E. destruct Hp; lia.
Qed.

(** C6. [ptMap] of a page in use installs exactly that mapping: afterwards
    [va] resolves to the entry for [pa] and [perm], every address of another
    page resolves as before, the tree and the allocator stay well formed, the
    mapped page gains and the replaced page loses one reference, the TLB entry
    of [va] was flushed last and [kvmlock] is released. *)
Theorem ptMap_maps (s : mm) (root va p perm : Z) :
  mm_ok s -> wf_pt s root -> (2 <= length s.(pageFreeList))%nat -> 0 <= s.(kvm_depth) ->
  in_use s p -> s.(page_ref) p < 4294967295 -> 0 <= perm < 1024 ->
  releasable s root (lookup_va s.(pmem) root va) ->
  let pa := MEMBASE + 4096 * p in
  exists s', ptMap root va pa perm s = Ok (0, s') /\ mm_ok s' /\ wf_pt s' root /\
    s'.(kvm_depth) = s.(kvm_depth) /\ head s'.(tlb_flushed) = Some (PGROUNDDOWN va) /\
    (forall va', lookup_va s'.(pmem) root va' =
       if (PTX va' 1 =? PTX va 1) && (PTX va' 2 =? PTX va 2) && (PTX va' 3 =? PTX va 3)
       then mk_pte pa perm else lookup_va s.(pmem) root va') /\
    forall q, in_use s q -> s'.(page_ref) q =
      s.(page_ref) q - ref_delta (pte_page (lookup_va s.(pmem) root va)) q + ref_delta (Some p) q.
Proof.
  intros Hok W Hlen Hd Hp Hrp Hperm Hrel pa.
  destruct (ptMap_run s root va p perm Hok W Hlen Hd Hp Hrp Hperm Hrel) as (s' & E & H1 & H2 & H3 & H4 & H5 & H6 & _).
  exists s'. auto 10.
Qed.

(** [ptMap] of address 0 promises a page: the entry holds the permissions and
    names no page. *)
Lemma ptMap_passive_run (s : mm) (root va perm : Z) :
  mm_ok s -> wf_pt s root -> (2 <= length s.(pageFreeList))%nat -> 0 <= s.(kvm_depth) ->
  0 <= perm < 1024 -> has perm PTE_V = false -> has perm PTE_U = true -> has (lookup_va s.(pmem) root va) PTE_V = false ->
  exists s', ptMap root va 0 perm s = Ok (0, s') /\ mm_ok s' /\ wf_pt s' root /\ s'.(kvm_depth) = s.(kvm_depth) /\
    (forall va', lookup_va s'.(pmem) root va' =
       if (PTX va' 1 =? PTX va 1) && (PTX va' 2 =? PTX va 2) && (PTX va' 3 =? PTX va 3)
       then perm else lookup_va s.(pmem) root va') /\
    (forall q, in_use s q -> s'.(page_ref) q = s.(page_ref) q) /\
    (length s.(pageFreeList) <= length s'.(pageFreeList) + 2)%nat /\ s'.(npage) = s.(npage) /\ spared root None s s'.
Proof.
  intros Hok W Hlen Hd Hperm Hv Hu Hold. set (s0 := set_depth (s.(kvm_depth) + 1) s).
  destruct (ptMap_find s0 root va (mm_ok_depth _ _ Hok) (wf_pt_depth _ _ _ W) Hlen) as (t & s2 & Ef & Et & K & Ks).
  pose proof (wk_ev _ _ _ _ K) as Ev.
  assert (El : forall va', lookup_va s2.(pmem) root va' = lookup_va s.(pmem) root va').
  { intros. unfold lookup_va. rewrite (wk_pte _ _ _ _ K); auto using PTX_range; apply PTX_range. }
  assert (Hpp : pte_page perm = None) by (unfold pte_page; now rewrite Hv).
  assert (Hpo : pte_page (lookup_va s2.(pmem) root va) = None) by (rewrite El; unfold pte_page; now rewrite Hold).
  assert (Hp0 : pteToPa perm = 0) by (unfold pteToPa; now rewrite shiftr10_small).
  destruct (leaf_modify s2 root va t perm) as (Ea & Hram & Em & Hok3 & W3 & Hl3);
    [apply K|apply K|exact Et|unfold releasable; now rewrite Hpo|now rewrite Hpp|intros; exact Hp0|].
  set (a := t + 8 * PTX va 3) in *. set (s3 := modified s2 a perm) in *.
  destruct (modified_fields s2 a perm) as (_ & En3 & Hd3 & _). fold s3 in Hd3, En3. rewrite (ev_depth _ _ _ Ev) in Hd3. cbn in Hd3.
  exists (set_depth (s3.(kvm_depth) - 1) s3).
  split; [|split; [now apply mm_ok_depth|split; [now apply wf_pt_depth|]]].
  { unfold ptMap. rewrite (bind_run kvm_lock _ s tt s0) by reflexivity. rewrite bind_assoc, (bind_run _ _ _ _ _ Ef). cbn [deref default].
    rewrite (bind_run _ _ _ _ _ (rd_run s2 a Hram)), Ea, El, Hold. cbn [Z.eqb default id]. rewrite massert_run by exact Hu.
    fold a. rewrite (bind_run _ _ _ _ _ Em), (bind_run _ _ _ _ _ (kvm_unlock_run s3 ltac:(lia))). reflexivity. }
  split; [cbn; lia|]. split; [intros va'; change (pmem (set_depth _ s3)) with s3.(pmem); rewrite Hl3, El; reflexivity|]. split; [|split; [|split]].
  - intros q Hq. change (page_ref (set_depth _ s3)) with s3.(page_ref). unfold s3. rewrite modified_ref, Ea, Hpo, Hpp by (rewrite Ea, Hpo, Hpp; reflexivity).
    destruct (ev_use _ _ _ Ev q Hq) as [_ ->]. cbn. lia.
  - change (pageFreeList (set_depth _ s3)) with s3.(pageFreeList). pose proof (modified_free s2 a perm). pose proof (wk_free _ _ _ _ K). cbn in *. fold s3 in H. lia.
  - exact (eq_trans En3 (ev_npage _ _ _ Ev)).
  - intros q Hq Hnt Ho. destruct (evolves_spared _ _ _ Ev q Hq Hnt) as (U2 & T2 & C2); [now left|].
    destruct (leaf_spared s2 root va t perm (wk_wf _ _ _ _ K) Et q U2 T2) as (U3 & T3 & C3); [left; now rewrite Hpo|].
    split; [exact U3|]. split; [exact T3|]. intros x Hx. exact (eq_trans (C3 x Hx) (C2 x Hx)).
Qed.

(** [ptMap] of the page an address already maps changes its permissions. *)
Lemma ptMap_same_run (s : mm) (root va p perm : Z) :
  mm_ok s -> wf_pt s root -> 0 <= s.(kvm_depth) -> 0 <= perm < 1024 -> 0 < p < s.(npage) -> s.(page_ref) p < 4294967295 ->
  pte_page (lookup_va s.(pmem) root va) = Some p -> pteToPa (lookup_va s.(pmem) root va) = MEMBASE + 4096 * p -> releasable s root (lookup_va s.(pmem) root va) ->
  exists s', ptMap root va (MEMBASE + 4096 * p) perm s = Ok (0, s') /\ mm_ok s' /\ wf_pt s' root /\ s'.(kvm_depth) = s.(kvm_depth) /\
    (forall va', lookup_va s'.(pmem) root va' =
       if (PTX va' 1 =? PTX va 1) && (PTX va' 2 =? PTX va 2) && (PTX va' 3 =? PTX va 3)
       then mk_pte (MEMBASE + 4096 * p) perm else lookup_va s.(pmem) root va') /\
    s'.(page_ref) = s.(page_ref) /\ s'.(pageFreeList) = s.(pageFreeList) /\ s'.(npage) = s.(npage) /\ spared root None s s'.
Proof.
  intros Hok W Hd Hperm Hp Hr Hpg HoP Hrel. set (s0 := set_depth (s.(kvm_depth) + 1) s). set (v := mk_pte (MEMBASE + 4096 * p) perm).
  pose proof (mm_npage _ Hok) as Hnp. destruct (Hrel p Hpg) as (Hu & _ & _).
  assert (exists t, tab3 s.(pmem) root (PTX va 1) (PTX va 2) = Some t) as [t Et].
  { unfold lookup_va, pte_at in Hpg. destruct (tab3 _ _ _ _) as [t|]; [eauto|discriminate]. }
  destruct (mk_pte_roundtrip (MEMBASE + 4096 * p) perm) as (EP & EV & _); [unfold MEMBASE; lia|unfold MEMBASE; zlia|lia|].
  pose proof (proj1 (pte_page_low _ _ Hpg ltac:(lia))) as HoV.
  destruct (leaf_modify s0 root va t v (mm_ok_depth _ _ Hok) (wf_pt_depth _ _ _ W) Et) as (Ea & Hram & Em & Hok3 & W3 & Hl3);
    [exact Hrel|intros q; unfold v; rewrite (pte_page_mk _ perm p) by (unfold MEMBASE; lia); intros [= <-]; now split|intros H; unfold v in H; congruence|].
  set (a := t + 8 * PTX va 3) in *.
  assert (E3 : modified s0 a v = set_pmem (upd s0.(pmem) a v) s0) by (unfold modified, v; rewrite Ea; change (pmem s0) with (pmem s); now rewrite HoP, EP, Z.eqb_refl).
  pose proof (leaf_spared_same s0 root va t v (wf_pt_depth _ _ _ W) Et) as Hsp. change (pmem s0) with (pmem s) in Hsp at 1. fold a in Hsp. unfold v in Hsp at 1. rewrite HoP, EP in Hsp. specialize (Hsp eq_refl).
  set (s3 := modified s0 a v) in *. set (s4 := set_tlb (PGROUNDDOWN va :: s3.(tlb_flushed)) s3).
  exists (set_depth (s4.(kvm_depth) - 1) s4). split; [|split; [apply mm_ok_depth, mm_ok_tlb, Hok3|split; [apply wf_pt_depth, wf_pt_tlb, W3|]]].
  { unfold ptMap. rewrite (bind_run kvm_lock _ s tt s0) by reflexivity. rewrite (bind_run _ _ _ _ _ (ptWalk_find s0 root va (mm_ok_depth _ _ Hok) (wf_pt_depth _ _ _ W))).
    change (s0.(pmem)) with s.(pmem). rewrite Et, (bind_run (ret _) _ s0 _ s0 eq_refl). cbn [deref default id]. fold a.
    rewrite (bind_run _ _ _ _ _ (rd_run s0 a Hram)), Ea. change (pmem s0) with (pmem s). rewrite HoV, massert_run by (unfold MEMBASE; zcases).
    change (default 0 (Some a)) with a. rewrite (bind_run _ _ _ _ _ Em). unfold flush_tlb_if_need, tlbFlush. rewrite (bind_run (modify _) _ s3 tt s4) by reflexivity.
    rewrite (bind_run _ _ _ _ _ (kvm_unlock_run s4 ltac:(unfold s4; rewrite E3; cbn; lia))). reflexivity. }
  split; [unfold s4; rewrite E3; cbn; lia|]. split; [exact Hl3|]. unfold s4. rewrite E3. do 3 (split; [reflexivity|]). rewrite E3 in Hsp. exact Hsp.
Qed.

Lemma set_depth_back s : set_depth (s.(kvm_depth) + 1 - 1) (set_depth (s.(kvm_depth) + 1) s) = s.
Proof. destruct s; unfold set_depth; cbn. f_equal; lia. Qed.

(** [ptLookup] returns the entry the tree holds for the address (zero
    when a table is missing) and changes nothing. *)
Theorem ptLookup_reads (s : mm) (root va : Z) :
  mm_ok s -> wf_pt s root -> 0 <= s.(kvm_depth) ->
  ptLookup root va s = Ok (lookup_va s.(pmem) root va, s).
Proof.
  intros Hok W Hd. set (s0 := set_depth (s.(kvm_depth) + 1) s).
  assert (Hok0 : mm_ok s0) by now apply mm_ok_depth.
  assert (W0 : wf_pt s0 root) by now apply wf_pt_depth.
  unfold ptLookup. rewrite (bind_run kvm_lock _ s tt s0) by reflexivity.
  rewrite (bind_run _ _ _ _ _ (ptWalk_find s0 root va Hok0 W0)).
  rewrite (bind_run _ _ _ _ _ (kvm_unlock_run s0 ltac:(cbn; lia))).
  unfold s0 at 2 3. cbn [kvm_depth set_depth]. rewrite set_depth_back.
  unfold lookup_va, pte_at. change (s0.(pmem)) with s.(pmem).
  destruct (tab3 s.(pmem) root (PTX va 1) (PTX va 2)) as [t|] eqn:E; [|reflexivity].
  apply rd_run. destruct (wf_t3 _ _ W _ _ t (PTX_range va 1) (PTX_range va 2) E) as (Hf & _).
  apply frame_ram; auto; [apply Hok | apply PTX_range].
Qed.

Lemma ptClear_run s a :
  mm_ok s -> ram s a = true ->
  (forall p, pte_page (s.(pmem) a) = Some p -> in_use s p /\ 0 < s.(page_ref) p) ->
  let s' := set_pmem (upd s.(pmem) a 0) (dec_opt (pte_page (s.(pmem) a)) s) in
  ptClear a s = Ok (tt, s') /\ mm_ok s'.
Proof.
  intros Hok Hram Hold. unfold ptClear. rewrite (bind_run _ _ _ _ _ (rd_run s a Hram)).
  destruct (pp_dec_run _ s Hok Hold) as [Ed Hok1]. rewrite (bind_run _ _ _ _ _ Ed).
  destruct (dec_opt_fields (pte_page (s.(pmem) a)) s) as (_ & Em & _).
  rewrite wr_run by (rewrite ram_dec_opt; exact Hram). rewrite Em.
  split; [reflexivity | now apply mm_ok_pmem].
Qed.

Lemma ptUnmap_run (s : mm) (root va : Z) :
  mm_ok s -> wf_pt s root -> 0 <= s.(kvm_depth) ->
  lookup_va s.(pmem) root va <> 0 -> releasable s root (lookup_va s.(pmem) root va) ->
  exists s', ptUnmap root va s = Ok (0, s') /\ mm_ok s' /\ wf_pt s' root /\
    s'.(kvm_depth) = s.(kvm_depth) /\ head s'.(tlb_flushed) = Some (PGROUNDDOWN va) /\
    (forall va', lookup_va s'.(pmem) root va' =
       if (PTX va' 1 =? PTX va 1) && (PTX va' 2 =? PTX va 2) && (PTX va' 3 =? PTX va 3)
       then 0 else lookup_va s.(pmem) root va') /\
    (forall q, s'.(page_ref) q =
       s.(page_ref) q - ref_delta (pte_page (lookup_va s.(pmem) root va)) q) /\
    (forall q, pte_page (lookup_va s.(pmem) root va) = Some q ->
       s.(page_ref) q = 1 -> q ∈ s'.(pageFreeList)) /\
    s'.(npage) = s.(npage) /\ (length s.(pageFreeList) <= length s'.(pageFreeList))%nat /\
    spared root (pte_page (lookup_va s.(pmem) root va)) s s'.
Proof.
  intros Hok W Hd Hne Hrel. set (s0 := set_depth (s.(kvm_depth) + 1) s).
  assert (Hok0 : mm_ok s0) by now apply mm_ok_depth.
  assert (W0 : wf_pt s0 root) by now apply wf_pt_depth.
  pose proof (PTX_range va 1) as Hi. pose proof (PTX_range va 2) as Hj. pose proof (PTX_range va 3) as Hk.
  assert (exists t, tab3 s.(pmem) root (PTX va 1) (PTX va 2) = Some t) as [t Et].
  { unfold lookup_va, pte_at in Hne. destruct (tab3 _ _ _ _) as [t|]; [eauto|congruence]. }
  destruct (wf_t3 _ _ W0 _ _ t Hi Hj Et) as (Hf & _).
  set (a := t + 8 * PTX va 3). set (e := lookup_va s.(pmem) root va) in *.
  assert (Ea : s0.(pmem) a = e) by (unfold e, lookup_va, pte_at; now rewrite Et).
  assert (Hram : ram s0 a = true) by (apply frame_ram; auto; apply Hok0).
  destruct (ptClear_run s0 a Hok0 Hram) as [Ec Hok3].
  { rewrite Ea. intros p Hp. destruct (Hrel p Hp) as (? & ? & _). auto. }
  rewrite Ea in *. set (s3 := set_pmem _ _) in *.
  assert (W3 : wf_pt s3 root /\ forall va', lookup_va s3.(pmem) root va' =
       if (PTX va' 1 =? PTX va 1) && (PTX va' 2 =? PTX va 2) && (PTX va' 3 =? PTX va 3)
       then 0 else lookup_va s.(pmem) root va').
  { split.
    - apply (leaf_wf s0 s3 root (PTX va 1) (PTX va 2) (PTX va 3) t 0); auto.
      intros b Hb. destruct (is_table_frame s0 root b W0 Hb) as (p & Hp & ->).
      exists p. split; [|reflexivity]. apply (dec_opt_use (pte_page e) s0 p Hp).
      intros E. destruct (Hrel p E) as (_ & _ & Hnt). contradiction.
    - intros va'. unfold lookup_va.
      apply (leaf_pte_at s0 s3 root (PTX va 1) (PTX va 2) (PTX va 3) t 0); auto; apply PTX_range. }
  destruct (dec_opt_fields (pte_page e) s0) as (_ & _ & Hd3 & _).
  set (s4 := set_tlb (PGROUNDDOWN va :: s3.(tlb_flushed)) s3).
  assert (Hd4 : s4.(kvm_depth) = s.(kvm_depth) + 1) by exact Hd3.
  exists (set_depth (s4.(kvm_depth) - 1) s4).
  destruct W3 as [W3 Hl3].
  split; [|split; [apply mm_ok_depth, mm_ok_tlb, Hok3|split; [apply wf_pt_depth, wf_pt_tlb, W3|]]].
  { unfold ptUnmap. rewrite (bind_run kvm_lock _ s tt s0) by reflexivity.
    rewrite (bind_run _ _ _ _ _ (ptWalk_find s0 root va Hok0 W0)).
    change (s0.(pmem)) with s.(pmem). rewrite Et. cbn [deref].
    rewrite (bind_run _ _ _ _ _ (rd_run s0 a Hram)), Ea, (proj2 (Z.eqb_neq e 0) Hne).
    cbn [default id]. change (default 0 (Some (t + 8 * PTX va 3))) with a.
    rewrite (bind_run _ _ _ _ _ Ec). unfold flush_tlb_if_need, tlbFlush.
    rewrite (bind_run (modify _) _ s3 tt s4) by reflexivity.
    rewrite (bind_run _ _ _ _ _ (kvm_unlock_run s4 ltac:(lia))). reflexivity. }
  split; [change (kvm_depth (set_depth (kvm_depth s4 - 1) s4)) with (kvm_depth s4 - 1); lia|]. split; [reflexivity|]. split; [exact Hl3|]. split.
  - intros q. change (page_ref (set_depth _ s4)) with (dec_opt (pte_page e) s0).(page_ref).
    apply (dec_opt_ref _ s0).
  - split; [|split; [apply (dec_opt_fields (pte_page e) s0)|split]].
    + intros q Hq Hr. change (pageFreeList (set_depth _ s4)) with (dec_opt (pte_page e) s0).(pageFreeList).
      rewrite Hq. cbn. unfold dec_ref. cbn. rewrite Hr. cbn. now left.
    + change (pageFreeList (set_depth _ s4)) with (dec_opt (pte_page e) s0).(pageFreeList).
      destruct (pte_page e) as [q|]; cbn; [|lia]. unfold dec_ref. destruct (_ =? 1); cbn; lia.
    + pose proof (leaf_spared s0 root va t 0 W0 Et) as Hsp. fold a in Hsp. change (lookup_va s0.(pmem) root va) with e in Hsp. unfold modified in Hsp. rewrite Ea in Hsp. change (pte_page 0) with (@None Z) in Hsp. change (pteToPa 0) with 0 in Hsp.
      destruct (Z.eqb_spec (pteToPa e) 0) as [E0|E0]; [|exact Hsp]. unfold s4, s3.
      assert (En : pte_page e = None) by (unfold pte_page; rewrite E0; change (MEMBASE <=? 0) with false; now rewrite andb_false_r). rewrite En in *. exact Hsp.
Qed.

(** [ptUnmap] of a mapped or passive address clears exactly that entry,
    drops the reference of the page it mapped (freeing it with the last one),
    flushes the TLB entry and releases [kvmlock]. *)
Theorem ptUnmap_unmaps (s : mm) (root va : Z) :
  mm_ok s -> wf_pt s root -> 0 <= s.(kvm_depth) ->
  lookup_va s.(pmem) root va <> 0 -> releasable s root (lookup_va s.(pmem) root va) ->
  exists s', ptUnmap root va s = Ok (0, s') /\ mm_ok s' /\ wf_pt s' root /\
    s'.(kvm_depth) = s.(kvm_depth) /\ head s'.(tlb_flushed) = Some (PGROUNDDOWN va) /\
    (forall va', lookup_va s'.(pmem) root va' =
       if (PTX va' 1 =? PTX va 1) && (PTX va' 2 =? PTX va 2) && (PTX va' 3 =? PTX va 3)
       then 0 else lookup_va s.(pmem) root va') /\
    (forall q, s'.(page_ref) q =
       s.(page_ref) q - ref_delta (pte_page (lookup_va s.(pmem) root va)) q) /\
    (forall q, pte_page (lookup_va s.(pmem) root va) = Some q ->
       s.(page_ref) q = 1 -> q ∈ s'.(pageFreeList)).
Proof.
  intros Hok W Hd Hne Hrel. destruct (ptUnmap_run s root va Hok W Hd Hne Hrel) as (s' & E & H1 & H2 & H3 & H4 & H5 & H6 & H7 & _). exists s'. auto 10.
Qed.

(** On an address whose entry is empty, [ptUnmap] returns [-E_NO_MAP]
    with [kvmlock] still held; when a table on the way is missing it
    dereferences the null pointer the walk returned. *)
Theorem ptUnmap_unmapped_leaks_lock (s : mm) (root va : Z) :
  mm_ok s -> wf_pt s root -> lookup_va s.(pmem) root va = 0 ->
  ptUnmap root va s =
    match tab3 s.(pmem) root (PTX va 1) (PTX va 2) with
    | Some _ => Ok (- E_NO_MAP, set_depth (s.(kvm_depth) + 1) s)
    | None => Err BadPtr
    end.
Proof.
  intros Hok W H0. set (s0 := set_depth (s.(kvm_depth) + 1) s).
  assert (Hok0 : mm_ok s0) by now apply mm_ok_depth.
  assert (W0 : wf_pt s0 root) by now apply wf_pt_depth.
  unfold ptUnmap. rewrite (bind_run kvm_lock _ s tt s0) by reflexivity.
  rewrite (bind_run _ _ _ _ _ (ptWalk_find s0 root va Hok0 W0)).
  change (s0.(pmem)) with s.(pmem). unfold lookup_va, pte_at in H0.
  destruct (tab3 s.(pmem) root (PTX va 1) (PTX va 2)) as [t|] eqn:E; [|reflexivity].
  cbn [deref]. destruct (wf_t3 _ _ W0 _ _ t (PTX_range va 1) (PTX_range va 2) E) as (Hf & _).
  rewrite (bind_run _ _ _ _ _ (rd_run s0 _ (frame_ram s0 t _ (mm_npage _ Hok0) Hf (PTX_range va 3)))).
  change (s0.(pmem)) with s.(pmem). rewrite H0. reflexivity.
Qed.

(** [kvmFree] returns what [kvmAlloc] handed out: after allocating a page
    and freeing it again the page is back at the head of the free list, its
    count is zero and [pageleft] is as before. *)
Theorem kvmAlloc_kvmFree (s : mm) :
  mm_ok s -> 0 <= s.(kvm_depth) -> s.(pageFreeList) <> [] ->
  exists pa s1 s2, kvmAlloc s = Ok (pa, s1) /\ mm_ok s1 /\
    in_use s1 (paToPage pa) /\ s1.(page_ref) (paToPage pa) = 1 /\
    kvmFree pa s1 = Ok (tt, s2) /\ mm_ok s2 /\
    s2.(pageFreeList) = s.(pageFreeList) /\ s2.(pageleft) = s.(pageleft) /\
    (forall q, s2.(page_ref) q = s.(page_ref) q) /\ s2.(kvm_depth) = s.(kvm_depth).
Proof.
  intros Hok Hd Hne. destruct s.(pageFreeList) as [|pp rest] eqn:Hf; [congruence|].
  set (s0 := set_depth (s.(kvm_depth) + 1) s).
  assert (Hok0 : mm_ok s0) by now apply mm_ok_depth.
  destruct (pmAlloc_spec s0 pp rest Hok0 Hf) as (Ea & Hok1 & Hu & Hr0).
  pose proof (mm_npage _ Hok) as Hnp. pose proof Hu as [Hpp Hnf]. cbn in Hpp.
  cbv zeta in *. set (s1 := set_pmem _ _) in *.
  destruct (pmPageIncRef_spec s1 pp Hok1 Hu) as [Ei Hok2]; [cbn in *; lia|].
  set (s2 := set_ref _ _) in *.
  assert (Hd2 : s2.(kvm_depth) = s.(kvm_depth) + 1) by reflexivity.
  set (s3 := set_depth (s2.(kvm_depth) - 1) s2).
  assert (Epa : paToPage (pageToPa pp) = pp).
  { rewrite pageToPa_eq, paToPage_eq by (unfold MEMBASE; lia). unfold MEMBASE. zlia. }
  set (s4 := set_depth (s3.(kvm_depth) + 1) s3).
  assert (Hok4 : mm_ok s4) by now apply mm_ok_depth, mm_ok_depth.
  assert (Hr4 : s4.(page_ref) pp = 1) by (cbn; rewrite upd_eq; cbn in Hr0; lia).
  destruct (pmPageDecRef_spec s4 pp Hok4 Hu) as [Ed Hok5]; [lia|].
  exists (pageToPa pp), s3, (set_depth ((dec_ref s4 pp).(kvm_depth) - 1) (dec_ref s4 pp)).
  assert (Hd5 : (dec_ref s4 pp).(kvm_depth) = s.(kvm_depth) + 1)
    by (unfold dec_ref; destruct (_ =? 1); cbn; lia).
  rewrite Epa. split; [|split; [now apply mm_ok_depth|split; [exact Hu|split; [exact Hr4|]]]].
  { unfold kvmAlloc. rewrite (bind_run kvm_lock _ s tt s0) by reflexivity.
    rewrite (bind_run _ _ _ _ _ Ea), (bind_run _ _ _ _ _ Ei).
    rewrite (bind_run _ _ _ _ _ (kvm_unlock_run s2 ltac:(lia))). reflexivity. }
  split; [|split; [now apply mm_ok_depth|]].
  { unfold kvmFree. rewrite (bind_run kvm_lock _ s3 tt s4), Epa by reflexivity.
    rewrite (bind_run _ _ _ _ _ Ed). apply kvm_unlock_run. lia. }
  unfold dec_ref. rewrite Hr4. change (1 =? 1) with true. cbn. repeat split.
  - lia.
  - intros q. unfold upd. destruct (Z.eqb_spec q pp) as [->|]; [|reflexivity].
    cbn in Hr0. lia.
  - lia.
Qed.

(** Taking a page off the free list leaves every page table as it is. *)
Lemma vmAlloc_run s root : mm_ok s -> wf_pt s root -> 0 <= s.(kvm_depth) -> s.(pageFreeList) <> [] ->
  exists p s', vmAlloc s = Ok (MEMBASE + 4096 * p, s') /\ mm_ok s' /\ wf_pt s' root /\ s'.(kvm_depth) = s.(kvm_depth) /\
    in_use s' p /\ s'.(page_ref) p = 0 /\ length s.(pageFreeList) = S (length s'.(pageFreeList)) /\
    (forall va, lookup_va s'.(pmem) root va = lookup_va s.(pmem) root va) /\ ~ in_use s p /\
    (forall q, in_use s q -> in_use s' q /\ s'.(page_ref) q = s.(page_ref) q /\
       forall x, MEMBASE + 4096 * q <= x < MEMBASE + 4096 * q + 4096 -> s'.(pmem) x = s.(pmem) x) /\
    s'.(npage) = s.(npage) /\ (forall x, MEMBASE + 4096 * p <= x < MEMBASE + 4096 * p + 4096 -> s'.(pmem) x = 0).
Proof.
  intros Hok W Hd Hne. destruct s.(pageFreeList) as [|pp rest] eqn:Hf; [congruence|].
  set (s0 := set_depth (s.(kvm_depth) + 1) s).
  destruct (pmAlloc_spec s0 pp rest (mm_ok_depth _ _ Hok) Hf) as (Ea & Hok1 & Hu & Hr0). cbv zeta in *. set (s1 := set_pmem _ _) in *.
  pose proof (mm_npage _ Hok) as Hnp. pose proof Hu as [Hpp _]. cbn in Hpp.
  assert (Hold : forall q, in_use s q -> in_use s1 q /\ q <> pp).
  { intros q [Hq Hqf]. rewrite Hf, not_elem_of_cons in Hqf. split; [split; [exact Hq|exact (proj2 Hqf)]|apply Hqf]. }
  assert (Hm : forall f x, frame_of s f -> idx x -> s1.(pmem) (f + 8 * x) = s.(pmem) (f + 8 * x)).
  { intros f x (q & Hq & ->) Hx. destruct (Hold q Hq) as [_ Hne']. cbn. unfold zero_page. rewrite pageToPa_eq by lia.
    destruct (_ && _) eqn:Eb; [|reflexivity]. zbool. unfold idx, PAGE_SIZE in *. lia. }
  assert (Hfr : forall f, frame_of s f -> frame_of s1 f) by (intros f (q & Hq & ->); exists q; split; [now apply Hold|reflexivity]).
  assert (Hdir : forall f x, is_dir s.(pmem) root f -> idx x -> s1.(pmem) (f + 8 * x) = s.(pmem) (f + 8 * x)).
  { intros f x Hd' Hx. apply Hm; auto. destruct Hd' as [->|(i & Hi & E)]; [apply W|now apply (wf_t2 _ _ W i)]. }
  assert (Hp : forall i j k, idx i -> idx j -> idx k -> pte_at s1.(pmem) root i j k = pte_at s.(pmem) root i j k).
  { intros i j k Hi Hj Hk. unfold pte_at. rewrite (same_tab3 s s1 root Hdir) by auto.
    destruct (tab3 (pmem s) root i j) as [t|] eqn:E; [|reflexivity]. apply Hm; auto. now apply (wf_t3 _ _ W i j). }
  assert (W1 : wf_pt s1 root).
  { apply (frame_wf s s1 root W Hdir).
    - intros f Hf'. apply Hfr. now apply (is_table_frame s root).
    - intros i j k Hi Hj Hk. rewrite Hp by auto. now apply W. }
  exists pp, (set_depth (s1.(kvm_depth) - 1) s1). split.
  { unfold vmAlloc. rewrite (bind_run kvm_lock _ s tt s0) by reflexivity. rewrite (bind_run _ _ _ _ _ Ea).
    rewrite (bind_run _ _ _ _ _ (kvm_unlock_run s1 ltac:(cbn; lia))). unfold ret. now rewrite pageToPa_eq by lia. }
  split; [now apply mm_ok_depth|]. split; [now apply wf_pt_depth|]. split; [cbn; lia|]. split; [exact Hu|].
  split; [exact Hr0|]. split; [reflexivity|].
  split; [intros va; unfold lookup_va; cbn [set_depth pmem]; apply Hp; apply PTX_range|].
  split; [intros [_ Hin]; apply Hin; rewrite Hf; left|]. split; [|split; [reflexivity|]].
  - intros q Hq. destruct (Hold q Hq) as [Hq' Hne']. split; [exact Hq'|]. split; [reflexivity|]. intros x Hx. cbn. unfold zero_page.
    rewrite pageToPa_eq by lia. destruct (_ && _) eqn:Eb; [|reflexivity]. zbool. unfold PAGE_SIZE in *. lia.
  - intros x Hx. cbn. unfold zero_page. rewrite pageToPa_eq by lia. unfold PAGE_SIZE. zcases.
Qed.

(** Distinct pages below 2^39 have distinct table indices. *)
Lemma PTX_page va va' : 0 <= va < 549755813888 -> 0 <= va' < 549755813888 ->
  PTX va 1 = PTX va' 1 -> PTX va 2 = PTX va' 2 -> PTX va 3 = PTX va' 3 -> va / 4096 = va' / 4096.
Proof.
  unfold PTX. intros H H'. change 511 with (Z.ones 9). rewrite !Z.land_ones, !Z.shiftr_div_pow2 by lia.
  change (2 ^ 9) with 512. cbn [Z.sub Z.opp Z.pos_sub Z.mul Z.add Pos.mul Pos.add Z.succ_double Pos.pred_double].
  change (2 ^ (12 + (3 - 1) * 9)) with 1073741824. change (2 ^ (12 + (3 - 2) * 9)) with 2097152. change (2 ^ (12 + (3 - 3) * 9)) with 4096.
  intros. Z.div_mod_to_equations. lia.
Qed.

(** ** Witnesses *)

(** Ten pages: root 3, second-level table 4, third-level table 5, and page 1
    mapped at address 4096. *)
Definition demo_frame (p : Z) : Z := MEMBASE + 4096 * p.
Definition demo_vm : mm :=
  MkMm 10 (fun p => if (1 <=? p) && (p <? 6) then 1 else 0) [9; 8; 7; 6] 4
    (fun a => if a =? demo_frame 3 then mk_pte (demo_frame 4) 0
              else if a =? demo_frame 4 then mk_pte (demo_frame 5) 0
              else if a =? demo_frame 5 + 8 then mk_pte (demo_frame 1) 22 else 0) 0 [].

Lemma demo_vm_ok : mm_ok demo_vm.
Proof.
  constructor; cbn [demo_vm npage page_ref pageFreeList pageleft].
  - lia.
  - apply (bool_decide_unpack (NoDup [9; 8; 7; 6])). vm_compute. exact I.
  - intros p Hp. repeat (apply elem_of_cons in Hp as [->|Hp]; [split; [lia|reflexivity]|]).
    now apply not_elem_of_nil in Hp.
  - reflexivity.
  - intros p. mem_cases; lia.
Qed.
Lemma demo_use p : p = 1 \/ p = 2 \/ p = 3 \/ p = 4 \/ p = 5 -> in_use demo_vm p.
Proof.
  intros Hp. split; cbn; [lia|]. rewrite !elem_of_cons, elem_of_nil. lia.
Qed.
Lemma demo_child3 i : idx i ->
  child demo_vm.(pmem) (demo_frame 3) i = if i =? 0 then Some (demo_frame 4) else None.
Proof.
  intros Hi. unfold child, idx in *. cbn [demo_vm pmem].
  destruct (Z.eqb_spec i 0) as [->|]; [reflexivity|]. unfold demo_frame, MEMBASE.
  mem_cases; (lia || reflexivity).
Qed.
Lemma demo_child4 i : idx i ->
  child demo_vm.(pmem) (demo_frame 4) i = if i =? 0 then Some (demo_frame 5) else None.
Proof.
  intros Hi. unfold child, idx in *. cbn [demo_vm pmem].
  destruct (Z.eqb_spec i 0) as [->|]; [reflexivity|]. unfold demo_frame, MEMBASE.
  mem_cases; (lia || reflexivity).
Qed.
Lemma demo_tab3 i j : idx i -> idx j -> tab3 demo_vm.(pmem) (demo_frame 3) i j =
  if (i =? 0) && (j =? 0) then Some (demo_frame 5) else None.
Proof.
  intros Hi Hj. unfold tab3. rewrite demo_child3 by auto.
  destruct (i =? 0); cbn [andb]; [|reflexivity]. now apply demo_child4.
Qed.
Lemma demo_wf : wf_pt demo_vm (demo_frame 3).
Proof.
  assert (F : forall p, p = 1 \/ p = 2 \/ p = 3 \/ p = 4 \/ p = 5 -> frame_of demo_vm (demo_frame p))
    by (intros p Hp; exists p; auto using demo_use).
  constructor.
  - apply F. lia.
  - intros i a Hi. rewrite demo_child3 by auto. destruct (i =? 0); intros [= <-].
    split; [apply F; lia | discriminate].
  - intros i j a Hi Hj. rewrite demo_tab3 by auto. destruct (_ && _); intros [= <-].
    split; [apply F; lia|]. split; [discriminate|]. intros i' Hi'. rewrite demo_child3 by auto.
    destruct (i' =? 0); discriminate.
  - intros i i' a Hi Hi'. rewrite !demo_child3 by auto.
    destruct (Z.eqb_spec i 0), (Z.eqb_spec i' 0); congruence.
  - intros i j i' j' a Hi Hj Hi' Hj'. rewrite !demo_tab3 by auto.
    destruct (Z.eqb_spec i 0), (Z.eqb_spec j 0); cbn [andb]; try discriminate.
    destruct (Z.eqb_spec i' 0), (Z.eqb_spec j' 0); cbn [andb]; try discriminate. intuition congruence.
  - intros i Hi. rewrite demo_child3 by auto. destruct (Z.eqb_spec i 0); [discriminate|].
    unfold idx in *. cbn. unfold demo_frame, MEMBASE. mem_cases; (lia || reflexivity).
  - intros i t j Hi Hj. rewrite demo_child3 by auto. destruct (i =? 0); intros [= <-].
    rewrite demo_child4 by auto. destruct (Z.eqb_spec j 0); [discriminate|].
    unfold idx in *. cbn. unfold demo_frame, MEMBASE. mem_cases; (lia || reflexivity).
  - intros i j k Hi Hj Hk. unfold pte_at. rewrite demo_tab3 by auto. destruct (_ && _); [|reflexivity].
    unfold idx in *. cbn [demo_vm pmem]. unfold demo_frame, MEMBASE.
    mem_cases; (lia || reflexivity || (vm_compute; discriminate)).
Qed.
Lemma demo_releasable : releasable demo_vm (demo_frame 3) (lookup_va demo_vm.(pmem) (demo_frame 3) 4096).
Proof.
  intros q Hq. vm_compute in Hq. injection Hq as <-.
  split; [apply demo_use; lia|]. split; [reflexivity|].
  intros [H|[(i & Hi & H)|(i & j & Hi & Hj & H)]]; [discriminate H | |].
  - change (child demo_vm.(pmem) (demo_frame 3) i = Some (demo_frame 1)) in H.
    rewrite demo_child3 in H by auto. destruct (i =? 0); discriminate H.
  - change (tab3 demo_vm.(pmem) (demo_frame 3) i j = Some (demo_frame 1)) in H.
    rewrite demo_tab3 in H by auto. destruct (_ && _); discriminate H.
Qed.

Lemma ptMap_maps_witness :
  exists s', ptMap (demo_frame 3) 4096 (demo_frame 2) 6 demo_vm = Ok (0, s') /\ mm_ok s' /\
    wf_pt s' (demo_frame 3) /\ s'.(kvm_depth) = 0 /\ head s'.(tlb_flushed) = Some (PGROUNDDOWN 4096) /\
    (forall va', lookup_va s'.(pmem) (demo_frame 3) va' =
       if (PTX va' 1 =? PTX 4096 1) && (PTX va' 2 =? PTX 4096 2) && (PTX va' 3 =? PTX 4096 3)
       then mk_pte (demo_frame 2) 6 else lookup_va demo_vm.(pmem) (demo_frame 3) va') /\
    forall q, in_use demo_vm q -> s'.(page_ref) q =
      demo_vm.(page_ref) q - ref_delta (pte_page (lookup_va demo_vm.(pmem) (demo_frame 3) 4096)) q
      + ref_delta (Some 2) q.
Proof.
  apply (ptMap_maps demo_vm (demo_frame 3) 4096 2 6 demo_vm_ok demo_wf).
  - cbn; lia.
  - cbn; lia.
  - apply demo_use; lia.
  - reflexivity.
  - lia.
  - exact demo_releasable.
Defined.
Lemma ptLookup_reads_witness :
  ptLookup (demo_frame 3) 4096 demo_vm = Ok (lookup_va demo_vm.(pmem) (demo_frame 3) 4096, demo_vm).
Proof. apply (ptLookup_reads demo_vm (demo_frame 3) 4096 demo_vm_ok demo_wf). cbn; lia. Defined.
Lemma ptUnmap_unmaps_witness :
  exists s', ptUnmap (demo_frame 3) 4096 demo_vm = Ok (0, s') /\ mm_ok s' /\
    wf_pt s' (demo_frame 3) /\ s'.(kvm_depth) = 0 /\ head s'.(tlb_flushed) = Some (PGROUNDDOWN 4096) /\
    (forall va', lookup_va s'.(pmem) (demo_frame 3) va' =
       if (PTX va' 1 =? PTX 4096 1) && (PTX va' 2 =? PTX 4096 2) && (PTX va' 3 =? PTX 4096 3)
       then 0 else lookup_va demo_vm.(pmem) (demo_frame 3) va') /\
    (forall q, s'.(page_ref) q = demo_vm.(page_ref) q
       - ref_delta (pte_page (lookup_va demo_vm.(pmem) (demo_frame 3) 4096)) q) /\
    (forall q, pte_page (lookup_va demo_vm.(pmem) (demo_frame 3) 4096) = Some q ->
       demo_vm.(page_ref) q = 1 -> q ∈ s'.(pageFreeList)).
Proof.
  apply (ptUnmap_unmaps demo_vm (demo_frame 3) 4096 demo_vm_ok demo_wf).
  - cbn; lia.
  - vm_compute; discriminate.
  - exact demo_releasable.
Defined.
Lemma ptUnmap_unmapped_leaks_lock_witness :
  ptUnmap (demo_frame 3) 8192 demo_vm = Ok (- E_NO_MAP, set_depth 1 demo_vm).
Proof. apply (ptUnmap_unmapped_leaks_lock demo_vm (demo_frame 3) 8192 demo_vm_ok demo_wf). reflexivity. Defined.
Lemma kvmAlloc_kvmFree_witness :
  exists pa s1 s2, kvmAlloc demo_vm = Ok (pa, s1) /\ mm_ok s1 /\
    in_use s1 (paToPage pa) /\ s1.(page_ref) (paToPage pa) = 1 /\
    kvmFree pa s1 = Ok (tt, s2) /\ mm_ok s2 /\
    s2.(pageFreeList) = demo_vm.(pageFreeList) /\ s2.(pageleft) = demo_vm.(pageleft) /\
    (forall q, s2.(page_ref) q = demo_vm.(page_ref) q) /\ s2.(kvm_depth) = demo_vm.(kvm_depth).
Proof. apply (kvmAlloc_kvmFree demo_vm demo_vm_ok); [cbn; lia | discriminate]. Defined.
