(* ===== verification/Bytes.v ===== *)
(** * Bytes in buffers and memories

    Slices of a buffer, overwriting a part of one, little-endian fields, and
    memories as maps from addresses to bytes: what the file-system code does
    with [memcpy] and casts of [buf->data->data]. *)

From S2P Require Import Prelude.
From Stdlib Require Import ZArith Lia Bool.
From stdpp Require Import base tactics numbers list.
Open Scope Z_scope.

(** ** Buffers *)

Definition byte_at (d : list Z) (i : Z) : Z := nth (Z.to_nat i) d 0.
Definition slice (off n : Z) (d : list Z) : list Z := take (Z.to_nat n) (drop (Z.to_nat off) d).
(** [memcpy(&d[off], src, |src|)] *)
Definition splice (off : Z) (src d : list Z) : list Z :=
  take (Z.to_nat off) d ++ src ++ drop (Z.to_nat off + length src) d.

Lemma length_slice off n d :
  0 <= off -> 0 <= n -> off + n <= Z.of_nat (length d) -> Z.of_nat (length (slice off n d)) = n.
Proof. intros. unfold slice. rewrite length_take, length_drop. lia. Qed.
Lemma length_splice off src d :
  0 <= off -> off + Z.of_nat (length src) <= Z.of_nat (length d) -> length (splice off src d) = length d.
Proof. intros. unfold splice. rewrite !length_app, length_take, length_drop. lia. Qed.

Lemma nth_take {A} (n i : nat) (l : list A) x : (i < n)%nat -> nth i (take n l) x = nth i l x.
Proof.
  revert n l. induction i as [|i IH]; intros [|n] [|y l] Hi; cbn; try lia; auto. apply IH; lia.
Qed.
Lemma nth_drop {A} (n i : nat) (l : list A) x : nth i (drop n l) x = nth (n + i) l x.
Proof.
  revert l. induction n as [|n IH]; intros [|y l]; cbn; auto. now destruct i.
Qed.

Lemma byte_at_slice off n d i :
  0 <= off -> 0 <= i < n -> byte_at (slice off n d) i = byte_at d (off + i).
Proof.
  intros. unfold byte_at, slice. rewrite nth_take, nth_drop by lia. f_equal. lia.
Qed.
Lemma byte_at_splice off src d i :
  0 <= off -> off + Z.of_nat (length src) <= Z.of_nat (length d) -> 0 <= i ->
  byte_at (splice off src d) i =
  if (off <=? i) && (i <? off + Z.of_nat (length src)) then byte_at src (i - off) else byte_at d i.
Proof.
  intros Ho Hl Hi. unfold byte_at, splice. destruct (Z.leb_spec off i) as [H1|H1]; cbn [andb].
  - rewrite app_nth2 by (rewrite length_take; lia). rewrite length_take.
    replace (Z.to_nat i - Z.to_nat off `min` length d)%nat with (Z.to_nat (i - off)) by lia.
    destruct (Z.ltb_spec i (off + Z.of_nat (length src))).
    + now rewrite app_nth1 by lia.
    + rewrite app_nth2 by lia. rewrite nth_drop. f_equal. lia.
  - rewrite app_nth1 by (rewrite length_take; lia). now rewrite nth_take by lia.
Qed.
Lemma byte_at_app d1 d2 i : 0 <= i ->
  byte_at (d1 ++ d2) i =
  if i <? Z.of_nat (length d1) then byte_at d1 i else byte_at d2 (i - Z.of_nat (length d1)).
Proof.
  intros. unfold byte_at. destruct (Z.ltb_spec i (Z.of_nat (length d1))).
  - now rewrite app_nth1 by lia.
  - rewrite app_nth2 by lia. f_equal. lia.
Qed.
Lemma byte_at_replicate n x i : 0 <= i < Z.of_nat n -> byte_at (replicate n x) i = x.
Proof.
  intros. unfold byte_at. apply (nth_lookup_Some _ _ 0). apply lookup_replicate_2. lia.
Qed.
Lemma byte_ext d1 d2 :
  length d1 = length d2 -> (forall i, 0 <= i < Z.of_nat (length d1) -> byte_at d1 i = byte_at d2 i) -> d1 = d2.
Proof.
  intros Hl H. apply list_eq. intros i. destruct (decide (i < length d1)%nat) as [Hi|Hi].
  - destruct (lookup_lt_is_Some_2 d1 i Hi) as [x Hx].
    destruct (lookup_lt_is_Some_2 d2 i) as [y Hy]; [lia|].
    rewrite Hx, Hy. f_equal. specialize (H (Z.of_nat i) ltac:(lia)).
    unfold byte_at in H. rewrite Nat2Z.id in H.
    rewrite (nth_lookup_Some _ _ 0 _ Hx), (nth_lookup_Some _ _ 0 _ Hy) in H. exact H.
  - rewrite !lookup_ge_None_2 by lia. reflexivity.
Qed.

(** ** Little-endian fields *)

Fixpoint le_bytes (n : nat) (z : Z) : list Z :=
  match n with
  | O => []
  | S n' => z mod 256 :: le_bytes n' (z / 256)
  end.
Fixpoint le_val (l : list Z) : Z :=
  match l with
  | [] => 0
  | b :: l' => b + 256 * le_val l'
  end.

Lemma length_le_bytes n z : length (le_bytes n z) = n.
Proof. revert z. induction n; cbn; auto. Qed.
Lemma le_val_bytes n z : le_val (le_bytes n z) = z mod 256 ^ Z.of_nat n.
Proof.
  revert z. induction n as [|n IH]; intros z; [cbn; now rewrite Z.mod_1_r|].
  cbn [le_bytes le_val]. rewrite IH, Nat2Z.inj_succ, Z.pow_succ_r by lia.
  rewrite Z.rem_mul_r by lia. reflexivity.
Qed.
Lemma le_val_bound l : Forall (fun b => 0 <= b < 256) l -> 0 <= le_val l < 256 ^ Z.of_nat (length l).
Proof.
  induction 1 as [|b l Hb _ IH]; cbn [le_val length]; [lia|].
  rewrite Nat2Z.inj_succ, Z.pow_succ_r by lia. lia.
Qed.
Lemma le_bytes_val l : Forall (fun b => 0 <= b < 256) l -> le_bytes (length l) (le_val l) = l.
Proof.
  induction 1 as [|b l Hb Hl IH]; cbn [le_val length le_bytes]; [reflexivity|].
  rewrite Z.mul_comm, Z.mod_add, Z.div_add by lia.
  rewrite Z.mod_small, (Z.div_small b) by lia. now rewrite Z.add_0_l, IH.
Qed.

Definition get16 (d : list Z) (off : Z) : Z := le_val (slice off 2 d).
Definition get32 (d : list Z) (off : Z) : Z := le_val (slice off 4 d).
Definition put32 (off v : Z) (d : list Z) : list Z := splice off (le_bytes 4 v) d.

(** ** Memories *)

Definition mem_read (m : Z -> Z) (a n : Z) : list Z := map (fun i => m (a + i)) (seqZ 0 n).
Definition mem_write (a : Z) (l : list Z) (m : Z -> Z) : Z -> Z :=
  fun x => if (a <=? x) && (x <? a + Z.of_nat (length l)) then byte_at l (x - a) else m x.

Lemma mem_write_out m a l x : ~ (a <= x < a + Z.of_nat (length l)) -> mem_write a l m x = m x.
Proof. intros H. unfold mem_write. zcases. Qed.
Lemma length_mem_read m a n : 0 <= n -> Z.of_nat (length (mem_read m a n)) = n.
Proof. intros. unfold mem_read. rewrite length_map, length_seqZ. lia. Qed.
Lemma byte_at_mem_read m a n i : 0 <= i < n -> byte_at (mem_read m a n) i = m (a + i).
Proof.
  intros. unfold byte_at. apply (nth_lookup_Some _ _ 0). unfold mem_read. rewrite list_lookup_fmap.
  assert (seqZ 0 n !! Z.to_nat i = Some i) as ->; [|reflexivity].
  apply lookup_seqZ. lia.
Qed.

(** ** Fields by their bytes *)

Lemma slice_cons off n d :
  0 <= off < Z.of_nat (length d) -> 0 < n -> slice off n d = byte_at d off :: slice (off + 1) (n - 1) d.
Proof.
  intros Ho Hn. unfold slice, byte_at.
  destruct (lookup_lt_is_Some_2 d (Z.to_nat off)) as [x Hx]; [lia|].
  rewrite (drop_S _ _ _ Hx), (nth_lookup_Some _ _ 0 _ Hx).
  replace (Z.to_nat n) with (S (Z.to_nat (n - 1))) by lia. cbn [take].
  now replace (Z.to_nat (off + 1)) with (S (Z.to_nat off)) by lia.
Qed.
Lemma get32_bytes d off :
  0 <= off -> off + 4 <= Z.of_nat (length d) ->
  get32 d off = byte_at d off + 256 * (byte_at d (off + 1) + 256 * (byte_at d (off + 2) + 256 * byte_at d (off + 3))).
Proof.
  intros. unfold get32. do 4 (rewrite slice_cons by lia).
  replace (off + 1 + 1) with (off + 2) by lia. replace (off + 2 + 1) with (off + 3) by lia.
  unfold slice. cbn [Z.to_nat take]. replace (Z.to_nat (4 - 1 - 1 - 1 - 1)) with 0%nat by lia.
  rewrite take_0. cbn [le_val]. lia.
Qed.
Lemma le_bytes4 v :
  0 <= v < 4294967296 ->
  byte_at (le_bytes 4 v) 0 + 256 * (byte_at (le_bytes 4 v) 1 + 256 *
    (byte_at (le_bytes 4 v) 2 + 256 * byte_at (le_bytes 4 v) 3)) = v.
Proof.
  intros Hv. pose proof (le_val_bytes 4 v) as H. rewrite Z.mod_small in H by (cbn; lia).
  transitivity (le_val (le_bytes 4 v)); [|exact H]. unfold byte_at.
  change (Z.to_nat 0) with 0%nat. change (Z.to_nat 1) with 1%nat. change (Z.to_nat 2) with 2%nat.
  change (Z.to_nat 3) with 3%nat. cbn [nth le_bytes le_val]. lia.
Qed.

(** A 64-bit field of a memory. *)
Definition mem_u64 (m : Z -> Z) (a : Z) : Z := le_val (mem_read m a 8).
Lemma mem_read_ext m m' a n : (forall i, 0 <= i < n -> m (a + i) = m' (a + i)) -> mem_read m a n = mem_read m' a n.
Proof. intros H. apply map_ext_in. intros i Hi. apply list_elem_of_In, elem_of_seqZ in Hi. apply H. lia. Qed.
