(* ===== verification/BufCache.v ===== *)
(** * Disk block cache

    [src/kern/fs/buf.c] and [src/include/fs/buf.h].  A [Buffer *] is the pair
    of its group and its slot in the group's array; [blist g] is the order of
    the slots in the group's [TAILQ], most recently released first.  Each
    control block carries its 512 data bytes ([data] points to a block of its
    own for the life of the kernel).  The disk behind [disk_rw] is a map from
    block numbers to contents: the virtio driver addresses it by [blockno]
    only.  [SectorStore] is the interface the cluster layer uses. *)

From S2P Require Import Prelude.
From Stdlib Require Import ZArith Lia Bool.
From stdpp Require Import base tactics numbers list.
Open Scope Z_scope.

Definition BUF_SIZE : Z := 512.
Definition BGROUP_NUM : Z := 16384.
Definition BGROUP_MASK : Z := BGROUP_NUM - 1.
Definition BUF_SUM_SIZE : Z := 67108864.
Definition BGROUP_BUF_NUM : Z := BUF_SUM_SIZE / BGROUP_NUM / BUF_SIZE.

Record Buffer : Type := MkBuffer {
  blockno : Z;      (* u64 *)
  bdev : Z;         (* i32 dev *)
  bvalid : bool;
  bdirty : bool;
  brefcnt : Z;      (* u16 *)
  bdata : list Z    (* data->data[BUF_SIZE] *)
}.

Record bcache : Type := MkBcache {
  bbuf : Z -> Z -> Buffer;      (* bufferGroups[g].buf[j] *)
  blist : Z -> list Z;          (* bufferGroups[g].list *)
  disk : Z -> list Z
}.

Definition set_buf (g j : Z) (b : Buffer) (c : bcache) : bcache :=
  MkBcache (upd c.(bbuf) g (upd (c.(bbuf) g) j b)) c.(blist) c.(disk).
Definition set_list (g : Z) (l : list Z) (c : bcache) : bcache :=
  MkBcache c.(bbuf) (upd c.(blist) g l) c.(disk).
Definition set_disk (b : Z) (d : list Z) (c : bcache) : bcache :=
  MkBcache c.(bbuf) c.(blist) (upd c.(disk) b d).

(** The first slot of a list whose buffer satisfies a test. *)
Fixpoint find_slot (p : Buffer -> bool) (bufs : Z -> Buffer) (l : list Z) : option Z :=
  match l with
  | [] => None
  | j :: l' => if p (bufs j) then Some j else find_slot p bufs l'
  end.

(** [bufInit]: every slot of every group, in array order, holding nothing. *)
Definition bufInit (c : bcache) : bcache :=
  MkBcache (fun g j => MkBuffer (c.(bbuf) g j).(blockno) (-1) (c.(bbuf) g j).(bvalid)
                         (c.(bbuf) g j).(bdirty) (c.(bbuf) g j).(brefcnt) (c.(bbuf) g j).(bdata))
           (fun g => if (0 <=? g) && (g <? BGROUP_NUM) then seqZ 0 BGROUP_BUF_NUM else c.(blist) g)
           c.(disk).

(** [disk_rw(buf, 1)] and [disk_rw(buf, 0)]. *)
Definition disk_write (g j : Z) : M bcache unit :=
  modify (fun c => set_disk (c.(bbuf) g j).(blockno) (c.(bbuf) g j).(bdata) c).
Definition disk_read (g j : Z) : M bcache unit :=
  modify (fun c => let b := c.(bbuf) g j in
    set_buf g j (MkBuffer b.(blockno) b.(bdev) b.(bvalid) b.(bdirty) b.(brefcnt)
                   (c.(disk) b.(blockno))) c).

(** [buf->dev == dev && buf->blockno == blockno]: [dev] is a [u32], so the
    signed field is converted. *)
Definition is_block (dev blk : Z) (b : Buffer) : bool :=
  (wrap32 b.(bdev) =? dev) && (b.(blockno) =? blk).

Definition bufAlloc (dev blk : Z) : M bcache (Z * Z) := fun c =>
  let group := Z.land blk BGROUP_MASK in
  match find_slot (is_block dev blk) (c.(bbuf) group) (c.(blist) group) with
  | Some j =>
      let b := c.(bbuf) group j in
      Ok ((group, j),
          set_buf group j (MkBuffer b.(blockno) b.(bdev) b.(bvalid) b.(bdirty)
                             (wrap16 (b.(brefcnt) + 1)) b.(bdata)) c)
  | None =>
      match find_slot (fun b => b.(brefcnt) =? 0) (c.(bbuf) group) (reverse (c.(blist) group)) with
      | None => Err Panic
      | Some j =>
          (let* b := gets (fun c => c.(bbuf) group j) in
           (if b.(bvalid) && b.(bdirty) then disk_write group j else ret tt) ;;;
           modify (set_buf group j (MkBuffer blk (sext32 dev) false false 1 b.(bdata))) ;;;
           ret (group, j)) c
      end
  end.

Definition bufRead (dev blk : Z) (is_read : bool) : M bcache (Z * Z) :=
  let* h := bufAlloc dev blk in
  let '(g, j) := h in
  let* b := gets (fun c => c.(bbuf) g j) in
  (if b.(bvalid) then ret tt
   else
     (if is_read then disk_read g j else ret tt) ;;;
     modify (fun c => let b := c.(bbuf) g j in
       set_buf g j (MkBuffer b.(blockno) b.(bdev) true b.(bdirty) b.(brefcnt) b.(bdata)) c)) ;;;
  ret h.

Definition bufWrite (h : Z * Z) : M bcache unit :=
  modify (fun c => let '(g, j) := h in let b := c.(bbuf) g j in
    set_buf g j (MkBuffer b.(blockno) b.(bdev) b.(bvalid) true b.(brefcnt) b.(bdata)) c).

Definition bufRelease (h : Z * Z) : M bcache unit := fun c =>
  let '(g, j) := h in
  let b := c.(bbuf) g j in
  let r := wrap16 (b.(brefcnt) - 1) in
  let c1 := set_buf g j (MkBuffer b.(blockno) b.(bdev) b.(bvalid) b.(bdirty) r b.(bdata)) c in
  if r =? 0 then
    let group := Z.land b.(blockno) BGROUP_MASK in
    Ok (tt, set_list group (j :: filter (fun i => i <> j) (c1.(blist) group)) c1)
  else Ok (tt, c1).

(** What callers do with [buf->data->data] between the two. *)
Definition buf_get (h : Z * Z) : M bcache (list Z) := gets (fun c => (c.(bbuf) (fst h) (snd h)).(bdata)).
Definition buf_set (h : Z * Z) (d : list Z) : M bcache unit :=
  modify (fun c => let '(g, j) := h in let b := c.(bbuf) g j in
    set_buf g j (MkBuffer b.(blockno) b.(bdev) b.(bvalid) b.(bdirty) b.(brefcnt) d) c).

(** ** The interface of the cluster layer *)

(** Every use of a block by the cluster layer gets it, copies from or into it,
    marks it when it changed it, and releases it. *)
Class SectorStore (S : Type) : Type := {
  ss_read : Z -> M S (list Z);
  ss_modify : Z -> bool -> (list Z -> list Z) -> M S unit;
  ss_inv : S -> Prop;
  ss_view : S -> Z -> list Z
}.

Class SectorStoreLaws (S : Type) `{SectorStore S} : Prop := {
  ss_view_len : forall s b, ss_inv s -> length (ss_view s b) = 512%nat;
  ss_read_ok : forall s b, ss_inv s -> 0 <= b ->
    exists s', ss_read b s = Ok (ss_view s b, s') /\ ss_inv s' /\
      forall b', ss_view s' b' = ss_view s b';
  ss_modify_ok : forall s b f, ss_inv s -> 0 <= b ->
    length (f (ss_view s b)) = 512%nat ->
    exists s', ss_modify b true f s = Ok (tt, s') /\ ss_inv s' /\
      forall b', ss_view s' b' = if b' =? b then f (ss_view s b) else ss_view s b';
  ss_fill_ok : forall s b d, ss_inv s -> 0 <= b -> length d = 512%nat ->
    exists s', ss_modify b false (fun _ => d) s = Ok (tt, s') /\ ss_inv s' /\
      forall b', ss_view s' b' = if b' =? b then d else ss_view s b'
}.

(** [getBlock] of a file system on the root device ([image] is null): the
    block cache with [deviceNumber] 0. *)
Definition getBlock (blk : Z) (is_read : bool) : M bcache (Z * Z) := bufRead 0 blk is_read.

Definition sector_read (blk : Z) : M bcache (list Z) :=
  let* h := getBlock blk true in
  let* d := buf_get h in
  bufRelease h ;;;
  ret d.
Definition sector_modify (blk : Z) (is_read : bool) (f : list Z -> list Z) : M bcache unit :=
  let* h := getBlock blk is_read in
  let* d := buf_get h in
  buf_set h (f d) ;;;
  bufWrite h ;;;
  bufRelease h.

(** ** Contents and invariant *)

Definition group_of (blk : Z) : Z := Z.land blk BGROUP_MASK.

(** What the block holds as far as readers of the cache can tell. *)
Definition view (c : bcache) (blk : Z) : list Z :=
  match find_slot (is_block 0 blk) (c.(bbuf) (group_of blk)) (c.(blist) (group_of blk)) with
  | Some j => let b := c.(bbuf) (group_of blk) j in if b.(bvalid) then b.(bdata) else c.(disk) blk
  | None => c.(disk) blk
  end.

(** In every group the list names distinct slots, at least one; a buffer that
    holds a block of the device is in the group of that block and is the only
    one holding it; a valid buffer that is not dirty agrees with the disk. *)
Record bc_ok (c : bcache) : Prop := {
  bc_nodup : forall g, 0 <= g < BGROUP_NUM -> NoDup (c.(blist) g) /\ c.(blist) g <> [];
  bc_dev : forall g j, 0 <= g < BGROUP_NUM -> j ∈ c.(blist) g ->
    (c.(bbuf) g j).(bdev) = -1 /\ (c.(bbuf) g j).(bvalid) = false \/
    (c.(bbuf) g j).(bdev) = 0 /\ group_of (c.(bbuf) g j).(blockno) = g;
  bc_uniq : forall g i j, 0 <= g < BGROUP_NUM -> i ∈ c.(blist) g -> j ∈ c.(blist) g ->
    (c.(bbuf) g i).(bdev) = 0 -> (c.(bbuf) g j).(bdev) = 0 ->
    (c.(bbuf) g i).(blockno) = (c.(bbuf) g j).(blockno) -> i = j;
  bc_clean : forall g j, 0 <= g < BGROUP_NUM -> j ∈ c.(blist) g ->
    (c.(bbuf) g j).(bvalid) = true -> (c.(bbuf) g j).(bdirty) = false ->
    (c.(bbuf) g j).(bdata) = c.(disk) (c.(bbuf) g j).(blockno);
  bc_len : (forall b, length (c.(disk) b) = 512%nat) /\
    forall g j, 0 <= g < BGROUP_NUM -> j ∈ c.(blist) g -> length (c.(bbuf) g j).(bdata) = 512%nat
}.

(** No buffer is held. *)
Definition idle (c : bcache) : Prop :=
  forall g j, 0 <= g < BGROUP_NUM -> j ∈ c.(blist) g -> (c.(bbuf) g j).(brefcnt) = 0.

#[export] Instance bcache_store : SectorStore bcache := {
  ss_read := sector_read;
  ss_modify := sector_modify;
  ss_inv := fun c => bc_ok c /\ idle c;
  ss_view := view
}.

(** ** Finding buffers *)

Lemma find_slot_some p bufs l j : find_slot p bufs l = Some j -> j ∈ l /\ p (bufs j) = true.
Proof.
  induction l as [|i l IH]; cbn; [discriminate|]. destruct (p (bufs i)) eqn:E.
  - intros [= <-]. split; [now left | exact E].
  - intros H. destruct (IH H). split; [now right | auto].
Qed.
Lemma find_slot_none p bufs l : find_slot p bufs l = None -> forall j, j ∈ l -> p (bufs j) = false.
Proof.
  induction l as [|i l IH]; cbn; intros H j Hj; [now apply not_elem_of_nil in Hj|].
  destruct (p (bufs i)) eqn:E; [discriminate|].
  apply elem_of_cons in Hj as [->|Hj]; auto.
Qed.
Lemma find_slot_exists p bufs l j : j ∈ l -> p (bufs j) = true -> exists i, find_slot p bufs l = Some i.
Proof.
  intros Hj Hp. destruct (find_slot p bufs l) as [i|] eqn:E; [eauto|].
  rewrite (find_slot_none _ _ _ E j Hj) in Hp. discriminate.
Qed.

Lemma group_of_range b : 0 <= group_of b < BGROUP_NUM.
Proof.
  unfold group_of, BGROUP_MASK, BGROUP_NUM. change (16384 - 1) with (Z.ones 14).
  rewrite Z.land_ones by lia. apply Z.mod_pos_bound. reflexivity.
Qed.

Lemma is_block_dev c g j b : bc_ok c -> 0 <= g < BGROUP_NUM -> j ∈ c.(blist) g ->
  is_block 0 b (c.(bbuf) g j) = true <->
  (c.(bbuf) g j).(bdev) = 0 /\ (c.(bbuf) g j).(blockno) = b.
Proof.
  intros Hok Hg Hj. unfold is_block. rewrite andb_true_iff, !Z.eqb_eq.
  destruct (bc_dev _ Hok g j Hg Hj) as [[-> _]|[-> _]].
  - split; intros [E _]; [cbv in E; discriminate | lia].
  - change (wrap32 0) with 0. tauto.
Qed.

Lemma view_hit c g j :
  bc_ok c -> 0 <= g < BGROUP_NUM -> j ∈ c.(blist) g -> (c.(bbuf) g j).(bdev) = 0 ->
  let b := c.(bbuf) g j in
  view c b.(blockno) = if b.(bvalid) then b.(bdata) else c.(disk) b.(blockno).
Proof.
  intros Hok Hg Hj Hd b. unfold view.
  assert (Eg : group_of b.(blockno) = g).
  { destruct (bc_dev _ Hok g j Hg Hj) as [[E _]|[_ E]]; [lia|exact E]. }
  rewrite Eg.
  destruct (find_slot_exists (is_block 0 b.(blockno)) (c.(bbuf) g) (c.(blist) g) j Hj) as [i Hi].
  { apply (is_block_dev c g j); auto. }
  rewrite Hi. apply find_slot_some in Hi as [Hil Hib].
  apply (is_block_dev c g i) in Hib as [Hid Hib]; auto.
  assert (i = j) as -> by (eapply bc_uniq; eauto). reflexivity.
Qed.
Lemma view_miss c blk :
  bc_ok c ->
  (forall j, j ∈ c.(blist) (group_of blk) -> (c.(bbuf) (group_of blk) j).(bdev) = 0 ->
             (c.(bbuf) (group_of blk) j).(blockno) <> blk) ->
  view c blk = c.(disk) blk.
Proof.
  intros Hok Hno. unfold view. destruct (find_slot _ _ _) as [j|] eqn:E; [|reflexivity].
  apply find_slot_some in E as [Hj Hb].
  apply (is_block_dev c) in Hb as [Hd Hb]; auto using group_of_range. now apply Hno in Hd.
Qed.

(** ** Replacing the contents of one slot *)

(** [c'] is [c] with slot [j] of group [g] holding [nb] and the disk [dsk]; the
    lists name the same slots, possibly in another order. *)
Record replaced (c : bcache) (g j : Z) (nb : Buffer) (dsk : Z -> list Z) (c' : bcache) : Prop := {
  rp_same : c'.(bbuf) g j = nb;
  rp_other : forall g' i, ~ (g' = g /\ i = j) -> c'.(bbuf) g' i = c.(bbuf) g' i;
  rp_disk : forall b, c'.(disk) b = dsk b;
  rp_in : forall g' i, 0 <= g' < BGROUP_NUM -> i ∈ c'.(blist) g' <-> i ∈ c.(blist) g';
  rp_nodup : forall g', 0 <= g' < BGROUP_NUM -> NoDup (c'.(blist) g') /\ c'.(blist) g' <> []
}.

Lemma replaced_set c g j nb nb' dsk c' :
  replaced c g j nb dsk c' -> replaced c g j nb' dsk (set_buf g j nb' c').
Proof.
  intros [Hs Ho Hd Hi Hn]. constructor; cbn [set_buf bbuf blist disk]; auto.
  - now rewrite !upd_eq.
  - intros g' i H. destruct (Z.eq_dec g' g) as [->|]; [|rewrite upd_ne by auto; now apply Ho].
    rewrite upd_eq, upd_ne by tauto. now apply Ho.
Qed.
Lemma replaced_set_disk c g j nb dsk c' b d :
  replaced c g j nb dsk c' -> replaced c g j nb (upd dsk b d) (set_disk b d c').
Proof.
  intros [Hs Ho Hd Hi Hn]. constructor; cbn [set_disk bbuf blist disk]; auto.
  intros b'. unfold upd. now rewrite Hd.
Qed.
Lemma replaced_refl c g j : bc_ok c -> replaced c g j (c.(bbuf) g j) c.(disk) c.
Proof. intros Hok. constructor; auto. apply Hok. Qed.
Lemma replaced_move c g j nb dsk c' :
  0 <= g < BGROUP_NUM -> j ∈ c.(blist) g -> replaced c g j nb dsk c' ->
  replaced c g j nb dsk (set_list g (j :: filter (fun i => i <> j) (c'.(blist) g)) c').
Proof.
  intros Hg Hj [Hs Ho Hd Hi Hn]. constructor; cbn [set_list bbuf blist disk]; auto.
  - intros g' i Hg'. destruct (Z.eq_dec g' g) as [->|]; [|rewrite upd_ne by auto; now apply Hi].
    rewrite upd_eq, elem_of_cons, list_elem_of_filter, Hi by auto.
    destruct (Z.eq_dec i j) as [->|]; tauto.
  - intros g' Hg'. destruct (Z.eq_dec g' g) as [->|]; [|rewrite upd_ne by auto; now apply Hn].
    rewrite upd_eq. split; [|discriminate]. apply NoDup_cons. split.
    + rewrite list_elem_of_filter. tauto.
    + apply NoDup_filter. now apply Hn.
Qed.

Section Replace.
Context (c : bcache) (g j : Z) (nb : Buffer) (dsk : Z -> list Z) (c' : bcache).
Context (Hok : bc_ok c) (Hg : 0 <= g < BGROUP_NUM) (Hj : j ∈ c.(blist) g).
Context (Hrp : replaced c g j nb dsk c').
Context (Hdev : nb.(bdev) = 0) (Hgrp : group_of nb.(blockno) = g).
Context (Hnew : forall i, i ∈ c.(blist) g -> i <> j -> (c.(bbuf) g i).(bdev) = 0 ->
                          (c.(bbuf) g i).(blockno) <> nb.(blockno)).
Context (Hclean : nb.(bvalid) = true -> nb.(bdirty) = false -> nb.(bdata) = dsk nb.(blockno)).
Context (Hlen : length nb.(bdata) = 512%nat) (Hdlen : forall b, length (dsk b) = 512%nat).
(** The disk may only have changed at the block the slot held before. *)
Context (Hdsk : forall b, dsk b = c.(disk) b \/
                          (c.(bbuf) g j).(bdev) = 0 /\ b = (c.(bbuf) g j).(blockno)).

Lemma replaced_dsk g' i : 0 <= g' < BGROUP_NUM -> i ∈ c.(blist) g' -> ~ (g' = g /\ i = j) ->
  (c.(bbuf) g' i).(bdev) = 0 -> dsk (c.(bbuf) g' i).(blockno) = c.(disk) (c.(bbuf) g' i).(blockno).
Proof.
  intros Hg' Hi Hne Hd. destruct (Hdsk (c.(bbuf) g' i).(blockno)) as [E|[Hd' E]]; [exact E|].
  exfalso. apply Hne.
  assert (g' = g) as ->.
  { destruct (bc_dev _ Hok g' i Hg' Hi) as [[? _]|[_ E1]]; [lia|].
    destruct (bc_dev _ Hok g j Hg Hj) as [[? _]|[_ E2]]; [lia|]. congruence. }
  split; [reflexivity|]. eapply bc_uniq; eauto.
Qed.

Lemma replaced_ok : bc_ok c'.
Proof.
  destruct Hrp as [Hs Ho Hd Hi Hn]. constructor.
  - exact Hn.
  - intros g' i Hg' Hx%Hi; auto. destruct (decide (g' = g /\ i = j)) as [[-> ->]|Hne].
    + rewrite Hs. auto.
    + rewrite Ho by auto. now apply Hok.
  - intros g' i i' Hg' Hx%Hi Hx'%Hi; auto.
    destruct (decide (g' = g /\ i = j)) as [[Eg Ei]|Hne]; destruct (decide (g' = g /\ i' = j)) as [[Eg' Ei']|Hne'].
    + congruence.
    + rewrite (Ho g' i') by auto. rewrite Eg, Ei, Hs. intros Hd1 Hd2 E.
      exfalso. rewrite Eg in *. apply (Hnew i' Hx'); [tauto|exact Hd2|congruence].
    + rewrite (Ho g' i) by auto. rewrite Eg', Ei', Hs. intros Hd1 Hd2 E.
      exfalso. rewrite Eg' in *. apply (Hnew i Hx); [tauto|exact Hd1|congruence].
    + rewrite !Ho by auto. now apply bc_uniq.
  - intros g' i Hg' Hx%Hi; auto. destruct (decide (g' = g /\ i = j)) as [[-> ->]|Hne].
    + rewrite Hs, Hd. auto.
    + rewrite Ho, Hd by auto. intros Hv Hdi. rewrite (bc_clean _ Hok) by auto.
      symmetry. apply replaced_dsk; auto.
      destruct (bc_dev _ Hok g' i Hg' Hx) as [[_ E]|[E _]]; [congruence|exact E].
  - split; [intros b; now rewrite Hd|].
    intros g' i Hg' Hx%Hi; auto. destruct (decide (g' = g /\ i = j)) as [[-> ->]|Hne].
    + now rewrite Hs.
    + rewrite Ho by auto. now apply Hok.
Qed.

Lemma replaced_view_new :
  view c' nb.(blockno) = if nb.(bvalid) then nb.(bdata) else dsk nb.(blockno).
Proof.
  destruct Hrp as [Hs Ho Hd Hi Hn].
  pose proof (view_hit c' g j replaced_ok Hg (proj2 (Hi g j Hg) Hj)) as H. cbv zeta in H.
  rewrite Hs, Hd in H. now apply H.
Qed.

Lemma replaced_view_evicted :
  (c.(bbuf) g j).(bdev) = 0 -> (c.(bbuf) g j).(blockno) <> nb.(blockno) ->
  view c' (c.(bbuf) g j).(blockno) = dsk (c.(bbuf) g j).(blockno).
Proof.
  destruct Hrp as [Hs Ho Hd Hi Hn]. intros Hd0 Hb.
  assert (Egb : group_of (c.(bbuf) g j).(blockno) = g).
  { destruct (bc_dev _ Hok g j Hg Hj) as [[? _]|[_ E]]; [lia|congruence]. }
  rewrite <- Hd. apply view_miss; [apply replaced_ok|]. rewrite Egb.
  intros i Hx%Hi; auto. destruct (Z.eq_dec i j) as [->|Hne].
  - rewrite Hs. congruence.
  - rewrite Ho by tauto. intros Hid Hib. apply Hne. eapply (bc_uniq _ Hok g); eauto.
Qed.

Lemma replaced_view_other b :
  b <> nb.(blockno) -> ~ ((c.(bbuf) g j).(bdev) = 0 /\ (c.(bbuf) g j).(blockno) = b) ->
  view c' b = view c b.
Proof.
  intros Hb Hnot. pose proof (group_of_range b) as Hgb. destruct Hrp as [Hs Ho Hd Hi Hn].
  destruct (find_slot (is_block 0 b) (c.(bbuf) (group_of b)) (c.(blist) (group_of b))) as [i|] eqn:Ei.
  - apply find_slot_some in Ei as [Hx Hib].
    apply (is_block_dev c) in Hib as [Hid Hib]; auto.
    assert (Hne : ~ (group_of b = g /\ i = j)) by (intros [Eg ->]; rewrite Eg in *; tauto).
    pose proof (view_hit c' (group_of b) i replaced_ok Hgb (proj2 (Hi _ _ Hgb) Hx)) as H1.
    pose proof (view_hit c (group_of b) i Hok Hgb Hx) as H2.
    cbv zeta in H1, H2. rewrite Ho in H1 by auto. rewrite Hib in H1. rewrite Hib in H2.
    rewrite H1, H2 by auto. destruct (bvalid (c.(bbuf) (group_of b) i)); [reflexivity|].
    pose proof (replaced_dsk (group_of b) i Hgb Hx Hne Hid) as E. rewrite Hd. now rewrite Hib in E.
  - assert (Hno : forall i, i ∈ c.(blist) (group_of b) -> (c.(bbuf) (group_of b) i).(bdev) = 0 ->
                    (c.(bbuf) (group_of b) i).(blockno) <> b).
    { intros i Hx Hid Hib. pose proof (find_slot_none _ _ _ Ei i Hx) as Hf.
      assert (is_block 0 b (c.(bbuf) (group_of b) i) = true) by (apply (is_block_dev c); auto). congruence. }
    rewrite !view_miss; auto using replaced_ok.
    + rewrite Hd. destruct (Hdsk b) as [E|[Hd' E]]; [exact E|]. exfalso. apply Hnot. auto.
    + intros i Hx%Hi; auto. destruct (decide (group_of b = g /\ i = j)) as [[Eg ->]|Hne].
      * rewrite Eg, Hs. congruence.
      * rewrite Ho by auto. now apply Hno.
Qed.
End Replace.

(** ** Getting a buffer *)

(** What [bufAlloc] on an idle cache leaves in the slot it returns, and on disk. *)
Record acquired (c : bcache) (blk j : Z) (nb : Buffer) (dsk : Z -> list Z) : Prop := {
  aq_in : j ∈ c.(blist) (group_of blk);
  aq_blk : nb.(blockno) = blk;
  aq_dev : nb.(bdev) = 0;
  aq_ref : nb.(brefcnt) = 1;
  aq_len : length nb.(bdata) = 512%nat;
  aq_dlen : forall b, length (dsk b) = 512%nat;
  aq_new : forall i, i ∈ c.(blist) (group_of blk) -> i <> j -> (c.(bbuf) (group_of blk) i).(bdev) = 0 ->
    (c.(bbuf) (group_of blk) i).(blockno) <> blk;
  aq_dsk : forall b, dsk b = c.(disk) b \/
    (c.(bbuf) (group_of blk) j).(bdev) = 0 /\ b = (c.(bbuf) (group_of blk) j).(blockno);
  aq_valid : nb.(bvalid) = true ->
    nb.(bdata) = view c blk /\ (nb.(bdirty) = false -> nb.(bdata) = dsk blk);
  aq_invalid : nb.(bvalid) = false -> dsk blk = view c blk;
  aq_evicted : (c.(bbuf) (group_of blk) j).(bdev) = 0 -> (c.(bbuf) (group_of blk) j).(blockno) <> blk ->
    dsk (c.(bbuf) (group_of blk) j).(blockno) = view c (c.(bbuf) (group_of blk) j).(blockno)
}.

Lemma bufAlloc_hit c blk j :
  bc_ok c -> idle c ->
  find_slot (is_block 0 blk) (c.(bbuf) (group_of blk)) (c.(blist) (group_of blk)) = Some j ->
  let b := c.(bbuf) (group_of blk) j in
  acquired c blk j (MkBuffer b.(blockno) b.(bdev) b.(bvalid) b.(bdirty) 1 b.(bdata)) c.(disk).
Proof.
  intros Hok Hidle Hf b. pose proof (group_of_range blk) as Hg.
  apply find_slot_some in Hf as [Hj Hb]. apply (is_block_dev c) in Hb as [Hd Hb]; auto.
  pose proof (view_hit c _ j Hok Hg Hj Hd) as Hv. cbv zeta in Hv. rewrite Hb in Hv.
  constructor; cbn; auto; try (now apply Hok).
  - intros i Hi Hne Hid Hib. apply Hne. apply (bc_uniq _ Hok (group_of blk)); auto. congruence.
  - intros Hvalid. subst b. rewrite Hv, Hvalid. split; [reflexivity|].
    intros Hdirty. rewrite (bc_clean _ Hok) by auto. now rewrite Hb.
  - intros Hvalid. subst b. now rewrite Hv, Hvalid.
  - intros _ Hn. now rewrite Hb in Hn.
Qed.

Lemma bufAlloc_miss c blk j :
  bc_ok c -> idle c ->
  find_slot (is_block 0 blk) (c.(bbuf) (group_of blk)) (c.(blist) (group_of blk)) = None ->
  j ∈ c.(blist) (group_of blk) ->
  let b := c.(bbuf) (group_of blk) j in
  acquired c blk j (MkBuffer blk 0 false false 1 b.(bdata))
    (if b.(bvalid) && b.(bdirty) then upd c.(disk) b.(blockno) b.(bdata) else c.(disk)).
Proof.
  intros Hok Hidle Hf Hj b. pose proof (group_of_range blk) as Hg.
  assert (Hno : forall i, i ∈ c.(blist) (group_of blk) -> (c.(bbuf) (group_of blk) i).(bdev) = 0 ->
                  (c.(bbuf) (group_of blk) i).(blockno) <> blk).
  { intros i Hx Hid Hib. pose proof (find_slot_none _ _ _ Hf i Hx) as Hn.
    assert (is_block 0 blk (c.(bbuf) (group_of blk) i) = true) by (apply (is_block_dev c); auto). congruence. }
  assert (Hdev : b.(bvalid) = true -> b.(bdev) = 0).
  { intros Hv. destruct (bc_dev _ Hok _ j Hg Hj) as [[_ E]|[E _]]; [fold b in E; congruence|exact E]. }
  pose proof (bc_len _ Hok) as [Hdl Hbl].
  constructor; cbn; auto; try (now apply Hok).
  - intros x. destruct (_ && _); [|auto]. unfold upd. destruct (_ =? _); [now apply Hbl|auto].
  - intros x. destruct (bvalid b) eqn:Ev, (bdirty b); cbn; auto.
    unfold upd. destruct (Z.eqb_spec x b.(blockno)); auto.
  - discriminate.
  - intros _. rewrite (view_miss c blk) by auto. destruct (bvalid b) eqn:Ev, (bdirty b); cbn; auto.
    rewrite upd_ne; [reflexivity|]. intros E. apply (Hno j Hj); [now apply Hdev|now symmetry].
  - fold b. intros Hd Hn. pose proof (view_hit c _ j Hok Hg Hj Hd) as Hv. cbv zeta in Hv. fold b in Hv.
    rewrite Hv. destruct (bvalid b) eqn:Ev, (bdirty b) eqn:Ed; cbn; rewrite ?upd_eq; auto.
    symmetry. now apply (bc_clean _ Hok).
Qed.

Lemma bufAlloc_ok c blk :
  bc_ok c -> idle c ->
  exists j nb dsk c1, bufAlloc 0 blk c = Ok ((group_of blk, j), c1) /\
    acquired c blk j nb dsk /\ replaced c (group_of blk) j nb dsk c1.
Proof.
  intros Hok Hidle. unfold bufAlloc. pose proof (group_of_range blk) as Hg.
  change (Z.land blk BGROUP_MASK) with (group_of blk).
  destruct (find_slot (is_block 0 blk) _ _) as [j|] eqn:Ef.
  - pose proof (bufAlloc_hit c blk j Hok Hidle Ef) as Ha. destruct (find_slot_some _ _ _ _ Ef) as [Hj _].
    eexists j, _, _, _. split; [reflexivity|]. split; [exact Ha|].
    rewrite (Hidle _ _ Hg Hj). eapply replaced_set, replaced_refl, Hok.
  - destruct (find_slot _ _ (reverse _)) as [j|] eqn:Er.
    + apply find_slot_some in Er as [Hj _]. rewrite elem_of_reverse in Hj.
      pose proof (bufAlloc_miss c blk j Hok Hidle Ef Hj) as Ha. cbv zeta in Ha.
      cbv [gets bind modify ret disk_write].
      destruct (bvalid _ && bdirty _) eqn:E;
        (eexists j, _, _, _; split; [reflexivity|]; split; [exact Ha|]).
      * eapply replaced_set, replaced_set_disk, replaced_refl, Hok.
      * eapply replaced_set, replaced_refl, Hok.
    + exfalso. destruct (c.(blist) (group_of blk)) as [|j l] eqn:El; [now apply (bc_nodup _ Hok _ Hg)|].
      assert (Hj : j ∈ c.(blist) (group_of blk)) by (rewrite El; left).
      rewrite <- El in Er. pose proof (find_slot_none _ _ _ Er j) as Hn. rewrite elem_of_reverse, El in Hn.
      specialize (Hn ltac:(left)). cbn in Hn. rewrite (Hidle _ _ Hg Hj) in Hn. discriminate.
Qed.

(** Whatever the holder of the slot then does to its data, as long as it is
    marked dirty or agrees with the disk, only that block changed. *)
Lemma acquired_result c blk j nb dsk nb' c' :
  bc_ok c -> acquired c blk j nb dsk -> replaced c (group_of blk) j nb' dsk c' ->
  nb'.(blockno) = blk -> nb'.(bdev) = 0 -> nb'.(bvalid) = true -> length nb'.(bdata) = 512%nat ->
  (nb'.(bdirty) = false -> nb'.(bdata) = dsk blk) ->
  bc_ok c' /\ view c' blk = nb'.(bdata) /\ forall b, b <> blk -> view c' b = view c b.
Proof.
  intros Hok [Hin Hblk Hdev Href Hlen Hdlen Hnew Hdsk Hva Hinv Hev] Hrp Eb Ed Ev El Ec.
  pose proof (group_of_range blk) as Hg.
  assert (Hc : nb'.(bvalid) = true -> nb'.(bdirty) = false -> nb'.(bdata) = dsk nb'.(blockno))
    by (rewrite Eb; auto).
  assert (Hgn : group_of nb'.(blockno) = group_of blk) by now rewrite Eb.
  assert (Hnew' : forall i, i ∈ c.(blist) (group_of blk) -> i <> j ->
    (c.(bbuf) (group_of blk) i).(bdev) = 0 -> (c.(bbuf) (group_of blk) i).(blockno) <> nb'.(blockno))
    by (rewrite Eb; auto).
  split; [|split].
  - eapply (replaced_ok c _ j nb' dsk c'); eauto.
  - rewrite <- Eb at 1. erewrite (replaced_view_new c _ j nb' dsk c'); eauto. now rewrite Ev.
  - intros b Hb. destruct (decide ((c.(bbuf) (group_of blk) j).(bdev) = 0 /\
                                    (c.(bbuf) (group_of blk) j).(blockno) = b)) as [[Hd <-]|Hn].
    + rewrite (replaced_view_evicted c _ j nb' dsk c'); eauto. congruence.
    + eapply (replaced_view_other c _ j nb' dsk c'); eauto. congruence.
Qed.
Lemma replaced_idle c g j nb dsk c' :
  idle c -> replaced c g j nb dsk c' -> nb.(brefcnt) = 0 -> idle c'.
Proof.
  intros Hid [Hs Ho Hd Hi Hn] Hr g' i Hg' Hx%Hi; auto.
  destruct (decide (g' = g /\ i = j)) as [[-> ->]|Hne]; [now rewrite Hs|rewrite Ho by auto; now apply Hid].
Qed.

Lemma bufRead_ok c blk r :
  bc_ok c -> idle c ->
  exists j nb dsk nb' c1, bufRead 0 blk r c = Ok ((group_of blk, j), c1) /\
    acquired c blk j nb dsk /\ replaced c (group_of blk) j nb' dsk c1 /\
    nb'.(blockno) = blk /\ nb'.(bdev) = 0 /\ nb'.(brefcnt) = 1 /\ nb'.(bvalid) = true /\
    length nb'.(bdata) = 512%nat /\
    (r = true -> nb'.(bdata) = view c blk /\ (nb'.(bdirty) = false -> nb'.(bdata) = dsk blk)).
Proof.
  intros Hok Hidle. destruct (bufAlloc_ok c blk Hok Hidle) as (j & nb & dsk & c1 & E & Ha & Hr).
  unfold bufRead. erewrite bind_run by exact E. cbv [bind gets ret modify].
  destruct Hr as [Hs Ho Hd Hi Hn] eqn:EHr. pose proof Hr as Hrp. clear EHr.
  destruct Ha as [Hin Hblk Hdev Href Hlen Hdlen Hnew Hdsk Hva Hinv Hev] eqn:EHa. clear EHa.
  rewrite Hs. destruct (bvalid nb) eqn:Ev.
  - eexists j, nb, dsk, nb, c1. repeat (split; [auto; fail|]). intros _. now apply Hva.
  - destruct r; cbv [disk_read modify].
    + eexists j, nb, dsk, _, _. split; [reflexivity|]. split; [exact Ha|]. rewrite Hs, Hd.
      split; [eapply replaced_set, replaced_set, Hrp|]. cbn. rewrite !upd_eq. cbn. rewrite Hblk.
      repeat (split; [auto; fail|]). intros _. split; auto.
    + eexists j, nb, dsk, _, _. split; [reflexivity|]. split; [exact Ha|]. rewrite Hs.
      split; [eapply replaced_set, Hrp|]. cbn. repeat (split; [auto; fail|]). discriminate.
Qed.

Lemma bufRelease_ok c g j nb dsk c1 :
  0 <= g < BGROUP_NUM -> j ∈ c.(blist) g -> replaced c g j nb dsk c1 ->
  group_of nb.(blockno) = g -> nb.(brefcnt) = 1 ->
  exists c2, bufRelease (g, j) c1 = Ok (tt, c2) /\
    replaced c g j (MkBuffer nb.(blockno) nb.(bdev) nb.(bvalid) nb.(bdirty) 0 nb.(bdata)) dsk c2.
Proof.
  intros Hg Hj Hr Hgr Href. unfold bufRelease. rewrite (rp_same _ _ _ _ _ _ Hr), Href.
  change (wrap16 (1 - 1)) with 0. cbn [Z.eqb].
  change (Z.land nb.(blockno) BGROUP_MASK) with (group_of nb.(blockno)). rewrite Hgr.
  eexists. split; [reflexivity|]. apply replaced_move; auto. eapply replaced_set, Hr.
Qed.

Lemma sector_read_ok c blk :
  bc_ok c -> idle c ->
  exists c', sector_read blk c = Ok (view c blk, c') /\ (bc_ok c' /\ idle c') /\
    forall b, view c' b = view c b.
Proof.
  intros Hok Hidle. destruct (bufRead_ok c blk true Hok Hidle)
    as (j & nb & dsk & nb' & c1 & E & Ha & Hr & Eb & Ed & Er & Ev & El & Ec).
  destruct (Ec eq_refl) as [Edata Eclean]. pose proof (group_of_range blk) as Hg.
  unfold sector_read, getBlock. erewrite bind_run by exact E.
  destruct (bufRelease_ok c _ j nb' dsk c1 Hg (aq_in _ _ _ _ _ Ha) Hr) as (c2 & E2 & Hr2); [congruence|auto|].
  cbv [buf_get gets bind ret]. cbn [fst snd]. rewrite (rp_same _ _ _ _ _ _ Hr), E2, Edata.
  exists c2. split; [reflexivity|].
  destruct (acquired_result c blk j nb dsk _ c2 Hok Ha Hr2) as (Hok2 & Hv & Ho); auto.
  split; [split; [exact Hok2|eapply replaced_idle; eauto]|].
  intros b. destruct (Z.eq_dec b blk) as [->|]; [cbn in Hv; congruence|auto].
Qed.

Lemma sector_modify_ok c blk r f :
  bc_ok c -> idle c -> (r = true \/ forall d d', f d = f d') -> length (f (view c blk)) = 512%nat ->
  exists c', sector_modify blk r f c = Ok (tt, c') /\ (bc_ok c' /\ idle c') /\
    forall b, view c' b = if b =? blk then f (view c blk) else view c b.
Proof.
  intros Hok Hidle Hrf Hlen. destruct (bufRead_ok c blk r Hok Hidle)
    as (j & nb & dsk & nb' & c1 & E & Ha & Hr & Eb & Ed & Er & Ev & El & Ec).
  assert (Ef : f nb'.(bdata) = f (view c blk)).
  { destruct Hrf as [Hrt|Hf]; [destruct (Ec Hrt) as [-> _]; reflexivity|apply Hf]. }
  pose proof (group_of_range blk) as Hg.
  unfold sector_modify, getBlock. erewrite bind_run by exact E.
  cbv [buf_get buf_set bufWrite gets bind ret modify]. cbn [fst snd].
  rewrite (rp_same _ _ _ _ _ _ Hr). cbn [bbuf set_buf]. rewrite !upd_eq. cbn [blockno bdev bvalid brefcnt bdata].
  rewrite Ef.
  edestruct (bufRelease_ok c (group_of blk) j) as (c2 & E2 & Hr2);
    [exact Hg|exact (aq_in _ _ _ _ _ Ha)|eapply replaced_set, replaced_set, Hr| | |rewrite E2];
    [cbn; congruence|exact Er|].
  exists c2. split; [reflexivity|].
  destruct (acquired_result c blk j nb dsk _ c2 Hok Ha Hr2) as (Hok2 & Hv & Ho); auto; [discriminate|].
  split; [split; [exact Hok2|eapply replaced_idle; eauto]|].
  intros b. destruct (Z.eqb_spec b blk) as [->|]; auto.
Qed.

#[export] Instance bcache_laws : SectorStoreLaws bcache.
Proof.
  constructor; cbn [ss_inv ss_read ss_modify ss_view bcache_store].
  - intros c b [Hok _]. unfold view. pose proof (bc_len _ Hok) as [Hd Hb].
    destruct (find_slot _ _ _) as [j|] eqn:E; [|apply Hd]. cbv zeta.
    destruct (bvalid _); [|apply Hd]. apply find_slot_some in E as [Hj _]. apply Hb; auto using group_of_range.
  - intros c b [Hok Hid] _. now apply sector_read_ok.
  - intros c b f [Hok Hid] _ Hl. apply sector_modify_ok; auto.
  - intros c b d [Hok Hid] _ Hl. apply (sector_modify_ok c b false (fun _ => d)); auto.
Qed.

(** ** Clients of the cache see an array of blocks *)

(** One use of a block: read it, rewrite it, or fill it without reading. *)
Inductive bop : Type :=
| BRead (blk : Z)
| BUpdate (blk : Z) (f : list Z -> list Z)
| BFill (blk : Z) (d : list Z).

Definition run_bop (o : bop) : M bcache (list Z) :=
  match o with
  | BRead b => sector_read b
  | BUpdate b f => sector_modify b true f ;;; ret []
  | BFill b d => sector_modify b false (fun _ => d) ;;; ret []
  end.
Fixpoint run_bops (l : list bop) : M bcache (list (list Z)) :=
  match l with
  | [] => ret []
  | o :: l' => let* r := run_bop o in let* rs := run_bops l' in ret (r :: rs)
  end.

(** The same on an array of blocks. *)
Definition spec_bop (o : bop) (a : Z -> list Z) : list Z * (Z -> list Z) :=
  match o with
  | BRead b => (a b, a)
  | BUpdate b f => ([], upd a b (f (a b)))
  | BFill b d => ([], upd a b d)
  end.
Fixpoint spec_bops (l : list bop) (a : Z -> list Z) : list (list Z) * (Z -> list Z) :=
  match l with
  | [] => ([], a)
  | o :: l' => let '(r, a1) := spec_bop o a in let '(rs, a2) := spec_bops l' a1 in (r :: rs, a2)
  end.
Definition bop_wf (o : bop) : Prop :=
  match o with
  | BRead _ => True
  | BUpdate _ f => forall d, length d = 512%nat -> length (f d) = 512%nat
  | BFill _ d => length d = 512%nat
  end.

Lemma view_len c b : bc_ok c -> idle c -> length (view c b) = 512%nat.
Proof. intros Hok Hid. exact (ss_view_len (S:=bcache) c b (conj Hok Hid)). Qed.

Lemma run_bop_ok o c a :
  bop_wf o -> bc_ok c -> idle c -> (forall b, view c b = a b) ->
  exists c', run_bop o c = Ok (fst (spec_bop o a), c') /\ bc_ok c' /\ idle c' /\
    forall b, view c' b = snd (spec_bop o a) b.
Proof.
  intros Hwf Hok Hid Hv. destruct o as [b|b f|b d]; cbn [run_bop spec_bop fst snd].
  - destruct (sector_read_ok c b Hok Hid) as (c' & -> & [? ?] & Hv').
    exists c'. rewrite Hv. split; [reflexivity|]. repeat (split; [assumption|]). intros b'. now rewrite Hv'.
  - destruct (sector_modify_ok c b true f Hok Hid) as (c' & E & [? ?] & Hv'); [auto|apply Hwf, view_len; auto|].
    erewrite bind_run by exact E. exists c'. split; [reflexivity|]. repeat (split; [assumption|]).
    intros b'. rewrite Hv'. unfold upd. now rewrite !Hv.
  - destruct (sector_modify_ok c b false (fun _ => d) Hok Hid) as (c' & E & [? ?] & Hv'); auto.
    erewrite bind_run by exact E. exists c'. split; [reflexivity|]. repeat (split; [assumption|]).
    intros b'. rewrite Hv'. unfold upd. now rewrite !Hv.
Qed.

(** C1. Whatever blocks a client reads, rewrites and fills, in any order, and
    whatever the cache evicts and writes back meanwhile, every read returns
    what a plain array of blocks initialised from the disk would return, and
    the cache ends consistent and with no buffer held. *)
Theorem cache_refines_array l c :
  Forall bop_wf l -> bc_ok c -> idle c ->
  exists c', run_bops l c = Ok (fst (spec_bops l (view c)), c') /\ bc_ok c' /\ idle c' /\
    forall b, view c' b = snd (spec_bops l (view c)) b.
Proof.
  intros Hwf. assert (G : forall a, bc_ok c -> idle c -> (forall b, view c b = a b) ->
    exists c', run_bops l c = Ok (fst (spec_bops l a), c') /\ bc_ok c' /\ idle c' /\
      forall b, view c' b = snd (spec_bops l a) b); [|intros; now apply G].
  revert c. induction Hwf as [|o l Ho _ IH]; intros c a Hok Hid Hv; cbn [run_bops spec_bops].
  - exists c. auto.
  - destruct (run_bop_ok o c a Ho Hok Hid Hv) as (c1 & E1 & Hok1 & Hid1 & Hv1).
    destruct (spec_bop o a) as [r a1]. cbn [fst snd] in *.
    destruct (IH c1 a1 Hok1 Hid1 Hv1) as (c2 & E2 & Hok2 & Hid2 & Hv2).
    destruct (spec_bops l a1) as [rs a2]. cbn [fst snd] in *.
    exists c2. erewrite !bind_run by eauto. auto.
Qed.

(** [bufInit] on the zeroed arrays [pmmInit] gave the cache. *)
Definition zeroed (dsk : Z -> list Z) : bcache :=
  MkBcache (fun _ _ => MkBuffer 0 0 false false 0 (replicate 512 0)) (fun _ => []) dsk.

Lemma bufInit_ok dsk :
  (forall b, length (dsk b) = 512%nat) ->
  bc_ok (bufInit (zeroed dsk)) /\ idle (bufInit (zeroed dsk)) /\
  forall b, view (bufInit (zeroed dsk)) b = dsk b.
Proof.
  intros Hd.
  assert (Hok : bc_ok (bufInit (zeroed dsk))).
  { constructor; cbn [bufInit zeroed bbuf blist disk bdev bvalid bdirty bdata].
    - intros g Hg. replace ((0 <=? g) && (g <? BGROUP_NUM)) with true by (symmetry; apply andb_true_iff; lia).
      split; [apply NoDup_seqZ|discriminate].
    - auto.
    - lia.
    - discriminate.
    - split; [exact Hd|]. intros. apply length_replicate. }
  split; [exact Hok|]. split; [intros g j _ _; reflexivity|].
  intros b. apply view_miss; [exact Hok|]. cbn. lia.
Qed.

(** After [bufInit] the cache is consistent, nothing is held, and every
    block reads as it is on the disk. *)
Theorem bufInit_establishes dsk :
  (forall b, length (dsk b) = 512%nat) ->
  bc_ok (bufInit (zeroed dsk)) /\ idle (bufInit (zeroed dsk)) /\
  forall b, view (bufInit (zeroed dsk)) b = dsk b.
Proof. apply bufInit_ok. Qed.

(** A buffer somebody holds is never handed out for another block: it
    keeps its block, its data and its flags across every [bufAlloc]; the
    block asked for is in the slot returned, with one more holder; and when no
    slot has the block and all are held, the kernel stops. *)
Theorem bufAlloc_keeps_held dev blk c :
  match bufAlloc dev blk c with
  | Ok ((g, j), c') =>
      g = group_of blk /\ j ∈ c.(blist) g /\ (c'.(bbuf) g j).(blockno) = blk /\
      (c'.(bbuf) g j).(brefcnt) = wrap16 ((c.(bbuf) g j).(brefcnt) + 1) /\
      forall g' i, 0 < (c.(bbuf) g' i).(brefcnt) ->
        let b := c.(bbuf) g' i in let b' := c'.(bbuf) g' i in
        b'.(blockno) = b.(blockno) /\ b'.(bdev) = b.(bdev) /\ b'.(bdata) = b.(bdata) /\
        b'.(bvalid) = b.(bvalid) /\ b'.(bdirty) = b.(bdirty)
  | Err f =>
      f = Panic /\ forall j, j ∈ c.(blist) (group_of blk) ->
        (c.(bbuf) (group_of blk) j).(brefcnt) <> 0 /\
        ~ ((c.(bbuf) (group_of blk) j).(blockno) = blk /\ wrap32 (c.(bbuf) (group_of blk) j).(bdev) = dev)
  end.
Proof.
  unfold bufAlloc. change (Z.land blk BGROUP_MASK) with (group_of blk).
  destruct (find_slot (is_block dev blk) _ _) as [j|] eqn:Ef.
  - apply find_slot_some in Ef as [Hj Hb]. unfold is_block in Hb. zbool.
    split; [reflexivity|]. split; [exact Hj|]. cbn [set_buf bbuf]. rewrite !upd_eq. cbn.
    split; [auto|]. split; [reflexivity|]. intros g' i _.
    unfold upd. destruct (Z.eqb_spec g' (group_of blk)) as [->|]; [|auto].
    destruct (Z.eqb_spec i j) as [->|]; auto.
  - pose proof (find_slot_none _ _ _ Ef) as Hno. destruct (find_slot _ _ (reverse _)) as [j|] eqn:Er.
    + apply find_slot_some in Er as [Hj Hr]. rewrite elem_of_reverse in Hj. apply Z.eqb_eq in Hr.
      cbv [gets bind modify ret disk_write].
      destruct (bvalid _ && bdirty _); (split; [reflexivity|]; split; [exact Hj|]; cbn [set_buf set_disk bbuf];
        rewrite !upd_eq; cbn; split; [auto|]; split; [now rewrite Hr|]; intros g' i Hpos;
        unfold upd; destruct (Z.eqb_spec g' (group_of blk)) as [->|]; [|auto];
        destruct (Z.eqb_spec i j) as [->|]; [lia|auto]).
    + split; [reflexivity|]. intros j Hj. split.
      * pose proof (find_slot_none _ _ _ Er j) as H. rewrite elem_of_reverse in H. specialize (H Hj).
        now apply Z.eqb_neq in H.
      * intros [H1 H2]. specialize (Hno j Hj). unfold is_block in Hno. rewrite H1, H2, !Z.eqb_refl in Hno. discriminate.
Qed.

(** A cache to evaluate: a single slot per group, so that two blocks of one
    group evict each other. *)
Definition tiny_cache : bcache :=
  MkBcache (fun _ _ => MkBuffer 0 (-1) false false 0 (replicate 512 0)) (fun _ => [0])
           (fun b => replicate 512 (b mod 7)).
Lemma tiny_cache_ok : bc_ok tiny_cache /\ idle tiny_cache.
Proof.
  split.
  - constructor; cbn.
    + intros. split; [apply NoDup_singleton|discriminate].
    + auto.
    + lia.
    + discriminate.
    + split; intros; reflexivity.
  - intros g j _ _. reflexivity.
Qed.
Definition tiny_ops : list bop := [BFill 3 (replicate 512 9); BRead (3 + BGROUP_NUM); BRead 3].

Lemma cache_refines_array_witness :
  exists rs c', run_bops tiny_ops tiny_cache = Ok (rs, c') /\ bc_ok c' /\
    rs = [[]; replicate 512 (16387 mod 7); replicate 512 9].
Proof.
  destruct (cache_refines_array tiny_ops tiny_cache) as (c' & E & Hok & _).
  - repeat constructor.
  - apply tiny_cache_ok.
  - apply tiny_cache_ok.
  - eexists _, c'. split; [exact E|]. split; [exact Hok|]. vm_compute. reflexivity.
Defined.
Lemma bufInit_establishes_witness :
  idle (bufInit (zeroed (fun _ => replicate 512 5))) /\
  view (bufInit (zeroed (fun _ => replicate 512 5))) 77 = replicate 512 5.
Proof.
  destruct (bufInit_establishes (fun _ => replicate 512 5)) as (_ & Hi & Hv).
  - intros; apply length_replicate.
  - split; [exact Hi|apply Hv].
Defined.
