(* ===== verification/Cluster.v ===== *)
(** * Clusters and the file allocation table

    [src/kern/fs/cluster.c], [countClusters] of [src/kern/fs/fat32/base.c],
    [clus_sequence_free] of [src/kern/fs/fat32/filepnt.c] and the superblock of
    [src/include/fs/fs.h].  The layer is written against [SectorStore], the
    interface of the block cache; its theorems see the disk as a flat array of
    bytes ([dbyte]), in which the entry of cluster [c] in copy [k] of the table
    is at [fat_addr k c] and byte [o] of the cluster at [clus_addr c + o]. *)

From S2P Require Import Prelude Bytes BufCache.
From Stdlib Require Import ZArith Lia Bool.
From stdpp Require Import base tactics numbers list.
Open Scope Z_scope.

Definition FAT32_EOF : Z := 268435455.                 (* 0xffffffful *)
(** [FAT32_NOT_END_CLUSTER(cluster)]: compared as an [unsigned long]. *)
Definition FAT32_NOT_END_CLUSTER (c : Z) : bool := wrap64 c <? 268435448.
Definition E_DEV_ERROR : Z := 5.
Definition E_UNKNOWN_FS : Z := 4.

(** The superblock of a [FileSystem]. *)
Record FileSystem : Type := MkFS {
  bytes_per_sec : Z;     (* u16 *)
  sec_per_clus : Z;      (* u8 *)
  rsvd_sec_cnt : Z;      (* u16 *)
  fat_cnt : Z;           (* u8 *)
  hidd_sec : Z;          (* u32 *)
  tot_sec : Z;           (* u32 *)
  fat_sz : Z;            (* u32 *)
  root_clus : Z;         (* u32 *)
  first_data_sec : Z;    (* u32 *)
  data_sec_cnt : Z;      (* u32 *)
  data_clus_cnt : Z;     (* u32 *)
  bytes_per_clus : Z     (* u32 *)
}.

(** ** Mounting: [clusterInit] *)

(** "FAT32" *)
Definition fat32_name : list Z := [70; 65; 84; 51; 50].

Definition clusterInit (fs : FileSystem) : M bcache (Z * FileSystem) :=
  let* buf := getBlock 0 true in
  let* d := buf_get buf in
  let BytsPerSec := get16 d 11 in
  let SecPerClus := byte_at d 13 in
  let RsvdSecCnt := get16 d 14 in
  let NumFATs := byte_at d 16 in
  let HiddSec := get32 d 28 in
  let TotSec32 := get32 d 32 in
  let FATSz32 := get32 d 36 in
  let RootClus := get32 d 44 in
  if negb (bool_decide (slice 82 5 d = fat32_name)) then ret (- E_UNKNOWN_FS, fs)
  else if SecPerClus =? 0 then fail Undef
  else
    let first := wrap32 (RsvdSecCnt + wrap32 (NumFATs * FATSz32)) in
    let cnt := wrap32 (TotSec32 - first) in
    let fs' := MkFS BytsPerSec SecPerClus RsvdSecCnt NumFATs HiddSec TotSec32 FATSz32 RootClus
                 first cnt (cnt / SecPerClus) (SecPerClus * BytsPerSec) in
    if negb (BUF_SIZE =? BytsPerSec) then ret (- E_DEV_ERROR, fs')
    else bufRelease buf ;;; ret (0, fs').

(** ** Addresses *)

Definition clusterSec (fs : FileSystem) (cluster : Z) : Z :=
  wrap64 (fs.(first_data_sec) + (cluster - 2) * fs.(sec_per_clus)).
Definition clusterFatSec (fs : FileSystem) (cluster fatno : Z) : Z :=
  wrap64 (wrap32 (fs.(rsvd_sec_cnt) + wrap32 (fatno * fs.(fat_sz))) +
          wrap64 (cluster * 4) / fs.(bytes_per_sec)).
Definition clusterFatSecIndex (fs : FileSystem) (cluster : Z) : Z :=
  (wrap64 (cluster * 4) mod fs.(bytes_per_sec)) / 4.

(** ** State of the file-system code

    The disk blocks, the [alloced_clus] counter, the kernel's memory and that
    of the running process (as [copyIn] and [copyOut] see it), and how many
    pages [kvmAlloc] can still give out. *)
Record fstate (S : Type) : Type := MkFst {
  store : S;
  alloced_clus : Z;
  kmem : Z -> Z;
  umem : Z -> Z;
  kpages : Z
}.
Arguments MkFst {S} _ _ _ _ _.
Arguments store {S} _.
Arguments alloced_clus {S} _.
Arguments kmem {S} _ _.
Arguments umem {S} _ _.
Arguments kpages {S} _.

Section Cluster.
Context {S : Type} {SS : SectorStore S}.

Definition set_store (s' : S) (s : fstate S) : fstate S :=
  MkFst s' s.(alloced_clus) s.(kmem) s.(umem) s.(kpages).
Definition on_store {A : Type} (m : M S A) : M (fstate S) A :=
  fun s => match m s.(store) with
           | Ok (a, s') => Ok (a, set_store s' s)
           | Err f => Err f
           end.
(** [copyOut] or [memcpy] of bytes to [a]; [copyIn] or [memcpy] from [a]. *)
Definition put_bytes (isUser : bool) (a : Z) (l : list Z) : M (fstate S) unit :=
  modify (fun s => if isUser
    then MkFst s.(store) s.(alloced_clus) s.(kmem) (mem_write a l s.(umem)) s.(kpages)
    else MkFst s.(store) s.(alloced_clus) (mem_write a l s.(kmem)) s.(umem) s.(kpages)).
Definition get_bytes (isUser : bool) (a n : Z) : M (fstate S) (list Z) :=
  gets (fun s => mem_read (if isUser then s.(umem) else s.(kmem)) a n).

(** ** Reading and writing a cluster *)

(** The loop over sectors: [i] bytes done, next byte at [secoff] of [secno]. *)
Fixpoint clusterRead_loop (fuel : nat) (fs : FileSystem) (i secno secoff dst n : Z) (isUser : bool)
  : M (fstate S) unit :=
  if i <? n then
    match fuel with
    | O => fail NoFuel
    | Datatypes.S fuel' =>
        let* d := on_store (ss_read secno) in
        let len := Z.min (fs.(bytes_per_sec) - secoff) (n - i) in
        put_bytes isUser (dst + i) (slice secoff len d) ;;;
        clusterRead_loop fuel' fs (i + len) (secno + 1) 0 dst n isUser
    end
  else ret tt.
Definition clusterRead (fs : FileSystem) (cluster offset dst n : Z) (isUser : bool) : M (fstate S) unit :=
  massert (wrap64 (offset + n) <=? fs.(bytes_per_clus)) ;;;
  let secno := wrap64 (clusterSec fs cluster + Z.quot offset fs.(bytes_per_sec)) in
  let secoff := wrap64 (Z.rem offset fs.(bytes_per_sec)) in
  massert (n <=? wrap64 (fs.(bytes_per_clus) - offset)) ;;;
  clusterRead_loop (Z.to_nat (n / 512 + 2)) fs 0 secno secoff dst n isUser.

Fixpoint clusterWrite_loop (fuel : nat) (fs : FileSystem) (i secno secoff src n : Z) (isUser : bool)
  : M (fstate S) unit :=
  if i <? n then
    match fuel with
    | O => fail NoFuel
    | Datatypes.S fuel' =>
        let len := Z.min (fs.(bytes_per_sec) - secoff) (n - i) in
        let* l := get_bytes isUser (src + i) len in
        on_store (ss_modify secno true (splice secoff l)) ;;;
        clusterWrite_loop fuel' fs (i + len) (secno + 1) 0 src n isUser
    end
  else ret tt.
Definition clusterWrite (fs : FileSystem) (cluster offset src n : Z) (isUser : bool) : M (fstate S) unit :=
  massert (wrap64 (offset + n) <=? fs.(bytes_per_clus)) ;;;
  let secno := wrap64 (clusterSec fs cluster + Z.quot offset fs.(bytes_per_sec)) in
  let secoff := wrap64 (Z.rem offset fs.(bytes_per_sec)) in
  massert (n <=? wrap64 (fs.(bytes_per_clus) - offset)) ;;;
  clusterWrite_loop (Z.to_nat (n / 512 + 2)) fs 0 secno secoff src n isUser.

(** ** The allocation table *)

Definition clus_in_range (fs : FileSystem) (cluster : Z) : bool :=
  negb ((cluster <? 2) || (wrap32 (fs.(data_clus_cnt) + 1) <? cluster)).

Fixpoint fatWrite_loop (n : nat) (fs : FileSystem) (fatno cluster content : Z) : M (fstate S) unit :=
  match n with
  | O => ret tt
  | Datatypes.S n' =>
      on_store (ss_modify (clusterFatSec fs cluster fatno) true
                  (put32 (4 * clusterFatSecIndex fs cluster) content)) ;;;
      fatWrite_loop n' fs (fatno + 1) cluster content
  end.
Definition fatWrite (fs : FileSystem) (cluster content : Z) : M (fstate S) unit :=
  massert (clus_in_range fs cluster) ;;;
  fatWrite_loop (Z.to_nat fs.(fat_cnt)) fs 0 cluster content.

Definition fatRead (fs : FileSystem) (cluster : Z) : M (fstate S) Z :=
  if negb (clus_in_range fs cluster) then fail Panic
  else
    let* d := on_store (ss_read (clusterFatSec fs cluster 0)) in
    ret (get32 d (4 * clusterFatSecIndex fs cluster)).

(** ** Allocating and freeing clusters *)

Fixpoint clusterZero_loop (n : nat) (fs : FileSystem) (secno : Z) : M (fstate S) unit :=
  match n with
  | O => ret tt
  | Datatypes.S n' =>
      on_store (ss_modify secno false (fun _ => replicate (Z.to_nat fs.(bytes_per_sec)) 0)) ;;;
      clusterZero_loop n' fs (secno + 1)
  end.
Definition clusterZero (fs : FileSystem) (cluster : Z) : M (fstate S) unit :=
  clusterZero_loop (Z.to_nat (fs.(bytes_per_clus) / fs.(bytes_per_sec))) fs (clusterSec fs cluster).

Definition count_alloced : M (fstate S) unit :=
  modify (fun s => MkFst s.(store) (wrap64 (s.(alloced_clus) + 1)) s.(kmem) s.(umem) s.(kpages)).

Fixpoint clusterAlloc_loop (n : nat) (fs : FileSystem) (cluster prev : Z) : M (fstate S) Z :=
  match n with
  | O => fail Panic
  | Datatypes.S n' =>
      let* e := fatRead fs cluster in
      if e =? 0 then
        (if negb (prev =? 0) then fatWrite fs prev cluster else ret tt) ;;;
        fatWrite fs cluster FAT32_EOF ;;;
        clusterZero fs cluster ;;;
        count_alloced ;;;
        ret cluster
      else clusterAlloc_loop n' fs (cluster + 1) prev
  end.
Definition clusterAlloc (fs : FileSystem) (prev : Z) : M (fstate S) Z :=
  let start := if prev =? 0 then 2 else wrap64 (prev + 1) in
  clusterAlloc_loop (Z.to_nat (wrap32 (fs.(data_clus_cnt) + 2) - start)) fs start prev.

Definition clusterFree (fs : FileSystem) (cluster prev : Z) : M (fstate S) unit :=
  if prev =? 0 then fatWrite fs cluster 0
  else fatWrite fs prev FAT32_EOF ;;; fatWrite fs cluster 0.

(** ** Chains *)

(** The loop of [fileBlockNo]: [None] for the early [return -1]. *)
Fixpoint follow (n : nat) (fs : FileSystem) (cur : Z) : M (fstate S) (option Z) :=
  match n with
  | O => ret (Some cur)
  | Datatypes.S n' =>
      let* c := fatRead fs cur in
      if negb (FAT32_NOT_END_CLUSTER c) then ret None else follow n' fs c
  end.
Definition fileBlockNo (fs : FileSystem) (firstclus fblockno : Z) : M (fstate S) Z :=
  let* r := follow (Z.to_nat (fblockno / fs.(sec_per_clus))) fs (wrap32 firstclus) in
  match r with
  | None => ret (-1)
  | Some cur => ret (wrap64 (clusterSec fs cur + fblockno mod fs.(sec_per_clus)))
  end.

Fixpoint countClusters_loop (fuel : nat) (fs : FileSystem) (clus i : Z) : M (fstate S) Z :=
  if FAT32_NOT_END_CLUSTER clus then
    match fuel with
    | O => fail NoFuel
    | Datatypes.S fuel' =>
        let* c := fatRead fs (wrap64 clus) in
        countClusters_loop fuel' fs (sext32 c) (sext32 (i + 1))
    end
  else ret i.
Definition countClusters (fuel : nat) (fs : FileSystem) (first_clus : Z) : M (fstate S) Z :=
  let clus := sext32 first_clus in
  if clus =? 0 then ret 0 else countClusters_loop fuel fs clus 0.

Fixpoint clus_sequence_free (fuel : nat) (fs : FileSystem) (clus : Z) : M (fstate S) unit :=
  match fuel with
  | O => fail NoFuel
  | Datatypes.S fuel' =>
      let* c := fatRead fs (wrap64 clus) in
      let nxt_clus := sext32 c in
      fatWrite fs (wrap64 clus) 0 ;;;
      if negb (FAT32_NOT_END_CLUSTER nxt_clus) then ret tt
      else clus_sequence_free fuel' fs nxt_clus
  end.
End Cluster.

(** ** The layout of a mounted file system *)

Record fs_ok (fs : FileSystem) : Prop := {
  ok_bps : fs.(bytes_per_sec) = 512;
  ok_spc : 1 <= fs.(sec_per_clus) < 256;
  ok_rsvd : 0 <= fs.(rsvd_sec_cnt) < 65536;
  ok_fats : 1 <= fs.(fat_cnt) < 256;
  ok_fatsz : 0 <= fs.(fat_sz);
  ok_first : fs.(first_data_sec) = fs.(rsvd_sec_cnt) + fs.(fat_cnt) * fs.(fat_sz);
  ok_clus : 0 <= fs.(data_clus_cnt) <= 268435440;
  ok_cover : 4 * (fs.(data_clus_cnt) + 2) <= 512 * fs.(fat_sz);
  ok_end : fs.(first_data_sec) + fs.(data_clus_cnt) * fs.(sec_per_clus) < 4294967296;
  ok_bpc : fs.(bytes_per_clus) = 512 * fs.(sec_per_clus)
}.

Definition valid_clus (fs : FileSystem) (c : Z) : Prop := 2 <= c < fs.(data_clus_cnt) + 2.

Definition fat_addr (fs : FileSystem) (k c : Z) : Z :=
  512 * (fs.(rsvd_sec_cnt) + k * fs.(fat_sz)) + 4 * c.
Definition clus_addr (fs : FileSystem) (c : Z) : Z :=
  512 * (fs.(first_data_sec) + (c - 2) * fs.(sec_per_clus)).

(** The disk as an array of bytes, and the words of the table in it. *)
Definition dbyte (v : Z -> list Z) (p : Z) : Z := byte_at (v (p / 512)) (p mod 512).
Definition word_at (d : Z -> Z) (a : Z) : Z :=
  d a + 256 * (d (a + 1) + 256 * (d (a + 2) + 256 * d (a + 3))).
Definition fatv (fs : FileSystem) (d : Z -> Z) (k c : Z) : Z := word_at d (fat_addr fs k c).

(** Overwriting [n] bytes at [a] by [g], and a word at [a]. *)
Definition dset (d : Z -> Z) (a n : Z) (g : Z -> Z) : Z -> Z :=
  fun p => if (a <=? p) && (p <? a + n) then g (p - a) else d p.
Definition wset (d : Z -> Z) (a v : Z) : Z -> Z := dset d a 4 (byte_at (le_bytes 4 v)).

Lemma word_at_wset_same d a v : 0 <= v < 4294967296 -> word_at (wset d a v) a = v.
Proof.
  intros Hv. unfold word_at, wset, dset.
  rewrite (proj2 (andb_true_iff _ _)) by lia. rewrite (proj2 (andb_true_iff _ _)) by lia.
  rewrite (proj2 (andb_true_iff _ _)) by lia. rewrite (proj2 (andb_true_iff _ _)) by lia.
  replace (a - a) with 0 by lia. replace (a + 1 - a) with 1 by lia. replace (a + 2 - a) with 2 by lia.
  replace (a + 3 - a) with 3 by lia. now apply le_bytes4.
Qed.
Lemma dset_out d a n g p : p < a \/ a + n <= p -> dset d a n g p = d p.
Proof. intros H. unfold dset. destruct (Z.leb_spec a p), (Z.ltb_spec p (a + n)); cbn; auto; lia. Qed.
Lemma dset_in d a n g p : a <= p < a + n -> dset d a n g p = g (p - a).
Proof. intros H. unfold dset. destruct (Z.leb_spec a p), (Z.ltb_spec p (a + n)); cbn; auto; lia. Qed.
(** Two consecutive pieces make one. *)
Lemma dset_app m a n k b n' g g' h x :
  0 <= k <= n -> n' = n - k -> (k < n -> b = a + k) ->
  (forall i, 0 <= i < k -> g i = h i) -> (forall i, 0 <= i < n - k -> g' i = h (k + i)) ->
  dset (dset m a k g) b n' g' x = dset m a n h x.
Proof.
  intros Hk -> Hb Hg Hg'.
  destruct (Z_lt_le_dec k n) as [Hlt|Hge].
  - rewrite Hb by auto. clear b Hb. destruct (Z_lt_le_dec x (a + k)), (Z_lt_le_dec x a).
    + now rewrite !dset_out by lia.
    + rewrite dset_out by lia. rewrite !dset_in by lia. apply Hg. lia.
    + lia.
    + destruct (Z_lt_le_dec x (a + n)).
      * rewrite !dset_in by lia. rewrite Hg' by lia. f_equal. lia.
      * now rewrite !dset_out by lia.
  - assert (k = n) as -> by lia. rewrite dset_out by lia.
    destruct (Z_le_gt_dec a x), (Z_lt_le_dec x (a + n)).
    + rewrite !dset_in by lia. apply Hg. lia.
    + now rewrite !dset_out by lia.
    + now rewrite !dset_out by lia.
    + now rewrite !dset_out by lia.
Qed.
Lemma dset_none m a n g x : n <= 0 -> dset m a n g x = m x.
Proof. intros. apply dset_out. lia. Qed.
Lemma dset_base m m' a n g x : m x = m' x -> dset m a n g x = dset m' a n g x.
Proof. intros H. unfold dset. now rewrite H. Qed.
Lemma mem_write_dset a l m x : mem_write a l m x = dset m a (Z.of_nat (length l)) (byte_at l) x.
Proof. reflexivity. Qed.
Lemma word_at_dset_other d a n g b : b + 4 <= a \/ a + n <= b -> word_at (dset d a n g) b = word_at d b.
Proof. intros H. unfold word_at. rewrite !dset_out by lia. reflexivity. Qed.
Lemma word_at_ext d d' a : 0 <= a -> (forall p, 0 <= p -> d p = d' p) -> word_at d a = word_at d' a.
Proof. intros Ha H. unfold word_at. rewrite !H by lia. reflexivity. Qed.

Section Layout.
Context (fs : FileSystem) (Hfs : fs_ok fs).

Lemma clusterSec_eq c : valid_clus fs c -> 512 * clusterSec fs c = clus_addr fs c.
Proof.
  destruct Hfs. unfold valid_clus, clusterSec, clus_addr. intros Hc.
  rewrite wrap64_small; [reflexivity|]. nia.
Qed.
Lemma clusterFatSec_eq c k :
  valid_clus fs c -> 0 <= k < fs.(fat_cnt) ->
  512 * clusterFatSec fs c k + 4 * clusterFatSecIndex fs c = fat_addr fs k c /\
  0 <= clusterFatSec fs c k /\ 0 <= 4 * clusterFatSecIndex fs c <= 508.
Proof.
  intros Hc Hk. unfold valid_clus in Hc. pose proof (ok_bps _ Hfs) as Eb.
  assert (Hks : k * fs.(fat_sz) + fs.(fat_sz) <= fs.(fat_cnt) * fs.(fat_sz)) by (destruct Hfs; nia).
  assert (Hk0 : 0 <= k * fs.(fat_sz)) by (destruct Hfs; nia).
  assert (Hf : 0 <= fs.(data_clus_cnt) * fs.(sec_per_clus)) by (destruct Hfs; nia).
  unfold clusterFatSec, clusterFatSecIndex, fat_addr. rewrite Eb.
  rewrite (wrap64_small (c * 4)) by (destruct Hfs; lia).
  rewrite (wrap32_small (k * _)) by (destruct Hfs; lia).
  rewrite wrap32_small by (destruct Hfs; lia).
  rewrite wrap64_small by (destruct Hfs; zlia). destruct Hfs; zlia.
Qed.
Lemma fat_addr_bound k c :
  valid_clus fs c -> 0 <= k < fs.(fat_cnt) ->
  0 <= fat_addr fs k c /\ fat_addr fs k c + 4 <= 512 * fs.(first_data_sec).
Proof.
  intros Hc Hk. unfold valid_clus in Hc.
  assert (Hks : k * fs.(fat_sz) + fs.(fat_sz) <= fs.(fat_cnt) * fs.(fat_sz)) by (destruct Hfs; nia).
  assert (Hk0 : 0 <= k * fs.(fat_sz)) by (destruct Hfs; nia).
  destruct Hfs. unfold fat_addr. lia.
Qed.
Lemma fat_addr_disjoint k k' c c' :
  valid_clus fs c -> valid_clus fs c' -> 0 <= k < fs.(fat_cnt) -> 0 <= k' < fs.(fat_cnt) ->
  (k, c) <> (k', c') ->
  fat_addr fs k c + 4 <= fat_addr fs k' c' \/ fat_addr fs k' c' + 4 <= fat_addr fs k c.
Proof.
  intros Hc Hc' Hk Hk' Hne. unfold valid_clus in *. unfold fat_addr. destruct Hfs.
  destruct (Z.lt_trichotomy k k') as [Hlt|[->|Hlt]].
  - assert (k * fs.(fat_sz) + fs.(fat_sz) <= k' * fs.(fat_sz)) by nia. lia.
  - assert (c <> c') by congruence. lia.
  - assert (k' * fs.(fat_sz) + fs.(fat_sz) <= k * fs.(fat_sz)) by nia. lia.
Qed.
Lemma clus_addr_bound c : valid_clus fs c -> 512 * fs.(first_data_sec) <= clus_addr fs c.
Proof. intros Hc. unfold valid_clus in Hc. unfold clus_addr. destruct Hfs. nia. Qed.
Lemma first_data_nonneg : 0 <= fs.(first_data_sec).
Proof. destruct Hfs. nia. Qed.
Lemma clus_addr_disjoint c c' :
  c <> c' -> clus_addr fs c + fs.(bytes_per_clus) <= clus_addr fs c' \/
             clus_addr fs c' + fs.(bytes_per_clus) <= clus_addr fs c.
Proof.
  intros Hne. unfold clus_addr. destruct Hfs.
  destruct (Z.lt_total c c') as [H|[H|H]]; [left|lia|right]; nia.
Qed.
Lemma clus_in_range_iff c : 0 <= c -> clus_in_range fs c = true <-> valid_clus fs c.
Proof.
  intros Hc. unfold clus_in_range, valid_clus. pose proof (ok_clus _ Hfs).
  rewrite wrap32_small by lia. rewrite negb_true_iff, orb_false_iff, Z.ltb_ge, Z.ltb_ge. lia.
Qed.
End Layout.

(** ** Effects on the disk *)

Section Ops.
Context {S : Type} {SS : SectorStore S} {SL : SectorStoreLaws S}.

Definition disk_of (s : fstate S) : Z -> Z := dbyte (ss_view s.(store)).

(** [s'] has the bytes [d'] on disk; memories and free pages are those of [s]
    ([alloced_clus] is a statistic nothing reads). *)
Record disk_step (s s' : fstate S) (d' : Z -> Z) : Prop := {
  ds_inv : ss_inv s'.(store);
  ds_disk : forall p, 0 <= p -> disk_of s' p = d' p;
  ds_kmem : s'.(kmem) = s.(kmem);
  ds_umem : s'.(umem) = s.(umem);
  ds_kpages : s'.(kpages) = s.(kpages)
}.

Lemma disk_step_refl s : ss_inv s.(store) -> disk_step s s (disk_of s).
Proof. now constructor. Qed.
Lemma disk_step_ext s s' d d' :
  disk_step s s' d -> (forall p, 0 <= p -> d p = d' p) -> disk_step s s' d'.
Proof. intros [] H. constructor; auto. intros p Hp. rewrite <- H by auto. auto. Qed.
Lemma disk_step_trans s s1 s2 d1 d2 : disk_step s s1 d1 -> disk_step s1 s2 d2 -> disk_step s s2 d2.
Proof. intros [] []. constructor; congruence || auto. Qed.

Lemma read_sector s sec :
  ss_inv s.(store) -> 0 <= sec ->
  exists s', on_store (ss_read sec) s = Ok (ss_view s.(store) sec, s') /\ disk_step s s' (disk_of s).
Proof.
  intros Hi Hs. unfold on_store. destruct (ss_read_ok s.(store) sec Hi Hs) as (s1 & -> & Hi1 & Hv).
  eexists. split; [reflexivity|]. constructor; auto.
  intros p _. unfold disk_of, dbyte. cbn. now rewrite Hv.
Qed.
Lemma view_byte s sec o : 0 <= o < 512 -> byte_at (ss_view s.(store) sec) o = disk_of s (512 * sec + o).
Proof.
  intros. unfold disk_of, dbyte. replace ((512 * sec + o) / 512) with sec by zlia.
  now replace ((512 * sec + o) mod 512) with o by zlia.
Qed.
Lemma store_view_len s sec : ss_inv s.(store) -> Z.of_nat (length (ss_view s.(store) sec)) = 512.
Proof. intros Hi. rewrite (ss_view_len _ _ Hi). reflexivity. Qed.

Lemma write_sector s sec off l :
  ss_inv s.(store) -> 0 <= sec -> 0 <= off -> off + Z.of_nat (length l) <= 512 ->
  exists s', on_store (ss_modify sec true (splice off l)) s = Ok (tt, s') /\
    disk_step s s' (dset (disk_of s) (512 * sec + off) (Z.of_nat (length l)) (byte_at l)).
Proof.
  intros Hi Hs Ho Hl. unfold on_store. pose proof (store_view_len s sec Hi) as Hlen.
  destruct (ss_modify_ok s.(store) sec (splice off l) Hi Hs) as (s1 & -> & Hi1 & Hv).
  { rewrite length_splice by lia. now apply ss_view_len. }
  eexists. split; [reflexivity|]. constructor; auto.
  intros p Hp. unfold disk_of at 1. unfold dbyte. cbn [store set_store]. rewrite Hv.
  destruct (Z.eqb_spec (p / 512) sec) as [E|E].
  - rewrite byte_at_splice by zlia. unfold dset.
    replace (p mod 512 - off) with (p - (512 * sec + off)) by zlia.
    replace ((off <=? p mod 512) && (p mod 512 <? off + Z.of_nat (length l)))
      with ((512 * sec + off <=? p) && (p <? 512 * sec + off + Z.of_nat (length l))).
    + destruct (_ && _); [reflexivity|]. rewrite view_byte by zlia. f_equal. zlia.
    + apply eq_true_iff_eq. rewrite !andb_true_iff, !Z.leb_le, !Z.ltb_lt. zlia.
  - rewrite dset_out by zlia. reflexivity.
Qed.

Lemma fill_sector s sec d :
  ss_inv s.(store) -> 0 <= sec -> length d = 512%nat ->
  exists s', on_store (ss_modify sec false (fun _ => d)) s = Ok (tt, s') /\
    disk_step s s' (dset (disk_of s) (512 * sec) 512 (byte_at d)).
Proof.
  intros Hi Hs Hl. unfold on_store.
  destruct (ss_fill_ok s.(store) sec d Hi Hs Hl) as (s1 & -> & Hi1 & Hv).
  eexists. split; [reflexivity|]. constructor; auto.
  intros p Hp. unfold disk_of at 1. unfold dbyte. cbn [store set_store]. rewrite Hv.
  destruct (Z.eqb_spec (p / 512) sec) as [E|E].
  - rewrite dset_in by zlia. f_equal. zlia.
  - rewrite dset_out by zlia. reflexivity.
Qed.

Context (fs : FileSystem) (Hfs : fs_ok fs).

Definition mem_of (isUser : bool) (s : fstate S) : Z -> Z := if isUser then s.(umem) else s.(kmem).

(** ** Cluster contents *)

Lemma clusterWrite_loop_ok fuel i secno secoff src n isUser s :
  ss_inv s.(store) -> 0 <= secno -> 0 <= secoff < 512 -> 0 <= i <= n ->
  secoff + (n - i) <= 512 * Z.of_nat fuel ->
  exists s', clusterWrite_loop fuel fs i secno secoff src n isUser s = Ok (tt, s') /\
    disk_step s s' (dset (disk_of s) (512 * secno + secoff) (n - i) (fun k => mem_of isUser s (src + i + k))).
Proof.
  revert i secno secoff s. induction fuel as [|fuel IH]; intros i secno secoff s Hi Hs Ho Hn Hf;
    cbn [clusterWrite_loop].
  - destruct (Z.ltb_spec i n); [lia|]. eexists. split; [reflexivity|].
    eapply disk_step_ext; [apply disk_step_refl, Hi|]. intros p _. now rewrite dset_out by lia.
  - destruct (Z.ltb_spec i n) as [Hlt|Hge].
    2:{ eexists. split; [reflexivity|]. eapply disk_step_ext; [apply disk_step_refl, Hi|].
        intros p _. now rewrite dset_out by lia. }
    rewrite (ok_bps _ Hfs). set (len := Z.min (512 - secoff) (n - i)).
    unfold get_bytes. erewrite bind_run by reflexivity.
    set (l := mem_read _ _ _). assert (Hl : Z.of_nat (length l) = len) by (apply length_mem_read; lia).
    destruct (write_sector s secno secoff l Hi Hs) as (s1 & E1 & H1); [lia|lia|].
    erewrite bind_run by exact E1.
    destruct (IH (i + len) (secno + 1) 0 s1) as (s2 & E2 & H2);
      [apply (ds_inv _ _ _ H1)|lia|lia|lia|lia|].
    exists s2. split; [exact E2|]. eapply disk_step_ext; [eapply disk_step_trans; eassumption|].
    assert (Em : mem_of isUser s1 = mem_of isUser s).
    { unfold mem_of. now rewrite (ds_kmem _ _ _ H1), (ds_umem _ _ _ H1). }
    intros p Hp. rewrite (dset_base _ _ _ _ _ _ (ds_disk _ _ _ H1 p Hp)), Em, Hl. apply dset_app; try lia.
    + intros k Hk. unfold l. now rewrite byte_at_mem_read by lia.
    + intros k Hk. f_equal. lia.
Qed.

Lemma cluster_pos c offset n :
  valid_clus fs c -> 0 <= offset -> 0 <= n -> offset + n <= fs.(bytes_per_clus) ->
  wrap64 (offset + n) <= fs.(bytes_per_clus) /\ n <= wrap64 (fs.(bytes_per_clus) - offset) /\
  0 <= wrap64 (clusterSec fs c + Z.quot offset 512) /\
  0 <= wrap64 (Z.rem offset 512) < 512 /\
  512 * wrap64 (clusterSec fs c + Z.quot offset 512) + wrap64 (Z.rem offset 512) = clus_addr fs c + offset.
Proof.
  intros Hc Ho Hn Hl. rewrite Z.quot_div_nonneg, Z.rem_mod_nonneg by lia.
  pose proof (ok_spc _ Hfs). pose proof (ok_bpc _ Hfs).
  rewrite (wrap64_small (offset + n)), (wrap64_small (fs.(bytes_per_clus) - offset)) by lia.
  pose proof (clusterSec_eq fs Hfs c Hc) as E. pose proof (clus_addr_bound fs Hfs c Hc) as Hb.
  pose proof (first_data_nonneg fs Hfs).
  assert (Hs : 0 <= clusterSec fs c < 4294967296).
  { destruct Hfs. unfold clus_addr, valid_clus in *. nia. }
  rewrite (wrap64_small (offset mod 512)), wrap64_small by zlia. zlia.
Qed.

Lemma clusterWrite_ok c offset src n isUser s :
  ss_inv s.(store) -> valid_clus fs c -> 0 <= offset -> 0 <= n -> offset + n <= fs.(bytes_per_clus) ->
  exists s', clusterWrite fs c offset src n isUser s = Ok (tt, s') /\
    disk_step s s' (dset (disk_of s) (clus_addr fs c + offset) n (fun k => mem_of isUser s (src + k))).
Proof.
  intros Hi Hc Ho Hn Hl. destruct (cluster_pos c offset n Hc Ho Hn Hl) as (H1 & H2 & H3 & H4 & H5).
  unfold clusterWrite. rewrite (ok_bps _ Hfs).
  rewrite massert_run by lia.
  rewrite massert_run by lia.
  destruct (clusterWrite_loop_ok (Z.to_nat (n / 512 + 2)) 0 _ _ src n isUser s Hi H3 H4) as (s' & E & H);
    [lia|zlia|].
  exists s'. split; [exact E|]. rewrite H5 in H. rewrite Z.sub_0_r in H.
  eapply disk_step_ext; [exact H|]. intros p _. unfold dset. now rewrite Z.add_0_r.
Qed.

(** [s'] has the memory [m'] ([isUser] says whose); disk and the other memory
    are those of [s]. *)
Record mem_step (isUser : bool) (s s' : fstate S) (m' : Z -> Z) : Prop := {
  ms_inv : ss_inv s'.(store);
  ms_disk : forall p, 0 <= p -> disk_of s' p = disk_of s p;
  ms_mem : forall x, mem_of isUser s' x = m' x;
  ms_other : mem_of (negb isUser) s' = mem_of (negb isUser) s;
  ms_kpages : s'.(kpages) = s.(kpages)
}.
Lemma mem_step_ext u s s' m m' : mem_step u s s' m -> (forall x, m x = m' x) -> mem_step u s s' m'.
Proof. intros [] H. constructor; auto. intros x. rewrite <- H. auto. Qed.
Lemma mem_step_refl u s : ss_inv s.(store) -> mem_step u s s (mem_of u s).
Proof. now constructor. Qed.
Lemma mem_step_trans u s s1 s2 m1 m2 : mem_step u s s1 m1 -> mem_step u s1 s2 m2 -> mem_step u s s2 m2.
Proof.
  intros [] []. constructor; auto; try congruence. intros p Hp. rewrite ms_disk1 by auto. auto.
Qed.
Lemma put_bytes_ok u a l s : ss_inv s.(store) ->
  exists s', put_bytes u a l s = Ok (tt, s') /\ mem_step u s s' (mem_write a l (mem_of u s)).
Proof.
  intros Hi. unfold put_bytes, modify. eexists. split; [reflexivity|].
  destruct u; constructor; auto.
Qed.

Lemma clusterRead_loop_ok fuel i secno secoff dst n u s :
  ss_inv s.(store) -> 0 <= secno -> 0 <= secoff < 512 -> 0 <= i <= n ->
  secoff + (n - i) <= 512 * Z.of_nat fuel ->
  exists s', clusterRead_loop fuel fs i secno secoff dst n u s = Ok (tt, s') /\
    mem_step u s s' (dset (mem_of u s) (dst + i) (n - i) (fun k => disk_of s (512 * secno + secoff + k))).
Proof.
  revert i secno secoff s. induction fuel as [|fuel IH]; intros i secno secoff s Hi Hs Ho Hn Hf;
    cbn [clusterRead_loop].
  - destruct (Z.ltb_spec i n); [lia|]. eexists. split; [reflexivity|].
    eapply mem_step_ext; [apply mem_step_refl, Hi|]. intros p. now rewrite dset_out by lia.
  - destruct (Z.ltb_spec i n) as [Hlt|Hge].
    2:{ eexists. split; [reflexivity|]. eapply mem_step_ext; [apply mem_step_refl, Hi|].
        intros p. now rewrite dset_out by lia. }
    rewrite (ok_bps _ Hfs). set (len := Z.min (512 - secoff) (n - i)).
    destruct (read_sector s secno Hi Hs) as (s0 & E0 & H0). erewrite bind_run by exact E0. cbv zeta.
    set (l := slice secoff len (ss_view (store s) secno)).
    pose proof (store_view_len s secno Hi) as Hv.
    assert (Hl : Z.of_nat (length l) = len) by (apply length_slice; lia).
    destruct (put_bytes_ok u (dst + i) l s0) as (s1 & E1 & H1); [apply (ds_inv _ _ _ H0)|].
    erewrite bind_run by exact E1.
    destruct (IH (i + len) (secno + 1) 0 s1) as (s2 & E2 & H2);
      [apply (ms_inv _ _ _ _ H1)|lia|lia|lia|lia|].
    exists s2. split; [exact E2|].
    assert (Hm0 : forall v, mem_of v s0 = mem_of v s).
    { intros []; [apply (ds_umem _ _ _ H0)|apply (ds_kmem _ _ _ H0)]. }
    assert (Hd1 : forall p, 0 <= p -> disk_of s1 p = disk_of s p).
    { intros p Hp. rewrite (ms_disk _ _ _ _ H1), (ds_disk _ _ _ H0) by auto. reflexivity. }
    assert (H01 : mem_step u s s1 (mem_write (dst + i) l (mem_of u s))).
    { constructor; [apply H1|exact Hd1| | |].
      - intros x. rewrite (ms_mem _ _ _ _ H1). unfold mem_write. now rewrite Hm0.
      - rewrite (ms_other _ _ _ _ H1). apply Hm0.
      - rewrite (ms_kpages _ _ _ _ H1). apply H0. }
    eapply mem_step_ext; [eapply mem_step_trans; eassumption|].
    intros x. erewrite dset_base by (rewrite (ms_mem _ _ _ _ H01), mem_write_dset, Hl; reflexivity).
    apply dset_app; try lia.
    + intros k Hk. unfold l. rewrite byte_at_slice by lia. rewrite view_byte by lia. f_equal; lia.
    + intros k Hk. rewrite Hd1 by lia. f_equal. lia.
Qed.

Lemma clusterRead_ok c offset dst n u s :
  ss_inv s.(store) -> valid_clus fs c -> 0 <= offset -> 0 <= n -> offset + n <= fs.(bytes_per_clus) ->
  exists s', clusterRead fs c offset dst n u s = Ok (tt, s') /\
    mem_step u s s' (dset (mem_of u s) dst n (fun k => disk_of s (clus_addr fs c + offset + k))).
Proof.
  intros Hi Hc Ho Hn Hl. destruct (cluster_pos c offset n Hc Ho Hn Hl) as (H1 & H2 & H3 & H4 & H5).
  unfold clusterRead. rewrite (ok_bps _ Hfs). rewrite massert_run by lia. rewrite massert_run by lia.
  destruct (clusterRead_loop_ok (Z.to_nat (n / 512 + 2)) 0 _ _ dst n u s Hi H3 H4) as (s' & E & H);
    [lia|zlia|].
  exists s'. split; [exact E|]. rewrite H5, Z.add_0_r, Z.sub_0_r in H. exact H.
Qed.

(** ** The table *)

Lemma fatRead_ok c s :
  ss_inv s.(store) -> valid_clus fs c ->
  exists s', fatRead fs c s = Ok (fatv fs (disk_of s) 0 c, s') /\ disk_step s s' (disk_of s).
Proof.
  intros Hi Hc. unfold fatRead.
  rewrite (proj2 (clus_in_range_iff fs Hfs c ltac:(unfold valid_clus in Hc; lia)) Hc). cbn [negb].
  destruct (clusterFatSec_eq fs Hfs c 0 Hc) as (E1 & E2 & E3); [destruct Hfs; lia|].
  destruct (read_sector s _ Hi E2) as (s1 & E & H). erewrite bind_run by exact E.
  exists s1. split; [|exact H]. unfold ret. do 2 f_equal.
  rewrite get32_bytes by (rewrite ?store_view_len by auto; lia).
  rewrite !view_byte by lia. unfold fatv, word_at. rewrite <- E1. now rewrite !Z.add_assoc.
Qed.
Lemma fatRead_bad c s : ~ valid_clus fs c -> 0 <= c -> fatRead fs c s = Err Panic.
Proof.
  intros Hc H0. unfold fatRead. destruct (clus_in_range fs c) eqn:E; [|reflexivity].
  apply clus_in_range_iff in E; auto. contradiction.
Qed.

(** Copies [k .. k+n-1] of the entry of [c] set to [v]. *)
Fixpoint fat_set (n : nat) (d : Z -> Z) (k c v : Z) : Z -> Z :=
  match n with
  | O => d
  | Datatypes.S n' => fat_set n' (wset d (fat_addr fs k c) v) (k + 1) c v
  end.

Lemma fat_set_ext n d d' k c v p :
  (forall q, 0 <= q -> d q = d' q) -> 0 <= p -> fat_set n d k c v p = fat_set n d' k c v p.
Proof.
  revert d d' k. induction n as [|n IH]; intros d d' k H Hp; cbn [fat_set]; [auto|].
  apply IH; [|exact Hp]. intros q Hq. unfold wset, dset. destruct (_ && _); auto.
Qed.
Lemma fatWrite_loop_ok n k c v s :
  ss_inv s.(store) -> valid_clus fs c -> 0 <= k -> k + Z.of_nat n <= fs.(fat_cnt) ->
  exists s', fatWrite_loop n fs k c v s = Ok (tt, s') /\ disk_step s s' (fat_set n (disk_of s) k c v).
Proof.
  revert k s. induction n as [|n IH]; intros k s Hi Hc Hk Hn; cbn [fatWrite_loop fat_set].
  - eexists. split; [reflexivity|]. now apply disk_step_refl.
  - destruct (clusterFatSec_eq fs Hfs c k Hc) as (E1 & E2 & E3); [lia|].
    destruct (write_sector s (clusterFatSec fs c k) (4 * clusterFatSecIndex fs c) (le_bytes 4 v) Hi E2)
      as (s1 & E & H); [lia|rewrite length_le_bytes; lia|].
    unfold put32. erewrite bind_run by exact E.
    destruct (IH (k + 1) s1) as (s2 & Es2 & H2); [apply H|exact Hc|lia|lia|].
    exists s2. split; [exact Es2|]. eapply disk_step_trans; [exact H|].
    eapply disk_step_ext; [exact H2|]. intros p Hp. apply fat_set_ext; [|exact Hp].
    intros q Hq. rewrite (ds_disk _ _ _ H) by auto. rewrite length_le_bytes, E1. reflexivity.
Qed.

Definition fat_upd (d : Z -> Z) (c v : Z) : Z -> Z := fat_set (Z.to_nat fs.(fat_cnt)) d 0 c v.

Lemma fatWrite_ok c v s :
  ss_inv s.(store) -> valid_clus fs c ->
  exists s', fatWrite fs c v s = Ok (tt, s') /\ disk_step s s' (fat_upd (disk_of s) c v).
Proof.
  intros Hi Hc. unfold fatWrite. rewrite massert_run
    by (apply clus_in_range_iff; [auto|unfold valid_clus in Hc; lia|exact Hc]).
  apply fatWrite_loop_ok; auto; [lia|]. destruct Hfs; lia.
Qed.

Lemma fat_set_data n d k c v p :
  valid_clus fs c -> 0 <= k -> k + Z.of_nat n <= fs.(fat_cnt) ->
  512 * fs.(first_data_sec) <= p -> fat_set n d k c v p = d p.
Proof.
  revert d k. induction n as [|n IH]; intros d k Hc Hk Hn Hp; cbn [fat_set]; [reflexivity|].
  rewrite IH by (auto; lia). unfold wset. apply dset_out. right.
  destruct (fat_addr_bound fs Hfs k c Hc); lia.
Qed.
Lemma fat_set_entry n d k c v k' c' :
  valid_clus fs c -> valid_clus fs c' -> 0 <= k -> k + Z.of_nat n <= fs.(fat_cnt) ->
  0 <= k' < fs.(fat_cnt) -> 0 <= v < 4294967296 ->
  fatv fs (fat_set n d k c v) k' c' =
  if (c' =? c) && (k <=? k') && (k' <? k + Z.of_nat n) then v else fatv fs d k' c'.
Proof.
  revert d k. induction n as [|n IH]; intros d k Hc Hc' Hk Hn Hk' Hv; cbn [fat_set].
  - destruct (Z.eqb_spec c' c), (Z.leb_spec k k'), (Z.ltb_spec k' (k + Z.of_nat 0)); cbn [andb]; auto; lia.
  - rewrite IH by (auto; lia). unfold fatv.
    destruct (decide ((k, c) = (k', c'))) as [[= -> ->]|Hne].
    + rewrite word_at_wset_same, Z.eqb_refl by auto. cbn [andb].
      destruct (Z.leb_spec k' k'), (Z.ltb_spec k' (k' + Z.of_nat (Datatypes.S n))); try lia.
      now destruct (_ && _).
    + unfold wset. rewrite word_at_dset_other
        by (destruct (fat_addr_disjoint fs Hfs k k' c c'); auto; lia).
      replace ((c' =? c) && (k <=? k') && (k' <? k + Z.of_nat (Datatypes.S n)))
        with ((c' =? c) && (k + 1 <=? k') && (k' <? k + 1 + Z.of_nat n)); [reflexivity|].
      destruct (Z.eqb_spec c' c) as [Ec|]; cbn [andb]; [|reflexivity].
      assert (k <> k') by congruence.
      destruct (Z.leb_spec k k'), (Z.leb_spec (k + 1) k'), (Z.ltb_spec k' (k + Z.of_nat (Datatypes.S n))),
        (Z.ltb_spec k' (k + 1 + Z.of_nat n)); cbn [andb]; auto; lia.
Qed.
Lemma fat_upd_data d c v p :
  valid_clus fs c -> 512 * fs.(first_data_sec) <= p -> fat_upd d c v p = d p.
Proof. intros. apply fat_set_data; auto; destruct Hfs; lia. Qed.
Lemma fat_upd_entry d c v k c' :
  valid_clus fs c -> valid_clus fs c' -> 0 <= k < fs.(fat_cnt) -> 0 <= v < 4294967296 ->
  fatv fs (fat_upd d c v) k c' = if c' =? c then v else fatv fs d k c'.
Proof.
  intros. unfold fat_upd. rewrite fat_set_entry by (auto; destruct Hfs; lia).
  replace ((c' =? c) && (0 <=? k) && (k <? 0 + Z.of_nat (Z.to_nat (fat_cnt fs)))) with (c' =? c); [reflexivity|].
  zcases.
Qed.

(** ** Allocation *)

Lemma clusterZero_loop_ok n sec s :
  ss_inv s.(store) -> 0 <= sec ->
  exists s', clusterZero_loop n fs sec s = Ok (tt, s') /\
    disk_step s s' (dset (disk_of s) (512 * sec) (512 * Z.of_nat n) (fun _ => 0)).
Proof.
  revert sec s. induction n as [|n IH]; intros sec s Hi Hs; cbn [clusterZero_loop].
  - eexists. split; [reflexivity|]. eapply disk_step_ext; [now apply disk_step_refl|].
    intros p _. now rewrite dset_out by lia.
  - rewrite (ok_bps _ Hfs).
    destruct (fill_sector s sec (replicate (Z.to_nat 512) 0) Hi Hs) as (s1 & E1 & H1); [reflexivity|].
    erewrite bind_run by exact E1. destruct (IH (sec + 1) s1) as (s2 & E2 & H2); [apply H1|lia|].
    exists s2. split; [exact E2|]. eapply disk_step_ext; [eapply disk_step_trans; eassumption|].
    intros p Hp. unfold dset at 1 2. rewrite (ds_disk _ _ _ H1) by auto. unfold dset.
    destruct (Z_le_gt_dec (512 * sec) p), (Z_lt_le_dec p (512 * sec + 512)).
    + rewrite byte_at_replicate by lia. zcases.
    + zcases.
    + zcases.
    + zcases.
Qed.
Lemma clusterZero_ok c s :
  ss_inv s.(store) -> valid_clus fs c ->
  exists s', clusterZero fs c s = Ok (tt, s') /\
    disk_step s s' (dset (disk_of s) (clus_addr fs c) fs.(bytes_per_clus) (fun _ => 0)).
Proof.
  intros Hi Hc. unfold clusterZero. pose proof (clusterSec_eq fs Hfs c Hc) as E.
  pose proof (clus_addr_bound fs Hfs c Hc). pose proof (first_data_nonneg fs Hfs).
  destruct (clusterZero_loop_ok (Z.to_nat (fs.(bytes_per_clus) / fs.(bytes_per_sec))) (clusterSec fs c) s)
    as (s' & E' & H'); [exact Hi|lia|].
  exists s'. split; [exact E'|]. rewrite E in H'.
  replace (512 * Z.of_nat (Z.to_nat (bytes_per_clus fs / bytes_per_sec fs))) with fs.(bytes_per_clus) in H'; [exact H'|].
  destruct Hfs. rewrite ok_bps0, ok_bpc0, Z.mul_comm, Z.div_mul by lia. lia.
Qed.

(** The disk after [clusterAlloc] took [c] and hung it behind [prev]. *)
Definition alloc_disk (d : Z -> Z) (prev c : Z) : Z -> Z :=
  dset (fat_upd (if prev =? 0 then d else fat_upd d prev c) c FAT32_EOF)
       (clus_addr fs c) fs.(bytes_per_clus) (fun _ => 0).

Lemma fat_upd_ext d d' c v p :
  (forall q, 0 <= q -> d q = d' q) -> 0 <= p -> fat_upd d c v p = fat_upd d' c v p.
Proof. apply fat_set_ext. Qed.
Lemma fatv_ext d d' k c :
  valid_clus fs c -> 0 <= k < fs.(fat_cnt) -> (forall q, 0 <= q -> d q = d' q) ->
  fatv fs d k c = fatv fs d' k c.
Proof. intros Hc Hk H. apply word_at_ext; [|exact H]. now apply fat_addr_bound. Qed.
Lemma fat0 : 0 <= 0 < fs.(fat_cnt).
Proof. destruct Hfs; lia. Qed.

Lemma clusterAlloc_loop_ok n c prev cluster s :
  ss_inv s.(store) -> valid_clus fs c -> 2 <= cluster <= c -> c < cluster + Z.of_nat n ->
  prev = 0 \/ valid_clus fs prev ->
  fatv fs (disk_of s) 0 c = 0 ->
  (forall x, cluster <= x < c -> fatv fs (disk_of s) 0 x <> 0) ->
  exists s', clusterAlloc_loop n fs cluster prev s = Ok (c, s') /\
    disk_step s s' (alloc_disk (disk_of s) prev c).
Proof.
  revert cluster s. induction n as [|n IH]; intros cluster s Hi Hc Hcl Hn Hp Hfree Hno; [lia|].
  cbn [clusterAlloc_loop].
  assert (Hv : valid_clus fs cluster) by (unfold valid_clus in *; lia).
  destruct (fatRead_ok cluster s Hi Hv) as (s1 & E1 & H1). erewrite bind_run by exact E1.
  pose proof (ds_disk _ _ _ H1) as D1. destruct (Z.eq_dec cluster c) as [->|Hne].
  - rewrite Hfree, Z.eqb_refl.
    assert (exists s2, (if negb (prev =? 0) then fatWrite fs prev c else ret tt) s1 = Ok (tt, s2) /\
      disk_step s s2 (if prev =? 0 then disk_of s else fat_upd (disk_of s) prev c)) as (s2 & E2 & H2).
    { destruct (Z.eqb_spec prev 0) as [->|Hp0]; cbn [negb].
      - exists s1. split; [reflexivity|exact H1].
      - destruct (fatWrite_ok prev c s1) as (s2 & E2 & H2); [apply H1|destruct Hp; tauto|].
        exists s2. split; [exact E2|]. eapply disk_step_trans; [exact H1|].
        eapply disk_step_ext; [exact H2|]. intros p Hp'. now apply fat_upd_ext. }
    erewrite bind_run by exact E2. pose proof (ds_disk _ _ _ H2) as D2.
    destruct (fatWrite_ok c FAT32_EOF s2) as (s3 & E3 & H3); [apply H2|exact Hc|].
    erewrite bind_run by exact E3. pose proof (ds_disk _ _ _ H3) as D3.
    destruct (clusterZero_ok c s3) as (s4 & E4 & H4); [apply H3|exact Hc|].
    erewrite bind_run by exact E4. pose proof (ds_disk _ _ _ H4) as D4.
    cbv [count_alloced modify bind ret]. eexists. split; [reflexivity|].
    destruct H2, H3, H4. constructor; cbn; try congruence. intros p Hp'.
    change (disk_of s4 p = alloc_disk (disk_of s) prev c p). rewrite D4 by auto.
    unfold alloc_disk, dset. destruct (_ && _); [reflexivity|]. rewrite D3 by auto. now apply fat_upd_ext.
  - rewrite (proj2 (Z.eqb_neq _ _)) by (apply Hno; lia).
    destruct (IH (cluster + 1) s1) as (s2 & E2 & H2); [apply H1|exact Hc|lia|lia|exact Hp| | |].
    + rewrite (fatv_ext _ (disk_of s)); auto using fat0.
    + intros x Hx. rewrite (fatv_ext _ (disk_of s)); auto using fat0; [apply Hno; lia|].
      unfold valid_clus in *. lia.
    + exists s2. split; [exact E2|]. eapply disk_step_trans; [exact H1|].
      eapply disk_step_ext; [exact H2|]. intros p Hp'. unfold alloc_disk, dset. destruct (_ && _); [reflexivity|].
      apply fat_upd_ext; [|exact Hp']. intros q Hq. destruct (prev =? 0); [auto|now apply fat_upd_ext].
Qed.

Lemma clusterAlloc_loop_full n prev cluster s :
  ss_inv s.(store) -> 2 <= cluster -> cluster + Z.of_nat n <= fs.(data_clus_cnt) + 2 ->
  (forall x, cluster <= x < cluster + Z.of_nat n -> fatv fs (disk_of s) 0 x <> 0) ->
  clusterAlloc_loop n fs cluster prev s = Err Panic.
Proof.
  revert cluster s. induction n as [|n IH]; intros cluster s Hi Hc Hn Hno; [reflexivity|].
  cbn [clusterAlloc_loop]. assert (Hv : valid_clus fs cluster) by (unfold valid_clus; lia).
  destruct (fatRead_ok cluster s Hi Hv) as (s1 & E1 & H1). erewrite bind_run by exact E1.
  rewrite (proj2 (Z.eqb_neq _ _)) by (apply Hno; lia).
  apply IH; [apply H1|lia|lia|]. intros x Hx.
  rewrite (fatv_ext _ (disk_of s)); [apply Hno; lia|unfold valid_clus; lia|apply fat0|apply H1].
Qed.

(** First cluster [clusterAlloc] looks at. *)
Definition alloc_start (prev : Z) : Z := if prev =? 0 then 2 else prev + 1.
Lemma alloc_start_eq prev : prev = 0 \/ valid_clus fs prev ->
  (if prev =? 0 then 2 else wrap64 (prev + 1)) = alloc_start prev /\ 2 <= alloc_start prev /\
  wrap32 (fs.(data_clus_cnt) + 2) = fs.(data_clus_cnt) + 2.
Proof.
  intros Hp. unfold alloc_start, valid_clus in *. pose proof (ok_clus _ Hfs).
  rewrite wrap32_small by lia. destruct (Z.eqb_spec prev 0); [lia|].
  destruct Hp; [lia|]. rewrite wrap64_small; lia.
Qed.

Lemma clusterAlloc_ok c prev s :
  ss_inv s.(store) -> valid_clus fs c -> prev = 0 \/ valid_clus fs prev -> alloc_start prev <= c ->
  fatv fs (disk_of s) 0 c = 0 ->
  (forall x, alloc_start prev <= x < c -> fatv fs (disk_of s) 0 x <> 0) ->
  exists s', clusterAlloc fs prev s = Ok (c, s') /\ disk_step s s' (alloc_disk (disk_of s) prev c).
Proof.
  intros Hi Hc Hp Hst Hfree Hno. unfold clusterAlloc.
  destruct (alloc_start_eq prev Hp) as (-> & Hge & ->).
  apply clusterAlloc_loop_ok; auto. unfold valid_clus in *. lia.
Qed.
End Ops.

(** ** Chains of clusters *)

(** The table links the clusters of [l], starting at [c], and ends there. *)
Fixpoint chain (fs : FileSystem) (d : Z -> Z) (c : Z) (l : list Z) : Prop :=
  match l with
  | [] => 268435448 <= c < 4294967296
  | x :: l' => x = c /\ valid_clus fs c /\ chain fs d (fatv fs d 0 c) l'
  end.

Lemma not_end_sext c : 0 <= c < 4294967296 -> FAT32_NOT_END_CLUSTER (sext32 c) = (c <? 268435448).
Proof.
  intros Hc. unfold FAT32_NOT_END_CLUSTER, wrap64, sext32. apply eq_true_iff_eq. rewrite !Z.ltb_lt. zlia.
Qed.
Lemma chain_valid fs d c l x : chain fs d c l -> x ∈ l -> valid_clus fs x.
Proof.
  revert c. induction l as [|y l IH]; cbn [chain]; intros c H Hx; [now apply not_elem_of_nil in Hx|].
  destruct H as (-> & Hv & Hr). apply elem_of_cons in Hx as [->|Hx]; eauto.
Qed.
Lemma chain_head fs d c l : fs_ok fs -> chain fs d c l -> 0 <= c < 4294967296 /\
  ((c <? 268435448) = negb (bool_decide (l = []))).
Proof.
  intros Hfs. pose proof (ok_clus _ Hfs). destruct l as [|x l]; cbn [chain].
  - rewrite bool_decide_true by auto. cbn. zcases.
  - intros (-> & Hv & _). rewrite bool_decide_false by discriminate. unfold valid_clus in Hv. cbn. zcases.
Qed.
Lemma chain_frame fs d d' c l :
  (forall x, x ∈ l -> fatv fs d' 0 x = fatv fs d 0 x) -> chain fs d c l -> chain fs d' c l.
Proof.
  revert c. induction l as [|y l IH]; cbn [chain]; intros c Hf H; [exact H|].
  destruct H as (-> & Hv & Hr). split; [reflexivity|]. split; [exact Hv|].
  rewrite Hf by left. apply IH; [|exact Hr]. intros x Hx. apply Hf. now right.
Qed.
(** Two chains from one cluster are the same. *)
Lemma chain_unique fs d c l l' : fs_ok fs -> chain fs d c l -> chain fs d c l' -> l = l'.
Proof.
  intros Hfs. pose proof (ok_clus _ Hfs).
  revert c l'. induction l as [|y l IH]; intros c [|y' l']; cbn [chain]; intros H1 H2; auto.
  - destruct H2 as (-> & Hv & _). unfold valid_clus in Hv. lia.
  - destruct H1 as (-> & Hv & _). unfold valid_clus in Hv. lia.
  - destruct H1 as (-> & Hv & H1), H2 as (-> & _ & H2). f_equal. eauto.
Qed.
(** A chain meets no cluster twice: a second visit would go round forever. *)
Lemma chain_suffix fs d c l l1 x l2 :
  l = l1 ++ x :: l2 -> chain fs d c l -> chain fs d x (x :: l2).
Proof.
  revert c l. induction l1 as [|y l1 IH]; intros c l -> H.
  - cbn [app chain] in H. destruct H as (-> & H). now split.
  - cbn [app chain] in H. destruct H as (_ & _ & H). eapply IH; eauto.
Qed.
Lemma chain_nodup fs d c l : fs_ok fs -> chain fs d c l -> NoDup l.
Proof.
  intros Hfs. revert c. induction l as [|y l IH]; intros c H; [constructor|].
  pose proof H as H'. cbn [chain] in H. destruct H as (-> & Hv & Hr). apply NoDup_cons. split; [|eauto].
  intros Hin. apply list_elem_of_split in Hin as (l1 & l2 & ->).
  pose proof (chain_suffix _ _ _ _ (c :: l1) c l2 eq_refl H') as Hs.
  pose proof (chain_unique _ _ _ _ _ Hfs Hs H') as E. apply (f_equal length) in E.
  cbn in E. rewrite length_app in E. cbn in E. lia.
Qed.

Section Chains.
Context {S : Type} {SS : SectorStore S} {SL : SectorStoreLaws S}.
Context (fs : FileSystem) (Hfs : fs_ok fs).

Lemma countClusters_loop_ok fuel l c i (s : fstate S) :
  ss_inv s.(store) -> chain fs (disk_of s) c l -> (length l <= fuel)%nat ->
  0 <= i -> i + Z.of_nat (length l) < 2147483648 ->
  exists s', countClusters_loop fuel fs (sext32 c) i s = Ok (i + Z.of_nat (length l), s') /\
    disk_step s s' (disk_of s).
Proof.
  revert fuel c i s. induction l as [|x l IH]; intros fuel c i s Hi Hch Hf Hi0 Hb;
    destruct (chain_head _ _ _ _ Hfs Hch) as [Hc Hne].
  - assert (E : countClusters_loop fuel fs (sext32 c) i s = Ok (i, s)).
    { destruct fuel; cbn [countClusters_loop]; rewrite not_end_sext, Hne by auto; reflexivity. }
    rewrite E. cbn. rewrite Z.add_0_r. eexists. split; [reflexivity|now apply disk_step_refl].
  - destruct fuel as [|fuel]; [cbn in Hf; lia|]. cbn [countClusters_loop].
    rewrite not_end_sext, Hne by auto. rewrite bool_decide_false by discriminate. cbn [negb].
    destruct Hch as (-> & Hv & Hr).
    assert (Ec : wrap64 (sext32 c) = c).
    { pose proof (ok_clus _ Hfs). unfold valid_clus in Hv. rewrite sext32_small, wrap64_small; lia. }
    rewrite Ec. destruct (fatRead_ok fs Hfs c s Hi Hv) as (s1 & E1 & H1). erewrite bind_run by exact E1.
    rewrite (sext32_small (i + 1)) by (cbn in Hb; lia).
    destruct (IH fuel (fatv fs (disk_of s) 0 c) (i + 1) s1) as (s2 & E2 & H2);
      [apply H1| |cbn in Hf; lia|lia|cbn in Hb; lia|].
    + eapply chain_frame; [|exact Hr]. intros x Hx. apply (fatv_ext fs Hfs);
        [eapply chain_valid; eauto|now apply fat0|apply H1].
    + exists s2. split; [rewrite E2; do 2 f_equal; cbn; lia|].
      eapply disk_step_trans; [exact H1|]. eapply disk_step_ext; [exact H2|]. apply H1.
Qed.

(** The table after freeing all of [l]. *)
Fixpoint free_disk (d : Z -> Z) (l : list Z) : Z -> Z :=
  match l with
  | [] => d
  | c :: l' => free_disk (fat_upd fs d c 0) l'
  end.
Lemma free_disk_ext d d' l p :
  (forall q, 0 <= q -> d q = d' q) -> 0 <= p -> free_disk d l p = free_disk d' l p.
Proof.
  revert d d'. induction l as [|c l IH]; intros d d' H Hp; cbn [free_disk]; [auto|].
  apply IH; [|exact Hp]. intros q Hq. now apply fat_upd_ext.
Qed.
Lemma free_disk_data d l p :
  (forall c, c ∈ l -> valid_clus fs c) -> 512 * fs.(first_data_sec) <= p -> free_disk d l p = d p.
Proof.
  revert d. induction l as [|c l IH]; intros d Hl Hp; cbn [free_disk]; [reflexivity|].
  rewrite IH by (auto; intros; apply Hl; now right). apply fat_upd_data; auto. apply Hl. left.
Qed.
Lemma free_disk_entry d l k x :
  (forall c, c ∈ l -> valid_clus fs c) -> valid_clus fs x -> 0 <= k < fs.(fat_cnt) ->
  fatv fs (free_disk d l) k x = if bool_decide (x ∈ l) then 0 else fatv fs d k x.
Proof.
  revert d. induction l as [|c l IH]; intros d Hl Hx Hk; cbn [free_disk].
  - rewrite bool_decide_false; [reflexivity|apply not_elem_of_nil].
  - rewrite IH by (auto; intros; apply Hl; now right).
    rewrite fat_upd_entry; auto; [|apply Hl; left|lia].
    destruct (bool_decide_reflect (x ∈ l)) as [H|H].
    + rewrite bool_decide_true by (now right). reflexivity.
    + destruct (Z.eqb_spec x c) as [->|Hne].
      * rewrite bool_decide_true by left. reflexivity.
      * rewrite bool_decide_false; [reflexivity|]. rewrite elem_of_cons. tauto.
Qed.

Lemma clus_sequence_free_ok fuel l c (s : fstate S) :
  ss_inv s.(store) -> chain fs (disk_of s) c l -> l <> [] -> (length l <= fuel)%nat ->
  exists s', clus_sequence_free fuel fs (sext32 c) s = Ok (tt, s') /\
    disk_step s s' (free_disk (disk_of s) l).
Proof.
  revert fuel c s. induction l as [|x l IH]; intros fuel c s Hi Hch Hne Hf; [contradiction|].
  destruct fuel as [|fuel]; [cbn in Hf; lia|]. cbn [clus_sequence_free free_disk].
  pose proof (chain_nodup _ _ _ _ Hfs Hch) as Hnd. apply NoDup_cons in Hnd as [Hnin _].
  destruct Hch as (-> & Hv & Hr).
  assert (Ec : wrap64 (sext32 c) = c).
  { pose proof (ok_clus _ Hfs). unfold valid_clus in Hv. rewrite sext32_small, wrap64_small; lia. }
  rewrite Ec. destruct (fatRead_ok fs Hfs c s Hi Hv) as (s1 & E1 & H1). erewrite bind_run by exact E1.
  destruct (fatWrite_ok fs Hfs c 0 s1) as (s2 & E2 & H2); [apply H1|exact Hv|].
  erewrite bind_run by exact E2. pose proof (ds_disk _ _ _ H1) as D1. pose proof (ds_disk _ _ _ H2) as D2.
  assert (D12 : forall q, 0 <= q -> disk_of s2 q = fat_upd fs (disk_of s) c 0 q).
  { intros q Hq. rewrite D2 by auto. now apply fat_upd_ext. }
  destruct (chain_head _ _ _ _ Hfs Hr) as [Hc2 Hne2]. rewrite not_end_sext, Hne2 by auto. rewrite negb_involutive.
  destruct (bool_decide_reflect (l = [])) as [->|Hl].
  - exists s2. split; [reflexivity|]. cbn [free_disk]. eapply disk_step_trans; [exact H1|].
    eapply disk_step_ext; [exact H2|]. intros p Hp. now apply fat_upd_ext.
  - destruct (IH fuel (fatv fs (disk_of s) 0 c) s2) as (s3 & E3 & H3); [apply H2| |exact Hl|cbn in Hf; lia|].
    + eapply chain_frame; [|exact Hr]. intros x Hx. pose proof (chain_valid _ _ _ _ _ Hr Hx) as Hxv.
      rewrite (fatv_ext fs Hfs _ _ 0 x Hxv (fat0 fs Hfs) D12).
      rewrite fat_upd_entry; auto using fat0; [|lia]. destruct (Z.eqb_spec x c) as [->|]; [contradiction|reflexivity].
    + exists s3. split; [exact E3|]. eapply disk_step_trans; [exact H1|]. eapply disk_step_trans; [exact H2|].
      eapply disk_step_ext; [exact H3|]. intros p Hp. now apply free_disk_ext.
Qed.
End Chains.

(** ** What the layer promises *)

Section Promises.
Context {S : Type} {SS : SectorStore S} {SL : SectorStoreLaws S}.
Context (fs : FileSystem).

(** The first free cluster from [a] on, among [n]. *)
Lemma first_free d a n :
  (exists c, a <= c < a + Z.of_nat n /\ fatv fs d 0 c = 0 /\ forall x, a <= x < c -> fatv fs d 0 x <> 0) \/
  (forall x, a <= x < a + Z.of_nat n -> fatv fs d 0 x <> 0).
Proof.
  revert a. induction n as [|n IH]; intros a; [right; lia|].
  destruct (Z.eq_dec (fatv fs d 0 a) 0) as [E|E].
  - left. exists a. split; [lia|]. split; [exact E|lia].
  - destruct (IH (a + 1)) as [(c & Hc & Hf & Hno)|Hno].
    + left. exists c. split; [lia|]. split; [exact Hf|]. intros x Hx.
      destruct (Z.eq_dec x a) as [->|]; [exact E|apply Hno; lia].
    + right. intros x Hx. destruct (Z.eq_dec x a) as [->|]; [exact E|apply Hno; lia].
Qed.

Lemma alloc_disk_entry d prev c k x :
  fs_ok fs -> valid_clus fs c -> prev = 0 \/ valid_clus fs prev -> valid_clus fs x -> 0 <= k < fs.(fat_cnt) ->
  fatv fs (alloc_disk fs d prev c) k x =
  if x =? c then FAT32_EOF else if x =? prev then c else fatv fs d k x.
Proof.
  intros Hfs Hc Hp Hx Hk. unfold alloc_disk, fatv at 1. rewrite word_at_dset_other.
  2:{ destruct (fat_addr_bound fs Hfs k x Hx Hk). pose proof (clus_addr_bound fs Hfs c Hc). lia. }
  fold (fatv fs (fat_upd fs (if prev =? 0 then d else fat_upd fs d prev c) c FAT32_EOF) k x).
  rewrite fat_upd_entry by (auto; unfold FAT32_EOF; lia).
  destruct (x =? c); [reflexivity|]. pose proof (ok_clus _ Hfs). unfold valid_clus in *.
  destruct (Z.eqb_spec prev 0) as [->|Hp0].
  - destruct (Z.eqb_spec x 0); [lia|reflexivity].
  - destruct Hp as [?|Hp]; [contradiction|]. apply fat_upd_entry; unfold valid_clus; auto; lia.
Qed.
Lemma alloc_disk_data d prev c p :
  fs_ok fs -> valid_clus fs c -> prev = 0 \/ valid_clus fs prev -> 512 * fs.(first_data_sec) <= p ->
  alloc_disk fs d prev c p =
  if (clus_addr fs c <=? p) && (p <? clus_addr fs c + fs.(bytes_per_clus)) then 0 else d p.
Proof.
  intros Hfs Hc Hp Hd. unfold alloc_disk, dset. destruct (_ && _); [reflexivity|].
  rewrite fat_upd_data by auto. destruct (Z.eqb_spec prev 0); [reflexivity|].
  destruct Hp; [contradiction|]. now apply fat_upd_data.
Qed.

(** [clusterAlloc] takes the first free cluster after [prev]: it was free,
    every copy of the table now ends the chain there and links [prev] to it,
    its bytes are zero, and no other entry or data byte of the disk changed.
    It stops the kernel only when every cluster after [prev] is taken. *)
Theorem clusterAlloc_first_fit prev (s : fstate S) :
  fs_ok fs -> ss_inv s.(store) -> prev = 0 \/ valid_clus fs prev ->
  match clusterAlloc fs prev s with
  | Ok (c, s') =>
      ss_inv s'.(store) /\ valid_clus fs c /\ alloc_start prev <= c /\
      fatv fs (disk_of s) 0 c = 0 /\
      (forall x, alloc_start prev <= x < c -> fatv fs (disk_of s) 0 x <> 0) /\
      (forall k x, 0 <= k < fs.(fat_cnt) -> valid_clus fs x ->
         fatv fs (disk_of s') k x =
         if x =? c then FAT32_EOF else if x =? prev then c else fatv fs (disk_of s) k x) /\
      (forall p, 512 * fs.(first_data_sec) <= p ->
         disk_of s' p =
         if (clus_addr fs c <=? p) && (p <? clus_addr fs c + fs.(bytes_per_clus)) then 0 else disk_of s p)
  | Err f => f = Panic /\ forall x, alloc_start prev <= x < fs.(data_clus_cnt) + 2 -> fatv fs (disk_of s) 0 x <> 0
  end.
Proof.
  intros Hfs Hi Hp. destruct (alloc_start_eq fs Hfs prev Hp) as (Es & Hge & Ew).
  set (n := Z.to_nat (fs.(data_clus_cnt) + 2 - alloc_start prev)).
  destruct (first_free (disk_of s) (alloc_start prev) n) as [(c & Hc & Hf & Hno)|Hno].
  - assert (Hv : valid_clus fs c) by (unfold valid_clus; lia).
    destruct (clusterAlloc_ok fs Hfs c prev s Hi Hv Hp) as (s' & -> & H); [lia|exact Hf|exact Hno|].
    split; [apply H|]. split; [exact Hv|]. split; [lia|]. split; [exact Hf|]. split; [exact Hno|]. split.
    + intros k x Hk Hx. rewrite (fatv_ext fs Hfs _ _ k x Hx Hk (ds_disk _ _ _ H)). now apply alloc_disk_entry.
    + intros p Hd. pose proof (first_data_nonneg fs Hfs).
      rewrite (ds_disk _ _ _ H) by lia. now apply alloc_disk_data.
  - unfold clusterAlloc. rewrite Es, Ew. fold n.
    assert (alloc_start prev <= fs.(data_clus_cnt) + 2).
    { pose proof (ok_clus _ Hfs). unfold alloc_start, valid_clus in *. destruct (Z.eqb_spec prev 0); lia. }
    rewrite (clusterAlloc_loop_full fs Hfs) by (auto; lia).
    split; [reflexivity|]. intros x Hx. apply Hno. lia.
Qed.

(** Free clusters below [prev] are never used: once everything after
    [prev] is taken, extending the chain stops the kernel, however much of the
    volume is free. *)
Theorem clusterAlloc_ignores_lower prev (s : fstate S) :
  fs_ok fs -> ss_inv s.(store) -> valid_clus fs prev ->
  (forall x, prev < x < fs.(data_clus_cnt) + 2 -> fatv fs (disk_of s) 0 x <> 0) ->
  clusterAlloc fs prev s = Err Panic.
Proof.
  intros Hfs Hi Hp Hno. unfold clusterAlloc.
  destruct (alloc_start_eq fs Hfs prev (or_intror Hp)) as (Es & Hge & Ew). rewrite Es, Ew.
  assert (alloc_start prev = prev + 1).
  { unfold alloc_start, valid_clus in *. destruct (Z.eqb_spec prev 0); lia. }
  apply (clusterAlloc_loop_full fs Hfs); auto; [unfold valid_clus in *; lia|].
  intros x Hx. apply Hno. unfold valid_clus in *. lia.
Qed.

(** What [clusterWrite] puts at an offset of a cluster is what
    [clusterRead] later copies out from there; the allocation table and every
    byte outside the range written are as before. *)
Theorem clusterWrite_clusterRead c offset src dst n uw ur (s : fstate S) :
  fs_ok fs -> ss_inv s.(store) -> valid_clus fs c -> 0 <= offset -> 0 <= n ->
  offset + n <= fs.(bytes_per_clus) ->
  exists s1 s2, clusterWrite fs c offset src n uw s = Ok (tt, s1) /\
    clusterRead fs c offset dst n ur s1 = Ok (tt, s2) /\ ss_inv s2.(store) /\
    (forall i, 0 <= i < n -> mem_of ur s2 (dst + i) = mem_of uw s (src + i)) /\
    (forall x, x < dst \/ dst + n <= x -> mem_of ur s2 x = mem_of ur s x) /\
    (forall p, 0 <= p -> p < clus_addr fs c + offset \/ clus_addr fs c + offset + n <= p ->
       disk_of s2 p = disk_of s p) /\
    (forall k x, 0 <= k < fs.(fat_cnt) -> valid_clus fs x -> fatv fs (disk_of s2) k x = fatv fs (disk_of s) k x).
Proof.
  intros Hfs Hi Hc Ho Hn Hl.
  destruct (clusterWrite_ok fs Hfs c offset src n uw s Hi Hc Ho Hn Hl) as (s1 & E1 & H1).
  destruct (clusterRead_ok fs Hfs c offset dst n ur s1) as (s2 & E2 & H2); auto; [apply H1|].
  pose proof (clus_addr_bound fs Hfs c Hc) as Hb. pose proof (first_data_nonneg fs Hfs) as Hz.
  assert (Hd : forall p, 0 <= p -> p < clus_addr fs c + offset \/ clus_addr fs c + offset + n <= p ->
                 disk_of s2 p = disk_of s p).
  { intros p Hp Hout. rewrite (ms_disk _ _ _ _ H2), (ds_disk _ _ _ H1) by auto. now apply dset_out. }
  exists s1, s2. split; [exact E1|]. split; [exact E2|]. split; [apply H2|]. split; [|split; [|split]].
  - intros i Hi'. rewrite (ms_mem _ _ _ _ H2), dset_in by lia. rewrite (ds_disk _ _ _ H1) by lia.
    rewrite dset_in by lia. f_equal. lia.
  - intros x Hx. rewrite (ms_mem _ _ _ _ H2), dset_out by lia.
    unfold mem_of. now rewrite (ds_kmem _ _ _ H1), (ds_umem _ _ _ H1).
  - exact Hd.
  - intros k x Hk Hx. destruct (fat_addr_bound fs Hfs k x Hx Hk). unfold fatv, word_at. rewrite !Hd by lia. reflexivity.
Qed.

(** [fatWrite] sets the entry in every copy of the table, [fatRead] then
    returns it, and no other entry and no data byte changed. *)
Theorem fatWrite_fatRead c v (s : fstate S) :
  fs_ok fs -> ss_inv s.(store) -> valid_clus fs c -> 0 <= v < 4294967296 ->
  exists s1 s2, fatWrite fs c v s = Ok (tt, s1) /\ fatRead fs c s1 = Ok (v, s2) /\ ss_inv s2.(store) /\
    (forall k x, 0 <= k < fs.(fat_cnt) -> valid_clus fs x ->
       fatv fs (disk_of s2) k x = if x =? c then v else fatv fs (disk_of s) k x) /\
    (forall p, 512 * fs.(first_data_sec) <= p -> disk_of s2 p = disk_of s p).
Proof.
  intros Hfs Hi Hc Hv. destruct (fatWrite_ok fs Hfs c v s Hi Hc) as (s1 & E1 & H1).
  destruct (fatRead_ok fs Hfs c s1) as (s2 & E2 & H2); [apply H1|exact Hc|].
  assert (He : forall k x, 0 <= k < fs.(fat_cnt) -> valid_clus fs x ->
                 fatv fs (disk_of s1) k x = if x =? c then v else fatv fs (disk_of s) k x).
  { intros k x Hk Hx. rewrite (fatv_ext fs Hfs _ _ k x Hx Hk (ds_disk _ _ _ H1)). now apply fat_upd_entry. }
  exists s1, s2. split; [exact E1|]. split; [|split; [apply H2|split]].
  - rewrite E2, He, Z.eqb_refl by (auto using fat0). reflexivity.
  - intros k x Hk Hx. rewrite (fatv_ext fs Hfs _ _ k x Hx Hk (ds_disk _ _ _ H2)). now apply He.
  - intros p Hp. pose proof (first_data_nonneg fs Hfs).
    rewrite (ds_disk _ _ _ H2), (ds_disk _ _ _ H1) by lia. now apply fat_upd_data.
Qed.

(** [clus_sequence_free] walks a chain of any length to its end, given
    fuel for its clusters, and frees exactly those: their entries read 0 in
    every copy, all other entries and all data are untouched, so every other
    file keeps its chain. *)
Theorem clus_sequence_free_frees fuel l c (s : fstate S) :
  fs_ok fs -> ss_inv s.(store) -> chain fs (disk_of s) c l -> l <> [] -> (length l <= fuel)%nat ->
  exists s', clus_sequence_free fuel fs (sext32 c) s = Ok (tt, s') /\ ss_inv s'.(store) /\
    (forall k x, 0 <= k < fs.(fat_cnt) -> valid_clus fs x ->
       fatv fs (disk_of s') k x = if bool_decide (x ∈ l) then 0 else fatv fs (disk_of s) k x) /\
    (forall p, 512 * fs.(first_data_sec) <= p -> disk_of s' p = disk_of s p) /\
    (forall c' l', chain fs (disk_of s) c' l' -> (forall x, x ∈ l' -> x ∉ l) -> chain fs (disk_of s') c' l').
Proof.
  intros Hfs Hi Hch Hne Hf. destruct (clus_sequence_free_ok fs Hfs fuel l c s Hi Hch Hne Hf) as (s' & E & H).
  assert (Hl : forall x, x ∈ l -> valid_clus fs x) by (intros x Hx; eapply chain_valid; eauto).
  assert (He : forall k x, 0 <= k < fs.(fat_cnt) -> valid_clus fs x ->
    fatv fs (disk_of s') k x = if bool_decide (x ∈ l) then 0 else fatv fs (disk_of s) k x).
  { intros k x Hk Hx. rewrite (fatv_ext fs Hfs _ _ k x Hx Hk (ds_disk _ _ _ H)). now apply free_disk_entry. }
  exists s'. split; [exact E|]. split; [apply H|]. split; [exact He|]. split.
  - intros p Hp. pose proof (first_data_nonneg fs Hfs). rewrite (ds_disk _ _ _ H) by lia. now apply free_disk_data.
  - intros c' l' Hch' Hdis. eapply chain_frame; [|exact Hch']. intros x Hx.
    rewrite He by (auto using fat0; eapply chain_valid; eauto). rewrite bool_decide_false by auto. reflexivity.
Qed.

(** [countClusters] returns the length of the file's chain, and ends on
    every chain the table can hold. *)
Theorem countClusters_length fuel l c (s : fstate S) :
  fs_ok fs -> ss_inv s.(store) -> chain fs (disk_of s) c l -> (length l <= fuel)%nat ->
  Z.of_nat (length l) < 2147483648 ->
  exists s', countClusters fuel fs c s = Ok (Z.of_nat (length l), s') /\ disk_step s s' (disk_of s).
Proof.
  intros Hfs Hi Hch Hf Hb. unfold countClusters.
  destruct (countClusters_loop_ok fs Hfs fuel l c 0 s Hi Hch Hf) as (s' & E & H); [lia|lia|].
  destruct (Z.eqb_spec (sext32 c) 0) as [E0|]; [|eauto].
  exfalso. destruct l as [|x l]; cbn [chain] in Hch; unfold sext32 in E0.
  - zlia.
  - destruct Hch as (_ & Hv & _). pose proof (ok_clus _ Hfs). unfold valid_clus in Hv. zlia.
Qed.
End Promises.

(** ** Mounting *)

Lemma forall_slice off n d :
  (forall i, 0 <= i < Z.of_nat (length d) -> 0 <= byte_at d i < 256) ->
  Forall (fun b => 0 <= b < 256) (slice off n d).
Proof.
  intros H. apply Forall_take, Forall_drop, Forall_forall. intros x Hx%list_elem_of_lookup.
  destruct Hx as [i Hi]. specialize (H (Z.of_nat i)). pose proof (lookup_lt_Some _ _ _ Hi).
  unfold byte_at in H. rewrite Nat2Z.id, (nth_lookup_Some _ _ 0 _ Hi) in H. apply H. lia.
Qed.
Lemma get32_range d off :
  (forall i, 0 <= i < Z.of_nat (length d) -> 0 <= byte_at d i < 256) ->
  0 <= off -> off + 4 <= Z.of_nat (length d) -> 0 <= get32 d off < 4294967296.
Proof.
  intros H Ho Hl. unfold get32. pose proof (le_val_bound _ (forall_slice off 4 d H)) as Hb.
  rewrite (length_slice off 4 d Ho) in Hb by lia. exact Hb.
Qed.
Lemma get16_range d off :
  (forall i, 0 <= i < Z.of_nat (length d) -> 0 <= byte_at d i < 256) ->
  0 <= off -> off + 2 <= Z.of_nat (length d) -> 0 <= get16 d off < 65536.
Proof.
  intros H Ho Hl. unfold get16. pose proof (le_val_bound _ (forall_slice off 2 d H)) as Hb.
  rewrite (length_slice off 2 d Ho) in Hb by lia. exact Hb.
Qed.

(** A boot sector as the FAT32 specification asks: the fields [clusterInit]
    reads describe a table that covers the clusters of the volume. *)
Record boot_ok (d : list Z) : Prop := {
  bt_bytes : forall i, 0 <= i < Z.of_nat (length d) -> 0 <= byte_at d i < 256;
  bt_name : slice 82 5 d = fat32_name;
  bt_bps : get16 d 11 = 512;
  bt_spc : byte_at d 13 <> 0;
  bt_fats : 1 <= byte_at d 16;
  bt_first : get16 d 14 + byte_at d 16 * get32 d 36 <= get32 d 32;
  bt_cover :
    let n := (get32 d 32 - (get16 d 14 + byte_at d 16 * get32 d 36)) / byte_at d 13 in
    4 * (n + 2) <= 512 * get32 d 36 /\ n <= 268435440
}.

Lemma clusterInit_layout d :
  length d = 512%nat -> boot_ok d ->
  let first := wrap32 (get16 d 14 + wrap32 (byte_at d 16 * get32 d 36)) in
  let cnt := wrap32 (get32 d 32 - first) in
  fs_ok (MkFS (get16 d 11) (byte_at d 13) (get16 d 14) (byte_at d 16) (get32 d 28) (get32 d 32) (get32 d 36)
           (get32 d 44) first cnt (cnt / byte_at d 13) (byte_at d 13 * get16 d 11)).
Proof.
  intros Hlen [Hb Hn Hbps Hspc Hf1 Hfirst Hcov].
  pose proof (get32_range d 32 Hb) as R32. pose proof (get32_range d 36 Hb) as R36.
  pose proof (get16_range d 14 Hb) as R14. pose proof (Hb 13) as B13. pose proof (Hb 16) as B16.
  rewrite Hlen in *. specialize (R32 ltac:(lia) ltac:(lia)). specialize (R36 ltac:(lia) ltac:(lia)).
  specialize (R14 ltac:(lia) ltac:(lia)). specialize (B13 ltac:(lia)). specialize (B16 ltac:(lia)).
  assert (Hmul : 0 <= byte_at d 16 * get32 d 36) by nia.
  cbv zeta in *. rewrite (wrap32_small (byte_at d 16 * _)) by lia.
  rewrite (wrap32_small (get16 d 14 + _)) by lia. rewrite wrap32_small by lia.
  set (n := (get32 d 32 - (get16 d 14 + byte_at d 16 * get32 d 36)) / byte_at d 13) in *.
  assert (Hn' : 0 <= n /\ n * byte_at d 13 <= get32 d 32 - (get16 d 14 + byte_at d 16 * get32 d 36)).
  { subst n. split; [apply Z.div_pos; lia|]. rewrite Z.mul_comm. apply Z.mul_div_le. lia. }
  constructor; cbn; try lia.
Qed.

(** On a correct FAT32 boot sector [clusterInit] succeeds, fills a
    superblock whose table and data regions are disjoint and inside the
    volume, releases the buffer it took, and changes no block. *)
Theorem clusterInit_mounts fs0 c :
  bc_ok c -> idle c -> boot_ok (view c 0) ->
  exists fs c', clusterInit fs0 c = Ok ((0, fs), c') /\ fs_ok fs /\
    fs.(root_clus) = get32 (view c 0) 44 /\ fs.(tot_sec) = get32 (view c 0) 32 /\
    bc_ok c' /\ idle c' /\ forall b, view c' b = view c b.
Proof.
  intros Hok Hid Hb. pose proof (clusterInit_layout _ (view_len c 0 Hok Hid) Hb) as Hlay.
  destruct (bufRead_ok c 0 true Hok Hid) as (j & nb & dsk & nb' & c1 & E & Ha & Hr & Eb & Ed & Er & Ev & El & Ec).
  destruct (Ec eq_refl) as [Edata Eclean]. pose proof (group_of_range 0) as Hg.
  destruct (bufRelease_ok c _ j nb' dsk c1 Hg (aq_in _ _ _ _ _ Ha) Hr) as (c2 & E2 & Hr2); [congruence|auto|].
  unfold clusterInit, getBlock. erewrite bind_run by exact E.
  erewrite bind_run by reflexivity. cbn [fst snd]. rewrite (rp_same _ _ _ _ _ _ Hr), Edata.
  rewrite bool_decide_true by apply Hb. cbn [negb].
  rewrite (proj2 (Z.eqb_neq _ _)) by apply Hb. cbv zeta in *.
  replace (BUF_SIZE =? get16 (view c 0) 11) with true by (rewrite (bt_bps _ Hb); reflexivity). cbn [negb]. erewrite bind_run by exact E2.
  eexists _, c2. split; [reflexivity|]. split; [exact Hlay|]. split; [reflexivity|]. split; [reflexivity|].
  destruct (acquired_result c 0 j nb dsk _ c2 Hok Ha Hr2) as (Hok2 & Hv & Ho); auto.
  split; [exact Hok2|]. split; [eapply replaced_idle; eauto|].
  intros b. destruct (Z.eq_dec b 0) as [->|]; [cbn in Hv; congruence|auto].
Qed.

(** Refusing a volume that is not FAT32, [clusterInit] keeps the buffer of
    block 0 held: its count is 1 and nobody is left to release it. *)
Theorem clusterInit_error_keeps_buffer fs0 c :
  bc_ok c -> idle c -> slice 82 5 (view c 0) <> fat32_name ->
  exists c' j, clusterInit fs0 c = Ok ((- E_UNKNOWN_FS, fs0), c') /\
    j ∈ c'.(blist) 0 /\ (c'.(bbuf) 0 j).(blockno) = 0 /\ (c'.(bbuf) 0 j).(brefcnt) = 1.
Proof.
  intros Hok Hid Hn.
  destruct (bufRead_ok c 0 true Hok Hid) as (j & nb & dsk & nb' & c1 & E & Ha & Hr & Eb & Ed & Er & Ev & El & Ec).
  destruct (Ec eq_refl) as [Edata Eclean]. pose proof (group_of_range 0) as Hg.
  exists c1, j. unfold clusterInit, getBlock. erewrite bind_run by exact E.
  erewrite bind_run by reflexivity. cbn [fst snd]. rewrite (rp_same _ _ _ _ _ _ Hr), Edata.
  rewrite bool_decide_false by exact Hn. cbn [negb]. split; [reflexivity|].
  pose proof (rp_same _ _ _ _ _ _ Hr) as Hs. change (group_of 0) with 0 in *. rewrite Hs.
  split; [|split; assumption]. apply (rp_in _ _ _ _ _ _ Hr); [exact Hg|apply Ha].
Qed.

(** ** A volume to evaluate: six clusters of one sector, a file in 2, 3, 5 *)

Definition demo_fat : list Z :=
  concat (map (le_bytes 4) [268435448; FAT32_EOF; 3; 5; 0; FAT32_EOF; FAT32_EOF; FAT32_EOF]) ++ replicate 480 0.
Definition demo_boot : list Z :=
  splice 82 fat32_name (splice 11 [0; 2; 1; 1; 0; 2] (put32 32 9 (put32 36 1 (put32 44 2 (replicate 512 0))))).
Definition demo_disk (b : Z) : list Z :=
  if b =? 0 then demo_boot else if (b =? 1) || (b =? 2) then demo_fat else replicate 512 (b mod 256).
Definition demo_fs : FileSystem := MkFS 512 1 1 2 0 9 1 2 3 6 6 512.
Definition demo_st : fstate bcache :=
  MkFst (bufInit (zeroed demo_disk)) 0 (fun a => a mod 256) (fun _ => 0) 100.

Lemma demo_disk_len b : length (demo_disk b) = 512%nat.
Proof. unfold demo_disk. destruct (b =? 0); [reflexivity|]. destruct (_ || _); reflexivity. Qed.
Lemma demo_cache_ok : bc_ok (bufInit (zeroed demo_disk)) /\ idle (bufInit (zeroed demo_disk)).
Proof. pose proof (bufInit_ok demo_disk demo_disk_len) as (H1 & H2 & _). auto. Qed.
Lemma demo_inv : ss_inv demo_st.(store).
Proof. apply demo_cache_ok. Qed.
Lemma demo_fs_ok : fs_ok demo_fs.
Proof. constructor; cbn; lia. Qed.
Lemma demo_chain : chain demo_fs (disk_of demo_st) 2 [2; 3; 5].
Proof.
  cbn [chain]. unfold valid_clus.
  repeat match goal with |- _ /\ _ => split end; vm_compute; (reflexivity || discriminate).
Qed.

Lemma demo_free4 : fatv demo_fs (disk_of demo_st) 0 4 = 0.
Proof. vm_compute. reflexivity. Qed.
Lemma demo_taken x : x = 2 \/ x = 3 \/ x = 5 \/ x = 6 \/ x = 7 -> fatv demo_fs (disk_of demo_st) 0 x <> 0.
Proof. intros [->|[->|[->|[->| ->]]]]; vm_compute; discriminate. Qed.
#[local] Opaque demo_st disk_of.
Lemma clusterAlloc_first_fit_witness :
  exists s', clusterAlloc demo_fs 0 demo_st = Ok (4, s') /\ fatv demo_fs (disk_of s') 1 4 = FAT32_EOF.
Proof.
  pose proof (clusterAlloc_first_fit demo_fs 0 demo_st demo_fs_ok demo_inv (or_introl eq_refl)) as H.
  destruct (clusterAlloc demo_fs 0 demo_st) as [[c s']|f].
  - destruct H as (_ & Hv & _ & Hf & Hno & He & _). exists s'.
    assert (c = 4) as ->.
    { pose proof (demo_taken c) as Ht. specialize (Hno 4). rewrite demo_free4 in Hno.
      unfold valid_clus, alloc_start in *. cbn in Hv, Hno. clear He.
      assert (~ (2 <= 4 < c)) by tauto. clear Hno.
      assert (~ (c = 2 \/ c = 3 \/ c = 5 \/ c = 6 \/ c = 7)) by tauto. clear Ht Hf. lia. }
    split; [reflexivity|]. rewrite He; [reflexivity|cbn; clear; lia|unfold valid_clus; cbn; clear; lia].
  - destruct H as [_ H]. specialize (H 4). rewrite demo_free4 in H. exfalso.
    apply H; [unfold alloc_start; cbn; clear; lia|reflexivity].
Defined.
Lemma clusterAlloc_ignores_lower_witness :
  clusterAlloc demo_fs 5 demo_st = Err Panic /\ fatv demo_fs (disk_of demo_st) 0 4 = 0.
Proof.
  split; [|exact demo_free4].
  apply clusterAlloc_ignores_lower; [exact demo_fs_ok|exact demo_inv|unfold valid_clus; cbn; lia|].
  cbn. intros x Hx. apply demo_taken. lia.
Defined.
Lemma clusterWrite_clusterRead_witness :
  exists s1 s2, clusterWrite demo_fs 4 10 1000 100 false demo_st = Ok (tt, s1) /\
    clusterRead demo_fs 4 10 5000 100 true s1 = Ok (tt, s2) /\ s2.(umem) 5020 = 252.
Proof.
  destruct (clusterWrite_clusterRead demo_fs 4 10 1000 5000 100 false true demo_st demo_fs_ok demo_inv)
    as (s1 & s2 & E1 & E2 & _ & H & _); [unfold valid_clus; cbn; lia|lia|lia|cbn; lia|].
  exists s1, s2. split; [exact E1|]. split; [exact E2|]. apply (H 20). lia.
Defined.
Lemma fatWrite_fatRead_witness :
  exists s1 s2, fatWrite demo_fs 4 7 demo_st = Ok (tt, s1) /\ fatRead demo_fs 4 s1 = Ok (7, s2).
Proof.
  destruct (fatWrite_fatRead demo_fs 4 7 demo_st demo_fs_ok demo_inv) as (s1 & s2 & E1 & E2 & _);
    [unfold valid_clus; cbn; lia|lia|]. eauto.
Defined.
Lemma clus_sequence_free_frees_witness :
  exists s', clus_sequence_free 3 demo_fs (sext32 2) demo_st = Ok (tt, s') /\ fatv demo_fs (disk_of s') 1 5 = 0.
Proof.
  destruct (clus_sequence_free_frees demo_fs 3 [2; 3; 5] 2 demo_st demo_fs_ok demo_inv demo_chain)
    as (s' & E & _ & H & _); [discriminate|cbn; lia|].
  exists s'. split; [exact E|]. rewrite H by (unfold valid_clus; cbn; lia). reflexivity.
Defined.
Lemma countClusters_length_witness : exists s', countClusters 3 demo_fs 2 demo_st = Ok (3, s').
Proof.
  destruct (countClusters_length demo_fs 3 [2; 3; 5] 2 demo_st demo_fs_ok demo_inv demo_chain)
    as (s' & E & _); [cbn; lia|cbn; lia|]. eauto.
Defined.
Lemma demo_view0 : view (bufInit (zeroed demo_disk)) 0 = demo_boot.
Proof. now rewrite (proj2 (proj2 (bufInit_ok demo_disk demo_disk_len))). Qed.
Lemma clusterInit_mounts_witness :
  exists fs c', clusterInit demo_fs (bufInit (zeroed demo_disk)) = Ok ((0, fs), c') /\ fs_ok fs /\ fs.(root_clus) = 2.
Proof.
  destruct (clusterInit_mounts demo_fs _ (proj1 demo_cache_ok) (proj2 demo_cache_ok)) as (fs & c' & E & Hfs & Hr & _).
  - rewrite demo_view0. constructor; try (vm_compute; congruence).
    + assert (Hb : forallb (fun b => (0 <=? b) && (b <? 256)) demo_boot = true) by (vm_compute; reflexivity).
      intros i Hi. rewrite forallb_forall in Hb. specialize (Hb (byte_at demo_boot i)).
      assert (List.In (byte_at demo_boot i) demo_boot) as Hin by (apply nth_In; lia).
      specialize (Hb Hin). lia.
    + vm_compute. split; congruence.
  - exists fs, c'. split; [exact E|]. split; [exact Hfs|]. rewrite Hr, demo_view0. vm_compute. reflexivity.
Defined.
Lemma clusterInit_error_keeps_buffer_witness :
  exists c' j, clusterInit demo_fs (bufInit (zeroed (fun _ => replicate 512 0))) = Ok ((- E_UNKNOWN_FS, demo_fs), c') /\
    (c'.(bbuf) 0 j).(brefcnt) = 1.
Proof.
  destruct (bufInit_ok (fun _ => replicate 512 0)) as (H1 & H2 & H3); [intros; apply length_replicate|].
  destruct (clusterInit_error_keeps_buffer demo_fs _ H1 H2) as (c' & j & E & _ & _ & Hr).
  - rewrite H3. vm_compute. discriminate.
  - eauto.
Defined.
