(* ===== verification/FatFile.v ===== *)
(** * Files: cluster tables, reading, writing, growing and shrinking

    [src/kern/fs/fat32/file.c], [src/kern/fs/fat32/filepnt.c],
    [sync_dirent_rawdata_back] of [src/kern/fs/fat32/directory.c] and the
    [Dirent] and [DirentPointer] structures of [src/include/fs/fs.h], for files
    of the root file system.  A [Dirent *] is an index ([0] for [NULL]); the
    on-disk image of an entry, [raw_dirent], lives in kernel memory at
    [raw_addr], where the code takes its address. [mtx_depth] counts how often
    the running thread has entered the recursive lock [mtx_file]. *)

From S2P Require Import Prelude Bytes BufCache Cluster.
From Stdlib Require Import ZArith Lia Bool.
From stdpp Require Import base tactics numbers list.
Open Scope Z_scope.

Definition PAGE_SIZE : Z := 4096.
Definition PAGE_NCLUSNO : Z := 1024.
Definition NDIRENT_SECPOINTER : Z := 5.
Definition DIR_SIZE : Z := 32.
Definition DIRENT_DIR : Z := 0.
Definition DIRENT_FILE : Z := 1.
Definition DIRENT_CHARDEV : Z := 2.
Definition DIRENT_BLKDEV : Z := 3.
Definition ATTR_LINK : Z := 64.

(** A page of cluster numbers, and the two levels of pages. *)
Definition TwicePointer : Type := Z -> Z.
Definition ThirdPointer : Type := Z -> option TwicePointer.
Record DirentPointer : Type := MkPtr {
  second : Z -> option TwicePointer;
  third : option ThirdPointer;
  pvalid : Z
}.

Record Dirent : Type := MkDirent {
  name : list Z;
  first_clus : Z;          (* u32, 0 when the file has no cluster *)
  file_size : Z;           (* u32 *)
  head : Z;                (* file system mounted here, 0 if none *)
  pointer : DirentPointer;
  parent_dir_off : Z;      (* u32 *)
  dtype : Z;
  is_rm : Z;
  child_list : list Z;
  parent_dirent : Z;
  mode : Z;
  linkcnt : Z;
  refcnt : Z;              (* u16 *)
  holders : list (Z * Z);  (* proc_index, cnt; the first holder_cnt entries *)
}.

Definition with_file (first size : Z) (p : DirentPointer) (d : Dirent) : Dirent :=
  MkDirent d.(name) first size d.(head) p d.(parent_dir_off) d.(dtype) d.(is_rm) d.(child_list)
    d.(parent_dirent) d.(mode) d.(linkcnt) d.(refcnt) d.(holders).

Record world (S : Type) : Type := MkWorld {
  wfs : fstate S;
  dents : Z -> Dirent;
  mtx_depth : Z
}.
Arguments MkWorld {S} _ _ _.
Arguments wfs {S} _.
Arguments dents {S} _ _.
Arguments mtx_depth {S} _.

(** [&dirent->raw_dirent], and the buffer a function keeps on its stack. *)
Definition DIRENTS_BASE : Z := 2415919104.
Definition DIRENT_STRUCT_SIZE : Z := 2048.
Definition raw_addr (file : Z) : Z := DIRENTS_BASE + file * DIRENT_STRUCT_SIZE.
Definition STACK_BUF : Z := 2400000000.

Section Files.
Context {S : Type} {SS : SectorStore S} (fs : FileSystem).

Definition on_fs {A : Type} (m : M (fstate S) A) : M (world S) A :=
  fun w => match m w.(wfs) with
           | Ok (a, s') => Ok (a, MkWorld s' w.(dents) w.(mtx_depth))
           | Err f => Err f
           end.
Definition get_dent (f : Z) : M (world S) Dirent := gets (fun w => w.(dents) f).
Definition set_dent (f : Z) (d : Dirent) : M (world S) unit :=
  modify (fun w => MkWorld w.(wfs) (upd w.(dents) f d) w.(mtx_depth)).
Definition upd_dent (f : Z) (g : Dirent -> Dirent) : M (world S) unit :=
  modify (fun w => MkWorld w.(wfs) (upd w.(dents) f (g (w.(dents) f))) w.(mtx_depth)).
Definition mtx_lock_file : M (world S) unit :=
  modify (fun w => MkWorld w.(wfs) w.(dents) (w.(mtx_depth) + 1)).
Definition mtx_unlock_file : M (world S) unit :=
  modify (fun w => MkWorld w.(wfs) w.(dents) (w.(mtx_depth) - 1)).

(** [kvmAlloc] as the file system uses it: a zeroed page, or the kernel stops. *)
Definition zero_table {A : Type} (a : A) : Z -> A := fun _ => a.
Definition kvm_page : M (world S) unit :=
  fun w => let s := w.(wfs) in
    if s.(kpages) <=? 0 then Err Panic
    else Ok (tt, MkWorld (MkFst s.(store) s.(alloced_clus) s.(kmem) s.(umem) (s.(kpages) - 1))
                         w.(dents) w.(mtx_depth)).
Definition kvm_page_back : M (world S) unit :=
  modify (fun w => let s := w.(wfs) in
    MkWorld (MkFst s.(store) s.(alloced_clus) s.(kmem) s.(umem) (s.(kpages) + 1)) w.(dents) w.(mtx_depth)).

(** ** The table of cluster numbers *)

Definition upd_pointer (f : Z) (g : DirentPointer -> DirentPointer) : M (world S) unit :=
  upd_dent f (fun d => with_file d.(first_clus) d.(file_size) (g d.(pointer)) d).

Definition filepnt_setval (file i value : Z) : M (world S) unit :=
  let index1 := wrap32 (wrap64 i / PAGE_NCLUSNO) in
  let index2 := wrap32 (wrap64 i mod PAGE_NCLUSNO) in
  if NDIRENT_SECPOINTER <=? index1 then
    let* d := get_dent file in
    (match d.(pointer).(third) with
     | None => kvm_page ;;;
               upd_pointer file (fun p => MkPtr p.(second) (Some (zero_table None)) p.(pvalid))
     | Some _ => ret tt
     end) ;;;
    let index1 := index1 - NDIRENT_SECPOINTER in
    if PAGE_SIZE / 8 <=? index1 then fail Undef
    else
      let* d := get_dent file in
      match d.(pointer).(third) with
      | None => fail BadPtr
      | Some t =>
          match t index1 with
          | None =>
              kvm_page ;;;
              upd_pointer file (fun p =>
                MkPtr p.(second) (Some (upd t index1 (Some (upd (zero_table 0) index2 (wrap32 value))))) p.(pvalid))
          | Some pg =>
              upd_pointer file (fun p =>
                MkPtr p.(second) (Some (upd t index1 (Some (upd pg index2 (wrap32 value))))) p.(pvalid))
          end
      end
  else
    let* d := get_dent file in
    match d.(pointer).(second) index1 with
    | None =>
        kvm_page ;;;
        upd_pointer file (fun p =>
          MkPtr (upd p.(second) index1 (Some (upd (zero_table 0) index2 (wrap32 value)))) p.(third) p.(pvalid))
    | Some pg =>
        upd_pointer file (fun p =>
          MkPtr (upd p.(second) index1 (Some (upd pg index2 (wrap32 value)))) p.(third) p.(pvalid))
    end.

(** The page and the slot in it where the number of cluster [i] is kept. *)
Definition table_page (p : DirentPointer) (i : Z) : res (option TwicePointer) :=
  let ind1 := wrap32 (wrap64 i / PAGE_NCLUSNO) in
  if ind1 <? NDIRENT_SECPOINTER then Ok (p.(second) ind1)
  else
    let ind1 := ind1 - NDIRENT_SECPOINTER in
    if negb (ind1 <? PAGE_SIZE / 8) then Err Panic
    else match p.(third) with
         | None => Err Panic
         | Some t => Ok (t ind1)
         end.
Definition filepnt_getclusbyno (file fileClusNo : Z) : M (world S) Z := fun w =>
  match table_page (w.(dents) file).(pointer) fileClusNo with
  | Err f => Err f
  | Ok None => Err Panic
  | Ok (Some pg) =>
      let r := pg (wrap32 (wrap64 fileClusNo mod PAGE_NCLUSNO)) in
      if r =? 0 then Err Panic else Ok (r, w)
  end.

Fixpoint filepnt_init_loop (fuel : nat) (file clus i : Z) : M (world S) unit :=
  if FAT32_NOT_END_CLUSTER clus then
    match fuel with
    | O => fail NoFuel
    | Datatypes.S fuel' =>
        filepnt_setval file i clus ;;;
        let* c := on_fs (fatRead fs (wrap64 clus)) in
        filepnt_init_loop fuel' file (sext32 c) (sext32 (i + 1))
    end
  else ret tt.
Definition filepnt_init (fuel : nat) (file : Z) : M (world S) unit :=
  let* d := get_dent file in
  if d.(pointer).(pvalid) =? 0 then
    let clus := sext32 d.(first_clus) in
    if clus =? 0 then ret tt
    else
      filepnt_init_loop fuel file clus 0 ;;;
      upd_pointer file (fun p => MkPtr p.(second) p.(third) 1)
  else ret tt.

(** [kvmFree] of the pages [g] names among indices [0 .. n-1]. *)
Fixpoint free_pages {A : Type} (n : nat) (g : Z -> option A) : M (world S) unit :=
  match n with
  | O => ret tt
  | Datatypes.S n' =>
      free_pages n' g ;;;
      match g (Z.of_nat n') with Some _ => kvm_page_back | None => ret tt end
  end.
Definition filepnt_clear (file : Z) : M (world S) unit :=
  let* d := get_dent file in
  if negb (d.(pointer).(pvalid) =? 0) then
    free_pages (Z.to_nat NDIRENT_SECPOINTER) d.(pointer).(second) ;;;
    match d.(pointer).(third) with
    | Some t => free_pages (Z.to_nat (PAGE_SIZE / 8)) t ;;; kvm_page_back
    | None => ret tt
    end
  else ret tt.

(** ** Reading *)

Fixpoint file_read_loop (fuel : nat) (file : Z) (user : bool) (clusIndex ende dst n len : Z) : M (world S) unit :=
  let clusSize := fs.(bytes_per_clus) in
  if wrap32 (clusIndex * clusSize) <=? ende then
    match fuel with
    | O => fail NoFuel
    | Datatypes.S fuel' =>
        let* clus := filepnt_getclusbyno file clusIndex in
        let k := Z.min clusSize (wrap32 (n - len)) in
        on_fs (clusterRead fs clus 0 (dst + len) k user) ;;;
        file_read_loop fuel' file user (wrap32 (clusIndex + 1)) ende dst n (wrap32 (len + k))
    end
  else ret tt.

Definition file_read (file : Z) (user : bool) (dst off n : Z) : M (world S) Z :=
  mtx_lock_file ;;;
  let* d := get_dent file in
  if d.(file_size) <=? off then mtx_unlock_file ;;; ret 0
  else
    let n := if d.(file_size) <? wrap32 (off + n) then wrap32 (d.(file_size) - off) else n in
    if n =? 0 then mtx_unlock_file ;;; ret 0
    else
      let ende := wrap32 (off + n - 1) in
      let clusSize := fs.(bytes_per_clus) in
      let offset := off mod clusSize in
      let clusIndex := off / clusSize in
      let* clus := filepnt_getclusbyno file clusIndex in
      let k := Z.min n (wrap32 (clusSize - offset)) in
      on_fs (clusterRead fs clus offset dst k user) ;;;
      file_read_loop (Z.to_nat (n / clusSize + 2)) file user (wrap32 (clusIndex + 1)) ende dst n k ;;;
      mtx_unlock_file ;;;
      ret (sext32 n).

(** ** Growing and writing *)

(** [sync_dirent_rawdata_back], given [file_write] for the parent directory. *)
Definition sync_dirent_rawdata_back (write : Z -> bool -> Z -> Z -> Z -> M (world S) Z) (file : Z)
  : M (world S) unit :=
  let* d := get_dent file in
  on_fs (put_bytes false (raw_addr file + 20) (le_bytes 2 (d.(first_clus) / 65536))) ;;;
  on_fs (put_bytes false (raw_addr file + 26) (le_bytes 2 (d.(first_clus) mod 65536))) ;;;
  on_fs (put_bytes false (raw_addr file + 28) (le_bytes 4 d.(file_size))) ;;;
  if d.(parent_dirent) =? 0 then ret tt
  else
    write d.(parent_dirent) false (raw_addr file) d.(parent_dir_off) DIR_SIZE ;;;
    ret tt.

Fixpoint file_extend_loop (fuel : nat) (file newSize clus clusIndex : Z) : M (world S) unit :=
  let clusSize := fs.(bytes_per_clus) in
  if wrap32 ((clusIndex + 1) * clusSize) <? newSize then
    match fuel with
    | O => fail NoFuel
    | Datatypes.S fuel' =>
        let* c := on_fs (clusterAlloc fs clus) in
        filepnt_setval file (wrap32 (clusIndex + 1)) (wrap32 c) ;;;
        file_extend_loop fuel' file newSize (wrap32 c) (wrap32 (clusIndex + 1))
    end
  else ret tt.

(** Step 1: the size before growing; an empty file first gets a cluster and
    counts as one byte long. *)
Definition extend_first (file : Z) (d : Dirent) : M (world S) Z :=
  if negb (d.(first_clus) =? 0) then ret d.(file_size)
  else
    let* c := on_fs (clusterAlloc fs 0) in
    upd_dent file (fun d => with_file (wrap32 c) d.(file_size) d.(pointer) d) ;;;
    filepnt_setval file 0 (wrap32 c) ;;;
    ret 1.

Definition file_extend (write : Z -> bool -> Z -> Z -> Z -> M (world S) Z) (file newSize : Z)
  : M (world S) unit :=
  let* d := get_dent file in
  massert (d.(file_size) <? wrap32 newSize) ;;;
  upd_dent file (fun d => with_file d.(first_clus) (wrap32 newSize) d.(pointer) d) ;;;
  let clusSize := fs.(bytes_per_clus) in
  let* oldSize := extend_first file d in
  let old_clusters := wrap32 (oldSize + clusSize - 1) / clusSize in
  let* clus := filepnt_getclusbyno file (sext32 (old_clusters - 1)) in
  file_extend_loop (Z.to_nat (newSize / clusSize + 1)) file (wrap32 newSize) clus (wrap32 (old_clusters - 1)) ;;;
  sync_dirent_rawdata_back write file.

Fixpoint file_write_loop (fuel : nat) (file : Z) (user : bool) (clusIndex ende src n len : Z) : M (world S) unit :=
  let clusSize := fs.(bytes_per_clus) in
  if wrap32 (clusIndex * clusSize) <=? ende then
    match fuel with
    | O => fail NoFuel
    | Datatypes.S fuel' =>
        let* clus := filepnt_getclusbyno file clusIndex in
        let k := Z.min clusSize (wrap32 (n - len)) in
        on_fs (clusterWrite fs clus 0 (src + len) k user) ;;;
        file_write_loop fuel' file user (wrap32 (clusIndex + 1)) ende src n (wrap32 (len + k))
    end
  else ret tt.

(** [fuel] bounds the nesting: writing a file may grow it, which writes its
    entry in the parent directory. *)
Fixpoint file_write (fuel : nat) (file : Z) (user : bool) (src off n : Z) : M (world S) Z :=
  match fuel with
  | O => fail NoFuel
  | Datatypes.S fuel' =>
      mtx_lock_file ;;;
      massert (negb (n =? 0)) ;;;
      let* d := get_dent file in
      (if d.(file_size) <? wrap32 (off + n)
       then file_extend (file_write fuel') file (sext32 (wrap32 (off + n)))
       else ret tt) ;;;
      let ende := wrap32 (off + n - 1) in
      let clusSize := fs.(bytes_per_clus) in
      let offset := off mod clusSize in
      let clusIndex := off / clusSize in
      let* clus := filepnt_getclusbyno file clusIndex in
      let k := Z.min n (wrap32 (clusSize - offset)) in
      on_fs (clusterWrite fs clus offset src k user) ;;;
      file_write_loop (Z.to_nat (n / clusSize + 2)) file user (wrap32 (clusIndex + 1)) ende src n k ;;;
      mtx_unlock_file ;;;
      ret (sext32 n)
  end.

(** ** Shrinking *)

Definition PGROUNDUP (a : Z) : Z := Z.land (a + 4095) (Z.lnot 4095).

(** The loop that clears the rest of the last page, 1024 bytes at a time. *)
Fixpoint shrink_clear (n fuel : nat) (file i newsize : Z) : M (world S) unit :=
  if wrap64 i <? wrap64 (PGROUNDUP newsize) then
    match n with
    | O => fail NoFuel
    | Datatypes.S n' =>
        file_write fuel file false STACK_BUF (wrap32 i)
          (wrap32 (Z.min 1024 (wrap64 (PGROUNDUP newsize - i)))) ;;;
        shrink_clear n' fuel file (sext32 (i + 1024)) newsize
    end
  else ret tt.

Fixpoint clear_table (n : nat) (file i : Z) : M (world S) unit :=
  match n with
  | O => ret tt
  | Datatypes.S n' => filepnt_setval file i 0 ;;; clear_table n' file (i + 1)
  end.

(** Step 2: cutting the chain behind the first [new_clusters] clusters. *)
Definition shrink_free (file new_clusters old_clusters : Z) : M (world S) unit :=
  if new_clusters <? old_clusters then
    let* last_clus := filepnt_getclusbyno file new_clusters in
    (if negb (new_clusters =? 0) then
       let* prev_clus := filepnt_getclusbyno file (new_clusters - 1) in
       on_fs (fatWrite fs prev_clus FAT32_EOF)
     else ret tt) ;;;
    on_fs (clus_sequence_free (Z.to_nat fs.(data_clus_cnt)) fs (sext32 last_clus)) ;;;
    clear_table (Z.to_nat (old_clusters - new_clusters)) file new_clusters
  else ret tt.

Definition file_shrink (fuel : nat) (file newsize : Z) : M (world S) unit :=
  mtx_lock_file ;;;
  let* d := get_dent file in
  massert (newsize <=? d.(file_size)) ;;;
  let oldsize := d.(file_size) in
  let clusSize := fs.(bytes_per_clus) in
  on_fs (put_bytes false STACK_BUF (replicate 1024 0)) ;;;
  (if negb (oldsize mod PAGE_SIZE =? 0) then shrink_clear 5 fuel file (sext32 newsize) newsize else ret tt) ;;;
  let new_clusters := wrap32 (wrap64 (newsize + clusSize - 1) / clusSize) in
  let old_clusters := wrap32 (oldsize + clusSize - 1) / clusSize in
  shrink_free file new_clusters old_clusters ;;;
  upd_dent file (fun d => with_file (if newsize =? 0 then 0 else d.(first_clus)) (wrap32 newsize) d.(pointer) d) ;;;
  sync_dirent_rawdata_back (file_write fuel) file ;;;
  mtx_unlock_file.

(** ** Status *)

Definition S_IFDIR : Z := 16384.   (* 0040000 *)
Definition S_IFCHR : Z := 8192.    (* 0020000 *)
Definition S_IFBLK : Z := 24576.   (* 0060000 *)
Definition S_IFREG : Z := 32768.   (* 0100000 *)
(** "ssh_host_" and "empty" *)
Definition ssh_host_ : list Z := [115; 115; 104; 95; 104; 111; 115; 116; 95].
Definition empty_ : list Z := [101; 109; 112; 116; 121].

Definition get_file_mode (d : Dirent) : Z :=
  let m := if bool_decide (take 9 d.(name) = ssh_host_) then 384 (* 0600 *)
           else if bool_decide (take 5 d.(name) = empty_) then 457 (* 0711 *)
           else d.(mode) in
  if d.(dtype) =? DIRENT_DIR then Z.lor m S_IFDIR
  else if d.(dtype) =? DIRENT_FILE then Z.lor m S_IFREG
  else if d.(dtype) =? DIRENT_CHARDEV then Z.lor m S_IFCHR
  else if d.(dtype) =? DIRENT_BLKDEV then Z.lor m S_IFBLK
  else Z.lor m S_IFREG.
End Files.

(** ** A file as a sequence of bytes *)

(** Cluster number the table holds for cluster [i] of the file. *)
Definition tbl (p : DirentPointer) (i : Z) : option Z :=
  match table_page p i with
  | Ok (Some pg) => Some (pg (wrap32 (wrap64 i mod PAGE_NCLUSNO)))
  | _ => None
  end.
(** How many clusters a table can hold. *)
Definition TABLE_MAX : Z := (NDIRENT_SECPOINTER + PAGE_SIZE / 8) * PAGE_NCLUSNO.

Definition nth_clus (l : list Z) (i : Z) : Z := nth (Z.to_nat i) l 0.

(** Byte [o] of the file whose clusters are [l]. *)
Definition fbyte (fs : FileSystem) (d : Z -> Z) (l : list Z) (o : Z) : Z :=
  d (clus_addr fs (nth_clus l (o / fs.(bytes_per_clus))) + o mod fs.(bytes_per_clus)).

(** [l] are the clusters of the file: the chain in the table of the volume,
    the same in the file's own table, and as many as the size needs. *)
Record file_ok (fs : FileSystem) (d : Z -> Z) (f : Dirent) (l : list Z) : Prop := {
  fo_chain : f.(first_clus) = 0 /\ l = [] \/ chain fs d f.(first_clus) l /\ l <> [];
  fo_table : forall i, 0 <= i < Z.of_nat (length l) -> tbl f.(pointer) i = Some (nth_clus l i);
  fo_size : 0 <= f.(file_size) <= fs.(bytes_per_clus) * Z.of_nat (length l) /\
            fs.(bytes_per_clus) * (Z.of_nat (length l) - 1) < f.(file_size) + (if bool_decide (l = []) then 1 else 0);
  fo_max : f.(file_size) < 2147483648 /\ Z.of_nat (length l) <= TABLE_MAX
}.

Lemma file_ok_valid fs d f l i :
  file_ok fs d f l -> 0 <= i < Z.of_nat (length l) -> valid_clus fs (nth_clus l i).
Proof.
  intros Hf Hi. destruct (fo_chain _ _ _ _ Hf) as [[_ ->]|[Hc _]]; [cbn in Hi; lia|].
  eapply chain_valid; [exact Hc|]. apply list_elem_of_In. apply nth_In. lia.
Qed.
Lemma file_ok_ext fs d d' f l :
  fs_ok fs -> (forall p, 0 <= p -> d p = d' p) -> file_ok fs d f l -> file_ok fs d' f l.
Proof.
  intros Hfs H [Hc Ht Hs Hm]. constructor; auto.
  destruct Hc as [Hc|[Hc Hn]]; [now left|]. right. split; [|exact Hn].
  eapply chain_frame; [|exact Hc]. intros x Hx. apply (fatv_ext fs Hfs);
    [eapply chain_valid; eauto|now apply fat0|]. intros q Hq. symmetry. auto.
Qed.

Section FileOps.
Context {S : Type} {SS : SectorStore S} {SL : SectorStoreLaws S}.
Context (fs : FileSystem) (Hfs : fs_ok fs).
Abbreviation bpc := (fs.(bytes_per_clus)).

Lemma bpc_pos : 512 <= bpc <= 130560.
Proof using Hfs. destruct Hfs. lia. Qed.

Definition wdisk (w : world S) : Z -> Z := disk_of w.(wfs).
Definition winv (w : world S) : Prop := ss_inv w.(wfs).(store).
Definition wmem (u : bool) (w : world S) : Z -> Z := mem_of u w.(wfs).

Lemma on_fs_run {A} (m : M (fstate S) A) w a s' :
  m w.(wfs) = Ok (a, s') -> on_fs m w = Ok (a, MkWorld s' w.(dents) w.(mtx_depth)).
Proof. unfold on_fs. now intros ->. Qed.

Lemma getclus_ok (w : world S) f l i :
  file_ok fs (wdisk w) (w.(dents) f) l -> 0 <= i < Z.of_nat (length l) ->
  filepnt_getclusbyno f i w = Ok (nth_clus l i, w).
Proof.
  intros Hf Hi. pose proof (fo_table _ _ _ _ Hf i Hi) as Ht. unfold filepnt_getclusbyno, tbl in *.
  destruct (table_page _ i) as [[pg|]|]; try discriminate. injection Ht as Ht. rewrite Ht.
  pose proof (file_ok_valid _ _ _ _ i Hf Hi) as Hv. unfold valid_clus in Hv.
  rewrite (proj2 (Z.eqb_neq _ _)) by lia. reflexivity.
Qed.

(** [w'] has the memory [m']; everything else is that of [w]. *)
Record wmem_step (u : bool) (w w' : world S) (m' : Z -> Z) : Prop := {
  wm_step : mem_step u w.(wfs) w'.(wfs) m';
  wm_dents : w'.(dents) = w.(dents);
  wm_depth : w'.(mtx_depth) = w.(mtx_depth)
}.
Lemma wmem_trans u w w1 w2 m1 m2 : wmem_step u w w1 m1 -> wmem_step u w1 w2 m2 -> wmem_step u w w2 m2.
Proof. intros [] []. constructor; [eapply mem_step_trans; eauto|congruence|congruence]. Qed.
Lemma wmem_ext u w w' m m' : wmem_step u w w' m -> (forall x, m x = m' x) -> wmem_step u w w' m'.
Proof. intros [] H. constructor; auto. eapply mem_step_ext; eauto. Qed.

(** Cluster-relative position of a byte of the file. *)
Lemma fbyte_in_cluster d l ci o : 0 <= o < bpc -> fbyte fs d l (ci * bpc + o) = d (clus_addr fs (nth_clus l ci) + o).
Proof.
  intros Ho. unfold fbyte. pose proof bpc_pos.
  replace ((ci * bpc + o) / bpc) with ci by (rewrite Z.div_add_l, Z.div_small by lia; lia).
  replace ((ci * bpc + o) mod bpc) with o; [reflexivity|].
  rewrite Z.add_comm, Z.mod_add, Z.mod_small by lia. reflexivity.
Qed.
Lemma clus_pos_nonneg c o : valid_clus fs c -> 0 <= o -> 0 <= clus_addr fs c + o.
Proof. intros Hc Ho. pose proof (clus_addr_bound fs Hfs c Hc). pose proof (first_data_nonneg fs Hfs). lia. Qed.

Lemma fbyte_ext d d' f l o :
  file_ok fs d f l -> (forall p, 0 <= p -> d' p = d p) -> 0 <= o < f.(file_size) ->
  fbyte fs d' l o = fbyte fs d l o.
Proof.
  intros Hf Hd Ho. pose proof bpc_pos. pose proof (fo_size _ _ _ _ Hf) as [Hs _].
  unfold fbyte. apply Hd, clus_pos_nonneg.
  - eapply file_ok_valid; [exact Hf|]. split; [apply Z.div_pos; lia|apply Z.div_lt_upper_bound; lia].
  - apply Z.mod_pos_bound. lia.
Qed.

(** Reading [k] bytes at offset [o] of cluster [ci] of the file. *)
Lemma read_part w f l ci o dst k u :
  winv w -> file_ok fs (wdisk w) (w.(dents) f) l -> 0 <= ci < Z.of_nat (length l) ->
  0 <= o -> 0 <= k -> o + k <= bpc ->
  exists w', on_fs (clusterRead fs (nth_clus l ci) o dst k u) w = Ok (tt, w') /\
    wmem_step u w w' (dset (wmem u w) dst k (fun i => fbyte fs (wdisk w) l (ci * bpc + o + i))).
Proof.
  intros Hi Hf Hci Ho Hk Hl.
  destruct (clusterRead_ok fs Hfs (nth_clus l ci) o dst k u w.(wfs)) as (s' & E & H); auto.
  { eapply file_ok_valid; eauto. }
  rewrite (on_fs_run _ _ _ _ E). eexists. split; [reflexivity|]. constructor; [|reflexivity|reflexivity].
  eapply mem_step_ext; [exact H|]. intros x. unfold dset. destruct (_ && _) eqn:Ex; [|reflexivity]. zbool.
  rewrite <- (Z.add_assoc (ci * bpc)), fbyte_in_cluster by lia.
  unfold wdisk. f_equal. lia.
Qed.

Lemma file_read_loop_ok fuel f l off n u dst : forall ci len w,
  winv w -> file_ok fs (wdisk w) (w.(dents) f) l ->
  0 <= off -> off + n <= (w.(dents) f).(file_size) -> 0 <= len <= n -> 0 < n -> 0 <= ci ->
  off + len <= ci * bpc <= off + len + bpc -> (len < n -> off + len = ci * bpc) ->
  n - len <= bpc * Z.of_nat fuel ->
  exists w', file_read_loop fs fuel f u ci (off + n - 1) dst n len w = Ok (tt, w') /\
    wmem_step u w w' (dset (wmem u w) (dst + len) (n - len) (fun i => fbyte fs (wdisk w) l (off + len + i))).
Proof using Hfs SL.
  pose proof bpc_pos as Hb.
  induction fuel as [|fuel IH]; intros ci len w Hi Hf Ho Hn Hl Hn0 Hci Hpos Heq Hfu; cbn [file_read_loop];
    pose proof (fo_max _ _ _ _ Hf) as [Hmax _]; pose proof (fo_size _ _ _ _ Hf) as [Hsz _];
    rewrite (wrap32_small (ci * _)) by lia.
  - destruct (Z.leb_spec (ci * bpc) (off + n - 1)); [lia|]. exists w. split; [reflexivity|].
    constructor; [|reflexivity|reflexivity]. eapply mem_step_ext; [now apply mem_step_refl|].
    intros x. now rewrite dset_out by lia.
  - destruct (Z.leb_spec (ci * bpc) (off + n - 1)) as [Hle|Hgt].
    2:{ exists w. split; [reflexivity|].
        constructor; [|reflexivity|reflexivity]. eapply mem_step_ext; [now apply mem_step_refl|].
        intros x. rewrite dset_out; [reflexivity|]. lia. }
    assert (Hlt : len < n) by lia. specialize (Heq Hlt).
    assert (Hcl : ci < Z.of_nat (length l)) by nia.
    erewrite bind_run by (apply (getclus_ok w f l); auto; lia).
    rewrite (wrap32_small (n - len)) by lia. set (k := Z.min bpc (n - len)).
    destruct (read_part w f l ci 0 (dst + len) k u Hi Hf) as (w1 & E1 & H1); [lia|lia|lia|lia|].
    erewrite bind_run by exact E1. rewrite (wrap32_small (ci + 1)), (wrap32_small (len + k)) by nia.
    destruct H1 as [Hs1 Hd1 Hdep1].
    assert (Hdisk : forall p, 0 <= p -> wdisk w1 p = wdisk w p) by apply Hs1.
    destruct (IH (ci + 1) (len + k) w1) as (w2 & E2 & H2);
      [apply Hs1| |lia|now rewrite Hd1|lia|lia|lia|lia|lia|lia|].
    { rewrite Hd1. apply (file_ok_ext fs (wdisk w)); [exact Hfs|intros; symmetry; now apply Hdisk|exact Hf]. }
    exists w2. split; [exact E2|].
    eapply wmem_ext; [eapply wmem_trans; [constructor; eassumption|exact H2]|].
    intros x. erewrite dset_base by (apply (ms_mem _ _ _ _ Hs1)). apply dset_app; try lia.
    + intros i Hi'. f_equal. lia.
    + intros i Hi'. replace (off + (len + k) + i) with (off + len + (k + i)) by lia.
      apply (fbyte_ext _ (wdisk w1) (w.(dents) f)); auto; lia.
Qed.

Definition read_len (size off n : Z) : Z := if size <=? off then 0 else Z.min n (size - off).

Lemma file_read_ok f l off n u dst w :
  winv w -> file_ok fs (wdisk w) (w.(dents) f) l ->
  0 <= off -> 0 <= n -> off + n < 4294967296 ->
  let k := read_len (w.(dents) f).(file_size) off n in
  exists w', file_read fs f u dst off n w = Ok (k, w') /\
    wmem_step u w w' (dset (wmem u w) dst k (fun i => fbyte fs (wdisk w) l (off + i))).
Proof using Hfs SL.
  intros Hi Hf Ho Hn Hov k. pose proof bpc_pos as Hb.
  pose proof (fo_max _ _ _ _ Hf) as [Hmax _]. pose proof (fo_size _ _ _ _ Hf) as [Hsz _].
  assert (Hsame : forall w', w'.(wfs) = w.(wfs) -> w'.(dents) = w.(dents) -> w'.(mtx_depth) = w.(mtx_depth) -> k = 0 ->
    wmem_step u w w' (dset (wmem u w) dst k (fun i => fbyte fs (wdisk w) l (off + i)))).
  { intros w' E1 E2 E3 E4. constructor; auto. rewrite E1. eapply mem_step_ext; [now apply mem_step_refl|].
    intros x. rewrite dset_out by lia. reflexivity. }
  unfold file_read. cbv [mtx_lock_file modify]. erewrite bind_run by reflexivity.
  erewrite bind_run by reflexivity. cbn [dents]. unfold read_len in k.
  destruct (Z.leb_spec (w.(dents) f).(file_size) off) as [Hge|Hlt].
  { subst k. eexists. split; [reflexivity|]. apply Hsame; auto. cbn. lia. }
  rewrite (wrap32_small (off + n)) by lia.
  assert (En : (if file_size (dents w f) <? off + n then wrap32 (file_size (dents w f) - off) else n) = k).
  { subst k. destruct (Z.ltb_spec (file_size (dents w f)) (off + n)); [rewrite wrap32_small|]; lia. }
  rewrite En. destruct (Z.eqb_spec k 0) as [E0|Hk0].
  { eexists. split; [rewrite E0; reflexivity|]. apply Hsame; auto. cbn. lia. }
  set (w0 := MkWorld w.(wfs) w.(dents) (w.(mtx_depth) + 1)).
  rewrite (wrap32_small (off + k - 1)) by lia.
  set (ci := off / bpc). set (o := off mod bpc).
  assert (Hoff : off = ci * bpc + o /\ 0 <= o < bpc /\ 0 <= ci).
  { subst ci o. pose proof (Z.div_mod off bpc ltac:(lia)). pose proof (Z.mod_pos_bound off bpc ltac:(lia)).
    pose proof (Z.div_pos off bpc ltac:(lia) ltac:(lia)). lia. }
  assert (Hcl : ci < Z.of_nat (length l)) by nia.
  erewrite bind_run by (apply (getclus_ok w0 f l); auto; lia).
  rewrite (wrap32_small (bpc - o)) by lia. set (k1 := Z.min k (bpc - o)).
  destruct (read_part w0 f l ci o dst k1 u Hi Hf) as (w1 & E1 & H1); [lia|lia|lia|lia|].
  erewrite bind_run by exact E1. rewrite (wrap32_small (ci + 1)) by nia.
  destruct H1 as [Hs1 Hd1 Hdep1]. cbn [dents mtx_depth w0] in Hd1, Hdep1.
  assert (Hdisk : forall p, 0 <= p -> wdisk w1 p = wdisk w p) by apply Hs1.
  destruct (file_read_loop_ok (Z.to_nat (k / bpc + 2)) f l off k u dst (ci + 1) k1 w1) as (w2 & E2 & H2);
    [apply Hs1| |lia|rewrite Hd1; lia|lia|lia|lia|lia|lia| |].
  { rewrite Hd1. apply (file_ok_ext fs (wdisk w)); [exact Hfs|intros; symmetry; now apply Hdisk|exact Hf]. }
  { pose proof (Z.div_mod k bpc ltac:(lia)). pose proof (Z.mod_pos_bound k bpc ltac:(lia)). nia. }
  erewrite bind_run by exact E2. cbv [mtx_unlock_file modify bind ret]. rewrite sext32_small by lia.
  eexists. split; [reflexivity|]. destruct H2 as [Hs2 Hd2 Hdep2].
  constructor; [|cbn; congruence|cbn; lia].
  eapply mem_step_ext; [eapply (mem_step_trans u w.(wfs) w1.(wfs)); [exact Hs1|exact Hs2]|].
  intros x. erewrite dset_base by (apply (ms_mem _ _ _ _ Hs1)). apply dset_app; try lia.
  - intros i Hi'. unfold wdisk. cbn [wfs w0]. f_equal. lia.
  - intros i Hi'. replace (off + k1 + i) with (off + (k1 + i)) by lia.
    apply (fbyte_ext _ (wdisk w1) (w.(dents) f)); auto; lia.
Qed.

(** ** Writing inside the file *)

(** [d'] is [d] with bytes [a .. a+n-1] of the file on [l] set by [g]; the
    table of the volume and the clusters not in [l] are untouched. *)
Record fwrite (l : list Z) (a n : Z) (g : Z -> Z) (d d' : Z -> Z) : Prop := {
  fw_file : forall x, 0 <= x < bpc * Z.of_nat (length l) -> fbyte fs d' l x = dset (fbyte fs d l) a n g x;
  fw_meta : forall p, 0 <= p < 512 * fs.(first_data_sec) -> d' p = d p;
  fw_other : forall c o, valid_clus fs c -> c ∉ l -> 0 <= o < bpc -> d' (clus_addr fs c + o) = d (clus_addr fs c + o)
}.

Lemma fwrite_none l a n g d : n <= 0 -> fwrite l a n g d d.
Proof. intros. constructor; auto. intros. now rewrite dset_none. Qed.
Lemma fwrite_app l a n k b n' g g' h d d1 d2 :
  fwrite l a k g d d1 -> fwrite l b n' g' d1 d2 ->
  0 <= k <= n -> n' = n - k -> (k < n -> b = a + k) ->
  (forall i, 0 <= i < k -> g i = h i) -> (forall i, 0 <= i < n - k -> g' i = h (k + i)) ->
  fwrite l a n h d d2.
Proof.
  intros [F1 M1 O1] [F2 M2 O2] Hk Hn Hb Hg Hg'. constructor.
  - intros x Hx. rewrite F2 by auto. rewrite (dset_base _ (dset (fbyte fs d l) a k g)) by auto.
    now apply dset_app.
  - intros p Hp. rewrite M2, M1 by auto. reflexivity.
  - intros c o Hc Hn' Ho. rewrite O2, O1 by auto. reflexivity.
Qed.

Lemma nth_clus_inj l i j :
  NoDup l -> 0 <= i < Z.of_nat (length l) -> 0 <= j < Z.of_nat (length l) -> nth_clus l i = nth_clus l j -> i = j.
Proof.
  intros Hnd Hi Hj E. unfold nth_clus in E. apply NoDup_ListNoDup in Hnd.
  assert (Z.to_nat i = Z.to_nat j); [|lia].
  apply (proj1 (NoDup_nth l 0) Hnd); [lia|lia|exact E].
Qed.
Lemma nth_clus_in l i : 0 <= i < Z.of_nat (length l) -> nth_clus l i ∈ l.
Proof. intros Hi. apply list_elem_of_In, nth_In. lia. Qed.

Lemma fwrite_cluster l ci o k g d d' :
  NoDup l -> (forall c, c ∈ l -> valid_clus fs c) -> 0 <= ci < Z.of_nat (length l) ->
  0 <= o -> 0 <= k -> o + k <= bpc ->
  (forall p, 0 <= p -> d' p = dset d (clus_addr fs (nth_clus l ci) + o) k g p) ->
  fwrite l (ci * bpc + o) k g d d'.
Proof.
  intros Hnd Hv Hci Ho Hk Hl Hd. pose proof bpc_pos as Hb.
  pose proof (Hv _ (nth_clus_in l ci Hci)) as Hc. pose proof (clus_addr_bound fs Hfs _ Hc) as Hca.
  pose proof (first_data_nonneg fs Hfs) as Hz. constructor.
  - intros x Hx. pose proof (Z.div_mod x bpc ltac:(lia)) as Ex. pose proof (Z.mod_pos_bound x bpc ltac:(lia)) as Hm.
    set (cj := x / bpc) in *. set (y := x mod bpc) in *.
    assert (Hcj : 0 <= cj < Z.of_nat (length l)) by (split; [apply Z.div_pos; lia|apply Z.div_lt_upper_bound; lia]).
    replace x with (cj * bpc + y) by lia. rewrite fbyte_in_cluster by lia.
    pose proof (Hv _ (nth_clus_in l cj Hcj)) as Hvj. rewrite Hd by (apply clus_pos_nonneg; auto; lia).
    destruct (Z.eq_dec cj ci) as [->|Hne].
    + unfold dset. rewrite fbyte_in_cluster by lia. zcases. f_equal. lia.
    + assert (nth_clus l cj <> nth_clus l ci) by (intros E; apply Hne; eapply nth_clus_inj; eauto).
      rewrite dset_out by (destruct (clus_addr_disjoint fs Hfs (nth_clus l cj) (nth_clus l ci)); auto; lia).
      rewrite dset_out; [now rewrite fbyte_in_cluster by lia|].
      destruct (Z.lt_total cj ci) as [?|[?|?]]; [left|lia|right]; nia.
  - intros p Hp. rewrite Hd by lia. apply dset_out. lia.
  - intros c y Hc' Hn Hy. rewrite Hd by (apply clus_pos_nonneg; auto; lia). apply dset_out.
    assert (c <> nth_clus l ci) by (intros ->; apply Hn, nth_clus_in, Hci).
    destruct (clus_addr_disjoint fs Hfs c (nth_clus l ci)); auto; lia.
Qed.

Lemma file_ok_nodup d f l : file_ok fs d f l -> NoDup l /\ forall c, c ∈ l -> valid_clus fs c.
Proof.
  intros Hf. destruct (fo_chain _ _ _ _ Hf) as [[_ ->]|[Hc _]].
  - split; [constructor|]. intros c Hc. now apply not_elem_of_nil in Hc.
  - split; [eapply chain_nodup; eauto|]. intros c Hin. eapply chain_valid; eauto.
Qed.
Lemma chain_meta d d' c l :
  (forall p, 0 <= p < 512 * fs.(first_data_sec) -> d' p = d p) -> chain fs d c l -> chain fs d' c l.
Proof.
  intros Hm Hc. eapply chain_frame; [|exact Hc]. intros x Hx.
  destruct (fat_addr_bound fs Hfs 0 x (chain_valid _ _ _ _ _ Hc Hx) (fat0 fs Hfs)) as [H1 H2].
  unfold fatv, word_at. rewrite !Hm by lia. reflexivity.
Qed.
Lemma file_ok_meta d d' f l :
  (forall p, 0 <= p < 512 * fs.(first_data_sec) -> d' p = d p) -> file_ok fs d f l -> file_ok fs d' f l.
Proof.
  intros Hm [Hc Ht Hs Hx]. constructor; auto. destruct Hc as [Hc|[Hc Hn]]; [now left|].
  right. split; [|exact Hn]. eapply chain_meta; eauto.
Qed.

(** Only the disk of [w] changed. *)
Record wdisk_step (w w' : world S) : Prop := {
  wd_inv : winv w';
  wd_mem : forall u, wmem u w' = wmem u w;
  wd_pages : w'.(wfs).(kpages) = w.(wfs).(kpages);
  wd_dents : w'.(dents) = w.(dents);
  wd_depth : w'.(mtx_depth) = w.(mtx_depth)
}.
Lemma wdisk_step_trans w w1 w2 : wdisk_step w w1 -> wdisk_step w1 w2 -> wdisk_step w w2.
Proof. intros [] []. constructor; congruence || auto. Qed.
Lemma wdisk_step_refl w : winv w -> wdisk_step w w.
Proof. now constructor. Qed.
Lemma wdisk_of_step w s' d' :
  disk_step w.(wfs) s' d' -> wdisk_step w (MkWorld s' w.(dents) w.(mtx_depth)).
Proof.
  intros []. constructor; auto. intros []; unfold wmem; cbn; auto.
Qed.

Lemma write_part w f l ci o src k u :
  winv w -> file_ok fs (wdisk w) (w.(dents) f) l -> 0 <= ci < Z.of_nat (length l) ->
  0 <= o -> 0 <= k -> o + k <= bpc ->
  exists w', on_fs (clusterWrite fs (nth_clus l ci) o src k u) w = Ok (tt, w') /\
    wdisk_step w w' /\ fwrite l (ci * bpc + o) k (fun i => wmem u w (src + i)) (wdisk w) (wdisk w').
Proof.
  intros Hi Hf Hci Ho Hk Hl. destruct (file_ok_nodup _ _ _ Hf) as [Hnd Hv].
  destruct (clusterWrite_ok fs Hfs (nth_clus l ci) o src k u w.(wfs)) as (s' & E & H); auto.
  { eapply file_ok_valid; eauto. }
  rewrite (on_fs_run _ _ _ _ E). eexists. split; [reflexivity|]. split; [eapply wdisk_of_step; eauto|].
  apply fwrite_cluster; auto. intros p Hp. apply H. exact Hp.
Qed.

Lemma file_write_loop_ok fuel f l off n u src : forall ci len w,
  winv w -> file_ok fs (wdisk w) (w.(dents) f) l ->
  0 <= off -> off + n <= (w.(dents) f).(file_size) -> 0 <= len <= n -> 0 < n -> 0 <= ci ->
  off + len <= ci * bpc <= off + len + bpc -> (len < n -> off + len = ci * bpc) ->
  n - len <= bpc * Z.of_nat fuel ->
  exists w', file_write_loop fs fuel f u ci (off + n - 1) src n len w = Ok (tt, w') /\
    wdisk_step w w' /\ fwrite l (off + len) (n - len) (fun i => wmem u w (src + len + i)) (wdisk w) (wdisk w').
Proof using Hfs SL.
  pose proof bpc_pos as Hb.
  induction fuel as [|fuel IH]; intros ci len w Hi Hf Ho Hn Hl Hn0 Hci Hpos Heq Hfu; cbn [file_write_loop];
    pose proof (fo_max _ _ _ _ Hf) as [Hmax _]; pose proof (fo_size _ _ _ _ Hf) as [Hsz _];
    rewrite (wrap32_small (ci * _)) by lia.
  - destruct (Z.leb_spec (ci * bpc) (off + n - 1)); [lia|]. exists w. split; [reflexivity|].
    split; [now apply wdisk_step_refl|]. apply fwrite_none. lia.
  - destruct (Z.leb_spec (ci * bpc) (off + n - 1)) as [Hle|Hgt].
    2:{ exists w. split; [reflexivity|]. split; [now apply wdisk_step_refl|]. apply fwrite_none. lia. }
    assert (Hlt : len < n) by lia. specialize (Heq Hlt).
    assert (Hcl : ci < Z.of_nat (length l)) by nia.
    erewrite bind_run by (apply (getclus_ok w f l); auto; lia).
    rewrite (wrap32_small (n - len)) by lia. set (k := Z.min bpc (n - len)).
    destruct (write_part w f l ci 0 (src + len) k u Hi Hf) as (w1 & E1 & H1 & F1); [lia|lia|lia|lia|].
    erewrite bind_run by exact E1. rewrite (wrap32_small (ci + 1)), (wrap32_small (len + k)) by nia.
    destruct (IH (ci + 1) (len + k) w1) as (w2 & E2 & H2 & F2);
      [apply H1| |lia|now rewrite (wd_dents _ _ H1)|lia|lia|lia|lia|lia|lia|].
    { rewrite (wd_dents _ _ H1). eapply file_ok_meta; [|exact Hf]. apply F1. }
    exists w2. split; [exact E2|]. split; [eapply wdisk_step_trans; eauto|].
    rewrite Z.add_0_r in F1. rewrite <- Heq in F1. rewrite (wd_mem _ _ H1) in F2.
    eapply fwrite_app; [exact F1|exact F2|lia|lia|lia|reflexivity|].
    intros i Hi'. cbn beta. f_equal. lia.
Qed.

(** The part of [file_write] after the file has its size. *)
Definition write_body (f : Z) (u : bool) (src off n : Z) : M (world S) Z :=
  let ende := wrap32 (off + n - 1) in
  let* clus := filepnt_getclusbyno f (off / bpc) in
  let k := Z.min n (wrap32 (bpc - off mod bpc)) in
  on_fs (clusterWrite fs clus (off mod bpc) src k u) ;;;
  file_write_loop fs (Z.to_nat (n / bpc + 2)) f u (wrap32 (off / bpc + 1)) ende src n k ;;;
  mtx_unlock_file ;;;
  ret (sext32 n).

Lemma write_body_ok f l off n u src w :
  winv w -> file_ok fs (wdisk w) (w.(dents) f) l ->
  0 <= off -> 0 < n -> off + n <= (w.(dents) f).(file_size) ->
  exists w', write_body f u src off n w = Ok (n, w') /\
    fwrite l off n (fun i => wmem u w (src + i)) (wdisk w) (wdisk w') /\
    wdisk_step (MkWorld w.(wfs) w.(dents) (w.(mtx_depth) - 1)) w'.
Proof using Hfs SL.
  intros Hi Hf Ho Hn Hle. pose proof bpc_pos as Hb.
  pose proof (fo_max _ _ _ _ Hf) as [Hmax _]. pose proof (fo_size _ _ _ _ Hf) as [Hsz _].
  unfold write_body. rewrite (wrap32_small (off + n - 1)) by lia.
  set (ci := off / bpc). set (o := off mod bpc).
  assert (Hoff : off = ci * bpc + o /\ 0 <= o < bpc /\ 0 <= ci).
  { subst ci o. pose proof (Z.div_mod off bpc ltac:(lia)). pose proof (Z.mod_pos_bound off bpc ltac:(lia)).
    pose proof (Z.div_pos off bpc ltac:(lia) ltac:(lia)). lia. }
  assert (Hcl : ci < Z.of_nat (length l)) by nia.
  erewrite bind_run by (apply (getclus_ok w f l); auto; lia).
  rewrite (wrap32_small (bpc - o)) by lia. set (k1 := Z.min n (bpc - o)).
  destruct (write_part w f l ci o src k1 u Hi Hf) as (w1 & E1 & H1 & F1); [lia|lia|lia|lia|].
  erewrite bind_run by exact E1. rewrite (wrap32_small (ci + 1)) by nia.
  destruct (file_write_loop_ok (Z.to_nat (n / bpc + 2)) f l off n u src (ci + 1) k1 w1) as (w2 & E2 & H2 & F2);
    [apply H1| |lia|rewrite (wd_dents _ _ H1); lia|lia|lia|lia|lia|lia| |].
  { rewrite (wd_dents _ _ H1). eapply file_ok_meta; [|exact Hf]. apply F1. }
  { pose proof (Z.div_mod n bpc ltac:(lia)). pose proof (Z.mod_pos_bound n bpc ltac:(lia)). nia. }
  erewrite bind_run by exact E2. cbv [mtx_unlock_file modify bind ret]. rewrite sext32_small by lia.
  eexists. split; [reflexivity|]. rewrite (wd_mem _ _ H1) in F2. replace (ci * bpc + o) with off in F1 by lia.
  split.
  - eapply fwrite_app; [exact F1|exact F2|lia|lia|lia|reflexivity|]. intros i Hi'. cbn beta. f_equal. lia.
  - pose proof (wdisk_step_trans _ _ _ H1 H2) as []. constructor; auto. cbn. lia.
Qed.

Lemma file_write_inplace fuel f l off n u src w :
  (0 < fuel)%nat -> winv w -> file_ok fs (wdisk w) (w.(dents) f) l ->
  0 <= off -> 0 < n -> off + n <= (w.(dents) f).(file_size) ->
  exists w', file_write fs fuel f u src off n w = Ok (n, w') /\ wdisk_step w w' /\
    fwrite l off n (fun i => wmem u w (src + i)) (wdisk w) (wdisk w').
Proof using Hfs SL.
  intros Hfu Hi Hf Ho Hn Hle. destruct fuel as [|fuel]; [lia|]. cbn [file_write].
  pose proof (fo_max _ _ _ _ Hf) as [Hmax _].
  cbv [mtx_lock_file modify]. erewrite bind_run by reflexivity. rewrite massert_run by zcases.
  erewrite bind_run by reflexivity. cbn [dents]. rewrite wrap32_small by lia.
  destruct (Z.ltb_spec (file_size (dents w f)) (off + n)); [lia|]. erewrite bind_run by reflexivity.
  set (w0 := MkWorld w.(wfs) w.(dents) (w.(mtx_depth) + 1)).
  destruct (write_body_ok f l off n u src w0 Hi Hf Ho Hn Hle) as (w' & E & F & Hw).
  exists w'. split; [exact E|]. split; [|exact F].
  destruct Hw. constructor; cbn in *; auto. lia.
Qed.

(** ** Setting an entry of the file's table *)

(** [w'] is [w] with entry [i] of the table of [f] set; at most two pages were
    taken for it. *)
Record setval_step (w w' : world S) (f i v : Z) : Prop := {
  sv_fs : exists k, w.(wfs).(kpages) - 2 <= k <= w.(wfs).(kpages) /\
    w'.(wfs) = MkFst w.(wfs).(store) w.(wfs).(alloced_clus) w.(wfs).(kmem) w.(wfs).(umem) k;
  sv_dent : exists p, w'.(dents) f = with_file (w.(dents) f).(first_clus) (w.(dents) f).(file_size) p (w.(dents) f) /\
    tbl p i = Some v /\
    forall j x, 0 <= j < TABLE_MAX -> j <> i -> tbl (w.(dents) f).(pointer) j = Some x -> tbl p j = Some x;
  sv_others : forall g, g <> f -> w'.(dents) g = w.(dents) g;
  sv_depth : w'.(mtx_depth) = w.(mtx_depth)
}.

Lemma tbl_index i : 0 <= i < TABLE_MAX ->
  wrap32 (wrap64 i / PAGE_NCLUSNO) = i / 1024 /\ wrap32 (wrap64 i mod PAGE_NCLUSNO) = i mod 1024 /\
  0 <= i / 1024 < 517 /\ 0 <= i mod 1024 < 1024.
Proof.
  unfold TABLE_MAX, PAGE_NCLUSNO, NDIRENT_SECPOINTER. change ((5 + PAGE_SIZE / 8) * 1024) with 529408.
  intros Hi. rewrite (wrap64_small i) by lia. unfold wrap32. rewrite !Z.mod_small by zlia. zlia.
Qed.
Lemma tbl_low p i : 0 <= i < TABLE_MAX -> i / 1024 < 5 ->
  tbl p i = option_map (fun pg : TwicePointer => pg (i mod 1024)) (p.(second) (i / 1024)).
Proof.
  intros Hi Hlo. destruct (tbl_index i Hi) as (E1 & E2 & H1 & H2). unfold tbl, table_page.
  rewrite E1, E2. unfold NDIRENT_SECPOINTER. destruct (Z.ltb_spec (i / 1024) 5); [|lia]. now destruct (second p _).
Qed.
Lemma tbl_high p i : 0 <= i < TABLE_MAX -> 5 <= i / 1024 ->
  tbl p i = match p.(third) with
            | Some t => option_map (fun pg : TwicePointer => pg (i mod 1024)) (t (i / 1024 - 5))
            | None => None
            end.
Proof.
  intros Hi Hhi. destruct (tbl_index i Hi) as (E1 & E2 & H1 & H2). unfold tbl, table_page.
  rewrite E1, E2. unfold NDIRENT_SECPOINTER. destruct (Z.ltb_spec (i / 1024) 5); [lia|].
  change (PAGE_SIZE / 8) with 512. destruct (Z.ltb_spec (i / 1024 - 5) 512); [|lia]. cbn [negb].
  destruct (third p) as [t|]; [|reflexivity]. now destruct (t _).
Qed.

(** Setting a cell of a page found at [q] in a directory of pages. *)
Definition set_cell (dir : Z -> option TwicePointer) (q r v : Z) : Z -> option TwicePointer :=
  upd dir q (Some (upd (match dir q with Some pg => pg | None => zero_table 0 end) r v)).
Lemma set_cell_same dir q r v :
  option_map (fun pg : TwicePointer => pg r) (set_cell dir q r v q) = Some v.
Proof. unfold set_cell. rewrite upd_eq. cbn. now rewrite upd_eq. Qed.
Lemma set_cell_other dir q r v q' r' x :
  (q', r') <> (q, r) -> option_map (fun pg : TwicePointer => pg r') (dir q') = Some x ->
  option_map (fun pg : TwicePointer => pg r') (set_cell dir q r v q') = Some x.
Proof.
  intros Hne H. unfold set_cell. destruct (Z.eq_dec q' q) as [->|]; [|now rewrite upd_ne].
  rewrite upd_eq. destruct (dir q) as [pg|]; [|discriminate]. cbn in *.
  rewrite upd_ne; [exact H|]. congruence.
Qed.
Lemma index_ne i j : i <> j -> (j / 1024, j mod 1024) <> (i / 1024, i mod 1024).
Proof. intros Hne [= E1 E2]. apply Hne. zlia. Qed.

Lemma setval_step_intro w w' f i v p k :
  w.(wfs).(kpages) - 2 <= k <= w.(wfs).(kpages) ->
  w'.(wfs) = MkFst w.(wfs).(store) w.(wfs).(alloced_clus) w.(wfs).(kmem) w.(wfs).(umem) k ->
  w'.(dents) f = with_file (w.(dents) f).(first_clus) (w.(dents) f).(file_size) p (w.(dents) f) ->
  (forall g, g <> f -> w'.(dents) g = w.(dents) g) -> w'.(mtx_depth) = w.(mtx_depth) ->
  tbl p i = Some v ->
  (forall j x, 0 <= j < TABLE_MAX -> j <> i -> tbl (w.(dents) f).(pointer) j = Some x -> tbl p j = Some x) ->
  setval_step w w' f i v.
Proof. intros. constructor; eauto. Qed.

Lemma setval_ok f i v w :
  0 <= i < TABLE_MAX -> 0 <= v < 4294967296 -> 2 <= w.(wfs).(kpages) ->
  exists w', filepnt_setval f i v w = Ok (tt, w') /\ setval_step w w' f i v.
Proof using.
  intros Hi Hv Hk. destruct (tbl_index i Hi) as (E1 & E2 & H1 & H2).
  unfold filepnt_setval. rewrite E1, E2, (wrap32_small v) by auto. unfold NDIRENT_SECPOINTER.
  destruct (Z.leb_spec 5 (i / 1024)) as [Hhi|Hlo].
  - change (PAGE_SIZE / 8) with 512. destruct (Z.leb_spec 512 (i / 1024 - 5)); [lia|].
    set (d := w.(dents) f). set (p := d.(pointer)).
    set (t := match p.(third) with Some t => t | None => zero_table None end).
    set (p' := MkPtr p.(second) (Some (set_cell t (i / 1024 - 5) (i mod 1024) v)) p.(pvalid)).
    assert (Hp : tbl p' i = Some v /\ forall j x, 0 <= j < TABLE_MAX -> j <> i -> tbl p j = Some x -> tbl p' j = Some x).
    { split; [rewrite tbl_high by auto; apply set_cell_same|]. intros j x Hj Hne Hx.
      destruct (Z_lt_le_dec (j / 1024) 5); [rewrite tbl_low in * by auto; exact Hx|].
      rewrite tbl_high in * by auto. cbn [third p']. apply set_cell_other.
      - intros [= E3 E4]. apply (index_ne i j); [auto|]. f_equal; lia.
      - unfold t. destruct (third p); [exact Hx|discriminate]. }
    destruct Hp as [Hp1 Hp2].
    cbv [bind get_dent gets]. fold d. destruct (third d.(pointer)) as [t0|] eqn:Et.
    + cbv [ret]. fold d. rewrite Et.
      assert (Ett : t = t0) by (unfold t, p; now rewrite Et).
      destruct (t0 (i / 1024 - 5)) as [pg|] eqn:Ep; cbv [kvm_page bind upd_pointer upd_dent modify].
      * eexists. split; [reflexivity|].
        eapply (setval_step_intro _ _ _ _ _ p' w.(wfs).(kpages)); cbn; auto; [lia|now destruct (wfs w)| |intros; now apply upd_ne].
        rewrite upd_eq. fold d. unfold p', set_cell. now rewrite Ett, Ep.
      * destruct (Z.leb_spec w.(wfs).(kpages) 0); [lia|]. eexists. split; [reflexivity|].
        eapply (setval_step_intro _ _ _ _ _ p' (w.(wfs).(kpages) - 1)); cbn; auto; [lia| |intros; now apply upd_ne].
        rewrite upd_eq. fold d. unfold p', set_cell. now rewrite Ett, Ep.
    + cbv [kvm_page bind upd_pointer upd_dent modify]. destruct (Z.leb_spec w.(wfs).(kpages) 0); [lia|].
      cbn [wfs dents mtx_depth kpages store alloced_clus kmem umem]. rewrite upd_eq. fold d.
      cbn [pointer with_file third]. unfold zero_table at 1.
      assert (Ett : t = zero_table None) by (unfold t, p; now rewrite Et).
      cbn [wfs kpages]. destruct (Z.leb_spec (w.(wfs).(kpages) - 1) 0); [lia|]. eexists. split; [reflexivity|].
      eapply (setval_step_intro _ _ _ _ _ p' (w.(wfs).(kpages) - 1 - 1)); cbn; auto; [lia| |intros; now rewrite !upd_ne].
      rewrite upd_eq. fold d. rewrite upd_eq. unfold p', set_cell. now rewrite Ett.
  - set (d := w.(dents) f). set (p := d.(pointer)).
    set (p' := MkPtr (set_cell p.(second) (i / 1024) (i mod 1024) v) p.(third) p.(pvalid)).
    assert (Hp : tbl p' i = Some v /\ forall j x, 0 <= j < TABLE_MAX -> j <> i -> tbl p j = Some x -> tbl p' j = Some x).
    { split; [rewrite tbl_low by auto; apply set_cell_same|]. intros j x Hj Hne Hx.
      destruct (Z_lt_le_dec (j / 1024) 5); [|rewrite tbl_high in * by auto; exact Hx].
      rewrite tbl_low in * by auto. cbn [second p']. apply set_cell_other; [|exact Hx]. now apply index_ne; auto. }
    destruct Hp as [Hp1 Hp2].
    cbv [bind get_dent gets]. fold d. destruct (second d.(pointer) (i / 1024)) as [pg|] eqn:Ep;
      cbv [kvm_page bind upd_pointer upd_dent modify].
    + eexists. split; [reflexivity|].
      eapply (setval_step_intro _ _ _ _ _ p' w.(wfs).(kpages)); cbn; auto; [lia|now destruct (wfs w)| |intros; now apply upd_ne].
      rewrite upd_eq. fold d. unfold p', set_cell, p. now rewrite Ep.
    + destruct (Z.leb_spec w.(wfs).(kpages) 0); [lia|]. eexists. split; [reflexivity|].
      eapply (setval_step_intro _ _ _ _ _ p' (w.(wfs).(kpages) - 1)); cbn; auto; [lia| |intros; now apply upd_ne].
      rewrite upd_eq. fold d. unfold p', set_cell, p. now rewrite Ep.
Qed.

(** ** Growing a file *)

(** At least [n] clusters above [a] are free. *)
Inductive free_above (d : Z -> Z) : Z -> nat -> Prop :=
| fa_none a : free_above d a 0
| fa_some a c n : a < c -> valid_clus fs c -> fatv fs d 0 c = 0 -> free_above d c n -> free_above d a (Datatypes.S n).

Lemma free_above_lower d a b n : b <= a -> free_above d a n -> free_above d b n.
Proof. intros Hb H. destruct H; econstructor; eauto; lia. Qed.
Lemma free_above_frame d d' a n :
  (forall x, valid_clus fs x -> a < x -> fatv fs d' 0 x = fatv fs d 0 x) -> free_above d a n -> free_above d' a n.
Proof.
  intros Hx H. induction H as [a|a c n Hac Hv Hf Hr IH]; [constructor|].
  apply (fa_some _ _ c); auto; [now rewrite Hx|]. apply IH. intros x Hv' Hlt. apply Hx; auto. lia.
Qed.
Lemma free_above_first d a n :
  1 <= a -> free_above d a (Datatypes.S n) ->
  exists c, a < c /\ valid_clus fs c /\ fatv fs d 0 c = 0 /\
    (forall x, a + 1 <= x < c -> fatv fs d 0 x <> 0) /\ free_above d c n.
Proof.
  intros Ha H. inversion H as [|a' c' n' Hac Hv Hf Hr]; subst.
  destruct (first_free fs d (a + 1) (Z.to_nat (c' - a))) as [(c & Hc & Hz & Hno)|Hno].
  - exists c. split; [lia|]. split; [unfold valid_clus in *; lia|]. split; [exact Hz|]. split; [exact Hno|].
    eapply free_above_lower; [|exact Hr]. lia.
  - exfalso. apply (Hno c'); [lia|exact Hf].
Qed.

(** The disk after clusters [l2] were added behind those of [l]. *)
Record extended (l l2 : list Z) (d d' : Z -> Z) : Prop := {
  ex_free : forall x, x ∈ l2 -> valid_clus fs x /\ fatv fs d 0 x = 0;
  ex_zero : forall x o, x ∈ l2 -> 0 <= o < bpc -> d' (clus_addr fs x + o) = 0;
  ex_data : forall x o, valid_clus fs x -> x ∉ l2 -> 0 <= o < bpc -> d' (clus_addr fs x + o) = d (clus_addr fs x + o);
  ex_fat : forall x, valid_clus fs x -> x ∉ l -> x ∉ l2 -> fatv fs d' 0 x = fatv fs d 0 x
}.
Lemma extended_refl l d d' : (forall p, 0 <= p -> d' p = d p) -> extended l [] d d'.
Proof.
  intros H. constructor; try (intros ? Hx; now apply not_elem_of_nil in Hx).
  - intros x o Hx. now apply not_elem_of_nil in Hx.
  - intros x o Hv _ Ho. apply H, clus_pos_nonneg; auto; lia.
  - intros x Hv _ _. apply (fatv_ext fs Hfs); auto using fat0.
Qed.

Lemma chain_nonzero d c l x : chain fs d c l -> x ∈ l -> fatv fs d 0 x <> 0.
Proof.
  intros Hc Hx. apply list_elem_of_split in Hx as (l1 & l2 & ->).
  pose proof (chain_suffix _ _ _ _ l1 x l2 eq_refl Hc) as (_ & _ & Hs).
  destruct l2 as [|y l2]; cbn [chain] in Hs; [lia|]. destruct Hs as (-> & Hv & _). unfold valid_clus in Hv. lia.
Qed.

(** One more cluster. *)
Lemma alloc_extended d l prev c :
  valid_clus fs c -> prev = 0 \/ valid_clus fs prev -> prev = 0 \/ prev ∈ l -> fatv fs d 0 c = 0 ->
  extended l [c] d (alloc_disk fs d prev c).
Proof.
  intros Hc Hp Hpl Hf. pose proof (clus_addr_bound fs Hfs c Hc) as Hb. constructor.
  - intros x ->%list_elem_of_singleton. auto.
  - intros x o ->%list_elem_of_singleton Ho. rewrite (alloc_disk_data fs) by (auto; lia). zcases.
  - intros x o Hv Hn Ho. rewrite list_elem_of_singleton in Hn. pose proof (clus_addr_bound fs Hfs x Hv).
    rewrite (alloc_disk_data fs) by (auto; lia).
    destruct (clus_addr_disjoint fs Hfs x c Hn); zcases.
  - intros x Hv Hn Hn2. rewrite list_elem_of_singleton in Hn2.
    rewrite (alloc_disk_entry fs) by (auto using fat0). destruct (Z.eqb_spec x c); [contradiction|].
    destruct (Z.eqb_spec x prev) as [->|]; [|reflexivity]. destruct Hpl; [|contradiction].
    subst. unfold valid_clus in Hv. lia.
Qed.
Lemma chain_snoc d first l prev c :
  chain fs d first (l ++ [prev]) -> valid_clus fs c -> fatv fs d 0 c = 0 ->
  chain fs (alloc_disk fs d prev c) first ((l ++ [prev]) ++ [c]).
Proof.
  intros Hch Hc Hf. pose proof (chain_nodup _ _ _ _ Hfs Hch) as Hnd.
  assert (Hpv : valid_clus fs prev) by (eapply chain_valid; [exact Hch|]; apply elem_of_app; right; left).
  assert (Hnc : c ∉ l ++ [prev]) by (intros Hin; now apply (chain_nonzero _ _ _ c Hch)).
  assert (Hpne : c <> prev) by (intros ->; apply Hnc, elem_of_app; right; left).
  assert (Hlast : chain fs (alloc_disk fs d prev c) prev [prev; c]).
  { cbn [chain]. rewrite !(alloc_disk_entry fs) by (auto using fat0). rewrite Z.eqb_refl.
    destruct (Z.eqb_spec prev c); [congruence|]. rewrite !(alloc_disk_entry fs) by (auto using fat0).
    rewrite !Z.eqb_refl. unfold FAT32_EOF. repeat split; auto; try lia. all: unfold valid_clus in *; lia. }
  revert first Hch. clear Hf Hpne.
  induction l as [|y l IH]; intros first Hch.
  - cbn [app chain] in Hch |- *. destruct Hch as (<- & Hv & _). exact Hlast.
  - cbn [app] in Hch, Hnd |- *. apply NoDup_cons in Hnd as [Hny Hnd]. destruct Hch as (-> & Hv & Hr). cbn [chain].
    split; [reflexivity|]. split; [exact Hv|]. rewrite (alloc_disk_entry fs) by (auto using fat0).
    destruct (Z.eqb_spec first c) as [->|].
    + exfalso. apply Hnc. left.
    + destruct (Z.eqb_spec first prev) as [->|]; [exfalso; apply Hny, elem_of_app; right; left|].
      apply IH; auto. intros Hin. apply Hnc. now right.
Qed.

Lemma extended_app l l2 l3 d d1 d2 :
  extended l l2 d d1 -> (forall x, x ∈ l ++ l2 -> fatv fs d1 0 x <> 0) -> extended (l ++ l2) l3 d1 d2 ->
  extended l (l2 ++ l3) d d2.
Proof.
  intros [F1 Z1 D1 T1] Hnz [F2 Z2 D2 T2].
  assert (Hdis : forall x, x ∈ l3 -> x ∉ l ++ l2) by (intros x Hx Hin; apply (Hnz x Hin); apply F2, Hx).
  constructor.
  - intros x [Hx|Hx]%elem_of_app; [auto|]. destruct (F2 x Hx) as [Hv Hf]. split; [exact Hv|].
    specialize (Hdis x Hx). rewrite elem_of_app in Hdis. rewrite <- (T1 x); tauto.
  - intros x o [Hx|Hx]%elem_of_app Ho; [|auto]. rewrite D2; [auto|now apply F1| |exact Ho].
    intros Hx3. apply (Hdis x Hx3), elem_of_app. auto.
  - intros x o Hv Hn Ho. rewrite elem_of_app in Hn. rewrite D2, D1 by tauto. reflexivity.
  - intros x Hv Hn Hn2. rewrite elem_of_app in Hn2. rewrite T2 by (rewrite ?elem_of_app; tauto).
    apply T1; tauto.
Qed.

(** [w'] differs from [w] on the disk, in the size, first cluster and table of
    [f], and in the pages taken for the table. *)
Record grown (f : Z) (w w' : world S) : Prop := {
  gr_inv : winv w';
  gr_mem : forall u, wmem u w' = wmem u w;
  gr_others : forall g, g <> f -> w'.(dents) g = w.(dents) g;
  gr_dent : exists a b p, w'.(dents) f = with_file a b p (w.(dents) f);
  gr_depth : w'.(mtx_depth) = w.(mtx_depth)
}.
Lemma grown_trans f w w1 w2 : grown f w w1 -> grown f w1 w2 -> grown f w w2.
Proof.
  intros [I1 M1 O1 (a & b & p & D1) P1] [I2 M2 O2 (a2 & b2 & p2 & D2) P2].
  constructor; auto; try congruence.
  - intros g Hg. rewrite O2, O1 by auto. reflexivity.
  - exists a2, b2, p2. now rewrite D2, D1.
Qed.
Lemma grown_disk f w w' : wdisk_step w w' -> grown f w w'.
Proof.
  intros []. constructor; auto; [intros; congruence|]. rewrite wd_dents0.
  exists (w.(dents) f).(first_clus), (w.(dents) f).(file_size), (w.(dents) f).(pointer). now destruct (dents w f).
Qed.
Lemma grown_setval f i v w w' : winv w -> setval_step w w' f i v ->
  grown f w w' /\ (forall p, wdisk w' p = wdisk w p).
Proof.
  intros Hi [(k & _ & E) (p & Hd & _) Ho Hdep]. split.
  - constructor; auto; [unfold winv; now rewrite E| |eauto].
    intros []; unfold wmem, mem_of; now rewrite E.
  - intros q. unfold wdisk, disk_of. now rewrite E.
Qed.

(** The table of the file names the clusters [l]. *)
Definition table_ok (f : Dirent) (l : list Z) : Prop :=
  forall i, 0 <= i < Z.of_nat (length l) -> tbl f.(pointer) i = Some (nth_clus l i).

Lemma table_ok_snoc w w' f l c :
  table_ok (w.(dents) f) l -> Z.of_nat (length l) < TABLE_MAX ->
  setval_step w w' f (Z.of_nat (length l)) c -> table_ok (w'.(dents) f) (l ++ [c]).
Proof.
  intros Ht Hm [_ (p & Hd & Hs & Ho) _ _] i Hi. rewrite length_app in Hi. cbn in Hi. rewrite Hd. cbn [pointer with_file].
  unfold nth_clus. destruct (Z.eq_dec i (Z.of_nat (length l))) as [->|Hne].
  - rewrite Hs, app_nth2 by lia. now rewrite Nat2Z.id, Nat.sub_diag.
  - rewrite app_nth1 by lia. apply Ho; [lia|lia|]. apply Ht. lia.
Qed.

Definition clusters_of (n : Z) : Z := (n + bpc - 1) / bpc.
Lemma clusters_of_iff n k : clusters_of n = k <-> bpc * (k - 1) < n <= bpc * k.
Proof.
  unfold clusters_of. pose proof bpc_pos.
  pose proof (Z.div_mod (n + bpc - 1) bpc ltac:(lia)). pose proof (Z.mod_pos_bound (n + bpc - 1) bpc ltac:(lia)).
  split; [intros <-; lia|]. intros Hk. symmetry. apply (Z.div_unique _ _ _ (n + bpc - 1 - bpc * k)); lia.
Qed.

Lemma file_extend_loop_ok fuel f newSize first : forall l prev w need,
  winv w -> chain fs (wdisk w) first (l ++ [prev]) -> table_ok (w.(dents) f) (l ++ [prev]) ->
  0 < newSize < 2147483648 -> Z.of_nat (length (l ++ [prev])) + Z.of_nat need = clusters_of newSize ->
  clusters_of newSize <= TABLE_MAX -> free_above (wdisk w) prev need ->
  2 * Z.of_nat need <= w.(wfs).(kpages) -> (need <= fuel)%nat ->
  exists w' l2, file_extend_loop fs fuel f newSize prev (Z.of_nat (length l)) w = Ok (tt, w') /\
    length l2 = need /\ grown f w w' /\ extended (l ++ [prev]) l2 (wdisk w) (wdisk w') /\
    chain fs (wdisk w') first ((l ++ [prev]) ++ l2) /\ table_ok (w'.(dents) f) ((l ++ [prev]) ++ l2) /\
    (w'.(dents) f).(first_clus) = (w.(dents) f).(first_clus) /\ (w'.(dents) f).(file_size) = (w.(dents) f).(file_size).
Proof using Hfs SL.
  pose proof bpc_pos as Hb. unfold TABLE_MAX. change ((NDIRENT_SECPOINTER + PAGE_SIZE / 8) * PAGE_NCLUSNO) with 529408.
  induction fuel as [|fuel IH]; intros l prev w need Hi Hch Ht Hns Hlen Hmax Hfree Hk Hfu;
    pose proof (proj1 (clusters_of_iff _ _) (eq_sym Hlen)) as Hcl; rewrite length_app in *; cbn [length] in *;
    cbn [file_extend_loop].
  all: rewrite (wrap32_small ((Z.of_nat (length l) + 1) * _)) by nia.
  all: destruct (Z.ltb_spec ((Z.of_nat (length l) + 1) * bpc) newSize) as [Hlt|Hge].
  1: exfalso; nia.
  1,3: exists w, []; assert (need = 0%nat) as -> by nia; rewrite app_nil_r;
       split; [reflexivity|]; split; [reflexivity|];
       split; [apply grown_disk; now constructor|]; split; [now apply extended_refl|]; auto.
  destruct need as [|need]; [exfalso; nia|].
  assert (Hpv : valid_clus fs prev) by (eapply chain_valid; [exact Hch|]; apply elem_of_app; right; left).
  destruct (free_above_first (wdisk w) prev need ltac:(unfold valid_clus in Hpv; lia) Hfree) as (c & Hac & Hcv & Hcf & Hno & Hfr).
  assert (Est : alloc_start prev = prev + 1).
  { unfold alloc_start. destruct (Z.eqb_spec prev 0); [unfold valid_clus in Hpv; lia|reflexivity]. }
  destruct (clusterAlloc_ok fs Hfs c prev w.(wfs) Hi Hcv (or_intror Hpv)) as (s1 & E1 & H1);
    [lia|exact Hcf|now rewrite Est|].
  erewrite bind_run by (apply on_fs_run; exact E1).
  set (w1 := MkWorld s1 w.(dents) w.(mtx_depth)).
  assert (Hd1 : forall p, 0 <= p -> wdisk w1 p = alloc_disk fs (wdisk w) prev c p) by apply H1.
  assert (Hcr : 0 <= c < 4294967296) by (pose proof (ok_clus _ Hfs); unfold valid_clus in Hcv; lia).
  rewrite (wrap32_small c), (wrap32_small (Z.of_nat (length l) + 1)) by lia.
  assert (Hi1 : winv w1) by apply H1.
  destruct (setval_ok f (Z.of_nat (length l) + 1) c w1) as (w2 & E2 & H2); [|lia|cbn; rewrite (ds_kpages _ _ _ H1); lia|].
  { unfold TABLE_MAX. change ((NDIRENT_SECPOINTER + PAGE_SIZE / 8) * PAGE_NCLUSNO) with 529408. lia. }
  erewrite bind_run by exact E2.
  destruct (grown_setval _ _ _ _ _ Hi1 H2) as [G2 D2].
  assert (G01 : grown f w w1) by (apply grown_disk; eapply wdisk_of_step; exact H1).
  assert (Hd2 : forall p, 0 <= p -> wdisk w2 p = alloc_disk fs (wdisk w) prev c p).
  { intros p Hp. rewrite D2. auto. }
  assert (Hch2 : chain fs (wdisk w2) first ((l ++ [prev]) ++ [c])).
  { eapply chain_frame; [|apply chain_snoc; eauto]. intros x Hx.
    apply (fatv_ext fs Hfs); [|now apply fat0|exact Hd2].
    apply elem_of_app in Hx as [Hx| ->%list_elem_of_singleton]; [eapply chain_valid; eauto|exact Hcv]. }
  assert (Hk2 : w2.(wfs).(kpages) >= w.(wfs).(kpages) - 2).
  { destruct (sv_fs _ _ _ _ _ H2) as (k & Hk2 & ->). cbn in *. rewrite (ds_kpages _ _ _ H1) in Hk2. lia. }
  replace (Z.of_nat (length l) + 1) with (Z.of_nat (length (l ++ [prev]))) by (rewrite length_app; cbn; lia).
  destruct (IH (l ++ [prev]) c w2 need) as (w3 & l2 & E3 & L3 & G3 & X3 & C3 & T3 & F3 & S3).
  - apply G2.
  - exact Hch2.
  - apply (table_ok_snoc w1 w2); [exact Ht| |].
    + rewrite length_app. cbn. unfold TABLE_MAX. change ((NDIRENT_SECPOINTER + PAGE_SIZE / 8) * PAGE_NCLUSNO) with 529408. lia.
    + rewrite length_app. cbn. replace (Z.of_nat (length l + 1)) with (Z.of_nat (length l) + 1) by lia. exact H2.
  - exact Hns.
  - rewrite !length_app. cbn. lia.
  - exact Hmax.
  - eapply free_above_frame; [|exact Hfr]. intros x Hx Hgt.
    rewrite (fatv_ext fs Hfs _ _ 0 x Hx (fat0 fs Hfs) Hd2), (alloc_disk_entry fs) by (auto using fat0).
    destruct (Z.eqb_spec x c); [lia|]. destruct (Z.eqb_spec x prev); [lia|reflexivity].
  - lia.
  - lia.
  - exists w3, (c :: l2). split; [exact E3|]. split; [cbn; lia|].
    split; [eapply grown_trans; [exact G01|eapply grown_trans; eauto]|].
    rewrite <- (app_assoc (l ++ [prev]) [c] l2) in C3, T3. split; [|split; [exact C3|split; [exact T3|]]].
    + change (c :: l2) with ([c] ++ l2). eapply (extended_app _ _ _ _ (wdisk w2)); [|intros x Hx; exact (chain_nonzero _ _ _ x Hch2 Hx)|exact X3].
      assert (Hpin : prev ∈ l ++ [prev]) by (apply elem_of_app; right; left).
      pose proof (alloc_extended (wdisk w) (l ++ [prev]) prev c Hcv (or_intror Hpv) (or_intror Hpin) Hcf) as [F Z D T].
      constructor; auto.
      * intros x o Hx Ho. rewrite Hd2 by (apply clus_pos_nonneg; [apply F, Hx|lia]). auto.
      * intros x o Hv Hn Ho. rewrite Hd2 by (apply clus_pos_nonneg; [exact Hv|lia]). auto.
      * intros x Hv Hn Hn2. rewrite (fatv_ext fs Hfs _ _ 0 x Hv (fat0 fs Hfs) Hd2). auto.
    + destruct (sv_dent _ _ _ _ _ H2) as (p & Ed & _). rewrite F3, S3, Ed. auto.
Qed.

(** ** Writing the entry back into the parent directory *)

(** Kernel memory after the fields of [raw_dirent] were refreshed. *)
Definition sync_mem (f : Z) (d : Dirent) (m : Z -> Z) : Z -> Z :=
  mem_write (raw_addr f + 28) (le_bytes 4 d.(file_size))
    (mem_write (raw_addr f + 26) (le_bytes 2 (d.(first_clus) mod 65536))
       (mem_write (raw_addr f + 20) (le_bytes 2 (d.(first_clus) / 65536)) m)).

Lemma sync_mem_out f d m x : x < raw_addr f + 20 \/ raw_addr f + 32 <= x -> sync_mem f d m x = m x.
Proof using. intros H. unfold sync_mem. rewrite !mem_write_dset, !length_le_bytes. rewrite !dset_out by lia.
  rewrite !mem_write_dset, !length_le_bytes, dset_out by lia. rewrite !mem_write_dset, !length_le_bytes, dset_out by lia.
  reflexivity. Qed.
Lemma sync_mem_size f d m i : 0 <= i < 4 -> sync_mem f d m (raw_addr f + 28 + i) = byte_at (le_bytes 4 d.(file_size)) i.
Proof using. intros H. unfold sync_mem. rewrite mem_write_dset, length_le_bytes, dset_in by lia. f_equal. lia. Qed.

(** The entry of [f] lies inside its parent directory, which is the file on
    [lp]; the root has no parent. *)
Definition parent_ok (w : world S) (d : Z -> Z) (f : Z) (lp : list Z) : Prop :=
  let p := (w.(dents) f).(parent_dirent) in
  p = 0 /\ lp = [] \/
  p <> 0 /\ p <> f /\ file_ok fs d (w.(dents) p) lp /\ 0 <= (w.(dents) f).(parent_dir_off) /\
  (w.(dents) f).(parent_dir_off) + DIR_SIZE <= (w.(dents) p).(file_size).

(** What became of the parent's data. *)
Definition entry_written (w : world S) (f : Z) (lp : list Z) (m d d' : Z -> Z) : Prop :=
  fwrite lp (w.(dents) f).(parent_dir_off) (if (w.(dents) f).(parent_dirent) =? 0 then 0 else DIR_SIZE)
    (fun i => m (raw_addr f + i)) d d'.

Lemma sync_ok fuel f lp w :
  (0 < fuel)%nat -> winv w -> parent_ok w (wdisk w) f lp ->
  exists w', sync_dirent_rawdata_back (file_write fs fuel) f w = Ok (tt, w') /\ winv w' /\
    w'.(dents) = w.(dents) /\ w'.(mtx_depth) = w.(mtx_depth) /\ w'.(wfs).(kpages) = w.(wfs).(kpages) /\
    wmem true w' = wmem true w /\ wmem false w' = sync_mem f (w.(dents) f) (wmem false w) /\
    entry_written w f lp (wmem false w') (wdisk w) (wdisk w').
Proof using Hfs SL.
  intros Hfu Hi Hp. unfold sync_dirent_rawdata_back. erewrite bind_run by reflexivity.
  cbv [put_bytes on_fs modify]. do 3 (erewrite bind_run by reflexivity).
  set (d := w.(dents) f).
  set (w1 := MkWorld (MkFst w.(wfs).(store) w.(wfs).(alloced_clus) (sync_mem f d w.(wfs).(kmem)) w.(wfs).(umem)
                        w.(wfs).(kpages)) w.(dents) w.(mtx_depth)).
  match goal with |- context [_ ?x = Ok (tt, _)] => change x with w1 end.
  destruct Hp as [[Hp0 ->]|(Hp0 & Hpf & Hpo & Hoff & Hsz)]; fold d in Hp0.
  - rewrite Hp0. cbn [Z.eqb]. exists w1. split; [reflexivity|]. split; [exact Hi|].
    repeat (split; [reflexivity|]). unfold entry_written. fold d. rewrite Hp0. now apply fwrite_none.
  - rewrite (proj2 (Z.eqb_neq _ _) Hp0).
    destruct (file_write_inplace fuel d.(parent_dirent) lp d.(parent_dir_off) DIR_SIZE false (raw_addr f) w1)
      as (w2 & E2 & H2 & F2); auto; [unfold DIR_SIZE; lia|].
    erewrite bind_run by exact E2. exists w2. split; [reflexivity|]. split; [apply H2|].
    split; [apply H2|]. split; [apply H2|]. split; [apply H2|].
    rewrite (wd_mem _ _ H2). rewrite (wd_mem _ _ H2). repeat (split; [reflexivity|]).
    unfold entry_written. fold d. rewrite (proj2 (Z.eqb_neq _ _) Hp0). exact F2.
Qed.

(** ** [file_extend] *)

(** The cluster behind which the file grows: its last one, or from 2 on. *)
Definition grow_from (l : list Z) : Z := match l with [] => 1 | _ => List.last l 0 end.

Lemma extended_fbyte l l2 d d' x :
  extended l l2 d d' -> (forall c, c ∈ l -> valid_clus fs c) -> (forall c, c ∈ l -> c ∉ l2) ->
  0 <= x < bpc * Z.of_nat (length (l ++ l2)) ->
  fbyte fs d' (l ++ l2) x = if x <? bpc * Z.of_nat (length l) then fbyte fs d l x else 0.
Proof.
  intros [F Z0 D T] Hv Hdis Hx. pose proof bpc_pos as Hb. rewrite length_app in Hx.
  pose proof (Z.mod_pos_bound x bpc ltac:(lia)) as Hm. pose proof (Z.div_mod x bpc ltac:(lia)) as Ex.
  pose proof (Z.div_pos x bpc ltac:(lia) ltac:(lia)) as Hdp. unfold fbyte, nth_clus.
  destruct (Z.ltb_spec x (bpc * Z.of_nat (length l))) as [Hlt|Hge].
  - assert (x / bpc < Z.of_nat (length l)) by (apply Z.div_lt_upper_bound; lia).
    rewrite app_nth1 by lia. pose proof (nth_clus_in l (x / bpc) ltac:(lia)) as Hin. unfold nth_clus in Hin.
    apply D; auto.
  - assert (Z.of_nat (length l) <= x / bpc) by (apply Z.div_le_lower_bound; lia).
    assert (x / bpc < Z.of_nat (length l + length l2)) by (apply Z.div_lt_upper_bound; lia).
    rewrite app_nth2 by lia. apply Z0; [|exact Hm]. apply list_elem_of_In, nth_In. lia.
Qed.
Lemma extended_chain l l2 d d' c lg :
  extended l l2 d d' -> chain fs d c lg -> (forall x, x ∈ lg -> x ∉ l) -> chain fs d' c lg.
Proof.
  intros [F Z0 D T] Hc Hdis. eapply chain_frame; [|exact Hc]. intros x Hx.
  apply T; [eapply chain_valid; eauto|auto|]. intros Hx2. apply (chain_nonzero _ _ _ x Hc Hx). apply F, Hx2.
Qed.
Lemma extended_disjoint l l2 d d' f lg : extended l l2 d d' -> file_ok fs d f lg -> forall x, x ∈ lg -> x ∉ l2.
Proof.
  intros [F Z0 D T] Hf x Hx Hx2. destruct (fo_chain _ _ _ _ Hf) as [[_ ->]|[Hc _]].
  - now apply not_elem_of_nil in Hx.
  - apply (chain_nonzero _ _ _ x Hc Hx). apply F, Hx2.
Qed.
Lemma extended_file_ok l l2 d d' f lg :
  extended l l2 d d' -> file_ok fs d f lg -> (forall x, x ∈ lg -> x ∉ l) -> file_ok fs d' f lg.
Proof.
  intros He [Hc Ht Hs Hm] Hdis. constructor; auto. destruct Hc as [Hc|[Hc Hn]]; [now left|].
  right. split; [|exact Hn]. eapply extended_chain; eauto.
Qed.

Lemma grow_from_last l : l <> [] -> exists l0, l = l0 ++ [grow_from l].
Proof using.
  intros Hn. destruct l as [|x l]; [contradiction|]. unfold grow_from.
  exists (removelast (x :: l)). now apply app_removelast_last.
Qed.

Lemma clusters_of_size d l f : file_ok fs d f l -> l <> [] ->
  clusters_of f.(file_size) = Z.of_nat (length l) /\ 0 < f.(file_size) < 2147483648.
Proof.
  intros Hf Hn. pose proof (fo_size _ _ _ _ Hf) as [H1 H2]. pose proof (fo_max _ _ _ _ Hf) as [H3 _].
  rewrite bool_decide_false in H2 by auto. rewrite Z.add_0_r in H2. pose proof bpc_pos.
  assert (1 <= Z.of_nat (length l)) by (destruct l; [contradiction|cbn; lia]).
  split; [apply clusters_of_iff; lia|nia].
Qed.

(** After step 1 the file has a last cluster [prev]; [ln] is the cluster an
    empty file was given. *)
Record first_done (f : Z) (w w2 : world S) (l ln : list Z) (prev oldSize : Z) (n' : nat) : Prop := {
  fd_last : exists l0, l ++ ln = l0 ++ [prev];
  fd_old : clusters_of oldSize = Z.of_nat (length (l ++ ln)) /\ 0 < oldSize < 2147483648;
  fd_grown : grown f w w2;
  fd_ext : extended l ln (wdisk w) (wdisk w2);
  fd_chain : chain fs (wdisk w2) (w2.(dents) f).(first_clus) (l ++ ln);
  fd_table : table_ok (w2.(dents) f) (l ++ ln);
  fd_size : (w2.(dents) f).(file_size) = (w.(dents) f).(file_size);
  fd_free : free_above (wdisk w2) prev n';
  fd_pages : 2 * Z.of_nat n' <= w2.(wfs).(kpages)
}.

Lemma extend_first_ok f l need w d ns :
  winv w -> w.(dents) f = with_file d.(first_clus) ns d.(pointer) d -> file_ok fs (wdisk w) d l ->
  (l = [] -> (1 <= need)%nat) -> free_above (wdisk w) (grow_from l) need -> 2 * Z.of_nat need <= w.(wfs).(kpages) ->
  exists w2 ln prev oldSize n', extend_first fs f d w = Ok (oldSize, w2) /\ (length ln + n' = need)%nat /\
    first_done f w w2 l ln prev oldSize n'.
Proof using Hfs SL.
  intros Hi Hd Hf Hne Hfree Hk. pose proof bpc_pos as Hb. unfold extend_first.
  destruct (fo_chain _ _ _ _ Hf) as [[Hc0 ->]|[Hch Hl]].
  - rewrite Hc0. cbn [Z.eqb negb]. destruct need as [|need]; [specialize (Hne eq_refl); lia|].
    destruct (free_above_first (wdisk w) 1 need ltac:(lia) Hfree) as (c & Hac & Hcv & Hcf & Hno & Hfr).
    destruct (clusterAlloc_ok fs Hfs c 0 w.(wfs) Hi Hcv (or_introl eq_refl)) as (s1 & E1 & H1);
      [cbn; lia|exact Hcf|exact Hno|].
    erewrite bind_run by (apply on_fs_run; exact E1). cbv [upd_dent modify]. erewrite bind_run by reflexivity.
    assert (Hcr : 0 <= c < 4294967296) by (pose proof (ok_clus _ Hfs); unfold valid_clus in Hcv; lia).
    rewrite (wrap32_small c) by lia. cbn [wfs dents mtx_depth].
    set (w1 := MkWorld s1 _ _). assert (Hi1 : winv w1) by apply H1.
    assert (Hd1 : forall p, 0 <= p -> wdisk w1 p = alloc_disk fs (wdisk w) 0 c p) by apply H1.
    destruct (setval_ok f 0 c w1) as (w2 & E2 & H2); [cbv; split; congruence|lia|cbn; rewrite (ds_kpages _ _ _ H1); lia|].
    erewrite bind_run by exact E2. destruct (grown_setval _ _ _ _ _ Hi1 H2) as [G2 D2].
    assert (Hd2 : forall p, 0 <= p -> wdisk w2 p = alloc_disk fs (wdisk w) 0 c p) by (intros; rewrite D2; auto).
    assert (G1 : grown f w w1).
    { pose proof (wdisk_of_step w s1 _ H1) as []. constructor; auto; [intros; cbn; now apply upd_ne|].
      cbn. rewrite upd_eq. eauto. }
    pose proof (alloc_extended (wdisk w) [] 0 c Hcv (or_introl eq_refl) (or_introl eq_refl) Hcf) as [F Z0 D T].
    exists w2, [c], c, 1, need. split; [reflexivity|]. split; [reflexivity|]. constructor.
    + now exists [].
    + split; [apply clusters_of_iff; cbn; lia|lia].
    + eapply grown_trans; eauto.
    + constructor; auto.
      * intros x o Hx Ho. rewrite Hd2 by (apply clus_pos_nonneg; [apply F, Hx|lia]). auto.
      * intros x o Hv Hn Ho. rewrite Hd2 by (apply clus_pos_nonneg; [exact Hv|lia]). auto.
      * intros x Hv Hn Hn2. rewrite (fatv_ext fs Hfs _ _ 0 x Hv (fat0 fs Hfs) Hd2). auto.
    + destruct (sv_dent _ _ _ _ _ H2) as (p & Ed & _). rewrite Ed. cbn. rewrite upd_eq. cbn.
      split; [reflexivity|]. split; [exact Hcv|].
      rewrite (fatv_ext fs Hfs _ _ 0 c Hcv (fat0 fs Hfs) Hd2), (alloc_disk_entry fs) by (auto using fat0).
      rewrite Z.eqb_refl. cbv. split; congruence.
    + cbn [app]. change [c] with ([] ++ [c]). apply (table_ok_snoc w1 w2); [intros i Hi'; cbn in Hi'; lia|cbv; congruence|exact H2].
    + destruct (sv_dent _ _ _ _ _ H2) as (p & Ed & _). rewrite Ed. cbn. now rewrite upd_eq.
    + eapply free_above_frame; [|exact Hfr]. intros x Hx Hgt.
      rewrite (fatv_ext fs Hfs _ _ 0 x Hx (fat0 fs Hfs) Hd2), (alloc_disk_entry fs) by (auto using fat0).
      unfold valid_clus in Hx. destruct (Z.eqb_spec x c); [lia|]. destruct (Z.eqb_spec x 0); [lia|reflexivity].
    + destruct (sv_fs _ _ _ _ _ H2) as (k & Hk2 & ->). cbn in *. rewrite (ds_kpages _ _ _ H1) in Hk2. lia.
  - assert (Hc0 : (d.(first_clus) =? 0) = false).
    { destruct l as [|x l]; [contradiction|]. destruct Hch as (_ & Hv & _). unfold valid_clus in Hv. apply Z.eqb_neq. lia. }
    rewrite Hc0. cbn [negb]. destruct (grow_from_last l Hl) as [l0 El]. destruct (clusters_of_size _ _ _ Hf Hl) as [Ec Es].
    exists w, [], (grow_from l), d.(file_size), need. split; [reflexivity|]. split; [reflexivity|].
    constructor; rewrite ?app_nil_r; auto.
    + now exists l0.
    + apply grown_disk. now apply wdisk_step_refl.
    + now apply extended_refl.
    + now rewrite Hd.
    + rewrite Hd. intros i Hi'. apply Hf. exact Hi'.
Qed.

(** Everything [file_extend] does before writing the entry back. *)
Lemma extend_clusters f l newSize need w :
  winv w -> file_ok fs (wdisk w) (w.(dents) f) l ->
  (w.(dents) f).(file_size) < newSize < 2147483648 -> clusters_of newSize <= TABLE_MAX ->
  Z.of_nat (length l) + Z.of_nat need = clusters_of newSize ->
  free_above (wdisk w) (grow_from l) need -> 2 * Z.of_nat need <= w.(wfs).(kpages) ->
  forall (write : Z -> bool -> Z -> Z -> Z -> M (world S) Z),
  exists w' l2, file_extend fs write f newSize w = sync_dirent_rawdata_back write f w' /\
    length l2 = need /\ grown f w w' /\ extended l l2 (wdisk w) (wdisk w') /\
    file_ok fs (wdisk w') (w'.(dents) f) (l ++ l2) /\ (w'.(dents) f).(file_size) = newSize.
Proof using Hfs SL.
  intros Hi Hf Hns Hmax Hlen Hfree Hk write. pose proof bpc_pos as Hb.
  pose proof (fo_size _ _ _ _ Hf) as [Hsz _]. pose proof (proj1 (clusters_of_iff _ _) (eq_sym Hlen)) as Hcl.
  unfold file_extend. erewrite bind_run by reflexivity. rewrite (wrap32_small newSize) by lia.
  rewrite massert_run by zcases. cbv [upd_dent modify]. erewrite bind_run by reflexivity.
  set (d := w.(dents) f) in Hf, Hns, Hsz |- *. set (w1 := MkWorld w.(wfs) (upd w.(dents) f _) w.(mtx_depth)).
  assert (G1 : grown f w w1).
  { constructor; auto; [intros; cbn; now apply upd_ne|]. cbn. rewrite upd_eq. eauto. }
  assert (Hd1 : w1.(dents) f = with_file d.(first_clus) newSize d.(pointer) d) by (cbn; now rewrite upd_eq).
  destruct (extend_first_ok f l need w1 d newSize Hi Hd1 Hf) as (w2 & ln & prev & oldSize & n' & E2 & En & H2); auto.
  { intros ->. cbn in Hlen, Hcl. destruct need; [|lia]. cbn in *. nia. }
  erewrite bind_run by exact E2. destruct H2 as [[l0 El] [Eo Ho] G2 X2 C2 T2 S2 F2 K2].
  rewrite El in Eo, C2, T2.
  assert (Hll : Z.of_nat (length (l0 ++ [prev])) = Z.of_nat (length l) + Z.of_nat (length ln)).
  { rewrite <- El, length_app. lia. }
  rewrite (wrap32_small (oldSize + bpc - 1)) by lia. change ((oldSize + bpc - 1) / bpc) with (clusters_of oldSize).
  rewrite Eo. assert (Hlb : Z.of_nat (length (l0 ++ [prev])) <= TABLE_MAX) by lia.
  change TABLE_MAX with 529408 in Hlb. rewrite length_app in Hlb |- *. cbn [length] in Hlb |- *.
  replace (Z.of_nat (length l0 + 1) - 1) with (Z.of_nat (length l0)) by lia.
  rewrite sext32_small, (wrap32_small (Z.of_nat (length l0))) by lia.
  assert (Hg : filepnt_getclusbyno f (Z.of_nat (length l0)) w2 = Ok (prev, w2)).
  { assert (Hv : valid_clus fs prev) by (eapply chain_valid; [exact C2|apply elem_of_app; right; left]).
    specialize (T2 (Z.of_nat (length l0))). rewrite length_app in T2. cbn in T2. specialize (T2 ltac:(lia)).
    unfold nth_clus in T2. rewrite app_nth2, Nat2Z.id, Nat.sub_diag in T2 by lia. cbn in T2.
    unfold filepnt_getclusbyno, tbl in *. destruct (table_page _ _) as [[pg|]|]; try discriminate.
    injection T2 as ->. unfold valid_clus in Hv. rewrite (proj2 (Z.eqb_neq _ _)) by lia. reflexivity. }
  erewrite bind_run by exact Hg.
  destruct (file_extend_loop_ok (Z.to_nat (newSize / bpc + 1)) f newSize (w2.(dents) f).(first_clus) l0 prev w2 n')
    as (w3 & l3 & E3 & L3 & G3 & X3 & C3 & T3 & F3 & S3); auto; [apply G2|lia|lia| |].
  { unfold clusters_of in Hlen. pose proof (Z.div_pos newSize bpc ltac:(lia) ltac:(lia)).
    assert ((newSize + bpc - 1) / bpc <= newSize / bpc + 1); [|lia].
    replace (newSize / bpc + 1) with ((newSize + 1 * bpc) / bpc) by (rewrite Z.div_add by lia; lia).
    apply Z.div_le_mono; lia. }
  erewrite bind_run by exact E3. exists w3, (ln ++ l3). split; [reflexivity|].
  split; [rewrite length_app; lia|]. split; [eapply grown_trans; [exact G1|eapply grown_trans; eauto]|].
  rewrite <- El in C3, T3, X3. rewrite <- app_assoc in C3, T3.
  split; [|split; [|rewrite S3, S2, Hd1; reflexivity]].
  - eapply (extended_app _ _ _ _ (wdisk w2)); [exact X2| |exact X3]. intros x Hx. rewrite El in Hx.
    exact (chain_nonzero _ _ _ x C2 Hx).
  - assert (Hne : l ++ ln ++ l3 <> []) by (rewrite app_assoc, El; now destruct l0).
    constructor.
    + right. split; [now rewrite F3|exact Hne].
    + exact T3.
    + rewrite S3, S2, Hd1. cbn [file_size with_file]. rewrite bool_decide_false by exact Hne.
      rewrite !length_app in *. cbn in *. lia.
    + rewrite S3, S2, Hd1. cbn [file_size with_file]. rewrite !length_app in *. cbn in *. lia.
Qed.

(** ** [file_write] past the end *)

(** The disk after the file on [l] grew by [l2], its bytes [off .. off+n-1]
    were set by [g], and its entry in the parent on [lp] was rewritten by [e]. *)
Record wrote (l l2 lp : list Z) (off n poff pn : Z) (g e : Z -> Z) (d d' : Z -> Z) : Prop := {
  wr_new : forall x, 0 <= x < bpc * Z.of_nat (length (l ++ l2)) ->
    fbyte fs d' (l ++ l2) x = dset (fun y => if y <? bpc * Z.of_nat (length l) then fbyte fs d l y else 0) off n g x;
  wr_parent : forall x, 0 <= x < bpc * Z.of_nat (length lp) -> fbyte fs d' lp x = dset (fbyte fs d lp) poff pn e x;
  wr_other : forall h lh, file_ok fs d h lh -> (forall x, x ∈ lh -> (x ∉ l) /\ (x ∉ lp)) ->
    file_ok fs d' h lh /\ forall x, 0 <= x < bpc * Z.of_nat (length lh) -> fbyte fs d' lh x = fbyte fs d lh x
}.

Lemma fwrite_fbyte_other l a n g d d' lh x :
  fwrite l a n g d d' -> (forall c, c ∈ lh -> valid_clus fs c) -> (forall c, c ∈ lh -> c ∉ l) ->
  0 <= x < bpc * Z.of_nat (length lh) -> fbyte fs d' lh x = fbyte fs d lh x.
Proof.
  intros F Hv Hdis Hx. pose proof bpc_pos. unfold fbyte.
  assert (Hin : nth_clus lh (x / bpc) ∈ lh).
  { apply nth_clus_in. split; [apply Z.div_pos; lia|apply Z.div_lt_upper_bound; lia]. }
  apply (fw_other _ _ _ _ _ _ F); auto. apply Z.mod_pos_bound. lia.
Qed.
Lemma extended_fbyte_other l l2 d d' lh x :
  extended l l2 d d' -> (forall c, c ∈ lh -> valid_clus fs c) -> (forall c, c ∈ lh -> c ∉ l2) ->
  0 <= x < bpc * Z.of_nat (length lh) -> fbyte fs d' lh x = fbyte fs d lh x.
Proof.
  intros F Hv Hdis Hx. pose proof bpc_pos. unfold fbyte.
  assert (Hin : nth_clus lh (x / bpc) ∈ lh).
  { apply nth_clus_in. split; [apply Z.div_pos; lia|apply Z.div_lt_upper_bound; lia]. }
  apply (ex_data _ _ _ _ F); auto. apply Z.mod_pos_bound. lia.
Qed.

(** Growing, then the parent's entry, then the data. *)
Lemma wrote_intro l l2 lp off n poff pn g e d d1 d2 d3 f p :
  file_ok fs d f l -> (lp <> [] -> file_ok fs d p lp) -> (forall x, x ∈ lp -> x ∉ l) ->
  extended l l2 d d1 -> fwrite lp poff pn e d1 d2 -> fwrite (l ++ l2) off n g d2 d3 ->
  wrote l l2 lp off n poff pn g e d d3.
Proof.
  intros Hf Hp Hdis X1 F2 F3. destruct (file_ok_nodup _ _ _ Hf) as [_ Hv].
  assert (Hvp : forall c, c ∈ lp -> valid_clus fs c).
  { destruct lp as [|y lp]; [intros c Hc; now apply not_elem_of_nil in Hc|]. eapply file_ok_nodup, Hp. discriminate. }
  assert (Hlp2 : forall x, x ∈ lp -> x ∉ l2).
  { destruct lp as [|y lp]; [intros c Hc; now apply not_elem_of_nil in Hc|]. exact (extended_disjoint _ _ _ _ _ _ X1 (Hp ltac:(discriminate))). }
  pose proof (extended_disjoint _ _ _ _ _ _ X1 Hf) as Hl2.
  assert (Hv2 : forall c, c ∈ l ++ l2 -> valid_clus fs c).
  { intros c [Hc|Hc]%elem_of_app; [auto|]. now apply X1. }
  assert (Hnp : forall c, c ∈ l ++ l2 -> c ∉ lp).
  { intros c [Hc|Hc]%elem_of_app Hcp; [now apply (Hdis c Hcp)|now apply (Hlp2 c Hcp)]. }
  constructor.
  - intros x Hx. rewrite (fw_file _ _ _ _ _ _ F3) by auto. apply dset_base.
    rewrite (fwrite_fbyte_other _ _ _ _ _ _ _ _ F2 Hv2 Hnp Hx).
    exact (extended_fbyte _ _ _ _ _ X1 Hv Hl2 Hx).
  - intros x Hx. rewrite (fwrite_fbyte_other _ _ _ _ _ _ lp x F3 Hvp) by
      (auto; intros c Hc Hc2; now apply (Hnp c Hc2)).
    rewrite (fw_file _ _ _ _ _ _ F2) by auto. apply dset_base.
    exact (extended_fbyte_other _ _ _ _ _ _ X1 Hvp Hlp2 Hx).
  - intros h lh Hh Hd. pose proof (extended_disjoint _ _ _ _ _ _ X1 Hh) as Hh2.
    destruct (file_ok_nodup _ _ _ Hh) as [_ Hvh]. split.
    + eapply file_ok_meta; [apply F3|]. eapply file_ok_meta; [apply F2|].
      eapply extended_file_ok; eauto. intros x Hx. apply (Hd x Hx).
    + intros x Hx. rewrite (fwrite_fbyte_other _ _ _ _ _ _ lh x F3 Hvh); auto.
      2:{ intros c Hc [Hc2|Hc2]%elem_of_app; [exact (proj1 (Hd c Hc) Hc2)|now apply (Hh2 c Hc)]. }
      rewrite (fwrite_fbyte_other _ _ _ _ _ _ lh x F2 Hvh); auto; [|intros c Hc; apply (Hd c Hc)].
      exact (extended_fbyte_other _ _ _ _ _ _ X1 Hvh Hh2 Hx).
Qed.

Lemma file_write_grow fuel f l lp off n need u src w :
  (1 < fuel)%nat -> winv w -> file_ok fs (wdisk w) (w.(dents) f) l ->
  parent_ok w (wdisk w) f lp -> (forall x, x ∈ lp -> x ∉ l) ->
  0 <= off -> 0 < n -> (w.(dents) f).(file_size) < off + n < 2147483648 ->
  clusters_of (off + n) <= TABLE_MAX -> Z.of_nat (length l) + Z.of_nat need = clusters_of (off + n) ->
  free_above (wdisk w) (grow_from l) need -> 2 * Z.of_nat need <= w.(wfs).(kpages) ->
  (u = true \/ src + n <= raw_addr f + 20 \/ raw_addr f + 32 <= src) ->
  exists w' l2, file_write fs fuel f u src off n w = Ok (n, w') /\ winv w' /\ length l2 = need /\
    file_ok fs (wdisk w') (w'.(dents) f) (l ++ l2) /\ (w'.(dents) f).(file_size) = off + n /\
    (forall g, g <> f -> w'.(dents) g = w.(dents) g) /\ w'.(mtx_depth) = w.(mtx_depth) /\
    wrote l l2 lp off n (w.(dents) f).(parent_dir_off)
      (if (w.(dents) f).(parent_dirent) =? 0 then 0 else DIR_SIZE)
      (fun i => wmem u w (src + i)) (fun i => wmem false w' (raw_addr f + i)) (wdisk w) (wdisk w') /\
    (forall i, 0 <= i < 4 -> wmem false w' (raw_addr f + 28 + i) = byte_at (le_bytes 4 (off + n)) i).
Proof using Hfs SL.
  intros Hfu Hi Hf Hp Hdis Ho Hn Hsz Hmax Hlen Hfree Hk Hsrc. destruct fuel as [|fuel]; [lia|].
  cbn [file_write]. cbv [mtx_lock_file modify]. erewrite bind_run by reflexivity. rewrite massert_run by zcases.
  erewrite bind_run by reflexivity. cbn [dents]. rewrite (wrap32_small (off + n)), (sext32_small (off + n)) by lia.
  destruct (Z.ltb_spec (file_size (dents w f)) (off + n)) as [_|]; [|lia].
  set (w0 := MkWorld w.(wfs) w.(dents) (w.(mtx_depth) + 1)).
  destruct (extend_clusters f l (off + n) need w0 Hi Hf Hsz Hmax Hlen Hfree Hk (file_write fs fuel))
    as (w1 & l2 & E1 & L1 & G1 & X1 & F1 & S1).
  destruct G1 as [I1 M1 O1 (a1 & b1 & p1 & D1) P1].
  assert (Hsame : (w1.(dents) f).(parent_dirent) = (w.(dents) f).(parent_dirent) /\
                  (w1.(dents) f).(parent_dir_off) = (w.(dents) f).(parent_dir_off)) by (rewrite D1; auto).
  destruct Hsame as [Epd Epo].
  assert (Hp1 : parent_ok w1 (wdisk w1) f lp).
  { unfold parent_ok in *. rewrite Epd, Epo. destruct Hp as [Hp|(Hp0 & Hpf & Hpo & Hrest)]; [now left|].
    right. rewrite !O1 by auto. split; [exact Hp0|]. split; [exact Hpf|]. split; [|exact Hrest].
    eapply extended_file_ok; eauto. }
  destruct (sync_ok fuel f lp w1 ltac:(lia) I1 Hp1) as (w2 & E2 & I2 & D2 & P2 & K2 & MU2 & MK2 & W2).
  erewrite bind_run by (rewrite E1; exact E2).
  assert (F2 : file_ok fs (wdisk w2) (w2.(dents) f) (l ++ l2)).
  { rewrite D2. eapply file_ok_meta; [|exact F1]. apply W2. }
  destruct (write_body_ok f (l ++ l2) off n u src w2 I2 F2 Ho Hn) as (w3 & E3 & W3 & [I3 M3 K3 D3 P3]);
    [rewrite D2, S1; lia|].
  exists w3, l2. split; [exact E3|]. split; [exact I3|]. split; [exact L1|]. cbn [dents mtx_depth] in D3, P3.
  split; [rewrite D3; eapply file_ok_meta; [apply W3|exact F2]|].
  split; [now rewrite D3, D2|]. split; [intros g Hg; rewrite D3, D2, O1 by auto; reflexivity|].
  split; [rewrite P3, P2, P1; cbn; lia|]. unfold entry_written in W2. rewrite Epd, Epo in W2. split.
  - apply (wrote_intro l l2 lp off n _ _ _ _ (wdisk w) (wdisk w1) (wdisk w2) (wdisk w3) (w.(dents) f)
             (w.(dents) (w.(dents) f).(parent_dirent))); auto.
    + intros Hne. destruct Hp as [[_ ->]|(_ & _ & Hpo & _)]; [contradiction|exact Hpo].
    + rewrite (M3 false). exact W2.
    + destruct W3 as [A B C]. constructor; auto. intros x Hx. rewrite A by auto.
      unfold dset. destruct (_ && _) eqn:Ex; [|reflexivity]. zbool.
      destruct u; [rewrite MU2; now rewrite M1|]. rewrite MK2, sync_mem_out; [now rewrite M1|].
      destruct Hsrc as [?|Hsrc]; [discriminate|]. lia.
  - intros i Hi'. rewrite (M3 false). change (wmem false _) with (wmem false w2). rewrite MK2.
    rewrite sync_mem_size by auto. now rewrite S1.
Qed.

(** ** [file_shrink] *)

Lemma setval_existing f i v x w :
  0 <= i < TABLE_MAX -> 0 <= v < 4294967296 -> tbl (w.(dents) f).(pointer) i = Some x ->
  exists w', filepnt_setval f i v w = Ok (tt, w') /\ setval_step w w' f i v /\ w'.(wfs) = w.(wfs).
Proof using.
  intros Hi Hv Ht. destruct (tbl_index i Hi) as (E1 & E2 & H1 & H2).
  unfold filepnt_setval. rewrite E1, E2, (wrap32_small v) by auto. unfold NDIRENT_SECPOINTER.
  set (d := w.(dents) f) in Ht |- *. set (p := d.(pointer)) in Ht |- *.
  destruct (Z.leb_spec 5 (i / 1024)) as [Hhi|Hlo].
  - change (PAGE_SIZE / 8) with 512. destruct (Z.leb_spec 512 (i / 1024 - 5)); [lia|].
    rewrite tbl_high in Ht by auto. destruct (third p) as [t|] eqn:Et; [|discriminate].
    destruct (t (i / 1024 - 5)) as [pg|] eqn:Ep; [|discriminate].
    cbv [bind get_dent gets ret]. fold d. fold p. rewrite Et. fold d. fold p. rewrite Et, Ep.
    cbv [upd_pointer upd_dent modify]. eexists. split; [reflexivity|]. split; [|reflexivity].
    apply (setval_step_intro _ _ _ _ _ (MkPtr p.(second) (Some (set_cell t (i / 1024 - 5) (i mod 1024) v)) p.(pvalid))
             w.(wfs).(kpages)); cbn; auto; [lia|now destruct (wfs w)| |intros; now apply upd_ne| |].
    + rewrite upd_eq. fold d. fold p. unfold set_cell. now rewrite Ep.
    + rewrite tbl_high by auto. apply set_cell_same.
    + intros j y Hj Hne Hy. fold d in Hy. fold p in Hy. destruct (Z_lt_le_dec (j / 1024) 5); [rewrite tbl_low in * by auto; exact Hy|].
      rewrite tbl_high in * by auto. rewrite Et in Hy. cbn [third]. apply set_cell_other; [|exact Hy].
      intros [= E3 E4]. apply (index_ne i j); [auto|]. f_equal; lia.
  - rewrite tbl_low in Ht by auto. destruct (second p (i / 1024)) as [pg|] eqn:Ep; [|discriminate].
    cbv [bind get_dent gets ret]. fold d. fold p. rewrite Ep.
    cbv [upd_pointer upd_dent modify]. eexists. split; [reflexivity|]. split; [|reflexivity].
    apply (setval_step_intro _ _ _ _ _ (MkPtr (set_cell p.(second) (i / 1024) (i mod 1024) v) p.(third) p.(pvalid))
             w.(wfs).(kpages)); cbn; auto; [lia|now destruct (wfs w)| |intros; now apply upd_ne| |].
    + rewrite upd_eq. fold d. fold p. unfold set_cell. now rewrite Ep.
    + rewrite tbl_low by auto. apply set_cell_same.
    + intros j y Hj Hne Hy. fold d in Hy. fold p in Hy. destruct (Z_lt_le_dec (j / 1024) 5); [|rewrite tbl_high in * by auto; exact Hy].
      rewrite tbl_low in * by auto. cbn [second]. apply set_cell_other; [|exact Hy]. now apply index_ne; auto.
Qed.

(** Clearing entries [i .. i+n-1] keeps those below [i]. *)
Lemma clear_table_ok n f : forall i (w : world S),
  0 <= i -> i + Z.of_nat n <= TABLE_MAX ->
  (forall j, i <= j < i + Z.of_nat n -> exists x, tbl (w.(dents) f).(pointer) j = Some x) ->
  exists w' p, clear_table n f i w = Ok (tt, w') /\ w'.(wfs) = w.(wfs) /\ w'.(mtx_depth) = w.(mtx_depth) /\
    (forall g, g <> f -> w'.(dents) g = w.(dents) g) /\
    w'.(dents) f = with_file (w.(dents) f).(first_clus) (w.(dents) f).(file_size) p (w.(dents) f) /\
    forall j x, 0 <= j < i -> tbl (w.(dents) f).(pointer) j = Some x -> tbl p j = Some x.
Proof using.
  induction n as [|n IH]; intros i w Hi Hm Ht; cbn [clear_table].
  - exists w, (w.(dents) f).(pointer). repeat (split; [reflexivity|]). split; [|auto]. now destruct (dents w f).
  - destruct (Ht i ltac:(lia)) as [x Hx]. destruct (setval_existing f i 0 x w) as (w1 & E1 & H1 & F1); [lia|lia|exact Hx|].
    erewrite bind_run by exact E1. destruct H1 as [_ (p & Dp & Hpi & Hpo) Ho Hd].
    destruct (IH (i + 1) w1) as (w2 & p2 & E2 & F2 & M2 & O2 & D2 & T2); [lia|lia| |].
    + intros j Hj. rewrite Dp. cbn. destruct (Ht j ltac:(lia)) as [y Hy]. exists y. apply Hpo; auto; lia.
    + exists w2, p2. split; [exact E2|]. split; [congruence|]. split; [congruence|].
      split; [intros g Hg; rewrite O2, Ho by auto; reflexivity|].
      split; [rewrite D2, Dp; reflexivity|]. intros j y Hj Hy. apply T2; [lia|]. rewrite Dp. cbn. apply Hpo; auto; lia.
Qed.

Lemma file_PGROUNDUP_eq a : 0 <= a -> PGROUNDUP a = (a + 4095) / 4096 * 4096.
Proof using.
  intros. unfold PGROUNDUP. rewrite <- Z.ldiff_land. change 4095 with (Z.ones 12) at 2.
  rewrite Z.ldiff_ones_r, Z.shiftl_mul_pow2, Z.shiftr_div_pow2 by lia. reflexivity.
Qed.

(** Clearing inside the file, with a zeroed buffer. *)
Lemma shrink_clear_ok n fuel f l newsize : forall i w,
  (0 < fuel)%nat -> winv w -> file_ok fs (wdisk w) (w.(dents) f) l ->
  0 <= i <= PGROUNDUP newsize + 1023 -> PGROUNDUP newsize <= (w.(dents) f).(file_size) -> 0 <= newsize ->
  (forall k, 0 <= k < 1024 -> wmem false w (STACK_BUF + k) = 0) ->
  PGROUNDUP newsize - i <= 1024 * Z.of_nat n ->
  exists w', shrink_clear fs n fuel f i newsize w = Ok (tt, w') /\ wdisk_step w w' /\
    fwrite l i (PGROUNDUP newsize - i) (fun _ => 0) (wdisk w) (wdisk w').
Proof using Hfs SL.
  induction n as [|n IH]; intros i w Hfu Hi Hf Hi0 Hsz Hns Hz Hn;
    pose proof (fo_max _ _ _ _ Hf) as [Hmax _];
    assert (Hr : 0 <= PGROUNDUP newsize <= 2147479552) by (rewrite file_PGROUNDUP_eq in *; zlia);
    cbn [shrink_clear]; rewrite (wrap64_small (PGROUNDUP newsize)), (wrap64_small i) by lia.
  - destruct (Z.ltb_spec i (PGROUNDUP newsize)); [lia|].
    exists w. split; [reflexivity|]. split; [now apply wdisk_step_refl|]. apply fwrite_none. lia.
  - destruct (Z.ltb_spec i (PGROUNDUP newsize)) as [Hlt|Hge].
    2:{ exists w. split; [reflexivity|]. split; [now apply wdisk_step_refl|]. apply fwrite_none. lia. }
    rewrite (wrap64_small (PGROUNDUP newsize - i)) by lia. set (k := Z.min 1024 (PGROUNDUP newsize - i)).
    rewrite (wrap32_small i), (wrap32_small k), (sext32_small (i + 1024)) by lia.
    destruct (file_write_inplace fuel f l i k false STACK_BUF w) as (w1 & E1 & H1 & F1); auto; [lia|lia|lia|].
    erewrite bind_run by exact E1. destruct H1 as [I1 M1 K1 D1 P1].
    destruct (IH (i + 1024) w1) as (w2 & E2 & H2 & F2); auto; try lia.
    { rewrite D1. eapply file_ok_meta; [apply F1|exact Hf]. }
    { now rewrite D1. }
    { intros j Hj. rewrite M1. auto. }
    exists w2. split; [exact E2|]. split; [eapply wdisk_step_trans; [|exact H2]; now constructor|].
    destruct (Z_lt_le_dec 1024 (PGROUNDUP newsize - i)) as [Hbig|Hsmall].
    + eapply fwrite_app; [exact F1|exact F2|lia|lia|lia| |reflexivity]. intros j Hj. apply Hz. lia.
    + eapply (fwrite_app l i _ k (i + k) 0 _ (fun _ => 0)); [exact F1| |lia|lia|lia| |reflexivity].
      * destruct F2 as [A B C]. constructor; auto. intros x Hx. rewrite A by auto. now rewrite !dset_none by lia.
      * intros j Hj. apply Hz. lia.
Qed.

(** ** Cutting the chain *)

Lemma chain_take d d' c l k :
  chain fs d c l -> (0 < k <= length l)%nat ->
  (forall x, x ∈ take (k - 1) l -> fatv fs d' 0 x = fatv fs d 0 x) ->
  268435448 <= fatv fs d' 0 (nth (k - 1) l 0) < 4294967296 -> chain fs d' c (take k l).
Proof using.
  revert c k. induction l as [|y l IH]; intros c k Hch Hk Hsame Hend; [cbn in Hk; lia|].
  destruct Hch as (-> & Hv & Hr). destruct k as [|k]; [lia|]. cbn [take chain]. split; [reflexivity|]. split; [exact Hv|].
  replace (Datatypes.S k - 1)%nat with k in * by lia. destruct k as [|k].
  - cbn in Hend |- *. exact Hend.
  - rewrite Hsame by (cbn; left). apply IH; [exact Hr|cbn in Hk; lia| |].
    + replace (Datatypes.S k - 1)%nat with k by lia. intros x Hx. apply Hsame. cbn. now right.
    + replace (Datatypes.S k - 1)%nat with k by lia. exact Hend.
Qed.
Lemma chain_drop d c l k : (k < length l)%nat -> chain fs d c l -> chain fs d (nth k l 0) (drop k l).
Proof using.
  intros Hk Hch. destruct (lookup_lt_is_Some_2 l k Hk) as [x Hx]. rewrite (nth_lookup_Some _ _ 0 _ Hx).
  rewrite (drop_S _ _ _ Hx). apply (chain_suffix fs d c l (take k l)); [|exact Hch].
  symmetry. rewrite <- (drop_S _ _ _ Hx). apply take_drop.
Qed.

(** The disk after the chain of [l] was cut behind its first [k] clusters. *)
Record cut (l : list Z) (k : nat) (d d' : Z -> Z) : Prop := {
  ct_data : forall p, 512 * fs.(first_data_sec) <= p -> d' p = d p;
  ct_freed : forall x, x ∈ drop k l -> fatv fs d' 0 x = 0;
  ct_last : (0 < k)%nat -> fatv fs d' 0 (nth (k - 1) l 0) = FAT32_EOF;
  ct_keep : forall x, valid_clus fs x -> x ∉ drop k l -> ((0 < k)%nat -> x <> nth (k - 1) l 0) ->
    fatv fs d' 0 x = fatv fs d 0 x
}.
Lemma cut_intro l k d d1 d2 :
  NoDup l -> (forall x, x ∈ l -> valid_clus fs x) -> (k < length l)%nat ->
  (forall p, 0 <= p -> d1 p = if (k =? 0)%nat then d p else fat_upd fs d (nth (k - 1) l 0) FAT32_EOF p) ->
  (forall p, 0 <= p -> d2 p = free_disk fs d1 (drop k l) p) -> cut l k d d2.
Proof using Hfs.
  intros Hnd Hv Hk H1 H2. pose proof (first_data_nonneg fs Hfs) as Hz.
  assert (Hvd : forall x, x ∈ drop k l -> valid_clus fs x) by (intros x Hx; apply Hv; rewrite <- (take_drop k l); apply elem_of_app; now right).
  assert (Hpin : (0 < k)%nat -> valid_clus fs (nth (k - 1) l 0)) by (intros; apply Hv, list_elem_of_In, nth_In; lia).
  assert (He1 : forall x, valid_clus fs x -> fatv fs d1 0 x =
            if (k =? 0)%nat then fatv fs d 0 x else if x =? nth (k - 1) l 0 then FAT32_EOF else fatv fs d 0 x).
  { intros x Hx. rewrite (fatv_ext fs Hfs _ _ 0 x Hx (fat0 fs Hfs) H1). destruct (Nat.eqb_spec k 0); [reflexivity|].
    apply fat_upd_entry; auto using fat0; [apply Hpin; lia|unfold FAT32_EOF; lia]. }
  assert (He2 : forall x, valid_clus fs x -> fatv fs d2 0 x = if bool_decide (x ∈ drop k l) then 0 else fatv fs d1 0 x).
  { intros x Hx. rewrite (fatv_ext fs Hfs _ _ 0 x Hx (fat0 fs Hfs) H2). now apply free_disk_entry; auto using fat0. }
  constructor.
  - intros p Hp. rewrite H2, free_disk_data, H1 by (auto; lia). destruct (Nat.eqb_spec k 0); [reflexivity|].
    apply fat_upd_data; auto. apply Hpin. lia.
  - intros x Hx. rewrite He2 by auto. now rewrite bool_decide_true.
  - intros Hk0. assert (Hnin : nth (k - 1) l 0 ∉ drop k l).
    { intros Hin. apply list_elem_of_lookup in Hin as [i Hi]. rewrite lookup_drop in Hi.
      destruct (lookup_lt_is_Some_2 l (k - 1)) as [y Hy]; [lia|]. rewrite (nth_lookup_Some _ _ 0 _ Hy) in Hi.
      pose proof (NoDup_lookup _ _ _ _ Hnd Hy Hi). lia. }
    rewrite He2, bool_decide_false, He1 by auto. destruct (Nat.eqb_spec k 0); [lia|]. now rewrite Z.eqb_refl.
  - intros x Hx Hn Hne. rewrite He2, bool_decide_false, He1 by auto. destruct (Nat.eqb_spec k 0); [reflexivity|].
    destruct (Z.eqb_spec x (nth (k - 1) l 0)) as [E|]; [|reflexivity]. exfalso. apply Hne; [lia|exact E].
Qed.

Lemma nodup_clusters l : NoDup l -> (forall x, x ∈ l -> valid_clus fs x) -> Z.of_nat (length l) <= fs.(data_clus_cnt).
Proof using Hfs.
  intros Hnd Hv. pose proof (ok_clus _ Hfs).
  assert (Hs : l ⊆+ seqZ 2 fs.(data_clus_cnt)).
  { apply NoDup_submseteq; [exact Hnd|]. intros x Hx. apply elem_of_seqZ. specialize (Hv x Hx). unfold valid_clus in Hv. lia. }
  apply submseteq_length in Hs. rewrite length_seqZ in Hs. lia.
Qed.

Record freed (f : Z) (l : list Z) (k : nat) (w w' : world S) : Prop := {
  fr_inv : winv w';
  fr_mem : forall u, wmem u w' = wmem u w;
  fr_depth : w'.(mtx_depth) = w.(mtx_depth);
  fr_others : forall g, g <> f -> w'.(dents) g = w.(dents) g;
  fr_dent : exists p, w'.(dents) f = with_file (w.(dents) f).(first_clus) (w.(dents) f).(file_size) p (w.(dents) f) /\
    forall i, 0 <= i < Z.of_nat k -> tbl p i = Some (nth_clus l i);
  fr_all : k = length l -> forall p, 0 <= p -> wdisk w' p = wdisk w p;
  fr_cut : (k < length l)%nat -> cut l k (wdisk w) (wdisk w')
}.

Lemma shrink_free_ok f l k w :
  winv w -> file_ok fs (wdisk w) (w.(dents) f) l -> (k <= length l)%nat ->
  exists w', shrink_free fs f (Z.of_nat k) (Z.of_nat (length l)) w = Ok (tt, w') /\ freed f l k w w'.
Proof using Hfs SL.
  intros Hi Hf Hk. destruct (file_ok_nodup _ _ _ Hf) as [Hnd Hv]. pose proof (nodup_clusters l Hnd Hv) as Hln.
  pose proof (ok_clus _ Hfs) as Hcl. pose proof (fo_max _ _ _ _ Hf) as [_ Htm].
  unfold shrink_free. destruct (Z.ltb_spec (Z.of_nat k) (Z.of_nat (length l))) as [Hlt|Hge].
  2:{ exists w. split; [reflexivity|]. assert (k = length l) as -> by lia. constructor; auto; [|lia].
      exists (w.(dents) f).(pointer). split; [now destruct (dents w f)|]. intros i Hi'. apply Hf. lia. }
  destruct (fo_chain _ _ _ _ Hf) as [[_ ->]|[Hch Hne]]; [cbn in Hlt; lia|].
  erewrite bind_run by (apply (getclus_ok w f l); auto; lia).
  assert (Hlv : valid_clus fs (nth_clus l (Z.of_nat k))) by (eapply file_ok_valid; eauto; lia).
  (* the end mark *)
  assert (exists w1, (if negb (Z.of_nat k =? 0)
      then let* prev_clus := filepnt_getclusbyno f (Z.of_nat k - 1) in on_fs (fatWrite fs prev_clus FAT32_EOF)
      else ret tt) w = Ok (tt, w1) /\ wdisk_step w w1 /\
      forall p, 0 <= p -> wdisk w1 p = if (k =? 0)%nat then wdisk w p else fat_upd fs (wdisk w) (nth (k - 1) l 0) FAT32_EOF p)
    as (w1 & E1 & H1 & D1).
  { destruct k as [|k].
    - exists w. split; [reflexivity|]. split; [now apply wdisk_step_refl|auto].
    - destruct (Z.eqb_spec (Z.of_nat (Datatypes.S k)) 0); [lia|]. cbn [negb].
      erewrite bind_run by (apply (getclus_ok w f l); auto; lia).
      replace (nth_clus l (Z.of_nat (Datatypes.S k) - 1)) with (nth (Datatypes.S k - 1) l 0)
        by (unfold nth_clus; f_equal; lia).
      destruct (fatWrite_ok fs Hfs (nth (Datatypes.S k - 1) l 0) FAT32_EOF w.(wfs) Hi) as (s1 & E1 & H1).
      { apply Hv, list_elem_of_In, nth_In. lia. }
      rewrite (on_fs_run _ _ _ _ E1). eexists. split; [reflexivity|]. split; [eapply wdisk_of_step; eauto|apply H1]. }
  erewrite bind_run by exact E1.
  (* freeing the rest *)
  assert (Hcd : chain fs (wdisk w1) (nth k l 0) (drop k l)).
  { eapply chain_frame; [|apply (chain_drop (wdisk w) (w.(dents) f).(first_clus)); [lia|exact Hch]]. intros x Hx.
    assert (Hxv : valid_clus fs x) by (apply Hv; rewrite <- (take_drop k l); apply elem_of_app; now right).
    rewrite (fatv_ext fs Hfs _ _ 0 x Hxv (fat0 fs Hfs) D1). destruct (Nat.eqb_spec k 0); [reflexivity|].
    rewrite fat_upd_entry; auto using fat0; [|apply Hv, list_elem_of_In, nth_In; lia|unfold FAT32_EOF; lia].
    destruct (Z.eqb_spec x (nth (k - 1) l 0)) as [E|]; [|reflexivity]. exfalso.
    apply list_elem_of_lookup in Hx as [i Hi']. rewrite lookup_drop in Hi'.
    destruct (lookup_lt_is_Some_2 l (k - 1)) as [y Hy]; [lia|]. rewrite (nth_lookup_Some _ _ 0 _ Hy) in E. subst y.
    pose proof (NoDup_lookup _ _ _ _ Hnd Hy Hi'). lia. }
  destruct (clus_sequence_free_ok fs Hfs (Z.to_nat fs.(data_clus_cnt)) (drop k l) (nth k l 0) w1.(wfs)) as (s2 & E2 & H2);
    [apply H1|exact Hcd| |rewrite length_drop; lia|].
  { intros E. apply (f_equal length) in E. rewrite length_drop in E. cbn in E. lia. }
  replace (nth_clus l (Z.of_nat k)) with (nth k l 0) by (unfold nth_clus; f_equal; lia).
  erewrite bind_run by (apply on_fs_run; exact E2).
  set (w2 := MkWorld s2 w1.(dents) w1.(mtx_depth)).
  assert (H12 : wdisk_step w1 w2) by (eapply wdisk_of_step; exact H2).
  pose proof (wdisk_step_trans _ _ _ H1 H12) as [I2 M2 K2 Dn2 P2].
  destruct (clear_table_ok (Z.to_nat (Z.of_nat (length l) - Z.of_nat k)) f (Z.of_nat k) w2)
    as (w3 & p3 & E3 & F3 & P3 & O3 & D3 & T3); [lia|lia| |].
  { intros j Hj. rewrite Dn2. eexists. apply Hf. lia. }
  exists w3. split; [exact E3|]. rewrite Dn2 in *. constructor.
  - unfold winv. rewrite F3. apply H12.
  - intros u. unfold wmem. rewrite F3. apply M2.
  - congruence.
  - exact O3.
  - exists p3. split; [exact D3|]. intros i Hi'. apply T3; [lia|]. apply Hf. lia.
  - lia.
  - intros _. apply (cut_intro l k _ (wdisk w1)); auto; [lia|]. intros p Hp. unfold wdisk. rewrite F3. now apply H2.
Qed.

Lemma cut_chain d d' c l k : cut l k d d' -> chain fs d c l -> (0 < k < length l)%nat -> chain fs d' c (take k l).
Proof using Hfs.
  intros [Dt Fr La Ke] Hch Hk. pose proof (chain_nodup _ _ _ _ Hfs Hch) as Hnd.
  assert (Hl : l = take (k - 1) l ++ nth (k - 1) l 0 :: drop k l).
  { destruct (lookup_lt_is_Some_2 l (k - 1)) as [y Hy]; [lia|]. rewrite (nth_lookup_Some _ _ 0 _ Hy).
    replace k with (Datatypes.S (k - 1)) at 2 by lia. symmetry. apply take_drop_middle. exact Hy. }
  apply (chain_take d); [exact Hch|lia| |].
  - intros x Hx. pose proof Hnd as Hnd'. rewrite Hl in Hnd'. apply NoDup_app in Hnd' as (_ & Hdis & _).
    specialize (Hdis x Hx). rewrite elem_of_cons in Hdis.
    apply Ke; [|tauto|intros _ ->; tauto]. eapply chain_valid; [exact Hch|]. rewrite Hl. apply elem_of_app. now left.
  - rewrite La by lia. unfold FAT32_EOF. lia.
Qed.
Lemma cut_other d d' l k h lh :
  (forall x, x ∈ l -> valid_clus fs x) -> (k < length l)%nat ->
  cut l k d d' -> file_ok fs d h lh -> (forall x, x ∈ lh -> x ∉ l) -> file_ok fs d' h lh.
Proof using Hfs.
  intros Hv Hk [Dt Fr La Ke] [Hc Ht Hs Hm] Hdis. constructor; auto. destruct Hc as [Hc|[Hc Hn]]; [now left|].
  right. split; [|exact Hn]. eapply chain_frame; [|exact Hc]. intros x Hx. apply Ke.
  - eapply chain_valid; eauto.
  - intros Hin. apply (Hdis x Hx). rewrite <- (take_drop k l). apply elem_of_app. now right.
  - intros Hk0 ->. apply (Hdis _ Hx), list_elem_of_In, nth_In. lia.
Qed.
Lemma fbyte_take d l k x : 0 <= x < bpc * Z.of_nat k -> fbyte fs d (take k l) x = fbyte fs d l x.
Proof using Hfs.
  intros Hx. pose proof bpc_pos. unfold fbyte, nth_clus. rewrite nth_take; [reflexivity|].
  assert (x / bpc < Z.of_nat k) by (apply Z.div_lt_upper_bound; lia).
  pose proof (Z.div_pos x bpc ltac:(lia) ltac:(lia)). lia.
Qed.
Lemma fbyte_data d d' l x :
  (forall p, 512 * fs.(first_data_sec) <= p -> d' p = d p) -> (forall c, c ∈ l -> valid_clus fs c) ->
  0 <= x < bpc * Z.of_nat (length l) -> fbyte fs d' l x = fbyte fs d l x.
Proof using Hfs.
  intros Hd Hv Hx. pose proof bpc_pos. unfold fbyte. apply Hd.
  assert (Hin : nth_clus l (x / bpc) ∈ l).
  { apply nth_clus_in. split; [apply Z.div_pos; lia|apply Z.div_lt_upper_bound; lia]. }
  pose proof (clus_addr_bound fs Hfs _ (Hv _ Hin)). pose proof (Z.mod_pos_bound x bpc ltac:(lia)). lia.
Qed.

(** The file and the disk between freeing the clusters and writing back. *)
Lemma shrink_middle f l newsize w2 w3 k w4 :
  file_ok fs (wdisk w2) (w2.(dents) f) l -> 0 <= newsize <= (w2.(dents) f).(file_size) ->
  Z.of_nat k = clusters_of newsize -> (k <= length l)%nat -> freed f l k w2 w3 ->
  w4.(wfs) = w3.(wfs) ->
  w4.(dents) f = with_file (if newsize =? 0 then 0 else (w3.(dents) f).(first_clus)) newsize (w3.(dents) f).(pointer) (w3.(dents) f) ->
  file_ok fs (wdisk w4) (w4.(dents) f) (take k l).
Proof using Hfs.
  intros Hf Hns Ek Hk [I3 M3 P3 O3 (p & D3 & T3) A3 C3] Ew Ed. pose proof bpc_pos as Hb.
  pose proof (proj1 (clusters_of_iff _ _) (eq_sym Ek)) as Hcl.
  pose proof (fo_max _ _ _ _ Hf) as [Hm1 Hm2].
  assert (Ltk : length (take k l) = k) by (rewrite length_take; lia).
  assert (Hd4 : wdisk w4 = wdisk w3) by (unfold wdisk; now rewrite Ew). rewrite Hd4, Ed, D3. constructor; cbn.
  - destruct (Z.eqb_spec newsize 0) as [->|Hnz].
    + left. assert (k = 0%nat) as -> by nia. auto.
    + right. assert (0 < k)%nat by nia. split; [|intros E; rewrite E in Ltk; cbn in Ltk; lia].
      destruct (fo_chain _ _ _ _ Hf) as [[_ ->]|[Hch _]]; [cbn in Hk; lia|].
      destruct (Nat.eq_dec k (length l)) as [->|].
      * rewrite take_ge by lia. eapply chain_frame; [|exact Hch]. intros x Hx.
        apply (fatv_ext fs Hfs); [eapply chain_valid; eauto|now apply fat0|now apply A3].
      * eapply cut_chain; [apply C3; lia|exact Hch|lia].
  - rewrite Ltk. intros i Hi'. rewrite T3 by auto. unfold nth_clus. rewrite nth_take by lia. reflexivity.
  - rewrite Ltk. split; [lia|]. destruct (bool_decide_reflect (take k l = [])); nia.
  - rewrite Ltk. lia.
Qed.

Lemma file_shrink_ok fuel f l lp newsize w :
  (0 < fuel)%nat -> winv w -> file_ok fs (wdisk w) (w.(dents) f) l ->
  parent_ok w (wdisk w) f lp -> (forall x, x ∈ lp -> x ∉ l) ->
  0 <= newsize -> PGROUNDUP newsize <= (w.(dents) f).(file_size) ->
  let k := Z.to_nat (clusters_of newsize) in
  exists w', file_shrink fs fuel f newsize w = Ok (tt, w') /\ winv w' /\
    file_ok fs (wdisk w') (w'.(dents) f) (take k l) /\ (w'.(dents) f).(file_size) = newsize /\
    (forall x, 0 <= x < newsize -> fbyte fs (wdisk w') (take k l) x = fbyte fs (wdisk w) l x) /\
    ((w.(dents) f).(file_size) mod PAGE_SIZE <> 0 ->
       forall x, newsize <= x < bpc * Z.of_nat k -> x < PGROUNDUP newsize -> fbyte fs (wdisk w') (take k l) x = 0) /\
    (forall x, x ∈ drop k l -> fatv fs (wdisk w') 0 x = 0) /\
    (forall g, g <> f -> w'.(dents) g = w.(dents) g) /\ w'.(mtx_depth) = w.(mtx_depth) /\
    (forall h lh, file_ok fs (wdisk w) h lh -> (forall x, x ∈ lh -> (x ∉ l) /\ (x ∉ lp)) ->
       file_ok fs (wdisk w') h lh /\ forall x, 0 <= x < bpc * Z.of_nat (length lh) -> fbyte fs (wdisk w') lh x = fbyte fs (wdisk w) lh x) /\
    (let d := w.(dents) f in d.(parent_dirent) <> 0 -> file_ok fs (wdisk w') (w.(dents) d.(parent_dirent)) lp /\
       forall x, 0 <= x < bpc * Z.of_nat (length lp) -> x < d.(parent_dir_off) \/ d.(parent_dir_off) + DIR_SIZE <= x ->
         fbyte fs (wdisk w') lp x = fbyte fs (wdisk w) lp x) /\
    (exists a p, w'.(dents) f = with_file a newsize p (w.(dents) f)).
Proof using Hfs SL.
  intros Hfu Hi Hf Hp Hdis Hn0 Hpg k. pose proof bpc_pos as Hb.
  pose proof (fo_max _ _ _ _ Hf) as [Hm1 Hm2]. pose proof (fo_size _ _ _ _ Hf) as [Hs1 Hs2].
  destruct (file_ok_nodup _ _ _ Hf) as [Hnd Hv].
  assert (Hle : newsize <= PGROUNDUP newsize) by (rewrite file_PGROUNDUP_eq by lia; zlia).
  assert (Hk0 : 0 <= clusters_of newsize) by (unfold clusters_of; apply Z.div_pos; lia).
  assert (Ek : Z.of_nat k = clusters_of newsize) by lia.
  pose proof (proj1 (clusters_of_iff _ _) (eq_sym Ek)) as Hck.
  assert (Hkl : (k <= length l)%nat) by nia.
  unfold file_shrink. cbv [mtx_lock_file modify]. erewrite bind_run by reflexivity.
  erewrite bind_run by reflexivity. cbn [dents]. rewrite massert_run by zcases.
  set (d := w.(dents) f) in Hf, Hpg, Hm1, Hs1, Hs2 |- *.
  cbv [put_bytes on_fs modify]. erewrite bind_run by reflexivity. cbn [wfs dents mtx_depth store alloced_clus kmem umem kpages].
  set (w1 := MkWorld (MkFst _ _ (mem_write STACK_BUF (replicate 1024 0) _) _ _) _ _).
  (* clearing the rest of the page *)
  assert (exists w2, (if negb (file_size d mod PAGE_SIZE =? 0) then shrink_clear fs 5 fuel f (sext32 newsize) newsize else ret tt) w1
      = Ok (tt, w2) /\ wdisk_step w1 w2 /\
      fwrite l newsize (if file_size d mod PAGE_SIZE =? 0 then 0 else PGROUNDUP newsize - newsize) (fun _ => 0) (wdisk w) (wdisk w2))
    as (w2 & E2 & H2 & F2).
  { destruct (Z.eqb_spec (file_size d mod PAGE_SIZE) 0); cbn [negb].
    - exists w1. split; [reflexivity|]. split; [now apply wdisk_step_refl|now apply fwrite_none].
    - rewrite sext32_small by lia. apply (shrink_clear_ok 5 fuel f l newsize newsize w1); auto; [lia| |].
      + intros j Hj. change (wmem false w1) with (mem_write STACK_BUF (replicate 1024 0) (wmem false w)).
        rewrite mem_write_dset, dset_in by (rewrite length_replicate; lia). apply byte_at_replicate. lia.
      + rewrite file_PGROUNDUP_eq by lia. zlia. }
  erewrite bind_run by exact E2. destruct H2 as [I2 M2 K2 D2 P2]. cbn [dents mtx_depth w1] in D2, P2.
  rewrite (wrap64_small (newsize + bpc - 1)), (wrap32_small (d.(file_size) + bpc - 1)) by lia.
  change ((newsize + bpc - 1) / bpc) with (clusters_of newsize). change ((d.(file_size) + bpc - 1) / bpc) with (clusters_of d.(file_size)).
  assert (Hf2 : file_ok fs (wdisk w2) (w2.(dents) f) l) by (rewrite D2; eapply file_ok_meta; [apply F2|exact Hf]).
  assert (Eo : clusters_of d.(file_size) = Z.of_nat (length l)).
  { apply clusters_of_iff. destruct (bool_decide_reflect (l = [])) as [->|]; cbn in *; lia. }
  rewrite Eo, (wrap32_small (clusters_of newsize)) by (rewrite <- Ek; change TABLE_MAX with 529408 in Hm2; lia).
  rewrite <- Ek. destruct (shrink_free_ok f l k w2 I2 Hf2 Hkl) as (w3 & E3 & H3). erewrite bind_run by exact E3.
  cbv [upd_dent modify]. erewrite bind_run by reflexivity. rewrite (wrap32_small newsize) by lia.
  set (w4 := MkWorld w3.(wfs) (upd w3.(dents) f _) w3.(mtx_depth)).
  assert (Hf4 : file_ok fs (wdisk w4) (w4.(dents) f) (take k l)).
  { apply (shrink_middle f l newsize w2 w3 k w4); auto; [rewrite D2; fold d; lia|cbn; now rewrite upd_eq]. }
  assert (Ed4 : exists a p, w4.(dents) f = with_file a newsize p d).
  { destruct (fr_dent _ _ _ _ _ H3) as (p & Ed & _). cbn. rewrite upd_eq, Ed, D2. fold d. eauto. }
  destruct Ed4 as (a4 & p4 & Ed4).
  assert (Hdata : forall p, 512 * fs.(first_data_sec) <= p -> wdisk w4 p = wdisk w2 p).
  { intros p Hp'. pose proof (first_data_nonneg fs Hfs). change (wdisk w4 p) with (wdisk w3 p).
    destruct (Nat.eq_dec k (length l)) as [E|]; [apply (fr_all _ _ _ _ _ H3 E); lia|apply (fr_cut _ _ _ _ _ H3); [lia|exact Hp']]. }
  assert (Hoth : forall h lh, file_ok fs (wdisk w) h lh -> (forall x, x ∈ lh -> x ∉ l) -> file_ok fs (wdisk w4) h lh).
  { intros h lh Hh Hd'. change (wdisk w4) with (wdisk w3).
    assert (Hh2 : file_ok fs (wdisk w2) h lh) by (eapply file_ok_meta; [apply F2|exact Hh]).
    destruct (Nat.eq_dec k (length l)) as [E|].
    - apply (file_ok_ext fs (wdisk w2)); auto. intros p Hp'. symmetry. now apply (fr_all _ _ _ _ _ H3 E).
    - apply (cut_other (wdisk w2) _ l k); auto; [lia|]. apply H3. lia. }
  assert (Hp4 : parent_ok w4 (wdisk w4) f lp).
  { unfold parent_ok in *. rewrite Ed4. cbn [parent_dirent parent_dir_off with_file]. fold d in Hp.
    destruct Hp as [Hp|(Hp0 & Hpf & Hpo & Hrest)]; [now left|]. right.
    assert (Hpd : w4.(dents) d.(parent_dirent) = w.(dents) d.(parent_dirent)).
    { cbn. rewrite upd_ne by auto. rewrite (fr_others _ _ _ _ _ H3) by auto. now rewrite D2. }
    rewrite Hpd. split; [exact Hp0|]. split; [exact Hpf|]. split; [now apply Hoth|exact Hrest]. }
  assert (I4 : winv w4) by apply (fr_inv _ _ _ _ _ H3).
  destruct (sync_ok fuel f lp w4 Hfu I4 Hp4) as (w5 & E5 & I5 & D5 & P5 & K5 & MU5 & MK5 & W5).
  erewrite bind_run by exact E5. cbv [mtx_unlock_file modify]. eexists. split; [reflexivity|].
  assert (Htk : forall c, c ∈ take k l -> valid_clus fs c) by (intros c Hc; apply Hv; rewrite <- (take_drop k l); apply elem_of_app; now left).
  assert (Htp : forall c, c ∈ take k l -> c ∉ lp).
  { intros c Hc Hcp. apply (Hdis c Hcp). rewrite <- (take_drop k l). apply elem_of_app. now left. }
  assert (Ltk : length (take k l) = k) by (rewrite length_take; lia).
  assert (Hbyte : forall x, 0 <= x < bpc * Z.of_nat k -> fbyte fs (wdisk w5) (take k l) x = fbyte fs (wdisk w2) l x).
  { intros x Hx. rewrite (fwrite_fbyte_other _ _ _ _ _ _ (take k l) x W5) by (auto; rewrite Ltk; lia).
    rewrite (fbyte_data (wdisk w2) (wdisk w4)) by (auto; rewrite Ltk; lia). apply fbyte_take. lia. }
  set (w6 := MkWorld w5.(wfs) w5.(dents) (w5.(mtx_depth) - 1)).
  change (wdisk w6) with (wdisk w5). change (dents w6) with (dents w5). change (mtx_depth w6) with (w5.(mtx_depth) - 1).
  split; [exact I5|]. split; [rewrite D5; eapply file_ok_meta; [apply W5|exact Hf4]|].
  split; [now rewrite D5, Ed4|]. split; [|split; [|split; [|split; [|split; [|split; [|split]]]]]].
  - intros x Hx. rewrite Hbyte by nia. rewrite (fw_file _ _ _ _ _ _ F2) by nia. apply dset_out. lia.
  - intros Hmod x Hx Hx2. rewrite Hbyte by nia. rewrite (fw_file _ _ _ _ _ _ F2) by nia.
    rewrite (proj2 (Z.eqb_neq _ _) Hmod). now rewrite dset_in by lia.
  - intros x Hx. 
    assert (Hxv : valid_clus fs x) by (apply Hv; rewrite <- (take_drop k l); apply elem_of_app; now right).
    assert (Hlt : (k < length l)%nat).
    { destruct (Nat.eq_dec k (length l)) as [E|]; [|lia]. rewrite E, drop_ge in Hx by lia. now apply not_elem_of_nil in Hx. }
    transitivity (fatv fs (wdisk w4) 0 x); [|apply (ct_freed _ _ _ _ (fr_cut _ _ _ _ _ H3 Hlt)); exact Hx].
    destruct (fat_addr_bound fs Hfs 0 x Hxv (fat0 fs Hfs)) as [B1 B2]. unfold fatv, word_at.
    rewrite !(fw_meta _ _ _ _ _ _ W5) by lia. reflexivity.
  - intros g Hg. rewrite D5. cbn. rewrite upd_ne by auto. rewrite (fr_others _ _ _ _ _ H3) by auto. now rewrite D2.
  - rewrite P5. cbn. rewrite (fr_depth _ _ _ _ _ H3). rewrite P2. cbn. lia.
  - intros h lh Hh Hd'. destruct (file_ok_nodup _ _ _ Hh) as [_ Hvh]. split.
    + eapply file_ok_meta; [apply W5|]. apply Hoth; [exact Hh|]. intros x Hx. apply (Hd' x Hx).
    + intros x Hx. rewrite (fwrite_fbyte_other _ _ _ _ _ _ lh x W5 Hvh) by (auto; intros c Hc; apply (Hd' c Hc)).
      rewrite (fbyte_data (wdisk w2) (wdisk w4)) by auto.
      apply (fwrite_fbyte_other _ _ _ _ _ _ lh x F2 Hvh); [intros c Hc; apply (Hd' c Hc)|exact Hx].
  - intros Hp0. destruct Hp as [[Hz _]|(_ & _ & Hpo & _)]; [contradiction|]. destruct (file_ok_nodup _ _ _ Hpo) as [_ Hvp]. split.
    + eapply file_ok_meta; [apply W5|]. now apply Hoth.
    + intros x Hx Hout. rewrite (fw_file _ _ _ _ _ _ W5) by exact Hx. rewrite Ed4. cbn [with_file parent_dir_off parent_dirent].
      rewrite dset_out by (fold d in Hout; destruct (d.(parent_dirent) =? 0); lia). rewrite (fbyte_data (wdisk w2) (wdisk w4)) by auto.
      exact (fwrite_fbyte_other _ _ _ _ _ _ lp x F2 Hvp Hdis Hx).
  - exists a4, p4. now rewrite D5.
Qed.

(** ** Opening a file *)

Lemma filepnt_init_loop_ok fuel f : forall lr la c w,
  winv w -> chain fs (wdisk w) c lr -> table_ok (w.(dents) f) la ->
  Z.of_nat (length la + length lr) <= TABLE_MAX -> 2 * Z.of_nat (length lr) <= w.(wfs).(kpages) -> (length lr <= fuel)%nat ->
  exists w', filepnt_init_loop fs fuel f (sext32 c) (Z.of_nat (length la)) w = Ok (tt, w') /\ grown f w w' /\
    (forall p, 0 <= p -> wdisk w' p = wdisk w p) /\ table_ok (w'.(dents) f) (la ++ lr) /\
    (w'.(dents) f).(first_clus) = (w.(dents) f).(first_clus) /\ (w'.(dents) f).(file_size) = (w.(dents) f).(file_size).
Proof using Hfs SL.
  pose proof (ok_clus _ Hfs) as Hcl. change TABLE_MAX with 529408.
  induction fuel as [|fuel IH]; intros lr la c w Hi Hch Ht Hm Hk Hfu;
    destruct (chain_head _ _ _ _ Hfs Hch) as [Hc Hne]; cbn [filepnt_init_loop]; rewrite not_end_sext, Hne by auto;
    destruct lr as [|x lr]; try (cbn in Hfu; lia).
  1,2: exists w; rewrite app_nil_r; split; [reflexivity|]; split; [apply grown_disk; now apply wdisk_step_refl|]; auto.
  rewrite bool_decide_false by discriminate. cbn [negb]. destruct Hch as (-> & Hv & Hr).
  cbn [length] in Hm, Hk, Hfu. assert (Hcr : 2 <= c < 268435448) by (unfold valid_clus in Hv; lia).
  rewrite (sext32_small c), (wrap64_small c) by lia.
  destruct (setval_ok f (Z.of_nat (length la)) c w) as (w1 & E1 & H1); [change TABLE_MAX with 529408; lia|lia|lia|].
  erewrite bind_run by exact E1. destruct (grown_setval _ _ _ _ _ Hi H1) as [G1 D1].
  destruct (fatRead_ok fs Hfs c w1.(wfs)) as (s2 & E2 & H2); [apply G1|exact Hv|].
  erewrite bind_run by (apply on_fs_run; exact E2). set (w2 := MkWorld s2 w1.(dents) w1.(mtx_depth)).
  assert (D2 : forall p, 0 <= p -> wdisk w2 p = wdisk w p) by (intros p Hp; rewrite <- D1; now apply H2).
  assert (G12 : grown f w1 w2) by (apply grown_disk; eapply wdisk_of_step; exact H2).
  rewrite (sext32_small (_ + 1)) by lia.
  replace (Z.of_nat (length la) + 1) with (Z.of_nat (length (la ++ [c]))) by (rewrite length_app; cbn; lia).
  assert (Efat : fatv fs (disk_of (wfs w1)) 0 c = fatv fs (wdisk w) 0 c).
  { apply (fatv_ext fs Hfs); [exact Hv|now apply fat0|intros q _; apply D1]. }
  rewrite Efat. destruct (IH lr (la ++ [c]) (fatv fs (wdisk w) 0 c) w2) as (w3 & E3 & G3 & D3 & T3 & F3 & S3).
  - apply G12.
  - eapply chain_frame; [|exact Hr]. intros x Hx. apply (fatv_ext fs Hfs); [eapply chain_valid; eauto|now apply fat0|exact D2].
  - apply (table_ok_snoc w w1); [exact Ht|change TABLE_MAX with 529408; lia|exact H1].
  - rewrite length_app. cbn. lia.
  - destruct (sv_fs _ _ _ _ _ H1) as (k & Hk1 & E). pose proof (ds_kpages _ _ _ H2) as Ek. cbn. rewrite Ek, E. cbn. lia.
  - lia.
  - exists w3. split; [exact E3|]. split; [eapply grown_trans; [exact G1|eapply grown_trans; eauto]|].
    split; [intros p Hp; rewrite D3, D2 by auto; reflexivity|]. rewrite <- app_assoc in T3. split; [exact T3|].
    destruct (sv_dent _ _ _ _ _ H1) as (p & Ed & _). rewrite F3, S3. cbn [w2 dents]. rewrite Ed. auto.
Qed.
End FileOps.

(** ** What the layer promises *)

Section Promises.
Context {S : Type} {SS : SectorStore S} {SL : SectorStoreLaws S}.
Context (fs : FileSystem).
Implicit Types w : world S.

(** C40. Reading returns the bytes of the file: [min n (size - off)] of them,
    none past the end; they arrive at [dst] in order, whatever cluster and
    sector boundaries they cross, and nothing else of memory, of the disk, of
    any entry or of the lock changes. *)
Theorem file_read_bytes f l off n u dst w :
  fs_ok fs -> winv w -> file_ok fs (wdisk w) (w.(dents) f) l ->
  0 <= off -> 0 <= n -> off + n < 4294967296 ->
  let k := read_len (w.(dents) f).(file_size) off n in
  exists w', file_read fs f u dst off n w = Ok (k, w') /\
    wmem_step u w w' (dset (wmem u w) dst k (fun i => fbyte fs (wdisk w) l (off + i))).
Proof. intros Hfs. now apply file_read_ok. Qed.

(** C21. Writing past the end grows the file: the new size is [off + n], old
    bytes are kept, the written ones are those of the source and the gap in
    newly taken clusters reads zero; the chain and the file's table agree, the
    entry in the parent directory carries the new size, every file on other
    clusters keeps its chain and its bytes, and the lock is released. *)
Theorem file_write_extends fuel f l lp off n need u src w :
  fs_ok fs -> (1 < fuel)%nat -> winv w -> file_ok fs (wdisk w) (w.(dents) f) l ->
  parent_ok fs w (wdisk w) f lp -> (forall x, x ∈ lp -> x ∉ l) ->
  0 <= off -> 0 < n -> (w.(dents) f).(file_size) < off + n < 2147483648 ->
  clusters_of fs (off + n) <= TABLE_MAX -> Z.of_nat (length l) + Z.of_nat need = clusters_of fs (off + n) ->
  free_above fs (wdisk w) (grow_from l) need -> 2 * Z.of_nat need <= w.(wfs).(kpages) ->
  (u = true \/ src + n <= raw_addr f + 20 \/ raw_addr f + 32 <= src) ->
  exists w' l2, file_write fs fuel f u src off n w = Ok (n, w') /\ winv w' /\ length l2 = need /\
    file_ok fs (wdisk w') (w'.(dents) f) (l ++ l2) /\ (w'.(dents) f).(file_size) = off + n /\
    (forall g, g <> f -> w'.(dents) g = w.(dents) g) /\ w'.(mtx_depth) = w.(mtx_depth) /\
    wrote fs l l2 lp off n (w.(dents) f).(parent_dir_off)
      (if (w.(dents) f).(parent_dirent) =? 0 then 0 else DIR_SIZE)
      (fun i => wmem u w (src + i)) (fun i => wmem false w' (raw_addr f + i)) (wdisk w) (wdisk w') /\
    (forall i, 0 <= i < 4 -> wmem false w' (raw_addr f + 28 + i) = byte_at (le_bytes 4 (off + n)) i).
Proof. intros Hfs. now apply file_write_grow. Qed.

(** Read after write: what [file_write] stored inside the file is what
    [file_read] returns from there. *)
Theorem file_write_read fuel f l off n u src v dst w :
  fs_ok fs -> (0 < fuel)%nat -> winv w -> file_ok fs (wdisk w) (w.(dents) f) l ->
  0 <= off -> 0 < n -> off + n <= (w.(dents) f).(file_size) ->
  exists w1 w2, file_write fs fuel f u src off n w = Ok (n, w1) /\
    file_read fs f v dst off n w1 = Ok (n, w2) /\
    forall i, 0 <= i < n -> wmem v w2 (dst + i) = wmem u w (src + i).
Proof.
  intros Hfs Hfu Hi Hf Ho Hn Hle. pose proof (fo_max _ _ _ _ Hf) as [Hm _].
  destruct (file_write_inplace fs Hfs fuel f l off n u src w Hfu Hi Hf Ho Hn Hle) as (w1 & E1 & H1 & F1).
  assert (Hf1 : file_ok fs (wdisk w1) (w1.(dents) f) l).
  { rewrite (wd_dents _ _ H1). eapply file_ok_meta; [exact Hfs|apply F1|exact Hf]. }
  destruct (file_read_ok fs Hfs f l off n v dst w1 (wd_inv _ _ H1) Hf1 Ho) as (w2 & E2 & H2); [lia|lia|].
  rewrite (wd_dents _ _ H1) in E2, H2.
  assert (Ek : read_len (file_size (dents w f)) off n = n) by (unfold read_len; destruct (Z.leb_spec (file_size (dents w f)) off); lia).
  rewrite Ek in E2, H2. exists w1, w2. split; [exact E1|]. split; [exact E2|].
  intros i Hi'. unfold wmem at 1. rewrite (ms_mem _ _ _ _ (wm_step _ _ _ _ H2)), dset_in by lia.
  pose proof (fo_size _ _ _ _ Hf) as [Hs _].
  rewrite (fw_file _ _ _ _ _ _ _ F1) by lia. rewrite dset_in by lia. f_equal. lia.
Qed.

(** Truncating keeps the first [newsize] bytes and frees exactly the
    clusters no longer needed, in the table of the volume and of the file; the
    other files and the lock are untouched. If the old size was not a multiple
    of the page size the rest of the page is cleared. *)
Theorem file_shrink_truncates fuel f l lp newsize w :
  fs_ok fs -> (0 < fuel)%nat -> winv w -> file_ok fs (wdisk w) (w.(dents) f) l ->
  parent_ok fs w (wdisk w) f lp -> (forall x, x ∈ lp -> x ∉ l) ->
  0 <= newsize -> PGROUNDUP newsize <= (w.(dents) f).(file_size) ->
  let k := Z.to_nat (clusters_of fs newsize) in
  exists w', file_shrink fs fuel f newsize w = Ok (tt, w') /\ winv w' /\
    file_ok fs (wdisk w') (w'.(dents) f) (take k l) /\ (w'.(dents) f).(file_size) = newsize /\
    (forall x, 0 <= x < newsize -> fbyte fs (wdisk w') (take k l) x = fbyte fs (wdisk w) l x) /\
    ((w.(dents) f).(file_size) mod PAGE_SIZE <> 0 ->
       forall x, newsize <= x < fs.(bytes_per_clus) * Z.of_nat k -> x < PGROUNDUP newsize -> fbyte fs (wdisk w') (take k l) x = 0) /\
    (forall x, x ∈ drop k l -> fatv fs (wdisk w') 0 x = 0) /\
    (forall g, g <> f -> w'.(dents) g = w.(dents) g) /\ w'.(mtx_depth) = w.(mtx_depth) /\
    (forall h lh, file_ok fs (wdisk w) h lh -> (forall x, x ∈ lh -> (x ∉ l) /\ (x ∉ lp)) ->
       file_ok fs (wdisk w') h lh /\
       forall x, 0 <= x < fs.(bytes_per_clus) * Z.of_nat (length lh) -> fbyte fs (wdisk w') lh x = fbyte fs (wdisk w) lh x).
Proof.
  intros Hfs Hfu Hi Hf Hp Hd Hn Hpg k. destruct (file_shrink_ok fs Hfs fuel f l lp newsize w Hfu Hi Hf Hp Hd Hn Hpg) as (w' & E & I & F & Z1 & B1 & B2 & C1 & D1 & M1 & O1 & _).
  exists w'. auto 12.
Qed.

(** The first opening of a file with chain [l] loads the whole chain into
    its table: afterwards the file is well formed and the table is marked
    valid; nothing on the disk changes. *)
Theorem filepnt_init_loads fuel f l w :
  fs_ok fs -> winv w -> chain fs (wdisk w) (w.(dents) f).(first_clus) l -> l <> [] ->
  (w.(dents) f).(pointer).(pvalid) = 0 -> Z.of_nat (length l) <= TABLE_MAX ->
  2 * Z.of_nat (length l) <= w.(wfs).(kpages) -> (length l <= fuel)%nat ->
  exists w', filepnt_init fs fuel f w = Ok (tt, w') /\ winv w' /\ table_ok (w'.(dents) f) l /\
    (w'.(dents) f).(pointer).(pvalid) = 1 /\ (forall p, 0 <= p -> wdisk w' p = wdisk w p) /\
    chain fs (wdisk w') (w'.(dents) f).(first_clus) l.
Proof.
  intros Hfs Hi Hch Hne Hv Hm Hk Hfu. unfold filepnt_init. erewrite bind_run by reflexivity. rewrite Hv, Z.eqb_refl.
  pose proof (ok_clus _ Hfs) as Hcl. destruct l as [|c l]; [contradiction|]. pose proof Hch as (Ec & Hcv & _). unfold valid_clus in Hcv.
  rewrite (proj2 (Z.eqb_neq (sext32 _) 0)) by (rewrite sext32_small; lia).
  destruct (filepnt_init_loop_ok fs Hfs fuel f (c :: l) [] (w.(dents) f).(first_clus) w Hi Hch) as (w1 & E1 & G1 & D1 & T1 & F1 & S1);
    [intros i Hi'; cbn in Hi'; lia|exact Hm|exact Hk|exact Hfu|].
  erewrite bind_run by exact E1. cbv [upd_pointer upd_dent modify]. eexists. split; [reflexivity|].
  cbn [dents]. rewrite upd_eq. cbn [pointer with_file first_clus pvalid]. split; [apply G1|]. split; [exact T1|].
  split; [reflexivity|]. split; [exact D1|]. rewrite F1. eapply chain_frame; [|exact Hch]. intros x Hx.
  apply (fatv_ext fs Hfs); [eapply chain_valid; eauto|now apply fat0|exact D1].
Qed.
End Promises.

(** ** A volume to evaluate *)

(** Twenty clusters of one sector; the root directory in cluster 4, a file of
    700 bytes in 2 and 3, a file of 4096 bytes in 7 to 14. *)
Definition vol_fat : list Z :=
  concat (map (le_bytes 4)
    [268435448; FAT32_EOF; 3; FAT32_EOF; FAT32_EOF; 0; 0; 8; 9; 10; 11; 12; 13; 14; FAT32_EOF]) ++ replicate 452 0.
Definition vol_disk (b : Z) : list Z :=
  if b =? 0 then replicate 512 0 else if (b =? 1) || (b =? 2) then vol_fat else replicate 512 (b mod 256).
Definition vol_fs : FileSystem := MkFS 512 1 1 2 0 23 1 4 3 20 20 512.
Definition page_of (l : list Z) : TwicePointer := fun i => nth (Z.to_nat i) l 0.
Definition table_of (l : list Z) : DirentPointer :=
  MkPtr (fun i => if i =? 0 then Some (page_of l) else None) None 1.
Definition vol_dirent (first size off parent type : Z) (l : list Z) : Dirent :=
  MkDirent [97] first size 0 (table_of l) off type 0 [] parent 511 1 1 [].
Definition vol_big : list Z := [7; 8; 9; 10; 11; 12; 13; 14].
Definition vol_dents (i : Z) : Dirent :=
  if i =? 1 then vol_dirent 4 512 0 0 DIRENT_DIR [4]
  else if i =? 2 then vol_dirent 2 700 64 1 DIRENT_FILE [2; 3]
  else if i =? 3 then vol_dirent 7 4096 128 1 DIRENT_FILE vol_big
  else vol_dirent 0 0 0 0 DIRENT_FILE [].
Definition vol : world bcache :=
  MkWorld (MkFst (bufInit (zeroed vol_disk)) 0 (fun a => a mod 256) (fun _ => 0) 100) vol_dents 0.

Lemma vol_disk_len b : length (vol_disk b) = 512%nat.
Proof. unfold vol_disk. destruct (b =? 0); [reflexivity|]. destruct (_ || _); reflexivity. Qed.
Lemma vol_inv : winv vol.
Proof. pose proof (bufInit_ok vol_disk vol_disk_len) as (H1 & H2 & _). now split. Qed.
Lemma vol_fs_ok : fs_ok vol_fs.
Proof. constructor; cbn; lia. Qed.

(** The checks of [file_ok] and [free_above] that evaluation decides. *)
Ltac vol_chain := cbn [chain vol_big]; unfold valid_clus;
  repeat match goal with |- _ /\ _ => split end; vm_compute; (reflexivity || discriminate).
Lemma table_of_ok l i : 0 <= i < 1024 -> (Z.to_nat i < length l)%nat -> tbl (table_of l) i = Some (nth_clus l i).
Proof.
  intros Hi Hl. rewrite tbl_low; [|change TABLE_MAX with 529408; lia|zlia].
  replace (i / 1024) with 0 by zlia. replace (i mod 1024) with i by zlia. reflexivity.
Qed.
Lemma vol_file_ok first size off parent type l :
  chain vol_fs (wdisk vol) first l -> l <> [] -> Z.of_nat (length l) < 1024 ->
  0 <= size <= 512 * Z.of_nat (length l) -> 512 * (Z.of_nat (length l) - 1) < size ->
  file_ok vol_fs (wdisk vol) (vol_dirent first size off parent type l) l.
Proof.
  intros Hc Hn Hl Hs1 Hs2. constructor; cbn [first_clus pointer file_size vol_dirent].
  - right. auto.
  - intros i Hi. apply table_of_ok; lia.
  - rewrite bool_decide_false by auto. cbn [bytes_per_clus vol_fs]. lia.
  - change TABLE_MAX with 529408. lia.
Qed.
Lemma vol_root_ok : file_ok vol_fs (wdisk vol) (vol.(dents) 1) [4].
Proof. apply vol_file_ok; [vol_chain|discriminate|cbn; lia|cbn; lia|cbn; lia]. Qed.
Lemma vol_small_ok : file_ok vol_fs (wdisk vol) (vol.(dents) 2) [2; 3].
Proof. apply vol_file_ok; [vol_chain|discriminate|cbn; lia|cbn; lia|cbn; lia]. Qed.
Lemma vol_big_ok : file_ok vol_fs (wdisk vol) (vol.(dents) 3) vol_big.
Proof. apply vol_file_ok; [vol_chain|discriminate|cbn; lia|cbn; lia|cbn; lia]. Qed.
Lemma vol_small_parent : parent_ok vol_fs vol (wdisk vol) 2 [4].
Proof.
  right. split; [discriminate|]. split; [discriminate|]. split; [exact vol_root_ok|].
  split; [cbv; discriminate|cbv; discriminate].
Qed.
Lemma vol_big_parent : parent_ok vol_fs vol (wdisk vol) 3 [4].
Proof.
  right. split; [discriminate|]. split; [discriminate|]. split; [exact vol_root_ok|].
  split; [cbv; discriminate|cbv; discriminate].
Qed.
Lemma vol_free : free_above vol_fs (wdisk vol) 3 2.
Proof.
  apply (fa_some _ _ _ 5); [lia|unfold valid_clus; cbn; lia|vm_compute; reflexivity|].
  apply (fa_some _ _ _ 6); [lia|unfold valid_clus; cbn; lia|vm_compute; reflexivity|constructor].
Qed.
Lemma vol_stored : fbyte vol_fs (wdisk vol) [2; 3] 600 = 4.
Proof. vm_compute. reflexivity. Qed.

Lemma file_read_bytes_witness :
  exists w', file_read vol_fs 2 false 9000 500 1000 vol = Ok (200, w') /\ wmem false w' 9100 = 4.
Proof.
  destruct (file_read_bytes vol_fs 2 [2; 3] 500 1000 false 9000 vol vol_fs_ok vol_inv vol_small_ok)
    as (w' & E & H); [lia|lia|lia|].
  exists w'. split; [exact E|]. unfold wmem. rewrite (ms_mem _ _ _ _ (wm_step _ _ _ _ H)).
  rewrite dset_in by (cbv; split; congruence). exact vol_stored.
Defined.
Lemma file_write_extends_witness :
  exists w' l2, file_write vol_fs 2 2 false 1000 600 1000 vol = Ok (1000, w') /\ length l2 = 2%nat /\
    file_ok vol_fs (wdisk w') (w'.(dents) 2) ([2; 3] ++ l2).
Proof.
  destruct (file_write_extends vol_fs 2 2 [2; 3] [4] 600 1000 2 false 1000 vol vol_fs_ok) as (w' & l2 & E & _ & L & F & _).
  - lia.
  - exact vol_inv.
  - exact vol_small_ok.
  - exact vol_small_parent.
  - intros x ->%list_elem_of_singleton Hx. repeat (apply elem_of_cons in Hx as [Hx|Hx]; [discriminate|]). now apply not_elem_of_nil in Hx.
  - lia.
  - lia.
  - cbv. split; congruence.
  - cbv. congruence.
  - reflexivity.
  - exact vol_free.
  - cbv. congruence.
  - right. left. cbv. congruence.
  - exists w', l2. auto.
Defined.
Lemma file_write_read_witness :
  exists w1 w2, file_write vol_fs 1 2 false 1000 500 100 vol = Ok (100, w1) /\
    file_read vol_fs 2 true 7000 500 100 w1 = Ok (100, w2).
Proof.
  destruct (file_write_read vol_fs 1 2 [2; 3] 500 100 false 1000 true 7000 vol vol_fs_ok) as (w1 & w2 & E1 & E2 & _);
    [lia|exact vol_inv|exact vol_small_ok|lia|lia|cbv; congruence|]. eauto.
Defined.
Lemma file_shrink_truncates_witness :
  exists w', file_shrink vol_fs 1 3 1000 vol = Ok (tt, w') /\ file_ok vol_fs (wdisk w') (w'.(dents) 3) [7; 8].
Proof.
  destruct (file_shrink_truncates vol_fs 1 3 vol_big [4] 1000 vol vol_fs_ok) as (w' & E & _ & F & _).
  - lia.
  - exact vol_inv.
  - exact vol_big_ok.
  - exact vol_big_parent.
  - intros x ->%list_elem_of_singleton Hx. repeat (apply elem_of_cons in Hx as [Hx|Hx]; [discriminate|]). now apply not_elem_of_nil in Hx.
  - lia.
  - cbv. congruence.
  - exists w'. split; [exact E|exact F].
Defined.
Lemma filepnt_init_loads_witness :
  let w := MkWorld vol.(wfs) (upd vol.(dents) 2 (with_file 2 700 (MkPtr (fun _ => None) None 0) (vol.(dents) 2))) 0 in
  exists w', filepnt_init vol_fs 3 2 w = Ok (tt, w') /\ table_ok (w'.(dents) 2) [2; 3].
Proof.
  intros w. destruct (filepnt_init_loads vol_fs 3 2 [2; 3] w vol_fs_ok) as (w' & E & _ & T & _).
  - exact vol_inv.
  - destruct (fo_chain _ _ _ _ vol_small_ok) as [[H _]|[H _]]; [discriminate|exact H].
  - discriminate.
  - reflexivity.
  - cbv. congruence.
  - cbv. congruence.
  - cbn. lia.
  - eauto.
Defined.

(** ** Truncating a file whose size is a multiple of the page size *)

(** Truncate the 4096-byte file to 100 bytes, write one byte at 200, read the
    byte at 150. *)
Definition regrow : M (world bcache) unit :=
  file_shrink vol_fs 2 3 100 ;;;
  file_write vol_fs 2 3 false 1000 200 1 ;;;
  file_read vol_fs 3 false 9000 150 1 ;;;
  ret tt.
Definition regrow_byte : option Z :=
  match regrow vol with Ok (_, w) => Some (w.(wfs).(kmem) 9000) | Err _ => None end.

(** [file_write] promises that a gap past the end reads as zero, and
    [file_shrink] is to clear the rest of the last cluster for that; it only
    does so when the {e old} size is not a multiple of the page size. Here the
    gap shows a byte of the deleted contents, 8, instead of 0. *)
Theorem file_shrink_leaves_stale : regrow_byte = Some 8.
Proof. vm_compute. reflexivity. Qed.

(** Asking for so much that [off + n] exceeds 32 bits. *)
Definition huge_read : option (Z * Z) :=
  match file_read vol_fs 2 false 9000 10 4294967290 vol with
  | Ok (r, w) => Some (r, w.(wfs).(kmem) (9000 + 600))
  | Err _ => None
  end.

(** When [off + n] wraps around 32 bits, [file_read] does not shorten the
    read: it copies the rest of one cluster and reports all of [n] (here as
    the [int] -6), although 690 bytes were available. *)
Theorem file_read_wraps : huge_read = Some (-6, (9000 + 600) mod 256).
Proof. vm_compute. reflexivity. Qed.
