(* ===== verification/Pipe.v ===== *)
(** * Pipes

    [src/kern/fs/fd/pipe.c] and [src/include/fs/pipe.h].  The lock of a pipe
    is held from the first line of an operation to its end, except while the
    thread sleeps, so one step of the system is a run of one thread from
    taking the lock to sleeping or returning.  [sleep] and [wakeup] act as in
    [src/kern/proc/sleep.c]: [wakeup] makes every thread on the channel
    runnable, and a woken thread takes the lock again and re-examines the
    pipe.  Each thread has its own user memory, where [copyIn] and [copyOut]
    read and write. *)

From S2P Require Import Prelude Bytes Cluster.
From Stdlib Require Import ZArith Lia Bool.
From stdpp Require Import base tactics numbers list.
Open Scope Z_scope.

Definition PIPE_BUF_SIZE : Z := 131072.
Definition EPIPE : Z := 32.

Record Pipe : Type := MkPipe {
  pcount : Z;            (* u32 count *)
  pipeReadPos : Z;       (* u64 *)
  pipeWritePos : Z;      (* u64 *)
  pipeBuf : option (Z -> Z)
}.

(** The part of [pipe] that makes the object: two ends, empty. *)
Definition pipe_new (garbage : Z -> Z) : Pipe := MkPipe 2 0 0 (Some garbage).

Definition pipeIsClose (p : Pipe) : bool := p.(pcount) <=? 1.

(** What a run of an operation under the lock ends with. *)
Inductive outcome : Type :=
| Sleeps                  (* on this operation's own channel *)
| Returns (r : Z).

(** [fd_pipe_read] from the lock to [sleep] or [return]: the new pipe, the
    thread's memory and the outcome. The other side's channel is woken exactly
    when data was taken, or nothing was there to take. *)
Definition read_run (p : Pipe) (mem : Z -> Z) (buf n : Z) (killed : bool) : res (Pipe * (Z -> Z) * outcome) :=
  if (p.(pipeReadPos) =? p.(pipeWritePos)) && negb (pipeIsClose p) && negb killed
  then Ok (p, mem, Sleeps)
  else if killed then Ok (p, mem, Returns (- EPIPE))
  else
    let read_size := Z.min n (wrap64 (p.(pipeWritePos) - p.(pipeReadPos))) in
    let read_dst := wrap64 (p.(pipeReadPos) + read_size) in
    let read_begin := p.(pipeReadPos) mod PIPE_BUF_SIZE in
    let read_end := read_dst mod PIPE_BUF_SIZE in
    match p.(pipeBuf) with
    | None => if read_size =? 0 then Ok (p, mem, Returns 0) else Err BadPtr
    | Some b =>
        let mem' :=
          if read_size =? 0 then mem
          else if read_begin <? read_end then mem_write buf (mem_read b read_begin read_size) mem
          else mem_write (buf + PIPE_BUF_SIZE - read_begin) (mem_read b 0 read_end)
                 (mem_write buf (mem_read b read_begin (PIPE_BUF_SIZE - read_begin)) mem) in
        Ok (MkPipe p.(pcount) (wrap64 (p.(pipeReadPos) + read_size)) p.(pipeWritePos) p.(pipeBuf), mem',
            Returns (sext32 read_size))
    end.

(** One round of the loop of [fd_pipe_write] that copies. *)
Definition write_copy (p : Pipe) (b mem : Z -> Z) (buf n i : Z) : Pipe * Z :=
  let left_size := wrap64 (PIPE_BUF_SIZE - wrap64 (p.(pipeWritePos) - p.(pipeReadPos))) in
  let write_length := Z.min left_size n in
  let write_dst := wrap64 (p.(pipeWritePos) + write_length) in
  let write_begin := p.(pipeWritePos) mod PIPE_BUF_SIZE in
  let write_end := write_dst mod PIPE_BUF_SIZE in
  let b' :=
    if write_begin <? write_end then mem_write write_begin (mem_read mem (buf + i) write_length) b
    else mem_write 0 (mem_read mem (buf + i + PIPE_BUF_SIZE - write_begin) write_end)
           (mem_write write_begin (mem_read mem (buf + i) (PIPE_BUF_SIZE - write_begin)) b) in
  (MkPipe p.(pcount) p.(pipeReadPos) (wrap64 (p.(pipeWritePos) + write_length)) (Some b'), sext32 (i + write_length)).

(** [fd_pipe_write] from the lock to [sleep] or [return], with [i] bytes done
    before; returns the bytes done. *)
Fixpoint write_run (fuel : nat) (p : Pipe) (mem : Z -> Z) (buf n i : Z) (killed : bool) : res (Pipe * Z * outcome) :=
  if wrap64 i <? n then
    if pipeIsClose p || killed then Ok (p, i, Returns (- EPIPE))
    else if wrap64 (p.(pipeWritePos) - p.(pipeReadPos)) =? PIPE_BUF_SIZE then Ok (p, i, Sleeps)
    else
      match fuel, p.(pipeBuf) with
      | O, _ => Err NoFuel
      | S _, None => Err BadPtr
      | S fuel', Some b =>
          let '(p', i') := write_copy p b mem buf n i in
          write_run fuel' p' mem buf n i' killed
      end
  else Ok (p, i, Returns i).

(** [fd_pipe_close]. *)
Definition close_run (p : Pipe) : Pipe :=
  let count := wrap32 (p.(pcount) - 1) in
  MkPipe count p.(pipeReadPos) p.(pipeWritePos) (if count =? 0 then None else p.(pipeBuf)).

Definition pipe_check_read (p : Pipe) : bool :=
  if negb (p.(pipeReadPos) =? p.(pipeWritePos)) then true else pipeIsClose p.
Definition pipe_check_write (p : Pipe) : bool :=
  if wrap64 (p.(pipeWritePos) - p.(pipeReadPos)) <? PIPE_BUF_SIZE then true else pipeIsClose p.

(** ** Threads on one pipe *)

Inductive call : Type :=
| Reading (buf n : Z)
| Writing (buf n i : Z).
Inductive tstate : Type :=
| Ready (c : call)
| Asleep (c : call)
| Done (r : Z).
Record thr : Type := MkThr {
  tst : tstate;
  tmem : Z -> Z;
  tkilled : bool
}.
Record sys : Type := MkSys {
  spipe : Pipe;
  threads : list thr;
  (** bytes that went in and came out, in order *)
  written : list Z;
  taken : list Z
}.

(** [wakeup(&p->pipeReadPos)] and [wakeup(&p->pipeWritePos)]. *)
Definition wake (readers : bool) (t : thr) : thr :=
  match t.(tst) with
  | Asleep (Reading b n) => if readers then MkThr (Ready (Reading b n)) t.(tmem) t.(tkilled) else t
  | Asleep (Writing b n i) => if readers then t else MkThr (Ready (Writing b n i)) t.(tmem) t.(tkilled)
  | _ => t
  end.
Definition wakeup (readers : bool) (l : list thr) : list thr := map (wake readers) l.

Definition after_run (t : thr) (mem : Z -> Z) (c : call) (o : outcome) : thr :=
  MkThr (match o with Sleeps => Asleep c | Returns r => Done r end) mem t.(tkilled).

(** The bytes between two positions of a pipe. *)
Definition ring (b : Z -> Z) (from to : Z) : list Z := map (fun i => b (i mod PIPE_BUF_SIZE)) (seqZ from (to - from)).
Definition contents (p : Pipe) : list Z :=
  match p.(pipeBuf) with Some b => ring b p.(pipeReadPos) p.(pipeWritePos) | None => [] end.

(** The threads after [k] ran to [t']; with [woke] it woke the other side. *)
Definition resume (own woke : bool) (k : nat) (t' : thr) (l : list thr) : list thr :=
  <[k := t']> (if woke then wakeup (negb own) l else l).
(** A reader wakes writers when it returns, unless it was killed; a writer
    wakes readers when it returns, and before it sleeps. *)
Definition read_wakes (o : outcome) : bool :=
  match o with Sleeps => false | Returns r => negb (r =? - EPIPE) end.
Definition write_wakes (o : outcome) : bool :=
  match o with Sleeps => true | Returns r => negb (r =? - EPIPE) end.

Inductive step : sys -> sys -> Prop :=
| step_read s k t buf n p mem o :
    s.(threads) !! k = Some t -> t.(tst) = Ready (Reading buf n) ->
    read_run s.(spipe) t.(tmem) buf n t.(tkilled) = Ok (p, mem, o) ->
    step s (MkSys p (resume true (read_wakes o) k (after_run t mem (Reading buf n) o) s.(threads))
      s.(written)
      (s.(taken) ++ take (Z.to_nat (p.(pipeReadPos) - s.(spipe).(pipeReadPos))) (contents s.(spipe))))
| step_write s k t buf n i p i' o :
    s.(threads) !! k = Some t -> t.(tst) = Ready (Writing buf n i) ->
    write_run 2 s.(spipe) t.(tmem) buf n i t.(tkilled) = Ok (p, i', o) ->
    step s (MkSys p (resume false (write_wakes o) k (after_run t t.(tmem) (Writing buf n i') o) s.(threads))
      (s.(written) ++ mem_read t.(tmem) (buf + i) (p.(pipeWritePos) - s.(spipe).(pipeWritePos)))
      s.(taken))
| step_close s :
    0 < s.(spipe).(pcount) ->
    step s (MkSys (close_run s.(spipe)) (wakeup true (wakeup false s.(threads))) s.(written) s.(taken))
| step_kill s k t :
    s.(threads) !! k = Some t ->
    step s (MkSys s.(spipe)
      (<[k := MkThr (match t.(tst) with Asleep c => Ready c | st => st end) t.(tmem) true]> s.(threads))
      s.(written) s.(taken)).

(** Runs in which fewer than 2^62 bytes pass: the 64-bit positions never wrap. *)
Definition POS_MAX : Z := 4611686018427387904.
Inductive reachable (s0 : sys) : sys -> Prop :=
| reach_refl : reachable s0 s0
| reach_step s s' : reachable s0 s -> step s s' -> s'.(spipe).(pipeWritePos) < POS_MAX -> reachable s0 s'.

(** ** The ring buffer as a queue *)

Record pipe_ok (p : Pipe) : Prop := {
  po_pos : 0 <= p.(pipeReadPos) <= p.(pipeWritePos);
  po_size : p.(pipeWritePos) - p.(pipeReadPos) <= PIPE_BUF_SIZE;
  po_count : 0 <= p.(pcount) <= 2;
  po_buf : p.(pcount) <> 0 -> exists b, p.(pipeBuf) = Some b;
  po_freed : p.(pcount) = 0 -> p.(pipeBuf) = None
}.

Lemma ring_app b r m w : r <= m <= w -> ring b r w = ring b r m ++ ring b m w.
Proof.
  intros H. unfold ring. rewrite <- map_app. f_equal.
  replace (w - r) with ((m - r) + (w - m)) by lia. rewrite seqZ_app by lia. do 2 f_equal; lia.
Qed.
Lemma length_ring b r w : length (ring b r w) = Z.to_nat (w - r).
Proof. unfold ring. now rewrite length_map, length_seqZ. Qed.
Lemma ring_ext b b' r w : (forall j, r <= j < w -> b' (j mod PIPE_BUF_SIZE) = b (j mod PIPE_BUF_SIZE)) -> ring b' r w = ring b r w.
Proof. intros H. unfold ring. apply map_ext_in. intros j Hj%list_elem_of_In%elem_of_seqZ. apply H. lia. Qed.
Lemma ring_mem b m a w n :
  (forall j, 0 <= j < n -> b ((w + j) mod PIPE_BUF_SIZE) = m (a + j)) -> ring b w (w + n) = mem_read m a n.
Proof.
  intros H. unfold ring, mem_read. replace (w + n - w) with n by lia.
  replace (seqZ w n) with (map (Z.add w) (seqZ 0 n)) by (change (map (Z.add w) (seqZ 0 n)) with (Z.add w <$> seqZ 0 n); rewrite fmap_add_seqZ; f_equal; lia).
  rewrite map_map. apply map_ext_in. intros j Hj%list_elem_of_In%elem_of_seqZ. apply H. lia.
Qed.
Lemma mem_read_in m a n x : 0 <= n -> a <= x < a + n -> byte_at (mem_read m a n) (x - a) = m x.
Proof. intros Hn Hx. rewrite byte_at_mem_read by lia. f_equal. lia. Qed.

Lemma mem_write_in a m a' n m' x : 0 <= n -> a <= x < a + n -> mem_write a (mem_read m a' n) m' x = m (a' + (x - a)).
Proof.
  intros Hn Hx. rewrite mem_write_dset, length_mem_read, dset_in by lia. now rewrite byte_at_mem_read by lia.
Qed.
Lemma mem_write_read_out a m a' n m' x : 0 <= n -> x < a \/ a + n <= x -> mem_write a (mem_read m a' n) m' x = m' x.
Proof. intros Hn Hx. apply mem_write_out. rewrite length_mem_read by lia. lia. Qed.

(** One copying round appends exactly the bytes it takes from the source. *)
Lemma write_copy_ok p b mem buf n i p' i' :
  pipe_ok p -> p.(pipeWritePos) < POS_MAX -> p.(pipeBuf) = Some b ->
  p.(pipeWritePos) - p.(pipeReadPos) < PIPE_BUF_SIZE -> 0 <= i -> 0 < n < 1073741824 -> i < n -> write_copy p b mem buf n i = (p', i') ->
  let len := Z.min (PIPE_BUF_SIZE - (p.(pipeWritePos) - p.(pipeReadPos))) n in
  i' = i + len /\ p'.(pcount) = p.(pcount) /\ p'.(pipeReadPos) = p.(pipeReadPos) /\
  p'.(pipeWritePos) = p.(pipeWritePos) + len /\ (exists b', p'.(pipeBuf) = Some b') /\
  contents p' = contents p ++ mem_read mem (buf + i) len.
Proof.
  intros [Hr Hs Hc _ _] Hw Eb Hroom Hi Hn Hin E len. unfold write_copy, POS_MAX in *.
  rewrite (wrap64_small (pipeWritePos p - pipeReadPos p)) in E by (unfold PIPE_BUF_SIZE in *; lia).
  rewrite (wrap64_small (PIPE_BUF_SIZE - _)) in E by (unfold PIPE_BUF_SIZE in *; lia). fold len in E.
  assert (Hlen : 0 < len <= PIPE_BUF_SIZE) by (unfold PIPE_BUF_SIZE in *; lia).
  rewrite !(wrap64_small (pipeWritePos p + len)) in E by (unfold PIPE_BUF_SIZE in *; lia).
  rewrite (sext32_small (i + len)) in E by (unfold PIPE_BUF_SIZE in *; lia). injection E as <- <-.
  cbn [pcount pipeReadPos pipeWritePos pipeBuf]. repeat (split; [reflexivity|]). split; [eauto|].
  unfold contents. cbn [pipeBuf pipeReadPos pipeWritePos]. rewrite Eb.
  set (r := p.(pipeReadPos)) in *. set (w := p.(pipeWritePos)) in *.
  set (wb := w mod PIPE_BUF_SIZE). set (we := (w + len) mod PIPE_BUF_SIZE).
  set (b' := if wb <? we then _ else _).
  assert (Hout : forall x, 0 <= x < PIPE_BUF_SIZE -> (x - w) mod PIPE_BUF_SIZE >= len -> b' x = b x).
  { intros x Hx Hd. subst b' wb we. unfold PIPE_BUF_SIZE in *.
    destruct (Z.ltb_spec (w mod 131072) ((w + len) mod 131072)).
    - apply mem_write_read_out; [lia|]. zlia.
    - rewrite mem_write_read_out; [apply mem_write_read_out|..]; try zlia. }
  assert (Hin' : forall j, 0 <= j < len -> b' ((w + j) mod PIPE_BUF_SIZE) = mem (buf + i + j)).
  { intros j Hj. subst b' wb we. unfold PIPE_BUF_SIZE in *.
    destruct (Z.ltb_spec (w mod 131072) ((w + len) mod 131072)).
    - rewrite mem_write_in; [f_equal; zlia|lia|zlia].
    - destruct (Z_lt_le_dec (w mod 131072 + j) 131072).
      + rewrite mem_write_read_out; [|zlia|zlia]. rewrite mem_write_in; [f_equal; zlia|zlia|zlia].
      + rewrite mem_write_in; [f_equal; zlia|zlia|zlia]. }
  rewrite (ring_app b' r w (w + len)) by lia. f_equal.
  - apply ring_ext. intros j Hj. apply Hout; unfold PIPE_BUF_SIZE in *; zlia.
  - now apply ring_mem.
Qed.

Lemma pipeIsClose_false p : pipeIsClose p = false -> 2 <= p.(pcount).
Proof. unfold pipeIsClose. intros H. zbool. lia. Qed.

(** What a writer's run does. *)
Record write_post (p : Pipe) (mem : Z -> Z) (buf n i : Z) (p' : Pipe) (i' : Z) (o : outcome) : Prop := {
  wp_ok : pipe_ok p';
  wp_mono : p.(pipeWritePos) <= p'.(pipeWritePos) <= p.(pipeWritePos) + PIPE_BUF_SIZE;
  wp_read : p'.(pipeReadPos) = p.(pipeReadPos) /\ p'.(pcount) = p.(pcount);
  wp_contents : contents p' = contents p ++ mem_read mem (buf + i) (p'.(pipeWritePos) - p.(pipeWritePos));
  wp_done : i' = i + (p'.(pipeWritePos) - p.(pipeWritePos));
  wp_sleep : o = Sleeps -> p'.(pipeWritePos) - p'.(pipeReadPos) = PIPE_BUF_SIZE /\ pipeIsClose p' = false /\ i' < n;
  wp_return : forall r, o = Returns r -> r = - EPIPE /\ p' = p \/ r = i' /\ n <= i'
}.

Lemma mem_read_nil m a n : n <= 0 -> mem_read m a n = [].
Proof. intros. unfold mem_read. rewrite seqZ_nil by lia. reflexivity. Qed.

Lemma write_post_refl p mem buf n i o :
  pipe_ok p -> (o = Sleeps -> p.(pipeWritePos) - p.(pipeReadPos) = PIPE_BUF_SIZE /\ pipeIsClose p = false /\ i < n) ->
  (forall r, o = Returns r -> r = - EPIPE \/ r = i /\ n <= i) -> write_post p mem buf n i p i o.
Proof.
  intros Hp Hs Hr. constructor; auto; try lia.
  - unfold PIPE_BUF_SIZE. lia.
  - rewrite mem_read_nil, app_nil_r by lia. reflexivity.
  - intros r Er. destruct (Hr r Er); auto.
Qed.

Lemma write_run_ok p mem buf n i killed :
  pipe_ok p -> p.(pcount) <> 0 -> p.(pipeWritePos) < POS_MAX -> 0 <= n < 1073741824 -> 0 <= i ->
  (i < n \/ i = 0) ->
  exists p' i' o, write_run 2 p mem buf n i killed = Ok (p', i', o) /\ write_post p mem buf n i p' i' o.
Proof.
  intros Hp Hc0 Hw Hn Hi Hin. pose proof Hp as [Hr Hs Hc Hb _]. unfold POS_MAX in *.
  cbn [write_run]. rewrite (wrap64_small i) by lia.
  destruct (Z.ltb_spec i n) as [Hlt|Hge].
  2:{ eexists p, i, _. split; [reflexivity|]. apply write_post_refl; auto; [discriminate|]. intros r [= <-]. auto. }
  destruct (pipeIsClose p) eqn:Ecl; cbn [orb].
  { eexists p, i, _. split; [reflexivity|]. apply write_post_refl; auto; [discriminate|]. intros r [= <-]. auto. }
  destruct killed; cbn [orb].
  { eexists p, i, _. split; [reflexivity|]. apply write_post_refl; auto; [discriminate|]. intros r [= <-]. auto. }
  rewrite (wrap64_small (pipeWritePos p - pipeReadPos p)) by (unfold PIPE_BUF_SIZE in *; lia).
  destruct (Z.eqb_spec (pipeWritePos p - pipeReadPos p) PIPE_BUF_SIZE) as [Efull|Hroom].
  { eexists p, i, _. split; [reflexivity|]. apply write_post_refl; auto. discriminate. }
  destruct (Hb Hc0) as [b Eb]. rewrite Eb. destruct (write_copy p b mem buf n i) as [p1 i1] eqn:E1.
  destruct (write_copy_ok p b mem buf n i p1 i1 Hp Hw Eb ltac:(lia) Hi ltac:(lia) Hlt E1)
    as (Ei & Ec & Er & Ew & [b' Eb'] & Econt). set (len := Z.min _ n) in *.
  assert (Hlen : 0 < len <= PIPE_BUF_SIZE) by (unfold PIPE_BUF_SIZE in *; lia).
  assert (Hp1 : pipe_ok p1).
  { constructor; rewrite ?Er, ?Ew, ?Ec; try lia; eauto. }
  assert (Hpost : forall o, (o = Sleeps -> pipeWritePos p1 - pipeReadPos p1 = PIPE_BUF_SIZE /\ i1 < n) ->
     (forall r, o = Returns r -> r = i1 /\ n <= i1) -> write_post p mem buf n i p1 i1 o).
  { intros o Ho Ho'. constructor; auto.
    - rewrite Ew. lia.
    - rewrite Ew. replace (pipeWritePos p + len - pipeWritePos p) with len by lia. exact Econt.
    - rewrite Ew. lia.
    - intros Eo. destruct (Ho Eo). split; [assumption|]. split; [|assumption].
      unfold pipeIsClose in *. now rewrite Ec. }
  cbn [write_run]. rewrite (wrap64_small i1) by (unfold PIPE_BUF_SIZE in *; lia).
  destruct (Z.ltb_spec i1 n) as [Hlt1|Hge1].
  - assert (Hfull : pipeWritePos p1 - pipeReadPos p1 = PIPE_BUF_SIZE) by (rewrite Ew, Er; lia).
    unfold pipeIsClose in *. rewrite Ec, Ecl. cbn [orb]. rewrite Hfull.
    rewrite (wrap64_small PIPE_BUF_SIZE) by (unfold PIPE_BUF_SIZE; lia). rewrite Z.eqb_refl.
    eexists p1, i1, _. split; [reflexivity|]. apply Hpost; [auto|discriminate].
  - eexists p1, i1, _. split; [reflexivity|]. apply Hpost; [discriminate|]. intros r [= <-]. auto.
Qed.

(** What a reader's run does. *)
Record read_post (p : Pipe) (mem : Z -> Z) (buf n : Z) (killed : bool) (p' : Pipe) (mem' : Z -> Z) (o : outcome) : Prop := {
  rp_ok : pipe_ok p';
  rp_write : p'.(pipeWritePos) = p.(pipeWritePos) /\ p'.(pcount) = p.(pcount);
  rp_mono : p.(pipeReadPos) <= p'.(pipeReadPos);
  rp_contents : contents p' = drop (Z.to_nat (p'.(pipeReadPos) - p.(pipeReadPos))) (contents p);
  rp_data : mem_read mem' buf (p'.(pipeReadPos) - p.(pipeReadPos)) =
            take (Z.to_nat (p'.(pipeReadPos) - p.(pipeReadPos))) (contents p);
  rp_sleep : o = Sleeps -> p' = p /\ p.(pipeReadPos) = p.(pipeWritePos) /\ pipeIsClose p = false /\ killed = false;
  rp_return : forall r, o = Returns r -> r = - EPIPE /\ killed = true /\ p' = p \/
    killed = false /\ r = p'.(pipeReadPos) - p.(pipeReadPos) /\ r = Z.min n (p.(pipeWritePos) - p.(pipeReadPos))
}.

Lemma read_post_refl p mem buf n killed o :
  pipe_ok p ->
  (o = Sleeps -> p.(pipeReadPos) = p.(pipeWritePos) /\ pipeIsClose p = false /\ killed = false) ->
  (forall r, o = Returns r -> r = - EPIPE /\ killed = true) -> read_post p mem buf n killed p mem o.
Proof.
  intros Hp Hs Hr. constructor; auto; try lia.
  - rewrite Z.sub_diag. reflexivity.
  - rewrite Z.sub_diag. reflexivity.
  - intros r Er. destruct (Hr r Er). auto.
Qed.

Lemma read_run_ok p mem buf n killed :
  pipe_ok p -> p.(pcount) <> 0 -> p.(pipeWritePos) < POS_MAX -> 0 <= n < 1073741824 ->
  exists p' mem' o, read_run p mem buf n killed = Ok (p', mem', o) /\ read_post p mem buf n killed p' mem' o.
Proof.
  intros Hp Hc0 Hw Hn. pose proof Hp as [Hr Hs Hc Hb _]. unfold POS_MAX in *. unfold read_run.
  destruct (_ && _ && _) eqn:Esl.
  { zbool. eexists p, mem, _. split; [reflexivity|]. apply read_post_refl; auto. discriminate. }
  destruct killed.
  { eexists p, mem, _. split; [reflexivity|]. apply read_post_refl; auto; [discriminate|]. intros r [= <-]. auto. }
  rewrite (wrap64_small (pipeWritePos p - pipeReadPos p)) by (unfold PIPE_BUF_SIZE in *; lia).
  set (k := Z.min n _). assert (Hk : 0 <= k <= PIPE_BUF_SIZE) by (unfold PIPE_BUF_SIZE in *; lia).
  rewrite (wrap64_small (pipeReadPos p + k)), (sext32_small k) by (unfold PIPE_BUF_SIZE in *; lia).
  destruct (Hb Hc0) as [b Eb]. rewrite Eb. eexists _, _, _. split; [reflexivity|].
  set (r := p.(pipeReadPos)) in *. set (w := p.(pipeWritePos)) in *.
  assert (Econt : contents p = ring b r (r + k) ++ ring b (r + k) w).
  { unfold contents. rewrite Eb. apply ring_app. fold r w. lia. }
  assert (Elen : length (ring b r (r + k)) = Z.to_nat k) by (rewrite length_ring; f_equal; lia).
  constructor; cbn [pipeReadPos pipeWritePos pcount]; fold r; replace (r + k - r) with k by lia; try lia; auto.
  - constructor; cbn; fold w; try lia; eauto.
  - unfold contents at 1. cbn. rewrite Econt, <- Elen, drop_app_length. reflexivity.
  - rewrite Econt, <- Elen, take_app_length. symmetry. apply ring_mem. intros j Hj.
    destruct (Z.eqb_spec k 0); [lia|]. unfold PIPE_BUF_SIZE in *.
    destruct (Z.ltb_spec (r mod 131072) ((r + k) mod 131072)).
    + rewrite mem_write_in; [f_equal; zlia|lia|zlia].
    + destruct (Z_lt_le_dec (r mod 131072 + j) 131072).
      * rewrite mem_write_read_out; [|zlia|zlia]. rewrite mem_write_in; [f_equal; zlia|zlia|zlia].
      * rewrite mem_write_in; [f_equal; zlia|zlia|zlia].
  - discriminate.
  - intros r' [= <-]. right. auto.
Qed.

(** ** Every interleaving *)

Definition call_ok (c : call) : Prop :=
  match c with
  | Reading _ n => 0 <= n < 1073741824
  | Writing _ n i => 0 <= n < 1073741824 /\ 0 <= i /\ (i < n \/ i = 0)
  end.
Definition thr_ok (t : thr) : Prop :=
  match t.(tst) with Ready c | Asleep c => call_ok c | Done _ => True end.
Definition is_asleep (reader : bool) (t : thr) : Prop :=
  match t.(tst) with
  | Asleep (Reading _ _) => reader = true
  | Asleep (Writing _ _ _) => reader = false
  | _ => False
  end.

Record sys_inv (s : sys) : Prop := {
  si_pipe : pipe_ok s.(spipe);
  si_max : s.(spipe).(pipeWritePos) < POS_MAX;
  si_thr : forall t, t ∈ s.(threads) -> thr_ok t;
  si_reader : forall t, t ∈ s.(threads) -> is_asleep true t ->
    s.(spipe).(pipeReadPos) = s.(spipe).(pipeWritePos) /\ pipeIsClose s.(spipe) = false;
  si_writer : forall t, t ∈ s.(threads) -> is_asleep false t ->
    s.(spipe).(pipeWritePos) - s.(spipe).(pipeReadPos) = PIPE_BUF_SIZE /\ pipeIsClose s.(spipe) = false;
  si_fifo : s.(spipe).(pcount) <> 0 -> s.(written) = s.(taken) ++ contents s.(spipe)
}.

Lemma wake_asleep r b t : is_asleep b (wake r t) -> is_asleep b t /\ b <> r.
Proof.
  unfold is_asleep, wake. destruct t as [[c|[]|] m k]; cbn; try tauto; destruct r; cbn; try tauto.
  all: intros ->; split; [reflexivity|discriminate].
Qed.
Lemma wakeup_in r l t : t ∈ wakeup r l -> exists t0, t0 ∈ l /\ t = wake r t0.
Proof. unfold wakeup. intros Ht%list_elem_of_In. apply in_map_iff in Ht as (t0 & <- & H0%list_elem_of_In). eauto. Qed.
Lemma wake_ok r t : thr_ok t -> thr_ok (wake r t).
Proof. unfold thr_ok, wake. destruct t as [[c|[]|] m k]; cbn; auto; destruct r; auto. Qed.
Lemma insert_in {A} (k : nat) (x y : A) (l : list A) : y ∈ <[k := x]> l -> y = x \/ y ∈ l.
Proof.
  intros Hy. apply list_elem_of_lookup in Hy as [i Hi]. destruct (decide (i = k)) as [->|Hne].
  - destruct (decide (k < length l)%nat).
    + rewrite list_lookup_insert_eq in Hi by auto. left. congruence.
    + rewrite list_insert_ge in Hi by lia. right. eapply list_elem_of_lookup_2; eauto.
  - rewrite list_lookup_insert_ne in Hi by auto. right. eapply list_elem_of_lookup_2; eauto.
Qed.

(** What a step may do to the threads: each one left is the runner, or an
    earlier one, possibly woken; nobody sleeps on a channel that was woken. *)
Lemma close_asleep l b t : t ∈ wakeup true (wakeup false l) -> ~ is_asleep b t.
Proof.
  intros Ht Ha. apply wakeup_in in Ht as (t1 & Ht1 & ->). apply wake_asleep in Ha as [Ha Hb].
  apply wakeup_in in Ht1 as (t0 & Ht0 & ->). apply wake_asleep in Ha as [_ Hb']. destruct b; congruence.
Qed.
Lemma close_ok p : pipe_ok p -> 0 < p.(pcount) -> pipe_ok (close_run p).
Proof.
  intros [Hr Hs Hc Hb Hf] Hpos. unfold close_run. rewrite wrap32_small by lia.
  constructor; cbn; auto; [lia| |].
  - intros Hne. destruct (Z.eqb_spec (pcount p - 1) 0); [contradiction|]. apply Hb. lia.
  - intros ->. reflexivity.
Qed.
Lemma close_contents p : pipe_ok p -> 0 < p.(pcount) -> (close_run p).(pcount) <> 0 -> contents (close_run p) = contents p.
Proof.
  intros [Hr Hs Hc Hb Hf] Hpos. unfold close_run, contents. rewrite wrap32_small by lia. cbn.
  destruct (Z.eqb_spec (pcount p - 1) 0); [contradiction|reflexivity].
Qed.

Lemma read_run_freed p mem buf n killed p' mem' o :
  pipe_ok p -> p.(pcount) = 0 -> read_run p mem buf n killed = Ok (p', mem', o) -> p' = p /\ o <> Sleeps.
Proof.
  intros Hp Hc. unfold read_run, pipeIsClose. rewrite Hc, (po_freed _ Hp Hc). cbn [Z.leb Z.compare negb].
  rewrite andb_false_r. cbn [andb]. destruct killed; [intros [= <- <- <-]; split; congruence|].
  destruct (_ =? 0); [intros [= <- <- <-]; split; congruence|discriminate].
Qed.
Lemma write_run_freed p mem buf n i killed p' i' o :
  pipe_ok p -> p.(pcount) = 0 -> write_run 2 p mem buf n i killed = Ok (p', i', o) -> p' = p /\ i' = i /\ o <> Sleeps.
Proof.
  intros Hp Hc. cbn [write_run]. unfold pipeIsClose. rewrite Hc. cbn [Z.leb Z.compare orb].
  destruct (_ <? n); intros [= <- <- <-]; split; try split; congruence.
Qed.

Definition own_call (own : bool) (c : call) : Prop :=
  match c with Reading _ _ => own = true | Writing _ _ _ => own = false end.

Lemma resume_threads own woke k t mem c o l x :
  own_call own c -> (o = Sleeps -> call_ok c) -> (forall y, y ∈ l -> thr_ok y) ->
  x ∈ resume own woke k (after_run t mem c o) l ->
  thr_ok x /\
  (is_asleep own x -> o = Sleeps \/ exists y, y ∈ l /\ is_asleep own y) /\
  (is_asleep (negb own) x -> woke = false /\ exists y, y ∈ l /\ is_asleep (negb own) y).
Proof.
  intros Hown Hc Hl [->|Hx]%insert_in.
  - unfold after_run, thr_ok, is_asleep. cbn. destruct o; [|tauto].
    split; [auto|]. split; [auto|]. destruct c; cbn in Hown; subst own; discriminate.
  - destruct woke.
    + apply wakeup_in in Hx as (y & Hy & ->). split; [now apply wake_ok, Hl|]. split; intros Ha%wake_asleep.
      * destruct Ha. eauto.
      * now destruct Ha.
    + split; [auto|]. split; eauto.
Qed.

Lemma step_read_inv s k t buf n p mem o :
  sys_inv s -> s.(threads) !! k = Some t -> t.(tst) = Ready (Reading buf n) ->
  read_run s.(spipe) t.(tmem) buf n t.(tkilled) = Ok (p, mem, o) ->
  sys_inv (MkSys p (resume true (read_wakes o) k (after_run t mem (Reading buf n) o) s.(threads)) s.(written)
      (s.(taken) ++ take (Z.to_nat (p.(pipeReadPos) - s.(spipe).(pipeReadPos))) (contents s.(spipe)))).
Proof.
  intros [Hp Hm Ht Hre Hwr Hfi] Hk Est Er. pose proof (list_elem_of_lookup_2 _ _ _ Hk) as Hin.
  pose proof (Ht t Hin) as Hto. unfold thr_ok in Hto. rewrite Est in Hto. cbn in Hto.
  pose proof (fun x => resume_threads true (read_wakes o) k t mem (Reading buf n) o s.(threads) x eq_refl (fun _ => Hto) Ht) as Hall.
  destruct (Z.eq_dec s.(spipe).(pcount) 0) as [Hc|Hc].
  - destruct (read_run_freed _ _ _ _ _ _ _ _ Hp Hc Er) as [-> Ho]. constructor; cbn; auto; [apply Hall| | |contradiction].
    + intros x Hx Ha. destruct (proj1 (proj2 (Hall x Hx)) Ha) as [?|(y & Hy & Hya)]; [contradiction|eauto].
    + intros x Hx Ha. destruct (proj2 (proj2 (Hall x Hx)) Ha) as [_ (y & Hy & Hya)]. eauto.
  - destruct (read_run_ok _ t.(tmem) buf n t.(tkilled) Hp Hc Hm Hto) as (p0 & m0 & o0 & E0 & R).
    rewrite Er in E0. injection E0 as -> -> ->. destruct R as [Rok [Rw Rc] Rm Rcont Rdata Rsl Rret].
    constructor; cbn; [exact Rok|now rewrite Rw|apply Hall| | |].
    + intros x Hx Ha. destruct (proj1 (proj2 (Hall x Hx)) Ha) as [Ho|(y & Hy & Hya)].
      * destruct (Rsl Ho) as (-> & E1 & E2 & _). auto.
      * destruct (Hre y Hy Hya) as [E1 E2]. unfold pipeIsClose in *. rewrite Rw, Rc. split; [|exact E2].
        pose proof (po_pos _ Rok). lia.
    + intros x Hx Ha. destruct (proj2 (proj2 (Hall x Hx)) Ha) as [Ho (y & Hy & Hya)].
      destruct (Hwr y Hy Hya) as [E1 E2]. assert (p0 = spipe s) as ->; [|auto].
      destruct o0 as [|r]; [now destruct (Rsl eq_refl)|]. cbn in Ho. zbool.
      destruct (Rret r eq_refl) as [(_ & _ & ?)|(_ & E3 & _)]; [assumption|]. unfold EPIPE in Ho. lia.
    + intros _. rewrite (Hfi Hc), <- app_assoc. f_equal. rewrite Rcont. symmetry. apply take_drop.
Qed.

Lemma step_write_inv s k t buf n i p i' o :
  sys_inv s -> s.(threads) !! k = Some t -> t.(tst) = Ready (Writing buf n i) ->
  write_run 2 s.(spipe) t.(tmem) buf n i t.(tkilled) = Ok (p, i', o) -> p.(pipeWritePos) < POS_MAX ->
  sys_inv (MkSys p (resume false (write_wakes o) k (after_run t t.(tmem) (Writing buf n i') o) s.(threads))
      (s.(written) ++ mem_read t.(tmem) (buf + i) (p.(pipeWritePos) - s.(spipe).(pipeWritePos))) s.(taken)).
Proof.
  intros [Hp Hm Ht Hre Hwr Hfi] Hk Est Er Hmax. pose proof (list_elem_of_lookup_2 _ _ _ Hk) as Hin.
  pose proof (Ht t Hin) as Hto. unfold thr_ok in Hto. rewrite Est in Hto. destruct Hto as (Hn & Hi & Hin').
  destruct (Z.eq_dec s.(spipe).(pcount) 0) as [Hc|Hc].
  - destruct (write_run_freed _ _ _ _ _ _ _ _ _ Hp Hc Er) as (-> & -> & Ho).
    pose proof (fun x => resume_threads false (write_wakes o) k t t.(tmem) (Writing buf n i) o s.(threads) x eq_refl
                  (fun _ => conj Hn (conj Hi Hin')) Ht) as Hall.
    constructor; cbn; auto; [apply Hall| | |contradiction].
    + intros x Hx Ha. destruct (proj2 (proj2 (Hall x Hx)) Ha) as [_ (y & Hy & Hya)]. eauto.
    + intros x Hx Ha. destruct (proj1 (proj2 (Hall x Hx)) Ha) as [?|(y & Hy & Hya)]; [contradiction|eauto].
  - destruct (write_run_ok _ t.(tmem) buf n i t.(tkilled) Hp Hc Hm Hn Hi Hin') as (p0 & i0 & o0 & E0 & W).
    rewrite Er in E0. injection E0 as -> -> ->. destruct W as [Wok Wm [Wr Wc] Wcont Wd Wsl Wret].
    assert (Hall : forall x, x ∈ resume false (write_wakes o0) k (after_run t t.(tmem) (Writing buf n i0) o0) s.(threads) -> _)
      by (intros x; apply (resume_threads false (write_wakes o0) k t t.(tmem) (Writing buf n i0) o0 s.(threads) x);
          [reflexivity|intros Ho; destruct (Wsl Ho) as (_ & _ & ?); cbn; lia|exact Ht]).
    constructor; cbn; [exact Wok|exact Hmax|apply Hall| | |].
    + intros x Hx Ha. destruct (proj2 (proj2 (Hall x Hx)) Ha) as [Ho (y & Hy & Hya)].
      destruct (Hre y Hy Hya) as [E1 E2]. destruct o0 as [|r]; [discriminate|]. cbn in Ho. zbool.
      destruct (Wret r eq_refl) as [[_ ->]|[E3 E4]]; [auto|]. unfold EPIPE in Ho. lia.
    + intros x Hx Ha. destruct (proj1 (proj2 (Hall x Hx)) Ha) as [Ho|(y & Hy & Hya)].
      * destruct (Wsl Ho) as (E1 & E2 & _). auto.
      * destruct (Hwr y Hy Hya) as [E1 E2]. unfold pipeIsClose in *. rewrite Wc. split; [|exact E2].
        pose proof (po_size _ Wok). lia.
    + rewrite Wc. intros _. rewrite (Hfi Hc), <- app_assoc. f_equal. now rewrite Wcont.
Qed.

Lemma step_inv s s' : sys_inv s -> step s s' -> s'.(spipe).(pipeWritePos) < POS_MAX -> sys_inv s'.
Proof.
  intros Hs Hst Hmax. destruct Hst as [s k t buf n p mem o Hk Est Er|s k t buf n i p i' o Hk Est Er|s Hpos|s k t Hk].
  - now apply step_read_inv.
  - now apply step_write_inv.
  - destruct Hs as [Hp Hm Ht Hre Hwr Hfi]. constructor; cbn; auto using close_ok.
    + intros x Hx. apply wakeup_in in Hx as (y & Hy & ->). apply wakeup_in in Hy as (z & Hz & ->). auto using wake_ok.
    + intros x Hx Ha. exfalso. eapply close_asleep; eauto.
    + intros x Hx Ha. exfalso. eapply close_asleep; eauto.
    + intros Hc. rewrite close_contents by auto. apply Hfi. lia.
  - destruct Hs as [Hp Hm Ht Hre Hwr Hfi]. pose proof (list_elem_of_lookup_2 _ _ _ Hk) as Hin. constructor; cbn; auto.
    + intros x [->|Hx]%insert_in; [|auto]. specialize (Ht t Hin). unfold thr_ok in *. cbn. now destruct (tst t).
    + intros x [->|Hx]%insert_in Ha; [|eauto]. unfold is_asleep in Ha. cbn in Ha. destruct (tst t) as [[]|[]|]; contradiction.
    + intros x [->|Hx]%insert_in Ha; [|eauto]. unfold is_asleep in Ha. cbn in Ha. destruct (tst t) as [[]|[]|]; contradiction.
Qed.

(** A new pipe and threads about to read and write it. *)
Definition start (garbage : Z -> Z) (l : list thr) : sys := MkSys (pipe_new garbage) l [] [].
Definition fresh_thr (t : thr) : Prop := match t.(tst) with Ready c => call_ok c | _ => False end.

Lemma start_inv g l : (forall t, t ∈ l -> fresh_thr t) -> sys_inv (start g l).
Proof.
  intros Hl. constructor; cbn.
  - constructor; cbn; try lia; eauto. unfold PIPE_BUF_SIZE. lia.
  - unfold POS_MAX. lia.
  - intros t Ht. specialize (Hl t Ht). unfold fresh_thr, thr_ok in *. destruct (tst t); tauto.
  - auto.
  - intros t Ht Ha. specialize (Hl t Ht). unfold fresh_thr, is_asleep in *. destruct (tst t); tauto.
  - reflexivity.
Qed.
Lemma reachable_inv g l s : (forall t, t ∈ l -> fresh_thr t) -> reachable (start g l) s -> sys_inv s.
Proof. intros Hl H. induction H; [now apply start_inv|eauto using step_inv]. Qed.


(** No wakeup is lost: in every reachable state a sleeping reader faces an
    empty open pipe and a sleeping writer a full open one, so the two sides
    never sleep on each other, and every thread that is not asleep can take
    its step. *)
Theorem pipe_no_deadlock g l s :
  (forall t, t ∈ l -> fresh_thr t) -> reachable (start g l) s -> s.(spipe).(pcount) <> 0 ->
  (forall r, r ∈ s.(threads) -> is_asleep true r ->
     contents s.(spipe) = [] /\ s.(spipe).(pcount) = 2 /\ forall w, w ∈ s.(threads) -> ~ is_asleep false w) /\
  (forall w, w ∈ s.(threads) -> is_asleep false w ->
     Z.of_nat (length (contents s.(spipe))) = PIPE_BUF_SIZE /\ s.(spipe).(pcount) = 2) /\
  (forall k t c, s.(threads) !! k = Some t -> t.(tst) = Ready c -> exists s', step s s').
Proof.
  intros Hl Hr Hc. destruct (reachable_inv g l s Hl Hr) as [Hp Hm Ht Hre Hwr _].
  destruct (po_buf _ Hp Hc) as [b Eb]. pose proof (po_count _ Hp) as Hcnt. split; [|split].
  - intros r Hin Ha. destruct (Hre r Hin Ha) as [E1 E2%pipeIsClose_false]. split; [|split; [lia|]].
    + unfold contents. rewrite Eb, E1. unfold ring. now rewrite Z.sub_diag.
    + intros w Hw Haw. destruct (Hwr w Hw Haw) as [E3 _]. unfold PIPE_BUF_SIZE in E3. lia.
  - intros w Hin Ha. destruct (Hwr w Hin Ha) as [E1 E2%pipeIsClose_false]. split; [|lia].
    unfold contents. rewrite Eb, length_ring. unfold PIPE_BUF_SIZE in *. lia.
  - intros k t c Hk Est. pose proof (Ht t (list_elem_of_lookup_2 _ _ _ Hk)) as Hto. unfold thr_ok in Hto. rewrite Est in Hto.
    destruct c as [buf n|buf n i].
    + destruct (read_run_ok _ t.(tmem) buf n t.(tkilled) Hp Hc Hm Hto) as (p0 & m0 & o0 & E0 & _).
      eexists. eapply step_read; eauto.
    + destruct Hto as (Hn & Hi & Hin). destruct (write_run_ok _ t.(tmem) buf n i t.(tkilled) Hp Hc Hm Hn Hi Hin) as (p0 & i0 & o0 & E0 & _).
      eexists. eapply step_write; eauto.
Qed.

(** A read returns what is there, at most [n] bytes, and leaves them in
    the caller's buffer in the order they were written; it blocks only on an
    empty open pipe and fails only when the thread was killed. *)
Theorem pipe_read_delivers p mem buf n killed :
  pipe_ok p -> p.(pcount) <> 0 -> p.(pipeWritePos) < POS_MAX -> 0 <= n < 1073741824 ->
  exists p' mem' o, read_run p mem buf n killed = Ok (p', mem', o) /\
    match o with
    | Sleeps => p' = p /\ contents p = [] /\ p.(pcount) = 2 /\ killed = false
    | Returns r =>
        r = - EPIPE /\ killed = true /\ p' = p \/
        killed = false /\ r = Z.min n (Z.of_nat (length (contents p))) /\
        mem_read mem' buf r = take (Z.to_nat r) (contents p) /\ contents p' = drop (Z.to_nat r) (contents p)
    end.
Proof.
  intros Hp Hc Hw Hn. destruct (read_run_ok p mem buf n killed Hp Hc Hw Hn) as (p' & mem' & o & E & R).
  exists p', mem', o. split; [exact E|]. destruct R as [Rok [Rw Rc] Rm Rcont Rdata Rsl Rret].
  destruct (po_buf _ Hp Hc) as [b Eb]. pose proof (po_pos _ Hp). pose proof (po_count _ Hp). destruct o as [|r].
  - destruct (Rsl eq_refl) as (-> & E1 & E2%pipeIsClose_false & E3). split; [reflexivity|]. split; [|split; [lia|exact E3]].
    unfold contents. rewrite Eb, E1. unfold ring. now rewrite Z.sub_diag.
  - destruct (Rret r eq_refl) as [(E1 & E2 & E3)|(E1 & E2 & E3)]; [now left|]. right. split; [exact E1|].
    split; [rewrite E3; unfold contents; rewrite Eb, length_ring; lia|]. rewrite <- E2 in Rdata, Rcont. auto.
Qed.

(** A write that fits into the free space of an open pipe puts exactly its
    [n] bytes behind what is there and returns [n] without blocking. *)
Theorem pipe_write_fits p mem buf n :
  pipe_ok p -> p.(pcount) = 2 -> p.(pipeWritePos) < POS_MAX -> 0 < n ->
  Z.of_nat (length (contents p)) + n <= PIPE_BUF_SIZE ->
  exists p', write_run 2 p mem buf n 0 false = Ok (p', n, Returns n) /\ pipe_ok p' /\
    contents p' = contents p ++ mem_read mem buf n.
Proof.
  intros Hp Hc Hw Hn Hfit. destruct (po_buf _ Hp ltac:(lia)) as [b Eb]. pose proof (po_pos _ Hp).
  assert (El : Z.of_nat (length (contents p)) = p.(pipeWritePos) - p.(pipeReadPos)).
  { unfold contents. rewrite Eb, length_ring. lia. }
  cbn [write_run]. unfold PIPE_BUF_SIZE in *.
  destruct (write_copy p b mem buf n 0) as [p1 i1] eqn:E1.
  destruct (write_copy_ok p b mem buf n 0 p1 i1 Hp Hw Eb) as (Ei & Ec & Er & Ew & [b' Eb'] & Econt);
    [unfold PIPE_BUF_SIZE; lia|lia|lia|lia|exact E1|]. unfold PIPE_BUF_SIZE in *.
  change (wrap64 0) with 0. destruct (Z.ltb_spec 0 n); [|lia]. unfold pipeIsClose at 1. rewrite Hc. cbn [Z.leb Z.compare orb Pos.compare Pos.compare_cont].
  rewrite (wrap64_small (_ - _)) by lia. destruct (Z.eqb_spec (p.(pipeWritePos) - p.(pipeReadPos)) 131072); [lia|].
  rewrite Eb, E1. assert (i1 = n) as -> by lia. rewrite (wrap64_small n), Z.ltb_irrefl by lia.
  exists p1. split; [reflexivity|]. split.
  - constructor; rewrite ?Er, ?Ew, ?Ec; try lia; eauto. unfold PIPE_BUF_SIZE. lia.
  - rewrite Econt, Z.add_0_r. do 2 f_equal. lia.
Qed.

(** A writer that had to wait goes past its buffer: with [i] of its [n]
    bytes done it still copies [min left n] bytes instead of [min left (n - i)],
    so the pipe receives bytes from behind the caller's buffer and the call
    returns more than [n]. *)
Theorem pipe_write_overruns p mem buf n i :
  pipe_ok p -> p.(pcount) = 2 -> p.(pipeWritePos) < POS_MAX -> 0 < i < n -> n < 1073741824 ->
  let left := PIPE_BUF_SIZE - Z.of_nat (length (contents p)) in
  n < i + Z.min left n ->
  exists p', write_run 2 p mem buf n i false = Ok (p', i + Z.min left n, Returns (i + Z.min left n)) /\
    contents p' = contents p ++ mem_read mem (buf + i) (Z.min left n).
Proof.
  intros Hp Hc Hw Hi Hn left Hover. destruct (po_buf _ Hp ltac:(lia)) as [b Eb]. pose proof (po_pos _ Hp). pose proof (po_size _ Hp).
  assert (El : Z.of_nat (length (contents p)) = p.(pipeWritePos) - p.(pipeReadPos)).
  { unfold contents. rewrite Eb, length_ring. lia. }
  subst left. rewrite El in *. unfold PIPE_BUF_SIZE in *. cbn [write_run].
  destruct (write_copy p b mem buf n i) as [p1 i1] eqn:E1.
  destruct (write_copy_ok p b mem buf n i p1 i1 Hp Hw Eb) as (Ei & Ec & Er & Ew & _ & Econt);
    [unfold PIPE_BUF_SIZE; lia|lia|lia|lia|exact E1|]. unfold PIPE_BUF_SIZE in *.
  rewrite (wrap64_small i) by lia. destruct (Z.ltb_spec i n); [|lia].
  unfold pipeIsClose at 1. rewrite Hc. cbn [Z.leb Z.compare orb Pos.compare Pos.compare_cont].
  rewrite (wrap64_small (_ - _)) by (unfold POS_MAX in *; lia).
  destruct (Z.eqb_spec (p.(pipeWritePos) - p.(pipeReadPos)) 131072); [lia|]. rewrite Eb, E1.
  rewrite (wrap64_small i1) by lia. destruct (Z.ltb_spec i1 n); [lia|]. rewrite <- Ei. eauto.
Qed.

(** ** Runs to evaluate *)

Definition demo_writer : thr := MkThr (Ready (Writing 100 5 0)) (fun a => a mod 256) false.
Definition demo_reader : thr := MkThr (Ready (Reading 0 3)) (fun _ => 0) false.
Definition demo_threads : list thr := [demo_reader; demo_writer].

Lemma demo_fresh t : t ∈ demo_threads -> fresh_thr t.
Proof. intros [->|[->|H%not_elem_of_nil]%elem_of_cons]%elem_of_cons; cbn; lia || contradiction. Qed.

(** The reader sleeps on the empty pipe, the writer writes and wakes it, it
    takes three of the five bytes. *)
Lemma demo_run : exists s, reachable (start (fun _ => 0) demo_threads) s /\ s.(spipe).(pcount) = 2 /\
  s.(taken) = [100; 101; 102] /\ contents s.(spipe) = [103; 104].
Proof.
  eexists. split; [|split; [|split]].
  - eapply reach_step; [eapply reach_step; [eapply reach_step; [apply reach_refl| |]| |]| |].
    + eapply (step_read _ 0); [reflexivity|reflexivity|vm_compute; reflexivity].
    + vm_compute. reflexivity.
    + eapply (step_write _ 1); [reflexivity|reflexivity|vm_compute; reflexivity].
    + vm_compute. reflexivity.
    + eapply (step_read _ 0); [reflexivity|reflexivity|vm_compute; reflexivity].
    + vm_compute. reflexivity.
  - reflexivity.
  - vm_compute. reflexivity.
  - vm_compute. reflexivity.
Qed.

Lemma pipe_no_deadlock_witness : exists s, reachable (start (fun _ => 0) demo_threads) s /\
  forall r w, r ∈ s.(threads) -> w ∈ s.(threads) -> is_asleep true r -> ~ is_asleep false w.
Proof.
  destruct demo_run as (s & Hr & Hc & _). exists s. split; [exact Hr|].
  destruct (pipe_no_deadlock (fun _ => 0) demo_threads s demo_fresh Hr) as [H _]; [lia|].
  intros r w Hin Hw Ha. now apply (H r Hin Ha).
Defined.
Definition demo_pipe : Pipe := MkPipe 2 131070 131074 (Some (fun i => i mod 7)).
Lemma demo_pipe_ok : pipe_ok demo_pipe.
Proof. constructor; cbn; try lia; eauto. unfold PIPE_BUF_SIZE. lia. Qed.
Lemma pipe_read_delivers_witness : exists p' mem',
  read_run demo_pipe (fun _ => 0) 50 3 false = Ok (p', mem', Returns 3) /\ mem_read mem' 50 3 = [2; 3; 0].
Proof.
  destruct (pipe_read_delivers demo_pipe (fun _ => 0) 50 3 false demo_pipe_ok) as (p' & mem' & o & E & H);
    [cbn; lia|cbn; unfold POS_MAX; lia|lia|].
  destruct o as [|r]; [destruct H as (_ & H & _); vm_compute in H; discriminate|].
  destruct H as [(_ & H & _)|(_ & Hr & Hd & _)]; [discriminate|].
  assert (r = 3) as -> by (rewrite Hr; vm_compute; reflexivity).
  exists p', mem'. split; [exact E|]. rewrite Hd. vm_compute. reflexivity.
Defined.
Lemma pipe_write_fits_witness : exists p',
  write_run 2 demo_pipe (fun a => a) 9 2 0 false = Ok (p', 2, Returns 2) /\ contents p' = [2; 3; 0; 1; 9; 10].
Proof.
  destruct (pipe_write_fits demo_pipe (fun a => a) 9 2 demo_pipe_ok) as (p' & E & _ & C);
    [reflexivity|cbn; unfold POS_MAX; lia|lia|vm_compute; discriminate|].
  exists p'. split; [exact E|]. rewrite C. vm_compute. reflexivity.
Defined.
Lemma pipe_write_overruns_witness : exists p',
  write_run 2 demo_pipe (fun a => a) 9 3 1 false = Ok (p', 4, Returns 4) /\ contents p' = [2; 3; 0; 1; 10; 11; 12].
Proof.
  destruct (pipe_write_overruns demo_pipe (fun a => a) 9 3 1 demo_pipe_ok) as (p' & E & C);
    [reflexivity|cbn; unfold POS_MAX; lia|lia|lia|vm_compute; reflexivity|].
  exists p'. split; [exact E|]. rewrite C. vm_compute. reflexivity.
Defined.
