(* ===== verification/Lock.v ===== *)
(** * Locks

    [src/kern/lock/lock.c], [src/kern/lock/mutex.c] and the [cpu_t] of
    [src/include/proc/cpu.h].  Every operation runs
    on a CPU [c] and acts on the CPU's interrupt flag, its stack of held locks
    and the lock words.  A CPU that finds a spin lock taken spins: the
    operation does not finish in that state ([Err NoFuel]) and another CPU
    moves.  The sleep mutex is in
    [Sched], with the queues it needs. *)

From S2P Require Import Prelude.
From Stdlib Require Import ZArith Lia Bool.
From stdpp Require Import base tactics numbers list.
Open Scope Z_scope.

Definition MTX_SPIN : Z := 1.
Definition MTX_SLEEP : Z := 2.
Definition MTX_RECURSE : Z := 4.
Definition MAX_CPU_LOCK : Z := 128.

Record cpu_t : Type := MkCpu {
  cpu_running : Z;            (* thread, 0 for NULL *)
  cpu_lks : list Z;           (* cpu_lks[0 .. cpu_lk_depth-1] *)
  cpu_lk_saved_sstatus : bool;
  sstatus_SIE : bool          (* the CPU's interrupt enable *)
}.
Definition cpu_lk_depth (c : cpu_t) : Z := Z.of_nat (length c.(cpu_lks)).

Record mutex_t : Type := MkMutex {
  lo_locked : bool;
  lo_data : option Z;         (* CPU holding the word *)
  mtx_owner : Z;              (* thread, 0 for none *)
  mtx_type : Z;
  mtx_depth : Z               (* u8 *)
}.

Record machine : Type := MkMachine {
  cpus : Z -> cpu_t;
  mtxs : Z -> mutex_t
}.

Definition set_cpu (c : Z) (x : cpu_t) (s : machine) : machine := MkMachine (upd s.(cpus) c x) s.(mtxs).
Definition set_mtx (m : Z) (x : mutex_t) (s : machine) : machine := MkMachine s.(cpus) (upd s.(mtxs) m x).
Definition mtx_is (flag : Z) (x : mutex_t) : bool := negb (Z.land x.(mtx_type) flag =? 0).

Definition mtx_init (type : Z) (x : mutex_t) : mutex_t := MkMutex x.(lo_locked) x.(lo_data) 0 type 0.

(** ** Interrupt nesting *)

Definition lo_critical_enter (c m : Z) : M machine unit := fun s =>
  let cpu := s.(cpus) c in
  let before := cpu.(sstatus_SIE) in
  let saved := if cpu_lk_depth cpu =? 0 then before else cpu.(cpu_lk_saved_sstatus) in
  if MAX_CPU_LOCK <=? cpu_lk_depth cpu then Err Undef
  else Ok (tt, set_cpu c (MkCpu cpu.(cpu_running) (cpu.(cpu_lks) ++ [m]) saved false) s).

(** The entries of [cpu_lks] after [m] was taken out: from the top, or by
    moving the top entry into its place. *)
Fixpoint index_of (m : Z) (l : list Z) : option nat :=
  match l with
  | [] => None
  | x :: l' => if x =? m then Some O else option_map S (index_of m l')
  end.
Definition leave_lks (m : Z) (l : list Z) : option (list Z) :=
  if List.last l 0 =? m then Some (removelast l)
  else match index_of m l with
       | Some i => Some (removelast (<[i := List.last l 0]> l))
       | None => None
       end.

Definition lo_critical_leave (c m : Z) : M machine unit := fun s =>
  let cpu := s.(cpus) c in
  if cpu.(sstatus_SIE) then Err Panic
  else if cpu_lk_depth cpu =? 0 then Err Panic
  else match leave_lks m cpu.(cpu_lks) with
       | None => Err Panic
       | Some l =>
           let sie := if Z.of_nat (length l) =? 0 then cpu.(cpu_lk_saved_sstatus) else false in
           Ok (tt, set_cpu c (MkCpu cpu.(cpu_running) l cpu.(cpu_lk_saved_sstatus) sie) s)
       end.

(** ** Lock words *)

Definition lo_acquired (c m : Z) : M machine bool := fun s =>
  if (s.(cpus) c).(sstatus_SIE) then Err Panic
  else Ok ((s.(mtxs) m).(lo_locked) && bool_decide ((s.(mtxs) m).(lo_data) = Some c), s).

(** The atomic exchange, when it wins. *)
Definition take_word (c m : Z) : M machine unit :=
  modify (fun s => let x := s.(mtxs) m in
    set_mtx m (MkMutex true (Some c) x.(mtx_owner) x.(mtx_type) x.(mtx_depth)) s).

Definition lo_acquire (c m : Z) : M machine unit :=
  let* a := lo_acquired c m in
  massert (negb a) ;;;
  let* x := gets (fun s => s.(mtxs) m) in
  if x.(lo_locked) then fail NoFuel else take_word c m.

Definition lo_try_acquire (c m : Z) : M machine bool :=
  let* a := lo_acquired c m in
  massert (negb a) ;;;
  let* x := gets (fun s => s.(mtxs) m) in
  if x.(lo_locked) then ret false else take_word c m ;;; ret true.

Definition lo_release (c m : Z) : M machine unit :=
  let* a := lo_acquired c m in
  massert a ;;;
  modify (fun s => let x := s.(mtxs) m in
    set_mtx m (MkMutex false None x.(mtx_owner) x.(mtx_type) x.(mtx_depth)) s).

(** ** Mutexes *)

Definition set_depth (m d : Z) : M machine unit :=
  modify (fun s => let x := s.(mtxs) m in
    set_mtx m (MkMutex x.(lo_locked) x.(lo_data) x.(mtx_owner) x.(mtx_type) d) s).
Definition get_mtx (m : Z) : M machine mutex_t := gets (fun s => s.(mtxs) m).

Definition mtx_hold (c m : Z) : M machine bool :=
  lo_critical_enter c m ;;;
  let* x := get_mtx m in
  let* r :=
    (if mtx_is MTX_SPIN x then lo_acquired c m
     else if mtx_is MTX_SLEEP x then gets (fun s => x.(mtx_owner) =? (s.(cpus) c).(cpu_running))
     else fail Panic) in
  lo_critical_leave c m ;;;
  ret r.

Definition __mtx_lo_lock (c m : Z) (need_critical : bool) : M machine unit :=
  (if need_critical then lo_critical_enter c m else ret tt) ;;;
  let* a := lo_acquired c m in
  (if a then fail Panic else ret tt) ;;;
  lo_acquire c m.

Definition __mtx_lo_try_lock (c m : Z) (need_critical : bool) : M machine bool :=
  (if need_critical then lo_critical_enter c m else ret tt) ;;;
  let* a := lo_acquired c m in
  massert (negb a) ;;;
  let* r := lo_try_acquire c m in
  if r then ret true
  else (if need_critical then lo_critical_leave c m else ret tt) ;;; ret false.

Definition __mtx_lo_unlock (c m : Z) (need_critical : bool) : M machine unit :=
  let* sie := gets (fun s => (s.(cpus) c).(sstatus_SIE)) in
  massert (negb sie) ;;;
  let* a := lo_acquired c m in
  massert a ;;;
  lo_release c m ;;;
  (if need_critical then lo_critical_leave c m else ret tt).

Definition mtx_lock (c m : Z) : M machine unit :=
  massert (2147483648 <=? m) ;;;
  let* x := get_mtx m in
  if mtx_is MTX_SPIN x then
    lo_critical_enter c m ;;;
    let* a := lo_acquired c m in
    if a then
      if mtx_is MTX_RECURSE x then
        set_depth m (wrap8 (x.(mtx_depth) + 1)) ;;;
        lo_critical_leave c m
      else lo_critical_leave c m ;;; fail Panic
    else
      __mtx_lo_lock c m false ;;;
      set_depth m 1
  else if mtx_is MTX_SLEEP x then __mtx_lo_lock c m true
  else fail Panic.

Definition mtx_try_lock (c m : Z) : M machine bool :=
  let* x := get_mtx m in
  massert (mtx_is MTX_SPIN x) ;;;
  massert (negb (mtx_is MTX_RECURSE x)) ;;;
  let* r := __mtx_lo_try_lock c m true in
  if r then set_depth m 1 ;;; ret true else ret false.

Definition mtx_unlock (c m : Z) : M machine unit :=
  let* a := lo_acquired c m in
  massert a ;;;
  let* x := get_mtx m in
  if mtx_is MTX_SPIN x then
    if 1 <? x.(mtx_depth) then
      massert (mtx_is MTX_RECURSE x) ;;;
      set_depth m (x.(mtx_depth) - 1)
    else
      set_depth m 0 ;;;
      __mtx_lo_unlock c m true
  else if mtx_is MTX_SLEEP x then __mtx_lo_unlock c m true
  else fail Panic.

(** ** The machine at work *)

(** One CPU completes one operation; interrupts may come on or go off on a CPU
    that holds nothing (the idle loop, user mode), and the scheduler changes
    the thread a CPU runs. *)
Inductive mstep : machine -> machine -> Prop :=
| m_lock c m s s' : mtx_lock c m s = Ok (tt, s') -> mstep s s'
| m_try c m s r s' : mtx_try_lock c m s = Ok (r, s') -> mstep s s'
| m_unlock c m s s' : mtx_unlock c m s = Ok (tt, s') -> mstep s s'
| m_hold c m s r s' : mtx_hold c m s = Ok (r, s') -> mstep s s'
| m_intr c b s : (s.(cpus) c).(cpu_lks) = [] ->
    mstep s (set_cpu c (MkCpu (s.(cpus) c).(cpu_running) [] (s.(cpus) c).(cpu_lk_saved_sstatus) b) s)
| m_switch c t s :
    mstep s (set_cpu c (MkCpu t (s.(cpus) c).(cpu_lks) (s.(cpus) c).(cpu_lk_saved_sstatus) (s.(cpus) c).(sstatus_SIE)) s).

Inductive mreach (s0 : machine) : machine -> Prop :=
| mreach_refl : mreach s0 s0
| mreach_step s s' : mreach s0 s -> mstep s s' -> mreach s0 s'.

(** The lock discipline: a lock word names its holder exactly when it is set,
    the holder's stack has that lock once and no other stack has it, and a CPU
    that holds a lock has interrupts off. *)
Record lk_inv (s : machine) : Prop := {
  li_word : forall m, (s.(mtxs) m).(lo_locked) = bool_decide ((s.(mtxs) m).(lo_data) <> None);
  li_held : forall c m, m ∈ (s.(cpus) c).(cpu_lks) <-> (s.(mtxs) m).(lo_data) = Some c;
  li_once : forall c, NoDup (s.(cpus) c).(cpu_lks);
  li_intr : forall c, (s.(cpus) c).(cpu_lks) <> [] -> (s.(cpus) c).(sstatus_SIE) = false
}.

(** ** Effects of the operations *)

Lemma last_removelast {A} (l : list A) d : l <> [] -> l = removelast l ++ [List.last l d].
Proof. apply app_removelast_last. Qed.
Lemma index_of_some m l i : index_of m l = Some i -> l !! i = Some m.
Proof.
  revert i. induction l as [|x l IH]; intros i; cbn; [discriminate|].
  destruct (Z.eqb_spec x m) as [->|]; [intros [= <-]; reflexivity|].
  destruct (index_of m l) as [j|]; cbn; [|discriminate]. intros [= <-]. cbn. now apply IH.
Qed.
Lemma leave_lks_perm m l l' : l <> [] -> leave_lks m l = Some l' -> l ≡ₚ m :: l'.
Proof.
  intros Hn. unfold leave_lks. destruct (Z.eqb_spec (List.last l 0) m) as [E|E].
  - intros [= <-]. rewrite (last_removelast l 0 Hn) at 1. rewrite E. symmetry. apply Permutation_cons_append.
  - destruct (index_of m l) as [i|] eqn:Ei; [|discriminate]. intros [= <-]. apply index_of_some in Ei.
    set (x := List.last l 0) in *. set (y := removelast l).
    assert (El : l = y ++ [x]) by (apply last_removelast, Hn).
    assert (Hi : (i < length y)%nat).
    { pose proof (lookup_lt_Some _ _ _ Ei) as Hlt. rewrite El, length_app in Hlt. cbn in Hlt.
      destruct (decide (i = length y)) as [->|]; [|lia]. rewrite El, lookup_app_r, Nat.sub_diag in Ei by lia.
      cbn in Ei. congruence. }
    rewrite El at 2. rewrite insert_app_l by auto. rewrite removelast_last.
    rewrite El, lookup_app_l in Ei by auto. rewrite El.
    rewrite (take_drop_middle _ _ _ Ei) at 1 || rewrite <- (take_drop_middle _ _ _ Ei) at 1.
    rewrite insert_take_drop by auto. rewrite <- !app_assoc. cbn [app].
    rewrite (Permutation_app_comm (drop (S i) y) [x]). cbn [app].
    rewrite <- !Permutation_middle. reflexivity.
Qed.
Lemma leave_lks_last m l : leave_lks m (l ++ [m]) = Some l.
Proof. unfold leave_lks. rewrite last_last, Z.eqb_refl, removelast_last. reflexivity. Qed.

(** What [lo_critical_enter] leaves in [cpu_lk_saved_sstatus]. *)
Definition saved_on_enter (x : cpu_t) : bool :=
  if bool_decide (x.(cpu_lks) = []) then x.(sstatus_SIE) else x.(cpu_lk_saved_sstatus).

(** [c] got the lock word of [m]. *)
Record acquired (c m : Z) (s s' : machine) : Prop := {
  ac_free : (s.(mtxs) m).(lo_locked) = false;
  ac_cpu : s'.(cpus) c = MkCpu (s.(cpus) c).(cpu_running) ((s.(cpus) c).(cpu_lks) ++ [m])
    (saved_on_enter (s.(cpus) c)) false;
  ac_cpus : forall c', c' <> c -> s'.(cpus) c' = s.(cpus) c';
  ac_mtx : exists d, s'.(mtxs) m = MkMutex true (Some c) (s.(mtxs) m).(mtx_owner) (s.(mtxs) m).(mtx_type) d;
  ac_mtxs : forall m', m' <> m -> s'.(mtxs) m' = s.(mtxs) m'
}.
(** [c] gave it up. *)
Record released (c m : Z) (s s' : machine) : Prop := {
  re_held : (s.(mtxs) m).(lo_data) = Some c;
  re_cpu : exists l, (s.(cpus) c).(cpu_lks) ≡ₚ m :: l /\
    s'.(cpus) c = MkCpu (s.(cpus) c).(cpu_running) l (s.(cpus) c).(cpu_lk_saved_sstatus)
      (if bool_decide (l = []) then (s.(cpus) c).(cpu_lk_saved_sstatus) else false);
  re_cpus : forall c', c' <> c -> s'.(cpus) c' = s.(cpus) c';
  re_mtx : exists d, s'.(mtxs) m = MkMutex false None (s.(mtxs) m).(mtx_owner) (s.(mtxs) m).(mtx_type) d;
  re_mtxs : forall m', m' <> m -> s'.(mtxs) m' = s.(mtxs) m'
}.
(** Nothing changed but depths, and saved flags of CPUs without locks. *)
Record quiet (s s' : machine) : Prop := {
  qu_lks : forall c, (s'.(cpus) c).(cpu_lks) = (s.(cpus) c).(cpu_lks);
  qu_sie : forall c, (s'.(cpus) c).(sstatus_SIE) = (s.(cpus) c).(sstatus_SIE);
  qu_saved : forall c, (s.(cpus) c).(cpu_lks) <> [] -> (s'.(cpus) c).(cpu_lk_saved_sstatus) = (s.(cpus) c).(cpu_lk_saved_sstatus);
  qu_mtxs : forall m, exists d, s'.(mtxs) m = MkMutex (s.(mtxs) m).(lo_locked) (s.(mtxs) m).(lo_data) (s.(mtxs) m).(mtx_owner) (s.(mtxs) m).(mtx_type) d
}.

Lemma depth0 c : (cpu_lk_depth c =? 0) = bool_decide (c.(cpu_lks) = []).
Proof. unfold cpu_lk_depth. destruct (cpu_lks c); reflexivity. Qed.

(** The state in the critical section that [lo_critical_enter] opens. *)
Definition entered (c m : Z) (s : machine) : machine :=
  set_cpu c (MkCpu (s.(cpus) c).(cpu_running) ((s.(cpus) c).(cpu_lks) ++ [m]) (saved_on_enter (s.(cpus) c)) false) s.

Lemma enter_ok c m s u s1 : lo_critical_enter c m s = Ok (u, s1) -> s1 = entered c m s.
Proof. unfold lo_critical_enter. rewrite depth0. destruct (_ <=? _); [discriminate|]. now intros [= <-]. Qed.
Lemma enter_run c m s : cpu_lk_depth (s.(cpus) c) < MAX_CPU_LOCK -> lo_critical_enter c m s = Ok (tt, entered c m s).
Proof. intros. unfold lo_critical_enter. rewrite depth0. destruct (Z.leb_spec MAX_CPU_LOCK (cpu_lk_depth (cpus s c))); [lia|reflexivity]. Qed.
Lemma entered_cpu c m s : (entered c m s).(cpus) c =
  MkCpu (s.(cpus) c).(cpu_running) ((s.(cpus) c).(cpu_lks) ++ [m]) (saved_on_enter (s.(cpus) c)) false.
Proof. cbn. now rewrite upd_eq. Qed.

(** Interrupts are off on CPU [c] if it holds a lock. *)
Definition off_inside (s : machine) (c : Z) : Prop :=
  (s.(cpus) c).(cpu_lks) <> [] -> (s.(cpus) c).(sstatus_SIE) = false.

(** Leaving at once restores the CPU: its locks, its interrupt flag, and what
    it saved on the way to its first lock. *)
Definition back (s s' : machine) (c : Z) : Prop :=
  s'.(cpus) c = MkCpu (s.(cpus) c).(cpu_running) (s.(cpus) c).(cpu_lks) (saved_on_enter (s.(cpus) c)) (s.(cpus) c).(sstatus_SIE) /\
  forall c', c' <> c -> s'.(cpus) c' = s.(cpus) c'.
Lemma leave_entered c m s x : (forall c', x.(cpus) c' = (entered c m s).(cpus) c') -> off_inside s c ->
  exists s2, lo_critical_leave c m x = Ok (tt, s2) /\ s2.(mtxs) = x.(mtxs) /\ back s s2 c.
Proof.
  intros Hx Hoff. unfold lo_critical_leave, back. rewrite Hx, entered_cpu. unfold cpu_lk_depth. cbn [cpu_lks sstatus_SIE cpu_lk_saved_sstatus cpu_running].
  rewrite leave_lks_last, length_app. destruct (Z.eqb_spec (Z.of_nat (length (cpu_lks (cpus s c)) + length [m])) 0) as [E|E].
  - cbn in E. lia.
  - eexists. split; [reflexivity|]. split; [reflexivity|]. cbn. rewrite upd_eq. split.
    + unfold off_inside, saved_on_enter in *. destruct (cpu_lks (cpus s c)) as [|y l] eqn:El; cbn; [reflexivity|].
      rewrite Hoff by discriminate. reflexivity.
    + intros c' Hc. rewrite upd_ne by auto. rewrite Hx. cbn. now rewrite upd_ne.
Qed.

(** ** Outcomes of the mutex operations *)

Lemma same_depth x : MkMutex x.(lo_locked) x.(lo_data) x.(mtx_owner) x.(mtx_type) x.(mtx_depth) = x.
Proof. now destruct x. Qed.
Lemma back_quiet c s s' : back s s' c ->
  (forall m, exists d, s'.(mtxs) m = MkMutex (s.(mtxs) m).(lo_locked) (s.(mtxs) m).(lo_data) (s.(mtxs) m).(mtx_owner) (s.(mtxs) m).(mtx_type) d) ->
  quiet s s'.
Proof.
  intros [Hc Ho] Hm. constructor; auto; intros c'; destruct (decide (c' = c)) as [->|Hne];
    rewrite ?Hc, ?Ho by auto; cbn; auto.
  unfold saved_on_enter. intros. now rewrite bool_decide_eq_false_2.
Qed.
Lemma set_depth_mtx m d s m' : exists d',
  (set_mtx m (MkMutex (s.(mtxs) m).(lo_locked) (s.(mtxs) m).(lo_data) (s.(mtxs) m).(mtx_owner) (s.(mtxs) m).(mtx_type) d) s).(mtxs) m' =
  MkMutex (s.(mtxs) m').(lo_locked) (s.(mtxs) m').(lo_data) (s.(mtxs) m').(mtx_owner) (s.(mtxs) m').(mtx_type) d'.
Proof.
  cbn. destruct (decide (m' = m)) as [->|]; [rewrite upd_eq; eauto|].
  rewrite upd_ne by auto. exists (mtxs s m').(mtx_depth). now rewrite same_depth.
Qed.

Lemma acquired_off c m s : (s.(cpus) c).(sstatus_SIE) = false ->
  lo_acquired c m s = Ok ((s.(mtxs) m).(lo_locked) && bool_decide ((s.(mtxs) m).(lo_data) = Some c), s).
Proof. unfold lo_acquired. now intros ->. Qed.
Lemma acquired_entered c m m' s :
  lo_acquired c m (entered c m' s) = Ok ((s.(mtxs) m).(lo_locked) && bool_decide ((s.(mtxs) m).(lo_data) = Some c), entered c m' s).
Proof. rewrite acquired_off; [reflexivity|]. now rewrite entered_cpu. Qed.

Lemma acquired_intro c m s d : (s.(mtxs) m).(lo_locked) = false ->
  acquired c m s (set_mtx m (MkMutex true (Some c) (s.(mtxs) m).(mtx_owner) (s.(mtxs) m).(mtx_type) d) (entered c m s)).
Proof.
  intros Hf. constructor; cbn; auto.
  - now rewrite upd_eq.
  - intros; now apply upd_ne.
  - rewrite upd_eq. eauto.
  - intros; now apply upd_ne.
Qed.

(** Taking a word from inside the critical section: spin or win. *)
Lemma lo_lock_inside c m s :
  (s.(mtxs) m).(lo_locked) && bool_decide ((s.(mtxs) m).(lo_data) = Some c) = false ->
  __mtx_lo_lock c m false (entered c m s) =
  if (s.(mtxs) m).(lo_locked) then Err NoFuel
  else Ok (tt, set_mtx m (MkMutex true (Some c) (s.(mtxs) m).(mtx_owner) (s.(mtxs) m).(mtx_type) (s.(mtxs) m).(mtx_depth)) (entered c m s)).
Proof.
  intros E. unfold __mtx_lo_lock, lo_acquire. erewrite bind_run by reflexivity.
  erewrite bind_run by apply acquired_entered. rewrite E. erewrite bind_run by reflexivity.
  erewrite bind_run by apply acquired_entered. rewrite E. cbn [negb].
  rewrite massert_run by reflexivity. erewrite bind_run by reflexivity. change (mtxs (entered c m s) m) with (mtxs s m).
  destruct (lo_locked (mtxs s m)); reflexivity.
Qed.

(** A completed [mtx_lock] took the word, or re-entered a recursive lock. *)
Lemma mtx_lock_outcome c m s u s' : off_inside s c -> mtx_lock c m s = Ok (u, s') ->
  acquired c m s s' \/ quiet s s' /\ (s.(mtxs) m).(lo_data) = Some c /\ mtx_is MTX_RECURSE (s.(mtxs) m) = true.
Proof.
  intros Hoff H. unfold mtx_lock in H. apply bind_ok in H as (? & ? & [_ ->]%massert_ok & H).
  erewrite bind_run in H by reflexivity. set (mx := mtxs s m) in *. destruct (mtx_is MTX_SPIN mx).
  - apply bind_ok in H as (? & ? & ->%enter_ok & H). erewrite bind_run in H by apply acquired_entered. fold mx in H.
    destruct (lo_locked mx && bool_decide (lo_data mx = Some c)) eqn:Ea.
    + destruct (mtx_is MTX_RECURSE mx) eqn:Er.
      * right. erewrite bind_run in H by reflexivity. set (s1 := set_mtx _ _ _) in H.
        destruct (leave_entered c m s s1) as (s2 & E & Em & Hb); auto. rewrite E in H. injection H as _ <-.
        split; [|zbool; split; auto; now apply bool_decide_eq_true in H0].
        apply (back_quiet _ _ _ Hb). rewrite Em. exact (set_depth_mtx m _ (entered c m s)).
      * apply bind_ok in H as (? & ? & _ & H). discriminate.
    + left. unfold bind in H. rewrite (lo_lock_inside c m s Ea) in H. destruct (lo_locked (mtxs s m)) eqn:El; [discriminate|].
      injection H as _ <-. cbn. rewrite upd_eq. cbn.
      pose proof (acquired_intro c m s 1 El) as A. destruct A as [A1 A2 A3 A4 A5]. constructor; auto.
      * cbn. rewrite upd_eq. eauto.
      * intros m' Hm. cbn. now rewrite !upd_ne.
  - destruct (mtx_is MTX_SLEEP mx); [|discriminate]. left.
    unfold __mtx_lo_lock in H. apply bind_ok in H as (? & ? & ->%enter_ok & H).
    destruct (lo_locked mx && bool_decide (lo_data mx = Some c)) eqn:Ea.
    + erewrite bind_run in H by apply acquired_entered. fold mx in H. rewrite Ea in H. discriminate.
    + assert (H' : __mtx_lo_lock c m false (entered c m s) = Ok (u, s')) by exact H. clear H.
      rewrite (lo_lock_inside c m s Ea) in H'. destruct (lo_locked (mtxs s m)) eqn:El; [discriminate|].
      injection H' as _ <-. now apply acquired_intro.
Qed.

Lemma index_of_in m l : m ∈ l -> exists i, index_of m l = Some i.
Proof.
  induction l as [|x l IH]; intros Hin; [now apply not_elem_of_nil in Hin|]. cbn.
  destruct (Z.eqb_spec x m); [eauto|]. apply elem_of_cons in Hin as [->|Hin]; [congruence|].
  destruct (IH Hin) as [i ->]. cbn. eauto.
Qed.
Lemma leave_lks_in m l : m ∈ l -> exists l', leave_lks m l = Some l' /\ l ≡ₚ m :: l'.
Proof.
  intros Hin. assert (Hn : l <> []) by (intros ->; now apply not_elem_of_nil in Hin).
  assert (exists l', leave_lks m l = Some l') as [l' E]; [|exists l'; split; auto using leave_lks_perm].
  unfold leave_lks. destruct (_ =? _); [eauto|]. destruct (index_of_in m l Hin) as [i ->]. eauto.
Qed.

(** Giving the word up, by its holder. *)
Lemma lo_unlock_run c m s : (s.(cpus) c).(sstatus_SIE) = false -> (s.(mtxs) m).(lo_locked) = true ->
  (s.(mtxs) m).(lo_data) = Some c -> m ∈ (s.(cpus) c).(cpu_lks) ->
  exists s', __mtx_lo_unlock c m true s = Ok (tt, s') /\ released c m s s'.
Proof.
  intros Hs Hl Hd Hin.
  unfold __mtx_lo_unlock, lo_release. erewrite bind_run by reflexivity. rewrite massert_run by (cbn; now rewrite Hs).
  assert (Ha : lo_acquired c m s = Ok (true, s)).
  { rewrite acquired_off by auto. rewrite Hl, bool_decide_eq_true_2; auto. }
  rewrite (bind_run _ _ _ _ _ Ha). rewrite massert_run by reflexivity.
  erewrite bind_run. 2: { rewrite (bind_run _ _ _ _ _ Ha), massert_run by reflexivity. reflexivity. }
  unfold lo_critical_leave. cbn [cpus set_mtx]. rewrite Hs.
  destruct (leave_lks_in m _ Hin) as (l & -> & Hp).
  assert ((cpu_lk_depth (cpus s c) =? 0) = false) as -> by (unfold cpu_lk_depth; rewrite Hp; reflexivity).
  eexists. split; [reflexivity|]. constructor; cbn; auto.
  - exists l. split; auto. rewrite upd_eq. f_equal. now destruct l.
  - intros; now apply upd_ne.
  - rewrite !upd_eq. cbn. eauto.
  - intros; now rewrite !upd_ne.
Qed.
Lemma released_after_depth c m s s' d :
  released c m (set_mtx m (MkMutex (s.(mtxs) m).(lo_locked) (s.(mtxs) m).(lo_data) (s.(mtxs) m).(mtx_owner) (s.(mtxs) m).(mtx_type) d) s) s' ->
  released c m s s'.
Proof.
  intros [A1 A2 A3 A4 A5]. cbn in *. rewrite upd_eq in *. cbn in *. constructor; auto.
  intros m' Hm. rewrite A5 by auto. now apply upd_ne.
Qed.
Lemma unlock_word_run c m s d : (s.(cpus) c).(sstatus_SIE) = false -> (s.(mtxs) m).(lo_locked) = true ->
  (s.(mtxs) m).(lo_data) = Some c -> m ∈ (s.(cpus) c).(cpu_lks) ->
  exists s', (set_depth m d ;;; __mtx_lo_unlock c m true) s = Ok (tt, s') /\ released c m s s'.
Proof.
  intros. erewrite bind_run by reflexivity. edestruct lo_unlock_run as (s' & E & R); [..|exists s'; split; [exact E|]]; auto;
    cbn; rewrite ?upd_eq; auto. eapply released_after_depth. exact R.
Qed.

(** A completed [mtx_unlock] gave the word up, or left one level of a
    recursive lock. *)
Lemma mtx_unlock_outcome c m s u s' : lk_inv s -> mtx_unlock c m s = Ok (u, s') ->
  released c m s s' \/ quiet s s' /\ (s.(mtxs) m).(lo_data) = Some c /\ mtx_is MTX_RECURSE (s.(mtxs) m) = true.
Proof.
  intros I H. unfold mtx_unlock in H. apply bind_ok in H as (a & s1 & Ha & H).
  unfold lo_acquired in Ha. destruct (sstatus_SIE (cpus s c)) eqn:Es; [discriminate|]. injection Ha as <- <-.
  apply bind_ok in H as (? & ? & [Hh ->]%massert_ok & H). zbool. apply bool_decide_eq_true in H1.
  assert (Hin : m ∈ (s.(cpus) c).(cpu_lks)) by now apply (li_held _ I).
  erewrite bind_run in H by reflexivity. destruct (mtx_is MTX_SPIN (mtxs s m)).
  - destruct (1 <? mtx_depth (mtxs s m)).
    + apply bind_ok in H as (? & ? & [Hr ->]%massert_ok & H). injection H as _ <-. right. split; auto.
      constructor; auto. apply set_depth_mtx.
    + destruct (unlock_word_run c m s 0 Es H0 H1 Hin) as (s2 & E & R). rewrite E in H. injection H as _ <-. now left.
  - destruct (mtx_is MTX_SLEEP (mtxs s m)); [|discriminate].
    destruct (lo_unlock_run c m s Es H0 H1 Hin) as (s2 & E & R). rewrite E in H. injection H as _ <-. now left.
Qed.

Lemma mtx_try_lock_outcome c m s r s' : off_inside s c -> mtx_try_lock c m s = Ok (r, s') ->
  if r then acquired c m s s' else quiet s s'.
Proof.
  intros Hoff H. unfold mtx_try_lock in H. erewrite bind_run in H by reflexivity.
  apply bind_ok in H as (? & ? & [_ ->]%massert_ok & H). apply bind_ok in H as (? & ? & [_ ->]%massert_ok & H).
  apply bind_ok in H as (r' & s1 & H1 & H). unfold __mtx_lo_try_lock, lo_try_acquire in H1.
  apply bind_ok in H1 as (? & ? & ->%enter_ok & H1). erewrite bind_run in H1 by apply acquired_entered.
  apply bind_ok in H1 as (? & ? & [_ ->]%massert_ok & H1). apply bind_ok in H1 as (r2 & s2 & H2 & H1).
  erewrite bind_run in H2 by apply acquired_entered. apply bind_ok in H2 as (? & ? & [_ ->]%massert_ok & H2).
  erewrite bind_run in H2 by reflexivity. change (mtxs (entered c m s) m) with (mtxs s m) in H2.
  destruct (lo_locked (mtxs s m)) eqn:El.
  - injection H2 as <- <-. destruct (leave_entered c m s (entered c m s)) as (s3 & E & Em & Hb); auto.
    erewrite bind_run in H1 by exact E. injection H1 as <- <-. injection H as <- <-.
    apply (back_quiet _ _ _ Hb). rewrite Em. intros m'. exists (mtxs s m').(mtx_depth). now rewrite same_depth.
  - injection H2 as <- <-. injection H1 as <- <-. injection H as <- <-.
    cbn. rewrite upd_eq. cbn. destruct (acquired_intro c m s 1 El) as [A1 A2 A3 A4 A5]. constructor; auto; cbn.
    + rewrite upd_eq. eauto.
    + intros m' Hm. now rewrite !upd_ne.
Qed.

Lemma mtx_hold_outcome c m s r s' : off_inside s c -> mtx_hold c m s = Ok (r, s') -> quiet s s'.
Proof.
  intros Hoff H. unfold mtx_hold in H. apply bind_ok in H as (? & ? & ->%enter_ok & H).
  erewrite bind_run in H by reflexivity. apply bind_ok in H as (b & s1 & H1 & H).
  assert (s1 = entered c m s) as ->.
  { destruct (mtx_is MTX_SPIN _).
    - rewrite acquired_entered in H1. now injection H1 as _ <-.
    - destruct (mtx_is MTX_SLEEP _); [now injection H1 as _ <-|discriminate]. }
  destruct (leave_entered c m s (entered c m s)) as (s3 & E & Em & Hb); auto.
  erewrite bind_run in H by exact E. injection H as _ <-.
  apply (back_quiet _ _ _ Hb). rewrite Em. intros m'. exists (mtxs s m').(mtx_depth). now rewrite same_depth.
Qed.

(** ** The lock discipline *)

Lemma inv_acquired c m s s' : lk_inv s -> acquired c m s s' -> lk_inv s'.
Proof.
  intros I [Af Ac Aco (d & Am) Amo].
  assert (Hno : (mtxs s m).(lo_data) = None).
  { pose proof (li_word _ I m) as W. rewrite Af in W. symmetry in W. apply bool_decide_eq_false in W.
    destruct (lo_data (mtxs s m)); [exfalso; apply W; discriminate|reflexivity]. }
  constructor.
  - intros m'. destruct (decide (m' = m)) as [->|]; [now rewrite Am|rewrite Amo by auto; apply (li_word _ I)].
  - intros c' m'. pose proof (li_held _ I c' m') as Hh.
    assert (Hl : m' ∈ (s'.(cpus) c').(cpu_lks) <-> m' ∈ (s.(cpus) c').(cpu_lks) \/ c' = c /\ m' = m).
    { destruct (decide (c' = c)) as [->|]; [rewrite Ac; cbn; rewrite elem_of_app, list_elem_of_singleton; naive_solver|].
      rewrite Aco by auto. naive_solver. }
    rewrite Hl, Hh. destruct (decide (m' = m)) as [->|]; [rewrite Am, Hno; cbn; naive_solver|].
    rewrite Amo by auto. naive_solver.
  - intros c'. destruct (decide (c' = c)) as [->|]; [|rewrite Aco by auto; apply (li_once _ I)].
    rewrite Ac. cbn. apply NoDup_app. split; [apply (li_once _ I)|]. split; [|apply NoDup_singleton].
    intros x Hx ->%list_elem_of_singleton. apply (li_held _ I) in Hx. congruence.
  - intros c'. destruct (decide (c' = c)) as [->|]; [now rewrite Ac|rewrite Aco by auto; apply (li_intr _ I)].
Qed.
Lemma inv_released c m s s' : lk_inv s -> released c m s s' -> lk_inv s'.
Proof.
  intros I [Rd (l & Rp & Rc) Rco (d & Rm) Rmo].
  pose proof (li_once _ I c) as Hn. rewrite Rp in Hn. apply NoDup_cons in Hn as [Hml Hn].
  constructor.
  - intros m'. destruct (decide (m' = m)) as [->|]; [now rewrite Rm|rewrite Rmo by auto; apply (li_word _ I)].
  - intros c' m'. pose proof (li_held _ I c' m') as Hh.
    destruct (decide (c' = c)) as [->|].
    + rewrite Rc. cbn. rewrite Rp, elem_of_cons in Hh. destruct (decide (m' = m)) as [->|]; [rewrite Rm; cbn; naive_solver|].
      rewrite Rmo by auto. naive_solver.
    + rewrite Rco, Hh by auto. destruct (decide (m' = m)) as [->|]; [rewrite Rm, Rd; cbn; naive_solver|now rewrite Rmo].
  - intros c'. destruct (decide (c' = c)) as [->|]; [now rewrite Rc|rewrite Rco by auto; apply (li_once _ I)].
  - intros c'. destruct (decide (c' = c)) as [->|]; [|rewrite Rco by auto; apply (li_intr _ I)].
    rewrite Rc. cbn. intros. now rewrite bool_decide_eq_false_2.
Qed.
Lemma inv_quiet s s' : lk_inv s -> quiet s s' -> lk_inv s'.
Proof.
  intros I [Ql Qs _ Qm]. constructor.
  - intros m. destruct (Qm m) as [d ->]. apply (li_word _ I).
  - intros c m. destruct (Qm m) as [d ->]. rewrite Ql. apply (li_held _ I).
  - intros c. rewrite Ql. apply (li_once _ I).
  - intros c. rewrite Ql, Qs. apply (li_intr _ I).
Qed.

Lemma mstep_inv s s' : lk_inv s -> mstep s s' -> lk_inv s'.
Proof.
  intros I St. pose proof (li_intr _ I) as Ho. destruct St as [c m s s' H|c m s r s' H|c m s s' H|c m s r s' H|c b s H|c t s].
  - apply mtx_lock_outcome in H as [A|[Q _]]; [eauto using inv_acquired|eauto using inv_quiet|exact (Ho c)].
  - apply mtx_try_lock_outcome in H; [|exact (Ho c)]. destruct r; eauto using inv_acquired, inv_quiet.
  - apply mtx_unlock_outcome in H as [A|[Q _]]; [eauto using inv_released|eauto using inv_quiet|exact I].
  - apply mtx_hold_outcome in H; [|exact (Ho c)]. eauto using inv_quiet.
  - constructor; [apply (li_word _ I)|..]; cbn; intros c'; (destruct (decide (c' = c)) as [->|]; [rewrite upd_eq; cbn|rewrite upd_ne by auto; now apply I]).
    + intros m. rewrite <- H. apply (li_held _ I).
    + constructor.
    + congruence.
  - constructor; [apply (li_word _ I)|..]; cbn; intros c'; (destruct (decide (c' = c)) as [->|]; [rewrite upd_eq; cbn|rewrite upd_ne by auto]; now apply I).
Qed.
Lemma mreach_inv s0 s : lk_inv s0 -> mreach s0 s -> lk_inv s.
Proof. intros I. induction 1; eauto using mstep_inv. Qed.

(** ** Runs of a CPU *)

(** [m] is an ordinary spin lock at a kernel address. *)
Definition spin_lock (m : Z) (s : machine) : Prop :=
  2147483648 <= m /\ mtx_is MTX_SPIN (s.(mtxs) m) = true.

Lemma mtx_lock_free_run c m s : spin_lock m s -> (s.(mtxs) m).(lo_locked) = false ->
  cpu_lk_depth (s.(cpus) c) < MAX_CPU_LOCK ->
  exists s', mtx_lock c m s = Ok (tt, s') /\ acquired c m s s' /\ (s'.(mtxs) m).(mtx_depth) = 1.
Proof.
  intros [Ha Hs] Hf Hd. unfold mtx_lock. rewrite massert_run by zcases. erewrite bind_run by reflexivity. rewrite Hs.
  rewrite (bind_run _ _ _ _ _ (enter_run c m s Hd)), (bind_run _ _ _ _ _ (acquired_entered c m m s)), Hf. cbn [andb].
  erewrite bind_run by (rewrite lo_lock_inside by (now rewrite Hf); rewrite Hf; reflexivity).
  eexists. split; [reflexivity|]. cbn. rewrite !upd_eq. cbn. split; [|reflexivity].
  destruct (acquired_intro c m s 1 Hf) as [A1 A2 A3 A4 A5]. constructor; auto; cbn.
  - rewrite upd_eq. eauto.
  - intros m' Hm. now rewrite !upd_ne.
Qed.
Lemma mtx_unlock_run c m s : lk_inv s -> spin_lock m s -> (s.(mtxs) m).(lo_data) = Some c -> (s.(mtxs) m).(mtx_depth) = 1 ->
  exists s', mtx_unlock c m s = Ok (tt, s') /\ released c m s s'.
Proof.
  intros I [Ha Hs] Hd H1. pose proof (proj2 (li_held _ I c m) Hd) as Hin.
  assert (Hoff : (s.(cpus) c).(sstatus_SIE) = false) by (apply (li_intr _ I); intros E; rewrite E in Hin; now apply not_elem_of_nil in Hin).
  assert (Hl : (s.(mtxs) m).(lo_locked) = true) by (rewrite (li_word _ I), Hd; reflexivity).
  unfold mtx_unlock. erewrite bind_run by (apply acquired_off; exact Hoff).
  rewrite massert_run by (rewrite Hl, Hd, bool_decide_eq_true_2; reflexivity).
  erewrite bind_run by reflexivity. rewrite Hs, H1. cbn [Z.ltb Z.compare Pos.compare Pos.compare_cont].
  now apply unlock_word_run.
Qed.

Fixpoint lock_all (c : Z) (ms : list Z) : M machine unit :=
  match ms with [] => ret tt | m :: ms' => mtx_lock c m ;;; lock_all c ms' end.
Fixpoint unlock_all (c : Z) (ms : list Z) : M machine unit :=
  match ms with [] => ret tt | m :: ms' => mtx_unlock c m ;;; unlock_all c ms' end.

(** CPU [c] holds exactly [held], each at depth one; it would save or has
    saved [sie], the flag it had before its first lock. *)
Definition holding (c : Z) (held : list Z) (sie : bool) (s : machine) : Prop :=
  lk_inv s /\ (s.(cpus) c).(cpu_lks) ≡ₚ held /\ saved_on_enter (s.(cpus) c) = sie /\
  (forall m, m ∈ held -> spin_lock m s /\ (s.(mtxs) m).(mtx_depth) = 1).

Lemma holding_lock c m held sie s : holding c held sie s -> spin_lock m s -> (s.(mtxs) m).(lo_locked) = false ->
  Z.of_nat (length held) < MAX_CPU_LOCK ->
  exists s', mtx_lock c m s = Ok (tt, s') /\ holding c (m :: held) sie s' /\ forall m', m' <> m -> s'.(mtxs) m' = s.(mtxs) m'.
Proof.
  intros (I & Hl & Hsv & Hh) Hs Hf Hd.
  destruct (mtx_lock_free_run c m s Hs Hf) as (s' & E & A & D); [unfold cpu_lk_depth; now rewrite Hl|].
  exists s'. split; [exact E|]. pose proof (inv_acquired _ _ _ _ I A) as I'. destruct A as [A1 A2 A3 [d A4] A5].
  split; [|exact A5]. split; [exact I'|]. rewrite A2. cbn. split; [rewrite Hl; symmetry; apply Permutation_cons_append|].
  split; [unfold saved_on_enter; cbn; rewrite bool_decide_eq_false_2; [exact Hsv|destruct (cpu_lks (cpus s c)); discriminate]|].
  intros m' [->|Hm]%elem_of_cons.
  - split; [|exact D]. destruct Hs as [? Ht]. split; auto. rewrite A4. exact Ht.
  - destruct (decide (m' = m)) as [->|]; [|unfold spin_lock; rewrite A5 by auto; now apply Hh].
    exfalso. rewrite <- Hl in Hm. apply (li_held _ I) in Hm. pose proof (li_word _ I m) as W. rewrite Hm, A1 in W. discriminate.
Qed.

Lemma holding_unlock c m held sie s : holding c (m :: held) sie s ->
  exists s', mtx_unlock c m s = Ok (tt, s') /\ holding c held sie s' /\ (s'.(mtxs) m).(lo_locked) = false /\
    ((s'.(cpus) c).(sstatus_SIE) = if bool_decide (held = []) then sie else false) /\
    forall m', m' <> m -> s'.(mtxs) m' = s.(mtxs) m'.
Proof.
  intros (I & Hl & Hsv & Hh). destruct (Hh m) as [Hs H1]; [left|].
  assert (Hin : m ∈ (s.(cpus) c).(cpu_lks)) by (rewrite Hl; left).
  destruct (mtx_unlock_run c m s I Hs) as (s' & E & R); auto; [now apply (li_held _ I)|].
  exists s'. split; [exact E|]. pose proof (inv_released _ _ _ _ I R) as I'. destruct R as [R1 (l & Rp & R2) R3 [d R4] R5].
  assert (Hlh : l ≡ₚ held) by (apply Permutation_cons_inv with m; now rewrite <- Rp).
  assert (Hne : (s.(cpus) c).(cpu_lks) <> []) by (intros E0; rewrite E0 in Hin; now apply not_elem_of_nil in Hin).
  unfold saved_on_enter in Hsv. rewrite bool_decide_eq_false_2 in Hsv by auto.
  assert (Hnm : m ∉ held) by (pose proof (li_once _ I c) as N; rewrite Hl in N; now apply NoDup_cons in N as [? _]).
  split.
  - split; [exact I'|]. rewrite R2. cbn. split; [exact Hlh|]. split.
    + unfold saved_on_enter. cbn. destruct l; cbn; exact Hsv.
    + intros m' Hm. unfold spin_lock. rewrite R5 by (intros ->; contradiction). apply Hh. now right.
  - rewrite R4, R2. cbn. split; [reflexivity|]. split; [|exact R5]. rewrite Hsv.
    destruct l, held; auto; [now apply Permutation_nil_l in Hlh|now apply symmetry, Permutation_nil_l in Hlh].
Qed.

Lemma lock_all_run c ms : forall held sie s, holding c held sie s -> NoDup ms ->
  (forall m, m ∈ ms -> spin_lock m s /\ (s.(mtxs) m).(lo_locked) = false) ->
  Z.of_nat (length held + length ms) <= MAX_CPU_LOCK ->
  exists s', lock_all c ms s = Ok (tt, s') /\ holding c (ms ++ held) sie s'.
Proof.
  induction ms as [|m ms IH]; intros held sie s Hh Hn Hf Hlen; [exists s; split; auto|].
  apply NoDup_cons in Hn as [Hm Hn]. destruct (Hf m) as [Hs Hfree]; [left|]. cbn [length] in Hlen.
  destruct (holding_lock c m held sie s Hh Hs Hfree) as (s1 & E & H1 & Ho); [lia|].
  destruct (IH (m :: held) sie s1 H1 Hn) as (s2 & E2 & H2).
  - intros m' Hm'. unfold spin_lock. rewrite Ho by (intros ->; contradiction). apply Hf. now right.
  - cbn [length]. lia.
  - exists s2. split; [cbn; now rewrite (bind_run _ _ _ _ _ E)|]. destruct H2 as (I & Hl & Hsv & Hd).
    split; [exact I|]. split; [rewrite Hl; symmetry; apply Permutation_middle|]. split; [exact Hsv|].
    intros m' Hm'. apply Hd. rewrite <- Permutation_middle. exact Hm'.
Qed.
Lemma unlock_all_run c ms : forall sie s, holding c ms sie s -> ms <> [] ->
  exists s', unlock_all c ms s = Ok (tt, s') /\ holding c [] sie s' /\ (s'.(cpus) c).(sstatus_SIE) = sie /\
    (forall m, m ∈ ms -> (s'.(mtxs) m).(lo_locked) = false) /\ (forall m, m ∉ ms -> s'.(mtxs) m = s.(mtxs) m).
Proof.
  induction ms as [|m ms IH]; intros sie s Hh Hne; [congruence|].
  destruct (holding_unlock c m ms sie s Hh) as (s1 & E & H1 & Hfree & Hsie & Ho). cbn. rewrite (bind_run _ _ _ _ _ E).
  assert (Hm : m ∉ ms).
  { destruct Hh as (I & Hl & _). pose proof (li_once _ I c) as N. rewrite Hl in N. now apply NoDup_cons in N as [? _]. }
  destruct ms as [|m2 ms].
  - exists s1. split; [reflexivity|]. split; [exact H1|]. split; [exact Hsie|]. split.
    + intros m' [->|H]%elem_of_cons; [exact Hfree|now apply not_elem_of_nil in H].
    + intros m' H. apply Ho. intros ->. apply H. left.
  - destruct (IH sie s1 H1) as (s2 & E2 & H2 & Hs2 & Hf2 & Ho2); [discriminate|].
    exists s2. split; [exact E2|]. split; [exact H2|]. split; [exact Hs2|]. split.
    + intros m' [->|H]%elem_of_cons; [now rewrite Ho2|now apply Hf2].
    + intros m' H. rewrite Ho2 by (intros X; apply H; now right). apply Ho. intros ->. apply H. left.
Qed.

(** Locks may be released in any order: a CPU without locks takes [ms], gives
    them up in the order [ms'], and is where it was, its interrupt flag
    restored by the last release. *)
Theorem locks_any_order c ms ms' s : lk_inv s -> (s.(cpus) c).(cpu_lks) = [] ->
  ms <> [] -> NoDup ms -> Z.of_nat (length ms) <= MAX_CPU_LOCK ->
  (forall m, m ∈ ms -> spin_lock m s /\ (s.(mtxs) m).(lo_locked) = false) -> ms' ≡ₚ ms ->
  exists s1 s2, lock_all c ms s = Ok (tt, s1) /\ (s1.(cpus) c).(sstatus_SIE) = false /\
    (forall m, m ∈ ms -> (s1.(mtxs) m).(lo_data) = Some c) /\
    unlock_all c ms' s1 = Ok (tt, s2) /\ lk_inv s2 /\ (s2.(cpus) c).(cpu_lks) = [] /\
    (s2.(cpus) c).(sstatus_SIE) = (s.(cpus) c).(sstatus_SIE) /\
    (forall m, m ∈ ms -> (s2.(mtxs) m).(lo_locked) = false).
Proof.
  intros I Hl Hne Hn Hlen Hf Hp.
  assert (H0 : holding c [] (s.(cpus) c).(sstatus_SIE) s).
  { split; [exact I|]. rewrite Hl. split; [reflexivity|]. split; [unfold saved_on_enter; now rewrite Hl|].
    intros m Hm. now apply not_elem_of_nil in Hm. }
  destruct (lock_all_run c ms [] _ s H0 Hn Hf) as (s1 & E1 & H1); [exact Hlen|]. rewrite app_nil_r in H1.
  assert (H1' : holding c ms' (s.(cpus) c).(sstatus_SIE) s1).
  { destruct H1 as (I1 & L1 & V1 & D1). split; [exact I1|]. split; [now rewrite L1|]. split; [exact V1|].
    intros m. rewrite Hp. apply D1. }
  destruct (unlock_all_run c ms' _ s1 H1') as (s2 & E2 & (I2 & L2 & _ & _) & S2 & F2 & _).
  { intros ->. apply Permutation_nil_l in Hp. congruence. }
  destruct H1 as (I1 & L1 & _). exists s1, s2. split; [exact E1|]. split; [|split; [|split; [exact E2|]]].
  - apply (li_intr _ I1). intros E. rewrite E in L1. apply Permutation_nil_l in L1. congruence.
  - intros m Hm. apply (li_held _ I1). now rewrite L1.
  - split; [exact I2|]. split; [now apply Permutation_nil_r|]. split; [exact S2|]. intros m. rewrite <- Hp. apply F2.
Qed.


(** What [mtx_lock] does with a spin lock: the free lock is taken at depth one;
    the lock of another CPU makes this one spin; its own lock is re-entered
    when recursive, with the depth counted in eight bits, and is a panic
    otherwise. *)
Theorem mtx_lock_cases c m s : lk_inv s -> spin_lock m s -> cpu_lk_depth (s.(cpus) c) < MAX_CPU_LOCK ->
  match (s.(mtxs) m).(lo_data) with
  | None => exists s', mtx_lock c m s = Ok (tt, s') /\ acquired c m s s' /\ (s'.(mtxs) m).(mtx_depth) = 1
  | Some c' =>
      if c' =? c then
        if mtx_is MTX_RECURSE (s.(mtxs) m) then
          exists s', mtx_lock c m s = Ok (tt, s') /\ quiet s s' /\
            (s'.(mtxs) m).(mtx_depth) = wrap8 ((s.(mtxs) m).(mtx_depth) + 1)
        else mtx_lock c m s = Err Panic
      else mtx_lock c m s = Err NoFuel
  end.
Proof.
  intros I Hs Hd. pose proof (li_word _ I m) as W. destruct (lo_data (mtxs s m)) as [c'|] eqn:Ed.
  2: { apply mtx_lock_free_run; auto. }
  rewrite bool_decide_eq_true_2 in W by discriminate. destruct Hs as [Ha Hs].
  assert (Ep : forall A (k : bool -> M machine A), (let* _ := lo_critical_enter c m in let* a := lo_acquired c m in k a) s =
    k (c' =? c) (entered c m s)).
  { intros A k. rewrite (bind_run _ _ _ _ _ (enter_run c m s Hd)), (bind_run _ _ _ _ _ (acquired_entered c m m s)), W, Ed.
    f_equal. cbn. destruct (Z.eqb_spec c' c) as [->|]; [now rewrite bool_decide_eq_true_2|rewrite bool_decide_eq_false_2; congruence]. }
  unfold mtx_lock. rewrite massert_run by zcases. erewrite bind_run by reflexivity. rewrite Hs, Ep.
  destruct (Z.eqb_spec c' c) as [->|Hne].
  - destruct (mtx_is MTX_RECURSE (mtxs s m)).
    + erewrite bind_run by reflexivity. set (s1 := set_mtx _ _ _).
      destruct (leave_entered c m s s1) as (s2 & E & Em & Hb); auto; [exact (li_intr _ I c)|].
      exists s2. split; [exact E|]. split.
      * apply (back_quiet _ _ _ Hb). rewrite Em. exact (set_depth_mtx m _ (entered c m s)).
      * rewrite Em. cbn. now rewrite upd_eq.
    + destruct (leave_entered c m s (entered c m s)) as (s2 & E & Em & Hb); auto; [exact (li_intr _ I c)|].
      now erewrite bind_run by exact E.
  - unfold bind. rewrite lo_lock_inside by (rewrite W, Ed, bool_decide_eq_false_2 by congruence; reflexivity). now rewrite W.
Qed.

(** Only the holder unlocks: any other CPU that tries panics. *)
Theorem mtx_unlock_foreign_panics c m s : (s.(mtxs) m).(lo_data) <> Some c -> mtx_unlock c m s = Err Panic.
Proof.
  intros H. unfold mtx_unlock, bind, lo_acquired. destruct (sstatus_SIE _); [reflexivity|].
  rewrite bool_decide_eq_false_2, andb_false_r by auto. reflexivity.
Qed.

(** ** A concrete machine *)

Definition quiet_cpu : cpu_t := MkCpu 0 [] false true.
Definition spin_mtx : mutex_t := MkMutex false None 0 MTX_SPIN 0.
Definition boot : machine := MkMachine (fun _ => quiet_cpu) (fun _ => spin_mtx).
Lemma boot_inv : lk_inv boot.
Proof.
  constructor; cbn; intros; auto; [|constructor|congruence]. split; [now intros ?%not_elem_of_nil|discriminate].
Qed.
Definition boot_locked : machine :=
  match mtx_lock 0 2147483648 boot with Ok (_, s) => s | Err _ => boot end.

Lemma locks_any_order_witness : exists s1 s2,
  lock_all 1 [2147483648; 2147483656; 2147483664] boot = Ok (tt, s1) /\
  unlock_all 1 [2147483656; 2147483648; 2147483664] s1 = Ok (tt, s2) /\ (s2.(cpus) 1).(sstatus_SIE) = true.
Proof.
  destruct (locks_any_order 1 [2147483648; 2147483656; 2147483664] [2147483656; 2147483648; 2147483664] boot)
    as (s1 & s2 & E1 & _ & _ & E2 & _ & _ & Es & _); [exact boot_inv|reflexivity|discriminate| |discriminate| |apply perm_swap|].
  - apply (bool_decide_unpack (NoDup [2147483648; 2147483656; 2147483664])). vm_compute. exact Logic.I.
  - intros m Hm. split; [|reflexivity]. split; [|reflexivity].
    repeat (apply elem_of_cons in Hm as [->|Hm]; [lia|]). now apply not_elem_of_nil in Hm.
  - exists s1, s2. auto.
Defined.
Lemma mtx_lock_cases_witness : exists s', mtx_lock 0 2147483648 boot = Ok (tt, s') /\ acquired 0 2147483648 boot s' /\ (s'.(mtxs) 2147483648).(mtx_depth) = 1.
Proof. apply (mtx_lock_cases 0 2147483648 boot boot_inv); [split; [lia|reflexivity]|reflexivity]. Defined.
Lemma mtx_unlock_foreign_panics_witness : mtx_unlock 1 2147483648 boot_locked = Err Panic.
Proof. apply mtx_unlock_foreign_panics. discriminate. Defined.
