(* ===== verification/Sched.v ===== *)
(** * Threads, queues and sleep mutexes

    [src/kern/proc/sched.c], [sleep.c], [thread.c] and the sleep mutexes of
    [src/kern/lock/mutex.c].  A thread pointer is its index in [threads] plus
    one, [0] is [NULL].  One definition is one critical section: what the code
    does between taking the first queue or thread lock and releasing the last
    one ([Lock.lock_mutual_exclusion] makes that a step), so [wakeup_td], which
    releases its locks twice on the way, is three definitions.  [sleep] and
    [mtx_lock_sleep] hold the thread's lock until [sched_runnable] releases it
    on the way out of the old thread, so going to sleep and leaving the CPU is
    one step.  The lock assertions of [schedule] belong to [Lock]. *)

From S2P Require Import Prelude.
From Stdlib Require Import ZArith Lia Bool.
From stdpp Require Import base tactics numbers list.
Open Scope Z_scope.

Inductive state_t : Type := UNUSED | USED | SLEEPING | RUNNABLE | RUNNING | ZOMBIE.
#[export] Instance state_eq_dec : EqDecision state_t.
Proof. solve_decision. Defined.

Record thread_t : Type := MkThread {
  td_tid : Z;
  td_status : state_t;
  td_wchan : Z;
  td_locking : option Z     (* the sleep mutex whose [mtx_lock_sleep] it is inside *)
}.

Record kst : Type := MkKst {
  threads : Z -> thread_t;
  thread_runq : list Z;
  thread_sleepq : list Z;
  thread_freeq : list Z;
  tid_cnt : Z;
  cpu_running : Z -> Z;
  cpu_idle : Z -> bool;
  wtd_checked : list Z;     (* targets of [wakeup_td] calls between their first and second section *)
  wtd_removed : list Z;     (* and between the second and the third *)
  halted : bool;
  mtx_owner : Z -> Z;
  mtx_depth : Z -> Z;
  mtx_recurse : Z -> bool
}.

Definition set_threads f s := MkKst f s.(thread_runq) s.(thread_sleepq) s.(thread_freeq) s.(tid_cnt) s.(cpu_running) s.(cpu_idle) s.(wtd_checked) s.(wtd_removed) s.(halted) s.(mtx_owner) s.(mtx_depth) s.(mtx_recurse).
Definition set_runq q s := MkKst s.(threads) q s.(thread_sleepq) s.(thread_freeq) s.(tid_cnt) s.(cpu_running) s.(cpu_idle) s.(wtd_checked) s.(wtd_removed) s.(halted) s.(mtx_owner) s.(mtx_depth) s.(mtx_recurse).
Definition set_sleepq q s := MkKst s.(threads) s.(thread_runq) q s.(thread_freeq) s.(tid_cnt) s.(cpu_running) s.(cpu_idle) s.(wtd_checked) s.(wtd_removed) s.(halted) s.(mtx_owner) s.(mtx_depth) s.(mtx_recurse).
Definition set_freeq q s := MkKst s.(threads) s.(thread_runq) s.(thread_sleepq) q s.(tid_cnt) s.(cpu_running) s.(cpu_idle) s.(wtd_checked) s.(wtd_removed) s.(halted) s.(mtx_owner) s.(mtx_depth) s.(mtx_recurse).
Definition set_cnt n s := MkKst s.(threads) s.(thread_runq) s.(thread_sleepq) s.(thread_freeq) n s.(cpu_running) s.(cpu_idle) s.(wtd_checked) s.(wtd_removed) s.(halted) s.(mtx_owner) s.(mtx_depth) s.(mtx_recurse).
Definition set_running c t s := MkKst s.(threads) s.(thread_runq) s.(thread_sleepq) s.(thread_freeq) s.(tid_cnt) (upd s.(cpu_running) c t) s.(cpu_idle) s.(wtd_checked) s.(wtd_removed) s.(halted) s.(mtx_owner) s.(mtx_depth) s.(mtx_recurse).
Definition set_idle c b s := MkKst s.(threads) s.(thread_runq) s.(thread_sleepq) s.(thread_freeq) s.(tid_cnt) s.(cpu_running) (upd s.(cpu_idle) c b) s.(wtd_checked) s.(wtd_removed) s.(halted) s.(mtx_owner) s.(mtx_depth) s.(mtx_recurse).
Definition set_wtds a b s := MkKst s.(threads) s.(thread_runq) s.(thread_sleepq) s.(thread_freeq) s.(tid_cnt) s.(cpu_running) s.(cpu_idle) a b s.(halted) s.(mtx_owner) s.(mtx_depth) s.(mtx_recurse).
Definition set_halted s := MkKst s.(threads) s.(thread_runq) s.(thread_sleepq) s.(thread_freeq) s.(tid_cnt) s.(cpu_running) s.(cpu_idle) s.(wtd_checked) s.(wtd_removed) true s.(mtx_owner) s.(mtx_depth) s.(mtx_recurse).
Definition set_mutex m o d s := MkKst s.(threads) s.(thread_runq) s.(thread_sleepq) s.(thread_freeq) s.(tid_cnt) s.(cpu_running) s.(cpu_idle) s.(wtd_checked) s.(wtd_removed) s.(halted) (upd s.(mtx_owner) m o) (upd s.(mtx_depth) m d) s.(mtx_recurse).

Definition set_td (t : Z) (x : thread_t) (s : kst) : kst := set_threads (upd s.(threads) t x) s.
Definition with_status (st : state_t) (x : thread_t) : thread_t := MkThread x.(td_tid) st x.(td_wchan) x.(td_locking).
Definition with_wchan (w : Z) (x : thread_t) : thread_t := MkThread x.(td_tid) x.(td_status) w x.(td_locking).
Definition with_locking (l : option Z) (x : thread_t) : thread_t := MkThread x.(td_tid) x.(td_status) x.(td_wchan) l.
Definition upd_td (t : Z) (f : thread_t -> thread_t) : M kst unit := modify (fun s => set_td t (f (s.(threads) t)) s).

(** [TAILQ_REMOVE]: the element must be in the queue. *)
Fixpoint queue_remove (t : Z) (q : list Z) : option (list Z) :=
  match q with
  | [] => None
  | x :: q' => if x =? t then Some q' else option_map (cons x) (queue_remove t q')
  end.

(** ** The scheduler *)

Section Sched.
Variable NCPU : nat.

Definition cpu_allidle (s : kst) : bool := forallb (fun i => s.(cpu_idle) (Z.of_nat i)) (seq 0 NCPU).

Definition sched_put_back (old : Z) : M kst unit := fun s =>
  if old =? 0 then Ok (tt, s)
  else match (s.(threads) old).(td_status) with
       | RUNNABLE => Ok (tt, set_runq (s.(thread_runq) ++ [old]) s)
       | _ => Ok (tt, s)
       end.
(** One turn of the loop: the first thread of the queue, or a look at the
    sleep queue, if [tdq_critical_try_enter] got it, and a pause. *)
Definition sched_pick (c : Z) (got_sleepq : bool) : M kst (option Z) := fun s =>
  match s.(thread_runq) with
  | [] =>
      let s1 := set_idle c true s in
      if got_sleepq && bool_decide (s1.(thread_sleepq) = []) && cpu_allidle s1
      then Ok (None, set_halted s1) else Ok (None, s1)
  | t :: q => Ok (Some t, set_runq q (set_idle c false s))
  end.
Definition sched_runnable (c old : Z) (got_sleepq : bool) : M kst (option Z) :=
  sched_put_back old ;;; sched_pick c got_sleepq.
Definition sched_resume (c : Z) (r : option Z) : M kst unit :=
  match r with
  | None => ret tt
  | Some t => modify (set_running c t) ;;; upd_td t (with_status RUNNING)
  end.
Definition sched_switch (c : Z) (got_sleepq : bool) : M kst unit :=
  let* old := gets (fun s => s.(cpu_running) c) in
  modify (set_running c 0) ;;;
  let* r := sched_runnable c old got_sleepq in
  sched_resume c r.
(** A CPU without a thread looks at the queue again, or for the first time. *)
Definition sched_init (c : Z) (got_sleepq : bool) : M kst unit :=
  let* r := sched_runnable c 0 got_sleepq in
  sched_resume c r.
Definition schedule (c : Z) (got_sleepq : bool) : M kst unit :=
  let* td := gets (fun s => s.(cpu_running) c) in
  let* x := gets (fun s => s.(threads) td) in
  massert (negb (bool_decide (x.(td_status) = RUNNING))) ;;;
  sched_switch c got_sleepq.

Definition yield (c : Z) (got_sleepq : bool) : M kst unit :=
  let* td := gets (fun s => s.(cpu_running) c) in
  upd_td td (with_status RUNNABLE) ;;;
  schedule c got_sleepq.

(** ** Sleep and wakeup *)

Definition sleep (c chan : Z) (got_sleepq : bool) : M kst unit :=
  let* td := gets (fun s => s.(cpu_running) c) in
  let* x := gets (fun s => s.(threads) td) in
  massert (bool_decide (x.(td_status) = RUNNING)) ;;;
  upd_td td (with_wchan chan) ;;;
  upd_td td (with_status SLEEPING) ;;;
  modify (fun s => set_sleepq (td :: s.(thread_sleepq)) s) ;;;
  schedule c got_sleepq.
(** [sleep] from the return of [schedule]. *)
Definition sleep_return (c : Z) : M kst unit :=
  let* td := gets (fun s => s.(cpu_running) c) in
  upd_td td (with_wchan 0).

Fixpoint wakeup_loop (chan : Z) (q readyq : list Z) : M kst (list Z) :=
  match q with
  | [] => ret readyq
  | td :: q' =>
      let* x := gets (fun s => s.(threads) td) in
      massert (bool_decide (x.(td_status) = SLEEPING)) ;;;
      if x.(td_wchan) =? chan then
        upd_td td (with_status RUNNABLE) ;;;
        let* sq := gets thread_sleepq in
        match queue_remove td sq with
        | None => fail Undef
        | Some sq' => modify (set_sleepq sq') ;;; wakeup_loop chan q' (readyq ++ [td])
        end
      else wakeup_loop chan q' readyq
  end.
Definition wakeup (chan : Z) : M kst unit :=
  let* q := gets thread_sleepq in
  let* readyq := wakeup_loop chan q [] in
  modify (fun s => set_runq (s.(thread_runq) ++ readyq) s).

Definition wakeup_td_check (td : Z) : M kst unit :=
  let* x := gets (fun s => s.(threads) td) in
  if bool_decide (x.(td_status) = SLEEPING)
  then modify (fun s => set_wtds (td :: s.(wtd_checked)) s.(wtd_removed) s)
  else ret tt.
Definition wakeup_td_remove (td : Z) : M kst unit :=
  let* ck := gets wtd_checked in
  upd_td td (with_status RUNNABLE) ;;;
  let* sq := gets thread_sleepq in
  match queue_remove td sq, queue_remove td ck with
  | Some sq', Some ck' =>
      modify (set_sleepq sq') ;;;
      modify (fun s => set_wtds ck' (td :: s.(wtd_removed)) s)
  | _, _ => fail Undef
  end.
Definition wakeup_td_insert (td : Z) : M kst unit :=
  let* rm := gets wtd_removed in
  match queue_remove td rm with
  | Some rm' =>
      modify (fun s => set_runq (s.(thread_runq) ++ [td]) s) ;;;
      modify (fun s => set_wtds s.(wtd_checked) rm' s)
  | None => fail Undef
  end.

(** ** Threads come and go *)

Definition TID_GENERATE (cnt index : Z) : Z := Z.lor index (Z.shiftl (cnt mod 4096 + 4096) 16).
Definition TID_TO_INDEX (tid : Z) : Z := Z.land tid 65535.
Definition tid_alloc (td : Z) : M kst Z := fun s =>
  let cnt := wrap64 (s.(tid_cnt) + 1) in
  Ok (TID_GENERATE cnt (td - 1), set_cnt cnt s).

Definition td_alloc : M kst Z :=
  let* q := gets thread_freeq in
  match q with
  | [] => fail Panic
  | td :: q' =>
      modify (set_freeq q') ;;;
      let* tid := tid_alloc td in
      upd_td td (fun _ => MkThread tid USED 0 None) ;;;
      ret td
  end.
(** The end of [proc_create], [td_fork] and [proc_fork]. *)
Definition td_ready (td : Z) : M kst unit :=
  upd_td td (with_status RUNNABLE) ;;;
  modify (fun s => set_runq (s.(thread_runq) ++ [td]) s).
Definition td_free (td : Z) : M kst unit :=
  upd_td td (fun x => MkThread 0 UNUSED x.(td_wchan) x.(td_locking)) ;;;
  modify (fun s => set_freeq (s.(thread_freeq) ++ [td]) s).
(** The end of [td_destroy]. *)
Definition td_exit (c : Z) (got_sleepq : bool) : M kst unit :=
  let* td := gets (fun s => s.(cpu_running) c) in
  td_free td ;;;
  schedule c got_sleepq.

(** ** Sleep mutexes *)

(** The loop of [mtx_lock_sleep] from its test: take the mutex or sleep on it. *)
Definition mtx_lock_sleep_loop (c m : Z) (got_sleepq : bool) : M kst bool :=
  let* td := gets (fun s => s.(cpu_running) c) in
  let* owner := gets (fun s => s.(mtx_owner) m) in
  if negb (owner =? 0) then
    upd_td td (with_locking (Some m)) ;;;
    sleep c m got_sleepq ;;;
    ret false
  else
    massert (negb (td =? 0)) ;;;
    modify (set_mutex m td 1) ;;;
    upd_td td (with_locking None) ;;;
    ret true.
Definition mtx_lock_sleep (c m : Z) (got_sleepq : bool) : M kst bool :=
  let* td := gets (fun s => s.(cpu_running) c) in
  let* owner := gets (fun s => s.(mtx_owner) m) in
  if owner =? td then
    let* rec := gets (fun s => s.(mtx_recurse) m) in
    massert rec ;;;
    modify (fun s => set_mutex m owner (wrap8 (s.(mtx_depth) m + 1)) s) ;;;
    ret true
  else mtx_lock_sleep_loop c m got_sleepq.
Definition mtx_unlock_sleep (c m : Z) : M kst unit :=
  let* td := gets (fun s => s.(cpu_running) c) in
  let* owner := gets (fun s => s.(mtx_owner) m) in
  massert (owner =? td) ;;;
  let* d := gets (fun s => s.(mtx_depth) m) in
  massert (0 <? d) ;;;
  if 1 <? d then
    let* rec := gets (fun s => s.(mtx_recurse) m) in
    massert rec ;;;
    modify (set_mutex m owner (d - 1))
  else
    modify (set_mutex m 0 0) ;;;
    wakeup m.

End Sched.

(** ** Runs *)

Inductive event : Type := Acq (td m : Z) | Rel (td m : Z).

Section Runs.
Variable NCPU : nat.
Variable NTHREAD : Z.

Definition valid (t : Z) : Prop := 1 <= t <= NTHREAD.
Definition on_cpu (s : kst) (c : Z) : Prop :=
  0 <= c < Z.of_nat NCPU /\ s.(cpu_running) c <> 0 /\ s.(halted) = false.
(** The thread on CPU [c] is not inside [mtx_lock_sleep]. *)
Definition unblocked (s : kst) (c : Z) : Prop := (s.(threads) (s.(cpu_running) c)).(td_locking) = None.

Inductive kstep (s : kst) : list event -> kst -> Prop :=
| k_init c g s' : 0 <= c < Z.of_nat NCPU -> s.(cpu_running) c = 0 -> s.(halted) = false ->
    sched_init NCPU c g s = Ok (tt, s') -> kstep s [] s'
| k_yield c g s' : on_cpu s c -> yield NCPU c g s = Ok (tt, s') -> kstep s [] s'
| k_sleep c chan g s' : on_cpu s c -> unblocked s c -> sleep NCPU c chan g s = Ok (tt, s') -> kstep s [] s'
| k_sleep_return c s' : on_cpu s c -> sleep_return c s = Ok (tt, s') -> kstep s [] s'
| k_wakeup c chan s' : on_cpu s c -> wakeup chan s = Ok (tt, s') -> kstep s [] s'
| k_wtd_check c td s' : on_cpu s c -> valid td -> wakeup_td_check td s = Ok (tt, s') -> kstep s [] s'
| k_wtd_remove c td s' : on_cpu s c -> td ∈ s.(wtd_checked) -> wakeup_td_remove td s = Ok (tt, s') -> kstep s [] s'
| k_wtd_insert c td s' : on_cpu s c -> td ∈ s.(wtd_removed) -> wakeup_td_insert td s = Ok (tt, s') -> kstep s [] s'
| k_alloc td s' : td_alloc s = Ok (td, s') -> kstep s [] s'
| k_ready td s' : valid td -> (s.(threads) td).(td_status) = USED -> td_ready td s = Ok (tt, s') -> kstep s [] s'
| k_exit c g s' : on_cpu s c -> unblocked s c -> td_exit NCPU c g s = Ok (tt, s') -> kstep s [] s'
| k_lock c m g r s' : on_cpu s c -> unblocked s c -> s.(mtx_depth) m < 255 -> mtx_lock_sleep NCPU c m g s = Ok (r, s') ->
    kstep s (if r : bool then [Acq (s.(cpu_running) c) m] else []) s'
| k_relock c m g r s' : on_cpu s c -> (s.(threads) (s.(cpu_running) c)).(td_locking) = Some m ->
    mtx_lock_sleep_loop NCPU c m g s = Ok (r, s') ->
    kstep s (if r : bool then [Acq (s.(cpu_running) c) m] else []) s'
| k_unlock c m s' : on_cpu s c -> unblocked s c -> mtx_unlock_sleep c m s = Ok (tt, s') ->
    kstep s [Rel (s.(cpu_running) c) m] s'.

Inductive kreach (s0 : kst) : list event -> kst -> Prop :=
| kreach_refl : kreach s0 [] s0
| kreach_step tr s e s' : kreach s0 tr s -> kstep s e s' -> kreach s0 (tr ++ e) s'.

(** ** Every thread is in one place *)

(** [q] holds each thread of status [st] once, but for those in hand. *)
Definition tracks (q : list Z) (st : state_t) (hs : list Z) (s : kst) : Prop :=
  NoDup q /\ forall t, t ∈ q <-> valid t /\ (t ∉ hs) /\ (s.(threads) t).(td_status) = st.
Record core (hs : list Z) (s : kst) : Prop := {
  co_free : tracks s.(thread_freeq) UNUSED hs s;
  co_run : tracks (s.(thread_runq) ++ s.(wtd_removed)) RUNNABLE hs s;
  co_sleep : tracks s.(thread_sleepq) SLEEPING hs s;
  co_cpu : forall c, s.(cpu_running) c <> 0 -> 0 <= c < Z.of_nat NCPU /\ valid (s.(cpu_running) c) /\
    (s.(cpu_running) c ∉ hs) /\ (s.(threads) (s.(cpu_running) c)).(td_status) = RUNNING;
  co_cpu_inj : forall c c', s.(cpu_running) c <> 0 -> s.(cpu_running) c = s.(cpu_running) c' -> c = c';
  co_running : forall t, valid t -> (t ∉ hs) -> (s.(threads) t).(td_status) = RUNNING -> exists c, s.(cpu_running) c = t;
  co_idle : forall c, s.(cpu_idle) c = true -> s.(cpu_running) c = 0
}.

Lemma tracks_td q st hs s t x : t ∈ hs -> tracks q st hs s -> tracks q st hs (set_td t x s).
Proof.
  intros Ht [Hn Hq]. split; auto. intros u. rewrite Hq. cbn.
  destruct (decide (u = t)) as [->|]; [naive_solver|now rewrite upd_ne].
Qed.
Lemma tracks_put q q' st hs s t : (t ∉ hs) -> valid t -> (s.(threads) t).(td_status) = st -> q' ≡ₚ t :: q ->
  tracks q st (t :: hs) s -> tracks q' st hs s.
Proof.
  intros Ht Hv Hs Hp [Hn Hq]. split.
  - rewrite Hp. constructor; auto. rewrite Hq. intros (_ & H & _). apply H. left.
  - intros u. rewrite Hp, elem_of_cons, Hq, not_elem_of_cons. destruct (decide (u = t)) as [->|]; tauto.
Qed.
Lemma tracks_take q q' st hs s t : q ≡ₚ t :: q' -> tracks q st hs s -> tracks q' st (t :: hs) s.
Proof.
  intros Hp [Hn Hq]. rewrite Hp in Hn. apply NoDup_cons in Hn as [Ht Hn]. split; auto. intros u.
  assert (Hu : u ∈ q' <-> u ∈ q /\ u <> t) by (rewrite Hp, elem_of_cons; destruct (decide (u = t)) as [->|]; tauto).
  rewrite Hu, Hq, not_elem_of_cons. tauto.
Qed.
Lemma tracks_other q st hs s t : (s.(threads) t).(td_status) <> st -> tracks q st hs s <-> tracks q st (t :: hs) s.
Proof.
  intros Hs. unfold tracks. split; intros [Hn Hq]; (split; [exact Hn|]); intros u; rewrite Hq, not_elem_of_cons;
    destruct (decide (u = t)) as [->|]; tauto.
Qed.
Lemma tracks_elem q st hs s t : tracks q st hs s -> t ∈ q -> valid t /\ (t ∉ hs) /\ (s.(threads) t).(td_status) = st.
Proof. intros [_ Hq]. apply Hq. Qed.

(** Moves of a thread between its place and the hand. *)
Lemma core_td hs s t x : t ∈ hs -> core hs s -> core hs (set_td t x s).
Proof.
  intros Ht [C1 C2 C3 C4 C5 C6 C7]. constructor; auto using tracks_td.
  - intros c Hc. specialize (C4 c Hc) as (Hr & Hv & Hn & Hs). repeat split; auto; try apply Hr; try apply Hv.
    cbn. rewrite upd_ne; auto. intros E. rewrite <- E in Ht. contradiction.
  - intros u Hu Hn. cbn. rewrite upd_ne by (intros ->; contradiction). auto.
Qed.
(** Only the statuses of the threads matter. *)
Lemma core_ext_td hs s t x : x.(td_status) = (s.(threads) t).(td_status) -> core hs s -> core hs (set_td t x s).
Proof.
  intros Hx [C1 C2 C3 C4 C5 C6 C7].
  assert (St : forall u, ((set_td t x s).(threads) u).(td_status) = (s.(threads) u).(td_status)).
  { intros u. cbn. destruct (decide (u = t)) as [->|]; [now rewrite upd_eq|now rewrite upd_ne]. }
  constructor; auto; try (destruct C1, C2, C3; split; [assumption|]; intros u; rewrite St; auto).
  - intros c' Hc'. rewrite St. auto.
  - intros u. rewrite St. auto.
Qed.
Lemma core_take_cpu hs s c : core hs s -> s.(cpu_running) c <> 0 -> core (s.(cpu_running) c :: hs) (set_running c 0 s).
Proof.
  intros [C1 C2 C3 C4 C5 C6 C7] Hc. destruct (C4 c Hc) as (Hr & Hv & Hn & Hs).
  set (t := s.(cpu_running) c) in *.
  constructor; try (apply (tracks_other _ _ hs s t); [rewrite Hs; discriminate|assumption]).
  - cbn. intros c'. destruct (decide (c' = c)) as [->|Hne]; [rewrite upd_eq; congruence|rewrite upd_ne by auto].
    intros H. destruct (C4 c' H) as (? & ? & ? & ?). split; [lia|]. split; [auto|]. split; [|auto].
    rewrite not_elem_of_cons. split; [|assumption]. intros E. apply Hne. now apply C5.
  - cbn. intros c1 c2. unfold upd. destruct (Z.eqb_spec c1 c), (Z.eqb_spec c2 c); try congruence; auto.
  - cbn. intros u Hu [Hut Hun]%not_elem_of_cons Hsu. destruct (C6 u Hu Hun Hsu) as [c' Hc'].
    exists c'. rewrite upd_ne; auto. intros ->. fold t in Hc'. congruence.
  - cbn. intros c' Hi. unfold upd. destruct (c' =? c); auto.
Qed.
Lemma core_put_cpu hs s c t : core (t :: hs) s -> (t ∉ hs) -> valid t -> (s.(threads) t).(td_status) = RUNNING ->
  0 <= c < Z.of_nat NCPU -> s.(cpu_running) c = 0 -> s.(cpu_idle) c = false -> core hs (set_running c t s).
Proof.
  intros [C1 C2 C3 C4 C5 C6 C7] Hn Hv Hs Hc Hr Hi.
  constructor; try (apply (tracks_other _ _ hs s t); [rewrite Hs; discriminate|assumption]).
  - cbn. intros c'. destruct (decide (c' = c)) as [->|Hne]; [rewrite upd_eq; auto|rewrite upd_ne by auto].
    intros H. destruct (C4 c' H) as (? & ? & X & ?). apply not_elem_of_cons in X as [? ?]. auto.
  - cbn. intros c1 c2. unfold upd. destruct (Z.eqb_spec c1 c) as [->|], (Z.eqb_spec c2 c) as [->|]; auto; intros H E.
    + exfalso. destruct (C4 c2) as (_ & _ & X & _); [congruence|]. rewrite <- E in X. apply X. left.
    + exfalso. destruct (C4 c1) as (_ & _ & X & _); [congruence|]. rewrite E in X. apply X. left.
  - cbn. intros u Hu Hun Hsu. destruct (decide (u = t)) as [->|]; [exists c; apply upd_eq|].
    destruct (C6 u) as [c' Hc']; auto; [now apply not_elem_of_cons|]. exists c'. rewrite upd_ne; auto.
    intros ->. rewrite Hr in Hc'. subst u. unfold valid in Hu. lia.
  - cbn. intros c' Hi'. rewrite upd_ne by congruence. auto.
Qed.

(** The clauses on CPUs do not see threads that are not running. *)
Lemma cpu_clauses_put hs s t : (s.(threads) t).(td_status) <> RUNNING ->
  (forall c, s.(cpu_running) c <> 0 -> 0 <= c < Z.of_nat NCPU /\ valid (s.(cpu_running) c) /\
     (s.(cpu_running) c ∉ t :: hs) /\ (s.(threads) (s.(cpu_running) c)).(td_status) = RUNNING) <->
  (forall c, s.(cpu_running) c <> 0 -> 0 <= c < Z.of_nat NCPU /\ valid (s.(cpu_running) c) /\
     (s.(cpu_running) c ∉ hs) /\ (s.(threads) (s.(cpu_running) c)).(td_status) = RUNNING).
Proof.
  intros Ht. split; intros H c Hc; destruct (H c Hc) as (A & B & C & D); repeat split; auto; try lia; try apply B.
  - now apply not_elem_of_cons in C as [_ ?].
  - apply not_elem_of_cons. split; auto. intros E. rewrite E in D. contradiction.
Qed.
Lemma running_clause_put hs s t : (s.(threads) t).(td_status) <> RUNNING ->
  (forall u, valid u -> (u ∉ t :: hs) -> (s.(threads) u).(td_status) = RUNNING -> exists c, s.(cpu_running) c = u) <->
  (forall u, valid u -> (u ∉ hs) -> (s.(threads) u).(td_status) = RUNNING -> exists c, s.(cpu_running) c = u).
Proof.
  intros Ht. split; intros H u Hu Hn Hs; apply H; auto.
  - apply not_elem_of_cons. split; auto. intros ->. contradiction.
  - now apply not_elem_of_cons in Hn as [_ ?].
Qed.

(** Putting a thread down in, or taking it from, the place of its status. *)
Ltac move_thread :=
  match goal with C : core _ ?s, Hs : td_status (threads ?s ?t) = ?st |- core _ _ =>
    assert (Hst : st <> RUNNING) by discriminate;
    destruct C as [C1 C2 C3 C4 C5 C6 C7]; constructor; cbn;
      [..|apply (cpu_clauses_put _ s t); [congruence|exact C4]|exact C5
         |apply (running_clause_put _ s t); [congruence|exact C6]|exact C7];
      try (match goal with
           | |- tracks ?q ?st' (t :: ?h) _ => apply (proj1 (tracks_other q st' h s t ltac:(congruence)))
           | |- tracks ?q ?st' ?h _ => apply (proj2 (tracks_other q st' h s t ltac:(congruence)))
           end; assumption)
  end.
Lemma core_put_run hs s t : core (t :: hs) s -> (t ∉ hs) -> valid t -> (s.(threads) t).(td_status) = RUNNABLE ->
  core hs (set_runq (s.(thread_runq) ++ [t]) s).
Proof.
  intros C Hn Hv Hs. move_thread. apply (tracks_put (thread_runq s ++ wtd_removed s) _ _ hs s t); auto.
  rewrite <- app_assoc. symmetry. apply Permutation_middle.
Qed.
Lemma core_put_sleep hs s t : core (t :: hs) s -> (t ∉ hs) -> valid t -> (s.(threads) t).(td_status) = SLEEPING ->
  core hs (set_sleepq (t :: s.(thread_sleepq)) s).
Proof. intros C Hn Hv Hs. move_thread. now apply (tracks_put (thread_sleepq s) _ _ hs s t). Qed.
Lemma core_put_free hs s t : core (t :: hs) s -> (t ∉ hs) -> valid t -> (s.(threads) t).(td_status) = UNUSED ->
  core hs (set_freeq (s.(thread_freeq) ++ [t]) s).
Proof.
  intros C Hn Hv Hs. move_thread. apply (tracks_put (thread_freeq s) _ _ hs s t); auto. symmetry. apply Permutation_cons_append.
Qed.
Lemma core_used hs s t : (s.(threads) t).(td_status) = USED -> core (t :: hs) s <-> core hs s.
Proof. intros Hs. split; intros C; move_thread. Qed.
Lemma core_take_run hs s t q : core hs s -> s.(thread_runq) = t :: q ->
  core (t :: hs) (set_runq q s) /\ valid t /\ (t ∉ hs) /\ (s.(threads) t).(td_status) = RUNNABLE.
Proof.
  intros C E. destruct (tracks_elem _ _ _ _ t (co_run _ _ C)) as (Hv & Hn & Hs); [rewrite E; left|].
  split; [|auto]. move_thread. apply (tracks_take (thread_runq s ++ wtd_removed s)); auto. now rewrite E.
Qed.
Lemma core_take_sleep hs s t q : core hs s -> s.(thread_sleepq) ≡ₚ t :: q ->
  core (t :: hs) (set_sleepq q s) /\ valid t /\ (t ∉ hs) /\ (s.(threads) t).(td_status) = SLEEPING.
Proof.
  intros C E. destruct (tracks_elem _ _ _ _ t (co_sleep _ _ C)) as (Hv & Hn & Hs); [rewrite E; left|].
  split; [|auto]. move_thread. now apply (tracks_take (thread_sleepq s)).
Qed.
Lemma core_take_free hs s t q : core hs s -> s.(thread_freeq) = t :: q ->
  core (t :: hs) (set_freeq q s) /\ valid t /\ (t ∉ hs) /\ (s.(threads) t).(td_status) = UNUSED.
Proof.
  intros C E. destruct (tracks_elem _ _ _ _ t (co_free _ _ C)) as (Hv & Hn & Hs); [rewrite E; left|].
  split; [|auto]. move_thread. apply (tracks_take (thread_freeq s)); auto. now rewrite E.
Qed.
Lemma core_put_removed hs s t ck : core (t :: hs) s -> (t ∉ hs) -> valid t -> (s.(threads) t).(td_status) = RUNNABLE ->
  core hs (set_wtds ck (t :: s.(wtd_removed)) s).
Proof.
  intros C Hn Hv Hs. move_thread. apply (tracks_put (thread_runq s ++ wtd_removed s) _ _ hs s t); auto.
  symmetry. apply Permutation_middle.
Qed.
Lemma core_take_removed hs s t ck q : core hs s -> s.(wtd_removed) ≡ₚ t :: q ->
  core (t :: hs) (set_wtds ck q s) /\ valid t /\ (t ∉ hs) /\ (s.(threads) t).(td_status) = RUNNABLE.
Proof.
  intros C E. assert (Ep : thread_runq s ++ wtd_removed s ≡ₚ t :: (thread_runq s ++ q)).
  { rewrite E. symmetry. apply Permutation_middle. }
  destruct (tracks_elem _ _ _ _ t (co_run _ _ C)) as (Hv & Hn & Hs); [rewrite Ep; left|].
  split; [|auto]. move_thread. now apply (tracks_take (thread_runq s ++ wtd_removed s)).
Qed.


Lemma queue_remove_perm t : forall q q', queue_remove t q = Some q' -> q ≡ₚ t :: q'.
Proof.
  induction q as [|x q IH]; intros q'; cbn; [discriminate|].
  destruct (Z.eqb_spec x t) as [->|]; [now intros [= <-]|].
  destruct (queue_remove t q) as [q1|]; cbn; [|discriminate]. intros [= <-]. rewrite (IH q1 eq_refl). apply perm_swap.
Qed.
Lemma queue_remove_in t q : t ∈ q -> exists q', queue_remove t q = Some q'.
Proof.
  induction q as [|x q IH]; intros Hin; [now apply not_elem_of_nil in Hin|]. cbn.
  destruct (Z.eqb_spec x t); [eauto|]. apply elem_of_cons in Hin as [->|Hin]; [congruence|].
  destruct (IH Hin) as [q' ->]. cbn. eauto.
Qed.

(** No thread fell asleep and no mutex changed. *)
Record calm (s s' : kst) : Prop := {
  ca_sleep : forall t, (s'.(threads) t).(td_status) = SLEEPING -> s'.(threads) t = s.(threads) t;
  ca_locking : forall t, (s'.(threads) t).(td_locking) = (s.(threads) t).(td_locking) \/ (s'.(threads) t).(td_locking) = None;
  ca_owner : s'.(mtx_owner) = s.(mtx_owner);
  ca_depth : s'.(mtx_depth) = s.(mtx_depth)
}.
Lemma calm_refl s : calm s s.
Proof. constructor; auto. Qed.
Lemma calm_trans s1 s2 s3 : calm s1 s2 -> calm s2 s3 -> calm s1 s3.
Proof.
  intros [A1 A2 A3 A4] [B1 B2 B3 B4]. constructor; try congruence.
  - intros t H. rewrite <- A1; [now apply B1|]. now rewrite <- (B1 t H).
  - intros t. destruct (B2 t) as [->|]; auto.
Qed.
(** Queue and CPU fields do not matter; a thread may change if it does not
    fall asleep. *)
Lemma calm_same s s' : s'.(threads) = s.(threads) -> s'.(mtx_owner) = s.(mtx_owner) -> s'.(mtx_depth) = s.(mtx_depth) -> calm s s'.
Proof. intros H1 H2 H3. constructor; auto; intros t; rewrite H1; auto. Qed.
Lemma calm_td s t x : x.(td_status) <> SLEEPING -> x.(td_locking) = (s.(threads) t).(td_locking) \/ x.(td_locking) = None -> calm s (set_td t x s).
Proof.
  intros Hs Hl. constructor; auto; intros u; cbn; (destruct (decide (u = t)) as [->|]; [rewrite upd_eq; auto; contradiction|rewrite upd_ne by auto; auto]).
Qed.

Lemma core_idle_true hs s c : core hs s -> s.(cpu_running) c = 0 -> core hs (set_idle c true s).
Proof.
  intros [C1 C2 C3 C4 C5 C6 C7] Hr. constructor; auto. intros c'. cbn. unfold upd. destruct (Z.eqb_spec c' c) as [->|]; auto.
Qed.
Lemma core_idle_false hs s c : core hs s -> core hs (set_idle c false s).
Proof.
  intros [C1 C2 C3 C4 C5 C6 C7]. constructor; auto. intros c'. cbn. unfold upd. destruct (Z.eqb_spec c' c) as [->|]; auto; discriminate.
Qed.
Lemma core_halted hs s : core hs s -> core hs (set_halted s).
Proof. intros [C1 C2 C3 C4 C5 C6 C7]. constructor; auto. Qed.

(** The scheduler on a CPU that has let go of its thread. *)
Lemma pick_resume c g s s' u : core [] s -> s.(cpu_running) c = 0 -> 0 <= c < Z.of_nat NCPU ->
  (let* r := sched_pick NCPU c g in sched_resume c r) s = Ok (u, s') -> core [] s' /\ calm s s'.
Proof.
  intros C Hr Hc H. unfold bind, sched_pick in H. destruct (thread_runq s) as [|t q] eqn:Eq.
  - destruct (g && _ && _); injection H as _ <-; split; auto using core_halted, core_idle_true; now apply calm_same.
  - cbn [sched_resume] in H. unfold bind, modify, upd_td in H. injection H as _ <-.
    destruct (core_take_run [] (set_idle c false s) t q) as (C1 & Hv & Hn & Hs); auto using core_idle_false.
    set (s1 := set_runq q (set_idle c false s)) in *. split.
    + change (core [] (set_running c t (set_td t (with_status RUNNING (s1.(threads) t)) s1))).
      apply core_put_cpu; auto using not_elem_of_nil.
      * apply core_td; auto. left.
      * cbn. now rewrite upd_eq.
      * cbn. apply upd_eq.
    + change (calm s (set_td t (with_status RUNNING (s1.(threads) t)) (set_running c t s1))).
      eapply (calm_trans _ (set_running c t s1)); [now apply calm_same|]. apply calm_td; cbn; [discriminate|auto].
Qed.

Lemma sched_init_core c g s s' : core [] s -> s.(cpu_running) c = 0 -> 0 <= c < Z.of_nat NCPU ->
  sched_init NCPU c g s = Ok (tt, s') -> core [] s' /\ calm s s'.
Proof. intros C Hr Hc H. apply (pick_resume c g s s' tt C Hr Hc). exact H. Qed.

(** [sched_switch] when the old thread has been put where its status says, or
    can be put back. *)
Lemma switch_away c g s s' : s.(cpu_running) c <> 0 -> 0 <= c < Z.of_nat NCPU ->
  core (if bool_decide ((s.(threads) (s.(cpu_running) c)).(td_status) = RUNNABLE) then [s.(cpu_running) c] else []) (set_running c 0 s) ->
  valid (s.(cpu_running) c) ->
  sched_switch NCPU c g s = Ok (tt, s') -> core [] s' /\ calm s s'.
Proof.
  intros Ht Hc C Hv H. unfold sched_switch in H. erewrite bind_run in H by reflexivity. erewrite bind_run in H by reflexivity.
  set (t := s.(cpu_running) c) in *. set (s0 := set_running c 0 s) in *.
  assert (H' : (sched_put_back t ;;; (let* r := sched_pick NCPU c g in sched_resume c r)) s0 = Ok (tt, s')).
  { unfold sched_runnable in H. unfold bind in *. destruct (sched_put_back t s0) as [[? ?]|]; [exact H|discriminate]. }
  clear H. apply bind_ok in H' as (u & s1 & Hp & H). unfold sched_put_back in Hp.
  destruct (Z.eqb_spec t 0); [congruence|].
  assert (C1 : core [] s1 /\ calm s0 s1 /\ s1.(cpu_running) c = 0).
  { change (threads s0 t) with (threads s t) in Hp.
    assert (Hr0 : s0.(cpu_running) c = 0) by (cbn; apply upd_eq).
    destruct (td_status (threads s t)) eqn:Es; cbn in C; injection Hp as _ <-; auto using calm_refl.
    split; [apply (core_put_run [] s0 t C); auto using not_elem_of_nil|]. split; auto. now apply calm_same. }
  destruct C1 as (C1 & K1 & R1). destruct (pick_resume c g s1 s' tt C1 R1 Hc H) as [C2 K2].
  split; auto. apply (calm_trans _ s0); [now apply calm_same|]. now apply (calm_trans _ s1).
Qed.


Lemma schedule_inv c g s s' : schedule NCPU c g s = Ok (tt, s') -> sched_switch NCPU c g s = Ok (tt, s').
Proof. unfold schedule. intros H. do 2 erewrite bind_run in H by reflexivity. now apply bind_ok in H as (? & ? & [_ ->]%massert_ok & H). Qed.

Lemma cpu_thread c s : core [] s -> on_cpu s c ->
  valid (s.(cpu_running) c) /\ (s.(threads) (s.(cpu_running) c)).(td_status) = RUNNING /\ 0 <= c < Z.of_nat NCPU /\ s.(cpu_running) c <> 0.
Proof. intros C (? & Hr & _). destruct (co_cpu _ _ C c Hr) as (? & ? & _ & ?). auto. Qed.

Lemma yield_core c g s s' : core [] s -> on_cpu s c -> yield NCPU c g s = Ok (tt, s') -> core [] s' /\ calm s s'.
Proof.
  intros C O H. destruct (cpu_thread c s C O) as (Hv & Hs & Hc & Hr). unfold yield in H.
  erewrite bind_run in H by reflexivity. erewrite bind_run in H by reflexivity. apply schedule_inv in H.
  set (t := s.(cpu_running) c) in *. set (s1 := set_td _ _ _) in H.
  assert (Er : s1.(cpu_running) c = t) by reflexivity.
  assert (Es : (s1.(threads) t).(td_status) = RUNNABLE) by (cbn; now rewrite upd_eq).
  destruct (switch_away c g s1 s') as [C' K']; rewrite ?Er, ?Es; auto.
  - rewrite bool_decide_eq_true_2 by auto.
    change (core [t] (set_td t (with_status RUNNABLE (s.(threads) t)) (set_running c 0 s))).
    apply core_td; [left|]. now apply core_take_cpu.
  - split; auto. apply (calm_trans _ s1); auto. apply calm_td; cbn; [discriminate|auto].
Qed.

(** A thread goes to sleep: it is the only one to do so. *)
Lemma sleep_core c chan g s s' : core [] s -> on_cpu s c -> sleep NCPU c chan g s = Ok (tt, s') ->
  core [] s' /\ calm (set_td (s.(cpu_running) c) (with_status SLEEPING (with_wchan chan (s.(threads) (s.(cpu_running) c)))) s) s'.
Proof.
  intros C O H. destruct (cpu_thread c s C O) as (Hv & Hs & Hc & Hr). unfold sleep in H.
  do 2 erewrite bind_run in H by reflexivity. apply bind_ok in H as (? & ? & [_ ->]%massert_ok & H).
  do 3 erewrite bind_run in H by reflexivity. apply schedule_inv in H.
  set (t := s.(cpu_running) c) in *.
  set (s1 := set_td t (with_status SLEEPING (with_wchan chan (s.(threads) t))) s).
  set (s2 := set_sleepq _ _) in H.
  assert (Et : s2.(threads) t = with_status SLEEPING (with_wchan chan (s.(threads) t))) by (cbn; now rewrite !upd_eq).
  assert (K : calm s1 s2).
  { constructor; auto; intros u; cbn; destruct (decide (u = t)) as [->|]; rewrite ?upd_eq, ?upd_ne by auto; auto. }
  assert (Er : s2.(cpu_running) c = t) by reflexivity.
  destruct (switch_away c g s2 s') as [C' K']; rewrite ?Er, ?Et; auto.
  - cbn [td_status with_status]. rewrite bool_decide_eq_false_2 by discriminate.
    set (s0 := set_running c 0 s).
    set (s3 := set_td t (with_status SLEEPING ((set_td t (with_wchan chan (s.(threads) t)) s).(threads) t)) (set_td t (with_wchan chan (s.(threads) t)) s0)).
    change (core [] (set_sleepq (t :: s3.(thread_sleepq)) s3)). apply core_put_sleep; auto using not_elem_of_nil.
    + apply core_td; [left|]. apply core_td; [left|]. now apply core_take_cpu.
    + cbn. now rewrite !upd_eq.
  - split; auto. now apply (calm_trans _ s2).
Qed.

Lemma sleep_return_core c s s' : core [] s -> on_cpu s c -> sleep_return c s = Ok (tt, s') -> core [] s' /\ calm s s'.
Proof.
  intros C O H. destruct (cpu_thread c s C O) as (Hv & Hs & Hc & Hr). injection H as <-.
  split; [|apply calm_td; cbn; [congruence|auto]].
  apply core_ext_td; auto.
Qed.

(** [wakeup]: the threads asleep on the channel, in queue order. *)
Definition asleep_on (chan : Z) (s : kst) (t : Z) : bool := (s.(threads) t).(td_wchan) =? chan.
Lemma core_perm hs hs' s : hs ≡ₚ hs' -> core hs s -> core hs' s.
Proof.
  intros Hp [C1 C2 C3 C4 C5 C6 C7].
  assert (Ht : forall q st, tracks q st hs s -> tracks q st hs' s) by (intros q st [Hn Hq]; split; auto; intros t; rewrite <- Hp; auto).
  constructor; auto.
  - intros c Hc. rewrite <- Hp. auto.
  - intros t Hv. rewrite <- Hp. auto.
Qed.

(** The invariant of [wakeup]'s loop: the threads in [ready] are in hand. *)
Record wake_inv (ready : list Z) (s : kst) : Prop := {
  wk_core : core ready s;
  wk_nodup : NoDup ready;
  wk_ready : forall t, t ∈ ready -> valid t /\ (s.(threads) t).(td_status) = RUNNABLE
}.
Lemma wake_one chan t ready s : wake_inv ready s -> t ∈ s.(thread_sleepq) ->
  exists sq, queue_remove t s.(thread_sleepq) = Some sq /\ s.(thread_sleepq) ≡ₚ t :: sq /\
    let s2 := set_sleepq sq (set_td t (with_status RUNNABLE (s.(threads) t)) s) in
    wake_inv (ready ++ [t]) s2 /\ calm s s2 /\ (forall u, asleep_on chan s2 u = asleep_on chan s u).
Proof.
  intros [C Hn Hr] Ht. destruct (queue_remove_in t _ Ht) as [sq Esq]. pose proof (queue_remove_perm _ _ _ Esq) as Hp.
  exists sq. split; [exact Esq|]. split; [exact Hp|]. cbn zeta.
  destruct (core_take_sleep ready s t sq C Hp) as (C1 & Hv & Hnt & Hs). split; [constructor|split].
  - apply (core_perm (t :: ready)); [apply Permutation_cons_append|].
    change (core (t :: ready) (set_td t (with_status RUNNABLE (s.(threads) t)) (set_sleepq sq s))). apply core_td; auto. left.
  - apply NoDup_app. split; auto. split; [|apply NoDup_singleton]. now intros u Hu ->%list_elem_of_singleton.
  - intros u [Hu| ->%list_elem_of_singleton]%elem_of_app; cbn; [|now rewrite upd_eq].
    rewrite upd_ne by (intros ->; contradiction). auto.
  - apply (calm_trans _ (set_td t (with_status RUNNABLE (s.(threads) t)) s)); [apply calm_td; cbn; [discriminate|auto]|now apply calm_same].
  - intros u. unfold asleep_on. cbn. destruct (decide (u = t)) as [->|]; [now rewrite upd_eq|now rewrite upd_ne].
Qed.

Lemma wakeup_loop_run chan : forall q ready s, wake_inv ready s -> (forall t, t ∈ q -> t ∈ s.(thread_sleepq)) -> NoDup q ->
  exists s', wakeup_loop chan q ready s = Ok (ready ++ List.filter (asleep_on chan s) q, s') /\
    wake_inv (ready ++ List.filter (asleep_on chan s) q) s' /\ calm s s' /\ s'.(thread_runq) = s.(thread_runq) /\
    (forall t, t ∈ s'.(thread_sleepq) <-> t ∈ s.(thread_sleepq) /\ ~ (t ∈ q /\ asleep_on chan s t = true)).
Proof.
  induction q as [|t q IH]; intros ready s W Hin Hq; cbn [wakeup_loop List.filter].
  - exists s. rewrite app_nil_r. split; [reflexivity|]. split; [exact W|]. split; [apply calm_refl|]. split; [reflexivity|].
    intros t. split; [|tauto]. intros H. split; auto. intros [X _]. now apply not_elem_of_nil in X.
  - assert (Ht : t ∈ s.(thread_sleepq)) by (apply Hin; left). apply NoDup_cons in Hq as [Htq Hq].
    destruct (tracks_elem _ _ _ _ t (co_sleep _ _ (wk_core _ _ W)) Ht) as (Hv & Hnr & Hs).
    erewrite bind_run by reflexivity. rewrite massert_run by now apply bool_decide_eq_true_2.
    change (td_wchan (threads s t) =? chan) with (asleep_on chan s t). destruct (asleep_on chan s t) eqn:Ea.
    + destruct (wake_one chan t ready s W Ht) as (sq & Esq & Hp & W2 & K2 & A2).
      do 2 erewrite bind_run by reflexivity. cbn [thread_sleepq set_td set_threads]. rewrite Esq.
      erewrite bind_run by reflexivity. set (s2 := set_sleepq sq _) in *.
      pose proof (proj1 (co_sleep _ _ (wk_core _ _ W))) as Hnd. rewrite Hp in Hnd. apply NoDup_cons in Hnd as [Hts Hnd].
      destruct (IH (ready ++ [t]) s2 W2) as (s3 & E3 & W3 & K3 & R3 & Q3); auto.
      * intros u Hu. specialize (Hin u). rewrite Hp, !elem_of_cons in Hin. destruct Hin as [->|]; auto; contradiction.
      * rewrite (List.filter_ext _ _ A2), <- app_assoc in E3, W3. exists s3. split; [exact E3|]. split; [exact W3|].
        split; [now apply (calm_trans _ s2)|]. split; [exact R3|]. intros u. rewrite Q3, A2, Hp, !elem_of_cons. cbn [thread_sleepq s2 set_sleepq].
        destruct (decide (u = t)) as [->|]; [rewrite Ea|]; tauto.
    + destruct (IH ready s W) as (s3 & E3 & W3 & K3 & R3 & Q3); auto; [intros; apply Hin; now right|].
      exists s3. split; [exact E3|]. split; [exact W3|]. split; [exact K3|]. split; [exact R3|].
      intros u. rewrite Q3, elem_of_cons. destruct (decide (u = t)) as [->|]; rewrite ?Ea; naive_solver.
Qed.

Lemma core_put_all : forall ready s, wake_inv ready s -> core [] (set_runq (s.(thread_runq) ++ ready) s).
Proof.
  induction ready as [|t ready IH]; intros s [C Hn Hr].
  - rewrite app_nil_r. destruct C as [C1 C2 C3 C4 C5 C6 C7]. now constructor.
  - apply NoDup_cons in Hn as [Ht Hn]. destruct (Hr t) as [Hv Hs]; [left|].
    pose proof (core_put_run ready s t C Ht Hv Hs) as C1. set (s1 := set_runq (thread_runq s ++ [t]) s) in *.
    assert (W1 : wake_inv ready s1) by (constructor; auto; intros u Hu; apply Hr; now right).
    specialize (IH s1 W1). cbn [thread_runq s1 set_runq] in IH. rewrite <- app_assoc in IH. exact IH.
Qed.

Lemma wakeup_run chan s : core [] s ->
  exists s', wakeup chan s = Ok (tt, s') /\ core [] s' /\ calm s s' /\
    s'.(thread_runq) = s.(thread_runq) ++ List.filter (asleep_on chan s) s.(thread_sleepq) /\
    (forall t, t ∈ s'.(thread_sleepq) <-> t ∈ s.(thread_sleepq) /\ (s.(threads) t).(td_wchan) <> chan) /\
    (forall t, t ∈ s.(thread_sleepq) -> (s.(threads) t).(td_wchan) = chan -> (s'.(threads) t).(td_status) = RUNNABLE).
Proof.
  intros C. assert (W : wake_inv [] s) by (constructor; auto; [constructor|now intros t ?%not_elem_of_nil]).
  destruct (wakeup_loop_run chan (thread_sleepq s) [] s W) as (s1 & E & W1 & K & R & Q); auto; [apply (co_sleep _ _ C)|].
  unfold wakeup. erewrite bind_run by reflexivity. erewrite bind_run by exact E. cbn [app] in *.
  eexists. split; [reflexivity|]. split; [now apply core_put_all|]. split; [apply (calm_trans _ s1); auto; now apply calm_same|].
  split; [cbn; now rewrite R|]. split.
  - intros t. cbn. rewrite Q. unfold asleep_on. rewrite <- Z.eqb_neq, <- not_true_iff_false. tauto.
  - intros t Ht Hw. cbn. apply (wk_ready _ _ W1). apply list_elem_of_In, List.filter_In. split; [now apply list_elem_of_In|].
    unfold asleep_on. now apply Z.eqb_eq.
Qed.

Lemma wtds_core ck s : core [] s -> core [] (set_wtds ck s.(wtd_removed) s).
Proof. intros [C1 C2 C3 C4 C5 C6 C7]. now constructor. Qed.

Lemma wakeup_td_check_core td s s' : core [] s -> wakeup_td_check td s = Ok (tt, s') -> core [] s' /\ calm s s'.
Proof.
  intros C H. unfold wakeup_td_check in H. erewrite bind_run in H by reflexivity.
  destruct (bool_decide _); injection H as <-; auto using calm_refl. split; [now apply wtds_core|now apply calm_same].
Qed.
Lemma wakeup_td_remove_core td s s' : core [] s -> wakeup_td_remove td s = Ok (tt, s') -> core [] s' /\ calm s s'.
Proof.
  intros C H. unfold wakeup_td_remove in H. do 3 erewrite bind_run in H by reflexivity.
  cbn [thread_sleepq set_td set_threads] in H. destruct (queue_remove td (thread_sleepq s)) as [sq|] eqn:Eq; [|discriminate].
  destruct (queue_remove td (wtd_checked s)) as [ck|]; [|discriminate]. injection H as <-.
  destruct (core_take_sleep [] s td sq C (queue_remove_perm _ _ _ Eq)) as (C1 & Hv & Hn & Hs). split.
  - set (s1 := set_td td (with_status RUNNABLE (s.(threads) td)) (set_sleepq sq s)).
    change (core [] (set_wtds ck (td :: s1.(wtd_removed)) s1)). apply core_put_removed; auto.
    + apply core_td; auto. left.
    + cbn. now rewrite upd_eq.
  - apply (calm_trans _ (set_td td (with_status RUNNABLE (s.(threads) td)) s)); [apply calm_td; cbn; [discriminate|auto]|now apply calm_same].
Qed.
Lemma wakeup_td_insert_core td s s' : core [] s -> wakeup_td_insert td s = Ok (tt, s') -> core [] s' /\ calm s s'.
Proof.
  intros C H. unfold wakeup_td_insert in H. erewrite bind_run in H by reflexivity.
  destruct (queue_remove td (wtd_removed s)) as [rm|] eqn:Eq; [|discriminate]. injection H as <-.
  destruct (core_take_removed [] s td s.(wtd_checked) rm C (queue_remove_perm _ _ _ Eq)) as (C1 & Hv & Hn & Hs).
  split; [|now apply calm_same]. exact (core_put_run [] _ td C1 Hn Hv Hs).
Qed.

Lemma td_alloc_core td s s' : core [] s -> td_alloc s = Ok (td, s') ->
  core [] s' /\ calm s s' /\ (s'.(threads) td).(td_status) = USED /\ valid td.
Proof.
  intros C H. unfold td_alloc in H. erewrite bind_run in H by reflexivity.
  destruct (thread_freeq s) as [|t q] eqn:Eq; [discriminate|]. injection H as -> <-.
  destruct (core_take_free [] s td q C Eq) as (C1 & Hv & Hn & Hs). cbn zeta.
  set (x := MkThread _ USED 0 None). set (n := wrap64 _).
  assert (Hu : forall s0, ((set_td td x s0).(threads) td).(td_status) = USED) by (intros; cbn; now rewrite upd_eq).
  split; [|split; [|split; [apply Hu|exact Hv]]].
  - assert (C2 : core [] (set_td td x (set_freeq q s))) by (apply (core_used [] _ td (Hu _)); apply core_td; auto; left).
    destruct C2 as [D1 D2 D3 D4 D5 D6 D7]. now constructor.
  - apply (calm_trans _ (set_td td x s)); [apply calm_td; cbn; [discriminate|auto]|now apply calm_same].
Qed.
Lemma td_ready_core td s s' : core [] s -> valid td -> (s.(threads) td).(td_status) = USED -> td_ready td s = Ok (tt, s') ->
  core [] s' /\ calm s s'.
Proof.
  intros C Hv Hs H. injection H as <-. set (s1 := set_td td (with_status RUNNABLE (s.(threads) td)) s). split.
  - change (core [] (set_runq (s1.(thread_runq) ++ [td]) s1)). apply core_put_run; auto using not_elem_of_nil.
    + apply core_td; [left|]. now apply core_used.
    + cbn. now rewrite upd_eq.
  - apply (calm_trans _ s1); [apply calm_td; cbn; [discriminate|auto]|now apply calm_same].
Qed.

Lemma td_exit_core c g s s' : core [] s -> on_cpu s c -> td_exit NCPU c g s = Ok (tt, s') -> core [] s' /\ calm s s'.
Proof.
  intros C O H. destruct (cpu_thread c s C O) as (Hv & Hs & Hc & Hr). unfold td_exit, td_free in H.
  do 2 erewrite bind_run in H by reflexivity. apply schedule_inv in H.
  set (t := s.(cpu_running) c) in *. set (x := MkThread 0 UNUSED _ _) in *. set (s1 := set_freeq _ _) in H.
  assert (Et : s1.(threads) t = x) by (cbn; now rewrite upd_eq).
  assert (Er : s1.(cpu_running) c = t) by reflexivity.
  destruct (switch_away c g s1 s') as [C' K']; rewrite ?Er, ?Et; auto.
  - cbn [td_status x]. rewrite bool_decide_eq_false_2 by discriminate.
    set (s3 := set_td t x (set_running c 0 s)).
    change (core [] (set_freeq (s3.(thread_freeq) ++ [t]) s3)). apply core_put_free; auto using not_elem_of_nil.
    + apply core_td; [left|]. now apply core_take_cpu.
    + cbn. now rewrite !upd_eq.
  - split; auto. apply (calm_trans _ s1); auto. apply (calm_trans _ (set_td t x s)); [apply calm_td; cbn; [discriminate|auto]|now apply calm_same].
Qed.

(** ** Sleep mutexes *)

(** How often [t] has acquired [m] more than released it. *)
Definition weight (t m : Z) (e : event) : Z :=
  match e with
  | Acq t' m' => if (t' =? t) && (m' =? m) then 1 else 0
  | Rel t' m' => if (t' =? t) && (m' =? m) then -1 else 0
  end.
Fixpoint balance (t m : Z) (tr : list event) : Z :=
  match tr with [] => 0 | e :: tr' => weight t m e + balance t m tr' end.
Lemma balance_app t m tr tr' : balance t m (tr ++ tr') = balance t m tr + balance t m tr'.
Proof. induction tr as [|e tr IH]; cbn; [reflexivity|lia]. Qed.

Record mutexes_ok (tr : list event) (s : kst) : Prop := {
  mo_sleep : forall t m, valid t -> (s.(threads) t).(td_status) = SLEEPING -> (s.(threads) t).(td_locking) = Some m ->
    (s.(threads) t).(td_wchan) = m /\ s.(mtx_owner) m <> 0;
  mo_depth : forall m, 0 <= s.(mtx_depth) m <= 255 /\ (s.(mtx_owner) m = 0 <-> s.(mtx_depth) m = 0);
  mo_balance : forall t m, t <> 0 -> balance t m tr = if s.(mtx_owner) m =? t then s.(mtx_depth) m else 0
}.
Lemma mutexes_calm tr s s' : mutexes_ok tr s -> calm s s' -> mutexes_ok tr s'.
Proof.
  intros [A1 A2 A3] [K1 K2 K3 K4]. constructor; rewrite ?K3, ?K4; auto.
  intros t m Hv Hs Hl. pose proof (K1 t Hs) as E. rewrite E in Hs, Hl |- *. now apply A1.
Qed.
Lemma mutexes_asleep tr s t x : mutexes_ok tr s ->
  (x.(td_status) = SLEEPING -> forall m, x.(td_locking) = Some m -> x.(td_wchan) = m /\ s.(mtx_owner) m <> 0) -> mutexes_ok tr (set_td t x s).
Proof.
  intros [A1 A2 A3] Hx. constructor; auto. intros u m Hv. cbn. destruct (decide (u = t)) as [->|]; [rewrite upd_eq|rewrite upd_ne by auto]; auto.
Qed.

Definition kinv (tr : list event) (s : kst) : Prop := core [] s /\ mutexes_ok tr s.

Lemma core_mutex hs m o d s : core hs s -> core hs (set_mutex m o d s).
Proof. intros [C1 C2 C3 C4 C5 C6 C7]. now constructor. Qed.

(** The owner of a mutex changes its depth, taking or leaving one level. *)
Lemma mutexes_set tr s t m d e : mutexes_ok tr s -> t <> 0 -> s.(mtx_owner) m = t \/ s.(mtx_owner) m = 0 -> 1 <= d <= 255 ->
  (forall t' m', weight t' m' e = if (t =? t') && (m =? m') then d - s.(mtx_depth) m else 0) ->
  mutexes_ok (tr ++ [e]) (set_mutex m t d s).
Proof.
  intros [A1 A2 A3] Ht Ho Hd He. constructor; cbn.
  - intros u m' Hv Hs Hl. destruct (A1 u m' Hv Hs Hl). split; auto. unfold upd. destruct (m' =? m); auto.
  - intros m'. unfold upd. destruct (Z.eqb_spec m' m); [lia|auto].
  - intros u m' Hu. rewrite balance_app, A3 by auto. cbn. rewrite He. unfold upd. rewrite (Z.eqb_sym m' m).
    destruct (Z.eqb_spec m m') as [<-|]; [|rewrite andb_false_r; lia]. rewrite andb_true_r.
    destruct (Z.eqb_spec t u) as [->|Hne].
    + destruct Ho as [->|E0]; [rewrite Z.eqb_refl; lia|]. rewrite E0. destruct (Z.eqb_spec 0 u); [lia|].
      rewrite (proj1 (proj2 (A2 m)) E0). lia.
    + destruct (Z.eqb_spec (mtx_owner s m) u); [|lia]. destruct Ho; congruence.
Qed.

Lemma mtx_lock_loop_inv tr c m g r s s' : kinv tr s -> on_cpu s c -> mtx_lock_sleep_loop NCPU c m g s = Ok (r, s') ->
  kinv (tr ++ if r : bool then [Acq (s.(cpu_running) c) m] else []) s'.
Proof.
  intros [C Mo] O H. destruct (cpu_thread c s C O) as (Hv & Hs & Hc & Hr). unfold mtx_lock_sleep_loop in H.
  do 2 erewrite bind_run in H by reflexivity. set (t := s.(cpu_running) c) in *.
  destruct (Z.eqb_spec (s.(mtx_owner) m) 0) as [Eo|Eo]; cbn [negb] in H.
  - apply bind_ok in H as (? & ? & [_ ->]%massert_ok & H). injection H as <- <-. split.
    + apply core_ext_td; auto. now apply core_mutex.
    + apply (mutexes_calm _ (set_mutex m t 1 s)); [|apply calm_td; cbn; [rewrite Hs; discriminate|auto]].
      apply mutexes_set; auto; [lia|]. intros t' m'. cbn. rewrite (proj1 (proj2 (mo_depth _ _ Mo m)) Eo). reflexivity.
  - erewrite bind_run in H by reflexivity. set (s1 := set_td t _ s) in H.
    apply bind_ok in H as ([] & s2 & H & E). injection E as <- <-. rewrite app_nil_r.
    destruct (sleep_core c m g s1 s2) as [C' K']; auto; [now apply core_ext_td|].
    split; auto. eapply mutexes_calm; [|exact K']. apply mutexes_asleep.
    + apply mutexes_asleep; [exact Mo|]. cbn. fold t. rewrite Hs. discriminate.
    + intros _ m'. cbn. fold t. rewrite upd_eq. cbn. intros [= <-]. auto.
Qed.
Lemma mtx_lock_sleep_inv tr c m g r s s' : kinv tr s -> on_cpu s c -> s.(mtx_depth) m < 255 ->
  mtx_lock_sleep NCPU c m g s = Ok (r, s') -> kinv (tr ++ if r : bool then [Acq (s.(cpu_running) c) m] else []) s'.
Proof.
  intros K O Hd H. unfold mtx_lock_sleep in H. do 2 erewrite bind_run in H by reflexivity.
  destruct (Z.eqb_spec (s.(mtx_owner) m) (s.(cpu_running) c)) as [E|E]; [|now apply (mtx_lock_loop_inv tr c m g r s s' K O)].
  destruct K as [C Mo]. destruct (cpu_thread c s C O) as (Hv & Hs & Hc & Hr).
  erewrite bind_run in H by reflexivity. apply bind_ok in H as (? & ? & [_ ->]%massert_ok & H). injection H as <- <-.
  split; [now apply core_mutex|]. destruct (mo_depth _ _ Mo m) as [Hb Ho]. rewrite wrap8_small by lia. rewrite E.
  apply mutexes_set; auto; [lia|]. intros t' m'. cbn. destruct (_ && _); lia.
Qed.
Lemma mtx_unlock_sleep_inv tr c m s s' : kinv tr s -> on_cpu s c -> mtx_unlock_sleep c m s = Ok (tt, s') ->
  kinv (tr ++ [Rel (s.(cpu_running) c) m]) s'.
Proof.
  intros [C Mo] O H. destruct (cpu_thread c s C O) as (Hv & Hs & Hc & Hr). unfold mtx_unlock_sleep in H.
  set (t := s.(cpu_running) c) in *.
  do 2 erewrite bind_run in H by reflexivity. apply bind_ok in H as (? & ? & [E ->]%massert_ok & H). apply Z.eqb_eq in E. fold t in E.
  erewrite bind_run in H by reflexivity. apply bind_ok in H as (? & ? & [Hd ->]%massert_ok & H). apply Z.ltb_lt in Hd.
  destruct (mo_depth _ _ Mo m) as [Hb Ho]. destruct (Z.ltb_spec 1 (s.(mtx_depth) m)).
  - erewrite bind_run in H by reflexivity. apply bind_ok in H as (? & ? & [_ ->]%massert_ok & H). injection H as <-.
    split; [now apply core_mutex|]. rewrite E. apply mutexes_set; auto; [lia|]. intros t' m'. cbn. destruct (_ && _); lia.
  - erewrite bind_run in H by reflexivity. set (s1 := set_mutex m 0 0 s) in H.
    destruct (wakeup_run m s1) as (s2 & E2 & C2 & K2 & _ & Q2 & _); [now apply core_mutex|].
    rewrite E2 in H. injection H as <-. split; [exact C2|]. destruct Mo as [A1 A2 A3]. constructor; rewrite ?(ca_owner _ _ K2), ?(ca_depth _ _ K2); cbn.
    + intros u m' Hvu Hsu Hl. pose proof (ca_sleep _ _ K2 u Hsu) as Eu. cbn in Eu. rewrite Eu in Hl |- *.
      assert (Hsu' : (s.(threads) u).(td_status) = SLEEPING) by congruence. destruct (A1 u m' Hvu Hsu' Hl) as [Hw Hn]. split; auto.
      assert (m' <> m); [|now rewrite upd_ne]. intros ->.
      assert (Hq : u ∈ s2.(thread_sleepq)) by (apply (co_sleep _ _ C2); split; [exact Hvu|split; [apply not_elem_of_nil|exact Hsu]]).
      now apply Q2 in Hq as [_ Hq].
    + intros m'. unfold upd. destruct (Z.eqb_spec m' m); [lia|auto].
    + intros u m' Hu. rewrite balance_app, A3 by auto. cbn. unfold upd. rewrite (Z.eqb_sym m' m).
      destruct (Z.eqb_spec m m') as [<-|]; [|rewrite andb_false_r; lia]. rewrite andb_true_r, E.
      destruct (Z.eqb_spec t u), (Z.eqb_spec 0 u); lia.
Qed.

Lemma kinv_calm tr s s' : kinv tr s -> core [] s' /\ calm s s' -> kinv (tr ++ []) s'.
Proof. intros [C Mo] [C' K]. rewrite app_nil_r. split; auto. eapply mutexes_calm; eauto. Qed.
Lemma kstep_inv tr s e s' : kinv tr s -> kstep s e s' -> kinv (tr ++ e) s'.
Proof.
  intros K St. pose proof (proj1 K) as C. destruct St as
    [c g s' Hc Hr Hh H|c g s' O H|c chan g s' O U H|c s' O H|c chan s' O H|c td s' O V H|c td s' O V H|c td s' O V H
    |td s' H|td s' V Hs H|c g s' O U H|c m g r s' O U Hd H|c m g r s' O L H|c m s' O U H].
  1,2,4-11: apply (kinv_calm tr s s' K).
  - now apply (sched_init_core c g).
  - now apply (yield_core c g).
  - now apply (sleep_return_core c).
  - destruct (wakeup_run chan s C) as (s2 & E2 & C2 & K2 & _). rewrite E2 in H. injection H as <-. auto.
  - now apply (wakeup_td_check_core td).
  - now apply (wakeup_td_remove_core td).
  - now apply (wakeup_td_insert_core td).
  - destruct (td_alloc_core td s s' C H) as (? & ? & _). auto.
  - now apply (td_ready_core td).
  - now apply (td_exit_core c g).
  - rewrite app_nil_r. destruct (sleep_core c chan g s s' C O H) as [C' K']. split; auto.
    eapply mutexes_calm; [|exact K']. apply mutexes_asleep; [apply K|]. cbn. intros _ m E. unfold unblocked in U. congruence.
  - now apply (mtx_lock_sleep_inv tr c m g r s s').
  - now apply (mtx_lock_loop_inv tr c m g r s s').
  - now apply (mtx_unlock_sleep_inv tr c m s s').
Qed.
Lemma kreach_inv s0 tr s : kinv [] s0 -> kreach s0 tr s -> kinv tr s.
Proof. intros K0. induction 1; eauto using kstep_inv. Qed.

(** C4. Every thread is in exactly one place, whatever the CPUs did: free, in the
    run queue or on the way there, asleep, or on one CPU, as its status says. *)
Theorem thread_in_one_place s0 tr s : kinv [] s0 -> kreach s0 tr s ->
  NoDup (s.(thread_freeq) ++ s.(thread_runq) ++ s.(wtd_removed) ++ s.(thread_sleepq)) /\
  forall t, valid t ->
    match (s.(threads) t).(td_status) with
    | UNUSED => t ∈ s.(thread_freeq)
    | RUNNABLE => t ∈ s.(thread_runq) ++ s.(wtd_removed)
    | SLEEPING => t ∈ s.(thread_sleepq)
    | RUNNING => exists c, s.(cpu_running) c = t /\ forall c', s.(cpu_running) c' = t -> c' = c
    | USED | ZOMBIE => True
    end /\
    (t ∈ s.(thread_freeq) ++ s.(thread_runq) ++ s.(wtd_removed) ++ s.(thread_sleepq) -> forall c, s.(cpu_running) c <> t).
Proof.
  intros K0 R. destruct (kreach_inv _ _ _ K0 R) as [[[N1 Q1] [N2 Q2] [N3 Q3] C4 C5 C6 C7] _].
  rewrite (app_assoc (thread_runq s)). split.
  - apply NoDup_app. split; [exact N1|]. split.
    + intros t (_ & _ & S1)%Q1 [(_ & _ & S2)%Q2|(_ & _ & S3)%Q3]%elem_of_app; congruence.
    + apply NoDup_app. split; [exact N2|]. split; [|exact N3]. intros t (_ & _ & S2)%Q2 (_ & _ & S3)%Q3. congruence.
  - intros t Hv. split.
    + destruct (td_status (threads s t)) eqn:Es; auto.
      * apply Q1. auto using not_elem_of_nil.
      * apply Q3. auto using not_elem_of_nil.
      * apply Q2. auto using not_elem_of_nil.
      * destruct (C6 t Hv) as [c Hc]; auto using not_elem_of_nil. exists c. split; auto. intros c' Hc'.
        symmetry. apply C5; [|congruence]. unfold valid in Hv. lia.
    + intros Hq c Hc. assert (Hne : s.(cpu_running) c <> 0) by (unfold valid in Hv; lia).
      destruct (C4 c Hne) as (_ & _ & _ & Hs). rewrite Hc in Hs.
      apply elem_of_app in Hq as [(_ & _ & S1)%Q1|Hq]; [congruence|].
      apply elem_of_app in Hq as [(_ & _ & S2)%Q2|(_ & _ & S3)%Q3]; congruence.
Qed.

(** C37. A sleep mutex has one holder: of two threads that both acquired it more
    often than they released it, there is but one, and it is the owner. *)
Theorem sleep_mutex_exclusion s0 tr s t1 t2 m : kinv [] s0 -> kreach s0 tr s -> t1 <> 0 -> t2 <> 0 ->
  0 < balance t1 m tr -> 0 < balance t2 m tr ->
  t1 = t2 /\ s.(mtx_owner) m = t1 /\ s.(mtx_depth) m = balance t1 m tr.
Proof.
  intros K0 R H1 H2 B1 B2. destruct (kreach_inv _ _ _ K0 R) as [_ [_ _ A3]].
  rewrite A3 in B1, B2 |- * by auto.
  destruct (Z.eqb_spec (mtx_owner s m) t1), (Z.eqb_spec (mtx_owner s m) t2); lia.
Qed.

(** C39. No wakeup of a sleep mutex is lost: while the mutex is free, no thread
    inside [mtx_lock_sleep] for it is asleep. *)
Theorem sleep_mutex_no_lost_wakeup s0 tr s t m : kinv [] s0 -> kreach s0 tr s -> valid t ->
  (s.(threads) t).(td_locking) = Some m -> s.(mtx_owner) m = 0 -> (s.(threads) t).(td_status) <> SLEEPING.
Proof.
  intros K0 R Hv Hl Ho Hs. destruct (kreach_inv _ _ _ K0 R) as [_ [A1 _ _]]. now destruct (A1 t m Hv Hs Hl).
Qed.

(** [wakeup] returns, and moves every thread asleep on the channel, in queue
    order, to the end of the run queue; all others stay asleep. *)
Theorem wakeup_wakes s0 tr s chan : kinv [] s0 -> kreach s0 tr s ->
  exists s', wakeup chan s = Ok (tt, s') /\
    s'.(thread_runq) = s.(thread_runq) ++ List.filter (asleep_on chan s) s.(thread_sleepq) /\
    (forall t, t ∈ s'.(thread_sleepq) <-> t ∈ s.(thread_sleepq) /\ (s.(threads) t).(td_wchan) <> chan) /\
    (forall t, t ∈ s.(thread_sleepq) -> (s.(threads) t).(td_wchan) = chan -> (s'.(threads) t).(td_status) = RUNNABLE).
Proof.
  intros K0 R. destruct (wakeup_run chan s (proj1 (kreach_inv _ _ _ K0 R))) as (s' & E & _ & _ & H). eauto.
Qed.

(** The kernel halts only when it is done: when a look at the queues ends in
    [cpu_halt], no thread is asleep or on a CPU, and one that is runnable has a
    [wakeup_td] that has not finished. *)
Theorem halts_when_done s0 tr s c g s' : kinv [] s0 -> kreach s0 tr s ->
  0 <= c < Z.of_nat NCPU -> s.(cpu_running) c = 0 -> s.(halted) = false ->
  sched_init NCPU c g s = Ok (tt, s') -> s'.(halted) = true ->
  forall t, valid t -> match (s.(threads) t).(td_status) with
                       | SLEEPING | RUNNING => False
                       | RUNNABLE => t ∈ s.(wtd_removed)
                       | _ => True
                       end.
Proof.
  intros K0 R Hc Hr Hh H Hh'. destruct (kreach_inv _ _ _ K0 R) as [[[N1 Q1] [N2 Q2] [N3 Q3] C4 C5 C6 C7] _].
  assert (Hq : (let* r := sched_pick NCPU c g in sched_resume c r) s = Ok (tt, s')) by exact H. clear H.
  unfold bind, sched_pick in Hq. destruct (thread_runq s) as [|u q] eqn:Eq; [|injection Hq as <-; cbn in Hh'; congruence].
  destruct (g && _ && _) eqn:E; [|injection Hq as <-; cbn in Hh'; congruence].
  apply andb_prop in E as [[_ Es]%andb_prop Ei]. apply bool_decide_eq_true in Es. cbn in Es.
  intros t Hv. destruct (td_status (threads s t)) eqn:Et; auto.
  - assert (X : t ∈ s.(thread_sleepq)) by (apply Q3; auto using not_elem_of_nil). rewrite Es in X. now apply not_elem_of_nil in X.
  - apply Q2. auto using not_elem_of_nil.
  - destruct (C6 t Hv (not_elem_of_nil t) Et) as [c' Hc']. unfold valid in Hv.
    destruct (C4 c') as (Hb & _); [lia|]. unfold cpu_allidle in Ei. rewrite forallb_forall in Ei.
    specialize (Ei (Z.to_nat c')). rewrite in_seq, Z2Nat.id in Ei by lia. cbn in Ei. unfold upd in Ei.
    assert (Hcc : c' <> c) by (intros E; rewrite E in Hc'; lia).
    rewrite (proj2 (Z.eqb_neq _ _) Hcc) in Ei. specialize (C7 c' (Ei ltac:(lia))). lia.
Qed.


(** ** Round robin *)

Lemma yield_rotates c g s : s.(cpu_running) c <> 0 ->
  exists s', yield NCPU c g s = Ok (tt, s') /\
    match s.(thread_runq) ++ [s.(cpu_running) c] with
    | [] => False
    | u :: q => s'.(cpu_running) c = u /\ s'.(thread_runq) = q
    end.
Proof.
  intros Ht. unfold yield. do 2 erewrite bind_run by reflexivity. unfold schedule. do 2 erewrite bind_run by reflexivity.
  rewrite massert_run by (cbn; now rewrite upd_eq). set (t := s.(cpu_running) c) in *.
  set (s0 := set_td t _ s). unfold sched_switch, sched_runnable. do 2 erewrite bind_run by reflexivity.
  change (cpu_running s0 c) with t. set (s1 := set_running c 0 s0).
  assert (Hp : sched_put_back t s1 = Ok (tt, set_runq (s.(thread_runq) ++ [t]) s1)).
  { unfold sched_put_back. destruct (Z.eqb_spec t 0); [congruence|]. cbn. now rewrite upd_eq. }
  unfold bind at 1. rewrite (bind_run _ _ _ _ _ Hp).
  unfold sched_pick. change (thread_runq (set_runq (thread_runq s ++ [t]) s1)) with (thread_runq s ++ [t]).
  destruct (thread_runq s ++ [t]) as [|u q] eqn:Eq; [now destruct (thread_runq s)|].
  cbn. eexists. split; [reflexivity|]. cbn. now rewrite upd_eq.
Qed.

Fixpoint yields (c : Z) (g : bool) (n : nat) : M kst unit :=
  match n with O => ret tt | S n' => yield NCPU c g ;;; yields c g n' end.

(** Yielding is fair: while the threads of one CPU only yield, the run queue
    rotates, so the thread at index [k] of the queue runs after [k + 1] yields,
    and everyone behind the running thread has run before it runs again. *)
Theorem yield_round_robin c g : forall q1 q2 s, s.(cpu_running) c <> 0 -> (forall t, t ∈ s.(thread_runq) -> t <> 0) ->
  s.(thread_runq) ++ [s.(cpu_running) c] = q1 ++ q2 -> q1 <> [] ->
  exists s', yields c g (length q1) s = Ok (tt, s') /\
    Some (s'.(cpu_running) c) = last q1 /\ s'.(thread_runq) ++ [s'.(cpu_running) c] = q2 ++ q1.
Proof.
  induction q1 as [|u q1 IH]; intros q2 s Ht Hq E Hne; [congruence|].
  destruct (yield_rotates c g s Ht) as (s1 & E1 & H1). rewrite E in H1. cbn [app] in H1. destruct H1 as [Hr Hq1].
  cbn [yields length]. rewrite (bind_run _ _ _ _ _ E1).
  assert (Hall : forall t, t ∈ u :: q1 ++ q2 -> t <> 0).
  { intros t. change (u :: q1 ++ q2) with ((u :: q1) ++ q2). rewrite <- E. intros [H| ->%list_elem_of_singleton]%elem_of_app; auto. }
  destruct q1 as [|v q1].
  - exists s1. split; [reflexivity|]. rewrite Hr, Hq1. auto.
  - destruct (IH (q2 ++ [u]) s1) as (s2 & E2 & L2 & Q2).
    + rewrite Hr. apply Hall. left.
    + intros t. rewrite Hq1. intros H. apply Hall. now right.
    + rewrite Hq1, Hr. now rewrite app_assoc.
    + discriminate.
    + exists s2. split; [exact E2|]. split; [exact L2|]. rewrite Q2, <- app_assoc. reflexivity.
Qed.

End Runs.

(** ** Start of the system *)

(** [thread_init]: the last thread goes in first. *)
Fixpoint thread_init_loop (i : nat) (q : list Z) : list Z :=
  match i with O => q | S i' => thread_init_loop i' (Z.of_nat i :: q) end.
Definition thread_init (n : nat) (recurse : Z -> bool) : kst :=
  MkKst (fun _ => MkThread 0 UNUSED 0 None) [] [] (thread_init_loop n []) 1
    (fun _ => 0) (fun _ => false) [] [] false (fun _ => 0) (fun _ => 0) recurse.

Lemma thread_init_loop_spec n : forall q,
  thread_init_loop n q = map Z.of_nat (seq 1 n) ++ q.
Proof.
  induction n as [|n IH]; intros q; [reflexivity|]. cbn [thread_init_loop]. rewrite IH, seq_S, map_app, <- app_assoc. reflexivity.
Qed.
Lemma thread_init_inv NCPU n recurse : kinv NCPU (Z.of_nat n) [] (thread_init n recurse).
Proof.
  split; [|constructor; [cbn; intros; discriminate|cbn; lia|]; intros t m _; cbn; now destruct t].
  constructor; cbn; try (intros; discriminate); try congruence.
  - rewrite thread_init_loop_spec, app_nil_r. split.
    + apply NoDup_fmap_2; [exact _|]. apply NoDup_ListNoDup, seq_NoDup.
    + intros t. rewrite list_elem_of_In, in_map_iff. setoid_rewrite in_seq. unfold valid. split.
      * intros (i & <- & Hi). split; [lia|]. split; [apply not_elem_of_nil|reflexivity].
      * intros (Hv & _ & _). exists (Z.to_nat t). lia.
  - split; [constructor|]. intros t. split; [intros H; now apply not_elem_of_nil in H|intros (_ & _ & H); discriminate].
  - split; [constructor|]. intros t. split; [intros H; now apply not_elem_of_nil in H|intros (_ & _ & H); discriminate].
Qed.

(** A thread id names the thread's slot. *)
Theorem tid_names_slot cnt index : 0 <= index < 65536 -> TID_TO_INDEX (TID_GENERATE cnt index) = index.
Proof.
  intros H. unfold TID_TO_INDEX, TID_GENERATE. rewrite Z.land_lor_distr_l. change 65535 with (Z.ones 16).
  rewrite !Z.land_ones, Z.shiftl_mul_pow2, Z_mod_mult, Z.lor_0_r by lia. apply Z.mod_small. lia.
Qed.
Lemma tid_names_slot_witness : TID_TO_INDEX (TID_GENERATE 7 41) = 41.
Proof. apply tid_names_slot. lia. Defined.

(** ** Concrete runs *)

(** Two CPUs and three threads; thread 1 sleeps on channel 99, threads 2 and 3
    run. *)
Definition run0 : kst := thread_init 3 (fun _ => false).
Definition a1 : kst := after td_alloc run0.
Definition a2 : kst := after td_alloc a1.
Definition a3 : kst := after td_alloc a2.
Definition a4 : kst := after (td_ready 1) a3.
Definition a5 : kst := after (td_ready 2) a4.
Definition a6 : kst := after (td_ready 3) a5.
Definition a7 : kst := after (sched_init 2 0 true) a6.
Definition a8 : kst := after (sched_init 2 1 true) a7.
Definition run1 : kst := after (sleep 2 0 99 true) a8.

Abbreviation reach3 := (kreach 2 3 run0).
Ltac step_from s := apply (kreach_step _ _ _ [] s []).
Ltac on_cpu_now := split; [lia|split; [vm_compute; discriminate|vm_compute; reflexivity]].
Lemma run1_reachable : reach3 [] run1.
Proof.
  step_from a8; [|apply (k_sleep _ _ _ 0 99 true); [on_cpu_now|vm_compute; reflexivity|apply after_ok; vm_compute; reflexivity]].
  step_from a7; [|apply (k_init _ _ _ 1 true); [lia|reflexivity|vm_compute; reflexivity|apply after_ok; vm_compute; reflexivity]].
  step_from a6; [|apply (k_init _ _ _ 0 true); [lia|reflexivity|vm_compute; reflexivity|apply after_ok; vm_compute; reflexivity]].
  step_from a5; [|apply (k_ready _ _ _ 3); [unfold valid; lia|vm_compute; reflexivity|apply after_ok; vm_compute; reflexivity]].
  step_from a4; [|apply (k_ready _ _ _ 2); [unfold valid; lia|vm_compute; reflexivity|apply after_ok; vm_compute; reflexivity]].
  step_from a3; [|apply (k_ready _ _ _ 1); [unfold valid; lia|vm_compute; reflexivity|apply after_ok; vm_compute; reflexivity]].
  step_from a2; [|apply (k_alloc _ _ _ 3); apply after_ok; vm_compute; reflexivity].
  step_from a1; [|apply (k_alloc _ _ _ 2); apply after_ok; vm_compute; reflexivity].
  step_from run0; [|apply (k_alloc _ _ _ 1); apply after_ok; vm_compute; reflexivity].
  apply kreach_refl.
Qed.

(** Both CPUs call [wakeup_td] on thread 1 and find it asleep; one of them
    takes it off the sleep queue. *)
Definition b1 : kst := after (wakeup_td_check 1) run1.
Definition b2 : kst := after (wakeup_td_check 1) b1.
Definition b3 : kst := after (wakeup_td_remove 1) b2.

(** [wakeup_td] does not look at the status again once it holds the queue: two
    calls on one sleeping thread end in the second removing it from a queue it
    has left. *)
Theorem wakeup_td_race : exists tr s td, reach3 tr s /\ td ∈ s.(wtd_checked) /\ on_cpu 2 s 1 /\ wakeup_td_remove td s = Err Undef.
Proof.
  exists [], b3, 1. split; [|split; [cbn; left|split; [on_cpu_now|reflexivity]]].
  step_from b2; [|apply (k_wtd_remove _ _ _ 0 1); [on_cpu_now|vm_compute; left|apply after_ok; vm_compute; reflexivity]].
  step_from b1; [|apply (k_wtd_check _ _ _ 1 1); [on_cpu_now|unfold valid; lia|apply after_ok; vm_compute; reflexivity]].
  step_from run1; [|apply (k_wtd_check _ _ _ 0 1); [on_cpu_now|unfold valid; lia|apply after_ok; vm_compute; reflexivity]].
  exact run1_reachable.
Qed.

Lemma thread_in_one_place_witness : NoDup (run1.(thread_freeq) ++ run1.(thread_runq) ++ run1.(wtd_removed) ++ run1.(thread_sleepq)) /\ 1 ∈ run1.(thread_sleepq).
Proof.
  destruct (thread_in_one_place 2 3 run0 [] run1 (thread_init_inv 2 3 _) run1_reachable) as [H1 H2].
  split; [exact H1|]. destruct (H2 1) as [H3 _]; [unfold valid; lia|]. exact H3.
Defined.
Lemma wakeup_wakes_witness : exists s', wakeup 99 run1 = Ok (tt, s') /\ s'.(thread_runq) = [1].
Proof.
  destruct (wakeup_wakes 2 3 run0 [] run1 99 (thread_init_inv 2 3 _) run1_reachable) as (s' & E & Hr & _).
  exists s'. split; [exact E|]. rewrite Hr. reflexivity.
Defined.
Lemma halts_when_done_witness : valid 3 2 /\ match (run0.(threads) 2).(td_status) with
  | SLEEPING | RUNNING => False | RUNNABLE => 2 ∈ run0.(wtd_removed) | _ => True end.
Proof.
  split; [unfold valid; lia|].
  apply (halts_when_done 1 3 run0 [] run0 0 true (after (sched_init 1 0 true) run0) (thread_init_inv 1 3 _)); try reflexivity.
  - apply kreach_refl.
  - lia.
  - unfold valid; lia.
Defined.
Lemma yield_round_robin_witness : exists s', yields 2 0 true 2 a7 = Ok (tt, s') /\ s'.(cpu_running) 0 = 3.
Proof.
  destruct (yield_round_robin 2 0 true [2; 3] [1] a7) as (s' & E & L & _); try discriminate.
  - intros t Ht. cbn in Ht. repeat (apply elem_of_cons in Ht as [->|Ht]; [lia|]). now apply not_elem_of_nil in Ht.
  - reflexivity.
  - exists s'. split; [exact E|]. cbn in L. congruence.
Defined.

(** Thread 2 on CPU 1 holds mutex 7, thread 3 on CPU 0 waits for it. *)
Definition d1 : kst := after (mtx_lock_sleep 2 1 7 true) run1.
Definition d2 : kst := after (mtx_lock_sleep 2 0 7 true) d1.
Definition d3 : kst := after (mtx_unlock_sleep 1 7) d2.
Lemma d1_reachable : reach3 [Acq 2 7] d1.
Proof.
  apply (kreach_step _ _ _ [] run1 [Acq 2 7]); [exact run1_reachable|].
  apply (k_lock _ _ run1 1 7 true true d1); [on_cpu_now|unfold unblocked; vm_compute; reflexivity|vm_compute; reflexivity|apply after_ok; vm_compute; reflexivity].
Qed.
Lemma d3_reachable : reach3 ([Acq 2 7] ++ [] ++ [Rel 2 7]) d3.
Proof.
  rewrite app_assoc. apply (kreach_step _ _ _ ([Acq 2 7] ++ []) d2 [Rel 2 7]).
  - apply (kreach_step _ _ _ [Acq 2 7] d1 []); [exact d1_reachable|].
    apply (k_lock _ _ d1 0 7 true false d2); [on_cpu_now|unfold unblocked; vm_compute; reflexivity|vm_compute; reflexivity|unfold d2; apply after_ok; vm_compute; reflexivity].
  - apply (k_unlock _ _ d2 1 7); [on_cpu_now|unfold unblocked; vm_compute; reflexivity|unfold d3; apply after_ok; vm_compute; reflexivity].
Qed.
Lemma sleep_mutex_exclusion_witness : 2 = 2 /\ d1.(mtx_owner) 7 = 2 /\ d1.(mtx_depth) 7 = balance 2 7 [Acq 2 7].
Proof.
  apply (sleep_mutex_exclusion 2 3 run0 [Acq 2 7] d1 2 2 7 (thread_init_inv 2 3 _) d1_reachable); try lia; reflexivity.
Defined.
Lemma sleep_mutex_no_lost_wakeup_witness : (d3.(threads) 3).(td_locking) = Some 7 /\ (d3.(threads) 3).(td_status) <> SLEEPING.
Proof.
  split; [reflexivity|].
  apply (sleep_mutex_no_lost_wakeup 2 3 run0 _ d3 3 7 (thread_init_inv 2 3 _) d3_reachable); [unfold valid; lia|vm_compute; reflexivity|vm_compute; reflexivity].
Defined.
