(* ===== verification/Dirent.v ===== *)
(** * The tree of directory entries

    [src/kern/fs/fat32/dirent.c], the table of file systems of
    [src/kern/fs/fs.c] and [file_close] of [src/kern/fs/fat32/file.c]: the
    pool of [Dirent]s, references, mounts, and path lookup.  A [Dirent *] or
    [FileSystem *] is an index, [0] for [NULL]; a name or a path is the list of
    its bytes without the terminator.  [holders] keeps the first [holder_cnt]
    entries of the array, whose other entries are zero.  [p] is the index of
    the running process ([get_proc_index], at least one); [mtx_dirent] and
    [mtx_fs] are held for the whole of each operation that takes them. *)

From S2P Require Import Prelude.
From Stdlib Require Import ZArith Lia Bool.
From stdpp Require Import base tactics numbers list.
Open Scope Z_scope.

Definition MAX_NAME_LEN : Z := 128.
Definition DIRENT_HOLDER_CNT : nat := 256%nat.
Definition MAX_FS_COUNT : nat := 16%nat.
Definition ATTR_DIRECTORY : Z := 16.
Definition ENOENT : Z := 2.
Definition ENOTDIR : Z := 20.
Definition ENAMETOOLONG : Z := 36.
Definition SLASH : Z := 47.
Definition DOT : list Z := [46].
Definition DOTDOT : list Z := [46; 46].

Record Dirent : Type := MkDirent {
  name : list Z;
  file_system : Z;
  first_clus : Z;
  head : Z;
  DIR_Attr : Z;              (* of raw_dirent *)
  is_rm : Z;
  child_list : list Z;
  parent_dirent : Z;
  mode : Z;
  refcnt : Z;                (* u16 *)
  holders : list (Z * Z)     (* proc_index, cnt (u16) *)
}.
Record FileSystem : Type := MkFs { valid : Z; root : Z; image : Z; mountPoint : Z }.
Record tree : Type := MkTree {
  dents : Z -> Dirent;
  fss : Z -> FileSystem;
  dirent_free_list : list Z;
  used_dirents : Z;
  fatFs : Z
}.

Definition IS_DIRECTORY (d : Dirent) : bool := negb (Z.land d.(DIR_Attr) ATTR_DIRECTORY =? 0).
Definition zero_dirent : Dirent := MkDirent [] 0 0 0 0 0 [] 0 0 0 [].
Definition with_mode (m : Z) (d : Dirent) : Dirent :=
  MkDirent d.(name) d.(file_system) d.(first_clus) d.(head) d.(DIR_Attr) d.(is_rm) d.(child_list) d.(parent_dirent) m d.(refcnt) d.(holders).
Definition with_refs (r : Z) (h : list (Z * Z)) (d : Dirent) : Dirent :=
  MkDirent d.(name) d.(file_system) d.(first_clus) d.(head) d.(DIR_Attr) d.(is_rm) d.(child_list) d.(parent_dirent) d.(mode) r h.

Definition set_dent (i : Z) (d : Dirent) (s : tree) : tree :=
  MkTree (upd s.(dents) i d) s.(fss) s.(dirent_free_list) s.(used_dirents) s.(fatFs).
Definition set_free (l : list Z) (n : Z) (s : tree) : tree := MkTree s.(dents) s.(fss) l n s.(fatFs).
Definition set_fs (i : Z) (f : FileSystem) (s : tree) : tree :=
  MkTree s.(dents) (upd s.(fss) i f) s.(dirent_free_list) s.(used_dirents) s.(fatFs).

(** ** The pool *)

Fixpoint dirent_init_loop (n : nat) (l : list Z) (i : Z) : list Z :=
  match n with O => l | S n' => dirent_init_loop n' (i :: l) (i + 1) end.
(** [dirents[i]] is pointer [i + 1]. *)
Definition dirent_init (max_dirent : nat) : M tree unit :=
  modify (fun s => set_free (dirent_init_loop max_dirent s.(dirent_free_list) 1) s.(used_dirents) s).

Definition dirent_alloc : M tree Z := fun s =>
  match s.(dirent_free_list) with
  | [] => Err Panic
  | d :: l => Ok (d, set_dent d (with_mode 511 zero_dirent) (set_free l (wrap64 (s.(used_dirents) + 1)) s))
  end.
Definition dirent_dealloc (d : Z) : M tree unit :=
  modify (fun s => set_free (d :: s.(dirent_free_list)) (wrap64 (s.(used_dirents) - 1)) (set_dent d zero_dirent s)).

(** ** References *)

Fixpoint hold (p : Z) (room : nat) (h : list (Z * Z)) : option (list (Z * Z)) :=
  match h, room with
  | _, O => None
  | [], S _ => Some [(p, 1)]
  | (q, c) :: h', S room' =>
      if q =? p then Some ((q, wrap16 (c + 1)) :: h') else option_map (cons (q, c)) (hold p room' h')
  end.
Definition dget (p d : Z) : M tree unit := fun s =>
  let x := s.(dents) d in
  match hold p DIRENT_HOLDER_CNT x.(holders) with
  | None => Err Undef            (* looks at an entry behind the array *)
  | Some h => Ok (tt, set_dent d (with_refs (wrap16 (x.(refcnt) + 1)) h x) s)
  end.

(** The entry of [p] and its position. *)
Fixpoint find_holder (p : Z) (h : list (Z * Z)) : option (nat * Z) :=
  match h with
  | [] => None
  | (q, c) :: h' => if q =? p then Some (O, c) else option_map (fun '(i, c) => (S i, c)) (find_holder p h')
  end.
Definition unhold (p : Z) (h : list (Z * Z)) : list (Z * Z) :=
  match find_holder p h with
  | None => h
  | Some (i, c) =>
      if wrap16 (c - 1) =? 0 then removelast (<[i := List.last h (0, 0)]> h) else <[i := (p, wrap16 (c - 1))]> h
  end.
Definition dput (p d : Z) : M tree unit :=
  modify (fun s => let x := s.(dents) d in set_dent d (with_refs (wrap16 (x.(refcnt) - 1)) (unhold p x.(holders)) x) s).

(** ** File systems and mounts *)

Definition find_fs_of_dir (s : tree) (f dir : Z) : bool :=
  if (s.(fss) f).(mountPoint) =? 0 then false
  else (s.(dents) (s.(fss) f).(mountPoint)).(first_clus) =? (s.(dents) dir).(first_clus).
(** [fs[i]] is pointer [i + 1]. *)
Fixpoint find_fs_from (findfs : Z -> bool) (n : nat) (i : Z) : Z :=
  match n with O => 0 | S n' => if findfs i then i else find_fs_from findfs n' (i + 1) end.
Definition find_fs_by (findfs : Z -> bool) : Z := find_fs_from findfs MAX_FS_COUNT 1.

Definition allocFs : M tree Z := fun s =>
  let f := find_fs_by (fun i => (s.(fss) i).(valid) =? 0) in
  if f =? 0 then Err Panic else Ok (f, set_fs f (MkFs 1 0 0 0) s).
Definition deAllocFs (f : Z) : M tree unit := modify (set_fs f (MkFs 0 0 0 0)).

Definition try_enter_mount_dir (dir : Z) : M tree Z := fun s =>
  if negb ((s.(dents) dir).(head) =? 0) then
    let f := find_fs_by (fun i => find_fs_of_dir s i dir) in
    if f =? 0 then Err Panic else Ok ((s.(fss) f).(root), s)
  else Ok (dir, s).

Fixpoint get_parent_dirent (fuel : nat) (d : Z) : M tree Z := fun s =>
  match fuel with
  | O => Err NoFuel
  | S fuel' =>
      let fs := s.(fss) (s.(dents) d).(file_system) in
      if d =? fs.(root) then
        if negb (fs.(mountPoint) =? 0) then get_parent_dirent fuel' fs.(mountPoint) s else Ok (d, s)
      else Ok ((s.(dents) d).(parent_dirent), s)
  end.

(** The next entry of [dget_path] and [dput_path], [0] at the end. *)
Definition path_next (fuel : nat) (file : Z) : M tree Z :=
  let* fs := gets (fun s => s.(fss) (s.(dents) file).(file_system)) in
  if file =? fs.(root) then ret fs.(mountPoint) else get_parent_dirent fuel file.
Fixpoint dget_path_loop (fuel : nat) (p file : Z) : M tree unit :=
  match fuel with
  | O => fail NoFuel
  | S fuel' =>
      dget p file ;;;
      let* up := path_next MAX_FS_COUNT file in
      if up =? 0 then ret tt else dget_path_loop fuel' p up
  end.
Definition dget_path (fuel : nat) (p file : Z) : M tree unit :=
  massert (negb (file =? 0)) ;;; dget_path_loop fuel p file.
Fixpoint dput_path (fuel : nat) (p file : Z) : M tree unit :=
  match fuel with
  | O => fail NoFuel
  | S fuel' =>
      dput p file ;;;
      let* up := path_next MAX_FS_COUNT file in
      if up =? 0 then ret tt else dput_path fuel' p up
  end.

(** ** Lookup *)

(** [strncmp(a, b, n) == 0] *)
Definition str_eq (n : Z) (a b : list Z) : bool := bool_decide (take (Z.to_nat n) a = take (Z.to_nat n) b).

Fixpoint find_child (s : tree) (n : list Z) (l : list Z) : option Z :=
  match l with
  | [] => None
  | c :: l' => if str_eq MAX_NAME_LEN n (s.(dents) c).(name) then Some c else find_child s n l'
  end.
Definition dir_lookup (p dir : Z) (n : list Z) : M tree (option Z) :=
  let* r := gets (fun s => find_child s n (s.(dents) dir).(child_list)) in
  match r with
  | Some child => dget p child ;;; ret (Some child)
  | None => ret None
  end.

Fixpoint skip_slash (path : list Z) : list Z :=
  match path with
  | c :: path' => if c =? SLASH then skip_slash path' else path
  | [] => []
  end.
(** A file name off the front of the path, and what is left. *)
Fixpoint read_name (path : list Z) : list Z * list Z :=
  match path with
  | [] => ([], [])
  | c :: path' => if c =? SLASH then ([], path) else let '(n, r) := read_name path' in (c :: n, r)
  end.

(** The two steps of [walk_path] at a mount point: into the mounted file system,
    taking a reference to its root, and up for "..", from [old_dir] to its
    parent [dir], giving back the references of what is left. *)
Definition enter_mount (p file : Z) : M tree Z :=
  let* tmp := try_enter_mount_dir file in
  (if negb (tmp =? file) then dget p tmp else ret tt) ;;;
  ret tmp.
Definition go_up (p old_dir dir : Z) : M tree unit :=
  (if negb (dir =? old_dir) then dput p old_dir else ret tt) ;;;
  let* fs := gets (fun s => s.(fss) (s.(dents) old_dir).(file_system)) in
  if (old_dir =? fs.(root)) && negb (fs.(mountPoint) =? 0) then dput p fs.(mountPoint) else ret tt.

(** What [walk_path] returns: its value, [*pdir], [*pfile] and [lastelem], as
    far as it sets them. *)
Record walked : Type := MkWalked {
  w_ret : Z;
  w_dir : option Z;
  w_file : Z;
  w_last : option (list Z)
}.

Section Walk.
Variable depth : nat.     (* turns allowed to the loops that climb the tree *)

Fixpoint walk_loop (fuel : nat) (p : Z) (path : list Z) (dir file : Z) : M tree walked :=
  match path with
  | [] =>
      let* tmp := enter_mount p file in
      ret (MkWalked 0 (Some dir) tmp None)
  | _ :: _ =>
      match fuel with
      | O => fail NoFuel
      | S fuel' =>
          let '(nm, rest) := read_name path in
          if MAX_NAME_LEN <=? Z.of_nat (length nm) then ret (MkWalked (- ENAMETOOLONG) None 0 None)
          else
            let path := skip_slash rest in
            let* d := gets (fun s => s.(dents) file) in
            if negb (IS_DIRECTORY d) then
              dput_path depth p file ;;; ret (MkWalked (- ENOTDIR) None 0 None)
            else
              let* dir := enter_mount p file in
              if str_eq 2 nm DOT then walk_loop fuel' p path dir file
              else if str_eq 3 nm DOTDOT then
                let* up := get_parent_dirent MAX_FS_COUNT dir in
                let* file := get_parent_dirent MAX_FS_COUNT file in
                go_up p dir up ;;;
                walk_loop fuel' p path up file
              else
                let* r := dir_lookup p dir nm in
                match r with
                | Some file => walk_loop fuel' p path dir file
                | None =>
                    dput_path depth p dir ;;;
                    ret (if bool_decide (path = []) then MkWalked (- ENOENT) (Some dir) 0 (Some nm)
                         else MkWalked (- ENOENT) None 0 None)
                end
      end
  end.
Definition walk_path (fs p : Z) (path : list Z) (baseDir : Z) : M tree walked :=
  let* file :=
    gets (fun s => if match path with c :: _ => c =? SLASH | [] => false end || (baseDir =? 0) then (s.(fss) fs).(root) else baseDir) in
  dget_path depth p file ;;;
  walk_loop (length path) p (skip_slash path) 0 file.
End Walk.

(** [dirent_get_path]: [path] is the list built so far. *)
Fixpoint dirent_get_path_loop (fuel : nat) (tmp : Z) (path : list Z) : M tree (list Z) :=
  fun s => match fuel with
  | O => Err NoFuel
  | S fuel' =>
      if tmp =? (s.(fss) s.(fatFs)).(root) then Ok (path, s)
      else
        let fs := s.(fss) (s.(dents) tmp).(file_system) in
        let tmp := if tmp =? fs.(root) then fs.(mountPoint) else tmp in
        (let* up := get_parent_dirent MAX_FS_COUNT tmp in
         dirent_get_path_loop fuel' up (SLASH :: (s.(dents) tmp).(name) ++ path)) s
  end.
Definition dirent_get_path (fuel : nat) (d : Z) : M tree (list Z) := fun s =>
  if (s.(dents) d).(refcnt) =? 0 then Err Panic
  else if d =? (s.(fss) s.(fatFs)).(root) then Ok ([SLASH], s)
  else dirent_get_path_loop fuel d [] s.

(** ** References taken and given back *)

Definition plus_hold (p : Z) (h : list (Z * Z)) : list (Z * Z) :=
  match hold p DIRENT_HOLDER_CNT h with Some h' => h' | None => h end.
(** An entry with one more reference by [p]. *)
Definition bump (p : Z) (x : Dirent) : Dirent := with_refs (wrap16 (x.(refcnt) + 1)) (plus_hold p x.(holders)) x.
(** [s'] is [s] with one more reference by [p] to each entry of [l]. *)
Definition bumped (p : Z) (l : list Z) (s s' : tree) : Prop :=
  (forall d, s'.(dents) d = if bool_decide (d ∈ l) then bump p (s.(dents) d) else s.(dents) d) /\
  s'.(fss) = s.(fss) /\ s'.(dirent_free_list) = s.(dirent_free_list) /\ s'.(used_dirents) = s.(used_dirents) /\ s'.(fatFs) = s.(fatFs).
(** Counts are in range and a holder can still be added. *)
Definition has_room (p : Z) (x : Dirent) : Prop :=
  (length x.(holders) < DIRENT_HOLDER_CNT)%nat /\ 0 <= x.(refcnt) < 65536 /\
  forall i c, find_holder p x.(holders) = Some (i, c) -> 0 < c < 65535.

Lemma find_holder_lookup p h i c : find_holder p h = Some (i, c) -> h !! i = Some (p, c).
Proof.
  revert i c. induction h as [|[q k] h IH]; intros i c; cbn; [discriminate|].
  destruct (Z.eqb_spec q p) as [->|]; [now intros [= <- <-]|].
  destruct (find_holder p h) as [[j k']|]; cbn; [|discriminate]. intros [= <- <-]. cbn. now apply IH.
Qed.
Lemma hold_present p h i c : forall n, find_holder p h = Some (i, c) -> (length h <= n)%nat ->
  hold p n h = Some (<[i := (p, wrap16 (c + 1))]> h).
Proof.
  revert i c. induction h as [|[q k] h IH]; intros i c n; cbn; [discriminate|].
  destruct n as [|n]; [lia|]. cbn. destruct (Z.eqb_spec q p) as [->|]; [now intros [= <- <-]|].
  destruct (find_holder p h) as [[j k']|]; cbn; [|discriminate]. intros [= <- <-] Hn. rewrite (IH j k' n) by (auto; lia). reflexivity.
Qed.
Lemma hold_absent p h : forall n, find_holder p h = None -> (length h < n)%nat -> hold p n h = Some (h ++ [(p, 1)]).
Proof.
  induction h as [|[q k] h IH]; intros n; cbn; intros Hf Hn; (destruct n as [|n]; [lia|]); cbn; [reflexivity|].
  destruct (Z.eqb_spec q p) as [->|]; [discriminate|].
  destruct (find_holder p h) as [[j k']|] eqn:E; cbn in Hf; [discriminate|]. rewrite (IH n) by (auto; lia). reflexivity.
Qed.
Lemma find_holder_insert p h i c c' : find_holder p h = Some (i, c) -> find_holder p (<[i := (p, c')]> h) = Some (i, c').
Proof.
  revert i c. induction h as [|[q k] h IH]; intros i c; cbn; [discriminate|].
  destruct (Z.eqb_spec q p) as [->|Hne]; [intros [= <- <-]; cbn; now rewrite Z.eqb_refl|].
  destruct (find_holder p h) as [[j k']|]; cbn; [|discriminate]. intros [= <- <-].
  change (<[S j:=(p, c')]> ((q, k) :: h)) with ((q, k) :: <[j:=(p, c')]> h). cbn [find_holder].
  rewrite (proj2 (Z.eqb_neq q p) Hne). now rewrite (IH j k' eq_refl).
Qed.
Lemma find_holder_app p h c : find_holder p h = None -> find_holder p (h ++ [(p, c)]) = Some (length h, c).
Proof.
  induction h as [|[q k] h IH]; cbn; [now rewrite Z.eqb_refl|].
  destruct (q =? p); [discriminate|]. destruct (find_holder p h) as [[? ?]|] eqn:E; cbn; [discriminate|]. intros _. now rewrite IH.
Qed.

(** Giving back what was taken restores the list of holders. *)
Lemma unhold_plus p x : has_room p x -> hold p DIRENT_HOLDER_CNT x.(holders) = Some (plus_hold p x.(holders)) /\
  unhold p (plus_hold p x.(holders)) = x.(holders).
Proof.
  intros (Hl & _ & Hc). unfold plus_hold. destruct (find_holder p (holders x)) as [[i c]|] eqn:E.
  - specialize (Hc i c eq_refl). rewrite (hold_present p _ i c) by (auto; lia). split; [reflexivity|].
    unfold unhold. rewrite (find_holder_insert p _ i c) by auto. rewrite (wrap16_small (c + 1)) by lia.
    replace (wrap16 (c + 1 - 1)) with c by (rewrite wrap16_small; lia). destruct (Z.eqb_spec c 0); [lia|].
    rewrite list_insert_insert_eq. apply list_insert_id. now apply find_holder_lookup.
  - rewrite (hold_absent p) by auto. split; [reflexivity|]. unfold unhold. rewrite find_holder_app by auto.
    change (wrap16 (1 - 1) =? 0) with true. cbn match.
    rewrite last_last. rewrite list_insert_id; [now rewrite removelast_last|].
    rewrite lookup_app_r, Nat.sub_diag by lia. reflexivity.
Qed.

Lemma bumped_nil p s : bumped p [] s s.
Proof. split; [intros d; now rewrite bool_decide_eq_false_2 by apply not_elem_of_nil|auto]. Qed.
Lemma dget_bumped p d l s s1 : bumped p l s s1 -> (d ∉ l) -> has_room p (s.(dents) d) ->
  exists s2, dget p d s1 = Ok (tt, s2) /\ bumped p (d :: l) s s2.
Proof.
  intros (Hd & Hf & Hr) Hn Hroom. unfold dget. rewrite (Hd d), bool_decide_eq_false_2 by auto.
  destruct (unhold_plus p _ Hroom) as [-> _]. eexists. split; [reflexivity|]. split; [|auto].
  intros u. cbn. destruct (decide (u = d)) as [->|Hne].
  - rewrite upd_eq, bool_decide_eq_true_2 by left. reflexivity.
  - rewrite upd_ne, Hd by auto. rewrite (bool_decide_ext (u ∈ d :: l) (u ∈ l)); [reflexivity|]. rewrite elem_of_cons. tauto.
Qed.
Lemma bump_back p x : has_room p x -> with_refs (wrap16 ((bump p x).(refcnt) - 1)) (unhold p (bump p x).(holders)) (bump p x) = x.
Proof.
  intros Hroom. pose proof (proj2 (unhold_plus p x Hroom)) as E. destruct Hroom as (_ & Hr & _).
  unfold bump. cbn. rewrite E. replace (wrap16 (wrap16 (refcnt x + 1) - 1)) with (refcnt x); [now destruct x|].
  unfold wrap16. rewrite Zminus_mod_idemp_l. rewrite Z.mod_small; lia.
Qed.
Lemma dput_bumped p d l s s1 : bumped p (d :: l) s s1 -> (d ∉ l) -> has_room p (s.(dents) d) ->
  exists s2, dput p d s1 = Ok (tt, s2) /\ bumped p l s s2.
Proof.
  intros (Hd & Hf & Hr) Hn Hroom. unfold dput, modify. eexists. split; [reflexivity|]. split; [|auto].
  intros u. cbn. destruct (decide (u = d)) as [->|Hne].
  - rewrite upd_eq, (Hd d), bool_decide_eq_true_2 by left. rewrite bool_decide_eq_false_2 by auto. now apply bump_back.
  - rewrite upd_ne, Hd by auto. rewrite (bool_decide_ext (u ∈ d :: l) (u ∈ l)); [reflexivity|]. rewrite elem_of_cons. tauto.
Qed.

(** ** Where an entry is in the tree *)

Definition fs_of (s : tree) (d : Z) : FileSystem := s.(fss) (s.(dents) d).(file_system).
(** The entries from [d] up to the root of the root file system: over mount
    points where [d] is the root of a mounted one. *)
Inductive upto (s : tree) : Z -> list Z -> Prop :=
| up_top d : d <> 0 -> d = (fs_of s d).(root) -> (fs_of s d).(mountPoint) = 0 -> upto s d [d]
| up_mount d l : d <> 0 -> d = (fs_of s d).(root) -> (fs_of s d).(mountPoint) <> 0 ->
    upto s (fs_of s d).(mountPoint) l -> upto s d (d :: l)
| up_child d l : d <> 0 -> d <> (fs_of s d).(root) -> upto s (s.(dents) d).(parent_dirent) l -> upto s d (d :: l).

Lemma upto_fun s d l1 : upto s d l1 -> forall l2, upto s d l2 -> l1 = l2.
Proof.
  induction 1 as [d|d l ? ? ? _ IH|d l ? ? _ IH]; intros l2 H2; inversion H2; subst; try congruence; f_equal; auto.
Qed.
Lemma upto_suffix s d l : upto s d l -> forall u, u ∈ l -> exists l', upto s u l' /\ (length l' <= length l)%nat.
Proof.
  induction 1 as [d H1 H2 H3|d l H1 H2 H3 U IH|d l H1 H2 U IH]; intros u Hu.
  - apply list_elem_of_singleton in Hu as ->. exists [d]. split; [now apply up_top|lia].
  - apply elem_of_cons in Hu as [->|Hu]; [exists (d :: l); split; [now apply up_mount|lia]|].
    destruct (IH u Hu) as (l' & ? & ?). exists l'. cbn. auto.
  - apply elem_of_cons in Hu as [->|Hu]; [exists (d :: l); split; [now apply up_child|lia]|].
    destruct (IH u Hu) as (l' & ? & ?). exists l'. cbn. auto.
Qed.
Lemma upto_nodup s d l : upto s d l -> NoDup l.
Proof.
  intros U. induction U as [d|d l H1 H2 H3 U IH|d l H1 H2 U IH]; [apply NoDup_singleton|..]; constructor; auto; intros Hd;
    destruct (upto_suffix _ _ _ U d Hd) as (l' & U' & Hl).
  - assert (U2 : upto s d (d :: l)) by now apply up_mount. rewrite (upto_fun _ _ _ U' _ U2) in Hl. cbn in Hl. lia.
  - assert (U2 : upto s d (d :: l)) by now apply up_child. rewrite (upto_fun _ _ _ U' _ U2) in Hl. cbn in Hl. lia.
Qed.
Lemma upto_head s d l : upto s d l -> d <> 0 /\ exists l', l = d :: l'.
Proof. intros U. inversion U; subst; eauto. Qed.

(** The entry [try_enter_mount_dir] and [get_parent_dirent] mean. *)
Definition enter (s : tree) (d : Z) : Z :=
  if (s.(dents) d).(head) =? 0 then d else (s.(fss) (find_fs_by (fun i => find_fs_of_dir s i d))).(root).
Definition parent_of (s : tree) (d : Z) : Z :=
  if d =? (fs_of s d).(root) then
    if (fs_of s d).(mountPoint) =? 0 then d else (s.(dents) (fs_of s d).(mountPoint)).(parent_dirent)
  else (s.(dents) d).(parent_dirent).

Record tree_ok (s : tree) : Prop := {
  tk_child : forall d c, c ∈ (s.(dents) d).(child_list) ->
    c <> 0 /\ (s.(dents) c).(parent_dirent) = d /\ c <> (fs_of s c).(root);
  tk_mount : forall d, (s.(dents) d).(head) <> 0 ->
    let f := find_fs_by (fun i => find_fs_of_dir s i d) in
    f <> 0 /\ (s.(fss) f).(mountPoint) = d /\ (s.(fss) f).(root) <> 0 /\ (s.(dents) (s.(fss) f).(root)).(file_system) = f;
  tk_point : forall f, (s.(fss) f).(mountPoint) <> 0 -> (s.(fss) f).(mountPoint) <> (fs_of s (s.(fss) f).(mountPoint)).(root)
}.

(** References do not move anything. *)
Lemma bumped_static p l s s1 d : bumped p l s s1 ->
  (s1.(dents) d).(name) = (s.(dents) d).(name) /\ (s1.(dents) d).(file_system) = (s.(dents) d).(file_system) /\
  (s1.(dents) d).(first_clus) = (s.(dents) d).(first_clus) /\ (s1.(dents) d).(head) = (s.(dents) d).(head) /\
  (s1.(dents) d).(DIR_Attr) = (s.(dents) d).(DIR_Attr) /\ (s1.(dents) d).(child_list) = (s.(dents) d).(child_list) /\
  (s1.(dents) d).(parent_dirent) = (s.(dents) d).(parent_dirent).
Proof. intros [Hd _]. rewrite (Hd d). destruct (bool_decide _); repeat split. Qed.
Ltac statics B d := destruct (bumped_static _ _ _ _ d B) as (?Sname & ?Sfs & ?Sclus & ?Shead & ?Sattr & ?Schild & ?Spar).
Lemma bumped_fs_of p l s s1 d : bumped p l s s1 -> fs_of s1 d = fs_of s d.
Proof. intros B. statics B d. unfold fs_of. destruct B as (_ & -> & _). congruence. Qed.

Lemma find_fs_from_ext f g n i : (forall j, f j = g j) -> find_fs_from f n i = find_fs_from g n i.
Proof. intros E. revert i. induction n as [|n IH]; intros i; cbn; [reflexivity|]. now rewrite E, IH. Qed.
Lemma try_enter_run p l s s1 d : tree_ok s -> bumped p l s s1 -> try_enter_mount_dir d s1 = Ok (enter s d, s1).
Proof.
  intros T B. unfold try_enter_mount_dir, enter. statics B d. rewrite Shead.
  destruct (Z.eqb_spec (head (dents s d)) 0) as [E|E]; cbn [negb]; [reflexivity|].
  destruct (tk_mount _ T d E) as (Hf & _). unfold find_fs_by in *.
  rewrite (find_fs_from_ext (fun i => find_fs_of_dir s1 i d) (fun i => find_fs_of_dir s i d)).
  - destruct (Z.eqb_spec (find_fs_from (λ i : Z, find_fs_of_dir s i d) MAX_FS_COUNT 1) 0); [contradiction|]. destruct B as (_ & -> & _). reflexivity.
  - intros j. unfold find_fs_of_dir. rewrite Sclus. pose proof (bumped_static p l s s1 (s.(fss) j).(mountPoint) B) as (_ & _ & Hc & _).
    destruct B as (_ & -> & _). now rewrite Hc.
Qed.
Lemma get_parent_run p l s s1 d : tree_ok s -> bumped p l s s1 -> get_parent_dirent MAX_FS_COUNT d s1 = Ok (parent_of s d, s1).
Proof.
  intros T B. unfold MAX_FS_COUNT. cbn [get_parent_dirent]. fold (fs_of s1 d). rewrite (bumped_fs_of _ _ _ _ _ B). unfold parent_of.
  statics B d. rewrite Spar. destruct (Z.eqb_spec d (root (fs_of s d))); [|reflexivity].
  destruct (Z.eqb_spec (mountPoint (fs_of s d)) 0) as [|Hm]; cbn [negb]; [reflexivity|].
  set (m := mountPoint (fs_of s d)) in *. fold (fs_of s1 m). rewrite (bumped_fs_of _ _ _ _ m B).
  pose proof (tk_point _ T _ Hm) as Hp. fold (fs_of s d) in Hp. fold m in Hp.
  destruct (Z.eqb_spec m (root (fs_of s m))); [contradiction|]. statics B m. now rewrite Spar0.
Qed.

(** ** Climbing *)

Lemma path_next_run p l s s1 d : tree_ok s -> bumped p l s s1 ->
  path_next MAX_FS_COUNT d s1 = Ok (if d =? (fs_of s d).(root) then (fs_of s d).(mountPoint) else (s.(dents) d).(parent_dirent), s1).
Proof.
  intros T B. unfold path_next. erewrite bind_run by reflexivity. fold (fs_of s1 d). rewrite (bumped_fs_of _ _ _ _ _ B).
  destruct (d =? root (fs_of s d)) eqn:E; [reflexivity|]. rewrite (get_parent_run p l s s1 d T B). unfold parent_of. now rewrite E.
Qed.
Section Climb.
Context (p : Z) (s : tree) (T : tree_ok s) (Room : forall d, has_room p (s.(dents) d)).

Lemma dget_path_run : forall d l, upto s d l -> forall fuel k s1, bumped p k s s1 -> (forall u, u ∈ l -> u ∉ k) -> (length l <= fuel)%nat ->
  exists s2, dget_path_loop fuel p d s1 = Ok (tt, s2) /\ bumped p (rev l ++ k) s s2.
Proof.
  induction 1 as [d H1 H2 H3|d l H1 H2 H3 U IH|d l H1 H2 U IH]; intros fuel k s1 B Hk Hf; (destruct fuel as [|fuel]; [cbn in Hf; lia|]);
    cbn [dget_path_loop]; (destruct (dget_bumped p d k s s1 B) as (s2 & E2 & B2); [apply Hk; left|apply Room|]);
    rewrite (bind_run _ _ _ _ _ E2), (bind_run _ _ _ _ _ (path_next_run _ _ _ _ d T B2)).
  - rewrite <- H2, Z.eqb_refl, H3. exists s2. split; [reflexivity|exact B2].
  - rewrite <- H2, Z.eqb_refl. destruct (Z.eqb_spec (mountPoint (fs_of s d)) 0); [contradiction|].
    pose proof (upto_nodup _ _ _ (up_mount s d l H1 H2 H3 U)) as [Hd _]%NoDup_cons.
    destruct (IH fuel (d :: k) s2 B2) as (s3 & E3 & B3); [|cbn in Hf; lia|].
    + intros u Hu. apply not_elem_of_cons. split; [intros ->; contradiction|]. apply Hk. now right.
    + exists s3. split; [exact E3|]. cbn [rev]. now rewrite <- app_assoc.
  - destruct (Z.eqb_spec d (root (fs_of s d))); [contradiction|].
    destruct (upto_head _ _ _ U) as [Hp _]. destruct (Z.eqb_spec (parent_dirent (dents s d)) 0); [contradiction|].
    pose proof (upto_nodup _ _ _ (up_child s d l H1 H2 U)) as [Hd _]%NoDup_cons.
    destruct (IH fuel (d :: k) s2 B2) as (s3 & E3 & B3); [|cbn in Hf; lia|].
    + intros u Hu. apply not_elem_of_cons. split; [intros ->; contradiction|]. apply Hk. now right.
    + exists s3. split; [exact E3|]. cbn [rev]. now rewrite <- app_assoc.
Qed.
Lemma dput_path_run : forall d l, upto s d l -> forall fuel s1, bumped p l s s1 -> (length l <= fuel)%nat ->
  exists s2, dput_path fuel p d s1 = Ok (tt, s2) /\ bumped p [] s s2.
Proof.
  induction 1 as [d H1 H2 H3|d l H1 H2 H3 U IH|d l H1 H2 U IH]; intros fuel s1 B Hf; (destruct fuel as [|fuel]; [cbn in Hf; lia|]);
    cbn [dput_path].
  - destruct (dput_bumped p d [] s s1 B) as (s2 & E2 & B2); [apply not_elem_of_nil|apply Room|].
    rewrite (bind_run _ _ _ _ _ E2), (bind_run _ _ _ _ _ (path_next_run _ _ _ _ d T B2)).
    rewrite <- H2, Z.eqb_refl, H3. exists s2. split; [reflexivity|exact B2].
  - pose proof (upto_nodup _ _ _ (up_mount s d l H1 H2 H3 U)) as [Hd _]%NoDup_cons.
    destruct (dput_bumped p d l s s1 B) as (s2 & E2 & B2); [exact Hd|apply Room|].
    rewrite (bind_run _ _ _ _ _ E2), (bind_run _ _ _ _ _ (path_next_run _ _ _ _ d T B2)).
    rewrite <- H2, Z.eqb_refl. destruct (Z.eqb_spec (mountPoint (fs_of s d)) 0); [contradiction|].
    apply IH; [exact B2|cbn in Hf; lia].
  - pose proof (upto_nodup _ _ _ (up_child s d l H1 H2 U)) as [Hd _]%NoDup_cons.
    destruct (dput_bumped p d l s s1 B) as (s2 & E2 & B2); [exact Hd|apply Room|].
    rewrite (bind_run _ _ _ _ _ E2), (bind_run _ _ _ _ _ (path_next_run _ _ _ _ d T B2)).
    destruct (Z.eqb_spec d (root (fs_of s d))); [contradiction|].
    destruct (upto_head _ _ _ U) as [Hp _]. destruct (Z.eqb_spec (parent_dirent (dents s d)) 0); [contradiction|].
    apply IH; [exact B2|cbn in Hf; lia].
Qed.
Lemma bumped_perm k k' s1 : k ≡ₚ k' -> bumped p k s s1 -> bumped p k' s s1.
Proof. intros Hp [Hd Hr]. split; [|exact Hr]. intros d. rewrite (Hd d). now rewrite (bool_decide_ext _ _ (elem_of_Permutation_proper d _ _ Hp)). Qed.
End Climb.

(** ** Path names *)

(** The reference: cut at every slash, drop the empty pieces. *)
Fixpoint split_slash (path : list Z) : list (list Z) :=
  match path with
  | [] => [[]]
  | c :: path' =>
      if c =? SLASH then [] :: split_slash path'
      else match split_slash path' with w :: ws => (c :: w) :: ws | [] => [[c]] end
  end.
Definition components (path : list Z) : list (list Z) := List.filter (fun w => negb (bool_decide (w = []))) (split_slash path).

Lemma components_skip path : components (skip_slash path) = components path.
Proof.
  induction path as [|c path IH]; [reflexivity|]. cbn [skip_slash]. destruct (Z.eqb_spec c SLASH) as [->|]; [|reflexivity].
  rewrite IH. reflexivity.
Qed.
Lemma skip_slash_head path : match skip_slash path with c :: _ => c <> SLASH | [] => True end.
Proof. induction path as [|c path IH]; cbn; [exact I|]. destruct (Z.eqb_spec c SLASH); auto. Qed.
Lemma skip_slash_length path : (length (skip_slash path) <= length path)%nat.
Proof. induction path as [|c path IH]; cbn; [lia|]. destruct (_ =? _); cbn; lia. Qed.
Lemma split_read path : let '(n, r) := read_name path in
  match r with
  | [] => split_slash path = [n]
  | b :: r' => b = SLASH /\ split_slash path = n :: split_slash r'
  end /\ (length n + length r = length path)%nat.
Proof.
  induction path as [|c path IH]; cbn [read_name split_slash]; [auto|].
  destruct (Z.eqb_spec c SLASH) as [->|Hc]; [auto|]. destruct (read_name path) as [n r]. destruct IH as [IH IHl].
  split; [|cbn; lia]. destruct r; [now rewrite IH|]. destruct IH as [-> ->]. auto.
Qed.
(** What one turn of the loop takes off the path. *)
Lemma components_read c path : c <> SLASH ->
  let '(n, r) := read_name (c :: path) in
  components (c :: path) = n :: components (skip_slash r) /\ (length (skip_slash r) <= length path)%nat.
Proof.
  intros Hc. pose proof (split_read (c :: path)) as H. cbn [read_name] in *. rewrite (proj2 (Z.eqb_neq _ _) Hc) in *.
  destruct (read_name path) as [n r]. destruct H as [H Hl]. rewrite components_skip. pose proof (skip_slash_length r). cbn in Hl.
  split; [|lia]. unfold components. destruct r as [|b r]; [now rewrite H|]. destruct H as [-> ->]. reflexivity.
Qed.

(** ** What a path means *)

Inductive outcome : Type :=
| Found (d : Z)
| NotDir
| Missing (dir : Z) (n : list Z) (rest : list (list Z)).
Fixpoint resolve (s : tree) (names : list (list Z)) (cur : Z) : outcome :=
  match names with
  | [] => Found (enter s cur)
  | n :: names' =>
      if negb (IS_DIRECTORY (s.(dents) cur)) then NotDir
      else if bool_decide (n = DOT) then resolve s names' cur
      else if bool_decide (n = DOTDOT) then resolve s names' (parent_of s (enter s cur))
      else match find_child s n (s.(dents) (enter s cur)).(child_list) with
           | Some c => resolve s names' c
           | None => Missing (enter s cur) n names'
           end
  end.

Lemma str_eq_dots n : str_eq 2 n DOT = bool_decide (n = DOT) /\ str_eq 3 n DOTDOT = bool_decide (n = DOTDOT).
Proof.
  unfold str_eq, DOT, DOTDOT. change (Z.to_nat 2) with 2%nat. change (Z.to_nat 3) with 3%nat.
  split; apply bool_decide_ext; destruct n as [|a [|b [|c n]]]; cbn; split; intros H; try congruence; try discriminate.
Qed.

Section WalkProof.
Context (depth : nat) (p : Z) (s : tree) (T : tree_ok s) (Room : forall d, has_room p (s.(dents) d)).
Context (Deep : forall d l, upto s d l -> (length l <= depth)%nat).

Lemma enter_upto d l : upto s d l -> (s.(dents) d).(head) <> 0 ->
  upto s (enter s d) (enter s d :: l) /\ enter s d <> d /\ (fs_of s (enter s d)).(mountPoint) = d /\
  enter s d = (fs_of s (enter s d)).(root) /\ d <> (fs_of s d).(root).
Proof.
  intros U Hh. unfold enter. rewrite (proj2 (Z.eqb_neq _ _) Hh).
  destruct (tk_mount _ T d Hh) as (Hf & Hm & Hr & Hfs). set (f := find_fs_by _) in *.
  assert (Efs : fs_of s (root (fss s f)) = fss s f) by (unfold fs_of; now rewrite Hfs).
  destruct (upto_head _ _ _ U) as [Hd _].
  assert (Hnr : d <> (fs_of s d).(root)) by (rewrite <- Hm; apply (tk_point _ T); congruence).
  split; [|split; [|rewrite Efs; auto]].
  - apply up_mount; rewrite ?Efs; auto; congruence.
  - intros E. apply Hnr. rewrite E in Efs. now rewrite Efs, E.
Qed.

(** Going into a mounted file system takes a reference to its root. *)
Lemma enter_step d l s1 : upto s d l -> bumped p l s s1 ->
  exists s2 l2, upto s (enter s d) l2 /\ bumped p l2 s s2 /\ ((s.(dents) d).(head) = 0 -> enter s d = d /\ s2 = s1 /\ l2 = l) /\
    enter_mount p d s1 = Ok (enter s d, s2).
Proof.
  intros U B. destruct (Z.eq_dec (s.(dents) d).(head) 0) as [Eh|Eh].
  - assert (Ee : enter s d = d) by (unfold enter; now rewrite Eh). exists s1, l. rewrite Ee. repeat (split; [auto|]).
    unfold enter_mount. rewrite (bind_run _ _ _ _ _ (try_enter_run p l s s1 d T B)), Ee, Z.eqb_refl. reflexivity.
  - destruct (enter_upto d l U Eh) as (U2 & Hne & _). pose proof (upto_nodup _ _ _ U2) as [Hn _]%NoDup_cons.
    destruct (dget_bumped p (enter s d) l s s1 B Hn (Room _)) as (s2 & E2 & B2). exists s2, (enter s d :: l).
    split; [exact U2|]. split; [exact B2|]. split; [contradiction|]. unfold enter_mount.
    rewrite (bind_run _ _ _ _ _ (try_enter_run p l s s1 d T B)), (proj2 (Z.eqb_neq _ _) Hne). cbn [negb].
    now rewrite (bind_run _ _ _ _ _ E2).
Qed.

Lemma parent_enter d l : upto s d l -> parent_of s d = parent_of s (enter s d).
Proof.
  intros U. destruct (Z.eq_dec (s.(dents) d).(head) 0) as [Eh|Eh]; [unfold enter; now rewrite Eh|].
  destruct (enter_upto d l U Eh) as (_ & _ & Hm & Hr & Hnr). destruct (upto_head _ _ _ U) as [Hd _].
  unfold parent_of. rewrite (proj2 (Z.eqb_neq _ _) Hnr), <- Hr, Z.eqb_refl, Hm, (proj2 (Z.eqb_neq _ _) Hd). reflexivity.
Qed.

(** Going up from [dir] gives back its reference, and that of the mount point. *)
Lemma go_up_run dir l s1 : upto s dir l -> bumped p l s s1 ->
  exists s2 l2, go_up p dir (parent_of s dir) s1 = Ok (tt, s2) /\ upto s (parent_of s dir) l2 /\ bumped p l2 s s2.
Proof.
  intros U B. pose proof (upto_nodup _ _ _ U) as Hnd.
  assert (Hpar : forall l', l = dir :: l' -> parent_of s dir ∈ l' -> parent_of s dir <> dir).
  { intros l' -> Hin E. apply NoDup_cons in Hnd as [Hd _]. congruence. }
  assert (Hfs : forall s2 l2, bumped p l2 s s2 -> fss s2 (file_system (dents s2 dir)) = fs_of s dir).
  { intros s2 l2 B2. exact (bumped_fs_of p l2 s s2 dir B2). }
  unfold go_up. inversion U as [d H1 H2 H3 E1 E2|d l' H1 H2 H3 U' E1 E2|d l' H1 H2 U' E1 E2]; subst d; try subst l.
  - assert (Ep : parent_of s dir = dir) by (unfold parent_of; now rewrite <- H2, Z.eqb_refl, H3).
    rewrite Ep, Z.eqb_refl. cbn [negb]. exists s1, [dir]. split; [|auto].
    erewrite bind_run by reflexivity. erewrite bind_run by reflexivity. now rewrite (Hfs s1 _ B), H3, andb_false_r.
  - set (m := mountPoint (fs_of s dir)) in *. pose proof (tk_point _ T _ H3) as Hmr. fold (fs_of s dir) in Hmr. fold m in Hmr.
    assert (Ep : parent_of s dir = (s.(dents) m).(parent_dirent)).
    { unfold parent_of. rewrite <- H2, Z.eqb_refl. fold m. now rewrite (proj2 (Z.eqb_neq _ _) H3). }
    inversion U' as [d ? Hx|d ? ? Hx|d l2 Hm1 Hm2 U2]; subst d; try contradiction. subst l'.
    destruct (upto_head _ _ _ U2) as (Hp0 & l3 & El3).
    assert (Hne : parent_of s dir <> dir) by (apply (Hpar _ eq_refl); rewrite Ep, El3; right; left).
    rewrite (proj2 (Z.eqb_neq _ _) Hne). cbn [negb].
    apply NoDup_cons in Hnd as [Hd1 Hd2]. apply NoDup_cons in Hd2 as [Hd3 _].
    destruct (dput_bumped p dir (m :: l2) s s1 B Hd1 (Room _)) as (s2 & E2 & B2).
    destruct (dput_bumped p m l2 s s2 B2 Hd3 (Room _)) as (s3 & E3 & B3).
    rewrite (bind_run _ _ _ _ _ E2). erewrite bind_run by reflexivity. rewrite (Hfs s2 _ B2), <- H2, Z.eqb_refl.
    fold m. rewrite (proj2 (Z.eqb_neq _ _) H3). cbn [negb andb]. exists s3, l2. rewrite Ep. auto.
  - assert (Ep : parent_of s dir = (s.(dents) dir).(parent_dirent)) by (unfold parent_of; now rewrite (proj2 (Z.eqb_neq _ _) H2)).
    destruct (upto_head _ _ _ U') as (Hp0 & l3 & El3).
    assert (Hne : parent_of s dir <> dir) by (apply (Hpar _ eq_refl); rewrite Ep, El3; left).
    rewrite (proj2 (Z.eqb_neq _ _) Hne). cbn [negb].
    apply NoDup_cons in Hnd as [Hd1 Hd2]. destruct (dput_bumped p dir l' s s1 B Hd1 (Room _)) as (s2 & E2 & B2).
    rewrite (bind_run _ _ _ _ _ E2). erewrite bind_run by reflexivity. rewrite (Hfs s2 _ B2), (proj2 (Z.eqb_neq _ _) H2).
    cbn [andb]. exists s2, l'. rewrite Ep. auto.
Qed.

Lemma find_child_bumped l s1 n q : bumped p l s s1 -> find_child s1 n q = find_child s n q.
Proof. intros B. induction q as [|c q IH]; [reflexivity|]. cbn. statics B c. now rewrite Sname, IH. Qed.
Lemma find_child_in n q c : find_child s n q = Some c -> c ∈ q.
Proof.
  induction q as [|x q IH]; cbn; [discriminate|]. destruct (str_eq _ _ _); [intros [= <-]; left|]. intros H. right. auto.
Qed.

(** What the loop promises, by what the rest of the path means. *)
Definition walked_ok (o : outcome) (w : walked) (s2 : tree) : Prop :=
  match o with
  | Found d => w.(w_ret) = 0 /\ w.(w_file) = d /\ exists l, upto s d l /\ bumped p l s s2
  | NotDir => w.(w_ret) = - ENOTDIR /\ bumped p [] s s2
  | Missing dir n rest => w.(w_ret) = - ENOENT /\ bumped p [] s s2 /\
      (rest = [] -> w.(w_dir) = Some dir /\ w.(w_last) = Some n)
  end.

Lemma walk_loop_run : forall names fuel path dir file l s1, components path = names ->
  match path with c :: _ => c <> SLASH | [] => True end -> (length path <= fuel)%nat ->
  upto s file l -> bumped p l s s1 -> Forall (fun n => Z.of_nat (length n) < MAX_NAME_LEN) names ->
  (forall d, (s.(dents) d).(head) = 0) \/ (DOT ∉ names) ->
  exists w s2, walk_loop depth fuel p path dir file s1 = Ok (w, s2) /\ walked_ok (resolve s names file) w s2.
Proof.
  induction names as [|n names IH]; intros fuel path dir file l s1 Hc Hp Hf U B Hlen Hdot;
    destruct (enter_step file l s1 U B) as (s2 & l2 & U2 & B2 & Hno & E2).
  - destruct path as [|c path]; [|pose proof (components_read c path Hp) as X; destruct (read_name (c :: path)); destruct X; congruence].
    assert (E : walk_loop depth fuel p [] dir file s1 = Ok (MkWalked 0 (Some dir) (enter s file) None, s2)).
    { destruct fuel; cbn [walk_loop]; rewrite (bind_run _ _ _ _ _ E2); reflexivity. }
    exists (MkWalked 0 (Some dir) (enter s file) None), s2. split; [exact E|]. cbn. eauto.
  - destruct path as [|c path]; [discriminate|]. destruct fuel as [|fuel]; [cbn in Hf; lia|].
    pose proof (components_read c path Hp) as X. cbn [walk_loop]. destruct (read_name (c :: path)) as [nm rest]. destruct X as [Ec El].
    rewrite Hc in Ec. injection Ec as <- Ec. apply Forall_cons in Hlen as [Hn Hlen].
    pose proof (skip_slash_head rest) as Hs. cbn in Hf.
    assert (Hdot' : (forall d, (s.(dents) d).(head) = 0) \/ (DOT ∉ names)) by (destruct Hdot as [|[_ ?]%not_elem_of_cons]; auto).
    destruct (Z.leb_spec MAX_NAME_LEN (Z.of_nat (length n))); [lia|]. erewrite bind_run by reflexivity.
    statics B file. assert (Edir : IS_DIRECTORY (dents s1 file) = IS_DIRECTORY (dents s file)) by (unfold IS_DIRECTORY; now rewrite Sattr).
    rewrite Edir. cbn [resolve]. destruct (negb (IS_DIRECTORY (dents s file))) eqn:Ed.
    { destruct (dput_path_run p s T Room file l U depth s1 B (Deep _ _ U)) as (s3 & E3 & B3).
      rewrite (bind_run _ _ _ _ _ E3). eexists _, s3. split; [reflexivity|]. cbn. auto. }
    rewrite (bind_run _ _ _ _ _ E2). destruct (str_eq_dots n) as [-> ->].
    destruct (bool_decide_reflect (n = DOT)) as [->|Hn1].
    { destruct Hdot as [Hh|Hd]; [|exfalso; apply Hd; left]. destruct (Hno (Hh file)) as (_ & -> & _).
      apply (IH fuel _ _ file l s1); auto; lia. }
    destruct (bool_decide_reflect (n = DOTDOT)) as [->|Hn2].
    { rewrite (bind_run _ _ _ _ _ (get_parent_run p l2 s s2 _ T B2)), (bind_run _ _ _ _ _ (get_parent_run p l2 s s2 _ T B2)).
      destruct (go_up_run (enter s file) l2 s2 U2 B2) as (s3 & l3 & E3 & U3 & B3).
      rewrite (bind_run _ _ _ _ _ E3), (parent_enter file l U). apply (IH fuel _ _ _ l3 s3); auto; lia. }
    unfold dir_lookup. statics B2 (enter s file).
    destruct (find_child s n (child_list (dents s (enter s file)))) as [ch|] eqn:Ech.
    + assert (Uc : upto s ch (ch :: l2)).
      { destruct (tk_child _ T _ _ (find_child_in _ _ _ Ech)) as (H1 & H2 & H3). apply up_child; auto. congruence. }
      pose proof (upto_nodup _ _ _ Uc) as [Hnc _]%NoDup_cons.
      destruct (dget_bumped p ch l2 s s2 B2 Hnc (Room _)) as (s3 & E3 & B3).
      erewrite bind_run. 2: { erewrite bind_run by reflexivity. rewrite Schild0, (find_child_bumped l2 s2 n _ B2), Ech. rewrite (bind_run _ _ _ _ _ E3). reflexivity. }
      apply (IH fuel _ _ ch (ch :: l2) s3); auto; lia.
    + erewrite bind_run. 2: { erewrite bind_run by reflexivity. rewrite Schild0, (find_child_bumped l2 s2 n _ B2), Ech. reflexivity. }
      destruct (dput_path_run p s T Room (enter s file) l2 U2 depth s2 B2 (Deep _ _ U2)) as (s3 & E3 & B3).
      rewrite (bind_run _ _ _ _ _ E3). eexists _, s3. split; [reflexivity|]. cbn.
      destruct (bool_decide_reflect (skip_slash rest = [])) as [E0|E0]; cbn; repeat (split; [now auto|]); [now auto|].
      intros ->. exfalso. apply E0. destruct (skip_slash rest) as [|b r]; [reflexivity|].
      pose proof (components_read b r Hs) as X. destruct (read_name (b :: r)). destruct X. congruence.
Qed.
End WalkProof.

(** C38. Lookup of a path: [walk_path] returns what the path means, entry by entry
    from the start; when it finds the file it has taken one reference to every
    entry from the file up to the root, and when it fails, for want of an entry
    or of a directory, it holds none. *)
Theorem walk_path_resolves depth p s fs path baseDir l :
  tree_ok s -> (forall d, has_room p (s.(dents) d)) -> (forall d l, upto s d l -> (length l <= depth)%nat) ->
  let start := if match path with c :: _ => c =? SLASH | [] => false end || (baseDir =? 0) then (s.(fss) fs).(root) else baseDir in
  upto s start l ->
  Forall (fun n => Z.of_nat (length n) < MAX_NAME_LEN) (components path) ->
  (forall d, (s.(dents) d).(head) = 0) \/ (DOT ∉ components path) ->
  exists w s', walk_path depth fs p path baseDir s = Ok (w, s') /\
    match resolve s (components path) start with
    | Found d => w.(w_ret) = 0 /\ w.(w_file) = d /\ exists l', upto s d l' /\ bumped p l' s s'
    | NotDir => w.(w_ret) = - ENOTDIR /\ bumped p [] s s'
    | Missing dir n rest => w.(w_ret) = - ENOENT /\ bumped p [] s s' /\
        (rest = [] -> w.(w_dir) = Some dir /\ w.(w_last) = Some n)
    end.
Proof.
  intros T Room Deep start U Hlen Hdot. unfold walk_path. erewrite bind_run by reflexivity. fold start.
  destruct (upto_head _ _ _ U) as [H0 _].
  destruct (dget_path_run p s T Room start l U depth [] s (bumped_nil p s)) as (s1 & E1 & B1); [intros; apply not_elem_of_nil|now apply (Deep start)|].
  unfold dget_path. erewrite bind_run. 2: { rewrite massert_run by (now rewrite (proj2 (Z.eqb_neq _ _) H0)). exact E1. }
  apply (bumped_perm p s _ l) in B1; [|rewrite app_nil_r; symmetry; apply Permutation_rev].
  apply (walk_loop_run depth p s T Room Deep (components path) (length path) _ 0 start l s1); auto.
  - apply components_skip.
  - apply skip_slash_head.
  - apply skip_slash_length.
Qed.

(** [file_close] undoes [dget_path]: every count and every list of holders is
    what it was. *)
Theorem dput_path_undoes_dget_path depth p s d l :
  tree_ok s -> (forall d, has_room p (s.(dents) d)) -> upto s d l -> (length l <= depth)%nat ->
  exists s1 s2, dget_path depth p d s = Ok (tt, s1) /\ bumped p l s s1 /\
    dput_path depth p d s1 = Ok (tt, s2) /\ forall u, s2.(dents) u = s.(dents) u.
Proof.
  intros T Room U Hd. destruct (upto_head _ _ _ U) as [H0 _].
  destruct (dget_path_run p s T Room d l U depth [] s (bumped_nil p s)) as (s1 & E1 & B1); [intros; apply not_elem_of_nil|exact Hd|].
  apply (bumped_perm p s _ l) in B1; [|rewrite app_nil_r; symmetry; apply Permutation_rev].
  destruct (dput_path_run p s T Room d l U depth s1 B1 Hd) as (s2 & E2 & B2). exists s1, s2.
  split; [unfold dget_path; now rewrite massert_run by (now rewrite (proj2 (Z.eqb_neq _ _) H0))|].
  split; [exact B1|]. split; [exact E2|]. intros u. destruct B2 as [H _]. rewrite (H u), bool_decide_eq_false_2; [reflexivity|apply not_elem_of_nil].
Qed.

(** ** The path of an entry *)

Definition good_name (n : list Z) : Prop := n <> [] /\ (SLASH ∉ n) /\ n <> DOT /\ n <> DOTDOT.
(** [d] can be reached by name from the root of the root file system. *)
Inductive visible (s : tree) : Z -> Prop :=
| vis_root : visible s (s.(fss) s.(fatFs)).(root)
| vis_child d : d <> (fs_of s d).(root) -> d <> (s.(fss) s.(fatFs)).(root) -> visible s (s.(dents) d).(parent_dirent) ->
    (s.(dents) (s.(dents) d).(parent_dirent)).(head) = 0 -> IS_DIRECTORY (s.(dents) (s.(dents) d).(parent_dirent)) = true ->
    find_child s (s.(dents) d).(name) (s.(dents) (s.(dents) d).(parent_dirent)).(child_list) = Some d ->
    good_name (s.(dents) d).(name) -> visible s d
| vis_mount d m : d = (fs_of s d).(root) -> d <> (s.(fss) s.(fatFs)).(root) -> (fs_of s d).(mountPoint) = m -> visible s m ->
    m <> (fs_of s m).(root) -> m <> (s.(fss) s.(fatFs)).(root) ->
    enter s m = d -> (s.(dents) d).(head) = 0 ->
    IS_DIRECTORY (s.(dents) m) = true -> IS_DIRECTORY (s.(dents) d) = true -> visible s d.

Lemma read_name_good n r : (SLASH ∉ n) -> match r with [] => True | c :: _ => c = SLASH end -> read_name (n ++ r) = (n, r).
Proof.
  induction n as [|c n IH]; intros Hn Hr; cbn [app read_name].
  - destruct r as [|c r]; [reflexivity|]. subst c. reflexivity.
  - apply not_elem_of_cons in Hn as [Hc Hn]. destruct (Z.eqb_spec c SLASH); [congruence|]. now rewrite IH.
Qed.
Lemma components_cons n r : n <> [] -> (SLASH ∉ n) -> match r with [] => True | c :: _ => c = SLASH end ->
  components (SLASH :: n ++ r) = n :: components r.
Proof.
  intros H0 Hn Hr. rewrite <- (components_skip (SLASH :: n ++ r)). cbn [skip_slash]. rewrite Z.eqb_refl.
  rewrite components_skip. destruct n as [|c n]; [contradiction|]. cbn [app].
  pose proof (not_elem_of_cons n SLASH c) as Hx. apply Hx in Hn as Hn'. destruct Hn' as [Hc _].
  pose proof (components_read c (n ++ r) ltac:(congruence)) as X. change (c :: n ++ r) with ((c :: n) ++ r) in *.
  rewrite (read_name_good (c :: n) r Hn Hr) in X. destruct X as [-> _]. now rewrite components_skip.
Qed.
Lemma resolve_mount s m d : enter s m = d -> (s.(dents) d).(head) = 0 -> IS_DIRECTORY (s.(dents) m) = true ->
  IS_DIRECTORY (s.(dents) d) = true -> forall names, resolve s names m = resolve s names d.
Proof.
  intros He Hh Hm Hd. assert (Ed : enter s d = d) by (unfold enter; now rewrite Hh).
  induction names as [|n names IH]; cbn [resolve]; [congruence|]. rewrite Hm, Hd, He, Ed, IH. reflexivity.
Qed.

Lemma get_path_loop s : tree_ok s -> forall d, visible s d -> forall path, match path with [] => True | c :: _ => c = SLASH end ->
  exists n path', (forall fuel, (n <= fuel)%nat -> dirent_get_path_loop fuel d path s = Ok (path', s)) /\
    resolve s (components path') (s.(fss) s.(fatFs)).(root) = resolve s (components path) d /\
    match path' with [] => path = [] /\ d = (s.(fss) s.(fatFs)).(root) | c :: _ => c = SLASH end.
Proof.
  intros T. induction 1 as [|d Hr Hf V IH Hh Hd Hc (N1 & N2 & N3 & N4)|d m Hr Hf Hm V IH Hmr Hmf He Hh Dm Dd]; intros path Hp.
  - exists 1%nat, path. split; [|split; [reflexivity|destruct path; auto]]. intros [|fuel] Hl; [lia|]. cbn. now rewrite Z.eqb_refl.
  - destruct (IH (SLASH :: name (dents s d) ++ path) eq_refl) as (n & path' & E & R & H').
    exists (S n), path'. split; [|split].
    + intros [|fuel] Hl; [lia|]. cbn [dirent_get_path_loop]. rewrite (proj2 (Z.eqb_neq _ _) Hf). fold (fs_of s d).
      rewrite (proj2 (Z.eqb_neq _ _) Hr). rewrite (bind_run _ _ _ _ _ (get_parent_run 0 [] s s d T (bumped_nil 0 s))).
      unfold parent_of. rewrite (proj2 (Z.eqb_neq _ _) Hr). apply E. lia.
    + rewrite R, components_cons by auto. cbn [resolve]. unfold enter. rewrite Hd, Hh, Z.eqb_refl. cbn [negb].
      rewrite !bool_decide_eq_false_2 by auto. now rewrite Hc.
    + destruct path'; [|exact H']. destruct H'; discriminate.
  - destruct (IH path Hp) as (n & path' & E & R & H'). exists (S n), path'. split; [|split].
    + intros [|fuel] Hl; [lia|]. specialize (E (S fuel) ltac:(lia)). rewrite <- E. cbn [dirent_get_path_loop].
      rewrite (proj2 (Z.eqb_neq _ _) Hf), (proj2 (Z.eqb_neq _ _) Hmf). fold (fs_of s d) (fs_of s m).
      rewrite <- Hr, Z.eqb_refl, Hm, (proj2 (Z.eqb_neq _ _) Hmr). reflexivity.
    + rewrite R. now apply resolve_mount.
    + destruct path'; [|exact H']. destruct H'; contradiction.
Qed.

(** The absolute path that [dirent_get_path] writes leads back to the entry. *)
Theorem dirent_path_roundtrip s d : tree_ok s -> visible s d -> (s.(dents) d).(head) = 0 -> (s.(dents) d).(refcnt) <> 0 ->
  exists n path, (forall fuel, (n <= fuel)%nat -> dirent_get_path fuel d s = Ok (path, s)) /\
    (exists r, path = SLASH :: r) /\ resolve s (components path) (s.(fss) s.(fatFs)).(root) = Found d.
Proof.
  intros T V Hh Hr. assert (Ed : enter s d = d) by (unfold enter; now rewrite Hh).
  unfold dirent_get_path. rewrite (proj2 (Z.eqb_neq _ _) Hr). destruct (Z.eqb_spec d (root (fss s (fatFs s)))) as [E|E].
  - exists O, [SLASH]. split; [auto|]. split; [eauto|]. rewrite <- E. cbn. now rewrite Ed.
  - destruct (get_path_loop s T d V [] I) as (n & path & Hl & R & Hp). exists n, path. split; [exact Hl|].
    split; [destruct path; [destruct Hp; congruence|subst; eauto]|]. rewrite R. cbn. now rewrite Ed.
Qed.

(** ** Two small trees *)

(** The root directory 1 with the directory "a" (2), which has the file "b" (3);
    in [tree2] a file system is mounted on "a", whose root is 4, with a file
    "x" (5). *)
Definition no_fs : FileSystem := MkFs 0 0 0 0.
Definition dir_ent (n : list Z) (fs clus hd par : Z) (ch : list Z) : Dirent := MkDirent n fs clus hd 16 0 ch par 511 1 [(9, 1)].
Definition file_ent (n : list Z) (fs clus par : Z) : Dirent := MkDirent n fs clus 0 32 0 [] par 511 1 [(9, 1)].
Definition tree1 : tree := MkTree
  (fun d => if d =? 1 then dir_ent [47] 1 2 0 0 [2] else if d =? 2 then dir_ent [97] 1 3 0 1 [3]
            else if d =? 3 then file_ent [98] 1 4 2 else zero_dirent)
  (fun f => if f =? 1 then MkFs 1 1 0 0 else no_fs) [] 3 1.
Definition tree2 : tree := MkTree
  (fun d => if d =? 1 then dir_ent [47] 1 2 0 0 [2] else if d =? 2 then dir_ent [97] 1 3 2 1 [3]
            else if d =? 3 then file_ent [98] 1 4 2 else if d =? 4 then dir_ent [47] 2 2 0 0 [5]
            else if d =? 5 then file_ent [120] 2 7 4 else zero_dirent)
  (fun f => if f =? 1 then MkFs 1 1 0 0 else if f =? 2 then MkFs 1 4 0 2 else no_fs) [] 5 1.

(** Splits a variable into the indices the trees use and the rest. *)
Ltac ents d :=
  let go k := (destruct (Z.eqb_spec d k) as [->|?]) in
  go 1; [|go 2; [|go 3; [|go 4; [|go 5]]]].
Lemma tree1_ok : tree_ok tree1.
Proof.
  constructor.
  - intros d c. cbn. ents d; cbn; intros H; try (now apply not_elem_of_nil in H);
      apply list_elem_of_singleton in H as ->; cbn; repeat split; discriminate.
  - intros d. cbn. ents d; cbn; congruence.
  - intros f. cbn. ents f; cbn; congruence.
Qed.
Lemma tree1_room d : has_room 1 (tree1.(dents) d).
Proof. cbn. ents d; (split; [vm_compute; lia|split; [cbn; lia|cbn; discriminate]]). Qed.
Lemma tree1_deep d l : upto tree1 d l -> (length l <= 3)%nat.
Proof.
  intros U. assert (H : l ⊆+ [1; 2; 3]).
  { apply NoDup_submseteq; [exact (upto_nodup _ _ _ U)|]. intros u Hu.
    destruct (upto_suffix _ _ _ U u Hu) as (l' & U' & _). destruct (upto_head _ _ _ U') as [H0 _].
    destruct (decide (u ∈ [1; 2; 3])) as [Hin|Hin]; [exact Hin|]. exfalso.
    rewrite !not_elem_of_cons in Hin. destruct Hin as (N1 & N2 & N3 & _).
    assert (Hz : tree1.(dents) u = zero_dirent) by (cbn; now rewrite !(proj2 (Z.eqb_neq _ _)) by auto).
    assert (Hfs : fs_of tree1 u = no_fs) by (unfold fs_of; now rewrite Hz).
    inversion U' as [? _ Hr|? ? _ Hr|? k _ _ U2]; subst; rewrite ?Hfs in *; cbn in *; try congruence.
    rewrite Hz in U2. now destruct (upto_head _ _ _ U2) as [X _]. }
  apply submseteq_length in H. exact H.
Qed.
Lemma tree1_root : upto tree1 1 [1].
Proof. apply up_top; [lia|reflexivity|reflexivity]. Qed.
Lemma tree1_b : upto tree1 3 [3; 2; 1].
Proof. apply up_child; [lia|discriminate|]. apply up_child; [lia|discriminate|]. exact tree1_root. Qed.

(** "/a//b" *)
Lemma walk_path_resolves_witness : exists w s', walk_path 3 1 1 [47; 97; 47; 47; 98] 0 tree1 = Ok (w, s') /\ w.(w_ret) = 0 /\ w.(w_file) = 3.
Proof.
  destruct (walk_path_resolves 3 1 tree1 1 [47; 97; 47; 47; 98] 0 [1] tree1_ok tree1_room tree1_deep tree1_root) as (w & s' & E & H).
  - repeat constructor.
  - left. intros d. cbn. ents d; reflexivity.
  - exists w, s'. destruct H as (H1 & H2 & _). auto.
Defined.
Lemma dput_path_undoes_dget_path_witness : exists s1 s2, dget_path 3 1 3 tree1 = Ok (tt, s1) /\
  dput_path 3 1 3 s1 = Ok (tt, s2) /\ s2.(dents) 2 = tree1.(dents) 2.
Proof.
  destruct (dput_path_undoes_dget_path 3 1 tree1 3 [3; 2; 1] tree1_ok tree1_room tree1_b) as (s1 & s2 & E1 & _ & E2 & H); [cbn; lia|].
  exists s1, s2. auto.
Defined.
Lemma dirent_path_roundtrip_witness : exists n path, (forall fuel, (n <= fuel)%nat -> dirent_get_path fuel 3 tree1 = Ok (path, tree1)) /\
  resolve tree1 (components path) 1 = Found 3.
Proof.
  destruct (dirent_path_roundtrip tree1 3 tree1_ok) as (n & path & E & _ & R); try reflexivity; try discriminate.
  - apply vis_child; try discriminate; try reflexivity.
    + apply vis_child; try discriminate; try reflexivity; [apply vis_root|]. repeat split; try discriminate. now intros ?%list_elem_of_singleton.
    + repeat split; try discriminate. now intros ?%list_elem_of_singleton.
  - exists n, path. auto.
Defined.

(** A name that is too long leaves the references taken so far behind. *)
Theorem walk_path_long_name_leaks : exists w s', walk_path 3 1 1 (replicate 128 97) 0 tree1 = Ok (w, s') /\
  w.(w_ret) = - ENAMETOOLONG /\ (s'.(dents) 1).(refcnt) = (tree1.(dents) 1).(refcnt) + 1.
Proof. eexists _, _. split; [vm_compute; reflexivity|]. split; reflexivity. Qed.

(** A "." at a mount point takes the reference to the mounted root twice: after
    "/a/./x" and the close of the file found, its count is one more. *)
Theorem walk_path_dot_leaks : exists w s1 s2, walk_path 4 1 1 [47; 97; 47; 46; 47; 120] 0 tree2 = Ok (w, s1) /\
  w.(w_ret) = 0 /\ w.(w_file) = 5 /\ dput_path 4 1 5 s1 = Ok (tt, s2) /\
  (s2.(dents) 4).(refcnt) = (tree2.(dents) 4).(refcnt) + 1.
Proof.
  eexists _, _, _. split; [vm_compute; reflexivity|]. split; [reflexivity|]. split; [reflexivity|].
  split; [vm_compute; reflexivity|]. reflexivity.
Qed.
