(* ===== verification/Directory.v ===== *)
(** * Directories on the disk

    [src/kern/fs/fat32/directory.c] and the name functions of [base.c]: finding
    the next entry of a directory, reserving entries, and long file names.  A
    directory is read and written through the interface [DirFile], which says
    what [file_read] and [file_write] do with a directory's bytes; [FatDir]
    gives the instance for files of the volume.  Entries are lists of 32 bytes.
    The name buffers of the code are lists; what they hold behind the
    terminator is the parameter [junk]. *)

From S2P Require Import Prelude Bytes.
From Stdlib Require Import ZArith Lia Bool.
From stdpp Require Import base tactics numbers list.
Open Scope Z_scope.

Definition DIR_SIZE : Z := 32.
Definition BYTES_LONGENT : Z := 13.
Definition MAX_NAME_LEN : Z := 128.
Definition FAT32_INVALID_ENTRY : Z := 229.
Definition ATTR_DIRECTORY : Z := 16.
Definition ATTR_LONG_NAME_MASK : Z := 15.
Definition LAST_LONG_ENTRY : Z := 64.

(** ** What a directory file is *)

Class DirFile (S : Type) : Type := {
  df_size : S -> Z;                             (* dir->file_size *)
  df_read : Z -> Z -> M S (list Z);             (* file_read(dir, 0, buf, off, n) *)
  df_write : Z -> list Z -> M S unit;           (* file_write(dir, 0, buf, off, n) *)
  df_count : Z -> M S Z                         (* countClusters(first_clus) * clusSize *)
}.
(** [df_holds s c]: the directory's bytes are [c]. *)
Class DirFileLaws (S : Type) {DF : DirFile S} : Type := {
  df_holds : S -> list Z -> Prop;
  df_size_law s c : df_holds s c -> df_size s = Z.of_nat (length c);
  df_read_law s c off n : df_holds s c -> 0 <= off -> 0 < n -> off + n <= Z.of_nat (length c) ->
    exists s', df_read off n s = Ok (slice off n c, s') /\ df_holds s' c;
  df_write_law s c off b : df_holds s c -> 0 <= off -> b <> [] -> Forall (fun x => 0 <= x < 256) b ->
    off + Z.of_nat (length b) <= Z.of_nat (length c) ->
    exists s', df_write off b s = Ok (tt, s') /\ df_holds s' (splice off b c)
}.

(** ** Names *)

Definition get_entry_count_by_name (name : list Z) : Z :=
  let len := Z.of_nat (length name) + 1 in
  if 11 <? len then
    if len mod BYTES_LONGENT =? 0 then 1 + len / BYTES_LONGENT else 1 + (len / BYTES_LONGENT + 1)
  else 2.

Fixpoint checkSum_loop (n : nat) (sum : Z) (name : list Z) : Z :=
  match n, name with
  | S n', b :: name' =>
      checkSum_loop n' (wrap8 ((if negb (Z.land sum 1 =? 0) then 128 else 0) + Z.shiftr sum 1 + b)) name'
  | _, _ => sum
  end.
Definition checkSum (pFcbName : list Z) : Z := checkSum_loop 11 0 pFcbName.

(** Wide characters as bytes. *)
Definition wbytes (w : list Z) : list Z := concat (map (le_bytes 2) w).
Fixpoint wchars (b : list Z) : list Z :=
  match b with x :: y :: b' => x + 256 * y :: wchars b' | _ => [] end.
(** Up to the first zero. *)
Fixpoint wstr (w : list Z) : list Z :=
  match w with [] => [] | c :: w' => if c =? 0 then [] else c :: wstr w' end.

(** [fill_long_entry]: the entry without its ordinal, and the rest of the name.
    [wname] is the buffer after [str2wstr]: the name, the terminator, junk. *)
Section FillLong.
Variable junk : list Z.
Definition fill_long_entry (raw_name : list Z) : list Z * option (list Z) :=
  let wname := raw_name ++ [0] ++ junk in
  let len := Z.of_nat (length raw_name) + 1 in
  let ent n1 n2 n3 := [0] ++ n1 ++ [ATTR_LONG_NAME_MASK; 0; 0] ++ n2 ++ [0; 0] ++ n3 in
  let n1 := wbytes (take 5 wname) in
  if len - 5 <=? 0 then (ent n1 (replicate 12 0) (replicate 4 0), None)
  else
    let n2 := wbytes (take 6 (drop 5 wname)) in
    if len - 5 - 6 <=? 0 then (ent n1 n2 (replicate 4 0), None)
    else
      let n3 := wbytes (take 2 (drop 11 wname)) in
      (ent n1 n2 n3, if len - 5 - 6 - 2 <=? 0 then None else Some (drop 13 raw_name)).
End FillLong.

(** The thirteen wide characters of a long entry. *)
Definition long_name (e : list Z) : list Z := wchars (slice 1 10 e ++ slice 14 12 e ++ slice 28 4 e).

(** ** Entries *)

Definition DIR_Attr (e : list Z) : Z := byte_at e 11.
Definition DIR_FstClus (e : list Z) : Z := get16 e 20 * 65536 + get16 e 26.
Definition DIR_FileSize (e : list Z) : Z := get32 e 28.
(** The names of the entries "." and "..", padded to eleven characters. *)
Definition dot_name : list Z := 46 :: replicate 10 32.
Definition dotdot_name : list Z := 46 :: 46 :: replicate 9 32.

Record found : Type := MkFound {
  f_name : list Z;
  f_raw : list Z;
  f_first_clus : Z;
  f_file_size : Z;
  f_parent_dir_off : Z;
  f_is_dir : bool
}.

Section Directory.
Context {S : Type} {DF : DirFile S}.

(** [fullName] is the wide string gathered so far. *)
Fixpoint dir_scan (fuel : nat) (j : Z) (fullName : list Z) : M S (option found * Z) :=
  let* size := gets df_size in
  if j <? size then
    match fuel with
    | O => fail NoFuel
    | Datatypes.S fuel' =>
        let* f := df_read j DIR_SIZE in
        if (byte_at f 0 =? 0) || (byte_at f 0 =? FAT32_INVALID_ENTRY) then dir_scan fuel' (wrap32 (j + DIR_SIZE)) fullName
        else if bool_decide (take 11 f = dot_name) || bool_decide (take 11 f = dotdot_name)
        then dir_scan fuel' (wrap32 (j + DIR_SIZE)) fullName
        else if DIR_Attr f =? ATTR_LONG_NAME_MASK then
          if MAX_NAME_LEN <=? Z.of_nat (length fullName) + BYTES_LONGENT then fail Undef
          else dir_scan fuel' (wrap32 (j + DIR_SIZE)) (wstr (long_name f ++ fullName))
        else
          let tmpName := if bool_decide (fullName = []) then wstr (take 11 f) else map (fun c => Z.land c 255) fullName in
          let is_dir := negb (Z.land (DIR_Attr f) ATTR_DIRECTORY =? 0) in
          let* fsize := (if is_dir then df_count (DIR_FstClus f) else ret (DIR_FileSize f)) in
          ret (Some (MkFound tmpName f (DIR_FstClus f) fsize j is_dir), wrap32 (j + DIR_SIZE))
    end
  else ret (None, size).
Definition dirGetDentFrom (offset : Z) : M S (option found * Z) :=
  massert (offset mod DIR_SIZE =? 0) ;;;
  let* size := gets df_size in
  dir_scan (Z.to_nat (size / DIR_SIZE + 1)) (wrap32 offset) [].

(** [dir_alloc_entry], step 1: the first [cnt] free entries in a row. *)
Fixpoint alloc_scan (fuel : nat) (offset curN cnt prev_size : Z) : M S (option Z) :=
  if offset <? prev_size then
    match fuel with
    | O => fail NoFuel
    | Datatypes.S fuel' =>
        let* e := df_read offset DIR_SIZE in
        if byte_at e 0 =? 0 then
          if curN + 1 =? cnt then ret (Some (offset - (cnt - 1) * DIR_SIZE))
          else alloc_scan fuel' (wrap32 (offset + DIR_SIZE)) (curN + 1) cnt prev_size
        else alloc_scan fuel' (wrap32 (offset + DIR_SIZE)) 0 cnt prev_size
    end
  else ret None.
Definition black_entry : list Z := FAT32_INVALID_ENTRY :: replicate 31 0.
(** Step 3: the entries taken, and the offset behind them. *)
Fixpoint blacken (n : nat) (offset : Z) : M S Z :=
  match n with
  | O => ret offset
  | Datatypes.S n' => df_write offset black_entry ;;; blacken n' (wrap32 (offset + DIR_SIZE))
  end.
Definition dir_alloc_entry (cnt : Z) : M S Z :=
  massert (1 <=? cnt) ;;;
  let* prev_size := gets df_size in
  let* r := alloc_scan (Z.to_nat (prev_size / DIR_SIZE + 1)) 0 0 cnt prev_size in
  massert (prev_size mod DIR_SIZE =? 0) ;;;
  let start_off := match r with Some o => o | None => prev_size end in
  let* offset := blacken (Z.to_nat cnt) start_off in
  ret (wrap32 (offset + DIR_SIZE * (cnt - 1))).

Section Junk.
Variable junk : list Z.
(** The long entries, [i] from the one before the short entry. *)
Fixpoint fill_loop (n : nat) (i : Z) (name : list Z) (parent_dir_off : Z) : M S unit :=
  match n with
  | O => ret tt
  | Datatypes.S n' =>
      let '(e, rest) := fill_long_entry junk name in
      let ord := if i =? 1 then LAST_LONG_ENTRY else wrap8 i in
      df_write (wrap32 (parent_dir_off - i * DIR_SIZE)) (ord :: drop 1 e) ;;;
      match rest with
      | None => ret tt
      | Some name' => fill_loop n' (i + 1) name' parent_dir_off
      end
  end.
(** The offset of the entry and its raw image, of which only the name is set. *)
Definition dir_alloc_file (name : list Z) : M S (Z * list Z) :=
  let cnt := get_entry_count_by_name name in
  let* off := dir_alloc_entry cnt in
  let raw := take 10 (name ++ replicate 10 0) ++ replicate 22 0 in
  fill_loop (Z.to_nat (cnt - 1)) 1 name off ;;;
  ret (off, raw).
End Junk.

(** [sync_dirent_rawdata_back] of an entry that is not the root. *)
Definition with_fields (raw : list Z) (attr first_clus size : Z) : list Z :=
  splice 28 (le_bytes 4 size) (splice 26 (le_bytes 2 (first_clus mod 65536))
    (splice 20 (le_bytes 2 (first_clus / 65536)) (splice 11 [attr] raw))).
Definition sync_back (off : Z) (raw : list Z) (attr first_clus size : Z) : M S unit :=
  df_write off (with_fields raw attr first_clus size).
End Directory.

(** ** A directory as a list of entries *)

Lemma concat_length32 (E : list (list Z)) : Forall (fun e => length e = 32%nat) E -> length (concat E) = (32 * length E)%nat.
Proof. induction 1 as [|e E He _ IH]; cbn; [reflexivity|]. rewrite length_app. lia. Qed.
Lemma drop_concat32 (E : list (list Z)) k : Forall (fun e => length e = 32%nat) E -> drop (32 * k) (concat E) = concat (drop k E).
Proof.
  intros H. revert k. induction H as [|e E He _ IH]; intros k; [rewrite drop_nil; apply drop_nil|].
  destruct k as [|k]; [reflexivity|]. cbn [concat drop]. rewrite drop_app, drop_ge by lia.
  rewrite <- IH. cbn. f_equal. lia.
Qed.
Lemma take_concat32 (E : list (list Z)) k : Forall (fun e => length e = 32%nat) E -> take (32 * k) (concat E) = concat (take k E).
Proof.
  intros H. revert k. induction H as [|e E He _ IH]; intros k; [rewrite take_nil; apply take_nil|].
  destruct k as [|k]; [reflexivity|]. cbn [concat take]. rewrite take_app, take_ge by lia.
  rewrite <- IH. do 2 f_equal. lia.
Qed.
Lemma slice_concat32 (E : list (list Z)) k e : Forall (fun e => length e = 32%nat) E -> E !! k = Some e ->
  slice (32 * Z.of_nat k) 32 (concat E) = e.
Proof.
  intros H Hk. unfold slice. replace (Z.to_nat (32 * Z.of_nat k)) with (32 * k)%nat by lia. rewrite drop_concat32 by auto.
  rewrite (drop_S _ _ _ Hk). cbn [concat]. change (Z.to_nat 32) with 32%nat.
  pose proof (proj1 (Forall_lookup _ _) H _ _ Hk) as He. cbn beta in He. rewrite <- He. apply take_app_length.
Qed.
Lemma splice_concat32 (E : list (list Z)) k e : Forall (fun e => length e = 32%nat) E -> (k < length E)%nat -> length e = 32%nat ->
  splice (32 * Z.of_nat k) e (concat E) = concat (<[k := e]> E).
Proof.
  intros H Hk He. unfold splice. replace (Z.to_nat (32 * Z.of_nat k)) with (32 * k)%nat by lia.
  rewrite He, take_concat32 by auto. replace (32 * k + 32)%nat with (32 * S k)%nat by lia. rewrite drop_concat32 by auto.
  rewrite insert_take_drop by auto. rewrite concat_app. reflexivity.
Qed.

Section Entries.
Context {S : Type} {DF : DirFile S} {DL : DirFileLaws S}.

Definition holds (s : S) (E : list (list Z)) : Prop :=
  df_holds s (concat E) /\ Forall (fun e => length e = 32%nat) E /\ Z.of_nat (length E) < 67108864.
Lemma holds_size s E : holds s E -> df_size s = 32 * Z.of_nat (length E).
Proof. intros (H & Hl & _). rewrite (df_size_law _ _ H), concat_length32 by auto. lia. Qed.
Lemma holds_read s E k e : holds s E -> E !! k = Some e ->
  exists s', df_read (32 * Z.of_nat k) DIR_SIZE s = Ok (e, s') /\ holds s' E.
Proof.
  intros (H & Hl & Hb) Hk. pose proof (lookup_lt_Some _ _ _ Hk).
  destruct (df_read_law s _ (32 * Z.of_nat k) DIR_SIZE H) as (s' & Er & H'); [lia|reflexivity|rewrite concat_length32 by auto; unfold DIR_SIZE; lia|].
  exists s'. unfold DIR_SIZE in Er. rewrite (slice_concat32 E k e) in Er by auto. split; [exact Er|]. split; auto.
Qed.
Lemma holds_write s E k e : holds s E -> (k < length E)%nat -> length e = 32%nat -> Forall (fun x => 0 <= x < 256) e ->
  exists s', df_write (32 * Z.of_nat k) e s = Ok (tt, s') /\ holds s' (<[k := e]> E).
Proof.
  intros (H & Hl & Hb) Hk He Hr.
  destruct (df_write_law s _ (32 * Z.of_nat k) e H) as (s' & Ew & H'); [lia|destruct e; discriminate|exact Hr|rewrite concat_length32 by auto; lia|].
  exists s'. split; [exact Ew|]. rewrite splice_concat32 in H' by auto. split; [exact H'|]. split; [|now rewrite length_insert].
  apply Forall_insert; auto.
Qed.

(** ** Reserving entries *)

Definition free_entry (e : list Z) : bool := byte_at e 0 =? 0.

Lemma alloc_scan_zero cnt : forall i fuel a s E, holds s E -> 0 <= i < cnt -> 0 <= a ->
  (forall k, a <= k < a + cnt -> exists e, E !! Z.to_nat k = Some e /\ free_entry e = true) ->
  (Z.to_nat (cnt - i) <= fuel)%nat ->
  exists s', alloc_scan fuel (32 * (a + i)) i cnt (df_size s) s = Ok (Some (32 * a), s') /\ holds s' E.
Proof.
  intros i fuel. revert i. induction fuel as [|fuel IH]; intros i a s E H Hi Ha Hz Hf; [lia|].
  destruct (Hz (a + i)) as (e & Ek & Ee); [lia|]. pose proof (lookup_lt_Some _ _ _ Ek) as Hlt.
  destruct (holds_read s E _ e H Ek) as (s1 & E1 & H1). rewrite Z2Nat.id in E1 by lia.
  pose proof (holds_size _ _ H) as Hs. pose proof (holds_size _ _ H1) as Hs1. destruct H as (_ & _ & Hb).
  cbn [alloc_scan]. destruct (Z.ltb_spec (32 * (a + i)) (df_size s)); [|lia]. rewrite (bind_run _ _ _ _ _ E1).
  unfold free_entry in Ee. rewrite Ee. destruct (Z.eqb_spec (i + 1) cnt) as [Ec|Ec].
  - exists s1. split; [|exact H1]. unfold ret, DIR_SIZE. do 3 f_equal. lia.
  - rewrite wrap32_small by (unfold DIR_SIZE; lia). replace (32 * (a + i) + DIR_SIZE) with (32 * (a + (i + 1))) by (unfold DIR_SIZE; lia).
    rewrite Hs, <- Hs1. apply IH; auto; lia.
Qed.
Lemma alloc_scan_used cnt a : forall n fuel k s E, holds s E -> a = k + Z.of_nat n -> 0 <= k -> 1 <= cnt ->
  (forall j, k <= j < a -> exists e, E !! Z.to_nat j = Some e /\ free_entry e = false) ->
  (forall j, a <= j < a + cnt -> exists e, E !! Z.to_nat j = Some e /\ free_entry e = true) ->
  (n + Z.to_nat cnt <= fuel)%nat ->
  exists s', alloc_scan fuel (32 * k) 0 cnt (df_size s) s = Ok (Some (32 * a), s') /\ holds s' E.
Proof.
  induction n as [|n IH]; intros fuel k s E H Ek Hk Hc Hu Hz Hf.
  - replace k with (a + 0) by lia. apply alloc_scan_zero; auto; lia.
  - destruct fuel as [|fuel]; [lia|]. destruct (Hu k) as (e & El & Ee); [lia|]. pose proof (lookup_lt_Some _ _ _ El) as Hlt.
    destruct (holds_read s E _ e H El) as (s1 & E1 & H1). rewrite Z2Nat.id in E1 by lia.
    pose proof (holds_size _ _ H) as Hs. pose proof (holds_size _ _ H1) as Hs1. destruct H as (_ & _ & Hb).
    cbn [alloc_scan]. destruct (Z.ltb_spec (32 * k) (df_size s)); [|lia]. rewrite (bind_run _ _ _ _ _ E1).
    unfold free_entry in Ee. rewrite Ee. rewrite wrap32_small by (unfold DIR_SIZE; lia).
    replace (32 * k + DIR_SIZE) with (32 * (k + 1)) by (unfold DIR_SIZE; lia).
    rewrite Hs, <- Hs1. apply IH; auto; try lia. intros j Hj. apply Hu. lia.
Qed.

(** Entry lists of the form [before ++ middle ++ after], [middle] overwritten. *)
Lemma insert_mid {A} (pre post : list A) x y : <[length pre := y]> (pre ++ x :: post) = pre ++ y :: post.
Proof. rewrite insert_app_r_alt, Nat.sub_diag by lia. reflexivity. Qed.

Lemma blacken_run : forall n s pre mid post, length mid = n -> holds s (pre ++ mid ++ post) ->
  exists s', blacken n (32 * Z.of_nat (length pre)) s = Ok (32 * (Z.of_nat (length pre) + Z.of_nat n), s') /\
    holds s' (pre ++ replicate n black_entry ++ post).
Proof.
  induction n as [|n IH]; intros s pre mid post Hm H.
  - destruct mid; [|discriminate]. exists s. split; [cbn; unfold ret; do 2 f_equal; lia|exact H].
  - destruct mid as [|x mid]; [discriminate|]. injection Hm as Hm. cbn [app] in H.
    destruct (holds_write s _ (length pre) black_entry H) as (s1 & E1 & H1).
    { rewrite length_app. cbn. lia. } { reflexivity. } { vm_compute. repeat constructor; discriminate. }
    rewrite insert_mid in H1. cbn [blacken]. rewrite (bind_run _ _ _ _ _ E1).
    replace (pre ++ black_entry :: mid ++ post) with ((pre ++ [black_entry]) ++ mid ++ post) in H1 by now rewrite <- app_assoc.
    destruct H1 as (Hx & Hy & Hb). rewrite !length_app in Hb. cbn in Hb.
    destruct (IH s1 (pre ++ [black_entry]) mid post Hm) as (s2 & E2 & H2); [split; [exact Hx|split; [exact Hy|rewrite !length_app; cbn; lia]]|].
    rewrite length_app in E2. cbn [length] in E2. rewrite wrap32_small by (unfold DIR_SIZE; lia).
    replace (32 * Z.of_nat (length pre) + DIR_SIZE) with (32 * Z.of_nat (length pre + 1)) by (unfold DIR_SIZE; lia).
    exists s2. split; [rewrite E2; do 3 f_equal; lia|]. rewrite <- app_assoc in H2. exact H2.
Qed.
End Entries.

(** ** Long names *)

Lemma wbytes_cons c w : wbytes (c :: w) = c mod 256 :: c / 256 mod 256 :: wbytes w.
Proof. reflexivity. Qed.
Lemma wchars_wbytes w : wchars (wbytes w) = map (fun c => c mod 65536) w.
Proof.
  induction w as [|c w IH]; [reflexivity|]. rewrite wbytes_cons. cbn [wchars]. rewrite IH. cbn [map]. f_equal.
  change 65536 with (256 * 256). rewrite Z.rem_mul_r by lia. reflexivity.
Qed.
Lemma length_wbytes w : length (wbytes w) = (2 * length w)%nat.
Proof. induction w as [|c w IH]; [reflexivity|]. rewrite wbytes_cons. cbn [length]. rewrite IH. lia. Qed.
Lemma wbytes_app w1 w2 : wbytes (w1 ++ w2) = wbytes w1 ++ wbytes w2.
Proof. unfold wbytes. now rewrite map_app, concat_app. Qed.
Lemma wbytes_range w : Forall (fun x => 0 <= x < 256) (wbytes w).
Proof. induction w as [|c w IH]; [constructor|]. rewrite wbytes_cons. repeat constructor; auto; apply Z.mod_pos_bound; lia. Qed.
Lemma wchars_zeros n : wchars (replicate (2 * n) 0) = replicate n 0.
Proof. induction n as [|n IH]; [reflexivity|]. replace (2 * S n)%nat with (S (S (2 * n))) by lia. cbn [replicate wchars]. now rewrite IH. Qed.
Lemma wchars_app b1 b2 n : length b1 = (2 * n)%nat -> wchars (b1 ++ b2) = wchars b1 ++ wchars b2.
Proof.
  revert b1. induction n as [|n IH]; intros b1 H; [destruct b1; [reflexivity|discriminate]|].
  destruct b1 as [|x [|y b1]]; cbn in H; try lia. cbn. now rewrite IH by lia.
Qed.

(** A name of the file system: not empty, no zero byte, fits the buffers. *)
Definition name_ok (n : list Z) : Prop :=
  n <> [] /\ Forall (fun c => 0 < c < 256) n /\ Z.of_nat (length n) < MAX_NAME_LEN.

Lemma wstr_full w r : Forall (fun c => 0 < c < 256) w -> wstr (w ++ r) = w ++ wstr r.
Proof.
  induction 1 as [|c w Hc _ IH]; [reflexivity|]. cbn. destruct (Z.eqb_spec c 0); [lia|]. now rewrite IH.
Qed.
Lemma wstr_pad x k : forall n, wstr x = n -> (length n < length x)%nat -> wstr (x ++ replicate k 0) = n.
Proof.
  induction x as [|c x IH]; intros n Hx Hl; cbn in *; [lia|].
  destruct (c =? 0); [exact Hx|]. subst n. f_equal. cbn in Hl. apply IH; [reflexivity|lia].
Qed.
Lemma map_mod_small w : Forall (fun c => 0 < c < 256) w -> map (fun c => c mod 65536) w = w.
Proof. induction 1 as [|c w Hc _ IH]; [reflexivity|]. cbn. rewrite IH, Z.mod_small by lia. reflexivity. Qed.

(** The fields of a long entry. *)
Definition long_entry (n1 n2 n3 : list Z) : list Z := [0] ++ n1 ++ [ATTR_LONG_NAME_MASK; 0; 0] ++ n2 ++ [0; 0] ++ n3.
Lemma long_entry_fields ord n1 n2 n3 : length n1 = 10%nat -> length n2 = 12%nat -> length n3 = 4%nat ->
  let e := ord :: drop 1 (long_entry n1 n2 n3) in
  length e = 32%nat /\ byte_at e 0 = ord /\ DIR_Attr e = ATTR_LONG_NAME_MASK /\ long_name e = wchars (n1 ++ n2 ++ n3).
Proof.
  intros H1 H2 H3. unfold long_entry. cbn [app drop].
  do 10 (destruct n1 as [|? n1]; [discriminate|]). destruct n1; [|discriminate].
  do 12 (destruct n2 as [|? n2]; [discriminate|]). destruct n2; [|discriminate].
  do 4 (destruct n3 as [|? n3]; [discriminate|]). destruct n3; [|discriminate].
  cbn zeta. repeat split.
Qed.

(** How many long entries a name takes. *)
Definition pieces (n : list Z) : nat := (length n / 13 + 1)%nat.
Lemma entry_count n : get_entry_count_by_name n = 1 + Z.of_nat (pieces n).
Proof.
  unfold get_entry_count_by_name, pieces, BYTES_LONGENT. rewrite Nat2Z.inj_add, Nat2Z.inj_div. change (Z.of_nat 13) with 13.
  destruct (Z.ltb_spec 11 (Z.of_nat (length n) + 1)); [|zlia].
  destruct (Z.eqb_spec ((Z.of_nat (length n) + 1) mod 13) 0); zlia.
Qed.
Lemma pieces_drop n : (12 < length n)%nat -> pieces n = S (pieces (drop 13 n)).
Proof.
  intros H. unfold pieces. rewrite length_drop. replace (length n) with (1 * 13 + (length n - 13))%nat at 1 by lia.
  rewrite Nat.div_add_l by lia. lia.
Qed.
Lemma pieces_one n : (length n <= 12)%nat -> pieces n = 1%nat.
Proof. intros H. unfold pieces. rewrite Nat.div_small; lia. Qed.

Section LongNames.
Variable junk : list Z.
Hypothesis junk_long : (13 <= length junk)%nat.

(** One entry takes thirteen characters of the name, or the rest of it. *)
Lemma fill_long_spec n : Forall (fun c => 0 < c < 256) n ->
  let '(e, rest) := fill_long_entry junk n in
  exists n1 n2 n3, e = long_entry n1 n2 n3 /\ length n1 = 10%nat /\ length n2 = 12%nat /\ length n3 = 4%nat /\
    Forall (fun x => 0 <= x < 256) (n1 ++ n2 ++ n3) /\
    if (length n <=? 12)%nat then rest = None /\ wstr (wchars (n1 ++ n2 ++ n3)) = n
    else rest = Some (drop 13 n) /\ wchars (n1 ++ n2 ++ n3) = take 13 n.
Proof.
  intros Hn. unfold fill_long_entry. set (w := n ++ [0] ++ junk).
  assert (Hw : (14 + length n <= length w)%nat) by (unfold w; rewrite !length_app; cbn; lia).
  assert (Hcut : forall k, (length n < k)%nat -> wstr (map (fun c => c mod 65536) (take k w)) = n).
  { intros k Hk. unfold w. rewrite take_app, take_ge, map_app, map_mod_small by (auto; lia).
    destruct (k - length n)%nat as [|j] eqn:Ej; [lia|]. cbn [app take map]. rewrite wstr_full by auto. cbn. apply app_nil_r. }
  assert (R0 : forall k, Forall (fun x => 0 <= x < 256) (replicate k 0)) by (intros; apply Forall_replicate; lia).
  destruct (Z.leb_spec (Z.of_nat (length n) + 1 - 5) 0).
  - exists (wbytes (take 5 w)), (replicate 12 0), (replicate 4 0). rewrite length_wbytes, length_take.
    repeat (split; [first [reflexivity|lia]|]). split; [rewrite !Forall_app; auto using wbytes_range|].
    destruct (Nat.leb_spec (length n) 12); [|lia]. split; [reflexivity|].
    rewrite (wchars_app _ _ 5) by (rewrite length_wbytes, length_take; lia). rewrite wchars_wbytes.
    change (replicate 12 0 ++ replicate 4 0) with (replicate (2 * 8) 0). rewrite wchars_zeros. apply wstr_pad; [apply Hcut; lia|].
    rewrite length_map, length_take. lia.
  - destruct (Z.leb_spec (Z.of_nat (length n) + 1 - 5 - 6) 0).
    + exists (wbytes (take 5 w)), (wbytes (take 6 (drop 5 w))), (replicate 4 0).
      rewrite !length_wbytes, !length_take, !length_drop. repeat (split; [first [reflexivity|lia]|]).
      split; [rewrite !Forall_app; auto using wbytes_range|].
      destruct (Nat.leb_spec (length n) 12); [|lia]. split; [reflexivity|].
      rewrite app_assoc, <- wbytes_app, take_take_drop. rewrite (wchars_app _ _ 11) by (rewrite length_wbytes, length_take; lia).
      rewrite wchars_wbytes. change (replicate 4 0) with (replicate (2 * 2) 0). rewrite wchars_zeros. apply wstr_pad; [apply Hcut; lia|].
      rewrite length_map, length_take. lia.
    + exists (wbytes (take 5 w)), (wbytes (take 6 (drop 5 w))), (wbytes (take 2 (drop 11 w))).
      rewrite !length_wbytes, !length_take, !length_drop. repeat (split; [first [reflexivity|lia]|]).
      split; [rewrite !Forall_app; auto using wbytes_range|].
      rewrite app_assoc, <- wbytes_app, take_take_drop, <- wbytes_app. change (5 + 6)%nat with 11%nat. rewrite take_take_drop, wchars_wbytes.
      change (11 + 2)%nat with 13%nat.
      destruct (Nat.leb_spec (length n) 12), (Z.leb_spec (Z.of_nat (length n) + 1 - 5 - 6 - 2) 0); try lia.
      * split; [reflexivity|]. apply Hcut. lia.
      * split; [reflexivity|]. unfold w. rewrite take_app_le by lia. apply map_mod_small. now apply Forall_take.
Qed.

(** The long entries of a name, from the one before the short entry. *)
Definition long_ord (i : Z) : Z := if i =? 1 then LAST_LONG_ENTRY else wrap8 i.
Fixpoint longs (n : nat) (i : Z) (name : list Z) : list (list Z) :=
  match n with
  | O => []
  | S n' =>
      let '(e, rest) := fill_long_entry junk name in
      (long_ord i :: drop 1 e) :: match rest with None => [] | Some name' => longs n' (i + 1) name' end
  end.
(** The first of them and what follows. *)
Lemma longs_cons i n : Forall (fun c => 0 < c < 256) n -> 1 <= i < 229 ->
  exists e rest, fill_long_entry junk n = (e, rest) /\
    let l := long_ord i :: drop 1 e in
    longs (pieces n) i n = l :: match rest with None => [] | Some n' => longs (pieces n') (i + 1) n' end /\
    length l = 32%nat /\ Forall (fun x => 0 <= x < 256) l /\
    byte_at l 0 = long_ord i /\ DIR_Attr l = ATTR_LONG_NAME_MASK /\
    match rest with
    | None => (length n <= 12)%nat /\ wstr (long_name l) = n
    | Some n' => (12 < length n)%nat /\ n' = drop 13 n /\ long_name l = take 13 n
    end.
Proof.
  intros Hn Hi. pose proof (fill_long_spec n Hn) as H. destruct (fill_long_entry junk n) as [e rest] eqn:Ef.
  destruct H as (n1 & n2 & n3 & -> & L1 & L2 & L3 & Hr & H). exists (long_entry n1 n2 n3), rest. split; [reflexivity|]. cbn zeta.
  destruct (long_entry_fields (long_ord i) n1 n2 n3 L1 L2 L3) as (F1 & F2 & F3 & F4).
  assert (Ho : 0 <= long_ord i < 256) by (unfold long_ord, LAST_LONG_ENTRY; destruct (i =? 1); [lia|apply wrap8_range]).
  assert (Hb : Forall (fun x => 0 <= x < 256) (long_ord i :: drop 1 (long_entry n1 n2 n3))).
  { constructor; [exact Ho|]. unfold long_entry. cbn [app drop skipn].
    apply Forall_app in Hr as [? [? ?]%Forall_app]. repeat (apply Forall_app; split; [auto|]).
    repeat (apply Forall_cons; split; [unfold ATTR_LONG_NAME_MASK; lia|]). apply Forall_app. split; [auto|].
    repeat (apply Forall_cons; split; [lia|]). auto. }
  destruct (Nat.leb_spec (length n) 12); destruct H as [-> H].
  - rewrite (pieces_one n) by auto. cbn [longs]. rewrite Ef, F4. auto 10.
  - rewrite (pieces_drop n) by auto. cbn [longs]. rewrite Ef, F4. auto 10.
Qed.
Lemma longs_length n : Forall (fun c => 0 < c < 256) n -> forall i, 1 <= i -> i + Z.of_nat (pieces n) <= 229 ->
  length (longs (pieces n) i n) = pieces n.
Proof.
  remember (pieces n) as k eqn:Ek. revert n Ek. induction k as [|k IH]; intros n Ek Hn i Hi Hb; [reflexivity|].
  destruct (longs_cons i n Hn) as (e & rest & Ef & El & _ & _ & _ & _ & H); [lia|]. rewrite Ek, El. cbn [length].
  destruct rest as [n'|]; destruct H as [Hl H].
  - rewrite pieces_drop in Ek by auto. injection Ek as Ek. destruct H as [-> _]. rewrite <- Ek. rewrite (pieces_drop n), <- Ek by auto. f_equal.
    apply IH; auto; [now apply Forall_drop|lia|lia].
  - now rewrite (pieces_one n).
Qed.
End LongNames.

Section Create.
Context {S : Type} {DF : DirFile S} {DL : DirFileLaws S} (junk : list Z) (junk_long : (13 <= length junk)%nat).

Lemma fill_loop_run : forall k i n s pre mid post, Forall (fun c => 0 < c < 256) n -> pieces n = k -> length mid = k ->
  1 <= i -> i + Z.of_nat k <= 229 -> holds s (pre ++ mid ++ post) ->
  exists s', fill_loop junk k i n (32 * (Z.of_nat (length pre) + Z.of_nat k - 1 + i)) s = Ok (tt, s') /\
    holds s' (pre ++ rev (longs junk k i n) ++ post).
Proof.
  induction k as [|k IH]; intros i n s pre mid post Hn Hk Hm Hi Hb H.
  { unfold pieces in Hk. lia. }
  destruct (longs_cons junk junk_long i n Hn) as (e & rest & Ef & El & Hl & Hr & _ & _ & Hrest); [lia|].
  set (l := long_ord i :: drop 1 e) in *.
  destruct (@exists_last _ mid) as (mid' & x & ->); [intros ->; discriminate|].
  rewrite length_app in Hm. cbn in Hm. assert (Hm' : length mid' = k) by lia.
  replace (pre ++ (mid' ++ [x]) ++ post) with ((pre ++ mid') ++ x :: post) in H by (rewrite <- !app_assoc; reflexivity).
  destruct (holds_write s _ (length (pre ++ mid')) l H) as (s1 & E1 & H1); auto; [rewrite !length_app; cbn; lia|].
  rewrite insert_mid, <- app_assoc in H1. destruct (holds_size _ _ H1). destruct H as (_ & _ & Hsz). rewrite !length_app in Hsz. cbn in Hsz.
  cbn [fill_loop]. rewrite Ef. fold (long_ord i). fold l.
  replace (wrap32 _) with (32 * Z.of_nat (length (pre ++ mid'))) by (rewrite length_app, wrap32_small; unfold DIR_SIZE; lia).
  rewrite (bind_run _ _ _ _ _ E1). rewrite Hk in El. rewrite El. destruct rest as [n'|].
  - destruct Hrest as (Hlen & En & _). assert (Hk' : pieces n' = k) by (rewrite pieces_drop in Hk by auto; rewrite En; lia).
    destruct (IH (i + 1) n' s1 pre mid' (l :: post)) as (s2 & E2 & H2); auto; try lia; [rewrite En; now apply Forall_drop|].
    exists s2. split; [rewrite <- E2; f_equal; lia|]. rewrite Hk'. cbn [rev]. rewrite <- app_assoc. exact H2.
  - destruct Hrest as [Hlen _]. rewrite pieces_one in Hk by auto. assert (k = 0%nat) as -> by lia. destruct mid'; [|discriminate].
    exists s1. split; [reflexivity|exact H1].
Qed.

(** ** Reading entries back *)

Lemma dot_first e : byte_at e 0 <> 46 -> bool_decide (take 11 e = dot_name) || bool_decide (take 11 e = dotdot_name) = false.
Proof.
  intros H. rewrite !bool_decide_eq_false_2; [reflexivity|..]; intros E; apply H; destruct e as [|x e]; try discriminate; now injection E.
Qed.
Section Scan.
Context (s : S) (E : list (list Z)) (k : nat) (e : list Z) (H : holds s E) (Hk : E !! k = Some e).

Lemma scan_read fuel full : exists s', holds s' E /\
  dir_scan (Datatypes.S fuel) (32 * Z.of_nat k) full s =
  (if (byte_at e 0 =? 0) || (byte_at e 0 =? FAT32_INVALID_ENTRY) then dir_scan fuel (32 * Z.of_nat (Datatypes.S k)) full
   else if bool_decide (take 11 e = dot_name) || bool_decide (take 11 e = dotdot_name) then dir_scan fuel (32 * Z.of_nat (Datatypes.S k)) full
   else if DIR_Attr e =? ATTR_LONG_NAME_MASK then
     if MAX_NAME_LEN <=? Z.of_nat (length full) + BYTES_LONGENT then fail Undef
     else dir_scan fuel (32 * Z.of_nat (Datatypes.S k)) (wstr (long_name e ++ full))
   else
     let tmpName := if bool_decide (full = []) then wstr (take 11 e) else map (fun c => Z.land c 255) full in
     let is_dir := negb (Z.land (DIR_Attr e) ATTR_DIRECTORY =? 0) in
     let* fsize := (if is_dir then df_count (DIR_FstClus e) else ret (DIR_FileSize e)) in
     ret (Some (MkFound tmpName e (DIR_FstClus e) fsize (32 * Z.of_nat k) is_dir), 32 * Z.of_nat (Datatypes.S k))) s'.
Proof.
  destruct (holds_read s E k e H Hk) as (s' & Er & H'). exists s'. split; [exact H'|].
  pose proof (holds_size _ _ H) as Hs. pose proof (lookup_lt_Some _ _ _ Hk). destruct H as (_ & _ & Hb).
  cbn [dir_scan]. erewrite bind_run by reflexivity. rewrite Hs. destruct (Z.ltb_spec (32 * Z.of_nat k) (32 * Z.of_nat (length E))); [|lia].
  rewrite (bind_run _ _ _ _ _ Er). rewrite wrap32_small by (unfold DIR_SIZE; lia).
  replace (32 * Z.of_nat k + DIR_SIZE) with (32 * Z.of_nat (Datatypes.S k)) by (unfold DIR_SIZE; lia). reflexivity.
Qed.
End Scan.

Lemma scan_black : forall n fuel s pre post full, holds s (pre ++ replicate n black_entry ++ post) ->
  exists s', holds s' (pre ++ replicate n black_entry ++ post) /\
    dir_scan (n + fuel) (32 * Z.of_nat (length pre)) full s = dir_scan fuel (32 * Z.of_nat (length pre + n)) full s'.
Proof.
  induction n as [|n IH]; intros fuel s pre post full H; [exists s; split; [exact H|now rewrite Nat.add_0_r]|].
  destruct (scan_read s _ (length pre) black_entry H) with (fuel := (n + fuel)%nat) (full := full) as (s1 & H1 & E1).
  { rewrite lookup_app_r, Nat.sub_diag by lia. reflexivity. }
  cbn [Nat.add]. rewrite E1.
  change ((byte_at black_entry 0 =? 0) || (byte_at black_entry 0 =? FAT32_INVALID_ENTRY)) with true. cbn match. clear E1.
  replace (pre ++ replicate (Datatypes.S n) black_entry ++ post) with ((pre ++ [black_entry]) ++ replicate n black_entry ++ post) in *
    by (rewrite <- app_assoc; reflexivity).
  destruct (IH fuel s1 (pre ++ [black_entry]) post full H1) as (s2 & H2 & E2). rewrite length_app in E2. cbn [length] in E2.
  exists s2. split; [exact H2|]. rewrite Nat.add_1_r in E2. rewrite E2. do 2 f_equal. lia.
Qed.

Lemma scan_longs : forall k i n fuel s pre post, Forall (fun c => 0 < c < 256) n -> pieces n = k -> Z.of_nat (length n) < MAX_NAME_LEN ->
  1 <= i -> i + Z.of_nat k <= 46 -> holds s (pre ++ rev (longs junk k i n) ++ post) ->
  exists s', holds s' (pre ++ rev (longs junk k i n) ++ post) /\
    dir_scan (k + fuel) (32 * Z.of_nat (length pre)) [] s = dir_scan fuel (32 * Z.of_nat (length pre + k)) n s'.
Proof.
  induction k as [|k IH]; intros i n fuel s pre post Hn Hk Hlen Hi Hb H; [unfold pieces in Hk; lia|].
  destruct (longs_cons junk junk_long i n Hn) as (e & rest & Ef & El & Hl & Hr & Hb0 & Ha & Hrest); [lia|].
  set (l := long_ord i :: drop 1 e) in *. rewrite Hk in El. rewrite El in *.
  assert (Ho : long_ord i <> 0 /\ long_ord i <> FAT32_INVALID_ENTRY /\ long_ord i <> 46).
  { unfold long_ord, LAST_LONG_ENTRY, FAT32_INVALID_ENTRY. destruct (Z.eqb_spec i 1); [lia|]. rewrite wrap8_small; lia. }
  assert (Hskip : forall full, Z.of_nat (length full) + BYTES_LONGENT < MAX_NAME_LEN -> forall s1 k0, 
    holds s1 (pre ++ rev (match rest with None => [] | Some n' => longs junk (pieces n') (i + 1) n' end) ++ l :: post) ->
    k0 = (length pre + length (match rest with None => [] | Some n' => longs junk (pieces n') (i + 1) n' end))%nat ->
    exists s2, holds s2 (pre ++ rev (match rest with None => [] | Some n' => longs junk (pieces n') (i + 1) n' end) ++ l :: post) /\
      dir_scan (Datatypes.S fuel) (32 * Z.of_nat k0) full s1 = dir_scan fuel (32 * Z.of_nat (Datatypes.S k0)) (wstr (long_name l ++ full)) s2).
  { intros full Hf s1 k0 H1 ->. destruct (scan_read s1 _ (length pre + length (match rest with None => [] | Some n' => longs junk (pieces n') (i + 1) n' end))%nat l H1)
      with (fuel := fuel) (full := full) as (s2 & H2 & E2).
    { rewrite lookup_app_r, Nat.add_comm, Nat.add_sub, lookup_app_r, length_rev, Nat.sub_diag by (rewrite ?length_rev; lia). reflexivity. }
    exists s2. split; [exact H2|]. rewrite E2, Hb0, Ha. destruct Ho as (O1 & O2 & O3).
    rewrite (proj2 (Z.eqb_neq _ _) O1), (proj2 (Z.eqb_neq _ _) O2), dot_first by congruence. cbn [orb]. rewrite Z.eqb_refl.
    destruct (Z.leb_spec MAX_NAME_LEN (Z.of_nat (length full) + BYTES_LONGENT)); [lia|reflexivity]. }
  replace (pre ++ rev (l :: match rest with None => [] | Some n' => longs junk (pieces n') (i + 1) n' end) ++ post)
    with (pre ++ rev (match rest with None => [] | Some n' => longs junk (pieces n') (i + 1) n' end) ++ l :: post) in *
    by (cbn [rev]; now rewrite <- (app_assoc _ [l])).
  destruct rest as [n'|].
  - destruct Hrest as (H12 & En & Hname). assert (Hk' : pieces n' = k) by (rewrite pieces_drop in Hk by auto; rewrite En; lia).
    assert (Hn' : Forall (fun c => 0 < c < 256) n') by (rewrite En; now apply Forall_drop).
    assert (Hlen' : (length n' = length n - 13)%nat) by (rewrite En; apply length_drop).
    rewrite Hk' in *. destruct (IH (i + 1) n' (Datatypes.S fuel) s pre (l :: post) Hn' Hk') as (s1 & H1 & E1); auto; try lia.
    assert (Hll : length (longs junk k (i + 1) n') = k) by (pose proof (longs_length junk junk_long n' Hn' (i + 1)) as X; rewrite Hk' in X; apply X; lia).
    destruct (Hskip n') with (s1 := s1) (k0 := (length pre + k)%nat) as (s2 & H2 & E2); auto; [unfold BYTES_LONGENT; lia|].
    exists s2. split; [exact H2|]. replace (Datatypes.S k + fuel)%nat with (k + Datatypes.S fuel)%nat by lia. rewrite E1, E2.
    replace (length pre + Datatypes.S k)%nat with (Datatypes.S (length pre + k)) by lia. f_equal.
    rewrite Hname, En, take_drop. rewrite <- (app_nil_r n) at 1. rewrite wstr_full by auto. apply app_nil_r.
  - destruct Hrest as [H12 Hname]. rewrite pieces_one in Hk by auto. assert (k = 0%nat) as -> by lia.
    destruct (Hskip [] ltac:(reflexivity) s (length pre) H) as (s2 & H2 & E2); [cbn; lia|].
    exists s2. split; [exact H2|]. cbn [Nat.add]. rewrite E2, app_nil_r, Hname. do 2 f_equal. lia.
Qed.

(** ** Creating a file and finding it again *)

Definition zero_entry : list Z := replicate 32 0.
(** The short entry of a new file. *)
Definition short_entry (n : list Z) (attr first_clus size : Z) : list Z :=
  with_fields (take 10 (n ++ replicate 10 0) ++ replicate 22 0) attr first_clus size.

Lemma short_fields n attr clus size : n <> [] -> 0 <= attr < 256 -> 0 <= clus < 4294967296 -> 0 <= size < 4294967296 ->
  Forall (fun c => 0 < c < 256) n ->
  let e := short_entry n attr clus size in
  length e = 32%nat /\ Forall (fun x => 0 <= x < 256) e /\ byte_at e 0 = nth 0 n 0 /\ byte_at e 10 = 0 /\
  DIR_Attr e = attr /\ DIR_FstClus e = clus /\ DIR_FileSize e = size.
Proof.
  intros Hn Ha Hc Hs Hr e. set (r := take 10 (n ++ replicate 10 0)).
  assert (Lr : length r = 10%nat) by (unfold r; rewrite length_take, length_app, length_replicate; lia).
  assert (Rr : Forall (fun x => 0 <= x < 256) r).
  { apply Forall_take, Forall_app. split; [|apply Forall_replicate; lia]. eapply Forall_impl; [exact Hr|]. cbn. lia. }
  assert (E0 : byte_at r 0 = nth 0 n 0) by (destruct n; [contradiction|reflexivity]).
  unfold e, short_entry. fold r. clearbody r.
  do 10 (destruct r as [|? r]; [discriminate|]). destruct r; [|discriminate].
  set (e' := with_fields _ attr clus size).
  assert (G1 : get16 e' 20 = le_val (le_bytes 2 (clus / 65536))) by reflexivity.
  assert (G2 : get16 e' 26 = le_val (le_bytes 2 (clus mod 65536))) by reflexivity.
  assert (G3 : get32 e' 28 = le_val (le_bytes 4 size)) by reflexivity.
  split; [reflexivity|]. split.
  { repeat (apply Forall_cons in Rr as [? Rr]). unfold e', with_fields, splice. cbn.
    repeat constructor; auto; try lia; apply Z.mod_pos_bound; lia. }
  split; [exact E0|]. split; [reflexivity|]. split; [reflexivity|].
  unfold DIR_FstClus, DIR_FileSize. rewrite G1, G2, G3, !le_val_bytes. change (256 ^ Z.of_nat 2) with 65536.
  change (256 ^ Z.of_nat 4) with 4294967296. rewrite Z.mod_mod, (Z.mod_small size) by lia.
  rewrite (Z.mod_small (clus / 65536)) by zlia. split; [zlia|reflexivity].
Qed.

Lemma pieces_bound n : Z.of_nat (length n) < MAX_NAME_LEN -> (1 <= pieces n <= 10)%nat.
Proof.
  intros H. unfold pieces, MAX_NAME_LEN in *. split; [lia|].
  assert (length n / 13 < 10)%nat by (apply Nat.Div0.div_lt_upper_bound; lia). lia.
Qed.
Lemma dir_alloc_entry_run s pre rest cnt : (1 <= cnt)%nat -> holds s (pre ++ replicate cnt zero_entry ++ rest) ->
  Forall (fun e => free_entry e = false) pre -> Z.of_nat (length pre + 2 * cnt) < 67108864 ->
  exists s', dir_alloc_entry (Z.of_nat cnt) s = Ok (32 * (Z.of_nat (length pre) + 2 * Z.of_nat cnt - 1), s') /\
    holds s' (pre ++ replicate cnt black_entry ++ rest).
Proof.
  intros Hc H Hpre Hlen. pose proof (holds_size _ _ H) as Hs. unfold dir_alloc_entry. rewrite massert_run by zcases.
  erewrite bind_run by reflexivity.
  destruct (alloc_scan_used (Z.of_nat cnt) (Z.of_nat (length pre)) (length pre) (Z.to_nat (df_size s / DIR_SIZE + 1)) 0 s _ H)
    as (s1 & E1 & H1); try lia.
  - intros j Hj. destruct (lookup_lt_is_Some_2 pre (Z.to_nat j)) as [e He]; [lia|]. exists e.
    rewrite lookup_app_l by lia. split; [exact He|]. exact (proj1 (Forall_lookup _ _) Hpre _ _ He).
  - intros j Hj. exists zero_entry. split; [|reflexivity]. rewrite lookup_app_r by lia. rewrite lookup_app_l by (rewrite length_replicate; lia).
    apply lookup_replicate_2. lia.
  - rewrite Hs. unfold DIR_SIZE. rewrite Z.mul_comm, Z.div_mul by lia. rewrite !length_app, length_replicate. lia.
  - change (32 * 0) with 0 in E1. rewrite (bind_run _ _ _ _ _ E1). rewrite massert_run.
    2: { rewrite Hs. unfold DIR_SIZE. rewrite Z.mul_comm, Z.mod_mul by lia. reflexivity. }
    destruct (blacken_run cnt s1 pre (replicate cnt zero_entry) rest) as (s2 & E2 & H2); auto using length_replicate.
    rewrite Nat2Z.id, (bind_run _ _ _ _ _ E2). exists s2. split; [|exact H2].
    unfold ret. do 2 f_equal. rewrite wrap32_small; unfold DIR_SIZE; lia.
Qed.

(** What [dir_alloc_file] and [sync_back] leave in the directory. *)
Lemma create_run s pre post n attr clus size : let cnt := (1 + pieces n)%nat in
  holds s (pre ++ replicate (2 * cnt) zero_entry ++ post) -> Forall (fun e => free_entry e = false) pre -> name_ok n ->
  0 <= attr < 256 -> 0 <= clus < 4294967296 -> 0 <= size < 4294967296 ->
  exists raw s1 s2, dir_alloc_file junk n s = Ok ((32 * (Z.of_nat (length pre) + 2 * Z.of_nat cnt - 1), raw), s1) /\
    sync_back (32 * (Z.of_nat (length pre) + 2 * Z.of_nat cnt - 1)) raw attr clus size s1 = Ok (tt, s2) /\
    holds s2 (pre ++ replicate cnt black_entry ++ rev (longs junk (pieces n) 1 n) ++ short_entry n attr clus size :: post).
Proof.
  intros cnt H Hpre (N0 & Nr & Nl) Ha Hc Hs. pose proof (pieces_bound n Nl) as Hp. pose proof (proj2 (proj2 H)) as Hb.
  rewrite !length_app, length_replicate in Hb. unfold dir_alloc_file. rewrite entry_count.
  replace (replicate (2 * cnt) zero_entry ++ post) with (replicate cnt zero_entry ++ replicate (pieces n) zero_entry ++ zero_entry :: post) in H.
  2: { rewrite app_assoc, <- replicate_add. change (zero_entry :: post) with ([zero_entry] ++ post). rewrite app_assoc, <- replicate_cons_app.
       change (zero_entry :: replicate (cnt + pieces n) zero_entry) with (replicate (Datatypes.S (cnt + pieces n)) zero_entry).
       do 2 f_equal. unfold cnt. lia. }
  replace (1 + Z.of_nat (pieces n)) with (Z.of_nat cnt) by (unfold cnt; lia).
  destruct (dir_alloc_entry_run s pre _ cnt ltac:(unfold cnt; lia) H Hpre ltac:(lia)) as (s1 & E1 & H1).
  rewrite (bind_run _ _ _ _ _ E1). rewrite app_assoc in H1.
  destruct (fill_loop_run (pieces n) 1 n s1 (pre ++ replicate cnt black_entry) (replicate (pieces n) zero_entry) (zero_entry :: post))
    as (s2 & E2 & H2); auto using length_replicate; try lia.
  rewrite length_app, length_replicate in E2.
  replace (Z.to_nat (Z.of_nat cnt - 1)) with (pieces n) by (unfold cnt; lia).
  replace (32 * (Z.of_nat (length pre + cnt) + Z.of_nat (pieces n) - 1 + 1)) with (32 * (Z.of_nat (length pre) + 2 * Z.of_nat cnt - 1)) in E2
    by (unfold cnt; lia).
  rewrite (bind_run _ _ _ _ _ E2). eexists _, s2.
  destruct (short_fields n attr clus size N0 Ha Hc Hs Nr) as (L & R & _).
  rewrite app_assoc in H2.
  destruct (holds_write s2 _ (length ((pre ++ replicate cnt black_entry) ++ rev (longs junk (pieces n) 1 n))) (short_entry n attr clus size) H2) as (s3 & E3 & H3); auto.
  { rewrite (length_app _ (zero_entry :: post)). cbn. lia. }
  rewrite insert_mid, <- !app_assoc in H3. rewrite !length_app, length_replicate, length_rev, longs_length in E3 by (auto; lia).
  exists s3. split; [reflexivity|]. split; [|exact H3]. rewrite <- E3. unfold sync_back, short_entry. f_equal. unfold cnt. lia.
Qed.

Lemma short_not_dots e : byte_at e 10 = 0 -> bool_decide (take 11 e = dot_name) || bool_decide (take 11 e = dotdot_name) = false.
Proof.
  intros H. unfold byte_at in H. change (Z.to_nat 10) with 10%nat in H. rewrite <- (nth_take 11 10) in H by lia.
  rewrite !bool_decide_eq_false_2; [reflexivity|..]; intros E; rewrite E in H; discriminate.
Qed.
Lemma land_255 w : Forall (fun c => 0 < c < 256) w -> map (fun c => Z.land c 255) w = w.
Proof.
  induction 1 as [|c w Hc _ IH]; [reflexivity|]. cbn [map]. rewrite IH. f_equal. change 255 with (Z.ones 8).
  rewrite Z.land_ones, Z.mod_small by (cbn; lia). reflexivity.
Qed.

(** A new file is found again: in a directory whose used entries are followed
    by at least twice as many free ones as the name needs, creating the file
    and writing its entry back leaves the used entries alone, and reading the
    directory from where they end gives the file's name, whole, its first
    cluster and its size. *)
Lemma create_then_find s pre post n attr clus size :
  let cnt := (1 + pieces n)%nat in
  holds s (pre ++ replicate (2 * cnt) zero_entry ++ post) -> Forall (fun e => free_entry e = false) pre ->
  name_ok n -> nth 0 n 0 <> FAT32_INVALID_ENTRY ->
  0 <= attr < 256 -> Z.land attr ATTR_DIRECTORY = 0 -> attr <> ATTR_LONG_NAME_MASK ->
  0 <= clus < 4294967296 -> 0 <= size < 4294967296 ->
  exists off raw s1 s2 s3, dir_alloc_file junk n s = Ok ((off, raw), s1) /\ sync_back off raw attr clus size s1 = Ok (tt, s2) /\
    dirGetDentFrom (32 * Z.of_nat (length pre)) s2 =
      Ok ((Some (MkFound n (short_entry n attr clus size) clus size off false), off + DIR_SIZE), s3) /\
    holds s2 (pre ++ replicate cnt black_entry ++ rev (longs junk (pieces n) 1 n) ++ [short_entry n attr clus size] ++ post).
Proof.
  intros cnt H Hpre Hn Ne Ha Hd Hlm Hc Hs. destruct (create_run s pre post n attr clus size H Hpre Hn Ha Hc Hs) as (raw & s1 & s2 & E1 & E2 & H2).
  fold cnt in E1, E2, H2. destruct Hn as (N0 & Nr & Nl). pose proof (pieces_bound n Nl) as Hp.
  set (off := 32 * (Z.of_nat (length pre) + 2 * Z.of_nat cnt - 1)) in *.
  unfold dirGetDentFrom.
  assert (Hlen : length (longs junk (pieces n) 1 n) = pieces n) by (apply longs_length; auto; lia).
  pose proof (holds_size _ _ H2) as Hsz. pose proof (proj2 (proj2 H2)) as Hb. rewrite !length_app, length_replicate, length_rev, Hlen in Hb, Hsz. cbn [length] in Hb, Hsz.
  assert (Efuel : exists fuel, Z.to_nat (df_size s2 / DIR_SIZE + 1) = (cnt + (pieces n + Datatypes.S fuel))%nat).
  { exists (length pre + length post + 1)%nat. rewrite Hsz. unfold DIR_SIZE. rewrite Z.mul_comm, Z.div_mul by lia. lia. }
  destruct Efuel as [fuel Efuel].
  destruct (scan_black cnt (pieces n + Datatypes.S fuel) s2 pre _ [] H2) as (s3 & H3 & E3).
  rewrite app_assoc in H3.
  destruct (scan_longs (pieces n) 1 n (Datatypes.S fuel) s3 (pre ++ replicate cnt black_entry) (short_entry n attr clus size :: post)) as (s4 & H4 & E4); auto; try lia.
  rewrite length_app, length_replicate in E4.
  destruct (scan_read s4 _ (length pre + cnt + pieces n) (short_entry n attr clus size) H4) with (fuel := fuel) (full := n) as (s5 & H5 & E5).
  { rewrite app_assoc, lookup_app_r by (rewrite !length_app, length_replicate, length_rev, Hlen; lia).
    rewrite !length_app, length_replicate, length_rev, Hlen. replace (_ - _)%nat with 0%nat by lia. reflexivity. }
  destruct (short_fields n attr clus size N0 Ha Hc Hs Nr) as (_ & _ & B0 & B10 & FA & FC & FS).
  exists off, raw, s1, s2, s5. split; [exact E1|]. split; [exact E2|]. split; [|exact H2].
  rewrite massert_run by (unfold DIR_SIZE; rewrite Z.mul_comm, Z.mod_mul by lia; reflexivity).
  erewrite bind_run by reflexivity. rewrite Efuel, wrap32_small by lia. rewrite E3, E4, E5, B0, FA, FC, FS.
  assert (Hz : nth 0 n 0 <> 0) by (destruct n; [contradiction|]; apply Forall_cons in Nr as [? _]; cbn; lia).
  rewrite (proj2 (Z.eqb_neq _ _) Hz), (proj2 (Z.eqb_neq _ _) Ne), (proj2 (Z.eqb_neq _ _) Hlm), Hd. cbn [orb negb].
  rewrite (short_not_dots _ B10). change (negb (0 =? 0)) with false. cbn match. rewrite bool_decide_eq_false_2 by auto.
  unfold bind, ret. rewrite (land_255 n Nr).
  replace (32 * Z.of_nat (length pre + cnt + pieces n)) with off by (unfold off, cnt; lia).
  replace (32 * Z.of_nat (Datatypes.S (length pre + cnt + pieces n))) with (off + DIR_SIZE) by (unfold off, cnt, DIR_SIZE; lia).
  reflexivity.
Qed.
End Create.

(** ** A directory in memory *)

#[export] Instance mem_dir : DirFile (list Z) := {
  df_size s := Z.of_nat (length s);
  df_read off n := gets (slice off n);
  df_write off b := modify (splice off b);
  df_count _ := ret 0
}.
#[export] Program Instance mem_dir_laws : DirFileLaws (list Z) := { df_holds s c := s = c }.
Next Obligation. intros s c ->. reflexivity. Qed.
Next Obligation. intros s c off n -> **. exists c. auto. Qed.
Next Obligation. intros s c off b -> **. eexists. split; reflexivity. Qed.

Definition zeros13 : list Z := replicate 13 0.
(** "hello_world.txt": sixteen bytes with the terminator, two long entries. *)
Definition hello : list Z := [104; 101; 108; 108; 111; 95; 119; 111; 114; 108; 100; 46; 116; 120; 116].
Definition file_A : list Z := 65 :: replicate 31 0.

Definition value_off {S A} (r : res ((Z * A) * S)) : option Z := match r with Ok ((o, _), _) => Some o | Err _ => None end.
Example create_hello : exists s1 s2 s3 raw, dir_alloc_file zeros13 hello (concat ([file_A] ++ replicate 6 zero_entry)) = Ok ((32 * 6, raw), s1) /\
  sync_back (32 * 6) raw 32 1234567 890 s1 = Ok (tt, s2) /\
  dirGetDentFrom 32 s2 = Ok ((Some (MkFound hello (short_entry hello 32 1234567 890) 1234567 890 (32 * 6) false), 32 * 7), s3).
Proof.
  destruct (create_then_find (S := list Z) zeros13 ltac:(cbn; lia) (concat ([file_A] ++ replicate 6 zero_entry)) [file_A] [] hello 32 1234567 890)
    as (off & raw & s1 & s2 & s3 & E1 & E2 & E3 & _);
    [|repeat constructor| |discriminate|lia|reflexivity|discriminate|lia|lia|].
  - split; [reflexivity|]. split; [repeat constructor|reflexivity].
  - split; [discriminate|]. split; [|reflexivity]. repeat (apply Forall_cons; split; [lia|]). constructor.
  - assert (Eo : value_off (dir_alloc_file zeros13 hello (concat ([file_A] ++ replicate 6 zero_entry))) = Some (32 * 6)) by (vm_compute; reflexivity).
    rewrite E1 in Eo. injection Eo as ->. exists s1, s2, s3, raw. auto.
Qed.

(** The entry of a new file is put behind the entries reserved for it, not at
    the last of them: with two free entries followed by a file in use, creating
    "B" reserves offsets 0 and 32, but records offset 96 for the file's entry
    and overwrites the file at 64 with the long name. *)
Theorem dir_alloc_file_clobbers : exists raw s, dir_alloc_file zeros13 [66] (concat [zero_entry; zero_entry; file_A]) = Ok ((96, raw), s) /\
  slice 64 32 s <> file_A.
Proof. eexists _, _. split; [vm_compute; reflexivity|]. vm_compute. discriminate. Qed.

(** A name whose first byte is 0xE5, as in many Chinese names in UTF-8, makes
    an entry that reads as deleted: the file is not found again. *)
Theorem name_E5_is_lost : exists off raw s1 s2 s3 n, dir_alloc_file zeros13 [229; 183; 166] (concat (replicate 4 zero_entry)) = Ok ((off, raw), s1) /\
  sync_back off raw 32 5 6 s1 = Ok (tt, s2) /\ dirGetDentFrom 0 s2 = Ok ((None, n), s3).
Proof.
  eexists _, _, _, _, _, _. split; [vm_compute; reflexivity|]. split; [vm_compute; reflexivity|]. vm_compute. reflexivity.
Qed.
