(* ===== verification/FatDir.v ===== *)
(** * Directories of the volume

    The directory code of [Directory] on the files of [FatFile]: [file_read]
    and [file_write] on a directory, through a buffer on the kernel stack as
    [direntBuf], [fat32_dirent] and [longDir] are, keep the promises of
    [DirFile].  The theorems of [Directory] so hold of directories in clusters
    behind the buffer cache. *)

From S2P Require Import Prelude Bytes BufCache Cluster FatFile Directory.
From Stdlib Require Import ZArith Lia Bool.
From stdpp Require Import base tactics numbers list.
Open Scope Z_scope.

Section FatDir.
Context {S : Type} {SS : SectorStore S} {SL : SectorStoreLaws S}.
Context (fs : FileSystem) (f : Z) (fuel : nat).

#[local] Instance fat_dir : DirFile (world S) := {
  df_size w := (w.(dents) f).(file_size);
  df_read off n :=
    file_read fs f false STACK_BUF off n ;;;
    gets (fun w => mem_read w.(wfs).(kmem) STACK_BUF n);
  df_write off b :=
    on_fs (put_bytes false STACK_BUF b) ;;;
    file_write fs fuel f false STACK_BUF off (Z.of_nat (length b)) ;;;
    ret tt;
  df_count clus :=
    let* n := on_fs (countClusters (Z.to_nat fs.(data_clus_cnt)) fs clus) in
    ret (wrap32 (n * fs.(bytes_per_clus)))
}.

Definition dir_bytes (w : world S) (c : list Z) : Prop :=
  winv w /\ exists l, file_ok fs (wdisk w) (w.(dents) f) l /\
    Z.of_nat (length c) = (w.(dents) f).(file_size) /\
    forall i, 0 <= i < Z.of_nat (length c) -> byte_at c i = fbyte fs (wdisk w) l i.

Context (Hfs : fs_ok fs).

Lemma dir_read_law w c off n : dir_bytes w c -> 0 <= off -> 0 < n -> off + n <= Z.of_nat (length c) ->
  exists w', df_read off n w = Ok (slice off n c, w') /\ dir_bytes w' c.
Proof using SL Hfs.
  intros (Hi & l & Hf & Hs & Hb) Ho Hn Hle. pose proof (fo_max _ _ _ _ Hf) as [Hm _].
  destruct (file_read_ok fs Hfs f l off n false STACK_BUF w Hi Hf Ho ltac:(lia) ltac:(lia)) as (w' & E & M).
  assert (Ek : read_len (file_size (dents w f)) off n = n) by (unfold read_len; destruct (Z.leb_spec (file_size (dents w f)) off); lia).
  rewrite Ek in E, M. cbn [df_read fat_dir]. rewrite (bind_run _ _ _ _ _ E). exists w'. destruct M as [M Ed _]. split.
  - unfold gets. do 2 f_equal. apply byte_ext.
    + apply Nat2Z.inj. rewrite length_mem_read, length_slice by lia. reflexivity.
    + rewrite length_mem_read by lia. intros i Hi'. rewrite byte_at_mem_read, byte_at_slice by lia.
      pose proof (ms_mem _ _ _ _ M (STACK_BUF + i)) as X. cbn [mem_of] in X. rewrite X, dset_in by lia.
      rewrite Hb by lia. f_equal. lia.
  - split; [exact (ms_inv _ _ _ _ M)|]. exists l. rewrite Ed. split; [|split; [exact Hs|]].
    + eapply file_ok_meta; [exact Hfs| |exact Hf]. intros p Hp. apply (ms_disk _ _ _ _ M). lia.
    + intros i Hi'. rewrite Hb by lia. symmetry. apply (fbyte_ext fs Hfs _ _ (dents w f)); [exact Hf|exact (ms_disk _ _ _ _ M)|lia].
Qed.

Context (Hfuel : (0 < fuel)%nat).
Lemma dir_write_law w c off b : dir_bytes w c -> 0 <= off -> b <> [] -> Forall (fun x => 0 <= x < 256) b ->
  off + Z.of_nat (length b) <= Z.of_nat (length c) ->
  exists w', df_write off b w = Ok (tt, w') /\ dir_bytes w' (splice off b c).
Proof using SL Hfs Hfuel.
  intros (Hi & l & Hf & Hs & Hb) Ho Hn _ Hle. assert (Hlen : 0 < Z.of_nat (length b)) by (destruct b; [contradiction|cbn; lia]).
  cbn [df_write fat_dir]. erewrite bind_run by reflexivity. set (w1 := MkWorld _ _ _).
  destruct (file_write_inplace fs Hfs fuel f l off (Z.of_nat (length b)) false STACK_BUF w1 Hfuel Hi Hf Ho Hlen) as (w' & E & D & F).
  { cbn. lia. }
  rewrite (bind_run _ _ _ _ _ E). exists w'. split; [reflexivity|]. split; [exact (wd_inv _ _ D)|].
  exists l. rewrite (wd_dents _ _ D). cbn [dents w1]. rewrite length_splice by lia. split; [|split; [exact Hs|]].
  - eapply file_ok_meta; [exact Hfs| |exact Hf]. exact (fw_meta _ _ _ _ _ _ _ F).
  - intros i Hi'. pose proof (fo_size _ _ _ _ Hf) as [Hsz _]. rewrite (fw_file _ _ _ _ _ _ _ F) by lia.
    rewrite byte_at_splice by lia. unfold dset. destruct (Z.leb_spec off i), (Z.ltb_spec i (off + Z.of_nat (length b))); cbn [andb];
      try (rewrite Hb by lia; reflexivity).
    unfold wmem, mem_of, w1. cbn. unfold mem_write. destruct (Z.leb_spec STACK_BUF (STACK_BUF + (i - off))); [|lia].
    destruct (Z.ltb_spec (STACK_BUF + (i - off)) (STACK_BUF + Z.of_nat (length b))); [|lia]. cbn [andb]. f_equal. lia.
Qed.

#[local] Instance fat_dir_laws : DirFileLaws (world S) := {
  df_holds := dir_bytes;
  df_size_law w c H := match H with conj _ (ex_intro _ _ (conj _ (conj E _))) => eq_sym E end;
  df_read_law := dir_read_law;
  df_write_law := dir_write_law
}.

(** C8. Creating a file in a directory of the volume and reading the directory
    back: the names, first clusters and sizes of [Directory.create_then_find]
    come back from clusters behind the buffer cache, and the directory is still
    a well-formed file. *)
Theorem fat_create_then_find junk w pre post n attr clus size :
  (13 <= length junk)%nat -> let cnt := (1 + pieces n)%nat in
  dir_bytes w (concat (pre ++ replicate (2 * cnt) zero_entry ++ post)) ->
  Forall (fun e => length e = 32%nat) pre -> Forall (fun e => length e = 32%nat) post ->
  Z.of_nat (length pre + 2 * cnt + length post) < 67108864 ->
  Forall (fun e => free_entry e = false) pre ->
  name_ok n -> nth 0 n 0 <> FAT32_INVALID_ENTRY ->
  0 <= attr < 256 -> Z.land attr ATTR_DIRECTORY = 0 -> attr <> ATTR_LONG_NAME_MASK ->
  0 <= clus < 4294967296 -> 0 <= size < 4294967296 ->
  exists off raw w1 w2 w3, dir_alloc_file junk n w = Ok ((off, raw), w1) /\ sync_back off raw attr clus size w1 = Ok (tt, w2) /\
    dirGetDentFrom (32 * Z.of_nat (length pre)) w2 =
      Ok ((Some (MkFound n (short_entry n attr clus size) clus size off false), off + 32), w3) /\
    dir_bytes w2 (concat (pre ++ replicate cnt black_entry ++ rev (longs junk (pieces n) 1 n) ++ [short_entry n attr clus size] ++ post)).
Proof using SL Hfs Hfuel.
  intros Hj cnt Hw L1 L2 Hlen Hpre Hn Ne Ha Hd Hlm Hc Hs.
  destruct (create_then_find junk Hj w pre post n attr clus size) as (off & raw & w1 & w2 & w3 & E1 & E2 & E3 & H2 & _); auto.
  - split; [exact Hw|]. split; [|rewrite !length_app, length_replicate; unfold cnt in *; lia].
    apply Forall_app. split; [exact L1|]. apply Forall_app. split; [apply Forall_replicate; reflexivity|exact L2].
  - exists off, raw, w1, w2, w3. auto.
Qed.
End FatDir.

(** ** An empty root directory *)

Definition dvol_disk (b : Z) : list Z := if b =? 5 then replicate 512 0 else vol_disk b.
Definition dvol : world bcache :=
  MkWorld (MkFst (bufInit (zeroed dvol_disk)) 0 (fun a => a mod 256) (fun _ => 0) 100) vol_dents 0.
Lemma dvol_len b : length (dvol_disk b) = 512%nat.
Proof. unfold dvol_disk. destruct (b =? 5); [reflexivity|apply vol_disk_len]. Qed.
Lemma dvol_inv : winv dvol.
Proof.
  pose proof (bufInit_ok dvol_disk dvol_len) as (H1 & H2 & _). now split.
Qed.
Lemma dvol_root : dir_bytes vol_fs 1 dvol (concat (replicate 16 zero_entry)).
Proof.
  split; [exact dvol_inv|]. exists [4]. split; [constructor|split; [reflexivity|]].
  - right. split; [vol_chain|discriminate].
  - intros i Hi. apply table_of_ok; cbn in *; lia.
  - cbn. lia.
  - change TABLE_MAX with 529408. cbn. lia.
  - intros i Hi. change (concat (replicate 16 zero_entry)) with (replicate 512 0) in *. rewrite length_replicate in Hi.
    rewrite byte_at_replicate by lia. unfold fbyte, nth_clus, clus_addr, wdisk, disk_of, dbyte. cbn [bytes_per_clus first_data_sec vol_fs].
    replace (i / 512) with 0 by zlia. replace (i mod 512) with i by zlia. change (nth (Z.to_nat 0) [4] 0) with 4. cbn [sec_per_clus vol_fs].
    change (ss_view (store (wfs dvol))) with (view (bufInit (zeroed dvol_disk))). rewrite (proj2 (proj2 (bufInit_ok dvol_disk dvol_len))).
    replace ((512 * (3 + (4 - 2) * 1) + i) / 512) with 5 by zlia. change (dvol_disk 5) with (replicate 512 0).
    rewrite byte_at_replicate; [reflexivity|zlia].
Qed.

(** Creating "hi" there. *)
Lemma fat_create_then_find_witness : exists off raw w1 w2 w3,
  @dir_alloc_file _ (fat_dir vol_fs 1 2) (replicate 13 0) [104; 105] dvol = Ok ((off, raw), w1) /\
  @sync_back _ (fat_dir vol_fs 1 2) off raw 32 9 700 w1 = Ok (tt, w2) /\
  @dirGetDentFrom _ (fat_dir vol_fs 1 2) 0 w2 = Ok ((Some (MkFound [104; 105] (short_entry [104; 105] 32 9 700) 9 700 off false), off + 32), w3).
Proof.
  destruct (fat_create_then_find vol_fs 1 2 vol_fs_ok ltac:(lia) (replicate 13 0) dvol [] (replicate 12 zero_entry) [104; 105] 32 9 700)
    as (off & raw & w1 & w2 & w3 & E1 & E2 & E3 & _);
    [cbn; lia|exact dvol_root|constructor|repeat constructor|cbn; lia|constructor| |discriminate|lia|reflexivity|discriminate|lia|lia|].
  - split; [discriminate|]. split; [|reflexivity]. repeat (apply Forall_cons; split; [lia|]). constructor.
  - exists off, raw, w1, w2, w3. auto.
Defined.
