(* ===== verification/Tsleep.v ===== *)
(** * Sleeping with a deadline

    [src/kern/proc/tsleep.c] on top of [Sched].  A [tsevent_t *] is its index
    in [tsevents] plus one, [0] is [NULL].  As in [Sched], one definition is
    one critical section of the queue locks: [tse_alloc] takes the lock of the
    free queue and then the one of the used queue, so it is
    [tse_alloc_take] and [tse_alloc_insert]; [tsleep] with [mtx] [NULL] keeps
    the lock of the used queue until [sleep] has the one of the sleep queue
    ([tsleep_null_enter]), with another mutex it releases it before that
    ([tse_alloc_insert], then [sleep]).  The current time of [tsleep_check] is
    an argument. *)

From S2P Require Import Prelude Sched.
From Stdlib Require Import ZArith Lia Bool.
From stdpp Require Import base tactics numbers list sorting.
Open Scope Z_scope.

Definition NTSEVENTS : Z := 1024.
Definition ETIMEDOUT : Z := 110.

Record tsevent_t : Type := MkTse {
  tse_td : Z;
  tse_wchan : Z;
  tse_wakeus : Z
}.

Record tst : Type := MkTst {
  kern : kst;
  tsevents : Z -> tsevent_t;
  tsevent_freeq : list Z;
  tsevent_usedq : list Z
}.

Definition set_kern k s := MkTst k s.(tsevents) s.(tsevent_freeq) s.(tsevent_usedq).
Definition set_tse e x s := MkTst s.(kern) (upd s.(tsevents) e x) s.(tsevent_freeq) s.(tsevent_usedq).
Definition set_tfree q s := MkTst s.(kern) s.(tsevents) q s.(tsevent_usedq).
Definition set_used q s := MkTst s.(kern) s.(tsevents) s.(tsevent_freeq) q.

(** An operation of the scheduler. *)
Definition on_kern {A : Type} (c : M kst A) : M tst A := fun s =>
  match c s.(kern) with Ok (a, k) => Ok (a, set_kern k s) | Err f => Err f end.

(** [tsleep_init] pushes the events from the last one to the first one. *)
Fixpoint tsleep_init_loop (i : nat) (q : list Z) : list Z :=
  match i with O => q | S i' => tsleep_init_loop i' (Z.of_nat i :: q) end.
Definition tsleep_init (s : tst) : tst :=
  MkTst s.(kern) (fun e => if (1 <=? e) && (e <=? NTSEVENTS) then MkTse 0 0 (s.(tsevents) e).(tse_wakeus) else s.(tsevents) e)
    (tsleep_init_loop (Z.to_nat NTSEVENTS) []) [].

(** The assertion on the place of an event; its first loop, over elements that
    follow themselves, never finds one in a queue that is a list. *)
Definition tse_debug (check : Z) (should_used should_free : bool) (s : tst) : bool :=
  Bool.eqb (bool_decide (check ∈ s.(tsevent_usedq))) should_used &&
  Bool.eqb (bool_decide (check ∈ s.(tsevent_freeq))) should_free.
Definition assert_tse (check : Z) (should_used should_free : bool) : M tst unit :=
  let* b := gets (tse_debug check should_used should_free) in massert b.

Definition tse_alloc_take : M tst Z :=
  let* q := gets tsevent_freeq in
  match q with
  | [] => fail Panic
  | tse :: q' =>
      assert_tse tse false true ;;;
      modify (set_tfree q') ;;;
      assert_tse tse false false ;;;
      ret tse
  end.
(** Before the first event that ends later or never, at the end otherwise. *)
Fixpoint used_insert (ev : Z -> tsevent_t) (tse wakeus : Z) (q : list Z) : list Z :=
  match q with
  | [] => [tse]
  | x :: q' =>
      if (wakeus <? (ev x).(tse_wakeus)) || ((ev x).(tse_wakeus) =? 0)
      then tse :: q else x :: used_insert ev tse wakeus q'
  end.
Definition tse_alloc_insert (tse td chan wakeus : Z) : M tst unit :=
  modify (set_tse tse (MkTse td chan wakeus)) ;;;
  assert_tse tse false false ;;;
  modify (fun s => set_used (if wakeus =? 0 then s.(tsevent_usedq) ++ [tse]
                             else used_insert s.(tsevents) tse wakeus s.(tsevent_usedq)) s) ;;;
  assert_tse tse true false.

(** [(void * )-1]. *)
Definition TIMED_OUT : Z := 18446744073709551615.
Definition tse_set_unused (tse : Z) (timeout : bool) : M tst unit :=
  assert_tse tse true false ;;;
  let* q := gets tsevent_usedq in
  match queue_remove tse q with
  | None => fail Undef
  | Some q' =>
      modify (set_used q') ;;;
      assert_tse tse false false ;;;
      modify (fun s => set_tse tse (MkTse (s.(tsevents) tse).(tse_td) (if timeout then TIMED_OUT else 0)
                                          (s.(tsevents) tse).(tse_wakeus)) s)
  end.

Definition tse_free (tse : Z) : M tst Z :=
  let* x := gets (fun s => s.(tsevents) tse) in
  let r := if x.(tse_wchan) =? 0 then 0 else - ETIMEDOUT in
  modify (set_tse tse (MkTse 0 0 0)) ;;;
  assert_tse tse false false ;;;
  modify (fun s => set_tfree (tse :: s.(tsevent_freeq)) s) ;;;
  assert_tse tse false true ;;;
  ret r.

Section Tsleep.
Variable NCPU : nat.

Definition running_td (c : Z) : M tst Z := on_kern (gets (fun k => k.(cpu_running) c)).
(** [tsleep(chan, NULL, _, wakeus)] from the lock of the used queue to the
    switch to another thread. *)
Definition tsleep_null_enter (c tse chan wakeus : Z) (g : bool) : M tst unit :=
  let* td := running_td c in
  tse_alloc_insert tse td chan wakeus ;;;
  on_kern (Sched.sleep NCPU c chan g).
(** The same with a mutex: two sections. *)
Definition tsleep_mtx_insert (c tse chan wakeus : Z) : M tst unit :=
  let* td := running_td c in
  tse_alloc_insert tse td chan wakeus.
Definition tsleep_mtx_sleep (c chan : Z) (g : bool) : M tst unit := on_kern (Sched.sleep NCPU c chan g).
(** After [sleep] has returned: the end of the sleep, then the event. *)
Definition tsleep_woken (c : Z) : M tst unit := on_kern (sleep_return c).
Definition tsleep_finish (tse : Z) : M tst Z := tse_free tse.
End Tsleep.

(** One [TAILQ_FOREACH] of [twakeup] and [tcleanup]: [TAILQ_REMOVE] leaves the
    links of the removed element alone, so the loop goes on behind it. *)
Fixpoint unuse_pass (p : tsevent_t -> bool) (q : list Z) (removed : bool) : M tst bool :=
  match q with
  | [] => ret removed
  | tse :: q' =>
      let* x := gets (fun s => s.(tsevents) tse) in
      if p x then tse_set_unused tse false ;;; unuse_pass p q' true
      else unuse_pass p q' removed
  end.
Fixpoint unuse_loop (fuel : nat) (p : tsevent_t -> bool) : M tst unit :=
  match fuel with
  | O => fail NoFuel
  | S fuel' =>
      let* q := gets tsevent_usedq in
      let* removed := unuse_pass p q false in
      if removed then unuse_loop fuel' p else ret tt
  end.
Definition twakeup (fuel : nat) (chan : Z) : M tst unit :=
  unuse_loop fuel (fun x => x.(tse_wchan) =? chan) ;;;
  on_kern (wakeup chan).
Definition tcleanup (fuel : nat) (td : Z) : M tst unit :=
  unuse_loop fuel (fun x => x.(tse_td) =? td).

Fixpoint tsleep_check_loop (fuel : nat) (now : Z) : M tst unit :=
  match fuel with
  | O => fail NoFuel
  | S fuel' =>
      let* q := gets tsevent_usedq in
      match q with
      | [] => ret tt
      | tse :: _ =>
          let* x := gets (fun s => s.(tsevents) tse) in
          if (now <? x.(tse_wakeus)) || (x.(tse_wakeus) =? 0) then ret tt
          else
            let chan := x.(tse_wchan) in
            tse_set_unused tse true ;;;
            on_kern (wakeup chan) ;;;
            tsleep_check_loop fuel' now
      end
  end.
Definition tsleep_check (fuel : nat) (now : Z) : M tst unit := tsleep_check_loop fuel now.

(** ** The queues *)

Lemma on_kern_run {A : Type} (c : M kst A) s a k : c s.(kern) = Ok (a, k) -> on_kern c s = Ok (a, set_kern k s).
Proof. unfold on_kern. now intros ->. Qed.

Definition mark (timeout : bool) (x : tsevent_t) : tsevent_t :=
  MkTse x.(tse_td) (if timeout then TIMED_OUT else 0) x.(tse_wakeus).
(** The event has a deadline and it has passed. *)
Definition expired (now : Z) (x : tsevent_t) : bool := negb ((now <? x.(tse_wakeus)) || (x.(tse_wakeus) =? 0)).
(** The order of the used queue: by deadline, those without one last. *)
Definition no_later (a b : Z) : Prop := b = 0 \/ (a <> 0 /\ a <= b).
Definition by_deadline (ev : Z -> tsevent_t) (e f : Z) : Prop := no_later (ev e).(tse_wakeus) (ev f).(tse_wakeus).

Record tinv (s : tst) : Prop := {
  ti_nodup : NoDup (s.(tsevent_usedq) ++ s.(tsevent_freeq));
  ti_sorted : StronglySorted (by_deadline s.(tsevents)) s.(tsevent_usedq)
}.
(** A thread has the event in hand: it is in neither queue. *)
Definition in_hand (e : Z) (s : tst) : Prop := (e ∉ s.(tsevent_usedq)) /\ (e ∉ s.(tsevent_freeq)).

Lemma assert_tse_run e u f s :
  (u = true <-> e ∈ s.(tsevent_usedq)) -> (f = true <-> e ∈ s.(tsevent_freeq)) -> assert_tse e u f s = Ok (tt, s).
Proof.
  intros Hu Hf. unfold assert_tse. erewrite bind_run by reflexivity. unfold tse_debug.
  rewrite <- (bool_decide_ext _ _ Hu), <- (bool_decide_ext _ _ Hf).
  now destruct u, f.
Qed.
Lemma assert_hand_run e s : in_hand e s -> assert_tse e false false s = Ok (tt, s).
Proof. intros [Hu Hf]. apply assert_tse_run; split; intros; try discriminate; contradiction. Qed.

Lemma queue_remove_without e q : NoDup q -> e ∈ q -> queue_remove e q = Some (without e q).
Proof.
  induction q as [|x q IH]; intros Hn Hin; [now apply not_elem_of_nil in Hin|]. apply NoDup_cons in Hn as [Hx Hn]. cbn.
  destruct (Z.eqb_spec x e) as [->|]; cbn.
  - f_equal. symmetry. now apply without_notin.
  - apply elem_of_cons in Hin as [->|Hin]; [congruence|]. now rewrite IH.
Qed.

Lemma filter_filter {A : Type} (p q : A -> bool) l :
  List.filter p (List.filter q l) = List.filter (fun x => q x && p x) l.
Proof. induction l as [|x l IH]; cbn; [reflexivity|]. destruct (q x); cbn; [destruct (p x)|]; now rewrite IH. Qed.
Lemma filter_sorted {A : Type} (R : A -> A -> Prop) (p : A -> bool) l : StronglySorted R l -> StronglySorted R (List.filter p l).
Proof.
  induction 1 as [|x l Hs IH Hx]; cbn; [constructor|]. destruct (p x); [|exact IH]. constructor; [exact IH|].
  rewrite List.Forall_forall in Hx |- *. intros y [Hy _]%List.filter_In. auto.
Qed.
Lemma sorted_ext {A : Type} (R R' : A -> A -> Prop) l :
  (forall x y, x ∈ l -> y ∈ l -> R x y -> R' x y) -> StronglySorted R l -> StronglySorted R' l.
Proof.
  intros H S. induction S as [|x l Hs IH Hx]; [constructor|]. constructor.
  - apply IH. intros a b Ha Hb. apply H; now right.
  - rewrite Forall_forall in Hx |- *. intros y Hy. apply H; [left|now right|auto].
Qed.

Lemma tse_set_unused_run e b s : NoDup (s.(tsevent_usedq) ++ s.(tsevent_freeq)) -> e ∈ s.(tsevent_usedq) ->
  tse_set_unused e b s = Ok (tt, set_tse e (mark b (s.(tsevents) e)) (set_used (without e s.(tsevent_usedq)) s)).
Proof.
  intros [Hn [Hd _]]%NoDup_app He. unfold tse_set_unused.
  erewrite bind_run by (apply assert_tse_run; split; auto; [discriminate|intros X; destruct (Hd e He X)]).
  erewrite bind_run by reflexivity. rewrite queue_remove_without by auto. erewrite bind_run by reflexivity.
  assert (Hh : in_hand e (set_used (without e s.(tsevent_usedq)) s)).
  { split; cbn; [|now apply Hd]. intros [_ X]%filter_in. now rewrite Z.eqb_refl in X. }
  now rewrite (bind_run _ _ _ _ _ (assert_hand_run _ _ Hh)).
Qed.

(** ** [tse_alloc] and [tse_free] *)

Lemma used_insert_perm ev e w q : used_insert ev e w q ≡ₚ e :: q.
Proof.
  induction q as [|x q IH]; cbn; [reflexivity|]. destruct (_ || _); [reflexivity|]. rewrite IH. apply Permutation_swap.
Qed.
Lemma no_later_cmp w x : (w <? x) || (x =? 0) = true -> w <> 0 -> no_later w x.
Proof. intros [?%Z.ltb_lt|?%Z.eqb_eq]%orb_prop ?; unfold no_later; lia. Qed.
Lemma used_insert_sorted ev e w q : w <> 0 -> (ev e).(tse_wakeus) = w ->
  StronglySorted (by_deadline ev) q -> StronglySorted (by_deadline ev) (used_insert ev e w q).
Proof.
  intros Hw He S. induction S as [|x q Hs IH Hx]; cbn; [now repeat constructor|].
  destruct ((w <? tse_wakeus (ev x)) || (tse_wakeus (ev x) =? 0)) eqn:E.
  - constructor; [now constructor|]. apply no_later_cmp in E; [|exact Hw]. constructor; [unfold by_deadline; now rewrite He|].
    eapply Forall_impl; [exact Hx|]. unfold by_deadline, no_later in *. intros y Hy. lia.
  - zbool. constructor; [exact IH|]. rewrite used_insert_perm. constructor; [|exact Hx]. unfold by_deadline, no_later. lia.
Qed.
Lemma sorted_snoc ev e q : (ev e).(tse_wakeus) = 0 ->
  StronglySorted (by_deadline ev) q -> StronglySorted (by_deadline ev) (q ++ [e]).
Proof.
  intros He S. induction S as [|x q Hs IH Hx]; cbn; [now repeat constructor|]. constructor; [exact IH|].
  apply Forall_app. split; [exact Hx|]. repeat constructor. unfold by_deadline, no_later. auto.
Qed.

Lemma tse_alloc_take_run s e q : tinv s -> s.(tsevent_freeq) = e :: q ->
  tse_alloc_take s = Ok (e, set_tfree q s) /\ tinv (set_tfree q s) /\ in_hand e (set_tfree q s).
Proof.
  intros [Hn Hs] Eq. unfold tse_alloc_take. erewrite bind_run by reflexivity. rewrite Eq in Hn |- *.
  rewrite <- Permutation_middle in Hn. apply NoDup_cons in Hn as [He Hn]. rewrite elem_of_app in He.
  assert (Hh : in_hand e (set_tfree q s)) by (split; cbn; tauto).
  erewrite bind_run by (apply assert_tse_run; rewrite ?Eq, ?elem_of_cons; split; auto; try discriminate; tauto).
  erewrite bind_run by reflexivity. erewrite bind_run by now apply assert_hand_run.
  split; [reflexivity|]. split; [now constructor|exact Hh].
Qed.

Lemma tse_alloc_insert_run s e td chan w : tinv s -> in_hand e s ->
  exists q, tse_alloc_insert e td chan w s = Ok (tt, set_used q (set_tse e (MkTse td chan w) s)) /\
    q ≡ₚ e :: s.(tsevent_usedq) /\ tinv (set_used q (set_tse e (MkTse td chan w) s)).
Proof.
  intros [Hn Hs] Hh. set (s1 := set_tse e (MkTse td chan w) s).
  set (q := if w =? 0 then s1.(tsevent_usedq) ++ [e] else used_insert s1.(tsevents) e w s1.(tsevent_usedq)).
  assert (Hp : q ≡ₚ e :: s.(tsevent_usedq)) by (unfold q; destruct (w =? 0); [apply Permutation_app_comm|apply used_insert_perm]).
  exists q. split; [|split; [exact Hp|constructor; cbn]].
  - unfold tse_alloc_insert. rewrite (bind_run _ _ s tt s1) by reflexivity. erewrite bind_run by now apply assert_hand_run.
    rewrite (bind_run _ _ s1 tt (set_used q s1)) by reflexivity. destruct Hh as [Hu Hf].
    apply assert_tse_run; cbn; [|split; [discriminate|contradiction]]. rewrite Hp, elem_of_cons. tauto.
  - destruct Hh as [Hu Hf]. rewrite Hp. cbn. apply NoDup_cons. rewrite elem_of_app. tauto.
  - assert (Hs1 : StronglySorted (by_deadline s1.(tsevents)) s1.(tsevent_usedq)).
    { revert Hs. apply sorted_ext. intros x y Hx Hy. unfold by_deadline. cbn.
      rewrite !upd_ne; auto; intros ->; now apply (proj1 Hh). }
    assert (He : (s1.(tsevents) e).(tse_wakeus) = w) by (cbn; now rewrite upd_eq).
    unfold q. destruct (Z.eqb_spec w 0) as [->|]; [now apply sorted_snoc|now apply used_insert_sorted].
Qed.

Lemma tse_free_run s e : tinv s -> in_hand e s ->
  let s' := set_tfree (e :: s.(tsevent_freeq)) (set_tse e (MkTse 0 0 0) s) in
  tse_free e s = Ok (if (s.(tsevents) e).(tse_wchan) =? 0 then 0 else - ETIMEDOUT, s') /\ tinv s'.
Proof.
  intros [Hn Hs] Hh s'. assert (Hp := Hh). destruct Hp as [Hu Hf]. split.
  - unfold tse_free. do 2 erewrite bind_run by reflexivity. erewrite bind_run by now apply assert_hand_run.
    rewrite (bind_run _ _ _ tt s') by reflexivity.
    assert (Ha : assert_tse e false true s' = Ok (tt, s')).
    { apply assert_tse_run; cbn; [split; [discriminate|contradiction]|rewrite elem_of_cons; tauto]. }
    now rewrite (bind_run _ _ _ _ _ Ha).
  - constructor; cbn.
    + rewrite <- Permutation_middle. apply NoDup_cons. rewrite elem_of_app. tauto.
    + revert Hs. apply sorted_ext. intros x y Hx Hy. unfold by_deadline. cbn. rewrite !upd_ne; auto; intros ->; contradiction.
Qed.

(** ** Wakeups *)

(** The events of [q] that [p] selects were taken out and marked. *)
Record unused (b : bool) (sel : Z -> bool) (s s' : tst) : Prop := {
  un_used : s'.(tsevent_usedq) = List.filter (fun e => negb (sel e)) s.(tsevent_usedq);
  un_free : s'.(tsevent_freeq) = s.(tsevent_freeq);
  un_ev : forall e, s'.(tsevents) e = if sel e && bool_decide (e ∈ s.(tsevent_usedq)) then mark b (s.(tsevents) e) else s.(tsevents) e
}.
Lemma unused_none b sel s s' : (forall e, e ∈ s.(tsevent_usedq) -> sel e = false) -> s'.(tsevent_usedq) = s.(tsevent_usedq) ->
  s'.(tsevent_freeq) = s.(tsevent_freeq) -> s'.(tsevents) = s.(tsevents) -> unused b sel s s'.
Proof.
  intros H Hu Hf He. constructor; auto.
  - rewrite Hu. symmetry. clear Hu. induction (tsevent_usedq s) as [|x q IH]; cbn; [reflexivity|].
    rewrite (H x) by left. cbn. f_equal. apply IH. intros e He'. apply H. now right.
  - intros e. rewrite He. case_bool_decide as X; [now rewrite H|now rewrite andb_false_r].
Qed.
Lemma unused_trans b sel1 sel2 sel s1 s2 s3 :
  unused b sel1 s1 s2 -> unused b sel2 s2 s3 -> (forall e, e ∈ s1.(tsevent_usedq) -> sel e = sel1 e || sel2 e) -> unused b sel s1 s3.
Proof.
  intros [U1 F1 E1] [U2 F2 E2] H. constructor; [|congruence|].
  - rewrite U2, U1, filter_filter. apply List.filter_ext_in. intros e He%list_elem_of_In. rewrite (H e He).
    now destruct (sel1 e), (sel2 e).
  - intros e. rewrite E2, E1, U1. destruct (decide (e ∈ s1.(tsevent_usedq))) as [He|He].
    + rewrite (H e He), (bool_decide_eq_true_2 (e ∈ s1.(tsevent_usedq)) He). destruct (sel1 e) eqn:S1; cbn.
      * rewrite bool_decide_eq_false_2, andb_false_r; auto. intros [_ X]%filter_in. now rewrite S1 in X.
      * rewrite bool_decide_eq_true_2; [reflexivity|]. apply filter_in. now rewrite S1.
    + rewrite (bool_decide_eq_false_2 (e ∈ s1.(tsevent_usedq)) He), !andb_false_r.
      rewrite bool_decide_eq_false_2, andb_false_r; auto. intros [X _]%filter_in. contradiction.
Qed.
Lemma unused_tinv b sel s s' : unused b sel s s' -> tinv s -> tinv s'.
Proof.
  intros [U F E] [Hn Hs]. apply NoDup_app in Hn as (Hn1 & Hd & Hn2). constructor.
  - rewrite U, F. apply NoDup_app. split; [now apply filter_NoDup|]. split; [|exact Hn2]. intros e [He _]%filter_in. auto.
  - rewrite U. apply filter_sorted. revert Hs. apply sorted_ext. intros x y _ _. unfold by_deadline. rewrite !E.
    now destruct (_ && _), (_ && _).
Qed.
Lemma set_unused_unused e b s : tinv s -> e ∈ s.(tsevent_usedq) ->
  let s' := set_tse e (mark b (s.(tsevents) e)) (set_used (without e s.(tsevent_usedq)) s) in
  tse_set_unused e b s = Ok (tt, s') /\ unused b (Z.eqb e) s s'.
Proof.
  intros [Hn _] He s'. split; [now apply tse_set_unused_run|]. constructor; [|reflexivity|].
  - cbn. apply List.filter_ext. intros x. now rewrite Z.eqb_sym.
  - intros x. cbn. unfold upd. rewrite (Z.eqb_sym x e). destruct (Z.eqb_spec e x) as [->|]; [|reflexivity].
    now rewrite bool_decide_eq_true_2.
Qed.

Lemma unuse_pass_run p : forall q rm s, tinv s -> NoDup q -> (forall e, e ∈ q -> e ∈ s.(tsevent_usedq)) ->
  exists s', unuse_pass p q rm s = Ok (rm || existsb (fun e => p (s.(tsevents) e)) q, s') /\
    unused false (fun e => bool_decide (e ∈ q) && p (s.(tsevents) e)) s s' /\ s'.(kern) = s.(kern).
Proof.
  induction q as [|e q IH]; intros rm s I Hq Hin; cbn [unuse_pass existsb].
  - exists s. rewrite orb_false_r. split; [reflexivity|]. split; [|reflexivity]. apply unused_none; auto. 
  - apply NoDup_cons in Hq as [He Hq]. erewrite bind_run by reflexivity. destruct (p (tsevents s e)) eqn:Ep.
    + destruct (set_unused_unused e false s I) as [E1 U1]; [apply Hin; left|]. erewrite bind_run by exact E1.
      set (s1 := set_tse _ _ _) in *.
      assert (Hev : forall x, x ∈ q -> s1.(tsevents) x = s.(tsevents) x) by (intros x Hx; cbn; apply upd_ne; intros ->; contradiction).
      destruct (IH true s1) as (s2 & E2 & U2 & K2); [now apply (unused_tinv _ _ _ _ U1)|exact Hq| |].
      * intros x Hx. cbn. apply filter_in. split; [apply Hin; now right|]. destruct (Z.eqb_spec x e); [subst; contradiction|reflexivity].
      * exists s2. rewrite E2. cbn. rewrite orb_true_r. split; [reflexivity|]. split; [|exact K2].
        apply (unused_trans _ _ _ _ _ _ _ U1 U2). intros x _. destruct (Z.eqb_spec e x) as [<-|Hne]; cbn.
        -- rewrite bool_decide_eq_true_2 by left. exact Ep.
        -- rewrite (upd_ne _ _ _ x) by auto. f_equal. apply bool_decide_ext. rewrite elem_of_cons. intuition congruence.
    + destruct (IH rm s I Hq) as (s2 & E2 & U2 & K2); [intros; apply Hin; now right|].
      exists s2. rewrite E2. split; [reflexivity|]. split; [|exact K2].
      apply (unused_trans _ (fun _ => false) _ _ _ s _ ltac:(now apply unused_none) U2).
      intros x _. cbn. destruct (decide (x = e)) as [->|]; [now rewrite Ep, !andb_false_r|].
      f_equal. apply bool_decide_ext. rewrite elem_of_cons. intuition congruence.
Qed.

Lemma unuse_loop_run p s fuel : tinv s -> (2 <= fuel)%nat ->
  exists s', unuse_loop fuel p s = Ok (tt, s') /\ unused false (fun e => p (s.(tsevents) e)) s s' /\ s'.(kern) = s.(kern).
Proof.
  intros I Hf. destruct fuel as [|[|fuel]]; [lia|lia|]. cbn [unuse_loop]. erewrite bind_run by reflexivity.
  assert (Nd : forall s0, tinv s0 -> NoDup s0.(tsevent_usedq)) by (intros s0 [H _]; apply NoDup_app in H; tauto).
  destruct (unuse_pass_run p s.(tsevent_usedq) false s I (Nd s I)) as (s1 & E1 & U1 & K1); [auto|].
  assert (U1' : unused false (fun e => p (s.(tsevents) e)) s s1).
  { apply (unused_trans _ _ (fun _ => false) _ _ s1 _ U1); [now apply unused_none|].
    intros e He. rewrite bool_decide_eq_true_2 by exact He. now rewrite orb_false_r. }
  erewrite bind_run by exact E1. cbn [orb]. destruct (existsb _ _) eqn:Ex; [|eauto].
  erewrite bind_run by reflexivity. assert (I1 := unused_tinv _ _ _ _ U1 I).
  destruct (unuse_pass_run p s1.(tsevent_usedq) false s1 I1 (Nd s1 I1)) as (s2 & E2 & U2 & K2); [auto|].
  assert (Hno : forall e, e ∈ s1.(tsevent_usedq) -> p (s1.(tsevents) e) = false).
  { intros e He. rewrite (un_used _ _ _ _ U1') in He. apply filter_in in He as [_ Hp%negb_true_iff].
    rewrite (un_ev _ _ _ _ U1'), Hp. exact Hp. }
  assert (Ex2 : existsb (fun e => p (s1.(tsevents) e)) s1.(tsevent_usedq) = false).
  { apply not_true_iff_false. intros (e & He%list_elem_of_In & Hp)%existsb_exists. rewrite Hno in Hp by auto. discriminate. }
  erewrite bind_run by exact E2. rewrite Ex2. exists s2. split; [reflexivity|]. split; [|congruence].
  apply (unused_trans _ _ _ _ _ _ _ U1' U2). intros e He. destruct (p (tsevents s e)) eqn:Ep; [reflexivity|].
  cbn. rewrite (un_ev _ _ _ _ U1'), Ep. cbn. now rewrite Ep, andb_false_r.
Qed.

Section Wake.
Variable NCPU : nat.
Variable NTHREAD : Z.

(** The threads asleep on a channel of [chans] went to the run queue, no
    others did. *)
Record woken (chans : Z -> Prop) (k k' : kst) : Prop := {
  wo_core : core NCPU NTHREAD [] k';
  wo_sleepq : forall t, t ∈ k'.(thread_sleepq) <-> t ∈ k.(thread_sleepq) /\ ~ chans (k.(threads) t).(td_wchan);
  wo_runq : forall t, t ∈ k.(thread_runq) -> t ∈ k'.(thread_runq);
  wo_woken : forall t, t ∈ k.(thread_sleepq) -> chans (k.(threads) t).(td_wchan) -> t ∈ k'.(thread_runq);
  wo_asleep : forall t, t ∈ k'.(thread_sleepq) -> k'.(threads) t = k.(threads) t
}.
Lemma woken_none k chans : core NCPU NTHREAD [] k -> (forall x, ~ chans x) -> woken chans k k.
Proof. intros C H. constructor; auto; [firstorder|]. intros t _ X. now apply H in X. Qed.
Lemma wakeup_woken chan k : core NCPU NTHREAD [] k -> exists k', wakeup chan k = Ok (tt, k') /\ woken (eq chan) k k'.
Proof.
  intros C. destruct (wakeup_run NCPU NTHREAD chan k C) as (k' & E & C' & K & R & Q & _). exists k'. split; [exact E|].
  constructor; auto.
  - intros t. rewrite Q. intuition congruence.
  - intros t Ht. rewrite R, elem_of_app. auto.
  - intros t Ht Hw. rewrite R, elem_of_app. right. apply filter_in. split; [exact Ht|]. now apply Z.eqb_eq.
  - intros t Ht. apply (ca_sleep _ _ K). apply (co_sleep _ _ _ _ C') in Ht. tauto.
Qed.
Lemma woken_trans (A B D : Z -> Prop) k1 k2 k3 : woken A k1 k2 -> woken B k2 k3 -> (forall x, Decision (A x)) ->
  (forall x, D x <-> A x \/ B x) -> woken D k1 k3.
Proof.
  intros [C1 S1 R1 W1 A1] [C2 S2 R2 W2 A2] Dec HD.
  assert (Hth : forall t, t ∈ k2.(thread_sleepq) -> k2.(threads) t = k1.(threads) t) by auto.
  constructor; auto.
  - intros t. rewrite S2, HD. split.
    + intros [H2 HB]. assert (H1 := H2). apply S1 in H1. rewrite Hth in HB by exact H2. tauto.
    + intros [H1 HN]. assert (H2 : t ∈ k2.(thread_sleepq)) by (apply S1; tauto). rewrite Hth by exact H2. tauto.
  - intros t Ht. rewrite HD. destruct (Dec (td_wchan (threads k1 t))) as [HA|HA]; [intros _; eauto|]. intros [|HB]; [contradiction|].
    assert (H2 : t ∈ k2.(thread_sleepq)) by (apply S1; tauto). apply W2; [exact H2|]. now rewrite Hth.
  - intros t Ht. assert (H2 : t ∈ k2.(thread_sleepq)) by (apply S2 in Ht; tauto). rewrite A2 by exact Ht. auto.
Qed.

(** A channel of a used event whose deadline has passed. *)
Definition due (now : Z) (s : tst) (chan : Z) : Prop :=
  exists e, e ∈ s.(tsevent_usedq) /\ expired now (s.(tsevents) e) = true /\ (s.(tsevents) e).(tse_wchan) = chan.

Lemma expired_sorted now s e q : tinv s -> s.(tsevent_usedq) = e :: q -> expired now (s.(tsevents) e) = false ->
  forall x, x ∈ s.(tsevent_usedq) -> expired now (s.(tsevents) x) = false.
Proof.
  intros [_ Hs] Eq He x Hx. rewrite Eq in *. apply elem_of_cons in Hx as [->|Hx]; [exact He|].
  apply StronglySorted_inv in Hs as [_ Hs]. rewrite Forall_forall in Hs. specialize (Hs x Hx). revert Hs He.
  unfold by_deadline, no_later, expired. rewrite !negb_false_iff, !orb_true_iff, !Z.ltb_lt, !Z.eqb_eq. lia.
Qed.

Lemma check_loop_run now : forall fuel s, core NCPU NTHREAD [] s.(kern) -> tinv s -> (length s.(tsevent_usedq) < fuel)%nat ->
  exists s', tsleep_check_loop fuel now s = Ok (tt, s') /\
    unused true (fun e => expired now (s.(tsevents) e)) s s' /\ woken (due now s) s.(kern) s'.(kern).
Proof.
  induction fuel as [|fuel IH]; intros s C I Hf; [lia|]. cbn [tsleep_check_loop]. erewrite bind_run by reflexivity.
  destruct (tsevent_usedq s) as [|e q] eqn:Eq.
  { exists s. split; [reflexivity|]. split.
    - apply unused_none; auto. intros x Hx. rewrite Eq in Hx. now apply not_elem_of_nil in Hx.
    - apply woken_none; auto. intros x (y & Hy & _). rewrite Eq in Hy. now apply not_elem_of_nil in Hy. }
  erewrite bind_run by reflexivity. fold (expired now (tsevents s e)).
  destruct (expired now (tsevents s e)) eqn:Ex; unfold expired in Ex; [apply negb_true_iff in Ex|apply negb_false_iff in Ex]; rewrite Ex.
  - assert (He : e ∈ s.(tsevent_usedq)) by (rewrite Eq; left).
    assert (Hexp : expired now (tsevents s e) = true) by (unfold expired; now rewrite Ex).
    destruct (set_unused_unused e true s I He) as [E1 U1]. erewrite bind_run by exact E1. set (s1 := set_tse _ _ _) in *.
    destruct (wakeup_woken (tse_wchan (tsevents s e)) s.(kern) C) as (k2 & E2 & W2).
    erewrite bind_run by (apply on_kern_run; exact E2). set (s2 := set_kern k2 s1).
    assert (I1 := unused_tinv _ _ _ _ U1 I). assert (I2 : tinv s2) by (destruct I1; now constructor).
    assert (U2 : unused true (Z.eqb e) s s2) by (destruct U1; now constructor).
    destruct (IH s2) as (s3 & E3 & U3 & W3); [apply W2|exact I2| |].
    { cbn. rewrite Eq. cbn. rewrite Z.eqb_refl. cbn. fold (without e q). rewrite without_notin; [cbn in Hf; lia|].
      destruct I as [Hn _]. rewrite Eq in Hn. apply NoDup_cons in Hn. rewrite elem_of_app in Hn. tauto. }
    assert (Hev : forall x, x <> e -> s2.(tsevents) x = s.(tsevents) x) by (intros x Hx; cbn; now rewrite upd_ne).
    exists s3. split; [exact E3|]. split.
    + apply (unused_trans _ _ _ _ _ _ _ U2 U3). intros x _. destruct (Z.eqb_spec e x) as [<-|]; [now rewrite Hexp|]. cbn [orb].
      now rewrite Hev by auto.
    + apply (woken_trans _ _ _ _ _ _ W2 W3); [solve_decision|]. intros x. split.
      * intros (y & Hy & Hy' & Hc). destruct (decide (y = e)) as [->|Hne]; [now left|]. right. exists y.
        rewrite Hev by exact Hne. split; [|auto]. rewrite (un_used _ _ _ _ U2). apply filter_in. split; [exact Hy|].
        now rewrite (proj2 (Z.eqb_neq e y)) by auto.
      * intros [<-|(y & Hy & Hy' & Hc)]; [now exists e|]. rewrite (un_used _ _ _ _ U2) in Hy.
        apply filter_in in Hy as [Hy Hne%negb_true_iff%Z.eqb_neq]. rewrite Hev in * by auto. now exists y.
  - assert (Hno := expired_sorted now s e q I Eq ltac:(unfold expired; now rewrite Ex)). exists s. split; [reflexivity|]. split.
    + now apply unused_none.
    + apply woken_none; auto. intros x (y & Hy & Hy' & _). rewrite Hno in Hy' by auto. discriminate.
Qed.

(** [tse_free] of an event that was marked says how the sleep ended. *)
Lemma free_marked b s s' e sel : tinv s -> unused b sel s s' -> e ∈ s.(tsevent_usedq) -> sel e = true ->
  exists s'', tse_free e s' = Ok (if b then - ETIMEDOUT else 0, s'') /\ tinv s'' /\ e ∈ s''.(tsevent_freeq).
Proof.
  intros I U He Hs. assert (I' := unused_tinv _ _ _ _ U I). destruct U as [U F E].
  assert (Hh : in_hand e s').
  { split; [rewrite U; intros [_ X]%filter_in; now rewrite Hs in X|]. rewrite F. destruct I as [Hn _].
    apply NoDup_app in Hn as (_ & Hd & _). auto. }
  destruct (tse_free_run s' e I' Hh) as [Ef If]. rewrite Ef, E, Hs, bool_decide_eq_true_2 by exact He.
  eexists. split; [now destruct b|]. split; [exact If|]. cbn. left.
Qed.

(** [tsleep_check] returns and ends exactly the sleeps whose deadline has
    passed: their events leave the queue, every thread asleep on one of their
    channels is in the run queue, every other sleeper stays asleep, and
    [tsleep] of an ended one returns [-ETIMEDOUT] and gives its event back. *)
Theorem tsleep_check_fires now s fuel : core NCPU NTHREAD [] s.(kern) -> tinv s -> (length s.(tsevent_usedq) < fuel)%nat ->
  exists s', tsleep_check fuel now s = Ok (tt, s') /\ core NCPU NTHREAD [] s'.(kern) /\ tinv s' /\
    s'.(tsevent_usedq) = List.filter (fun e => negb (expired now (s.(tsevents) e))) s.(tsevent_usedq) /\
    (forall t, t ∈ s'.(kern).(thread_sleepq) <->
       t ∈ s.(kern).(thread_sleepq) /\ ~ due now s (s.(kern).(threads) t).(td_wchan)) /\
    (forall t, t ∈ s.(kern).(thread_sleepq) -> due now s (s.(kern).(threads) t).(td_wchan) -> t ∈ s'.(kern).(thread_runq)) /\
    (forall e, e ∈ s.(tsevent_usedq) -> expired now (s.(tsevents) e) = true ->
       exists s'', tsleep_finish e s' = Ok (- ETIMEDOUT, s'') /\ tinv s'' /\ e ∈ s''.(tsevent_freeq)).
Proof.
  intros C I Hf. destruct (check_loop_run now fuel s C I Hf) as (s' & E & U & W). exists s'. split; [exact E|].
  split; [apply W|]. split; [exact (unused_tinv _ _ _ _ U I)|]. split; [apply U|]. split; [apply W|]. split; [apply W|].
  intros e He Hx. exact (free_marked true s s' e _ I U He Hx).
Qed.

Lemma twakeup_run chan s fuel : core NCPU NTHREAD [] s.(kern) -> tinv s -> (2 <= fuel)%nat ->
  exists s', twakeup fuel chan s = Ok (tt, s') /\ unused false (fun e => (s.(tsevents) e).(tse_wchan) =? chan) s s' /\
    woken (eq chan) s.(kern) s'.(kern).
Proof.
  intros C I Hf. destruct (unuse_loop_run (fun x => x.(tse_wchan) =? chan) s fuel I Hf) as (s1 & E1 & U & K1).
  destruct (wakeup_woken chan s.(kern) C) as (k2 & E2 & W). rewrite <- K1 in E2.
  exists (set_kern k2 s1). unfold twakeup. erewrite bind_run by exact E1. split; [now apply on_kern_run|].
  split; [|exact W]. destruct U; now constructor.
Qed.

(** [twakeup] returns and ends exactly the sleeps on the channel: their events
    leave the queue, the threads asleep on the channel are in the run queue,
    every other sleeper stays asleep, and [tsleep] of an ended one returns 0
    and gives its event back. *)
Theorem twakeup_wakes chan s fuel : core NCPU NTHREAD [] s.(kern) -> tinv s -> (2 <= fuel)%nat ->
  exists s', twakeup fuel chan s = Ok (tt, s') /\ core NCPU NTHREAD [] s'.(kern) /\ tinv s' /\
    s'.(tsevent_usedq) = List.filter (fun e => negb ((s.(tsevents) e).(tse_wchan) =? chan)) s.(tsevent_usedq) /\
    (forall t, t ∈ s'.(kern).(thread_sleepq) <-> t ∈ s.(kern).(thread_sleepq) /\ chan <> (s.(kern).(threads) t).(td_wchan)) /\
    (forall t, t ∈ s.(kern).(thread_sleepq) -> chan = (s.(kern).(threads) t).(td_wchan) -> t ∈ s'.(kern).(thread_runq)) /\
    (forall e, e ∈ s.(tsevent_usedq) -> (s.(tsevents) e).(tse_wchan) = chan ->
       exists s'', tsleep_finish e s' = Ok (0, s'') /\ tinv s'' /\ e ∈ s''.(tsevent_freeq)).
Proof.
  intros C I Hf. destruct (twakeup_run chan s fuel C I Hf) as (s' & E & U & W). exists s'. split; [exact E|].
  split; [apply W|]. split; [exact (unused_tinv _ _ _ _ U I)|]. split; [apply U|]. split; [apply W|]. split; [apply W|].
  intros e He Hx. apply (free_marked false s _ e _ I U He). now apply Z.eqb_eq.
Qed.
End Wake.

(** ** Runs *)

(** Three threads, the first one on CPU 0 and the second one on CPU 1, and
    four events. *)
Definition tboot : tst := MkTst a8 (fun _ => MkTse 0 0 0) [1; 2; 3; 4] [].

(** The first thread sleeps on channel 99 until 3. *)
Definition ts1 : tst := after (tsleep_null_enter 2 0 1 99 3 true) (after tse_alloc_take tboot).
Lemma ts1_ok : core 2 3 [] ts1.(kern) /\ tinv ts1.
Proof.
  assert (I0 : tinv tboot).
  { constructor; cbn; [compute_done|constructor]. }
  destruct (tse_alloc_take_run tboot 1 [2; 3; 4] I0 eq_refl) as (E1 & I1 & H1).
  destruct (tse_alloc_insert_run _ 1 1 99 3 I1 H1) as (q & E2 & _ & I2).
  assert (Ek : Sched.sleep 2 0 99 true a8 = Ok (tt, run1)) by (apply after_ok; vm_compute; reflexivity).
  assert (E3 : ts1 = set_kern run1 (set_used q (set_tse 1 (MkTse 1 99 3) (set_tfree [2; 3; 4] tboot)))).
  { unfold ts1, after at 1. unfold after. rewrite E1. unfold tsleep_null_enter.
    erewrite (bind_run (running_td 0)) by reflexivity. erewrite bind_run by exact E2. unfold on_kern. cbn [kern].
    change (kern (set_used _ _)) with a8. now rewrite Ek. }
  rewrite E3. split; [exact (proj1 (kreach_inv 2 3 _ _ _ (thread_init_inv 2 3 _) run1_reachable))|].
  destruct I2. now constructor.
Qed.

Lemma tsleep_check_fires_witness : exists s', tsleep_check 5 3 ts1 = Ok (tt, s') /\ s'.(tsevent_usedq) = [] /\
  1 ∈ s'.(kern).(thread_runq).
Proof.
  destruct (tsleep_check_fires 2 3 3 ts1 5 (proj1 ts1_ok) (proj2 ts1_ok)) as (s' & E & _ & _ & U & _ & W & _); [vm_compute; lia|].
  exists s'. split; [exact E|]. split; [rewrite U; vm_compute; reflexivity|]. apply W; [vm_compute; left|].
  exists 1. split; [vm_compute; left|]. split; vm_compute; reflexivity.
Defined.
Lemma twakeup_wakes_witness : exists s', twakeup 2 99 ts1 = Ok (tt, s') /\ s'.(tsevent_usedq) = [] /\
  1 ∈ s'.(kern).(thread_runq).
Proof.
  destruct (twakeup_wakes 2 3 99 ts1 2 (proj1 ts1_ok) (proj2 ts1_ok)) as (s' & E & _ & _ & U & _ & W & _); [lia|].
  exists s'. split; [exact E|]. split; [rewrite U; vm_compute; reflexivity|]. apply W; [vm_compute; left|vm_compute; reflexivity].
Defined.

(** The first thread is between the two sections of [tsleep] when the timer
    interrupts CPU 1. *)
Definition lost1 : tst := after tse_alloc_take tboot.
Definition lost2 : tst := after (tsleep_mtx_insert 0 1 99 3) lost1.
Definition lost3 : tst := after (tsleep_check 2 5) lost2.
Definition lost4 : tst := after (tsleep_mtx_sleep 2 0 99 true) lost3.
Lemma lost4_used : lost4.(tsevent_usedq) = [].
Proof. vm_compute. reflexivity. Qed.
Lemma check_empty now fuel s : s.(tsevent_usedq) = [] -> tsleep_check (S fuel) now s = Ok (tt, s).
Proof. intros E. unfold tsleep_check. cbn [tsleep_check_loop]. unfold bind, gets. now rewrite E. Qed.

(** The deadline of a [tsleep] with a mutex can be lost: it releases the used
    queue before it is asleep, and when another CPU's timer ends the sleep in
    between, the thread then falls asleep on a channel without an event, so
    that no later [tsleep_check] does anything for it. *)
Theorem tsleep_timeout_lost : exists e s1 s2 s3 s4,
  tse_alloc_take tboot = Ok (e, s1) /\
  tsleep_mtx_insert 0 e 99 3 s1 = Ok (tt, s2) /\
  tsleep_check 2 5 s2 = Ok (tt, s3) /\
  tsleep_mtx_sleep 2 0 99 true s3 = Ok (tt, s4) /\
  1 ∈ s4.(kern).(thread_sleepq) /\
  forall now fuel, tsleep_check (S fuel) now s4 = Ok (tt, s4).
Proof.
  exists 1, lost1, lost2, lost3, lost4.
  split; [exact (after_ok tse_alloc_take tboot 1 eq_refl)|].
  split; [refine (after_ok (tsleep_mtx_insert 0 1 99 3) lost1 tt _); vm_compute; reflexivity|].
  split; [refine (after_ok (tsleep_check 2 5) lost2 tt _); vm_compute; reflexivity|].
  split; [refine (after_ok (tsleep_mtx_sleep 2 0 99 true) lost3 tt _); vm_compute; reflexivity|].
  split; [vm_compute; left|]. intros now fuel. apply check_empty, lost4_used.
Qed.
