(* ===== verification/Kmalloc.v ===== *)
(** * The kernel heap

    [src/kern/mm/kmalloc.c], [src/include/mm/kmalloc.h].  A size class is its
    index in [malloc_config]; a block is the address of its header, [0] is
    [NULL], and [phead] is the class whose list head it points to.  Headers are
    kept in a map of their own and the bytes behind them in [hmem]: that the
    two never overlap is part of [heap_ok].  One call is one critical section
    of [mtx_kmalloc]; the counter [kmalloc_alloced_size], which [kmalloc] bumps
    behind it, is only for the log.  The pages under the heap come from
    [kpage_alloc], here an interface that [KernelPages] implements with the
    page tables of [Vmm]. *)

From S2P Require Import Prelude StringLib.
From Stdlib Require Import ZArith Lia Bool.
From stdpp Require Import base tactics numbers list.
Open Scope Z_scope.

Definition PAGE_SIZE : Z := 4096.
Definition KERNEL_MALLOC : Z := 30064771072.
Definition MAX_MALLOC_NPAGE : Z := 20000.
(** [sizeof(malloc_header_t)]. *)
Definition HEADER : Z := 24.

Record malloc_header_t : Type := MkHeader { next : Z; phead : Z; hsize : Z }.
Record malloc_config_t : Type := MkConfig { csize : Z; head : Z; cnpage : Z; accual_size : Z }.

(** [size] and [npage] of [malloc_config], up to the entry of size -1. *)
Definition malloc_config : list (Z * Z) :=
  [(64, 40); (128, 40); (256, 80); (512, 80); (1024, 40); (2048, 40); (4096, 0);
   (2 * PAGE_SIZE, 0); (4 * PAGE_SIZE, 0); (6 * PAGE_SIZE, 0); (8 * PAGE_SIZE, 0); (10 * PAGE_SIZE, 0);
   (12 * PAGE_SIZE, 0); (14 * PAGE_SIZE, 0); (16 * PAGE_SIZE, 0); (18 * PAGE_SIZE, 0); (33 * PAGE_SIZE, 0)].

(** What the heap needs from the memory manager: mapping one more page. *)
Class PageMapper (P : Type) : Type := { kpage_alloc : Z -> M P unit }.

Section Heap.
Context {P : Type} {PM : PageMapper P}.

Record heap : Type := MkHeap {
  pages : P;
  heap_top : Z;
  configs : list malloc_config_t;
  headers : Z -> malloc_header_t;
  hmem : mem;
  kmalloc_alloced_size : Z
}.

Definition set_pages p s := MkHeap p s.(heap_top) s.(configs) s.(headers) s.(hmem) s.(kmalloc_alloced_size).
Definition set_top t s := MkHeap s.(pages) t s.(configs) s.(headers) s.(hmem) s.(kmalloc_alloced_size).
Definition set_config i c s := MkHeap s.(pages) s.(heap_top) (<[i := c]> s.(configs)) s.(headers) s.(hmem) s.(kmalloc_alloced_size).
Definition set_header a h s := MkHeap s.(pages) s.(heap_top) s.(configs) (upd s.(headers) a h) s.(hmem) s.(kmalloc_alloced_size).
Definition set_hmem m s := MkHeap s.(pages) s.(heap_top) s.(configs) s.(headers) m s.(kmalloc_alloced_size).
Definition set_alloced n s := MkHeap s.(pages) s.(heap_top) s.(configs) s.(headers) s.(hmem) n.

Definition map_page (va : Z) : M heap unit := fun s =>
  match kpage_alloc va s.(pages) with Ok (_, p) => Ok (tt, set_pages p s) | Err f => Err f end.
(** [for (i = 0; i < n; i++) kpage_alloc(heap_top + i * PAGE_SIZE)]. *)
Fixpoint map_pages (n : nat) (i : Z) : M heap unit :=
  match n with
  | O => ret tt
  | S n' =>
      let* top := gets heap_top in
      map_page (top + i * PAGE_SIZE) ;;;
      map_pages n' (i + 1)
  end.

Definition get_config (i : nat) : M heap malloc_config_t := fun s =>
  match s.(configs) !! i with Some c => Ok (c, s) | None => Err Undef end.
Definition with_head (h : Z) (c : malloc_config_t) := MkConfig c.(csize) h c.(cnpage) c.(accual_size).
Definition with_npage (n : Z) (c : malloc_config_t) := MkConfig c.(csize) c.(head) n c.(accual_size).

Definition list_insert_head (i : nat) (node : Z) : M heap unit :=
  let* c := get_config i in
  modify (fun s => set_header node (MkHeader c.(head) (s.(headers) node).(phead) (s.(headers) node).(hsize)) s) ;;;
  modify (set_config i (with_head node c)).
(** A fresh block at [a] for class [i]. *)
Definition add_block (i : nat) (a : Z) : M heap unit :=
  let* c := get_config i in
  modify (set_header a (MkHeader 0 (Z.of_nat i) c.(accual_size))) ;;;
  list_insert_head i a.
(** [for (j = j0; j < limit; j += size)] over a piece of the heap. *)
Fixpoint carve (fuel : nat) (i : nat) (size j limit : Z) : M heap unit :=
  if j <? limit then
    match fuel with
    | O => fail NoFuel
    | S fuel' =>
        let* top := gets heap_top in
        add_block i (top + j) ;;;
        carve fuel' i size (j + size) limit
    end
  else ret tt.

Definition init_class (i : nat) : M heap unit :=
  let* c := get_config i in
  modify (set_config i (MkConfig c.(csize) 0 c.(cnpage) (c.(csize) - HEADER))) ;;;
  carve (Z.to_nat (c.(cnpage) * PAGE_SIZE / c.(csize))) i c.(csize) 0 (c.(cnpage) * PAGE_SIZE) ;;;
  modify (fun s => set_top (s.(heap_top) + c.(cnpage) * PAGE_SIZE) s).
Fixpoint init_classes (n i : nat) : M heap unit :=
  match n with O => ret tt | S n' => init_class i ;;; init_classes n' (S i) end.
Definition kmalloc_init : M heap unit :=
  let* cs := gets configs in
  map_pages (Z.to_nat (foldr (fun c n => c.(cnpage) + n) 0 cs)) 0 ;;;
  init_classes (length cs) 0.

Definition extend_heap (i : nat) : M heap unit :=
  let* c := get_config i in
  let obj_size := c.(csize) in
  let alloc_npage := Z.max 1 (obj_size / PAGE_SIZE) in
  map_pages (Z.to_nat alloc_npage) 0 ;;;
  let* top := gets heap_top in
  massert (negb (KERNEL_MALLOC + MAX_MALLOC_NPAGE * PAGE_SIZE <? top + PAGE_SIZE)) ;;;
  modify (set_config i (with_npage (c.(cnpage) + alloc_npage) c)) ;;;
  (if obj_size <=? PAGE_SIZE then carve (Z.to_nat (PAGE_SIZE / obj_size)) i obj_size 0 PAGE_SIZE
   else add_block i top) ;;;
  modify (fun s => set_top (s.(heap_top) + alloc_npage * PAGE_SIZE) s).

(** The first class whose blocks are large enough. *)
Fixpoint find_config (size : Z) (cs : list malloc_config_t) (i : nat) : option nat :=
  match cs with
  | [] => None
  | c :: cs' => if size <=? c.(accual_size) then Some i else find_config size cs' (S i)
  end.

(** The payload starts behind the header and is cleared; the pointer to it is
    returned. *)
Definition kmalloc (size : Z) : M heap Z :=
  let* cs := gets configs in
  match find_config size cs 0 with
  | None => fail Panic
  | Some i =>
      let* c0 := get_config i in
      (if c0.(head) =? 0 then extend_heap i else ret tt) ;;;
      let* c := get_config i in
      let header := c.(head) in
      let* h := gets (fun s => s.(headers) header) in
      modify (set_config i (with_head h.(next) c)) ;;;
      let addr := header + HEADER in
      let* m := gets hmem in
      match memset (Z.to_nat h.(hsize)) m addr 0 h.(hsize) with
      | Err f => fail f
      | Ok (_, m') =>
          modify (set_hmem m') ;;;
          modify (fun s => set_alloced (wrap64 (s.(kmalloc_alloced_size) + c.(csize))) s) ;;;
          ret addr
      end
  end.

Definition kfree (ptr : Z) : M heap unit :=
  let header := ptr - HEADER in
  let* h := gets (fun s => s.(headers) header) in
  list_insert_head (Z.to_nat h.(phead)) header ;;;
  let* c := get_config (Z.to_nat h.(phead)) in
  modify (fun s => set_alloced (wrap64 (s.(kmalloc_alloced_size) - c.(csize))) s).
End Heap.
Arguments heap P : clear implicits.

(** ** The invariant *)

(** What it relies on: [room n va] says that from [va] on, [n] more pages can be
    mapped one after the other, [mapped x] that address [x] can be accessed. *)
Class PageMapperLaws (P : Type) {PM : PageMapper P} : Type := {
  room : nat -> Z -> P -> Prop;
  mapped : Z -> P -> Prop;
  room_law : forall n va p, room (S n) va p -> exists p', kpage_alloc va p = Ok (tt, p') /\ room n (va + PAGE_SIZE) p' /\
    (forall x, mapped x p -> mapped x p') /\ (forall x, va <= x < va + PAGE_SIZE -> mapped x p')
}.

Section Invariant.
Context {P : Type} {PM : PageMapper P} {PL : PageMapperLaws P}.
Implicit Types s : heap P.

(** The free list that starts at [a]. *)
Fixpoint chain (hs : Z -> malloc_header_t) (a : Z) (l : list Z) : Prop :=
  match l with [] => a = 0 | x :: l' => a = x /\ x <> 0 /\ chain hs (hs x).(next) l' end.

Definition bsize s (a : Z) : Z := (s.(headers) a).(hsize) + HEADER.
Definition sizes s (i : nat) : option Z := csize <$> s.(configs) !! i.

(** The blocks [B] are inside the heap below [lim], aligned, as large as their
    class says and apart from each other. *)
Record geometry (lim : Z) (B : Z -> Prop) s : Prop := {
  g_block : forall a, B a -> 0 <= (s.(headers) a).(phead) /\ sizes s (Z.to_nat (s.(headers) a).(phead)) = Some (bsize s a) /\
    KERNEL_MALLOC <= a /\ a + bsize s a <= lim /\ a mod 64 = 0;
  g_apart : forall a b, B a -> B b -> a <> b -> a + bsize s a <= b \/ b + bsize s b <= a
}.
(** Every block is in use once or on the free list of its class once. *)
Record lists (live : list Z) (free : nat -> list Z) s : Prop := {
  l_live : NoDup live;
  l_free : forall i, NoDup (free i);
  l_sep : forall i a, a ∈ live -> a ∉ free i;
  l_class : forall i a, a ∈ free i -> (s.(headers) a).(phead) = Z.of_nat i;
  l_chain : forall i c, s.(configs) !! i = Some c -> chain s.(headers) c.(head) (free i)
}.
Definition blocks (live : list Z) (free : nat -> list Z) (a : Z) : Prop := a ∈ live \/ exists i, a ∈ free i.
Definition classes_ok s : Prop := forall i, sizes s i = fst <$> malloc_config !! i.
Record heap_ok (lim : Z) (live : list Z) (free : nat -> list Z) s : Prop := {
  h_geo : geometry lim (blocks live free) s;
  h_lists : lists live free s;
  h_classes : classes_ok s
}.
(** The state between two calls, with [live] handed out. *)
Record heap_inv (live : list Z) s : Prop := {
  hi_ok : exists free, heap_ok s.(heap_top) live free s;
  hi_acc : forall i c, s.(configs) !! i = Some c -> c.(accual_size) = c.(csize) - HEADER;
  hi_top : s.(heap_top) mod 4096 = 0 /\ KERNEL_MALLOC <= s.(heap_top);
  hi_mapped : forall x, KERNEL_MALLOC <= x < s.(heap_top) -> mapped x s.(pages)
}.

Lemma class_size i z : fst <$> malloc_config !! i = Some z ->
  64 <= z <= 33 * 4096 /\ z mod 64 = 0 /\ (z <= 4096 /\ 4096 mod z = 0 \/ 4096 < z /\ z mod 4096 = 0).
Proof.
  intros (x & E & Hx)%fmap_Some. assert (Hin : x ∈ malloc_config) by now apply (list_elem_of_lookup_2 _ i).
  subst z. revert Hin. generalize x. clear. apply Forall_forall. unfold malloc_config, PAGE_SIZE.
  repeat (apply Forall_cons; split; [cbn [fst]; split; [lia|]; split; [reflexivity|]; ((left; split; [lia|reflexivity]) || (right; split; [lia|reflexivity]))|]).
  constructor.
Qed.

Lemma block_size lim live free s a : heap_ok lim live free s -> blocks live free a ->
  64 <= bsize s a <= 33 * 4096 /\ bsize s a mod 64 = 0.
Proof.
  intros [[G _] _ C] Ha. destruct (G a Ha) as (_ & Hs & _). rewrite C in Hs. destruct (class_size _ _ Hs). tauto.
Qed.

(** Moving blocks between the lists, or adding some behind [lim]. *)
Lemma geometry_ext lim lim' (B B' : Z -> Prop) s s' : (forall a, B' a -> B a) -> lim <= lim' ->
  (forall i, sizes s' i = sizes s i) ->
  (forall a, B' a -> (s'.(headers) a).(phead) = (s.(headers) a).(phead) /\ (s'.(headers) a).(hsize) = (s.(headers) a).(hsize)) ->
  geometry lim B s -> geometry lim' B' s'.
Proof.
  intros HB Hl Hs Hh [G A].
  assert (Hb : forall a, B' a -> bsize s' a = bsize s a) by (intros a Ha; unfold bsize; now rewrite (proj2 (Hh a Ha))).
  constructor.
  - intros a Ha. rewrite (proj1 (Hh a Ha)), Hb, Hs by auto. destruct (G a (HB a Ha)) as (? & ? & ? & ? & ?).
    split; [assumption|]. split; [assumption|]. lia.
  - intros a b Ha Hb' Hne. rewrite !Hb by auto. auto.
Qed.

Definition fupd (i : nat) (l : list Z) (free : nat -> list Z) : nat -> list Z :=
  fun k => if bool_decide (k = i) then l else free k.
Lemma fupd_eq i l free : fupd i l free i = l.
Proof. unfold fupd. now rewrite bool_decide_eq_true_2. Qed.
Lemma fupd_ne i l free k : k <> i -> fupd i l free k = free k.
Proof. intros. unfold fupd. now rewrite bool_decide_eq_false_2. Qed.

Lemma chain_ext hs hs' l : forall a, (forall x, x ∈ l -> (hs' x).(next) = (hs x).(next)) -> chain hs a l -> chain hs' a l.
Proof.
  induction l as [|x l IH]; intros a H; cbn; [auto|]. intros (-> & Hx & Hc). split; [reflexivity|]. split; [exact Hx|].
  rewrite H by left. apply IH; [|exact Hc]. intros y Hy. apply H. now right.
Qed.

Lemma sizes_with_head s i c h : s.(configs) !! i = Some c -> forall k, sizes (set_config i (with_head h c) s) k = sizes s k.
Proof.
  intros E k. unfold sizes. cbn. destruct (decide (k = i)) as [->|]; [|now rewrite list_lookup_insert_ne by auto].
  rewrite list_lookup_insert_eq by now apply lookup_lt_Some in E. now rewrite E.
Qed.
Lemma with_head_lookup s i c h k c' : s.(configs) !! i = Some c -> (set_config i (with_head h c) s).(configs) !! k = Some c' ->
  k = i /\ c' = with_head h c \/ k <> i /\ s.(configs) !! k = Some c'.
Proof.
  intros E. cbn. destruct (decide (k = i)) as [->|]; [|rewrite list_lookup_insert_ne by auto; auto].
  rewrite list_lookup_insert_eq by now apply lookup_lt_Some in E. intros [= <-]. auto.
Qed.

(** ** Lists: pushing and popping *)

Definition pushed (i : nat) (c : malloc_config_t) (a : Z) s : heap P :=
  set_config i (with_head a c) (set_header a (MkHeader c.(head) (s.(headers) a).(phead) (s.(headers) a).(hsize)) s).
Lemma list_insert_head_run i a s c : s.(configs) !! i = Some c -> list_insert_head i a s = Ok (tt, pushed i c a s).
Proof. intros E. unfold list_insert_head. erewrite bind_run by (unfold get_config; rewrite E; reflexivity). reflexivity. Qed.

Lemma sizes_pushed i c a s k : s.(configs) !! i = Some c -> sizes (pushed i c a s) k = sizes s k.
Proof. intros E. change (sizes (pushed i c a s) k) with (sizes (set_config i (with_head a c) s) k). now apply sizes_with_head. Qed.
Lemma push_ok lim live live' free i c a s : heap_ok lim live free s -> s.(configs) !! i = Some c ->
  (s.(headers) a).(phead) = Z.of_nat i -> a <> 0 -> (forall k, a ∉ free k) ->
  live ≡ₚ a :: live' -> heap_ok lim live' (fupd i (a :: free i) free) (pushed i c a s).
Proof.
  intros [G [L1 L2 L3 L4 L5] C] E Hp Ha Hf Hl. rewrite Hl in L1. apply NoDup_cons in L1 as [Hal L1].
  assert (Hh : forall x, x <> a -> (pushed i c a s).(headers) x = s.(headers) x) by (intros x Hx; cbn; now rewrite upd_ne).
  assert (Hph : forall x, ((pushed i c a s).(headers) x).(phead) = (s.(headers) x).(phead) /\
                          ((pushed i c a s).(headers) x).(hsize) = (s.(headers) x).(hsize)).
  { intros x. destruct (decide (x = a)) as [->|]; [cbn; now rewrite upd_eq|now rewrite Hh]. }
  constructor.
  - revert G. apply geometry_ext; auto; [|lia|now intros k; apply sizes_pushed].
    intros x [Hx|[k Hx]]; [left; rewrite Hl; now right|]. destruct (decide (k = i)) as [->|Hk].
    + rewrite fupd_eq, elem_of_cons in Hx. destruct Hx as [->|]; [left; rewrite Hl; left|right; eauto].
    + rewrite fupd_ne in Hx by exact Hk. right; eauto.
  - constructor.
    + exact L1.
    + intros k. destruct (decide (k = i)) as [->|Hk]; [rewrite fupd_eq; now apply NoDup_cons|now rewrite fupd_ne].
    + intros k x Hx. destruct (decide (k = i)) as [->|Hk].
      * rewrite fupd_eq, elem_of_cons. intros [->|Hx']; [contradiction|]. apply (L3 i x); auto. rewrite Hl. now right.
      * rewrite fupd_ne by exact Hk. apply L3. rewrite Hl. now right.
    + intros k x Hx. rewrite (proj1 (Hph x)). destruct (decide (k = i)) as [->|Hk].
      * rewrite fupd_eq, elem_of_cons in Hx. destruct Hx as [->|]; auto.
      * rewrite fupd_ne in Hx by exact Hk. auto.
    + intros k c' Ec. destruct (with_head_lookup _ _ _ _ _ _ E Ec) as [[-> ->]|[Hk Ec']].
      * rewrite fupd_eq. cbn. rewrite upd_eq. cbn. split; [reflexivity|]. split; [exact Ha|].
        apply (chain_ext s.(headers)); [|now apply L5]. intros x Hx. rewrite upd_ne; [reflexivity|]. intros ->. now apply (Hf i).
      * rewrite fupd_ne by exact Hk. apply (chain_ext s.(headers)); [|now apply L5]. intros x Hx. rewrite Hh; [reflexivity|].
        intros ->. now apply (Hf k).
  - intros k. rewrite <- C. now apply sizes_pushed.
Qed.

Lemma pop_ok lim live free i c s : heap_ok lim live free s -> s.(configs) !! i = Some c -> c.(head) <> 0 ->
  exists l, free i = c.(head) :: l /\
    heap_ok lim (c.(head) :: live) (fupd i l free) (set_config i (with_head (s.(headers) c.(head)).(next) c) s).
Proof.
  intros [G [L1 L2 L3 L4 L5] C] E Hh. pose proof (L5 i c E) as Hc. destruct (free i) as [|x l] eqn:Ef; [contradiction|].
  destruct Hc as (Ex & Hx & Hc). exists l. split; [now rewrite Ex|]. rewrite Ex in *.
  pose proof (L2 i) as Hn. rewrite Ef in Hn. apply NoDup_cons in Hn as [Hxl Hn].
  assert (Hfree : forall k, x ∈ free k -> k = i).
  { intros k Hk. apply L4 in Hk. assert (Hi : x ∈ free i) by (rewrite Ef; left). apply L4 in Hi. lia. }
  constructor.
  - revert G. apply geometry_ext; auto; [|lia|now intros k; apply sizes_with_head].
    intros y [[->|Hy]%elem_of_cons|[k Hy]]; [right; exists i; rewrite Ef; left|now left|]. right.
    destruct (decide (k = i)) as [->|Hk]; [rewrite fupd_eq in Hy; exists i; rewrite Ef; now right|rewrite fupd_ne in Hy by exact Hk; eauto].
  - constructor.
    + apply NoDup_cons. split; [|exact L1]. intros Hl. apply (L3 i x Hl). rewrite Ef. left.
    + intros k. destruct (decide (k = i)) as [->|Hk]; [now rewrite fupd_eq|now rewrite fupd_ne].
    + intros k y [->|Hy]%elem_of_cons; (destruct (decide (k = i)) as [->|Hk]; [rewrite fupd_eq|rewrite fupd_ne by exact Hk]); auto.
      intros Hy'. apply (L3 i y Hy). rewrite Ef. now right.
    + intros k y. destruct (decide (k = i)) as [->|Hk]; [rewrite fupd_eq|rewrite fupd_ne by exact Hk]; intros Hy; apply L4; auto.
      rewrite Ef. now right.
    + intros k c' Ec. destruct (with_head_lookup _ _ _ _ _ _ E Ec) as [[-> ->]|[Hk Ec']]; [rewrite fupd_eq|rewrite fupd_ne by exact Hk]; auto.
  - intros k. rewrite <- C. now apply sizes_with_head.
Qed.

(** ** New blocks *)

Lemma blocks_below lim live free s a : heap_ok lim live free s -> blocks live free a -> a < lim.
Proof. intros H Ha. pose proof (block_size _ _ _ _ _ H Ha). destruct (g_block _ _ _ (h_geo _ _ _ _ H) a Ha) as (_ & _ & _ & ? & _). lia. Qed.

Lemma fresh_ok lim live free i z a s : heap_ok lim live free s -> sizes s i = Some z -> lim <= a -> KERNEL_MALLOC <= a ->
  a mod 64 = 0 -> heap_ok (a + z) (a :: live) free (set_header a (MkHeader 0 (Z.of_nat i) (z - HEADER)) s).
Proof.
  intros H Ez Hl Hk Hm. pose proof (fun x => blocks_below _ _ _ _ x H) as Hlt'.
  set (s1 := set_header _ _ _).
  assert (Hh : forall x, blocks live free x -> s1.(headers) x = s.(headers) x).
  { intros x Hx. cbn. rewrite upd_ne; [reflexivity|]. specialize (Hlt' x Hx). lia. }
  assert (Hz : 64 <= z) by (rewrite (h_classes _ _ _ _ H) in Ez; destruct (class_size _ _ Ez); lia).
  assert (Hb : bsize s1 a = z) by (unfold bsize; cbn; rewrite upd_eq; cbn; unfold HEADER; lia).
  assert (Hb' : forall x, blocks live free x -> bsize s1 x = bsize s x) by (intros x Hx; unfold bsize; now rewrite Hh).
  destruct H as [[G A] [L1 L2 L3 L4 L5] C]. 
  assert (Hsplit : forall x, blocks (a :: live) free x -> x = a \/ blocks live free x).
  { intros x [[->|Hx]%elem_of_cons|Hx]; [now left|right; now left|right; now right]. }
  constructor; [constructor| |exact C].
  - intros x [->|Hx]%Hsplit.
    + rewrite Hb. cbn. rewrite upd_eq. cbn. rewrite Nat2Z.id. split; [lia|]. split; [exact Ez|]. lia.
    + rewrite Hh, Hb' by exact Hx. destruct (G x Hx) as (? & ? & ? & ? & ?). split; [assumption|]. split; [assumption|]. lia.
  - intros x y Hx Hy Hne. apply Hsplit in Hx, Hy. destruct Hx as [->|Hx], Hy as [->|Hy]; [congruence| | |].
    + right. rewrite Hb' by exact Hy. destruct (G y Hy) as (_ & _ & _ & ? & _). lia.
    + left. rewrite Hb' by exact Hx. destruct (G x Hx) as (_ & _ & _ & ? & _). lia.
    + rewrite !Hb' by auto. auto.
  - constructor; auto.
    + apply NoDup_cons. split; [|exact L1]. intros Ha. specialize (Hlt' a (or_introl Ha)). lia.
    + intros k x [->|Hx]%elem_of_cons; [|auto]. intros Ha. specialize (Hlt' a (or_intror (ex_intro _ k Ha))). lia.
    + intros k x Hx. rewrite Hh by (right; eauto). auto.
    + intros k c Ec. apply (chain_ext s.(headers)); [|now apply L5]. intros x Hx. rewrite Hh; [reflexivity|]. right; eauto.
Qed.

(** What carving up a piece of the heap for class [i] leaves alone. *)
Record carved (i : nat) (lim : Z) s s' : Prop := {
  cv_top : s'.(heap_top) = s.(heap_top);
  cv_pages : s'.(pages) = s.(pages);
  cv_hmem : s'.(hmem) = s.(hmem);
  cv_old : forall x, x < lim -> s'.(headers) x = s.(headers) x;
  cv_other : forall k, k <> i -> s'.(configs) !! k = s.(configs) !! k;
  cv_class : forall c, s.(configs) !! i = Some c -> exists h, s'.(configs) !! i = Some (with_head h c)
}.
Lemma carved_refl i lim s : carved i lim s s.
Proof. constructor; auto. intros c E. exists c.(head). rewrite E. now destruct c. Qed.
Lemma carved_trans i lim lim' s1 s2 s3 : lim <= lim' -> carved i lim s1 s2 -> carved i lim' s2 s3 -> carved i lim s1 s3.
Proof.
  intros Hl [A1 A2 A3 A4 A5 A6] [B1 B2 B3 B4 B5 B6]. constructor; try congruence.
  - intros x Hx. rewrite B4, A4 by lia. reflexivity.
  - intros k Hk. rewrite B5, A5 by exact Hk. reflexivity.
  - intros c E. destruct (A6 c E) as [h E2]. destruct (B6 _ E2) as [h' E3]. exists h'. exact E3.
Qed.

Lemma add_block_run lim live free i c a s : heap_ok lim live free s -> s.(configs) !! i = Some c ->
  c.(accual_size) = c.(csize) - HEADER -> lim <= a -> KERNEL_MALLOC <= a -> a mod 64 = 0 ->
  exists s', add_block i a s = Ok (tt, s') /\ heap_ok (a + c.(csize)) live (fupd i (a :: free i) free) s' /\ carved i lim s s' /\
    s'.(configs) !! i = Some (with_head a c).
Proof.
  intros H E Ea Hl Hk Hm. set (s1 := set_header a (MkHeader 0 (Z.of_nat i) (c.(csize) - HEADER)) s).
  assert (H1 : heap_ok (a + c.(csize)) (a :: live) free s1) by (apply (fresh_ok lim); auto; unfold sizes; now rewrite E).
  exists (pushed i c a s1). split; [|split; [|split]].
  - unfold add_block. erewrite bind_run by (unfold get_config; rewrite E; reflexivity). rewrite Ea.
    rewrite (bind_run _ _ s tt s1) by reflexivity. now apply list_insert_head_run.
  - apply (push_ok _ (a :: live)); auto.
    + cbn. now rewrite upd_eq.
    + unfold KERNEL_MALLOC in Hk. lia.
    + intros k Ha. pose proof (blocks_below _ _ _ _ a H (or_intror (ex_intro _ k Ha))). lia.
  - constructor; try reflexivity.
    + intros x Hx. cbn. rewrite !upd_ne by lia. reflexivity.
    + intros k Hki. cbn. now rewrite list_lookup_insert_ne by auto.
    + intros c' Ec'. exists a. cbn. rewrite list_lookup_insert_eq by now apply lookup_lt_Some in E. congruence.
  - cbn. now rewrite list_lookup_insert_eq by now apply lookup_lt_Some in E.
Qed.

(** Cutting [n] blocks of size [z] from offset [j] of the heap's top. *)
Lemma carve_run n : forall live free i c z j s, heap_ok (s.(heap_top) + j) live free s -> s.(configs) !! i = Some c ->
  c.(csize) = z -> c.(accual_size) = z - HEADER -> KERNEL_MALLOC <= s.(heap_top) + j -> (s.(heap_top) + j) mod 64 = 0 ->
  exists free' s', carve n i z j (j + Z.of_nat n * z) s = Ok (tt, s') /\ heap_ok (s.(heap_top) + j + Z.of_nat n * z) live free' s' /\
    carved i (s.(heap_top) + j) s s' /\ (forall c', s'.(configs) !! i = Some c' -> (0 < n)%nat -> c'.(head) <> 0).
Proof.
  induction n as [|n IH]; intros live free i c z j s H E Ez Ea Hk Hm.
  - exists free, s. replace (j + Z.of_nat 0 * z) with j by lia. cbn [carve]. rewrite Z.ltb_irrefl. split; [reflexivity|].
    split; [now rewrite Z.mul_0_l, Z.add_0_r|]. split; [apply carved_refl|lia].
  - assert (Hz : 64 <= z /\ z mod 64 = 0).
    { pose proof (h_classes _ _ _ _ H i) as Hc. unfold sizes in Hc. rewrite E in Hc. cbn in Hc. rewrite Ez in Hc. symmetry in Hc.
      destruct (class_size _ _ Hc). lia. }
    cbn [carve]. rewrite (proj2 (Z.ltb_lt _ _)) by lia. erewrite bind_run by reflexivity.
    destruct (add_block_run _ live free i c (s.(heap_top) + j) s H E) as (s1 & E1 & H1 & V1 & C1); [congruence|lia|exact Hk|exact Hm|].
    erewrite bind_run by exact E1. rewrite Ez in H1.
    destruct (IH live (fupd i (s.(heap_top) + j :: free i) free) i (with_head (s.(heap_top) + j) c) z (j + z) s1) as (free' & s2 & E2 & H2 & V2 & N2); auto.
    + rewrite (cv_top _ _ _ _ V1). now rewrite Z.add_assoc.
    + rewrite (cv_top _ _ _ _ V1). lia.
    + rewrite (cv_top _ _ _ _ V1), Z.add_assoc. rewrite <- Z.add_mod_idemp_l, Hm, Z.add_0_l by lia. apply Hz.
    + exists free', s2. replace (j + Z.of_nat (S n) * z) with (j + z + Z.of_nat n * z) by lia. split; [exact E2|].
      rewrite (cv_top _ _ _ _ V1) in *. split; [|split].
      * replace (s.(heap_top) + j + Z.of_nat (S n) * z) with (s.(heap_top) + (j + z) + Z.of_nat n * z) by lia. exact H2.
      * apply (carved_trans _ _ (s.(heap_top) + (j + z)) _ s1); auto. lia.
      * intros c' Ec' _. destruct n as [|n]; [|apply N2; auto; lia]. cbn [carve] in E2.
        replace (j + z + Z.of_nat 0 * z) with (j + z) in E2 by lia. rewrite Z.ltb_irrefl in E2. injection E2 as <-.
        rewrite C1 in Ec'. injection Ec' as <-. cbn. unfold KERNEL_MALLOC in Hk. lia.
Qed.

Lemma map_pages_run n : forall m i s, room (n + m) (s.(heap_top) + i * PAGE_SIZE) s.(pages) ->
  exists p, map_pages n i s = Ok (tt, set_pages p s) /\ room m (s.(heap_top) + (i + Z.of_nat n) * PAGE_SIZE) p /\
    (forall x, mapped x s.(pages) -> mapped x p) /\
    (forall x, s.(heap_top) + i * PAGE_SIZE <= x < s.(heap_top) + (i + Z.of_nat n) * PAGE_SIZE -> mapped x p).
Proof.
  induction n as [|n IH]; intros m i s H; cbn [map_pages].
  - exists s.(pages). split; [now destruct s|]. rewrite Z.add_0_r. split; [exact H|]. split; [auto|lia].
  - erewrite bind_run by reflexivity. destruct (room_law _ _ _ H) as (p1 & E1 & H1 & K1 & N1).
    erewrite bind_run by (unfold map_page; rewrite E1; reflexivity).
    destruct (IH m (i + 1) (set_pages p1 s)) as (p2 & E2 & H2 & K2 & N2).
    + cbn [heap_top set_pages pages]. replace (s.(heap_top) + (i + 1) * PAGE_SIZE) with (s.(heap_top) + i * PAGE_SIZE + PAGE_SIZE) by lia. exact H1.
    + cbn [heap_top set_pages pages] in *. exists p2. split; [exact E2|]. replace (i + Z.of_nat (S n)) with (i + 1 + Z.of_nat n) by lia.
      split; [exact H2|]. split; [auto|]. intros x Hx.
      destruct (Z.lt_ge_cases x (s.(heap_top) + i * PAGE_SIZE + PAGE_SIZE)); [apply K2, N1; lia|apply N2; lia].
Qed.

Lemma heap_ok_ext lim lim' live free s s' : lim <= lim' -> s'.(headers) = s.(headers) ->
  (forall k c, s'.(configs) !! k = Some c -> exists c0, s.(configs) !! k = Some c0 /\ c.(head) = c0.(head)) ->
  (forall i, sizes s' i = sizes s i) -> heap_ok lim live free s -> heap_ok lim' live free s'.
Proof.
  intros Hl Hh Hc Hs [G [L1 L2 L3 L4 L5] C]. constructor.
  - revert G. apply geometry_ext; auto. intros a _. now rewrite Hh.
  - constructor; auto; rewrite Hh; auto. intros k c E. destruct (Hc k c E) as (c0 & E0 & ->). auto.
  - intros i. now rewrite Hs.
Qed.

(** [extend_heap] adds the pages of one object, or one page of objects. *)
Definition ext_pages (z : Z) : Z := Z.max 1 (z / PAGE_SIZE).
Definition heap_limit : Z := KERNEL_MALLOC + MAX_MALLOC_NPAGE * PAGE_SIZE.
Record extended (i : nat) (m : nat) s s' : Prop := {
  ex_top : s'.(heap_top) = s.(heap_top) + ext_pages (default 0 (sizes s i)) * PAGE_SIZE;
  ex_room : room m s'.(heap_top) s'.(pages);
  ex_mapped : forall x, mapped x s.(pages) \/ s.(heap_top) <= x < s'.(heap_top) -> mapped x s'.(pages);
  ex_hmem : s'.(hmem) = s.(hmem);
  ex_old : forall x, x < s.(heap_top) -> s'.(headers) x = s.(headers) x;
  ex_other : forall k, k <> i -> s'.(configs) !! k = s.(configs) !! k;
  ex_class : exists c, s'.(configs) !! i = Some c /\ c.(head) <> 0 /\ sizes s i = Some c.(csize) /\ c.(accual_size) = c.(csize) - HEADER
}.
Lemma extend_carve live free i c s : heap_ok s.(heap_top) live free s -> s.(configs) !! i = Some c ->
  c.(accual_size) = c.(csize) - HEADER -> s.(heap_top) mod 4096 = 0 -> KERNEL_MALLOC <= s.(heap_top) ->
  exists free' s', (if c.(csize) <=? PAGE_SIZE then carve (Z.to_nat (PAGE_SIZE / c.(csize))) i c.(csize) 0 PAGE_SIZE
                    else add_block i s.(heap_top)) s = Ok (tt, s') /\
    heap_ok (s.(heap_top) + ext_pages c.(csize) * PAGE_SIZE) live free' s' /\ carved i s.(heap_top) s s' /\
    (forall c', s'.(configs) !! i = Some c' -> c'.(head) <> 0).
Proof.
  intros H E Ea Ht Hk. pose proof (h_classes _ _ _ _ H i) as Hc. unfold sizes in Hc. rewrite E in Hc. symmetry in Hc.
  destruct (class_size _ _ Hc) as (Hz & Hz64 & Hz'). set (z := c.(csize)) in *. unfold ext_pages, PAGE_SIZE in *.
  assert (H64 : s.(heap_top) mod 64 = 0) by zlia.
  destruct (Z.leb_spec z 4096) as [Hle|Hgt].
  - destruct Hz' as [[_ Hd]|]; [|lia]. assert (Hq : z * (4096 / z) = 4096) by (pose proof (Z.div_mod 4096 z ltac:(lia)); lia).
    assert (Hpos : 0 < 4096 / z) by (apply Z.div_str_pos; lia).
    destruct (carve_run (Z.to_nat (4096 / z)) live free i c z 0 s) as (free' & s' & E' & H' & V' & N'); rewrite ?Z.add_0_r; auto.
    rewrite Z2Nat.id, Z.add_0_l, (Z.mul_comm _ z), Hq in E' by lia. rewrite Z2Nat.id, !Z.add_0_r, (Z.mul_comm _ z), Hq in H' by lia.
    exists free', s'. split; [exact E'|]. rewrite Z.add_0_r in V'. split; [|split; [exact V'|intros; apply N'; auto; lia]].
    revert H'. apply heap_ok_ext; auto; [zlia|eauto].
  - destruct Hz' as [|[_ Hd]]; [lia|].
    destruct (add_block_run s.(heap_top) live free i c s.(heap_top) s H E) as (s' & E' & H' & V' & N'); auto; [lia|].
    exists (fupd i (s.(heap_top) :: free i) free), s'. split; [exact E'|]. split; [|split; [exact V'|]].
    + revert H'. apply heap_ok_ext; auto; [fold z; zlia|eauto].
    + intros c' Ec'. rewrite N' in Ec'. injection Ec' as <-. cbn. unfold KERNEL_MALLOC in Hk. lia.
Qed.
Lemma extend_heap_run live free i c m s : heap_ok s.(heap_top) live free s -> s.(configs) !! i = Some c ->
  c.(accual_size) = c.(csize) - HEADER -> s.(heap_top) mod 4096 = 0 -> KERNEL_MALLOC <= s.(heap_top) ->
  s.(heap_top) + PAGE_SIZE <= heap_limit -> room (Z.to_nat (ext_pages c.(csize)) + m) s.(heap_top) s.(pages) ->
  exists free' s', extend_heap i s = Ok (tt, s') /\ heap_ok s'.(heap_top) live free' s' /\ extended i m s s'.
Proof.
  intros H E Ea Ht Hk Hl Hr. set (k := ext_pages c.(csize)) in *. assert (Hkp : 1 <= k) by (unfold k, ext_pages; lia).
  destruct (map_pages_run (Z.to_nat k) m 0 s) as (p & Ep & Hp & Kp & Np); [now rewrite Z.mul_0_l, Z.add_0_r|].
  rewrite Z2Nat.id, Z.add_0_l, ?Z.mul_0_l, ?Z.add_0_r in Hp, Np by lia.
  set (c1 := with_npage (c.(cnpage) + k) c). set (s1 := set_config i c1 (set_pages p s)).
  assert (E1 : s1.(configs) !! i = Some c1) by (cbn; now rewrite list_lookup_insert_eq by now apply lookup_lt_Some in E).
  assert (Hcfg : forall x c', s1.(configs) !! x = Some c' -> exists c0, s.(configs) !! x = Some c0 /\ c'.(head) = c0.(head)).
  { intros x c' Ex. destruct (decide (x = i)) as [->|Hx]; [exists c; split; [exact E|]; rewrite E1 in Ex; now injection Ex as <-|].
    cbn in Ex. rewrite list_lookup_insert_ne in Ex by auto. eauto. }
  assert (Hsz : forall x, sizes s1 x = sizes s x).
  { intros x. unfold sizes. destruct (decide (x = i)) as [->|Hx]; [now rewrite E1, E|]. cbn. now rewrite list_lookup_insert_ne by auto. }
  assert (H1 : heap_ok s1.(heap_top) live free s1) by (revert H; apply heap_ok_ext; auto; cbn; lia).
  destruct (extend_carve live free i c1 s1 H1 E1 Ea Ht Hk) as (free' & s2 & E2 & H2 & V2 & N2).
  exists free', (set_top (s2.(heap_top) + k * PAGE_SIZE) s2). split; [|split].
  - unfold extend_heap. erewrite bind_run by (unfold get_config; rewrite E; reflexivity). cbv zeta.
    fold (ext_pages (csize c)). fold k. erewrite bind_run by exact Ep. erewrite bind_run by reflexivity.
    rewrite massert_run by (fold heap_limit; cbn; zcases). rewrite (bind_run _ _ _ tt s1) by reflexivity.
    change (csize c) with (csize c1). erewrite bind_run by exact E2. reflexivity.
  - revert H2. apply heap_ok_ext; auto; [|eauto]. cbn. rewrite (cv_top _ _ _ _ V2). cbn. fold k. lia.
  - constructor; cbn.
    + rewrite (cv_top _ _ _ _ V2). unfold sizes. rewrite E. reflexivity.
    + rewrite (cv_top _ _ _ _ V2), (cv_pages _ _ _ _ V2). exact Hp.
    + intros x. rewrite (cv_top _ _ _ _ V2), (cv_pages _ _ _ _ V2). cbn. intros [Hx|Hx]; [auto|apply Np; lia].
    + apply (cv_hmem _ _ _ _ V2).
    + apply (cv_old _ _ _ _ V2).
    + intros x Hx. rewrite (cv_other _ _ _ _ V2) by exact Hx. cbn. now rewrite list_lookup_insert_ne by auto.
    + destruct (cv_class _ _ _ _ V2 c1 E1) as [h Eh]. exists (with_head h c1). split; [exact Eh|]. split; [now apply N2|].
      split; [unfold sizes; now rewrite E|exact Ea].
Qed.

(** ** [kmalloc] and [kfree] *)

Lemma find_config_spec size : forall cs i k, find_config size cs i = Some k ->
  exists c, (i <= k)%nat /\ cs !! (k - i)%nat = Some c /\ size <= c.(accual_size) /\
    forall j c', (i <= j < k)%nat -> cs !! (j - i)%nat = Some c' -> c'.(accual_size) < size.
Proof.
  induction cs as [|c cs IH]; intros i k; cbn; [discriminate|]. destruct (Z.leb_spec size c.(accual_size)) as [Hl|Hl].
  - intros [= <-]. exists c. rewrite Nat.sub_diag. split; [lia|]. split; [reflexivity|]. split; [exact Hl|]. intros; lia.
  - intros E. destruct (IH (S i) k E) as (c0 & Hi & E0 & H0 & Hmin). exists c0. split; [lia|].
    replace (k - i)%nat with (S (k - S i)) by lia. split; [exact E0|]. split; [exact H0|].
    intros j c' Hj Ej. destruct (decide (j = i)) as [->|]; [rewrite Nat.sub_diag in Ej; injection Ej as <-; exact Hl|].
    replace (j - i)%nat with (S (j - S i)) in Ej by lia. apply (Hmin j); [lia|exact Ej].
Qed.

(** The search depends on the sizes alone. *)
Lemma find_config_same size i c h cs : cs !! i = Some c -> forall k, find_config size (<[i := with_head h c]> cs) k = find_config size cs k.
Proof.
  revert i. induction cs as [|x cs IH]; intros [|i] E k; cbn in *; try discriminate; [injection E as ->; reflexivity|].
  now rewrite IH.
Qed.

(** There is a block for [size], or room to make one. *)
Definition can_serve (size : Z) s : Prop := exists i c, find_config size s.(configs) 0 = Some i /\ s.(configs) !! i = Some c /\
  (c.(head) <> 0 \/ s.(heap_top) + PAGE_SIZE <= heap_limit /\ room (Z.to_nat (ext_pages c.(csize))) s.(heap_top) s.(pages)).

(** The heap after the first step of [kmalloc]: the list is not empty. *)
Lemma refill size live s i c : heap_inv live s -> find_config size s.(configs) 0 = Some i -> s.(configs) !! i = Some c ->
  (c.(head) <> 0 \/ s.(heap_top) + PAGE_SIZE <= heap_limit /\ room (Z.to_nat (ext_pages c.(csize))) s.(heap_top) s.(pages)) ->
  exists free s1 c1, (if c.(head) =? 0 then extend_heap i else ret tt) s = Ok (tt, s1) /\
    heap_ok s1.(heap_top) live free s1 /\ s1.(configs) !! i = Some c1 /\ c1.(head) <> 0 /\ size <= c1.(accual_size) /\
    (forall k c', s1.(configs) !! k = Some c' -> c'.(accual_size) = c'.(csize) - HEADER) /\
    (s1.(heap_top) mod 4096 = 0 /\ KERNEL_MALLOC <= s1.(heap_top)) /\
    (forall x, KERNEL_MALLOC <= x < s1.(heap_top) -> mapped x s1.(pages)) /\
    s1.(hmem) = s.(hmem) /\ (forall x, x < s.(heap_top) -> s1.(headers) x = s.(headers) x) /\
    (c.(head) <> 0 -> s1 = s) /\ (c.(head) = 0 -> s1.(heap_top) = s.(heap_top) + ext_pages c.(csize) * PAGE_SIZE).
Proof.
  intros [[free H] Hacc [Ht Hk] Hmap] Ef E Hc. destruct (find_config_spec _ _ _ _ Ef) as (c0 & _ & E0 & Hs & _).
  rewrite Nat.sub_0_r, E in E0. injection E0 as <-. destruct (Z.eqb_spec c.(head) 0) as [Hh|Hh].
  - destruct Hc as [|[Hl Hr]]; [contradiction|]. rewrite <- (Nat.add_0_r (Z.to_nat _)) in Hr.
    destruct (extend_heap_run live free i c 0 s H E (Hacc _ _ E) Ht Hk Hl Hr) as (free' & s1 & E1 & H1 & X).
    destruct (ex_class _ _ _ _ X) as (c1 & Ec1 & Hh1 & Hz1 & Ha1).
    unfold sizes in Hz1. rewrite E in Hz1. injection Hz1 as Hz1.
    exists free', s1, c1. split; [exact E1|]. split; [exact H1|]. split; [exact Ec1|]. split; [exact Hh1|]. split.
    { rewrite Ha1, <- Hz1, <- (Hacc _ _ E). exact Hs. }
    split; [|split; [|split; [|split; [apply X|split; [apply X|split; [contradiction|]]]]]].
    + intros k c' Ek. destruct (decide (k = i)) as [->|Hki]; [congruence|]. rewrite (ex_other _ _ _ _ X) in Ek by exact Hki. eauto.
    + rewrite (ex_top _ _ _ _ X). unfold ext_pages, PAGE_SIZE. split; [zlia|]. lia.
    + intros x Hx. apply (ex_mapped _ _ _ _ X). destruct (Z.lt_ge_cases x s.(heap_top)); [left; apply Hmap; lia|right; lia].
    + intros _. rewrite (ex_top _ _ _ _ X). unfold sizes. now rewrite E.
  - exists free, s, c. split; [reflexivity|]. split; [exact H|]. split; [exact E|]. repeat (split; auto). intros; contradiction.
Qed.

Lemma memset_zero a n m : 0 <= a -> a mod 8 = 0 -> 8 <= n < 2147483648 ->
  exists m', memset (Z.to_nat n) m a 0 n = Ok (a, m') /\ forall x, m' x = if (a <=? x) && (x <? a + n) then 0 else m x.
Proof.
  intros Ha H8 Hn. destruct (memset_clears m a 0 n Ha) as (m' & E & Hm); [|eauto].
  pose proof (memset_head_eq a Ha) as [-> _]. assert ((- a) mod 8 = 0) by zlia. lia.
Qed.

(** What a successful call has done: [a] is the block it took. *)
Record served (size : Z) (live : list Z) s (a : Z) s' : Prop := {
  sv_inv : heap_inv (a :: live) s';
  sv_size : size <= bsize s' a - HEADER;
  sv_zero : forall x, a + HEADER <= x < a + bsize s' a -> s'.(hmem) x = 0;
  sv_rest : forall x, x < a + HEADER \/ a + bsize s' a <= x -> s'.(hmem) x = s.(hmem) x;
  sv_live : forall b, b ∈ live -> s'.(headers) b = s.(headers) b /\ (b + bsize s b <= a \/ a + bsize s' a <= b)
}.
Lemma kmalloc_run size live s i c : heap_inv live s -> find_config size s.(configs) 0 = Some i -> s.(configs) !! i = Some c ->
  (c.(head) <> 0 \/ s.(heap_top) + PAGE_SIZE <= heap_limit /\ room (Z.to_nat (ext_pages c.(csize))) s.(heap_top) s.(pages)) ->
  exists a s', kmalloc size s = Ok (a + HEADER, s') /\ served size live s a s' /\ (c.(head) <> 0 -> a = c.(head)) /\
    (c.(head) = 0 -> s'.(heap_top) = s.(heap_top) + ext_pages c.(csize) * PAGE_SIZE).
Proof.
  intros I Ef E Hc. destruct (refill size live s i c I Ef E Hc) as (free & s1 & c1 & E1 & H1 & Ec1 & Hh1 & Hs1 & Ha1 & Ht1 & Hmap1 & Hm1 & Ho1 & Hsame & Hgrow).
  destruct I as [[free0 H0] _ _ _].
  destruct (pop_ok _ live free i c1 s1 H1 Ec1 Hh1) as (l & Efree & H2). set (a := c1.(head)) in *. set (h := s1.(headers) a) in *.
  set (s2 := set_config i (with_head h.(next) c1) s1) in *.
  assert (Hb : blocks (a :: live) (fupd i l free) a) by (left; left).
  destruct (g_block _ _ _ (h_geo _ _ _ _ H2) a Hb) as (_ & Hsz & Hka & _ & Ha64). destruct (block_size _ _ _ _ _ H2 Hb) as [Hbs _].
  assert (Hsize : size <= bsize s2 a - HEADER).
  { assert (Hp : (s2.(headers) a).(phead) = Z.of_nat i) by (apply (l_class _ _ _ (h_lists _ _ _ _ H1)); rewrite Efree; left).
    rewrite Hp, Nat2Z.id in Hsz. unfold s2 in Hsz at 1. rewrite sizes_with_head in Hsz by exact Ec1. unfold sizes in Hsz. rewrite Ec1 in Hsz.
    injection Hsz as <-. rewrite <- (Ha1 _ _ Ec1). exact Hs1. }
  unfold bsize, HEADER in Hbs, Hsize. change (hsize (headers s2 a)) with (hsize h) in *.
  destruct (memset_zero (a + HEADER) h.(hsize) s1.(hmem)) as (m' & Em & Hm'); unfold KERNEL_MALLOC, HEADER in *; [lia|zlia|lia|].
  set (s3 := set_alloced (wrap64 (s1.(kmalloc_alloced_size) + c1.(csize))) (set_hmem m' s2)).
  exists a, s3. split; [|split; [|split; [|exact Hgrow]]].
  - unfold kmalloc. erewrite bind_run by reflexivity. rewrite Ef.
    erewrite bind_run by (unfold get_config; rewrite E; reflexivity). erewrite bind_run by exact E1.
    erewrite bind_run by (unfold get_config; rewrite Ec1; reflexivity). cbv zeta. fold a.
    erewrite bind_run by reflexivity. rewrite (bind_run _ _ _ tt s2) by reflexivity. erewrite bind_run by reflexivity.
    change (hmem s2) with (hmem s1). fold h. unfold HEADER. rewrite Em. reflexivity.
  - constructor.
    + constructor; [exists (fupd i l free)| |exact Ht1|exact Hmap1].
      * revert H2. apply heap_ok_ext; auto; [cbn; lia|eauto].
      * intros k c' Ek. change (configs s3) with (configs s2) in Ek. destruct (with_head_lookup _ _ _ _ _ _ Ec1 Ek) as [[-> ->]|[_ Ek']]; [exact (Ha1 _ _ Ec1)|eauto].
    + unfold bsize, HEADER. exact Hsize.
    + intros x Hx. cbn. rewrite Hm'. unfold bsize in Hx. change (headers s3 a) with h in Hx. unfold HEADER in Hx. zcases.
    + intros x Hx. cbn. rewrite Hm', Hm1. unfold bsize in Hx. change (headers s3 a) with h in Hx. unfold HEADER in Hx. zcases.
    + intros b Hb'. assert (Hlt : b < s.(heap_top)) by exact (blocks_below _ _ _ _ b H0 (or_introl Hb')).
      assert (Eh : s1.(headers) b = s.(headers) b) by auto. split; [exact Eh|].
      replace (bsize s b) with (bsize s2 b) by (unfold bsize; change (headers s2 b) with (headers s1 b); now rewrite Eh).
      change (bsize s3 a) with (bsize s2 a). apply (g_apart _ _ _ (h_geo _ _ _ _ H2)); [left; now right|exact Hb|].
      intros ->. pose proof (l_live _ _ _ (h_lists _ _ _ _ H2)) as Hn. apply NoDup_cons in Hn. tauto.
  - intros Hne. specialize (Hsame Hne). subst s1. unfold a. congruence.
Qed.

(** ** Initialisation *)

Definition initial_configs : list malloc_config_t := map (fun '(z, n) => MkConfig z 0 n 0) malloc_config.
Definition pages_of (cs : list malloc_config_t) : Z := foldr (fun c n => c.(cnpage) + n) 0 cs.

Lemma init_class_run live free i c n s : heap_ok s.(heap_top) live free s -> s.(configs) !! i = Some c -> c.(head) = 0 ->
  c.(cnpage) * PAGE_SIZE = Z.of_nat n * c.(csize) -> KERNEL_MALLOC <= s.(heap_top) -> s.(heap_top) mod 64 = 0 ->
  exists free' s' h, init_class i s = Ok (tt, s') /\ heap_ok s'.(heap_top) live free' s' /\
    s'.(heap_top) = s.(heap_top) + c.(cnpage) * PAGE_SIZE /\ s'.(hmem) = s.(hmem) /\ s'.(pages) = s.(pages) /\
    (forall k, k <> i -> s'.(configs) !! k = s.(configs) !! k) /\
    s'.(configs) !! i = Some (MkConfig c.(csize) h c.(cnpage) (c.(csize) - HEADER)).
Proof.
  intros H E Hh Hn Hk H64. set (c1 := MkConfig c.(csize) 0 c.(cnpage) (c.(csize) - HEADER)). set (s1 := set_config i c1 s).
  assert (E1 : s1.(configs) !! i = Some c1) by (cbn; now rewrite list_lookup_insert_eq by now apply lookup_lt_Some in E).
  assert (Hsz : forall x, sizes s1 x = sizes s x).
  { intros x. unfold sizes. destruct (decide (x = i)) as [->|Hx]; [now rewrite E1, E|]. cbn. now rewrite list_lookup_insert_ne by auto. }
  assert (H1 : heap_ok (s1.(heap_top) + 0) live free s1).
  { revert H. apply heap_ok_ext; auto; [cbn; lia|]. intros x c' Ex. destruct (decide (x = i)) as [->|Hx].
    - exists c. split; [exact E|]. rewrite E1 in Ex. injection Ex as <-. now rewrite Hh.
    - cbn in Ex. rewrite list_lookup_insert_ne in Ex by auto. eauto. }
  destruct (carve_run n live free i c1 c.(csize) 0 s1 H1 E1 eq_refl eq_refl) as (free' & s2 & E2 & H2 & V2 & _);
    [cbn; rewrite Z.add_0_r; exact Hk|cbn; rewrite Z.add_0_r; exact H64|].
  rewrite Z.add_0_l, <- Hn in E2. rewrite Z.add_0_r, <- Hn in H2.
  assert (Hz : 64 <= c.(csize)).
  { pose proof (h_classes _ _ _ _ H i) as Hc. unfold sizes in Hc. rewrite E in Hc. symmetry in Hc. now destruct (class_size _ _ Hc). }
  destruct (cv_class _ _ _ _ V2 c1 E1) as [h Eh].
  exists free', (set_top (s2.(heap_top) + c.(cnpage) * PAGE_SIZE) s2), h. split; [|split; [|split; [|split; [|split; [|split]]]]].
  - unfold init_class. erewrite bind_run by (unfold get_config; rewrite E; reflexivity). rewrite (bind_run _ _ _ tt s1) by reflexivity.
    rewrite Hn, Z.div_mul, Nat2Z.id, <- Hn by lia. erewrite bind_run by exact E2. reflexivity.
  - revert H2. apply heap_ok_ext; auto; [|eauto]. cbn. rewrite (cv_top _ _ _ _ V2). cbn. lia.
  - cbn. now rewrite (cv_top _ _ _ _ V2).
  - exact (cv_hmem _ _ _ _ V2).
  - exact (cv_pages _ _ _ _ V2).
  - intros k Hki. cbn. rewrite (cv_other _ _ _ _ V2) by exact Hki. cbn. now rewrite list_lookup_insert_ne by auto.
  - exact Eh.
Qed.

Lemma initial_blocks i c : initial_configs !! i = Some c -> exists n, c.(head) = 0 /\ c.(cnpage) * PAGE_SIZE = Z.of_nat n * c.(csize).
Proof.
  intros E. assert (Hin : c ∈ initial_configs) by now apply (list_elem_of_lookup_2 _ i).
  exists (Z.to_nat (c.(cnpage) * PAGE_SIZE / c.(csize))). revert Hin. generalize c. clear. apply Forall_forall.
  repeat (apply Forall_cons; split; [split; [reflexivity|vm_compute; reflexivity]|]). constructor.
Qed.

Lemma init_classes_run n : forall i free s, heap_ok s.(heap_top) [] free s -> s.(heap_top) mod 4096 = 0 -> KERNEL_MALLOC <= s.(heap_top) ->
  (forall k, (i <= k)%nat -> s.(configs) !! k = initial_configs !! k) -> (i + n = length initial_configs)%nat ->
  (forall k c, (k < i)%nat -> s.(configs) !! k = Some c -> c.(accual_size) = c.(csize) - HEADER) ->
  (forall x, KERNEL_MALLOC <= x < s.(heap_top) + pages_of (drop i initial_configs) * PAGE_SIZE -> mapped x s.(pages)) ->
  exists s', init_classes n i s = Ok (tt, s') /\ heap_inv [] s' /\ s'.(hmem) = s.(hmem) /\ s'.(pages) = s.(pages) /\
    s'.(heap_top) = s.(heap_top) + pages_of (drop i initial_configs) * PAGE_SIZE.
Proof.
  induction n as [|n IH]; intros i free s H Ht Hk Hc Hl Ha Hx; cbn [init_classes].
  - exists s. rewrite drop_ge by lia. split; [reflexivity|]. split; [|split; [reflexivity|split; [reflexivity|cbn; lia]]].
    constructor; [eauto| |auto|intros x ?; apply Hx; rewrite drop_ge by lia; cbn; lia]. intros k c E. destruct (Nat.lt_ge_cases k i); [eauto|].
    rewrite Hc, lookup_ge_None_2 in E by lia. discriminate.
  - destruct (lookup_lt_is_Some_2 initial_configs i) as [c Ec]; [lia|].
    destruct (initial_blocks i c Ec) as (m & Hh & Hm). assert (E : s.(configs) !! i = Some c) by now rewrite Hc.
    destruct (init_class_run [] free i c m s H E Hh Hm Hk) as (free' & s1 & h & E1 & H1 & T1 & M1 & P1 & O1 & C1); [zlia|].
    assert (Hnp : 0 <= c.(cnpage)).
    { pose proof (h_classes _ _ _ _ H i) as Hz. unfold sizes in Hz. rewrite E in Hz. symmetry in Hz.
      destruct (class_size _ _ Hz). unfold PAGE_SIZE in Hm. nia. }
    erewrite bind_run by exact E1. destruct (IH (S i) free' s1 H1) as (s2 & E2 & I2 & M2 & P2 & T2).
    + rewrite T1. unfold PAGE_SIZE. zlia.
    + rewrite T1. unfold PAGE_SIZE. lia.
    + intros k Hk'. rewrite O1, Hc by lia. reflexivity.
    + lia.
    + intros k c' Hk' Ek. destruct (decide (k = i)) as [->|]; [rewrite C1 in Ek; now injection Ek as <-|].
      rewrite O1 in Ek by auto. apply (Ha k); [lia|exact Ek].
    + intros x Hx'. rewrite P1. apply Hx. rewrite (drop_S _ c i Ec). cbn [pages_of foldr]. unfold pages_of in Hx'. rewrite T1 in Hx'. lia.
    + exists s2. split; [exact E2|]. split; [exact I2|]. split; [congruence|]. split; [congruence|].
      rewrite T2, T1, (drop_S _ c i Ec). cbn [pages_of foldr]. unfold pages_of. lia.
Qed.

Fixpoint find_size (size : Z) (l : list Z) (i : nat) : option nat :=
  match l with [] => None | z :: l' => if size <=? z - HEADER then Some i else find_size size l' (S i) end.
Lemma find_config_find size : forall cs i, (forall k c, cs !! k = Some c -> c.(accual_size) = c.(csize) - HEADER) ->
  find_config size cs i = find_size size (map csize cs) i.
Proof.
  induction cs as [|c cs IH]; intros i H; cbn; [reflexivity|]. rewrite (H 0%nat c eq_refl).
  destruct (_ <=? _); [reflexivity|]. apply IH. intros k c' E. exact (H (S k) c' E).
Qed.
Lemma find_config_sizes size live s : heap_inv live s -> find_config size s.(configs) 0 = find_size size (map fst malloc_config) 0.
Proof.
  intros [[free H] Hacc _ _]. rewrite find_config_find by exact Hacc. f_equal. apply list_eq. intros k.
  rewrite !list_lookup_fmap. exact (h_classes _ _ _ _ H k).
Qed.
Lemma class_csize live s i c : heap_inv live s -> s.(configs) !! i = Some c -> c.(csize) = default 0 (fst <$> malloc_config !! i).
Proof.
  intros [[free H] _ _ _] E. pose proof (h_classes _ _ _ _ H i) as Hz. unfold sizes in Hz. rewrite E in Hz. now rewrite <- Hz.
Qed.

(** ** What the heap promises *)

Lemma kmalloc_init_run m s : s.(configs) = initial_configs -> s.(heap_top) = KERNEL_MALLOC -> room (320 + m) KERNEL_MALLOC s.(pages) ->
  exists s', kmalloc_init s = Ok (tt, s') /\ heap_inv [] s' /\ s'.(heap_top) = KERNEL_MALLOC + 320 * PAGE_SIZE /\
    s'.(hmem) = s.(hmem) /\ room m s'.(heap_top) s'.(pages).
Proof.
  intros Ec Et Hr. destruct (map_pages_run 320 m 0 s) as (p & Ep & Rp & _ & Np); [rewrite Et; exact Hr|].
  destruct (init_classes_run (length initial_configs) 0 (fun _ => []) (set_pages p s)) as (s' & E' & I' & M' & P' & T').
  - constructor; [constructor| |].
    + intros a [Ha|[k Ha]]; now apply not_elem_of_nil in Ha.
    + intros a b [Ha|[k Ha]]; now apply not_elem_of_nil in Ha.
    + constructor; try (intros; constructor); try (intros k a Ha; now apply not_elem_of_nil in Ha).
      intros k c E. cbn in E. rewrite Ec in E. now destruct (initial_blocks k c E) as (_ & -> & _).
    + intros k. unfold sizes. cbn. rewrite Ec. unfold initial_configs. rewrite list_lookup_fmap. now destruct (malloc_config !! k) as [[]|].
  - cbn. now rewrite Et.
  - cbn. rewrite Et. lia.
  - intros k _. cbn. now rewrite Ec.
  - reflexivity.
  - intros; lia.
  - intros x Hx. apply Np. cbn [heap_top set_pages] in Hx. rewrite Et, drop_0 in *. change (pages_of initial_configs) with 320 in Hx. lia.
  - exists s'. rewrite drop_0 in T'. cbn [heap_top set_pages] in T'. change (pages_of initial_configs) with 320 in T'. rewrite Et in T', Rp.
    split; [|split; [exact I'|split; [exact T'|split; [exact M'|]]]].
    + unfold kmalloc_init. erewrite bind_run by reflexivity. rewrite Ec. change (Z.to_nat (foldr _ 0 initial_configs)) with 320%nat.
      erewrite bind_run by exact Ep. exact E'.
    + rewrite P', T'. exact Rp.
Qed.

(** [kmalloc_init] turns an unused heap region into 320 pages of free blocks,
    maps them and no more, and establishes the invariant with nothing handed
    out. *)
Theorem kmalloc_init_establishes m s : s.(configs) = initial_configs -> s.(heap_top) = KERNEL_MALLOC -> room (320 + m) KERNEL_MALLOC s.(pages) ->
  exists s', kmalloc_init s = Ok (tt, s') /\ heap_inv [] s' /\ s'.(heap_top) = KERNEL_MALLOC + 320 * PAGE_SIZE /\
    s'.(hmem) = s.(hmem) /\ room m s'.(heap_top) s'.(pages).
Proof. apply kmalloc_init_run. Qed.

(** [kmalloc] hands out memory nobody has: given a free block or room to make
    one, it returns a zeroed block of at least [size] bytes that overlaps no
    block in use, header included, changes no byte and no header outside it,
    and the heap stays consistent. *)
Theorem kmalloc_fresh size live s : heap_inv live s -> can_serve size s ->
  exists a s', kmalloc size s = Ok (a + HEADER, s') /\ heap_inv (a :: live) s' /\ size <= bsize s' a - HEADER /\
    (forall x, a + HEADER <= x < a + bsize s' a -> s'.(hmem) x = 0) /\
    (forall x, x < a + HEADER \/ a + bsize s' a <= x -> s'.(hmem) x = s.(hmem) x) /\
    (forall b, b ∈ live -> s'.(headers) b = s.(headers) b /\ (b + bsize s b <= a \/ a + bsize s' a <= b)).
Proof.
  intros I (i & c & Ef & E & Hc). destruct (kmalloc_run size live s i c I Ef E Hc) as (a & s' & E' & [V1 V2 V3 V4 V5] & _ & _).
  exists a, s'. auto 10.
Qed.

(** [kfree] gives a block back, whatever the order of the calls: it is no
    longer in use, no byte of the heap changes, and it is the block the next
    [kmalloc] of its class returns. *)
Theorem kfree_kmalloc live live' a s : heap_inv live s -> live ≡ₚ a :: live' ->
  exists s1, kfree (a + HEADER) s = Ok (tt, s1) /\ heap_inv live' s1 /\ s1.(hmem) = s.(hmem) /\
    forall size, find_config size s.(configs) 0 = Some (Z.to_nat (s.(headers) a).(phead)) ->
      exists s2, kmalloc size s1 = Ok (a + HEADER, s2) /\ heap_inv (a :: live') s2.
Proof.
  intros [[free H] Hacc Htop Hmap] Hl. assert (Hb : blocks live free a) by (left; rewrite Hl; left).
  destruct (g_block _ _ _ (h_geo _ _ _ _ H) a Hb) as (Hp & Hs & Hk & _). set (i := Z.to_nat (s.(headers) a).(phead)) in *.
  unfold sizes in Hs. destruct (s.(configs) !! i) as [c|] eqn:E; [|discriminate].
  set (s1 := set_alloced (wrap64 (s.(kmalloc_alloced_size) - c.(csize))) (pushed i c a s)).
  assert (Ei : (pushed i c a s).(configs) !! i = Some (with_head a c)) by (cbn; now rewrite list_lookup_insert_eq by now apply lookup_lt_Some in E).
  assert (I1 : heap_inv live' s1).
  { constructor; [exists (fupd i (a :: free i) free)| |exact Htop|exact Hmap].
    - assert (H1 : heap_ok s.(heap_top) live' (fupd i (a :: free i) free) (pushed i c a s)).
      { apply (push_ok _ live); auto; [unfold i; lia|unfold KERNEL_MALLOC in Hk; lia|].
        intros k. apply (l_sep _ _ _ (h_lists _ _ _ _ H)). rewrite Hl. left. }
      revert H1. apply heap_ok_ext; auto; [cbn; lia|eauto].
    - intros k c' Ek. destruct (decide (k = i)) as [->|Hki]; [change (configs s1) with (configs (pushed i c a s)) in Ek; rewrite Ei in Ek; injection Ek as <-; exact (Hacc _ _ E)|].
      cbn in Ek. rewrite list_lookup_insert_ne in Ek by auto. eauto. }
  exists s1. split; [|split; [exact I1|split; [reflexivity|]]].
  - unfold kfree. replace (a + HEADER - HEADER) with a by lia. cbv zeta. erewrite bind_run by reflexivity. fold i.
    erewrite bind_run by exact (list_insert_head_run i a s c E). erewrite bind_run by (unfold get_config; rewrite Ei; reflexivity). reflexivity.
  - intros size Ef. assert (Hh : (with_head a c).(head) <> 0) by (cbn; unfold KERNEL_MALLOC in Hk; lia).
    destruct (kmalloc_run size live' s1 i (with_head a c) I1) as (b & s2 & E2 & V2 & Hb2 & _); auto.
    + cbn. rewrite <- Ef. apply find_config_same. exact E.
    + rewrite (Hb2 Hh) in E2, V2. exists s2. split; [exact E2|apply V2].
Qed.

(** A size no class can hold stops the kernel. *)
Theorem kmalloc_too_large size live s : heap_inv live s -> 33 * PAGE_SIZE - HEADER < size -> kmalloc size s = Err Panic.
Proof.
  intros [[free H] Hacc _ _] Hs. unfold kmalloc. erewrite bind_run by reflexivity.
  destruct (find_config size s.(configs) 0) as [i|] eqn:Ef; [|reflexivity]. exfalso.
  destruct (find_config_spec _ _ _ _ Ef) as (c & _ & E & Hc & _). rewrite Nat.sub_0_r in E. rewrite (Hacc _ _ E) in Hc.
  pose proof (h_classes _ _ _ _ H i) as Hz. unfold sizes in Hz. rewrite E in Hz. symmetry in Hz. destruct (class_size _ _ Hz).
  unfold PAGE_SIZE, HEADER in *. lia.
Qed.

(** The limit on the heap is checked for one page whatever is being added, and
    after the pages are mapped: one page below it, an object of the largest
    class grows the heap 32 pages past it. *)
Theorem kmalloc_exceeds_limit live s c : heap_inv live s -> s.(configs) !! 16%nat = Some c -> c.(head) = 0 ->
  s.(heap_top) = heap_limit - PAGE_SIZE -> room 33 s.(heap_top) s.(pages) ->
  exists a s', kmalloc (32 * PAGE_SIZE) s = Ok (a + HEADER, s') /\ s'.(heap_top) = heap_limit + 32 * PAGE_SIZE.
Proof.
  intros I E Hh Ht Hr. destruct (kmalloc_run (32 * PAGE_SIZE) live s 16 c I) as (a & s' & E' & _ & _ & Hg); auto.
  - now rewrite (find_config_sizes _ live).
  - right. split; [lia|]. rewrite (class_csize _ _ _ _ I E). exact Hr.
  - exists a, s'. split; [exact E'|]. rewrite (Hg Hh), Ht, (class_csize _ _ _ _ I E). change (ext_pages _) with 33. lia.
Qed.
End Invariant.

(** ** Witnesses *)

(** A memory manager that never runs out. *)
#[local] Instance endless : PageMapper unit := { kpage_alloc _ := ret tt }.
#[local] Instance endless_laws : PageMapperLaws unit := {
  room _ _ _ := True; mapped _ _ := True;
  room_law n va p H := ex_intro _ tt (conj (match p with tt => eq_refl end) (conj I (conj (fun _ _ => I) (fun _ _ => I))))
}.
Definition kboot : heap unit := MkHeap tt KERNEL_MALLOC initial_configs (fun _ => MkHeader 0 0 0) (fun _ => 9) 0.

Lemma kmalloc_init_establishes_witness : exists s', kmalloc_init kboot = Ok (tt, s') /\ heap_inv [] s'.
Proof.
  destruct (kmalloc_init_establishes (PL := endless_laws) 0 kboot eq_refl eq_refl I) as (s' & E & H & _). eauto.
Defined.

(** A 4096-byte class has no pages at first: the heap is extended. *)
Lemma served_large s : heap_inv [] s -> s.(heap_top) = KERNEL_MALLOC + 320 * PAGE_SIZE -> can_serve 4000 s.
Proof.
  intros I Ht. destruct (lookup_lt_is_Some_2 s.(configs) 6%nat) as [c Ec].
  { destruct I as [[free H] _ _ _]. pose proof (h_classes _ _ _ _ H 6%nat) as Hz. unfold sizes in Hz. cbn in Hz.
    destruct (configs s !! 6%nat) as [c|] eqn:E; [now apply lookup_lt_Some in E|discriminate]. }
  exists 6%nat, c. split; [now rewrite (find_config_sizes _ _ _ I)|]. split; [exact Ec|]. right. split; [|exact Logic.I].
  rewrite Ht. unfold heap_limit, MAX_MALLOC_NPAGE, PAGE_SIZE. lia.
Qed.
Lemma kmalloc_fresh_witness : exists s a s', heap_inv [] s /\ kmalloc 4000 s = Ok (a + HEADER, s') /\ heap_inv [a] s'.
Proof.
  destruct (kmalloc_init_run (PL := endless_laws) 0 kboot eq_refl eq_refl I) as (s & _ & H & Ht & _).
  destruct (kmalloc_fresh 4000 [] s H (served_large s H Ht)) as (a & s' & E & H' & _). exists s, a, s'. auto.
Defined.
Lemma kfree_kmalloc_witness : exists s a s1, heap_inv [a] s /\ kfree (a + HEADER) s = Ok (tt, s1) /\ heap_inv [] s1.
Proof.
  destruct (kmalloc_init_run (PL := endless_laws) 0 kboot eq_refl eq_refl I) as (s & _ & H & Ht & _).
  destruct (served_large s H Ht) as (i & c & Ef & Ec & Hc).
  destruct (kmalloc_run 4000 [] s i c H Ef Ec Hc) as (a & s' & _ & V & _).
  destruct (kfree_kmalloc [a] [] a s' (sv_inv _ _ _ _ _ V) (reflexivity _)) as (s1 & E1 & H1 & _). exists s', a, s1.
  split; [apply V|]. auto.
Defined.
Lemma kmalloc_too_large_witness : exists s, heap_inv [] s /\ kmalloc 200000 s = Err Panic.
Proof.
  destruct (kmalloc_init_run (PL := endless_laws) 0 kboot eq_refl eq_refl I) as (s & _ & H & _). exists s. split; [exact H|].
  apply (kmalloc_too_large 200000 [] s H). reflexivity.
Defined.

(** A heap one page below its limit and without free blocks. *)
Definition kfull : heap unit :=
  MkHeap tt (heap_limit - PAGE_SIZE) (map (fun '(z, n) => MkConfig z 0 n (z - HEADER)) malloc_config) (fun _ => MkHeader 0 0 0) (fun _ => 9) 0.
Lemma kfull_inv : heap_inv [] kfull.
Proof.
  constructor.
  - exists (fun _ => []). constructor; [constructor| |].
    + intros a [Ha|[k Ha]]; now apply not_elem_of_nil in Ha.
    + intros a b [Ha|[k Ha]]; now apply not_elem_of_nil in Ha.
    + constructor; try (intros; constructor); try (intros k a Ha; now apply not_elem_of_nil in Ha).
      intros k c E. cbn [kfull configs] in E. rewrite list_lookup_fmap in E. destruct (malloc_config !! k) as [[]|]; [now injection E as <-|discriminate].
    + intros k. unfold sizes. cbn [kfull configs]. rewrite list_lookup_fmap. now destruct (malloc_config !! k) as [[]|].
  - intros k c E. cbn [kfull configs] in E. rewrite list_lookup_fmap in E. destruct (malloc_config !! k) as [[]|]; [now injection E as <-|discriminate].
  - split; [reflexivity|]. vm_compute. discriminate.
  - intros; exact I.
Qed.
Lemma kmalloc_exceeds_limit_witness : exists a s', kmalloc (32 * PAGE_SIZE) kfull = Ok (a + HEADER, s') /\ s'.(heap_top) = heap_limit + 32 * PAGE_SIZE.
Proof. exact (kmalloc_exceeds_limit (PL := endless_laws) [] kfull _ kfull_inv eq_refl eq_refl eq_refl I). Defined.
