(* ===== verification/KernelPages.v ===== *)
(** * The heap on the kernel's page tables

    [kpage_alloc] of [src/kern/mm/kmalloc.c] with [vmAlloc] and [ptMap] of
    [Vmm] implements the interface [Kmalloc] is proved against, so its theorems
    hold of the heap on real page tables: every block lies on mapped pages. *)

From S2P Require Import Prelude StringLib Pmm Vmm Kmalloc.
From Stdlib Require Import ZArith Lia Bool.
From stdpp Require Import base tactics numbers list.
Open Scope Z_scope.

Section KernelPages.
(** The kernel's page directory. *)
Variable kernPd : Z.

Definition vm_kpage_alloc (va : Z) : M mm unit :=
  let* pa := vmAlloc in
  let* r := ptMap kernPd va pa (Z.lor PTE_R PTE_W) in
  massert (r =? 0).

#[local] Instance vm_pages : PageMapper mm := { kpage_alloc := vm_kpage_alloc }.

(** Every new page may need two new tables. *)
Record vm_room (n : nat) (va : Z) (s : mm) : Prop := {
  vr_ok : mm_ok s;
  vr_wf : wf_pt s kernPd;
  vr_depth : 0 <= s.(kvm_depth);
  vr_free : (3 * n <= length s.(pageFreeList))%nat;
  vr_va : 0 <= va /\ va mod 4096 = 0 /\ va + 4096 * Z.of_nat n <= 549755813888;
  vr_unmapped : forall x, va <= x < va + 4096 * Z.of_nat n -> lookup_va s.(pmem) kernPd x = 0
}.
(** The address resolves to a valid entry that may be read and written. *)
Definition vm_mapped (x : Z) (s : mm) : Prop :=
  0 <= x < 549755813888 /\ exists p, 0 < p < 4294967296 /\ lookup_va s.(pmem) kernPd x = mk_pte (MEMBASE + 4096 * p) 6.

Lemma PTX_same va x : 0 <= va -> va mod 4096 = 0 -> va <= x < va + 4096 -> forall l, l = 1 \/ l = 2 \/ l = 3 -> PTX x l = PTX va l.
Proof.
  intros Hv Hm Hx l Hl. unfold PTX. f_equal. rewrite !Z.shiftr_div_pow2 by lia.
  assert (E : x / 4096 = va / 4096) by (Z.div_mod_to_equations; lia).
  replace (2 ^ (12 + (3 - l) * 9)) with (4096 * 2 ^ ((3 - l) * 9)) by (rewrite Z.pow_add_r by lia; reflexivity).
  rewrite <- !Z.div_div, E by (try apply Z.pow_pos_nonneg; lia). reflexivity.
Qed.
Lemma PTX_eqb va x : 0 <= va < 549755813888 -> va mod 4096 = 0 -> 0 <= x < 549755813888 ->
  (PTX x 1 =? PTX va 1) && (PTX x 2 =? PTX va 2) && (PTX x 3 =? PTX va 3) = (va <=? x) && (x <? va + 4096).
Proof.
  intros Hv Hm Hx. destruct ((va <=? x) && (x <? va + 4096)) eqn:E.
  - zbool. rewrite !(PTX_same va x), !Z.eqb_refl by (auto; lia). reflexivity.
  - apply not_true_iff_false. intros H. zbool. pose proof (PTX_page x va Hx Hv) as Hp.
    apply not_true_iff_false in E. apply E. apply andb_true_iff. rewrite Z.leb_le, Z.ltb_lt.
    specialize (Hp ltac:(assumption) ltac:(assumption) ltac:(assumption)). Z.div_mod_to_equations. lia.
Qed.

Lemma vm_room_law n va s : vm_room (S n) va s ->
  exists s', vm_kpage_alloc va s = Ok (tt, s') /\ vm_room n (va + 4096) s' /\
    (forall x, vm_mapped x s -> vm_mapped x s') /\ (forall x, va <= x < va + 4096 -> vm_mapped x s').
Proof.
  intros [Hok W Hd Hf (Hv & Hm & Hl) Hu].
  destruct (vmAlloc_run s kernPd Hok W Hd) as (p & s1 & E1 & Hok1 & W1 & Hd1 & Hp1 & Hr1 & Hlen & Hlk & _); [destruct (pageFreeList s); cbn in Hf; [lia|discriminate]|].
  assert (H0 : lookup_va s1.(pmem) kernPd va = 0) by (rewrite Hlk; apply Hu; lia).
  destruct (ptMap_run s1 kernPd va p 6 Hok1 W1) as (s2 & E2 & Hok2 & W2 & Hd2 & _ & Hlk2 & _ & Hlen2 & _); try lia; auto.
  { intros q. rewrite H0. discriminate. }
  assert (Hlook : forall x, 0 <= x < 549755813888 -> lookup_va s2.(pmem) kernPd x =
    if (va <=? x) && (x <? va + 4096) then mk_pte (MEMBASE + 4096 * p) 6 else lookup_va s.(pmem) kernPd x).
  { intros x Hx. rewrite Hlk2, PTX_eqb, Hlk by lia. reflexivity. }
  pose proof (mm_npage _ Hok1) as Hnp. destruct Hp1 as [Hp1 _].
  assert (Hnew : forall x, va <= x < va + 4096 -> vm_mapped x s2).
  { intros x Hx. split; [lia|]. exists p. split; [lia|]. rewrite Hlook by lia. zcases. }
  exists s2. split; [|split; [|split; [|exact Hnew]]].
  - unfold vm_kpage_alloc. erewrite bind_run by exact E1. erewrite bind_run by exact E2. reflexivity.
  - constructor; auto; try lia.
    + split; [lia|]. split; [zlia|]. lia.
    + intros x Hx. rewrite Hlook by lia. destruct (_ && _) eqn:E; [zbool; lia|]. apply Hu. lia.
  - intros x (Hx & q & Hq & Eq). destruct (Z.lt_ge_cases x va) as [|Hge]; [|destruct (Z.lt_ge_cases x (va + 4096)); [apply Hnew; lia|]];
      (split; [exact Hx|]; exists q; split; [exact Hq|]; rewrite Hlook by lia; rewrite <- Eq; zcases).
Qed.

#[local] Instance vm_pages_laws : PageMapperLaws mm := {
  room := vm_room;
  mapped := vm_mapped;
  room_law := vm_room_law
}.

(** C19. The heap of the running kernel: on page tables, a block is handed out
    zeroed and apart from the blocks in use, and every byte of it and of every
    other block is on a page that is mapped readable and writable. *)
Theorem kmalloc_on_page_tables (s : heap mm) live size : heap_inv live s -> can_serve size s ->
  exists a s', kmalloc size s = Ok (a + HEADER, s') /\ heap_inv (a :: live) s' /\
    (forall x, a + HEADER <= x < a + bsize s' a -> s'.(hmem) x = 0) /\
    (forall b x, b ∈ a :: live -> b <= x < b + bsize s' b -> vm_mapped x s'.(pages)).
Proof.
  intros I (i & c & Ef & E & Hc). destruct (kmalloc_run size live s i c I Ef E Hc) as (a & s' & E' & V & _).
  exists a, s'. split; [exact E'|]. split; [apply V|]. split; [apply V|]. intros b x Hb Hx.
  destruct (sv_inv _ _ _ _ _ V) as [[free H] _ _ Hmap]. apply Hmap.
  destruct (g_block _ _ _ (h_geo _ _ _ _ H) b (or_introl Hb)) as (_ & _ & ? & ? & _). lia.
Qed.
End KernelPages.

(** Two thousand pages, of which the fourth is an empty page directory. *)
Definition dir4 : Z := MEMBASE + 4096 * 3.
Definition empty_vm : mm := MkMm 2000 (fun p => if p =? 3 then 1 else 0) (seqZ 10 1200) 1200 (fun _ => 0) 0 [].
Lemma empty_child i : child empty_vm.(pmem) dir4 i = None.
Proof. reflexivity. Qed.
Lemma empty_room : vm_room dir4 (320 + 40) KERNEL_MALLOC empty_vm.
Proof.
  assert (Hin : forall p, p ∈ seqZ 10 1200 -> 10 <= p < 1210) by (intros p Hp; apply elem_of_seqZ in Hp; lia).
  constructor.
  - constructor; cbn [empty_vm npage pageFreeList page_ref pageleft].
    + lia.
    + apply NoDup_seqZ.
    + intros p Hp%Hin. split; [lia|]. zcases.
    + rewrite length_seqZ. reflexivity.
    + intros p. zcases.
  - constructor; try (intros; discriminate).
    + exists 3. split; [split; [cbn; lia|]|reflexivity]. cbn [empty_vm pageFreeList]. intros Hp%Hin. lia.
    + reflexivity.
    + intros i j k _ _ _ _. reflexivity.
  - cbn. lia.
  - cbn [empty_vm pageFreeList]. rewrite length_seqZ. lia.
  - unfold KERNEL_MALLOC. repeat split; lia.
  - reflexivity.
Qed.
Lemma kmalloc_on_page_tables_witness : exists s a s', @heap_inv mm (vm_pages dir4) (vm_pages_laws dir4) [] s /\
  @kmalloc mm (vm_pages dir4) 4000 s = Ok (a + HEADER, s') /\ vm_mapped dir4 a s'.(pages).
Proof.
  destruct (@kmalloc_init_run mm (vm_pages dir4) (vm_pages_laws dir4) 40
              (MkHeap empty_vm KERNEL_MALLOC initial_configs (fun _ => MkHeader 0 0 0) (fun _ => 9) 0) eq_refl eq_refl empty_room)
    as (s & _ & H & Ht & _ & Hr).
  assert (Hc : @can_serve mm (vm_pages dir4) (vm_pages_laws dir4) 4000 s).
  { destruct (s.(configs) !! 6%nat) as [c|] eqn:Ec.
    - exists 6%nat, c. split; [now rewrite (find_config_sizes _ _ _ H)|]. split; [exact Ec|]. right.
      rewrite (class_csize _ _ _ _ H Ec). split; [rewrite Ht; unfold heap_limit, MAX_MALLOC_NPAGE, Kmalloc.PAGE_SIZE; lia|].
      change (Z.to_nat (ext_pages _)) with 1%nat. destruct Hr as [R1 R2 R3 R4 R5 R6]. constructor; auto; try lia. intros x Hx. apply R6. lia.
    - exfalso. destruct H as [[free H] _ _ _]. pose proof (h_classes _ _ _ _ H 6%nat) as Hz. unfold sizes in Hz. rewrite Ec in Hz. discriminate. }
  destruct (kmalloc_on_page_tables dir4 s [] 4000 H Hc) as (a & s' & E & I' & _ & Hm). exists s, a, s'.
  split; [exact H|]. split; [exact E|]. apply (Hm a); [left|]. destruct I' as [[free I'] _ _ _].
  destruct (block_size _ _ _ _ a I') as [? _]; [left; left|]. lia.
Defined.
