(* ===== verification/Futex.v ===== *)
(** * Futexes

    [src/kern/futex/futex_event.c] and [futex_interface.c] on top of [Tsleep].
    A [futexevent_t *] is its address, which is also the channel its waiter
    sleeps on, [0] is [NULL].  The physical address of the futex word
    ([uaddr_to_pa]) and the value read from it ([get_val]) are arguments: they
    come from the page tables and user memory.  Everything between the lock of
    the used queue and [sleep], which releases it, is one section as far as
    other futex calls go; the timer only needs the locks of [Tsleep], so
    [futex_wait] is split where [tsleep] releases those. *)

From S2P Require Import Prelude Sched Tsleep.
From Stdlib Require Import ZArith Lia Bool.
From stdpp Require Import base tactics numbers list.
Open Scope Z_scope.

Definition FUTEXEVENTS_MAX : Z := 1024.
Definition EAGAIN : Z := 11.

Record futexevent_t : Type := MkFe { ftx_upaddr : Z; ftx_waiterpid : Z; ftx_waketime : Z }.

Record fut : Type := MkFut {
  timed : tst;
  futexevents : Z -> futexevent_t;
  fe_freeq : list Z;
  fe_usedq : list Z
}.
Definition set_timed t s := MkFut t s.(futexevents) s.(fe_freeq) s.(fe_usedq).
Definition set_fe fe x s := MkFut s.(timed) (upd s.(futexevents) fe x) s.(fe_freeq) s.(fe_usedq).
Definition set_ffree q s := MkFut s.(timed) s.(futexevents) q s.(fe_usedq).
Definition set_fused q s := MkFut s.(timed) s.(futexevents) s.(fe_freeq) q.

Definition on_timed {A : Type} (c : M tst A) : M fut A := fun s =>
  match c s.(timed) with Ok (a, t) => Ok (a, set_timed t s) | Err f => Err f end.

(** Pushes the events [base + 1 .. base + n] from the last one on. *)
Fixpoint futexevent_init_loop (base : Z) (n : nat) (q : list Z) : list Z :=
  match n with O => q | S n' => futexevent_init_loop base n' (base + Z.of_nat n :: q) end.
Definition futexevent_init (base : Z) (s : fut) : fut :=
  MkFut s.(timed) (fun fe => if (base <? fe) && (fe <=? base + FUTEXEVENTS_MAX)
                             then MkFe 0 0 (s.(futexevents) fe).(ftx_waketime) else s.(futexevents) fe)
    (futexevent_init_loop base (Z.to_nat FUTEXEVENTS_MAX) []) [].

(** [futexevent_alloc]: the section of the free queue, then that of the used
    queue, which it does not leave. *)
Definition futexevent_take : M fut Z :=
  let* q := gets fe_freeq in
  match q with
  | [] => fail Panic
  | fe :: q' => modify (set_ffree q') ;;; ret fe
  end.
Definition futexevent_insert (fe upa pid timeout now : Z) : M fut unit :=
  modify (set_fe fe (MkFe upa pid (if timeout =? 0 then 0 else wrap64 (timeout + now)))) ;;;
  modify (fun s => set_fused (s.(fe_usedq) ++ [fe]) s).

Definition futexevent_free_and_wake (fe : Z) : M fut unit :=
  modify (set_fe fe (MkFe 0 0 0)) ;;;
  let* q := gets fe_usedq in
  match queue_remove fe q with
  | None => fail Undef
  | Some q' =>
      modify (set_fused q') ;;;
      modify (fun s => set_ffree (fe :: s.(fe_freeq)) s) ;;;
      on_timed (twakeup 2 fe)
  end.

(** [futex_wait] with [val] read as [curval], up to where [tsleep] has
    registered its event [tse]; [None] is the early return. *)
Definition futex_wait_insert (c fe tse upa pid val curval timeout now : Z) : M fut (option Z) :=
  futexevent_insert fe upa pid timeout now ;;;
  if val =? curval then
    let* x := gets (fun s => s.(futexevents) fe) in
    on_timed (tsleep_mtx_insert c tse fe x.(ftx_waketime)) ;;;
    ret None
  else
    futexevent_free_and_wake fe ;;;
    ret (Some (- EAGAIN)).
Definition futex_wait_sleep (NCPU : nat) (c fe : Z) (g : bool) : M fut unit := on_timed (tsleep_mtx_sleep NCPU c fe g).
(** Awake again: the result of [tsleep] is the result of [futex_wait]. *)
Definition futex_wait_return (c tse : Z) : M fut Z :=
  on_timed (tsleep_woken c) ;;;
  on_timed (tsleep_finish tse).

(** The loop of [futex_wake]; [haswake] is an [int], [wakecnt] a [u64]. *)
Fixpoint futex_wake_loop (upa wakecnt : Z) (q : list Z) (haswake : Z) : M fut Z :=
  match q with
  | [] => ret haswake
  | fe :: q' =>
      let* x := gets (fun s => s.(futexevents) fe) in
      if x.(ftx_upaddr) =? upa then
        futexevent_free_and_wake fe ;;;
        if wrap64 (haswake + 1) =? wakecnt then ret (haswake + 1)
        else futex_wake_loop upa wakecnt q' (haswake + 1)
      else futex_wake_loop upa wakecnt q' haswake
  end.
Definition futex_wake (upa wakecnt : Z) : M fut Z :=
  let* q := gets fe_usedq in futex_wake_loop upa wakecnt q 0.

(** [maxwaiter] is counted down and never looked at: it is unsigned. *)
Fixpoint futex_requeue_loop (src dst wakecnt : Z) (q : list Z) (haswake maxwaiter : Z) : M fut Z :=
  match q with
  | [] => ret haswake
  | fe :: q' =>
      let* x := gets (fun s => s.(futexevents) fe) in
      if x.(ftx_upaddr) =? src then
        if wrap64 haswake <? wakecnt then
          futexevent_free_and_wake fe ;;;
          futex_requeue_loop src dst wakecnt q' (haswake + 1) maxwaiter
        else
          modify (fun s => set_fe fe (MkFe dst (s.(futexevents) fe).(ftx_waiterpid) (s.(futexevents) fe).(ftx_waketime)) s) ;;;
          futex_requeue_loop src dst wakecnt q' haswake (wrap64 (maxwaiter - 1))
      else futex_requeue_loop src dst wakecnt q' haswake maxwaiter
  end.
Definition futex_requeue (src dst wakecnt maxwaiter : Z) : M fut Z :=
  let* q := gets fe_usedq in futex_requeue_loop src dst wakecnt q 0 maxwaiter.

(** ** Waking *)

Section Wake.
Variable NCPU : nat.
Variable NTHREAD : Z.

Record finv (s : fut) : Prop := {
  fi_core : core NCPU NTHREAD [] s.(timed).(kern);
  fi_timed : tinv s.(timed);
  fi_nodup : NoDup (s.(fe_usedq) ++ s.(fe_freeq))
}.
Definition among (l : list Z) (x : Z) : bool := bool_decide (x ∈ l).

(** The events [l] were freed and their sleeps ended. *)
Record woke (l : list Z) (s s' : fut) : Prop := {
  wk_used : s'.(fe_usedq) = List.filter (fun fe => negb (among l fe)) s.(fe_usedq);
  wk_freeq : s'.(fe_freeq) = rev l ++ s.(fe_freeq);
  wk_ev : forall fe, s'.(futexevents) fe = if among l fe then MkFe 0 0 0 else s.(futexevents) fe;
  wk_timed : unused false (fun e => among l (s.(timed).(tsevents) e).(tse_wchan)) s.(timed) s'.(timed);
  wk_kern : woken NCPU NTHREAD (fun chan => chan ∈ l) s.(timed).(kern) s'.(timed).(kern)
}.

Lemma among_app l1 l2 x : among (l1 ++ l2) x = among l1 x || among l2 x.
Proof.
  unfold among. destruct (decide (x ∈ l1)) as [H1|H1]; [|].
  { rewrite (bool_decide_eq_true_2 (x ∈ l1) H1). apply bool_decide_eq_true_2, elem_of_app. now left. }
  rewrite (bool_decide_eq_false_2 _ H1). cbn. apply bool_decide_ext. rewrite elem_of_app. tauto.
Qed.
Lemma woke_nil s : finv s -> woke [] s s.
Proof.
  intros [C I Hn]. constructor; auto.
  - now rewrite (List.filter_ext (fun fe => negb (among [] fe)) (fun _ => true)), List.filter_true.
  - now apply unused_none.
  - apply woken_none; auto. intros x. apply not_elem_of_nil.
Qed.
Lemma woke_trans l1 l2 s1 s2 s3 : woke l1 s1 s2 -> woke l2 s2 s3 -> woke (l1 ++ l2) s1 s3.
Proof.
  intros [U1 F1 E1 T1 K1] [U2 F2 E2 T2 K2]. constructor.
  - rewrite U2, U1, filter_filter. apply List.filter_ext. intros x. rewrite among_app. now destruct (among l1 x), (among l2 x).
  - rewrite F2, F1, rev_app_distr, app_assoc. reflexivity.
  - intros fe. rewrite E2, E1, among_app. now destruct (among l1 fe), (among l2 fe).
  - apply (unused_trans _ _ _ _ _ _ _ T1 T2). intros e He. rewrite among_app, (un_ev _ _ _ _ T1).
    rewrite bool_decide_eq_true_2, andb_true_r by exact He. destruct (among l1 _) eqn:Ea; reflexivity.
  - apply (woken_trans _ _ _ _ _ _ _ _ K1 K2); [intros x; apply _|]. intros x. apply elem_of_app.
Qed.
Lemma woke_finv l s s' : woke l s s' -> finv s -> NoDup l -> (forall x, x ∈ l -> x ∈ s.(fe_usedq)) -> finv s'.
Proof.
  intros [U F E T K] [C I Hn] Hl Hin. apply NoDup_app in Hn as (N1 & N2 & N3). constructor; [apply K|exact (unused_tinv _ _ _ _ T I)|].
  rewrite U, F. apply NoDup_app. split; [now apply filter_NoDup|]. split.
  - intros x [Hx Ha%negb_true_iff]%filter_in. rewrite elem_of_app. intros [Hr|Hr]; [|now apply (N2 x)].
    apply bool_decide_eq_false in Ha. apply Ha. apply list_elem_of_In, in_rev, list_elem_of_In in Hr. exact Hr.
  - apply NoDup_app. split; [now apply NoDup_ListNoDup, NoDup_rev, NoDup_ListNoDup|]. split; [|exact N3].
    intros x Hx. apply list_elem_of_In, in_rev, list_elem_of_In in Hx. auto.
Qed.

Lemma on_timed_run {A : Type} (c : M tst A) s a t : c s.(timed) = Ok (a, t) -> on_timed c s = Ok (a, set_timed t s).
Proof. unfold on_timed. now intros ->. Qed.

Lemma free_and_wake_run fe s : finv s -> fe ∈ s.(fe_usedq) ->
  exists s', futexevent_free_and_wake fe s = Ok (tt, s') /\ woke [fe] s s'.
Proof.
  intros [C I Hn] He. apply NoDup_app in Hn as (N1 & N2 & N3).
  destruct (twakeup_run NCPU NTHREAD fe s.(timed) 2 C I) as (t & E & U & W); [lia|].
  unfold futexevent_free_and_wake. do 2 erewrite bind_run by reflexivity. cbn [fe_usedq set_fe].
  rewrite queue_remove_without by auto. do 2 erewrite bind_run by reflexivity.
  eexists. split; [apply on_timed_run; exact E|].
  assert (Ha : forall x, among [fe] x = (x =? fe)).
  { intros x. unfold among. destruct (Z.eqb_spec x fe) as [->|Hx]; [apply bool_decide_eq_true_2; left|].
    apply bool_decide_eq_false_2. now intros ->%list_elem_of_singleton. }
  constructor; cbn.
  - apply List.filter_ext. intros x. now rewrite Ha.
  - reflexivity.
  - intros x. rewrite Ha. reflexivity.
  - apply (unused_trans _ _ (fun _ => false) _ _ t _ U); [now apply unused_none|]. intros e _. now rewrite Ha, orb_false_r.
  - destruct W as [W1 W2 W3 W4 W5]. constructor; auto; setoid_rewrite list_elem_of_singleton; [intros x; rewrite W2|intros x Hx Hc; apply W4; [exact Hx|congruence]].
    intuition congruence.
Qed.

(** The events a call wakes: those of the futex, in queue order, up to the
    count. *)
Fixpoint chosen (ev : Z -> futexevent_t) (upa wakecnt : Z) (q : list Z) (haswake : Z) : list Z :=
  match q with
  | [] => []
  | fe :: q' =>
      if (ev fe).(ftx_upaddr) =? upa
      then fe :: (if wrap64 (haswake + 1) =? wakecnt then [] else chosen ev upa wakecnt q' (haswake + 1))
      else chosen ev upa wakecnt q' haswake
  end.
Lemma chosen_ext ev ev' upa n q : forall h, (forall x, x ∈ q -> ev' x = ev x) -> chosen ev' upa n q h = chosen ev upa n q h.
Proof.
  induction q as [|x q IH]; intros h H; cbn; [reflexivity|]. rewrite H by left.
  rewrite !IH by (intros; apply H; now right). reflexivity.
Qed.
Lemma chosen_sub ev upa n q : forall h x, x ∈ chosen ev upa n q h -> x ∈ q.
Proof.
  induction q as [|y q IH]; intros h x; cbn; [auto|]. destruct (_ =? upa).
  - intros [->|Hx]%elem_of_cons; [left|right]. destruct (_ =? n); [now apply not_elem_of_nil in Hx|eauto].
  - right. eauto.
Qed.
Lemma chosen_nodup ev upa n q : forall h, NoDup q -> NoDup (chosen ev upa n q h).
Proof.
  induction q as [|y q IH]; intros h Hn; cbn; [constructor|]. apply NoDup_cons in Hn as [Hy Hn]. destruct (_ =? upa); [|auto].
  destruct (_ =? n); apply NoDup_cons; (split; [|auto using NoDup_nil_2]).
  - apply not_elem_of_nil.
  - intros Hx%chosen_sub. contradiction.
Qed.
(** In terms of the queue: all matching events for a count of 0, the first
    [wakecnt] of them otherwise. *)
Lemma chosen_take ev upa n q : forall h, 0 <= h -> h + Z.of_nat (length q) < 18446744073709551616 -> n = 0 \/ h < n ->
  let m := List.filter (fun fe => (ev fe).(ftx_upaddr) =? upa) q in
  chosen ev upa n q h = if n =? 0 then m else take (Z.to_nat (n - h)) m.
Proof.
  induction q as [|x q IH]; intros h Hh Hb Hn; cbn; [rewrite take_nil; now destruct (n =? 0)|]. cbn [length] in Hb.
  destruct (_ =? upa); [|apply IH; lia].
  rewrite wrap64_small by lia. destruct (Z.eqb_spec (h + 1) n) as [<-|Hne].
  - rewrite (proj2 (Z.eqb_neq (h + 1) 0)) by lia. replace (Z.to_nat (h + 1 - h)) with 1%nat by lia. reflexivity.
  - rewrite IH by lia. destruct (Z.eqb_spec n 0); [reflexivity|].
    replace (Z.to_nat (n - h)) with (S (Z.to_nat (n - (h + 1)))) by lia. reflexivity.
Qed.

Lemma wake_loop_run upa n : forall q h s, finv s -> NoDup q -> (forall x, x ∈ q -> x ∈ s.(fe_usedq)) ->
  let l := chosen s.(futexevents) upa n q h in
  exists s', futex_wake_loop upa n q h s = Ok (h + Z.of_nat (length l), s') /\ woke l s s'.
Proof.
  induction q as [|fe q IH]; intros h s I Hq Hin; cbn [futex_wake_loop chosen].
  - exists s. rewrite Z.add_0_r. split; [reflexivity|now apply woke_nil].
  - apply NoDup_cons in Hq as [Hfe Hq]. erewrite bind_run by reflexivity. destruct (_ =? upa) eqn:Eu.
    + destruct (free_and_wake_run fe s I) as (s1 & E1 & W1); [apply Hin; left|]. erewrite bind_run by exact E1.
      destruct (_ =? n) eqn:En; [exists s1; split; [reflexivity|exact W1]|].
      assert (I1 : finv s1).
      { apply (woke_finv [fe] s); auto using NoDup_singleton. intros x ->%list_elem_of_singleton. apply Hin. left. }
      destruct (IH (h + 1) s1 I1 Hq) as (s2 & E2 & W2).
      * intros x Hx. rewrite (wk_used _ _ _ W1). apply filter_in. split; [apply Hin; now right|]. unfold among.
        rewrite bool_decide_eq_false_2; [reflexivity|]. intros ->%list_elem_of_singleton. contradiction.
      * rewrite (chosen_ext s.(futexevents)) in E2, W2.
        2,3: intros x Hx; rewrite (wk_ev _ _ _ W1); unfold among; rewrite bool_decide_eq_false_2; [reflexivity|]; intros ->%list_elem_of_singleton; contradiction.
        exists s2. split; [rewrite E2; cbn [length]; do 2 f_equal; lia|]. exact (woke_trans [fe] _ _ _ _ W1 W2).
    + destruct (IH h s I Hq) as (s2 & E2 & W2); [intros; apply Hin; now right|]. eauto.
Qed.

End Wake.

(** ** Runs *)


(** Threads 1 and 2 run on CPUs 0 and 1; three futex events. *)
Definition fboot : fut := MkFut tboot (fun _ => MkFe 0 0 0) [1001; 1002; 1003] [].
(** Thread 1 waits for the word at 77 until 3. *)
Definition fw1 : fut := after (on_timed tse_alloc_take) (after futexevent_take fboot).
Definition fw2 : fut := after (futex_wait_insert 0 1001 1 77 5 0 0 3 0) fw1.
Definition fw3 : fut := after (futex_wait_sleep 2 0 1001 true) fw2.
(** Its time is up; thread 2 waits for the same word without a deadline. *)
Definition fw4 : fut := after (on_timed (tsleep_check 3 5)) fw3.
Definition fw4a : fut := after futexevent_take fw4.
Definition fw5 : fut := after (on_timed tse_alloc_take) fw4a.
Definition fw6 : fut := after (futex_wait_insert 1 1002 2 77 6 0 0 0 5) fw5.
Definition fw7 : fut := after (futex_wait_sleep 2 1 1002 true) fw6.
(** Thread 1 is back on CPU 1 and returns from its wait. *)
Definition fw8 : fut := after (futex_wait_return 1 1) fw7.
Definition fw9 : fut := after (futex_wake 77 1) fw8.
(** What is left to compute, seen as values only. *)
Lemma fw_values : value (futex_wait_insert 0 1001 1 77 5 0 0 3 0) fw1 = Some None /\ value (futex_wait_sleep 2 0 1001 true) fw2 = Some tt /\
  value (on_timed (tsleep_check 3 5)) fw3 = Some tt /\ value futexevent_take fw4 = Some 1002 /\
  value (on_timed tse_alloc_take) fw4a = Some 2 /\ value (futex_wait_insert 1 1002 2 77 6 0 0 0 5) fw5 = Some None /\
  value (futex_wait_sleep 2 1 1002 true) fw6 = Some tt /\ value (futex_wait_return 1 1) fw7 = Some (- ETIMEDOUT) /\
  value (futex_wake 77 1) fw8 = Some 1.
Proof. vm_compute. repeat split. Qed.
Lemma fw_queues : 2 ∈ fw9.(timed).(kern).(thread_sleepq) /\ fw9.(timed).(kern).(thread_runq) = fw8.(timed).(kern).(thread_runq).
Proof. split; [vm_compute; left|vm_compute; reflexivity]. Qed.

(** A waiter that timed out leaves its event behind: [futex_wait] frees it only
    on the early return.  The next [futex_wake] of one waiter takes that event,
    reports one waiter woken and wakes nobody, while a thread that waits for
    the word sleeps on. *)
Theorem futex_wake_lost : exists s1 s2 s3 sa sb s4 s5 s6 s7,
  futex_wait_insert 0 1001 1 77 5 0 0 3 0 fw1 = Ok (None, s1) /\
  futex_wait_sleep 2 0 1001 true s1 = Ok (tt, s2) /\
  on_timed (tsleep_check 3 5) s2 = Ok (tt, s3) /\
  futexevent_take s3 = Ok (1002, sa) /\ on_timed tse_alloc_take sa = Ok (2, sb) /\
  futex_wait_insert 1 1002 2 77 6 0 0 0 5 sb = Ok (None, s4) /\
  futex_wait_sleep 2 1 1002 true s4 = Ok (tt, s5) /\
  futex_wait_return 1 1 s5 = Ok (- ETIMEDOUT, s6) /\
  futex_wake 77 1 s6 = Ok (1, s7) /\
  2 ∈ s7.(timed).(kern).(thread_sleepq) /\ s7.(timed).(kern).(thread_runq) = s6.(timed).(kern).(thread_runq).
Proof.
  exists fw2, fw3, fw4, fw4a, fw5, fw6, fw7, fw8, fw9. destruct fw_values as (V1 & V2 & V3 & Va & Vb & V4 & V5 & V6 & V7).
  split; [exact (after_ok _ _ _ V1)|]. split; [exact (after_ok _ _ _ V2)|]. split; [exact (after_ok _ _ _ V3)|].
  split; [exact (after_ok _ _ _ Va)|]. split; [exact (after_ok _ _ _ Vb)|]. split; [exact (after_ok _ _ _ V4)|].
  split; [exact (after_ok _ _ _ V5)|]. split; [exact (after_ok _ _ _ V6)|]. split; [exact (after_ok _ _ _ V7)|].
  exact fw_queues.
Qed.

(** Thread 1 asleep on event 1001. *)
Definition fs1 : fut :=
  MkFut ts1 (fun fe => if fe =? 99 then MkFe 77 5 3 else MkFe 0 0 0) [1001; 1002] [99].
Lemma fs1_inv : finv 2 3 fs1.
Proof. constructor; [exact (proj1 ts1_ok)|exact (proj2 ts1_ok)|cbn; compute_done]. Qed.
