(* ===== verification/UserMem.v ===== *)
(** * User memory: page faults, copy-on-write, copies between user and kernel

    [src/kern/trap/trap_pgfault.c], [src/kern/lib/transfer.c], [duppage] of
    [src/kern/proc/fork.c] and [uaddr_to_pa] of
    [src/kern/futex/futex_interface.c], on the page tables of [Vmm].  Physical
    memory is the word memory of [Pmm]; [ldb] and [stb] are byte accesses to
    it, and [memcpy] between two pages is the byte copy that
    [StringLib.memmove_spec] shows it to be.  The kernel's own buffers are a
    byte memory apart from user pages ([kmem]). *)

From S2P Require Import Prelude StringLib Pmm Vmm.
From Stdlib Require Import ZArith Lia Bool.
From stdpp Require Import base tactics numbers list.
Open Scope Z_scope.

(** ** Bytes of word memory *)

Definition ldb (m : Z -> Z) (x : Z) : Z := Z.land (Z.shiftr (m (x - x mod 8)) (8 * (x mod 8))) 255.
Definition put_byte (w k b : Z) : Z := Z.lor (Z.ldiff w (Z.shiftl 255 k)) (Z.shiftl (Z.land b 255) k).
Definition stb (m : Z -> Z) (x b : Z) : Z -> Z := upd m (x - x mod 8) (put_byte (m (x - x mod 8)) (8 * (x mod 8)) b).

(** [for (i = 0; i < n; i++) dst[i] = f(i)]. *)
Fixpoint fill_bytes (n : nat) (m : Z -> Z) (dst : Z) (f : Z -> Z) (i : Z) : Z -> Z :=
  match n with O => m | S n' => fill_bytes n' (stb m (dst + i) (f i)) dst f (i + 1) end.

Record ust : Type := MkUst { umm : mm; kmem : mem }.
Definition on_mm {A : Type} (c : M mm A) : M ust A := fun s =>
  match c s.(umm) with Ok (a, m) => Ok (a, MkUst m s.(kmem)) | Err f => Err f end.

(** ** Page faults *)

(** An access of the kernel to physical memory outside RAM faults. *)
Definition in_ram (s : mm) (pa len : Z) : bool := (MEMBASE <=? pa) && (pa + len <=? pmTop s).

(** [memcpy((void * )newpa, (void * )oldpa, PAGE_SIZE)]. *)
Definition copy_page (newpa oldpa : Z) : M mm unit := fun s =>
  if in_ram s newpa PAGE_SIZE && in_ram s oldpa PAGE_SIZE then
    Ok (tt, set_pmem (fill_bytes (Z.to_nat PAGE_SIZE) s.(pmem) newpa (fun i => ldb s.(pmem) (oldpa + i)) 0) s)
  else Err BadPtr.

Definition cow_handler (pd pte badva : Z) : M mm Z :=
  let* newpa := vmAlloc in
  let oldpa := pteToPa pte in
  copy_page newpa oldpa ;;;
  let newperm := Z.lor (Z.ldiff (PTE_PERM pte) PTE_COW) PTE_W in
  ptMap pd badva newpa newperm.

Definition passive_handler (pd pte badva : Z) : M mm Z :=
  massert (Z.shiftr pte 10 =? 0) ;;;
  let* newpa := vmAlloc in
  ptMap pd badva newpa pte.

Definition page_fault_handler (pd violate badva : Z) : M mm Z :=
  let* pte := ptLookup pd badva in
  if has violate PTE_W && negb (pte =? 0) && has pte PTE_U && negb (has pte PTE_W) && has pte PTE_COW then
    cow_handler pd pte badva
  else if negb (has pte PTE_V) && has pte PTE_U then
    passive_handler pd pte badva
  else ret (-1).

(** ** Copies *)

Definition test_page_fault (upd va pte permneed : Z) : M mm unit :=
  (if negb (has pte PTE_V) then page_fault_handler upd permneed va ;;; ret tt else ret tt) ;;;
  (if has permneed PTE_W && negb (has pte PTE_W) then
     let* r := page_fault_handler upd PTE_W va in massert (r =? 0) else ret tt) ;;;
  (if has permneed PTE_R && negb (has pte PTE_R) then
     let* r := page_fault_handler upd PTE_R va in massert (r =? 0) else ret tt).

(** The callback gets the physical address, the kernel pointer and a length,
    and says whether to stop. *)
Definition callback : Type := Z -> Z -> Z -> M ust bool.
Definition copyOutCallback : callback := fun uptr kptr len s =>
  if in_ram s.(umm) uptr len then
    Ok (false, MkUst (set_pmem (fill_bytes (Z.to_nat len) s.(umm).(pmem) uptr (fun i => s.(kmem) (kptr + i)) 0) s.(umm)) s.(kmem))
  else Err BadPtr.
Definition copyInCallback : callback := fun uptr kptr len s =>
  if in_ram s.(umm) uptr len then
    Ok (false, MkUst s.(umm) (fun x => if (kptr <=? x) && (x <? kptr + len) then ldb s.(umm).(pmem) (uptr + (x - kptr)) else s.(kmem) x))
  else Err BadPtr.
(** [strncpyJudgeEnd] copies up to and including a zero byte. *)
Fixpoint strncpyJudgeEnd (n : nat) (pm : Z -> Z) (km : mem) (s t : Z) : bool * mem :=
  match n with
  | O => (km (s - 1) =? 0, km)
  | S n' =>
      let b := ldb pm t in
      let km' := upd km s b in
      if b =? 0 then (true, km') else strncpyJudgeEnd n' pm km' (s + 1) (t + 1)
  end.
Definition copyInStrCallback : callback := fun uptr kptr len s =>
  if in_ram s.(umm) uptr len then
    let '(stop, km) := strncpyJudgeEnd (Z.to_nat len) s.(umm).(pmem) s.(kmem) kptr uptr in Ok (stop, MkUst s.(umm) km)
  else Err BadPtr.

Fixpoint userToKernel_loop (fuel : nat) (upd uptr kptr len : Z) (cb : callback) (permneed i uoff : Z) : M ust unit :=
  if i <? len then
    match fuel with
    | O => fail NoFuel
    | S fuel' =>
        let va := wrap64 (uptr + i) in
        let* pte := on_mm (ptLookup upd va) in
        on_mm (test_page_fault upd va pte permneed) ;;;
        let* pte' := on_mm (ptLookup upd va) in
        let urealpa := pteToPa pte' in
        massert (negb ((urealpa <? 4096) || (kptr <? 4096))) ;;;
        let ulen := Z.min (len - i) (PAGE_SIZE - uoff) in
        let* stop := cb (urealpa + uoff) (kptr + i) ulen in
        if stop : bool then ret tt else userToKernel_loop fuel' upd uptr kptr len cb permneed (i + ulen) 0
    end
  else ret tt.
Definition userToKernel (fuel : nat) (upd uptr kptr len : Z) (cb : callback) (permneed : Z) : M ust unit :=
  userToKernel_loop fuel upd uptr kptr len cb permneed 0 (uptr mod PAGE_SIZE).

Definition copy_in (fuel : nat) (upd uptr kptr len : Z) : M ust unit := userToKernel fuel upd uptr kptr len copyInCallback PTE_R.
Definition copy_in_str (fuel : nat) (upd uptr kptr len : Z) : M ust unit := userToKernel fuel upd uptr kptr len copyInStrCallback PTE_R.
Definition copy_out (fuel : nat) (upd uptr kptr len : Z) : M ust unit := userToKernel fuel upd uptr kptr len copyOutCallback PTE_W.

(** ** Fork *)

(** [r1 || r2] of two calls: the second one is made when the first returns 0. *)
Definition duppage (pd target_va childpd : Z) : M mm Z :=
  let* e := ptLookup childpd target_va in
  if e =? 0 then
    let* parentpte := ptLookup pd target_va in
    let perm := PTE_PERM parentpte in
    if PTE_PASSIVE perm then ptMap childpd target_va 0 perm
    else if has perm PTE_W && has perm PTE_U && negb (has perm PTE_SHARED) then
      let perm' := Z.lor (Z.ldiff perm PTE_W) PTE_COW in
      let* r1 := ptMap childpd target_va (pteToPa parentpte) perm' in
      if negb (r1 =? 0) then ret 1
      else let* r2 := ptMap pd target_va (pteToPa parentpte) perm' in ret (if r2 =? 0 then 0 else 1)
    else if has perm PTE_U then ptMap childpd target_va (pteToPa parentpte) perm
    else fail Panic
  else ret 0.

(** The physical address a futex word is known by. *)
Definition uaddr_to_pa (pt uaddr : Z) : M mm Z :=
  let* pte := ptLookup pt uaddr in
  massert (has pte PTE_V) ;;;
  ret (wrap64 (pteToPa pte + Z.land uaddr (PAGE_SIZE - 1))).

(** ** Byte lemmas *)

Lemma put_byte_bit w k b n : 0 <= k -> 0 <= n ->
  Z.testbit (put_byte w k b) n = if (k <=? n) && (n <? k + 8) then Z.testbit b (n - k) else Z.testbit w n.
Proof.
  intros Hk Hn. unfold put_byte. rewrite Z.lor_spec, Z.ldiff_spec, !Z.shiftl_spec, Z.land_spec by lia. change 255 with (Z.ones 8).
  destruct (Z.leb_spec k n) as [H1|H1]; cbn [andb].
  - destruct (Z.ltb_spec n (k + 8)) as [H2|H2].
    + rewrite Z.ones_spec_low by lia. cbn. now rewrite andb_false_r, andb_true_r.
    + rewrite Z.ones_spec_high by lia. cbn. now rewrite andb_true_r, andb_false_r, orb_false_r.
  - rewrite !(Z.testbit_neg_r _ (n - k)) by lia. cbn. now rewrite andb_true_r, orb_false_r.
Qed.
Lemma ldb_bit m x n : 0 <= n -> Z.testbit (ldb m x) n = (n <? 8) && Z.testbit (m (x - x mod 8)) (n + 8 * (x mod 8)).
Proof.
  intros Hn. unfold ldb. rewrite Z.land_spec, Z.shiftr_spec by lia. change 255 with (Z.ones 8).
  destruct (Z.ltb_spec n 8) as [H|H]; [rewrite Z.ones_spec_low by lia|rewrite Z.ones_spec_high by lia];
    [now rewrite andb_true_r|now rewrite andb_false_r].
Qed.
Lemma ldb_stb m x b y : ldb (stb m x b) y = if y =? x then Z.land b 255 else ldb m y.
Proof.
  pose proof (Z.mod_pos_bound x 8 ltac:(lia)). pose proof (Z.mod_pos_bound y 8 ltac:(lia)).
  apply Z.bits_inj'. intros n Hn. rewrite ldb_bit by lia. unfold stb, upd.
  destruct (Z.eqb_spec (y - y mod 8) (x - x mod 8)) as [E|E].
  - rewrite put_byte_bit by lia. destruct (Z.eqb_spec y x) as [->|Hne].
    + rewrite Z.land_spec. change 255 with (Z.ones 8). destruct (Z.ltb_spec n 8) as [Hl|Hl]; cbn [andb].
      * rewrite Z.ones_spec_low, andb_true_r by lia. destruct (_ && _) eqn:Eb; [f_equal; lia|].
        apply andb_false_iff in Eb as [Eb|Eb]; zbool; lia.
      * now rewrite Z.ones_spec_high, andb_false_r by lia.
    + rewrite ldb_bit by lia. destruct (Z.ltb_spec n 8) as [Hl|Hl]; cbn [andb]; [|reflexivity]. rewrite E.
      destruct (_ && _) eqn:Eb; [zbool; lia|reflexivity].
  - destruct (Z.eqb_spec y x) as [->|]; [congruence|]. now rewrite ldb_bit by lia.
Qed.
Lemma ldb_range m x : 0 <= ldb m x < 256.
Proof. unfold ldb. change 255 with (Z.ones 8). rewrite Z.land_ones by lia. apply Z.mod_pos_bound. lia. Qed.
Lemma land_byte b : 0 <= b < 256 -> Z.land b 255 = b.
Proof. intros. change 255 with (Z.ones 8). rewrite Z.land_ones by lia. now apply Z.mod_small. Qed.

Lemma fill_bytes_ldb n : forall m dst f i, (forall k, 0 <= f k < 256) -> forall y,
  ldb (fill_bytes n m dst f i) y = if (dst + i <=? y) && (y <? dst + i + Z.of_nat n) then f (y - dst) else ldb m y.
Proof.
  induction n as [|n IH]; intros m dst f i Hf y; cbn [fill_bytes]; [zcases|].
  rewrite IH, ldb_stb, land_byte by auto. zcases. f_equal. lia.
Qed.
(** Words outside the pages written are untouched. *)
Lemma fill_bytes_word n : forall m dst f i lo hi w, lo mod 8 = 0 -> lo <= dst + i -> dst + i + Z.of_nat n <= hi ->
  w < lo \/ hi <= w -> fill_bytes n m dst f i w = m w.
Proof.
  induction n as [|n IH]; intros m dst f i lo hi w Hlo H1 H2 Hw; cbn [fill_bytes]; [reflexivity|].
  rewrite (IH _ dst f (i + 1) lo hi) by lia. unfold stb. apply upd_ne. intros ->. zlia.
Qed.

(** ** Two address spaces over one memory *)

Definition frame (q : Z) : Z := MEMBASE + 4096 * q.
Definition maps (m : Z -> Z) (root va q : Z) : Prop := pte_page (lookup_va m root va) = Some q.
Definition same_page (va va' : Z) : bool :=
  (PTX va' 1 =? PTX va 1) && (PTX va' 2 =? PTX va 2) && (PTX va' 3 =? PTX va 3).

(** What an address space [R] keeps with respect to another one [R2]: its
    tables are well formed and not tables of [R2], the pages it maps are
    referenced, mapped once, and no table; a page both map has two references. *)
Record space (s : mm) (R R2 : Z) : Prop := {
  sp_wf : wf_pt s R;
  sp_apart : forall a, is_table s.(pmem) R a -> ~ is_table s.(pmem) R2 a;
  sp_leaf : forall va q, maps s.(pmem) R va q ->
    in_use s q /\ 0 < s.(page_ref) q /\ ~ is_table s.(pmem) R (frame q) /\ ~ is_table s.(pmem) R2 (frame q);
  sp_once : forall va va' q, maps s.(pmem) R va q -> maps s.(pmem) R va' q -> same_page va va' = true;
  sp_two : forall va va' q, maps s.(pmem) R va q -> maps s.(pmem) R2 va' q -> 1 < s.(page_ref) q }.
Record spaces (s : mm) (R R2 : Z) : Prop := {
  ss_ok : mm_ok s;
  ss_depth : 0 <= s.(kvm_depth);
  ss_this : space s R R2;
  ss_other : space s R2 R }.

Lemma spaces_sym s R R2 : spaces s R R2 -> spaces s R2 R.
Proof. intros []. now constructor. Qed.

(** *** States that agree on the tables of a space *)

Definition same_tables (s s' : mm) (root : Z) : Prop := forall a, is_table s.(pmem) root a ->
  frame_of s' a /\ forall i, idx i -> s'.(pmem) (a + 8 * i) = s.(pmem) (a + 8 * i).
Lemma dir_table m root a : is_dir m root a -> is_table m root a.
Proof. intros [->|(i & Hi & E)]; [now left|]. right. left. eauto. Qed.
Lemma same_tables_tab3 s s' root i j : same_tables s s' root -> idx i -> idx j -> tab3 s'.(pmem) root i j = tab3 s.(pmem) root i j.
Proof. intros H Hi Hj. apply same_tab3; auto. intros a k Ha Hk. apply H; auto. now apply dir_table. Qed.
Lemma same_tables_at s s' root i j k : same_tables s s' root -> idx i -> idx j -> idx k ->
  pte_at s'.(pmem) root i j k = pte_at s.(pmem) root i j k.
Proof.
  intros H Hi Hj Hk. unfold pte_at. rewrite (same_tables_tab3 s s') by auto.
  destruct (tab3 s.(pmem) root i j) as [t|] eqn:E; [|reflexivity]. apply H; auto. right. right. eauto.
Qed.
Lemma same_tables_lookup s s' root : same_tables s s' root -> forall va, lookup_va s'.(pmem) root va = lookup_va s.(pmem) root va.
Proof. intros H va. apply same_tables_at; auto; apply PTX_range. Qed.
Lemma same_tables_wf s s' root : wf_pt s root -> same_tables s s' root -> wf_pt s' root.
Proof.
  intros W H. apply (frame_wf s s'); auto.
  - intros a i Ha Hi. apply H; auto. now apply dir_table.
  - intros a Ha. now apply H.
  - intros i j k Hi Hj Hk. rewrite (same_tables_at s s') by auto. now apply W.
Qed.
Lemma same_tables_is s s' root a : same_tables s s' root -> is_table s'.(pmem) root a <-> is_table s.(pmem) root a.
Proof.
  intros H. assert (Hc : forall i, idx i -> child s'.(pmem) root i = child s.(pmem) root i).
  { intros i Hi. apply same_child; auto. intros b k Hb Hk. apply H; auto. now apply dir_table. }
  split; (intros [->|[(i & Hi & E)|(i & j & Hi & Hj & E)]]; [now left|right; left; exists i; split; [exact Hi|]|
    right; right; exists i, j; split; [exact Hi|]; split; [exact Hj|]]).
  - now rewrite <- Hc.
  - now rewrite <- (same_tables_tab3 s s').
  - now rewrite Hc.
  - now rewrite (same_tables_tab3 s s').
Qed.

Lemma space_same s s' R R2 : space s R R2 -> same_tables s s' R -> same_tables s s' R2 ->
  (forall q, in_use s q -> in_use s' q /\ s'.(page_ref) q = s.(page_ref) q) -> space s' R R2.
Proof.
  intros [W Ha Hl Ho Ht] T T2 Hu.
  pose proof (same_tables_lookup _ _ _ T) as L. pose proof (same_tables_lookup _ _ _ T2) as L2.
  constructor.
  - now apply (same_tables_wf s).
  - intros a. rewrite (same_tables_is s s' R a T), (same_tables_is s s' R2 a T2). apply Ha.
  - intros va q. unfold maps. rewrite L. intros E. destruct (Hl va q E) as (H1 & H2 & H3 & H4). destruct (Hu q H1) as [H5 ->].
    rewrite (same_tables_is s s' R _ T), (same_tables_is s s' R2 _ T2). auto.
  - intros va va' q. unfold maps. rewrite !L. apply Ho.
  - intros va va' q. unfold maps. rewrite L, L2. intros E E2. destruct (Hl va q E) as [H1 _]. destruct (Hu q H1) as [_ ->]. eapply Ht; eauto.
Qed.
Lemma spaces_same s s' R R2 : spaces s R R2 -> same_tables s s' R -> same_tables s s' R2 ->
  mm_ok s' -> 0 <= s'.(kvm_depth) -> (forall q, in_use s q -> in_use s' q /\ s'.(page_ref) q = s.(page_ref) q) -> spaces s' R R2.
Proof. intros [? ? S1 S2] T T2 Hok Hd Hu. constructor; auto; now apply (space_same s). Qed.

(** Frames are disjoint, so tables lie apart from the bytes of other pages. *)
Lemma frame_word s R a i q : wf_pt s R -> is_table s.(pmem) R a -> idx i -> a <> frame q ->
  ~ (frame q <= a + 8 * i < frame q + 4096).
Proof.
  intros W Ha Hi Hne. destruct (is_table_frame _ _ _ W Ha) as (p & _ & ->). unfold frame, MEMBASE, idx in *.
  assert (p <> q) by (intros ->; apply Hne; reflexivity). lia.
Qed.
(** Memory written inside a page that is no table. *)
Lemma write_same_tables s m R q : wf_pt s R -> ~ is_table s.(pmem) R (frame q) ->
  (forall w, w < frame q \/ frame q + 4096 <= w -> m w = s.(pmem) w) -> same_tables s (set_pmem m s) R.
Proof.
  intros W Hq Hm a Ha. split; [now apply (is_table_frame s R a W)|]. intros i Hi. cbn. apply Hm.
  assert (a <> frame q) by (intros ->; contradiction). pose proof (frame_word s R a i q W Ha Hi H). lia.
Qed.
Lemma write_spaces s m R R2 q : spaces s R R2 -> ~ is_table s.(pmem) R (frame q) -> ~ is_table s.(pmem) R2 (frame q) ->
  (forall w, w < frame q \/ frame q + 4096 <= w -> m w = s.(pmem) w) -> spaces (set_pmem m s) R R2.
Proof.
  intros S H1 H2 Hm. destruct S as [Hok Hd S1 S2] eqn:ES.
  apply (spaces_same s); auto; try (apply (write_same_tables s m _ q); auto; [apply S1 || apply S2]).
  now apply mm_ok_pmem.
Qed.

(** *** Bits of entries *)

Lemma has_bit x n : 0 <= n -> has x (2 ^ n) = Z.testbit x n.
Proof.
  intros Hn. unfold has. destruct (Z.testbit x n) eqn:E.
  - apply negb_true_iff, Z.eqb_neq. intros H. assert (Hb : Z.testbit (Z.land x (2 ^ n)) n = true) by now rewrite Z.land_spec, E, Z.pow2_bits_true.
    rewrite H, Z.bits_0 in Hb. discriminate.
  - apply negb_false_iff, Z.eqb_eq, Z.bits_inj'. intros k Hk. rewrite Z.land_spec, Z.bits_0, Z.pow2_bits_eqb by lia.
    destruct (Z.eqb_spec n k); subst; now rewrite ?E, ?andb_false_r.
Qed.
Lemma perm_bit e n : 0 <= n < 10 -> Z.testbit (PTE_PERM e) n = Z.testbit e n.
Proof. intros. unfold PTE_PERM. change 1023 with (Z.ones 10). rewrite Z.land_spec, Z.ones_spec_low by lia. apply andb_true_r. Qed.
Lemma perm_range e : 0 <= PTE_PERM e < 1024.
Proof. unfold PTE_PERM. change 1023 with (Z.ones 10). rewrite Z.land_ones by lia. apply Z.mod_pos_bound. lia. Qed.
Lemma has_perm e n : 0 <= n < 10 -> has (PTE_PERM e) (2 ^ n) = has e (2 ^ n).
Proof. intros. rewrite !has_bit by lia. now apply perm_bit. Qed.
Lemma mk_facts p perm : 0 < p < 4294967296 -> 0 <= perm < 1024 ->
  pteToPa (mk_pte (frame p) perm) = frame p /\ has (mk_pte (frame p) perm) PTE_V = true /\
  PTE_PERM (mk_pte (frame p) perm) = Z.lor perm PTE_V /\ pte_page (mk_pte (frame p) perm) = Some p.
Proof.
  intros Hp Hperm. destruct (mk_pte_roundtrip (frame p) perm) as (H1 & H2 & H3); try (unfold frame, MEMBASE; zlia).
  split; [exact H1|]. split; [exact H2|]. split; [exact H3|]. now apply pte_page_mk.
Qed.
Lemma has_mk p perm n : 0 < p < 4294967296 -> 0 <= perm < 1024 -> 1 <= n < 10 ->
  has (mk_pte (frame p) perm) (2 ^ n) = has perm (2 ^ n).
Proof.
  intros Hp Hperm Hn. rewrite <- has_perm by lia. destruct (mk_facts p perm Hp Hperm) as (_ & _ & -> & _).
  rewrite !has_bit, Z.lor_spec by lia. replace (Z.testbit PTE_V n) with false; [apply orb_false_r|].
  symmetry. apply (Z.pow2_bits_false 0 n). lia.
Qed.
Lemma maps_page m root va q : maps m root va q -> 0 < q -> q < 4294967296 ->
  has (lookup_va m root va) PTE_V = true /\ pteToPa (lookup_va m root va) = frame q.
Proof.
  unfold maps. intros E Hq Hq'. destruct (pte_page_low _ _ E Hq) as (Hv & Hl & ->). split; [exact Hv|].
  pose proof (wrap64_range (Z.shiftl (Z.shiftr (lookup_va m root va) 10) 12)) as Hr. fold (pteToPa (lookup_va m root va)) in Hr.
  rewrite paToPage_eq in * by lia. unfold frame.
  assert (Hm : pteToPa (lookup_va m root va) mod 4096 = 0); [|unfold MEMBASE in *; zlia].
  unfold pteToPa, wrap64. rewrite Z.shiftl_mul_pow2 by lia. change (2 ^ 12) with 4096. zlia.
Qed.

(** *** Mapping a page into one of the spaces *)

Lemma same_page_refl va : same_page va va = true.
Proof. unfold same_page. now rewrite !Z.eqb_refl. Qed.
Lemma same_page_eq va va' : same_page va va' = true -> PTX va' 1 = PTX va 1 /\ PTX va' 2 = PTX va 2 /\ PTX va' 3 = PTX va 3.
Proof. unfold same_page. intros H. zbool. auto. Qed.
Lemma same_page_trans va va1 va2 : same_page va va1 = true -> same_page va va2 = true -> same_page va1 va2 = true.
Proof. intros (A1 & A2 & A3)%same_page_eq (B1 & B2 & B3)%same_page_eq. unfold same_page. now rewrite A1, A2, A3, B1, B2, B3, !Z.eqb_refl. Qed.
Lemma same_page_lookup m root va va' : same_page va va' = true -> lookup_va m root va' = lookup_va m root va.
Proof. intros (A1 & A2 & A3)%same_page_eq. unfold lookup_va. now rewrite A1, A2, A3. Qed.

Lemma spared_same_tables s s' R R2 o : spared R o s s' -> wf_pt s R2 -> (forall a, is_table s.(pmem) R2 a -> ~ is_table s.(pmem) R a) ->
  (forall q, o = Some q -> ~ is_table s.(pmem) R2 (frame q)) -> same_tables s s' R2.
Proof.
  intros Hsp W Ha Ho a Ht. destruct (is_table_frame _ _ _ W Ht) as (q & Hq & ->).
  destruct (Hsp q Hq (Ha _ Ht)) as (Hq' & _ & Hm); [left; intros E; exact (Ho q E Ht)|].
  split; [now exists q|]. intros i Hi. apply Hm. unfold idx in Hi. lia.
Qed.

Section MapInto.
Context (s s' : mm) (R R2 va p perm : Z).
Context (S1 : space s R R2) (S2 : space s R2 R) (Hok : mm_ok s) (W' : wf_pt s' R).
Context (Hp : in_use s p) (Hpt : ~ is_table s.(pmem) R (frame p)) (Hpt2 : ~ is_table s.(pmem) R2 (frame p)) (Hperm : 0 <= perm < 1024).
Context (Hself : maps s.(pmem) R va p -> 1 < s.(page_ref) p).
Context (Honce : forall va', maps s.(pmem) R va' p -> same_page va va' = true).
Context (Hlk : forall va', lookup_va s'.(pmem) R va' = if same_page va va' then mk_pte (frame p) perm else lookup_va s.(pmem) R va').
Context (Href : forall q, in_use s q -> s'.(page_ref) q =
  s.(page_ref) q - ref_delta (pte_page (lookup_va s.(pmem) R va)) q + ref_delta (Some p) q).
Context (Hsp : spared R (pte_page (lookup_va s.(pmem) R va)) s s').

Lemma into_tables2 : same_tables s s' R2.
Proof.
  eapply spared_same_tables; [exact Hsp|apply S2|apply S2|]. intros q E. apply (sp_leaf _ _ _ S1 va q E).
Qed.
Lemma into_maps va' q : maps s'.(pmem) R va' q -> (same_page va va' = true /\ q = p) \/ (same_page va va' = false /\ maps s.(pmem) R va' q).
Proof.
  unfold maps. rewrite Hlk. destruct (same_page va va') eqn:E; [|now right]. left. split; [reflexivity|].
  pose proof (mm_npage _ Hok). destruct Hp as [Hp0 _]. destruct (mk_facts p perm) as (_ & _ & _ & Hpp); [lia|lia|].
  rewrite Hpp in H. congruence.
Qed.
(** Another page of the space is not the one the entry named. *)
Lemma into_other va' q : same_page va va' = false -> maps s.(pmem) R va' q -> pte_page (lookup_va s.(pmem) R va) <> Some q.
Proof. intros E H E2. now rewrite (sp_once _ _ _ S1 va va' q E2 H) in E. Qed.
Lemma into_keep q : in_use s q -> ~ is_table s.(pmem) R (frame q) -> pte_page (lookup_va s.(pmem) R va) <> Some q \/ 1 < s.(page_ref) q ->
  in_use s' q /\ ~ is_table s'.(pmem) R (frame q) /\ (0 < s.(page_ref) q \/ q = p -> 0 < s'.(page_ref) q).
Proof.
  intros Hq Ht Ho. destruct (Hsp q Hq Ht Ho) as (Hq' & Ht' & _). split; [exact Hq'|]. split; [exact Ht'|]. rewrite Href by exact Hq.
  pose proof (mm_ref _ Hok q). intros [H0| ->].
  - unfold ref_delta. destruct (pte_page _) as [o|]; [|zcases]. destruct (Z.eqb_spec q o) as [->|]; [|zcases].
    destruct Ho as [Ho|Ho]; [congruence|]. zcases.
  - unfold ref_delta. rewrite Z.eqb_refl. destruct (pte_page _) as [o|] eqn:Eo; [|lia]. destruct (Z.eqb_spec p o) as [->|]; [|lia].
    specialize (Hself Eo). lia.
Qed.
Lemma into_self : pte_page (lookup_va s.(pmem) R va) <> Some p \/ 1 < s.(page_ref) p.
Proof. destruct (decide (pte_page (lookup_va s.(pmem) R va) = Some p)) as [E|]; [right; now apply Hself|now left]. Qed.
Lemma into_this : space s' R R2.
Proof.
  pose proof into_tables2 as T. pose proof (same_tables_lookup _ _ _ T) as L2. constructor.
  - exact W'.
  - intros a Ha. rewrite (same_tables_is s s' R2 a T). intros Ht. destruct (is_table_frame _ _ _ (sp_wf _ _ _ S2) Ht) as (q & Hq & ->).
    destruct (Hsp q Hq (sp_apart _ _ _ S2 _ Ht)) as (_ & Hn & _); [|contradiction].
    left. intros E. now apply (sp_leaf _ _ _ S1 va q E).
  - intros va' q [[E ->]|[E H]]%into_maps.
    + destruct (into_keep p Hp Hpt into_self) as (? & ? & ?). rewrite (same_tables_is s s' R2 _ T). auto.
    + destruct (sp_leaf _ _ _ S1 va' q H) as (Hq & Hr & Ht & Ht2).
      destruct (into_keep q Hq Ht) as (? & ? & ?); [left; eapply into_other; eauto|]. rewrite (same_tables_is s s' R2 _ T). auto.
  - intros v1 v2 q [[E1 ->]|[E1 H1]]%into_maps [[E2 E]|[E2 H2]]%into_maps.
    + eapply same_page_trans; eauto.
    + specialize (Honce v2 H2). congruence.
    + subst q. specialize (Honce v1 H1). congruence.
    + eapply (sp_once _ _ _ S1); eauto.
  - intros v1 v2 q H1. unfold maps at 1. rewrite L2. fold (maps s.(pmem) R2 v2 q). intros H2. destruct (sp_leaf _ _ _ S2 v2 q H2) as (Hq & Hr & _).
    rewrite Href by exact Hq. apply into_maps in H1 as [[E ->]|[E H1]].
    + unfold ref_delta. rewrite Z.eqb_refl. destruct (pte_page _) as [o|] eqn:Eo; [|lia]. destruct (Z.eqb_spec p o) as [->|]; [|lia].
      specialize (Hself Eo). lia.
    + pose proof (sp_two _ _ _ S1 v1 v2 q H1 H2). pose proof (into_other v1 q E H1) as Hne.
      unfold ref_delta. destruct (pte_page _) as [o|]; [|zcases]. destruct (Z.eqb_spec q o); [congruence|zcases].
Qed.
Lemma into_other_space : space s' R2 R.
Proof.
  pose proof into_tables2 as T. pose proof (same_tables_lookup _ _ _ T) as L2. pose proof into_this as S'. constructor.
  - apply (same_tables_wf s); [apply S2|exact T].
  - intros a Ht Ha. exact (sp_apart _ _ _ S' a Ha Ht).
  - intros va' q. unfold maps. rewrite L2. intros H. destruct (sp_leaf _ _ _ S2 va' q H) as (Hq & Hr & Ht2 & Ht).
    destruct (into_keep q Hq Ht) as (? & ? & ?); [|rewrite (same_tables_is s s' R2 _ T); auto].
    destruct (decide (pte_page (lookup_va s.(pmem) R va) = Some q)) as [E|]; [right; exact (sp_two _ _ _ S1 va va' q E H)|now left].
  - intros v1 v2 q. unfold maps. rewrite !L2. apply S2.
  - intros v1 v2 q H2 H1. exact (sp_two _ _ _ S' v2 v1 q H1 H2).
Qed.
End MapInto.

Record mapped_into (s s' : mm) (R R2 va p perm : Z) : Prop := {
  mi_sp : spaces s' R R2;
  mi_np : s'.(npage) = s.(npage);
  mi_lk : forall va', lookup_va s'.(pmem) R va' = if same_page va va' then mk_pte (frame p) perm else lookup_va s.(pmem) R va';
  mi_t2 : same_tables s s' R2;
  mi_keep : forall q, in_use s q -> ~ is_table s.(pmem) R (frame q) -> ~ maps s.(pmem) R va q \/ 1 < s.(page_ref) q ->
    forall x, frame q <= x < frame q + 4096 -> s'.(pmem) x = s.(pmem) x;
  mi_free : (length s.(pageFreeList) <= length s'.(pageFreeList) + 2)%nat;
  mi_ref : forall q, in_use s q -> s'.(page_ref) q = s.(page_ref) q - ref_delta (pte_page (lookup_va s.(pmem) R va)) q + ref_delta (Some p) q;
  mi_dir : tab3 s.(pmem) R (PTX va 1) (PTX va 2) <> None -> forall a x, is_dir s.(pmem) R a -> idx x ->
    s'.(pmem) (a + 8 * x) = s.(pmem) (a + 8 * x);
  mi_spared : spared R (pte_page (lookup_va s.(pmem) R va)) s s' }.

Lemma ptMap_spaces s R R2 va p perm : spaces s R R2 -> (2 <= length s.(pageFreeList))%nat ->
  in_use s p -> s.(page_ref) p < 4294967295 -> 0 <= perm < 1024 ->
  ~ is_table s.(pmem) R (frame p) -> ~ is_table s.(pmem) R2 (frame p) ->
  (maps s.(pmem) R va p -> 1 < s.(page_ref) p) ->
  (forall va', maps s.(pmem) R va' p -> same_page va va' = true) ->
  exists s', ptMap R va (frame p) perm s = Ok (0, s') /\ mapped_into s s' R R2 va p perm.
Proof.
  intros [Hok Hd S1 S2] Hf Hp Hr Hperm Ht Ht2 Hself Honce.
  destruct (ptMap_run s R va p perm Hok (sp_wf _ _ _ S1) Hf Hd Hp Hr Hperm) as (s' & E & Hok' & W' & Hd' & _ & Hlk & Href & Hfr & Hnp & Hsp & Hdir).
  { intros q Eq. destruct (sp_leaf _ _ _ S1 va q Eq) as (? & ? & ? & _). auto. }
  exists s'. split; [exact E|]. constructor; auto.
  - constructor; [exact Hok'|lia|eapply into_this; eauto|eapply into_other_space; eauto].
  - eapply into_tables2; eauto.
  - intros q Hq Hqt Ho x Hx. now apply (Hsp q Hq Hqt Ho).
Qed.

(** ** Memory as a program sees it *)

(** The byte at a user address: of the page the entry maps; a page that is
    not present yet reads as zero. *)
Definition ubyte (m : Z -> Z) (root va : Z) : Z :=
  match pte_page (lookup_va m root va) with Some q => ldb m (frame q + va mod 4096) | None => 0 end.

Definition same_frame (m m' : Z -> Z) (q : Z) : Prop := forall x, frame q <= x < frame q + 4096 -> m' x = m x.
Lemma ldb_same m m' q o : same_frame m m' q -> 0 <= o < 4096 -> ldb m' (frame q + o) = ldb m (frame q + o).
Proof. intros H Ho. unfold ldb. rewrite H; [reflexivity|]. unfold frame, MEMBASE. zlia. Qed.
Lemma ubyte_same m m' root va : lookup_va m' root va = lookup_va m root va ->
  (forall q, maps m root va q -> same_frame m m' q) -> ubyte m' root va = ubyte m root va.
Proof.
  intros E H. unfold ubyte. rewrite E. destruct (pte_page _) as [q|] eqn:Eq; [|reflexivity]. apply ldb_same; [now apply H|].
  apply Z.mod_pos_bound. lia.
Qed.

Lemma ref_delta_ne o q : o <> Some q -> ref_delta o q = 0.
Proof. destruct o as [p|]; cbn; [|reflexivity]. intros H. destruct (Z.eqb_spec q p); congruence. Qed.
Lemma ref_delta_range o q : 0 <= ref_delta o q <= 1.
Proof. destruct o as [p|]; cbn; [destruct (q =? p)|]; lia. Qed.

(** *** An entry that loses its page or keeps it

    The entry at [va] becomes [e'], which names no page (an unmapping, a
    promise) or the page it named before (other permissions). *)
Section Narrow.
Context (s s' : mm) (R R2 va e' : Z).
Context (Sp : spaces s R R2) (Hok' : mm_ok s') (W' : wf_pt s' R) (Hd' : 0 <= s'.(kvm_depth)).
Context (Hnew : pte_page e' = None \/ pte_page e' = pte_page (lookup_va s.(pmem) R va)).
Context (Hlk : forall va', lookup_va s'.(pmem) R va' = if same_page va va' then e' else lookup_va s.(pmem) R va').
Context (Href : forall q, in_use s q -> s'.(page_ref) q = s.(page_ref) q - ref_delta (pte_page (lookup_va s.(pmem) R va)) q + ref_delta (pte_page e') q).
Context (o : option Z) (Hsp : spared R o s s').
Context (Ho : o = None \/ o = pte_page (lookup_va s.(pmem) R va) /\ pte_page e' = None).

Lemma narrow_tables2 : same_tables s s' R2.
Proof.
  pose proof Sp as [_ _ S1 S2]. eapply spared_same_tables; [exact Hsp|apply S2|apply S2|].
  intros q Hq. destruct Ho as [-> |[-> _]]; [discriminate|]. now apply (sp_leaf _ _ _ S1 va q).
Qed.
Lemma narrow_maps va' q : maps s'.(pmem) R va' q -> maps s.(pmem) R va' q.
Proof.
  unfold maps. rewrite Hlk. destruct (same_page va va') eqn:E; [|auto]. rewrite (same_page_lookup _ _ _ _ E).
  destruct Hnew as [-> | ->]; [discriminate|auto].
Qed.
(** A page that is still mapped somewhere stays what it is. *)
Lemma narrow_kept q : in_use s q -> ~ is_table s.(pmem) R (frame q) -> ~ maps s.(pmem) R va q \/ 1 < s.(page_ref) q \/ maps s'.(pmem) R va q ->
  in_use s' q /\ ~ is_table s'.(pmem) R (frame q) /\ same_frame s.(pmem) s'.(pmem) q.
Proof.
  intros Hq Ht Hk. apply (Hsp q Hq Ht). destruct Ho as [-> |[-> He]]; [now left|]. destruct Hk as [H|[H|H]]; [now left|now right|].
  exfalso. unfold maps in H. rewrite Hlk, same_page_refl, He in H. discriminate.
Qed.
Lemma narrow_here va' q : maps s'.(pmem) R va' q -> in_use s q /\ 0 < s.(page_ref) q /\ ~ is_table s.(pmem) R (frame q) /\ ~ is_table s.(pmem) R2 (frame q) /\
  in_use s' q /\ s'.(page_ref) q = s.(page_ref) q /\ ~ is_table s'.(pmem) R (frame q) /\ same_frame s.(pmem) s'.(pmem) q.
Proof.
  intros Hm. pose proof Sp as [_ _ S1 _]. pose proof (narrow_maps _ _ Hm) as Hm0. destruct (sp_leaf _ _ _ S1 va' q Hm0) as (H1 & H2 & H3 & H4).
  assert (Hk : ~ maps s.(pmem) R va q \/ maps s'.(pmem) R va q).
  { destruct (decide (pte_page (lookup_va s.(pmem) R va) = Some q)) as [Eq|]; [right|now left]. pose proof (sp_once _ _ _ S1 va va' q Eq Hm0) as E. unfold maps. now rewrite <- (same_page_lookup _ _ _ _ E). }
  destruct (narrow_kept q H1 H3) as (H5 & H6 & H7); [tauto|]. do 5 (split; [assumption|]). split; [|split; assumption]. rewrite Href by exact H1.
  destruct Hk as [Hk|Hk]; unfold maps in *.
  - assert (He : pte_page e' <> Some q) by (destruct Hnew as [-> | ->]; [discriminate|exact Hk]). rewrite !ref_delta_ne by assumption. lia.
  - rewrite Hlk, same_page_refl in Hk. destruct Hnew as [E|E]; rewrite <- ?E, ?Hk; [congruence|lia].
Qed.
Lemma narrow_there va' q : maps s.(pmem) R2 va' q -> in_use s q /\ ~ is_table s.(pmem) R (frame q) /\
  in_use s' q /\ (0 < s'.(page_ref) q) /\ ~ is_table s'.(pmem) R (frame q) /\ same_frame s.(pmem) s'.(pmem) q.
Proof.
  intros Hm. pose proof Sp as [_ _ S1 S2]. destruct (sp_leaf _ _ _ S2 va' q Hm) as (H1 & H2 & H3 & H4).
  assert (Hk : ~ maps s.(pmem) R va q \/ 1 < s.(page_ref) q).
  { destruct (decide (pte_page (lookup_va s.(pmem) R va) = Some q)) as [Eq|]; [right|now left]. exact (sp_two _ _ _ S2 va' va q Hm Eq). }
  destruct (narrow_kept q H1 H4) as (H5 & H6 & H7); [tauto|]. split; [exact H1|]. split; [exact H4|]. split; [exact H5|]. split; [|split; [exact H6|exact H7]].
  rewrite Href by exact H1. unfold maps in Hk. pose proof (ref_delta_range (pte_page (lookup_va s.(pmem) R va)) q). pose proof (ref_delta_range (pte_page e') q). destruct Hk as [Hk|Hk]; [rewrite (ref_delta_ne _ _ Hk)|]; lia.
Qed.
Lemma narrow_spaces : spaces s' R R2.
Proof.
  pose proof Sp as [Hok Hd S1 S2]. pose proof narrow_tables2 as T. pose proof (same_tables_lookup _ _ _ T) as L2.
  assert (Hap : forall a, is_table s'.(pmem) R2 a -> ~ is_table s'.(pmem) R a).
  { intros a. rewrite (same_tables_is s s' R2 a T). intros Ha. destruct (is_table_frame _ _ _ (sp_wf _ _ _ S2) Ha) as (q & Hq & ->).
    apply (narrow_kept q Hq); [now apply (sp_apart _ _ _ S2)|]. left. intros H. now apply (sp_leaf _ _ _ S1 va q H). }
  assert (H2 : forall v1 v2 q, maps s'.(pmem) R v1 q -> maps s'.(pmem) R2 v2 q -> 1 < s'.(page_ref) q).
  { intros v1 v2 q H1. unfold maps at 1. rewrite L2. intros Hq. destruct (narrow_here _ _ H1) as (_ & _ & _ & _ & _ & -> & _). exact (sp_two _ _ _ S1 v1 v2 q (narrow_maps _ _ H1) Hq). }
  constructor; [exact Hok'|exact Hd'| |]; constructor.
  - exact W'.
  - intros a Ha Hb. exact (Hap a Hb Ha).
  - intros va' q Hq. destruct (narrow_here _ _ Hq) as (_ & H & _ & Ht & H5 & H6 & H7 & _). rewrite H6, (same_tables_is s s' R2 _ T). auto.
  - intros v1 v2 q H%narrow_maps H'%narrow_maps. eapply (sp_once _ _ _ S1); eauto.
  - exact H2.
  - apply (same_tables_wf s); [apply S2|exact T].
  - exact Hap.
  - intros va' q. unfold maps. rewrite L2. intros Hq. destruct (narrow_there _ _ Hq) as (_ & _ & H3 & H4 & H5 & _). rewrite (same_tables_is s s' R2 _ T). destruct (sp_leaf _ _ _ S2 va' q Hq) as (_ & _ & H6 & _). auto.
  - intros v1 v2 q. unfold maps. rewrite !L2. apply S2.
  - intros v1 v2 q Hq Hm. exact (H2 v2 v1 q Hm Hq).
Qed.
Lemma narrow_u2 va' : ubyte s'.(pmem) R2 va' = ubyte s.(pmem) R2 va'.
Proof. apply ubyte_same; [apply (same_tables_lookup _ _ _ narrow_tables2)|]. intros q Hq. now apply (narrow_there va'). Qed.
Lemma narrow_u va' : ubyte s'.(pmem) R va' = match pte_page (lookup_va s'.(pmem) R va') with Some _ => ubyte s.(pmem) R va' | None => 0 end.
Proof.
  destruct (pte_page (lookup_va s'.(pmem) R va')) as [q|] eqn:E; [|unfold ubyte; now rewrite E]. pose proof (narrow_maps va' q E) as E0.
  unfold ubyte. rewrite E, E0. apply ldb_same; [now apply (narrow_here va')|apply Z.mod_pos_bound; lia].
Qed.
End Narrow.

(** What such a change of one entry leaves. *)
Record narrowed (s s' : mm) (R R2 va e' : Z) : Prop := {
  na_sp : spaces s' R R2;
  na_np : s'.(npage) = s.(npage);
  na_lk : forall va', lookup_va s'.(pmem) R va' = if same_page va va' then e' else lookup_va s.(pmem) R va';
  na_t2 : same_tables s s' R2;
  na_ref : forall q, in_use s q -> s'.(page_ref) q = s.(page_ref) q - ref_delta (pte_page (lookup_va s.(pmem) R va)) q + ref_delta (pte_page e') q;
  na_u : forall va', ubyte s'.(pmem) R va' = match pte_page (lookup_va s'.(pmem) R va') with Some _ => ubyte s.(pmem) R va' | None => 0 end;
  na_u2 : forall va', ubyte s'.(pmem) R2 va' = ubyte s.(pmem) R2 va' }.
Lemma narrowed_intro s s' R R2 va e' o : spaces s R R2 -> mm_ok s' -> wf_pt s' R -> 0 <= s'.(kvm_depth) -> s'.(npage) = s.(npage) ->
  pte_page e' = None \/ pte_page e' = pte_page (lookup_va s.(pmem) R va) ->
  (forall va', lookup_va s'.(pmem) R va' = if same_page va va' then e' else lookup_va s.(pmem) R va') ->
  (forall q, in_use s q -> s'.(page_ref) q = s.(page_ref) q - ref_delta (pte_page (lookup_va s.(pmem) R va)) q + ref_delta (pte_page e') q) ->
  spared R o s s' -> o = None \/ o = pte_page (lookup_va s.(pmem) R va) /\ pte_page e' = None -> narrowed s s' R R2 va e'.
Proof.
  intros Sp Hok' W' Hd' Hn Hnew Hlk Href Hsp Ho. constructor; auto.
  - eapply narrow_spaces; eauto.
  - eapply narrow_tables2; eauto.
  - intros va'. eapply narrow_u; eauto.
  - intros va'. eapply narrow_u2; eauto.
Qed.
Lemma narrowed_u_other s s' R R2 va e' va' : narrowed s s' R R2 va e' -> same_page va va' = false -> ubyte s'.(pmem) R va' = ubyte s.(pmem) R va'.
Proof.
  intros N E. rewrite (na_u _ _ _ _ _ _ N), (na_lk _ _ _ _ _ _ N), E. unfold ubyte. now destruct (pte_page _).
Qed.

(** A page is promised where none is present. *)
Lemma ptMap_promise s R R2 va perm : spaces s R R2 -> (2 <= length s.(pageFreeList))%nat -> 0 <= perm < 1024 ->
  has perm PTE_V = false -> has perm PTE_U = true -> has (lookup_va s.(pmem) R va) PTE_V = false ->
  exists s', ptMap R va 0 perm s = Ok (0, s') /\ narrowed s s' R R2 va perm /\ (length s.(pageFreeList) <= length s'.(pageFreeList) + 2)%nat.
Proof.
  intros Sp Hf Hperm Hv Hu H0. pose proof Sp as [Hok Hd S1 S2].
  destruct (ptMap_passive_run s R va perm Hok (sp_wf _ _ _ S1) Hf Hd Hperm Hv Hu H0) as (s' & E & Hok' & W' & Hd' & Lc & Href & Hfr & Hn & Hsp).
  assert (Hp : pte_page perm = None) by (unfold pte_page; now rewrite Hv). assert (Hpo : pte_page (lookup_va s.(pmem) R va) = None) by (unfold pte_page; now rewrite H0).
  exists s'. split; [exact E|]. split; [|exact Hfr]. apply (narrowed_intro s s' R R2 va perm None); auto; [lia|].
  intros q Hq. rewrite Href, Hp, Hpo by exact Hq. cbn. lia.
Qed.
(** A present page gets other permissions. *)
Lemma ptMap_reperm s R R2 va q perm : spaces s R R2 -> 0 <= perm < 1024 -> maps s.(pmem) R va q -> s.(page_ref) q < 4294967295 ->
  exists s', ptMap R va (frame q) perm s = Ok (0, s') /\ narrowed s s' R R2 va (mk_pte (frame q) perm) /\ s'.(pageFreeList) = s.(pageFreeList).
Proof.
  intros Sp Hperm Hq Hr. pose proof Sp as [Hok Hd S1 S2]. destruct (sp_leaf _ _ _ S1 va q Hq) as (Hu & H0 & Ht & _). pose proof (mm_npage _ Hok) as Hnp.
  assert (Hq0 : 0 < q < npage s) by (destruct Hu; lia). destruct (maps_page _ _ _ _ Hq) as [_ Hpa]; [lia|lia|].
  destruct (ptMap_same_run s R va q perm Hok (sp_wf _ _ _ S1) Hd Hperm Hq0 Hr Hq Hpa) as (s' & E & Hok' & W' & Hd' & Lc & Href & Hfr & Hn & Hsp).
  { intros q' Hq'. destruct (sp_leaf _ _ _ S1 va q' Hq') as (? & ? & ? & _). auto. }
  destruct (mk_facts q perm) as (_ & _ & _ & Epg); [lia|lia|].
  exists s'. split; [exact E|]. split; [|exact Hfr]. apply (narrowed_intro s s' R R2 va _ None); auto; [lia|right; rewrite Epg; symmetry; exact Hq|].
  intros q' _. rewrite Href, Epg, Hq. lia.
Qed.
(** A page or a promise is taken away. *)
Lemma ptUnmap_narrows s R R2 va : spaces s R R2 -> lookup_va s.(pmem) R va <> 0 ->
  exists s', ptUnmap R va s = Ok (0, s') /\ narrowed s s' R R2 va 0 /\ (length s.(pageFreeList) <= length s'.(pageFreeList))%nat /\
    (forall q, maps s.(pmem) R va q -> s.(page_ref) q = 1 -> q ∈ s'.(pageFreeList)).
Proof.
  intros Sp Hne. pose proof Sp as [Hok Hd S1 S2].
  destruct (ptUnmap_run s R va Hok (sp_wf _ _ _ S1) Hd Hne) as (s' & E & Hok' & W' & Hd' & _ & Lc & Href & Hfree & Hn & Hfr & Hsp).
  { intros q Hq. destruct (sp_leaf _ _ _ S1 va q Hq) as (? & ? & ? & _). auto. }
  exists s'. split; [exact E|]. split; [|split; [exact Hfr|exact Hfree]]. eapply (narrowed_intro s s' R R2 va 0); [exact Sp|exact Hok'|exact W'|lia|exact Hn|now left|exact Lc| |exact Hsp|right; split; reflexivity].
  intros q _. rewrite Href. change (pte_page 0) with (@None Z). cbn [ref_delta]. lia.
Qed.

(** What placing a fresh page with the bytes [f] at [va] leaves. *)
Record placed (s s' : mm) (R R2 va perm : Z) (f : Z -> Z) : Prop := {
  pl_sp : spaces s' R R2;
  pl_np : s'.(npage) = s.(npage);
  pl_new : exists p, ~ in_use s p /\ 0 < p < s.(npage) /\ lookup_va s'.(pmem) R va = mk_pte (frame p) perm;
  pl_lk : forall va', same_page va va' = false -> lookup_va s'.(pmem) R va' = lookup_va s.(pmem) R va';
  pl_lk2 : forall va', lookup_va s'.(pmem) R2 va' = lookup_va s.(pmem) R2 va';
  pl_u : forall va', ubyte s'.(pmem) R va' = if same_page va va' then f (va' mod 4096) else ubyte s.(pmem) R va';
  pl_u2 : forall va', ubyte s'.(pmem) R2 va' = ubyte s.(pmem) R2 va';
  pl_free : (length s.(pageFreeList) <= length s'.(pageFreeList) + 3)%nat;
  pl_ref1 : forall q, maps s'.(pmem) R va q -> s'.(page_ref) q = 1;
  pl_ref : forall q, in_use s q -> ~ maps s.(pmem) R va q -> s'.(page_ref) q = s.(page_ref) q }.
(** What resolving a fault at [va] leaves: a page of its own behind that
    address, and the memory both programs see as it was. *)
Record resolved (s s' : mm) (R R2 va perm : Z) : Prop := {
  rs_sp : spaces s' R R2;
  rs_np : s'.(npage) = s.(npage);
  rs_new : exists p, ~ in_use s p /\ 0 < p < s.(npage) /\ lookup_va s'.(pmem) R va = mk_pte (frame p) perm;
  rs_lk : forall va', same_page va va' = false -> lookup_va s'.(pmem) R va' = lookup_va s.(pmem) R va';
  rs_lk2 : forall va', lookup_va s'.(pmem) R2 va' = lookup_va s.(pmem) R2 va';
  rs_u : forall va', ubyte s'.(pmem) R va' = ubyte s.(pmem) R va';
  rs_u2 : forall va', ubyte s'.(pmem) R2 va' = ubyte s.(pmem) R2 va';
  rs_free : (length s.(pageFreeList) <= length s'.(pageFreeList) + 3)%nat;
  rs_ref1 : forall q, maps s'.(pmem) R va q -> s'.(page_ref) q = 1;
  rs_ref : forall q, in_use s q -> ~ maps s.(pmem) R va q -> s'.(page_ref) q = s.(page_ref) q }.

Lemma fresh_not_table s s' root p : wf_pt s root -> same_tables s s' root -> ~ in_use s p -> ~ is_table s'.(pmem) root (frame p).
Proof.
  intros W T Hp. rewrite (same_tables_is s s' root _ T). intros Ht. destruct (is_table_frame _ _ _ W Ht) as (q & Hq & E).
  apply Hp. replace p with q; [exact Hq|]. unfold frame in E. lia.
Qed.

(** A state with a fresh page [p]: everything in use before is as it was. *)
Record with_fresh (s s2 : mm) (R R2 p : Z) : Prop := {
  wf_sp : spaces s2 R R2;
  wf_np : s2.(npage) = s.(npage);
  wf_len : length s.(pageFreeList) = S (length s2.(pageFreeList));
  wf_use : in_use s2 p;
  wf_ref : s2.(page_ref) p = 0;
  wf_new : ~ in_use s p;
  wf_t : same_tables s s2 R;
  wf_t2' : same_tables s s2 R2;
  wf_old : forall q, in_use s q -> in_use s2 q /\ same_frame s.(pmem) s2.(pmem) q;
  wf_ref2 : forall q, in_use s q -> s2.(page_ref) q = s.(page_ref) q }.
Lemma with_fresh_frame s s1 R R2 p q : with_fresh s s1 R R2 p -> in_use s q -> frame q + 4096 <= frame p \/ frame p + 4096 <= frame q.
Proof. intros F Hq. assert (q <> p) by (intros ->; now apply (wf_new _ _ _ _ _ F)). unfold frame. lia. Qed.
Lemma with_fresh_write s s1 R R2 p m2 : spaces s R R2 -> with_fresh s s1 R R2 p ->
  (forall w, w < frame p \/ frame p + 4096 <= w -> m2 w = s1.(pmem) w) -> with_fresh s (set_pmem m2 s1) R R2 p.
Proof.
  intros [Hok Hd S1 S2] F Hm2. pose proof F as [Sp1 Hn Hlen Hp Hr Hnp T1 T2 Hold Href2].
  pose proof (fresh_not_table s s1 R p (sp_wf _ _ _ S1) T1 Hnp) as Ht. pose proof (fresh_not_table s s1 R2 p (sp_wf _ _ _ S2) T2 Hnp) as Ht2.
  assert (Hk : forall q, in_use s q -> same_frame s.(pmem) m2 q).
  { intros q Hq x Hx. rewrite <- (proj2 (Hold q Hq) x Hx). apply Hm2. pose proof (with_fresh_frame s s1 R R2 p q F Hq). lia. }
  assert (U : forall r, wf_pt s r -> same_tables s s1 r -> same_tables s (set_pmem m2 s1) r).
  { intros r W T a Ha. destruct (is_table_frame _ _ _ W Ha) as (q & Hq & ->). split; [apply (T _ Ha)|]. intros i Hi. apply (Hk q Hq).
    unfold frame, idx in *. lia. }
  constructor; auto; try (apply U; auto; first [apply S1|apply S2]).
  - now apply (write_spaces s1 m2 R R2 p).
  - intros q Hq. split; [apply Hold, Hq|now apply Hk].
Qed.

(** The fresh page replaces the entry at [va]. *)
Lemma fresh_placed s s2 R R2 va perm p f : spaces s R R2 -> with_fresh s s2 R R2 p -> (3 <= length s.(pageFreeList))%nat -> 0 <= perm < 1024 ->
  (forall o, 0 <= o < 4096 -> ldb s2.(pmem) (frame p + o) = f o) ->
  exists s', ptMap R va (frame p) perm s2 = Ok (0, s') /\ placed s s' R R2 va perm f.
Proof.
  intros [Hok Hd S1 S2] [Sp2 Hn Hlen Hp Hr Hnp U1 U2 Hold Href2] Hf Hperm Hb.
  pose proof (fresh_not_table s s2 R p (sp_wf _ _ _ S1) U1 Hnp) as Ht. pose proof (fresh_not_table s s2 R2 p (sp_wf _ _ _ S2) U2 Hnp) as Ht2.
  pose proof (same_tables_lookup _ _ _ U1) as L1. pose proof (same_tables_lookup _ _ _ U2) as L2.
  assert (N1 : forall va', ~ maps s2.(pmem) R va' p) by (intros va'; unfold maps; rewrite L1; intros E; apply Hnp, (sp_leaf _ _ _ S1 va' p E)).
  destruct (ptMap_spaces s2 R R2 va p perm Sp2) as (s' & E & Mi); auto; try lia;
    try (intros va' H; now apply N1 in H); [intros H; now apply N1 in H|].
  exists s'. split; [exact E|]. pose proof (mm_npage _ Hok) as Hnpg. assert (Hp0 : 0 < p < npage s) by (destruct Hp; lia).
  pose proof (mi_lk _ _ _ _ _ _ _ Mi) as Lk. pose proof (same_tables_lookup _ _ _ (mi_t2 _ _ _ _ _ _ _ Mi)) as Lk2.
  assert (Hk : forall q, in_use s q -> ~ is_table s.(pmem) R (frame q) -> ~ maps s.(pmem) R va q \/ 1 < s2.(page_ref) q -> same_frame s.(pmem) s'.(pmem) q).
  { intros q Hq Hqt Ho x Hx. rewrite <- (proj2 (Hold q Hq) x Hx). apply (mi_keep _ _ _ _ _ _ _ Mi q); auto; [apply Hold, Hq|now rewrite (same_tables_is s s2 R _ U1)|].
    unfold maps. now rewrite L1. }
  constructor.
  - apply Mi.
  - rewrite (mi_np _ _ _ _ _ _ _ Mi). exact Hn.
  - exists p. split; [exact Hnp|]. split; [exact Hp0|]. rewrite Lk, same_page_refl. reflexivity.
  - intros va' Ev. rewrite Lk, Ev. apply L1.
  - intros va'. rewrite Lk2. apply L2.
  - intros va'. destruct (same_page va va') eqn:Ev.
    + unfold ubyte. rewrite Lk, Ev. destruct (mk_facts p perm) as (_ & _ & _ & ->); [lia|lia|].
      assert (Ho : 0 <= va' mod 4096 < 4096) by (apply Z.mod_pos_bound; lia). rewrite <- Hb by exact Ho.
      apply ldb_same; [|exact Ho]. intros x. apply (mi_keep _ _ _ _ _ _ _ Mi p); auto.
    + apply ubyte_same; [rewrite Lk, Ev; apply L1|]. intros q Hq. destruct (sp_leaf _ _ _ S1 va' q Hq) as (Hu & _ & Hqt & _).
      apply Hk; auto. left. intros E'. rewrite (sp_once _ _ _ S1 va va' q E' Hq) in Ev. discriminate.
  - intros va'. apply ubyte_same; [rewrite Lk2; apply L2|]. intros q Hq. destruct (sp_leaf _ _ _ S2 va' q Hq) as (Hu & _ & _ & Hqt). apply Hk; auto.
    destruct (decide (pte_page (lookup_va s.(pmem) R va) = Some q)) as [Eq|Nq]; [right|now left].
    apply (sp_two _ _ _ (ss_this _ _ _ Sp2) va va' q); unfold maps; [now rewrite L1|now rewrite L2].
  - pose proof (mi_free _ _ _ _ _ _ _ Mi). lia.
  - intros q. unfold maps. rewrite Lk, same_page_refl. destruct (mk_facts p perm) as (_ & _ & _ & ->); [lia|lia|]. intros [= <-].
    rewrite (mi_ref _ _ _ _ _ _ _ Mi p Hp), Hr, ref_delta_ne by apply N1. cbn. rewrite Z.eqb_refl. lia.
  - intros q Hq Hm. rewrite (mi_ref _ _ _ _ _ _ _ Mi q) by now apply Hold. rewrite !ref_delta_ne; [|intros [= <-]; contradiction|rewrite L1; exact Hm]. rewrite (Href2 q Hq). lia.
Qed.
(** ... and holds the bytes seen there before. *)
Lemma fresh_mapped s s2 R R2 va perm p : spaces s R R2 -> with_fresh s s2 R R2 p -> (3 <= length s.(pageFreeList))%nat -> 0 <= perm < 1024 ->
  (forall o, 0 <= o < 4096 -> ldb s2.(pmem) (frame p + o) =
     match pte_page (lookup_va s.(pmem) R va) with Some q => ldb s.(pmem) (frame q + o) | None => 0 end) ->
  exists s', ptMap R va (frame p) perm s2 = Ok (0, s') /\ resolved s s' R R2 va perm.
Proof.
  intros Sp F Hf Hperm Hb. destruct (fresh_placed s s2 R R2 va perm p _ Sp F Hf Hperm Hb) as (s' & E & P). exists s'. split; [exact E|]. destruct P. constructor; auto.
  intros va'. rewrite pl_u0. destruct (same_page va va') eqn:Ev; [|reflexivity]. unfold ubyte. now rewrite (same_page_lookup _ _ _ _ Ev).
Qed.

Lemma vmAlloc_fresh s R R2 : spaces s R R2 -> s.(pageFreeList) <> [] ->
  exists p s1, vmAlloc s = Ok (frame p, s1) /\ with_fresh s s1 R R2 p /\ (forall x, frame p <= x < frame p + 4096 -> s1.(pmem) x = 0).
Proof.
  intros Sp Hne. pose proof Sp as [Hok Hd S1 S2].
  destruct (vmAlloc_run s R Hok (sp_wf _ _ _ S1) Hd Hne) as (p & s' & E & Hok' & W' & Hd' & Hp & Hr & Hlen & Hlk & Hnp & Hold & En & Hz).
  assert (T : forall r, wf_pt s r -> same_tables s s' r).
  { intros r W a Ha. destruct (is_table_frame _ _ _ W Ha) as (q & Hq & ->). destruct (Hold q Hq) as (Hq' & _ & Hm). split; [now exists q|].
    intros i Hi. apply Hm. unfold idx in Hi. lia. }
  exists p, s'. split; [exact E|]. split; [|exact Hz]. constructor; auto; try (apply T; first [apply S1|apply S2]).
  - apply (spaces_same s); auto; try apply T; try apply S1; try apply S2; [lia|]. intros q Hq. destruct (Hold q Hq) as (? & ? & _). auto.
  - intros q Hq. destruct (Hold q Hq) as (? & _ & ?). auto.
  - intros q Hq. now apply Hold.
Qed.

Lemma frame_in_ram s q o n : 0 <= s.(npage) < 4294967296 -> in_use s q -> 0 <= o -> o + n <= 4096 -> in_ram s (frame q + o) n = true.
Proof.
  intros Hn [Hq _] Ho Hl. unfold in_ram. rewrite pmTop_eq by lia. unfold frame. apply andb_true_iff. rewrite !Z.leb_le. unfold MEMBASE. lia.
Qed.
Lemma lookup_run s R R2 va : spaces s R R2 -> ptLookup R va s = Ok (lookup_va s.(pmem) R va, s).
Proof. intros [? ? S1 _]. apply ptLookup_reads; auto. apply S1. Qed.

Lemma fill_frame n m dst p f o : 0 <= o -> o + Z.of_nat n <= 4096 -> dst = frame p + o ->
  forall w, w < frame p \/ frame p + 4096 <= w -> fill_bytes n m dst f 0 w = m w.
Proof. intros Ho Hn -> w Hw. apply (fill_bytes_word _ _ _ _ _ (frame p) (frame p + 4096)); try lia. unfold frame, MEMBASE. zlia. Qed.
Definition cow_perm (e : Z) : Z := Z.lor (Z.ldiff (PTE_PERM e) PTE_COW) PTE_W.
Lemma low_bits x : 0 <= x -> (forall n, 10 <= n -> Z.testbit x n = false) -> 0 <= x < 1024.
Proof.
  intros Hx Hn. split; [exact Hx|]. destruct (Z.eq_dec x 0) as [->|]; [lia|]. apply Z.log2_lt_pow2 with (b := 10); [lia|].
  destruct (Z.lt_ge_cases (Z.log2 x) 10) as [|Hge]; [assumption|]. specialize (Hn _ Hge). rewrite Z.bit_log2 in Hn by lia. discriminate.
Qed.
Lemma perm_high e n : 10 <= n -> Z.testbit (PTE_PERM e) n = false.
Proof. intros. unfold PTE_PERM. change 1023 with (Z.ones 10). rewrite Z.land_spec, Z.ones_spec_high by lia. apply andb_false_r. Qed.
Lemma cow_perm_range e : 0 <= cow_perm e < 1024.
Proof.
  apply low_bits.
  - apply Z.lor_nonneg. split; [apply Z.ldiff_nonneg; left; apply perm_range|unfold PTE_W; lia].
  - intros n Hn. unfold cow_perm. rewrite Z.lor_spec, Z.ldiff_spec, perm_high by lia. apply (Z.pow2_bits_false 2 n). lia.
Qed.
(** A write to a page shared since a fork. *)
Lemma cow_run s R R2 va q : spaces s R R2 -> (3 <= length s.(pageFreeList))%nat -> maps s.(pmem) R va q ->
  let e := lookup_va s.(pmem) R va in has e PTE_U = true -> has e PTE_W = false -> has e PTE_COW = true ->
  exists s', page_fault_handler R PTE_W va s = Ok (0, s') /\ resolved s s' R R2 va (cow_perm e).
Proof.
  intros Sp Hf Hq e Hu Hw Hc. pose proof Sp as [Hok Hd S1 S2]. pose proof (mm_npage _ Hok) as Hnp.
  destruct (sp_leaf _ _ _ S1 va q Hq) as (Huse & _). pose proof Huse as [Hq0 _]. destruct (maps_page _ _ _ _ Hq) as [Hv Hpa]; [lia|lia|].
  destruct (vmAlloc_fresh s R R2 Sp) as (p & s1 & Ea & F & _); [destruct (pageFreeList s); cbn in Hf; [lia|discriminate]|].
  set (m2 := fill_bytes (Z.to_nat PAGE_SIZE) s1.(pmem) (frame p) (fun i => ldb s1.(pmem) (frame q + i)) 0).
  assert (F2 : with_fresh s (set_pmem m2 s1) R R2 p).
  { apply with_fresh_write; auto. apply (fill_frame _ _ _ _ _ 0); [lia|rewrite Z2Nat.id; unfold PAGE_SIZE; lia|symmetry; apply Z.add_0_r]. }
  destruct (fresh_mapped s (set_pmem m2 s1) R R2 va (cow_perm e) p Sp F2 Hf) as (s' & E & Rs).
  { apply cow_perm_range. }
  { intros o Ho. fold e in Hq |- *. unfold maps in Hq. fold e in Hq. rewrite Hq. cbn [pmem set_pmem]. unfold m2.
    rewrite fill_bytes_ldb by (intros; apply ldb_range). unfold PAGE_SIZE. rewrite Z.add_0_r.
    replace (_ && _) with true by (symmetry; apply andb_true_iff; rewrite Z.leb_le, Z.ltb_lt; lia).
    replace (frame p + o - frame p) with o by lia. apply ldb_same; [|exact Ho]. apply (wf_old _ _ _ _ _ F q Huse). }
  exists s'. split; [|exact Rs]. unfold page_fault_handler. rewrite (bind_run _ _ _ _ _ (lookup_run s R R2 va Sp)). fold e.
  fold e in Hv. assert (E0 : (e =? 0) = false) by (apply Z.eqb_neq; intros E0; rewrite E0 in Hv; discriminate).
  rewrite E0, Hu, Hw, Hc. cbn [andb negb]. change (has PTE_W PTE_W) with true. cbn [andb]. unfold cow_handler.
  rewrite (bind_run _ _ _ _ _ Ea). fold e in Hpa. rewrite Hpa. erewrite bind_run; [exact E|]. unfold copy_page.
  pose proof (frame_in_ram s1 p 0 PAGE_SIZE) as I1. pose proof (frame_in_ram s1 q 0 PAGE_SIZE) as I2. rewrite Z.add_0_r in I1, I2.
  rewrite I1, I2; try (unfold PAGE_SIZE; lia); try apply F; try exact Huse; try reflexivity.
Qed.
(** A first access to a page promised but not present. *)
Lemma passive_run s R R2 va violate : spaces s R R2 -> (3 <= length s.(pageFreeList))%nat ->
  let e := lookup_va s.(pmem) R va in PTE_PASSIVE e = true -> 0 <= e < 1024 -> has e PTE_W || negb (has e PTE_COW) = true ->
  exists s', page_fault_handler R violate va s = Ok (0, s') /\ resolved s s' R R2 va e.
Proof.
  intros Sp Hf e Hps He Hc. apply andb_true_iff in Hps as [Hv Hu].
  destruct (vmAlloc_fresh s R R2 Sp) as (p & s1 & Ea & F & Hz); [destruct (pageFreeList s); cbn in Hf; [lia|discriminate]|].
  destruct (fresh_mapped s s1 R R2 va e p Sp F Hf He) as (s' & E & Rs).
  { intros o Ho. fold e. unfold pte_page. apply negb_true_iff in Hv. rewrite Hv. cbn [andb]. unfold ldb. rewrite Hz; [now rewrite Z.shiftr_0_l|].
    unfold frame, MEMBASE. zlia. }
  exists s'. split; [|exact Rs]. unfold page_fault_handler. rewrite (bind_run _ _ _ _ _ (lookup_run s R R2 va Sp)). fold e.
  rewrite Hv, Hu. replace (_ && has e PTE_COW) with false.
  - cbn [andb]. unfold passive_handler. rewrite massert_run by (now rewrite shiftr10_small). now rewrite (bind_run _ _ _ _ _ Ea).
  - symmetry. apply orb_true_iff in Hc as [->|Hc]; [now rewrite !andb_false_r|]. apply negb_true_iff in Hc. rewrite Hc. apply andb_false_r.
Qed.

(** ** Access checks of the copy routines *)

(** Entries a program may write or read: present, copy-on-write, or promised. *)
Definition writable (e : Z) : Prop :=
  (exists q, pte_page e = Some q) /\ (has e PTE_W = true \/ (has e PTE_U = true /\ has e PTE_COW = true)) \/
  PTE_PASSIVE e = true /\ 0 <= e < 1024 /\ has e PTE_W = true.
Definition readable (e : Z) : Prop :=
  (exists q, pte_page e = Some q) /\ has e PTE_R = true \/
  PTE_PASSIVE e = true /\ 0 <= e < 1024 /\ has e PTE_R = true /\ has e PTE_W || negb (has e PTE_COW) = true.

(** A page that may be written through [va] is the program's own. *)
Definition private (s : mm) (R R2 va : Z) : Prop := forall q va', maps s.(pmem) R va q ->
  has (lookup_va s.(pmem) R va) PTE_W = true -> ~ maps s.(pmem) R2 va' q.

(** The page is present now, and nothing a program can see has changed. *)
Record touched (s s' : mm) (R R2 va : Z) : Prop := {
  to_sp : spaces s' R R2;
  to_map : exists q, maps s'.(pmem) R va q;
  to_priv : private s R R2 va -> private s' R R2 va;
  to_priv2 : forall va', private s R2 R va' -> private s' R2 R va';
  to_lk : forall va', same_page va va' = false -> lookup_va s'.(pmem) R va' = lookup_va s.(pmem) R va';
  to_lk2 : forall va', lookup_va s'.(pmem) R2 va' = lookup_va s.(pmem) R2 va';
  to_u : forall va', ubyte s'.(pmem) R va' = ubyte s.(pmem) R va';
  to_u2 : forall va', ubyte s'.(pmem) R2 va' = ubyte s.(pmem) R2 va';
  to_free : (length s.(pageFreeList) <= length s'.(pageFreeList) + 3)%nat }.

Lemma resolved_touched s s' R R2 va perm : mm_ok s -> space s R2 R -> 0 <= perm < 1024 -> resolved s s' R R2 va perm ->
  touched s s' R R2 va /\ forall n, 1 <= n < 10 -> has (lookup_va s'.(pmem) R va) (2 ^ n) = has perm (2 ^ n).
Proof.
  intros Hok S2 Hperm [Sp Hn (p & Hnp & Hp & El) L L2 U U2 Hf _ _]. pose proof (mm_npage _ Hok). destruct (mk_facts p perm) as (_ & _ & _ & Hpp); [lia|lia|]. split.
  - constructor; auto; [exists p; unfold maps; now rewrite El| |].
    + intros _ q va'. unfold maps. rewrite El, Hpp, L2. intros [= <-] _ H2. apply Hnp, (sp_leaf _ _ _ S2 va' p H2).
    + intros vb Hv q va' Hq. unfold maps in *. rewrite L2 in *. intros Hw H1. destruct (same_page va va') eqn:Ev; [|rewrite L in H1 by exact Ev; exact (Hv q va' Hq Hw H1)].
      rewrite (same_page_lookup _ _ _ _ Ev), El, Hpp in H1. injection H1 as <-. apply Hnp, (sp_leaf _ _ _ S2 vb p Hq).
  - intros n Hn'. rewrite El. apply has_mk; lia.
Qed.
Lemma touched_refl s R R2 va q : spaces s R R2 -> maps s.(pmem) R va q -> touched s s R R2 va.
Proof. intros Sp Hq. constructor; auto; [now exists q|lia]. Qed.
Lemma pte_page_V e q : pte_page e = Some q -> has e PTE_V = true.
Proof. unfold pte_page. destruct (has e PTE_V); [reflexivity|discriminate]. Qed.

Lemma cow_perm_W e : has (cow_perm e) (2 ^ 2) = true.
Proof. unfold cow_perm. rewrite has_bit, Z.lor_spec by lia. apply orb_true_r. Qed.
Lemma touch_write s R R2 va : spaces s R R2 -> (3 <= length s.(pageFreeList))%nat -> writable (lookup_va s.(pmem) R va) ->
  exists s', test_page_fault R va (lookup_va s.(pmem) R va) PTE_W s = Ok (tt, s') /\ touched s s' R R2 va /\
    has (lookup_va s'.(pmem) R va) PTE_W = true.
Proof.
  intros Sp Hf Hwr. unfold test_page_fault. change (has PTE_W PTE_W) with true. change (has PTE_W PTE_R) with false. cbn [andb].
  set (e := lookup_va s.(pmem) R va) in *. destruct Hwr as [[[q Hq] Hw]|(Hps & He & Hw)].
  - rewrite (pte_page_V e q Hq). cbn [negb]. destruct (has e PTE_W) eqn:Ew.
    + exists s. split; [reflexivity|]. split; [now apply (touched_refl s R R2 va q)|exact Ew].
    + destruct Hw as [Hw|[Hu Hc]]; [discriminate|]. destruct (cow_run s R R2 va q Sp Hf Hq Hu Ew Hc) as (s' & E & Rs).
      destruct (resolved_touched _ _ _ _ _ _ (ss_ok _ _ _ Sp) (ss_other _ _ _ Sp) (cow_perm_range _) Rs) as [To Hb].
      exists s'. split; [|split; [exact To|]].
      * cbn [negb]. rewrite (bind_run (ret tt) _ s tt s eq_refl). unfold bind at 1 2. rewrite E. reflexivity.
      * change PTE_W with (2 ^ 2). rewrite Hb by lia. apply cow_perm_W.
  - destruct (passive_run s R R2 va PTE_W Sp Hf Hps He) as (s' & E & Rs); [fold e; now rewrite Hw|]. fold e in Rs.
    destruct (resolved_touched _ _ _ _ _ _ (ss_ok _ _ _ Sp) (ss_other _ _ _ Sp) He Rs) as [To Hb].
    exists s'. apply andb_true_iff in Hps as [Hv _]. rewrite Hv, Hw. cbn [negb]. split; [|split; [exact To|]].
    * unfold bind at 1 2. rewrite E. reflexivity.
    * change PTE_W with (2 ^ 2). rewrite Hb by lia. exact Hw.
Qed.
Lemma touch_read s R R2 va : spaces s R R2 -> (3 <= length s.(pageFreeList))%nat -> readable (lookup_va s.(pmem) R va) ->
  exists s', test_page_fault R va (lookup_va s.(pmem) R va) PTE_R s = Ok (tt, s') /\ touched s s' R R2 va /\ readable (lookup_va s'.(pmem) R va).
Proof.
  intros Sp Hf Hrd. unfold test_page_fault. change (has PTE_R PTE_W) with false. change (has PTE_R PTE_R) with true. cbn [andb].
  set (e := lookup_va s.(pmem) R va) in *. destruct Hrd as [[[q Hq] Hr]|(Hps & He & Hr & Hc)].
  - rewrite (pte_page_V e q Hq), Hr. exists s. split; [reflexivity|]. split; [now apply (touched_refl s R R2 va q)|]. left. eauto.
  - destruct (passive_run s R R2 va PTE_R Sp Hf Hps He Hc) as (s' & E & Rs). fold e in Rs.
    destruct (resolved_touched _ _ _ _ _ _ (ss_ok _ _ _ Sp) (ss_other _ _ _ Sp) He Rs) as [To Hb].
    exists s'. apply andb_true_iff in Hps as [Hv _]. rewrite Hv, Hr. split; [unfold bind at 1 2; rewrite E; reflexivity|]. split; [exact To|].
    left. split; [apply To|]. change PTE_R with (2 ^ 1). rewrite Hb by lia. exact Hr.
Qed.

Lemma PTX_div va va' l : va / 4096 = va' / 4096 -> l = 1 \/ l = 2 \/ l = 3 -> PTX va l = PTX va' l.
Proof.
  intros E Hl. unfold PTX. f_equal. rewrite !Z.shiftr_div_pow2 by lia.
  replace (2 ^ (12 + (3 - l) * 9)) with (4096 * 2 ^ ((3 - l) * 9)) by (rewrite Z.pow_add_r by lia; reflexivity).
  rewrite <- !Z.div_div, E by (try apply Z.pow_pos_nonneg; lia). reflexivity.
Qed.
Lemma same_page_div va va' : 0 <= va < 549755813888 -> 0 <= va' < 549755813888 -> same_page va va' = (va / 4096 =? va' / 4096).
Proof.
  intros H H'. destruct (Z.eqb_spec (va / 4096) (va' / 4096)) as [E|N].
  - unfold same_page. now rewrite !(PTX_div va' va), !Z.eqb_refl by auto.
  - apply not_true_iff_false. intros (E1 & E2 & E3)%same_page_eq. apply N. now apply PTX_page.
Qed.

(** Storing bytes through a writable entry. *)
Lemma store_run s R R2 va q n f : spaces s R R2 -> maps s.(pmem) R va q -> (forall va', ~ maps s.(pmem) R2 va' q) ->
  (forall k, 0 <= f k < 256) -> va mod 4096 + Z.of_nat n <= 4096 ->
  let s' := set_pmem (fill_bytes n s.(pmem) (frame q + va mod 4096) f 0) s in
  spaces s' R R2 /\ (forall va', lookup_va s'.(pmem) R va' = lookup_va s.(pmem) R va') /\
  (forall va', lookup_va s'.(pmem) R2 va' = lookup_va s.(pmem) R2 va') /\
  (forall va', ubyte s'.(pmem) R va' =
     if same_page va va' && ((va mod 4096 <=? va' mod 4096) && (va' mod 4096 <? va mod 4096 + Z.of_nat n))
     then f (va' mod 4096 - va mod 4096) else ubyte s.(pmem) R va') /\
  (forall va', ubyte s'.(pmem) R2 va' = ubyte s.(pmem) R2 va').
Proof.
  intros Sp Hq Hw Hfb Hn s'. pose proof Sp as [Hok Hd S1 S2]. destruct (sp_leaf _ _ _ S1 va q Hq) as (Hu & _ & Ht & Ht2).
  pose proof (Z.mod_pos_bound va 4096 ltac:(lia)) as Hva.
  assert (Hout : forall w, w < frame q \/ frame q + 4096 <= w -> s'.(pmem) w = s.(pmem) w) by (apply (fill_frame _ _ _ _ _ (va mod 4096)); lia).
  assert (Hoth : forall q', q' <> q -> same_frame s.(pmem) s'.(pmem) q') by (intros q' Hne x Hx; apply Hout; unfold frame in *; lia).
  assert (L : forall va', lookup_va s'.(pmem) R va' = lookup_va s.(pmem) R va').
  { apply (same_tables_lookup s), (write_same_tables s _ R q); auto. apply S1. }
  assert (L2 : forall va', lookup_va s'.(pmem) R2 va' = lookup_va s.(pmem) R2 va').
  { apply (same_tables_lookup s), (write_same_tables s _ R2 q); auto. apply S2. }
  split; [now apply (write_spaces s _ R R2 q)|]. split; [exact L|]. split; [exact L2|]. split; intros va'.
  - destruct (same_page va va') eqn:Ev; cbn [andb].
    + unfold ubyte. rewrite L, (same_page_lookup _ _ _ _ Ev). rewrite Hq. unfold s'. cbn [pmem set_pmem].
      rewrite fill_bytes_ldb by exact Hfb. rewrite Z.add_0_r. zcases. f_equal. lia.
    + apply ubyte_same; [apply L|]. intros q' Hq'. apply Hoth. intros ->. now rewrite (sp_once _ _ _ S1 va va' q Hq Hq') in Ev.
  - apply ubyte_same; [apply L2|]. intros q' Hq'. apply Hoth. intros ->. exact (Hw va' Hq').
Qed.

(** ** The copy loop *)

Definition USER_TOP : Z := 549755813888.
Lemma on_mm_run {A : Type} (c : M mm A) s km a s' : c s = Ok (a, s') -> on_mm c (MkUst s km) = Ok (a, MkUst s' km).
Proof. unfold on_mm. cbn. now intros ->. Qed.
Lemma loop_step fuel R R2 uptr kptr len cb perm i uoff s km s1 q :
  i < len -> 0 <= uptr + i < USER_TOP -> 4096 <= kptr -> spaces s R R2 ->
  test_page_fault R (uptr + i) (lookup_va s.(pmem) R (uptr + i)) perm s = Ok (tt, s1) ->
  spaces s1 R R2 -> maps s1.(pmem) R (uptr + i) q ->
  userToKernel_loop (S fuel) R uptr kptr len cb perm i uoff (MkUst s km) =
  (let* stop := cb (frame q + uoff) (kptr + i) (Z.min (len - i) (PAGE_SIZE - uoff)) in
   if stop : bool then ret tt
   else userToKernel_loop fuel R uptr kptr len cb perm (i + Z.min (len - i) (PAGE_SIZE - uoff)) 0) (MkUst s1 km).
Proof.
  intros Hi Hva Hk Sp Et Sp1 Hq. unfold USER_TOP in Hva. cbn [userToKernel_loop]. rewrite (proj2 (Z.ltb_lt _ _) Hi), wrap64_small by lia.
  rewrite (bind_run _ _ _ _ _ (on_mm_run _ _ km _ _ (lookup_run s R R2 _ Sp))).
  rewrite (bind_run _ _ _ _ _ (on_mm_run _ _ km _ _ Et)).
  rewrite (bind_run _ _ _ _ _ (on_mm_run _ _ km _ _ (lookup_run s1 R R2 _ Sp1))).
  destruct (sp_leaf _ _ _ (ss_this _ _ _ Sp1) _ q Hq) as ([Hq0 _] & _). pose proof (mm_npage _ (ss_ok _ _ _ Sp1)).
  destruct (maps_page _ _ _ _ Hq) as [_ ->]; [lia|lia|]. rewrite massert_run; [reflexivity|].
  apply negb_true_iff, orb_false_iff. rewrite !Z.ltb_ge. unfold frame, MEMBASE. lia.
Qed.

(** The bytes of a string up to and including the zero, [n] at most. *)
Fixpoint upto_nul (n : nat) (f : Z -> Z) (i : Z) : Z :=
  match n with O => 0 | S n' => if f i =? 0 then 1 else 1 + upto_nul n' f (i + 1) end.
Lemma upto_nul_range n : forall f i, 0 <= upto_nul n f i <= Z.of_nat n /\ ((0 < n)%nat -> 0 < upto_nul n f i).
Proof.
  induction n as [|n IH]; intros f i; cbn [upto_nul]; [lia|]. specialize (IH f (i + 1)). destruct (f i =? 0); lia.
Qed.
Lemma upto_nul_ext n : forall f g i j, (forall k, 0 <= k < Z.of_nat n -> f (i + k) = g (j + k)) -> upto_nul n f i = upto_nul n g j.
Proof.
  induction n as [|n IH]; intros f g i j H; cbn [upto_nul]; [reflexivity|]. pose proof (H 0 ltac:(lia)) as H0. rewrite !Z.add_0_r in H0. rewrite H0.
  rewrite (IH f g (i + 1) (j + 1)); [reflexivity|]. intros k Hk. rewrite <- !Z.add_assoc. apply H. lia.
Qed.
Lemma upto_nul_app a : forall b f i, (0 < a)%nat -> upto_nul (a + b) f i =
  if f (i + upto_nul a f i - 1) =? 0 then upto_nul a f i else Z.of_nat a + upto_nul b f (i + Z.of_nat a).
Proof.
  induction a as [|a IH]; intros b f i Ha; [lia|]. cbn [upto_nul Nat.add]. destruct (f i =? 0) eqn:E0.
  - replace (i + 1 - 1) with i by lia. now rewrite E0.
  - destruct a as [|a].
    + cbn [upto_nul Nat.add]. replace (i + (1 + 0) - 1) with i by lia. rewrite E0. f_equal.
    + rewrite IH by lia. set (c := upto_nul (S a) f (i + 1)). replace (i + (1 + c) - 1) with (i + 1 + c - 1) by lia.
      destruct (f (i + 1 + c - 1) =? 0); [reflexivity|]. replace (i + Z.of_nat (S (S a))) with (i + 1 + Z.of_nat (S a)) by lia. lia.
Qed.
Lemma strncpyJudgeEnd_run n : forall pm km s t, let c := upto_nul n (fun k => ldb pm (t + k)) 0 in
  exists km', strncpyJudgeEnd n pm km s t = (km' (s + c - 1) =? 0, km') /\
    forall x, km' x = if (s <=? x) && (x <? s + c) then ldb pm (t + (x - s)) else km x.
Proof.
  induction n as [|n IH]; intros pm km s t c; cbn [strncpyJudgeEnd].
  - exists km. subst c. cbn. rewrite Z.add_0_r. split; [reflexivity|]. intros x. zcases.
  - subst c. cbn [upto_nul]. rewrite Z.add_0_r. destruct (ldb pm t =? 0) eqn:Eb.
    + exists (upd km s (ldb pm t)). replace (s + 1 - 1) with s by lia. rewrite upd_eq, Eb. split; [reflexivity|]. intros x. unfold upd. zcases; subst.
      now replace (t + (s - s)) with t by lia.
    + destruct (IH pm (upd km s (ldb pm t)) (s + 1) (t + 1)) as (km' & E & K).
      rewrite (upto_nul_ext n (fun k => ldb pm (t + k)) (fun k => ldb pm (t + 1 + k)) (0 + 1) 0) by (intros; f_equal; lia).
      set (c := upto_nul n _ 0) in *. pose proof (upto_nul_range n (fun k => ldb pm (t + 1 + k)) 0) as Hc. fold c in Hc.
      exists km'. replace (s + (1 + c) - 1) with (s + 1 + c - 1) by lia. split; [exact E|]. intros x. rewrite K. unfold upd.
      zcases; subst; f_equal; lia.
Qed.

Section CopyLoop.
Context (R R2 uptr kptr len : Z).
Context (Huser : 0 <= uptr /\ uptr + len <= USER_TOP) (Hk : 4096 <= kptr).

(** [n] more pages of a copy that has reached [i]. *)
Record ready (ok : mm -> Z -> Prop) (n : nat) (i uoff : Z) (s : mm) : Prop := {
  re_sp : spaces s R R2;
  re_i : 0 <= i <= len;
  re_off : i < len -> uoff = (uptr + i) mod 4096;
  re_n : i < len -> uoff + (len - i) <= 4096 * Z.of_nat n;
  re_free : (3 * n <= length s.(pageFreeList))%nat;
  re_ok : forall va, uptr + i <= va < uptr + len -> ok s va }.

Lemma ready_next ok n i uoff s s1 : ready ok (S n) i uoff s -> i < len -> spaces s1 R R2 ->
  (length s.(pageFreeList) <= length s1.(pageFreeList) + 3)%nat ->
  (forall va', same_page (uptr + i) va' = false -> ok s va' -> ok s1 va') ->
  ready ok n (i + Z.min (len - i) (PAGE_SIZE - uoff)) 0 s1.
Proof.
  intros [Sp Hi Hoff Hn Hf Hok] Hlt Sp1 Hfr Hlk. specialize (Hoff Hlt). specialize (Hn Hlt).
  pose proof (Z.mod_pos_bound (uptr + i) 4096 ltac:(lia)) as Hm. unfold PAGE_SIZE.
  constructor; try (rewrite ?Nat2Z.inj_succ in *; lia).
  - exact Sp1.
  - intros H. rewrite Z.min_r in * by lia. subst uoff. zlia.
  - intros va Hva. destruct (Z.min_spec (len - i) (4096 - uoff)) as [[? E]|[? E]]; rewrite E in Hva; [lia|].
    apply Hlk; [|apply Hok; lia]. rewrite same_page_div by (unfold USER_TOP in *; lia). apply Z.eqb_neq. subst uoff. zlia.
Qed.

Definition may_read (s : mm) (va : Z) : Prop := readable (lookup_va s.(pmem) R va).
Definition may_write (s : mm) (va : Z) : Prop := writable (lookup_va s.(pmem) R va) /\ private s R R2 va.
Lemma ready_O ok i uoff s : ready ok 0 i uoff s -> len <= i.
Proof.
  intros [_ Hi Hoff Hn _ _]. destruct (Z.lt_ge_cases i len) as [Hlt|]; [|lia]. specialize (Hn Hlt). specialize (Hoff Hlt).
  pose proof (Z.mod_pos_bound (uptr + i) 4096 ltac:(lia)). lia.
Qed.
Lemma loop_done fuel cb perm i uoff s : len <= i -> userToKernel_loop fuel R uptr kptr len cb perm i uoff s = Ok (tt, s).
Proof. intros H. destruct fuel; cbn [userToKernel_loop]; now rewrite (proj2 (Z.ltb_ge _ _)) by lia. Qed.
(** The callback's page is RAM. *)
Lemma ready_ram ok n i uoff s s1 q : ready ok n i uoff s -> i < len -> spaces s1 R R2 -> maps s1.(pmem) R (uptr + i) q ->
  in_ram s1 (frame q + uoff) (Z.min (len - i) (PAGE_SIZE - uoff)) = true.
Proof.
  intros Re Hlt Sp1 Hq. pose proof (re_off _ _ _ _ _ Re Hlt) as Hoff. pose proof (Z.mod_pos_bound (uptr + i) 4096 ltac:(lia)).
  apply frame_in_ram; try (unfold PAGE_SIZE; lia); [apply (mm_npage _ (ss_ok _ _ _ Sp1))|]. apply (sp_leaf _ _ _ (ss_this _ _ _ Sp1) _ q Hq).
Qed.
Lemma in_chunk i va' n : 0 <= i < len -> 0 <= va' < USER_TOP -> (uptr + i) mod 4096 + n <= 4096 ->
  same_page (uptr + i) va' && (((uptr + i) mod 4096 <=? va' mod 4096) && (va' mod 4096 <? (uptr + i) mod 4096 + n)) =
  (uptr + i <=? va') && (va' <? uptr + i + n).
Proof.
  intros Hi Hv Hn. rewrite same_page_div by (unfold USER_TOP in *; lia).
  destruct ((uptr + i <=? va') && (va' <? uptr + i + n)) eqn:E.
  - zbool. pose proof (Z.mod_pos_bound (uptr + i) 4096 ltac:(lia)).
    assert (Ed : (uptr + i) / 4096 = va' / 4096) by zlia. rewrite Ed, Z.eqb_refl. cbn [andb]. apply andb_true_iff. rewrite Z.leb_le, Z.ltb_lt. zlia.
  - apply not_true_iff_false. intros H. zbool. apply not_true_iff_false in E. apply E. apply andb_true_iff. rewrite Z.leb_le, Z.ltb_lt. zlia.
Qed.

Lemma copy_out_loop n : forall fuel i uoff s km, (n <= fuel)%nat -> (forall x, 0 <= km x < 256) -> ready may_write n i uoff s ->
  exists s', userToKernel_loop fuel R uptr kptr len copyOutCallback PTE_W i uoff (MkUst s km) = Ok (tt, MkUst s' km) /\
    spaces s' R R2 /\ (forall va', lookup_va s'.(pmem) R2 va' = lookup_va s.(pmem) R2 va') /\
    (forall va', 0 <= va' < USER_TOP -> ubyte s'.(pmem) R va' =
       if (uptr + i <=? va') && (va' <? uptr + len) then km (kptr + (va' - uptr)) else ubyte s.(pmem) R va') /\
    (forall va', ubyte s'.(pmem) R2 va' = ubyte s.(pmem) R2 va') /\
    (forall va', may_write s va' -> may_write s' va') /\ (length s.(pageFreeList) <= length s'.(pageFreeList) + 3 * n)%nat.
Proof.
  induction n as [|n IH]; intros fuel i uoff s km Hfuel Hkm Re; pose proof Re as [Sp Hi Hoff Hn Hf Hw];
    (destruct (Z.lt_ge_cases i len) as [Hlt|Hge];
     [|exists s; rewrite loop_done by lia; split; [reflexivity|]; split; [exact Sp|]; split; [reflexivity|]; split; [intros va' _; zcases|]; split; [reflexivity|]; split; [auto|lia]]).
  - apply ready_O in Re. lia.
  - destruct fuel as [|fuel]; [lia|]. specialize (Hoff Hlt). pose proof (Z.mod_pos_bound (uptr + i) 4096 ltac:(lia)) as Hmod.
    destruct (touch_write s R R2 (uptr + i) Sp) as (s1 & Et & To & Hw1); [lia|apply Hw; lia|].
    destruct (to_map _ _ _ _ _ To) as [q Hq]. pose proof (to_sp _ _ _ _ _ To) as Sp1.
    rewrite (loop_step fuel R R2 uptr kptr len copyOutCallback PTE_W i uoff s km s1 q Hlt ltac:(lia) Hk Sp Et Sp1 Hq).
    unfold bind at 1. unfold copyOutCallback at 1. cbn [umm]. rewrite (ready_ram _ _ _ _ _ s1 q Re Hlt Sp1 Hq). cbn [umm kmem].
    set (c := Z.min (len - i) (PAGE_SIZE - uoff)) in *. assert (Hc : 0 < c <= len - i /\ c <= 4096 - uoff) by (unfold c, PAGE_SIZE; lia).
    destruct (store_run s1 R R2 (uptr + i) q (Z.to_nat c) (fun k => km (kptr + i + k)) Sp1 Hq) as (Sp2 & L & L2 & U & U2); [|auto|lia|].
    { intros va'. apply (to_priv _ _ _ _ _ To); [apply Hw; lia|exact Hq|exact Hw1]. }
    rewrite <- Hoff in Sp2, L, L2, U, U2. set (s2 := set_pmem _ s1) in *.
    assert (Hkeep : forall va', may_write s va' -> may_write s2 va').
    { intros va' Hmw. unfold may_write, private, maps. rewrite L. destruct (same_page (uptr + i) va') eqn:Ev.
      - rewrite (same_page_lookup _ _ _ _ Ev). split; [left; split; [exists q; exact Hq|auto]|]. intros q' va2 Hq' Hw'. rewrite L2.
        exact (to_priv _ _ _ _ _ To (proj2 (Hw (uptr + i) ltac:(lia))) q' va2 Hq' Hw').
      - rewrite (to_lk _ _ _ _ _ To va' Ev). destruct Hmw as [H1 H2]. split; [exact H1|]. intros q' va2. rewrite L2, (to_lk2 _ _ _ _ _ To). apply H2. }
    destruct (IH fuel (i + c) 0 s2 km) as (s' & E & Sp' & L2' & U' & U2' & W' & F'); [lia|exact Hkm| |].
    { apply (ready_next may_write n i uoff s s2 Re Hlt Sp2); [apply To|auto]. }
    exists s'. split; [exact E|]. split; [exact Sp'|]. split; [intros va'; rewrite L2', L2; apply To|]. split; [|split; [|split; [auto|]]].
    + intros va' Hva. rewrite U', U by exact Hva. rewrite Hoff. rewrite Z2Nat.id, in_chunk by lia. rewrite (to_u _ _ _ _ _ To).
      destruct (Z.leb_spec (uptr + (i + c)) va'), (Z.ltb_spec va' (uptr + len)), (Z.leb_spec (uptr + i) va'), (Z.ltb_spec va' (uptr + i + c));
        cbn [andb]; try lia; try reflexivity. f_equal. zlia.
    + intros va'. rewrite U2', U2. apply To.
    + pose proof (to_free _ _ _ _ _ To). change (pageFreeList s2) with (pageFreeList s1) in F'. lia.
Qed.

Lemma chunk_ubyte i q m va : 0 <= i < len -> maps m R (uptr + i) q -> uptr + i <= va < uptr + len ->
  (uptr + i) mod 4096 + (va - (uptr + i)) < 4096 -> ubyte m R va = ldb m (frame q + (uptr + i) mod 4096 + (va - (uptr + i))).
Proof.
  intros Hi Hq Hva Hc. pose proof (Z.mod_pos_bound (uptr + i) 4096 ltac:(lia)) as Hm. assert (Hd : (uptr + i) / 4096 = va / 4096) by zlia.
  unfold ubyte. rewrite (same_page_lookup m R (uptr + i) va); [|rewrite same_page_div by (unfold USER_TOP in *; lia); now apply Z.eqb_eq].
  rewrite Hq. f_equal. zlia.
Qed.
(** What a copy to the kernel that touched [n] pages leaves of both spaces. *)
Record reads_kept (n : nat) (s s' : mm) : Prop := {
  rk_read : forall va', may_read s va' -> may_read s' va';
  rk_priv2 : forall va', private s R2 R va' -> private s' R2 R va';
  rk_free : (length s.(pageFreeList) <= length s'.(pageFreeList) + 3 * n)%nat }.
Lemma reads_kept_refl n s : reads_kept n s s.
Proof. constructor; auto; lia. Qed.
Lemma reads_kept_step n va s s1 s' : touched s s1 R R2 va -> readable (lookup_va s1.(pmem) R va) -> reads_kept n s1 s' -> reads_kept (S n) s s'.
Proof.
  intros To Hr [H1 H2 H3]. constructor; [|intros; now apply H2, To|pose proof (to_free _ _ _ _ _ To); lia].
  intros va' H. apply H1. unfold may_read. destruct (same_page va va') eqn:Ev; [now rewrite (same_page_lookup _ _ _ _ Ev)|]. now rewrite (to_lk _ _ _ _ _ To va' Ev).
Qed.
Lemma copy_in_loop n : forall fuel i uoff s km, (n <= fuel)%nat -> ready may_read n i uoff s ->
  exists s' km', userToKernel_loop fuel R uptr kptr len copyInCallback PTE_R i uoff (MkUst s km) = Ok (tt, MkUst s' km') /\
    spaces s' R R2 /\ (forall va', lookup_va s'.(pmem) R2 va' = lookup_va s.(pmem) R2 va') /\
    (forall x, km' x = if (kptr + i <=? x) && (x <? kptr + len) then ubyte s.(pmem) R (uptr + (x - kptr)) else km x) /\
    (forall va', ubyte s'.(pmem) R va' = ubyte s.(pmem) R va') /\
    (forall va', ubyte s'.(pmem) R2 va' = ubyte s.(pmem) R2 va') /\ reads_kept n s s'.
Proof.
  induction n as [|n IH]; intros fuel i uoff s km Hfuel Re; pose proof Re as [Sp Hi Hoff Hn Hf Hw];
    (destruct (Z.lt_ge_cases i len) as [Hlt|Hge];
     [|exists s, km; rewrite loop_done by lia; split; [reflexivity|]; split; [exact Sp|]; split; [reflexivity|]; split; [|split; [reflexivity|]; split; [reflexivity|apply reads_kept_refl]]; intros x; zcases]).
  - apply ready_O in Re. lia.
  - destruct fuel as [|fuel]; [lia|]. specialize (Hoff Hlt). pose proof (Z.mod_pos_bound (uptr + i) 4096 ltac:(lia)) as Hmod.
    destruct (touch_read s R R2 (uptr + i) Sp) as (s1 & Et & To & Hr1); [lia|apply Hw; lia|].
    destruct (to_map _ _ _ _ _ To) as [q Hq]. pose proof (to_sp _ _ _ _ _ To) as Sp1.
    rewrite (loop_step fuel R R2 uptr kptr len copyInCallback PTE_R i uoff s km s1 q Hlt ltac:(lia) Hk Sp Et Sp1 Hq).
    unfold bind at 1. unfold copyInCallback at 1. cbn [umm]. rewrite (ready_ram _ _ _ _ _ s1 q Re Hlt Sp1 Hq). cbn [umm kmem].
    set (c := Z.min (len - i) (PAGE_SIZE - uoff)) in *. assert (Hc : 0 < c <= len - i /\ c <= 4096 - uoff) by (unfold c, PAGE_SIZE; lia).
    set (km1 := fun x => if (kptr + i <=? x) && (x <? kptr + i + c) then ldb s1.(pmem) (frame q + uoff + (x - (kptr + i))) else km x).
    destruct (IH fuel (i + c) 0 s1 km1) as (s' & km' & E & Sp' & L2' & K' & U' & U2' & Kp'); [lia| |].
    { apply (ready_next may_read n i uoff s s1 Re Hlt Sp1); [apply To|]. intros va' Ev. unfold may_read. now rewrite (to_lk _ _ _ _ _ To va' Ev). }
    exists s', km'. split; [exact E|]. split; [exact Sp'|]. split; [intros va'; rewrite L2'; apply To|]. split; [|split; [|split; [|exact (reads_kept_step n (uptr + i) s s1 s' To Hr1 Kp')]]].
    + intros x. rewrite K', (to_u _ _ _ _ _ To). unfold km1.
      destruct (Z.leb_spec (kptr + (i + c)) x), (Z.ltb_spec x (kptr + len)), (Z.leb_spec (kptr + i) x), (Z.ltb_spec x (kptr + i + c));
        cbn [andb]; try lia; try reflexivity.
      rewrite <- (to_u _ _ _ _ _ To), (chunk_ubyte i q s1.(pmem)) by (auto; lia). rewrite Hoff. f_equal. lia.
    + intros va'. rewrite U'. apply To.
    + intros va'. rewrite U2'. apply To.
Qed.

Lemma copy_in_str_loop n : forall fuel i uoff s km, (n <= fuel)%nat -> ready (fun _ _ => True) n i uoff s ->
  (forall va, uptr + i <= va < uptr + i + upto_nul (Z.to_nat (len - i)) (fun k => ubyte s.(pmem) R (uptr + k)) i -> may_read s va) ->
  exists s' km', userToKernel_loop fuel R uptr kptr len copyInStrCallback PTE_R i uoff (MkUst s km) = Ok (tt, MkUst s' km') /\
    spaces s' R R2 /\ (forall va', lookup_va s'.(pmem) R2 va' = lookup_va s.(pmem) R2 va') /\
    (let c := upto_nul (Z.to_nat (len - i)) (fun k => ubyte s.(pmem) R (uptr + k)) i in
     forall x, km' x = if (kptr + i <=? x) && (x <? kptr + i + c) then ubyte s.(pmem) R (uptr + (x - kptr)) else km x) /\
    (forall va', ubyte s'.(pmem) R va' = ubyte s.(pmem) R va') /\
    (forall va', ubyte s'.(pmem) R2 va' = ubyte s.(pmem) R2 va') /\ reads_kept n s s'.
Proof.
  induction n as [|n IH]; intros fuel i uoff s km Hfuel Re Hw; pose proof Re as [Sp Hi Hoff Hn Hf _];
    (destruct (Z.lt_ge_cases i len) as [Hlt|Hge];
     [|exists s, km; rewrite loop_done by lia; split; [reflexivity|]; split; [exact Sp|]; split; [reflexivity|]; split; [|split; [reflexivity|]; split; [reflexivity|apply reads_kept_refl]];
       intros c x; assert (i = len) as -> by lia; unfold c; rewrite Z.sub_diag; change (Z.to_nat 0) with 0%nat; cbn [upto_nul]; zcases]).
  - apply ready_O in Re. lia.
  - destruct fuel as [|fuel]; [lia|]. specialize (Hoff Hlt). pose proof (Z.mod_pos_bound (uptr + i) 4096 ltac:(lia)) as Hmod.
    destruct (touch_read s R R2 (uptr + i) Sp) as (s1 & Et & To & Hr1); [lia|apply Hw; pose proof (upto_nul_range (Z.to_nat (len - i)) (fun k => ubyte s.(pmem) R (uptr + k)) i); lia|].
    destruct (to_map _ _ _ _ _ To) as [q Hq]. pose proof (to_sp _ _ _ _ _ To) as Sp1.
    rewrite (loop_step fuel R R2 uptr kptr len copyInStrCallback PTE_R i uoff s km s1 q Hlt ltac:(lia) Hk Sp Et Sp1 Hq).
    unfold bind at 1. unfold copyInStrCallback at 1. cbn [umm]. rewrite (ready_ram _ _ _ _ _ s1 q Re Hlt Sp1 Hq). cbn [umm kmem].
    set (c := Z.min (len - i) (PAGE_SIZE - uoff)) in *. assert (Hc : 0 < c <= len - i /\ c <= 4096 - uoff) by (unfold c, PAGE_SIZE; lia).
    destruct (strncpyJudgeEnd_run (Z.to_nat c) s1.(pmem) km (kptr + i) (frame q + uoff)) as (km1 & -> & K1).
    set (f := fun k => ubyte s.(pmem) R (uptr + k)).
    assert (Hfb : forall k, 0 <= k < c -> ldb s1.(pmem) (frame q + uoff + k) = f (i + k)).
    { intros k Hk'. unfold f. rewrite <- (to_u _ _ _ _ _ To), (chunk_ubyte i q s1.(pmem)) by (auto; lia). f_equal. lia. }
    rewrite (upto_nul_ext (Z.to_nat c) _ f 0 i) in * by (intros k Hk'; rewrite Z.add_0_l; apply Hfb; lia).
    set (d := upto_nul (Z.to_nat c) f i) in *. pose proof (upto_nul_range (Z.to_nat c) f i) as Hd. fold d in Hd.
    assert (K : forall x, km1 x = if (kptr + i <=? x) && (x <? kptr + i + d) then f (x - kptr) else km x).
    { intros x. rewrite K1. destruct (_ && _) eqn:Ex; [|reflexivity]. zbool. rewrite Hfb by lia. f_equal. lia. }
    pose proof (upto_nul_app (Z.to_nat c) (Z.to_nat (len - (i + c))) f i ltac:(lia)) as Happ. fold d in Happ.
    replace (Z.to_nat c + Z.to_nat (len - (i + c)))%nat with (Z.to_nat (len - i)) in Happ by lia.
    assert (Ed : km1 (kptr + i + d - 1) = f (i + d - 1)).
    { rewrite K. replace (_ && _) with true by (symmetry; apply andb_true_iff; rewrite Z.leb_le, Z.ltb_lt; lia). f_equal. lia. }
    pose proof (upto_nul_app (Z.to_nat c) 0 f i ltac:(lia)) as Hfull. rewrite Nat.add_0_r in Hfull. fold d in Hfull.
    rewrite Ed. destruct (f (i + d - 1) =? 0) eqn:Es.
    + exists s1, km1. split; [reflexivity|]. split; [exact Sp1|]. split; [apply To|]. split; [|split; [apply To|]; split; [apply To|exact (reads_kept_step n (uptr + i) s s1 s1 To Hr1 (reads_kept_refl n s1))]].
      cbv zeta. fold f. rewrite Happ. exact K.
    + destruct (IH fuel (i + c) 0 s1 km1) as (s' & km' & E & Sp' & L2' & K' & U' & U2' & Kp'); [lia| | |].
      { apply (ready_next (fun _ _ => True) n i uoff s s1 Re Hlt Sp1); [apply To|auto]. }
      { intros va' Hva'. apply (rk_read _ _ _ (reads_kept_step 0 (uptr + i) s s1 s1 To Hr1 (reads_kept_refl 0 s1))), Hw. fold f. rewrite Happ.
        rewrite (upto_nul_ext _ (fun k => ubyte s1.(pmem) R (uptr + k)) f (i + c) (i + c)) in Hva' by (intros; apply To).
        pose proof (upto_nul_range (Z.to_nat (len - (i + c))) f (i + c)). rewrite Z2Nat.id by lia. lia. }
      exists s', km'. split; [exact E|]. split; [exact Sp'|]. split; [intros va'; rewrite L2'; apply To|].
      split; [|split; [intros va'; rewrite U'; apply To|]; split; [intros va'; rewrite U2'; apply To|exact (reads_kept_step n (uptr + i) s s1 s' To Hr1 Kp')]].
      cbv zeta in K' |- *. fold f. rewrite Happ, Z2Nat.id by lia. intros x. rewrite K', (to_u _ _ _ _ _ To), K.
      rewrite (upto_nul_ext _ (fun k => ubyte s1.(pmem) R (uptr + k)) f (i + c) (i + c)) by (intros; apply To).
      pose proof (upto_nul_range (Z.to_nat (len - (i + c))) f (i + c)) as Hrest. cbn [upto_nul] in Hfull. unfold f at 2.
      set (rest := upto_nul _ f (i + c)) in *. clearbody rest d. zcases.
Qed.
End CopyLoop.

(** ** Fork *)

(** What the entry of the parent is forked as, and what it becomes itself. *)
Definition fork_cow (perm : Z) : bool :=
  negb (PTE_PASSIVE perm) && (has perm PTE_W && has perm PTE_U && negb (has perm PTE_SHARED)).
Definition fork_perm (perm : Z) : Z := if fork_cow perm then Z.lor (Z.ldiff perm PTE_W) PTE_COW else perm.

(** The root and the second-level tables of a space are as they were. *)
Definition dirs_kept (s s' : mm) (root : Z) : Prop := forall a x, is_dir s.(pmem) root a -> idx x ->
  s'.(pmem) (a + 8 * x) = s.(pmem) (a + 8 * x).
Lemma same_tables_dirs s s' root : same_tables s s' root -> dirs_kept s s' root.
Proof. intros T a x Ha Hx. apply T; [now apply dir_table|exact Hx]. Qed.
Lemma dirs_kept_trans s s1 s2 root : dirs_kept s s1 root -> dirs_kept s1 s2 root -> dirs_kept s s2 root.
Proof.
  intros H1 H2 a x Ha Hx. rewrite <- (H1 a x Ha Hx). apply H2; [|exact Hx].
  destruct Ha as [->|(i & Hi & E)]; [now left|right; exists i; split; [exact Hi|]]. rewrite <- E. apply (same_child s s1 root H1 i Hi).
Qed.
Lemma maps_tab3 m root va q : maps m root va q -> tab3 m root (PTX va 1) (PTX va 2) <> None.
Proof. unfold maps, lookup_va, pte_at. destruct (tab3 _ _ _ _); [discriminate|]. change (pte_page 0) with (@None Z). discriminate. Qed.

(** [C] sees at the page of [va] what [R] sees there, and nothing else has
    changed for either. *)
Record shares (s s' : mm) (R C va : Z) : Prop := {
  sh_sp : spaces s' R C;
  sh_dir : dirs_kept s s' R;
  sh_lk : forall va', same_page va va' = false -> lookup_va s'.(pmem) R va' = lookup_va s.(pmem) R va';
  sh_lkc : forall va', same_page va va' = false -> lookup_va s'.(pmem) C va' = lookup_va s.(pmem) C va';
  sh_pg : pte_page (lookup_va s'.(pmem) R va) = pte_page (lookup_va s.(pmem) R va);
  sh_pgc : pte_page (lookup_va s'.(pmem) C va) = pte_page (lookup_va s.(pmem) R va);
  sh_u : forall va', ubyte s'.(pmem) R va' = ubyte s.(pmem) R va';
  sh_uc : forall va', ubyte s'.(pmem) C va' = if same_page va va' then ubyte s.(pmem) R va' else ubyte s.(pmem) C va';
  sh_ref : forall va' q, maps s.(pmem) R va' q -> same_page va va' = false -> s'.(page_ref) q = s.(page_ref) q }.

(** The child maps a page of the parent. *)
Lemma child_map s R C va q perm : spaces s R C -> (2 <= length s.(pageFreeList))%nat -> 0 <= perm < 1024 ->
  maps s.(pmem) R va q -> lookup_va s.(pmem) C va = 0 -> (forall va', ~ maps s.(pmem) C va' q) -> s.(page_ref) q < 4294967295 ->
  exists s', ptMap C va (frame q) perm s = Ok (0, s') /\ shares s s' R C va /\ lookup_va s'.(pmem) C va = mk_pte (frame q) perm /\
    lookup_va s'.(pmem) R va = lookup_va s.(pmem) R va /\ s'.(page_ref) q = s.(page_ref) q + 1 /\
    (length s.(pageFreeList) <= length s'.(pageFreeList) + 2)%nat.
Proof.
  intros Sp Hf Hperm Hq H0 Hnm Href. pose proof Sp as [Hok Hd S1 S2]. destruct (sp_leaf _ _ _ S1 va q Hq) as (Hu & Hr & Ht & Ht2).
  destruct (ptMap_spaces s C R va q perm (spaces_sym _ _ _ Sp)) as (s' & E & Mi); auto.
  { intros H. now apply Hnm in H. } { intros va' H. now apply Hnm in H. }
  pose proof (mi_lk _ _ _ _ _ _ _ Mi) as Lc. pose proof (same_tables_lookup _ _ _ (mi_t2 _ _ _ _ _ _ _ Mi)) as L.
  assert (Hpn : forall q', ~ maps s.(pmem) C va q') by (intros q'; unfold maps; rewrite H0; discriminate).
  pose proof (mm_npage _ Hok). destruct (mk_facts q perm) as (_ & _ & _ & Epg); [destruct Hu; lia|lia|].
  exists s'. split; [exact E|]. split; [|split; [|split; [apply L|split; [|apply Mi]]]].
  - constructor; [apply spaces_sym, Mi|apply same_tables_dirs, Mi|intros; apply L| | | | | |].
    + intros va' Ev. now rewrite Lc, Ev.
    + now rewrite L.
    + now rewrite Lc, same_page_refl, Epg.
    + intros va'. apply ubyte_same; [apply L|]. intros q' Hq'. destruct (sp_leaf _ _ _ S1 va' q' Hq') as (Hu' & _ & _ & Ht').
      intros x. apply (mi_keep _ _ _ _ _ _ _ Mi q'); auto.
    + intros va'. destruct (same_page va va') eqn:Ev.
      * unfold ubyte. rewrite Lc, Ev, Epg, (same_page_lookup _ R _ _ Ev), Hq. apply ldb_same; [|apply Z.mod_pos_bound; lia].
        intros x. apply (mi_keep _ _ _ _ _ _ _ Mi q); auto.
      * apply ubyte_same; [now rewrite Lc, Ev|]. intros q' Hq'. destruct (sp_leaf _ _ _ S2 va' q' Hq') as (Hu' & _ & Ht' & _).
        intros x. apply (mi_keep _ _ _ _ _ _ _ Mi q'); auto.
    + intros va' q' Hq' Ev. rewrite (mi_ref _ _ _ _ _ _ _ Mi q'), H0 by apply (sp_leaf _ _ _ S1 va' q' Hq'). change (pte_page 0) with (@None Z).
      cbn [ref_delta]. destruct (Z.eqb_spec q' q) as [->|]; [|lia]. rewrite (sp_once _ _ _ S1 va va' q Hq Hq') in Ev. discriminate.
  - now rewrite Lc, same_page_refl.
  - rewrite (mi_ref _ _ _ _ _ _ _ Mi q Hu), H0. change (pte_page 0) with (@None Z). cbn [ref_delta]. rewrite Z.eqb_refl. lia.
Qed.
(** The parent maps its own page again, with other permissions. *)
Lemma parent_remap s R C va q perm : spaces s R C -> (2 <= length s.(pageFreeList))%nat -> 0 <= perm < 1024 ->
  maps s.(pmem) R va q -> maps s.(pmem) C va q -> s.(page_ref) q < 4294967295 ->
  exists s', ptMap R va (frame q) perm s = Ok (0, s') /\ spaces s' R C /\ dirs_kept s s' R /\
    (forall va', lookup_va s'.(pmem) R va' = if same_page va va' then mk_pte (frame q) perm else lookup_va s.(pmem) R va') /\
    (forall va', lookup_va s'.(pmem) C va' = lookup_va s.(pmem) C va') /\
    (forall va', ubyte s'.(pmem) R va' = ubyte s.(pmem) R va') /\ (forall va', ubyte s'.(pmem) C va' = ubyte s.(pmem) C va') /\
    (forall q', in_use s q' -> s'.(page_ref) q' = s.(page_ref) q') /\
    (length s.(pageFreeList) <= length s'.(pageFreeList) + 2)%nat.
Proof.
  intros Sp Hf Hperm Hq Hqc Href. pose proof Sp as [Hok Hd S1 S2]. destruct (sp_leaf _ _ _ S1 va q Hq) as (Hu & Hr & Ht & Ht2).
  pose proof (sp_two _ _ _ S1 va va q Hq Hqc) as H2.
  destruct (ptMap_spaces s R C va q perm Sp) as (s' & E & Mi); auto; [intros va' Hq'; exact (sp_once _ _ _ S1 va va' q Hq Hq')|].
  pose proof (mi_lk _ _ _ _ _ _ _ Mi) as L. pose proof (same_tables_lookup _ _ _ (mi_t2 _ _ _ _ _ _ _ Mi)) as Lc.
  pose proof (mm_npage _ Hok). destruct (mk_facts q perm) as (_ & _ & _ & Epg); [destruct Hu; lia|lia|].
  assert (Hk : forall q', in_use s q' -> ~ is_table s.(pmem) R (frame q') -> same_frame s.(pmem) s'.(pmem) q').
  { intros q' Hu' Ht' x. apply (mi_keep _ _ _ _ _ _ _ Mi q'); auto. destruct (decide (q' = q)) as [->|Hne]; [now right|left].
    unfold maps in *. congruence. }
  exists s'. split; [exact E|]. split; [apply Mi|]. split; [exact (mi_dir _ _ _ _ _ _ _ Mi (maps_tab3 _ _ _ _ Hq))|]. split; [exact L|]. split; [exact Lc|].
  split; [|split; [|split; [intros q' Hu'; rewrite (mi_ref _ _ _ _ _ _ _ Mi q' Hu'), Hq; lia|apply Mi]]]; intros va'.
  - destruct (same_page va va') eqn:Ev.
    + unfold ubyte. rewrite L, Ev, Epg, (same_page_lookup _ R _ _ Ev), Hq. apply ldb_same; [now apply Hk|apply Z.mod_pos_bound; lia].
    + apply ubyte_same; [now rewrite L, Ev|]. intros q' Hq'. destruct (sp_leaf _ _ _ S1 va' q' Hq') as (? & _ & ? & _). now apply Hk.
  - apply ubyte_same; [apply Lc|]. intros q' Hq'. destruct (sp_leaf _ _ _ S2 va' q' Hq') as (? & _ & _ & ?). now apply Hk.
Qed.

(** A promised page is promised to the child too. *)
Lemma child_promise s R C va perm : spaces s R C -> (2 <= length s.(pageFreeList))%nat -> 0 <= perm < 1024 ->
  has perm PTE_V = false -> has perm PTE_U = true -> lookup_va s.(pmem) C va = 0 -> has (lookup_va s.(pmem) R va) PTE_V = false ->
  exists s', ptMap C va 0 perm s = Ok (0, s') /\ shares s s' R C va /\ lookup_va s'.(pmem) C va = perm /\
    lookup_va s'.(pmem) R va = lookup_va s.(pmem) R va /\ (length s.(pageFreeList) <= length s'.(pageFreeList) + 2)%nat.
Proof.
  intros Sp Hf Hperm Hv Hu H0 HR. destruct (ptMap_promise s C R va perm (spaces_sym _ _ _ Sp) Hf Hperm Hv Hu) as (s' & E & N & Hfr); [now rewrite H0|].
  pose proof (same_tables_lookup _ _ _ (na_t2 _ _ _ _ _ _ N)) as L. pose proof (na_lk _ _ _ _ _ _ N) as Lc.
  assert (Hp : pte_page perm = None) by (unfold pte_page; now rewrite Hv). assert (Hpr : pte_page (lookup_va s.(pmem) R va) = None) by (unfold pte_page; now rewrite HR).
  exists s'. split; [exact E|]. split; [|split; [now rewrite Lc, same_page_refl|split; [apply L|exact Hfr]]]. constructor.
  - apply spaces_sym, N.
  - apply same_tables_dirs, N.
  - intros va' _. apply L.
  - intros va' Ev. now rewrite Lc, Ev.
  - now rewrite L.
  - now rewrite Lc, same_page_refl, Hp, Hpr.
  - apply N.
  - intros va'. destruct (same_page va va') eqn:Ev; [|exact (narrowed_u_other _ _ _ _ _ _ _ N Ev)].
    rewrite (na_u _ _ _ _ _ _ N), Lc, Ev, Hp. unfold ubyte. now rewrite (same_page_lookup _ R _ _ Ev), Hpr.
  - intros va' q Hq _. rewrite (na_ref _ _ _ _ _ _ N), H0, Hp by apply (sp_leaf _ _ _ (ss_this _ _ _ Sp) va' q Hq). change (pte_page 0) with (@None Z). cbn [ref_delta]. lia.
Qed.

Lemma lor_V x : has x PTE_V = true -> Z.lor x PTE_V = x.
Proof.
  rewrite has_V. intros H. apply Z.bits_inj'. intros n Hn. rewrite Z.lor_spec. destruct (Z.eq_dec n 0) as [->|]; [now rewrite H|].
  replace (Z.testbit PTE_V n) with false; [apply orb_false_r|]. symmetry. apply (Z.pow2_bits_false 0 n). lia.
Qed.
Lemma fork_bit perm n : 0 <= n -> Z.testbit (fork_perm perm) n =
  if fork_cow perm then (n =? 8) || negb (n =? 2) && Z.testbit perm n else Z.testbit perm n.
Proof.
  intros Hn. unfold fork_perm. destruct (fork_cow perm); [|reflexivity]. change PTE_W with (2 ^ 2). change PTE_COW with (2 ^ 8).
  rewrite Z.lor_spec, Z.ldiff_spec, !Z.pow2_bits_eqb by lia. rewrite (Z.eqb_sym 2 n), (Z.eqb_sym 8 n). destruct (n =? 2), (n =? 8), (Z.testbit perm n); reflexivity.
Qed.
Lemma fork_perm_range perm : 0 <= perm < 1024 -> 0 <= fork_perm perm < 1024.
Proof.
  intros Hp. apply low_bits.
  - unfold fork_perm. destruct (fork_cow perm); [|lia]. apply Z.lor_nonneg. split; [apply Z.ldiff_nonneg; left; lia|unfold PTE_COW; lia].
  - intros n Hn. rewrite fork_bit by lia. assert (Hb : Z.testbit perm n = false).
    { destruct (Z.eq_dec perm 0) as [->|]; [apply Z.bits_0|]. apply Z.bits_above_log2; [lia|]. apply Z.log2_lt_pow2; [lia|].
      apply Z.lt_le_trans with (2 ^ 10); [lia|]. apply Z.pow_le_mono_r; lia. }
    rewrite Hb, andb_false_r. destruct (fork_cow perm); [|reflexivity]. rewrite orb_false_r. apply Z.eqb_neq. lia.
Qed.
Lemma fork_perm_V perm : has perm PTE_V = true -> has (fork_perm perm) PTE_V = true.
Proof. rewrite !has_V, fork_bit by lia. intros ->. destruct (fork_cow perm); reflexivity. Qed.

(** A page of the parent that fork can hand on: promised, or a user page the
    child does not have yet. *)
Definition forkable (s : mm) (R C va : Z) : Prop :=
  let e := lookup_va s.(pmem) R va in
  PTE_PASSIVE e = true /\ 0 <= e < 1024 \/
  exists q, maps s.(pmem) R va q /\ has e PTE_U = true /\ s.(page_ref) q < 4294967294 /\ forall va', ~ maps s.(pmem) C va' q.

Lemma duppage_run s R C va : spaces s R C -> (4 <= length s.(pageFreeList))%nat -> lookup_va s.(pmem) C va = 0 -> forkable s R C va ->
  exists s', duppage R va C s = Ok (0, s') /\ shares s s' R C va /\
    PTE_PERM (lookup_va s'.(pmem) C va) = fork_perm (PTE_PERM (lookup_va s.(pmem) R va)) /\
    PTE_PERM (lookup_va s'.(pmem) R va) = fork_perm (PTE_PERM (lookup_va s.(pmem) R va)) /\
    (PTE_PASSIVE (lookup_va s.(pmem) R va) = true ->
       lookup_va s'.(pmem) C va = lookup_va s.(pmem) R va /\ lookup_va s'.(pmem) R va = lookup_va s.(pmem) R va) /\
    (length s.(pageFreeList) <= length s'.(pageFreeList) + 4)%nat.
Proof.
  intros Sp Hf H0 Hfk. unfold duppage. rewrite (bind_run _ _ _ _ _ (lookup_run s C R va (spaces_sym _ _ _ Sp))), H0, Z.eqb_refl.
  rewrite (bind_run _ _ _ _ _ (lookup_run s R C va Sp)). unfold forkable in Hfk. set (e := lookup_va s.(pmem) R va) in *. cbv zeta.
  set (perm := PTE_PERM e). pose proof (perm_range e) as Hperm. fold perm in Hperm.
  assert (Hbit : forall n, 0 <= n < 10 -> has perm (2 ^ n) = has e (2 ^ n)) by (intros; now apply has_perm).
  pose proof (Hbit 0 ltac:(lia)) as HV. pose proof (Hbit 4 ltac:(lia)) as HU. change (2 ^ 0) with PTE_V in HV. change (2 ^ 4) with PTE_U in HU.
  destruct Hfk as [[Hps He]|(q & Hq & Hu & Href & Hnm)].
  - assert (Ep : perm = e) by (unfold perm, PTE_PERM; change 1023 with (Z.ones 10); rewrite Z.land_ones by lia; now apply Z.mod_small).
    assert (Ef : fork_perm e = e) by (unfold fork_perm, fork_cow; now rewrite Hps).
    rewrite !Ep, Hps. apply andb_true_iff in Hps as [Hv Hu]. apply negb_true_iff in Hv.
    destruct (child_promise s R C va e Sp ltac:(lia) He Hv Hu H0 Hv) as (s' & E & Sh & Ec & Er & Hfr).
    exists s'. split; [exact E|]. split; [exact Sh|]. rewrite Ec, Er. fold e perm. rewrite Ep, Ef. do 2 (split; [reflexivity|]). split; [auto|lia].
  - pose proof (pte_page_V e q Hq) as Hv. unfold PTE_PASSIVE. rewrite HV, Hv, HU, Hu. cbn [negb andb].
    pose proof Sp as [Hok _ S1 S2]. destruct (sp_leaf _ _ _ S1 va q Hq) as (Huse & _). pose proof (mm_npage _ Hok).
    destruct (maps_page _ _ _ _ Hq) as [_ Hpa]; [destruct Huse; lia|destruct Huse; lia|]. fold e in Hpa. rewrite Hpa.
    assert (Hpp : forall x, has x PTE_V = true -> 0 <= x < 1024 -> PTE_PERM (mk_pte (frame q) x) = x).
    { intros x Hx Hr. destruct (mk_facts q x) as (_ & _ & -> & _); [destruct Huse; lia|lia|]. now apply lor_V. }
    pose proof (fork_perm_range perm Hperm) as Hfr. pose proof (fork_perm_V perm ltac:(congruence)) as HfV.
    destruct (child_map s R C va q (fork_perm perm) Sp ltac:(lia) Hfr Hq H0 Hnm ltac:(lia)) as (s1 & E1 & Sh & Ec & Er & Hr1 & Hf1).
    unfold fork_perm, fork_cow, PTE_PASSIVE in *. fold e in Hv. rewrite HV, Hv, HU, Hu in *. cbn [negb andb] in *.
    destruct (has perm PTE_W && true && negb (has perm PTE_SHARED)) eqn:Ecow.
    + rewrite (bind_run _ _ _ _ _ E1). cbn [Z.eqb negb]. set (cp := Z.lor (Z.ldiff perm PTE_W) PTE_COW) in *.
      destruct (parent_remap s1 R C va q cp (sh_sp _ _ _ _ _ Sh)) as (s2 & E2 & Sp2 & D2 & L2 & Lc2 & U2 & Uc2 & R2 & Hf2); try lia.
      { unfold maps. now rewrite Er. } { unfold maps. rewrite Ec. apply mk_facts; [destruct Huse; lia|lia]. }
      rewrite (bind_run _ _ _ _ _ E2). exists s2. split; [reflexivity|]. split; [|rewrite Lc2, L2, same_page_refl, Ec, Hpp by auto; do 2 (split; [reflexivity|]); split; [discriminate|lia]].
      destruct Sh as [Sp1 Sd Sl Slc Sg Sgc Su Suc Sr]. constructor; auto.
      * exact (dirs_kept_trans _ _ _ _ Sd D2).
      * intros va' Ev. rewrite L2, Ev. now apply Sl.
      * intros va' Ev. rewrite Lc2. now apply Slc.
      * rewrite L2, same_page_refl. transitivity (Some q); [apply mk_facts; [destruct Huse; lia|lia]|symmetry; exact Hq].
      * rewrite Lc2. exact Sgc.
      * intros va'. rewrite U2. apply Su.
      * intros va'. rewrite Uc2. apply Suc.
      * intros va' q' Hq' Ev. rewrite R2; [now apply (Sr va')|]. apply (sp_leaf _ _ _ (ss_this _ _ _ Sp1) va' q'). unfold maps. now rewrite Sl.
    + exists s1. split; [exact E1|]. split; [exact Sh|]. rewrite Ec, Er, Hpp by auto. do 2 (split; [reflexivity|]). split; [discriminate|lia].
Qed.

(** ** The copy routines *)

(** C11. A copy to a user range that the program may write, in pages of its own
    (copy-on-write and promised pages among them) stores exactly the kernel's
    bytes there: the program sees them, sees the rest of its memory as before,
    and a program forked from it or from which it was forked sees no change. *)
Theorem copy_out_isolated (s : mm) (km : mem) (R R2 uptr kptr len : Z) (n fuel : nat) :
  spaces s R R2 -> 0 <= uptr -> 0 <= len -> uptr + len <= USER_TOP -> 4096 <= kptr -> (forall x, 0 <= km x < 256) ->
  uptr mod 4096 + len <= 4096 * Z.of_nat n -> (n <= fuel)%nat -> (3 * n <= length s.(pageFreeList))%nat ->
  (forall va, uptr <= va < uptr + len -> writable (lookup_va s.(pmem) R va) /\ private s R R2 va) ->
  exists s', copy_out fuel R uptr kptr len (MkUst s km) = Ok (tt, MkUst s' km) /\ spaces s' R R2 /\
    (forall va, 0 <= va < USER_TOP -> ubyte s'.(pmem) R va =
       if (uptr <=? va) && (va <? uptr + len) then km (kptr + (va - uptr)) else ubyte s.(pmem) R va) /\
    (forall va, ubyte s'.(pmem) R2 va = ubyte s.(pmem) R2 va).
Proof.
  intros Sp Hu Hl Ht Hk Hkm Hn Hfuel Hf Hw.
  destruct (copy_out_loop R R2 uptr kptr len (conj Hu Ht) Hk n fuel 0 (uptr mod PAGE_SIZE) s km Hfuel Hkm) as (s' & E & Sp' & _ & U & U2 & _).
  - constructor; auto; try (intros; rewrite ?Z.add_0_r in *; unfold PAGE_SIZE, may_write; auto; lia).
  - exists s'. split; [exact E|]. split; [exact Sp'|]. split; [|exact U2]. intros va Hva. rewrite (U va Hva), Z.add_0_r. reflexivity.
Qed.

(** C12. A copy from a readable user range brings exactly the bytes the program
    sees there into the kernel's buffer, and no program sees a change. *)
Theorem copy_in_reads (s : mm) (km : mem) (R R2 uptr kptr len : Z) (n fuel : nat) :
  spaces s R R2 -> 0 <= uptr -> 0 <= len -> uptr + len <= USER_TOP -> 4096 <= kptr ->
  uptr mod 4096 + len <= 4096 * Z.of_nat n -> (n <= fuel)%nat -> (3 * n <= length s.(pageFreeList))%nat ->
  (forall va, uptr <= va < uptr + len -> readable (lookup_va s.(pmem) R va)) ->
  exists s' km', copy_in fuel R uptr kptr len (MkUst s km) = Ok (tt, MkUst s' km') /\ spaces s' R R2 /\
    (forall x, km' x = if (kptr <=? x) && (x <? kptr + len) then ubyte s.(pmem) R (uptr + (x - kptr)) else km x) /\
    (forall va, ubyte s'.(pmem) R va = ubyte s.(pmem) R va) /\ (forall va, ubyte s'.(pmem) R2 va = ubyte s.(pmem) R2 va).
Proof.
  intros Sp Hu Hl Ht Hk Hn Hfuel Hf Hw.
  destruct (copy_in_loop R R2 uptr kptr len (conj Hu Ht) Hk n fuel 0 (uptr mod PAGE_SIZE) s km Hfuel) as (s' & km' & E & Sp' & _ & K & U & U2 & _).
  - constructor; auto; try (intros; rewrite ?Z.add_0_r in *; unfold PAGE_SIZE, may_read; auto; lia).
  - exists s', km'. split; [exact E|]. split; [exact Sp'|]. split; [|split; [exact U|exact U2]]. intros x. rewrite K, Z.add_0_r. reflexivity.
Qed.

(** [copy_in_str] brings in the bytes up to and including the first zero,
    [len] at most, and leaves the rest of the buffer alone. *)
Theorem copy_in_str_reads (s : mm) (km : mem) (R R2 uptr kptr len : Z) (n fuel : nat) :
  spaces s R R2 -> 0 <= uptr -> 0 <= len -> uptr + len <= USER_TOP -> 4096 <= kptr ->
  uptr mod 4096 + len <= 4096 * Z.of_nat n -> (n <= fuel)%nat -> (3 * n <= length s.(pageFreeList))%nat ->
  (forall va, uptr <= va < uptr + upto_nul (Z.to_nat len) (fun k => ubyte s.(pmem) R (uptr + k)) 0 -> readable (lookup_va s.(pmem) R va)) ->
  exists s' km', copy_in_str fuel R uptr kptr len (MkUst s km) = Ok (tt, MkUst s' km') /\ spaces s' R R2 /\
    (let c := upto_nul (Z.to_nat len) (fun k => ubyte s.(pmem) R (uptr + k)) 0 in
     forall x, km' x = if (kptr <=? x) && (x <? kptr + c) then ubyte s.(pmem) R (uptr + (x - kptr)) else km x) /\
    (forall va, ubyte s'.(pmem) R va = ubyte s.(pmem) R va) /\ (forall va, ubyte s'.(pmem) R2 va = ubyte s.(pmem) R2 va).
Proof.
  intros Sp Hu Hl Ht Hk Hn Hfuel Hf Hw.
  destruct (copy_in_str_loop R R2 uptr kptr len (conj Hu Ht) Hk n fuel 0 (uptr mod PAGE_SIZE) s km Hfuel) as (s' & km' & E & Sp' & _ & K & U & U2 & _).
  - constructor; auto; try (intros; rewrite ?Z.add_0_r in *; unfold PAGE_SIZE; auto; lia).
  - rewrite Z.add_0_r, Z.sub_0_r. exact Hw.
  - exists s', km'. split; [exact E|]. split; [exact Sp'|]. split; [|split; [exact U|exact U2]]. cbv zeta in *. intros x.
    rewrite K, Z.add_0_r, Z.sub_0_r. reflexivity.
Qed.

(** A pointer that a program has not mapped, handed to any call that copies
    from user memory, stops the kernel: the failed fault is a panic. *)
Theorem copy_in_unmapped_panics (s : mm) (km : mem) (R uptr kptr len : Z) (fuel : nat) :
  mm_ok s -> wf_pt s R -> 0 <= s.(kvm_depth) -> 0 <= uptr < USER_TOP -> 0 < len -> lookup_va s.(pmem) R uptr = 0 ->
  copy_in (S fuel) R uptr kptr len (MkUst s km) = Err Panic.
Proof.
  intros Hok W Hd Hu Hl H0. unfold USER_TOP in Hu. unfold copy_in, userToKernel. cbn [userToKernel_loop].
  rewrite (proj2 (Z.ltb_lt _ _) Hl), Z.add_0_r, wrap64_small by lia.
  pose proof (ptLookup_reads s R uptr Hok W Hd) as El. rewrite H0 in El.
  assert (Ef : forall v, page_fault_handler R v uptr s = Ok (-1, s)).
  { intros v. unfold page_fault_handler. rewrite (bind_run _ _ _ _ _ El). cbn [Z.eqb negb]. now rewrite !andb_false_r. }
  assert (Et : test_page_fault R uptr 0 PTE_R s = Err Panic).
  { unfold test_page_fault. change (has 0 PTE_V) with false. change (has 0 PTE_R) with false. change (has PTE_R PTE_W) with false.
    change (has PTE_R PTE_R) with true. cbn [negb andb]. rewrite (bind_run _ _ s tt s) by now rewrite (bind_run _ _ _ _ _ (Ef PTE_R)).
    rewrite (bind_run (ret tt) _ s tt s eq_refl), (bind_run _ _ _ _ _ (Ef PTE_R)). reflexivity. }
  rewrite (bind_run _ _ _ _ _ (on_mm_run _ _ km _ _ El)). apply bind_err. unfold on_mm. cbn [umm]. now rewrite Et.
Qed.

(** Two empty page directories and fifty free pages. *)
Definition dirA : Z := frame 3.
Definition dirB : Z := frame 4.
Definition twin_vm : mm := MkMm 100 (fun p => if (p =? 3) || (p =? 4) then 1 else 0) (seqZ 10 50) 50 (fun _ => 0) 0 [].
Lemma twin_free p : p ∈ seqZ 10 50 -> 10 <= p < 60.
Proof. intros Hp%elem_of_seqZ. lia. Qed.
Lemma twin_table root a : is_table twin_vm.(pmem) root a -> a = root.
Proof. intros [->|[(i & _ & E)|(i & j & _ & _ & E)]]; [reflexivity|discriminate|discriminate]. Qed.
Lemma twin_space root root2 : (root = dirA /\ root2 = dirB) \/ (root = dirB /\ root2 = dirA) -> space twin_vm root root2.
Proof.
  intros Hr. constructor; try (intros; discriminate).
  - constructor; try (intros; discriminate); try (intros; reflexivity).
    destruct Hr as [[-> _]|[-> _]]; [exists 3|exists 4]; (split; [|reflexivity]; split; [cbn; lia|intros Hp%twin_free; lia]).
  - intros a Ha%twin_table Hb%twin_table. unfold dirA, dirB, frame in *. destruct Hr as [[-> ->]|[-> ->]]; lia.
Qed.
Lemma twin_spaces : spaces twin_vm dirA dirB.
Proof.
  constructor; [|cbn; lia|apply twin_space; auto|apply twin_space; auto]. constructor; cbn [twin_vm npage pageFreeList page_ref pageleft].
  - lia.
  - apply NoDup_seqZ.
  - intros p Hp%twin_free. split; [lia|]. zcases.
  - reflexivity.
  - intros p. destruct (_ || _); lia.
Qed.
(** ... with the page at 4096 promised to the first program. *)
Lemma twin_promised : exists s, spaces s dirA dirB /\ lookup_va s.(pmem) dirA 4096 = 22 /\ lookup_va s.(pmem) dirB 4096 = 0 /\
  (48 <= length s.(pageFreeList))%nat /\ (forall va, ubyte s.(pmem) dirA va = 0) /\ (forall va, ubyte s.(pmem) dirB va = 0).
Proof.
  destruct (child_promise twin_vm dirB dirA 4096 22 (spaces_sym _ _ _ twin_spaces)) as (s & _ & Sh & E & E2 & Hf); try reflexivity; try lia.
  { change (pageFreeList twin_vm) with (seqZ 10 50). rewrite length_seqZ. lia. }
  exists s. split; [apply spaces_sym, Sh|]. split; [exact E|]. split; [rewrite E2; reflexivity|]. split.
  { change (pageFreeList twin_vm) with (seqZ 10 50) in Hf. rewrite length_seqZ in Hf. lia. }
  split; intros va; [rewrite (sh_uc _ _ _ _ _ Sh)|rewrite (sh_u _ _ _ _ _ Sh)]; [destruct (same_page _ _)|]; reflexivity.
Qed.
Lemma page1_lookup m root va : 4096 <= va < 8192 -> lookup_va m root va = lookup_va m root 4096.
Proof. intros H. apply same_page_lookup. rewrite same_page_div by lia. apply Z.eqb_eq. zlia. Qed.
Lemma twin_private s va : lookup_va s.(pmem) dirA va = 22 -> private s dirA dirB va.
Proof. intros E q va'. unfold maps. rewrite E. discriminate. Qed.

Lemma copy_out_isolated_witness : exists s s' : mm, copy_out 1 dirA 4100 8192 5 (MkUst s (fun _ => 7)) = Ok (tt, MkUst s' (fun _ => 7)) /\
  ubyte s'.(pmem) dirA 4102 = 7 /\ ubyte s'.(pmem) dirA 4200 = 0 /\ ubyte s'.(pmem) dirB 4102 = 0.
Proof.
  destruct twin_promised as (s & Sp & E & _ & Hf & U & U2).
  destruct (copy_out_isolated s (fun _ => 7) dirA dirB 4100 8192 5 1 1 Sp) as (s' & Ec & _ & V & V2);
    try (unfold USER_TOP; zlia); try (intros; lia).
  { intros va Hva. assert (El : lookup_va s.(pmem) dirA va = 22) by (rewrite page1_lookup by lia; exact E).
    rewrite El. split; [right; repeat split; vm_compute; congruence|]. now apply twin_private. }
  exists s, s'. split; [exact Ec|]. rewrite V2, !V, !U, U2 by (unfold USER_TOP; lia). repeat split; reflexivity.
Defined.
Lemma copy_in_reads_witness : exists (s s' : mm) (km' : mem), copy_in 1 dirA 4100 8192 5 (MkUst s (fun _ => 7)) = Ok (tt, MkUst s' km') /\
  km' 8192 = 0 /\ km' 8197 = 7.
Proof.
  destruct twin_promised as (s & Sp & E & _ & Hf & U & U2).
  destruct (copy_in_reads s (fun _ => 7) dirA dirB 4100 8192 5 1 1 Sp) as (s' & km' & Ec & _ & K & _);
    try (unfold USER_TOP; zlia).
  { intros va Hva. assert (El : lookup_va s.(pmem) dirA va = 22) by (rewrite page1_lookup by lia; exact E).
    rewrite El. right. repeat split; vm_compute; congruence. }
  exists s, s', km'. split; [exact Ec|]. rewrite !K, U. split; reflexivity.
Defined.
Lemma copy_in_str_reads_witness : exists (s s' : mm) (km' : mem), copy_in_str 1 dirA 4100 8192 5 (MkUst s (fun _ => 7)) = Ok (tt, MkUst s' km') /\
  km' 8192 = 0 /\ km' 8193 = 7.
Proof.
  destruct twin_promised as (s & Sp & E & _ & Hf & U & U2).
  destruct (copy_in_str_reads s (fun _ => 7) dirA dirB 4100 8192 5 1 1 Sp) as (s' & km' & Ec & _ & K & _);
    try (unfold USER_TOP; zlia).
  { intros va Hva. pose proof (upto_nul_range (Z.to_nat 5) (fun k => ubyte s.(pmem) dirA (4100 + k)) 0). assert (El : lookup_va s.(pmem) dirA va = 22) by (rewrite page1_lookup by lia; exact E).
    rewrite El. right. repeat split; vm_compute; congruence. }
  exists s, s', km'. split; [exact Ec|]. cbv zeta in K. rewrite !K. rewrite (upto_nul_ext _ _ (fun _ => 0) 0 0) by (intros; apply U).
  split; [|reflexivity]. rewrite U. reflexivity.
Defined.
Lemma copy_in_unmapped_panics_witness : copy_in 1 dirA 4100 8192 5 (MkUst twin_vm (fun _ => 7)) = Err Panic.
Proof.
  apply (copy_in_unmapped_panics twin_vm (fun _ => 7) dirA 4100 8192 5 0); try (unfold USER_TOP; cbn; lia); try reflexivity; apply twin_spaces.
Defined.
