(* ===== verification/Fork.v ===== *)
(** * Walking a page table; what fork does to memory

    [pdWalk] and the two unmapping callbacks of [src/kern/mm/vmtools.c], and
    the step of [proc_fork] ([src/kern/proc/fork.c]) that gives the child the
    parent's memory: [pdWalk(p->p_pt, duppage, NULL, childp->p_pt)].  The walk
    reads the live tables, which its callback changes as it goes. *)

From S2P Require Import Prelude StringLib Pmm Vmm UserMem.
From Stdlib Require Import ZArith Lia Bool.
From stdpp Require Import base tactics numbers list.
Open Scope Z_scope.

(** ** The walk *)

Definition PAGE_INDEX_LEN : Z := 9.
(** A callback gets the directory, an address and the entry's place; one for
    tables gets the directory, the table and its level. *)
Definition pte_callback_t : Type := Z -> Z -> Z -> M mm Z.
Definition pt_callback_t : Type := Z -> Z -> Z -> M mm Z.
(** [unwrap(expr)]: return the error, or go on. *)
Definition unwrap (c k : M mm Z) : M mm Z := let* r := c in if negb (r =? 0) then ret r else k.
Definition walk_va (i j k : Z) : Z :=
  wrap64 (Z.shiftl (Z.shiftl (Z.shiftl i PAGE_INDEX_LEN + j) PAGE_INDEX_LEN + k) PAGE_SHIFT).

Section Walk.
Context (pd : Z) (pte_callback : option pte_callback_t) (pt_callback : option pt_callback_t).
Definition call_pt (pt level : Z) : M mm Z := match pt_callback with Some f => f pd pt level | None => ret 0 end.
Definition call_pte (va pte : Z) : M mm Z := match pte_callback with Some f => f pd va pte | None => ret 0 end.

(** [n] more entries of the third-level table [pt2], from [k]. *)
Fixpoint pdWalk_pt2 (n : nat) (pt2 i j k : Z) : M mm Z :=
  match n with
  | O => ret 0
  | S n' =>
      let* e := rd (pt2 + 8 * k) in
      if negb (e =? 0) then unwrap (call_pte (walk_va i j k) (pt2 + 8 * k)) (pdWalk_pt2 n' pt2 i j (k + 1))
      else pdWalk_pt2 n' pt2 i j (k + 1)
  end.
Fixpoint pdWalk_pt1 (n : nat) (pt1 i j : Z) : M mm Z :=
  match n with
  | O => ret 0
  | S n' =>
      let* e := rd (pt1 + 8 * j) in
      if has e PTE_V then
        let pt2 := pteToPa e in
        unwrap (pdWalk_pt2 512 pt2 i j 0) (unwrap (call_pt pt2 3) (pdWalk_pt1 n' pt1 i (j + 1)))
      else pdWalk_pt1 n' pt1 i (j + 1)
  end.
Fixpoint pdWalk_pd (n : nat) (i : Z) : M mm Z :=
  match n with
  | O => ret 0
  | S n' =>
      let* e := rd (pd + 8 * i) in
      if has e PTE_V then
        let pt1 := pteToPa e in
        unwrap (pdWalk_pt1 512 pt1 i 0) (unwrap (call_pt pt1 2) (pdWalk_pd n' (i + 1)))
      else pdWalk_pd n' (i + 1)
  end.
Definition pdWalk : M mm Z := unwrap (pdWalk_pd 512 0) (unwrap (call_pt pd 1) (ret 0)).
End Walk.

Definition vmUnmapper : pte_callback_t := fun pd target_va _ => ptUnmap pd target_va.
Definition kvmUnmapper : pt_callback_t := fun _ target_pt _ => kvmFree target_pt ;;; ret 0.

(** [pdWalk(p->p_pt, duppage, NULL, childp->p_pt)] of [proc_fork]. *)
Definition duppage_on (childpd : Z) : pte_callback_t := fun pd target_va _ => duppage pd target_va childpd.
Definition fork_memory (p_pt childp_pt : Z) : M mm Z := pdWalk p_pt (Some (duppage_on childp_pt)) None.

(** ** The addresses a walk visits *)

Fixpoint vas3 (n : nat) (m : Z -> Z) (t i j k : Z) : list Z :=
  match n with O => [] | S n' => (if m (t + 8 * k) =? 0 then [] else [walk_va i j k]) ++ vas3 n' m t i j (k + 1) end.
Fixpoint vas2 (n : nat) (m : Z -> Z) (t i j : Z) : list Z :=
  match n with O => [] | S n' => match child m t j with Some t3 => vas3 512 m t3 i j 0 | None => [] end ++ vas2 n' m t i (j + 1) end.
Fixpoint vas1 (n : nat) (m : Z -> Z) (root i : Z) : list Z :=
  match n with O => [] | S n' => match child m root i with Some t => vas2 512 m t i 0 | None => [] end ++ vas1 n' m root (i + 1) end.
Definition walk_vas (m : Z -> Z) (root : Z) : list Z := vas1 512 m root 0.

Lemma walk_va_eq i j k : idx i -> idx j -> idx k -> walk_va i j k = 4096 * (k + 512 * (j + 512 * i)).
Proof.
  unfold idx, walk_va, PAGE_INDEX_LEN, PAGE_SHIFT. intros. rewrite !Z.shiftl_mul_pow2 by lia. change (2 ^ 9) with 512. change (2 ^ 12) with 4096.
  rewrite wrap64_small; lia.
Qed.
Lemma walk_va_range i j k : idx i -> idx j -> idx k -> 0 <= walk_va i j k < USER_TOP.
Proof. intros. rewrite walk_va_eq by auto. unfold idx, USER_TOP in *. lia. Qed.
Lemma PTX_walk i j k : idx i -> idx j -> idx k -> PTX (walk_va i j k) 1 = i /\ PTX (walk_va i j k) 2 = j /\ PTX (walk_va i j k) 3 = k.
Proof.
  intros. rewrite walk_va_eq by auto. unfold idx, PTX in *. change 511 with (Z.ones 9). rewrite !Z.land_ones, !Z.shiftr_div_pow2 by lia.
  change (2 ^ 9) with 512. change (2 ^ (12 + (3 - 1) * 9)) with 1073741824. change (2 ^ (12 + (3 - 2) * 9)) with 2097152.
  change (2 ^ (12 + (3 - 3) * 9)) with 4096. repeat split; zlia.
Qed.
Lemma lookup_walk m root i j k : idx i -> idx j -> idx k -> lookup_va m root (walk_va i j k) = pte_at m root i j k.
Proof. intros Hi Hj Hk. unfold lookup_va. destruct (PTX_walk i j k Hi Hj Hk) as (-> & -> & ->). reflexivity. Qed.

(** Every address with an entry lies on a visited page. *)
Lemma vas3_in n m t i j : forall k k0, k0 <= k < k0 + Z.of_nat n -> m (t + 8 * k) <> 0 -> walk_va i j k ∈ vas3 n m t i j k0.
Proof.
  induction n as [|n IH]; intros k k0 Hk Hm; [lia|]. cbn [vas3]. apply elem_of_app. destruct (Z.eq_dec k k0) as [->|].
  - left. rewrite (proj2 (Z.eqb_neq _ _) Hm). left.
  - right. apply IH; [lia|exact Hm].
Qed.
Lemma vas2_in n m t i : forall j j0 t3 k, j0 <= j < j0 + Z.of_nat n -> idx k -> child m t j = Some t3 -> m (t3 + 8 * k) <> 0 ->
  walk_va i j k ∈ vas2 n m t i j0.
Proof.
  induction n as [|n IH]; intros j j0 t3 k Hj Hk Ht Hm; [lia|]. cbn [vas2]. apply elem_of_app. destruct (Z.eq_dec j j0) as [->|].
  - left. rewrite Ht. apply vas3_in; [unfold idx in Hk; lia|exact Hm].
  - right. apply (IH j _ t3); auto; lia.
Qed.
Lemma vas1_in n m root : forall i i0 t j t3 k, i0 <= i < i0 + Z.of_nat n -> idx j -> idx k -> child m root i = Some t -> child m t j = Some t3 ->
  m (t3 + 8 * k) <> 0 -> walk_va i j k ∈ vas1 n m root i0.
Proof.
  induction n as [|n IH]; intros i i0 t j t3 k Hi Hj Hk Ht Ht3 Hm; [lia|]. cbn [vas1]. apply elem_of_app. destruct (Z.eq_dec i i0) as [->|].
  - left. rewrite Ht. apply (vas2_in _ _ _ _ j _ t3); auto; unfold idx in *; lia.
  - right. apply (IH i _ t j t3); auto; lia.
Qed.
Lemma walk_vas_complete m root va : lookup_va m root va <> 0 ->
  exists va0, va0 ∈ walk_vas m root /\ same_page va0 va = true /\ 0 <= va0 < USER_TOP.
Proof.
  intros H. pose proof (PTX_range va 1) as Hi. pose proof (PTX_range va 2) as Hj. pose proof (PTX_range va 3) as Hk.
  exists (walk_va (PTX va 1) (PTX va 2) (PTX va 3)). split; [|split; [|now apply walk_va_range]].
  - unfold lookup_va, pte_at, tab3 in H. destruct (child m root (PTX va 1)) as [t|] eqn:Et; [|congruence].
    destruct (child m t (PTX va 2)) as [t3|] eqn:Et3; [|congruence]. apply (vas1_in _ _ _ _ _ t _ t3); auto; unfold idx in *; lia.
  - unfold same_page. destruct (PTX_walk _ _ _ Hi Hj Hk) as (-> & -> & ->). now rewrite !Z.eqb_refl.
Qed.

Lemma vas3_sound n m t i j : forall k0 va, va ∈ vas3 n m t i j k0 -> exists k, k0 <= k < k0 + Z.of_nat n /\ va = walk_va i j k /\ m (t + 8 * k) <> 0.
Proof.
  induction n as [|n IH]; intros k0 va H; [now apply not_elem_of_nil in H|]. cbn [vas3] in H. apply elem_of_app in H as [H|H].
  - destruct (Z.eqb_spec (m (t + 8 * k0)) 0); [now apply not_elem_of_nil in H|]. apply list_elem_of_singleton in H as ->. exists k0. split; [lia|]. auto.
  - destruct (IH _ _ H) as (k & Hk & Hv). exists k. split; [lia|exact Hv].
Qed.
Lemma vas2_sound n m t i : forall j0 va, va ∈ vas2 n m t i j0 ->
  exists j t3 k, j0 <= j < j0 + Z.of_nat n /\ idx k /\ va = walk_va i j k /\ child m t j = Some t3 /\ m (t3 + 8 * k) <> 0.
Proof.
  induction n as [|n IH]; intros j0 va H; [now apply not_elem_of_nil in H|]. cbn [vas2] in H. apply elem_of_app in H as [H|H].
  - destruct (child m t j0) as [t3|] eqn:E; [|now apply not_elem_of_nil in H]. destruct (vas3_sound _ _ _ _ _ _ _ H) as (k & Hk & Hv & Hm).
    exists j0, t3, k. split; [lia|]. split; [unfold idx; lia|]. auto.
  - destruct (IH _ _ H) as (j & t3 & k & Hj & Hv). exists j, t3, k. split; [lia|exact Hv].
Qed.
Lemma vas1_sound n m root : forall i0 va, va ∈ vas1 n m root i0 ->
  exists i t j t3 k, i0 <= i < i0 + Z.of_nat n /\ idx j /\ idx k /\ va = walk_va i j k /\ child m root i = Some t /\ child m t j = Some t3 /\ m (t3 + 8 * k) <> 0.
Proof.
  induction n as [|n IH]; intros i0 va H; [now apply not_elem_of_nil in H|]. cbn [vas1] in H. apply elem_of_app in H as [H|H].
  - destruct (child m root i0) as [t|] eqn:E; [|now apply not_elem_of_nil in H]. destruct (vas2_sound _ _ _ _ _ _ H) as (j & t3 & k & Hj & Hk & Hv & Hc & Hm).
    exists i0, t, j, t3, k. split; [lia|]. split; [unfold idx; lia|]. auto 6.
  - destruct (IH _ _ H) as (i & t & j & t3 & k & Hi & Hv). exists i, t, j, t3, k. split; [lia|exact Hv].
Qed.
Lemma walk_vas_sound m root va : va ∈ walk_vas m root -> lookup_va m root va <> 0.
Proof.
  intros H. destruct (vas1_sound _ _ _ _ _ H) as (i & t & j & t3 & k & Hi & Hj & Hk & -> & E1 & E2 & Hm).
  rewrite lookup_walk by (auto; unfold idx; lia). unfold pte_at, tab3. now rewrite E1, E2.
Qed.

(** ** Running a walk *)

(** A walk calls its callback on exactly these addresses, in order, when the
    callback keeps the upper tables and never empties or fills an entry of the
    directory that is walked.  [J l] holds when [l] is left to visit. *)
Section WalkRun.
Context (s0 : mm) (R : Z) (cb : pte_callback_t) (J : list Z -> mm -> Prop).
Context (Jtab : forall l s, J l s -> mm_ok s /\ wf_pt s R /\ dirs_kept s0 s R /\
  forall va, lookup_va s.(pmem) R va = 0 <-> lookup_va s0.(pmem) R va = 0).
Context (Jstep : forall va l s pte, J (va :: l) s -> exists s', cb R va pte s = Ok (0, s') /\ J l s').
Context (W0 : wf_pt s0 R).

Lemma unwrap_run (c k : M mm Z) s s1 : c s = Ok (0, s1) -> unwrap c k s = k s1.
Proof. intros E. unfold unwrap. now rewrite (bind_run _ _ _ _ _ E). Qed.
Lemma pt2_run n : forall k l s t i j, idx i -> idx j -> 0 <= k -> k + Z.of_nat n <= 512 -> tab3 s0.(pmem) R i j = Some t ->
  J (vas3 n s0.(pmem) t i j k ++ l) s -> exists s', pdWalk_pt2 R (Some cb) n t i j k s = Ok (0, s') /\ J l s'.
Proof.
  induction n as [|n IH]; intros k l s t i j Hi Hj Hk Hn Ht HJ; [now exists s|]. cbn [vas3 pdWalk_pt2] in *.
  destruct (Jtab _ _ HJ) as (Hok & W & D & Hz). assert (Hkx : idx k) by (unfold idx; lia).
  assert (Ht' : tab3 s.(pmem) R i j = Some t) by (rewrite <- Ht; now apply (same_tab3 s0 s R)).
  destruct (wf_t3 _ _ W i j t Hi Hj Ht') as (Hf & _).
  rewrite (bind_run _ _ _ _ _ (rd_run s _ (frame_ram s t k (mm_npage _ Hok) Hf Hkx))).
  specialize (Hz (walk_va i j k)). rewrite !lookup_walk in Hz by auto. unfold pte_at in Hz. rewrite Ht, Ht' in Hz.
  destruct (Z.eqb_spec (s0.(pmem) (t + 8 * k)) 0) as [E0|N0].
  - rewrite (proj2 Hz E0). cbn [Z.eqb negb]. apply IH; auto; lia.
  - rewrite (proj2 (Z.eqb_neq (s.(pmem) (t + 8 * k)) 0)) by tauto. cbn [negb]. cbn [app] in HJ.
    destruct (Jstep _ _ _ (t + 8 * k) HJ) as (s1 & E & HJ1). rewrite (unwrap_run _ _ s s1) by exact E. apply IH; auto; lia.
Qed.
Lemma pt1_run n : forall j l s t i, idx i -> 0 <= j -> j + Z.of_nat n <= 512 -> child s0.(pmem) R i = Some t ->
  J (vas2 n s0.(pmem) t i j ++ l) s -> exists s', pdWalk_pt1 R (Some cb) None n t i j s = Ok (0, s') /\ J l s'.
Proof.
  induction n as [|n IH]; intros j l s t i Hi Hj Hn Ht HJ; [now exists s|]. cbn [vas2 pdWalk_pt1] in *.
  destruct (Jtab _ _ HJ) as (Hok & W & D & _). assert (Hjx : idx j) by (unfold idx; lia).
  assert (Ht' : child s.(pmem) R i = Some t) by (rewrite <- Ht; now apply (same_child s0 s R)).
  destruct (wf_t2 _ _ W i t Hi Ht') as (Hf & _).
  rewrite (bind_run _ _ _ _ _ (rd_run s _ (frame_ram s t j (mm_npage _ Hok) Hf Hjx))).
  rewrite (D t j) by (auto; right; eauto). rewrite <- app_assoc in HJ. destruct (child s0.(pmem) t j) as [t3|] eqn:Et3.
  - pose proof Et3 as Et3'. unfold child in Et3'. destruct (has _ PTE_V); [|discriminate]. injection Et3' as ->.
    assert (Ht3 : tab3 s0.(pmem) R i j = Some t3) by (unfold tab3; now rewrite Ht).
    destruct (pt2_run 512 0 _ s t3 i j Hi Hjx ltac:(lia) ltac:(lia) Ht3 HJ) as (s1 & E & HJ1).
    rewrite (unwrap_run _ _ s s1 E), (unwrap_run _ _ s1 s1) by reflexivity. apply IH; auto; lia.
  - unfold child in Et3. destruct (has _ PTE_V); [discriminate|]. apply IH; auto; lia.
Qed.
Lemma pd_run n : forall i l s, 0 <= i -> i + Z.of_nat n <= 512 ->
  J (vas1 n s0.(pmem) R i ++ l) s -> exists s', pdWalk_pd R (Some cb) None n i s = Ok (0, s') /\ J l s'.
Proof.
  induction n as [|n IH]; intros i l s Hi Hn HJ; [now exists s|]. cbn [vas1 pdWalk_pd] in *.
  destruct (Jtab _ _ HJ) as (Hok & W & D & _). assert (Hix : idx i) by (unfold idx; lia).
  rewrite (bind_run _ _ _ _ _ (rd_run s _ (frame_ram s R i (mm_npage _ Hok) (wf_root _ _ W) Hix))).
  rewrite (D R i) by (auto; now left). rewrite <- app_assoc in HJ. destruct (child s0.(pmem) R i) as [t|] eqn:Et.
  - pose proof Et as Et'. unfold child in Et'. destruct (has _ PTE_V); [|discriminate]. injection Et' as ->.
    destruct (pt1_run 512 0 _ s t i Hix ltac:(lia) ltac:(lia) Et HJ) as (s1 & E & HJ1).
    rewrite (unwrap_run _ _ s s1 E), (unwrap_run _ _ s1 s1) by reflexivity. apply IH; auto; lia.
  - unfold child in Et. destruct (has _ PTE_V); [discriminate|]. apply IH; auto; lia.
Qed.
Lemma pdWalk_run s : J (walk_vas s0.(pmem) R) s -> exists s', pdWalk R (Some cb) None s = Ok (0, s') /\ J [] s'.
Proof.
  intros HJ. destruct (pd_run 512 0 [] s ltac:(lia) ltac:(lia)) as (s1 & E & HJ1); [now rewrite app_nil_r|].
  exists s1. split; [|exact HJ1]. unfold pdWalk. rewrite (unwrap_run _ _ s s1 E). reflexivity.
Qed.
End WalkRun.

(** ** Fork *)

Section ForkRun.
Context (s0 : mm) (R C : Z) (extra : nat).

(** A page not reached yet, and one the child has received. *)
Definition pending (s : mm) (va : Z) : Prop :=
  lookup_va s.(pmem) C va = lookup_va s0.(pmem) C va /\ lookup_va s.(pmem) R va = lookup_va s0.(pmem) R va.
Record copied (s : mm) (va : Z) : Prop := {
  cp_new : lookup_va s0.(pmem) C va = 0;
  cp_set : lookup_va s.(pmem) C va <> 0;
  cp_u : ubyte s.(pmem) C va = ubyte s0.(pmem) R va;
  cp_pg : pte_page (lookup_va s.(pmem) R va) = pte_page (lookup_va s0.(pmem) R va);
  cp_pgc : pte_page (lookup_va s.(pmem) C va) = pte_page (lookup_va s0.(pmem) R va);
  cp_perm : PTE_PERM (lookup_va s.(pmem) R va) = fork_perm (PTE_PERM (lookup_va s0.(pmem) R va));
  cp_permc : PTE_PERM (lookup_va s.(pmem) C va) = fork_perm (PTE_PERM (lookup_va s0.(pmem) R va));
  cp_pass : PTE_PASSIVE (lookup_va s0.(pmem) R va) = true ->
    lookup_va s.(pmem) C va = lookup_va s0.(pmem) R va /\ lookup_va s.(pmem) R va = lookup_va s0.(pmem) R va }.
(** [l] is left of the walk. *)
Record forking (l : list Z) (s : mm) : Prop := {
  fk_sp : spaces s R C;
  fk_dir : dirs_kept s0 s R;
  fk_zero : forall va, lookup_va s.(pmem) R va = 0 <-> lookup_va s0.(pmem) R va = 0;
  fk_u : forall va, ubyte s.(pmem) R va = ubyte s0.(pmem) R va;
  fk_uc : forall va, lookup_va s0.(pmem) C va <> 0 -> ubyte s.(pmem) C va = ubyte s0.(pmem) C va;
  fk_state : forall va, pending s va \/ copied s va;
  fk_left : forall va, lookup_va s0.(pmem) R va <> 0 -> lookup_va s0.(pmem) C va = 0 ->
    copied s va \/ exists va0, va0 ∈ l /\ same_page va0 va = true;
  fk_in : forall va, va ∈ l -> lookup_va s0.(pmem) R va <> 0;
  fk_able : forall va, lookup_va s.(pmem) R va <> 0 -> lookup_va s.(pmem) C va = 0 -> forkable s R C va;
  fk_free : (4 * length l + extra <= length s.(pageFreeList))%nat }.

Lemma copied_same s s' va : copied s va -> lookup_va s'.(pmem) C va = lookup_va s.(pmem) C va ->
  lookup_va s'.(pmem) R va = lookup_va s.(pmem) R va -> ubyte s'.(pmem) C va = ubyte s.(pmem) C va -> copied s' va.
Proof. intros [] Ec Er Eu. constructor; rewrite ?Ec, ?Er, ?Eu; auto. Qed.
Lemma pending_zero l s va : forking l s -> lookup_va s.(pmem) C va = 0 -> pending s va.
Proof. intros F H0. destruct (fk_state _ _ F va) as [|Hc]; [assumption|]. exfalso. exact (cp_set _ _ Hc H0). Qed.

(** Pages elsewhere are as forkable as before. *)
Lemma forkable_other s s' va va' : spaces s R C -> shares s s' R C va -> same_page va va' = false -> forkable s R C va' -> forkable s' R C va'.
Proof.
  intros Sp Sh Ev. unfold forkable. rewrite (sh_lk _ _ _ _ _ Sh va' Ev). intros [H|(q & Hq & Hu & Hr & Hn)]; [now left|right].
  exists q. unfold maps at 1. rewrite (sh_lk _ _ _ _ _ Sh va' Ev). split; [exact Hq|]. split; [exact Hu|].
  split; [rewrite (sh_ref _ _ _ _ _ Sh va' q Hq Ev); exact Hr|]. intros v2. unfold maps. destruct (same_page va v2) eqn:Ev2.
  - rewrite (same_page_lookup _ C _ _ Ev2), (sh_pgc _ _ _ _ _ Sh). intros Hq2.
    rewrite (sp_once _ _ _ (ss_this _ _ _ Sp) va va' q Hq2 Hq) in Ev. discriminate.
  - rewrite (sh_lkc _ _ _ _ _ Sh v2 Ev2). apply Hn.
Qed.
(** An entry handed on is not empty. *)
Lemma forked_set s va e' : forkable s R C va -> pte_page e' = pte_page (lookup_va s.(pmem) R va) ->
  (PTE_PASSIVE (lookup_va s.(pmem) R va) = true -> e' = lookup_va s.(pmem) R va) -> e' <> 0.
Proof.
  intros Hfk Hpg Hps ->. unfold forkable in Hfk. destruct Hfk as [[H _]|(q & Hq & _)].
  - specialize (Hps H). rewrite <- Hps in H. discriminate.
  - rewrite Hq in Hpg. discriminate.
Qed.

Lemma fork_step va l s pte : forking (va :: l) s -> exists s', duppage_on C R va pte s = Ok (0, s') /\ forking l s'.
Proof.
  intros F. pose proof F as [Sp D Z0 U Uc St Le In Ab Fr]. cbn [length] in Fr. destruct (Z.eq_dec (lookup_va s.(pmem) C va) 0) as [H0|N0].
  - assert (HR : lookup_va s.(pmem) R va <> 0) by (rewrite Z0; apply In; left). pose proof (Ab va HR H0) as Hfk.
    destruct (duppage_run s R C va Sp ltac:(lia) H0 Hfk) as (s' & E & Sh & Pc & Pr & Pp & Hf). exists s'. split; [exact E|].
    assert (Nc : lookup_va s'.(pmem) C va <> 0) by (apply (forked_set s va _ Hfk); [apply Sh|intros H; now apply Pp]).
    assert (Nr : lookup_va s'.(pmem) R va <> 0) by (apply (forked_set s va _ Hfk); [apply Sh|intros H; now apply Pp]).
    assert (Hcp : forall va', same_page va va' = true -> copied s' va').
    { intros va' Ev. destruct (pending_zero _ _ va' F) as [Ec Er]; [now rewrite (same_page_lookup _ C _ _ Ev)|].
      rewrite !(same_page_lookup _ C _ _ Ev) in Ec. rewrite !(same_page_lookup _ R _ _ Ev) in Er.
      constructor; rewrite ?(same_page_lookup _ R _ _ Ev), ?(same_page_lookup _ C _ _ Ev); rewrite <- ?Er, <- ?Ec; auto.
      - rewrite (sh_uc _ _ _ _ _ Sh), Ev. apply U.
      - apply Sh.
      - apply Sh. }
    constructor.
    + apply Sh.
    + exact (dirs_kept_trans _ _ _ _ D (sh_dir _ _ _ _ _ Sh)).
    + intros va'. rewrite <- Z0. destruct (same_page va va') eqn:Ev; [|now rewrite (sh_lk _ _ _ _ _ Sh)].
      rewrite !(same_page_lookup _ R _ _ Ev). tauto.
    + intros va'. rewrite (sh_u _ _ _ _ _ Sh). apply U.
    + intros va' Hc. rewrite (sh_uc _ _ _ _ _ Sh). destruct (same_page va va') eqn:Ev; [|now apply Uc].
      exfalso. apply Hc. exact (cp_new _ _ (Hcp va' Ev)).
    + intros va'. destruct (same_page va va') eqn:Ev; [right; now apply Hcp|].
      destruct (St va') as [[E1 E2]|Hc]; [left; split; [rewrite (sh_lkc _ _ _ _ _ Sh)|rewrite (sh_lk _ _ _ _ _ Sh)]; auto|].
      right. apply (copied_same s); auto; [now apply Sh|now apply Sh|rewrite (sh_uc _ _ _ _ _ Sh), Ev; reflexivity].
    + intros va' HR' HC'. destruct (same_page va va') eqn:Ev; [left; now apply Hcp|].
      destruct (Le va' HR' HC') as [Hc|(v & Hv & Hs)].
      * left. apply (copied_same s); auto; [now apply Sh|now apply Sh|rewrite (sh_uc _ _ _ _ _ Sh), Ev; reflexivity].
      * right. apply elem_of_cons in Hv as [->|Hv]; [congruence|]. now exists v.
    + intros va' Hv. apply In. now right.
    + intros va'. destruct (same_page va va') eqn:Ev.
      * rewrite (same_page_lookup _ C _ _ Ev). intros _ Hc. contradiction.
      * rewrite (sh_lk _ _ _ _ _ Sh va' Ev), (sh_lkc _ _ _ _ _ Sh va' Ev). intros H1 H2. apply (forkable_other s s' va); auto.
    + lia.
  - exists s. split.
    + unfold duppage_on, duppage. rewrite (bind_run _ _ _ _ _ (lookup_run s C R va (spaces_sym _ _ _ Sp))). now rewrite (proj2 (Z.eqb_neq _ _) N0).
    + constructor; auto; [|intros va' Hv; apply In; now right|lia]. intros va' HR' HC'. destruct (Le va' HR' HC') as [Hc|(v & Hv & Hs)]; [now left|].
      apply elem_of_cons in Hv as [->|Hv]; [left|right; now exists v]. destruct (St va') as [[E1 _]|]; [|assumption].
      rewrite (same_page_lookup _ C _ _ Hs) in E1. congruence.
Qed.

Lemma fork_run : spaces s0 R C -> (4 * length (walk_vas s0.(pmem) R) + extra <= length s0.(pageFreeList))%nat ->
  (forall va, lookup_va s0.(pmem) R va <> 0 -> lookup_va s0.(pmem) C va = 0 -> forkable s0 R C va) ->
  exists s', fork_memory R C s0 = Ok (0, s') /\ forking [] s'.
Proof.
  intros Sp Hf Hfk. pose proof Sp as [Hok _ S1 _].
  apply (pdWalk_run s0 R (duppage_on C) forking); [|exact fork_step|].
  - intros l s [Sp' D Z0 _ _ _ _ _ _ _]. split; [apply Sp'|]. split; [apply Sp'|]. auto.
  - constructor; auto.
    + intros a x _ _. reflexivity.
    + intros va. left. split; reflexivity.
    + intros va HR HC. right. destruct (walk_vas_complete _ _ _ HR) as (v & Hv & Hs & _). now exists v.
    + intros va. apply walk_vas_sound.
Qed.
(** At the end every page the child lacked has been handed on. *)
Lemma forked_all s va : forking [] s -> lookup_va s0.(pmem) R va <> 0 -> lookup_va s0.(pmem) C va = 0 -> copied s va.
Proof. intros F HR HC. destruct (fk_left _ _ F va HR HC) as [|(v & Hv & _)]; [assumption|]. now apply not_elem_of_nil in Hv. Qed.
Lemma forked_ubyte s va : forking [] s -> ubyte s.(pmem) C va = if lookup_va s0.(pmem) C va =? 0 then ubyte s0.(pmem) R va else ubyte s0.(pmem) C va.
Proof.
  intros F. destruct (Z.eqb_spec (lookup_va s0.(pmem) C va) 0) as [HC|HC]; [|now apply (fk_uc _ _ F)].
  destruct (Z.eq_dec (lookup_va s0.(pmem) R va) 0) as [HR|HR]; [|exact (cp_u _ _ (forked_all s va F HR HC))].
  destruct (fk_state _ _ F va) as [[Ec _]|Hc]; [|exact (cp_u _ _ Hc)]. unfold ubyte. rewrite Ec, HC, HR. reflexivity.
Qed.

(** A page that the parent could write can be written by both, and neither
    can write a page of the other, unless it was mapped shared. *)
Lemma copied_writable s va X : copied s va -> forkable s0 R C va -> writable (lookup_va s0.(pmem) R va) -> X = R \/ X = C ->
  writable (lookup_va s.(pmem) X va).
Proof.
  intros Cp Hfk Hw HX. set (e := lookup_va s0.(pmem) R va) in *.
  assert (Hpg : pte_page (lookup_va s.(pmem) X va) = pte_page e) by (destruct HX as [-> | ->]; apply Cp).
  assert (Hpm : PTE_PERM (lookup_va s.(pmem) X va) = fork_perm (PTE_PERM e)) by (destruct HX as [-> | ->]; apply Cp).
  assert (Hps : PTE_PASSIVE e = true -> lookup_va s.(pmem) X va = e) by (intros H; destruct (cp_pass _ _ Cp H); destruct HX as [-> | ->]; auto).
  unfold forkable in Hfk. fold e in Hfk. destruct Hfk as [[H _]|(q & Hq & Hu & _)]; [now rewrite (Hps H)|].
  left. split; [exists q; now rewrite Hpg|]. unfold maps in Hq. fold e in Hq.
  assert (Hb : forall n, 0 <= n < 10 -> has (lookup_va s.(pmem) X va) (2 ^ n) = Z.testbit (fork_perm (PTE_PERM e)) n).
  { intros n Hn. rewrite <- has_perm, Hpm, has_bit by lia. reflexivity. }
  change PTE_W with (2 ^ 2). change PTE_U with (2 ^ 4). change PTE_COW with (2 ^ 8). rewrite !Hb, !fork_bit, !perm_bit, <- !has_bit by lia.
  destruct (fork_cow (PTE_PERM e)); [right; split; [exact Hu|reflexivity]|].
  destruct Hw as [[_ Hw]|(Hp & _)]; [exact Hw|]. unfold PTE_PASSIVE in Hp. rewrite (pte_page_V e q Hq) in Hp. discriminate.
Qed.
Lemma copied_private s va X Y : copied s va -> forkable s0 R C va -> has (lookup_va s0.(pmem) R va) PTE_W && has (lookup_va s0.(pmem) R va) PTE_SHARED = false ->
  X = R \/ X = C -> private s X Y va.
Proof.
  intros Cp Hfk Hsh HX q va' Hq Hw. exfalso. set (e := lookup_va s0.(pmem) R va) in *.
  assert (Hpg : pte_page (lookup_va s.(pmem) X va) = pte_page e) by (destruct HX as [-> | ->]; apply Cp).
  assert (Hpm : PTE_PERM (lookup_va s.(pmem) X va) = fork_perm (PTE_PERM e)) by (destruct HX as [-> | ->]; apply Cp).
  unfold maps in Hq. rewrite Hpg in Hq. unfold forkable in Hfk. fold e in Hfk.
  pose proof (pte_page_V e q Hq) as HV. destruct Hfk as [[H _]|(_ & _ & Hu & _)]; [unfold PTE_PASSIVE in H; rewrite HV in H; discriminate|].
  change PTE_W with (2 ^ 2) in Hw. rewrite <- has_perm, Hpm, has_bit, fork_bit in Hw by lia.
  assert (Hb : forall n, 0 <= n < 10 -> has (PTE_PERM e) (2 ^ n) = has e (2 ^ n)) by (intros; now apply has_perm).
  destruct (fork_cow (PTE_PERM e)) eqn:Ec; [discriminate|]. rewrite perm_bit, <- has_bit in Hw by lia.
  unfold fork_cow, PTE_PASSIVE in Ec. change PTE_V with (2 ^ 0) in *. change PTE_W with (2 ^ 2) in *. change PTE_U with (2 ^ 4) in *.
  change PTE_SHARED with (2 ^ 9) in *. rewrite !Hb, HV, Hw, Hu in Ec by lia. rewrite Hw in Hsh. cbn [andb negb] in *.
  destruct (has e (2 ^ 9)); discriminate.
Qed.
End ForkRun.



(** A parent with one page of its own, and a child with an empty directory. *)
Definition paged_vm : mm := match ptMap dirA 4096 (frame 70) 22 twin_vm with Ok (_, s) => s | Err _ => twin_vm end.
Lemma paged_facts : spaces paged_vm dirA dirB /\ (forall va, lookup_va paged_vm.(pmem) dirB va = 0) /\
  (forall va, lookup_va paged_vm.(pmem) dirA va = if same_page 4096 va then mk_pte (frame 70) 22 else 0) /\
  paged_vm.(page_ref) 70 = 1 /\ (forall va, ~ maps paged_vm.(pmem) dirB va 70).
Proof.
  assert (Hu : in_use twin_vm 70) by (split; [cbn; lia|intros Hp%twin_free; lia]).
  destruct (ptMap_spaces twin_vm dirA dirB 4096 70 22 twin_spaces) as (s & E & Mi); try lia; auto.
  - change (pageFreeList twin_vm) with (seqZ 10 50). rewrite length_seqZ. lia.
  - cbn. lia.
  - intros H%twin_table. unfold dirA, frame in H. lia.
  - intros H%twin_table. unfold dirB, frame in H. lia.
  - intros H. discriminate.
  - intros va H. discriminate.
  - unfold paged_vm. rewrite E. pose proof (same_tables_lookup _ _ _ (mi_t2 _ _ _ _ _ _ _ Mi)) as L.
    split; [apply Mi|]. split; [intros va; rewrite L; reflexivity|]. split; [intros va; rewrite (mi_lk _ _ _ _ _ _ _ Mi); reflexivity|].
    split; [rewrite (mi_ref _ _ _ _ _ _ _ Mi 70 Hu); reflexivity|]. intros va. unfold maps. rewrite L. discriminate.
Qed.
Lemma paged_forkable va : lookup_va paged_vm.(pmem) dirA va <> 0 -> forkable paged_vm dirA dirB va.
Proof.
  destruct paged_facts as (_ & _ & L & Hr & Hn). unfold forkable, maps at 1. rewrite L. destruct (same_page 4096 va); [|congruence]. intros _. right.
  exists 70. rewrite Hr. split; [reflexivity|]. split; [reflexivity|]. split; [lia|exact Hn].
Qed.
Lemma paged_room : (4 * length (walk_vas paged_vm.(pmem) dirA) + 3 * 1 <= length paged_vm.(pageFreeList))%nat.
Proof. vm_compute. lia. Qed.
