(* ===== verification/Proc.v ===== *)
(** * Processes: creation, exit and wait

    [src/kern/proc/proc.c], [wait.c], [proc_init] of [procinit.c], the parts of
    [fork.c] and of [td_destroy] in [thread.c] that concern processes.  A
    [proc_t *] is its index in [procs] plus one, [0] is [NULL].  Everything a
    call does while it holds [wait_lock] is one step, since [wait] holds it
    until [sleep] has released it; a call that sleeps is resumed by a step of
    its own.  A thread that sleeps on a channel has it in [chan]; [wakeup]
    makes all of them awake.  The status word that [wait] copies out and the
    signals sent are logs.  Page tables, descriptors and signal handlers of a
    process ([proc_recycle], [fork_thread_fs], [sigaction_clone]) are not part
    of this state. *)

From S2P Require Import Prelude Sched.
From Stdlib Require Import ZArith Lia Bool.
From stdpp Require Import base tactics numbers list.
Open Scope Z_scope.

(** ** Data *)

Record times_t : Type := MkTimes { tms_utime : Z; tms_stime : Z; tms_cutime : Z; tms_cstime : Z }.
Record proc_t : Type := MkProc {
  p_status : state_t;
  p_pid : Z;
  p_exitcode : Z;
  p_times : times_t;
  p_parent : Z;
  p_children : list Z;
  p_threads : list Z
}.
(** Where a thread is: free, running, or in [wait] for any child or for one. *)
Inductive where_t : Type := Free | Run | WaitAny (pid pstatus options : Z) | WaitFor (childp pstatus : Z).
Record pst : Type := MkPst {
  procs : Z -> proc_t;
  proc_freelist : list Z;
  pid_cnt : Z;
  td_proc : Z -> Z;
  at_ : Z -> where_t;
  chan : Z -> option Z;
  status_out : list (Z * Z * Z);
  sigs : list (Z * Z)
}.
Definition set_procs f s := MkPst f s.(proc_freelist) s.(pid_cnt) s.(td_proc) s.(at_) s.(chan) s.(status_out) s.(sigs).
Definition set_plist l s := MkPst s.(procs) l s.(pid_cnt) s.(td_proc) s.(at_) s.(chan) s.(status_out) s.(sigs).
Definition set_pcnt n s := MkPst s.(procs) s.(proc_freelist) n s.(td_proc) s.(at_) s.(chan) s.(status_out) s.(sigs).
Definition set_tdproc td p s := MkPst s.(procs) s.(proc_freelist) s.(pid_cnt) (upd s.(td_proc) td p) s.(at_) s.(chan) s.(status_out) s.(sigs).
Definition set_at td w s := MkPst s.(procs) s.(proc_freelist) s.(pid_cnt) s.(td_proc) (upd s.(at_) td w) s.(chan) s.(status_out) s.(sigs).
Definition set_chan f s := MkPst s.(procs) s.(proc_freelist) s.(pid_cnt) s.(td_proc) s.(at_) f s.(status_out) s.(sigs).
Definition out_status x s := MkPst s.(procs) s.(proc_freelist) s.(pid_cnt) s.(td_proc) s.(at_) s.(chan) (x :: s.(status_out)) s.(sigs).
Definition sig_send_proc p sig s := MkPst s.(procs) s.(proc_freelist) s.(pid_cnt) s.(td_proc) s.(at_) s.(chan) s.(status_out) ((p, sig) :: s.(sigs)).
Definition upd_proc (p : Z) (f : proc_t -> proc_t) : M pst unit := modify (fun s => set_procs (upd s.(procs) p (f (s.(procs) p))) s).

Definition with_pstatus st x := MkProc st x.(p_pid) x.(p_exitcode) x.(p_times) x.(p_parent) x.(p_children) x.(p_threads).
Definition with_exit code x := MkProc ZOMBIE x.(p_pid) code x.(p_times) x.(p_parent) x.(p_children) x.(p_threads).
Definition with_ptimes t x := MkProc x.(p_status) x.(p_pid) x.(p_exitcode) t x.(p_parent) x.(p_children) x.(p_threads).
Definition with_parent p x := MkProc x.(p_status) x.(p_pid) x.(p_exitcode) x.(p_times) p x.(p_children) x.(p_threads).
Definition with_children l x := MkProc x.(p_status) x.(p_pid) x.(p_exitcode) x.(p_times) x.(p_parent) l x.(p_threads).
Definition with_threads l x := MkProc x.(p_status) x.(p_pid) x.(p_exitcode) x.(p_times) x.(p_parent) x.(p_children) l.

Definition ECHILD : Z := 10.
Definition SIGCHLD : Z := 17.
Definition WNOHANG : Z := 1.
Definition WAIT_NOHANG_EXIT : Z := 0.
Definition PID_GENERATE (cnt index : Z) : Z := Z.lor index (Z.shiftl (cnt mod 4096) 16).
Definition PID_TO_INDEX (pid : Z) : Z := Z.land pid 65535.
Definition PID_INIT : Z := PID_GENERATE 1 0.
Definition INIT_PROC : Z := PID_TO_INDEX PID_INIT + 1.

(** ** Creation *)

(** Pushes the processes [n .. 1]. *)
Fixpoint proc_init_loop (n : nat) (s : pst) : pst :=
  match n with
  | O => s
  | S n' =>
      let p := Z.of_nat n in
      let x := s.(procs) p in
      proc_init_loop n' (set_procs (upd s.(procs) p (MkProc x.(p_status) x.(p_pid) x.(p_exitcode) x.(p_times) 0 [] []))
                           (set_plist (p :: s.(proc_freelist)) s))
  end.
Definition proc_init (NPROC : Z) (s : pst) : pst := proc_init_loop (Z.to_nat NPROC) (set_plist [] s).

Definition pid_alloc (p : Z) : M pst Z := fun s =>
  let cnt := wrap64 (s.(pid_cnt) + 1) in Ok (PID_GENERATE cnt (p - 1), set_pcnt cnt s).

(** The zeroed range starts at [p_times], behind [p_exitcode]. *)
Definition proc_alloc : M pst Z :=
  let* q := gets proc_freelist in
  match q with
  | [] => fail Panic
  | p :: q' =>
      modify (set_plist q') ;;;
      upd_proc p (with_pstatus USED) ;;;
      let* pid := pid_alloc p in
      upd_proc p (fun x => MkProc x.(p_status) pid x.(p_exitcode) (MkTimes 0 0 0 0) x.(p_parent) x.(p_children) x.(p_threads)) ;;;
      ret p
  end.

Definition proc_addtd (p td : Z) : M pst unit :=
  modify (set_tdproc td p) ;;;
  upd_proc p (fun x => with_threads (td :: x.(p_threads)) x).

(** [proc_create] with the thread [td] from [td_alloc]. *)
Definition proc_create (td : Z) : M pst unit :=
  let* p := proc_alloc in
  proc_addtd p td ;;;
  modify (set_at td Run).

(** [proc_fork] by [td], with the thread [childtd] from [td_alloc]. *)
Definition proc_fork (td childtd : Z) : M pst Z :=
  let* p := gets (fun s => s.(td_proc) td) in
  let* childp := proc_alloc in
  proc_addtd childp childtd ;;;
  upd_proc childp (with_parent p) ;;;
  upd_proc p (fun x => with_children (childp :: x.(p_children)) x) ;;;
  modify (set_at childtd Run) ;;;
  let* x := gets (fun s => s.(procs) childp) in
  ret x.(p_pid).

(** The part of [td_fork] that adds a thread to the process of [td]. *)
Definition td_fork (td childtd : Z) : M pst unit :=
  let* p := gets (fun s => s.(td_proc) td) in
  proc_addtd p childtd ;;;
  modify (set_at childtd Run).

(** ** Exit *)

Definition proc_free (p : Z) : M pst unit :=
  upd_proc p (fun x => MkProc UNUSED 0 x.(p_exitcode) x.(p_times) 0 x.(p_children) x.(p_threads)) ;;;
  modify (fun s => set_plist (p :: s.(proc_freelist)) s).

Definition wakeup_proc (ch : Z) : M pst unit :=
  modify (fun s => set_chan (fun td => if bool_decide (s.(chan) td = Some ch) then None else s.(chan) td) s).

(** [LIST_UNTIL_EMPTY]: the first child each time, [n] at most. *)
Fixpoint drop_children (n : nat) (p : Z) : M pst unit :=
  let* l := gets (fun s => (s.(procs) p).(p_children)) in
  match l with
  | [] => ret tt
  | child :: l' =>
      match n with
      | O => fail NoFuel
      | S n' =>
          upd_proc p (with_children l') ;;;
          let* c := gets (fun s => s.(procs) child) in
          (if bool_decide (c.(p_status) = ZOMBIE) then
             upd_proc p (fun x => with_ptimes (MkTimes x.(p_times).(tms_utime) x.(p_times).(tms_stime)
               (wrap64 (x.(p_times).(tms_cutime) + c.(p_times).(tms_utime))) (wrap64 (x.(p_times).(tms_cstime) + c.(p_times).(tms_stime)))) x) ;;;
             proc_free child
           else upd_proc child (with_parent INIT_PROC)) ;;;
          drop_children n' p
      end
  end.

Definition proc_destroy (p exitcode : Z) : M pst unit :=
  upd_proc p (with_exit exitcode) ;;;
  let* l := gets (fun s => (s.(procs) p).(p_children)) in
  drop_children (length l) p ;;;
  let* x := gets (fun s => s.(procs) p) in
  if negb (x.(p_pid) =? PID_INIT) && negb (x.(p_parent) =? 0) then
    modify (sig_send_proc x.(p_parent) SIGCHLD) ;;;
    wakeup_proc x.(p_parent)
  else ret tt.

(** [td_destroy]: whether [td] is the last thread is found out in one section,
    and acted upon in another. *)
Definition td_destroy_check (td : Z) : M pst bool :=
  let* p := gets (fun s => s.(td_proc) td) in
  let* x := gets (fun s => s.(procs) p) in
  ret (bool_decide (head x.(p_threads) = last x.(p_threads))).
Definition td_destroy_finish (td exitcode : Z) (is_last_thread : bool) : M pst unit :=
  let* p := gets (fun s => s.(td_proc) td) in
  let* x := gets (fun s => s.(procs) p) in
  match queue_remove td x.(p_threads) with
  | None => fail Undef
  | Some l =>
      upd_proc p (with_threads l) ;;;
      (if is_last_thread then proc_destroy p exitcode else ret tt) ;;;
      modify (set_tdproc td 0) ;;;
      modify (set_at td Free)
  end.
Definition td_destroy (td exitcode : Z) : M pst unit :=
  let* is_last_thread := td_destroy_check td in
  td_destroy_finish td exitcode is_last_thread.

(** ** Wait *)

(** [wstatus_t] with [bits.high8] set. *)
Definition wstatus (exitcode : Z) : Z := Z.shiftl (exitcode mod 256) 8.

(** [LIST_REMOVE(childp, p_sibling)]: a process that is in no list has a stale
    link. *)
Definition remove_sibling (childp : Z) : M pst unit :=
  let* c := gets (fun s => s.(procs) childp) in
  let* x := gets (fun s => s.(procs) c.(p_parent)) in
  match queue_remove childp x.(p_children) with
  | None => fail Undef
  | Some l => upd_proc c.(p_parent) (with_children l)
  end.

Definition wait_exit (td childp pstatus : Z) : M pst Z :=
  let* p := gets (fun s => s.(td_proc) td) in
  let* c := gets (fun s => s.(procs) childp) in
  (if negb (pstatus =? 0) then modify (out_status (p, pstatus, wstatus c.(p_exitcode))) else ret tt) ;;;
  upd_proc p (fun x => with_ptimes (MkTimes x.(p_times).(tms_utime) x.(p_times).(tms_stime)
    (wrap64 (x.(p_times).(tms_cutime) + c.(p_times).(tms_utime))) (wrap64 (x.(p_times).(tms_cstime) + c.(p_times).(tms_stime)))) x) ;;;
  remove_sibling childp ;;;
  proc_free childp ;;;
  modify (set_at td Run) ;;;
  ret c.(p_pid).

(** [sleep] on the own process; [None] is a call that has not returned. *)
Definition sleep_on (td p : Z) (w : where_t) : M pst (option Z) :=
  modify (set_at td w) ;;;
  modify (fun s => set_chan (upd s.(chan) td (Some p)) s) ;;;
  ret None.
Definition return_ (td v : Z) : M pst (option Z) := modify (set_at td Run) ;;; ret (Some v).

Definition wait_til_loop (td childp pstatus : Z) : M pst (option Z) :=
  let* p := gets (fun s => s.(td_proc) td) in
  let* c := gets (fun s => s.(procs) childp) in
  if bool_decide (c.(p_status) = ZOMBIE) then let* pid := wait_exit td childp pstatus in ret (Some pid)
  else sleep_on td p (WaitFor childp pstatus).
Definition wait_til_exit (td childp pstatus options : Z) : M pst (option Z) :=
  if negb (Z.land options WNOHANG =? 0) then return_ td WAIT_NOHANG_EXIT
  else wait_til_loop td childp pstatus.

(** The first child of the list that [wait] acts on. *)
Fixpoint wait_scan (s : pst) (pid : Z) (l : list Z) : option Z :=
  match l with
  | [] => None
  | childp :: l' =>
      let c := s.(procs) childp in
      if negb (pid =? -1) && (pid =? c.(p_pid)) then Some childp
      else if (pid =? -1) && bool_decide (c.(p_status) = ZOMBIE) then Some childp
      else wait_scan s pid l'
  end.

(** One turn of the loop of [wait]. *)
Definition wait_loop (td pid pstatus options : Z) : M pst (option Z) :=
  let* p := gets (fun s => s.(td_proc) td) in
  let* found := gets (fun s => wait_scan s pid (s.(procs) p).(p_children)) in
  match found with
  | Some childp =>
      if negb (pid =? -1) then
        let* c := gets (fun s => s.(procs) childp) in
        massert (negb (bool_decide (c.(p_status) = UNUSED))) ;;;
        wait_til_exit td childp pstatus options
      else let* r := wait_exit td childp pstatus in ret (Some r)
  | None =>
      if negb (pid =? -1) then return_ td (- ECHILD)
      else if negb (Z.land options WNOHANG =? 0) then return_ td WAIT_NOHANG_EXIT
      else sleep_on td p (WaitAny pid pstatus options)
  end.
Definition wait (td pid pstatus options : Z) : M pst (option Z) :=
  let* p := gets (fun s => s.(td_proc) td) in
  let* x := gets (fun s => s.(procs) p) in
  match x.(p_children) with
  | [] => return_ td (- ECHILD)
  | _ => wait_loop td pid pstatus options
  end.
(** A thread that was woken in [wait] goes on. *)
Definition wait_resume (td : Z) : M pst (option Z) :=
  let* w := gets (fun s => s.(at_) td) in
  match w with
  | WaitAny pid pstatus options => wait_loop td pid pstatus options
  | WaitFor childp pstatus => wait_til_loop td childp pstatus
  | _ => fail Undef
  end.

(** ** The system at work *)

(** Processes with one thread each; threads come from [td_alloc] and go back
    when they exit; the first process does not exit.  A signal may wake a
    sleeper at any time. *)
Section System.
Variable NPROC : Z.

Definition waiting (w : where_t) : bool := match w with WaitAny _ _ _ | WaitFor _ _ => true | _ => false end.
Inductive pstep (s : pst) : pst -> Prop :=
| s_create td s' : s.(at_) td = Free -> proc_create td s = Ok (tt, s') -> pstep s s'
| s_fork td childtd pid s' : s.(at_) td = Run -> s.(at_) childtd = Free -> proc_fork td childtd s = Ok (pid, s') -> pstep s s'
| s_exit td code s' : s.(at_) td = Run -> s.(td_proc) td <> INIT_PROC -> td_destroy td code s = Ok (tt, s') -> pstep s s'
| s_wait td pid pstatus options r s' : s.(at_) td = Run -> wait td pid pstatus options s = Ok (r, s') -> pstep s s'
| s_resume td r s' : s.(chan) td = None -> waiting (s.(at_) td) = true -> wait_resume td s = Ok (r, s') -> pstep s s'
| s_signal td : pstep s (set_chan (upd s.(chan) td None) s).
Inductive preach (s0 : pst) : pst -> Prop :=
| pr_refl : preach s0 s0
| pr_step s s' : preach s0 s -> pstep s s' -> preach s0 s'.

Definition slot (p : Z) : Prop := 1 <= p <= NPROC.
Record pinv (s : pst) : Prop := {
  i_nodup : NoDup s.(proc_freelist);
  i_free : forall p, p ∈ s.(proc_freelist) <-> slot p /\ (s.(procs) p).(p_status) = UNUSED;
  i_status : forall p, slot p -> let st := (s.(procs) p).(p_status) in st = UNUSED \/ st = USED \/ st = ZOMBIE;
  i_child : forall p c, slot p -> c ∈ (s.(procs) p).(p_children) ->
    slot c /\ c <> p /\ (s.(procs) c).(p_parent) = p /\ (s.(procs) c).(p_status) <> UNUSED /\ (s.(procs) p).(p_status) = USED;
  i_cnodup : forall p, slot p -> NoDup (s.(procs) p).(p_children);
  i_td : forall td, s.(at_) td <> Free -> let p := s.(td_proc) td in
    slot p /\ (s.(procs) p).(p_status) = USED /\ (s.(procs) p).(p_threads) = [td];
  i_threads : forall p td, slot p -> td ∈ (s.(procs) p).(p_threads) -> (s.(procs) p).(p_status) = USED /\ s.(td_proc) td = p /\ s.(at_) td <> Free;
  i_pid : forall p, slot p -> (s.(procs) p).(p_status) <> UNUSED -> PID_TO_INDEX (s.(procs) p).(p_pid) = p - 1;
  i_chan : forall td ch, s.(chan) td = Some ch -> waiting (s.(at_) td) = true /\ ch = s.(td_proc) td;
  i_any : forall td pid ps o, s.(at_) td = WaitAny pid ps o -> pid = -1;
  i_for : forall td c ps, s.(at_) td = WaitFor c ps -> c ∈ (s.(procs) (s.(td_proc) td)).(p_children);
  i_sleep : forall td ch c, s.(chan) td = Some ch -> c ∈ (s.(procs) ch).(p_children) ->
    (forall c' ps, s.(at_) td = WaitFor c' ps -> c = c') -> (s.(procs) c).(p_status) <> ZOMBIE }.

(** *** What the steps do *)

Definition freed (x : proc_t) : proc_t := MkProc UNUSED 0 x.(p_exitcode) x.(p_times) 0 x.(p_children) x.(p_threads).
Definition is_zombie (s : pst) (c : Z) : bool := bool_decide ((s.(procs) c).(p_status) = ZOMBIE).
(** Everything but the processes and their free list is as it was. *)
Record same_rest (s s' : pst) : Prop := {
  sr_cnt : s'.(pid_cnt) = s.(pid_cnt);
  sr_tdproc : s'.(td_proc) = s.(td_proc);
  sr_at : s'.(at_) = s.(at_);
  sr_chan : s'.(chan) = s.(chan) }.
Lemma same_rest_trans s1 s2 s3 : same_rest s1 s2 -> same_rest s2 s3 -> same_rest s1 s3.
Proof. intros [] []. constructor; congruence. Qed.

(** One child off the list. *)
Lemma drop_one p c l' s : (s.(procs) p).(p_children) = c :: l' -> c <> p ->
  exists t s1, (forall n, drop_children (S n) p s = drop_children n p s1) /\ same_rest s s1 /\
    s1.(procs) p = with_ptimes t (with_children l' (s.(procs) p)) /\
    s1.(procs) c = (if is_zombie s c then freed (s.(procs) c) else with_parent INIT_PROC (s.(procs) c)) /\
    (forall q, q <> p -> q <> c -> s1.(procs) q = s.(procs) q) /\
    s1.(proc_freelist) = (if is_zombie s c then [c] else []) ++ s.(proc_freelist).
Proof.
  intros El Hcp. unfold is_zombie. destruct (bool_decide ((s.(procs) c).(p_status) = ZOMBIE)) eqn:Ez.
  - eexists _, _. split; [|split; [|split; [|split; [|split]]]].
    + intros n. cbn [drop_children]. unfold bind, gets, upd_proc, modify, proc_free. rewrite El. cbn [procs set_procs]. rewrite (upd_ne _ p _ c) by exact Hcp. rewrite Ez.
      cbn [procs set_procs set_plist proc_freelist]. reflexivity.
    + now constructor.
    + cbn [procs set_procs set_plist]. rewrite (upd_ne _ c) by auto. rewrite !upd_eq. cbn [with_children p_times]. reflexivity.
    + cbn [procs set_procs set_plist]. rewrite upd_eq, !(upd_ne _ p) by auto. reflexivity.
    + intros q Hq Hqc. cbn [procs set_procs set_plist]. now rewrite !upd_ne by auto.
    + reflexivity.
  - exists (s.(procs) p).(p_times). eexists _. split; [|split; [|split; [|split; [|split]]]].
    + intros n. cbn [drop_children]. unfold bind, gets, upd_proc, modify. rewrite El. cbn [procs set_procs]. rewrite (upd_ne _ p _ c) by exact Hcp. rewrite Ez.
      cbn [procs set_procs]. reflexivity.
    + now constructor.
    + cbn [procs set_procs]. rewrite (upd_ne _ c), upd_eq by auto. reflexivity.
    + cbn [procs set_procs]. rewrite upd_eq, !(upd_ne _ p) by auto. reflexivity.
    + intros q Hq Hqc. cbn [procs set_procs]. now rewrite !upd_ne by auto.
    + reflexivity.
Qed.
Lemma drop_children_run p : forall n s, let l := (s.(procs) p).(p_children) in n = length l -> NoDup l -> p ∉ l ->
  exists t s', drop_children n p s = Ok (tt, s') /\ same_rest s s' /\
    s'.(procs) p = with_ptimes t (with_children [] (s.(procs) p)) /\
    (forall q, q <> p -> s'.(procs) q = if bool_decide (q ∈ l) then
       if is_zombie s q then freed (s.(procs) q) else with_parent INIT_PROC (s.(procs) q) else s.(procs) q) /\
    s'.(proc_freelist) = rev (List.filter (is_zombie s) l) ++ s.(proc_freelist).
Proof.
  induction n as [|n IH]; intros s l Hn Hnd Hp.
  - destruct l as [|] eqn:El; [|discriminate]. exists (s.(procs) p).(p_times), s. subst l. cbn [drop_children]. unfold bind, gets. rewrite El.
    split; [reflexivity|]. split; [now constructor|]. split; [|split; [intros q _; now rewrite bool_decide_eq_false_2 by apply not_elem_of_nil|reflexivity]].
    unfold with_ptimes, with_children. cbn. rewrite <- El at 1. now destruct (s.(procs) p).
  - destruct l as [|c l'] eqn:El; [discriminate|]. subst l. apply NoDup_cons in Hnd as [Hc Hnd]. apply not_elem_of_cons in Hp as [Hcp Hp]. injection Hn as Hn.
    destruct (drop_one p c l' s El) as (t1 & s1 & E1 & R1 & P1 & C1 & O1 & F1); [auto|]. rewrite E1.
    assert (El1 : (s1.(procs) p).(p_children) = l') by now rewrite P1.
    destruct (IH s1) as (t & s' & E & R & P & O & F); [now rewrite El1|now rewrite El1|now rewrite El1|]. rewrite El1 in O, F.
    exists t, s'. split; [exact E|]. split; [exact (same_rest_trans _ _ _ R1 R)|].
    assert (Hz : forall q, q ∈ l' -> is_zombie s1 q = is_zombie s q).
    { intros q Hq. unfold is_zombie. rewrite O1; [reflexivity| |]; intros ->; contradiction. }
    split; [rewrite P, P1; reflexivity|]. split.
    + intros q Hq. rewrite O by exact Hq. destruct (decide (q = c)) as [->|Hqc].
      * rewrite (bool_decide_eq_false_2 _ Hc), (bool_decide_eq_true_2 (c ∈ c :: l')) by left. exact C1.
      * rewrite O1 by auto. destruct (decide (q ∈ l')) as [Hin|Hin].
        -- rewrite !bool_decide_eq_true_2 by (try right; exact Hin). now rewrite Hz.
        -- rewrite !bool_decide_eq_false_2; [reflexivity| |exact Hin]. now apply not_elem_of_cons.
    + rewrite F, F1. cbn [List.filter]. rewrite (List.filter_ext_in (is_zombie s1) (is_zombie s) l') by (intros q Hq; apply Hz; now apply list_elem_of_In).
      destruct (is_zombie s c); cbn [rev app]; now rewrite <- ?app_assoc.
Qed.

Lemma pid_index cnt i : 0 <= i < 65536 -> PID_TO_INDEX (PID_GENERATE cnt i) = i.
Proof.
  intros Hi. unfold PID_TO_INDEX, PID_GENERATE. apply Z.bits_inj'. intros n Hn. change 65535 with (Z.ones 16).
  rewrite Z.land_spec, Z.lor_spec, Z.shiftl_spec by lia. destruct (Z.lt_ge_cases n 16) as [H|H].
  - rewrite Z.ones_spec_low, (Z.testbit_neg_r _ (n - 16)), orb_false_r, andb_true_r by lia. reflexivity.
  - rewrite Z.ones_spec_high, andb_false_r by lia. destruct (Z.eq_dec i 0) as [->|]; [now rewrite Z.bits_0|].
    symmetry. apply Z.bits_above_log2; [lia|]. apply Z.log2_lt_pow2; [lia|]. apply Z.lt_le_trans with (2 ^ 16); [lia|]. apply Z.pow_le_mono_r; lia.
Qed.
Lemma proc_destroy_run p code s : let x := s.(procs) p in let l := x.(p_children) in NoDup l -> p ∉ l -> x.(p_pid) <> PID_INIT ->
  exists t s', proc_destroy p code s = Ok (tt, s') /\
    s'.(procs) p = MkProc ZOMBIE x.(p_pid) code t x.(p_parent) [] x.(p_threads) /\
    (forall q, q <> p -> s'.(procs) q = if bool_decide (q ∈ l) then
       if is_zombie s q then freed (s.(procs) q) else with_parent INIT_PROC (s.(procs) q) else s.(procs) q) /\
    s'.(proc_freelist) = rev (List.filter (is_zombie s) l) ++ s.(proc_freelist) /\
    s'.(pid_cnt) = s.(pid_cnt) /\ s'.(td_proc) = s.(td_proc) /\ s'.(at_) = s.(at_) /\
    (forall td, s'.(chan) td = if bool_decide (x.(p_parent) <> 0 /\ s.(chan) td = Some x.(p_parent)) then None else s.(chan) td).
Proof.
  intros x l Hnd Hp Hpid. unfold proc_destroy. set (s1 := set_procs (upd s.(procs) p (with_exit code x)) s).
  rewrite (bind_run _ _ s tt s1) by reflexivity.
  assert (E1 : s1.(procs) p = with_exit code x) by apply upd_eq. assert (Ec : (s1.(procs) p).(p_children) = l) by now rewrite E1.
  rewrite (bind_run _ _ s1 l s1) by (unfold gets; now rewrite Ec).
  destruct (drop_children_run p (length l) s1) as (t & s2 & E & R & P & O & F); [now rewrite Ec|now rewrite Ec|now rewrite Ec|].
  rewrite Ec in O, F. rewrite (bind_run _ _ _ _ _ E), (bind_run _ _ s2 (s2.(procs) p) s2) by reflexivity. rewrite P, E1. cbn [p_pid p_parent with_ptimes with_children with_exit].
  assert (Hz : forall q, q ∈ l -> is_zombie s1 q = is_zombie s q).
  { intros q Hq. unfold is_zombie, s1. cbn [procs set_procs]. rewrite upd_ne; [reflexivity|]. intros ->. contradiction. }
  assert (O' : forall q, q <> p -> s2.(procs) q = if bool_decide (q ∈ l) then
       if is_zombie s q then freed (s.(procs) q) else with_parent INIT_PROC (s.(procs) q) else s.(procs) q).
  { intros q Hq. rewrite O by exact Hq. unfold s1 at 2 3 4. cbn [procs set_procs]. rewrite upd_ne by exact Hq.
    destruct (decide (q ∈ l)) as [Hin|Hin]; [rewrite !bool_decide_eq_true_2 by exact Hin; now rewrite Hz|now rewrite !bool_decide_eq_false_2 by exact Hin]. }
  rewrite (List.filter_ext_in (is_zombie s1) (is_zombie s) l) in F by (intros q Hq; apply Hz; now apply list_elem_of_In).
  destruct R as [R1 R2 R3 R4]. rewrite (proj2 (Z.eqb_neq _ _) Hpid). cbn [negb andb].
  destruct (Z.eqb_spec x.(p_parent) 0) as [E0|N0]; cbn [negb].
  - exists t, s2. split; [reflexivity|]. split; [now rewrite P, E1|]. split; [exact O'|]. do 4 (split; [assumption|]). intros td.
    rewrite bool_decide_eq_false_2 by tauto. rewrite R4. reflexivity.
  - exists t. eexists. split; [reflexivity|]. cbn. split; [now rewrite P, E1|]. split; [exact O'|]. do 4 (split; [assumption|]). intros td. rewrite R4. cbn.
    destruct (decide (s.(chan) td = Some x.(p_parent))) as [Hc|Hc].
    + now rewrite !bool_decide_eq_true_2 by auto.
    + rewrite !bool_decide_eq_false_2; [reflexivity|tauto|exact Hc].
Qed.
Lemma td_destroy_run td code s : pinv s -> s.(at_) td <> Free -> s.(td_proc) td <> INIT_PROC -> NPROC < 65536 ->
  let p := s.(td_proc) td in let x := s.(procs) p in
  exists t s', td_destroy td code s = Ok (tt, s') /\
    s'.(procs) p = MkProc ZOMBIE x.(p_pid) code t x.(p_parent) [] [] /\
    (forall q, q <> p -> s'.(procs) q = if bool_decide (q ∈ x.(p_children)) then
       if is_zombie s q then freed (s.(procs) q) else with_parent INIT_PROC (s.(procs) q) else s.(procs) q) /\
    s'.(proc_freelist) = rev (List.filter (is_zombie s) x.(p_children)) ++ s.(proc_freelist) /\
    s'.(pid_cnt) = s.(pid_cnt) /\ s'.(td_proc) = upd s.(td_proc) td 0 /\ s'.(at_) = upd s.(at_) td Free /\
    (forall y, s'.(chan) y = if bool_decide (x.(p_parent) <> 0 /\ s.(chan) y = Some x.(p_parent)) then None else s.(chan) y).
Proof.
  intros I Ha Hi HN p x. destruct (i_td _ I td Ha) as (Hs & Hst & Hth). fold p in Hs, Hst, Hth. fold x in Hst, Hth.
  assert (Hpid : x.(p_pid) <> PID_INIT).
  { intros E. pose proof (i_pid _ I p Hs) as Hp. fold x in Hp. rewrite Hst, E in Hp. specialize (Hp ltac:(discriminate)). apply Hi. fold p. unfold INIT_PROC. lia. }
  unfold td_destroy. rewrite (bind_run _ _ s true s).
  2:{ unfold td_destroy_check, bind, gets, ret. fold p x. now rewrite Hth, bool_decide_eq_true_2. }
  unfold td_destroy_finish. rewrite (bind_run _ _ s p s), (bind_run _ _ s x s) by reflexivity. rewrite Hth. cbn [queue_remove]. rewrite Z.eqb_refl.
  set (s1 := set_procs (upd s.(procs) p (with_threads [] x)) s). rewrite (bind_run _ _ s tt s1) by reflexivity.
  assert (E1 : s1.(procs) p = with_threads [] x) by apply upd_eq.
  assert (Hc : p ∉ x.(p_children)) by (intros Hc; destruct (i_child _ I p p Hs Hc) as (_ & Hne & _); congruence).
  destruct (proc_destroy_run p code s1) as (t & s2 & E & P & O & F & R1 & R2 & R3 & R4); rewrite ?E1; cbn [with_threads p_children p_pid]; auto;
    [apply (i_cnodup _ I p Hs)|].
  rewrite E1 in P, O, F, R4. cbn [with_threads p_children p_pid p_parent p_threads] in P, O, F, R4.
  rewrite (bind_run _ _ _ _ _ E). exists t. eexists. split; [reflexivity|]. cbn [procs proc_freelist pid_cnt td_proc at_ chan set_at set_tdproc].
  split; [exact P|].
  assert (Hz : forall q, q <> p -> is_zombie s1 q = is_zombie s q) by (intros q Hq; unfold is_zombie, s1; cbn; now rewrite upd_ne).
  split; [|split; [|split; [exact R1|split; [now rewrite R2|split; [now rewrite R3|exact R4]]]]].
  - intros q Hq. rewrite O, Hz by exact Hq. unfold s1. cbn [procs set_procs]. now rewrite upd_ne.
  - rewrite F. f_equal. f_equal. apply List.filter_ext_in. intros q Hq. apply Hz. intros ->. apply Hc. now apply list_elem_of_In.
Qed.

(** *** The invariant *)

Lemma zombie_bare s q : pinv s -> slot q -> (s.(procs) q).(p_status) <> USED -> (s.(procs) q).(p_children) = [] /\ (s.(procs) q).(p_threads) = [].
Proof.
  intros I Hq Hst. split.
  - destruct (s.(procs) q).(p_children) as [|c l] eqn:E; [reflexivity|]. destruct (i_child _ I q c Hq) as (_ & _ & _ & _ & H); [rewrite E; left|contradiction].
  - destruct (s.(procs) q).(p_threads) as [|c l] eqn:E; [reflexivity|]. destruct (i_threads _ I q c Hq) as (H & _); [rewrite E; left|contradiction].
Qed.
(** The only thread of a process. *)
Lemma own_proc s td y : pinv s -> s.(at_) td <> Free -> s.(at_) y <> Free -> s.(td_proc) y = s.(td_proc) td -> y = td.
Proof.
  intros I Ht Hy E. destruct (i_td _ I td Ht) as (_ & _ & H1). destruct (i_td _ I y Hy) as (_ & _ & H2). rewrite E, H1 in H2. congruence.
Qed.

Lemma exit_pinv td code s s' : NPROC < 65536 -> pinv s -> s.(at_) td = Run -> s.(td_proc) td <> INIT_PROC -> td_destroy td code s = Ok (tt, s') -> pinv s'.
Proof.
  intros HN I Ha Hi Ed. assert (Haf : s.(at_) td <> Free) by congruence.
  destruct (td_destroy_run td code s I Haf Hi HN) as (t & s2 & E & P & O & F & _ & Rp & Ra & Rc). rewrite Ed in E. injection E as <-.
  set (p := s.(td_proc) td) in *. set (x := s.(procs) p) in *. set (l := x.(p_children)) in *.
  destruct (i_td _ I td Haf) as (Hs & Hst & Hth). fold p x in Hs, Hst, Hth.
  assert (Hl : forall c, c ∈ l -> slot c /\ c <> p /\ (s.(procs) c).(p_parent) = p /\ (s.(procs) c).(p_status) <> UNUSED).
  { intros c Hc. destruct (i_child _ I p c Hs Hc) as (? & ? & ? & ? & _). auto. }
  assert (Hpl : p ∉ l) by (intros H; now apply Hl in H).
  assert (Hz : forall q, is_zombie s q = true <-> (s.(procs) q).(p_status) = ZOMBIE) by (intros q; unfold is_zombie; apply bool_decide_eq_true).
  assert (Hch : forall q, q <> p -> (s'.(procs) q).(p_children) = (s.(procs) q).(p_children) /\ (s'.(procs) q).(p_threads) = (s.(procs) q).(p_threads)).
  { intros q Hq. rewrite O by exact Hq. destruct (bool_decide _); [destruct (is_zombie s q)|]; auto. }
  assert (Hsame : forall q, q <> p -> q ∉ l -> s'.(procs) q = s.(procs) q) by (intros q Hq Hn; rewrite O, bool_decide_eq_false_2 by auto; reflexivity).
  assert (Hused : forall q, q <> p -> (s.(procs) q).(p_status) = USED -> (s'.(procs) q).(p_status) = USED).
  { intros q Hq Hu. rewrite O by exact Hq. destruct (bool_decide _); [|exact Hu]. destruct (is_zombie s q) eqn:Ez; [apply Hz in Ez; congruence|exact Hu]. }
  assert (Hown : forall y, y <> td -> s.(at_) y <> Free -> s.(td_proc) y <> p) by (intros y Hy Hf E; apply Hy; now apply (own_proc s)).
  constructor.
  - rewrite F. apply NoDup_app. split; [apply rev_NoDup, filter_NoDup, (i_cnodup _ I p Hs)|]. split; [|apply I].
    intros c [Hc _]%rev_in%filter_in Hf. apply (i_free _ I) in Hf as [_ Hf]. now apply Hl in Hf.
  - intros q. rewrite F, elem_of_app, rev_in, filter_in, (i_free _ I). destruct (decide (q = p)) as [->|Hne].
    + rewrite P. cbn. split; [|intros [_ [=]]]. intros [[H _]|[_ H]]; [contradiction|]. fold x in H. congruence.
    + rewrite O by exact Hne. destruct (decide (q ∈ l)) as [Hin|Hin].
      * rewrite bool_decide_eq_true_2 by exact Hin. destruct (Hl q Hin) as (H1 & _ & _ & H4). destruct (is_zombie s q); cbn; tauto || (split; [intros [[_ [=]]|]; tauto|tauto]).
      * rewrite bool_decide_eq_false_2 by exact Hin. tauto.
  - intros q Hq. destruct (decide (q = p)) as [->|Hne]; [rewrite P; cbn; auto|]. rewrite O by exact Hne.
    destruct (bool_decide _); [destruct (is_zombie s q)|]; cbn; auto; apply (i_status _ I q Hq).
  - intros q c Hq. destruct (decide (q = p)) as [->|Hne]; [rewrite P; intros Hc; now apply not_elem_of_nil in Hc|]. rewrite (proj1 (Hch q Hne)). intros Hc.
    destruct (i_child _ I q c Hq Hc) as (Hsc & Hcq & Hpar & Hnu & Hu). split; [exact Hsc|]. split; [exact Hcq|].
    destruct (decide (c = p)) as [->|Hcp]; [rewrite P; cbn; split; [exact Hpar|]; split; [discriminate|now apply Hused]|].
    rewrite (Hsame c Hcp) by (intros Hin; destruct (Hl c Hin) as (_ & _ & Hp2 & _); congruence). auto.
  - intros q Hq. destruct (decide (q = p)) as [->|Hne]; [rewrite P; apply NoDup_nil_2|]. rewrite (proj1 (Hch q Hne)). now apply I.
  - intros y. rewrite Ra, Rp. unfold upd. destruct (Z.eqb_spec y td) as [->|Hy]; [congruence|]. intros Hf. destruct (i_td _ I y Hf) as (H1 & H2 & H3).
    pose proof (Hown y Hy Hf) as Hne. split; [exact H1|]. split; [now apply Hused|]. now rewrite (proj2 (Hch _ Hne)).
  - intros q y Hq. destruct (decide (q = p)) as [->|Hne]; [rewrite P; intros Hy; now apply not_elem_of_nil in Hy|]. rewrite (proj2 (Hch q Hne)). intros Hy.
    destruct (i_threads _ I q y Hq Hy) as (H1 & H2 & H3). split; [now apply Hused|]. rewrite Ra, Rp. assert (y <> td) by (intros ->; apply Hne; symmetry; exact H2). rewrite !upd_ne by assumption. auto.
  - intros q Hq. destruct (decide (q = p)) as [->|Hne]; [rewrite P; cbn; intros _; apply (i_pid _ I p Hs); fold x; rewrite Hst; discriminate|]. rewrite O by exact Hne.
    destruct (bool_decide _); [destruct (is_zombie s q)|]; cbn; try congruence; apply (i_pid _ I q Hq).
  - intros y ch. rewrite Rc, Ra, Rp. destruct (bool_decide _); [discriminate|]. intros Hc. destruct (i_chan _ I y ch Hc) as [Hw Hch'].
    rewrite !upd_ne by (intros ->; rewrite Ha in Hw; discriminate). auto.
  - intros y pid ps o. rewrite Ra. unfold upd. destruct (_ =? _); [discriminate|]. apply I.
  - intros y c ps. rewrite Ra, Rp. unfold upd. destruct (Z.eqb_spec y td) as [->|Hy]; [discriminate|]. intros Hw.
    rewrite (proj1 (Hch _ (Hown y Hy ltac:(congruence)))). now apply (i_for _ I y c ps).
  - intros y ch c. rewrite Rc, Ra. destruct (bool_decide _) eqn:Eb; [discriminate|]. apply bool_decide_eq_false in Eb. intros Hc.
    destruct (i_chan _ I y ch Hc) as [Hw Ey]. assert (Hy : y <> td) by (intros ->; rewrite Ha in Hw; discriminate). rewrite upd_ne by exact Hy.
    assert (Hfy : s.(at_) y <> Free) by (intros Hf; rewrite Hf in Hw; discriminate).
    assert (Hne : ch <> p) by (rewrite Ey; now apply Hown). rewrite (proj1 (Hch ch Hne)). intros Hin Hfor.
    pose proof (i_sleep _ I y ch c Hc Hin Hfor) as Hnz. destruct (i_td _ I y Hfy) as (Hsl & _). rewrite <- Ey in Hsl.
    destruct (decide (c = p)) as [->|Hcp].
    + exfalso. destruct (i_child _ I ch p Hsl Hin) as (_ & _ & Hpar & _). fold x in Hpar. apply Eb. rewrite Hpar. split; [unfold slot in Hsl; lia|exact Hc].
    + rewrite O by exact Hcp. destruct (bool_decide _); [destruct (is_zombie s c)|]; cbn; auto; discriminate.
Qed.

(** A process taken from the free list for the thread [td], as a child of
    [par] if there is one. *)
Lemma new_proc_pinv s s' p fl td (par : option Z) : pinv s -> s.(at_) td = Free -> s.(proc_freelist) = p :: fl -> s'.(proc_freelist) = fl ->
  (s'.(procs) p).(p_status) = USED -> (s'.(procs) p).(p_threads) = [td] -> (s'.(procs) p).(p_children) = [] ->
  PID_TO_INDEX (s'.(procs) p).(p_pid) = p - 1 ->
  (forall q, par = Some q -> slot q /\ (s.(procs) q).(p_status) = USED /\ (s'.(procs) p).(p_parent) = q) ->
  (forall q, q <> p -> s'.(procs) q = if bool_decide (par = Some q) then with_children (p :: (s.(procs) q).(p_children)) (s.(procs) q) else s.(procs) q) ->
  s'.(td_proc) = upd s.(td_proc) td p -> s'.(at_) = upd s.(at_) td Run -> s'.(chan) = s.(chan) -> pinv s'.
Proof.
  intros I Ha Ef F' Pst Pth Pch Ppid Hpar O Rp Ra Rc.
  assert (Hp : slot p /\ (s.(procs) p).(p_status) = UNUSED) by (apply (i_free _ I); rewrite Ef; left). destruct Hp as [Hsp Hun].
  pose proof (i_nodup _ I) as Hnd. rewrite Ef in Hnd. apply NoDup_cons in Hnd as [Hpf Hnd].
  assert (Hst : forall q, q <> p -> (s'.(procs) q).(p_status) = (s.(procs) q).(p_status) /\ (s'.(procs) q).(p_threads) = (s.(procs) q).(p_threads) /\
    (s'.(procs) q).(p_parent) = (s.(procs) q).(p_parent) /\ (s'.(procs) q).(p_pid) = (s.(procs) q).(p_pid)).
  { intros q Hq. rewrite O by exact Hq. destruct (bool_decide _); auto. }
  assert (Hcu : forall q c, slot q -> c ∈ (s.(procs) q).(p_children) -> c <> p /\ q <> p).
  { intros q c Hq Hc. destruct (i_child _ I q c Hq Hc) as (_ & _ & _ & H4 & H5). split; intros ->; congruence. }
  assert (Hch : forall q c, slot q -> c ∈ (s'.(procs) q).(p_children) -> c ∈ (s.(procs) q).(p_children) \/ (c = p /\ par = Some q)).
  { intros q c Hq. destruct (decide (q = p)) as [->|Hne]; [rewrite Pch; intros H; now apply not_elem_of_nil in H|]. rewrite O by exact Hne.
    destruct (bool_decide _) eqn:Eb; [|auto]. apply bool_decide_eq_true in Eb. cbn. intros [->|H]%elem_of_cons; auto. }
  assert (Hown : forall y, y <> td -> s.(at_) y <> Free -> s.(td_proc) y <> p) by (intros y Hy Hf E; destruct (i_td _ I y Hf) as (_ & H & _); rewrite E in H; congruence).
  constructor.
  - rewrite F'. exact Hnd.
  - intros q. rewrite F'. destruct (decide (q = p)) as [->|Hne]; [rewrite Pst; split; [contradiction|intros [_ [=]]]|]. rewrite (proj1 (Hst q Hne)), <- (i_free _ I), Ef, elem_of_cons. tauto.
  - intros q Hq. destruct (decide (q = p)) as [->|Hne]; [rewrite Pst; auto|]. rewrite (proj1 (Hst q Hne)). now apply (i_status _ I).
  - intros q c Hq Hc. destruct (Hch q c Hq Hc) as [Hc'|[-> Epar]].
    + destruct (Hcu q c Hq Hc') as [N1 N2]. destruct (Hst c N1) as (-> & _ & -> & _). destruct (Hst q N2) as (-> & _). now apply (i_child _ I).
    + destruct (Hpar q Epar) as (H1 & H2 & H3). assert (Hqp : q <> p) by (intros E; rewrite E in H2; congruence). rewrite Pst, H3, (proj1 (Hst q Hqp)), H2. repeat split; auto; try discriminate; apply Hsp.
  - intros q Hq. destruct (decide (q = p)) as [->|Hne]; [rewrite Pch; apply NoDup_nil_2|]. rewrite O by exact Hne. destruct (bool_decide _); [|now apply I].
    cbn. apply NoDup_cons. split; [|now apply I]. intros Hc. destruct (Hcu q p Hq Hc). congruence.
  - intros y. rewrite Ra, Rp. unfold upd. destruct (Z.eqb_spec y td) as [->|Hy]; [intros _; auto|]. intros Hf. destruct (i_td _ I y Hf) as (H1 & H2 & H3).
    destruct (Hst _ (Hown y Hy Hf)) as (-> & -> & _). auto.
  - intros q y Hq. rewrite Ra, Rp. destruct (decide (q = p)) as [->|Hne].
    + rewrite Pth. intros ->%list_elem_of_singleton. rewrite !upd_eq. repeat split; auto; congruence.
    + destruct (Hst q Hne) as (-> & -> & _). intros Hy. destruct (i_threads _ I q y Hq Hy) as (H1 & H2 & H3).
      assert (y <> td) by (intros ->; contradiction). rewrite !upd_ne by assumption. auto.
  - intros q Hq. destruct (decide (q = p)) as [->|Hne]; [intros _; exact Ppid|]. destruct (Hst q Hne) as (-> & _ & _ & ->). now apply I.
  - intros y ch. rewrite Rc, Ra, Rp. intros Hc. destruct (i_chan _ I y ch Hc) as [Hw Ey]. assert (y <> td) by (intros ->; rewrite Ha in Hw; discriminate).
    rewrite !upd_ne by assumption. auto.
  - intros y pid ps o. rewrite Ra. unfold upd. destruct (_ =? _); [discriminate|]. apply I.
  - intros y c ps. rewrite Ra, Rp. unfold upd. destruct (Z.eqb_spec y td) as [->|Hy]; [discriminate|]. intros Hw.
    pose proof (i_for _ I y c ps Hw) as Hc. rewrite O by (apply Hown; congruence). destruct (bool_decide _); [cbn; now right|exact Hc].
  - intros y ch c. rewrite Rc, Ra. intros Hc. destruct (i_chan _ I y ch Hc) as [Hw Ey]. assert (Hy : y <> td) by (intros ->; rewrite Ha in Hw; discriminate).
    rewrite upd_ne by exact Hy. assert (Hfy : s.(at_) y <> Free) by (intros Hf; rewrite Hf in Hw; discriminate).
    destruct (i_td _ I y Hfy) as (Hsl & _). rewrite <- Ey in Hsl. intros Hin Hfor. destruct (Hch ch c Hsl Hin) as [Hin'|[-> _]]; [|rewrite Pst; discriminate].
    destruct (Hcu ch c Hsl Hin') as [N1 _]. destruct (Hst c N1) as (-> & _). exact (i_sleep _ I y ch c Hc Hin' Hfor).
Qed.

Lemma create_pinv td s s' : NPROC < 65536 -> pinv s -> s.(at_) td = Free -> proc_create td s = Ok (tt, s') -> pinv s'.
Proof.
  intros HN I Ha. unfold proc_create, proc_alloc, proc_addtd, bind, gets, modify, upd_proc, pid_alloc, ret, fail.
  destruct s.(proc_freelist) as [|p fl] eqn:Ef; [discriminate|]. intros [= <-].
  destruct (proj1 (i_free _ I p)) as [Hp Hun]; [rewrite Ef; left|]. destruct (zombie_bare s p I Hp) as [Hch Hth]; [congruence|].
  apply (new_proc_pinv s _ p fl td None I Ha Ef); cbn [procs proc_freelist td_proc at_ chan set_at set_procs set_pcnt set_plist set_tdproc pid_cnt]; auto;
    rewrite ?upd_eq; cbn [p_status p_threads p_children p_pid with_threads with_pstatus]; auto; try discriminate.
  - now rewrite Hth.
  - apply pid_index. unfold slot in Hp. lia.
  - intros q Hq. now rewrite !upd_ne, bool_decide_eq_false_2 by (auto; discriminate).
Qed.
Lemma fork_pinv td childtd pid s s' : NPROC < 65536 -> pinv s -> s.(at_) td = Run -> s.(at_) childtd = Free -> proc_fork td childtd s = Ok (pid, s') -> pinv s'.
Proof.
  intros HN I Hr Ha. unfold proc_fork, proc_alloc, proc_addtd, bind, gets, modify, upd_proc, pid_alloc, ret, fail.
  destruct s.(proc_freelist) as [|p fl] eqn:Ef; [discriminate|]. intros [= <- <-].
  destruct (proj1 (i_free _ I p)) as [Hp Hun]; [rewrite Ef; left|]. destruct (zombie_bare s p I Hp) as [Hch Hth]; [congruence|].
  destruct (i_td _ I td ltac:(congruence)) as (Hs & Hst & _). set (q0 := s.(td_proc) td) in *. assert (Hne : q0 <> p) by (intros E; rewrite E in Hst; congruence).
  apply (new_proc_pinv s _ p fl childtd (Some q0) I Ha Ef); cbn [procs proc_freelist td_proc at_ chan set_at set_procs set_pcnt set_plist set_tdproc pid_cnt]; auto;
    rewrite ?(upd_ne _ q0 _ p), ?upd_eq by auto; cbn [p_status p_threads p_children p_pid p_parent with_threads with_pstatus with_parent with_children]; auto.
  - now rewrite Hth.
  - apply pid_index. unfold slot in Hp. lia.
  - intros q [= <-]. auto.
  - intros q Hq. destruct (decide (q = q0)) as [->|Hq0].
    + rewrite bool_decide_eq_true_2, upd_eq, !upd_ne by auto. reflexivity.
    + rewrite bool_decide_eq_false_2, !upd_ne by congruence. reflexivity.
Qed.

(** A thread that is about to sleep or to return. *)
Lemma move_pinv s s' td w o : pinv s -> s.(at_) td <> Free -> w <> Free ->
  s'.(procs) = s.(procs) -> s'.(proc_freelist) = s.(proc_freelist) -> s'.(td_proc) = s.(td_proc) ->
  s'.(at_) = upd s.(at_) td w -> (forall y, s'.(chan) y = upd s.(chan) td o y) ->
  (forall ch, o = Some ch -> waiting w = true /\ ch = s.(td_proc) td /\
     forall c, c ∈ (s.(procs) ch).(p_children) -> (forall c' ps, w = WaitFor c' ps -> c = c') -> (s.(procs) c).(p_status) <> ZOMBIE) ->
  (forall pid ps op, w = WaitAny pid ps op -> pid = -1) ->
  (forall c ps, w = WaitFor c ps -> c ∈ (s.(procs) (s.(td_proc) td)).(p_children)) -> pinv s'.
Proof.
  intros I Ha Hw Ep Ef Et Ea Ec Hs Hany Hfor. constructor; rewrite ?Ep, ?Ef, ?Et, ?Ea; try apply I.
  - intros y. unfold upd. destruct (Z.eqb_spec y td) as [->|]; [intros _; now apply I|apply I].
  - intros p y Hp Hy. destruct (i_threads _ I p y Hp Hy) as (H1 & H2 & H3). split; [exact H1|]. split; [exact H2|]. unfold upd. destruct (y =? td); auto.
  - intros y ch. rewrite Ec. unfold upd. destruct (Z.eqb_spec y td) as [->|]; [intros H; destruct (Hs ch H) as (? & ? & _); auto|apply I].
  - intros y pid ps op. unfold upd. destruct (y =? td); [apply Hany|apply I].
  - intros y c ps. unfold upd. destruct (Z.eqb_spec y td) as [->|]; [apply Hfor|apply I].
  - intros y ch c. rewrite Ec. unfold upd. destruct (Z.eqb_spec y td) as [->|]; [intros H; apply (Hs ch H)|apply I].
Qed.
Definition add_times (x c : proc_t) : times_t :=
  MkTimes x.(p_times).(tms_utime) x.(p_times).(tms_stime)
    (wrap64 (x.(p_times).(tms_cutime) + c.(p_times).(tms_utime))) (wrap64 (x.(p_times).(tms_cstime) + c.(p_times).(tms_stime))).
Lemma wait_exit_run td c ps s l' : let p := s.(td_proc) td in queue_remove c (s.(procs) p).(p_children) = Some l' -> (s.(procs) c).(p_parent) = p -> c <> p ->
  exists s', wait_exit td c ps s = Ok ((s.(procs) c).(p_pid), s') /\
    s'.(procs) p = with_ptimes (add_times (s.(procs) p) (s.(procs) c)) (with_children l' (s.(procs) p)) /\ s'.(procs) c = freed (s.(procs) c) /\
    (forall q, q <> p -> q <> c -> s'.(procs) q = s.(procs) q) /\ s'.(proc_freelist) = c :: s.(proc_freelist) /\
    s'.(at_) = upd s.(at_) td Run /\ s'.(td_proc) = s.(td_proc) /\ s'.(chan) = s.(chan) /\
    s'.(status_out) = (if ps =? 0 then [] else [(p, ps, wstatus (s.(procs) c).(p_exitcode))]) ++ s.(status_out).
Proof.
  intros p Eq Ep Hcp. unfold wait_exit. rewrite (bind_run _ _ s p s), (bind_run _ _ s (s.(procs) c) s) by reflexivity.
  set (s0 := if ps =? 0 then s else out_status (p, ps, wstatus (s.(procs) c).(p_exitcode)) s).
  rewrite (bind_run _ _ s tt s0) by (unfold s0; destruct (ps =? 0); reflexivity).
  assert (E0 : s0.(procs) = s.(procs) /\ s0.(proc_freelist) = s.(proc_freelist) /\ s0.(at_) = s.(at_) /\ s0.(td_proc) = s.(td_proc) /\ s0.(chan) = s.(chan) /\
    s0.(status_out) = (if ps =? 0 then [] else [(p, ps, wstatus (s.(procs) c).(p_exitcode))]) ++ s.(status_out)) by (unfold s0; destruct (ps =? 0); auto 6).
  destruct E0 as (E1 & E2 & E3 & E4 & E5 & E6). clearbody s0.
  unfold remove_sibling, proc_free, upd_proc, bind, modify, gets, ret. cbn [procs set_procs]. rewrite E1. rewrite (upd_ne _ p _ c) by exact Hcp.
  rewrite Ep, upd_eq. cbn [with_ptimes p_children]. rewrite Eq. cbn [procs set_procs set_plist proc_freelist set_at at_ td_proc chan status_out].
  eexists. split; [reflexivity|]. cbn [procs set_procs set_plist proc_freelist set_at at_ td_proc chan status_out].
  rewrite (upd_ne _ c _ p), !upd_eq, !(upd_ne _ p _ c), E2, E3, E4, E5, E6 by auto. split; [reflexivity|]. split; [reflexivity|].
  split; [intros q H1 H2; now rewrite !upd_ne|]. auto 6.
Qed.
Lemma wait_exit_pinv td c ps s s' r : pinv s -> s.(at_) td <> Free -> s.(chan) td = None -> let p := s.(td_proc) td in
  c ∈ (s.(procs) p).(p_children) -> (s.(procs) c).(p_status) = ZOMBIE -> wait_exit td c ps s = Ok (r, s') -> pinv s'.
Proof.
  intros I Ha Hcn p Hc Hz Ew. destruct (i_td _ I td Ha) as (Hs & Hst & Hth). fold p in Hs, Hst, Hth.
  destruct (i_child _ I p c Hs Hc) as (Hsc & Hcp & Hpar & _). destruct (queue_remove_in c _ Hc) as [l' Eq].
  pose proof (queue_remove_perm _ _ _ Eq) as Hperm. pose proof (i_cnodup _ I p Hs) as Hnd. rewrite Hperm in Hnd. apply NoDup_cons in Hnd as [Hcl Hnd].
  destruct (wait_exit_run td c ps s l' Eq Hpar Hcp) as (s2 & E & P & C & O & F & Ra & Rt & Rc & _). rewrite Ew in E. injection E as _ <-. fold p in P, O.
  destruct (zombie_bare s c I Hsc) as [Hcc Hct]; [congruence|].
  assert (Hin : forall q d, d ∈ (s'.(procs) q).(p_children) -> d ∈ (s.(procs) q).(p_children) /\ (q = p -> d <> c)).
  { intros q d. destruct (decide (q = p)) as [->|Hqp]; [rewrite P; cbn; intros Hd; rewrite Hperm; split; [now right|intros _ ->; contradiction]|].
    destruct (decide (q = c)) as [->|Hqc]; [rewrite C; cbn; auto|]. rewrite O by auto. auto. }
  assert (Hst' : forall q, q <> c -> (s'.(procs) q).(p_status) = (s.(procs) q).(p_status) /\ (s'.(procs) q).(p_threads) = (s.(procs) q).(p_threads) /\
    (s'.(procs) q).(p_parent) = (s.(procs) q).(p_parent) /\ (s'.(procs) q).(p_pid) = (s.(procs) q).(p_pid)).
  { intros q Hq. destruct (decide (q = p)) as [->|Hqp]; [rewrite P; auto|]. now rewrite O. }
  assert (Hnc : forall q d, slot q -> d ∈ (s'.(procs) q).(p_children) -> d <> c).
  { intros q d Hq Hd. destruct (Hin q d Hd) as [Hd' Hne]. destruct (decide (q = p)) as [->|Hqp]; [auto|]. intros ->.
    destruct (i_child _ I q c Hq Hd') as (_ & _ & H & _). congruence. }
  constructor.
  - rewrite F. apply NoDup_cons. split; [|apply I]. intros H. apply (i_free _ I) in H as [_ H]. congruence.
  - intros q. rewrite F, elem_of_cons, (i_free _ I). destruct (decide (q = c)) as [->|Hq]; [rewrite C; cbn; tauto|]. destruct (Hst' q Hq) as (-> & _). tauto.
  - intros q Hq. destruct (decide (q = c)) as [->|Hqc]; [rewrite C; cbn; auto|]. destruct (Hst' q Hqc) as (-> & _). now apply (i_status _ I).
  - intros q d Hq Hd. destruct (Hin q d Hd) as [Hd' _]. pose proof (Hnc q d Hq Hd) as Hdc. destruct (i_child _ I q d Hq Hd') as (H1 & H2 & H3 & H4 & H5).
    assert (Hqc : q <> c) by (intros ->; congruence). destruct (Hst' d Hdc) as (-> & _ & -> & _). destruct (Hst' q Hqc) as (-> & _). auto.
  - intros q Hq. destruct (decide (q = p)) as [->|Hqp]; [rewrite P; exact Hnd|]. destruct (decide (q = c)) as [->|Hqc]; [rewrite C; cbn; now apply I|].
    rewrite O by auto. now apply I.
  - intros y. rewrite Ra, Rt. unfold upd. intros Hf. assert (Hfy : s.(at_) y <> Free) by (destruct (Z.eqb_spec y td) as [E|]; [rewrite E|]; assumption).
    destruct (i_td _ I y Hfy) as (H1 & H2 & H3). assert (Hne : s.(td_proc) y <> c) by (intros E; rewrite E in H2; congruence).
    destruct (Hst' _ Hne) as (-> & -> & _). auto.
  - intros q y Hq. rewrite Ra, Rt. destruct (decide (q = c)) as [->|Hqc]; [rewrite C; cbn; rewrite Hct; intros H; now apply not_elem_of_nil in H|].
    destruct (Hst' q Hqc) as (-> & -> & _). intros Hy. destruct (i_threads _ I q y Hq Hy) as (H1 & H2 & H3). split; [exact H1|]. split; [exact H2|].
    unfold upd. destruct (y =? td); [discriminate|exact H3].
  - intros q Hq. destruct (decide (q = c)) as [->|Hqc]; [rewrite C; cbn; congruence|]. destruct (Hst' q Hqc) as (-> & _ & _ & ->). now apply I.
  - intros y ch. rewrite Rc, Ra, Rt. intros Hc'. destruct (i_chan _ I y ch Hc') as [Hw Ey]. rewrite upd_ne by congruence. auto.
  - intros y pid q o. rewrite Ra. unfold upd. destruct (_ =? _); [discriminate|]. apply I.
  - intros y d q. rewrite Ra, Rt. unfold upd. destruct (Z.eqb_spec y td) as [->|Hy]; [discriminate|]. intros Hw. pose proof (i_for _ I y d q Hw) as Hd.
    assert (Hfy : s.(at_) y <> Free) by congruence. assert (Hne : s.(td_proc) y <> p) by (intros E; apply Hy; now apply (own_proc s)).
    destruct (i_td _ I y Hfy) as (H1 & H2 & _). assert (Hnc' : s.(td_proc) y <> c) by (intros E; rewrite E in H2; congruence). rewrite O by auto. exact Hd.
  - intros y ch d. rewrite Rc, Ra. intros Hc'. destruct (i_chan _ I y ch Hc') as [Hw Ey]. assert (Hy : y <> td) by congruence. rewrite upd_ne by exact Hy.
    assert (Hfy : s.(at_) y <> Free) by (intros Hf; rewrite Hf in Hw; discriminate). destruct (i_td _ I y Hfy) as (Hsl & _). rewrite <- Ey in Hsl.
    intros Hd Hfor. destruct (Hin ch d Hd) as [Hd' _]. destruct (Hst' d (Hnc ch d Hsl Hd)) as (-> & _). exact (i_sleep _ I y ch d Hc' Hd' Hfor).
Qed.

Lemma wait_scan_some s pid c : forall l, wait_scan s pid l = Some c ->
  c ∈ l /\ (pid <> -1 -> (s.(procs) c).(p_pid) = pid) /\ (pid = -1 -> (s.(procs) c).(p_status) = ZOMBIE).
Proof.
  induction l as [|x l IH]; cbn [wait_scan]; [discriminate|]. destruct (Z.eqb_spec pid (-1)) as [E|N]; cbn [negb andb].
  - destruct (bool_decide _) eqn:Eb.
    + intros [= <-]. apply bool_decide_eq_true in Eb. repeat split; auto; [left|congruence].
    + intros H. destruct (IH H) as (? & ? & ?). split; [now right|auto].
  - destruct (Z.eqb_spec pid (s.(procs) x).(p_pid)) as [E2|].
    + intros [= <-]. repeat split; auto; [left|congruence].
    + intros H. destruct (IH H) as (? & ? & ?). split; [now right|auto].
Qed.
Lemma wait_scan_none s pid : forall l, wait_scan s pid l = None ->
  forall c, c ∈ l -> (pid <> -1 -> (s.(procs) c).(p_pid) <> pid) /\ (pid = -1 -> (s.(procs) c).(p_status) <> ZOMBIE).
Proof.
  induction l as [|x l IH]; cbn [wait_scan]; [intros _ c H; now apply not_elem_of_nil in H|]. destruct (Z.eqb_spec pid (-1)) as [E|N]; cbn [negb andb].
  - destruct (bool_decide _) eqn:Eb; [discriminate|]. apply bool_decide_eq_false in Eb. intros H c [->|Hc]%elem_of_cons; [split; [congruence|auto]|now apply IH].
  - destruct (Z.eqb_spec pid (s.(procs) x).(p_pid)) as [E2|]; [discriminate|]. intros H c [->|Hc]%elem_of_cons; [split; [congruence|congruence]|now apply IH].
Qed.

Section OfThread.
Context (s : pst) (td : Z) (I : pinv s) (Ha : s.(at_) td <> Free) (Hc : s.(chan) td = None).
Let p : Z := s.(td_proc) td.
Let x : proc_t := s.(procs) p.

Lemma return_pinv v r s' : return_ td v s = Ok (r, s') -> pinv s'.
Proof.
  intros [= <- <-]. apply (move_pinv s _ td Run None I Ha); cbn; try discriminate; auto. intros y. unfold upd. destruct (Z.eqb_spec y td) as [->|]; auto.
Qed.
Lemma til_pinv c ps r s' : c ∈ x.(p_children) -> wait_til_loop td c ps s = Ok (r, s') -> pinv s'.
Proof.
  intros Hin. unfold wait_til_loop, bind at 1 2, gets. fold p. destruct (bool_decide _) eqn:Eb.
  - apply bool_decide_eq_true in Eb. intros H. apply bind_ok in H as (pid & s1 & E & [= <- <-]). exact (wait_exit_pinv td c ps s s1 pid I Ha Hc Hin Eb E).
  - apply bool_decide_eq_false in Eb. intros [= <- <-]. apply (move_pinv s _ td (WaitFor c ps) (Some p) I Ha); cbn; try discriminate; auto.
    + intros ch [= <-]. split; [reflexivity|]. split; [reflexivity|]. intros d _ Hd. rewrite (Hd c ps eq_refl). exact Eb.
    + intros d q [= <- <-]. exact Hin.
Qed.
Lemma loop_pinv pid ps o r s' : wait_loop td pid ps o s = Ok (r, s') -> pinv s'.
Proof.
  unfold wait_loop, bind at 1 2, gets at 1 2. fold p x. destruct (wait_scan s pid x.(p_children)) as [c|] eqn:Es.
  - destruct (wait_scan_some _ _ _ _ Es) as (Hin & _ & Hz). destruct (Z.eqb_spec pid (-1)) as [E|N]; cbn [negb].
    + intros H. apply bind_ok in H as (v & s1 & E1 & [= <- <-]). exact (wait_exit_pinv td c ps s s1 v I Ha Hc Hin (Hz E) E1).
    + intros H. apply bind_ok in H as (y & s1 & [= <- <-] & H). apply bind_ok in H as (u & s2 & H1 & H). apply massert_ok in H1 as [_ ->].
      unfold wait_til_exit in H. destruct (negb _); [exact (return_pinv _ _ _ H)|exact (til_pinv c ps r s' Hin H)].
  - pose proof (wait_scan_none _ _ _ Es) as Hno. destruct (Z.eqb_spec pid (-1)) as [E|N]; cbn [negb]; [|apply return_pinv].
    destruct (negb _); [apply return_pinv|]. intros [= <- <-]. apply (move_pinv s _ td (WaitAny pid ps o) (Some p) I Ha); cbn; try discriminate; auto.
    + intros ch [= <-]. split; [reflexivity|]. split; [reflexivity|]. intros d Hd _. apply (Hno d Hd). exact E.
    + intros q q1 q2 [= <- _ _]. exact E.
Qed.
End OfThread.

Lemma step_pinv s s' : NPROC < 65536 -> pinv s -> pstep s s' -> pinv s'.
Proof.
  intros HN I [td s1 Ha E|td ct pid s1 Hr Ha E|td code s1 Hr Hi E|td pid ps o r s1 Hr E|td r s1 Hc Hw E|td].
  - exact (create_pinv td s s1 HN I Ha E).
  - exact (fork_pinv td ct pid s s1 HN I Hr Ha E).
  - exact (exit_pinv td code s s1 HN I Hr Hi E).
  - assert (Ha : s.(at_) td <> Free) by congruence.
    assert (Hc : s.(chan) td = None) by (destruct (s.(chan) td) as [ch|] eqn:Ec; [destruct (i_chan _ I td ch Ec) as [H _]; rewrite Hr in H; discriminate|reflexivity]).
    unfold wait in E. unfold bind at 1 2, gets at 1 2 in E. destruct (p_children _); [exact (return_pinv s td I Ha Hc _ _ _ E)|exact (loop_pinv s td I Ha Hc _ _ _ _ _ E)].
  - assert (Ha : s.(at_) td <> Free) by (intros H; rewrite H in Hw; discriminate).
    unfold wait_resume in E. unfold bind at 1, gets at 1 in E. revert E. destruct (s.(at_) td) as [| |pid ps o|c ps] eqn:Ea; try discriminate; intros E; rewrite <- Ea in Ha.
    + exact (loop_pinv s td I Ha Hc _ _ _ _ _ E).
    + exact (til_pinv s td I Ha Hc c ps _ _ (i_for _ I td c ps Ea) E).
  - constructor; cbn [procs proc_freelist td_proc at_ chan set_chan]; try apply I.
    + intros y ch. unfold upd. destruct (y =? td); [discriminate|apply I].
    + intros y ch c. unfold upd. destruct (y =? td); [discriminate|apply I].
Qed.
Lemma reach_pinv s0 s : NPROC < 65536 -> pinv s0 -> preach s0 s -> pinv s.
Proof. intros HN I0 H. induction H as [|s s' _ IH Hs]; [exact I0|]. exact (step_pinv s s' HN IH Hs). Qed.

(** *** Theorems *)


(** C28. No exit is missed: in every reachable state a thread that sleeps in [wait]
    has no zombie to collect (none at all when it waits for any child, and
    not the one it waits for otherwise), and the child it waits for is still
    its child. *)
Theorem wait_no_lost_exit s0 s : NPROC < 65536 -> pinv s0 -> preach s0 s -> forall td ch, s.(chan) td = Some ch ->
  let p := s.(td_proc) td in ch = p /\
  match s.(at_) td with
  | WaitAny _ _ _ => forall c, c ∈ (s.(procs) p).(p_children) -> (s.(procs) c).(p_status) = USED
  | WaitFor c _ => c ∈ (s.(procs) p).(p_children) /\ (s.(procs) c).(p_status) = USED
  | _ => False
  end.
Proof.
  intros HN I0 Hr td ch Hc p. pose proof (reach_pinv s0 s HN I0 Hr) as I. destruct (i_chan _ I td ch Hc) as [Hw E]. split; [exact E|].
  assert (Ha : s.(at_) td <> Free) by (intros H; rewrite H in Hw; discriminate). destruct (i_td _ I td Ha) as (Hs & _). fold p in Hs.
  assert (Hu : forall c, c ∈ (s.(procs) p).(p_children) -> (forall c' ps, s.(at_) td = WaitFor c' ps -> c = c') -> (s.(procs) c).(p_status) = USED).
  { intros c Hin Hf. destruct (i_child _ I p c Hs Hin) as (Hsc & _ & _ & Hn & _). rewrite E in Hc. pose proof (i_sleep _ I td p c Hc Hin Hf).
    destruct (i_status _ I c Hsc) as [|[|]]; [contradiction|assumption|contradiction]. }
  destruct (s.(at_) td) as [| |pid ps o|c ps] eqn:Ea; try discriminate.
  - intros c Hin. apply Hu; [exact Hin|]. intros c' ps'. congruence.
  - pose proof (i_for _ I td c ps Ea) as Hin. fold p in Hin. split; [exact Hin|]. apply Hu; [exact Hin|]. intros c' ps' [= <- _]. reflexivity.
Qed.

(** [wait] for any child, with a zombie among them: the first zombie of the
    list is collected.  Its pid is returned, its status word is copied out
    unless [pstatus] is null, its times are added to the parent's, it leaves
    the list and its slot is free again; nothing else changes. *)
Theorem wait_collects s td ps o l1 c l2 : pinv s -> s.(at_) td = Run -> let p := s.(td_proc) td in
  (s.(procs) p).(p_children) = l1 ++ c :: l2 -> (s.(procs) c).(p_status) = ZOMBIE -> Forall (fun d => (s.(procs) d).(p_status) <> ZOMBIE) l1 ->
  exists s', wait td (-1) ps o s = Ok (Some (s.(procs) c).(p_pid), s') /\
    s'.(procs) p = with_ptimes (add_times (s.(procs) p) (s.(procs) c)) (with_children (l1 ++ l2) (s.(procs) p)) /\
    s'.(procs) c = freed (s.(procs) c) /\ (forall q, q <> p -> q <> c -> s'.(procs) q = s.(procs) q) /\
    s'.(proc_freelist) = c :: s.(proc_freelist) /\ s'.(at_) td = Run /\
    s'.(status_out) = (if ps =? 0 then [] else [(p, ps, wstatus (s.(procs) c).(p_exitcode))]) ++ s.(status_out).
Proof.
  intros I Hr p El Hz Hl1. destruct (i_td _ I td ltac:(congruence)) as (Hs & _). fold p in Hs.
  assert (Hin : c ∈ (s.(procs) p).(p_children)) by (rewrite El; apply elem_of_app; right; left).
  destruct (i_child _ I p c Hs Hin) as (_ & Hcp & Hpar & _).
  assert (Eq : queue_remove c (s.(procs) p).(p_children) = Some (l1 ++ l2)).
  { rewrite El. clear -Hz Hl1. induction Hl1 as [|d l1 Hd _ IH]; cbn; [now rewrite Z.eqb_refl|].
    destruct (Z.eqb_spec d c) as [->|]; [contradiction|]. now rewrite IH. }
  assert (Es : wait_scan s (-1) (s.(procs) p).(p_children) = Some c).
  { rewrite El. clear -Hz Hl1. induction Hl1 as [|d l1 Hd _ IH]; cbn; [now rewrite bool_decide_eq_true_2|]. now rewrite bool_decide_eq_false_2. }
  destruct (wait_exit_run td c ps s _ Eq Hpar Hcp) as (s' & E & P & C & O & F & Ra & _ & _ & So).
  exists s'. split; [|split; [exact P|split; [exact C|split; [exact O|split; [exact F|split; [rewrite Ra; apply upd_eq|exact So]]]]]].
  unfold wait, bind at 1 2, gets at 1 2. fold p. destruct (p_children (procs s p)) as [|a l] eqn:E0; [destruct l1; discriminate El|]. rewrite <- E0 in Es.
  unfold wait_loop, bind at 1 2, gets at 1 2. fold p. rewrite Es. change (-1 =? -1) with true. cbn [negb]. now rewrite (bind_run _ _ _ _ _ E).
Qed.

(** [wait] for one child with [WNOHANG] returns 0 even when that child is a
    zombie: a program that polls with [waitpid] never collects it. *)
Theorem waitpid_nohang_skips_zombie s td c ps o : pinv s -> s.(at_) td = Run -> let p := s.(td_proc) td in
  c ∈ (s.(procs) p).(p_children) -> (s.(procs) c).(p_status) = ZOMBIE -> (s.(procs) c).(p_pid) <> -1 -> Z.land o WNOHANG <> 0 ->
  exists s', wait td (s.(procs) c).(p_pid) ps o s = Ok (Some 0, s') /\ s'.(procs) = s.(procs) /\ s'.(proc_freelist) = s.(proc_freelist).
Proof.
  intros I Hr p Hin Hz Hpid Ho. destruct (i_td _ I td ltac:(congruence)) as (Hs & _). fold p in Hs.
  destruct (wait_scan s (s.(procs) c).(p_pid) (s.(procs) p).(p_children)) as [d|] eqn:Es.
  2:{ destruct (wait_scan_none _ _ _ Es c Hin) as [H _]. now destruct (H Hpid). }
  destruct (wait_scan_some _ _ _ _ Es) as (Hd & _). destruct (i_child _ I p d Hs Hd) as (_ & _ & _ & Hn & _).
  eexists. split; [|split].
  - unfold wait, bind at 1 2, gets at 1 2. fold p. destruct (p_children (procs s p)) as [|a l] eqn:E0; [now apply not_elem_of_nil in Hin|]. rewrite <- E0 in Es.
    unfold wait_loop, bind at 1 2, gets at 1 2. fold p. rewrite Es. rewrite (proj2 (Z.eqb_neq _ _) Hpid). cbn [negb].
    unfold bind at 1, gets at 1. rewrite massert_run by (rewrite bool_decide_eq_false_2; auto). unfold wait_til_exit. rewrite (proj2 (Z.eqb_neq _ _) Ho). reflexivity.
  - reflexivity.
  - reflexivity.
Qed.

(** What a step does to a process that is no one's child and a zombie: nothing. *)
Definition lost (c : Z) (s : pst) : Prop := (s.(procs) c).(p_status) = ZOMBIE /\ forall q, slot q -> c ∉ (s.(procs) q).(p_children).
Lemma wait_exit_lost c td d ps s r s' : pinv s -> s.(at_) td <> Free -> slot c -> lost c s -> d ∈ (s.(procs) (s.(td_proc) td)).(p_children) ->
  wait_exit td d ps s = Ok (r, s') -> lost c s'.
Proof.
  intros I Ha Hc [Hz Hn] Hd E. destruct (i_td _ I td Ha) as (Hs & Hu & _). destruct (i_child _ I _ d Hs Hd) as (_ & Hdp & Hpar & _).
  destruct (queue_remove_in d _ Hd) as [l' Eq]. destruct (wait_exit_run td d ps s l' Eq Hpar Hdp) as (s2 & E2 & P & C & O & _). rewrite E in E2. injection E2 as _ <-.
  pose proof (queue_remove_perm _ _ _ Eq) as Hperm. assert (Hcd : c <> d) by (intros ->; now apply (Hn _ Hs)).
  assert (Hcp : c <> s.(td_proc) td) by (intros E2; rewrite <- E2 in Hu; congruence). split; [now rewrite O|]. intros q Hq.
  destruct (decide (q = s.(td_proc) td)) as [->|Hqp]; [|destruct (decide (q = d)) as [->|Hqd]].
  - rewrite P. cbn. intros Hin. apply (Hn _ Hs). rewrite Hperm. now right.
  - rewrite C. cbn. now apply Hn.
  - rewrite O by auto. now apply Hn.
Qed.
Lemma til_lost c td d ps s r s' : pinv s -> s.(at_) td <> Free -> slot c -> lost c s -> d ∈ (s.(procs) (s.(td_proc) td)).(p_children) ->
  wait_til_loop td d ps s = Ok (r, s') -> lost c s'.
Proof.
  intros I Ha Hc HL Hd. unfold wait_til_loop, bind at 1 2, gets. destruct (bool_decide _); [|intros [= <- <-]; exact HL].
  intros H. apply bind_ok in H as (v & s1 & E & [= <- <-]). exact (wait_exit_lost c td d ps s v s1 I Ha Hc HL Hd E).
Qed.
Lemma loop_lost c td pid ps o s r s' : pinv s -> s.(at_) td <> Free -> slot c -> lost c s -> wait_loop td pid ps o s = Ok (r, s') -> lost c s'.
Proof.
  intros I Ha Hc HL. unfold wait_loop, bind at 1 2, gets at 1 2. destruct (wait_scan _ _ _) as [d|] eqn:Es.
  - destruct (wait_scan_some _ _ _ _ Es) as (Hd & _). destruct (negb _).
    + intros H. apply bind_ok in H as (y & s1 & [= <- <-] & H). apply bind_ok in H as (u & s2 & H1 & H). apply massert_ok in H1 as [_ ->].
      unfold wait_til_exit in H. destruct (negb _); [injection H as <- <-; exact HL|exact (til_lost c td d ps s r s' I Ha Hc HL Hd H)].
    + intros H. apply bind_ok in H as (v & s1 & E & [= <- <-]). exact (wait_exit_lost c td d ps s v s1 I Ha Hc HL Hd E).
  - destruct (negb _); [intros [= <- <-]; exact HL|]. destruct (negb _); intros [= <- <-]; exact HL.
Qed.

Lemma step_lost c s s' : NPROC < 65536 -> pinv s -> slot c -> lost c s -> pstep s s' -> lost c s'.
Proof.
  intros HN I Hc HL [td s1 Ha E|td ct pid s1 Hr Ha E|td code s1 Hr Hi E|td pid ps o r s1 Hr E|td r s1 Hcn Hw E|td].
  - revert E. unfold proc_create, proc_alloc, proc_addtd, bind, gets, modify, upd_proc, pid_alloc, ret, fail.
    destruct s.(proc_freelist) as [|p fl] eqn:Ef; [discriminate|]. intros [= <-]. destruct (proj1 (i_free _ I p)) as [Hp Hun]; [rewrite Ef; left|].
    destruct HL as [Hz Hn]. assert (Hcp : c <> p) by congruence. split; cbn [procs set_at set_procs set_pcnt set_plist set_tdproc].
    + now rewrite !upd_ne.
    + intros q Hq. destruct (decide (q = p)) as [->|Hne]; [rewrite !upd_eq; cbn; now apply Hn|rewrite !upd_ne by auto; now apply Hn].
  - revert E. unfold proc_fork, proc_alloc, proc_addtd, bind, gets, modify, upd_proc, pid_alloc, ret, fail.
    destruct s.(proc_freelist) as [|p fl] eqn:Ef; [discriminate|]. intros [= <- <-]. destruct (proj1 (i_free _ I p)) as [Hp Hun]; [rewrite Ef; left|].
    destruct (i_td _ I td ltac:(congruence)) as (Hs & Hu & _). set (q0 := s.(td_proc) td) in *. destruct HL as [Hz Hn]. assert (Hcp : c <> p) by congruence.
    assert (Hcq : c <> q0) by congruence. assert (Hqp : q0 <> p) by congruence.
    split; cbn [procs set_at set_procs set_pcnt set_plist set_tdproc]; [now rewrite !upd_ne|].
    intros q Hq. destruct (decide (q = q0)) as [->|Hq0].
    + rewrite upd_eq, !(upd_ne _ p) by auto. cbn. apply not_elem_of_cons. split; [exact Hcp|now apply Hn].
    + rewrite (upd_ne _ q0) by auto. destruct (decide (q = p)) as [->|Hne]; [rewrite !upd_eq; cbn; now apply Hn|rewrite !upd_ne by auto; now apply Hn].
  - destruct (td_destroy_run td code s I ltac:(congruence) Hi HN) as (t & s2 & E2 & P & O & _). rewrite E in E2. injection E2 as <-.
    destruct (i_td _ I td ltac:(congruence)) as (Hs & Hu & _). destruct HL as [Hz Hn]. assert (Hcp : c <> s.(td_proc) td) by congruence. split.
    + rewrite O by exact Hcp. rewrite bool_decide_eq_false_2 by now apply Hn. exact Hz.
    + intros q Hq. destruct (decide (q = s.(td_proc) td)) as [->|Hne]; [rewrite P; apply not_elem_of_nil|]. rewrite O by exact Hne.
      destruct (bool_decide _); [destruct (is_zombie s q)|]; cbn; now apply Hn.
  - unfold wait in E. unfold bind at 1 2, gets at 1 2 in E. destruct (p_children _); [injection E as <- <-; exact HL|].
    apply (loop_lost c td pid ps o s r s1 I ltac:(congruence) Hc HL E).
  - assert (Ha : s.(at_) td <> Free) by (intros H; rewrite H in Hw; discriminate).
    unfold wait_resume in E. unfold bind at 1, gets at 1 in E. revert E. destruct (s.(at_) td) as [| |pid ps o|d ps] eqn:Ea; try discriminate; intros E; rewrite <- Ea in Ha.
    + exact (loop_lost c td pid ps o s r s1 I Ha Hc HL E).
    + exact (til_lost c td d ps s r s1 I Ha Hc HL (i_for _ I td d ps Ea) E).
  - exact HL.
Qed.
(** When a process exits, its living children get the first process as their
    parent but are put in no list of children: once such an orphan has exited
    it stays a zombie, and its slot taken, whatever the system does. *)
Theorem orphan_stays_zombie s c s' : NPROC < 65536 -> pinv s -> slot c -> lost c s -> preach s s' -> (s'.(procs) c).(p_status) = ZOMBIE.
Proof.
  intros HN I Hc HL H. cut (pinv s' /\ lost c s'); [intros [_ [Hz _]]; exact Hz|].
  induction H as [|s1 s2 _ IH Hs]; [auto|]. destruct IH as [I1 L1]. split; [exact (step_pinv s1 s2 HN I1 Hs)|exact (step_lost c s1 s2 HN I1 Hc L1 Hs)].
Qed.
End System.

(** ** Boot *)

Definition blank_proc : proc_t := MkProc UNUSED 0 0 (MkTimes 0 0 0 0) 0 [] [].
Definition blank : pst := MkPst (fun _ => blank_proc) [] 0 (fun _ => 0) (fun _ => Free) (fun _ => None) [] [].
Lemma proc_init_loop_run n : forall s, let s' := proc_init_loop n s in
  s'.(proc_freelist) = seqZ 1 (Z.of_nat n) ++ s.(proc_freelist) /\ s'.(td_proc) = s.(td_proc) /\ s'.(at_) = s.(at_) /\ s'.(chan) = s.(chan) /\
  forall p, s'.(procs) p = if (1 <=? p) && (p <=? Z.of_nat n)
    then let x := s.(procs) p in MkProc x.(p_status) x.(p_pid) x.(p_exitcode) x.(p_times) 0 [] [] else s.(procs) p.
Proof.
  induction n as [|n IH]; intros s; cbn [proc_init_loop].
  - do 4 (split; [reflexivity|]). intros p. change (Z.of_nat 0) with 0. zcases.
  - set (s1 := set_procs _ _). destruct (IH s1) as (F & T & A & C & P). split; [|split; [exact T|split; [exact A|split; [exact C|]]]].
    + rewrite F. cbn [s1 proc_freelist set_procs set_plist]. rewrite seqZ_S, <- app_assoc. cbn [app]. do 2 f_equal. lia.
    + intros p. rewrite P. unfold s1. cbn [procs set_procs set_plist]. unfold upd. pose proof (Nat2Z.inj_succ n) as Hk. set (k := Z.of_nat (S n)) in *.
      zcases; subst; reflexivity.
Qed.
(** Boot leaves a table in which everything is free, and the invariant. *)
Lemma proc_init_pinv N : 0 <= N -> pinv N (proc_init N blank).
Proof.
  intros HN. destruct (proc_init_loop_run (Z.to_nat N) (set_plist [] blank)) as (F & T & A & C & P). unfold proc_init. set (s := proc_init_loop _ _) in *.
  rewrite Z2Nat.id in * by exact HN. cbn [proc_freelist set_plist blank td_proc at_ chan procs] in F, T, A, C, P. rewrite app_nil_r in F.
  assert (B : forall p, s.(procs) p = blank_proc) by (intros p; rewrite P; destruct (_ && _); reflexivity).
  constructor; rewrite ?F, ?T, ?A, ?C; try (intros; rewrite ?B in *; cbn in *; (congruence || now apply not_elem_of_nil in H0)).
  - apply NoDup_seqZ.
  - intros p. rewrite elem_of_seqZ, B. unfold slot. cbn. intuition lia.
  - intros p _. rewrite B. cbn. auto.
  - intros p _. rewrite B. cbn. apply NoDup_nil_2.
Qed.

(** ** Runs *)



Definition p0 : pst := proc_init 8 blank.
(** The first process forks a child, which forks a child of its own. *)
Definition p1 : pst := after (proc_create 101) p0.
Definition p2 : pst := after (proc_fork 101 102) p1.
Definition p3 : pst := after (proc_fork 102 103) p2.
Lemma p3_reach : preach p0 p3.
Proof.
  apply (pr_step _ p2); [apply (pr_step _ p1); [apply (pr_step _ p0); [constructor|]|]|].
  - apply (s_create p0 101 p1); [evals|]. runs (proc_create 101) p0 tt.
  - apply (s_fork p1 101 102 131073 p2); [evals|evals|]. runs (proc_fork 101 102) p1 131073.
  - apply (s_fork p2 102 103 196610 p3); [evals|evals|]. runs (proc_fork 102 103) p2 196610.
Qed.
Lemma p0_inv : pinv 8 p0.
Proof. apply proc_init_pinv. lia. Qed.
Lemma p3_inv : pinv 8 p3.
Proof. apply (reach_pinv 8 p0); [lia|apply p0_inv|apply p3_reach]. Qed.
(** The child waits for its own; then that one exits. *)
Definition p4 : pst := after (wait 102 (-1) 0 0) p3.
Definition p5 : pst := after (td_destroy 103 7) p3.
Lemma p4_step : pstep p3 p4.
Proof. apply (s_wait p3 102 (-1) 0 0 None p4); [evals|]. runs (wait 102 (-1) 0 0) p3 (@None Z). Qed.
Lemma p5_step : pstep p3 p5.
Proof. apply (s_exit p3 103 7 p5); [evals|vm_compute; discriminate|]. runs (td_destroy 103 7) p3 tt. Qed.
Lemma p5_inv : pinv 8 p5.
Proof. apply (step_pinv 8 p3); [lia|apply p3_inv|apply p5_step]. Qed.

Lemma p3_children : (p3.(procs) 2).(p_children) = [3].
Proof. evals. Qed.
Lemma p4_facts : p4.(chan) 102 = Some 2 /\ p4.(at_) 102 = WaitAny (-1) 0 0 /\ p4.(td_proc) 102 = 2 /\ (p4.(procs) 2).(p_children) = [3].
Proof. repeat split; evals. Qed.
Lemma p5_facts : p5.(at_) 102 = Run /\ p5.(td_proc) 102 = 2 /\ (p5.(procs) 2).(p_children) = [3] /\ (p5.(procs) 3).(p_status) = ZOMBIE /\
  (p5.(procs) 3).(p_pid) = 196610 /\ (p5.(procs) 3).(p_exitcode) = 7 /\ p5.(status_out) = [].
Proof. repeat split; evals. Qed.
Lemma wait_no_lost_exit_witness : p4.(chan) 102 = Some 2 /\ (p4.(procs) 3).(p_status) = USED.
Proof.
  destruct p4_facts as (Ec & Ea & Ep & El). split; [exact Ec|]. assert (Hr : preach p0 p4) by exact (pr_step p0 p3 p4 p3_reach p4_step).
  destruct (wait_no_lost_exit 8 p0 p4 ltac:(lia) p0_inv Hr 102 2 Ec) as (_ & H). rewrite Ea, Ep in H. apply (H 3). rewrite El. left.
Defined.
Lemma wait_collects_witness : exists s', wait 102 (-1) 4096 0 p5 = Ok (Some (p5.(procs) 3).(p_pid), s') /\ (s'.(procs) 2).(p_children) = [] /\
  s'.(status_out) = [(2, 4096, 1792)].
Proof.
  destruct p5_facts as (Ha & Ep & El & Ez & _ & Ex & Es).
  destruct (wait_collects 8 p5 102 4096 0 [] 3 [] p5_inv Ha) as (s' & E & P & _ & _ & _ & _ & So); [rewrite Ep; exact El|exact Ez|constructor|].
  rewrite Ep in P, So. rewrite Ex, Es in So. exists s'. split; [exact E|]. split; [rewrite P; reflexivity|exact So].
Defined.
Lemma waitpid_nohang_skips_zombie_witness : exists s', wait 102 (p5.(procs) 3).(p_pid) 0 1 p5 = Ok (Some 0, s') /\ (s'.(procs) 3).(p_status) = ZOMBIE.
Proof.
  destruct p5_facts as (Ha & Ep & El & Ez & Epid & _).
  destruct (waitpid_nohang_skips_zombie 8 p5 102 3 0 1 p5_inv Ha) as (s' & E & P & _); [rewrite Ep, El; left|exact Ez|rewrite Epid; discriminate|discriminate|].
  exists s'. split; [exact E|]. rewrite P. exact Ez.
Defined.
(** The child exits before its own child does. *)
Definition p6 : pst := after (td_destroy 102 0) p3.
Definition p7 : pst := after (td_destroy 103 0) p6.
Lemma p7_reach : preach p0 p7.
Proof.
  apply (pr_step _ p6); [apply (pr_step _ p3); [apply p3_reach|]|].
  - apply (s_exit p3 102 0 p6); [evals|vm_compute; discriminate|]. runs (td_destroy 102 0) p3 tt.
  - apply (s_exit p6 103 0 p7); [evals|vm_compute; discriminate|]. runs (td_destroy 103 0) p6 tt.
Qed.
Lemma slot8 q : slot 8 q -> q = 1 \/ q = 2 \/ q = 3 \/ q = 4 \/ q = 5 \/ q = 6 \/ q = 7 \/ q = 8.
Proof. unfold slot. lia. Qed.
Lemma p7_lost : lost 8 3 p7.
Proof.
  split; [evals|]. intros q Hq. destruct (slot8 q Hq) as [->|[->|[->|[->|[->|[->|[-> | ->]]]]]]]; vm_compute; intros H;
    repeat (apply elem_of_cons in H as [H|H]; [discriminate H|]); now apply not_elem_of_nil in H.
Qed.
Lemma orphan_stays_zombie_witness : preach p0 p7 /\ (p7.(procs) 3).(p_parent) = INIT_PROC /\
  (forall s', preach p7 s' -> (s'.(procs) 3).(p_status) = ZOMBIE).
Proof.
  split; [apply p7_reach|]. split; [evals|]. intros s'.
  apply (orphan_stays_zombie 8 p7 3 s'); [lia|exact (reach_pinv 8 p0 p7 ltac:(lia) p0_inv p7_reach)|unfold slot; lia|apply p7_lost].
Defined.

(** ** Processes with several threads *)

(** A second thread of process 2, and the exit of both threads. *)
Definition d1 : pst := after (td_fork 102 104) p3.
Definition d2 : pst := after (td_destroy_finish 102 0 false) d1.
Definition d3 : pst := after (td_destroy_finish 104 0 false) d2.
Lemma check_run td s b : value (td_destroy_check td) s = Some b -> td_destroy_check td s = Ok (b, s).
Proof. unfold value, td_destroy_check, bind, gets, ret. now intros [= <-]. Qed.
(** Two threads of a process that exit at the same time: each finds that it is
    not the last one, so no one ends the process; it has no thread left and
    does not become a zombie. *)
Theorem td_destroy_race :
  td_destroy_check 102 d1 = Ok (false, d1) /\ td_destroy_check 104 d1 = Ok (false, d1) /\
  td_destroy_finish 102 0 false d1 = Ok (tt, d2) /\ td_destroy_finish 104 0 false d2 = Ok (tt, d3) /\
  (d3.(procs) 2).(p_threads) = [] /\ (d3.(procs) 2).(p_status) = USED.
Proof.
  split; [apply check_run; evals|]. split; [apply check_run; evals|]. split; [runs (td_destroy_finish 102 0 false) d1 tt|].
  split; [runs (td_destroy_finish 104 0 false) d2 tt|]. split; evals.
Qed.

(** Two threads of process 2 in [wait], step by step. *)
Definition w1 : pst := after (wait 102 196610 0 0) d1.
Definition w2 : pst := after (wait 104 (-1) 0 0) w1.
Definition w3 : pst := after (td_destroy 103 5) w2.
Definition w4 : pst := after (wait_resume 104) w3.
Definition w5 : pst := after (proc_fork 101 105) w4.
Definition w6 : pst := after (td_destroy 105 9) w5.
Definition w7 : pst := after (wait_resume 102) w6.
(** Two threads of one process in [wait], one of them for a certain child: the
    other one collects that child, the slot is given to a child of another
    process, and when that exits the first thread collects it.  Its parent is
    left without it. *)
Theorem wait_takes_foreign_child :
  wait 102 196610 0 0 d1 = Ok (None, w1) /\ wait 104 (-1) 0 0 w1 = Ok (None, w2) /\ td_destroy 103 5 w2 = Ok (tt, w3) /\
  wait_resume 104 w3 = Ok (Some 196610, w4) /\ proc_fork 101 105 w4 = Ok (262146, w5) /\ (w5.(procs) 3).(p_parent) = 1 /\ td_destroy 105 9 w5 = Ok (tt, w6) /\
  wait_resume 102 w6 = Ok (Some 262146, w7) /\ (w6.(procs) 1).(p_children) = [3; 2] /\ (w7.(procs) 1).(p_children) = [2].
Proof.
  split; [runs (wait 102 196610 0 0) d1 (@None Z)|]. split; [runs (wait 104 (-1) 0 0) w1 (@None Z)|]. split; [runs (td_destroy 103 5) w2 tt|].
  split; [runs (wait_resume 104) w3 (Some 196610)|]. split; [runs (proc_fork 101 105) w4 262146|]. split; [evals|].
  split; [runs (td_destroy 105 9) w5 tt|]. split; [runs (wait_resume 102) w6 (Some 262146)|]. split; evals.
Qed.
