(* ===== verification/FdTable.v ===== *)
(** * Descriptors: the kernel's table of open files and the tables of processes

    [src/kern/fs/fd/fd.c], [src/kern/fs/thread_fs.c], [openat] of
    [src/kern/fs/fd/file.c], [pipe] of [src/kern/fs/fd/pipe.c] and the console
    descriptors of [src/kern/fs/fd/console.c].  A descriptor of a process
    ([fdList]) is an index into the kernel's table [fds]; a bitmap says which
    entries are taken and [refcnt] how many descriptors name an entry.

    An entry's device is a table of functions; the devices, and the functions
    of the file system that [openat] calls, are the interfaces [FdRw], [FdClose],
    [FileStat] and [Vfs] over the state [W] behind them.  A process is named by its index.
    The calls of one process are taken one at a time; [fdAlloc] holds [mtx_fd],
    reference counts are changed atomically, and everything else a call touches
    is its own process's table or an entry that no one else names, so a call is
    one step.  A process with several threads is the subject of
    [fork_during_open_panics]. *)

From S2P Require Import Prelude.
From Stdlib Require Import ZArith Lia Bool.
From stdpp Require Import base tactics numbers list.
Open Scope Z_scope.

(** ** Data *)

Record Fd : Type := MkFdesc {
  dirent : Z;
  pipe_ : Z;
  type_ : Z;
  offset : Z;
  flags : Z;
  st_mode : Z;
  fd_dev : Z;
  refcnt : Z;
  socket : Z
}.
Definition zeroFd : Fd := MkFdesc 0 0 0 0 0 0 0 0 0.
Definition with_refcnt n x := MkFdesc x.(dirent) x.(pipe_) x.(type_) x.(offset) x.(flags) x.(st_mode) x.(fd_dev) n x.(socket).
Definition with_offset o x := MkFdesc x.(dirent) x.(pipe_) x.(type_) o x.(flags) x.(st_mode) x.(fd_dev) x.(refcnt) x.(socket).
Definition with_flags f x := MkFdesc x.(dirent) x.(pipe_) x.(type_) x.(offset) f x.(st_mode) x.(fd_dev) x.(refcnt) x.(socket).
(** What [openat], [pipe] and the console set of a fresh entry. *)
Definition opened d p t o f m dev x := MkFdesc d p t o f m dev x.(refcnt) x.(socket).

Record thread_fs : Type := MkTfs {
  fdList : list Z;
  cwd : list Z;
  cwd_dirent : Z;
  mmap_addr : Z;
  rlimit_files_cur : Z;
  rlimit_files_max : Z
}.
Definition with_fdList l t := MkTfs l t.(cwd) t.(cwd_dirent) t.(mmap_addr) t.(rlimit_files_cur) t.(rlimit_files_max).
Definition with_cwd c t := MkTfs t.(fdList) c t.(cwd_dirent) t.(mmap_addr) t.(rlimit_files_cur) t.(rlimit_files_max).
Definition with_cwd_dirent d t := MkTfs t.(fdList) t.(cwd) d t.(mmap_addr) t.(rlimit_files_cur) t.(rlimit_files_max).
Definition with_rlimit c m t := MkTfs t.(fdList) t.(cwd) t.(cwd_dirent) t.(mmap_addr) c m.

Definition FDNUM : Z := 1024.
Definition MAX_FD_COUNT : Z := 256.
Definition AT_FDCWD : Z := -100.
Definition EBADF : Z := 9.
Definition EFAULT : Z := 14.
Definition EINVAL : Z := 22.
Definition ENFILE : Z := 23.
Definition EMFILE : Z := 24.
Definition ESPIPE : Z := 29.
Definition O_RDONLY : Z := 0.
Definition O_WRONLY : Z := 1.
Definition O_RDWR : Z := 2.
Definition O_ACCMODE : Z := 3.
Definition O_CREATE : Z := 64.
Definition O_TRUNC : Z := 512.
Definition O_APPEND : Z := 1024.
Definition O_CLOEXEC : Z := 524288.
Definition dev_file : Z := 1.
Definition dev_pipe : Z := 2.
Definition dev_console : Z := 3.
Definition MMAP_START : Z := 25769803776.

(** The device tables [&fd_dev_file], [&fd_dev_pipe] and [&fd_dev_console]. *)
Definition fd_dev_file : Z := 102.
Definition fd_dev_pipe : Z := 112.
Definition fd_dev_console : Z := 99.

(** ** What the table calls *)

(** The functions of a device ([struct FdDev]), by the address of its table.
    [dev_read] and [dev_write] get the entry, a user address, a length and an
    offset, and return the result and the entry's new offset; [copy_in_iov]
    reads a [struct iovec] of the user's memory. *)
Class FdRw (W : Type) : Type := {
  dev_read : Z -> Fd -> Z -> Z -> Z -> M W (Z * Z);
  dev_write : Z -> Fd -> Z -> Z -> Z -> M W (Z * Z);
  copy_in_iov : Z -> M W (Z * Z)
}.
Class FdClose (W : Type) : Type := { dev_close : Z -> Fd -> M W Z }.
(** The size that [fileStat] reports. *)
Class FileStat (W : Type) : Type := { stat_size : Z -> M W Z }.
(** [getFile] and [createFile] return a code and the entry of the tree;
    [copyInStr] reads a name of the user's memory, [new_pipe] is [kvmAlloc]
    and the initialisation of a [struct Pipe]. *)
Class Vfs (W : Type) : Type := {
  getFile : Z -> list Z -> M W (Z * Z);
  createFile : Z -> list Z -> M W (Z * Z);
  file_shrink : Z -> Z -> M W unit;
  file_close : Z -> M W unit;
  copyInStr : Z -> M W (list Z);
  new_pipe : M W Z
}.

Section Table.
Context {W : Type} `{!FdRw W} `{!FdClose W} `{!FileStat W} `{!Vfs W}.

Record fdst : Type := MkFdst {
  fdBitMap : Z -> Z;
  fds : Z -> Fd;
  p_fs : Z -> thread_fs;
  readconsole : Z;
  writeconsole : Z;
  errorconsole : Z;
  world : W
}.
Definition set_bitmap f s := MkFdst f s.(fds) s.(p_fs) s.(readconsole) s.(writeconsole) s.(errorconsole) s.(world).
Definition set_fds f s := MkFdst s.(fdBitMap) f s.(p_fs) s.(readconsole) s.(writeconsole) s.(errorconsole) s.(world).
Definition set_pfs f s := MkFdst s.(fdBitMap) s.(fds) f s.(readconsole) s.(writeconsole) s.(errorconsole) s.(world).
Definition set_consoles a b c s := MkFdst s.(fdBitMap) s.(fds) s.(p_fs) a b c s.(world).
Definition set_world w s := MkFdst s.(fdBitMap) s.(fds) s.(p_fs) s.(readconsole) s.(writeconsole) s.(errorconsole) w.

Definition upd_fd (i : Z) (f : Fd -> Fd) : M fdst unit := modify (fun s => set_fds (upd s.(fds) i (f (s.(fds) i))) s).
Definition upd_fs (p : Z) (f : thread_fs -> thread_fs) : M fdst unit := modify (fun s => set_pfs (upd s.(p_fs) p (f (s.(p_fs) p))) s).
(** A call of a device or of the file system. *)
Definition on_world {A : Type} (c : M W A) : M fdst A := fun s =>
  match c s.(world) with Ok (a, w) => Ok (a, set_world w s) | Err f => Err f end.

(** [fs_struct->fdList[i]]; an index outside of the array is invalid. *)
Definition fd_slot (p i : Z) : M fdst Z :=
  let* t := gets (fun s => s.(p_fs) p) in
  match (if i <? 0 then None else t.(fdList) !! Z.to_nat i) with Some k => ret k | None => fail BadPtr end.
Definition set_fd_slot (p i v : Z) : M fdst unit :=
  let* _ := fd_slot p i in upd_fs p (fun t => with_fdList (<[Z.to_nat i := v]> t.(fdList)) t).

(** ** The kernel's table *)

(** Whether entry [i] is taken, and the two updates of its bit. *)
Definition bit_taken (bm : Z -> Z) (i : Z) : bool :=
  negb (Z.land (bm (Z.shiftr i 5)) (Z.shiftl 1 (Z.land i 31)) =? 0).
Definition bit_take (bm : Z -> Z) (i : Z) : Z -> Z :=
  let index := Z.shiftr i 5 in upd bm index (Z.lor (bm index) (Z.shiftl 1 (Z.land i 31))).
Definition bit_clear (bm : Z -> Z) (i : Z) : Z -> Z :=
  let index := Z.shiftr i 5 in upd bm index (Z.land (bm index) (wrap32 (Z.lnot (Z.shiftl 1 (Z.land i 31))))).

Fixpoint fdAlloc_loop (n : nat) (i : Z) : M fdst Z :=
  match n with
  | O => ret (- ENFILE)
  | S n' =>
      let* bm := gets fdBitMap in
      if bit_taken bm i then fdAlloc_loop n' (i + 1)
      else
        modify (set_bitmap (bit_take bm i)) ;;;
        upd_fd i (fun _ => with_refcnt 1 zeroFd) ;;;
        ret i
  end.
Definition fdAlloc : M fdst Z := fdAlloc_loop (Z.to_nat FDNUM) 0.

Definition cloneAddCite (i : Z) : M fdst unit :=
  massert ((0 <=? i) && (i <? FDNUM)) ;;;
  upd_fd i (fun x => with_refcnt (wrap32 (x.(refcnt) + 1)) x).

Definition freeFd (i : Z) : M fdst unit :=
  massert ((0 <=? i) && (i <? FDNUM)) ;;;
  upd_fd i (fun x => with_refcnt (wrap32 (x.(refcnt) - 1)) x) ;;;
  let* x := gets (fun s => s.(fds) i) in
  if x.(refcnt) =? 0 then
    (if negb (x.(fd_dev) =? 0) then let* _ := on_world (dev_close x.(fd_dev) x) in ret tt else ret tt) ;;;
    upd_fd i (fun _ => zeroFd) ;;;
    modify (fun s => set_bitmap (bit_clear s.(fdBitMap) i) s)
  else ret tt.

(** ** The table of a process *)

(** The common test of a descriptor: the entry it names, or [EBADF]. *)
Definition kern_fd (p fd : Z) : M fdst (option Z) :=
  let* t := gets (fun s => s.(p_fs) p) in
  if (fd <? 0) || (t.(rlimit_files_cur) <=? fd) then ret None
  else
    let* k := fd_slot p fd in
    if (k <? 0) || (FDNUM <=? k) then ret None else ret (Some k).

Definition closeFd (p fd : Z) : M fdst Z :=
  let* k := kern_fd p fd in
  match k with
  | None => ret (- EBADF)
  | Some kernFd =>
      freeFd kernFd ;;;
      set_fd_slot p fd (-1) ;;;
      ret 0
  end.

Fixpoint alloc_ufd_loop (n : nat) (p i : Z) : M fdst Z :=
  match n with
  | O => ret (- EMFILE)
  | S n' =>
      let* k := fd_slot p i in
      if k =? -1 then set_fd_slot p i (FDNUM + 1) ;;; ret i
      else alloc_ufd_loop n' p (i + 1)
  end.
Definition alloc_ufd (p : Z) : M fdst Z :=
  let* t := gets (fun s => s.(p_fs) p) in alloc_ufd_loop (Z.to_nat t.(rlimit_files_cur)) p 0.

Definition free_ufd (p ufd : Z) : M fdst unit :=
  let* k := fd_slot p ufd in
  massert (negb (k =? -1)) ;;;
  set_fd_slot p ufd (-1).

Definition dup (p fd : Z) : M fdst Z :=
  let* k := kern_fd p fd in
  match k with
  | None => ret (- EBADF)
  | Some kernFd =>
      let* newFd := alloc_ufd p in
      if newFd <? 0 then ret newFd
      else
        set_fd_slot p newFd kernFd ;;;
        cloneAddCite kernFd ;;;
        ret newFd
  end.

Definition dup3 (p old new : Z) : M fdst Z :=
  if old =? new then ret (- EINVAL)
  else
    let* t := gets (fun s => s.(p_fs) p) in
    let lim := t.(rlimit_files_cur) in
    if (old <? 0) || (lim <=? old) then ret (- EBADF)
    else if (new <? 0) || (lim <=? new) then ret (- EBADF)
    else
      let* kn := fd_slot p new in
      if FDNUM <=? kn then ret (- EBADF)
      else
        (if 0 <=? kn then freeFd kn else ret tt) ;;;
        let* ko := fd_slot p old in
        if (ko <? 0) || (FDNUM <=? ko) then ret (- EBADF)
        else
          set_fd_slot p new ko ;;;
          cloneAddCite ko ;;;
          ret new.

(** The directory or file behind a descriptor, with the kernel entry when there
    is one; [AT_FDCWD] is the working directory when a [dirent] is asked for. *)
Definition get_cwd_dirent (p : Z) : M fdst Z :=
  let* t := gets (fun s => s.(p_fs) p) in
  if negb (t.(cwd_dirent) =? 0) then ret t.(cwd_dirent)
  else
    let* (r, d) := on_world (getFile 0 t.(cwd)) in
    massert (r =? 0) ;;;
    upd_fs p (with_cwd_dirent d) ;;;
    ret d.
Definition getDirentByFd (p fd : Z) : M fdst (Z * Z * option Z) :=
  if fd =? AT_FDCWD then
    let* d := get_cwd_dirent p in
    if d =? 0 then ret (- EBADF, d, None) else ret (0, d, None)
  else
    let* k := kern_fd p fd in
    match k with
    | None => ret (- EBADF, 0, None)
    | Some k => let* x := gets (fun s => s.(fds) k) in ret (0, x.(dirent), Some k)
    end.

(** ** Opening *)

Definition first_char (name : list Z) : Z := nth 0 name 0.

(** Where [openat] starts: the working directory, the directory of [fd], or
    nothing for an absolute path; [None] is a bad [fd]. *)
Definition open_base (p fd : Z) (name : list Z) : M fdst (option Z) :=
  if fd =? AT_FDCWD then
    let* d := get_cwd_dirent p in
    massert (negb (d =? 0)) ;;; ret (Some d)
  else if negb (first_char name =? 47) then
    let* k := kern_fd p fd in
    match k with
    | None => ret None
    | Some k => let* x := gets (fun s => s.(fds) k) in ret (Some x.(dirent))
    end
  else ret (Some 0).

(** The file to open, created if it is missing and [O_CREATE] is set. *)
Definition open_file (d : Z) (name : list Z) (flags : Z) : M fdst (Z * Z) :=
  let* (r, file) := on_world (getFile d name) in
  if (r <? 0) && (Z.land flags O_CREATE =? O_CREATE) then on_world (createFile d name) else ret (r, file).

Definition openat (p fd filename flags mode : Z) : M fdst Z :=
  if filename =? 0 then ret (- EFAULT)
  else
    let* name := on_world (copyInStr filename) in
    let* base := open_base p fd name in
    match base with
    | None => ret (- EBADF)
    | Some d =>
        let* userFd := alloc_ufd p in
        if userFd <? 0 then ret userFd
        else
          let* kernFd := fdAlloc in
          if kernFd <? 0 then free_ufd p userFd ;;; ret kernFd
          else
            let* (r, file) := open_file d name flags in
            if r <? 0 then free_ufd p userFd ;;; freeFd kernFd ;;; ret r
            else
              (if negb (Z.land flags O_TRUNC =? 0) then on_world (file_shrink file 0) else ret tt) ;;;
              let* off := (if negb (Z.land flags O_APPEND =? 0) then on_world (stat_size file) else ret 0) in
              upd_fd kernFd (opened file 0 dev_file off flags mode fd_dev_file) ;;;
              set_fd_slot p userFd kernFd ;;;
              ret userFd
    end.

Definition free_both_ufd (p ufd1 ufd2 : Z) : M fdst unit :=
  (if 0 <=? ufd1 then free_ufd p ufd1 else ret tt) ;;;
  (if 0 <=? ufd2 then free_ufd p ufd2 else ret tt).

(** [pipe]: a code and the two descriptors. *)
Definition pipe (p : Z) : M fdst (Z * (Z * Z)) :=
  let* fd1 := alloc_ufd p in
  let* fd2 := alloc_ufd p in
  if (fd1 <? 0) || (fd2 <? 0) then free_both_ufd p fd1 fd2 ;;; ret (- EMFILE, (-1, -1))
  else
    let* kernfd1 := fdAlloc in
    if kernfd1 <? 0 then free_both_ufd p fd1 fd2 ;;; ret (kernfd1, (-1, -1))
    else
      let* kernfd2 := fdAlloc in
      if kernfd2 <? 0 then free_both_ufd p fd1 fd2 ;;; freeFd kernfd1 ;;; ret (kernfd2, (-1, -1))
      else
        let* q := on_world new_pipe in
        upd_fd kernfd1 (fun x => opened 0 q dev_pipe 0 O_RDONLY x.(st_mode) fd_dev_pipe x) ;;;
        set_fd_slot p fd1 kernfd1 ;;;
        upd_fd kernfd2 (fun x => opened 0 q dev_pipe 0 O_WRONLY x.(st_mode) fd_dev_pipe x) ;;;
        set_fd_slot p fd2 kernfd2 ;;;
        ret (0, (fd1, fd2)).

(** ** Processes *)

(** The three console entries are allocated once and shared; [fdAlloc] is not
    checked, so its error is used as an index. *)
Definition console_alloc (get : fdst -> Z) (set : Z -> fdst -> fdst) (f : Z) : M fdst Z :=
  let* k := gets get in
  if k =? -1 then
    let* k := fdAlloc in
    modify (set k) ;;;
    (if k <? 0 then fail BadPtr else ret tt) ;;;
    upd_fd k (fun x => MkFdesc x.(dirent) x.(pipe_) dev_console x.(offset) f x.(st_mode) fd_dev_console x.(refcnt) x.(socket)) ;;;
    ret k
  else cloneAddCite k ;;; ret k.
Definition readConsoleAlloc : M fdst Z :=
  console_alloc readconsole (fun k s => set_consoles k s.(writeconsole) s.(errorconsole) s) O_RDONLY.
Definition writeConsoleAlloc : M fdst Z :=
  console_alloc writeconsole (fun k s => set_consoles s.(readconsole) k s.(errorconsole) s) O_WRONLY.
Definition errorConsoleAlloc : M fdst Z :=
  console_alloc errorconsole (fun k s => set_consoles s.(readconsole) s.(writeconsole) k s) O_RDWR.

(** The part of [proc_alloc] that zeroes [p_fs_struct]. *)
Definition zero_fs : thread_fs := MkTfs (replicate (Z.to_nat MAX_FD_COUNT) 0) [] 0 0 0 0.

Definition init_thread_fs (p : Z) : M fdst unit :=
  upd_fs p (fun t => with_cwd [47] (with_fdList (replicate (Z.to_nat MAX_FD_COUNT) (-1)) t)) ;;;
  let* k := readConsoleAlloc in set_fd_slot p 0 k ;;;
  let* k := writeConsoleAlloc in set_fd_slot p 1 k ;;;
  let* k := errorConsoleAlloc in set_fd_slot p 2 k ;;;
  upd_fs p (fun t => MkTfs t.(fdList) t.(cwd) 0 MMAP_START MAX_FD_COUNT MAX_FD_COUNT).

Fixpoint fork_loop (n : nat) (old new i : Z) : M fdst unit :=
  match n with
  | O => ret tt
  | S n' =>
      let* kFd := fd_slot old i in
      (if negb (kFd =? -1) then cloneAddCite kFd else ret tt) ;;;
      set_fd_slot new i kFd ;;;
      fork_loop n' old new (i + 1)
  end.
Definition fork_thread_fs (old new : Z) : M fdst unit :=
  let* t := gets (fun s => s.(p_fs) old) in
  upd_fs new (with_cwd t.(cwd)) ;;;
  fork_loop (Z.to_nat MAX_FD_COUNT) old new 0 ;;;
  let* t := gets (fun s => s.(p_fs) old) in
  upd_fs new (fun u => MkTfs u.(fdList) u.(cwd) u.(cwd_dirent) t.(mmap_addr) t.(rlimit_files_cur) t.(rlimit_files_max)).

Fixpoint recycle_loop (n : nat) (p i : Z) : M fdst unit :=
  match n with
  | O => ret tt
  | S n' =>
      let* kFd := fd_slot p i in
      (if negb (kFd =? -1) then freeFd kFd else ret tt) ;;;
      recycle_loop n' p (i + 1)
  end.
Definition recycle_thread_fs (p : Z) : M fdst unit :=
  upd_fs p (with_cwd []) ;;;
  recycle_loop (Z.to_nat MAX_FD_COUNT) p 0 ;;;
  let* t := gets (fun s => s.(p_fs) p) in
  if negb (t.(cwd_dirent) =? 0) then on_world (file_close t.(cwd_dirent)) else ret tt.

(** [sys_prlimit64] for [RLIMIT_NOFILE] with a new limit. *)
Definition set_nofile (p rlim_cur rlim_max : Z) : M fdst Z :=
  if rlim_max <? rlim_cur then ret (- EINVAL)
  else if MAX_FD_COUNT <? rlim_max then ret (- EINVAL)
  else upd_fs p (with_rlimit rlim_cur rlim_max) ;;; ret 0.

(** ** Reading and writing *)

Definition dev_call {A : Type} (x : Fd) (c : M W A) : M fdst A :=
  if x.(fd_dev) =? 0 then fail BadPtr else on_world c.

(** [readable] and [writable] are the tests on [flags]. *)
Definition unreadable (x : Fd) : bool := Z.land x.(flags) O_ACCMODE =? O_WRONLY.
Definition unwritable (x : Fd) : bool := Z.land x.(flags) O_ACCMODE =? O_RDONLY.

(** A call on the entry of [fd] after the test [bad] of its flags. *)
Definition with_kfd (p fd : Z) (bad : Fd -> bool) (k : Z -> M fdst Z) : M fdst Z :=
  let* r := kern_fd p fd in
  match r with
  | None => ret (- EBADF)
  | Some kernFd =>
      let* x := gets (fun s => s.(fds) kernFd) in
      if bad x then ret (- EINVAL) else k kernFd
  end.
Definition fd_read (k buf n off : Z) : M fdst Z :=
  let* x := gets (fun s => s.(fds) k) in
  let* (r, o) := dev_call x (dev_read x.(fd_dev) x buf n off) in
  upd_fd k (with_offset o) ;;; ret r.
Definition fd_write (k buf n off : Z) : M fdst Z :=
  let* x := gets (fun s => s.(fds) k) in
  let* (r, o) := dev_call x (dev_write x.(fd_dev) x buf n off) in
  upd_fd k (with_offset o) ;;; ret r.

Definition read (p fd buf count : Z) : M fdst Z :=
  with_kfd p fd unreadable (fun k => let* x := gets (fun s => s.(fds) k) in fd_read k buf count x.(offset)).
Definition write (p fd buf count : Z) : M fdst Z :=
  with_kfd p fd unwritable (fun k => let* x := gets (fun s => s.(fds) k) in fd_write k buf count x.(offset)).
Definition pread64 (p fd buf count off : Z) : M fdst Z :=
  with_kfd p fd unreadable (fun k =>
    let* x := gets (fun s => s.(fds) k) in
    let* r := fd_read k buf count off in
    upd_fd k (with_offset x.(offset)) ;;; ret r).
Definition pwrite64 (p fd buf count off : Z) : M fdst Z :=
  with_kfd p fd unwritable (fun k =>
    let* x := gets (fun s => s.(fds) k) in
    let* r := fd_write k buf count off in
    upd_fd k (with_offset x.(offset)) ;;; ret r).

(** [n] entries of the array at [iov], 16 bytes each, are left. *)
Fixpoint readv_loop (n : nat) (k iov total : Z) : M fdst Z :=
  match n with
  | O => ret total
  | S n' =>
      let* (base, iov_len) := on_world (copy_in_iov iov) in
      let* x := gets (fun s => s.(fds) k) in
      let* len := fd_read k base iov_len x.(offset) in
      if len <? 0 then ret len
      else
        let total := sext32 (total + len) in
        if len <? iov_len then ret total else readv_loop n' k (iov + 16) total
  end.
Definition readv (p fd iov iovcnt : Z) : M fdst Z :=
  with_kfd p fd unreadable (fun k => readv_loop (Z.to_nat iovcnt) k iov 0).
Fixpoint writev_loop (n : nat) (k iov total : Z) : M fdst Z :=
  match n with
  | O => ret total
  | S n' =>
      let* (base, iov_len) := on_world (copy_in_iov iov) in
      if iov_len =? 0 then writev_loop n' k (iov + 16) total
      else
        let* x := gets (fun s => s.(fds) k) in
        let* len := fd_write k base iov_len x.(offset) in
        if len <? 0 then ret len
        else
          let total := sext32 (total + len) in
          if len <? iov_len then ret total else writev_loop n' k (iov + 16) total
  end.
Definition writev (p fd iov iovcnt : Z) : M fdst Z :=
  with_kfd p fd unwritable (fun k => writev_loop (Z.to_nat iovcnt) k iov 0).

Definition SEEK_SET : Z := 0.
Definition SEEK_CUR : Z := 1.
Definition SEEK_END : Z := 2.
Definition SEEK_DATA : Z := 3.
Definition SEEK_HOLE : Z := 4.

(** The error code and the offset that [lseekFd] computes. *)
Definition seek_target (x : Fd) (off whence : Z) : M fdst (Z * Z) :=
  if (whence =? SEEK_SET) || (whence =? SEEK_DATA) then ret (0, off)
  else if whence =? SEEK_CUR then ret (0, x.(offset) + off)
  else if whence =? SEEK_END then
    if negb (x.(type_) =? dev_file) then ret (- ESPIPE, 0)
    else let* size := on_world (stat_size x.(dirent)) in ret (0, size + off)
  else if whence =? SEEK_HOLE then
    if x.(dirent) =? 0 then fail BadPtr
    else let* size := on_world (stat_size x.(dirent)) in ret (0, size)
  else ret (- EINVAL, 0).
Definition lseekFd (p fd off whence : Z) : M fdst Z :=
  with_kfd p fd (fun _ => false) (fun k =>
    let* x := gets (fun s => s.(fds) k) in
    let* (r, new_off) := seek_target x off whence in
    if r <? 0 then ret r
    else if new_off <? 0 then ret (- EINVAL)
    else upd_fd k (with_offset (wrap32 new_off)) ;;; ret new_off).

Definition FCNTL_GETFD : Z := 1.
Definition FCNTL_SETFD : Z := 2.
Definition FCNTL_GET_FILE_STATUS : Z := 3.
Definition FCNTL_SETFL : Z := 4.
Definition FCNTL_DUPFD_CLOEXEC : Z := 1030.
Definition sys_fcntl (p fd cmd arg : Z) : M fdst Z :=
  let* k := kern_fd p fd in
  match k with
  | None => ret (-1)
  | Some k =>
      let* x := gets (fun s => s.(fds) k) in
      if cmd =? FCNTL_GETFD then ret (if negb (Z.land x.(flags) O_CLOEXEC =? 0) then 1 else 0)
      else if cmd =? FCNTL_SETFD then
        upd_fd k (with_flags (if negb (Z.land arg 1 =? 0) then Z.lor x.(flags) O_CLOEXEC
                              else Z.land x.(flags) (wrap32 (Z.lnot O_CLOEXEC)))) ;;; ret 0
      else if cmd =? FCNTL_GET_FILE_STATUS then ret (sext32 x.(flags))
      else if cmd =? FCNTL_DUPFD_CLOEXEC then dup p fd
      else if cmd =? FCNTL_SETFL then upd_fd k (with_flags (wrap32 arg)) ;;; ret 0
      else ret 0
  end.

(** ** Counting references *)

(** How many descriptors of the list [l] name the entry [k], and how many of
    all the processes of [live]. *)
Fixpoint nocc (k : Z) (l : list Z) : Z :=
  match l with [] => 0 | x :: l' => (if x =? k then 1 else 0) + nocc k l' end.
Fixpoint refs_in (f : Z -> thread_fs) (live : list Z) (k : Z) : Z :=
  match live with [] => 0 | p :: live' => nocc k (f p).(fdList) + refs_in f live' k end.
Definition refs (s : fdst) (live : list Z) (k : Z) : Z := refs_in s.(p_fs) live k.

Definition one (k x : Z) : Z := if x =? k then 1 else 0.
Definition entry (k : Z) : Prop := 0 <= k < FDNUM.
(** The mark [alloc_ufd] leaves in a reserved descriptor. *)
Definition MARK : Z := FDNUM + 1.

Lemma nocc_range k l : 0 <= nocc k l <= Z.of_nat (length l).
Proof. induction l as [|x l IH]; cbn [nocc length]; [lia|]. destruct (x =? k); lia. Qed.
Lemma nocc_insert k l i v v0 : l !! i = Some v0 -> nocc k (<[i := v]> l) = nocc k l + one v k - one v0 k.
Proof.
  revert i. induction l as [|x l IH]; intros [|i] H; cbn in H; try discriminate.
  - injection H as ->. cbn. unfold one. rewrite (Z.eqb_sym k v), (Z.eqb_sym k v0). destruct (v =? k), (v0 =? k); lia.
  - change (<[S i := v]> (x :: l)) with (x :: <[i := v]> l). cbn [nocc]. rewrite (IH i H). lia.
Qed.
Lemma nocc_pos k l : 0 < nocc k l <-> k ∈ l.
Proof.
  induction l as [|x l IH]; cbn; [rewrite elem_of_nil; lia|]. rewrite elem_of_cons.
  pose proof (nocc_range k l). destruct (Z.eqb_spec x k); subst; split; intros; try lia; auto.
  - right. apply IH. lia.
  - destruct H0 as [->|H0]; [easy|]. apply IH in H0. lia.
Qed.
Lemma refs_in_range f live k : (forall p, p ∈ live -> length (f p).(fdList) = 256%nat) ->
  0 <= refs_in f live k <= 256 * Z.of_nat (length live).
Proof.
  induction live as [|p live IH]; intros H; cbn [refs_in length]; [lia|].
  pose proof (nocc_range k (fdList (f p))). rewrite (H p) in H0 by left. specialize (IH ltac:(intros; apply H; now right)). lia.
Qed.
Lemma refs_in_out f live k p t : p ∉ live -> refs_in (upd f p t) live k = refs_in f live k.
Proof.
  induction live as [|q live IH]; intros H; [easy|]. cbn. rewrite not_elem_of_cons in H. destruct H as [H1 H2].
  rewrite upd_ne by congruence. now rewrite IH.
Qed.
Lemma refs_in_upd f live k p t : NoDup live -> p ∈ live ->
  refs_in (upd f p t) live k = refs_in f live k + nocc k t.(fdList) - nocc k (f p).(fdList).
Proof.
  induction live as [|q live IH]; intros Hn Hp; [now apply elem_of_nil in Hp|]. apply NoDup_cons in Hn as [Hq Hn]. cbn.
  destruct (Z.eq_dec q p) as [->|Hne].
  - rewrite upd_eq, refs_in_out by easy. lia.
  - rewrite upd_ne by easy. rewrite IH; [lia|easy|]. apply elem_of_cons in Hp as [->|Hp]; [easy|exact Hp].
Qed.
Lemma refs_in_pos f live k p : (forall q, q ∈ live -> length (f q).(fdList) = 256%nat) -> p ∈ live -> k ∈ (f p).(fdList) -> 0 < refs_in f live k.
Proof.
  intros HL Hp Hk. induction live as [|q live IH]; [now apply elem_of_nil in Hp|]. cbn [refs_in].
  pose proof (nocc_range k (fdList (f q))). pose proof (refs_in_range f live k ltac:(intros; apply HL; now right)).
  apply elem_of_cons in Hp as [<- | Hp]; [apply nocc_pos in Hk; lia|]. specialize (IH ltac:(intros; apply HL; now right) Hp). lia.
Qed.

(** ** The bitmap *)

Lemma low5 i : Z.land i 31 = i mod 32.
Proof. change 31 with (Z.ones 5). now rewrite Z.land_ones by lia. Qed.
Lemma pow_bit_testbit x n : 0 <= n -> (Z.land x (Z.shiftl 1 n) =? 0) = negb (Z.testbit x n).
Proof.
  intros Hn. destruct (Z.testbit x n) eqn:E; cbn.
  - apply Z.eqb_neq. intros H. apply (f_equal (fun z => Z.testbit z n)) in H.
    rewrite Z.land_spec, E, Z.shiftl_spec, Z.sub_diag, Z.bits_0 in H by lia. discriminate.
  - apply Z.eqb_eq. apply Z.bits_inj'. intros m Hm. rewrite Z.land_spec, Z.bits_0, Z.shiftl_spec by lia.
    destruct (Z.eq_dec m n) as [->|Hne]; [now rewrite E|].
    destruct (Z.ltb_spec m n); [now rewrite (Z.testbit_neg_r 1) by lia; rewrite andb_comm|].
    replace (Z.testbit 1 (m - n)) with false; [apply andb_comm|]. symmetry. apply (Z.bits_above_log2 1); [lia|cbn; lia].
Qed.
Lemma bit_taken_testbit bm i : bit_taken bm i = Z.testbit (bm (i / 32)) (i mod 32).
Proof.
  unfold bit_taken. rewrite pow_bit_testbit by (apply Z.land_nonneg; lia). rewrite negb_involutive, Z.shiftr_div_pow2 by lia.
  now rewrite low5.
Qed.
Lemma shiftl_one_testbit n m : 0 <= n -> 0 <= m -> Z.testbit (Z.shiftl 1 n) m = (m =? n).
Proof. intros. rewrite Z.shiftl_1_l. destruct (Z.eqb_spec m n) as [->|]; [now apply Z.pow2_bits_true|apply Z.pow2_bits_false; lia]. Qed.
Lemma take_taken bm i j : bit_taken (bit_take bm i) j = (j =? i) || bit_taken bm j.
Proof.
  rewrite !bit_taken_testbit. unfold bit_take. rewrite Z.shiftr_div_pow2, low5 by lia. change (2 ^ 5) with 32.
  unfold upd. destruct (Z.eqb_spec (j / 32) (i / 32)) as [E|E].
  - pose proof (Z.mod_pos_bound i 32). pose proof (Z.mod_pos_bound j 32). rewrite Z.lor_spec, shiftl_one_testbit, <- E by lia.
    rewrite orb_comm. f_equal. destruct (Z.eqb_spec (j mod 32) (i mod 32)), (Z.eqb_spec j i); subst; try easy; zlia.
  - destruct (Z.eqb_spec j i); subst; easy.
Qed.
Lemma clear_taken bm i j : bit_taken (bit_clear bm i) j = negb (j =? i) && bit_taken bm j.
Proof.
  rewrite !bit_taken_testbit. unfold bit_clear. rewrite Z.shiftr_div_pow2, low5 by lia. change (2 ^ 5) with 32.
  unfold upd. destruct (Z.eqb_spec (j / 32) (i / 32)) as [E|E].
  - pose proof (Z.mod_pos_bound i 32). pose proof (Z.mod_pos_bound j 32). unfold wrap32. rewrite (Z.land_spec (bm _)), <- E.
    change 4294967296 with (2 ^ 32). rewrite Z.mod_pow2_bits_low, Z.lnot_spec, shiftl_one_testbit by lia.
    rewrite andb_comm. do 2 f_equal. destruct (Z.eqb_spec (j mod 32) (i mod 32)), (Z.eqb_spec j i); subst; try easy; zlia.
  - destruct (Z.eqb_spec j i); subst; easy.
Qed.

(** ** The invariant *)

(** In the middle of a call the counts differ from the references by [h]: an
    entry the call holds but has not stored yet counts one more, an entry it
    gave up but that is still in a list one less; [m] descriptors are reserved. *)
Record ginv (live : list Z) (h : Z -> Z) (m : Z) (s : fdst) : Prop := {
  gi_nodup : NoDup live;
  gi_few : Z.of_nat (length live) < 65536;
  gi_len : forall p, p ∈ live -> length (s.(p_fs) p).(fdList) = 256%nat;
  gi_lim : forall p, p ∈ live -> 0 <= (s.(p_fs) p).(rlimit_files_cur) <= MAX_FD_COUNT;
  gi_slots : forall p v, p ∈ live -> v ∈ (s.(p_fs) p).(fdList) -> v = -1 \/ entry v \/ v = MARK;
  gi_marks : refs s live MARK = m;
  gi_total : forall k, entry k -> 0 <= refs s live k + h k /\ h k <= 256;
  gi_refcnt : forall k, entry k -> (s.(fds) k).(refcnt) = refs s live k + h k;
  gi_bits : forall k, entry k -> bit_taken s.(fdBitMap) k = (0 <? refs s live k + h k);
  gi_zero : forall k, entry k -> refs s live k + h k = 0 -> s.(fds) k = zeroFd
}.
Definition none : Z -> Z := fun _ => 0.
Definition plus (h : Z -> Z) (k d : Z) : Z -> Z := fun x => h x + d * one k x.
(** Between calls nothing is held and nothing reserved. *)
Abbreviation finv live s := (ginv live none 0 s).

Lemma one_eq k : one k k = 1.
Proof. unfold one. now rewrite Z.eqb_refl. Qed.
Lemma one_ne k x : x <> k -> one k x = 0.
Proof. intros. unfold one. now rewrite (proj2 (Z.eqb_neq _ _)). Qed.
Lemma one_range k x : 0 <= one k x <= 1.
Proof. unfold one. destruct (x =? k); lia. Qed.

Lemma ginv_ext live h h' m s : (forall k, entry k -> h k = h' k) -> ginv live h m s -> ginv live h' m s.
Proof.
  intros E I. constructor; try apply I; intros k Hk; rewrite <- ?(E k Hk); now apply I.
Qed.
(** The invariant looks at the entries, the bitmap and the lists only. *)
Lemma ginv_same live h m s s' :
  (forall k, entry k -> s'.(fds) k = s.(fds) k) -> s'.(fdBitMap) = s.(fdBitMap) -> s'.(p_fs) = s.(p_fs) ->
  ginv live h m s -> ginv live h m s'.
Proof.
  intros Ef Eb Ep I. constructor; unfold refs; rewrite ?Ep, ?Eb; try apply I.
  - intros k Hk. rewrite Ef by easy. now apply I.
  - intros k Hk Z0. rewrite Ef by easy. now apply I.
Qed.
Lemma ginv_world live h m s w : ginv live h m s -> ginv live h m (set_world w s).
Proof. now apply ginv_same. Qed.
Lemma ginv_consoles live h m s a b c : ginv live h m s -> ginv live h m (set_consoles a b c s).
Proof. now apply ginv_same. Qed.
(** Changing an entry in use, but not its count. *)
Lemma ginv_fd live h m s k f : 0 < refs s live k + h k -> (f (s.(fds) k)).(refcnt) = (s.(fds) k).(refcnt) ->
  ginv live h m s -> ginv live h m (set_fds (upd s.(fds) k (f (s.(fds) k))) s).
Proof.
  intros Hp Hr I. constructor; try apply I; cbn [fds fdBitMap set_fds p_fs]; intros x Hx; unfold upd; destruct (Z.eqb_spec x k) as [->|];
    try (now apply I).
  - rewrite Hr. now apply I.
  - change (refs (set_fds _ s) live k) with (refs s live k). lia.
Qed.

(** The references are fewer than a count can hold. *)
Lemma total_bound live h m s k : ginv live h m s -> entry k -> 0 <= refs s live k + h k < 16777216 + 257.
Proof.
  intros I Hk. pose proof (gi_total _ _ _ _ I k Hk) as [H1 H2].
  pose proof (refs_in_range s.(p_fs) live k (gi_len _ _ _ _ I)) as R. pose proof (gi_few _ _ _ _ I). unfold refs in *. lia.
Qed.
(** Changing the count, the bit and the contents of entry [k] together. *)
Lemma ginv_count live h m s k d x bm :
  let t := refs s live k + h k + d in
  ginv live h m s -> entry k -> 0 <= t -> h k + d <= 256 -> x.(refcnt) = t -> (t = 0 -> x = zeroFd) ->
  (forall j, bit_taken bm j = if j =? k then 0 <? t else bit_taken s.(fdBitMap) j) ->
  ginv live (plus h k d) m (set_bitmap bm (set_fds (upd s.(fds) k x) s)).
Proof.
  intros t I Hk Ht Hh Hx Hz Hb. assert (Eh : forall j, refs s live j + plus h k d j = if j =? k then t else refs s live j + h j).
  { intros j. unfold plus, one. destruct (Z.eqb_spec j k) as [->|]; unfold t; lia. }
  assert (Er : forall j, refs (set_bitmap bm (set_fds (upd s.(fds) k x) s)) live j = refs s live j) by reflexivity.
  constructor; try apply I; cbn [fds fdBitMap set_fds set_bitmap p_fs]; intros j Hj; rewrite ?Er, Eh; pose proof (gi_total _ _ _ _ I j Hj).
  - unfold plus, one. destruct (Z.eqb_spec j k) as [->|]; lia.
  - unfold upd. destruct (Z.eqb_spec j k); [exact Hx|now apply I].
  - rewrite Hb. destruct (Z.eqb_spec j k); [easy|now apply I].
  - unfold upd. destruct (Z.eqb_spec j k); [exact Hz|now apply I].
Qed.

(** ** The operations on the tables *)

Definition slot_of (s : fdst) (p i : Z) : option Z := if i <? 0 then None else (s.(p_fs) p).(fdList) !! Z.to_nat i.
Definition put_slot (p i v : Z) (s : fdst) : fdst :=
  set_pfs (upd s.(p_fs) p (with_fdList (<[Z.to_nat i := v]> (s.(p_fs) p).(fdList)) (s.(p_fs) p))) s.
Definition taken_fd (i : Z) (s : fdst) : fdst :=
  set_bitmap (bit_take s.(fdBitMap) i) (set_fds (upd s.(fds) i (with_refcnt 1 zeroFd)) s).

Lemma fd_slot_run s p i v : slot_of s p i = Some v -> fd_slot p i s = Ok (v, s).
Proof. unfold fd_slot, slot_of, bind, gets, ret. now intros ->. Qed.
Lemma fd_slot_inv s p i v s' : fd_slot p i s = Ok (v, s') -> slot_of s p i = Some v /\ s' = s.
Proof.
  unfold fd_slot, slot_of, bind, gets, ret, fail.
  destruct (if i <? 0 then None else fdList (p_fs s p) !! Z.to_nat i); [now intros [= -> ->]|discriminate].
Qed.
Lemma set_fd_slot_run s p i v v0 : slot_of s p i = Some v0 -> set_fd_slot p i v s = Ok (tt, put_slot p i v s).
Proof. intros H. unfold set_fd_slot. rewrite (bind_run _ _ _ _ _ (fd_slot_run _ _ _ _ H)). reflexivity. Qed.
Lemma set_fd_slot_inv s p i v u s' : set_fd_slot p i v s = Ok (u, s') -> s' = put_slot p i v s /\ exists v0, slot_of s p i = Some v0.
Proof.
  unfold set_fd_slot. intros H. apply bind_ok in H as (v0 & s1 & H1 & H2). apply fd_slot_inv in H1 as [H1 ->].
  injection H2 as <- <-. eauto.
Qed.
Lemma slot_of_in s p i v : slot_of s p i = Some v -> v ∈ (s.(p_fs) p).(fdList).
Proof. unfold slot_of. destruct (i <? 0); [discriminate|]. apply list_elem_of_lookup_2. Qed.
Lemma slot_of_some live h m s p i : ginv live h m s -> p ∈ live -> 0 <= i < 256 -> exists v, slot_of s p i = Some v.
Proof.
  intros I Hp Hi. unfold slot_of. rewrite (proj2 (Z.ltb_ge i 0)) by lia. apply lookup_lt_is_Some. rewrite (gi_len _ _ _ _ I p Hp). lia.
Qed.
Lemma slot_of_range s p i v : slot_of s p i = Some v -> 0 <= i /\ (Z.to_nat i < length (s.(p_fs) p).(fdList))%nat.
Proof. unfold slot_of. destruct (Z.ltb_spec i 0); [discriminate|]. intros H1. apply lookup_lt_Some in H1. easy. Qed.
Lemma slot_put_eq s p i v v0 : slot_of s p i = Some v0 -> slot_of (put_slot p i v s) p i = Some v.
Proof.
  intros H. apply slot_of_range in H as [H1 H2]. unfold slot_of, put_slot. cbn [p_fs set_pfs]. rewrite upd_eq.
  rewrite (proj2 (Z.ltb_ge i 0)) by lia. now apply list_lookup_insert_eq.
Qed.
Lemma slot_put_ne s p i v q j : q <> p \/ j <> i -> 0 <= i -> slot_of (put_slot p i v s) q j = slot_of s q j.
Proof.
  intros H Hi. unfold slot_of, put_slot. cbn [p_fs set_pfs]. unfold upd. destruct (Z.eqb_spec q p) as [->|]; [|easy].
  destruct (Z.ltb_spec j 0); [easy|]. cbn [fdList with_fdList]. apply list_lookup_insert_ne. intros E. destruct H as [|H]; [easy|]. lia.
Qed.

(** Storing [v] in a descriptor: the reference of the old value is held by the
    call, the one of [v] is not any more. *)
Lemma ginv_slot live h m s p i v v0 : ginv live h m s -> p ∈ live -> slot_of s p i = Some v0 ->
  v = -1 \/ entry v \/ v = MARK -> (entry v0 -> h v0 < 256) ->
  ginv live (plus (plus h v0 1) v (-1)) (m + one v MARK - one v0 MARK) (put_slot p i v s).
Proof.
  intros I Hp Hs Hv Hh. pose proof (slot_of_range _ _ _ _ Hs) as [Hi Hl].
  assert (Hs' : fdList (p_fs s p) !! Z.to_nat i = Some v0) by (unfold slot_of in Hs; now rewrite (proj2 (Z.ltb_ge i 0)) in Hs by lia).
  set (t := with_fdList (<[Z.to_nat i := v]> (fdList (p_fs s p))) (p_fs s p)).
  assert (R : forall k, refs (put_slot p i v s) live k = refs s live k + one v k - one v0 k).
  { intros k. unfold refs, put_slot. cbn [p_fs set_pfs]. rewrite refs_in_upd by (easy || apply I). cbn [fdList with_fdList].
    rewrite (nocc_insert _ _ _ _ v0 Hs'). lia. }
  assert (E : forall k, refs (put_slot p i v s) live k + plus (plus h v0 1) v (-1) k = refs s live k + h k).
  { intros k. rewrite R. unfold plus. lia. }
  constructor; try apply I.
  - intros q Hq. unfold put_slot. cbn [p_fs set_pfs]. unfold upd. destruct (Z.eqb_spec q p) as [->|]; [|now apply I].
    cbn [fdList with_fdList]. rewrite length_insert. now apply I.
  - intros q Hq. unfold put_slot. cbn [p_fs set_pfs]. unfold upd. destruct (Z.eqb_spec q p) as [->|]; now apply I.
  - intros q w Hq. unfold put_slot. cbn [p_fs set_pfs]. unfold upd. destruct (Z.eqb_spec q p) as [->|]; [|now apply I].
    cbn [fdList with_fdList]. intros Hw. apply list_elem_of_lookup in Hw as [j Hj]. apply list_lookup_insert_Some in Hj as [(_ & -> & _)|[_ Hj]]; [exact Hv|].
    apply (gi_slots _ _ _ _ I p w Hq). now apply list_elem_of_lookup_2 in Hj.
  - rewrite R. pose proof (gi_marks _ _ _ _ I). lia.
  - intros k Hk. rewrite E. pose proof (gi_total _ _ _ _ I k Hk). split; [lia|]. unfold plus, one.
    destruct (Z.eqb_spec k v0) as [->|]; [specialize (Hh Hk); destruct (v0 =? v); lia|destruct (k =? v); lia].
  - intros k Hk. rewrite E. now apply I.
  - intros k Hk. rewrite E. now apply I.
  - intros k Hk. rewrite E. now apply I.
Qed.

(** [fdAlloc] takes the lowest free entry, and fails only if there is none. *)
Lemma fdAlloc_loop_cases n : forall i s, 0 <= i -> i + Z.of_nat n = FDNUM -> (forall j, 0 <= j < i -> bit_taken s.(fdBitMap) j = true) ->
  (exists k, entry k /\ bit_taken s.(fdBitMap) k = false /\ (forall j, 0 <= j < k -> bit_taken s.(fdBitMap) j = true) /\
     fdAlloc_loop n i s = Ok (k, taken_fd k s)) \/
  ((forall k, entry k -> bit_taken s.(fdBitMap) k = true) /\ fdAlloc_loop n i s = Ok (- ENFILE, s)).
Proof.
  induction n as [|n IH]; intros i s Hi Hn Hb.
  - right. split; [|easy]. intros k Hk. apply Hb. unfold entry in Hk. lia.
  - cbn [fdAlloc_loop]. unfold bind at 1, gets at 1. destruct (bit_taken (fdBitMap s) i) eqn:E.
    + unfold bind, gets. rewrite E. apply IH; [lia|lia|]. intros j Hj. destruct (Z.eq_dec j i) as [->|]; [easy|]. apply Hb. lia.
    + left. exists i. split; [unfold entry; lia|]. split; [easy|]. split; [easy|]. reflexivity.
Qed.
Lemma fdAlloc_cases s :
  (exists k, entry k /\ bit_taken s.(fdBitMap) k = false /\ (forall j, 0 <= j < k -> bit_taken s.(fdBitMap) j = true) /\ fdAlloc s = Ok (k, taken_fd k s)) \/
  ((forall k, entry k -> bit_taken s.(fdBitMap) k = true) /\ fdAlloc s = Ok (- ENFILE, s)).
Proof. apply fdAlloc_loop_cases; [lia|reflexivity|lia]. Qed.
Lemma ginv_taken live h m s k : ginv live h m s -> entry k -> bit_taken s.(fdBitMap) k = false -> ginv live (plus h k 1) m (taken_fd k s).
Proof.
  intros I Hk Hb. pose proof (gi_bits _ _ _ _ I k Hk) as B. rewrite Hb in B. symmetry in B. zbool.
  pose proof (gi_total _ _ _ _ I k Hk) as [T _].
  assert (0 <= refs s live k) by (apply refs_in_range, I).
  apply (ginv_count live h m s k 1); [easy|easy|lia|lia|cbn; lia|lia|].
  intros j. rewrite take_taken. destruct (Z.eqb_spec j k) as [->|]; [|easy]. cbn. symmetry. apply Z.ltb_lt. lia.
Qed.

(** [alloc_ufd] reserves the lowest free descriptor of the process. *)
Lemma alloc_ufd_loop_cases live h m s p n : forall i, ginv live h m s -> p ∈ live -> 0 <= i -> i + Z.of_nat n <= 256 ->
  (forall j, 0 <= j < i -> slot_of s p j <> Some (-1)) ->
  (exists u, 0 <= u < i + Z.of_nat n /\ slot_of s p u = Some (-1) /\ (forall j, 0 <= j < u -> slot_of s p j <> Some (-1)) /\
     alloc_ufd_loop n p i s = Ok (u, put_slot p u MARK s)) \/
  ((forall j, 0 <= j < i + Z.of_nat n -> slot_of s p j <> Some (-1)) /\ alloc_ufd_loop n p i s = Ok (- EMFILE, s)).
Proof.
  induction n as [|n IH]; intros i I Hp Hi Hn Hb.
  - right. split; [|easy]. intros j Hj. apply Hb. lia.
  - cbn [alloc_ufd_loop]. destruct (slot_of_some live h m s p i I Hp ltac:(lia)) as [v Hv].
    rewrite (bind_run _ _ _ _ _ (fd_slot_run _ _ _ _ Hv)). destruct (Z.eqb_spec v (-1)) as [->|Hne].
    + left. exists i. split; [lia|]. split; [easy|]. split; [easy|]. rewrite (bind_run _ _ _ _ _ (set_fd_slot_run _ _ _ _ _ Hv)). reflexivity.
    + destruct (IH (i + 1) I Hp ltac:(lia) ltac:(lia)) as [(u & H1 & H2)|[H1 H2]].
      * intros j Hj. destruct (Z.eq_dec j i) as [->|]; [congruence|]. apply Hb. lia.
      * left. exists u. split; [lia|easy].
      * right. split; [|easy]. intros j Hj. apply H1. lia.
Qed.
Lemma alloc_ufd_cases live h m s p : ginv live h m s -> p ∈ live -> let lim := (s.(p_fs) p).(rlimit_files_cur) in
  (exists u, 0 <= u < lim /\ slot_of s p u = Some (-1) /\ (forall j, 0 <= j < u -> slot_of s p j <> Some (-1)) /\
     alloc_ufd p s = Ok (u, put_slot p u MARK s)) \/
  ((forall j, 0 <= j < lim -> slot_of s p j <> Some (-1)) /\ alloc_ufd p s = Ok (- EMFILE, s)).
Proof.
  intros I Hp lim. pose proof (gi_lim _ _ _ _ I p Hp) as L. unfold MAX_FD_COUNT in L.
  destruct (alloc_ufd_loop_cases live h m s p (Z.to_nat lim) 0 I Hp) as [(u & H1 & H2)|[H1 H2]]; [lia|lia|lia| |].
  - left. exists u. split; [lia|exact H2].
  - right. split; [|exact H2]. intros j Hj. apply H1. lia.
Qed.

Lemma entry_test k : entry k -> (0 <=? k) && (k <? FDNUM) = true.
Proof. unfold entry. intros. apply andb_true_intro. split; [apply Z.leb_le|apply Z.ltb_lt]; lia. Qed.
Lemma entry_test_inv k : (0 <=? k) && (k <? FDNUM) = true -> entry k.
Proof. intros. zbool. unfold entry. lia. Qed.

Definition counted (k d : Z) (s : fdst) : fdst :=
  set_fds (upd s.(fds) k (with_refcnt ((s.(fds) k).(refcnt) + d) (s.(fds) k))) s.
Lemma cloneAddCite_run live h m s k : ginv live h m s -> entry k -> 0 < refs s live k + h k -> cloneAddCite k s = Ok (tt, counted k 1 s).
Proof.
  intros I Hk Hp. unfold cloneAddCite. rewrite massert_run by now apply entry_test. unfold upd_fd, modify, counted.
  pose proof (total_bound _ _ _ _ k I Hk). rewrite wrap32_small; [easy|]. rewrite (gi_refcnt _ _ _ _ I k Hk). lia.
Qed.
Lemma cloneAddCite_inv k s u s' : cloneAddCite k s = Ok (u, s') -> entry k.
Proof. unfold cloneAddCite. intros H. apply bind_ok in H as (? & ? & H & _). apply massert_ok in H as [H _]. now apply entry_test_inv. Qed.
Lemma ginv_counted live h m s k d : ginv live h m s -> entry k -> 0 < refs s live k + h k -> 0 < refs s live k + h k + d -> h k + d <= 256 ->
  ginv live (plus h k d) m (counted k d s).
Proof.
  intros I Hk Hp Ht Hh. pose proof (gi_refcnt _ _ _ _ I k Hk) as R.
  apply (ginv_count live h m s k d _ (fdBitMap s)); [easy|easy|lia|easy|cbn; lia|lia|].
  intros j. destruct (Z.eqb_spec j k) as [->|]; [|easy]. rewrite (gi_bits _ _ _ _ I k Hk).
  rewrite !(proj2 (Z.ltb_lt 0 _)) by lia. reflexivity.
Qed.

(** [freeFd] gives up one reference: the entry stays if others remain, and is
    closed, cleared and freed otherwise. *)
Definition released (k : Z) (w : W) (s : fdst) : fdst :=
  set_bitmap (bit_clear s.(fdBitMap) k) (set_fds (upd s.(fds) k zeroFd) (set_world w s)).
Definition close_dev (x : Fd) (w : W) : res W :=
  if x.(fd_dev) =? 0 then Ok w else match dev_close x.(fd_dev) x w with Ok (_, w') => Ok w' | Err f => Err f end.
Lemma upd_upd {V} (m : Z -> V) a x y j : upd (upd m a x) a y j = upd m a y j.
Proof. unfold upd. now destruct (j =? a). Qed.
Lemma freeFd_shared live h m s k : ginv live h m s -> entry k -> 1 < refs s live k + h k -> freeFd k s = Ok (tt, counted k (-1) s).
Proof.
  intros I Hk Hp. pose proof (total_bound _ _ _ _ k I Hk). pose proof (gi_refcnt _ _ _ _ I k Hk) as R.
  unfold freeFd. rewrite massert_run by now apply entry_test. unfold upd_fd, modify, bind, gets, ret. cbn [fds set_fds]. rewrite upd_eq. cbn [refcnt with_refcnt].
  rewrite (wrap32_small (_ - 1)) by lia. destruct (Z.eqb_spec (refcnt (fds s k) - 1) 0); [lia|]. unfold counted. do 3 f_equal.
Qed.
Lemma freeFd_last live h m s k w : ginv live h m s -> entry k -> refs s live k + h k = 1 ->
  close_dev (with_refcnt 0 (s.(fds) k)) s.(world) = Ok w ->
  exists s', freeFd k s = Ok (tt, s') /\ (forall j, s'.(fds) j = (released k w s).(fds) j) /\ s'.(fdBitMap) = bit_clear s.(fdBitMap) k /\
    s'.(p_fs) = s.(p_fs) /\ s'.(world) = w.
Proof.
  intros I Hk Hp Hc. pose proof (gi_refcnt _ _ _ _ I k Hk) as R. unfold close_dev in Hc. cbn [fd_dev with_refcnt] in Hc.
  unfold freeFd. rewrite massert_run by now apply entry_test. unfold upd_fd, modify, bind, gets, ret. cbn [fds set_fds]. rewrite upd_eq. cbn [refcnt with_refcnt fd_dev].
  rewrite R, Hp. cbn [Z.sub wrap32]. change (wrap32 (1 - 1)) with 0. cbn [Z.eqb].
  destruct (fd_dev (fds s k) =? 0).
  - cbn [negb]. injection Hc as <-. eexists. split; [reflexivity|]. cbn. split; [|easy]. intros j. apply upd_upd.
  - cbn [negb]. unfold on_world. cbn [world set_fds]. destruct (dev_close _ _ _) as [[r w']|f]; [|discriminate]. injection Hc as ->.
    eexists. split; [reflexivity|]. cbn. split; [|easy]. intros j. apply upd_upd.
Qed.
Lemma freeFd_last_err live h m s k f : ginv live h m s -> entry k -> refs s live k + h k = 1 ->
  close_dev (with_refcnt 0 (s.(fds) k)) s.(world) = Err f -> freeFd k s = Err f.
Proof.
  intros I Hk Hp Hc. pose proof (gi_refcnt _ _ _ _ I k Hk) as R. unfold close_dev in Hc. cbn [fd_dev with_refcnt] in Hc.
  unfold freeFd. rewrite massert_run by now apply entry_test. unfold upd_fd, modify, bind, gets, ret. cbn [fds set_fds]. rewrite upd_eq. cbn [refcnt with_refcnt fd_dev].
  rewrite R, Hp. change (wrap32 (1 - 1)) with 0. cbn [Z.eqb]. destruct (fd_dev (fds s k) =? 0); [discriminate|].
  cbn [negb]. unfold on_world. cbn [world set_fds]. destruct (dev_close _ _ _) as [[r w']|g]; [discriminate|]. now injection Hc as ->.
Qed.
Lemma freeFd_ginv live h m s k u s' : ginv live h m s -> entry k -> 0 < refs s live k + h k -> freeFd k s = Ok (u, s') ->
  ginv live (plus h k (-1)) m s' /\ s'.(p_fs) = s.(p_fs).
Proof.
  intros I Hk Hp H. pose proof (gi_total _ _ _ _ I k Hk) as [_ Hh]. destruct (Z.eq_dec (refs s live k + h k) 1) as [E1|E1].
  - destruct (close_dev (with_refcnt 0 (s.(fds) k)) s.(world)) as [w|f] eqn:Ec; [|now rewrite (freeFd_last_err _ _ _ _ _ _ I Hk E1 Ec) in H].
    destruct (freeFd_last _ _ _ _ _ _ I Hk E1 Ec) as (s1 & F & Hf & Hb & Hpf & Hw). rewrite F in H. injection H as _ <-.
    split; [|exact Hpf]. apply (ginv_same _ _ _ (released k w s)); [intros; apply Hf|exact Hb|exact Hpf|].
    pose proof (ginv_world _ _ _ _ w I) as Iw. unfold released.
    apply (ginv_count live h m (set_world w s) k (-1)); [easy|easy|cbn; change (refs (set_world w s) live k) with (refs s live k); lia|lia| | easy |].
    + change (refs (set_world w s) live k) with (refs s live k). rewrite E1. reflexivity.
    + intros j. rewrite clear_taken. change (refs (set_world w s) live k) with (refs s live k). rewrite E1.
      destruct (Z.eqb_spec j k); reflexivity.
  - assert (1 < refs s live k + h k) by lia. rewrite (freeFd_shared _ _ _ _ _ I Hk H0) in H. injection H as _ <-. split; [|easy].
    apply ginv_counted; [easy|easy|lia|lia|lia].
Qed.

(** [kern_fd] finds an entry in use, and changes nothing. *)
Lemma kern_fd_inv s p fd r s' : kern_fd p fd s = Ok (r, s') -> s' = s /\
  match r with
  | None => True
  | Some k => 0 <= fd < (s.(p_fs) p).(rlimit_files_cur) /\ slot_of s p fd = Some k /\ entry k
  end.
Proof.
  unfold kern_fd, bind at 1, gets at 1. destruct ((fd <? 0) || (rlimit_files_cur (p_fs s p) <=? fd)) eqn:E.
  { now intros [= <- <-]. }
  intros H. apply bind_ok in H as (v & s1 & H1 & H2). apply fd_slot_inv in H1 as [H1 ->].
  destruct ((v <? 0) || (FDNUM <=? v)) eqn:E2; injection H2 as <- <-; [easy|]. zbool. unfold entry. repeat split; try easy; lia.
Qed.
Lemma kern_fd_run live h m s p fd k : ginv live h m s -> p ∈ live -> 0 <= fd < (s.(p_fs) p).(rlimit_files_cur) -> slot_of s p fd = Some k -> entry k ->
  kern_fd p fd s = Ok (Some k, s).
Proof.
  intros I Hp Hfd Hs Hk. unfold kern_fd, bind at 1, gets at 1. rewrite (proj2 (Z.ltb_ge _ _)), (proj2 (Z.leb_gt _ _)) by lia. cbn [orb].
  rewrite (bind_run _ _ _ _ _ (fd_slot_run _ _ _ _ Hs)). unfold entry in Hk. now rewrite (proj2 (Z.ltb_ge _ _)), (proj2 (Z.leb_gt _ _)) by lia.
Qed.
Lemma slot_refs live h m s p i k : ginv live h m s -> p ∈ live -> slot_of s p i = Some k -> 0 < refs s live k.
Proof. intros I Hp Hs. apply (refs_in_pos _ _ _ p); [apply I|easy|]. now apply slot_of_in in Hs. Qed.
Lemma slot_not_mark live h s p i : ginv live h 0 s -> p ∈ live -> slot_of s p i <> Some MARK.
Proof. intros I Hp Hs. pose proof (slot_refs _ _ _ _ _ _ _ I Hp Hs). pose proof (gi_marks _ _ _ _ I). lia. Qed.

Lemma not_entry_m1 : ~ entry (-1).
Proof. unfold entry. lia. Qed.
Lemma not_entry_mark : ~ entry MARK.
Proof. unfold entry, MARK. lia. Qed.
Lemma one_mark_m1 : one (-1) MARK = 0.
Proof. reflexivity. Qed.
Lemma one_mark_entry k : entry k -> one k MARK = 0.
Proof. intros. apply one_ne. intros <-. now apply not_entry_mark. Qed.

(** Reconciles the two sides of an equation between held references. *)
Ltac held :=
  let k := fresh "k" in let Hk := fresh "Hk" in
  intros k Hk; unfold plus, none;
  repeat match goal with |- context [one ?a k] =>
    first [ rewrite (one_ne a k) by (intros ->; first [now apply not_entry_m1 | now apply not_entry_mark])
          | generalize (one a k); intros ] end; lia.

Lemma closeFd_inv live s p fd r s' : finv live s -> p ∈ live -> closeFd p fd s = Ok (r, s') -> finv live s'.
Proof.
  intros I Hp H. unfold closeFd in H. apply bind_ok in H as (o & s1 & H1 & H). apply kern_fd_inv in H1 as [-> Ho].
  destruct o as [k|]; [|now injection H as _ <-]. destruct Ho as (Hfd & Hs & Hk). pose proof (slot_refs _ _ _ _ _ _ _ I Hp Hs) as Hr.
  apply bind_ok in H as (u & s1 & H1 & H). destruct (freeFd_ginv _ _ _ _ _ _ _ I Hk ltac:(unfold none; lia) H1) as [I1 P1].
  apply bind_ok in H as (u2 & s2 & H2 & H). injection H as _ <-. apply set_fd_slot_inv in H2 as [-> _].
  assert (Hs1 : slot_of s1 p fd = Some k) by (unfold slot_of; now rewrite P1).
  pose proof (ginv_slot _ _ _ _ p fd (-1) k I1 Hp Hs1 ltac:(now left) ltac:(unfold plus, none; rewrite one_eq; lia)) as I2.
  rewrite one_mark_m1, one_mark_entry in I2 by easy. eapply ginv_ext; [|exact I2]. held.
Qed.

(** *** Reserving, installing and giving back *)

Lemma reserve_ginv live s p u h m : ginv live h m s -> p ∈ live -> slot_of s p u = Some (-1) -> ginv live h (m + 1) (put_slot p u MARK s).
Proof.
  intros I Hp Hs. pose proof (ginv_slot _ _ _ _ p u MARK (-1) I Hp Hs ltac:(auto) ltac:(intros H; now apply not_entry_m1 in H)) as I2.
  rewrite one_mark_m1, one_eq, Z.sub_0_r in I2. eapply ginv_ext; [|exact I2]. held.
Qed.
(** A reserved descriptor gets the entry the call holds ([install]) or is
    given back ([unreserve]). *)
Lemma install_ginv live s p u h m k : ginv live h m s -> p ∈ live -> slot_of s p u = Some MARK -> entry k -> ginv live (plus h k (-1)) (m - 1) (put_slot p u k s).
Proof.
  intros I Hp Hs Hk. pose proof (ginv_slot _ _ _ _ p u k MARK I Hp Hs ltac:(auto) ltac:(intros H; now apply not_entry_mark in H)) as I2.
  rewrite one_eq, one_mark_entry, Z.add_0_r in I2 by easy. eapply ginv_ext; [|exact I2]. held.
Qed.
Lemma unreserve_ginv live s p u h m : ginv live h m s -> p ∈ live -> slot_of s p u = Some MARK -> ginv live h (m - 1) (put_slot p u (-1) s).
Proof.
  intros I Hp Hs. pose proof (ginv_slot _ _ _ _ p u (-1) MARK I Hp Hs ltac:(auto) ltac:(intros H; now apply not_entry_mark in H)) as I2.
  rewrite one_eq, one_mark_m1, Z.add_0_r in I2. eapply ginv_ext; [|exact I2]. held.
Qed.
Lemma free_ufd_run s p u : slot_of s p u = Some MARK -> free_ufd p u s = Ok (tt, put_slot p u (-1) s).
Proof. intros H. unfold free_ufd. rewrite (bind_run _ _ _ _ _ (fd_slot_run _ _ _ _ H)), massert_run by reflexivity. now apply (set_fd_slot_run _ _ _ _ _ H). Qed.

Lemma on_world_inv {A} (c : M W A) s a s' : on_world c s = Ok (a, s') -> exists w, s' = set_world w s.
Proof. unfold on_world. destruct (c (world s)) as [[b w]|f]; [|discriminate]. intros [= <- <-]. eauto. Qed.

(** What a call that fails leaves as it was: the entries, the bitmap and the
    descriptors of every process. *)
Record same_tables (s s' : fdst) : Prop := {
  st_fds : forall k, entry k -> s'.(fds) k = s.(fds) k;
  st_bits : forall k, entry k -> bit_taken s'.(fdBitMap) k = bit_taken s.(fdBitMap) k;
  st_lists : forall q, (s'.(p_fs) q).(fdList) = (s.(p_fs) q).(fdList);
  st_limit : forall q, (s'.(p_fs) q).(rlimit_files_cur) = (s.(p_fs) q).(rlimit_files_cur)
}.
Lemma same_refl s : same_tables s s.
Proof. easy. Qed.
Lemma same_trans s1 s2 s3 : same_tables s1 s2 -> same_tables s2 s3 -> same_tables s1 s3.
Proof. intros A B. constructor; intros; [rewrite (st_fds _ _ B)|rewrite (st_bits _ _ B)|rewrite (st_lists _ _ B)|rewrite (st_limit _ _ B)]; (easy || apply A; easy). Qed.
Lemma same_world s w : same_tables s (set_world w s).
Proof. easy. Qed.
Lemma same_on_world {A} (c : M W A) s a s' : on_world c s = Ok (a, s') -> same_tables s s'.
Proof. intros H. apply on_world_inv in H as [w ->]. easy. Qed.
Lemma ginv_tables live h m s s' : same_tables s s' -> ginv live h m s -> ginv live h m s'.
Proof.
  intros T I. assert (R : forall k, refs s' live k = refs s live k).
  { intros k. unfold refs. clear I. induction live as [|p l IH]; [easy|]. cbn. now rewrite (st_lists _ _ T), IH. }
  constructor; rewrite ?R; try apply I.
  - intros p. rewrite (st_lists _ _ T). apply I.
  - intros p. rewrite (st_limit _ _ T). apply I.
  - intros p v. rewrite (st_lists _ _ T). apply I.
  - intros k Hk. rewrite R. now apply I.
  - intros k Hk. rewrite R, (st_fds _ _ T) by easy. now apply I.
  - intros k Hk. rewrite R, (st_bits _ _ T) by easy. now apply I.
  - intros k Hk. rewrite R, (st_fds _ _ T) by easy. now apply I.
Qed.
Lemma same_meta s p f : (forall t, (f t).(fdList) = t.(fdList) /\ (f t).(rlimit_files_cur) = t.(rlimit_files_cur)) ->
  same_tables s (set_pfs (upd s.(p_fs) p (f (s.(p_fs) p))) s).
Proof.
  intros H. constructor; try easy; intros q; cbn [p_fs set_pfs]; unfold upd; destruct (Z.eqb_spec q p) as [->|]; try easy; apply H.
Qed.
Lemma slot_tables s s' p i : same_tables s s' -> slot_of s' p i = slot_of s p i.
Proof. intros T. unfold slot_of. now rewrite (st_lists _ _ T). Qed.

Lemma undo_ufd s p u s1 : slot_of s p u = Some (-1) -> same_tables (put_slot p u MARK s) s1 -> same_tables s (put_slot p u (-1) s1).
Proof.
  intros Hs T. constructor; try apply T.
  - intros q. unfold put_slot. cbn [p_fs set_pfs]. unfold upd. destruct (Z.eqb_spec q p) as [->|Hne]; cbn [fdList with_fdList]; rewrite (st_lists _ _ T).
    + unfold put_slot. cbn [p_fs set_pfs]. rewrite upd_eq. cbn [fdList with_fdList]. rewrite list_insert_insert_eq. apply list_insert_id.
      unfold slot_of in Hs. destruct (u <? 0); [discriminate|exact Hs].
    + unfold put_slot. cbn [p_fs set_pfs]. now rewrite upd_ne.
  - intros q. pose proof (st_limit _ _ T q) as L. unfold put_slot in L |- *. cbn [p_fs set_pfs] in L |- *. unfold upd in L |- *.
    destruct (Z.eqb_spec q p) as [Hq|]; [subst q|]; exact L.
Qed.
Lemma freeFd_fresh s k : entry k -> s.(fds) k = with_refcnt 1 zeroFd ->
  exists s', freeFd k s = Ok (tt, s') /\ (forall j, s'.(fds) j = if j =? k then zeroFd else s.(fds) j) /\ s'.(fdBitMap) = bit_clear s.(fdBitMap) k /\
    s'.(p_fs) = s.(p_fs) /\ s'.(world) = s.(world).
Proof.
  intros Hk Hx. unfold freeFd. rewrite massert_run by now apply entry_test. unfold upd_fd, modify, bind, gets, ret. cbn [fds set_fds]. rewrite upd_eq, Hx.
  cbn. eexists. split; [reflexivity|]. cbn. split; [|easy]. intros j. unfold upd. now destruct (j =? k).
Qed.
Lemma undo_fd s k s1 : entry k -> bit_taken s.(fdBitMap) k = false -> s.(fds) k = zeroFd -> same_tables (taken_fd k s) s1 ->
  exists s', freeFd k s1 = Ok (tt, s') /\ same_tables s s'.
Proof.
  intros Hk Hb Hz T. assert (Hx : fds s1 k = with_refcnt 1 zeroFd).
  { rewrite (st_fds _ _ T) by easy. unfold taken_fd. cbn [fds set_bitmap set_fds]. apply upd_eq. }
  destruct (freeFd_fresh _ _ Hk Hx) as (s' & F & Hf & Hbm & Hp & _). exists s'. split; [exact F|]. constructor.
  - intros j Hj. rewrite Hf. destruct (Z.eqb_spec j k) as [->|]; [easy|]. rewrite (st_fds _ _ T) by easy.
    unfold taken_fd. cbn [fds set_bitmap set_fds]. now apply upd_ne.
  - intros j Hj. rewrite Hbm, clear_taken, (st_bits _ _ T) by easy. unfold taken_fd. cbn [fdBitMap set_bitmap]. rewrite take_taken.
    destruct (Z.eqb_spec j k) as [->|]; [now rewrite Hb|easy].
  - intros q. rewrite Hp. apply (st_lists _ _ T).
  - intros q. rewrite Hp. apply (st_limit _ _ T).
Qed.

(** Descriptor [u] of [p], the lowest free one, names the entry [k], the lowest
    free one, with contents [x]; nothing else changed. *)
Record installed (p u k : Z) (x : Fd) (s s' : fdst) : Prop := {
  in_free : slot_of s p u = Some (-1);
  in_lowest : forall j, 0 <= j < u -> slot_of s p j <> Some (-1);
  in_slot : slot_of s' p u = Some k;
  in_entry : entry k;
  in_bit : bit_taken s.(fdBitMap) k = false;
  in_low : forall j, 0 <= j < k -> bit_taken s.(fdBitMap) j = true;
  in_fd : s'.(fds) k = x;
  in_fds : forall j, entry j -> j <> k -> s'.(fds) j = s.(fds) j;
  in_slots : forall q j, q <> p \/ j <> u -> slot_of s' q j = slot_of s q j
}.

Lemma get_cwd_dirent_same s p d s' : get_cwd_dirent p s = Ok (d, s') -> same_tables s s'.
Proof.
  unfold get_cwd_dirent, bind at 1, gets at 1. destruct (negb _).
  - now intros [= _ <-].
  - intros H. apply bind_ok in H as ([r d'] & s1 & H1 & H). apply bind_ok in H as (? & s2 & H2 & H). apply massert_ok in H2 as [_ ->].
    apply bind_ok in H as (? & s3 & H3 & H). injection H as _ <-. injection H3 as _ <-.
    apply (same_trans _ s1); [now apply same_on_world in H1|]. now apply (same_meta s1 p (with_cwd_dirent d')).
Qed.
Lemma open_base_same s p fd name r s' : open_base p fd name s = Ok (r, s') -> same_tables s s'.
Proof.
  unfold open_base. destruct (fd =? AT_FDCWD).
  - intros H. apply bind_ok in H as (d & s1 & H1 & H). apply bind_ok in H as (? & s2 & H2 & H). apply massert_ok in H2 as [_ ->].
    injection H as _ <-. now apply get_cwd_dirent_same in H1.
  - destruct (negb _); [|now intros [= _ <-]]. intros H. apply bind_ok in H as (o & s1 & H1 & H). apply kern_fd_inv in H1 as [-> _].
    destruct o; [|now injection H as _ <-]. unfold bind, gets, ret in H. now injection H as _ <-.
Qed.
Lemma open_file_same s d name f r s' : open_file d name f s = Ok (r, s') -> same_tables s s'.
Proof.
  unfold open_file. intros H. apply bind_ok in H as ([r1 file] & s1 & H1 & H). apply same_on_world in H1.
  destruct (_ && _); [apply same_on_world in H; now apply (same_trans _ s1)|]. now injection H as _ <-.
Qed.
Lemma same_put a b p u v : same_tables a b -> same_tables (put_slot p u v a) (put_slot p u v b).
Proof.
  intros T. constructor; try apply T; intros q; unfold put_slot; cbn [p_fs set_pfs]; unfold upd; destruct (q =? p); try apply T.
  cbn [fdList with_fdList]. now rewrite (st_lists _ _ T).
Qed.
Lemma installed_tables s s1 s' p u k x : same_tables s s1 -> installed p u k x s1 s' -> installed p u k x s s'.
Proof.
  intros T H. pose proof (in_entry _ _ _ _ _ _ H) as Hk. constructor; try apply H.
  - rewrite <- (slot_tables _ _ p u T). apply H.
  - intros j Hj. rewrite <- (slot_tables _ _ p j T). now apply H.
  - rewrite <- (st_bits _ _ T) by easy. apply H.
  - intros j Hj. rewrite <- (st_bits _ _ T) by (unfold entry in *; lia). now apply H.
  - intros j Hj Hne. rewrite <- (st_fds _ _ T) by easy. now apply H.
  - intros q j Hq. rewrite <- (slot_tables _ _ q j T). now apply H.
Qed.

(** The end of [openat] and of the two halves of [pipe]: a held entry gets its
    contents and goes into the reserved descriptor. *)
Lemma install_run live h m s p u k x : ginv live h m s -> p ∈ live -> slot_of s p u = Some MARK -> entry k -> h k = 1 -> x.(refcnt) = (s.(fds) k).(refcnt) ->
  let s' := put_slot p u k (set_fds (upd s.(fds) k x) s) in ginv live (plus h k (-1)) (m - 1) s'.
Proof.
  intros I Hp Hs Hk Hh Hx s'. apply install_ginv; try easy. assert (0 <= refs s live k) by (apply refs_in_range, I).
  apply (ginv_fd live h m s k (fun _ => x)); [lia|easy|exact I].
Qed.
Lemma zero_of_free live h m s k : ginv live h m s -> entry k -> bit_taken s.(fdBitMap) k = false -> s.(fds) k = zeroFd.
Proof.
  intros I Hk Hb. apply I; [easy|]. rewrite (gi_bits _ _ _ _ I k Hk) in Hb. zbool. pose proof (gi_total _ _ _ _ I k Hk). lia.
Qed.
Lemma plus_minus h k d : forall j, entry j -> plus (plus h k d) k (- d) j = h j.
Proof. intros j _. unfold plus. lia. Qed.

(** The two ends of [openat], from a state [s] where [u] and [k] are the lowest
    free descriptor and entry and [s4] is the state after they were taken: the
    call gives both back, or puts [k], with the contents [x], under [u]. *)
Lemma open_undo live s p u k s4 : finv live s -> p ∈ live -> slot_of s p u = Some (-1) -> entry k -> bit_taken s.(fdBitMap) k = false ->
  same_tables (taken_fd k (put_slot p u MARK s)) s4 ->
  exists s5 s6, free_ufd p u s4 = Ok (tt, s5) /\ freeFd k s5 = Ok (tt, s6) /\ same_tables s s6.
Proof.
  intros I Hp Hs Hk Hb T. pose proof (slot_put_eq _ _ _ MARK _ Hs) as Hm.
  assert (Hs4 : slot_of s4 p u = Some MARK) by (rewrite (slot_tables _ _ _ _ T); exact Hm).
  destruct (undo_fd (put_slot p u (-1) (put_slot p u MARK s)) k (put_slot p u (-1) s4) Hk Hb) as (s6 & F & T6).
  { exact (zero_of_free _ _ _ _ _ I Hk Hb). } { exact (same_put _ _ p u (-1) T). }
  exists (put_slot p u (-1) s4), s6. split; [now apply free_ufd_run|]. split; [exact F|].
  apply (same_trans _ (put_slot p u (-1) (put_slot p u MARK s))); [now apply undo_ufd|exact T6].
Qed.
Lemma open_done live s p u k s4 x : finv live s -> p ∈ live -> slot_of s p u = Some (-1) -> (forall j, 0 <= j < u -> slot_of s p j <> Some (-1)) ->
  entry k -> bit_taken s.(fdBitMap) k = false -> (forall j, 0 <= j < k -> bit_taken s.(fdBitMap) j = true) ->
  same_tables (taken_fd k (put_slot p u MARK s)) s4 -> x.(refcnt) = 1 ->
  let s5 := set_fds (upd s4.(fds) k x) s4 in let s6 := put_slot p u k s5 in
  set_fd_slot p u k s5 = Ok (tt, s6) /\ finv live s6 /\ installed p u k x s s6.
Proof.
  intros I Hp Hs Hlow Hk Hb Hl T Hx s5 s6. pose proof (slot_put_eq _ _ _ MARK _ Hs) as Hm. pose proof (slot_of_range _ _ _ _ Hs) as [Hu _].
  assert (Hs5 : slot_of s5 p u = Some MARK) by (change (slot_of s4 p u = Some MARK); rewrite (slot_tables _ _ _ _ T); exact Hm).
  assert (Hf : fds s4 k = with_refcnt 1 zeroFd) by (rewrite (st_fds _ _ T) by easy; apply upd_eq).
  split; [exact (set_fd_slot_run _ _ _ _ _ Hs5)|]. split.
  - pose proof (ginv_tables _ _ _ _ _ T (ginv_taken _ _ _ _ _ (reserve_ginv _ _ _ _ _ _ I Hp Hs) Hk Hb)) as I4.
    eapply ginv_ext; [|apply (install_run live _ _ s4 p u k x I4 Hp Hs5 Hk)]; [apply (plus_minus none k 1)|unfold plus, none; now rewrite one_eq|now rewrite Hf].
  - constructor; try easy.
    + exact (slot_put_eq _ _ _ _ _ Hs5).
    + cbn. apply upd_eq.
    + intros j Hj Hne. cbn. rewrite upd_ne, (st_fds _ _ T) by easy. now apply upd_ne.
    + intros q j Hq. unfold s6. rewrite slot_put_ne by easy. change (slot_of s5 q j) with (slot_of s4 q j).
      rewrite (slot_tables _ _ _ _ T). now apply slot_put_ne.
Qed.

Lemma openat_inv live s p fd fn fl md r s' : finv live s -> p ∈ live -> openat p fd fn fl md s = Ok (r, s') ->
  finv live s' /\ if r <? 0 then same_tables s s' else exists k file off, installed p r k (MkFdesc file 0 dev_file off fl md fd_dev_file 1 0) s s'.
Proof.
  intros I Hp H. unfold openat in H. destruct (fn =? 0); [now injection H as <- <-|].
  apply bind_ok in H as (name & s0 & H0 & H). apply same_on_world in H0.
  apply bind_ok in H as (base & s1 & H1 & H). apply open_base_same in H1. pose proof (same_trans _ _ _ H0 H1) as T1. clear H0 H1 s0.
  pose proof (ginv_tables _ _ _ _ _ T1 I) as I1. destruct base as [d|]; [|now injection H as <- <-].
  assert (F : forall r s', r < 0 -> same_tables s1 s' -> finv live s' /\ if r <? 0 then same_tables s s' else exists k file off, installed p r k (MkFdesc file 0 dev_file off fl md fd_dev_file 1 0) s s').
  { intros r0 s2 Hr T. rewrite (proj2 (Z.ltb_lt _ _)) by lia. split; [now apply (ginv_tables _ _ _ s1)|now apply (same_trans _ s1)]. }
  apply bind_ok in H as (u & s2 & H2 & H).
  destruct (alloc_ufd_cases _ _ _ _ p I1 Hp) as [(u' & Hu & Hs & Hlow & E)|[_ E]]; rewrite E in H2; injection H2 as <- <-; [|now injection H as <- <-].
  rewrite (proj2 (Z.ltb_ge u' 0)) in H by lia. pose proof (slot_put_eq _ _ _ MARK _ Hs) as Hm. apply bind_ok in H as (k & s3 & H3 & H).
  destruct (fdAlloc_cases (put_slot p u' MARK s1)) as [(k' & Hk & Hb & Hl & E3)|[_ E3]]; rewrite E3 in H3; injection H3 as <- <-.
  2: { change (- ENFILE <? 0) with true in H. cbv iota in H. rewrite (bind_run _ _ _ _ _ (free_ufd_run _ _ _ Hm)) in H. injection H as <- <-.
       apply F; [easy|]. apply undo_ufd; easy. }
  rewrite (proj2 (Z.ltb_ge k' 0)) in H by (unfold entry in Hk; lia).
  apply bind_ok in H as ([r4 file] & s4 & H4 & H). apply open_file_same in H4. destruct (Z.ltb_spec r4 0) as [Hr|Hr].
  - destruct (open_undo _ _ _ _ _ _ I1 Hp Hs Hk Hb H4) as (s5 & s6 & F5 & F6 & T6).
    rewrite (bind_run _ _ _ _ _ F5), (bind_run _ _ _ _ _ F6) in H. injection H as <- <-. now apply F.
  - apply bind_ok in H as (v5 & s5 & H5 & H). assert (T5 : same_tables s4 s5) by (destruct (negb _) in H5; [now apply same_on_world in H5|now injection H5 as _ <-]).
    apply bind_ok in H as (off & s6 & H6 & H). assert (T6 : same_tables s5 s6) by (destruct (negb _) in H6; [now apply same_on_world in H6|now injection H6 as _ <-]).
    pose proof (same_trans _ _ _ H4 (same_trans _ _ _ T5 T6)) as T36. unfold bind at 1, upd_fd, modify in H.
    assert (Hx : fds s6 k' = with_refcnt 1 zeroFd) by (rewrite (st_fds _ _ T36) by easy; apply upd_eq). rewrite Hx in H.
    destruct (open_done live s1 p u' k' s6 (MkFdesc file 0 dev_file off fl md fd_dev_file 1 0) I1 Hp Hs Hlow Hk Hb Hl T36 eq_refl) as (E7 & I7 & N7).
    rewrite (bind_run _ _ _ _ _ E7) in H. injection H as <- <-. rewrite (proj2 (Z.ltb_ge _ _)) by lia. split; [exact I7|].
    exists k', file, off. now apply (installed_tables _ s1).
Qed.

Lemma dup_inv live s p fd r s' : finv live s -> p ∈ live -> dup p fd s = Ok (r, s') -> finv live s'.
Proof.
  intros I Hp H. unfold dup in H. apply bind_ok in H as (o & s1 & H1 & H). apply kern_fd_inv in H1 as [-> Ho].
  destruct o as [k|]; [|now injection H as _ <-]. destruct Ho as (_ & Hs & Hk). pose proof (slot_refs _ _ _ _ _ _ _ I Hp Hs) as Hr.
  apply bind_ok in H as (u & s2 & H2 & H).
  destruct (alloc_ufd_cases _ _ _ _ p I Hp) as [(u' & Hu & Hm & _ & E)|[_ E]]; rewrite E in H2; injection H2 as <- <-; [|now injection H as _ <-].
  rewrite (proj2 (Z.ltb_ge u' 0)) in H by lia.
  pose proof (reserve_ginv _ _ _ _ _ _ I Hp Hm) as I2. assert (Hs2 : slot_of (put_slot p u' MARK s) p u' = Some MARK) by now apply (slot_put_eq _ _ _ _ (-1)).
  rewrite (bind_run _ _ _ _ _ (set_fd_slot_run _ _ _ _ _ Hs2)) in H. pose proof (install_ginv _ _ _ _ _ _ _ I2 Hp Hs2 Hk) as I3.
  set (s3 := put_slot p u' k (put_slot p u' MARK s)) in *. change (0 + 1 - 1) with 0 in I3.
  assert (Hr3 : 1 < refs s3 live k).
  { assert (R : refs s3 live k + plus none k (-1) k = refs s live k + none k).
    { rewrite <- (gi_refcnt _ _ _ _ I3 k Hk), <- (gi_refcnt _ _ _ _ I k Hk). reflexivity. }
    unfold plus, none in R. rewrite one_eq in R. lia. }
  assert (Hp3 : 0 < refs s3 live k + plus none k (-1) k) by (unfold plus, none; rewrite one_eq; lia).
  rewrite (bind_run _ _ _ _ _ (cloneAddCite_run _ _ _ _ _ I3 Hk Hp3)) in H. injection H as _ <-.
  eapply ginv_ext; [|apply ginv_counted; [exact I3|exact Hk|exact Hp3| |]].
  - apply (plus_minus none k (-1)).
  - lia.
  - unfold plus, none. rewrite one_eq. lia.
Qed.

Lemma refs_two live h m s p i j k : ginv live h m s -> p ∈ live -> slot_of s p i = Some k -> slot_of s p j = Some k -> i <> j -> entry k -> h k < 256 ->
  1 < refs s live k.
Proof.
  intros I Hp Hi Hj Hne Hk Hh. pose proof (slot_of_range _ _ _ _ Hj) as [Hj0 _].
  pose proof (ginv_slot _ _ _ _ p j (-1) k I Hp Hj ltac:(now left) ltac:(easy)) as I2.
  assert (H2 : slot_of (put_slot p j (-1) s) p i = Some k) by (rewrite slot_put_ne by auto; exact Hi).
  pose proof (slot_refs _ _ _ _ _ _ _ I2 Hp H2) as R2.
  pose proof (gi_refcnt _ _ _ _ I2 k Hk) as E2. pose proof (gi_refcnt _ _ _ _ I k Hk) as E1. cbn [fds put_slot set_pfs] in E2.
  unfold plus in E2. rewrite one_eq, (one_ne (-1) k) in E2 by (intros ->; now apply not_entry_m1). lia.
Qed.

(** [dup3], when [old] is open. *)
Lemma dup3_inv live s p old new r s' k : finv live s -> p ∈ live -> kern_fd p old s = Ok (Some k, s) -> dup3 p old new s = Ok (r, s') -> finv live s'.
Proof.
  intros I Hp Ho H. apply kern_fd_inv in Ho as (_ & Hlo & Hs & Hk). unfold dup3 in H.
  destruct (Z.eqb_spec old new) as [|Hne]; [now injection H as _ <-|]. unfold bind at 1, gets at 1 in H.
  rewrite (proj2 (Z.ltb_ge old 0)), (proj2 (Z.leb_gt _ old)) in H by lia. cbn [orb] in H.
  destruct ((new <? 0) || _) eqn:En; [now injection H as _ <-|]. zbool.
  apply bind_ok in H as (kn & s1 & Hsl & H). apply fd_slot_inv in Hsl as [Hn ->]. destruct (Z.leb_spec FDNUM kn) as [|Hkn]; [now injection H as _ <-|].
  apply bind_ok in H as (u & s2 & H2 & H).
  assert (I2 : ginv live (plus none kn (-1)) 0 s2 /\ p_fs s2 = p_fs s).
  { destruct (Z.leb_spec 0 kn).
    - apply (freeFd_ginv live none 0 s kn u); [exact I|unfold entry; lia| |exact H2]. pose proof (slot_refs _ _ _ _ _ _ _ I Hp Hn). unfold none. lia.
    - injection H2 as _ <-. split; [|easy]. destruct (gi_slots _ _ _ _ I p kn Hp (slot_of_in _ _ _ _ Hn)) as [-> | [ | -> ]]; [|unfold entry in *; lia|unfold MARK, FDNUM in *; lia].
      eapply ginv_ext; [|exact I]. held. }
  destruct I2 as [I2 P2]. assert (Hs2 : slot_of s2 p old = Some k) by (unfold slot_of; now rewrite P2).
  assert (Hn2 : slot_of s2 p new = Some kn) by (unfold slot_of; now rewrite P2).
  rewrite (bind_run _ _ _ _ _ (fd_slot_run _ _ _ _ Hs2)) in H. unfold entry in Hk.
  rewrite (proj2 (Z.ltb_ge k 0)), (proj2 (Z.leb_gt _ k)) in H by lia. cbn [orb] in H.
  rewrite (bind_run _ _ _ _ _ (set_fd_slot_run _ _ _ _ _ Hn2)) in H.
  pose proof (ginv_slot _ _ _ _ p new k kn I2 Hp Hn2 ltac:(right; left; exact Hk) ltac:(unfold plus, none; rewrite one_eq; lia)) as I3.
  assert (Hm0 : one kn MARK = 0) by (apply one_ne; unfold MARK; lia). rewrite Hm0, one_mark_entry in I3 by easy. clear Hm0.
  set (s3 := put_slot p new k s2) in *. set (h := plus (plus (plus none kn (-1)) kn 1) k (-1)) in *. change (0 + 0 - 0) with 0 in I3.
  assert (Hr : 1 < refs s3 live k).
  { unfold s3, refs, put_slot. cbn [p_fs set_pfs]. rewrite refs_in_upd by (easy || apply I). cbn [fdList with_fdList].
    assert (L : fdList (p_fs s2 p) !! Z.to_nat new = Some kn) by (unfold slot_of in Hn2; now rewrite (proj2 (Z.ltb_ge new 0)) in Hn2 by lia).
    rewrite (nocc_insert _ _ _ _ _ L). pose proof (slot_refs _ _ _ _ _ _ _ I2 Hp Hs2) as R2. unfold refs in R2. rewrite one_eq.
    destruct (Z.eq_dec k kn) as [->|Hk2]; [|rewrite (one_ne kn k) by easy; lia].
    assert (1 < refs_in (p_fs s2) live kn); [|rewrite one_eq; lia]. apply (refs_two _ _ _ _ p old new _ I2); try assumption; unfold plus, none; rewrite one_eq; lia. }
  assert (Hp3 : 0 < refs s3 live k + h k) by (unfold h, plus, none; rewrite one_eq; lia).
  rewrite (bind_run _ _ _ _ _ (cloneAddCite_run _ _ _ _ _ I3 Hk Hp3)) in H. injection H as _ <-.
  apply (ginv_ext live (plus h k 1)); [|apply ginv_counted; [exact I3|exact Hk|exact Hp3| |]].
  - intros j Hj. unfold h, plus, none. lia.
  - lia.
  - unfold h, plus, none. rewrite one_eq. lia.
Qed.

Lemma undo_two s p u1 u2 s1 : u1 <> u2 -> slot_of s p u1 = Some (-1) -> slot_of s p u2 = Some (-1) ->
  same_tables (put_slot p u2 MARK (put_slot p u1 MARK s)) s1 -> same_tables s (put_slot p u2 (-1) (put_slot p u1 (-1) s1)).
Proof.
  intros Hne H1 H2 T. pose proof (slot_of_range _ _ _ _ H1) as [R1 _]. pose proof (slot_of_range _ _ _ _ H2) as [R2 _].
  assert (H2' : slot_of (put_slot p u1 (-1) (put_slot p u1 MARK s)) p u2 = Some (-1)) by (rewrite !slot_put_ne by auto; exact H2).
  apply (same_trans _ (put_slot p u1 (-1) (put_slot p u1 MARK s))); [apply undo_ufd; easy|]. apply undo_ufd; [exact H2'|].
  apply (same_trans _ (put_slot p u1 (-1) (put_slot p u2 MARK (put_slot p u1 MARK s)))); [|now apply same_put].
  constructor; try easy; intros q; unfold put_slot; cbn [p_fs set_pfs]; unfold upd; destruct (q =? p); rewrite ?Z.eqb_refl; try easy.
  cbn [fdList with_fdList]. apply list_insert_insert_ne. lia.
Qed.
Lemma free_both_run s p u1 u2 : 0 <= u1 -> 0 <= u2 -> u1 <> u2 -> slot_of s p u1 = Some MARK -> slot_of s p u2 = Some MARK ->
  free_both_ufd p u1 u2 s = Ok (tt, put_slot p u2 (-1) (put_slot p u1 (-1) s)).
Proof.
  intros H1 H2 Hne S1 S2. unfold free_both_ufd. rewrite !(proj2 (Z.leb_le 0 _)) by lia. rewrite (bind_run _ _ _ _ _ (free_ufd_run _ _ _ S1)).
  apply free_ufd_run. now rewrite slot_put_ne by auto.
Qed.
(** Two reserved descriptors. *)
Lemma alloc_two live s p : finv live s -> p ∈ live ->
  (exists u1 u2, 0 <= u1 /\ 0 <= u2 /\ u1 <> u2 /\ slot_of s p u1 = Some (-1) /\ slot_of s p u2 = Some (-1) /\
     let s1 := put_slot p u1 MARK s in let s2 := put_slot p u2 MARK s1 in
     alloc_ufd p s = Ok (u1, s1) /\ alloc_ufd p s1 = Ok (u2, s2) /\ ginv live none 2 s2 /\ slot_of s2 p u1 = Some MARK /\ slot_of s2 p u2 = Some MARK) \/
  (exists u1, 0 <= u1 /\ slot_of s p u1 = Some (-1) /\ alloc_ufd p s = Ok (u1, put_slot p u1 MARK s) /\ alloc_ufd p (put_slot p u1 MARK s) = Ok (- EMFILE, put_slot p u1 MARK s)) \/
  alloc_ufd p s = Ok (- EMFILE, s).
Proof.
  intros I Hp. destruct (alloc_ufd_cases _ _ _ _ p I Hp) as [(u1 & Hu1 & S1 & _ & E1)|[_ E1]]; [|now right; right].
  pose proof (reserve_ginv _ _ _ _ _ _ I Hp S1) as I1. pose proof (slot_put_eq _ _ _ MARK _ S1) as M1.
  destruct (alloc_ufd_cases _ _ _ _ p I1 Hp) as [(u2 & Hu2 & S2 & _ & E2)|[_ E2]]; [|right; left; exists u1; split; [lia|easy]].
  left. exists u1, u2. assert (Hne : u1 <> u2) by (intros <-; rewrite M1 in S2; discriminate).
  split; [lia|]. split; [lia|]. split; [exact Hne|]. split; [exact S1|]. split; [rewrite slot_put_ne in S2 by (auto || lia); exact S2|].
  split; [exact E1|]. split; [exact E2|]. split; [exact (reserve_ginv _ _ _ _ _ _ I1 Hp S2)|].
  split; [rewrite slot_put_ne by (auto || lia); exact M1|]. apply (slot_put_eq _ _ _ _ _ S2).
Qed.

Lemma pipe_inv live s p r fd1 fd2 s' : finv live s -> p ∈ live -> pipe p s = Ok ((r, (fd1, fd2)), s') -> finv live s' /\ (r < 0 -> same_tables s s').
Proof.
  intros I Hp H. assert (F : forall s', same_tables s s' -> finv live s' /\ (r < 0 -> same_tables s s')) by (intros s1 T; split; [now apply (ginv_tables _ _ _ s)|easy]).
  unfold pipe in H.
  destruct (alloc_two live s p I Hp) as [(u1 & u2 & P1 & P2 & Hne & S1 & S2 & E1 & E2 & I2 & M1 & M2)|[(u1 & P1 & S1 & E1 & E2)|E]].
  3: { rewrite !(bind_run _ _ _ _ _ E) in H. injection H as <- <- <- <-. apply F, same_refl. }
  2: { rewrite (bind_run _ _ _ _ _ E1), (bind_run _ _ _ _ _ E2), orb_true_r in H. unfold free_both_ufd in H. rewrite (proj2 (Z.leb_le 0 u1)) in H by easy.
       pose proof (slot_put_eq _ _ _ MARK _ S1) as M1. change (0 <=? - EMFILE) with false in H.
       unfold bind at 1 2 in H. rewrite (free_ufd_run _ _ _ M1) in H. injection H as _ _ _ <-. apply F, undo_ufd; easy. }
  rewrite (bind_run _ _ _ _ _ E1), (bind_run _ _ _ _ _ E2), !(proj2 (Z.ltb_ge _ 0)) in H by easy. cbn [orb] in H.
  set (s2 := put_slot p u2 MARK (put_slot p u1 MARK s)) in *. clear E1 E2.
  destruct (fdAlloc_cases s2) as [(k1 & Hk1 & B1 & _ & E3)|[_ E3]]; rewrite (bind_run _ _ _ _ _ E3) in H.
  2: { change (- ENFILE <? 0) with true in H. cbv iota in H. rewrite (bind_run _ _ _ _ _ (free_both_run _ _ _ _ P1 P2 Hne M1 M2)) in H.
       injection H as _ _ _ <-. apply F. now apply undo_two. }
  rewrite (proj2 (Z.ltb_ge k1 0)) in H by (unfold entry in Hk1; lia). pose proof (ginv_taken _ _ _ _ _ I2 Hk1 B1) as I3.
  destruct (fdAlloc_cases (taken_fd k1 s2)) as [(k2 & Hk2 & B2 & _ & E4)|[_ E4]]; rewrite (bind_run _ _ _ _ _ E4) in H.
  2: { change (- ENFILE <? 0) with true in H. cbv iota in H.
       rewrite (bind_run _ _ _ _ _ (free_both_run (taken_fd k1 s2) _ _ _ P1 P2 Hne M1 M2)) in H.
       destruct (undo_fd (put_slot p u2 (-1) (put_slot p u1 (-1) s2)) k1 (put_slot p u2 (-1) (put_slot p u1 (-1) (taken_fd k1 s2))) Hk1 B1) as (s6 & F6 & T6).
       { exact (zero_of_free _ _ _ _ _ I2 Hk1 B1). } { apply same_refl. }
       rewrite (bind_run _ _ _ _ _ F6) in H. injection H as _ _ _ <-. apply F. refine (same_trans _ _ _ _ T6). now apply undo_two. }
  rewrite (proj2 (Z.ltb_ge k2 0)) in H by (unfold entry in Hk2; lia). pose proof (ginv_taken _ _ _ _ _ I3 Hk2 B2) as I4.
  assert (Hkk : k1 <> k2). { intros <-. unfold taken_fd in B2. cbn [fdBitMap set_bitmap] in B2. rewrite take_taken, Z.eqb_refl in B2. discriminate. }
  apply bind_ok in H as (q & s5 & H5 & H). pose proof (same_on_world _ _ _ _ H5) as T5. pose proof (ginv_tables _ _ _ _ _ T5 I4) as I5.
  unfold bind at 1, upd_fd at 1, modify at 1 in H. set (x1 := opened 0 q dev_pipe 0 O_RDONLY _ _ _) in H.
  assert (M1' : slot_of (set_fds (upd (fds s5) k1 x1) s5) p u1 = Some MARK) by (change (slot_of s5 p u1 = Some MARK); rewrite (slot_tables _ _ _ _ T5); exact M1).
  assert (M2' : slot_of s5 p u2 = Some MARK) by (rewrite (slot_tables _ _ _ _ T5); exact M2).
  rewrite (bind_run _ _ _ _ _ (set_fd_slot_run _ _ _ _ _ M1')) in H.
  pose proof (install_run _ _ _ _ p u1 k1 x1 I5 Hp M1' Hk1 ltac:(unfold plus, none; rewrite one_eq, one_ne by easy; lia) eq_refl) as I6.
  set (s6 := put_slot p u1 k1 _) in *. unfold bind at 1, upd_fd at 1, modify at 1 in H. set (x2 := opened 0 q dev_pipe 0 O_WRONLY _ _ _) in H.
  assert (M2'' : slot_of (set_fds (upd (fds s6) k2 x2) s6) p u2 = Some MARK) by (change (slot_of s6 p u2 = Some MARK); unfold s6; rewrite slot_put_ne by auto; exact M2').
  rewrite (bind_run _ _ _ _ _ (set_fd_slot_run _ _ _ _ _ M2'')) in H. injection H as <- _ _ <-. split; [|lia].
  eapply ginv_ext; [|apply (install_run _ _ _ _ p u2 k2 x2 I6 Hp M2'' Hk2); [unfold plus, none; rewrite one_eq, one_ne by easy; lia|reflexivity]].
  intros j Hj. unfold plus, none. lia.
Qed.

(** *** Calls that change the contents of entries in use *)

Record soft (s s' : fdst) : Prop := {
  so_refcnt : forall k, entry k -> (s'.(fds) k).(refcnt) = (s.(fds) k).(refcnt);
  so_unused : forall k, entry k -> (s.(fds) k).(refcnt) = 0 -> s'.(fds) k = s.(fds) k;
  so_bits : forall k, entry k -> bit_taken s'.(fdBitMap) k = bit_taken s.(fdBitMap) k;
  so_fs : s'.(p_fs) = s.(p_fs)
}.
Lemma soft_refl s : soft s s.
Proof. easy. Qed.
Lemma soft_trans a b c : soft a b -> soft b c -> soft a c.
Proof.
  intros A B. constructor; intros.
  - rewrite (so_refcnt _ _ B) by easy. now apply A.
  - rewrite (so_unused _ _ B) by (easy || now rewrite (so_refcnt _ _ A)). now apply A.
  - rewrite (so_bits _ _ B) by easy. now apply A.
  - rewrite (so_fs _ _ B). apply A.
Qed.
Lemma ginv_soft live h m s s' : soft s s' -> ginv live h m s -> ginv live h m s'.
Proof.
  intros T I. constructor; unfold refs; rewrite ?(so_fs _ _ T); try apply I; intros k Hk.
  - rewrite (so_refcnt _ _ T) by easy. now apply I.
  - rewrite (so_bits _ _ T) by easy. now apply I.
  - intros Z0. rewrite (so_unused _ _ T) by (easy || rewrite (gi_refcnt _ _ _ _ I k Hk); exact Z0). now apply I.
Qed.
Lemma soft_world {A} (c : M W A) s a s' : on_world c s = Ok (a, s') -> soft s s'.
Proof. intros H. apply on_world_inv in H as [w ->]. easy. Qed.
Lemma soft_fd s k f : (s.(fds) k).(refcnt) <> 0 -> (f (s.(fds) k)).(refcnt) = (s.(fds) k).(refcnt) -> soft s (set_fds (upd s.(fds) k (f (s.(fds) k))) s).
Proof.
  intros H1 H2. constructor; try easy; intros j Hj; cbn [fds set_fds]; unfold upd; destruct (Z.eqb_spec j k) as [->|]; easy.
Qed.
Lemma soft_used a b k : soft a b -> entry k -> (a.(fds) k).(refcnt) <> 0 -> (b.(fds) k).(refcnt) <> 0.
Proof. intros T Hk H. now rewrite (so_refcnt _ _ T). Qed.

Lemma fd_rw_soft (op : Z -> Fd -> Z -> Z -> Z -> M W (Z * Z)) k buf n off s r s' : (s.(fds) k).(refcnt) <> 0 ->
  (let* x := gets (fun s => s.(fds) k) in let* (r, o) := dev_call x (op x.(fd_dev) x buf n off) in upd_fd k (with_offset o) ;;; ret r) s = Ok (r, s') -> soft s s'.
Proof.
  intros Hr H. unfold bind at 1, gets at 1 in H. apply bind_ok in H as ([r1 o] & s1 & H1 & H). unfold dev_call in H1.
  destruct (_ =? 0); [discriminate|]. apply on_world_inv in H1 as [w ->]. injection H as _ <-.
  apply (soft_trans _ (set_world w s)); [easy|]. now apply (soft_fd (set_world w s) k (with_offset o)).
Qed.
Lemma fd_read_soft k buf n off s r s' : (s.(fds) k).(refcnt) <> 0 -> fd_read k buf n off s = Ok (r, s') -> soft s s'.
Proof. apply (fd_rw_soft dev_read). Qed.
Lemma fd_write_soft k buf n off s r s' : (s.(fds) k).(refcnt) <> 0 -> fd_write k buf n off s = Ok (r, s') -> soft s s'.
Proof. apply (fd_rw_soft dev_write). Qed.
Lemma with_kfd_soft live s p fd bad c r s' : finv live s -> p ∈ live ->
  (forall k r s', entry k -> (s.(fds) k).(refcnt) <> 0 -> c k s = Ok (r, s') -> soft s s') -> with_kfd p fd bad c s = Ok (r, s') -> soft s s'.
Proof.
  intros I Hp Hc H. unfold with_kfd in H. apply bind_ok in H as (o & s1 & H1 & H). apply kern_fd_inv in H1 as [-> Ho].
  destruct o as [k|]; [|now injection H as _ <-]. destruct Ho as (_ & Hs & Hk). unfold bind at 1, gets at 1 in H.
  destruct (bad (fds s k)); [now injection H as _ <-|]. eapply Hc; [exact Hk| |exact H].
  pose proof (slot_refs _ _ _ _ _ _ _ I Hp Hs). rewrite (gi_refcnt _ _ _ _ I k Hk). unfold none. lia.
Qed.
Lemma positional_soft (rw : M fdst Z) k s r s' o : (forall s r s', (s.(fds) k).(refcnt) <> 0 -> rw s = Ok (r, s') -> soft s s') -> entry k -> (s.(fds) k).(refcnt) <> 0 ->
  (let* r := rw in upd_fd k (with_offset o) ;;; ret r) s = Ok (r, s') -> soft s s'.
Proof.
  intros Hrw Hk Hr H. apply bind_ok in H as (r1 & s1 & H1 & H). injection H as _ <-. pose proof (Hrw _ _ _ Hr H1) as T1.
  apply (soft_trans _ _ _ T1). apply (soft_fd s1 k (with_offset o)); [now apply (soft_used s)|easy].
Qed.
Lemma readv_loop_soft n : forall k iov total s r s', entry k -> (s.(fds) k).(refcnt) <> 0 -> readv_loop n k iov total s = Ok (r, s') -> soft s s'.
Proof.
  induction n as [|n IH]; intros k iov total s r s' Hk Hr H; [now injection H as _ <-|]. cbn [readv_loop] in H.
  apply bind_ok in H as ([base len] & s1 & H1 & H). apply soft_world in H1. pose proof (soft_used _ _ _ H1 Hk Hr) as Hr1.
  unfold bind at 1, gets at 1 in H. apply bind_ok in H as (l & s2 & H2 & H). apply fd_read_soft in H2; [|exact Hr1].
  pose proof (soft_trans _ _ _ H1 H2) as T. destruct (l <? 0); [now injection H as _ <-|]. destruct (l <? len); [now injection H as _ <-|].
  apply (soft_trans _ _ _ T). eapply IH; [exact Hk| |exact H]. now apply (soft_used s).
Qed.
Lemma writev_loop_soft n : forall k iov total s r s', entry k -> (s.(fds) k).(refcnt) <> 0 -> writev_loop n k iov total s = Ok (r, s') -> soft s s'.
Proof.
  induction n as [|n IH]; intros k iov total s r s' Hk Hr H; [now injection H as _ <-|]. cbn [writev_loop] in H.
  apply bind_ok in H as ([base len] & s1 & H1 & H). apply soft_world in H1. pose proof (soft_used _ _ _ H1 Hk Hr) as Hr1.
  destruct (len =? 0); [apply (soft_trans _ _ _ H1); now eapply IH; [exact Hk| |exact H]|].
  unfold bind at 1, gets at 1 in H. apply bind_ok in H as (l & s2 & H2 & H). apply fd_write_soft in H2; [|exact Hr1].
  pose proof (soft_trans _ _ _ H1 H2) as T. destruct (l <? 0); [now injection H as _ <-|]. destruct (l <? len); [now injection H as _ <-|].
  apply (soft_trans _ _ _ T). eapply IH; [exact Hk| |exact H]. now apply (soft_used s).
Qed.
Lemma seek_target_soft x off wh s r s' : seek_target x off wh s = Ok (r, s') -> soft s s'.
Proof.
  unfold seek_target. intros H. repeat match type of H with (if ?b then _ else _) _ = _ => destruct b end; try discriminate; try (now injection H as _ <-);
    apply bind_ok in H as (? & s1 & H1 & H); apply soft_world in H1; now injection H as _ <-.
Qed.

(** ** Histories of calls *)

Inductive fcall : Type :=
| COpen (fd filename flags mode : Z) | CPipe | CClose (fd : Z) | CDup (fd : Z) | CDup3 (old new : Z)
| CRead (fd buf n : Z) | CWrite (fd buf n : Z) | CPread (fd buf n off : Z) | CPwrite (fd buf n off : Z)
| CReadv (fd iov cnt : Z) | CWritev (fd iov cnt : Z) | CSeek (fd off whence : Z) | CFcntl (fd cmd arg : Z) | CLimit (cur max : Z).
Definition run_call (p : Z) (c : fcall) : M fdst Z :=
  match c with
  | COpen fd fn fl md => openat p fd fn fl md
  | CPipe => let* (r, _) := pipe p in ret r
  | CClose fd => closeFd p fd
  | CDup fd => dup p fd
  | CDup3 old new => dup3 p old new
  | CRead fd buf n => read p fd buf n
  | CWrite fd buf n => write p fd buf n
  | CPread fd buf n off => pread64 p fd buf n off
  | CPwrite fd buf n off => pwrite64 p fd buf n off
  | CReadv fd iov cnt => readv p fd iov cnt
  | CWritev fd iov cnt => writev p fd iov cnt
  | CSeek fd off wh => lseekFd p fd off wh
  | CFcntl fd cmd arg => sys_fcntl p fd cmd arg
  | CLimit cur max => set_nofile p cur max
  end.
(** [dup3] from a descriptor that is not open is excluded
    (see [dup3_bad_old_dangles]); limits are unsigned. *)
Definition call_ok (p : Z) (c : fcall) (s : fdst) : Prop :=
  match c with
  | CDup3 old _ => exists k, kern_fd p old s = Ok (Some k, s)
  | CLimit cur _ => 0 <= cur
  | _ => True
  end.

Lemma rw_soft live s p c r s' : finv live s -> p ∈ live ->
  match c with CRead _ _ _ | CWrite _ _ _ | CPread _ _ _ _ | CPwrite _ _ _ _ | CReadv _ _ _ | CWritev _ _ _ | CSeek _ _ _ => True | _ => False end ->
  run_call p c s = Ok (r, s') -> soft s s'.
Proof.
  intros I Hp Hc H. destruct c; try easy; cbn [run_call] in H; try unfold lseekFd in H;
    (eapply (with_kfd_soft live s p _ _ _ r s' I Hp); [|exact H]); clear H; intros k r1 s1 Hk Hr H.
  - unfold bind at 1, gets at 1 in H. now apply fd_read_soft in H.
  - unfold bind at 1, gets at 1 in H. now apply fd_write_soft in H.
  - unfold bind at 1, gets at 1 in H. refine (positional_soft _ k s r1 s1 _ _ Hk Hr H). intros. eapply fd_read_soft; eassumption.
  - unfold bind at 1, gets at 1 in H. refine (positional_soft _ k s r1 s1 _ _ Hk Hr H). intros. eapply fd_write_soft; eassumption.
  - now apply readv_loop_soft in H.
  - now apply writev_loop_soft in H.
  - unfold bind at 1, gets at 1 in H. apply bind_ok in H as ([e o] & s2 & H2 & H). apply seek_target_soft in H2.
    destruct (e <? 0); [now injection H as _ <-|]. destruct (o <? 0); [now injection H as _ <-|]. injection H as _ <-.
    apply (soft_trans _ _ _ H2). apply (soft_fd s2 k (with_offset (wrap32 o))); [now apply (soft_used s)|easy].
Qed.
Lemma fcntl_inv live s p fd cmd arg r s' : finv live s -> p ∈ live -> sys_fcntl p fd cmd arg s = Ok (r, s') -> finv live s'.
Proof.
  intros I Hp H. unfold sys_fcntl in H. apply bind_ok in H as (o & s1 & H1 & H). apply kern_fd_inv in H1 as [-> Ho].
  destruct o as [k|]; [|now injection H as _ <-]. destruct Ho as (_ & Hs & Hk). unfold bind at 1, gets at 1 in H.
  assert (Hr : refcnt (fds s k) <> 0) by (pose proof (slot_refs _ _ _ _ _ _ _ I Hp Hs); rewrite (gi_refcnt _ _ _ _ I k Hk); unfold none; lia).
  assert (F : forall f, finv live (set_fds (upd (fds s) k (with_flags f (fds s k))) s)) by (intros f; eapply ginv_soft; [now apply (soft_fd s k (with_flags f))|exact I]).
  repeat match type of H with (if ?b then _ else _) _ = _ => destruct b end; try (now injection H as _ <-); try (injection H as _ <-; apply F).
  exact (dup_inv _ _ _ _ _ _ I Hp H).
Qed.
Lemma set_nofile_inv live s p cur mx r s' : finv live s -> p ∈ live -> 0 <= cur -> set_nofile p cur mx s = Ok (r, s') -> finv live s'.
Proof.
  intros I Hp Hc H. unfold set_nofile in H. destruct (Z.ltb_spec mx cur); [now injection H as _ <-|]. destruct (Z.ltb_spec MAX_FD_COUNT mx); [now injection H as _ <-|].
  injection H as _ <-.
  assert (R : forall k, refs (set_pfs (upd (p_fs s) p (with_rlimit cur mx (p_fs s p))) s) live k = refs s live k).
  { intros k. unfold refs. cbn [p_fs set_pfs]. rewrite refs_in_upd by (easy || apply I). cbn. lia. }
  constructor; rewrite ?R; try apply I; cbn [p_fs set_pfs fds fdBitMap].
  - intros q Hq. unfold upd. destruct (Z.eqb_spec q p) as [->|]; now apply I.
  - intros q Hq. unfold upd. destruct (Z.eqb_spec q p) as [->|]; [cbn; lia|now apply I].
  - intros q v Hq. unfold upd. destruct (Z.eqb_spec q p) as [->|]; now apply I.
  - intros k Hk. rewrite R. now apply I.
  - intros k Hk. rewrite R. now apply I.
  - intros k Hk. rewrite R. now apply I.
  - intros k Hk. rewrite R. now apply I.
Qed.
Lemma call_inv live s p c r s' : finv live s -> p ∈ live -> call_ok p c s -> run_call p c s = Ok (r, s') -> finv live s'.
Proof.
  intros I Hp Hc H. destruct c; try (refine (ginv_soft _ _ _ _ _ (rw_soft live s p _ r s' I Hp _ H) I); exact Logic.I); cbn [run_call] in H.
  - exact (proj1 (openat_inv _ _ _ _ _ _ _ _ _ I Hp H)).
  - apply bind_ok in H as ([r1 [a b]] & s1 & H1 & H). injection H as _ <-. exact (proj1 (pipe_inv _ _ _ _ _ _ _ I Hp H1)).
  - exact (closeFd_inv _ _ _ _ _ _ I Hp H).
  - exact (dup_inv _ _ _ _ _ _ I Hp H).
  - destruct Hc as [k Hk]. exact (dup3_inv _ _ _ _ _ _ _ _ I Hp Hk H).
  - exact (fcntl_inv _ _ _ _ _ _ _ _ I Hp H).
  - exact (set_nofile_inv _ _ _ _ _ _ _ I Hp Hc H).
Qed.

(** ** Processes come and go *)

Lemma ginv_out live h m s p t : p ∉ live -> ginv live h m s -> ginv live h m (set_pfs (upd s.(p_fs) p t) s).
Proof.
  intros Hp I. assert (R : forall k, refs (set_pfs (upd (p_fs s) p t) s) live k = refs s live k) by (intros; now apply refs_in_out).
  assert (E : forall q, q ∈ live -> p_fs (set_pfs (upd (p_fs s) p t) s) q = p_fs s q) by (intros q Hq; cbn; apply upd_ne; congruence).
  constructor; rewrite ?R; try apply I.
  - intros q Hq. rewrite E by easy. now apply I.
  - intros q Hq. rewrite E by easy. now apply I.
  - intros q v Hq. rewrite E by easy. now apply I.
  - intros k Hk. rewrite R. now apply I.
  - intros k Hk. rewrite R. now apply I.
  - intros k Hk. rewrite R. now apply I.
  - intros k Hk. rewrite R. now apply I.
Qed.
Lemma ginv_enlarge live h s c : ginv live h 0 s -> c ∉ live -> Z.of_nat (length live) + 1 < 65536 ->
  length (s.(p_fs) c).(fdList) = 256%nat -> 0 <= (s.(p_fs) c).(rlimit_files_cur) <= MAX_FD_COUNT ->
  (forall v, v ∈ (s.(p_fs) c).(fdList) -> v = -1 \/ entry v) -> (forall k, entry k -> h k = nocc k (s.(p_fs) c).(fdList)) -> finv (c :: live) s.
Proof.
  intros I Hc Hl HL Hlim Hv Hh. assert (R : forall k, refs s (c :: live) k = nocc k (fdList (p_fs s c)) + refs s live k) by reflexivity.
  assert (R2 : forall k, entry k -> refs s (c :: live) k + none k = refs s live k + h k) by (intros; rewrite R, Hh by easy; unfold none; lia).
  assert (Q : forall P : Z -> Prop, P c -> (forall q, q ∈ live -> P q) -> forall q, q ∈ c :: live -> P q).
  { intros P H1 H2 q Hq. apply elem_of_cons in Hq as [-> | Hq]; auto. }
  constructor; intros; rewrite ?R2 by easy; try (now apply I).
  - constructor; [exact Hc|apply I].
  - cbn [length]. lia.
  - revert p H. apply Q; [exact HL|apply I].
  - revert p H. apply Q; [exact Hlim|apply I].
  - revert p H v H0. apply (Q (fun p => forall v, v ∈ fdList (p_fs s p) -> v = -1 \/ entry v \/ v = MARK)); [|intros q Hq v; now apply I].
    intros v Hin. destruct (Hv v Hin); auto.
  - rewrite R, (gi_marks _ _ _ _ I). pose proof (nocc_range MARK (fdList (p_fs s c))).
    destruct (Z.eq_dec (nocc MARK (fdList (p_fs s c))) 0); [lia|]. assert (M : MARK ∈ fdList (p_fs s c)) by (apply nocc_pos; lia).
    destruct (Hv _ M) as [|M2]; [discriminate|now apply not_entry_mark in M2].
  - pose proof (gi_total _ _ _ _ I k H). unfold none. lia.
  - rewrite R2 in H0 by easy. now apply I.
Qed.

Lemma refs_without f live p k : NoDup live -> p ∈ live -> refs_in f live k = nocc k (f p).(fdList) + refs_in f (without p live) k.
Proof.
  induction live as [|q l IH]; intros Hn Hp; [now apply elem_of_nil in Hp|]. apply NoDup_cons in Hn as [Hq Hn]. cbn [refs_in].
  unfold without. cbn [List.filter]. destruct (Z.eqb_spec q p) as [->|Hne]; cbn [negb].
  - fold (without p l). now rewrite without_notin.
  - cbn [refs_in]. fold (without p l). rewrite IH; [lia|easy|]. apply elem_of_cons in Hp as [-> | Hp]; easy.
Qed.
Lemma refs_ge f live p k : NoDup live -> p ∈ live -> (forall q, q ∈ live -> length (f q).(fdList) = 256%nat) -> nocc k (f p).(fdList) <= refs_in f live k.
Proof.
  intros Hn Hp HL. rewrite (refs_without _ _ p) by easy. pose proof (refs_in_range f (without p live) k) as R.
  specialize (R ltac:(intros q Hq; apply without_in in Hq as [Hq _]; now apply HL)). lia.
Qed.
Lemma ginv_shrink live h s p : ginv live h 0 s -> p ∈ live -> (forall k, entry k -> h k = - nocc k (s.(p_fs) p).(fdList)) -> finv (without p live) s.
Proof.
  intros I Hp Hh. assert (R : forall k, refs s live k = nocc k (fdList (p_fs s p)) + refs s (without p live) k) by (intros; apply refs_without; [apply I|easy]).
  assert (R2 : forall k, entry k -> refs s (without p live) k + none k = refs s live k + h k) by (intros; rewrite R, Hh by easy; unfold none; lia).
  assert (Q : forall q, q ∈ without p live -> q ∈ live) by (intros q Hq; now apply without_in in Hq).
  constructor; intros; rewrite ?R2 by easy; try (now apply I); try (apply I; now apply Q).
  - apply filter_NoDup, I.
  - pose proof (gi_few _ _ _ _ I). pose proof (List.filter_length_le (fun q => negb (q =? p)) live). unfold without. lia.
  - apply (gi_slots _ _ _ _ I p0); [now apply Q|easy].
  - pose proof (gi_marks _ _ _ _ I) as M. rewrite R in M. pose proof (nocc_range MARK (fdList (p_fs s p))).
    pose proof (refs_in_range (p_fs s) (without p live) MARK ltac:(intros q Hq; apply I; now apply Q)). unfold refs in *. lia.
  - pose proof (gi_total _ _ _ _ I k H). unfold none. lia.
  - rewrite R2 in H0 by easy. now apply I.
Qed.

Lemma nocc_app k a b : nocc k (a ++ b) = nocc k a + nocc k b.
Proof. induction a as [|x a IH]; cbn; [easy|]. rewrite IH. lia. Qed.
Lemma nocc_take_S k l i v : l !! i = Some v -> nocc k (take (S i) l) = nocc k (take i l) + one v k.
Proof.
  intros H. rewrite (take_S_r _ _ v H), nocc_app. cbn. unfold one. rewrite (Z.eqb_sym k v). destruct (v =? k); lia.
Qed.
Lemma slot_lookup s p i v : 0 <= i -> slot_of s p i = Some v <-> (s.(p_fs) p).(fdList) !! Z.to_nat i = Some v.
Proof. intros. unfold slot_of. now rewrite (proj2 (Z.ltb_ge i 0)) by lia. Qed.
Lemma slot_kind live h s p i v : ginv live h 0 s -> p ∈ live -> slot_of s p i = Some v -> v = -1 \/ entry v.
Proof.
  intros I Hp Hs. destruct (gi_slots _ _ _ _ I p v Hp (slot_of_in _ _ _ _ Hs)) as [| [|E]]; auto. rewrite E in Hs. now destruct (slot_not_mark _ _ _ _ _ I Hp Hs).
Qed.

(** The references a fork has taken, or an exit given up, after [i] steps. *)
Definition prefix_refs (s : fdst) (p i : Z) (k : Z) : Z := nocc k (take (Z.to_nat i) (s.(p_fs) p).(fdList)).
Lemma prefix_step s p i v k : 0 <= i -> slot_of s p i = Some v -> prefix_refs s p (i + 1) k = prefix_refs s p i k + one v k.
Proof.
  intros Hi Hs. apply slot_lookup in Hs; [|easy]. unfold prefix_refs. replace (Z.to_nat (i + 1)) with (S (Z.to_nat i)) by lia. now apply nocc_take_S.
Qed.
Lemma prefix_all live h m s p k : ginv live h m s -> p ∈ live -> prefix_refs s p 256 k = nocc k (s.(p_fs) p).(fdList).
Proof. intros I Hp. unfold prefix_refs. rewrite take_ge; [easy|]. rewrite (gi_len _ _ _ _ I p Hp). lia. Qed.

Lemma recycle_loop_inv live p n : forall i s u s', p ∈ live -> 0 <= i -> i + Z.of_nat n = 256 ->
  ginv live (fun k => - prefix_refs s p i k) 0 s -> recycle_loop n p i s = Ok (u, s') ->
  ginv live (fun k => - nocc k (s.(p_fs) p).(fdList)) 0 s' /\ s'.(p_fs) = s.(p_fs).
Proof.
  induction n as [|n IH]; intros i s u s' Hp Hi Hn I H.
  - injection H as _ <-. split; [|easy]. eapply ginv_ext; [|exact I]. intros k _. cbn beta. replace i with 256 by lia. now rewrite (prefix_all _ _ _ _ _ _ I Hp).
  - cbn [recycle_loop] in H. apply bind_ok in H as (v & s1 & H1 & H). apply fd_slot_inv in H1 as [Hs ->].
    apply bind_ok in H as (u1 & s1 & H1 & H). destruct (slot_kind _ _ _ _ _ _ I Hp Hs) as [-> | Hv].
    + injection H1 as _ <-. apply (IH (i + 1) s u s'); [easy|lia|lia| |exact H]. eapply ginv_ext; [|exact I].
      intros k Hk. cbn beta. rewrite (prefix_step _ _ _ _ _ Hi Hs), one_ne by (intros ->; now apply not_entry_m1). lia.
    + rewrite (proj2 (Z.eqb_neq v (-1))) in H1 by (unfold entry in Hv; lia). cbn [negb] in H1.
      assert (Hpos : 0 < refs s live v + - prefix_refs s p i v).
      { pose proof (refs_ge (p_fs s) live p v (gi_nodup _ _ _ _ I) Hp (gi_len _ _ _ _ I)) as G. unfold refs.
        pose proof (prefix_step _ _ _ _ v Hi Hs) as E. rewrite one_eq in E.
        assert (prefix_refs s p (i + 1) v <= nocc v (fdList (p_fs s p))); [|lia].
        unfold prefix_refs. rewrite <- (take_drop (Z.to_nat (i + 1)) (fdList (p_fs s p))) at 2. rewrite nocc_app.
        pose proof (nocc_range v (drop (Z.to_nat (i + 1)) (fdList (p_fs s p)))). lia. }
      destruct (freeFd_ginv _ _ _ _ _ _ _ I Hv Hpos H1) as [I1 P1].
      rewrite <- P1. apply (IH (i + 1) s1 u s'); [easy|lia|lia| |exact H]. eapply ginv_ext; [|exact I1].
      intros k Hk. unfold plus. unfold prefix_refs at 2. rewrite P1. change (nocc k (take (Z.to_nat (i + 1)) (fdList (p_fs s p)))) with (prefix_refs s p (i + 1) k).
      rewrite (prefix_step _ _ _ _ _ Hi Hs). lia.
Qed.
Lemma ginv_meta live h m s p f : (forall t, (f t).(fdList) = t.(fdList) /\ (f t).(rlimit_files_cur) = t.(rlimit_files_cur)) ->
  ginv live h m s -> ginv live h m (set_pfs (upd s.(p_fs) p (f (s.(p_fs) p))) s).
Proof. intros Hf. apply ginv_tables. now apply same_meta. Qed.
Lemma recycle_inv live s p u s' : finv live s -> p ∈ live -> recycle_thread_fs p s = Ok (u, s') -> finv (without p live) s'.
Proof.
  intros I Hp H. unfold recycle_thread_fs in H. unfold bind at 1, upd_fs, modify in H.
  pose proof (ginv_meta _ _ _ _ p (with_cwd []) ltac:(easy) I) as I1. set (s1 := set_pfs _ s) in *.
  apply bind_ok in H as (u2 & s2 & H2 & H). apply (recycle_loop_inv live p) in H2 as [I2 P2]; [|easy|easy|easy|eapply ginv_ext; [|exact I1]; easy].
  unfold bind, gets in H. assert (T : same_tables s2 s') by (destruct (negb _) in H; [now apply same_on_world in H|now injection H as _ <-]).
  apply (ginv_tables _ _ _ _ _ T). apply (ginv_shrink _ (fun k => - nocc k (fdList (p_fs s1 p)))); [exact I2|exact Hp|]. intros k Hk. now rewrite P2.
Qed.

Lemma fork_loop_inv live p c n : forall i s u s', p ∈ live -> c ∉ live -> 0 <= i -> i + Z.of_nat n = 256 -> length (s.(p_fs) c).(fdList) = 256%nat ->
  (forall j, 0 <= j < i -> slot_of s c j = slot_of s p j) -> ginv live (prefix_refs s p i) 0 s -> fork_loop n p c i s = Ok (u, s') ->
  ginv live (fun k => nocc k (s.(p_fs) p).(fdList)) 0 s' /\ (forall q, q <> c -> s'.(p_fs) q = s.(p_fs) q) /\ length (s'.(p_fs) c).(fdList) = 256%nat /\
  (forall j, 0 <= j < 256 -> slot_of s' c j = slot_of s p j).
Proof.
  induction n as [|n IH]; intros i s u s' Hp Hc Hi Hn HL Hj I H.
  - injection H as _ <-. assert (i = 256) as -> by lia. split; [|easy]. eapply ginv_ext; [|exact I]. intros k _. now rewrite (prefix_all _ _ _ _ _ _ I Hp).
  - assert (Hpc : p <> c) by congruence. cbn [fork_loop] in H. apply bind_ok in H as (v & s1 & H1 & H). apply fd_slot_inv in H1 as [Hs ->].
    apply bind_ok in H as (u1 & s1 & H1 & H).
    assert (E : ginv live (prefix_refs s p (i + 1)) 0 s1 /\ p_fs s1 = p_fs s).
    { destruct (slot_kind _ _ _ _ _ _ I Hp Hs) as [-> | Hv].
      - injection H1 as _ <-. split; [|easy]. eapply ginv_ext; [|exact I]. intros k Hk. rewrite (prefix_step _ _ _ _ _ Hi Hs), (one_ne (-1) k); [lia|].
        intros ->. now apply not_entry_m1.
      - rewrite (proj2 (Z.eqb_neq v (-1))) in H1 by (unfold entry in Hv; lia). cbn [negb] in H1.
        pose proof (slot_refs _ _ _ _ _ _ _ I Hp Hs) as Hr. pose proof (prefix_step _ _ _ _ v Hi Hs) as Ev. rewrite one_eq in Ev.
        assert (B : 0 <= prefix_refs s p i v /\ prefix_refs s p (i + 1) v <= 256).
        { unfold prefix_refs. pose proof (nocc_range v (take (Z.to_nat i) (fdList (p_fs s p)))). pose proof (nocc_range v (take (Z.to_nat (i + 1)) (fdList (p_fs s p)))).
          rewrite !length_take in *. lia. }
        rewrite (cloneAddCite_run _ _ _ _ _ I Hv ltac:(lia)) in H1. injection H1 as _ <-. split; [|easy].
        apply (ginv_ext live (plus (prefix_refs s p i) v 1)); [|apply ginv_counted; [exact I|exact Hv|lia|lia|lia]].
        intros k Hk. rewrite (prefix_step _ _ _ _ _ Hi Hs). unfold plus. lia. }
    destruct E as [I1 P1]. assert (HL1 : (Z.to_nat i < length (fdList (p_fs s1 c)))%nat) by (rewrite P1; lia).
    destruct (lookup_lt_is_Some_2 _ _ HL1) as [w Hw]. apply (slot_lookup s1 c i w Hi) in Hw.
    rewrite (bind_run _ _ _ _ _ (set_fd_slot_run _ _ _ v _ Hw)) in H. set (s2 := put_slot c i v s1) in *.
    assert (PQ : forall q, q <> c -> p_fs s2 q = p_fs s q) by (intros q Hq; unfold s2, put_slot; cbn [p_fs set_pfs]; rewrite upd_ne by easy; now rewrite P1).
    pose proof (PQ p Hpc) as P2.
    assert (S1 : forall q j, slot_of s1 q j = slot_of s q j) by (intros; unfold slot_of; now rewrite P1).
    assert (SP : forall j, slot_of s2 p j = slot_of s p j) by (intros j; unfold slot_of; now rewrite P2).
    assert (G : length (fdList (p_fs s2 c)) = 256%nat /\ (forall j, 0 <= j < i + 1 -> slot_of s2 c j = slot_of s2 p j) /\ ginv live (prefix_refs s2 p (i + 1)) 0 s2).
    { split; [|split].
      - unfold s2, put_slot. cbn [p_fs set_pfs]. rewrite upd_eq. cbn. now rewrite length_insert, P1.
      - intros j Hj2. rewrite SP. destruct (Z.eq_dec j i) as [-> | Hne]; [rewrite Hs; now apply (slot_put_eq _ _ _ _ w)|].
        unfold s2. rewrite slot_put_ne by auto. rewrite S1. apply Hj. lia.
      - eapply ginv_ext; [|apply (ginv_out _ _ _ _ c _ Hc I1)]. intros k _. unfold prefix_refs. now rewrite <- P2. }
    destruct G as (G1 & G2 & G3). destruct (IH (i + 1) s2 u s' Hp Hc ltac:(lia) ltac:(lia) G1 G2 G3 H) as (F1 & F2 & F3 & F4).
    rewrite P2 in *. split; [exact F1|]. split; [intros q Hq; now rewrite F2, PQ|]. split; [exact F3|]. intros j Hj2. rewrite F4 by easy. apply SP.
Qed.

(** [proc_alloc] hands out the slot with its [p_fs_struct] zeroed. *)
Definition alloc_fs (c : Z) (s : fdst) : fdst := set_pfs (upd s.(p_fs) c zero_fs) s.
Lemma fork_inv live s p c u s' : finv live s -> p ∈ live -> c ∉ live -> Z.of_nat (length live) + 1 < 65536 ->
  fork_thread_fs p c (alloc_fs c s) = Ok (u, s') ->
  finv (c :: live) s' /\ (s'.(p_fs) c).(fdList) = (s.(p_fs) p).(fdList) /\ (forall q, q <> c -> s'.(p_fs) q = s.(p_fs) q).
Proof.
  intros I Hp Hc Hl H. assert (Hpc : p <> c) by congruence. unfold fork_thread_fs in H. unfold bind at 1, gets at 1 in H. unfold bind at 1, upd_fs at 1, modify at 1 in H.
  set (s1 := set_pfs _ (alloc_fs c s)) in H.
  assert (P1 : forall q, q <> c -> p_fs s1 q = p_fs s q) by (intros q Hq; unfold s1, alloc_fs; cbn [p_fs set_pfs]; now rewrite !upd_ne).
  assert (I1 : finv live s1) by (apply ginv_out; [easy|]; now apply ginv_out).
  assert (L1 : length (fdList (p_fs s1 c)) = 256%nat) by (unfold s1, alloc_fs; cbn [p_fs set_pfs]; now rewrite !upd_eq).
  apply bind_ok in H as (u2 & s2 & H2 & H).
  destruct (fork_loop_inv live p c (Z.to_nat MAX_FD_COUNT) 0 s1 u2 s2 Hp Hc ltac:(lia) eq_refl L1 ltac:(lia)) as (I2 & P2 & L2 & S2); [eapply ginv_ext; [|exact I1]; easy|exact H2|].
  unfold bind, gets in H. injection H as _ <-. rewrite (P1 p Hpc) in I2.
  assert (EL : fdList (p_fs s2 c) = fdList (p_fs s p)).
  { apply list_eq. intros i. destruct (lt_dec i 256).
    - specialize (S2 (Z.of_nat i) ltac:(lia)). unfold slot_of in S2. rewrite (P1 p Hpc), (proj2 (Z.ltb_ge (Z.of_nat i) 0)), Nat2Z.id in S2 by lia. exact S2.
    - rewrite !lookup_ge_None_2; [easy|rewrite (gi_len _ _ _ _ I p Hp); lia|lia]. }
  set (t := MkTfs _ _ _ _ _ _).
  assert (Et : fdList t = fdList (p_fs s p)) by exact EL.
  assert (Er : rlimit_files_cur t = rlimit_files_cur (p_fs s p)) by (unfold t; cbn; now rewrite P2, P1).
  split; [|split].
  - apply (ginv_enlarge live (fun k => nocc k (fdList (p_fs s p)))); cbn [p_fs set_pfs]; rewrite ?upd_eq, ?Et, ?Er; try easy.
    + now apply ginv_out.
    + now apply I.
    + now apply I.
    + intros v Hv. destruct (gi_slots _ _ _ _ I p v Hp Hv) as [|[|E]]; auto. rewrite E in Hv.
      pose proof (refs_in_pos (p_fs s) live MARK p (gi_len _ _ _ _ I) Hp Hv). pose proof (gi_marks _ _ _ _ I) as M. unfold refs in M. lia.
  - cbn [p_fs set_pfs]. rewrite upd_eq. exact Et.
  - intros q Hq. cbn [p_fs set_pfs]. rewrite upd_ne by easy. now rewrite P2, P1.
Qed.

(** *** The consoles and the first process *)

Definition consoles (s : fdst) : Z * Z * Z := (s.(readconsole), s.(writeconsole), s.(errorconsole)).
(** A console that is not allocated, or whose entry is in use. *)
Definition live_console (s : fdst) (c : Z) : Prop := c = -1 \/ (entry c /\ (s.(fds) c).(refcnt) <> 0).
Definition consoles_ok (s : fdst) : Prop := live_console s s.(readconsole) /\ live_console s s.(writeconsole) /\ live_console s s.(errorconsole).

Lemma console_inv get set f live h m s k s' : ginv live h m s -> (forall k, entry k -> h k <= 255) -> live_console s (get s) ->
  (forall k s, exists a b c, set k s = set_consoles a b c s) -> (forall k s1 s2, consoles s1 = consoles s2 -> consoles (set k s1) = consoles (set k s2)) ->
  console_alloc get set f s = Ok (k, s') ->
  entry k /\ ginv live (plus h k 1) m s' /\ s'.(p_fs) = s.(p_fs) /\ (forall c, live_console s c -> live_console s' c) /\
  (consoles s' = consoles s \/ consoles s' = consoles (set k s)).
Proof.
  intros I Hh Hg Hset Hcon H. unfold console_alloc in H. unfold bind at 1, gets at 1 in H. destruct (Z.eqb_spec (get s) (-1)) as [E|E].
  - apply bind_ok in H as (k1 & s1 & H1 & H). destruct (fdAlloc_cases s) as [(k2 & Hk & Hb & _ & E1)|[_ E1]]; rewrite E1 in H1; injection H1 as <- <-.
    2: { unfold bind, modify in H. discriminate. }
    destruct (Hset k2 (taken_fd k2 s)) as (a & b & c & Es). unfold bind at 1, modify at 1 in H.
    rewrite (proj2 (Z.ltb_ge k2 0)) in H by (unfold entry in Hk; lia). unfold bind, ret, upd_fd, modify in H. injection H as <- <-.
    pose proof (ginv_taken _ _ _ _ _ I Hk Hb) as I1. rewrite Es. split; [exact Hk|]. split; [|split; [easy|split]].
    + apply (ginv_fd live _ m (set_consoles a b c (taken_fd k2 s)) k2 (fun x => MkFdesc x.(dirent) x.(pipe_) dev_console x.(offset) f x.(st_mode) fd_dev_console x.(refcnt) x.(socket))).
      * change (refs (set_consoles a b c (taken_fd k2 s)) live k2) with (refs (taken_fd k2 s) live k2). pose proof (gi_refcnt _ _ _ _ I1 k2 Hk) as R. cbn in R. rewrite upd_eq in R. cbn in R. lia.
      * easy.
      * now apply ginv_consoles.
    + intros c' [-> | [Hc1 Hc2]]; [now left|right]. split; [easy|]. cbn. unfold upd. rewrite Z.eqb_refl. destruct (Z.eqb_spec c' k2); easy.
    + right. specialize (Hcon k2 (taken_fd k2 s) s eq_refl). rewrite Es in Hcon. exact Hcon.
  - destruct Hg as [|[Hk Hr]]; [easy|]. assert (Hp : 0 < refs s live (get s) + h (get s)).
    { pose proof (gi_total _ _ _ _ I _ Hk). pose proof (gi_refcnt _ _ _ _ I _ Hk). lia. }
    rewrite (bind_run _ _ _ _ _ (cloneAddCite_run _ _ _ _ _ I Hk Hp)) in H. injection H as <- <-. specialize (Hh _ Hk).
    split; [exact Hk|]. split; [apply ginv_counted; (easy || lia)|]. split; [easy|]. split; [|now left].
    intros c [-> | [Hc1 Hc2]]; [now left|right]. split; [easy|]. cbn. unfold upd. destruct (Z.eqb_spec c (get s)); [cbn|easy].
    rewrite (gi_refcnt _ _ _ _ I _ Hk). lia.
Qed.
Lemma readConsole_inv live h m s k s' : ginv live h m s -> (forall k, entry k -> h k <= 255) -> live_console s s.(readconsole) -> readConsoleAlloc s = Ok (k, s') ->
  entry k /\ ginv live (plus h k 1) m s' /\ s'.(p_fs) = s.(p_fs) /\ (forall c, live_console s c -> live_console s' c) /\ s'.(writeconsole) = s.(writeconsole) /\ s'.(errorconsole) = s.(errorconsole).
Proof.
  intros I Hh Hc H. unfold readConsoleAlloc in H. eapply console_inv in H; [|exact I|exact Hh|exact Hc|eauto|intros k0 a b E; unfold consoles in *; injection E; intros; cbn; congruence].
  destruct H as (? & ? & ? & ? & [X|X]); injection X; auto 10.
Qed.
Lemma writeConsole_inv live h m s k s' : ginv live h m s -> (forall k, entry k -> h k <= 255) -> live_console s s.(writeconsole) -> writeConsoleAlloc s = Ok (k, s') ->
  entry k /\ ginv live (plus h k 1) m s' /\ s'.(p_fs) = s.(p_fs) /\ (forall c, live_console s c -> live_console s' c) /\ s'.(readconsole) = s.(readconsole) /\ s'.(errorconsole) = s.(errorconsole).
Proof.
  intros I Hh Hc H. unfold writeConsoleAlloc in H. eapply console_inv in H; [|exact I|exact Hh|exact Hc|eauto|intros k0 a b E; unfold consoles in *; injection E; intros; cbn; congruence].
  destruct H as (? & ? & ? & ? & [X|X]); injection X; auto 10.
Qed.
Lemma errorConsole_inv live h m s k s' : ginv live h m s -> (forall k, entry k -> h k <= 255) -> live_console s s.(errorconsole) -> errorConsoleAlloc s = Ok (k, s') ->
  entry k /\ ginv live (plus h k 1) m s' /\ s'.(p_fs) = s.(p_fs).
Proof.
  intros I Hh Hc H. unfold errorConsoleAlloc in H. eapply console_inv in H; [|exact I|exact Hh|exact Hc|eauto|intros k0 a b E; unfold consoles in *; injection E; intros; cbn; congruence].
  destruct H as (? & ? & ? & _); auto.
Qed.
Lemma put_out live h m s p i v : p ∉ live -> ginv live h m s -> ginv live h m (put_slot p i v s).
Proof. intros Hp I. now apply ginv_out. Qed.
Lemma nocc_replicate k n : entry k -> nocc k (replicate n (-1)) = 0.
Proof. intros Hk. induction n as [|n IH]; [easy|]. cbn [replicate nocc]. rewrite IH. unfold entry in Hk. now rewrite (proj2 (Z.eqb_neq (-1) k)) by lia. Qed.

Lemma init_inv live s p u s' : finv live s -> p ∉ live -> Z.of_nat (length live) + 1 < 65536 -> consoles_ok s ->
  init_thread_fs p (alloc_fs p s) = Ok (u, s') -> finv (p :: live) s'.
Proof.
  intros I Hp Hl (C1 & C2 & C3) H. unfold init_thread_fs in H. unfold bind at 1, upd_fs at 1, modify at 1 in H. set (s0 := set_pfs _ (alloc_fs p s)) in H.
  assert (I0 : finv live s0) by (apply ginv_out; [easy|]; now apply ginv_out).
  assert (L0 : fdList (p_fs s0 p) = replicate 256 (-1)) by (unfold s0, alloc_fs; cbn [p_fs set_pfs]; now rewrite upd_eq).
  apply bind_ok in H as (k1 & s1 & H1 & H).
  destruct (readConsole_inv _ _ _ _ _ _ I0 ltac:(unfold none; lia) C1 H1) as (K1 & I1 & P1 & V1 & W1 & X1).
  apply bind_ok in H as (? & s1' & H1' & H). apply set_fd_slot_inv in H1' as [-> _]. pose proof (put_out _ _ _ _ p 0 k1 Hp I1) as I1'. set (s1' := put_slot p 0 k1 s1) in *.
  assert (C2' : live_console s1' (writeconsole s1')) by (change (live_console s1 (writeconsole s1)); rewrite W1; now apply V1).
  apply bind_ok in H as (k2 & s2 & H2 & H).
  destruct (writeConsole_inv _ _ _ _ _ _ I1' ltac:(intros; unfold plus, none; pose proof (one_range k1 k); lia) C2' H2) as (K2 & I2 & P2 & V2 & _ & X2).
  apply bind_ok in H as (? & s2' & H2' & H). apply set_fd_slot_inv in H2' as [-> _]. pose proof (put_out _ _ _ _ p 1 k2 Hp I2) as I2'. set (s2' := put_slot p 1 k2 s2) in *.
  assert (C3' : live_console s2' (errorconsole s2')).
  { change (live_console s2 (errorconsole s2)). rewrite X2. apply V2. change (live_console s1 (errorconsole s1)). rewrite X1. now apply V1. }
  apply bind_ok in H as (k3 & s3 & H3 & H).
  destruct (errorConsole_inv _ _ _ _ _ _ I2' ltac:(intros; unfold plus, none; pose proof (one_range k1 k); pose proof (one_range k2 k); lia) C3' H3) as (K3 & I3 & P3).
  apply bind_ok in H as (? & s3' & H3' & H). apply set_fd_slot_inv in H3' as [-> _]. pose proof (put_out _ _ _ _ p 2 k3 Hp I3) as I3'. set (s3' := put_slot p 2 k3 s3) in *.
  injection H as _ <-. set (t := MkTfs _ _ _ _ _ _).
  assert (Et : fdList t = k1 :: k2 :: k3 :: replicate 253 (-1)).
  { unfold t. cbn [fdList]. unfold s3', put_slot. cbn [p_fs set_pfs]. rewrite upd_eq, P3. cbn [fdList with_fdList]. unfold s2', put_slot. cbn [p_fs set_pfs]. rewrite upd_eq, P2.
    cbn [fdList with_fdList]. unfold s1', put_slot. cbn [p_fs set_pfs]. rewrite upd_eq, P1. cbn [fdList with_fdList]. rewrite L0. reflexivity. }
  apply (ginv_enlarge live (plus (plus (plus none k1 1) k2 1) k3 1)); cbn [p_fs set_pfs]; rewrite ?upd_eq, ?Et; try easy.
  - now apply ginv_out.
  - intros v Hv. rewrite !elem_of_cons, elem_of_replicate in Hv. destruct Hv as [-> | [-> | [-> | [-> _]]]]; auto.
  - intros k Hk. cbn [nocc]. rewrite nocc_replicate by easy. unfold plus, none, one. rewrite (Z.eqb_sym k k1), (Z.eqb_sym k k2), (Z.eqb_sym k k3).
    destruct (k1 =? k), (k2 =? k), (k3 =? k); lia.
Qed.

(** ** Reachable states *)

Inductive fstep (s : fdst) (live : list Z) : fdst -> list Z -> Prop :=
| step_call p c r s' : p ∈ live -> call_ok p c s -> run_call p c s = Ok (r, s') -> fstep s live s' live
| step_init p u s' : p ∉ live -> Z.of_nat (length live) + 1 < 65536 -> consoles_ok s -> init_thread_fs p (alloc_fs p s) = Ok (u, s') -> fstep s live s' (p :: live)
| step_fork p c u s' : p ∈ live -> c ∉ live -> Z.of_nat (length live) + 1 < 65536 -> fork_thread_fs p c (alloc_fs c s) = Ok (u, s') -> fstep s live s' (c :: live)
| step_exit p u s' : p ∈ live -> recycle_thread_fs p s = Ok (u, s') -> fstep s live s' (without p live).
Inductive freach (s0 : fdst) (live0 : list Z) : fdst -> list Z -> Prop :=
| freach_refl : freach s0 live0 s0 live0
| freach_step s live s' live' : freach s0 live0 s live -> fstep s live s' live' -> freach s0 live0 s' live'.

Definition boot (w : W) : fdst := MkFdst (fun _ => 0) (fun _ => zeroFd) (fun _ => zero_fs) (-1) (-1) (-1) w.
Lemma boot_finv w : finv [] (boot w).
Proof.
  constructor; try easy; try (intros p H; now apply elem_of_nil in H).
  constructor.
Qed.
Lemma reach_finv s0 live0 s live : finv live0 s0 -> freach s0 live0 s live -> finv live s.
Proof.
  intros I H. induction H as [|s live s' live' _ IH St]; [exact I|]. destruct St as [p c r s' Hp Hc H|p u s' Hp Hl Hc H|p c u s' Hp Hc Hl H|p u s' Hp H].
  - exact (call_inv _ _ _ _ _ _ IH Hp Hc H).
  - exact (init_inv _ _ _ _ _ IH Hp Hl Hc H).
  - exact (proj1 (fork_inv _ _ _ _ _ _ IH Hp Hc Hl H)).
  - exact (recycle_inv _ _ _ _ _ IH Hp H).
Qed.


(** C23. [openat] opens the lowest free descriptor on the lowest free entry and
    changes nothing else; if it fails, on whichever path, all tables are as
    before: nothing leaks. *)
Theorem openat_spec live s p fd fn fl md r s' : finv live s -> p ∈ live -> openat p fd fn fl md s = Ok (r, s') ->
  if r <? 0 then same_tables s s' else exists k file off, installed p r k (MkFdesc file 0 dev_file off fl md fd_dev_file 1 0) s s'.
Proof. intros I Hp H. exact (proj2 (openat_inv _ _ _ _ _ _ _ _ _ I Hp H)). Qed.

(** [closeFd] of an open descriptor returns 0 and frees it; the device is
    closed, once, and the entry cleared and freed exactly if no other descriptor
    of any process names it. *)
Theorem closeFd_spec live s p fd k w : finv live s -> p ∈ live -> kern_fd p fd s = Ok (Some k, s) ->
  close_dev (with_refcnt 0 (s.(fds) k)) s.(world) = Ok w ->
  exists s', closeFd p fd s = Ok (0, s') /\ slot_of s' p fd = Some (-1) /\
    (forall q j, q <> p \/ j <> fd -> slot_of s' q j = slot_of s q j) /\ (forall j, j <> k -> s'.(fds) j = s.(fds) j) /\
    if refs s live k =? 1 then s'.(fds) k = zeroFd /\ bit_taken s'.(fdBitMap) k = false /\ s'.(world) = w
    else s'.(fds) k = with_refcnt (refs s live k - 1) (s.(fds) k) /\ bit_taken s'.(fdBitMap) k = true /\ s'.(world) = s.(world).
Proof.
  intros I Hp Hkf Hw. pose proof (kern_fd_inv _ _ _ _ _ Hkf) as (_ & Hfd & Hs & Hk). pose proof (slot_refs _ _ _ _ _ _ _ I Hp Hs) as Hr.
  unfold closeFd. rewrite (bind_run _ _ _ _ _ Hkf). pose proof (gi_refcnt _ _ _ _ I k Hk) as Rk. unfold none in Rk. destruct (Z.eqb_spec (refs s live k) 1) as [E|E].
  - destruct (freeFd_last _ _ _ _ _ _ I Hk ltac:(unfold none; lia) Hw) as (s1 & F & Hf & Hb & P1 & W1). rewrite (bind_run _ _ _ _ _ F).
    assert (Hs1 : slot_of s1 p fd = Some k) by (unfold slot_of; now rewrite P1). rewrite (bind_run _ _ _ _ _ (set_fd_slot_run _ _ _ _ _ Hs1)).
    eexists. split; [reflexivity|]. split; [apply (slot_put_eq _ _ _ _ _ Hs1)|].
    split; [intros q j Hq; rewrite slot_put_ne by (easy || lia); unfold slot_of; now rewrite P1|]. cbn [fds put_slot set_pfs fdBitMap world].
    split; [intros j Hj; rewrite Hf; cbn; now apply upd_ne|]. rewrite Hf, Hb, clear_taken, Z.eqb_refl. cbn. now rewrite upd_eq.
  - rewrite (bind_run _ _ _ _ _ (freeFd_shared _ _ _ _ _ I Hk ltac:(unfold none; lia))).
    assert (Hs1 : slot_of (counted k (-1) s) p fd = Some k) by exact Hs. rewrite (bind_run _ _ _ _ _ (set_fd_slot_run _ _ _ _ _ Hs1)).
    eexists. split; [reflexivity|]. split; [apply (slot_put_eq _ _ _ _ _ Hs1)|].
    split; [intros q j Hq; now rewrite slot_put_ne by (easy || lia)|]. cbn [fds put_slot set_pfs fdBitMap world counted set_fds].
    split; [intros j Hj; now apply upd_ne|]. rewrite upd_eq, Rk, (gi_bits _ _ _ _ I k Hk). unfold none. rewrite !Z.add_0_r. repeat split. apply Z.ltb_lt. lia.
Qed.

(** ** Two defects *)

(** [dup3] closes the target before it looks at the source: when the
    source is not open the call fails with [EBADF], but the target has lost its
    entry and keeps its number.  The entry is free for the next [openat] of any
    process, and the descriptor then names the stranger's file. *)
Theorem dup3_bad_old_dangles live s p old new k w : finv live s -> p ∈ live -> kern_fd p new s = Ok (Some k, s) ->
  0 <= old < (s.(p_fs) p).(rlimit_files_cur) -> slot_of s p old = Some (-1) -> refs s live k = 1 ->
  close_dev (with_refcnt 0 (s.(fds) k)) s.(world) = Ok w ->
  exists s', dup3 p old new s = Ok (- EBADF, s') /\ slot_of s' p new = Some k /\ bit_taken s'.(fdBitMap) k = false /\ s'.(fds) k = zeroFd.
Proof.
  intros I Hp Hkf Ho Hso Hr Hw. pose proof (kern_fd_inv _ _ _ _ _ Hkf) as (_ & Hn & Hs & Hk).
  assert (Hne : old <> new) by (intros ->; rewrite Hso in Hs; injection Hs as <-; now apply not_entry_m1).
  unfold dup3. rewrite (proj2 (Z.eqb_neq _ _)) by easy. unfold bind at 1, gets at 1.
  rewrite (proj2 (Z.ltb_ge old 0)), (proj2 (Z.leb_gt _ old)), (proj2 (Z.ltb_ge new 0)), (proj2 (Z.leb_gt _ new)) by lia. cbn [orb].
  rewrite (bind_run _ _ _ _ _ (fd_slot_run _ _ _ _ Hs)). unfold entry in Hk. rewrite (proj2 (Z.leb_gt FDNUM k)), (proj2 (Z.leb_le 0 k)) by lia.
  destruct (freeFd_last _ _ _ _ _ _ I Hk ltac:(unfold none; lia) Hw) as (s1 & F & Hf & Hb & P1 & _). rewrite (bind_run _ _ _ _ _ F).
  assert (Ho1 : slot_of s1 p old = Some (-1)) by (unfold slot_of; now rewrite P1). rewrite (bind_run _ _ _ _ _ (fd_slot_run _ _ _ _ Ho1)).
  exists s1. split; [reflexivity|]. split; [unfold slot_of; now rewrite P1|]. rewrite Hb, clear_taken, Z.eqb_refl, Hf. cbn. now rewrite upd_eq.
Qed.

Lemma fork_loop_mark live h m p c n : forall i s u, ginv live h m s -> p ∈ live -> c ∉ live -> 0 <= i <= u -> u < i + Z.of_nat n -> i + Z.of_nat n = 256 ->
  (forall k, entry k -> 0 <= h k <= i) -> (forall v j, j < u -> slot_of s p j = Some v -> v = -1 \/ entry v) -> slot_of s p u = Some MARK -> length (s.(p_fs) c).(fdList) = 256%nat ->
  fork_loop n p c i s = Err Panic.
Proof.
  revert h. induction n as [|n IH]; intros h i s u I Hp Hc Hi Hu Hn Hh Hlow Hm HL; [lia|]. assert (Hpc : p <> c) by congruence. cbn [fork_loop].
  destruct (slot_of_some _ _ _ _ p i I Hp ltac:(lia)) as [v Hv]. rewrite (bind_run _ _ _ _ _ (fd_slot_run _ _ _ _ Hv)).
  destruct (Z.eq_dec i u) as [-> | Hne]; [rewrite Hm in Hv; injection Hv as <-; reflexivity|].
  assert (E : exists h' s1, (if negb (v =? -1) then cloneAddCite v else ret tt) s = Ok (tt, s1) /\ ginv live h' m s1 /\ p_fs s1 = p_fs s /\ (forall k, entry k -> 0 <= h' k <= i + 1)).
  { destruct (Hlow v i ltac:(lia) Hv) as [-> | He].
    - exists h, s. split; [easy|]. split; [easy|]. split; [easy|]. intros k Hk. specialize (Hh k Hk). lia.
    - rewrite (proj2 (Z.eqb_neq v (-1))) by (unfold entry in He; lia). cbn [negb]. pose proof (slot_refs _ _ _ _ _ _ _ I Hp Hv). pose proof (Hh v He).
      exists (plus h v 1), (counted v 1 s). rewrite (cloneAddCite_run _ _ _ _ _ I He) by lia. split; [easy|]. split; [apply ginv_counted; (easy || lia)|]. split; [easy|].
      intros k Hk. specialize (Hh k Hk). unfold plus. pose proof (one_range v k). lia. }
  destruct E as (h' & s1 & E1 & I1 & P1 & Hh'). rewrite (bind_run _ _ _ _ _ E1).
  assert (HL1 : (Z.to_nat i < length (fdList (p_fs s1 c)))%nat) by (rewrite P1; lia).
  destruct (lookup_lt_is_Some_2 _ _ HL1) as [w Hw]. apply (slot_lookup s1 c i w ltac:(lia)) in Hw. rewrite (bind_run _ _ _ _ _ (set_fd_slot_run _ _ _ v _ Hw)).
  assert (SP : forall j, slot_of (put_slot c i v s1) p j = slot_of s p j) by (intros j; rewrite slot_put_ne by (auto || lia); unfold slot_of; now rewrite P1).
  apply (IH h' (i + 1) _ u); try easy; try lia.
  - now apply ginv_out.
  - intros v' j Hj. rewrite SP. now apply Hlow.
  - now rewrite SP.
  - unfold put_slot. cbn [p_fs set_pfs]. rewrite upd_eq. cbn. now rewrite length_insert, P1.
Qed.
(** While a thread is in [openat], between reserving a descriptor and
    storing the entry, another thread of the process that forks stops the
    kernel: the reservation mark is taken for an entry. *)
Theorem fork_during_open_panics live s p c u s1 : finv live s -> p ∈ live -> c ∉ live -> alloc_ufd p s = Ok (u, s1) -> 0 <= u ->
  fork_thread_fs p c (alloc_fs c s1) = Err Panic.
Proof.
  intros I Hp Hc Ha Hu. assert (Hpc : p <> c) by congruence. pose proof (gi_lim _ _ _ _ I p Hp) as L. unfold MAX_FD_COUNT in L.
  destruct (alloc_ufd_cases _ _ _ _ p I Hp) as [(u' & Hu' & Hs & _ & E)|[_ E]]; rewrite E in Ha; injection Ha as <- <-; [|unfold EMFILE in Hu; lia].
  pose proof (reserve_ginv _ _ _ _ _ _ I Hp Hs) as I1. unfold fork_thread_fs. unfold bind at 1, gets at 1. unfold bind at 1, upd_fs at 1, modify at 1.
  set (s2 := set_pfs _ (alloc_fs c _)).
  assert (SP : forall j, slot_of s2 p j = slot_of (put_slot p u' MARK s) p j) by (intros j; unfold s2, alloc_fs, slot_of; cbn [p_fs set_pfs]; now rewrite !(upd_ne _ c) by easy).
  apply bind_err, (fork_loop_mark live none 1 p c _ 0 s2 u'); try easy.
  - apply ginv_out; [easy|]. now apply ginv_out.
  - change (0 + Z.of_nat (Z.to_nat MAX_FD_COUNT)) with 256. lia.
  - intros v j Hj Hv. rewrite SP, slot_put_ne in Hv by (lia || (right; lia)). exact (slot_kind _ _ _ _ _ _ I Hp Hv).
  - rewrite SP. exact (slot_put_eq _ _ _ _ _ Hs).
  - unfold s2, alloc_fs. cbn [p_fs set_pfs]. now rewrite !upd_eq.
Qed.
End Table.

(** ** Runs *)

Ltac ran := refine (after_ok _ _ _ _); vm_compute; reflexivity.

(** A world for runs: it records which entries were closed; names that begin
    with [x] do not exist. *)
#[local] Instance run_rw : FdRw (list Z) := {|
  dev_read _ x _ n off := ret (n, off + n);
  dev_write _ x _ n off := ret (n, off + n);
  copy_in_iov _ := ret (0, 0)
|}.
#[local] Instance run_close : FdClose (list Z) := {| dev_close _ x := fun w => Ok (0, x.(dirent) :: w) |}.
#[local] Instance run_stat : FileStat (list Z) := {| stat_size _ := ret 10 |}.
#[local] Instance run_vfs : Vfs (list Z) := {|
  getFile _ name := ret (if first_char name =? 120 then (-2, 0) else (0, first_char name));
  createFile _ name := ret (-2, 0);
  file_shrink _ _ := ret tt;
  file_close d := fun w => Ok (tt, d :: w);
  copyInStr a := ret [a];
  new_pipe := ret 500
|}.

(** Process 1 opens a file and makes a pipe; process 2, its child, closes the
    inherited file. *)
Definition r0 : fdst := boot (W := list Z) [].
Definition r1 : fdst := after (init_thread_fs 1) (alloc_fs 1 r0).
Definition r2 : fdst := after (run_call 1 (COpen AT_FDCWD 97 O_RDWR 0)) r1.
Definition r3 : fdst := after (run_call 1 CPipe) r2.
Definition r4 : fdst := after (fork_thread_fs 1 2) (alloc_fs 2 r3).
Definition r5 : fdst := after (run_call 2 (CClose 3)) r4.
Lemma r1_reach : freach r0 [] r1 [1].
Proof.
  apply (freach_step _ _ r0 []); [constructor|]. apply (step_init _ _ 1 tt); [now rewrite elem_of_nil|cbn; lia| |ran].
  unfold consoles_ok, live_console. auto.
Qed.
Lemma r3_reach : freach r0 [] r3 [1].
Proof.
  apply (freach_step _ _ r2 [1]); [|apply (step_call _ _ 1 CPipe 0); [left|exact I|ran]].
  apply (freach_step _ _ r1 [1]); [apply r1_reach|].
  apply (step_call _ _ 1 (COpen AT_FDCWD 97 O_RDWR 0) 3); [left|exact I|ran].
Qed.
Lemma r5_reach : freach r0 [] r5 [2; 1].
Proof.
  apply (freach_step _ _ r4 [2; 1]); [|apply (step_call _ _ 2 (CClose 3) 0); [left|exact I|ran]].
  apply (freach_step _ _ r3 [1]); [apply r3_reach|].
  apply (step_fork _ _ 1 2 tt); [left|rewrite elem_of_cons, elem_of_nil; lia|cbn; lia|ran].
Qed.
Lemma r5_inv : ginv [2; 1] none 0 r5.
Proof. exact (reach_finv _ _ _ _ (boot_finv []) r5_reach). Qed.

Definition r6 : fdst := after (openat 2 AT_FDCWD 98 O_RDWR 0) r5.
Definition r7 : fdst := after (openat 2 AT_FDCWD 120 O_RDWR 0) r5.
Lemma openat_spec_witness : slot_of r6 2 3 = Some 6 /\ openat 2 AT_FDCWD 120 O_RDWR 0 r5 = Ok (-2, r7) /\ same_tables r5 r7.
Proof.
  assert (E : openat 2 AT_FDCWD 120 O_RDWR 0 r5 = Ok (-2, r7)) by ran.
  split; [evals|]. split; [exact E|]. exact (openat_spec [2; 1] r5 2 AT_FDCWD 120 O_RDWR 0 (-2) r7 r5_inv ltac:(left) E).
Defined.
Lemma closeFd_spec_witness : refs r5 [2; 1] 3 = 1 /\ exists s', closeFd 1 3 r5 = Ok (0, s') /\ s'.(world) = [97] /\ bit_taken s'.(fdBitMap) 3 = false.
Proof.
  split; [evals|]. destruct (closeFd_spec [2; 1] r5 1 3 3 [97] r5_inv) as (s' & E & _ & _ & _ & H).
  - right. left.
  - apply (kern_fd_run [2; 1] none 0); [apply r5_inv|right; left|vm_compute; split; congruence|evals|unfold entry, FDNUM; lia].
  - evals.
  - exists s'. replace (refs r5 [2; 1] 3 =? 1) with true in H by (symmetry; evals). destruct H as (_ & H1 & H2). split; [exact E|]. split; [exact H2|exact H1].
Defined.
(** After the failed [dup3] of process 1, process 2 opens another file and
    finds it under descriptor 3, and so does process 1. *)
Definition r8 : fdst := after (dup3 1 9 3) r5.
Definition r9 : fdst := after (openat 2 AT_FDCWD 98 O_RDWR 0) r8.
Lemma dup3_bad_old_dangles_witness :
  (exists s', dup3 1 9 3 r5 = Ok (- EBADF, s') /\ slot_of s' 1 3 = Some 3 /\ bit_taken s'.(fdBitMap) 3 = false /\ s'.(fds) 3 = zeroFd) /\
  slot_of r9 1 3 = Some 3 /\ slot_of r9 2 3 = Some 3 /\ (r9.(fds) 3).(dirent) = 98 /\ (r9.(fds) 3).(refcnt) = 1.
Proof.
  split; [|repeat split; evals]. apply (dup3_bad_old_dangles [2; 1] r5 1 9 3 3 [97]).
  - apply r5_inv.
  - right. left.
  - apply (kern_fd_run [2; 1] none 0); [apply r5_inv|right; left|vm_compute; split; congruence|evals|unfold entry, FDNUM; lia].
  - vm_compute. split; congruence.
  - evals.
  - evals.
  - evals.
Defined.
Lemma fork_during_open_panics_witness : exists s1, alloc_ufd 1 r5 = Ok (6, s1) /\ fork_thread_fs 1 3 (alloc_fs 3 s1) = Err Panic.
Proof.
  exists (after (alloc_ufd 1) r5). assert (E : alloc_ufd 1 r5 = Ok (6, after (alloc_ufd 1) r5)) by ran. split; [exact E|].
  apply (fork_during_open_panics [2; 1] r5 1 3 6); [apply r5_inv|right; left|rewrite !elem_of_cons, elem_of_nil; lia|exact E|lia].
Defined.
