(* ===== verification/FdFile.v ===== *)
(** * Descriptors on FAT32 files

    [fd_file_read] and [fd_file_write] of [src/kern/fs/fd/file.c], the device of
    the descriptor table ([FdTable]) that lies on the files of [FatFile], and
    what the system calls on such descriptors do to the file and to the user's
    memory. *)

From S2P Require Import Prelude Bytes BufCache Cluster FatFile FdTable.
From Stdlib Require Import ZArith Lia Bool.
From stdpp Require Import base tactics numbers list.
Open Scope Z_scope.

Section FileDevice.
Context {S : Type} {SS : SectorStore S} (fs : FileSystem) (fuel : nat).

(** The result of [dev_read] is an [int] stored in a [u64], so the test for a
    negative value never holds; it is added to the offset and returned. *)
Definition fd_file_result (off r : Z) : Z * Z := let n := wrap64 r in (sext32 n, wrap32 (off + n)).
Definition fd_file_read (x : Fd) (buf n off : Z) : M (FatFile.world S) (Z * Z) :=
  let* r := file_read fs x.(dirent) true buf (wrap32 off) (wrap32 n) in ret (fd_file_result off r).
Definition fd_file_write (x : Fd) (buf n off : Z) : M (FatFile.world S) (Z * Z) :=
  let* r := file_write fs fuel x.(dirent) true buf (wrap32 off) (wrap32 n) in ret (fd_file_result off r).

(** A [struct iovec] of the user's memory: base and length, eight bytes each. *)
Definition iovec_at (m : Z -> Z) (a : Z) : Z * Z := (mem_u64 m a, mem_u64 m (a + 8)).

(** The world of files has the file device only. *)
#[export] Instance file_rw : FdRw (FatFile.world S) := {|
  dev_read d x buf n off := if d =? fd_dev_file then fd_file_read x buf n off else fail BadPtr;
  dev_write d x buf n off := if d =? fd_dev_file then fd_file_write x buf n off else fail BadPtr;
  copy_in_iov a := gets (fun w => iovec_at (wmem true w) a)
|}.
#[export] Instance file_stat : FileStat (FatFile.world S) := {| stat_size f := gets (fun w => FatFile.file_size (w.(dents) f)) |}.
End FileDevice.

Section Calls.
Context {S : Type} {SS : SectorStore S} {SL : SectorStoreLaws S}.
Context (fs : FileSystem) (fuel : nat).
Existing Instance file_rw.
#[local] Instance rw0 : FdRw (FatFile.world S) := file_rw fs fuel.
Abbreviation st := (fdst (W := FatFile.world S)).

(** Descriptor [fd] of [p] names entry [k], an open file [f] with clusters [l],
    at offset [o]. *)
Record on_file (s : st) (p fd k f : Z) (l : list Z) (o : Z) : Prop := {
  of_kern : kern_fd p fd s = Ok (Some k, s);
  of_dirent : (s.(fds) k).(dirent) = f;
  of_dev : (s.(fds) k).(fd_dev) = fd_dev_file;
  of_off : (s.(fds) k).(offset) = o;
  of_pos : 0 <= o;
  of_inv : winv s.(world);
  of_file : file_ok fs (wdisk s.(world)) (s.(world).(dents) f) l
}.
Definition size_of (s : st) (f : Z) : Z := FatFile.file_size (s.(world).(dents) f).
(** The state after a call that moved the offset of [k] to [o] and the world to [w]. *)
Definition moved (s : st) (k o : Z) (w : FatFile.world S) : st := set_fds (upd s.(fds) k (with_offset o (s.(fds) k))) (set_world w s).

Lemma file_result off r : 0 <= off -> 0 <= r < 2147483648 -> off + r < 4294967296 -> fd_file_result off r = (r, off + r).
Proof. intros. unfold fd_file_result. rewrite wrap64_small, sext32_small, wrap32_small by lia. reflexivity. Qed.
Lemma read_len_range size off n : 0 <= size -> 0 <= off -> 0 <= n -> 0 <= read_len size off n <= n /\ read_len size off n <= size.
Proof. intros. unfold read_len. destruct (Z.leb_spec size off); lia. Qed.

Lemma fd_read_run s p fd k f l o off n buf : fs_ok fs -> on_file s p fd k f l o -> 0 <= off -> 0 <= n -> off + n < 4294967296 ->
  let m := read_len (size_of s f) off n in
  exists w, fd_read k buf n off s = Ok (m, moved s k (off + m) w) /\
    wmem_step true s.(world) w (dset (wmem true s.(world)) buf m (fun i => fbyte fs (wdisk s.(world)) l (off + i))).
Proof.
  intros Hfs H Ho Hn Hov m. pose proof (fo_size _ _ _ _ (of_file _ _ _ _ _ _ _ H)) as [Hsz _]. pose proof (fo_max _ _ _ _ (of_file _ _ _ _ _ _ _ H)) as [Hmx _].
  destruct (file_read_ok fs Hfs f l off n true buf s.(world) (of_inv _ _ _ _ _ _ _ H) (of_file _ _ _ _ _ _ _ H) Ho Hn Hov) as (w & E & Hw).
  exists w. split; [|exact Hw]. pose proof (read_len_range (size_of s f) off n ltac:(unfold size_of; lia) Ho Hn) as [R1 R2]. fold m in R1, R2.
  unfold fd_read, bind at 1, gets at 1, dev_call. rewrite (of_dev _ _ _ _ _ _ _ H). cbn [Z.eqb fd_dev_file Pos.eqb].
  unfold bind at 1, on_world. cbn [dev_read file_rw]. unfold rw0, file_rw, dev_read, fd_file_read. rewrite Z.eqb_refl, (of_dirent _ _ _ _ _ _ _ H), !wrap32_small by lia.
  unfold bind at 1. rewrite E. unfold ret. rewrite file_result by (unfold size_of in *; fold m; lia). reflexivity.
Qed.

Lemma kern_fd_moved s k o w p fd r : kern_fd p fd s = Ok (r, s) -> kern_fd p fd (moved s k o w) = Ok (r, moved s k o w).
Proof.
  unfold kern_fd, bind, gets, ret, fd_slot. cbn [p_fs moved set_fds set_world]. destruct (_ || _); [now intros [= <-]|].
  unfold bind, gets. cbn [p_fs moved set_fds set_world]. destruct (if fd <? 0 then None else _); [|discriminate].
  unfold ret. destruct (_ || _); now intros [= <-].
Qed.
Lemma moved_fd s k o w : (moved s k o w).(fds) k = with_offset o (s.(fds) k).
Proof. apply upd_eq. Qed.
Lemma on_file_moved s p fd k f l o o' w : on_file s p fd k f l o -> 0 <= o' -> winv w -> w.(dents) = s.(world).(dents) ->
  file_ok fs (wdisk w) (s.(world).(dents) f) l -> on_file (moved s k o' w) p fd k f l o'.
Proof.
  intros H Ho Hw Hd Hf. constructor; rewrite ?moved_fd; try apply H; try easy.
  - apply kern_fd_moved, H.
  - cbn. now rewrite Hd.
Qed.
(** Another descriptor of the same entry. *)
Lemma on_file_dup s p fd fd2 k f l o : on_file s p fd k f l o -> kern_fd p fd2 s = Ok (Some k, s) -> on_file s p fd2 k f l o.
Proof. intros H H2. constructor; try apply H. exact H2. Qed.
Lemma read_keeps s p fd k f l o o' w m : fs_ok fs -> on_file s p fd k f l o -> 0 <= o' -> wmem_step true s.(world) w m ->
  on_file (moved s k o' w) p fd k f l o' /\ forall x, 0 <= x < size_of s f -> fbyte fs (wdisk w) l x = fbyte fs (wdisk s.(world)) l x.
Proof.
  intros Hfs H Ho [Hm Hd _]. pose proof (of_file _ _ _ _ _ _ _ H) as Hf. pose proof (fo_size _ _ _ _ Hf) as [Hsz _]. split.
  - apply (on_file_moved _ _ _ _ _ _ o); try easy; [apply Hm|]. apply (file_ok_ext fs (wdisk (world s))); [easy| |exact Hf].
    intros q Hq. symmetry. now apply Hm.
  - intros x Hx. apply (fbyte_ext fs Hfs _ _ (dents (world s) f)); [exact Hf| |unfold size_of in Hx; lia]. intros q Hq. now apply Hm.
Qed.
Lemma moved_moved s k o w o' w' : (forall j, (moved (moved s k o w) k o' w').(fds) j = (moved s k o' w').(fds) j).
Proof. intros j. cbn. unfold upd. rewrite Z.eqb_refl. now destruct (j =? k). Qed.

Lemma fd_read_file_run s p fd k f l o n buf : fs_ok fs -> on_file s p fd k f l o -> unreadable (s.(fds) k) = false -> 0 <= n -> o + n < 4294967296 ->
  let m := read_len (size_of s f) o n in
  exists w, read p fd buf n s = Ok (m, moved s k (o + m) w) /\
    wmem_step true s.(world) w (dset (wmem true s.(world)) buf m (fun i => fbyte fs (wdisk s.(world)) l (o + i))).
Proof.
  intros Hfs H Hu Hn Hov m. destruct (fd_read_run s p fd k f l o o n buf Hfs H (of_pos _ _ _ _ _ _ _ H) Hn Hov) as (w & E & Hw). exists w. split; [|exact Hw].
  unfold read, with_kfd. rewrite (bind_run _ _ _ _ _ (of_kern _ _ _ _ _ _ _ H)). unfold bind at 1, gets at 1. rewrite Hu. unfold bind at 1, gets at 1.
  rewrite (of_off _ _ _ _ _ _ _ H). exact E.
Qed.

(** Two reads in a row return what one read of both lengths returns: the
    bytes of the file from the offset on, as far as the file goes, end to end in
    the user's memory; the offset moves by as much, and nothing else changes. *)
Theorem reads_concatenate s p fd k f l o n1 n2 buf : fs_ok fs -> on_file s p fd k f l o -> unreadable (s.(fds) k) = false ->
  0 <= n1 -> 0 <= n2 -> o + n1 + n2 < 4294967296 ->
  let m := read_len (size_of s f) o (n1 + n2) in
  exists a b s1 s2, read p fd buf n1 s = Ok (a, s1) /\ read p fd (buf + n1) n2 s1 = Ok (b, s2) /\ a + b = m /\
    (forall x, wmem true s2.(world) x = dset (wmem true s.(world)) buf m (fun i => fbyte fs (wdisk s.(world)) l (o + i)) x) /\
    on_file s2 p fd k f l (o + m) /\ (forall q, 0 <= q -> wdisk s2.(world) q = wdisk s.(world) q) /\ (forall j, j <> k -> s2.(fds) j = s.(fds) j).
Proof.
  intros Hfs H Hu Hn1 Hn2 Hov m. pose proof (of_pos _ _ _ _ _ _ _ H) as Ho. pose proof (fo_size _ _ _ _ (of_file _ _ _ _ _ _ _ H)) as [Hsz _].
  destruct (fd_read_file_run s p fd k f l o n1 buf Hfs H Hu Hn1 ltac:(lia)) as (w1 & E1 & W1). set (a := read_len (size_of s f) o n1) in *.
  pose proof (read_len_range (size_of s f) o n1 ltac:(unfold size_of; lia) Ho Hn1) as [Ra _]. fold a in Ra.
  destruct (read_keeps s p fd k f l o (o + a) w1 _ Hfs H ltac:(lia) W1) as [H1 B1].
  assert (Hu1 : unreadable ((moved s k (o + a) w1).(fds) k) = false) by now rewrite moved_fd.
  destruct (fd_read_file_run _ p fd k f l (o + a) n2 (buf + n1) Hfs H1 Hu1 Hn2 ltac:(lia)) as (w2 & E2 & W2).
  assert (Es : size_of (moved s k (o + a) w1) f = size_of s f) by (unfold size_of; cbn; now rewrite (wm_dents _ _ _ _ W1)). rewrite Es in E2, W2.
  set (b := read_len (size_of s f) (o + a) n2) in *.
  assert (Hab : a + b = m) by (unfold a, b, m, read_len in *; fold a; repeat match goal with |- context [?u <=? ?v] => destruct (Z.leb_spec u v) end; lia).
  pose proof (read_len_range (size_of s f) (o + a) n2 ltac:(unfold size_of; lia) ltac:(lia) Hn2) as [Rb _]. fold b in Rb.
  destruct (read_keeps _ p fd k f l (o + a) (o + a + b) w2 _ Hfs H1 ltac:(lia) W2) as [H2 _].
  exists a, b, (moved s k (o + a) w1), (moved (moved s k (o + a) w1) k (o + a + b) w2). split; [exact E1|]. split; [exact E2|]. split; [exact Hab|].
  split; [|split; [rewrite <- Hab, Z.add_assoc; exact H2|split]].
  - intros x. cbn [world moved set_fds set_world]. unfold wmem at 1. rewrite (ms_mem _ _ _ _ (wm_step _ _ _ _ W2)).
    rewrite (dset_base _ (dset (wmem true (world s)) buf a (fun i => fbyte fs (wdisk (world s)) l (o + i)))) by apply (ms_mem _ _ _ _ (wm_step _ _ _ _ W1)).
    apply dset_app; [lia|lia| |easy|].
    + intros Hlt. f_equal. unfold a, m, read_len in *. destruct (Z.leb_spec (size_of s f) o); lia.
    + intros i Hi. cbn [world moved set_fds set_world]. rewrite B1; [f_equal; lia|]. unfold m, read_len in *. destruct (Z.leb_spec (size_of s f) o); lia.
  - intros q Hq. cbn [world moved set_fds set_world]. unfold wdisk. rewrite (ms_disk _ _ _ _ (wm_step _ _ _ _ W2)) by easy. now apply (ms_disk _ _ _ _ (wm_step _ _ _ _ W1)).
  - intros j Hj. rewrite moved_moved. cbn. now apply upd_ne.
Qed.

Lemma fd_write_file_run s p fd k f l o n src : fs_ok fs -> (0 < fuel)%nat -> on_file s p fd k f l o -> unwritable (s.(fds) k) = false -> 0 < n -> o + n <= size_of s f ->
  exists w, write p fd src n s = Ok (n, moved s k (o + n) w) /\ wdisk_step s.(world) w /\
    fwrite fs l o n (fun i => wmem true s.(world) (src + i)) (wdisk s.(world)) (wdisk w) /\ on_file (moved s k (o + n) w) p fd k f l (o + n).
Proof.
  intros Hfs Hfu H Hu Hn Hle. pose proof (of_pos _ _ _ _ _ _ _ H) as Ho. pose proof (of_file _ _ _ _ _ _ _ H) as Hf. pose proof (fo_max _ _ _ _ Hf) as [Hmx _].
  unfold size_of in Hle.
  destruct (file_write_inplace fs Hfs fuel f l o n true src s.(world) Hfu (of_inv _ _ _ _ _ _ _ H) Hf Ho Hn Hle) as (w & E & W & F).
  exists w. split; [|split; [exact W|split; [exact F|]]].
  - unfold write, with_kfd. rewrite (bind_run _ _ _ _ _ (of_kern _ _ _ _ _ _ _ H)). unfold bind at 1, gets at 1. rewrite Hu. unfold bind at 1, gets at 1.
    rewrite (of_off _ _ _ _ _ _ _ H). unfold fd_write, bind at 1, gets at 1, dev_call. rewrite (of_dev _ _ _ _ _ _ _ H). cbn [Z.eqb fd_dev_file Pos.eqb].
    unfold bind at 1, on_world, rw0, file_rw, dev_write, fd_file_write. rewrite Z.eqb_refl, (of_dirent _ _ _ _ _ _ _ H), !wrap32_small by lia.
    unfold bind at 1. rewrite E. unfold ret. rewrite file_result by lia. reflexivity.
  - apply (on_file_moved _ _ _ _ _ _ o); [exact H|lia|apply W|apply W|]. eapply file_ok_meta; [exact Hfs|apply F|exact Hf].
Qed.
Lemma lseek_set_run s p fd k off : kern_fd p fd s = Ok (Some k, s) -> 0 <= off -> lseekFd p fd off SEEK_SET s = Ok (off, moved s k (wrap32 off) s.(world)).
Proof.
  intros Hk Ho. unfold lseekFd, with_kfd. rewrite (bind_run _ _ _ _ _ Hk). unfold bind at 1, gets at 1. unfold bind at 1, gets at 1. unfold bind at 1. cbn [seek_target].
  unfold seek_target. cbn [Z.eqb SEEK_SET orb]. unfold ret at 1. cbn [Z.ltb Z.compare]. rewrite (proj2 (Z.ltb_ge off 0)) by easy. destruct s; reflexivity.
Qed.


(** ** Scattered reads *)

(** The buffers [iovs] filled one after the other with the bytes [g pos, ...],
    of which there are [left]. *)
Fixpoint scatter (m g : Z -> Z) (iovs : list (Z * Z)) (pos left : Z) : Z -> Z :=
  match iovs with
  | [] => m
  | (b, n) :: r => let k := Z.min n left in scatter (dset m b k (fun i => g (pos + i))) g r (pos + k) (left - k)
  end.
Fixpoint sum_len (iovs : list (Z * Z)) : Z := match iovs with [] => 0 | (_, n) :: r => n + sum_len r end.
(** The array at [a] holds [iovs], in the memory [m], and no buffer overlaps it. *)
Fixpoint iov_array (m : Z -> Z) (a : Z) (iovs : list (Z * Z)) : Prop :=
  match iovs with [] => True | v :: r => iovec_at m a = v /\ iov_array m (a + 16) r end.
Definition iov_apart (a : Z) (cnt : nat) (v : Z * Z) : Prop := 0 <= snd v /\ (fst v + snd v <= a \/ a + 16 * Z.of_nat cnt <= fst v).

Lemma iovec_ext m m' a : (forall x, a <= x < a + 16 -> m x = m' x) -> iovec_at m a = iovec_at m' a.
Proof.
  intros H. unfold iovec_at, mem_u64. f_equal; f_equal; apply mem_read_ext; intros i Hi; apply H; lia.
Qed.
Lemma iov_array_ext m m' iovs : forall a, (forall x, a <= x < a + 16 * Z.of_nat (length iovs) -> m x = m' x) -> iov_array m a iovs -> iov_array m' a iovs.
Proof.
  induction iovs as [|v r IH]; intros a H; [easy|]. cbn [iov_array length] in *. intros [H1 H2]. split.
  - rewrite <- H1. symmetry. apply iovec_ext. intros x Hx. apply H. lia.
  - apply IH; [|exact H2]. intros x Hx. apply H. lia.
Qed.
Lemma scatter_ext iovs : forall m m' g pos left x, (forall x, m x = m' x) -> scatter m g iovs pos left x = scatter m' g iovs pos left x.
Proof.
  induction iovs as [|[b n] r IH]; intros m m' g pos left x H; [apply H|]. cbn [scatter]. apply IH. intros y. now apply dset_base.
Qed.
Lemma scatter_none iovs : forall m g pos x, Forall (fun v => 0 <= snd v) iovs -> scatter m g iovs pos 0 x = m x.
Proof.
  induction iovs as [|[b n] r IH]; intros m g pos x H; [easy|]. apply Forall_cons in H as [Hn H]. cbn [scatter snd] in *. rewrite Z.min_r by lia.
  rewrite Z.sub_0_r, IH by easy. now apply dset_none.
Qed.
Lemma sum_nonneg iovs : Forall (fun v => 0 <= snd v) iovs -> 0 <= sum_len iovs.
Proof. induction 1 as [|[b n] r Hn _ IH]; cbn in *; lia. Qed.

Lemma scatter_file iovs : forall m g g' pos left x, 0 <= left -> Forall (fun v => 0 <= snd v) iovs -> (forall i, pos <= i < pos + left -> g i = g' i) ->
  scatter m g iovs pos left x = scatter m g' iovs pos left x.
Proof.
  induction iovs as [|[b n] r IH]; intros m g g' pos left x Hl H Hg; [easy|]. apply Forall_cons in H as [Hn H]. cbn [scatter snd] in *.
  rewrite (IH _ g g') by (easy || lia || (intros i Hi; apply Hg; lia)). apply scatter_ext. intros y. unfold dset.
  destruct ((b <=? y) && (y <? b + Z.min n left)) eqn:E; [|easy]. zbool. apply Hg. lia.
Qed.

Lemma readv_loop_run p fd k f l iovs : fs_ok fs -> forall a total s o, on_file s p fd k f l o -> iov_array (wmem true s.(world)) a iovs ->
  Forall (iov_apart a (length iovs)) iovs -> o + sum_len iovs < 4294967296 -> 0 <= total ->
  let left := Z.max 0 (size_of s f - o) in total + left < 2147483648 ->
  let got := Z.min (sum_len iovs) left in
  exists s', readv_loop (length iovs) k a total s = Ok (total + got, s') /\ on_file s' p fd k f l (o + got) /\
    (forall x, wmem true s'.(world) x = scatter (wmem true s.(world)) (fun i => fbyte fs (wdisk s.(world)) l i) iovs o left x).
Proof.
  intros Hfs. induction iovs as [|[b n] r IH]; intros a total s o H Ha Hp Hs Ht left Hl got.
  { exists s. unfold got. cbn. rewrite Z.min_l, !Z.add_0_r by lia. easy. }
  pose proof (of_pos _ _ _ _ _ _ _ H) as Ho. destruct Ha as [Ha Har]. apply Forall_cons in Hp as [[Hn Hb] Hp]. cbn [fst snd sum_len length] in *.
  assert (Hnn : Forall (fun v : Z * Z => 0 <= snd v) r) by (eapply Forall_impl; [exact Hp|]; now intros v [Hv _]).
  pose proof (sum_nonneg r Hnn) as Hsr. destruct (fd_read_run s p fd k f l o o n b Hfs H Ho Hn ltac:(lia)) as (w & E & Hw).
  set (m := read_len (size_of s f) o n) in *. assert (Em : m = Z.min n left) by (unfold m, left, read_len; destruct (Z.leb_spec (size_of s f) o); lia).
  destruct (read_keeps s p fd k f l o (o + m) w _ Hfs H ltac:(lia) Hw) as [H1 B1]. set (s1 := moved s k (o + m) w) in *.
  assert (Hm1 : forall x, wmem true (world s1) x = dset (wmem true (world s)) b m (fun i => fbyte fs (wdisk (world s)) l (o + i)) x) by apply (ms_mem _ _ _ _ (wm_step _ _ _ _ Hw)).
  cbn [readv_loop]. unfold bind at 1, on_world at 1. cbn [copy_in_iov]. unfold rw0 at 1, file_rw at 1. cbn [copy_in_iov]. unfold gets at 1. rewrite Ha.
  replace (set_world (world s) s) with s by now destruct s. unfold bind at 1, gets at 1. rewrite (of_off _ _ _ _ _ _ _ H).
  rewrite (bind_run _ _ _ _ _ E). rewrite (proj2 (Z.ltb_ge m 0)), sext32_small by lia. destruct (Z.ltb_spec m n) as [Hlt|Hge].
  - assert (Eg : got = m) by (unfold got; lia). rewrite Eg. exists s1. split; [reflexivity|]. split; [exact H1|]. intros x. cbn [scatter].
    rewrite Hm1, <- Em. replace (left - m) with 0 by lia. now rewrite scatter_none.
  - assert (Es : size_of s1 f = size_of s f) by (unfold size_of, s1; cbn; now rewrite (wm_dents _ _ _ _ Hw)).
    destruct (IH (a + 16) (total + m) s1 (o + m) H1) as (s' & E' & H' & M').
    + eapply iov_array_ext; [|exact Har]. intros x Hx. rewrite Hm1, dset_out by lia. reflexivity.
    + eapply Forall_impl; [exact Hp|]. intros v [Hv1 Hv2]. split; [easy|lia].
    + lia.
    + lia.
    + rewrite Es. lia.
    + rewrite Es in E', H', M'. replace (Z.max 0 (size_of s f - (o + m))) with (left - m) in E', H', M' by lia.
      exists s'. replace (total + got) with (total + m + Z.min (sum_len r) (left - m)) by (unfold got; lia).
      replace (o + got) with (o + m + Z.min (sum_len r) (left - m)) by (unfold got; lia). split; [exact E'|]. split; [exact H'|].
      intros x. rewrite M'. cbn [scatter]. rewrite <- Em. rewrite (scatter_ext _ _ _ _ _ _ _ Hm1). apply scatter_file; [lia|easy|]. intros i Hi. apply B1. lia.
Qed.

(** [readv] is one read scattered over the buffers: it returns the bytes
    from the offset on, as many as the buffers hold or the file has, one buffer
    after the other, and moves the offset by as much. *)
Theorem readv_scatters s p fd k f l o a iovs : fs_ok fs -> on_file s p fd k f l o -> unreadable (s.(fds) k) = false ->
  iov_array (wmem true s.(world)) a iovs -> Forall (iov_apart a (length iovs)) iovs -> o + sum_len iovs < 4294967296 ->
  let left := Z.max 0 (size_of s f - o) in let got := Z.min (sum_len iovs) left in
  exists s', readv p fd a (Z.of_nat (length iovs)) s = Ok (got, s') /\ on_file s' p fd k f l (o + got) /\
    (forall x, wmem true s'.(world) x = scatter (wmem true s.(world)) (fun i => fbyte fs (wdisk s.(world)) l i) iovs o left x).
Proof.
  intros Hfs H Hu Ha Hp Hs left got. pose proof (of_pos _ _ _ _ _ _ _ H) as Ho. pose proof (fo_max _ _ _ _ (of_file _ _ _ _ _ _ _ H)) as [Hmx _].
  destruct (readv_loop_run p fd k f l iovs Hfs a 0 s o H Ha Hp Hs ltac:(lia)) as (s' & E & H' & M'); [unfold size_of; lia|].
  exists s'. split; [|split; [exact H'|exact M']]. unfold readv, with_kfd. rewrite (bind_run _ _ _ _ _ (of_kern _ _ _ _ _ _ _ H)).
  unfold bind at 1, gets at 1. rewrite Hu, Nat2Z.id. exact E.
Qed.
End Calls.

(** ** Runs *)

(** The file of 700 bytes, open at offset 100 under the descriptors 3 and 4 of
    process 1; the user's memory holds an array of two buffers at 64. *)
Definition run_umem (a : Z) : Z := nth (Z.to_nat (a - 64)) (concat (map (le_bytes 8) [1000; 300; 5000; 900])) 0.
Definition run_world : FatFile.world bcache := MkWorld (MkFst vol.(wfs).(store) 0 vol.(wfs).(kmem) run_umem 100) vol_dents 0.
Definition run_fd : fdst (W := FatFile.world bcache) :=
  MkFdst (fun _ => 1) (upd (fun _ => zeroFd) 0 (MkFdesc 2 0 dev_file 100 O_RDWR 0 fd_dev_file 2 0))
    (fun _ => MkTfs ([-1; -1; -1; 0; 0] ++ replicate 251 (-1)) [47] 0 0 256 256) (-1) (-1) (-1) run_world.
Lemma run_on_file fd : fd = 3 \/ fd = 4 -> on_file vol_fs run_fd 1 fd 0 2 [2; 3] 100.
Proof.
  intros [-> | ->]; constructor; try reflexivity; try lia; try exact vol_inv; exact vol_small_ok.
Qed.
Lemma reads_concatenate_witness : exists a b s1 s2, read (FdRw0 := rw0 vol_fs 1) 1 3 1000 300 run_fd = Ok (a, s1) /\
  read (FdRw0 := rw0 vol_fs 1) 1 3 1300 400 s1 = Ok (b, s2) /\ a + b = 600.
Proof.
  destruct (reads_concatenate vol_fs 1 run_fd 1 3 0 2 [2; 3] 100 300 400 1000 vol_fs_ok (run_on_file 3 (or_introl eq_refl))) as (a & b & s1 & s2 & E1 & E2 & E3 & _);
    [reflexivity|lia|lia|lia|]. exists a, b, s1, s2. auto.
Defined.
Lemma readv_scatters_witness : exists s', readv (FdRw0 := rw0 vol_fs 1) 1 3 64 2 run_fd = Ok (600, s') /\ wmem true s'.(world) 5100 = 3 /\ wmem true s'.(world) 5299 = 4.
Proof.
  destruct (readv_scatters vol_fs 1 run_fd 1 3 0 2 [2; 3] 100 64 [(1000, 300); (5000, 900)] vol_fs_ok (run_on_file 3 (or_introl eq_refl))) as (s' & E & _ & M).
  - reflexivity.
  - cbn [iov_array]. split; [vm_compute; reflexivity|]. split; [vm_compute; reflexivity|exact Logic.I].
  - repeat constructor; cbn; lia.
  - cbn. lia.
  - exists s'. split; [exact E|]. rewrite !M. split; vm_compute; reflexivity.
Defined.
(** [lseekFd] returns a 64-bit offset, of which the entry keeps 32 bits. *)
Lemma lseek_returns_lost_bits : lseekFd 1 3 4294967301 SEEK_SET run_fd = Ok (4294967301, moved run_fd 0 5 run_world).
Proof. exact (lseek_set_run run_fd 1 3 0 4294967301 eq_refl ltac:(lia)). Qed.
