(* ===== verification/Signal.v ===== *)
(** * Signals

    [src/kern/signal/sigevent.c], [sigqueue.c], [sigsend.c], [siginfo.c],
    [sigentry.c], [sigwait.c], [src/include/signal/sigset.h] and the calls
    [sys_sigaction], [sys_sigreturn], [sys_sigprocmask], [sys_sigsuspend],
    [sys_tkill] and [sys_kill] of
    [src/kern/syscall/sys_signal.c].  A pending signal is an event of a pool; it
    is queued at its thread, and on the way back to user space [sig_check] picks
    one and makes the thread run the handler on the saved context, to which
    [sig_return] goes back.

    Events are numbered from 1, [0] is [NULL]; the actions of all processes are
    one array of bytes, as in the code, so that a copy that is too long reaches
    the next one.  Each definition is what its function does while it holds the
    thread's lock.  What is copied to user space is a log; the bytes a call
    reads from there are an argument; the sizes of [siginfo_t] and [ucontext_t]
    are parameters. *)

From S2P Require Import Prelude Bytes Sched.
From Stdlib Require Import ZArith Lia Bool.
From stdpp Require Import base tactics numbers list.
Open Scope Z_scope.

(** ** Signal sets *)

Definition SIGNAL_MAX : Z := 128.
(** Sixteen bytes; signal [signo] is bit [signo - 1]. *)
Definition sigset_t : Type := list Z.
Definition sigset_init : sigset_t := replicate 16 0.
Definition sig_ok (signo : Z) : bool := (0 <=? signo - 1) && (signo - 1 <? SIGNAL_MAX).
Definition sigset_bit (set : sigset_t) (n : Z) : bool := negb (Z.land (byte_at set (n / 8)) (Z.shiftl 1 (n mod 8)) =? 0).
Definition sigset_set {S} (set : sigset_t) (signo : Z) : M S sigset_t :=
  let n := signo - 1 in
  massert (sig_ok signo) ;;;
  ret (<[Z.to_nat (n / 8) := wrap8 (Z.lor (byte_at set (n / 8)) (Z.shiftl 1 (n mod 8)))]> set).
Definition sigset_clear {S} (set : sigset_t) (signo : Z) : M S sigset_t :=
  let n := signo - 1 in
  massert (sig_ok signo) ;;;
  ret (<[Z.to_nat (n / 8) := wrap8 (Z.land (byte_at set (n / 8)) (Z.lnot (Z.shiftl 1 (n mod 8))))]> set).
Definition sigset_isset {S} (set : sigset_t) (signo : Z) : M S bool :=
  massert (sig_ok signo) ;;; ret (sigset_bit set (signo - 1)).
Definition sigset_or (set1 set2 : sigset_t) : sigset_t := zip_with Z.lor set1 set2.
(** The first [size] bytes only. *)
Definition sigset_block (dst src : sigset_t) (size : Z) : sigset_t :=
  let limit := Z.to_nat (Z.min 16 size) in zip_with Z.lor (take limit dst) (take limit src) ++ drop limit dst.
Definition sigset_unblock (dst src : sigset_t) (size : Z) : sigset_t :=
  let limit := Z.to_nat (Z.min 16 size) in zip_with (fun a b => wrap8 (Z.land a (Z.lnot b))) (take limit dst) (take limit src) ++ drop limit dst.

(** ** Data *)

Record trapframe_t : Type := MkTf { epc : Z; ra : Z; sp : Z; a0 : Z; a1 : Z; a2 : Z; other_regs : Z -> Z }.
Record sigevent_t : Type := MkSe {
  se_restoretf : trapframe_t;
  se_restoremask : sigset_t;
  se_signo : Z;
  se_status : Z;
  se_usiginfo : Z;
  se_uuctx : Z
}.
Definition zero_tf : trapframe_t := MkTf 0 0 0 0 0 0 (fun _ => 0).
Definition zero_se : sigevent_t := MkSe zero_tf sigset_init 0 0 0 0.
Record sthread : Type := MkThr {
  td_tid : Z;
  td_proc : Z;
  td_sigqueue : list Z;
  td_sigmask : sigset_t;
  td_cursigmask : sigset_t;
  td_killed : bool;
  td_sig : Z;
  td_trapframe : trapframe_t
}.
Record proc_t : Type := MkPr { p_pid : Z; p_status : state_t; p_threads : list Z }.
(** What is copied to user space: a [siginfo_t] with its signal, a [ucontext_t]
    with its mask and program counter, the bytes of an old action or mask. *)
Inductive uobj : Type := USiginfo (signo : Z) | UContext (mask : sigset_t) (pc : Z) | UBytes (l : list Z).
Record sgst : Type := MkSg {
  sigevents : Z -> sigevent_t;
  sigevent_freeq : list Z;
  sigactions : Z -> Z;
  threads : Z -> sthread;
  procs : Z -> proc_t;
  woken : list Z;
  copied_out : list (Z * uobj)
}.
Definition set_events f s := MkSg f s.(sigevent_freeq) s.(sigactions) s.(threads) s.(procs) s.(woken) s.(copied_out).
Definition set_freeq q s := MkSg s.(sigevents) q s.(sigactions) s.(threads) s.(procs) s.(woken) s.(copied_out).
Definition set_actions m s := MkSg s.(sigevents) s.(sigevent_freeq) m s.(threads) s.(procs) s.(woken) s.(copied_out).
Definition set_threads f s := MkSg s.(sigevents) s.(sigevent_freeq) s.(sigactions) f s.(procs) s.(woken) s.(copied_out).
Definition add_woken td s := MkSg s.(sigevents) s.(sigevent_freeq) s.(sigactions) s.(threads) s.(procs) (td :: s.(woken)) s.(copied_out).
Definition log_out a x s := MkSg s.(sigevents) s.(sigevent_freeq) s.(sigactions) s.(threads) s.(procs) s.(woken) ((a, x) :: s.(copied_out)).

Definition upd_se (e : Z) (f : sigevent_t -> sigevent_t) : M sgst unit := modify (fun s => set_events (upd s.(sigevents) e (f (s.(sigevents) e))) s).
Definition upd_td (td : Z) (f : sthread -> sthread) : M sgst unit := modify (fun s => set_threads (upd s.(threads) td (f (s.(threads) td))) s).
Definition with_queue q x := MkThr x.(td_tid) x.(td_proc) q x.(td_sigmask) x.(td_cursigmask) x.(td_killed) x.(td_sig) x.(td_trapframe).
Definition with_mask m x := MkThr x.(td_tid) x.(td_proc) x.(td_sigqueue) m x.(td_cursigmask) x.(td_killed) x.(td_sig) x.(td_trapframe).
Definition with_killed x := MkThr x.(td_tid) x.(td_proc) x.(td_sigqueue) x.(td_sigmask) x.(td_cursigmask) true x.(td_sig) x.(td_trapframe).
Definition with_context cm tf x := MkThr x.(td_tid) x.(td_proc) x.(td_sigqueue) x.(td_sigmask) cm x.(td_killed) x.(td_sig) tf.
Definition with_sig e x := MkThr x.(td_tid) x.(td_proc) x.(td_sigqueue) x.(td_sigmask) x.(td_cursigmask) x.(td_killed) e x.(td_trapframe).
Definition with_signo n x := MkSe x.(se_restoretf) x.(se_restoremask) n x.(se_status) x.(se_usiginfo) x.(se_uuctx).
Definition with_ustack i u x := MkSe x.(se_restoretf) x.(se_restoremask) x.(se_signo) x.(se_status) i u.

Definition NSIGEVENTS : Z := 512.
Definition SE_PROCESSING : Z := 1.
Definition SA_SIGINFO : Z := 4.
Definition SA_RESTORER : Z := 67108864.
Definition SIG_IGN : Z := 1.
Definition SIGKILL : Z := 9.
Definition SIGSEGV : Z := 11.
Definition SIGTERM : Z := 15.
Definition EINVAL : Z := 22.
Definition ESRCH : Z := 3.
(** [TRAMPOLINE - PAGE_SIZE], the highest page but one of the address space. *)
Definition user_sig_return_uaddr : Z := 274877898752.

(** ** Events *)

Fixpoint sig_init_loop (n : nat) (q : list Z) : list Z :=
  match n with O => q | S n' => sig_init_loop n' (Z.of_nat n :: q) end.
Definition sig_init (s : sgst) : sgst := set_actions (fun _ => 0) (set_freeq (sig_init_loop (Z.to_nat NSIGEVENTS) s.(sigevent_freeq)) s).

Definition sigevent_alloc (signo : Z) : M sgst Z :=
  let* q := gets sigevent_freeq in
  match q with
  | [] => fail Panic
  | se :: q' => modify (set_freeq q') ;;; upd_se se (with_signo signo) ;;; ret se
  end.
Definition sigevent_free (se : Z) : M sgst unit :=
  upd_se se (fun _ => zero_se) ;;; modify (fun s => set_freeq (se :: s.(sigevent_freeq)) s).
Definition sigeventq_insert (td se : Z) : M sgst unit := upd_td td (fun x => with_queue (se :: x.(td_sigqueue)) x).
Definition sigeventq_remove (td se : Z) : M sgst unit := upd_td td (fun x => with_queue (without se x.(td_sigqueue)) x).
(** [n] is the length of the queue. *)
Fixpoint sigevent_freetd_loop (n : nat) (td : Z) : M sgst unit :=
  match n with
  | O => ret tt
  | S n' =>
      let* x := gets (fun s => s.(threads) td) in
      match x.(td_sigqueue) with
      | [] => ret tt
      | se :: _ => sigeventq_remove td se ;;; sigevent_free se ;;; sigevent_freetd_loop n' td
      end
  end.
Definition sigevent_freetd (td : Z) : M sgst unit :=
  let* x := gets (fun s => s.(threads) td) in sigevent_freetd_loop (length x.(td_sigqueue)) td.

(** ** Actions *)

Definition SIZEOF_SIGACTION : Z := 40.
(** [&sigactions[p - procs][signo - 1]]; a process is its index in [procs]. *)
Definition action_addr (p signo : Z) : Z := SIZEOF_SIGACTION * (SIGNAL_MAX * p + (signo - 1)).
Definition sa_handler (m : Z -> Z) (a : Z) : Z := mem_u64 m a.
Definition sa_flags (m : Z -> Z) (a : Z) : Z := mem_u64 m (a + 8).
Definition sa_restorer (m : Z -> Z) (a : Z) : Z := mem_u64 m (a + 16).
Definition sa_mask (m : Z -> Z) (a : Z) : sigset_t := mem_read m (a + 24) 16.
Definition sigaction_get (p signo : Z) : M sgst Z :=
  massert ((0 <? signo) && (signo <=? SIGNAL_MAX)) ;;; ret (action_addr p signo).

(** [ubytes] are the bytes at [act] in user memory. *)
Definition sigaction_register (td signo act : Z) (ubytes : Z -> Z) (oldact sigset_size : Z) : M sgst Z :=
  massert ((0 <? signo) && (signo <=? SIGNAL_MAX)) ;;;
  let* x := gets (fun s => s.(threads) td) in
  let kact := action_addr x.(td_proc) signo in
  let ksa_size := wrap64 (SIZEOF_SIGACTION - 16 + sigset_size) in
  (if negb (oldact =? 0) then modify (fun s => log_out oldact (UBytes (mem_read s.(sigactions) kact ksa_size)) s) else ret tt) ;;;
  (if negb (act =? 0) then
     modify (fun s => set_actions (mem_write kact (replicate (Z.to_nat SIZEOF_SIGACTION) 0) s.(sigactions)) s) ;;;
     modify (fun s => set_actions (mem_write kact (mem_read ubytes 0 ksa_size) s.(sigactions)) s) ;;;
     let* m := gets sigactions in
     (if Z.land (sa_flags m kact) SA_RESTORER =? 0
      then modify (fun s => set_actions (mem_write (kact + 16) (replicate 8 0) s.(sigactions)) s) else ret tt) ;;;
     massert (negb ((1 <? sa_handler m kact) && (sa_handler m kact <? 16)))
   else ret tt) ;;;
  ret 0.
Definition sigaction_free (p : Z) : M sgst unit :=
  modify (fun s => set_actions (mem_write (action_addr p 1) (replicate (Z.to_nat (SIZEOF_SIGACTION * SIGNAL_MAX)) 0) s.(sigactions)) s).
Definition sigaction_clone (p childp : Z) : M sgst unit :=
  modify (fun s => set_actions (mem_write (action_addr childp 1) (mem_read s.(sigactions) (action_addr p 1) (SIZEOF_SIGACTION * SIGNAL_MAX)) s.(sigactions)) s).

(** ** Sending *)

Definition sig_td_canhandle (td signo : Z) : M sgst bool :=
  let* x := gets (fun s => s.(threads) td) in
  let* b := sigset_isset (sigset_or x.(td_sigmask) x.(td_cursigmask)) signo in
  ret (negb b).
(** [tcleanup] and [wakeup_td] of a killed thread are logged. *)
Definition sig_send_td (td signo : Z) : M sgst unit :=
  let* se := sigevent_alloc signo in
  sigeventq_insert td se ;;;
  if signo =? SIGKILL then upd_td td with_killed ;;; modify (add_woken td) else ret tt.
Fixpoint sig_send_scan (l : list Z) (signo : Z) : M sgst bool :=
  match l with
  | [] => ret false
  | td :: l' =>
      let* b := sig_td_canhandle td signo in
      if b then sig_send_td td signo ;;; ret true else sig_send_scan l' signo
  end.
Definition sig_send_proc (p signo : Z) : M sgst unit :=
  let* x := gets (fun s => s.(procs) p) in
  if bool_decide (x.(p_status) = ZOMBIE) then ret tt
  else
    let* sent := sig_send_scan x.(p_threads) signo in
    if sent then ret tt
    else match x.(p_threads) with [] => fail Panic | td :: _ => sig_send_td td signo end.

(** ** Handling *)

Fixpoint sig_getse_loop (q : list Z) (td : Z) : M sgst (option Z) :=
  match q with
  | [] => ret None
  | se :: q' =>
      let* e := gets (fun s => s.(sigevents) se) in
      if negb (Z.land e.(se_status) SE_PROCESSING =? 0) then ret (Some se)
      else
        let* b := sig_td_canhandle td e.(se_signo) in
        if b then ret (Some se) else sig_getse_loop q' td
  end.
Definition sig_getse (td : Z) : M sgst (option Z) :=
  let* x := gets (fun s => s.(threads) td) in sig_getse_loop x.(td_sigqueue) td.

Section Handling.
Context (sizeof_siginfo sizeof_ucontext : Z).

(** [x & ~0xf]. *)
Definition align16 (x : Z) : Z := Z.land x (wrap64 (Z.lnot 15)).
Definition siginfo_set (td se : Z) : M sgst unit :=
  let* x := gets (fun s => s.(threads) td) in
  let* e := gets (fun s => s.(sigevents) se) in
  let tf := x.(td_trapframe) in
  let sp1 := align16 (wrap64 (tf.(sp) - sizeof_siginfo)) in
  let sp2 := align16 (wrap64 (sp1 - sizeof_ucontext)) in
  upd_td td (with_context x.(td_cursigmask) (MkTf tf.(epc) tf.(ra) sp2 tf.(a0) sp1 sp2 tf.(other_regs))) ;;;
  upd_se se (with_ustack sp1 sp2) ;;;
  modify (log_out sp1 (USiginfo e.(se_signo))) ;;;
  modify (log_out sp2 (UContext x.(td_sigmask) e.(se_restoretf).(epc))).
(** The mask and the program counter that [copy_in] reads at [se_uuctx]. *)
Definition siginfo_return (td se : Z) (uc_sigmask : sigset_t) (uc_pc : Z) : M sgst unit :=
  (if negb (uc_pc =? 0) then
     upd_se se (fun e => let t := e.(se_restoretf) in
       MkSe (MkTf uc_pc t.(ra) t.(sp) t.(a0) t.(a1) t.(a2) t.(other_regs)) e.(se_restoremask) e.(se_signo) e.(se_status) e.(se_usiginfo) e.(se_uuctx))
   else ret tt) ;;;
  upd_td td (with_mask uc_sigmask).

(** [td->td_trapframe.sp -= n]. *)
Definition lower_sp (td n : Z) : M sgst unit :=
  upd_td td (fun x => let t := x.(td_trapframe) in
    with_context x.(td_cursigmask) (MkTf t.(epc) t.(ra) (wrap64 (t.(sp) - n)) t.(a0) t.(a1) t.(a2) t.(other_regs)) x).
Definition sig_beforestart (td se sa : Z) : M sgst unit :=
  let* x := gets (fun s => s.(threads) td) in
  let* m := gets sigactions in
  let tf := x.(td_trapframe) in
  upd_se se (fun e => MkSe tf x.(td_cursigmask) e.(se_signo) SE_PROCESSING e.(se_usiginfo) e.(se_uuctx)) ;;;
  upd_td td (with_sig se) ;;;
  let* e := gets (fun s => s.(sigevents) se) in
  let ra' := if negb (sa_restorer m sa =? 0) then sa_restorer m sa else user_sig_return_uaddr in
  upd_td td (with_context (sigset_or x.(td_cursigmask) (sa_mask m sa))
    (MkTf (sa_handler m sa) ra' (wrap64 (tf.(sp) - 4096)) e.(se_signo) tf.(a1) tf.(a2) tf.(other_regs))) ;;;
  (if negb (Z.land (sa_flags m sa) SA_SIGINFO =? 0) then siginfo_set td se ;;; lower_sp td 8 ;;; lower_sp td 8 else ret tt) ;;;
  lower_sp td 8.
Definition sig_afterret (td se : Z) : M sgst unit :=
  let* e := gets (fun s => s.(sigevents) se) in upd_td td (with_context e.(se_restoremask) e.(se_restoretf)).

(** [true] when the thread goes on, [false] when it was killed and exits. *)
Fixpoint sig_check (fuel : nat) (td : Z) : M sgst bool :=
  match fuel with
  | O => fail NoFuel
  | S fuel' =>
      let* x := gets (fun s => s.(threads) td) in
      if x.(td_killed) then ret false
      else
        let* o := sig_getse td in
        match o with
        | None => ret true
        | Some se =>
            let* e := gets (fun s => s.(sigevents) se) in
            if negb (Z.land e.(se_status) SE_PROCESSING =? 0) then ret true
            else
              let* sa := sigaction_get x.(td_proc) e.(se_signo) in
              let* m := gets sigactions in
              if (sa_handler m sa =? 0) || (sa_handler m sa =? SIG_IGN) then
                if (e.(se_signo) =? SIGKILL) || (e.(se_signo) =? SIGTERM) || (e.(se_signo) =? SIGSEGV) then
                  upd_td td with_killed ;;; sig_check fuel' td
                else sigeventq_remove td se ;;; sigevent_free se ;;; sig_check fuel' td
              else sig_beforestart td se sa ;;; ret true
        end
  end.

(** The first event in progress; without one the code dereferences [NULL]. *)
Fixpoint first_processing (s : sgst) (q : list Z) : option Z :=
  match q with
  | [] => None
  | se :: q' => if negb (Z.land (s.(sigevents) se).(se_status) SE_PROCESSING =? 0) then Some se else first_processing s q'
  end.
Definition sig_return (td : Z) : M sgst unit :=
  let* x := gets (fun s => s.(threads) td) in
  let* o := gets (fun s => first_processing s x.(td_sigqueue)) in
  match o with
  | None => fail BadPtr
  | Some se =>
      let* e := gets (fun s => s.(sigevents) se) in
      let* _ := sigaction_get x.(td_proc) e.(se_signo) in
      sig_afterret td se ;;;
      sigeventq_remove td se ;;;
      sigevent_free se
  end.

(** ** The calls *)

Definition sys_sigaction (td signum act : Z) (ubytes : Z -> Z) (oldact sigset_size : Z) : M sgst Z :=
  if (signum <? 0) || (SIGNAL_MAX <=? signum) then ret (-1) else sigaction_register td signum act ubytes oldact sigset_size.
Definition sys_sigreturn (td : Z) (uc_sigmask : sigset_t) (uc_pc : Z) : M sgst Z :=
  let* x := gets (fun s => s.(threads) td) in
  (if x.(td_sig) =? 0 then fail BadPtr else ret tt) ;;;
  let* e := gets (fun s => s.(sigevents) x.(td_sig)) in
  let* sa := sigaction_get x.(td_proc) e.(se_signo) in
  let* m := gets sigactions in
  (if negb (Z.land (sa_flags m sa) SA_SIGINFO =? 0) then siginfo_return td x.(td_sig) uc_sigmask uc_pc else ret tt) ;;;
  sig_return td ;;;
  let* x := gets (fun s => s.(threads) td) in
  ret (sext32 x.(td_trapframe).(a0)).
(** How the entry of the system calls makes the call: past the [ecall], and
    with the result in [a0]. *)
Definition set_epc (n : Z) (t : trapframe_t) : trapframe_t := MkTf n t.(ra) t.(sp) t.(a0) t.(a1) t.(a2) t.(other_regs).
Definition set_a0 (n : Z) (t : trapframe_t) : trapframe_t := MkTf t.(epc) t.(ra) t.(sp) n t.(a1) t.(a2) t.(other_regs).
Definition upd_tf (td : Z) (f : trapframe_t -> trapframe_t) : M sgst unit := upd_td td (fun x => with_context x.(td_cursigmask) (f x.(td_trapframe)) x).
Definition syscall_entry (td : Z) (func : M sgst Z) : M sgst unit :=
  upd_tf td (fun t => set_epc (wrap64 (t.(epc) + 4)) t) ;;;
  let* r := func in upd_tf td (set_a0 (wrap64 r)).
Definition SIG_BLOCK : Z := 0.
Definition SIG_UNBLOCK : Z := 1.
Definition SIG_SETMASK : Z := 2.
(** [newkset] is what is read at [set]; [junk] is what the variable holds when
    nothing is read.  The default branch returns with the lock held. *)
Definition sys_sigprocmask (td how set : Z) (newkset junk : sigset_t) (oldset sigsetsize : Z) : M sgst Z :=
  if 16 <=? sigsetsize then ret (-1)
  else
    let* x := gets (fun s => s.(threads) td) in
    (if negb (oldset =? 0) then modify (log_out oldset (UBytes x.(td_sigmask))) else ret tt) ;;;
    if how =? SIG_BLOCK then
      (if negb (set =? 0) then upd_td td (with_mask (sigset_block x.(td_sigmask) newkset sigsetsize)) else ret tt) ;;; ret 0
    else if how =? SIG_UNBLOCK then
      (if negb (set =? 0) then upd_td td (with_mask (sigset_unblock x.(td_sigmask) newkset sigsetsize)) else ret tt) ;;; ret 0
    else if how =? SIG_SETMASK then upd_td td (with_mask (if negb (set =? 0) then newkset else junk)) ;;; ret 0
    else ret (-1).
(** [sigsuspend] sets the mask and then, whenever the thread runs again, looks for
    an event; [true] when it returns.  [sigset] is what is read at its argument. *)
Definition sigsuspend_begin (td : Z) (sigset : sigset_t) : M sgst unit := upd_td td (with_mask sigset).
Definition sigsuspend_poll (td : Z) : M sgst bool :=
  let* o := sig_getse td in
  match o with
  | None => ret false
  | Some se =>
      let* e := gets (fun s => s.(sigevents) se) in
      let* b := sig_td_canhandle td e.(se_signo) in
      massert b ;;; ret true
  end.
(** What [sig_timedwait] leaves in [si_signo] once it has slept; the set it is
    given is not looked at. *)
Definition sig_timedwait (td : Z) : M sgst Z :=
  let* o := sig_getse td in
  match o with None => ret 0 | Some se => let* e := gets (fun s => s.(sigevents) se) in ret e.(se_signo) end.
(** Threads and processes are found by the low bits of their id. *)
Definition sys_tkill (self tid sig : Z) : M sgst Z :=
  if (sig <? 0) || (SIGNAL_MAX <=? sig) then ret (-1)
  else
    let* me := gets (fun s => s.(threads) self) in
    let tid := if tid =? 0 then me.(td_tid) else tid in
    let td := Z.land tid 65535 in
    let* x := gets (fun s => s.(threads) td) in
    if negb (tid =? x.(td_tid)) then ret (-1) else sig_send_td td sig ;;; ret 0.
Definition sys_kill (self pid sig : Z) : M sgst Z :=
  if (sig <? 0) || (SIGNAL_MAX <=? sig) then ret (- EINVAL)
  else
    let* me := gets (fun s => s.(threads) self) in
    let* mine := gets (fun s => s.(procs) me.(td_proc)) in
    let pid := if pid =? 0 then mine.(p_pid) else pid in
    let p := Z.land pid 65535 in
    let* x := gets (fun s => s.(procs) p) in
    if negb (pid =? x.(p_pid)) then (if pid =? 10 then ret 0 else ret (- ESRCH))
    else if sig =? 0 then ret 0
    else sig_send_proc p sig ;;; ret 0.
End Handling.

(** ** The pool and the queues *)

Definition processing (s : sgst) (e : Z) : bool := negb (Z.land (s.(sigevents) e).(se_status) SE_PROCESSING =? 0).
Definition queue (s : sgst) (td : Z) : list Z := (s.(threads) td).(td_sigqueue).
Definition event (e : Z) : Prop := 1 <= e <= NSIGEVENTS.

(** Every event is free or in one queue, once; free events are not in progress
    and queued ones carry a signal. *)
Record sinv (s : sgst) : Prop := {
  si_free_nd : NoDup s.(sigevent_freeq);
  si_free : forall e, e ∈ s.(sigevent_freeq) -> event e /\ (s.(sigevents) e).(se_status) = 0;
  si_q_nd : forall td, NoDup (queue s td);
  si_q : forall td e, e ∈ queue s td -> event e /\ (e ∉ s.(sigevent_freeq)) /\ 1 <= (s.(sigevents) e).(se_signo) <= SIGNAL_MAX;
  si_one : forall td td' e, e ∈ queue s td -> e ∈ queue s td' -> td = td';
  si_all : forall e, event e -> e ∈ s.(sigevent_freeq) \/ exists td, e ∈ queue s td
}.

(** The state after [signo] was queued at [td] with the event [e]. *)
Definition queued (td signo e : Z) (q' : list Z) (s : sgst) : sgst :=
  set_threads (upd s.(threads) td (with_queue (e :: queue s td) (s.(threads) td)))
    (set_events (upd s.(sigevents) e (with_signo signo (s.(sigevents) e))) (set_freeq q' s)).
Lemma queue_queued td signo e q' s x : queue (queued td signo e q' s) x = if x =? td then e :: queue s td else queue s x.
Proof. unfold queue, queued. cbn [threads set_threads]. unfold upd. now destruct (x =? td). Qed.
Lemma sinv_queued td signo e q' s : sinv s -> s.(sigevent_freeq) = e :: q' -> 1 <= signo <= SIGNAL_MAX -> sinv (queued td signo e q' s).
Proof.
  intros I Hq Hs. pose proof (si_free_nd _ I) as ND. rewrite Hq in ND. apply NoDup_cons in ND as [He ND].
  assert (Hf : e ∈ sigevent_freeq s) by (rewrite Hq; left). pose proof (si_free _ I e Hf) as [Hev Hst].
  assert (Hnq : forall x, e ∉ queue s x) by (intros x Hx; now apply (si_q _ I) in Hx as (_ & ? & _)).
  constructor; cbn [sigevent_freeq queued set_threads set_events set_freeq sigevents].
  - exact ND.
  - intros x Hx. assert (x <> e) by congruence. rewrite upd_ne by easy. apply (si_free _ I). rewrite Hq. now right.
  - intros x. rewrite queue_queued. destruct (x =? td); [constructor; [apply Hnq|]|]; apply I.
  - intros x y. rewrite queue_queued. assert (G : forall z, y ∈ queue s z -> event y /\ (y ∉ q') /\ 1 <= se_signo (upd (sigevents s) e (with_signo signo (sigevents s e)) y) <= SIGNAL_MAX).
    { intros z Hz. pose proof (si_q _ I z y Hz) as (H1 & H2 & H3). rewrite Hq, not_elem_of_cons in H2. rewrite upd_ne by easy. easy. }
    destruct (x =? td); [|apply G]. rewrite elem_of_cons. intros [-> | Hy]; [rewrite upd_eq; easy|now apply (G td)].
  - intros x y z. rewrite !queue_queued. destruct (Z.eqb_spec x td) as [->|], (Z.eqb_spec y td) as [->|]; rewrite ?elem_of_cons; try easy; try apply (si_one _ I).
    + intros [-> | H1] H2; [now apply Hnq in H2|]. now apply (si_one _ I td y z).
    + intros H1 [-> | H2]; [now apply Hnq in H1|]. now apply (si_one _ I x td z).
  - intros x Hx. destruct (Z.eq_dec x e) as [-> | Hne].
    + right. exists td. rewrite queue_queued, Z.eqb_refl. left.
    + destruct (si_all _ I x Hx) as [H|[t H]]; [left; rewrite Hq, elem_of_cons in H; now destruct H|].
      right. exists t. rewrite queue_queued. destruct (Z.eqb_spec t td) as [->|]; [now right|easy].
Qed.

(** The state after [e] was removed from the queue of [td] and freed. *)
Definition dropped (td e : Z) (s : sgst) : sgst :=
  set_freeq (e :: s.(sigevent_freeq)) (set_events (upd s.(sigevents) e zero_se)
    (set_threads (upd s.(threads) td (with_queue (without e (queue s td)) (s.(threads) td))) s)).
Lemma drop_run {B} td e s (k : unit -> M sgst B) : (sigeventq_remove td e ;;; (let* u := sigevent_free e in k u)) s = k tt (dropped td e s).
Proof. reflexivity. Qed.
Lemma queue_dropped td e s x : queue (dropped td e s) x = if x =? td then without e (queue s td) else queue s x.
Proof. unfold queue, dropped. cbn [threads set_threads set_freeq set_events]. unfold upd. now destruct (x =? td). Qed.
Lemma sinv_dropped td e s : sinv s -> e ∈ queue s td -> sinv (dropped td e s).
Proof.
  intros I He. pose proof (si_q _ I td e He) as (Hev & Hnf & _).
  assert (Q : forall x y, y ∈ queue (dropped td e s) x -> y ∈ queue s x /\ y <> e).
  { intros x y. rewrite queue_dropped. destruct (Z.eqb_spec x td) as [->|]; [apply without_in|]. intros Hy. split; [easy|]. intros ->.
    pose proof (si_one _ I td x e He Hy). congruence. }
  constructor; cbn [sigevent_freeq dropped set_threads set_events set_freeq sigevents].
  - constructor; [exact Hnf|apply I].
  - intros x. rewrite elem_of_cons. intros [-> | Hx]; [rewrite upd_eq; easy|]. assert (x <> e) by congruence. rewrite upd_ne by easy. now apply I.
  - intros x. rewrite queue_dropped. destruct (x =? td); [apply filter_NoDup|]; apply I.
  - intros x y Hy. apply Q in Hy as [Hy Hne]. rewrite not_elem_of_cons, upd_ne by easy. pose proof (si_q _ I x y Hy). tauto.
  - intros x y z Hx Hy. apply Q in Hx as [Hx _]. apply Q in Hy as [Hy _]. now apply (si_one _ I x y z).
  - intros x Hx. destruct (Z.eq_dec x e) as [-> | Hne]; [left; left|]. destruct (si_all _ I x Hx) as [H|[t H]]; [left; now right|].
    right. exists t. rewrite queue_dropped. destruct (Z.eqb_spec t td) as [->|]; [now apply without_in|easy].
Qed.
(** Everything but the pool and the queues may change. *)
Lemma sinv_same s s' : s'.(sigevent_freeq) = s.(sigevent_freeq) -> (forall td, queue s' td = queue s td) ->
  (forall e, e ∈ s.(sigevent_freeq) -> s'.(sigevents) e = s.(sigevents) e) ->
  (forall e, (s'.(sigevents) e).(se_signo) = (s.(sigevents) e).(se_signo)) -> sinv s -> sinv s'.
Proof.
  intros Hf Hq He Hs I. constructor; rewrite ?Hf.
  - apply I.
  - intros e H. rewrite He by easy. now apply I.
  - intros td. rewrite Hq. apply I.
  - intros td e. rewrite Hq, Hs. apply I.
  - intros td td' e. rewrite !Hq. apply I.
  - intros e H. destruct (si_all _ I e H) as [|[t Ht]]; [now left|]. right. exists t. now rewrite Hq.
Qed.

(** ** What [sig_check] does *)

Section Check.
Context (sizeof_siginfo sizeof_ucontext : Z).
Abbreviation check := (sig_check sizeof_siginfo sizeof_ucontext).
Abbreviation beforestart := (sig_beforestart sizeof_siginfo sizeof_ucontext).

Definition signo_of (s : sgst) (e : Z) : Z := (s.(sigevents) e).(se_signo).
Definition masked (s : sgst) (td e : Z) : bool :=
  let x := s.(threads) td in sigset_bit (sigset_or x.(td_sigmask) x.(td_cursigmask)) (signo_of s e - 1).
Definition action_of (s : sgst) (td e : Z) : Z := action_addr (s.(threads) td).(td_proc) (signo_of s e).
Definition no_handler (s : sgst) (td e : Z) : bool :=
  let h := sa_handler s.(sigactions) (action_of s td e) in (h =? 0) || (h =? SIG_IGN).
Definition lethal (s : sgst) (e : Z) : bool :=
  let n := signo_of s e in (n =? SIGKILL) || (n =? SIGTERM) || (n =? SIGSEGV).

(** How a check of the queue [q] ends, and which events it drops: blocked
    events are passed over, an event in progress ends the search, events
    without a handler are dropped or kill, the first one with a handler starts. *)
Inductive verdict : Type := Rest | Killed | Start (e : Z).
Fixpoint check_spec (s : sgst) (td : Z) (q : list Z) : list Z * verdict :=
  match q with
  | [] => ([], Rest)
  | e :: r =>
      if processing s e then ([], Rest)
      else if masked s td e then check_spec s td r
      else if no_handler s td e then
        if lethal s e then ([], Killed) else let '(d, v) := check_spec s td r in (e :: d, v)
      else ([], Start e)
  end.
Definition drop_all (td : Z) (d : list Z) (s : sgst) : sgst := fold_left (fun s e => dropped td e s) d s.

Lemma sig_ok_test n : 1 <= n <= SIGNAL_MAX -> sig_ok n = true.
Proof. intros. unfold sig_ok. apply andb_true_intro. split; [apply Z.leb_le|apply Z.ltb_lt]; lia. Qed.
Lemma canhandle_run s td e : 1 <= signo_of s e <= SIGNAL_MAX -> sig_td_canhandle td (signo_of s e) s = Ok (negb (masked s td e), s).
Proof.
  intros H. unfold sig_td_canhandle, bind at 1, gets at 1, sigset_isset. unfold bind at 1. rewrite massert_run by now apply sig_ok_test. reflexivity.
Qed.
Definition picked (s : sgst) (td : Z) (q : list Z) : option Z := List.find (fun e => processing s e || negb (masked s td e)) q.
Lemma getse_run s td q : (forall e, e ∈ q -> 1 <= signo_of s e <= SIGNAL_MAX) -> sig_getse_loop q td s = Ok (picked s td q, s).
Proof.
  induction q as [|e r IH]; intros H; [reflexivity|]. cbn [sig_getse_loop picked List.find]. unfold bind at 1, gets at 1.
  change (negb (Z.land (se_status (sigevents s e)) SE_PROCESSING =? 0)) with (processing s e). destruct (processing s e); [reflexivity|].
  rewrite (bind_run _ _ _ _ _ (canhandle_run s td e (H e ltac:(left)))). cbn [orb]. destruct (masked s td e); cbn [negb]; [|reflexivity].
  apply IH. intros x Hx. apply H. now right.
Qed.
Lemma picked_split s td q : match picked s td q with
  | None => check_spec s td q = ([], Rest)
  | Some e => exists pre r, q = pre ++ e :: r /\ check_spec s td q = check_spec s td (e :: r) /\ (forall x, x ∈ pre -> processing s x = false /\ masked s td x = true) /\
      (processing s e = true \/ masked s td e = false)
  end.
Proof.
  induction q as [|e r IH]; [reflexivity|]. unfold picked. cbn [List.find]. destruct (processing s e) eqn:Ep; cbn [orb].
  { exists [], r. split; [easy|]. split; [easy|]. split; [|now left]. intros x Hx. now apply elem_of_nil in Hx. }
  destruct (masked s td e) eqn:Em; cbn [negb].
  - fold (picked s td r). cbn [check_spec]. rewrite Ep, Em. destruct (picked s td r) as [x|]; [|exact IH]. destruct IH as (pre & r' & -> & E & Hpre & Hx).
    exists (e :: pre), r'. split; [easy|]. split; [exact E|]. split; [|exact Hx]. intros y. rewrite elem_of_cons. intros [-> | Hy]; [easy|now apply Hpre].
  - exists [], r. split; [easy|]. split; [easy|]. split; [|now right]. intros x Hx. now apply elem_of_nil in Hx.
Qed.
Lemma check_spec_skip s td pre r : (forall x, x ∈ pre -> processing s x = false /\ masked s td x = true) -> check_spec s td (pre ++ r) = check_spec s td r.
Proof.
  induction pre as [|x pre IH]; intros H; [easy|]. cbn [app check_spec]. destruct (H x ltac:(left)) as [-> ->]. apply IH. intros y Hy. apply H. now right.
Qed.
(** The verdict looks at the events of the queue only. *)
Lemma check_spec_ext s s' td q : (forall e, e ∈ q -> s'.(sigevents) e = s.(sigevents) e) -> s'.(sigactions) = s.(sigactions) ->
  (s'.(threads) td).(td_sigmask) = (s.(threads) td).(td_sigmask) -> (s'.(threads) td).(td_cursigmask) = (s.(threads) td).(td_cursigmask) ->
  (s'.(threads) td).(td_proc) = (s.(threads) td).(td_proc) -> check_spec s' td q = check_spec s td q.
Proof.
  intros He Ha Hm Hc Hp. induction q as [|e r IH]; [easy|]. cbn [check_spec]. unfold processing, masked, no_handler, lethal, action_of, signo_of.
  rewrite (He e) by left. rewrite Ha, Hm, Hc, Hp, IH; [easy|]. intros x Hx. apply He. now right.
Qed.
Lemma without_split e pre r : NoDup (pre ++ e :: r) -> without e (pre ++ e :: r) = pre ++ r.
Proof.
  intros H. apply NoDup_app in H as (_ & H1 & H2). apply NoDup_cons in H2 as [H2 _]. unfold without. rewrite List.filter_app. cbn [List.filter]. rewrite Z.eqb_refl. cbn [negb].
  f_equal; [apply (without_notin e pre)|apply (without_notin e r)]; [|exact H2]. intros He. apply (H1 e He). left.
Qed.

(** [e] was started: its old context is saved, it is in progress, and the
    thread is at the handler. *)
Record begun (td e : Z) (s s' : sgst) : Prop := {
  bg_freeq : s'.(sigevent_freeq) = s.(sigevent_freeq);
  bg_queue : forall x, queue s' x = queue s x;
  bg_event : let n := s'.(sigevents) e in n.(se_restoretf) = (s.(threads) td).(td_trapframe) /\ n.(se_restoremask) = (s.(threads) td).(td_cursigmask) /\
             n.(se_signo) = signo_of s e /\ n.(se_status) = SE_PROCESSING;
  bg_events : forall x, x <> e -> s'.(sigevents) x = s.(sigevents) x;
  bg_sig : (s'.(threads) td).(td_sig) = e;
  bg_pc : let t := (s'.(threads) td).(td_trapframe) in let a := action_of s td e in t.(epc) = sa_handler s.(sigactions) a /\ t.(a0) = signo_of s e /\
          t.(ra) = (if sa_restorer s.(sigactions) a =? 0 then user_sig_return_uaddr else sa_restorer s.(sigactions) a) /\ t.(other_regs) = (s.(threads) td).(td_trapframe).(other_regs);
  bg_mask : (s'.(threads) td).(td_cursigmask) = sigset_or (s.(threads) td).(td_cursigmask) (sa_mask s.(sigactions) (action_of s td e));
  bg_threads : forall x, x <> td -> s'.(threads) x = s.(threads) x;
  bg_actions : s'.(sigactions) = s.(sigactions)
}.
(** The stack pointer, the arguments behind the first and the record of the
    user's stack may change; nothing else does. *)
Record stack_step (td e : Z) (s s' : sgst) : Prop := {
  sk_freeq : s'.(sigevent_freeq) = s.(sigevent_freeq);
  sk_actions : s'.(sigactions) = s.(sigactions);
  sk_events : forall x, x <> e -> s'.(sigevents) x = s.(sigevents) x;
  sk_event : let n := s'.(sigevents) e in let o := s.(sigevents) e in
             n.(se_restoretf) = o.(se_restoretf) /\ n.(se_restoremask) = o.(se_restoremask) /\ n.(se_signo) = o.(se_signo) /\ n.(se_status) = o.(se_status);
  sk_threads : forall x, x <> td -> s'.(threads) x = s.(threads) x;
  sk_thread : let n := s'.(threads) td in let o := s.(threads) td in
              n.(td_sigqueue) = o.(td_sigqueue) /\ n.(td_sig) = o.(td_sig) /\ n.(td_cursigmask) = o.(td_cursigmask) /\
              let t := n.(td_trapframe) in let u := o.(td_trapframe) in t.(epc) = u.(epc) /\ t.(ra) = u.(ra) /\ t.(a0) = u.(a0) /\ t.(other_regs) = u.(other_regs)
}.
Lemma stack_trans td e a b c : stack_step td e a b -> stack_step td e b c -> stack_step td e a c.
Proof.
  intros A B. destruct (sk_event _ _ _ _ A) as (? & ? & ? & ?), (sk_event _ _ _ _ B) as (? & ? & ? & ?).
  destruct (sk_thread _ _ _ _ A) as (? & ? & ? & ? & ? & ? & ?), (sk_thread _ _ _ _ B) as (? & ? & ? & ? & ? & ? & ?).
  constructor; cbn zeta.
  - rewrite (sk_freeq _ _ _ _ B). apply A.
  - rewrite (sk_actions _ _ _ _ B). apply A.
  - intros x Hx. rewrite (sk_events _ _ _ _ B) by easy. now apply A.
  - repeat split; congruence.
  - intros x Hx. rewrite (sk_threads _ _ _ _ B) by easy. now apply A.
  - repeat split; congruence.
Qed.
Lemma stack_thread td e s f : (let n := f (s.(threads) td) in let o := s.(threads) td in
    n.(td_sigqueue) = o.(td_sigqueue) /\ n.(td_sig) = o.(td_sig) /\ n.(td_cursigmask) = o.(td_cursigmask) /\
    let t := n.(td_trapframe) in let u := o.(td_trapframe) in t.(epc) = u.(epc) /\ t.(ra) = u.(ra) /\ t.(a0) = u.(a0) /\ t.(other_regs) = u.(other_regs)) ->
  stack_step td e s (set_threads (upd s.(threads) td (f (s.(threads) td))) s).
Proof.
  intros H. constructor; cbn [sigevent_freeq sigactions sigevents threads set_threads]; try easy; [intros x Hx; now apply upd_ne|]. rewrite upd_eq. exact H.
Qed.
Lemma siginfo_set_step td e s : exists s', siginfo_set sizeof_siginfo sizeof_ucontext td e s = Ok (tt, s') /\ stack_step td e s s'.
Proof.
  unfold siginfo_set. unfold bind at 1, gets at 1. unfold bind at 1, gets at 1. set (x := threads s td). set (tf := MkTf _ _ _ _ _ _ _).
  unfold bind at 1, upd_td, modify. set (s1 := set_threads _ s). unfold bind at 1, upd_se, modify. set (s2 := set_events _ s1). eexists. split; [reflexivity|].
  apply (stack_trans _ _ _ s1); [now apply (stack_thread td e s (with_context (td_cursigmask x) tf))|].
  constructor; try easy; cbn [log_out sigevents set_events s2].
  - intros y Hy. unfold s2. cbn [sigevents set_events]. now apply upd_ne.
  - unfold s2. cbn [sigevents set_events]. now rewrite upd_eq.
Qed.
Lemma lower_step td e n s : exists s', lower_sp td n s = Ok (tt, s') /\ stack_step td e s s'.
Proof.
  eexists. split; [reflexivity|].
  now apply (stack_thread td e s (fun x => let t := x.(td_trapframe) in with_context x.(td_cursigmask) (MkTf t.(epc) t.(ra) (wrap64 (t.(sp) - n)) t.(a0) t.(a1) t.(a2) t.(other_regs)) x)).
Qed.
Ltac upds H :=
  cbn [sigevents threads set_threads set_events] in H; repeat rewrite upd_eq in H;
  cbn [td_sigqueue td_sig td_cursigmask td_trapframe epc ra a0 other_regs with_context with_sig se_restoretf se_restoremask se_signo se_status] in H.
Lemma beforestart_run s td e : exists s', beforestart td e (action_of s td e) s = Ok (tt, s') /\ begun td e s s'.
Proof.
  unfold sig_beforestart. unfold bind at 1, gets at 1. unfold bind at 1, gets at 1. unfold bind at 1, upd_se, modify. set (s1 := set_events _ s).
  unfold bind at 1, upd_td, modify. set (s2 := set_threads _ s1). unfold bind at 1, gets at 1. unfold bind at 1. set (s3 := set_threads _ s2).
  assert (F : forall s', stack_step td e s3 s' -> begun td e s s').
  { intros s' T. destruct (sk_event _ _ _ _ T) as (E1 & E2 & E3 & E4). destruct (sk_thread _ _ _ _ T) as (Q1 & Q2 & Q3 & Q4 & Q5 & Q6 & Q7).
    unfold s3, s2, s1 in *. upds E1. upds E2. upds E3. upds E4. upds Q1. upds Q2. upds Q3. upds Q4. upds Q5. upds Q6. upds Q7.
    constructor; cbn zeta.
    - apply (sk_freeq _ _ _ _ T).
    - intros x. unfold queue. destruct (Z.eq_dec x td) as [-> | Hx]; [exact Q1|]. rewrite (sk_threads _ _ _ _ T) by easy. unfold s3, s2, s1. cbn [threads set_threads set_events]. now rewrite !upd_ne.
    - easy.
    - intros x Hx. rewrite (sk_events _ _ _ _ T) by easy. unfold s3, s2, s1. cbn [sigevents set_threads set_events]. now rewrite upd_ne.
    - exact Q2.
    - rewrite Q4, Q5, Q6, Q7. repeat split. now destruct (sa_restorer _ _ =? 0).
    - exact Q3.
    - intros x Hx. rewrite (sk_threads _ _ _ _ T) by easy. unfold s3, s2, s1. cbn [threads set_threads set_events]. now rewrite !upd_ne.
    - apply (sk_actions _ _ _ _ T). }
  destruct (negb (Z.land (sa_flags (sigactions s) (action_of s td e)) SA_SIGINFO =? 0)).
  - destruct (siginfo_set_step td e s3) as (s4 & E4 & T4). destruct (lower_step td e 8 s4) as (s5 & E5 & T5). destruct (lower_step td e 8 s5) as (s6 & E6 & T6). destruct (lower_step td e 8 s6) as (s7 & E7 & T7).
    exists s7. split; [unfold bind; rewrite E4, E5, E6; exact E7|]. apply F. eapply stack_trans; [exact T4|]. eapply stack_trans; [exact T5|]. now apply (stack_trans _ _ _ s6).
  - destruct (lower_step td e 8 s3) as (s4 & E4 & T4). exists s4. split; [unfold bind, ret; exact E4|]. now apply F.
Qed.

Definition kill (td : Z) (s : sgst) : sgst := set_threads (upd s.(threads) td (with_killed (s.(threads) td))) s.
(** The state after a check whose verdict is [v], from the state [s] in which
    the dropped events are gone already. *)
Definition ends (td : Z) (v : verdict) (s s' : sgst) : Prop :=
  match v with Rest => s' = s | Killed => s' = kill td s | Start e => begun td e s s' end.
Lemma dropped_event td e s x : x <> e -> (dropped td e s).(sigevents) x = s.(sigevents) x.
Proof. intros. unfold dropped. cbn [sigevents set_freeq set_events set_threads]. now apply upd_ne. Qed.
Lemma dropped_thread td e s : (dropped td e s).(threads) td = with_queue (without e (queue s td)) (s.(threads) td).
Proof. unfold dropped. cbn [threads set_freeq set_events set_threads]. apply upd_eq. Qed.
Lemma check_spec_dropped td e s q : (e ∉ q) -> check_spec (dropped td e s) td q = check_spec s td q.
Proof.
  intros He. apply check_spec_ext; rewrite ?dropped_thread; try easy. intros x Hx. apply dropped_event. congruence.
Qed.
Lemma sigaction_get_run {B} p n (k : Z -> M sgst B) s : 1 <= n <= SIGNAL_MAX -> (let* sa := sigaction_get p n in k sa) s = k (action_addr p n) s.
Proof. intros H. unfold sigaction_get, bind at 1, bind at 1, massert. destruct (_ && _) eqn:E; [reflexivity|]. apply andb_false_iff in E. rewrite Z.ltb_ge, Z.leb_gt in E. lia. Qed.

Lemma sig_check_run fuel : forall s td, sinv s -> (s.(threads) td).(td_killed) = false -> (length (queue s td) + 1 < fuel)%nat ->
  exists s', check fuel td s = Ok (match snd (check_spec s td (queue s td)) with Killed => false | _ => true end, s') /\
             ends td (snd (check_spec s td (queue s td))) (drop_all td (fst (check_spec s td (queue s td))) s) s'.
Proof.
  induction fuel as [|fuel IH]; intros s td I Hk Hf; [lia|]. cbn [sig_check]. unfold bind at 1, gets at 1. rewrite Hk.
  assert (Hs : forall e, e ∈ queue s td -> 1 <= signo_of s e <= SIGNAL_MAX) by (intros e He; now apply (si_q _ I td e He)).
  assert (G : sig_getse td s = Ok (picked s td (queue s td), s)) by (unfold sig_getse, bind at 1, gets at 1; now apply getse_run).
  rewrite (bind_run _ _ _ _ _ G). pose proof (picked_split s td (queue s td)) as P. destruct (picked s td (queue s td)) as [e|].
  2:{ rewrite P. now exists s. }
  destruct P as (pre & r & Hq & E & Hpre & Hor). rewrite E. unfold bind at 1, gets at 1.
  assert (He : e ∈ queue s td) by (rewrite Hq, elem_of_app; right; left).
  change (negb (Z.land (se_status (sigevents s e)) SE_PROCESSING =? 0)) with (processing s e). cbn [check_spec].
  destruct (processing s e); [now exists s|]. destruct Hor as [|Hm]; [easy|]. rewrite Hm.
  fold (signo_of s e). rewrite sigaction_get_run by now apply Hs. fold (action_of s td e). unfold bind at 1, gets at 1.
  change ((_ =? 0) || (_ =? SIG_IGN)) with (no_handler s td e). destruct (no_handler s td e).
  - change ((signo_of s e =? SIGKILL) || _ || _) with (lethal s e). destruct (lethal s e).
    + unfold bind at 1, upd_td at 1, modify at 1. fold (kill td s). exists (kill td s). split; [|easy]. destruct fuel; [lia|].
      cbn [sig_check]. unfold bind at 1, gets at 1, kill at 1. cbn [threads set_threads]. now rewrite upd_eq.
    + rewrite drop_run. pose proof (si_q_nd _ I td) as ND. rewrite Hq in ND. pose proof (sinv_dropped _ _ _ I He) as I'.
      assert (Q' : queue (dropped td e s) td = pre ++ r) by (rewrite queue_dropped, Z.eqb_refl, Hq; now apply without_split).
      assert (Hn : e ∉ pre ++ r).
      { rewrite <- (without_split e pre r) by easy. intros H. apply without_in in H. tauto. }
      destruct (IH (dropped td e s) td I') as (s' & R & T); [rewrite dropped_thread; exact Hk|rewrite Q'; rewrite Hq, !length_app in *; cbn [length] in Hf; lia|].
      rewrite Q', check_spec_dropped, check_spec_skip in R, T by easy. exists s'. destruct (check_spec s td r) as [d v]. now split.
  - destruct (beforestart_run s td e) as (s' & R & T). rewrite (bind_run _ _ _ _ _ R). now exists s'.
Qed.

(** ** Handlers nest *)

(** A handler that runs: its event, and the context and the mask it
    interrupted. *)
Record frame : Type := MkFrame { fr_ev : Z; fr_tf : trapframe_t; fr_mask : sigset_t }.
Definition active (s : sgst) (td : Z) : list Z := List.filter (processing s) (queue s td).
(** The events in progress of a thread are the handlers it runs, the innermost
    first, and each one keeps the context it interrupted. *)
Record ginv (s : sgst) (G : Z -> list frame) : Prop := {
  gi_pool : sinv s;
  gi_active : forall td, active s td = map fr_ev (G td);
  gi_saved : forall td f, f ∈ G td -> (s.(sigevents) f.(fr_ev)).(se_restoretf) = f.(fr_tf) /\ (s.(sigevents) f.(fr_ev)).(se_restoremask) = f.(fr_mask)
}.
Lemma in_active s td e : e ∈ active s td <-> e ∈ queue s td /\ processing s e = true.
Proof. unfold active. rewrite !list_elem_of_In. apply List.filter_In. Qed.
Lemma frame_active s G td f : ginv s G -> f ∈ G td -> fr_ev f ∈ active s td.
Proof. intros I H. rewrite (gi_active _ _ I). now apply list_elem_of_fmap_2. Qed.
Lemma frame_queued s G td f : ginv s G -> f ∈ G td -> fr_ev f ∈ queue s td.
Proof. intros I H. apply (frame_active _ _ _ _ I), in_active in H. tauto. Qed.
Lemma filter_ext_elem {A} (p p' : A -> bool) l : (forall x, x ∈ l -> p x = p' x) -> List.filter p l = List.filter p' l.
Proof. intros H. apply List.filter_ext_in. intros x Hx. apply H. now apply list_elem_of_In. Qed.

(** What a step may change when it leaves the handlers alone. *)
Record quiet (s s' : sgst) : Prop := {
  qu_freeq : s'.(sigevent_freeq) = s.(sigevent_freeq);
  qu_queue : forall td, queue s' td = queue s td;
  qu_events : s'.(sigevents) = s.(sigevents)
}.
Lemma quiet_refl s : quiet s s.
Proof. now constructor. Qed.
Lemma quiet_trans a b c : quiet a b -> quiet b c -> quiet a c.
Proof. intros [A B C] [D E F]. constructor; [congruence| |congruence]. intros. now rewrite E. Qed.
Lemma quiet_thread td f s : (forall x, (f x).(td_sigqueue) = x.(td_sigqueue)) -> quiet s (set_threads (upd s.(threads) td (f (s.(threads) td))) s).
Proof.
  intros H. constructor; [reflexivity| |reflexivity]. intros x. unfold queue. cbn [threads set_threads]. unfold upd. now destruct (Z.eqb_spec x td) as [->|].
Qed.
Lemma ginv_quiet s s' G : quiet s s' -> ginv s G -> ginv s' G.
Proof.
  intros [Qf Qq Qe] I. constructor.
  - apply (sinv_same s); try easy; [|now intros; rewrite Qe|apply I]. intros. now rewrite Qe.
  - intros td. rewrite <- (gi_active _ _ I). unfold active, processing. now rewrite Qq, Qe.
  - intros td f. rewrite Qe. apply I.
Qed.

Lemma ginv_queued td signo e q' s G : ginv s G -> s.(sigevent_freeq) = e :: q' -> 1 <= signo <= SIGNAL_MAX -> ginv (queued td signo e q' s) G.
Proof.
  intros I Hq Hs. assert (Hf : e ∈ sigevent_freeq s) by (rewrite Hq; left). pose proof (si_free _ (gi_pool _ _ I) e Hf) as [_ Hst].
  assert (Ev : forall x, processing (queued td signo e q' s) x = processing s x).
  { intros x. unfold processing, queued. cbn [sigevents set_threads set_events set_freeq]. unfold upd. now destruct (Z.eqb_spec x e) as [->|]. }
  constructor.
  - apply sinv_queued; try easy. apply I.
  - intros x. rewrite <- (gi_active _ _ I). unfold active. rewrite queue_queued, (filter_ext_elem _ (processing s)) by (intros; apply Ev).
    destruct (Z.eqb_spec x td) as [->|]; [|easy]. cbn [List.filter]. now replace (processing s e) with false by (unfold processing; now rewrite Hst).
  - intros x f Hx. unfold queued. cbn [sigevents set_threads set_events set_freeq]. rewrite upd_ne; [now apply (gi_saved _ _ I x)|].
    intros E. pose proof (frame_queued _ _ _ _ I Hx) as H. rewrite E in H. now apply (si_q _ (gi_pool _ _ I) x e) in H as (_ & H & _).
Qed.
Lemma active_dropped td e s x : sinv s -> e ∈ queue s td -> active (dropped td e s) x = if x =? td then without e (active s td) else active s x.
Proof.
  intros I He. assert (P : forall y, y <> e -> processing (dropped td e s) y = processing s y) by (intros y Hy; unfold processing; now rewrite dropped_event).
  unfold active. rewrite queue_dropped. destruct (Z.eqb_spec x td) as [->|Hx].
  - rewrite (filter_ext_elem _ (processing s)) by (intros y Hy; apply without_in in Hy; now apply P).
    unfold without. clear He. induction (queue s td) as [|y r IH]; [easy|]. cbn [List.filter].
    destruct (negb (y =? e)) eqn:Ey; destruct (processing s y) eqn:Ep; cbn [List.filter]; rewrite ?Ey, ?Ep, IH; easy.
  - apply filter_ext_elem. intros y Hy. apply P. intros ->. apply Hx. now apply (si_one _ I x td e).
Qed.
(** An event that is not in progress, or the innermost one, goes away. *)
Lemma ginv_dropped td e s G G' : ginv s G -> e ∈ queue s td ->
  (forall x, x <> td -> G' x = G x) -> (processing s e = false /\ G' td = G td \/ exists f, fr_ev f = e /\ G td = f :: G' td) -> ginv (dropped td e s) G'.
Proof.
  intros I He Ho Hc. pose proof (gi_pool _ _ I) as I0.
  assert (ND : NoDup (active s td)) by (apply filter_NoDup, I0).
  assert (W : without e (active s td) = map fr_ev (G' td)).
  { destruct Hc as [[Hp ->]|(f & Ef & E)].
    - rewrite without_notin; [apply I|]. rewrite in_active. intros [_ H]. congruence.
    - rewrite (gi_active _ _ I), E in *. cbn [map] in *. rewrite Ef in *. apply NoDup_cons in ND as [ND _].
      unfold without. cbn [List.filter]. rewrite Z.eqb_refl. cbn [negb]. now apply without_notin. }
  constructor.
  - now apply sinv_dropped.
  - intros x. rewrite active_dropped by easy. destruct (Z.eqb_spec x td) as [->|]; [exact W|]. rewrite Ho by easy. apply I.
  - intros x f Hf. assert (Hne : fr_ev f <> e).
    { destruct (Z.eq_dec x td) as [->|Hx].
      - assert (H : fr_ev f ∈ without e (active s td)) by (rewrite W; now apply list_elem_of_fmap_2). apply without_in in H. tauto.
      - rewrite Ho in Hf by easy. intros E. apply Hx. apply (si_one _ I0 x td e); [|easy]. rewrite <- E. now apply (frame_queued _ G). }
    rewrite dropped_event by easy. destruct (Z.eq_dec x td) as [->|Hx]; [|apply (gi_saved _ _ I x); now rewrite <- Ho].
    apply (gi_saved _ _ I td). destruct Hc as [[_ <-]|(g & _ & ->)]; [easy|now right].
Qed.

(** The drops of a check leave the handlers alone, and the verdict stands. *)
Lemma drop_all_settles td G q : forall pre s, ginv s G -> queue s td = pre ++ q -> (forall x, x ∈ pre -> processing s x = false /\ masked s td x = true) ->
  let s' := drop_all td (fst (check_spec s td q)) s in
  ginv s' G /\ check_spec s' td (queue s' td) = ([], snd (check_spec s td q)) /\ (s'.(threads) td).(td_trapframe) = (s.(threads) td).(td_trapframe) /\
  (s'.(threads) td).(td_cursigmask) = (s.(threads) td).(td_cursigmask).
Proof.
  induction q as [|e r IH]; intros pre s I Hq Hpre.
  { cbn [fst drop_all fold_left check_spec]. rewrite Hq, check_spec_skip by easy. easy. }
  assert (Stay : check_spec s td (e :: r) = ([], snd (check_spec s td (e :: r))) -> let s' := drop_all td (fst (check_spec s td (e :: r))) s in
    ginv s' G /\ check_spec s' td (queue s' td) = ([], snd (check_spec s td (e :: r))) /\ (s'.(threads) td).(td_trapframe) = (s.(threads) td).(td_trapframe) /\
    (s'.(threads) td).(td_cursigmask) = (s.(threads) td).(td_cursigmask)).
  { intros E. replace (fst (check_spec s td (e :: r))) with (@nil Z) by now rewrite E. cbn [drop_all fold_left]. rewrite Hq, check_spec_skip by easy. easy. }
  cbn [check_spec] in *. destruct (processing s e) eqn:Ep; [now apply Stay|]. destruct (masked s td e) eqn:Em.
  { apply (IH (pre ++ [e])); [easy|now rewrite <- app_assoc|]. intros x. rewrite elem_of_app, list_elem_of_singleton. intros [Hx| ->]; [now apply Hpre|easy]. }
  destruct (no_handler s td e); [|now apply Stay]. destruct (lethal s e); [now apply Stay|]. clear Stay.
  pose proof (si_q_nd _ (gi_pool _ _ I) td) as ND. rewrite Hq in ND. pose proof (without_split _ _ _ ND) as W.
  assert (He : e ∈ queue s td) by (rewrite Hq, elem_of_app; right; left).
  assert (Hn : e ∉ pre ++ r) by (rewrite <- W; intros H; apply without_in in H; tauto). rewrite elem_of_app in Hn.
  assert (I' : ginv (dropped td e s) G) by (apply (ginv_dropped td e s G G); try easy; now left).
  destruct (IH pre (dropped td e s) I') as (A & B & C & D).
  - now rewrite queue_dropped, Z.eqb_refl, Hq.
  - intros x Hx. destruct (Hpre x Hx) as [P1 P2]. assert (x <> e) by (intros ->; tauto). unfold processing, masked, signo_of. rewrite dropped_thread, dropped_event by easy. easy.
  - rewrite check_spec_dropped in A, B, C, D by tauto. rewrite dropped_thread in C, D. destruct (check_spec s td r) as [d v]. easy.
Qed.
Lemma check_spec_start s td q e : check_spec s td q = ([], Start e) ->
  exists pre r, q = pre ++ e :: r /\ (forall x, x ∈ pre -> processing s x = false) /\ processing s e = false.
Proof.
  induction q as [|y r IH]; [easy|]. cbn [check_spec]. destruct (processing s y) eqn:Ep; [easy|]. destruct (masked s td y).
  - intros E. destruct (IH E) as (pre & r' & -> & H & He). exists (y :: pre), r'. split; [easy|]. split; [|easy]. intros x. rewrite elem_of_cons. intros [-> | Hx]; [easy|now apply H].
  - destruct (no_handler s td y).
    + destruct (lethal s y); [easy|]. destruct (check_spec s td r); easy.
    + intros [= ->]. exists [], r. split; [easy|]. split; [|easy]. intros x Hx. now apply elem_of_nil in Hx.
Qed.
Lemma filter_none {A} (p : A -> bool) l : (forall x, x ∈ l -> p x = false) -> List.filter p l = [].
Proof. induction l as [|x l IH]; intros H; [easy|]. cbn [List.filter]. rewrite (H x) by left. apply IH. intros y Hy. apply H. now right. Qed.
Lemma ginv_begun td e s s' G : ginv s G -> check_spec s td (queue s td) = ([], Start e) -> begun td e s s' ->
  ginv s' (upd G td (MkFrame e (s.(threads) td).(td_trapframe) (s.(threads) td).(td_cursigmask) :: G td)).
Proof.
  intros I C B. destruct (bg_event _ _ _ _ B) as (B1 & B2 & B3 & B4). pose proof (gi_pool _ _ I) as I0.
  destruct (check_spec_start _ _ _ _ C) as (pre & r & Hq & Hpre & He0).
  assert (He : e ∈ queue s td) by (rewrite Hq, elem_of_app; right; left).
  assert (Pe : processing s' e = true) by (unfold processing; now rewrite B4).
  assert (P : forall y, y <> e -> processing s' y = processing s y) by (intros y Hy; unfold processing; now rewrite (bg_events _ _ _ _ B)).
  assert (ND : NoDup (pre ++ e :: r)) by (rewrite <- Hq; apply I0). apply NoDup_app in ND as (_ & Dp & Dr). apply NoDup_cons in Dr as [Dr _].
  constructor.
  - apply (sinv_same s); [apply B|apply B| | |exact I0].
    + intros x Hx. apply (bg_events _ _ _ _ B). intros ->. now apply (si_q _ I0 td e) in He as (_ & ? & _).
    + intros x. destruct (Z.eq_dec x e) as [-> |]; [exact B3|]. now rewrite (bg_events _ _ _ _ B).
  - intros x. unfold active. rewrite (bg_queue _ _ _ _ B). destruct (Z.eq_dec x td) as [-> | Hx].
    + rewrite upd_eq. cbn [map fr_ev]. rewrite <- (gi_active _ _ I). unfold active. rewrite Hq, !List.filter_app. cbn [List.filter]. rewrite Pe, He0.
      rewrite (filter_none (processing s) pre) by exact Hpre. rewrite (filter_none (processing s') pre).
      * cbn [app]. f_equal. apply filter_ext_elem. intros y Hy. apply P. congruence.
      * intros y Hy. rewrite P; [now apply Hpre|]. intros ->. apply (Dp e Hy). left.
    + rewrite upd_ne by easy. rewrite <- (gi_active _ _ I). apply filter_ext_elem. intros y Hy. apply P. intros ->. apply Hx. now apply (si_one _ I0 x td e).
  - assert (Old : forall x f, f ∈ G x -> (s'.(sigevents) f.(fr_ev)).(se_restoretf) = f.(fr_tf) /\ (s'.(sigevents) f.(fr_ev)).(se_restoremask) = f.(fr_mask)).
    { intros x f Hf. rewrite (bg_events _ _ _ _ B); [now apply (gi_saved _ _ I x)|]. intros E.
      pose proof (frame_active _ _ _ _ I Hf) as H. rewrite E in H. apply in_active in H as [_ H]. congruence. }
    intros x f. unfold upd. destruct (x =? td); [|apply Old]. rewrite elem_of_cons. intros [-> | Hf]; [easy|now apply (Old td)].
Qed.

Lemma first_processing_active s td : first_processing s (queue s td) = hd_error (active s td).
Proof. unfold active. induction (queue s td) as [|e r IH]; [easy|]. cbn [first_processing List.filter]. fold (processing s e). now destruct (processing s e). Qed.
Lemma check_spec_fresh s td q e : snd (check_spec s td q) = Start e -> processing s e = false.
Proof.
  induction q as [|y r IH]; [easy|]. cbn [check_spec]. destruct (processing s y) eqn:E; [easy|]. destruct (masked s td y); [exact IH|].
  destruct (no_handler s td y); [|now intros [= <-]]. destruct (lethal s y); [easy|]. now destruct (check_spec s td r).
Qed.
(** A check on the thread's whole queue: every event can be dropped once, and a
    killed thread is seen on the next turn. *)
Definition sig_check_all (td : Z) : M sgst bool := let* x := gets (fun s => s.(threads) td) in check (length x.(td_sigqueue) + 2) td.
(** The handlers after a check: one more when an event that was not in progress
    now is. *)
Definition after_check (s s' : sgst) (td : Z) (G : Z -> list frame) : Z -> list frame :=
  match first_processing s' (queue s' td) with
  | Some e => if processing s e then G else upd G td (MkFrame e (s.(threads) td).(td_trapframe) (s.(threads) td).(td_cursigmask) :: G td)
  | None => G
  end.
Lemma after_check_same s s' td G : ginv s G -> ginv s' G -> after_check s s' td G = G.
Proof.
  intros I I'. unfold after_check. rewrite first_processing_active, (gi_active _ _ I'), <- (gi_active _ _ I). destruct (active s td) as [|e r] eqn:E; [easy|]. cbn [hd_error].
  assert (H : e ∈ active s td) by (rewrite E; left). apply in_active in H as [_ ->]. easy.
Qed.
Lemma check_all_run s td G : ginv s G ->
  exists b s', sig_check_all td s = Ok (b, s') /\ ginv s' (after_check s s' td G).
Proof.
  intros I. pose proof (gi_pool _ _ I) as I0. unfold sig_check_all. unfold bind at 1, gets at 1. fold (queue s td). destruct ((s.(threads) td).(td_killed)) eqn:Hk.
  { exists false, s. rewrite (Nat.add_comm (length _)). cbn [Nat.add sig_check]. unfold bind at 1, gets at 1. rewrite Hk. split; [easy|]. rewrite after_check_same; easy. }
  destruct (sig_check_run (length (queue s td) + 2) s td I0 Hk ltac:(lia)) as (s' & R & T). eexists _, s'. split; [exact R|].
  destruct (drop_all_settles td G (queue s td) [] s I eq_refl) as (A & B & C & D); [intros x Hx; now apply elem_of_nil in Hx|].
  pose proof (check_spec_fresh s td (queue s td)) as F.
  set (s1 := drop_all td (fst (check_spec s td (queue s td))) s) in *. destruct (snd (check_spec s td (queue s td))) as [| |e]; cbn [ends] in T.
  - subst s'. now rewrite after_check_same.
  - subst s'. assert (I' : ginv (kill td s1) G) by (apply (ginv_quiet s1); [now apply quiet_thread|exact A]). now rewrite after_check_same.
  - pose proof (ginv_begun _ _ _ _ _ A B T) as N. unfold after_check. rewrite first_processing_active, (gi_active _ _ N), upd_eq. cbn [map hd_error fr_ev]. rewrite (F e eq_refl), <- C, <- D. exact N.
Qed.

(** *** Sending *)

Lemma send_td_run td n s e q' : s.(sigevent_freeq) = e :: q' -> exists s', sig_send_td td n s = Ok (tt, s') /\ quiet (queued td n e q' s) s'.
Proof.
  intros Hq. unfold sig_send_td, sigevent_alloc. unfold bind at 1, bind at 1, gets at 1. rewrite Hq. unfold bind at 1, modify at 1, bind at 1, upd_se, modify, ret.
  destruct (n =? SIGKILL).
  - exists (add_woken td (kill td (queued td n e q' s))). split; [reflexivity|]. eapply quiet_trans; [apply (quiet_thread td with_killed); easy|]. now constructor.
  - exists (queued td n e q' s). split; [reflexivity|]. apply quiet_refl.
Qed.
Lemma send_td_empty td n s : s.(sigevent_freeq) = [] -> sig_send_td td n s = Err Panic.
Proof. intros H. unfold sig_send_td, sigevent_alloc. unfold bind at 1, bind at 1, gets at 1. now rewrite H. Qed.
Lemma send_td_ginv td n s s' G : 1 <= n <= SIGNAL_MAX -> sig_send_td td n s = Ok (tt, s') -> ginv s G -> ginv s' G.
Proof.
  intros Hn R I. destruct (sigevent_freeq s) as [|e q'] eqn:Hq; [now rewrite send_td_empty in R|].
  destruct (send_td_run td n s e q' Hq) as (s1 & R1 & Q). assert (s1 = s') as -> by congruence. apply (ginv_quiet _ _ _ Q). now apply ginv_queued.
Qed.
Lemma canhandle_same td n s b s' : sig_td_canhandle td n s = Ok (b, s') -> s' = s.
Proof. unfold sig_td_canhandle, sigset_isset, bind, gets, massert, ret, fail. destruct (sig_ok n); congruence. Qed.
Lemma scan_cases n l : forall s b s', sig_send_scan l n s = Ok (b, s') ->
  if b then exists td, td ∈ l /\ sig_send_td td n s = Ok (tt, s') else s' = s.
Proof.
  induction l as [|td l IH]; intros s b s'; cbn [sig_send_scan]; [now intros [= <- <-]|]. intros H. minv H. apply canhandle_same in E as ->.
  match goal with H : (if ?c then _ else _) _ = _ |- _ => destruct c end.
  - minv H. injection H as <- <-. match goal with u : unit |- _ => destruct u end. exists td. split; [left|easy].
  - apply IH in H. destruct b; [|easy]. destruct H as (x & Hx & R). exists x. split; [now right|easy].
Qed.
Lemma send_proc_cases p n s s' : sig_send_proc p n s = Ok (tt, s') -> s' = s \/ exists td, td ∈ (s.(procs) p).(p_threads) /\ sig_send_td td n s = Ok (tt, s').
Proof.
  unfold sig_send_proc. unfold bind at 1, gets at 1. destruct (bool_decide _); [intros [= <-]; now left|]. intros H. minv H. apply scan_cases in E. destruct x.
  - injection H as <-. now right.
  - subst. destruct (p_threads _) as [|td l]; [easy|]. right. exists td. split; [left|easy].
Qed.
Lemma send_proc_ginv p n s s' G : 1 <= n <= SIGNAL_MAX -> sig_send_proc p n s = Ok (tt, s') -> ginv s G -> ginv s' G.
Proof. intros Hn R I. destruct (send_proc_cases p n s s' R) as [-> |(td & _ & E)]; [easy|]. now apply (send_td_ginv td n s). Qed.

(** *** Returning and exiting *)

Lemma handlers_ext s G G' : (forall td, G td = G' td) -> ginv s G -> ginv s G'.
Proof. intros E I. constructor; [apply I| |]; intros td; rewrite <- E; apply I. Qed.
Lemma top_of s G td f fs : ginv s G -> G td = f :: fs -> first_processing s (queue s td) = Some (fr_ev f) /\ fr_ev f ∈ queue s td.
Proof.
  intros I E. split; [now rewrite first_processing_active, (gi_active _ _ I), E|]. apply (frame_queued _ G); [easy|]. rewrite E. left.
Qed.
(** The innermost handler's context comes back and its event is free again. *)
Definition returned (td e : Z) (s : sgst) : sgst :=
  dropped td e (set_threads (upd s.(threads) td (with_context (s.(sigevents) e).(se_restoremask) (s.(sigevents) e).(se_restoretf) (s.(threads) td))) s).
Lemma return_top td e s : first_processing s (queue s td) = Some e -> 1 <= signo_of s e <= SIGNAL_MAX -> sig_return td s = Ok (tt, returned td e s).
Proof.
  intros Hf Hs. unfold sig_return. unfold bind at 1, gets at 1. unfold bind at 1, gets at 1. fold (queue s td). rewrite Hf. unfold bind at 1, gets at 1. fold (signo_of s e).
  rewrite sigaction_get_run by easy. reflexivity.
Qed.
Lemma returned_ginv td s G f fs : ginv s G -> G td = f :: fs -> ginv (returned td (fr_ev f) s) (upd G td fs).
Proof.
  intros I E. unfold returned. set (s1 := set_threads _ s).
  assert (Q : quiet s s1) by (apply (quiet_thread td (with_context _ _)); easy). pose proof (ginv_quiet _ _ _ Q I) as I1.
  apply (ginv_dropped td (fr_ev f) s1 G); [easy|rewrite (qu_queue _ _ Q); now apply (top_of s G td f fs)|intros x Hx; now apply upd_ne|].
  right. exists f. now rewrite upd_eq.
Qed.
Lemma return_ginv td s s' G : sig_return td s = Ok (tt, s') -> ginv s G -> ginv s' (upd G td (tl (G td))).
Proof.
  intros R I. destruct (G td) as [|f fs] eqn:E.
  - unfold sig_return in R. unfold bind at 1, gets at 1 in R. unfold bind at 1, gets at 1 in R. fold (queue s td) in R.
    now rewrite first_processing_active, (gi_active _ _ I), E in R.
  - destruct (top_of _ _ _ _ _ I E) as [Hf He]. rewrite (return_top td (fr_ev f) s Hf) in R by apply (si_q _ (gi_pool _ _ I) td _ He).
    injection R as <-. now apply returned_ginv.
Qed.
Lemma freetd_run n : forall td s G, ginv s G -> (length (queue s td) <= n)%nat -> exists s', sigevent_freetd_loop n td s = Ok (tt, s') /\ queue s' td = [] /\ ginv s' (upd G td []).
Proof.
  assert (Done : forall td s G, ginv s G -> queue s td = [] -> ginv s (upd G td [])).
  { intros td s G I Hq. apply (handlers_ext s G); [|easy]. intros x. unfold upd. destruct (Z.eqb_spec x td) as [-> |]; [|easy].
    pose proof (gi_active _ _ I td) as A. unfold active in A. rewrite Hq in A. now destruct (G td). }
  induction n as [|n IH]; intros td s G I Hl; cbn [sigevent_freetd_loop].
  { exists s. destruct (queue s td) eqn:E; [|easy]. split; [easy|]. split; [easy|now apply Done]. }
  unfold bind at 1, gets at 1. fold (queue s td). destruct (queue s td) as [|e r] eqn:E; [exists s; split; [easy|split; [easy|now apply Done]]|]. rewrite drop_run.
  assert (He : e ∈ queue s td) by (rewrite E; left). pose proof (si_q_nd _ (gi_pool _ _ I) td) as ND. rewrite E in ND.
  set (G1 := if processing s e then upd G td (tl (G td)) else G).
  assert (I1 : ginv (dropped td e s) G1).
  { apply (ginv_dropped td e s G); [easy|easy|intros x Hx; unfold G1; destruct (processing s e); [now apply upd_ne|easy]|].
    unfold G1. destruct (processing s e) eqn:Ep; [|now left]. right. rewrite upd_eq. pose proof (gi_active _ _ I td) as A. unfold active in A. rewrite E in A. cbn [List.filter] in A. rewrite Ep in A.
    destruct (G td) as [|f fs]; [easy|]. injection A as A _. now exists f. }
  pose proof (without_split e [] r ND) as W. cbn [app] in W.
  destruct (IH td _ _ I1) as (s' & R & Q & I'); [rewrite queue_dropped, Z.eqb_refl, E, W; cbn [length] in Hl; lia|].
  exists s'. split; [exact R|]. split; [exact Q|]. refine (handlers_ext _ _ _ _ I').
  intros x. unfold G1, upd. destruct (x =? td) eqn:Ex; [easy|]. destruct (processing s e); [now rewrite Ex|easy].
Qed.

(** *** Runs *)

(** The steps of the machine: the system calls, the signals the kernel sends,
    user code, checks, returns from handlers, exits. *)
Inductive sstep : sgst * (Z -> list frame) -> sgst * (Z -> list frame) -> Prop :=
  | st_tkill s G self tid sig r s' : sig <> 0 -> sys_tkill self tid sig s = Ok (r, s') -> sstep (s, G) (s', G)
  | st_kill s G self pid sig r s' : sys_kill self pid sig s = Ok (r, s') -> sstep (s, G) (s', G)
  | st_send_td s G td signo s' : 1 <= signo <= SIGNAL_MAX -> sig_send_td td signo s = Ok (tt, s') -> sstep (s, G) (s', G)
  | st_send_proc s G p signo s' : 1 <= signo <= SIGNAL_MAX -> sig_send_proc p signo s = Ok (tt, s') -> sstep (s, G) (s', G)
  | st_sigaction s G td signum act ub oldact size r s' : sys_sigaction td signum act ub oldact size s = Ok (r, s') -> sstep (s, G) (s', G)
  | st_sigprocmask s G td how set new junk oldset size r s' : sys_sigprocmask td how set new junk oldset size s = Ok (r, s') -> sstep (s, G) (s', G)
  | st_sigsuspend s G td set s' : sigsuspend_begin td set s = Ok (tt, s') -> sstep (s, G) (s', G)
  | st_actions_free s G p s' : sigaction_free p s = Ok (tt, s') -> sstep (s, G) (s', G)
  | st_actions_clone s G p child s' : sigaction_clone p child s = Ok (tt, s') -> sstep (s, G) (s', G)
  | st_user s G td tf s' : upd_tf td (fun _ => tf) s = Ok (tt, s') -> sstep (s, G) (s', G)
  | st_check s G td b s' : sig_check_all td s = Ok (b, s') -> sstep (s, G) (s', after_check s s' td G)
  | st_return s G td s' : sig_return td s = Ok (tt, s') -> sstep (s, G) (s', upd G td (tl (G td)))
  | st_exit s G td s' : sigevent_freetd td s = Ok (tt, s') -> sstep (s, G) (s', upd G td []).
(** At boot the pool is zero and nothing is queued. *)
Record booted (s : sgst) : Prop := { bo_free : s.(sigevent_freeq) = []; bo_queues : forall td, queue s td = []; bo_events : forall e, s.(sigevents) e = zero_se }.
Inductive sreach : sgst * (Z -> list frame) -> Prop :=
  | sr_init s : booted s -> sreach (sig_init s, fun _ => [])
  | sr_step a b : sreach a -> sstep a b -> sreach b.

(** Programs that leave events and queues alone. *)
Definition keeps {A} (c : M sgst A) : Prop := forall s a s', c s = Ok (a, s') -> quiet s s'.
Lemma keeps_ret {A} (a : A) : keeps (ret a).
Proof. intros s x s' [= _ <-]. apply quiet_refl. Qed.
Lemma keeps_gets {A} (f : sgst -> A) : keeps (gets f).
Proof. intros s x s' [= _ <-]. apply quiet_refl. Qed.
Lemma keeps_bind {A B} (c : M sgst A) (k : A -> M sgst B) : keeps c -> (forall a, keeps (k a)) -> keeps (bind c k).
Proof. intros Hc Hk s a s' H. minv H. apply Hc in E. apply Hk in H. eapply quiet_trans; eassumption. Qed.
Lemma keeps_massert b : keeps (massert b).
Proof. intros s x s'. unfold massert, ret, fail. destruct b; [intros [= _ <-]; apply quiet_refl|easy]. Qed.
Lemma keeps_actions (f : sgst -> Z -> Z) : keeps (modify (fun s => set_actions (f s) s)).
Proof. intros s x s' [= _ <-]. now constructor. Qed.
Lemma keeps_copy_out (a : Z) (f : sgst -> uobj) : keeps (modify (fun s => log_out a (f s) s)).
Proof. intros s x s' [= _ <-]. now constructor. Qed.
Lemma keeps_upd_td td f : (forall x, (f x).(td_sigqueue) = x.(td_sigqueue)) -> keeps (upd_td td f).
Proof. intros H s x s' [= _ <-]. now apply quiet_thread. Qed.
Lemma keeps_if {A} (b : bool) (c d : M sgst A) : keeps c -> keeps d -> keeps (if b then c else d).
Proof. now destruct b. Qed.
Lemma keeps_ginv {A} (c : M sgst A) s a s' G : keeps c -> c s = Ok (a, s') -> ginv s G -> ginv s' G.
Proof. intros K R. apply ginv_quiet. now apply (K s a). Qed.
Ltac keep := repeat first [apply keeps_ret | apply keeps_gets | apply keeps_massert | apply keeps_actions
  | apply (keeps_copy_out _ (fun _ => _)) | apply keeps_copy_out | apply keeps_upd_td; intros; reflexivity | apply keeps_if | apply keeps_bind; [|intros]].
Lemma keeps_sigaction td signum act ub oldact size : keeps (sys_sigaction td signum act ub oldact size).
Proof. unfold sys_sigaction, sigaction_register. keep. Qed.
Lemma keeps_sigprocmask td how set new junk oldset size : keeps (sys_sigprocmask td how set new junk oldset size).
Proof. unfold sys_sigprocmask. keep. Qed.
Lemma tkill_ginv self tid sig r s s' G : sig <> 0 -> sys_tkill self tid sig s = Ok (r, s') -> ginv s G -> ginv s' G.
Proof.
  intros Hs. unfold sys_tkill. destruct (_ || _) eqn:E; [now intros [= _ <-]|]. apply orb_false_iff in E as [E1 E2]. rewrite Z.ltb_ge in E1. rewrite Z.leb_gt in E2.
  unfold bind at 1, gets at 1. unfold bind at 1, gets at 1. destruct (negb _); [now intros [= _ <-]|]. intros H. minv H. injection H as _ <-. destruct x. now apply (send_td_ginv (Z.land (if tid =? 0 then td_tid (threads s self) else tid) 65535) sig); [lia|].
Qed.
Lemma kill_ginv self pid sig r s s' G : sys_kill self pid sig s = Ok (r, s') -> ginv s G -> ginv s' G.
Proof.
  unfold sys_kill. destruct (_ || _) eqn:E; [now intros [= _ <-]|]. apply orb_false_iff in E as [E1 E2]. rewrite Z.ltb_ge in E1. rewrite Z.leb_gt in E2.
  unfold bind at 1, gets at 1. unfold bind at 1, gets at 1. unfold bind at 1, gets at 1. destruct (negb _); [destruct (_ =? 10); now intros [= _ <-]|].
  destruct (Z.eqb_spec sig 0) as [-> |Hs]; [now intros [= _ <-]|]. intros H. minv H. injection H as _ <-. destruct x.
  eapply send_proc_ginv; [|exact E]. lia.
Qed.
Lemma init_loop_in n : forall q x, x ∈ sig_init_loop n q <-> 1 <= x <= Z.of_nat n \/ x ∈ q.
Proof.
  induction n as [|n IH]; intros q x; cbn [sig_init_loop]; [split; [now right|intros [|]; [lia|easy]]|]. rewrite IH, elem_of_cons. split; [intros [|[|]]; [left; lia|left; lia|now right]|].
  intros [|]; [|tauto]. destruct (Z.eq_dec x (Z.of_nat (S n))); [tauto|left; lia].
Qed.
Lemma init_loop_nodup n : forall q, NoDup q -> (forall x, x ∈ q -> Z.of_nat n < x) -> NoDup (sig_init_loop n q).
Proof.
  induction n as [|n IH]; intros q ND H; cbn [sig_init_loop]; [easy|]. apply IH; [constructor; [intros Hn; apply H in Hn; lia|easy]|].
  intros x. rewrite elem_of_cons. intros [-> | Hx]; [lia|apply H in Hx; lia].
Qed.
Lemma ginv_init s : booted s -> ginv (sig_init s) (fun _ => []).
Proof.
  intros [Bf Bq Be]. assert (Q : forall td, queue (sig_init s) td = []) by apply Bq. constructor.
  - constructor; unfold sig_init; cbn [sigevent_freeq sigevents set_actions set_freeq]; rewrite ?Bf.
    + apply init_loop_nodup; [constructor|]. intros x Hx. now apply elem_of_nil in Hx.
    + intros e. rewrite init_loop_in, elem_of_nil, Be. unfold event. change (Z.of_nat (Z.to_nat NSIGEVENTS)) with NSIGEVENTS. intros [|]; easy.
    + intros td. change (NoDup (queue s td)). rewrite Bq. constructor.
    + intros td e He. change (e ∈ queue s td) in He. rewrite Bq in He. now apply elem_of_nil in He.
    + intros td td' e He. change (e ∈ queue s td) in He. rewrite Bq in He. now apply elem_of_nil in He.
    + intros e He. left. apply init_loop_in. now left.
  - intros td. unfold active. now rewrite Q.
  - intros td f Hf. now apply elem_of_nil in Hf.
Qed.
Lemma step_ginv a b : sstep a b -> ginv (fst a) (snd a) -> ginv (fst b) (snd b).
Proof.
  intros S I. destruct S; cbn [fst snd] in *.
  - eapply tkill_ginv; eassumption.
  - eapply kill_ginv; eassumption.
  - eapply send_td_ginv; eassumption.
  - eapply send_proc_ginv; eassumption.
  - eapply keeps_ginv; [apply keeps_sigaction|eassumption..].
  - eapply keeps_ginv; [apply keeps_sigprocmask|eassumption..].
  - eapply keeps_ginv; [|eassumption..]. unfold sigsuspend_begin. keep.
  - eapply keeps_ginv; [|eassumption..]. unfold sigaction_free. keep.
  - eapply keeps_ginv; [|eassumption..]. unfold sigaction_clone. keep.
  - eapply keeps_ginv; [|eassumption..]. unfold upd_tf. keep.
  - destruct (check_all_run s td G I) as (b' & s1 & R & I'). assert (s1 = s') as <- by congruence. exact I'.
  - eapply return_ginv; eassumption.
  - unfold sigevent_freetd in *. unfold bind at 1, gets at 1 in H. fold (queue s td) in H. destruct (freetd_run (length (queue s td)) td s G I ltac:(lia)) as (s1 & R & _ & I'). assert (s1 = s') as <- by congruence. exact I'.
Qed.
Lemma reach_ginv s G : sreach (s, G) -> ginv s G.
Proof.
  intros R. change (ginv (fst (s, G)) (snd (s, G))). induction R; [now apply ginv_init|]. eapply step_ginv; eassumption.
Qed.

(** ** What holds of every run *)


(** C25. [sig_check] always ends. A thread that was killed exits; otherwise the
    queue is searched from its newest event: blocked events are passed over, one
    in progress ends the search, one without a handler is dropped or, when it is
    [SIGKILL], [SIGTERM] or [SIGSEGV], kills; the first one with a handler has
    its context saved and the thread is sent to the handler. *)
Theorem sig_check_verdict s G td : sreach (s, G) ->
  let '(d, v) := check_spec s td (queue s td) in
  if (s.(threads) td).(td_killed) then sig_check_all td s = Ok (false, s)
  else exists s', sig_check_all td s = Ok (match v with Killed => false | _ => true end, s') /\ ends td v (drop_all td d s) s' /\ sreach (s', after_check s s' td G).
Proof.
  intros R. pose proof (reach_ginv _ _ R) as I. pose proof (sig_check_run (length (queue s td) + 2) s td (gi_pool _ _ I)) as C.
  destruct (check_spec s td (queue s td)) as [d v]. cbn [fst snd] in C. destruct (td_killed _) eqn:Hk.
  - unfold sig_check_all. unfold bind at 1, gets at 1. rewrite (Nat.add_comm (length _)). cbn [Nat.add sig_check]. unfold bind at 1, gets at 1. now rewrite Hk.
  - destruct (C eq_refl ltac:(lia)) as (s' & E & T). exists s'. split; [exact E|]. split; [exact T|]. eapply sr_step; [exact R|]. eapply st_check. exact E.
Qed.

(** C26. No event is lost or shared: in every reachable state each of the 512
    events is either free or in exactly one thread's queue, once; a signal can be
    sent exactly when one is free. *)
Theorem signal_events_conserved s G : sreach (s, G) ->
  (forall e, event e -> (e ∈ s.(sigevent_freeq) /\ forall td, e ∉ queue s td) \/ ((e ∉ s.(sigevent_freeq)) /\ exists td, e ∈ queue s td /\ forall x, e ∈ queue s x -> x = td)) /\
  NoDup s.(sigevent_freeq) /\ (forall td, NoDup (queue s td)) /\
  (forall td n, sig_send_td td n s = Err Panic <-> s.(sigevent_freeq) = []).
Proof.
  intros R. pose proof (gi_pool _ _ (reach_ginv _ _ R)) as I. split; [|split; [apply I|split; [apply I|]]].
  - intros e He. destruct (si_all _ I e He) as [H|[td H]].
    + left. split; [easy|]. intros td Ht. now apply (si_q _ I td e) in Ht as (_ & ? & _).
    + right. split; [now apply (si_q _ I td e)|]. exists td. split; [easy|]. intros x Hx. now apply (si_one _ I x td e).
  - intros td n. split; [|apply send_td_empty]. intros H. destruct (sigevent_freeq s) as [|e q] eqn:E; [easy|].
    destruct (send_td_run td n s e q E) as (s' & R' & _). congruence.
Qed.

(** *** The call [sigreturn] *)

Lemma sigreturn_run s G td f fs m pc : ginv s G -> G td = f :: fs -> (s.(threads) td).(td_sig) = f.(fr_ev) ->
  Z.land (sa_flags s.(sigactions) (action_of s td f.(fr_ev))) SA_SIGINFO = 0 ->
  sys_sigreturn td m pc s = Ok (sext32 f.(fr_tf).(a0), returned td f.(fr_ev) s).
Proof.
  intros I E Hsig Hfl. destruct (top_of _ _ _ _ _ I E) as [Hf He]. pose proof (si_q _ (gi_pool _ _ I) td _ He) as (Hev & _ & Hs). destruct (gi_saved _ _ I td f) as [S1 _]; [rewrite E; left|].
  unfold sys_sigreturn. unfold bind at 1, gets at 1. rewrite Hsig. replace (fr_ev f =? 0) with false by (symmetry; apply Z.eqb_neq; unfold event in Hev; lia).
  unfold bind at 1, ret at 1. unfold bind at 1, gets at 1. rewrite sigaction_get_run by easy. fold (signo_of s (fr_ev f)). fold (action_of s td (fr_ev f)).
  unfold bind at 1, gets at 1. rewrite Hfl. cbn [Z.eqb negb]. unfold bind at 1, ret at 1. rewrite (bind_run _ _ _ _ _ (return_top td (fr_ev f) s Hf Hs)). unfold bind, gets, ret.
  do 3 f_equal. unfold returned. rewrite dropped_thread. cbn [threads set_threads]. rewrite upd_eq. cbn [td_trapframe with_queue with_context]. now rewrite S1.
Qed.
Definition at_tf (td : Z) (g : trapframe_t -> trapframe_t) (s : sgst) : sgst :=
  set_threads (upd s.(threads) td (with_context (s.(threads) td).(td_cursigmask) (g (s.(threads) td).(td_trapframe)) (s.(threads) td))) s.
Lemma at_tf_reach s G td g : sreach (s, G) -> sreach (at_tf td g s, G).
Proof. intros R. eapply sr_step; [exact R|]. now apply (st_user _ _ td (g (td_trapframe (threads s td)))). Qed.
Lemma entry_run s G td f fs m pc : sreach (s, G) -> G td = f :: fs -> (s.(threads) td).(td_sig) = f.(fr_ev) ->
  Z.land (sa_flags s.(sigactions) (action_of s td f.(fr_ev))) SA_SIGINFO = 0 ->
  exists s1, syscall_entry td (sys_sigreturn td m pc) s = Ok (tt, at_tf td (set_a0 (wrap64 (sext32 f.(fr_tf).(a0)))) s1) /\
    (s1.(threads) td).(td_trapframe) = f.(fr_tf) /\ (s1.(threads) td).(td_cursigmask) = f.(fr_mask) /\ (s1.(threads) td).(td_sig) = f.(fr_ev) /\
    s1.(sigevents) f.(fr_ev) = zero_se /\ sreach (s1, upd G td fs).
Proof.
  intros R E Hsig Hfl. set (s0 := at_tf td (fun t => set_epc (wrap64 (epc t + 4)) t) s). assert (R0 : sreach (s0, G)) by now apply at_tf_reach. pose proof (reach_ginv _ _ R0) as I.
  assert (T0 : exists t, s0.(threads) td = with_context (s.(threads) td).(td_cursigmask) t (s.(threads) td)) by (eexists; unfold s0, at_tf; cbn [threads set_threads]; apply upd_eq). destruct T0 as [t T0].
  assert (Run : sys_sigreturn td m pc s0 = Ok (sext32 f.(fr_tf).(a0), returned td f.(fr_ev) s0)).
  { apply (sigreturn_run s0 G td f fs); [easy|easy|rewrite T0; exact Hsig|]. unfold action_of. rewrite T0. exact Hfl. }
  destruct (gi_saved _ _ I td f) as [S1 S2]; [rewrite E; left|]. exists (returned td f.(fr_ev) s0). split.
  { unfold syscall_entry. rewrite (bind_run _ _ s tt s0) by reflexivity. now rewrite (bind_run _ _ _ _ _ Run). }
  unfold returned at 1 2 3 4. rewrite dropped_thread. cbn [threads set_threads]. rewrite upd_eq. cbn [td_trapframe td_cursigmask td_sig with_queue with_context]. rewrite S1, S2, T0.
  split; [easy|]. split; [easy|]. split; [exact Hsig|]. split; [unfold dropped; cbn [sigevents set_freeq set_events]; apply upd_eq|].
  destruct (top_of _ _ _ _ _ I E) as [Hf He]. replace fs with (tl (G td)) by now rewrite E. eapply sr_step; [exact R0|]. apply st_return. apply return_top; [easy|apply (si_q _ (gi_pool _ _ I) td _ He)].
Qed.

(** The call that ends a handler without [SA_SIGINFO] brings the interrupted
    context back in all registers but one: [sys_sigreturn] returns [a0] as an
    [int], so [a0] comes back sign-extended from its low 32 bits. *)
Theorem sigreturn_restores s G td f fs m pc : sreach (s, G) -> G td = f :: fs -> (s.(threads) td).(td_sig) = f.(fr_ev) ->
  Z.land (sa_flags s.(sigactions) (action_of s td f.(fr_ev))) SA_SIGINFO = 0 ->
  exists s', syscall_entry td (sys_sigreturn td m pc) s = Ok (tt, s') /\
    (s'.(threads) td).(td_trapframe) = set_a0 (wrap64 (sext32 f.(fr_tf).(a0))) f.(fr_tf) /\ (s'.(threads) td).(td_cursigmask) = f.(fr_mask) /\ sreach (s', upd G td fs).
Proof.
  intros R E Hsig Hfl. destruct (entry_run s G td f fs m pc R E Hsig Hfl) as (s1 & Run & T1 & T2 & _ & _ & R1). eexists. split; [exact Run|].
  unfold at_tf at 1 2. cbn [threads set_threads]. rewrite upd_eq, T1, T2. split; [easy|]. split; [easy|]. now apply at_tf_reach.
Qed.
(** A defect: when a handler interrupted another one, the return of the
    inner one leaves [td_sig] at its freed event, so the outer handler's own
    [sigreturn] looks up the action of signal 0 and the kernel stops. *)
Theorem nested_sigreturn_panics s G td f g fs m pc : sreach (s, G) -> G td = f :: g :: fs -> (s.(threads) td).(td_sig) = f.(fr_ev) ->
  Z.land (sa_flags s.(sigactions) (action_of s td f.(fr_ev))) SA_SIGINFO = 0 ->
  exists s', syscall_entry td (sys_sigreturn td m pc) s = Ok (tt, s') /\ sreach (s', upd G td (g :: fs)) /\
    forall m' pc', syscall_entry td (sys_sigreturn td m' pc') s' = Err Panic.
Proof.
  intros R E Hsig Hfl. destruct (entry_run s G td f (g :: fs) m pc R E Hsig Hfl) as (s1 & Run & _ & _ & T3 & T4 & R1). eexists. split; [exact Run|]. split; [now apply at_tf_reach|].
  intros m' pc'. destruct (top_of _ _ _ _ _ (reach_ginv _ _ R) E) as [_ He]. pose proof (si_q _ (gi_pool _ _ (reach_ginv _ _ R)) td _ He) as ([He1 _] & _).
  unfold syscall_entry, sys_sigreturn. unfold bind at 1, upd_tf, upd_td, modify. unfold bind at 1, bind at 1, gets at 1. cbn [threads set_threads at_tf]. rewrite !upd_eq. cbn [td_sig with_context]. rewrite T3.
  replace (fr_ev f =? 0) with false by (symmetry; apply Z.eqb_neq; lia). unfold bind at 1, ret at 1. unfold bind at 1, gets at 1. cbn [sigevents set_threads at_tf]. now rewrite T4.
Qed.
End Check.

(** ** A run *)

(** Process 0 with thread 1; handlers at [0x1000] for signals 10 and 12. Signal 10
    interrupts the program with [a0 = 0x300000002], signal 12 the first handler. *)
Definition tf0 : trapframe_t := MkTf 65536 0 1048576 12884901890 3 4 (fun _ => 7).
Definition boot0 : sgst := MkSg (fun _ => zero_se) [] (fun _ => 0)
  (fun t => MkThr t 0 [] sigset_init sigset_init false 0 tf0) (fun p => MkPr p RUNNABLE [1]) [] [].
Lemma boot0_booted : booted boot0.
Proof. now constructor. Qed.
Definition ub0 (a : Z) : Z := if a =? 1 then 16 else 0.
Abbreviation chk := (sig_check_all 128 960).
Abbreviation reach0 := (sreach 128 960).
Definition run1 : sgst := after (sys_sigaction 1 10 4096 ub0 0 8) (sig_init boot0).
Definition run2 : sgst := after (sys_sigaction 1 12 4096 ub0 0 8) run1.
Definition run3 : sgst := after (sys_tkill 1 1 10) run2.
Definition run4 : sgst := after (chk 1) run3.
Definition run5 : sgst := after (sys_tkill 1 1 12) run4.
Definition run6 : sgst := after (chk 1) run5.
Definition G4 : Z -> list frame := after_check run3 run4 1 (fun _ => []).
Definition G6 : Z -> list frame := after_check run5 run6 1 G4.
Lemma reach3 : reach0 (run3, fun _ => []).
Proof.
  eapply sr_step; [eapply sr_step; [eapply sr_step; [apply sr_init, boot0_booted|]|]|].
  - apply (st_sigaction 128 960 _ _ 1 10 4096 ub0 0 8 0). runs (sys_sigaction 1 10 4096 ub0 0 8) (sig_init boot0) 0.
  - apply (st_sigaction 128 960 _ _ 1 12 4096 ub0 0 8 0). runs (sys_sigaction 1 12 4096 ub0 0 8) run1 0.
  - apply (st_tkill 128 960 _ _ 1 1 10 0); [lia|]. runs (sys_tkill 1 1 10) run2 0.
Qed.
Lemma reach4 : reach0 (run4, G4).
Proof. eapply sr_step; [exact reach3|]. apply (st_check 128 960 _ _ 1 true). runs (chk 1) run3 true. Qed.
Lemma reach6 : reach0 (run6, G6).
Proof.
  eapply sr_step; [eapply sr_step; [exact reach4|]|].
  - apply (st_tkill 128 960 _ _ 1 1 12 0); [lia|]. runs (sys_tkill 1 1 12) run4 0.
  - apply (st_check 128 960 _ _ 1 true). runs (chk 1) run5 true.
Qed.
Definition frame1 : frame := MkFrame 1 tf0 sigset_init.
Definition frame2 : frame := MkFrame 2 (run5.(threads) 1).(td_trapframe) (run5.(threads) 1).(td_cursigmask).
Lemma G4_frames : G4 1 = [frame1].
Proof. evals. Qed.
Lemma G6_frames : G6 1 = [frame2; frame1].
Proof. evals. Qed.

Lemma sig_check_verdict_witness : check_spec run3 1 (queue run3 1) = ([], Start 1) /\ exists s', chk 1 run3 = Ok (true, s') /\ begun 1 1 run3 s'.
Proof.
  split; [evals|]. pose proof (sig_check_verdict 128 960 run3 (fun _ => []) 1 reach3) as H.
  replace (check_spec run3 1 (queue run3 1)) with (@nil Z, Start 1) in H by evals. replace (td_killed (threads run3 1)) with false in H by evals.
  destruct H as (s' & A & B & _). exists s'. split; [exact A|exact B].
Defined.
Lemma signal_events_conserved_witness : NoDup run6.(sigevent_freeq) /\ (sig_send_td 1 10 run6 = Err Panic <-> run6.(sigevent_freeq) = []).
Proof. destruct (signal_events_conserved 128 960 run6 G6 reach6) as (_ & A & _ & B). split; [exact A|exact (B 1 10)]. Defined.
(** The program had [a0 = 0x300000002] and goes on with [a0 = 2]. *)
Lemma sigreturn_restores_witness : exists s', syscall_entry 1 (sys_sigreturn 1 [] 0) run4 = Ok (tt, s') /\ (s'.(threads) 1).(td_trapframe) = set_a0 2 tf0 /\ tf0.(a0) = 12884901890.
Proof.
  destruct (sigreturn_restores 128 960 run4 G4 1 frame1 [] [] 0 reach4 G4_frames) as (s' & A & B & _); [evals|evals|].
  exists s'. split; [exact A|]. split; [|evals]. rewrite B. evals.
Defined.
Lemma nested_sigreturn_panics_witness : exists s', syscall_entry 1 (sys_sigreturn 1 [] 0) run6 = Ok (tt, s') /\ forall m pc, syscall_entry 1 (sys_sigreturn 1 m pc) s' = Err Panic.
Proof.
  destruct (nested_sigreturn_panics 128 960 run6 G6 1 frame2 frame1 [] [] 0 reach6 G6_frames) as (s' & A & _ & B); [evals|evals|].
  exists s'. split; [exact A|exact B].
Defined.

(** ** Defects *)

(** [tkill] with signal 0 queues an event that the next check cannot handle. *)
Lemma tkill_zero_panics : exists s', sys_tkill 1 1 0 (sig_init boot0) = Ok (0, s') /\ chk 1 s' = Err Panic.
Proof. exists (after (sys_tkill 1 1 0) (sig_init boot0)). split; [runs (sys_tkill 1 1 0) (sig_init boot0) 0|evals]. Qed.
(** [sigaction] does not check the size of the mask: with 56 bytes the call for
    signal 10 also sets the handler of signal 11. *)
Lemma sigaction_size_overwrites : exists s', sys_sigaction 1 10 4096 (fun a => if a =? 41 then 32 else ub0 a) 0 56 (sig_init boot0) = Ok (0, s') /\
  sa_handler s'.(sigactions) (action_addr 0 11) = 8192 /\ sa_handler (sig_init boot0).(sigactions) (action_addr 0 11) = 0.
Proof.
  pose (c := sys_sigaction 1 10 4096 (fun a => if a =? 41 then 32 else ub0 a) 0 56). exists (after c (sig_init boot0)). split; [runs c (sig_init boot0) 0|]. split; evals.
Qed.
(** [sigsuspend] in a handler finds the event in progress, and when the mask it is
    given blocks that signal, as is usual, its assertion fails. *)
Lemma sigsuspend_in_handler_panics : let s := after (sigsuspend_begin 1 (<[1%nat := 2]> sigset_init)) run4 in
  sigset_bit (<[1%nat := 2]> sigset_init) (10 - 1) = true /\ sigsuspend_poll 1 s = Err Panic.
Proof. split; evals. Qed.
Fixpoint tkills (n : nat) (self tid sig : Z) : M sgst unit :=
  match n with O => ret tt | S n' => (let* _ := sys_tkill self tid sig in tkills n' self tid sig) end.
(** Signals a thread does not take stay in the pool: 512 calls of [tkill] use it
    up and the next signal anyone sends stops the kernel. *)
Lemma tkill_flood_panics : exists s', tkills 512 1 2 10 (sig_init boot0) = Ok (tt, s') /\ sig_send_td 3 17 s' = Err Panic.
Proof. exists (after (tkills 512 1 2 10) (sig_init boot0)). split; [runs (tkills 512 1 2 10) (sig_init boot0) tt|evals]. Qed.
