(* ===== verification/ITimer.v ===== *)
(** * Clocks and interval timers

    [src/kern/dev/timer.c] (the conversions of the cycle counter),
    [src/kern/signal/itimer.c] and the calls [sys_setitimer] and [sys_getitimer]
    of [src/kern/syscall/sys_signal.c].  A timer is a block of the heap, linked
    at the head of one list; a tick sends [SIGALRM] to the threads whose timers
    ran out, with the signals of [Signal].

    The frequency of the counter is a parameter, one of the two in
    [src/include/feature.h]; the counter is an argument of the operations that
    read it.  Blocks are numbered; [kmalloc] is an interface: a block that is in
    nobody's use. *)

From S2P Require Import Prelude Bytes Sched Signal.
From Stdlib Require Import ZArith Lia Bool.
From stdpp Require Import base tactics numbers list.
Open Scope Z_scope.

(** ** Time *)

Definition USEC_PER_SEC : Z := 1000000.
Definition NSEC_PER_SEC : Z := 1000000000.
Record timeval_t : Type := MkTv { tv_sec : Z; tv_usec : Z }.
Record timespec_t : Type := MkTs { ts_sec : Z; ts_nsec : Z }.

Section Time.
Context (CLOCK_PER_SEC : Z).

Definition CLOCK_PER_USEC : Z := CLOCK_PER_SEC / USEC_PER_SEC.
Definition NSEC_PER_CLOCK : Z := NSEC_PER_SEC / CLOCK_PER_SEC.
Definition CLOCK_TO_NSEC (clk : Z) : Z := wrap64 (clk * NSEC_PER_CLOCK).
Definition CLOCK_TO_USEC (clk : Z) : Z := clk / CLOCK_PER_USEC.
Definition CLOCK_TO_SEC (clk : Z) : Z := clk / CLOCK_PER_SEC.
Definition RTC_CLOCK_CNT_OFFSET : Z := 1000 * CLOCK_PER_SEC.
(** [rdtime] is what the counter shows. *)
Definition time_mono_clock (rdtime : Z) : Z := rdtime.
Definition time_rtc_clock (rdtime : Z) : Z := wrap64 (time_mono_clock rdtime + RTC_CLOCK_CNT_OFFSET).
Definition time_mono_ns (rdtime : Z) : Z := CLOCK_TO_NSEC (time_mono_clock rdtime).
Definition time_mono_us (rdtime : Z) : Z := CLOCK_TO_USEC (time_mono_clock rdtime).
Definition time_rtc_ns (rdtime : Z) : Z := CLOCK_TO_NSEC (time_rtc_clock rdtime).
Definition time_rtc_us (rdtime : Z) : Z := CLOCK_TO_USEC (time_rtc_clock rdtime).
Definition time_rtc_tv (rdtime : Z) : timeval_t :=
  let clk := time_rtc_clock rdtime in MkTv (CLOCK_TO_SEC clk) (CLOCK_TO_USEC clk mod USEC_PER_SEC).
Definition time_mono_tv (rdtime : Z) : timeval_t :=
  let clk := time_mono_clock rdtime in MkTv (CLOCK_TO_SEC clk) (CLOCK_TO_USEC clk mod USEC_PER_SEC).
Definition time_rtc_ts (rdtime : Z) : timespec_t :=
  let clk := time_rtc_clock rdtime in MkTs (CLOCK_TO_SEC clk) (CLOCK_TO_NSEC clk mod NSEC_PER_SEC).
Definition time_mono_ts (rdtime : Z) : timespec_t :=
  let clk := time_mono_clock rdtime in MkTs (CLOCK_TO_SEC clk) (CLOCK_TO_NSEC clk mod NSEC_PER_SEC).
Definition TV_USEC (tv : timeval_t) : Z := wrap64 (tv.(tv_sec) * USEC_PER_SEC + tv.(tv_usec)).
Definition TS_USEC (ts : timespec_t) : Z := wrap64 (ts.(ts_sec) * USEC_PER_SEC + ts.(ts_nsec) / (NSEC_PER_SEC / USEC_PER_SEC)).

Definition cycle_to_timeval (cycles : Z) : timeval_t := MkTv (cycles / CLOCK_PER_SEC) ((cycles / CLOCK_PER_USEC) mod USEC_PER_SEC).
Definition timeval_to_cycle (val : timeval_t) : Z := wrap64 (val.(tv_sec) * CLOCK_PER_SEC + val.(tv_usec) * CLOCK_PER_USEC).
End Time.

(** ** Data *)

Record itimerval : Type := MkItv { it_interval : timeval_t; it_value : timeval_t }.
Record itimer_info_t : Type := MkIt { it_start : Z; it_last_time : Z; it_period : Z; it_td : Z }.
Record itst : Type := MkItst { it_block : Z -> itimer_info_t; itimer_head : list Z; it_signals : sgst }.
Definition set_block f t := MkItst f t.(itimer_head) t.(it_signals).
Definition set_head l t := MkItst t.(it_block) l t.(it_signals).
Definition set_signals g t := MkItst t.(it_block) t.(itimer_head) g.
Definition upd_it (it : Z) (f : itimer_info_t -> itimer_info_t) : M itst unit := modify (fun t => set_block (upd t.(it_block) it (f (t.(it_block) it))) t).
Definition with_start n x := MkIt n x.(it_last_time) x.(it_period) x.(it_td).
Definition with_last n x := MkIt x.(it_start) n x.(it_period) x.(it_td).
Definition with_period n x := MkIt x.(it_start) x.(it_last_time) n x.(it_td).
Definition with_owner td x := MkIt x.(it_start) x.(it_last_time) x.(it_period) td.
Definition on_signals {A} (c : M sgst A) : M itst A :=
  fun t => match c t.(it_signals) with Ok (a, g) => Ok (a, set_signals g t) | Err f => Err f end.
Definition SIGALRM : Z := 14.

(** What the heap promises: a block that no timer uses. *)
Class TimerHeap : Type := { it_fresh : list Z -> Z; it_fresh_ok : forall l, it_fresh l ∉ l }.

(** ** Operations *)

Section Timers.
Context (CLOCK_PER_SEC : Z) `{TimerHeap}.

Definition itimer_init (t : itst) : itst := set_head [] t.
(** [LIST_FOREACH] up to the thread's timer. *)
Fixpoint find_timer (t : itst) (td : Z) (l : list Z) : option Z :=
  match l with [] => None | it :: l' => if (t.(it_block) it).(it_td) =? td then Some it else find_timer t td l' end.
Definition itimer_get (now td : Z) : M itst itimerval :=
  let* o := gets (fun t => find_timer t td t.(itimer_head)) in
  match o with
  | Some it =>
      let* x := gets (fun t => t.(it_block) it) in
      ret (MkItv (cycle_to_timeval CLOCK_PER_SEC x.(it_period)) (cycle_to_timeval CLOCK_PER_SEC (wrap64 (x.(it_start) + x.(it_last_time) - now))))
  | None => ret (MkItv (cycle_to_timeval CLOCK_PER_SEC 0) (cycle_to_timeval CLOCK_PER_SEC 0))
  end.
(** [kfree] leaves the block's bytes alone. *)
Definition itimer_remove (it : Z) : M itst unit := modify (fun t => set_head (without it t.(itimer_head)) t).
Definition itimer_alloc : M itst Z :=
  let* l := gets itimer_head in
  let it := it_fresh l in modify (set_head (it :: l)) ;;; ret it.
Definition itimer_update (now td : Z) (itv : itimerval) : M itst unit :=
  let start := now in
  let last_time := timeval_to_cycle CLOCK_PER_SEC itv.(it_value) in
  let interval := timeval_to_cycle CLOCK_PER_SEC itv.(it_interval) in
  let* o := gets (fun t => find_timer t td t.(itimer_head)) in
  match o with
  | Some it =>
      (if last_time =? 0 then itimer_remove it
       else upd_it it (with_start start) ;;; upd_it it (with_last last_time)) ;;;
      upd_it it (with_period interval)
  | None =>
      if negb (last_time =? 0) then
        let* it := itimer_alloc in
        upd_it it (with_owner td) ;;; upd_it it (with_start start) ;;; upd_it it (with_last last_time) ;;; upd_it it (with_period interval)
      else ret tt
  end.
Definition itimer_cancel (now td : Z) : M itst unit := itimer_update now td (MkItv (MkTv 0 0) (MkTv 0 0)).

(** [LIST_NEXT]. *)
Fixpoint it_next (it : Z) (l : list Z) : option Z :=
  match l with [] => None | x :: l' => if x =? it then hd_error l' else it_next it l' end.
(** [n] bounds the turns of the loop; the list's length is enough. *)
Fixpoint itimer_check_loop (n : nat) (now : Z) (o : option Z) : M itst unit :=
  match o with
  | None => ret tt
  | Some it =>
      match n with
      | O => fail NoFuel
      | S n' =>
          let* x := gets (fun t => t.(it_block) it) in
          if wrap64 (x.(it_start) + x.(it_last_time)) <=? now then
            on_signals (sig_send_td x.(it_td) SIGALRM) ;;;
            let* x := gets (fun t => t.(it_block) it) in
            if negb (x.(it_period) =? 0) then
              upd_it it (with_last x.(it_period)) ;;;
              upd_it it (with_start now) ;;;
              let* tmp := gets (fun t => it_next it t.(itimer_head)) in
              itimer_check_loop n' now tmp
            else
              let* tmp := gets (fun t => it_next it t.(itimer_head)) in
              itimer_remove it ;;;
              itimer_check_loop n' now tmp
          else
            let* tmp := gets (fun t => it_next it t.(itimer_head)) in
            itimer_check_loop n' now tmp
      end
  end.
Definition itimer_check (now : Z) : M itst unit :=
  let* l := gets itimer_head in itimer_check_loop (length l) now (hd_error l).

(** The calls; a pointer that is not null is [Some]. *)
Definition sys_setitimer (now1 now2 td : Z) (new_value : option itimerval) (old_value : bool) : M itst (option itimerval) :=
  let* old := (if old_value then (let* v := itimer_get now1 td in ret (Some v)) else ret None) in
  (match new_value with Some new => itimer_update now2 td new | None => ret tt end) ;;;
  ret old.
Definition sys_getitimer (now td : Z) : M itst itimerval := itimer_get now td.
End Timers.

(** ** Time is consistent *)

Section TimeLemmas.
Context (F : Z) (F_ok : F = 10000000 \/ F = 1000000).

Lemma per_usec : F = CLOCK_PER_USEC F * USEC_PER_SEC /\ 0 < CLOCK_PER_USEC F.
Proof. destruct F_ok as [-> | ->]; now split. Qed.
Lemma per_clock : NSEC_PER_SEC = NSEC_PER_CLOCK F * F /\ 0 < NSEC_PER_CLOCK F /\ 0 < F.
Proof. destruct F_ok as [-> | ->]; now split. Qed.

Definition normal (v : timeval_t) : Prop := 0 <= v.(tv_sec) /\ 0 <= v.(tv_usec) < USEC_PER_SEC /\ v.(tv_sec) * F + v.(tv_usec) * CLOCK_PER_USEC F < 2 ^ 64.
Lemma timeval_cycles v : normal v -> timeval_to_cycle F v = v.(tv_sec) * F + v.(tv_usec) * CLOCK_PER_USEC F /\ 0 <= timeval_to_cycle F v < 2 ^ 64.
Proof.
  intros (H1 & H2 & H3). pose proof per_usec as [E P]. unfold timeval_to_cycle, wrap64. rewrite Z.mod_small; [nia|]. split; [nia|]. exact H3.
Qed.
Lemma timeval_roundtrip v : normal v -> cycle_to_timeval F (timeval_to_cycle F v) = v.
Proof.
  intros N. destruct (timeval_cycles v N) as [-> _]. destruct N as (H1 & H2 & H3). pose proof per_usec as [E P]. destruct v as [s u]. cbn [tv_sec tv_usec] in *. unfold cycle_to_timeval. f_equal.
  - symmetry. apply (Z.div_unique _ _ _ (u * CLOCK_PER_USEC F)); [left; nia|ring].
  - replace (s * F + u * CLOCK_PER_USEC F) with ((s * USEC_PER_SEC + u) * CLOCK_PER_USEC F) by (transitivity (s * (CLOCK_PER_USEC F * USEC_PER_SEC) + u * CLOCK_PER_USEC F); [ring|now rewrite <- E]). rewrite Z.div_mul by lia.
    rewrite Z.add_comm, Z.mod_add by easy. apply Z.mod_small. lia.
Qed.
(** The clocks agree: for a counter below the point where nanoseconds
    overflow 64 bits, [time_mono_ts] and [time_mono_tv] are the nanoseconds and
    the microseconds of the counter with the fraction in range, and the counter
    that moves on never makes them go back. *)
Theorem clock_conversions r r' : 0 <= r <= r' -> r' * NSEC_PER_CLOCK F < 2 ^ 64 ->
  let ts := time_mono_ts F r in let tv := time_mono_tv F r in
  ts.(ts_sec) * NSEC_PER_SEC + ts.(ts_nsec) = time_mono_ns F r /\ 0 <= ts.(ts_nsec) < NSEC_PER_SEC /\
  tv.(tv_sec) * USEC_PER_SEC + tv.(tv_usec) = time_mono_us F r /\ 0 <= tv.(tv_usec) < USEC_PER_SEC /\
  time_mono_ns F r <= time_mono_ns F r' /\ time_mono_us F r <= time_mono_us F r' /\ cycle_to_timeval F r = tv.
Proof.
  intros Hr Hb. pose proof per_usec as [E P]. pose proof per_clock as (E' & P' & PF). cbn zeta. unfold time_mono_ts, time_mono_tv, time_mono_ns, time_mono_us, time_mono_clock, cycle_to_timeval, CLOCK_TO_SEC, CLOCK_TO_USEC, CLOCK_TO_NSEC, wrap64.
  cbn [ts_sec ts_nsec tv_sec tv_usec]. rewrite !Z.mod_small with (b := 2 ^ 64) by nia.
  split; [|split; [apply Z.mod_pos_bound; easy|split; [|split; [apply Z.mod_pos_bound; easy|split; [nia|split; [apply Z.div_le_mono; lia|reflexivity]]]]]].
  - replace (r / F) with (r * NSEC_PER_CLOCK F / NSEC_PER_SEC); [rewrite (Z.div_mod (r * NSEC_PER_CLOCK F) NSEC_PER_SEC) at 3 by easy; ring|].
    rewrite E', (Z.mul_comm (NSEC_PER_CLOCK F) F). apply Z.div_mul_cancel_r; lia.
  - replace (r / F) with (r / CLOCK_PER_USEC F / USEC_PER_SEC) by (rewrite Z.div_div by (lia || easy); now rewrite <- E).
    rewrite (Z.div_mod (r / CLOCK_PER_USEC F) USEC_PER_SEC) at 3 by easy. ring.
Qed.
End TimeLemmas.
Lemma clock_conversions_witness : let ts := time_mono_ts 10000000 12345678 in ts.(ts_sec) * NSEC_PER_SEC + ts.(ts_nsec) = time_mono_ns 10000000 12345678.
Proof. apply (clock_conversions 10000000 (or_introl eq_refl) 12345678 12345678); [lia|evals]. Defined.

(** ** The list of timers *)

Section TimerLemmas.
Context (F : Z) (F_ok : F = 10000000 \/ F = 1000000) `{TimerHeap}.
Abbreviation update := (itimer_update F).
Abbreviation get := (itimer_get F).

Definition owners (t : itst) : list Z := map (fun it => (t.(it_block) it).(it_td)) t.(itimer_head).
(** One timer per thread, each linked once. *)
Record twf (t : itst) : Prop := { tw_nd : NoDup t.(itimer_head); tw_owners : NoDup (owners t) }.
Lemma find_timer_spec t td l : match find_timer t td l with
  | Some it => it ∈ l /\ (t.(it_block) it).(it_td) = td
  | None => td ∉ map (fun it => (t.(it_block) it).(it_td)) l
  end.
Proof.
  induction l as [|it l IH]; cbn [find_timer map]; [apply not_elem_of_nil|]. destruct (Z.eqb_spec (it_td (it_block t it)) td) as [E|E]; [split; [left|easy]|].
  destruct (find_timer t td l); [split; [right|]; apply IH|]. rewrite not_elem_of_cons. split; [congruence|exact IH].
Qed.
Lemma find_timer_found t td l it : it ∈ l -> NoDup (map (fun it => (t.(it_block) it).(it_td)) l) -> (t.(it_block) it).(it_td) = td -> find_timer t td l = Some it.
Proof.
  induction l as [|x l IH]; intros Hi ND E; [now apply elem_of_nil in Hi|]. cbn [find_timer map] in *. apply NoDup_cons in ND as [N1 N2]. apply elem_of_cons in Hi as [-> | Hi].
  - now rewrite E, Z.eqb_refl.
  - destruct (Z.eqb_spec (it_td (it_block t x)) td) as [E'|]; [|now apply IH]. exfalso. apply N1. rewrite E', <- E. apply list_elem_of_In, List.in_map_iff. exists it. split; [easy|now apply list_elem_of_In].
Qed.

(** The state after an update: the thread's timer is gone, set, or new. *)
Definition rearmed (td now : Z) (itv : itimerval) : itimer_info_t := MkIt now (timeval_to_cycle F itv.(it_value)) (timeval_to_cycle F itv.(it_interval)) td.
Lemma update_run now td itv t : exists t', update now td itv t = Ok (tt, t') /\ t'.(it_signals) = t.(it_signals) /\
  match find_timer t td t.(itimer_head) with
  | Some it => (forall x, x <> it -> t'.(it_block) x = t.(it_block) x) /\
      if timeval_to_cycle F itv.(it_value) =? 0 then t'.(itimer_head) = without it t.(itimer_head) /\ (t'.(it_block) it).(it_period) = timeval_to_cycle F itv.(it_interval)
      else t'.(itimer_head) = t.(itimer_head) /\ t'.(it_block) it = rearmed td now itv
  | None => if timeval_to_cycle F itv.(it_value) =? 0 then t' = t
      else let it := it_fresh t.(itimer_head) in t'.(itimer_head) = it :: t.(itimer_head) /\ t'.(it_block) it = rearmed td now itv /\ forall x, x <> it -> t'.(it_block) x = t.(it_block) x
  end.
Proof.
  unfold itimer_update. unfold bind at 1, gets at 1. pose proof (find_timer_spec t td (itimer_head t)) as Fs. destruct (find_timer t td (itimer_head t)) as [it|].
  - destruct Fs as [_ Ht]. destruct (_ =? 0); (eexists; split; [reflexivity|]; split; [reflexivity|]; cbn [it_block itimer_head set_block set_head]; split; [intros x Hx; now rewrite !upd_ne|]; split; [reflexivity|]).
    + now rewrite upd_eq.
    + rewrite !upd_eq. unfold rearmed. now rewrite <- Ht.
  - destruct (_ =? 0); cbn [negb]; (eexists; split; [reflexivity|]); [easy|]. split; [reflexivity|]. cbn zeta. split; [reflexivity|]. cbn [it_block set_block set_head]. split; [now rewrite !upd_eq|]. intros x Hx. now rewrite !upd_ne.
Qed.
Lemma owners_ext t t' l : (forall it, it ∈ l -> (t'.(it_block) it).(it_td) = (t.(it_block) it).(it_td)) ->
  map (fun it => (t'.(it_block) it).(it_td)) l = map (fun it => (t.(it_block) it).(it_td)) l.
Proof. intros E. apply map_ext_in. intros it Hi. apply E. now apply list_elem_of_In. Qed.
Lemma map_sublist_nodup {B} (g : Z -> B) (p : Z -> bool) l : NoDup (map g l) -> NoDup (map g (List.filter p l)).
Proof.
  induction l as [|x l IH]; intros ND; [easy|]. cbn [map List.filter] in *. apply NoDup_cons in ND as [N1 N2]. destruct (p x); [|now apply IH]. cbn [map]. constructor; [|now apply IH].
  intros Hx. apply N1. apply list_elem_of_In, List.in_map_iff in Hx as (y & E & Hy). apply List.filter_In in Hy as [Hy _]. apply list_elem_of_In, List.in_map_iff. now exists y.
Qed.
Lemma update_twf now td itv t t' : twf t -> update now td itv t = Ok (tt, t') -> twf t'.
Proof.
  intros [ND NO] R. destruct (update_run now td itv t) as (t1 & R1 & _ & U). assert (t1 = t') as -> by congruence. clear R R1.
  pose proof (find_timer_spec t td (itimer_head t)) as Fs. destruct (find_timer t td (itimer_head t)) as [it|].
  - destruct U as [Ho U], Fs as [Hi Ht]. destruct (_ =? 0).
    + destruct U as [Hh _]. constructor; unfold owners; rewrite Hh; [now apply filter_NoDup|]. rewrite (owners_ext t); [now apply map_sublist_nodup|].
      intros x Hx. apply without_in in Hx as [_ Hx]. now rewrite Ho.
    + destruct U as [Hh Hb]. constructor; unfold owners; rewrite Hh; [easy|]. rewrite (owners_ext t); [easy|]. intros x _. destruct (Z.eq_dec x it) as [-> | Hx]; [now rewrite Hb, Ht|now rewrite Ho].
  - destruct (_ =? 0); [now subst|]. destruct U as (Hh & Hb & Ho). pose proof (it_fresh_ok (itimer_head t)) as Hf. constructor; unfold owners; rewrite Hh; [now constructor|]. cbn [map]. rewrite Hb.
    rewrite (owners_ext t); [now constructor|]. intros x Hx. rewrite Ho; [easy|]. congruence.
Qed.

(** The timer of a thread. *)
Definition timer_of (t : itst) (td : Z) : option itimer_info_t := option_map t.(it_block) (find_timer t td t.(itimer_head)).
Lemma timer_of_some t it : twf t -> it ∈ t.(itimer_head) -> timer_of t (t.(it_block) it).(it_td) = Some (t.(it_block) it).
Proof. intros W Hi. unfold timer_of. now rewrite (find_timer_found _ _ _ it Hi (tw_owners _ W) eq_refl). Qed.
Lemma timer_of_none t td : (forall it, it ∈ t.(itimer_head) -> (t.(it_block) it).(it_td) <> td) -> timer_of t td = None.
Proof. intros N. unfold timer_of. pose proof (find_timer_spec t td (itimer_head t)) as Fs. destruct (find_timer _ _ _) as [it|]; [|easy]. destruct Fs as [Hi E]. now apply N in E. Qed.
Lemma timer_of_other t t' x : twf t -> twf t' ->
  (forall it, it ∈ t.(itimer_head) -> (t.(it_block) it).(it_td) = x -> it ∈ t'.(itimer_head) /\ t'.(it_block) it = t.(it_block) it) ->
  (forall it, it ∈ t'.(itimer_head) -> (t'.(it_block) it).(it_td) = x -> it ∈ t.(itimer_head) /\ (t.(it_block) it).(it_td) = x) -> timer_of t' x = timer_of t x.
Proof.
  intros W W' A B. pose proof (find_timer_spec t x (itimer_head t)) as Fs. unfold timer_of at 2. destruct (find_timer t x (itimer_head t)) as [it|]; cbn [option_map].
  - destruct Fs as [Hi E]. destruct (A it Hi E) as [Hi' E']. rewrite <- E', <- E, <- E' at 1. now apply timer_of_some.
  - apply timer_of_none. intros it Hi E. destruct (B it Hi E) as [Hi' E']. apply Fs. rewrite <- E'. apply list_elem_of_In, List.in_map_iff. exists it. split; [easy|now apply list_elem_of_In].
Qed.
Lemma update_timers now td itv t t' : twf t -> update now td itv t = Ok (tt, t') ->
  timer_of t' td = (if timeval_to_cycle F itv.(it_value) =? 0 then None else Some (rearmed td now itv)) /\ forall x, x <> td -> timer_of t' x = timer_of t x.
Proof.
  intros W R. pose proof (update_twf _ _ _ _ _ W R) as W'. destruct (update_run now td itv t) as (t1 & R1 & _ & U). assert (t1 = t') as -> by congruence. clear R R1.
  assert (Me : forall it, it ∈ t'.(itimer_head) -> t'.(it_block) it = rearmed td now itv -> timer_of t' td = Some (rearmed td now itv)).
  { intros it Hi E. pose proof (timer_of_some t' it W' Hi) as T. now rewrite E in T. }
  pose proof (find_timer_spec t td (itimer_head t)) as Fs. destruct (find_timer t td (itimer_head t)) as [it|] eqn:Ef.
  - destruct U as [Ho U], Fs as [Hi Ht]. destruct (_ =? 0); destruct U as [Hh Hb].
    + split.
      * apply timer_of_none. rewrite Hh. intros x Hx E. apply without_in in Hx as [Hx Hne]. rewrite Ho in E by easy. rewrite (find_timer_found t td _ x Hx (tw_owners _ W) E) in Ef. congruence.
      * intros x Hx. apply timer_of_other; [easy|easy| |]; rewrite Hh; intros y Hy E; (assert (y <> it) by (intros ->; first [congruence|apply without_in in Hy; tauto])); rewrite ?Ho in * by easy; rewrite without_in in *; tauto.
    + split; [apply (Me it); [now rewrite Hh|easy]|]. intros x Hx. apply timer_of_other; [easy|easy| |]; rewrite Hh; intros y Hy E; (assert (y <> it) by (intros ->; rewrite ?Hb in E; cbn [it_td rearmed] in E; congruence)); rewrite ?Ho in * by easy; easy.
  - destruct (_ =? 0); [subst; unfold timer_of at 1; now rewrite Ef|]. destruct U as (Hh & Hb & Ho). pose proof (it_fresh_ok (itimer_head t)) as Hf.
    split; [apply (Me (it_fresh (itimer_head t))); [rewrite Hh; left|easy]|]. intros x Hx. apply timer_of_other; [easy|easy| |]; rewrite Hh; intros y.
    + intros Hy E. rewrite Ho by congruence. split; [now right|easy].
    + rewrite elem_of_cons. intros [-> | Hy] E; [rewrite Hb in E; cbn [it_td rearmed] in E; congruence|]. rewrite Ho in E by congruence. easy.
Qed.
(** What [getitimer] gives for a timer. *)
Definition reading (now : Z) (o : option itimer_info_t) : itimerval :=
  match o with
  | Some x => MkItv (cycle_to_timeval F x.(it_period)) (cycle_to_timeval F (wrap64 (x.(it_start) + x.(it_last_time) - now)))
  | None => MkItv (cycle_to_timeval F 0) (cycle_to_timeval F 0)
  end.
Lemma get_run now td t : get now td t = Ok (reading now (timer_of t td), t).
Proof. unfold itimer_get, timer_of. unfold bind at 1, gets at 1. now destruct (find_timer t td (itimer_head t)). Qed.

(** A timer reads back as it was set: after [setitimer] of a value that is
    not zero, [getitimer] gives the interval and, until it runs out, the value
    less the time that has passed; after a value of zero it gives zeros. The
    timers of other threads read as before. *)
Theorem setitimer_getitimer now now' td itv t : twf t -> normal F itv.(it_value) -> normal F itv.(it_interval) ->
  0 <= now <= now' -> now' <= now + timeval_to_cycle F itv.(it_value) -> now + timeval_to_cycle F itv.(it_value) < 2 ^ 64 ->
  exists t' r, sys_setitimer F now now td (Some itv) false t = Ok (None, t') /\ sys_getitimer F now' td t' = Ok (r, t') /\
    (if timeval_to_cycle F itv.(it_value) =? 0 then r = MkItv (MkTv 0 0) (MkTv 0 0)
     else r.(it_interval) = itv.(it_interval) /\ r.(it_value) = cycle_to_timeval F (timeval_to_cycle F itv.(it_value) - (now' - now)) /\ (now' = now -> r = itv)) /\
    forall x, x <> td -> exists q, sys_getitimer F now' x t = Ok (q, t) /\ sys_getitimer F now' x t' = Ok (q, t').
Proof.
  intros W Nv Ni Hn Hl Hb. destruct (update_run now td itv t) as (t' & R & _). exists t', (reading now' (timer_of t' td)).
  split; [unfold sys_setitimer, bind at 1, ret at 1; now rewrite (bind_run _ _ _ _ _ R)|]. split; [apply get_run|]. destruct (update_timers _ _ _ _ _ W R) as [T O]. split.
  - rewrite T. destruct (_ =? 0); cbn [reading rearmed it_period it_start it_last_time].
    { unfold cycle_to_timeval. now rewrite !Z.div_0_l by (destruct F_ok as [-> | ->]; easy). }
    rewrite (timeval_roundtrip F F_ok) by easy. unfold wrap64. rewrite Z.mod_small by lia. cbn [it_interval it_value]. split; [easy|]. split; [f_equal; lia|].
    intros ->. replace (now + _ - now) with (timeval_to_cycle F (it_value itv)) by lia. rewrite (timeval_roundtrip F F_ok) by easy. now destruct itv.
  - intros x Hx. exists (reading now' (timer_of t x)). split; [apply get_run|]. rewrite <- O by easy. apply get_run.
Qed.

(** ** Ticks *)

Definition expired (now : Z) (x : itimer_info_t) : bool := wrap64 (x.(it_start) + x.(it_last_time)) <=? now.
(** A timer after a tick; [None]: it is gone. *)
Definition tick (now : Z) (x : itimer_info_t) : option itimer_info_t :=
  if expired now x then (if x.(it_period) =? 0 then None else Some (MkIt now x.(it_period) x.(it_period) x.(it_td))) else Some x.
Fixpoint alarms (l : list Z) : M sgst unit := match l with [] => ret tt | td :: l' => sig_send_td td SIGALRM ;;; alarms l' end.
Lemma it_next_app pre it post : NoDup (pre ++ it :: post) -> it_next it (pre ++ it :: post) = hd_error post.
Proof.
  induction pre as [|x pre IH]; intros ND; cbn [app it_next]; [now rewrite Z.eqb_refl|]. cbn [app] in ND. apply NoDup_cons in ND as [N1 N2].
  destruct (Z.eqb_spec x it) as [-> |]; [|now apply IH]. exfalso. apply N1. apply elem_of_app. right. left.
Qed.
Definition stays (now : Z) (t : itst) (it : Z) : bool := match tick now (t.(it_block) it) with None => false | Some _ => true end.
Lemma itimer_loop_run now post : forall n pre t g, t.(itimer_head) = pre ++ post -> NoDup (pre ++ post) -> (length post <= n)%nat ->
  alarms (map (fun it => (t.(it_block) it).(it_td)) (List.filter (fun it => expired now (t.(it_block) it)) post)) t.(it_signals) = Ok (tt, g) ->
  exists t', itimer_check_loop n now (hd_error post) t = Ok (tt, t') /\ t'.(it_signals) = g /\ t'.(itimer_head) = pre ++ List.filter (stays now t) post /\
    (forall it, it ∉ post -> t'.(it_block) it = t.(it_block) it) /\ (forall it x, it ∈ post -> tick now (t.(it_block) it) = Some x -> t'.(it_block) it = x).
Proof.
  induction post as [|it post IH]; intros n pre t g Hh ND Hl A.
  { injection A as <-. exists t. destruct n; (split; [reflexivity|]); (split; [easy|]); (split; [exact Hh|]); (split; [easy|]); intros x y Hx; now apply elem_of_nil in Hx. }
  destruct n as [|n]; [cbn [length] in Hl; lia|]. cbn [hd_error itimer_check_loop]. unfold bind at 1, gets at 1. fold (expired now (it_block t it)).
  pose proof (it_next_app pre it post ND) as Nx. rewrite <- Hh in Nx. pose proof (without_split it pre post ND) as Ws.
  assert (ND2 : NoDup ((pre ++ [it]) ++ post)) by now rewrite <- app_assoc.
  assert (Np : it ∉ post) by (apply NoDup_app in ND as (_ & _ & N); now apply NoDup_cons in N as [N _]).
  assert (ND3 : NoDup (pre ++ post)) by (rewrite <- Ws; now apply filter_NoDup).
  cbn [List.filter] in A. unfold stays at 1. cbn [List.filter]. unfold tick at 1. destruct (expired now (it_block t it)) eqn:Ex; cbn [map alarms] in A.
  - minv A. destruct x. set (t1 := set_signals s t). rewrite (bind_run _ _ t tt t1) by (unfold on_signals; now rewrite E). unfold bind at 1, gets at 1.
    change (it_block t1) with (it_block t). destruct (Z.eqb_spec (it_period (it_block t it)) 0) as [E0|E0]; cbn [negb].
    + unfold bind at 1, gets at 1. change (itimer_head t1) with (itimer_head t). rewrite Nx. unfold bind at 1, itimer_remove, modify.
      destruct (IH n pre (set_head (without it (itimer_head t1)) t1) g) as (t' & R & S & Q & O & B).
      * cbn [itimer_head set_head]. change (itimer_head t1) with (itimer_head t). now rewrite Hh, Ws.
      * exact ND3.
      * cbn [length] in Hl. lia.
      * exact A.
      * exists t'. split; [exact R|]. split; [exact S|]. split; [exact Q|]. split; [intros y Hy; apply O; now apply not_elem_of_cons in Hy|].
        intros y x. rewrite elem_of_cons. intros [-> | Hy]; [|now apply B]. unfold tick. now rewrite Ex, (proj2 (Z.eqb_eq _ _) E0).
    + set (b1 := MkIt now (it_period (it_block t it)) (it_period (it_block t it)) (it_td (it_block t it))).
      set (t2 := set_block (upd (upd (it_block t) it (with_last (it_period (it_block t it)) (it_block t it))) it (with_start now (upd (it_block t) it (with_last (it_period (it_block t it)) (it_block t it)) it))) t1).
      assert (B2 : forall y, it_block t2 y = if y =? it then b1 else it_block t y).
      { intros y. unfold t2. cbn [it_block set_block]. destruct (Z.eqb_spec y it) as [-> | Hy]; [now rewrite !upd_eq|now rewrite !upd_ne]. }
      assert (B3 : forall y, y ∈ post -> it_block t2 y = it_block t y) by (intros y Hy; rewrite B2; destruct (Z.eqb_spec y it) as [-> |]; easy).
      rewrite (bind_run _ _ t1 tt (set_block (upd (it_block t) it (with_last (it_period (it_block t it)) (it_block t it))) t1)) by reflexivity.
      rewrite (bind_run _ _ _ tt t2) by reflexivity. unfold bind at 1, gets at 1. change (itimer_head t2) with (itimer_head t). rewrite Nx.
      destruct (IH n (pre ++ [it]) t2 g) as (t' & R & S & Q & O & B).
      * change (itimer_head t2) with (itimer_head t). now rewrite Hh, <- app_assoc.
      * exact ND2.
      * cbn [length] in Hl. lia.
      * rewrite (filter_ext_elem _ (fun y => expired now (it_block t y))) by (intros y Hy; now rewrite B3). rewrite (owners_ext t t2); [exact A|].
        intros y Hy. rewrite B3; [easy|]. apply list_elem_of_In in Hy. apply List.filter_In in Hy as [Hy _]. now apply list_elem_of_In.
      * exists t'. split; [exact R|]. split; [exact S|]. rewrite (filter_ext_elem _ (stays now t)) in Q by (intros y Hy; unfold stays; now rewrite B3).
        split; [rewrite Q, <- app_assoc; easy|]. split.
        -- intros y Hy. apply not_elem_of_cons in Hy as [Hy1 Hy2]. rewrite O, B2 by easy. destruct (Z.eqb_spec y it); easy.
        -- intros y x. rewrite elem_of_cons. intros [-> | Hy].
           ++ unfold tick. rewrite Ex, (proj2 (Z.eqb_neq _ _) E0), O, B2, Z.eqb_refl by easy. now intros [= <-].
           ++ rewrite <- (B3 y Hy). now apply B.
  - unfold bind at 1, gets at 1. rewrite Nx. destruct (IH n (pre ++ [it]) t g) as (t' & R & S & Q & O & B); [now rewrite Hh, <- app_assoc|exact ND2|cbn [length] in Hl; lia|exact A|].
    exists t'. split; [exact R|]. split; [exact S|]. split; [rewrite Q, <- app_assoc; easy|]. split.
    + intros y Hy. apply O. now apply not_elem_of_cons in Hy.
    + intros y x. rewrite elem_of_cons. intros [-> | Hy]; [|now apply B]. unfold tick. rewrite Ex, O by easy. now intros [= <-].
Qed.
Lemma alarms_run l : forall s, (length l <= length s.(sigevent_freeq))%nat -> exists g, alarms l s = Ok (tt, g).
Proof.
  induction l as [|td l IH]; intros s Hl; [now exists s|]. cbn [alarms length] in *. destruct (sigevent_freeq s) as [|e q] eqn:E; [cbn [length] in Hl; lia|].
  destruct (send_td_run td SIGALRM s e q E) as (s1 & R & Q). rewrite (bind_run _ _ _ _ _ R). apply IH. rewrite (qu_freeq _ _ Q). cbn [length] in Hl. unfold queued. cbn [sigevent_freeq set_threads set_events set_freeq]. lia.
Qed.
Lemma filter_sublist {A} (p : A -> bool) l x : x ∈ List.filter p l -> x ∈ l /\ p x = true.
Proof. rewrite !list_elem_of_In. apply List.filter_In. Qed.

(** C32. A tick returns and does to every thread's timer what its time says: one
    that has run out is set again for its interval or, without one, removed; the
    others stay. Exactly the threads whose timers ran out are sent [SIGALRM],
    once each, in the order of the list. *)
Theorem itimer_check_fires now t : twf t ->
  (length (List.filter (fun it => expired now (t.(it_block) it)) t.(itimer_head)) <= length t.(it_signals).(sigevent_freeq))%nat ->
  exists t', itimer_check now t = Ok (tt, t') /\ twf t' /\
    (forall td, timer_of t' td = match timer_of t td with Some x => tick now x | None => None end) /\
    alarms (map (fun it => (t.(it_block) it).(it_td)) (List.filter (fun it => expired now (t.(it_block) it)) t.(itimer_head))) t.(it_signals) = Ok (tt, t'.(it_signals)).
Proof.
  intros W Hl. destruct (alarms_run (map (fun it => (t.(it_block) it).(it_td)) (List.filter (fun it => expired now (t.(it_block) it)) t.(itimer_head))) t.(it_signals)) as [g A]; [now rewrite length_map|].
  destruct (itimer_loop_run now (itimer_head t) (length (itimer_head t)) [] t g eq_refl (tw_nd _ W) ltac:(lia) A) as (t' & R & S & Q & O & B). cbn [app] in Q.
  assert (Kept : forall it, it ∈ t'.(itimer_head) -> it ∈ t.(itimer_head) /\ tick now (t.(it_block) it) = Some (t'.(it_block) it)).
  { intros it. rewrite Q. intros Hi. apply filter_sublist in Hi as [Hi Hs]. split; [easy|]. unfold stays in Hs. destruct (tick now (it_block t it)) as [x|] eqn:E; [|easy]. now rewrite (B it x). }
  assert (Td : forall x y, tick now x = Some y -> it_td y = it_td x) by (intros x y; unfold tick; destruct (expired now x); [destruct (_ =? 0); [easy|]|]; now intros [= <-]).
  assert (W' : twf t').
  { constructor; [rewrite Q; apply filter_NoDup, W|]. unfold owners. rewrite (owners_ext t); [rewrite Q; apply map_sublist_nodup, W|]. intros it Hi. now apply Td, Kept. }
  exists t'. split; [exact R|]. split; [exact W'|]. split; [|now rewrite S].
  intros td. pose proof (find_timer_spec t td (itimer_head t)) as Fs. unfold timer_of at 2. destruct (find_timer t td (itimer_head t)) as [it|]; cbn [option_map].
  - destruct Fs as [Hi E]. destruct (tick now (it_block t it)) as [x|] eqn:Et.
    + assert (Hi' : it ∈ itimer_head t') by (rewrite Q; apply list_elem_of_In, List.filter_In; split; [now apply list_elem_of_In|unfold stays; now rewrite Et]).
      pose proof (timer_of_some t' it W' Hi') as T. rewrite (B it x Hi Et) in T. rewrite (Td _ _ Et), E in T. exact T.
    + apply timer_of_none. intros y Hy E'. destruct (Kept y Hy) as [Hy0 Ey]. pose proof (Td _ _ Ey) as E2. rewrite E' in E2.
      pose proof (find_timer_found t td _ y Hy0 (tw_owners _ W) (eq_sym E2)) as F1. rewrite (find_timer_found t td _ it Hi (tw_owners _ W) E) in F1. congruence.
  - apply timer_of_none. intros y Hy E'. destruct (Kept y Hy) as [Hy0 Ey]. apply Fs. rewrite <- E', (Td _ _ Ey). apply list_elem_of_In, List.in_map_iff. exists y. split; [easy|now apply list_elem_of_In].
Qed.
End TimerLemmas.

(** ** A run *)

Lemma below_max l x : x ∈ l -> x <= fold_right Z.max 0 l.
Proof. induction l as [|y l IH]; [now intros Hx%elem_of_nil|]. cbn [fold_right]. rewrite elem_of_cons. intros [-> | Hx]; [lia|]. apply IH in Hx. lia. Qed.
Lemma above_max l : 1 + fold_right Z.max 0 l ∉ l.
Proof. intros Hx%below_max. lia. Qed.
#[export] Instance heap0 : TimerHeap := {| it_fresh l := 1 + fold_right Z.max 0 l; it_fresh_ok := above_max |}.
(** Thread 1 sets 3 s every 2 s at time 100, thread 2 sets 1 s once. *)
Definition every : itimerval := MkItv (MkTv 2 0) (MkTv 3 500000).
Definition once : itimerval := MkItv (MkTv 0 0) (MkTv 1 0).
Abbreviation F0 := 1000000.
Definition t0 : itst := MkItst (fun _ => MkIt 0 0 0 0) [] (sig_init boot0).
Definition t1 : itst := after (itimer_update F0 100 1 every) t0.
Definition t2 : itst := after (itimer_update F0 100 2 once) t1.
Lemma twf0 : twf t0.
Proof. constructor; constructor. Qed.
Lemma twf2 : twf t2.
Proof.
  apply (update_twf F0 100 2 once t1); [apply (update_twf F0 100 1 every t0); [exact twf0|]|].
  - runs (itimer_update F0 100 1 every) t0 tt.
  - runs (itimer_update F0 100 2 once) t1 tt.
Qed.
Lemma normal_test v : (0 <=? v.(tv_sec)) && (0 <=? v.(tv_usec)) && (v.(tv_usec) <? USEC_PER_SEC) && (v.(tv_sec) * F0 + v.(tv_usec) * CLOCK_PER_USEC F0 <? 2 ^ 64) = true -> normal F0 v.
Proof. rewrite !andb_true_iff, !Z.leb_le, !Z.ltb_lt. unfold normal. tauto. Qed.
Lemma setitimer_getitimer_witness : exists t' r, sys_setitimer F0 100 100 1 (Some every) false t0 = Ok (None, t') /\ sys_getitimer F0 100 1 t' = Ok (r, t') /\ r = every.
Proof.
  destruct (setitimer_getitimer F0 (or_intror eq_refl) 100 100 1 every t0 twf0) as (t' & r & A & B & C & _);
    [apply normal_test; evals|apply normal_test; evals|lia|vm_compute; discriminate|evals|].
  exists t', r. split; [exact A|]. split; [exact B|].
  replace (timeval_to_cycle F0 (it_value every) =? 0) with false in C by evals. exact (proj2 (proj2 C) eq_refl).
Defined.
(** At time 2000000 only the second one has run out; it has no interval. *)
Lemma itimer_check_fires_witness : exists t', itimer_check 2000000 t2 = Ok (tt, t') /\ timer_of t' 2 = None /\ timer_of t' 1 = Some (MkIt 100 3500000 2000000 1) /\
  alarms [2] t2.(it_signals) = Ok (tt, t'.(it_signals)).
Proof.
  destruct (itimer_check_fires 2000000 t2 twf2) as (t' & A & _ & B & C); [apply Nat.leb_le; evals|].
  exists t'. split; [exact A|]. split; [rewrite B; evals|]. split; [rewrite B; evals|]. exact C.
Defined.

(** ** Defects *)

(** Between the end of a timer and the next tick [getitimer] shows a time left of
    more than eighteen million million seconds: the difference wraps. *)
Lemma getitimer_wraps : exists r, sys_getitimer F0 1000101 2 t2 = Ok (r, t2) /\ r.(it_value).(tv_sec) = 18446744073709.
Proof. eexists. split; [vm_compute; reflexivity|evals]. Qed.
(** Nothing cancels the timer of a thread that exits: the signal goes to the slot,
    whoever has it then. *)
Lemma itimer_outlives_thread : exists t t', on_signals (sigevent_freetd 2) t2 = Ok (tt, t) /\ itimer_check 2000000 t = Ok (tt, t') /\ queue t'.(it_signals) 2 <> [].
Proof.
  exists (after (on_signals (sigevent_freetd 2)) t2), (after (itimer_check 2000000) (after (on_signals (sigevent_freetd 2)) t2)).
  split; [runs (on_signals (sigevent_freetd 2)) t2 tt|]. split; [runs (itimer_check 2000000) (after (on_signals (sigevent_freetd 2)) t2) tt|]. vm_compute. discriminate.
Qed.
(** Disabling a timer writes the interval to the block it has just freed. *)
Lemma disable_writes_freed : exists t, itimer_update F0 200 1 (MkItv (MkTv 5 0) (MkTv 0 0)) t2 = Ok (tt, t) /\ (1 ∉ t.(itimer_head)) /\
  (t2.(it_block) 1).(it_period) = 2000000 /\ (t.(it_block) 1).(it_period) = 5000000.
Proof.
  exists (after (itimer_update F0 200 1 (MkItv (MkTv 5 0) (MkTv 0 0))) t2). split; [runs (itimer_update F0 200 1 (MkItv (MkTv 5 0) (MkTv 0 0))) t2 tt|].
  split; [apply (bool_decide_unpack (1 ∉ _)); evals|]. split; evals.
Qed.
