(* ===== verification/Socket.v ===== *)
(** * Sockets

    [src/kern/fs/socket.c] and [src/include/fs/socket.h].  A table of 128
    sockets of one host: a stream socket has a ring buffer for what its peer
    writes, a listening one a queue of addresses that want to connect, a
    datagram one a queue of messages of a pool.  Peers find each other by their
    ports.

    The state has the sockets, the pool, the memory of the processes, and the
    depths of the recursive spin locks of every socket: [mtx_unlock] of a lock
    that is not held stops the kernel.  An operation is a run from its first line
    to [sleep] or to its return; one that sleeps releases the lock it sleeps with
    and has a second definition, the run after it was woken.  [wakeup] is a log
    of channels.  Descriptors are those of [FdTable]; in an entry a socket is its
    index plus one, so that [0] is [NULL]. *)

From S2P Require Import Prelude Bytes Cluster Pipe FdTable.
From Stdlib Require Import ZArith Lia Bool.
From stdpp Require Import base tactics numbers list.
Open Scope Z_scope.

(** ** Data *)

Definition SOCKET_COUNT : Z := 128.
Definition PENDING_COUNT : Z := 128.
Definition MESSAGE_COUNT : Z := 512.
Definition SOCKET_BUFFER_SIZE : Z := 131072.
Definition PAGE_SIZE : Z := 4096.
Definition SOCK_STREAM : Z := 1.
Definition SOCK_DGRAM : Z := 2.
Definition SHUT_RD : Z := 0.
Definition SHUT_WR : Z := 1.
Definition SHUT_RDWR : Z := 2.
Definition O_NONBLOCK : Z := 2048.
Definition EAGAIN : Z := 11.
Definition dev_socket : Z := 4.
(** [&fd_dev_socket]. *)
Definition fd_dev_socket : Z := 115.
Definition SOCK_IS_UDP (t : Z) : bool := Z.land t 15 =? SOCK_DGRAM.

Record SocketAddr : Type := MkSA { family : Z; port : Z; saddr : Z }.
Definition zero_sa : SocketAddr := MkSA 0 0 0.
Record Message : Type := MkMsg { m_from : SocketAddr; m_data : Z -> Z; m_length : Z }.
Record Socket : Type := MkSock {
  used : bool;
  type : Z;
  addr : SocketAddr;
  target_addr : SocketAddr;
  socketReadPos : Z;
  socketWritePos : Z;
  bufferAddr : option (Z -> Z);
  waiting_queue : Z -> SocketAddr;
  waiting_h : Z;
  waiting_t : Z;
  listening : bool;
  is_close : bool;
  opposite_write_close : bool;
  tid : Z;
  self_read_close : bool;
  self_write_close : bool;
  messages : list Z;
  udp_is_connect : bool;
  opposite : Z
}.
(** What a socket's threads sleep on. *)
Inductive chan : Type := CQueue (i : Z) | CSlot (i pos : Z) | CRead (i : Z) | CWrite (i : Z) | CMessages (i : Z).
Record net : Type := MkNet {
  sockets : Z -> Socket;
  socket_bitmap : Z -> Z;
  message_pool : Z -> Message;
  message_free_list : list Z;
  local_port : Z;
  umem : Z -> Z -> Z;
  lock : Z -> Z;
  state_lock : Z -> Z;
  woken : list chan
}.

Definition set_sockets f s := MkNet f s.(socket_bitmap) s.(message_pool) s.(message_free_list) s.(local_port) s.(umem) s.(lock) s.(state_lock) s.(woken).
Definition set_sbitmap f s := MkNet s.(sockets) f s.(message_pool) s.(message_free_list) s.(local_port) s.(umem) s.(lock) s.(state_lock) s.(woken).
Definition set_pool f s := MkNet s.(sockets) s.(socket_bitmap) f s.(message_free_list) s.(local_port) s.(umem) s.(lock) s.(state_lock) s.(woken).
Definition set_mfree l s := MkNet s.(sockets) s.(socket_bitmap) s.(message_pool) l s.(local_port) s.(umem) s.(lock) s.(state_lock) s.(woken).
Definition set_port n s := MkNet s.(sockets) s.(socket_bitmap) s.(message_pool) s.(message_free_list) n s.(umem) s.(lock) s.(state_lock) s.(woken).
Definition set_umem m s := MkNet s.(sockets) s.(socket_bitmap) s.(message_pool) s.(message_free_list) s.(local_port) m s.(lock) s.(state_lock) s.(woken).
Definition set_lock l s := MkNet s.(sockets) s.(socket_bitmap) s.(message_pool) s.(message_free_list) s.(local_port) s.(umem) l s.(state_lock) s.(woken).
Definition set_stlock l s := MkNet s.(sockets) s.(socket_bitmap) s.(message_pool) s.(message_free_list) s.(local_port) s.(umem) s.(lock) l s.(woken).
Definition wake_chan c s := MkNet s.(sockets) s.(socket_bitmap) s.(message_pool) s.(message_free_list) s.(local_port) s.(umem) s.(lock) s.(state_lock) (c :: s.(woken)).

Definition sock (i : Z) : M net Socket := gets (fun s => s.(sockets) i).
Definition upd_sock (i : Z) (f : Socket -> Socket) : M net unit := modify (fun s => set_sockets (upd s.(sockets) i (f (s.(sockets) i))) s).
Definition wakeup (c : chan) : M net unit := modify (wake_chan c).
Definition copyIn (p a n : Z) : M net (list Z) := gets (fun s => mem_read (s.(umem) p) a n).
Definition copyOut (p a : Z) (l : list Z) : M net unit := modify (fun s => set_umem (upd s.(umem) p (mem_write a l (s.(umem) p))) s).

(** [mtx_lock] and [mtx_unlock] of [sockets[i].lock] and of its state's lock. *)
Definition lock_sock (i : Z) : M net unit := modify (fun s => set_lock (upd s.(lock) i (s.(lock) i + 1)) s).
Definition unlock_sock (i : Z) : M net unit :=
  let* d := gets (fun s => s.(lock) i) in
  massert (0 <? d) ;;; modify (fun s => set_lock (upd s.(lock) i (d - 1)) s).
Definition lock_state (i : Z) : M net unit := modify (fun s => set_stlock (upd s.(state_lock) i (s.(state_lock) i + 1)) s).
Definition unlock_state (i : Z) : M net unit :=
  let* d := gets (fun s => s.(state_lock) i) in
  massert (0 <? d) ;;; modify (fun s => set_stlock (upd s.(state_lock) i (d - 1)) s).

(** Updates of one field. *)
Definition with_addr a x := MkSock x.(used) x.(type) a x.(target_addr) x.(socketReadPos) x.(socketWritePos) x.(bufferAddr) x.(waiting_queue) x.(waiting_h) x.(waiting_t) x.(listening) x.(is_close) x.(opposite_write_close) x.(tid) x.(self_read_close) x.(self_write_close) x.(messages) x.(udp_is_connect) x.(opposite).
Definition with_target a x := MkSock x.(used) x.(type) x.(addr) a x.(socketReadPos) x.(socketWritePos) x.(bufferAddr) x.(waiting_queue) x.(waiting_h) x.(waiting_t) x.(listening) x.(is_close) x.(opposite_write_close) x.(tid) x.(self_read_close) x.(self_write_close) x.(messages) x.(udp_is_connect) x.(opposite).
Definition with_ring r w b x := MkSock x.(used) x.(type) x.(addr) x.(target_addr) r w b x.(waiting_queue) x.(waiting_h) x.(waiting_t) x.(listening) x.(is_close) x.(opposite_write_close) x.(tid) x.(self_read_close) x.(self_write_close) x.(messages) x.(udp_is_connect) x.(opposite).
Definition with_waiting q h t x := MkSock x.(used) x.(type) x.(addr) x.(target_addr) x.(socketReadPos) x.(socketWritePos) x.(bufferAddr) q h t x.(listening) x.(is_close) x.(opposite_write_close) x.(tid) x.(self_read_close) x.(self_write_close) x.(messages) x.(udp_is_connect) x.(opposite).
Definition with_listening b x := MkSock x.(used) x.(type) x.(addr) x.(target_addr) x.(socketReadPos) x.(socketWritePos) x.(bufferAddr) x.(waiting_queue) x.(waiting_h) x.(waiting_t) b x.(is_close) x.(opposite_write_close) x.(tid) x.(self_read_close) x.(self_write_close) x.(messages) x.(udp_is_connect) x.(opposite).
Definition with_state c o x := MkSock x.(used) x.(type) x.(addr) x.(target_addr) x.(socketReadPos) x.(socketWritePos) x.(bufferAddr) x.(waiting_queue) x.(waiting_h) x.(waiting_t) x.(listening) c o x.(tid) x.(self_read_close) x.(self_write_close) x.(messages) x.(udp_is_connect) x.(opposite).
Definition with_shut r w x := MkSock x.(used) x.(type) x.(addr) x.(target_addr) x.(socketReadPos) x.(socketWritePos) x.(bufferAddr) x.(waiting_queue) x.(waiting_h) x.(waiting_t) x.(listening) x.(is_close) x.(opposite_write_close) x.(tid) r w x.(messages) x.(udp_is_connect) x.(opposite).
Definition with_messages l x := MkSock x.(used) x.(type) x.(addr) x.(target_addr) x.(socketReadPos) x.(socketWritePos) x.(bufferAddr) x.(waiting_queue) x.(waiting_h) x.(waiting_t) x.(listening) x.(is_close) x.(opposite_write_close) x.(tid) x.(self_read_close) x.(self_write_close) l x.(udp_is_connect) x.(opposite).
Definition with_udp b o x := MkSock x.(used) x.(type) x.(addr) x.(target_addr) x.(socketReadPos) x.(socketWritePos) x.(bufferAddr) x.(waiting_queue) x.(waiting_h) x.(waiting_t) x.(listening) x.(is_close) x.(opposite_write_close) x.(tid) x.(self_read_close) x.(self_write_close) x.(messages) b o.

(** ** Tables *)

(** [socket_init]: nothing is used, every message is free. *)
Fixpoint free_messages (n : nat) : list Z := match n with O => [] | S n' => free_messages n' ++ [Z.of_nat n'] end.
Definition socket_init (s : net) : net := set_mfree (free_messages (Z.to_nat MESSAGE_COUNT)) s.

Fixpoint socketAlloc_loop (n : nat) (i : Z) : M net Z :=
  match n with
  | O => ret (-1)
  | S n' =>
      let* bm := gets socket_bitmap in
      if bit_taken bm i then socketAlloc_loop n' (i + 1)
      else modify (set_sbitmap (bit_take bm i)) ;;; ret i
  end.
Definition socketAlloc : M net Z := socketAlloc_loop (Z.to_nat SOCKET_COUNT) 0.

(** [kvmAlloc] gives a zeroed page. *)
Definition message_alloc : M net (option Z) :=
  let* l := gets message_free_list in
  match l with
  | [] => ret None
  | m :: l' =>
      modify (set_mfree l') ;;;
      modify (fun s => set_pool (upd s.(message_pool) m (MkMsg (s.(message_pool) m).(m_from) (fun _ => 0) 0)) s) ;;;
      ret (Some m)
  end.
Definition message_free (m : Z) : M net unit :=
  modify (fun s => set_pool (upd s.(message_pool) m (MkMsg zero_sa (fun _ => 0) 0)) s) ;;;
  modify (fun s => set_mfree (s.(message_free_list) ++ [m]) s).

(** [n] is the length of the queue. *)
Fixpoint drop_messages (n : nat) (i : Z) : M net unit :=
  match n with
  | O => ret tt
  | S n' =>
      let* x := sock i in
      match x.(messages) with
      | [] => ret tt
      | m :: _ => upd_sock i (fun x => with_messages (without m x.(messages)) x) ;;; message_free m ;;; drop_messages n' i
      end
  end.
Definition socketFree (i : Z) : M net unit :=
  lock_sock i ;;;
  upd_sock i (fun x => MkSock false 0 zero_sa zero_sa 0 0 None (fun _ => zero_sa) 0 0 false x.(is_close) x.(opposite_write_close) x.(tid)
    x.(self_read_close) x.(self_write_close) x.(messages) x.(udp_is_connect) x.(opposite)) ;;;
  let* x := sock i in
  drop_messages (length x.(messages)) i ;;;
  lock_state i ;;;
  upd_sock i (fun x => with_state false x.(opposite_write_close) x) ;;;
  unlock_state i ;;;
  unlock_sock i ;;;
  massert ((0 <=? i) && (i <? SOCKET_COUNT)) ;;;
  modify (fun s => set_sbitmap (bit_clear s.(socket_bitmap) i) s).

(** ** Finding a socket *)

(** The loop of the searches below: the first socket that passes the test, with
    its lock still held when [keep] is set. *)
Fixpoint search (test : Z -> Socket -> bool) (keep : bool) (n : nat) (i : Z) : M net (option Z) :=
  match n with
  | O => ret None
  | S n' =>
      lock_sock i ;;;
      let* x := sock i in
      if test i x then (if keep then ret tt else unlock_sock i) ;;; ret (Some i)
      else unlock_sock i ;;; search test keep n' (i + 1)
  end.
Definition is_listening (a : SocketAddr) (ty : Z) (_ : Z) (x : Socket) : bool :=
  x.(used) && (Z.land x.(type) 15 =? ty) && (x.(addr).(port) =? a.(port)) && x.(listening).
Definition find_listening_socket (a : SocketAddr) (ty : Z) : M net (option Z) := search (is_listening a ty) true (Z.to_nat SOCKET_COUNT) 0.
Definition is_peer (local : Z) (l : Socket) (i : Z) (x : Socket) : bool :=
  x.(used) && negb (local =? i) && (x.(addr).(port) =? l.(target_addr).(port)) && (x.(target_addr).(port) =? l.(addr).(port)).
Definition remote_find_peer_socket (local : Z) : M net (option Z) :=
  let* l := sock local in search (is_peer local l) true (Z.to_nat SOCKET_COUNT) 0.
Definition takes_datagrams (a : SocketAddr) (ty index i : Z) (x : Socket) : bool :=
  x.(used) && negb (i =? index) && (x.(type) =? ty) && (x.(addr).(port) =? a.(port)) && (negb x.(udp_is_connect) || (x.(udp_is_connect) && (x.(opposite) =? index))).
Definition find_udp_connect_socket (a : SocketAddr) (ty index : Z) : M net (option Z) := search (takes_datagrams a ty index) false (Z.to_nat SOCKET_COUNT) 0.
Definition find_udp_remote_socket (a : SocketAddr) (ty index : Z) : M net (option Z) := search (takes_datagrams a ty index) false (Z.to_nat SOCKET_COUNT) 0.

(** ** Streams *)

(** The rest of [fd_socket_read] once there is data or an end: copies, moves the
    position and returns. *)
Definition tcp_take (p i buf n : Z) : M net outcome :=
  let* x := sock i in
  let socket_volumn := wrap64 (x.(socketWritePos) - x.(socketReadPos)) in
  let read_volumn := Z.min n socket_volumn in
  let read_dst := wrap64 (x.(socketReadPos) + read_volumn) in
  let read_begin := x.(socketReadPos) mod SOCKET_BUFFER_SIZE in
  let read_end := read_dst mod SOCKET_BUFFER_SIZE in
  (if negb (read_volumn =? 0) then
     match x.(bufferAddr) with
     | None => fail BadPtr
     | Some b =>
         if read_begin <? read_end then copyOut p buf (mem_read b read_begin read_volumn)
         else
           copyOut p buf (mem_read b read_begin (SOCKET_BUFFER_SIZE - read_begin)) ;;;
           copyOut p (buf + SOCKET_BUFFER_SIZE - read_begin) (mem_read b 0 read_end)
     end
   else ret tt) ;;;
  upd_sock i (fun x => with_ring (wrap64 (x.(socketReadPos) + read_volumn)) x.(socketWritePos) x.(bufferAddr) x) ;;;
  wakeup (CWrite i) ;;;
  unlock_sock i ;;;
  ret (Returns (sext32 read_volumn)).
Definition tcp_read_loop (p i buf n : Z) : M net outcome :=
  let* x := sock i in
  if x.(socketReadPos) =? x.(socketWritePos) then
    lock_state i ;;;
    let* x := sock i in
    if negb x.(is_close) && negb x.(opposite_write_close) then
      unlock_state i ;;;
      wakeup (CWrite i) ;;;
      unlock_sock i ;;; ret Sleeps
    else unlock_state i ;;; tcp_take p i buf n
  else tcp_take p i buf n.
(** [fd_socket_read] of a stream socket, and its run after a sleep. *)
Definition tcp_read (p i buf n : Z) : M net outcome :=
  lock_sock i ;;;
  let* x := sock i in
  if x.(self_read_close) then unlock_sock i ;;; ret (Returns (- EPIPE)) else tcp_read_loop p i buf n.
Definition tcp_read_wake (p i buf n : Z) : M net outcome := lock_sock i ;;; tcp_read_loop p i buf n.

(** One round of the loop of [fd_socket_write] that copies to the ring of [t];
    [k] bytes are done. *)
Definition tcp_put (p t buf n k : Z) : M net Z :=
  let* x := sock t in
  let left_size := wrap64 (SOCKET_BUFFER_SIZE - wrap64 (x.(socketWritePos) - x.(socketReadPos))) in
  let write_length := Z.min left_size n in
  let write_dst := wrap64 (x.(socketWritePos) + write_length) in
  let write_begin := x.(socketWritePos) mod SOCKET_BUFFER_SIZE in
  let write_end := write_dst mod SOCKET_BUFFER_SIZE in
  match x.(bufferAddr) with
  | None => fail BadPtr
  | Some b =>
      let* b' := (if write_begin <? write_end then
          (let* l := copyIn p (buf + k) write_length in ret (mem_write write_begin l b))
        else
          (let* l := copyIn p (buf + k) (SOCKET_BUFFER_SIZE - write_begin) in
           let* l' := copyIn p (buf + k + SOCKET_BUFFER_SIZE - write_begin) write_end in
           ret (mem_write 0 l' (mem_write write_begin l b)))) in
      upd_sock t (fun x => with_ring x.(socketReadPos) (wrap64 (x.(socketWritePos) + write_length)) (Some b') x) ;;;
      ret (sext32 (k + write_length))
  end.
(** The end of [fd_socket_write]. *)
Definition tcp_write_end (i t k : Z) : M net (Z * outcome) :=
  unlock_state i ;;; wakeup (CRead t) ;;; unlock_sock t ;;; ret (k, Returns k).
(** Its loop, for the local socket [i] and the peer [t]: the bytes done and how
    the run ends.  Two rounds are enough: after one that copies, all is written
    or the ring is full. *)
Fixpoint tcp_write_loop (fuel : nat) (p i t buf n k : Z) : M net (Z * outcome) :=
  if wrap64 k <? n then
    let* x := sock i in
    if x.(is_close) then
      if k =? 0 then unlock_state i ;;; unlock_sock t ;;; ret (k, Returns (- EPIPE))
      else unlock_state i ;;; tcp_write_end i t k
    else
      let* y := sock t in
      if y.(self_read_close) then unlock_state i ;;; tcp_write_end i t k
      else if wrap64 (y.(socketWritePos) - y.(socketReadPos)) =? SOCKET_BUFFER_SIZE then
        unlock_state i ;;;
        wakeup (CRead t) ;;;
        unlock_sock t ;;; ret (k, Sleeps)
      else
        match fuel with
        | O => fail NoFuel
        | S fuel' => let* k' := tcp_put p t buf n k in tcp_write_loop fuel' p i t buf n k'
        end
  else tcp_write_end i t k.
(** [fd_socket_write] of a stream socket: the peer it found, the bytes done and
    how the run ends; and its run after a sleep. *)
Definition tcp_write (p i buf n : Z) : M net (option Z * Z * outcome) :=
  lock_sock i ;;;
  let* x := sock i in
  if x.(self_write_close) then unlock_sock i ;;; ret (None, 0, Returns (- EPIPE))
  else
    unlock_sock i ;;;
    let* o := remote_find_peer_socket i in
    match o with
    | None => ret (None, 0, Returns (- EPIPE))
    | Some t =>
        let* y := sock t in
        if y.(self_read_close) then ret (Some t, 0, Returns (- EPIPE))
        else
          lock_state i ;;;
          let* (k, r) := tcp_write_loop 1 p i t buf n 0 in ret (Some t, k, r)
    end.
Definition tcp_write_wake (p i t buf n k : Z) : M net (Z * outcome) :=
  lock_sock t ;;; lock_state i ;;; tcp_write_loop 1 p i t buf n k.

Definition fd_socket_close (i : Z) : M net unit :=
  let* o := remote_find_peer_socket i in
  (match o with
   | Some t =>
       lock_state t ;;;
       upd_sock t (fun x => with_state true x.(opposite_write_close) x) ;;;
       unlock_state t ;;;
       wakeup (CRead t) ;;;
       unlock_sock t
   | None => ret tt
   end) ;;;
  wakeup (CWrite i) ;;;
  socketFree i.

(** Telling the peer that nothing more will be written. *)
Definition tell_peer (i : Z) : M net unit :=
  let* o := remote_find_peer_socket i in
  match o with
  | Some t =>
      lock_state t ;;;
      upd_sock t (fun x => with_state x.(is_close) true x) ;;;
      unlock_state t ;;;
      wakeup (CRead t) ;;;
      unlock_sock t
  | None => ret tt
  end.
Definition shutdown_sock (i how : Z) : M net Z :=
  if how =? SHUT_RD then
    lock_sock i ;;;
    upd_sock i (fun x => with_shut true x.(self_write_close) x) ;;;
    wakeup (CWrite i) ;;;
    unlock_sock i ;;; ret 0
  else if how =? SHUT_WR then
    tell_peer i ;;;
    lock_sock i ;;;
    upd_sock i (fun x => with_shut x.(self_read_close) true x) ;;;
    unlock_sock i ;;; ret 0
  else if how =? SHUT_RDWR then
    tell_peer i ;;;
    lock_sock i ;;;
    upd_sock i (fun x => with_shut true true x) ;;;
    wakeup (CWrite i) ;;;
    unlock_sock i ;;; ret 0
  else ret (- EINVAL).

Definition socket_read_check (i : Z) : M net bool :=
  lock_sock i ;;;
  let* x := sock i in
  let* r := (if x.(listening) then ret (negb (x.(waiting_h) =? x.(waiting_t)))
    else if Z.land x.(type) 15 =? SOCK_STREAM then
      if x.(self_read_close) then ret true
      else
        lock_state i ;;;
        let* x := sock i in
        unlock_state i ;;;
        ret (negb (x.(socketReadPos) =? x.(socketWritePos)) || x.(is_close) || x.(opposite_write_close))
    else ret (negb (bool_decide (x.(messages) = [])))) in
  unlock_sock i ;;; ret r.
Definition socket_write_check (i : Z) : M net bool :=
  lock_sock i ;;;
  let* x := sock i in
  if x.(listening) then unlock_sock i ;;; ret false
  else if Z.land x.(type) 15 =? SOCK_STREAM then
    if x.(self_write_close) then unlock_sock i ;;; ret true
    else
      unlock_sock i ;;;
      let* o := remote_find_peer_socket i in
      lock_state i ;;;
      let* x := sock i in
      if x.(is_close) then
        unlock_state i ;;;
        (match o with Some t => unlock_sock t | None => ret tt end) ;;; ret true
      else
        unlock_state i ;;;
        match o with
        | None => ret true
        | Some t =>
            let* y := sock t in
            if y.(self_read_close) then unlock_sock t ;;; ret true
            else
              unlock_sock t ;;;
              ret (negb (wrap64 (y.(socketWritePos) - y.(socketReadPos)) =? SOCKET_BUFFER_SIZE))
        end
  else unlock_sock i ;;; ret true.

(** ** Datagrams *)

Definition message_from (s : net) (from : option SocketAddr) (l : list Z) : option Z :=
  match from with
  | None => hd_error l
  | Some a => List.find (fun m => (s.(message_pool) m).(m_from).(port) =? a.(port)) l
  end.
(** [recvfrom] of a datagram socket: how the run ends, and the sender; [from] is
    the address the kernel's own call insists on. *)
Definition udp_recv (p i buf len : Z) (from : option SocketAddr) : M net (outcome * SocketAddr) :=
  lock_sock i ;;;
  let* x := sock i in
  let* o := gets (fun s => message_from s from x.(messages)) in
  match o with
  | None => unlock_sock i ;;; ret (Sleeps, zero_sa)
  | Some m =>
      let* g := gets (fun s => s.(message_pool) m) in
      let min_size := Z.min len g.(m_length) in
      copyOut p buf (mem_read g.(m_data) 0 min_size) ;;;
      upd_sock i (fun x => with_messages (without m x.(messages)) x) ;;;
      unlock_sock i ;;;
      message_free m ;;;
      ret (Returns (sext32 min_size), g.(m_from))
  end.
(** [sendto] of a datagram socket; a message has one page. *)
Definition udp_send (p i : Z) (dst : SocketAddr) (buf len : Z) : M net Z :=
  let* x := sock i in
  let* o := find_udp_remote_socket dst x.(type) i in
  match o with
  | None => ret (Z.min len 65535)
  | Some t =>
      let* o := message_alloc in
      match o with
      | None => ret (-1)
      | Some m =>
          let min_len := Z.min len 65535 in
          (if PAGE_SIZE <? min_len then fail BadPtr else ret tt) ;;;
          let* l := copyIn p buf min_len in
          modify (fun s => set_pool (upd s.(message_pool) m (MkMsg x.(addr) (mem_write 0 l (s.(message_pool) m).(m_data)) min_len)) s) ;;;
          lock_sock t ;;;
          upd_sock t (fun y => with_messages (y.(messages) ++ [m]) y) ;;;
          wakeup (CMessages t) ;;;
          unlock_sock t ;;;
          ret min_len
      end
  end.

(** ** Connecting *)

Definition gen_local_socket_addr (a : SocketAddr) : M net SocketAddr :=
  let* n := gets local_port in
  modify (set_port (wrap32 (n + 1))) ;;;
  ret (MkSA a.(family) (wrap16 n) 2130706433).
(** [connect]: how the run ends, and on which socket and place of its queue it
    sleeps; and the run after the sleep. *)
Definition connect_sock (i : Z) (a : SocketAddr) : M net (outcome * (Z * Z)) :=
  lock_sock i ;;;
  let* x := sock i in
  (if x.(addr).(port) =? 0 then let* g := gen_local_socket_addr x.(addr) in upd_sock i (with_addr g) else ret tt) ;;;
  upd_sock i (with_target a) ;;;
  unlock_sock i ;;;
  let* x := sock i in
  if SOCK_IS_UDP x.(type) then
    let* o := find_udp_connect_socket a (Z.land x.(type) 15) i in
    match o with
    | None => ret (Returns 0, (0, 0))
    | Some t =>
        lock_sock i ;;;
        upd_sock i (with_udp true t) ;;;
        unlock_sock i ;;;
        ret (Returns 0, (0, 0))
    end
  else
    let* o := find_listening_socket a (Z.land x.(type) 15) in
    match o with
    | None => ret (Returns (-1), (0, 0))
    | Some t =>
        let* y := sock t in
        if y.(waiting_t) - y.(waiting_h) =? PENDING_COUNT then ret (Returns (-1), (0, 0))
        else
          let* x := sock i in
          upd_sock t (fun y => with_waiting (upd y.(waiting_queue) (y.(waiting_t) mod PENDING_COUNT) x.(addr)) y.(waiting_h) (y.(waiting_t) + 1) y) ;;;
          let* y := sock t in
          let pos := (y.(waiting_t) - 1 + PENDING_COUNT) mod PENDING_COUNT in
          wakeup (CQueue t) ;;;
          let* x := sock i in
          unlock_sock t ;;;
          ret ((if negb (x.(tid) =? y.(tid)) then Sleeps else Returns 0), (t, pos))
    end.
Definition connect_wake (t : Z) : M net outcome := lock_sock t ;;; unlock_sock t ;;; ret (Returns 0).

(** ** The calls *)

Abbreviation nfs := (@fdst net).
Fixpoint free_slot (n : nat) (p i : Z) : M nfs Z :=
  match n with
  | O => ret (-1)
  | S n' => let* k := fd_slot p i in if k =? -1 then ret i else free_slot n' p (i + 1)
  end.
(** What [socket] sets of a socket. *)
Definition fresh_socket (domain ty me : Z) (x : Socket) : Socket :=
  MkSock true (Z.land ty 15) (MkSA (wrap16 domain) x.(addr).(port) x.(addr).(saddr)) zero_sa x.(socketReadPos) x.(socketWritePos) (Some (fun _ => 0))
    x.(waiting_queue) 0 0 x.(listening) false false me false false [] false (-1).
(** The part on the table of sockets, which leaves the socket locked. *)
Definition socket_take (domain ty me : Z) : M net Z :=
  let* n := socketAlloc in
  if n <? 0 then ret (-1)
  else lock_sock n ;;; lock_state n ;;; upd_sock n (fresh_socket domain ty me) ;;; unlock_state n ;;; ret n.
Definition sys_socket (p me domain ty protocol : Z) : M nfs Z :=
  let* usfd := free_slot (Z.to_nat MAX_FD_COUNT) p 0 in
  if usfd <? 0 then ret (-1)
  else
    let* n := on_world (socket_take domain ty me) in
    if n <? 0 then ret (-1)
    else
      let* sfd := fdAlloc in
      if sfd <? 0 then on_world (unlock_sock n) ;;; on_world (socketFree n) ;;; ret (-1)
      else
        on_world (unlock_sock n) ;;;
        upd_fd sfd (fun x => MkFdesc 0 0 dev_socket 0 (Z.lor O_RDWR (wrap32 (Z.land ty (Z.lnot 15)))) x.(st_mode) fd_dev_socket x.(refcnt) (n + 1)) ;;;
        set_fd_slot p usfd sfd ;;;
        ret usfd.

(** The kernel entry and the socket of a descriptor, or the code for one that is
    no socket; a descriptor that is not open indexes [fds[-1]]. *)
Definition sock_of (p sockfd bad : Z) : M nfs (Z + Z * Z) :=
  let* k := fd_slot p sockfd in
  if k <? 0 then fail BadPtr
  else
    let* x := gets (fun s => s.(fds) k) in
    if negb (x.(type_) =? dev_socket) then ret (inl bad)
    else if x.(FdTable.socket) =? 0 then fail BadPtr
    else ret (inr (k, x.(FdTable.socket) - 1)).
Definition bind_sock (i : Z) (a : SocketAddr) : M net unit :=
  lock_sock i ;;;
  let* x := sock i in
  (if x.(addr).(family) =? a.(family) then upd_sock i (with_addr (MkSA x.(addr).(family) a.(port) a.(saddr))) else ret tt) ;;;
  unlock_sock i.
Definition bind_ (p sockfd : Z) (a : SocketAddr) : M nfs Z :=
  let* o := sock_of p sockfd (-1) in
  match o with inl r => ret r | inr (_, i) => on_world (bind_sock i a) ;;; ret 0 end.
Definition listen_sock (i : Z) : M net unit := lock_sock i ;;; upd_sock i (with_listening true) ;;; unlock_sock i.
Definition listen (p sockfd backlog : Z) : M nfs Z :=
  let* o := sock_of p sockfd (-1) in
  match o with inl r => ret r | inr (_, i) => on_world (listen_sock i) ;;; ret 0 end.
Definition connect (p sockfd : Z) (a : SocketAddr) : M nfs (outcome * (Z * Z)) :=
  let* o := sock_of p sockfd (- EBADF) in
  match o with inl r => ret (Returns r, (0, 0)) | inr (_, i) => on_world (connect_sock i a) end.
(** The new socket [n] of a connection on [i] gets its addresses, and who waits
    for it is woken. *)
Definition accept_finish (i n : Z) : M net SocketAddr :=
  let* x := sock i in
  let a := x.(waiting_queue) (x.(waiting_h) mod PENDING_COUNT) in
  upd_sock n (with_addr x.(addr)) ;;;
  upd_sock n (with_target a) ;;;
  upd_sock i (fun x => with_waiting x.(waiting_queue) (x.(waiting_h) + 1) x.(waiting_t) x) ;;;
  let* x := sock i in
  wakeup (CSlot i ((x.(waiting_h) - 1 + PENDING_COUNT) mod PENDING_COUNT)) ;;;
  unlock_sock i ;;;
  ret a.
(** [accept] from its loop on, with the lock held: how the run ends, and the
    address of the peer. *)
Definition accept_loop (p me i : Z) : M nfs (outcome * SocketAddr) :=
  let* x := on_world (sock i) in
  if x.(waiting_h) =? x.(waiting_t) then on_world (unlock_sock i) ;;; ret (Sleeps, zero_sa)
  else
    let* u := sys_socket p me x.(addr).(family) x.(type) 0 in
    if u <? 0 then ret (Returns (-1), zero_sa)
    else
      let* k := fd_slot p u in
      let* f := gets (fun s => s.(fds) k) in
      let* a := on_world (accept_finish i (f.(FdTable.socket) - 1)) in
      ret (Returns u, a).
Definition accept (p me sockfd : Z) : M nfs (outcome * SocketAddr) :=
  let* o := sock_of p sockfd (-1) in
  match o with
  | inl r => ret (Returns r, zero_sa)
  | inr (k, i) =>
      on_world (lock_sock i) ;;;
      let* f := gets (fun s => s.(fds) k) in
      let* x := on_world (sock i) in
      if negb (Z.land f.(flags) O_NONBLOCK =? 0) && (x.(waiting_h) =? x.(waiting_t)) then
        on_world (unlock_sock i) ;;; ret (Returns (- EAGAIN), zero_sa)
      else accept_loop p me i
  end.
Definition accept_wake (p me i : Z) : M nfs (outcome * SocketAddr) := on_world (lock_sock i) ;;; accept_loop p me i.

(** The offset of an entry moves with what was read or written. *)
Definition advance (k : Z) (o : outcome) : M nfs outcome :=
  match o with
  | Returns r => (if 0 <=? r then upd_fd k (fun x => with_offset (wrap32 (x.(offset) + r)) x) else ret tt) ;;; ret o
  | Sleeps => ret o
  end.
Definition fd_socket_read (p k buf n : Z) : M nfs outcome :=
  let* f := gets (fun s => s.(fds) k) in
  let i := f.(FdTable.socket) - 1 in
  let* x := on_world (sock i) in
  if SOCK_IS_UDP x.(type) then let* (o, _) := on_world (udp_recv p i buf n (Some x.(target_addr))) in ret o
  else let* o := on_world (tcp_read p i buf n) in advance k o.
Definition fd_socket_write (p k buf n : Z) : M nfs outcome :=
  let* f := gets (fun s => s.(fds) k) in
  let i := f.(FdTable.socket) - 1 in
  let* x := on_world (sock i) in
  if SOCK_IS_UDP x.(type) then let* r := on_world (udp_send p i x.(target_addr) buf n) in ret (Returns r)
  else let* (_, o) := on_world (tcp_write p i buf n) in advance k o.
Definition recvfrom (p sockfd buf len : Z) : M nfs (outcome * SocketAddr) :=
  let* k := fd_slot p sockfd in
  let* f := gets (fun s => s.(fds) k) in
  if (k <? 0) || (f.(FdTable.socket) =? 0) then ret (Returns (-1), zero_sa)
  else
    let i := f.(FdTable.socket) - 1 in
    let* x := on_world (sock i) in
    if x.(type) =? 1 then let* o := fd_socket_read p k buf len in ret (o, zero_sa)
    else on_world (udp_recv p i buf len None).
Definition sendto (p sockfd buf len : Z) (dst : SocketAddr) : M nfs outcome :=
  let* k := fd_slot p sockfd in
  if k <? 0 then ret (Returns (- EBADF))
  else
    let* f := gets (fun s => s.(fds) k) in
    if negb (f.(type_) =? dev_socket) then ret (Returns (- EBADF))
    else
      massert (negb (f.(FdTable.socket) =? 0)) ;;;
      let i := f.(FdTable.socket) - 1 in
      let* x := on_world (sock i) in
      if x.(type) =? 1 then fd_socket_write p k buf len
      else let* r := on_world (udp_send p i dst buf len) in ret (Returns r).
Definition shutdown (p sockfd how : Z) : M nfs Z :=
  let* k := fd_slot p sockfd in
  let* f := gets (fun s => s.(fds) k) in
  if (k <? 0) || (f.(FdTable.socket) =? 0) then ret (-1)
  else on_world (shutdown_sock (f.(FdTable.socket) - 1) how).
Definition getsocketname (p sockfd : Z) : M nfs (Z * option SocketAddr) :=
  let* o := sock_of p sockfd (-1) in
  match o with inl r => ret (r, None) | inr (_, i) => let* x := on_world (sock i) in ret (0, Some x.(addr)) end.
Definition getpeername (p sockfd : Z) : M nfs (Z * option SocketAddr) :=
  let* o := sock_of p sockfd (- EBADF) in
  match o with inl r => ret (r, None) | inr (_, i) => let* x := on_world (sock i) in ret (0, Some x.(target_addr)) end.
(** What [getsockopt] stores; [setsockopt] does nothing. *)
Definition getsockopt (lever optname : Z) : Z * option Z :=
  (0, if lever =? 1 then (if optname =? 8 then Some 131072 else if optname =? 7 then Some 16384 else None) else None).

(** ** What does not touch a ring *)

Definition ring_of (x : Socket) : Z * Z * option (Z -> Z) := (x.(socketReadPos), x.(socketWritePos), x.(bufferAddr)).
Record still (s s' : net) : Prop := {
  st_ring : forall j, ring_of (s'.(sockets) j) = ring_of (s.(sockets) j);
  st_bitmap : s'.(socket_bitmap) = s.(socket_bitmap)
}.
Definition calm (s s' : net) : Prop := still s s' /\ s'.(umem) = s.(umem).
Lemma still_refl s : still s s.
Proof. now constructor. Qed.
Lemma still_trans a b c : still a b -> still b c -> still a c.
Proof. intros [A B] [C D]. constructor; [intros; now rewrite C|congruence]. Qed.
Lemma ncalm_refl s : calm s s.
Proof. split; [apply still_refl|easy]. Qed.
Lemma ncalm_trans a b c : calm a b -> calm b c -> calm a c.
Proof. intros [A B] [C D]. split; [eapply still_trans; eassumption|congruence]. Qed.

(** A program whose successful runs are in [R]. *)
Definition does {A} (R : net -> net -> Prop) (c : M net A) : Prop := forall s a s', c s = Ok (a, s') -> R s s'.
Section Does.
Context (R : net -> net -> Prop) (R_refl : forall s, R s s) (R_trans : forall a b c, R a b -> R b c -> R a c) (R_calm : forall s s', calm s s' -> R s s').

Lemma does_ret {A} (a : A) : does R (ret a).
Proof using R_refl. intros s x s' [= _ <-]. apply R_refl. Qed.
Lemma does_gets {A} (f : net -> A) : does R (gets f).
Proof using R_refl. intros s x s' [= _ <-]. apply R_refl. Qed.
Lemma does_fail {A} e : does R (@fail net A e).
Proof using. intros s x s'. discriminate. Qed.
Lemma does_bind {A B} (c : M net A) (k : A -> M net B) : does R c -> (forall a, does R (k a)) -> does R (bind c k).
Proof using R_trans. intros Hc Hk s a s' H. minv H. apply Hc in E. apply Hk in H. eapply R_trans; eassumption. Qed.
Lemma does_massert b : does R (massert b).
Proof using R_refl. intros s x s'. unfold massert, ret, fail. destruct b; [intros [= _ <-]; apply R_refl|easy]. Qed.
Lemma does_if {A} (b : bool) (c d : M net A) : does R c -> does R d -> does R (if b then c else d).
Proof using. now destruct b. Qed.
Lemma does_modify f : (forall s, calm s (f s)) -> does R (modify f).
Proof using R_calm. intros H s x s' [= _ <-]. apply R_calm, H. Qed.
Lemma does_upd_sock i f : (forall x, ring_of (f x) = ring_of x) -> does R (upd_sock i f).
Proof using R_calm.
  intros H s x s' [= _ <-]. apply R_calm. split; [|easy]. constructor; [|easy]. intros j. cbn [sockets set_sockets]. unfold upd. destruct (Z.eqb_spec j i) as [-> |]; [apply H|easy].
Qed.
End Does.
Lemma calm_of s f : (forall j, ring_of ((f s).(sockets) j) = ring_of (s.(sockets) j)) -> (f s).(socket_bitmap) = s.(socket_bitmap) -> (f s).(umem) = s.(umem) -> calm s (f s).
Proof. now repeat split. Qed.
Ltac quietly tac := repeat first
  [ tac | apply does_ret; [now auto using still_refl, ncalm_refl] | apply does_gets; [now auto using still_refl, ncalm_refl] | apply does_fail | apply does_massert; [now auto using still_refl, ncalm_refl]
  | apply does_upd_sock; [first [now intros ? ? []|easy]|intros; reflexivity]
  | apply does_modify; [first [now intros ? ? []|easy]|intros; apply calm_of; reflexivity]
  | apply does_if | apply does_bind; [eauto using still_trans, ncalm_trans| |intros]
  | lazymatch goal with |- does _ (match ?o with _ => _ end) => destruct o end ].
Lemma calm_lock i : does calm (lock_sock i).
Proof. unfold lock_sock. quietly ltac:(fail). Qed.
Lemma calm_unlock i : does calm (unlock_sock i).
Proof. unfold unlock_sock. quietly ltac:(fail). Qed.
Lemma calm_search test keep n : forall i, does calm (search test keep n i).
Proof. induction n as [|n IH]; intros i; cbn [search]; unfold lock_sock, unlock_sock, sock; quietly ltac:(apply IH). Qed.
Lemma calm_peer i : does calm (remote_find_peer_socket i).
Proof. unfold remote_find_peer_socket, sock. quietly ltac:(apply calm_search). Qed.

(** ** Streams are queues of bytes *)

(** A socket's ring is that of a pipe with both ends open. *)
Definition as_pipe (x : Socket) : Pipe := MkPipe 2 x.(socketReadPos) x.(socketWritePos) x.(bufferAddr).
Definition stream (x : Socket) : list Z := contents (as_pipe x).
Definition sock_ok (x : Socket) : Prop :=
  match x.(bufferAddr) with Some _ => pipe_ok (as_pipe x) | None => x.(socketReadPos) = 0 /\ x.(socketWritePos) = 0 end.
Lemma as_pipe_ring x y : ring_of x = ring_of y -> as_pipe x = as_pipe y.
Proof. unfold ring_of, as_pipe. now intros [= -> -> ->]. Qed.
Lemma stream_ring x y : ring_of x = ring_of y -> stream x = stream y.
Proof. intros E. unfold stream. now rewrite (as_pipe_ring x y). Qed.
Lemma sock_ok_ring x y : ring_of x = ring_of y -> sock_ok y -> sock_ok x.
Proof. intros E. pose proof E as [= E1 E2 E3]. unfold sock_ok. now rewrite (as_pipe_ring x y E), E1, E2, E3. Qed.

Lemma tcp_put_run p t buf n k s b : (s.(sockets) t).(bufferAddr) = Some b ->
  tcp_put p t buf n k s = let '(q, k') := write_copy (as_pipe (s.(sockets) t)) b (s.(umem) p) buf n k in
    Ok (k', set_sockets (upd s.(sockets) t (with_ring q.(pipeReadPos) q.(pipeWritePos) q.(pipeBuf) (s.(sockets) t))) s).
Proof.
  intros E. unfold tcp_put. unfold bind at 1, sock, gets at 1. rewrite E. unfold write_copy. cbn [as_pipe pipeWritePos pipeReadPos Pipe.pcount pipeBuf].
  change PIPE_BUF_SIZE with SOCKET_BUFFER_SIZE. destruct (_ <? _); reflexivity.
Qed.
(** The bytes [k] to [k'] of the writer's buffer went to the ring of [t]. *)
Record wrote (p t buf k k' : Z) (s s' : net) : Prop := {
  wr_others : forall j, j <> t -> ring_of (s'.(sockets) j) = ring_of (s.(sockets) j);
  wr_bitmap : s'.(socket_bitmap) = s.(socket_bitmap);
  wr_umem : s'.(umem) = s.(umem);
  wr_pos : k <= k' /\ (s'.(sockets) t).(socketWritePos) = (s.(sockets) t).(socketWritePos) + (k' - k) /\ (s'.(sockets) t).(socketReadPos) = (s.(sockets) t).(socketReadPos);
  wr_stream : stream (s'.(sockets) t) = stream (s.(sockets) t) ++ mem_read (s.(umem) p) (buf + k) (k' - k);
  wr_ok : sock_ok (s'.(sockets) t);
  wr_buffer : (s.(sockets) t).(bufferAddr) = None -> (s'.(sockets) t).(bufferAddr) = None
}.
Lemma wrote_calm p t buf k s s' : sock_ok (s.(sockets) t) -> calm s s' -> wrote p t buf k k s s'.
Proof.
  intros O [[A B] C]. pose proof (A t) as At. pose proof At as [= E1 E2 E3]. constructor; try easy.
  - rewrite E1, E2. lia.
  - rewrite (stream_ring _ _ At), mem_read_nil, app_nil_r by lia. easy.
  - now apply (sock_ok_ring _ (s.(sockets) t)).
  - now rewrite E3.
Qed.
Lemma wrote_calm_r p t buf k k' s s1 s2 : wrote p t buf k k' s s1 -> calm s1 s2 -> wrote p t buf k k' s s2.
Proof.
  intros W [[A B] C]. pose proof (A t) as At. pose proof At as [= E1 E2 E3]. constructor.
  - intros j Hj. rewrite A. now apply W.
  - rewrite B. apply W.
  - rewrite C. apply W.
  - rewrite E1, E2. apply W.
  - rewrite (stream_ring _ _ At). apply W.
  - apply (sock_ok_ring _ _ At). apply W.
  - rewrite E3. apply W.
Qed.
Lemma wrote_calm_l p t buf k k' s0 s s1 : calm s0 s -> wrote p t buf k k' s s1 -> wrote p t buf k k' s0 s1.
Proof.
  intros [[A B] C] W. pose proof (A t) as At. pose proof At as [= E1 E2 E3]. constructor.
  - intros j Hj. rewrite <- A. now apply W.
  - rewrite <- B. apply W.
  - rewrite <- C. apply W.
  - rewrite <- E1, <- E2. apply W.
  - rewrite <- (stream_ring _ _ At), <- C. apply W.
  - apply W.
  - rewrite <- E3. apply W.
Qed.
Lemma tcp_put_wrote p t buf n k k' s s' : sock_ok (s.(sockets) t) -> (s.(sockets) t).(socketWritePos) < POS_MAX ->
  wrap64 ((s.(sockets) t).(socketWritePos) - (s.(sockets) t).(socketReadPos)) <> SOCKET_BUFFER_SIZE -> 0 <= k < n -> n < 1073741824 ->
  tcp_put p t buf n k s = Ok (k', s') -> wrote p t buf k k' s s'.
Proof.
  intros O Hw Hroom Hk Hn R. unfold sock_ok in O. destruct (bufferAddr (sockets s t)) as [b|] eqn:Eb.
  2:{ unfold tcp_put in R. unfold bind at 1, sock, gets at 1 in R. now rewrite Eb in R. }
  rewrite (tcp_put_run p t buf n k s b Eb) in R. destruct (write_copy (as_pipe (sockets s t)) b (umem s p) buf n k) as [q k1] eqn:W. injection R as <- <-.
  pose proof (po_pos _ O) as P1. pose proof (po_size _ O) as P2. cbn [as_pipe pipeReadPos pipeWritePos] in P1, P2.
  assert (Room : socketWritePos (sockets s t) - socketReadPos (sockets s t) < PIPE_BUF_SIZE).
  { rewrite wrap64_small in Hroom by (unfold POS_MAX, PIPE_BUF_SIZE in *; lia). change SOCKET_BUFFER_SIZE with PIPE_BUF_SIZE in Hroom. lia. }
  destruct (write_copy_ok (as_pipe (sockets s t)) b (umem s p) buf n k q k1 O Hw Eb Room ltac:(lia) ltac:(lia) ltac:(lia) W) as (Ei & Ec & Er & Ew & [b' Eb'] & Econt).
  set (len := Z.min _ n) in *. cbn [as_pipe pipeReadPos pipeWritePos Pipe.pcount] in Er, Ew, Ec, len. assert (Hlen : 0 <= len) by (unfold len; lia).
  assert (Eq : as_pipe (with_ring q.(pipeReadPos) q.(pipeWritePos) q.(pipeBuf) (s.(sockets) t)) = q) by (destruct q; cbn [Pipe.pcount] in Ec; now subst).
  replace (k1 - k) with len by lia. constructor; cbn [sockets socket_bitmap umem set_sockets]; try easy; rewrite ?upd_eq.
  - intros j Hj. now rewrite upd_ne.
  - cbn [with_ring socketWritePos socketReadPos]. rewrite Er, Ew. lia.
  - unfold stream. rewrite Eq. replace (k1 - k) with len by lia. exact Econt.
  - unfold sock_ok. cbn [with_ring bufferAddr]. rewrite Eb', <- Eb'. rewrite Eq. destruct O as [O1 O2 O3 O4 O5]. constructor; rewrite ?Er, ?Ew, ?Ec; cbn [as_pipe Pipe.pcount] in *; try lia; try (unfold len, PIPE_BUF_SIZE in *; lia); intros _; now exists b'.
  - congruence.
Qed.

(** The values a program can return. *)
Definition yields {A} (P : A -> Prop) (c : M net A) : Prop := forall s a s', c s = Ok (a, s') -> P a.
Lemma yields_ret {A} (P : A -> Prop) a : P a -> yields P (ret a).
Proof. intros H s x s' [= <- _]. exact H. Qed.
Lemma yields_bind {A B} (P : B -> Prop) (c : M net A) k : (forall a, yields P (k a)) -> yields P (bind c k).
Proof. intros H s a s' R. minv R. eapply H, R. Qed.
Lemma yields_fail {A} (P : A -> Prop) e : yields P (@fail net A e).
Proof. intros s a s'. discriminate. Qed.
Ltac yield := repeat first [apply yields_ret; try easy | apply yields_fail | apply yields_bind; intros
  | lazymatch goal with |- yields _ (if ?b then _ else _) => destruct b end | lazymatch goal with |- yields _ (match ?o with _ => _ end) => destruct o end].
Ltac locks := unfold lock_sock, unlock_sock, lock_state, unlock_state, sock, wakeup.

Lemma write_loop0 p i t buf n k : does calm (tcp_write_loop 0 p i t buf n k) /\ yields (fun r => fst r = k) (tcp_write_loop 0 p i t buf n k).
Proof. cbn [tcp_write_loop]. unfold tcp_write_end. split; [locks; quietly ltac:(fail)|yield]. Qed.
Lemma write_loop_wrote p i t buf n k s k' o s' : sock_ok (s.(sockets) t) -> (s.(sockets) t).(socketWritePos) < POS_MAX -> 0 <= k -> 0 <= n < 1073741824 -> (k < n \/ k = 0) ->
  tcp_write_loop 1 p i t buf n k s = Ok (k', o, s') -> wrote p t buf k k' s s'.
Proof.
  intros O Hw Hk Hn Hkn R.
  assert (Rest : forall c : M net (Z * outcome), does calm c -> yields (fun r => fst r = k) c -> c s = Ok (k', o, s') -> wrote p t buf k k' s s').
  { intros c D Y E. pose proof (Y _ _ _ E) as Ek. cbn [fst] in Ek. subst k'. apply wrote_calm; [exact O|]. eapply D, E. }
  cbn [tcp_write_loop] in R. destruct (Z.ltb_spec (wrap64 k) n) as [Hlt|_].
  2:{ revert R. apply Rest; unfold tcp_write_end; [locks; quietly ltac:(fail)|yield]. }
  unfold bind at 1, sock at 1, gets at 1 in R. destruct (is_close _); [revert R; apply Rest; unfold tcp_write_end; [locks; quietly ltac:(fail)|yield]|].
  unfold bind at 1, sock at 1, gets at 1 in R. destruct (self_read_close _); [revert R; apply Rest; unfold tcp_write_end; [locks; quietly ltac:(fail)|yield]|].
  destruct (Z.eqb_spec (wrap64 (socketWritePos (sockets s t) - socketReadPos (sockets s t))) SOCKET_BUFFER_SIZE) as [_|Hroom]; [revert R; apply Rest; [locks; quietly ltac:(fail)|yield]|].
  apply bind_ok in R as (k1 & s1 & E1 & R). rewrite wrap64_small in Hlt by lia.
  assert (W : wrote p t buf k k1 s s1) by (apply (tcp_put_wrote p t buf n); try easy; lia).
  destruct (write_loop0 p i t buf n k1) as [D Y]. pose proof (Y _ _ _ R) as Ek. cbn [fst] in Ek. subst k'. apply (wrote_calm_r _ _ _ _ _ _ s1); [exact W|]. eapply D, R.
Qed.
(** What a write does, whichever peer it found. *)
Definition peer_or_0 (o : option Z) : Z := match o with Some t => t | None => 0 end.
Lemma tcp_write_wrote p i buf n s ot k' r s' : (forall j, sock_ok (s.(sockets) j)) -> (forall j, (s.(sockets) j).(socketWritePos) < POS_MAX) -> 0 <= n < 1073741824 ->
  tcp_write p i buf n s = Ok (ot, k', r, s') -> wrote p (peer_or_0 ot) buf 0 k' s s'.
Proof.
  intros O Hw Hn R.
  unfold tcp_write in R. apply bind_ok in R as ([] & s1 & E1 & R). pose proof (calm_lock i _ _ _ E1) as C1. unfold bind at 1, sock at 1, gets at 1 in R.
  destruct (self_write_close _).
  { apply bind_ok in R as ([] & s2 & E2 & R). injection R as <- <- _ <-. apply wrote_calm; [apply O|]. apply (ncalm_trans _ s1); [exact C1|]. eapply calm_unlock, E2. }
  apply bind_ok in R as ([] & s2 & E2 & R). pose proof (calm_unlock i _ _ _ E2) as C2. apply bind_ok in R as (o & s3 & E3 & R). pose proof (calm_peer i _ _ _ E3) as C3.
  assert (C : calm s s3) by (eapply ncalm_trans; [|exact C3]; eapply ncalm_trans; eassumption). clear C1 C2 C3 E1 E2 E3.
  destruct o as [t|]; [|injection R as <- <- _ <-; apply wrote_calm; [apply O|exact C]].
  unfold bind at 1, sock at 1, gets at 1 in R. destruct (self_read_close _); [injection R as <- <- _ <-; apply wrote_calm; [apply O|exact C]|].
  apply bind_ok in R as ([] & s4 & E4 & R). assert (C4 : calm s s4) by (apply (ncalm_trans _ s3); [exact C|]; assert (D : does calm (lock_state i)) by (locks; quietly ltac:(fail)); eapply D, E4).
  apply bind_ok in R as ([k1 r'] & s5 & E5 & R). injection R as <- <- _ <-. cbn [peer_or_0]. apply (wrote_calm_l _ _ _ _ _ _ s4); [exact C4|].
  destruct C4 as [[A _] _]. pose proof (A t) as At. pose proof At as [= _ Ew _].
  apply (write_loop_wrote p i t buf n 0 s4 k1 r'); [apply (sock_ok_ring _ _ At), O|rewrite Ew; apply Hw|lia|easy|now right|exact E5].
Qed.

(** The reader took the first bytes of its ring into its buffer. *)
Record took (p i buf : Z) (s s' : net) : Prop := {
  tk_others : forall j, j <> i -> ring_of (s'.(sockets) j) = ring_of (s.(sockets) j);
  tk_bitmap : s'.(socket_bitmap) = s.(socket_bitmap);
  tk_pos : (s.(sockets) i).(socketReadPos) <= (s'.(sockets) i).(socketReadPos) /\ (s'.(sockets) i).(socketWritePos) = (s.(sockets) i).(socketWritePos) /\
           (s'.(sockets) i).(bufferAddr) = (s.(sockets) i).(bufferAddr);
  tk_data : let r := (s'.(sockets) i).(socketReadPos) - (s.(sockets) i).(socketReadPos) in
            stream (s.(sockets) i) = mem_read (s'.(umem) p) buf r ++ stream (s'.(sockets) i);
  tk_ok : sock_ok (s'.(sockets) i)
}.
Lemma took_calm p i buf s s' : sock_ok (s.(sockets) i) -> calm s s' -> took p i buf s s'.
Proof.
  intros O [[A B] C]. pose proof (A i) as Ai. pose proof Ai as [= E1 E2 E3]. constructor; try easy.
  - rewrite E1, E2, E3. easy.
  - cbn zeta. rewrite E1, Z.sub_diag, mem_read_nil by lia. now rewrite (stream_ring _ _ Ai).
  - now apply (sock_ok_ring _ _ Ai).
Qed.
Lemma took_calm_l p i buf s0 s s1 : calm s0 s -> took p i buf s s1 -> took p i buf s0 s1.
Proof.
  intros [[A B] C] W. pose proof (A i) as Ai. pose proof Ai as [= E1 E2 E3]. constructor.
  - intros j Hj. rewrite <- A. now apply W.
  - rewrite <- B. apply W.
  - rewrite <- E1, <- E2, <- E3. apply W.
  - cbn zeta. rewrite <- E1, <- (stream_ring _ _ Ai). apply W.
  - apply W.
Qed.
Lemma take_copies p i buf n s o s' b : (s.(sockets) i).(bufferAddr) = Some b -> (s.(sockets) i).(socketReadPos) <> (s.(sockets) i).(socketWritePos) ->
  tcp_take p i buf n s = Ok (o, s') -> exists q mem', read_run (as_pipe (s.(sockets) i)) (s.(umem) p) buf n false = Ok (q, mem', o) /\
    s'.(umem) p = mem' /\ s'.(socket_bitmap) = s.(socket_bitmap) /\ ring_of (s'.(sockets) i) = (q.(pipeReadPos), q.(pipeWritePos), q.(pipeBuf)) /\
    Pipe.pcount q = 2 /\ forall j, j <> i -> ring_of (s'.(sockets) j) = ring_of (s.(sockets) j).
Proof.
  intros Eb Hne R. unfold read_run. cbn [as_pipe pipeReadPos pipeWritePos pipeBuf Pipe.pcount]. rewrite (proj2 (Z.eqb_neq _ _) Hne). cbn [andb]. rewrite Eb.
  unfold tcp_take in R. unfold bind at 1, sock at 1, gets at 1 in R. rewrite Eb in R. change SOCKET_BUFFER_SIZE with PIPE_BUF_SIZE in R. cbn [as_pipe pipeReadPos pipeWritePos pipeBuf].
  set (x := sockets s i) in *. set (vol := Z.min n _) in *. apply bind_ok in R as ([] & s1 & E1 & R). apply bind_ok in R as ([] & s2 & E2 & R). injection E2 as <-.
  assert (C : calm (set_sockets (upd (sockets s1) i (with_ring (wrap64 (socketReadPos (sockets s1 i) + vol)) (socketWritePos (sockets s1 i)) (bufferAddr (sockets s1 i)) (sockets s1 i))) s1) s' /\ o = Returns (sext32 vol)).
  { minv R. injection R as <- <-. split; [|reflexivity]. eapply ncalm_trans; [|eapply calm_unlock; eassumption]. assert (D : does calm (wakeup (CWrite i))) by (locks; quietly ltac:(fail)). eapply D. eassumption. }
  clear R. destruct C as [[[C1 C2] C3] ->]. cbn [sockets set_sockets socket_bitmap umem] in C1, C2, C3. eexists _, _. split; [reflexivity|].
  rewrite C3, C2. assert (S1 : sockets s1 = sockets s /\ socket_bitmap s1 = socket_bitmap s /\ umem s1 p = if vol =? 0 then umem s p
    else if socketReadPos x mod PIPE_BUF_SIZE <? wrap64 (socketReadPos x + vol) mod PIPE_BUF_SIZE
      then mem_write buf (mem_read b (socketReadPos x mod PIPE_BUF_SIZE) vol) (umem s p)
      else mem_write (buf + PIPE_BUF_SIZE - socketReadPos x mod PIPE_BUF_SIZE) (mem_read b 0 (wrap64 (socketReadPos x + vol) mod PIPE_BUF_SIZE))
        (mem_write buf (mem_read b (socketReadPos x mod PIPE_BUF_SIZE) (PIPE_BUF_SIZE - socketReadPos x mod PIPE_BUF_SIZE)) (umem s p))).
  { destruct (vol =? 0); cbn [negb] in E1; [injection E1 as <-; easy|]. destruct (_ <? _).
    - injection E1 as <-. cbn [sockets socket_bitmap umem set_umem]. now rewrite upd_eq.
    - injection E1 as <-. cbn [sockets socket_bitmap umem set_umem]. now rewrite !upd_eq. }
  destruct S1 as (S1 & S2 & S3). split; [exact S3|]. split; [exact S2|]. rewrite S1 in C1. fold x in C1. split; [|split; [reflexivity|]].
  - rewrite C1, upd_eq. cbn [ring_of with_ring socketReadPos socketWritePos bufferAddr]. unfold ring_of. cbn [with_ring socketReadPos socketWritePos bufferAddr]. now rewrite Eb.
  - intros j Hj. rewrite C1. now rewrite upd_ne.
Qed.
Lemma tcp_take_took p i buf n s o s' : sock_ok (s.(sockets) i) -> (s.(sockets) i).(socketWritePos) < POS_MAX -> 0 <= n < 1073741824 ->
  (s.(sockets) i).(socketReadPos) <> (s.(sockets) i).(socketWritePos) -> tcp_take p i buf n s = Ok (o, s') -> took p i buf s s'.
Proof.
  intros O Hw Hn Hne R. unfold sock_ok in O. destruct (bufferAddr (sockets s i)) as [b|] eqn:Eb; [|destruct O; congruence].
  destruct (take_copies p i buf n s o s' b Eb Hne R) as (q & mem' & E & Em & Ebm & Eq & Ec & Eo).
  destruct (read_run_ok (as_pipe (sockets s i)) (umem s p) buf n false O ltac:(easy) Hw Hn) as (q' & m' & o' & E' & P). rewrite E in E'. injection E' as <- <- <-.
  pose proof Eq as [= Q1 Q2 Q3]. destruct (rp_write _ _ _ _ _ _ _ _ P) as [Pw _]. cbn [as_pipe pipeWritePos] in Pw. pose proof (rp_mono _ _ _ _ _ _ _ _ P) as Pm. cbn [as_pipe pipeReadPos] in Pm.
  assert (Ap : as_pipe (sockets s' i) = q) by (unfold as_pipe; rewrite Q1, Q2, Q3; destruct q; cbn [Pipe.pcount] in Ec; now subst).
  assert (Bq : pipeBuf q = Some b).
  { unfold read_run in E. cbn [as_pipe pipeReadPos pipeWritePos pipeBuf] in E. rewrite (proj2 (Z.eqb_neq _ _) Hne) in E. cbn [andb] in E. rewrite Eb in E. now injection E as <- _ _. }
  constructor.
  - exact Eo.
  - exact Ebm.
  - rewrite Q1, Q2, Q3, Bq. easy.
  - cbn zeta. unfold stream. rewrite Ap, Q1, Em. pose proof (rp_data _ _ _ _ _ _ _ _ P) as D. pose proof (rp_contents _ _ _ _ _ _ _ _ P) as K. cbn [as_pipe pipeReadPos] in D, K. rewrite D, K. now rewrite take_drop.
  - unfold sock_ok. rewrite Q3, Bq, Ap. apply P.
Qed.
Lemma sock_ok_pos x : sock_ok x -> 0 <= x.(socketReadPos) <= x.(socketWritePos).
Proof. unfold sock_ok. destruct (bufferAddr x); [intros O; exact (po_pos _ O)|intros [-> ->]; lia]. Qed.
Lemma tcp_take_empty p i buf n s o s' : sock_ok (s.(sockets) i) -> (s.(sockets) i).(socketWritePos) < POS_MAX -> 0 <= n ->
  (s.(sockets) i).(socketReadPos) = (s.(sockets) i).(socketWritePos) -> tcp_take p i buf n s = Ok (o, s') -> calm s s'.
Proof.
  intros O Hw Hn He R. pose proof (sock_ok_pos _ O) as P. unfold tcp_take in R. unfold bind at 1, sock at 1, gets at 1 in R. rewrite He in R. rewrite Z.sub_diag in R. change (wrap64 0) with 0 in R. rewrite Z.min_r in R by lia.
  cbn [Z.eqb negb] in R. unfold bind at 1, ret at 1 in R. apply bind_ok in R as ([] & s2 & E2 & R). injection E2 as <-.
  eapply ncalm_trans; [|assert (D : does calm (wakeup (CWrite i);;; unlock_sock i;;; ret (Returns (sext32 0)))) by (locks; quietly ltac:(fail)); eapply D, R].
  split; [|easy]. constructor; [|easy]. intros j. cbn [sockets set_sockets]. unfold upd. destruct (Z.eqb_spec j i) as [-> |]; [|easy]. unfold ring_of. cbn [with_ring socketReadPos socketWritePos bufferAddr].
  rewrite Z.add_0_r, wrap64_small by (unfold POS_MAX in *; lia). easy.
Qed.
Lemma read_loop_took p i buf n s o s' : sock_ok (s.(sockets) i) -> (s.(sockets) i).(socketWritePos) < POS_MAX -> 0 <= n < 1073741824 ->
  tcp_read_loop p i buf n s = Ok (o, s') -> took p i buf s s'.
Proof.
  intros O Hw Hn R. unfold tcp_read_loop in R. unfold bind at 1, sock at 1, gets at 1 in R. destruct (Z.eqb_spec (socketReadPos (sockets s i)) (socketWritePos (sockets s i))) as [He|Hne]; [|now apply (tcp_take_took p i buf n s o)].
  apply took_calm; [exact O|]. apply bind_ok in R as ([] & s1 & E1 & R). assert (D : does calm (lock_state i)) by (locks; quietly ltac:(fail)). pose proof (D _ _ _ E1) as C1. clear D E1.
  apply (ncalm_trans _ s1); [exact C1|]. unfold bind at 1, sock at 1, gets at 1 in R. destruct (negb _ && negb _).
  - assert (D : does calm (unlock_state i;;; wakeup (CWrite i);;; unlock_sock i;;; ret Sleeps)) by (locks; quietly ltac:(fail)). eapply D, R.
  - apply bind_ok in R as ([] & s2 & E2 & R). assert (D : does calm (unlock_state i)) by (locks; quietly ltac:(fail)). pose proof (D _ _ _ E2) as C2. apply (ncalm_trans _ s2); [exact C2|].
    destruct (ncalm_trans _ _ _ C1 C2) as [[A _] _]. pose proof (A i) as Ai. pose proof Ai as [= Er Ew _].
    apply (tcp_take_empty p i buf n s2 o); [now apply (sock_ok_ring _ _ Ai)|now rewrite Ew|lia|congruence|exact R].
Qed.
Lemma tcp_read_took p i buf n s o s' : sock_ok (s.(sockets) i) -> (s.(sockets) i).(socketWritePos) < POS_MAX -> 0 <= n < 1073741824 ->
  tcp_read p i buf n s = Ok (o, s') \/ tcp_read_wake p i buf n s = Ok (o, s') -> took p i buf s s'.
Proof.
  intros O Hw Hn R. assert (L : exists s1, calm s s1 /\ (tcp_read_loop p i buf n s1 = Ok (o, s') \/ calm s1 s')).
  { destruct R as [R|R]; apply bind_ok in R as ([] & s1 & E1 & R); exists s1; (split; [eapply calm_lock, E1|]); [|now left].
    unfold bind at 1, sock at 1, gets at 1 in R. destruct (self_read_close _); [|now left]. right. assert (D : does calm (unlock_sock i;;; ret (Returns (- EPIPE)))) by (locks; quietly ltac:(fail)). eapply D, R. }
  destruct L as (s1 & C & [L|L]); [|apply took_calm; [exact O|now apply (ncalm_trans _ s1)]]. apply (took_calm_l _ _ _ _ s1); [exact C|].
  destruct C as [[A _] _]. pose proof (A i) as Ai. pose proof Ai as [= _ Ew _]. apply (read_loop_took p i buf n s1 o); [now apply (sock_ok_ring _ _ Ai)|now rewrite Ew|easy|exact L].
Qed.
Lemma tcp_write_wake_wrote p i t buf n k s k' o s' : sock_ok (s.(sockets) t) -> (s.(sockets) t).(socketWritePos) < POS_MAX -> 0 <= k < n -> n < 1073741824 ->
  tcp_write_wake p i t buf n k s = Ok (k', o, s') -> wrote p t buf k k' s s'.
Proof.
  intros O Hw Hk Hn R. unfold tcp_write_wake in R. apply bind_ok in R as ([] & s1 & E1 & R). apply bind_ok in R as ([] & s2 & E2 & R).
  assert (C : calm s s2) by (eapply ncalm_trans; [eapply calm_lock, E1|]; assert (D : does calm (lock_state i)) by (locks; quietly ltac:(fail)); eapply D, E2).
  apply (wrote_calm_l _ _ _ _ _ _ s2); [exact C|]. destruct C as [[A _] _]. pose proof (A t) as At. pose proof At as [= _ Ew _].
  apply (write_loop_wrote p i t buf n k s2 k' o); [now apply (sock_ok_ring _ _ At)|now rewrite Ew|lia|lia|lia|exact R].
Qed.

(** ** The other operations *)

Lemma does_still {A} (c : M net A) : does calm c -> does still c.
Proof. intros D s a s' E. now destruct (D s a s' E). Qed.
Lemma still_copyOut p a l : does still (copyOut p a l).
Proof. intros s x s' [= _ <-]. now constructor. Qed.
Lemma calm_drop_messages n : forall i, does calm (drop_messages n i).
Proof. induction n as [|n IH]; intros i; cbn [drop_messages]; unfold message_free; locks; quietly ltac:(apply IH). Qed.
Lemma calm_tell_peer i : does calm (tell_peer i).
Proof. unfold tell_peer. locks. quietly ltac:(apply calm_peer). Qed.
Lemma calm_shutdown i how : does calm (shutdown_sock i how).
Proof. unfold shutdown_sock. locks. quietly ltac:(apply calm_tell_peer). Qed.
Lemma calm_connect i a : does calm (connect_sock i a).
Proof. unfold connect_sock, gen_local_socket_addr, find_udp_connect_socket, find_listening_socket. locks. quietly ltac:(apply calm_search). Qed.
Lemma calm_connect_wake t : does calm (connect_wake t).
Proof. unfold connect_wake. locks. quietly ltac:(fail). Qed.
Lemma calm_bind i a : does calm (bind_sock i a).
Proof. unfold bind_sock. locks. quietly ltac:(fail). Qed.
Lemma calm_listen i : does calm (listen_sock i).
Proof. unfold listen_sock. locks. quietly ltac:(fail). Qed.
Lemma calm_accept_finish i n : does calm (accept_finish i n).
Proof. unfold accept_finish. locks. quietly ltac:(fail). Qed.
Lemma calm_udp_send p i dst buf len : does calm (udp_send p i dst buf len).
Proof. unfold udp_send, find_udp_remote_socket, message_alloc, copyIn. locks. quietly ltac:(apply calm_search). Qed.
Lemma still_udp_recv p i buf len from : does still (udp_recv p i buf len from).
Proof. unfold udp_recv, message_free. locks. quietly ltac:(apply still_copyOut). Qed.
Lemma calm_read_check i : does calm (socket_read_check i).
Proof. unfold socket_read_check. locks. quietly ltac:(fail). Qed.
Lemma calm_write_check i : does calm (socket_write_check i).
Proof. unfold socket_write_check. locks. quietly ltac:(apply calm_peer). Qed.

(** A socket is given back: its ring is empty and its bit clear. *)
Record freed (i : Z) (s s' : net) : Prop := {
  fr_others : forall j, j <> i -> ring_of (s'.(sockets) j) = ring_of (s.(sockets) j);
  fr_ring : ring_of (s'.(sockets) i) = (0, 0, None);
  fr_bitmap : s'.(socket_bitmap) = bit_clear s.(socket_bitmap) i;
  fr_index : 0 <= i < SOCKET_COUNT
}.
Lemma freed_calm i s0 s s' : still s0 s -> freed i s s' -> freed i s0 s'.
Proof. intros [A B] [C D E F]. constructor; [intros j Hj; rewrite C by easy; apply A|exact D|now rewrite E, B|exact F]. Qed.
Lemma socketFree_freed i s s' : socketFree i s = Ok (tt, s') -> freed i s s'.
Proof.
  intros R. unfold socketFree in R. apply bind_ok in R as ([] & s1 & E1 & R). apply (freed_calm i s s1); [now apply (does_still _ (calm_lock i)) in E1|]. clear E1.
  apply bind_ok in R as ([] & s2 & E2 & R). injection E2 as <-. set (s2 := set_sockets _ s1) in *. unfold bind at 1, sock at 1, gets at 1 in R.
  assert (F : exists s3, still s2 s3 /\ (massert ((0 <=? i) && (i <? SOCKET_COUNT));;; modify (fun s => set_sbitmap (bit_clear (socket_bitmap s) i) s)) s3 = Ok (tt, s')).
  { minv R. match goal with H : massert _ ?a = _ |- _ => exists a; assert (Em := H) end. split; [|eapply bind_ok; eauto].
    repeat match goal with
    | H : drop_messages _ _ _ = _ |- _ => apply (does_still _ (calm_drop_messages _ _)) in H
    | H : unlock_sock _ _ = _ |- _ => apply (does_still _ (calm_unlock _)) in H
    | H : lock_state _ ?a = Ok (_, ?b) |- _ => assert (still a b) by (apply (does_still (lock_state i) ltac:(locks; quietly ltac:(fail)) _ _ _ H)); clear H
    | H : unlock_state _ ?a = Ok (_, ?b) |- _ => assert (still a b) by (apply (does_still (unlock_state i) ltac:(locks; quietly ltac:(fail)) _ _ _ H)); clear H
    | H : upd_sock _ _ ?a = Ok (_, ?b) |- _ => assert (still a b) by (apply (does_still (upd_sock i (fun x => with_state false x.(opposite_write_close) x)) ltac:(quietly ltac:(fail)) _ _ _ H)); clear H
    end. eauto 6 using still_trans. }
  destruct F as (s3 & [A B] & F). apply bind_ok in F as ([] & s4 & F1 & F2). apply massert_ok in F1 as [F1 ->]. injection F2 as <-. apply andb_prop in F1 as [F1 F1']. apply Z.leb_le in F1. apply Z.ltb_lt in F1'.
  constructor; cbn [sockets set_sbitmap socket_bitmap].
  - intros j Hj. rewrite A. unfold s2. cbn [sockets set_sockets]. now rewrite upd_ne.
  - rewrite A. unfold s2. cbn [sockets set_sockets]. now rewrite upd_eq.
  - now rewrite B.
  - lia.
Qed.
Lemma close_freed i s s' : fd_socket_close i s = Ok (tt, s') -> freed i s s'.
Proof.
  intros R. unfold fd_socket_close in R. apply bind_ok in R as (o & s1 & E1 & R). apply bind_ok in R as ([] & s2 & E2 & R). apply bind_ok in R as ([] & s3 & E3 & R).
  apply (freed_calm i s s3); [|now apply socketFree_freed]. apply (still_trans _ s1); [now apply (does_still _ (calm_peer i)) in E1|]. apply (still_trans _ s2).
  - revert E2. apply (does_still (match o with Some t => _ | None => _ end)). locks. quietly ltac:(fail).
  - revert E3. apply (does_still (wakeup (CWrite i))). locks. quietly ltac:(fail).
Qed.
Lemma socketAlloc_cases n : forall i s r s', socketAlloc_loop n i s = Ok (r, s') -> 0 <= i ->
  r = -1 /\ s' = s \/ i <= r < i + Z.of_nat n /\ bit_taken s.(socket_bitmap) r = false /\ s' = set_sbitmap (bit_take s.(socket_bitmap) r) s.
Proof.
  induction n as [|n IH]; intros i s r s' R Hi; cbn [socketAlloc_loop] in R; [injection R as <- <-; now left|]. unfold bind at 1, gets at 1 in R. destruct (bit_taken (socket_bitmap s) i) eqn:E.
  - destruct (IH _ _ _ _ R ltac:(lia)) as [|(A & B)]; [now left|]. right. split; [lia|exact B].
  - injection R as <- <-. right. split; [lia|easy].
Qed.
(** A socket is taken: it was free, and its ring is new. *)
Record opened_sock (n : Z) (s s' : net) : Prop := {
  op_others : forall j, j <> n -> ring_of (s'.(sockets) j) = ring_of (s.(sockets) j);
  op_index : 0 <= n < SOCKET_COUNT;
  op_was : bit_taken s.(socket_bitmap) n = false;
  op_bitmap : s'.(socket_bitmap) = bit_take s.(socket_bitmap) n;
  op_ring : ring_of (s'.(sockets) n) = ((s.(sockets) n).(socketReadPos), (s.(sockets) n).(socketWritePos), Some (fun _ => 0))
}.
Lemma socket_take_opened domain ty me s n s' : socket_take domain ty me s = Ok (n, s') -> n = -1 /\ s' = s \/ opened_sock n s s'.
Proof.
  intros R. unfold socket_take in R. apply bind_ok in R as (k & s1 & E1 & R). destruct (socketAlloc_cases _ _ _ _ _ E1 ltac:(lia)) as [[-> ->]|(Hk & Ht & ->)].
  { injection R as <- <-. now left. }
  right. change (Z.of_nat (Z.to_nat SOCKET_COUNT)) with SOCKET_COUNT in Hk. destruct (Z.ltb_spec k 0); [lia|]. set (s1 := set_sbitmap _ s) in *.
  apply bind_ok in R as ([] & s2 & E2 & R). apply (does_still _ (calm_lock k)) in E2 as [A2 B2]. apply bind_ok in R as ([] & s3 & E3 & R).
  assert (S3 : still s2 s3) by (revert E3; apply (does_still (lock_state k)); locks; quietly ltac:(fail)). destruct S3 as [A3 B3].
  apply bind_ok in R as ([] & s4 & E4 & R). injection E4 as <-. set (s4 := set_sockets _ s3) in *. apply bind_ok in R as ([] & s5 & E5 & R). injection R as <- <-.
  assert (S5 : still s4 s5) by (revert E5; apply (does_still (unlock_state k)); locks; quietly ltac:(fail)). destruct S5 as [A5 B5].
  assert (K : ring_of (sockets s3 k) = ring_of (sockets s k)) by now rewrite A3, A2.
  constructor.
  - intros j Hj. rewrite A5. unfold s4. cbn [sockets set_sockets]. rewrite upd_ne by easy. now rewrite A3, A2.
  - lia.
  - exact Ht.
  - rewrite B5. unfold s4. cbn [socket_bitmap set_sockets]. now rewrite B3, B2.
  - rewrite A5. unfold s4. cbn [sockets set_sockets]. rewrite upd_eq. injection K as K1 K2 _. unfold ring_of, fresh_socket. cbn [socketReadPos socketWritePos bufferAddr]. now rewrite K1, K2.
Qed.

(** ** Every run *)

(** The state, and for every socket the bytes that were written to it and those
    its readers have in their buffers, since it was made. *)
Record gnet : Type := MkG { nt : net; sent : Z -> list Z; received : Z -> list Z }.
Definition wpos (s : net) (j : Z) : Z := (s.(sockets) j).(socketWritePos).
Definition rpos (s : net) (j : Z) : Z := (s.(sockets) j).(socketReadPos).
(** After a run that wrote from [a] in the memory of [p], or read to [a]. *)
Definition after_write (p a : Z) (g : gnet) (s' : net) : gnet :=
  MkG s' (fun j => g.(sent) j ++ mem_read (g.(nt).(umem) p) a (wpos s' j - wpos g.(nt) j)) g.(received).
Definition after_read (p a : Z) (g : gnet) (s' : net) : gnet :=
  MkG s' g.(sent) (fun j => g.(received) j ++ mem_read (s'.(umem) p) a (rpos s' j - rpos g.(nt) j)).
Definition forget (i : Z) (g : gnet) (s' : net) : gnet := MkG s' (upd g.(sent) i []) (upd g.(received) i []).
Definition same_bytes (g : gnet) (s' : net) : gnet := MkG s' g.(sent) g.(received).

Inductive nstep : gnet -> gnet -> Prop :=
  | ns_write g p i buf n r s' : 0 <= n < 1073741824 -> tcp_write p i buf n g.(nt) = Ok (r, s') -> nstep g (after_write p buf g s')
  | ns_write_wake g p i t buf n k r s' : 0 <= k < n -> n < 1073741824 -> tcp_write_wake p i t buf n k g.(nt) = Ok (r, s') -> nstep g (after_write p (buf + k) g s')
  | ns_read g p i buf n o s' : 0 <= n < 1073741824 -> tcp_read p i buf n g.(nt) = Ok (o, s') \/ tcp_read_wake p i buf n g.(nt) = Ok (o, s') -> nstep g (after_read p buf g s')
  | ns_close g i s' : fd_socket_close i g.(nt) = Ok (tt, s') -> nstep g (forget i g s')
  | ns_free g i s' : socketFree i g.(nt) = Ok (tt, s') -> nstep g (forget i g s')
  | ns_take g domain ty me n s' : socket_take domain ty me g.(nt) = Ok (n, s') -> nstep g (same_bytes g s')
  | ns_unlock g i s' : unlock_sock i g.(nt) = Ok (tt, s') -> nstep g (same_bytes g s')
  | ns_lock g i s' : lock_sock i g.(nt) = Ok (tt, s') -> nstep g (same_bytes g s')
  | ns_bind g i a s' : bind_sock i a g.(nt) = Ok (tt, s') -> nstep g (same_bytes g s')
  | ns_listen g i s' : listen_sock i g.(nt) = Ok (tt, s') -> nstep g (same_bytes g s')
  | ns_connect g i a r s' : connect_sock i a g.(nt) = Ok (r, s') -> nstep g (same_bytes g s')
  | ns_connect_wake g t r s' : connect_wake t g.(nt) = Ok (r, s') -> nstep g (same_bytes g s')
  | ns_accept g i n a s' : accept_finish i n g.(nt) = Ok (a, s') -> nstep g (same_bytes g s')
  | ns_sendto g p i dst buf len r s' : udp_send p i dst buf len g.(nt) = Ok (r, s') -> nstep g (same_bytes g s')
  | ns_recvfrom g p i buf len from r s' : udp_recv p i buf len from g.(nt) = Ok (r, s') -> nstep g (same_bytes g s')
  | ns_shutdown g i how r s' : shutdown_sock i how g.(nt) = Ok (r, s') -> nstep g (same_bytes g s')
  | ns_check g i r s' : socket_read_check i g.(nt) = Ok (r, s') \/ socket_write_check i g.(nt) = Ok (r, s') -> nstep g (same_bytes g s')
  | ns_user g p m : nstep g (same_bytes g (set_umem (upd g.(nt).(umem) p m) g.(nt))).
(** At boot every socket is free; runs in which the 64-bit positions stay below
    2^62. *)
Record net_boot (s : net) : Prop := { nb_rings : forall j, ring_of (s.(sockets) j) = (0, 0, None); nb_bits : forall j, bit_taken s.(socket_bitmap) j = false }.
Inductive nreach : gnet -> Prop :=
  | nr_boot s : net_boot s -> nreach (MkG (socket_init s) (fun _ => []) (fun _ => []))
  | nr_step g g' : nreach g -> nstep g g' -> (forall j, wpos g'.(nt) j < POS_MAX) -> nreach g'.

Record ninv (g : gnet) : Prop := {
  ni_ok : forall j, sock_ok (g.(nt).(sockets) j);
  ni_max : forall j, wpos g.(nt) j < POS_MAX;
  ni_fifo : forall j, g.(sent) j = g.(received) j ++ stream (g.(nt).(sockets) j);
  ni_free : forall j, 0 <= j < SOCKET_COUNT -> bit_taken g.(nt).(socket_bitmap) j = false -> (g.(nt).(sockets) j).(bufferAddr) = None /\ g.(sent) j = [] /\ g.(received) j = []
}.
Lemma ninv_still g s' : ninv g -> still g.(nt) s' -> ninv (same_bytes g s').
Proof.
  intros I [A B]. constructor; cbn [same_bytes nt sent received].
  - intros j. apply (sock_ok_ring _ _ (A j)), I.
  - intros j. pose proof (A j) as [= _ E _]. unfold wpos. rewrite E. apply I.
  - intros j. rewrite (stream_ring _ _ (A j)). apply I.
  - intros j Hj. rewrite B. pose proof (A j) as [= _ _ E]. rewrite E. now apply I.
Qed.
Lemma stream_none x : x.(bufferAddr) = None -> stream x = [].
Proof. intros E. unfold stream, contents, as_pipe. cbn [pipeBuf]. now rewrite E. Qed.
Lemma ninv_wrote g p t buf k k' s' : ninv g -> wrote p t buf k k' g.(nt) s' -> (forall j, wpos s' j < POS_MAX) -> ninv (after_write p (buf + k) g s').
Proof.
  intros I W Hm. assert (O : forall j, j <> t -> wpos s' j - wpos (nt g) j = 0) by (intros j Hj; pose proof (wr_others _ _ _ _ _ _ _ W j Hj) as [= _ E _]; unfold wpos; lia).
  assert (T : wpos s' t - wpos (nt g) t = k' - k) by (unfold wpos; pose proof (wr_pos _ _ _ _ _ _ _ W); lia).
  constructor; cbn [after_write nt sent received].
  - intros j. destruct (Z.eq_dec j t) as [-> | Hj]; [apply W|]. apply (sock_ok_ring _ _ (wr_others _ _ _ _ _ _ _ W j Hj)), I.
  - exact Hm.
  - intros j. destruct (Z.eq_dec j t) as [-> | Hj].
    + now rewrite T, (wr_stream _ _ _ _ _ _ _ W), (ni_fifo _ I), app_assoc.
    + rewrite O, mem_read_nil, app_nil_r, (stream_ring _ _ (wr_others _ _ _ _ _ _ _ W j Hj)) by (lia || easy). apply I.
  - intros j Hj. rewrite (wr_bitmap _ _ _ _ _ _ _ W). intros Hb. destruct (ni_free _ I j Hj Hb) as (F1 & F2 & F3). destruct (Z.eq_dec j t) as [-> | Hne].
    + split; [now apply W|]. split; [|exact F3]. rewrite F2, T. cbn [app]. pose proof (wr_stream _ _ _ _ _ _ _ W) as S.
      rewrite (stream_none _ (wr_buffer _ _ _ _ _ _ _ W F1)), (stream_none _ F1) in S. now cbn [app] in S.
    + pose proof (wr_others _ _ _ _ _ _ _ W j Hne) as [= _ _ E]. rewrite E, O, mem_read_nil, app_nil_r by (lia || easy). easy.
Qed.
Lemma ninv_took g p i buf s' : ninv g -> took p i buf g.(nt) s' -> (forall j, wpos s' j < POS_MAX) -> ninv (after_read p buf g s').
Proof.
  intros I W Hm. assert (O : forall j, j <> i -> rpos s' j - rpos (nt g) j = 0) by (intros j Hj; pose proof (tk_others _ _ _ _ _ W j Hj) as [= E _ _]; unfold rpos; lia).
  constructor; cbn [after_read nt sent received].
  - intros j. destruct (Z.eq_dec j i) as [-> | Hj]; [apply W|]. apply (sock_ok_ring _ _ (tk_others _ _ _ _ _ W j Hj)), I.
  - exact Hm.
  - intros j. destruct (Z.eq_dec j i) as [-> | Hj].
    + rewrite (ni_fifo _ I), (tk_data _ _ _ _ _ W). now rewrite app_assoc.
    + rewrite O, mem_read_nil, app_nil_r, (stream_ring _ _ (tk_others _ _ _ _ _ W j Hj)) by (lia || easy). apply I.
  - intros j Hj. rewrite (tk_bitmap _ _ _ _ _ W). intros Hb. destruct (ni_free _ I j Hj Hb) as (F1 & F2 & F3). destruct (Z.eq_dec j i) as [-> | Hne].
    + destruct (tk_pos _ _ _ _ _ W) as (_ & _ & E). rewrite E. split; [exact F1|]. split; [exact F2|]. rewrite F3. cbn [app].
      pose proof (tk_data _ _ _ _ _ W) as S. cbn zeta in S. rewrite (stream_none _ F1) in S. symmetry in S. apply app_nil in S as [S _]. exact S.
    + pose proof (tk_others _ _ _ _ _ W j Hne) as [= _ _ E]. rewrite E, O, mem_read_nil, app_nil_r by (lia || easy). easy.
Qed.
Lemma ninv_freed g i s' : ninv g -> freed i g.(nt) s' -> ninv (forget i g s').
Proof.
  intros I W. pose proof (fr_ring _ _ _ W) as [= R1 R2 R3].
  constructor; cbn [forget nt sent received].
  - intros j. destruct (Z.eq_dec j i) as [-> | Hj]; [unfold sock_ok; now rewrite R3|]. apply (sock_ok_ring _ _ (fr_others _ _ _ W j Hj)), I.
  - intros j. unfold wpos. destruct (Z.eq_dec j i) as [-> | Hj]; [now rewrite R2|]. pose proof (fr_others _ _ _ W j Hj) as [= _ E _]. rewrite E. apply I.
  - intros j. destruct (Z.eq_dec j i) as [-> | Hj]; [rewrite !upd_eq; now rewrite (stream_none _ R3)|]. rewrite !upd_ne, (stream_ring _ _ (fr_others _ _ _ W j Hj)) by easy. apply I.
  - intros j Hj. rewrite (fr_bitmap _ _ _ W), clear_taken. destruct (Z.eqb_spec j i) as [-> | Hne]; [intros _; now rewrite !upd_eq|]. cbn [negb andb]. intros Hb. rewrite !upd_ne by easy.
    pose proof (fr_others _ _ _ W j Hne) as [= _ _ E]. rewrite E. now apply I.
Qed.
Lemma ninv_opened g n s' : ninv g -> opened_sock n g.(nt) s' -> ninv (same_bytes g s').
Proof.
  intros I W. destruct (ni_free _ I n (op_index _ _ _ W) (op_was _ _ _ W)) as (F1 & F2 & F3). pose proof (ni_ok _ I n) as O. unfold sock_ok in O. rewrite F1 in O. destruct O as [O1 O2].
  pose proof (op_ring _ _ _ W) as R. rewrite O1, O2 in R. pose proof R as [= R1 R2 R3].
  assert (P : as_pipe (sockets s' n) = MkPipe 2 0 0 (Some (fun _ => 0))) by (unfold as_pipe; now rewrite R1, R2, R3).
  constructor; cbn [same_bytes nt sent received].
  - intros j. destruct (Z.eq_dec j n) as [-> | Hj]; [|apply (sock_ok_ring _ _ (op_others _ _ _ W j Hj)), I]. unfold sock_ok. rewrite R3, P. constructor; cbn [pipeReadPos pipeWritePos Pipe.pcount pipeBuf]; try (unfold PIPE_BUF_SIZE; lia). eauto.
  - intros j. unfold wpos. destruct (Z.eq_dec j n) as [-> | Hj]; [now rewrite R2|]. pose proof (op_others _ _ _ W j Hj) as [= _ E _]. rewrite E. apply I.
  - intros j. destruct (Z.eq_dec j n) as [-> | Hj]; [unfold stream; now rewrite P, F2, F3|]. rewrite (stream_ring _ _ (op_others _ _ _ W j Hj)). apply I.
  - intros j Hj. rewrite (op_bitmap _ _ _ W), take_taken. intros Hb. apply orb_false_iff in Hb as [Hne Hb]. apply Z.eqb_neq in Hne. pose proof (op_others _ _ _ W j Hne) as [= _ _ E]. rewrite E. now apply I.
Qed.
Lemma nstep_inv g g' : ninv g -> nstep g g' -> (forall j, wpos g'.(nt) j < POS_MAX) -> ninv g'.
Proof.
  intros I S Hm. destruct S; cbn [same_bytes forget after_write after_read nt] in Hm.
  - destruct r as [[ot k'] o]. pose proof (tcp_write_wrote p i buf n (nt g) ot k' o s' (ni_ok _ I) (ni_max _ I) ltac:(lia) ltac:(eassumption)) as W. rewrite <- (Z.add_0_r buf). now apply (ninv_wrote g p (peer_or_0 ot) buf 0 k').
  - destruct r as [k' o]. apply (ninv_wrote g p t buf k k'); [easy| |exact Hm]. eapply tcp_write_wake_wrote; try eassumption; apply I.
  - apply (ninv_took g p i); [easy| |exact Hm]. eapply tcp_read_took; try eassumption; apply I.
  - apply ninv_freed; [easy|]. now apply close_freed.
  - apply ninv_freed; [easy|]. now apply socketFree_freed.
  - destruct (socket_take_opened _ _ _ _ _ _ H) as [[_ ->]|W]; [now destruct g|]. now apply (ninv_opened g n).
  - apply ninv_still; [easy|]. eapply (does_still _ (calm_unlock i)); eassumption.
  - apply ninv_still; [easy|]. eapply (does_still _ (calm_lock i)); eassumption.
  - apply ninv_still; [easy|]. eapply (does_still _ (calm_bind i a)); eassumption.
  - apply ninv_still; [easy|]. eapply (does_still _ (calm_listen i)); eassumption.
  - apply ninv_still; [easy|]. eapply (does_still _ (calm_connect i a)); eassumption.
  - apply ninv_still; [easy|]. eapply (does_still _ (calm_connect_wake t)); eassumption.
  - apply ninv_still; [easy|]. eapply (does_still _ (calm_accept_finish i n)); eassumption.
  - apply ninv_still; [easy|]. eapply (does_still _ (calm_udp_send p i dst buf len)); eassumption.
  - apply ninv_still; [easy|]. eapply still_udp_recv; eassumption.
  - apply ninv_still; [easy|]. eapply (does_still _ (calm_shutdown i how)); eassumption.
  - apply ninv_still; [easy|]. destruct H; [eapply (does_still _ (calm_read_check i))|eapply (does_still _ (calm_write_check i))]; eassumption.
  - apply ninv_still; [easy|]. now constructor.
Qed.
Lemma nreach_inv g : nreach g -> ninv g.
Proof.
  induction 1 as [s [R B]|]; [|eapply nstep_inv; eassumption]. constructor; cbn [nt sent received socket_init set_mfree sockets socket_bitmap].
  - intros j. pose proof (R j) as [= R1 R2 R3]. unfold sock_ok. now rewrite R3.
  - intros j. pose proof (R j) as [= R1 R2 R3]. unfold wpos. cbn [sockets socket_init set_mfree]. now rewrite R2.
  - intros j. pose proof (R j) as [= R1 R2 R3]. now rewrite (stream_none _ R3).
  - intros j _ _. pose proof (R j) as [= R1 R2 R3]. now rewrite R3.
Qed.

(** C34. Streams are queues: in every reachable state of the sockets, whatever is
    opened, connected, written, read, shut down and closed and whoever slept on
    the way, the bytes written to a socket are the bytes its readers found in
    their buffers followed by those in its ring, at most 131072. *)
Theorem stream_is_fifo g : nreach g -> forall j, g.(sent) j = g.(received) j ++ stream (g.(nt).(sockets) j) /\ (length (stream (g.(nt).(sockets) j)) <= Z.to_nat SOCKET_BUFFER_SIZE)%nat.
Proof.
  intros R j. pose proof (nreach_inv _ R) as I. split; [apply I|]. pose proof (ni_ok _ I j) as O. unfold sock_ok in O. destruct (bufferAddr _) as [b|] eqn:E; [|rewrite (stream_none _ E); cbn [length]; lia].
  unfold stream, contents. cbn [as_pipe pipeBuf pipeReadPos pipeWritePos]. rewrite E, length_ring. pose proof (po_size _ O) as S. cbn [as_pipe pipeReadPos pipeWritePos] in S. change SOCKET_BUFFER_SIZE with PIPE_BUF_SIZE. lia.
Qed.

(** ** What a write and a read return *)

(** Only the depths of locks and the log of wakeups differ. *)
Record locked (dl ds : Z -> Z) (s s' : net) : Prop := {
  lk_sockets : s'.(sockets) = s.(sockets);
  lk_umem : s'.(umem) = s.(umem);
  lk_pool : s'.(message_pool) = s.(message_pool) /\ s'.(message_free_list) = s.(message_free_list);
  lk_lock : forall j, s'.(lock) j = s.(lock) j + dl j;
  lk_state : forall j, s'.(state_lock) j = s.(state_lock) j + ds j
}.
Definition at1 (i : Z) (d : Z) (j : Z) : Z := if j =? i then d else 0.
Definition none (_ : Z) : Z := 0.
Definition add2 (f g : Z -> Z) (j : Z) : Z := f j + g j.
Lemma locked_trans a b c d s1 s2 s3 : locked a b s1 s2 -> locked c d s2 s3 -> locked (add2 a c) (add2 b d) s1 s3.
Proof. intros [A1 A2 [A5 A6] A3 A4] [B1 B2 [B5 B6] B3 B4]. constructor; [congruence|congruence|split; congruence| |]; intros j; unfold add2; rewrite ?B3, ?B4, ?A3, ?A4; lia. Qed.
Lemma locked_ext a b c d s s' : (forall j, a j = c j) -> (forall j, b j = d j) -> locked a b s s' -> locked c d s s'.
Proof. intros E F [A1 A2 A5 A3 A4]. constructor; [easy|easy|easy| |]; intros j; rewrite <- ?E, <- ?F; easy. Qed.
Lemma locked_refl s : locked none none s s.
Proof. constructor; try easy; intros; unfold none; lia. Qed.
Lemma lock_run i s : exists s', lock_sock i s = Ok (tt, s') /\ locked (at1 i 1) none s s'.
Proof. eexists. split; [reflexivity|]. constructor; try easy; intros j; cbn [lock state_lock set_lock]; unfold upd, at1, none; [|lia]. destruct (Z.eqb_spec j i) as [-> |]; lia. Qed.
Lemma unlock_run i s : 0 < s.(lock) i -> exists s', unlock_sock i s = Ok (tt, s') /\ locked (at1 i (-1)) none s s'.
Proof.
  intros H. unfold unlock_sock. unfold bind at 1, gets at 1. rewrite massert_run by now apply Z.ltb_lt. eexists. split; [reflexivity|].
  constructor; try easy; intros j; cbn [lock state_lock set_lock]; unfold upd, at1, none; [|lia]. destruct (Z.eqb_spec j i) as [-> |]; lia.
Qed.
Lemma lock_state_run i s : exists s', lock_state i s = Ok (tt, s') /\ locked none (at1 i 1) s s'.
Proof. eexists. split; [reflexivity|]. constructor; try easy; intros j; cbn [lock state_lock set_stlock]; unfold upd, at1, none; [lia|]. destruct (Z.eqb_spec j i) as [-> |]; lia. Qed.
Lemma unlock_state_run i s : 0 < s.(state_lock) i -> exists s', unlock_state i s = Ok (tt, s') /\ locked none (at1 i (-1)) s s'.
Proof.
  intros H. unfold unlock_state. unfold bind at 1, gets at 1. rewrite massert_run by now apply Z.ltb_lt. eexists. split; [reflexivity|].
  constructor; try easy; intros j; cbn [lock state_lock set_stlock]; unfold upd, at1, none; [lia|]. destruct (Z.eqb_spec j i) as [-> |]; lia.
Qed.
Lemma swakeup_run c s : exists s', wakeup c s = Ok (tt, s') /\ locked none none s s'.
Proof. eexists. split; [reflexivity|]. constructor; try easy; intros j; unfold none; cbn [lock state_lock wake_chan]; lia. Qed.

(** The first socket that passes a test. *)
Fixpoint first_match (test : Z -> Socket -> bool) (f : Z -> Socket) (n : nat) (i : Z) : option Z :=
  match n with O => None | S n' => if test i (f i) then Some i else first_match test f n' (i + 1) end.
Definition held (o : option Z) : Z -> Z := match o with Some t => at1 t 1 | None => none end.
Lemma search_run test n : forall i s, (forall j, 0 <= s.(lock) j) -> exists s', search test true n i s = Ok (first_match test s.(sockets) n i, s') /\ locked (held (first_match test s.(sockets) n i)) none s s'.
Proof.
  induction n as [|n IH]; intros i s L; cbn [search first_match]; [exists s; split; [reflexivity|apply locked_refl]|].
  destruct (lock_run i s) as (s1 & E1 & K1). rewrite (bind_run _ _ _ _ _ E1). unfold bind at 1, sock at 1, gets at 1. rewrite (lk_sockets _ _ _ _ K1). destruct (test i (sockets s i)); [now exists s1|].
  destruct (unlock_run i s1) as (s2 & E2 & K2); [rewrite (lk_lock _ _ _ _ K1); unfold at1; rewrite Z.eqb_refl; specialize (L i); lia|]. rewrite (bind_run _ _ _ _ _ E2).
  assert (K : locked none none s s2) by (eapply locked_ext; [| |eapply locked_trans; eassumption]; intros j; unfold add2, at1, none; destruct (j =? i); lia).
  destruct (IH (i + 1) s2) as (s3 & E3 & K3); [intros j; rewrite (lk_lock _ _ _ _ K); unfold none; specialize (L j); lia|]. rewrite (lk_sockets _ _ _ _ K) in E3, K3. exists s3. split; [exact E3|].
  eapply locked_ext; [| |eapply locked_trans; [exact K|exact K3]]; intros j; unfold add2, none; lia.
Qed.
Definition peer_of (s : net) (i : Z) : option Z := first_match (is_peer i (s.(sockets) i)) s.(sockets) (Z.to_nat SOCKET_COUNT) 0.
Lemma peer_run i s : (forall j, 0 <= s.(lock) j) -> exists s', remote_find_peer_socket i s = Ok (peer_of s i, s') /\ locked (held (peer_of s i)) none s s'.
Proof. intros L. unfold remote_find_peer_socket. unfold bind at 1, sock at 1, gets at 1. now apply search_run. Qed.

(** The depths of the locks after a run, relative to those before, when of the
    sockets nothing but rings changed. *)
Definition ring_only (s s' : net) : Prop := forall j, exists r w b, s'.(sockets) j = with_ring r w b (s.(sockets) j).
Record depths (dl ds : Z -> Z) (s s' : net) : Prop := {
  dp_lock : forall j, s'.(lock) j = s.(lock) j + dl j;
  dp_state : forall j, s'.(state_lock) j = s.(state_lock) j + ds j;
  dp_rings : ring_only s s'
}.
Lemma ring_only_same s s' : s'.(sockets) = s.(sockets) -> ring_only s s'.
Proof. intros E j. rewrite E. exists (socketReadPos (sockets s j)), (socketWritePos (sockets s j)), (bufferAddr (sockets s j)). now destruct (sockets s j). Qed.
Lemma ring_only_trans a b c : ring_only a b -> ring_only b c -> ring_only a c.
Proof. intros A B j. destruct (A j) as (r & w & x & E), (B j) as (r' & w' & x' & E'). exists r', w', x'. now rewrite E', E. Qed.
Lemma ring_only_upd s t r w b : ring_only s (set_sockets (upd s.(sockets) t (with_ring r w b (s.(sockets) t))) s).
Proof. intros j. cbn [sockets set_sockets]. unfold upd. destruct (Z.eqb_spec j t) as [-> |]; [now exists r, w, b|]. now apply ring_only_same. Qed.
Lemma depths_locked a b s s' : locked a b s s' -> depths a b s s'.
Proof. intros K. constructor; [apply K|apply K|apply ring_only_same, K]. Qed.
Lemma depths_trans a b c d s1 s2 s3 : depths a b s1 s2 -> depths c d s2 s3 -> depths (add2 a c) (add2 b d) s1 s3.
Proof. intros [A1 A2 A3] [B1 B2 B3]. constructor; [| |eapply ring_only_trans; eassumption]; intros j; unfold add2; rewrite ?B1, ?B2, ?A1, ?A2; lia. Qed.
Lemma depths_ext a b c d s s' : (forall j, a j = c j) -> (forall j, b j = d j) -> depths a b s s' -> depths c d s s'.
Proof. intros E F [A1 A2 A3]. constructor; [| |easy]; intros j; rewrite <- ?E, <- ?F; easy. Qed.
Ltac count := cbn [fst snd]; unfold add2, at1, none, held in *; repeat match goal with |- context [?a =? ?b] => destruct (Z.eqb_spec a b); try subst end; try lia.

Lemma write_end_run i t k s : 0 < s.(lock) t -> 0 < s.(state_lock) i -> exists s', tcp_write_end i t k s = Ok (k, Returns k, s') /\ depths (at1 t (-1)) (at1 i (-1)) s s'.
Proof.
  intros Ht Hi. unfold tcp_write_end. destruct (unlock_state_run i s Hi) as (s1 & E1 & K1). rewrite (bind_run _ _ _ _ _ E1). destruct (swakeup_run (CRead t) s1) as (s2 & E2 & K2). rewrite (bind_run _ _ _ _ _ E2).
  destruct (unlock_run t s2) as (s3 & E3 & K3); [rewrite (lk_lock _ _ _ _ K2), (lk_lock _ _ _ _ K1); unfold none; lia|]. rewrite (bind_run _ _ _ _ _ E3). exists s3. split; [reflexivity|].
  eapply depths_ext; [| |apply depths_locked; eapply locked_trans; [exact K1|eapply locked_trans; [exact K2|exact K3]]]; intros j; count.
Qed.
Lemma write_sleep_run i t (k : Z) s : 0 < s.(lock) t -> 0 < s.(state_lock) i ->
  exists s', (unlock_state i ;;; wakeup (CRead t) ;;; unlock_sock t ;;; ret (k, Sleeps)) s = Ok (k, Sleeps, s') /\ depths (at1 t (-1)) (at1 i (-1)) s s'.
Proof.
  intros Ht Hi. destruct (unlock_state_run i s Hi) as (s1 & E1 & K1). rewrite (bind_run _ _ _ _ _ E1). destruct (swakeup_run (CRead t) s1) as (s2 & E2 & K2). rewrite (bind_run _ _ _ _ _ E2).
  destruct (unlock_run t s2) as (s3 & E3 & K3); [rewrite (lk_lock _ _ _ _ K2), (lk_lock _ _ _ _ K1); unfold none; lia|]. rewrite (bind_run _ _ _ _ _ E3). exists s3. split; [reflexivity|].
  eapply depths_ext; [| |apply depths_locked; eapply locked_trans; [exact K1|eapply locked_trans; [exact K2|exact K3]]]; intros j; count.
Qed.
(** How the loop of a write ends, and after how many bytes. *)
Definition room (y : Socket) : Z := SOCKET_BUFFER_SIZE - (y.(socketWritePos) - y.(socketReadPos)).
Definition write_spec (x y : Socket) (n : Z) : Z * outcome :=
  if n =? 0 then (0, Returns 0) else if x.(is_close) then (0, Returns (- EPIPE)) else if n <=? room y then (n, Returns n) else (room y, Sleeps).
Lemma write_loop_run p i t buf n s b : i <> t -> 0 < s.(lock) t -> 0 < s.(state_lock) i -> (s.(sockets) t).(bufferAddr) = Some b -> sock_ok (s.(sockets) t) -> wpos s t < POS_MAX ->
  0 <= n < 1073741824 -> (s.(sockets) t).(self_read_close) = false ->
  exists s', tcp_write_loop 1 p i t buf n 0 s = Ok (write_spec (s.(sockets) i) (s.(sockets) t) n, s') /\ depths (at1 t (-1)) (at1 i (-1)) s s'.
Proof.
  intros Hit Ht Hi Eb O Hw Hn Hr. pose proof O as O'. unfold sock_ok in O'. rewrite Eb in O'. pose proof (po_pos _ O') as P1. pose proof (po_size _ O') as P2. cbn [as_pipe pipeReadPos pipeWritePos] in P1, P2. unfold wpos in Hw.
  unfold write_spec. cbn [tcp_write_loop]. change (wrap64 0) with 0. destruct (Z.eqb_spec n 0) as [-> |Hn0]; [cbn [Z.ltb Z.compare]; now apply write_end_run|]. destruct (Z.ltb_spec 0 n); [|lia].
  unfold bind at 1, sock at 1, gets at 1. destruct (is_close (sockets s i)) eqn:Ec.
  { cbn [Z.eqb]. destruct (unlock_state_run i s Hi) as (s1 & E1 & K1). rewrite (bind_run _ _ _ _ _ E1). destruct (unlock_run t s1) as (s2 & E2 & K2); [rewrite (lk_lock _ _ _ _ K1); unfold none; lia|].
    rewrite (bind_run _ _ _ _ _ E2). exists s2. split; [reflexivity|]. eapply depths_ext; [| |apply depths_locked; eapply locked_trans; [exact K1|exact K2]]; intros j; count. }
  unfold bind at 1, sock at 1, gets at 1. rewrite Hr. rewrite (wrap64_small (_ - _)) by (unfold POS_MAX, PIPE_BUF_SIZE in *; lia). unfold room. change PIPE_BUF_SIZE with SOCKET_BUFFER_SIZE in *.
  destruct (Z.eqb_spec (socketWritePos (sockets s t) - socketReadPos (sockets s t)) SOCKET_BUFFER_SIZE) as [Hf|Hf].
  { destruct (Z.leb_spec n (SOCKET_BUFFER_SIZE - (socketWritePos (sockets s t) - socketReadPos (sockets s t)))); [lia|]. rewrite Hf, Z.sub_diag. now apply write_sleep_run. }
  pose proof (tcp_put_run p t buf n 0 s b Eb) as R. destruct (write_copy (as_pipe (sockets s t)) b (umem s p) buf n 0) as [q k1] eqn:W. rewrite (bind_run _ _ _ _ _ R). clear R.
  destruct (write_copy_ok (as_pipe (sockets s t)) b (umem s p) buf n 0 q k1 O' Hw Eb ltac:(cbn [as_pipe pipeReadPos pipeWritePos]; change PIPE_BUF_SIZE with SOCKET_BUFFER_SIZE; lia) ltac:(lia) ltac:(lia) ltac:(lia) W) as (Ei & _ & Er & Ew & _ & _).
  cbn [as_pipe pipeReadPos pipeWritePos] in Ei, Er, Ew. change PIPE_BUF_SIZE with SOCKET_BUFFER_SIZE in *. set (y := sockets s t) in *. set (s1 := set_sockets _ s).
  assert (St : sockets s1 t = with_ring (pipeReadPos q) (pipeWritePos q) (pipeBuf q) y) by (unfold s1; cbn [sockets set_sockets]; apply upd_eq). assert (Si : sockets s1 i = sockets s i) by (unfold s1; cbn [sockets set_sockets]; now apply upd_ne).
  assert (D1 : depths none none s s1) by (constructor; [intros j; unfold none, s1; cbn [lock state_lock set_sockets]; lia..|apply ring_only_upd]).
  rewrite (wrap64_small k1) by (unfold SOCKET_BUFFER_SIZE in *; lia). destruct (Z.leb_spec n (SOCKET_BUFFER_SIZE - (socketWritePos y - socketReadPos y))) as [Hle|Hgt].
  - replace k1 with n by lia. destruct (Z.ltb_spec n n); [lia|]. destruct (write_end_run i t n s1 Ht Hi) as (s2 & E2 & D2). exists s2. split; [exact E2|]. eapply depths_ext; [| |eapply depths_trans; [exact D1|exact D2]]; intros j; count.
  - replace k1 with (SOCKET_BUFFER_SIZE - (socketWritePos y - socketReadPos y)) by lia. destruct (Z.ltb_spec (SOCKET_BUFFER_SIZE - (socketWritePos y - socketReadPos y)) n); [|lia].
    unfold bind at 1, sock at 1, gets at 1. rewrite Si, Ec. unfold bind at 1, sock at 1, gets at 1. rewrite St. cbn [with_ring self_read_close socketWritePos socketReadPos]. rewrite Hr, Er, Ew.
    replace (socketWritePos y + Z.min (SOCKET_BUFFER_SIZE - (socketWritePos y - socketReadPos y)) n - socketReadPos y) with SOCKET_BUFFER_SIZE by lia.
    change (wrap64 SOCKET_BUFFER_SIZE =? SOCKET_BUFFER_SIZE) with true. destruct (write_sleep_run i t (SOCKET_BUFFER_SIZE - (socketWritePos y - socketReadPos y)) s1 Ht Hi) as (s2 & E2 & D2). exists s2. split; [exact E2|]. eapply depths_ext; [| |eapply depths_trans; [exact D1|exact D2]]; intros j; count.
Qed.
Lemma first_match_spec test f n : forall i t, first_match test f n i = Some t -> i <= t < i + Z.of_nat n /\ test t (f t) = true.
Proof.
  induction n as [|n IH]; intros i t; cbn [first_match]; [easy|]. destruct (test i (f i)) eqn:E; [intros [= <-]; split; [lia|easy]|]. intros H. apply IH in H. split; [lia|easy].
Qed.
Lemma peer_other s i t : peer_of s i = Some t -> i <> t /\ (s.(sockets) t).(used) = true.
Proof. intros H. apply first_match_spec in H as [_ H]. unfold is_peer in H. rewrite !andb_true_iff, negb_true_iff, Z.eqb_neq in H. tauto. Qed.

(** What a writer may rely on: the rings are sound and sockets in use have one. *)
Record usable (s : net) : Prop := {
  us_lock : forall j, 0 <= s.(lock) j;
  us_state : forall j, 0 <= s.(state_lock) j;
  us_ok : forall j, sock_ok (s.(sockets) j);
  us_max : forall j, wpos s j < POS_MAX;
  us_buffer : forall j, (s.(sockets) j).(used) = true -> exists b, (s.(sockets) j).(bufferAddr) = Some b
}.
(** The result of a write, and the locks it leaves taken. *)
Definition tcp_write_result (s : net) (i n : Z) : (option Z * Z * outcome) * (Z -> Z) :=
  if (s.(sockets) i).(self_write_close) then (None, 0, Returns (- EPIPE), none)
  else match peer_of s i with
       | None => (None, 0, Returns (- EPIPE), none)
       | Some t => if (s.(sockets) t).(self_read_close) then (Some t, 0, Returns (- EPIPE), at1 t 1)
                   else let '(k, o) := write_spec (s.(sockets) i) (s.(sockets) t) n in (Some t, k, o, none)
       end.
Lemma tcp_write_run p i buf n s : usable s -> 0 <= n < 1073741824 ->
  exists s', tcp_write p i buf n s = Ok (fst (tcp_write_result s i n), s') /\ depths (snd (tcp_write_result s i n)) none s s'.
Proof.
  intros [UL US UO UM UB] Hn. unfold tcp_write, tcp_write_result. destruct (lock_run i s) as (s1 & E1 & K1). rewrite (bind_run _ _ _ _ _ E1). unfold bind at 1, sock at 1, gets at 1. rewrite (lk_sockets _ _ _ _ K1).
  destruct (unlock_run i s1) as (s2 & E2 & K2); [rewrite (lk_lock _ _ _ _ K1); unfold at1; rewrite Z.eqb_refl; specialize (UL i); lia|].
  assert (K : locked none none s s2) by (eapply locked_ext; [| |eapply locked_trans; eassumption]; intros j; count).
  destruct (self_write_close _); [rewrite (bind_run _ _ _ _ _ E2); exists s2; split; [reflexivity|now apply depths_locked]|]. rewrite (bind_run _ _ _ _ _ E2). clear E1 E2 K1 K2.
  destruct (peer_run i s2) as (s3 & E3 & K3); [intros j; rewrite (lk_lock _ _ _ _ K); unfold none; specialize (UL j); lia|].
  assert (Pe : peer_of s2 i = peer_of s i) by (unfold peer_of; now rewrite (lk_sockets _ _ _ _ K)). rewrite Pe in E3, K3. rewrite (bind_run _ _ _ _ _ E3).
  pose proof (locked_trans _ _ _ _ _ _ _ K K3) as K4. destruct (peer_of s i) as [t|] eqn:Ep; cbn [held] in K4.
  2:{ exists s3. split; [reflexivity|]. apply depths_locked. eapply locked_ext; [| |exact K4]; intros j; count. }
  destruct (peer_other s i t Ep) as [Hit Hu]. destruct (UB t Hu) as [b Eb]. unfold bind at 1, sock at 1, gets at 1. rewrite (lk_sockets _ _ _ _ K4). destruct (self_read_close (sockets s t)) eqn:Er.
  { exists s3. split; [reflexivity|]. apply depths_locked. eapply locked_ext; [| |exact K4]; intros j; count. }
  destruct (lock_state_run i s3) as (s4 & E4 & K5). rewrite (bind_run _ _ _ _ _ E4). pose proof (locked_trans _ _ _ _ _ _ _ K4 K5) as K6. clear E3 E4 K K3 K4 K5. pose proof (lk_sockets _ _ _ _ K6) as Sk.
  destruct (write_loop_run p i t buf n s4 b Hit) as (s5 & E5 & D); try (rewrite Sk; easy); try easy.
  - rewrite (lk_lock _ _ _ _ K6). specialize (UL t). unfold add2, none, held, at1. rewrite Z.eqb_refl. lia.
  - rewrite (lk_state _ _ _ _ K6). specialize (US i). unfold add2, none, at1. rewrite Z.eqb_refl. lia.
  - unfold wpos. rewrite Sk. apply UM.
  - rewrite Sk in E5. destruct (write_spec (sockets s i) (sockets s t) n) as [k o]. rewrite (bind_run _ _ _ _ _ E5). exists s5. split; [reflexivity|].
    eapply depths_ext; [| |eapply depths_trans; [apply depths_locked, K6|exact D]]; intros j; count.
Qed.


Lemma tcp_take_run p i buf n s b : 0 < s.(lock) i -> (s.(sockets) i).(bufferAddr) = Some b ->
  exists s', tcp_take p i buf n s = Ok (Returns (sext32 (Z.min n (wrap64 (wpos s i - rpos s i)))), s') /\ depths (at1 i (-1)) none s s'.
Proof.
  intros L Eb. unfold tcp_take. unfold bind at 1, sock at 1, gets at 1. rewrite Eb. fold (wpos s i). fold (rpos s i). set (vol := Z.min n _). 
  assert (Cp : forall c : M net unit, (exists m, c s = Ok (tt, set_umem m s)) -> exists s', (c ;;; upd_sock i (fun x => with_ring (wrap64 (x.(socketReadPos) + vol)) x.(socketWritePos) x.(bufferAddr) x) ;;; wakeup (CWrite i) ;;; unlock_sock i ;;; ret (Returns (sext32 vol))) s = Ok (Returns (sext32 vol), s') /\ depths (at1 i (-1)) none s s').
  { intros c [m Ec]. rewrite (bind_run _ _ _ _ _ Ec). unfold bind at 1, upd_sock, modify. unfold bind at 1, wakeup, modify. set (s2 := wake_chan _ _). destruct (unlock_run i s2 L) as (s3 & E3 & K3). rewrite (bind_run _ _ _ _ _ E3).
    exists s3. split; [reflexivity|]. constructor; [intros j; now rewrite (lk_lock _ _ _ _ K3)|intros j; now rewrite (lk_state _ _ _ _ K3)|].
    eapply ring_only_trans; [|apply ring_only_same, K3]. apply (ring_only_upd (set_umem m s)). }
  destruct (negb (vol =? 0)); [destruct (_ <? _)|].
  - apply Cp. eexists. reflexivity.
  - apply Cp. eexists. reflexivity.
  - apply Cp. exists (umem s). now destruct s.
Qed.
(** C36. What one end of a connection writes the other end reads: with an empty
    ring that has room, a write returns its length, and a read of that length by
    the peer then returns it with the same bytes in the reader's memory; the ring
    is empty again and every lock is released. *)
Theorem socket_roundtrip p q i t buf dst n s : usable s -> peer_of s i = Some t -> 0 < n <= SOCKET_BUFFER_SIZE -> rpos s t = wpos s t -> wpos s t + n < POS_MAX ->
  (s.(sockets) i).(self_write_close) = false -> (s.(sockets) i).(is_close) = false -> (s.(sockets) t).(self_read_close) = false ->
  exists s1 s2, tcp_write p i buf n s = Ok (Some t, n, Returns n, s1) /\ tcp_read q t dst n s1 = Ok (Returns n, s2) /\
    mem_read (s2.(umem) q) dst n = mem_read (s.(umem) p) buf n /\ stream (s2.(sockets) t) = [] /\ depths none none s s2.
Proof.
  intros U Ep Hn He Hmax Hw Hc Hr. destruct (peer_other s i t Ep) as [Hit Hu]. destruct (us_buffer _ U t Hu) as [b Eb]. pose proof (us_ok _ U t) as O. pose proof (sock_ok_pos _ O) as Pos. unfold wpos, rpos in He, Hmax.
  assert (Hb : n < 1073741824) by (unfold SOCKET_BUFFER_SIZE in Hn; lia). destruct (tcp_write_run p i buf n s U ltac:(lia)) as (s1 & E1 & D1).
  assert (Res : tcp_write_result s i n = (Some t, n, Returns n, none)).
  { unfold tcp_write_result. rewrite Hw, Ep, Hr. unfold write_spec, room. rewrite Hc, He, Z.sub_diag, Z.sub_0_r. destruct (Z.eqb_spec n 0); [lia|]. destruct (Z.leb_spec n SOCKET_BUFFER_SIZE); [easy|lia]. }
  rewrite Res in E1, D1. cbn [fst snd] in E1, D1. pose proof (tcp_write_wrote p i buf n s (Some t) n _ s1 (us_ok _ U) (us_max _ U) ltac:(lia) E1) as W. cbn [peer_or_0] in W.
  destruct (wr_pos _ _ _ _ _ _ _ W) as (_ & P1 & P2). pose proof (wr_stream _ _ _ _ _ _ _ W) as St. rewrite Z.add_0_r, Z.sub_0_r in *.
  assert (Empty : stream (sockets s t) = []) by (unfold stream, contents, as_pipe; cbn [pipeBuf pipeReadPos pipeWritePos]; rewrite Eb, He; unfold ring; now rewrite Z.sub_diag).
  rewrite Empty in St. cbn [app] in St. pose proof (wr_ok _ _ _ _ _ _ _ W) as O1. destruct (dp_rings _ _ _ _ D1 t) as (r1 & w1 & b1 & X1).
  assert (B1 : exists b', bufferAddr (sockets s1 t) = Some b') by (unfold sock_ok in O1; destruct (bufferAddr (sockets s1 t)) as [b'|]; [now exists b'|lia]). destruct B1 as [b' B1].
  destruct (lock_run t s1) as (s2 & E2 & K2). pose proof (us_lock _ U t) as Lt. assert (L2 : 0 < lock s2 t) by (rewrite (lk_lock _ _ _ _ K2), (dp_lock _ _ _ _ D1); unfold none, at1; rewrite Z.eqb_refl; lia).
  destruct (tcp_take_run q t dst n s2 b' L2 ltac:(now rewrite (lk_sockets _ _ _ _ K2))) as (s3 & E3 & D3). unfold wpos, rpos in E3. rewrite (lk_sockets _ _ _ _ K2), P1, P2 in E3.
  replace (socketWritePos (sockets s t) + n - socketReadPos (sockets s t)) with n in E3 by lia. rewrite wrap64_small, Z.min_id, sext32_small in E3 by lia.
  assert (Rd : tcp_read q t dst n s1 = Ok (Returns n, s3)).
  { unfold tcp_read. rewrite (bind_run _ _ _ _ _ E2). unfold bind at 1, sock at 1, gets at 1. rewrite (lk_sockets _ _ _ _ K2), X1. cbn [with_ring self_read_close]. rewrite Hr. unfold tcp_read_loop. unfold bind at 1, sock at 1, gets at 1.
    rewrite (lk_sockets _ _ _ _ K2), P1, P2. destruct (Z.eqb_spec (socketReadPos (sockets s t)) (socketWritePos (sockets s t) + n)); [lia|exact E3]. }
  exists s1, s3. split; [exact E1|]. split; [exact Rd|]. pose proof (tcp_read_took q t dst n s1 _ s3 O1 ltac:(rewrite P1; lia) ltac:(lia) (or_introl Rd)) as T.
  destruct (take_copies q t dst n s2 _ s3 b' ltac:(now rewrite (lk_sockets _ _ _ _ K2)) ltac:(rewrite (lk_sockets _ _ _ _ K2), P1, P2; lia) E3) as (qp & mem' & Er & _ & _ & Eq & _ & _).
  assert (Ap : as_pipe (sockets s2 t) = as_pipe (sockets s1 t)) by now rewrite (lk_sockets _ _ _ _ K2). unfold sock_ok in O1. rewrite B1 in O1.
  destruct (read_run_ok (as_pipe (sockets s2 t)) (umem s2 q) dst n false ltac:(now rewrite Ap) ltac:(easy) ltac:(rewrite Ap; cbn [as_pipe pipeWritePos]; lia) ltac:(lia)) as (q' & m' & o' & Er' & P).
  rewrite Er in Er'. injection Er' as <- <- <-. destruct (rp_return _ _ _ _ _ _ _ _ P n eq_refl) as [(? & ? & _)|(_ & Pr & _)]; [easy|]. rewrite Ap in Pr. cbn [as_pipe pipeReadPos] in Pr. injection Eq as Eq1 _ _.
  pose proof (tk_data _ _ _ _ _ T) as Dt. cbn zeta in Dt. rewrite Eq1, <- Pr, St in Dt.
  assert (Ln : length (mem_read (umem s p) buf n) = length (mem_read (umem s3 q) dst n)) by (apply Nat2Z.inj; rewrite !length_mem_read; lia).
  rewrite <- (app_nil_r (mem_read (umem s p) buf n)) in Dt. apply app_inj_1 in Dt as [Da Db]; [|exact Ln]. split; [now symmetry|]. split; [now symmetry|].
  eapply depths_ext; [| |eapply depths_trans; [exact D1|eapply depths_trans; [apply depths_locked, K2|exact D3]]]; intros j; count.
Qed.

(** ** Connections *)

(** Steps that leave the table of sockets alone. *)
Definition frozen (s s' : net) : Prop := s'.(sockets) = s.(sockets).
Lemma frozen_lock i s u s' : lock_sock i s = Ok (u, s') -> frozen s s'.
Proof. now intros [= _ <-]. Qed.
Lemma frozen_unlock i s u s' : unlock_sock i s = Ok (u, s') -> frozen s s'.
Proof. unfold unlock_sock. intros H. minv H. injection E as _ <-. apply massert_ok in E0 as [_ ->]. now injection H as _ <-. Qed.
Lemma search_found test keep n : forall i s o s', search test keep n i s = Ok (o, s') -> o = first_match test s.(sockets) n i /\ frozen s s'.
Proof.
  induction n as [|n IH]; intros i s o s' R; cbn [search first_match] in *; [now injection R as <- <-|]. apply bind_ok in R as ([] & s1 & E1 & R). apply frozen_lock in E1. unfold bind at 1, sock at 1, gets at 1 in R. rewrite E1 in R.
  destruct (test i (sockets s i)).
  - apply bind_ok in R as ([] & s2 & E2 & R). injection R as <- <-. split; [easy|]. destruct keep; [injection E2 as <-; exact E1|]. apply frozen_unlock in E2. unfold frozen in *. congruence.
  - apply bind_ok in R as ([] & s2 & E2 & R). apply frozen_unlock in E2. apply IH in R as [-> R]. unfold frozen in *. rewrite E2, E1. split; [easy|congruence].
Qed.
(** What a connect to a listening socket leaves: the address of the client, with
    a port, is the last in the queue of the listener. *)
Lemma connect_queues i a s o t pos s1 : SOCK_IS_UDP (s.(sockets) i).(type) = false -> connect_sock i a s = Ok (o, (t, pos), s1) -> o <> Returns (-1) -> i <> t ->
  let x := s1.(sockets) i in let y := s.(sockets) t in
  is_listening a (Z.land (s.(sockets) i).(type) 15) t y = true /\ x.(target_addr) = a /\ x.(used) = (s.(sockets) i).(used) /\
  s1.(sockets) t = with_waiting (upd y.(waiting_queue) (y.(waiting_t) mod PENDING_COUNT) x.(addr)) y.(waiting_h) (y.(waiting_t) + 1) y /\ s1.(socket_bitmap) = s.(socket_bitmap).
Proof.
  intros Hu R Ho Hit. assert (Bm : s1.(socket_bitmap) = s.(socket_bitmap)) by (destruct (calm_connect i a _ _ _ R) as [[_ B] _]; exact B). unfold connect_sock in R.
  apply bind_ok in R as ([] & s2 & E2 & R). apply frozen_lock in E2. unfold bind at 1, sock at 1, gets at 1 in R. apply bind_ok in R as ([] & s3 & E3 & R).
  assert (K3 : exists g, sockets s3 i = with_addr g (sockets s i) /\ forall j, j <> i -> sockets s3 j = sockets s j).
  { destruct (port (addr (sockets s2 i)) =? 0).
    - apply bind_ok in E3 as (g & s4 & E4 & E3). injection E4 as <- <-. injection E3 as <-. cbn [sockets set_sockets set_port]. rewrite E2. eexists. split; [apply upd_eq|]. intros j Hj. now apply upd_ne.
    - injection E3 as <-. rewrite E2. exists (addr (sockets s i)). split; [now destruct (sockets s i)|easy]. }
  destruct K3 as (g & K3 & K3'). clear E3. apply bind_ok in R as ([] & s4 & E4 & R). injection E4 as <-. set (s4 := set_sockets _ s3) in *.
  assert (K4 : sockets s4 i = with_target a (with_addr g (sockets s i)) /\ forall j, j <> i -> sockets s4 j = sockets s j).
  { unfold s4. cbn [sockets set_sockets]. rewrite upd_eq, K3. split; [easy|]. intros j Hj. rewrite upd_ne by easy. now apply K3'. }
  apply bind_ok in R as ([] & s5 & E5 & R). apply frozen_unlock in E5. unfold bind at 1, sock at 1, gets at 1 in R. rewrite E5 in R. destruct K4 as [K4 K4']. rewrite K4 in R. cbn [with_target with_addr type] in R. rewrite Hu in R.
  apply bind_ok in R as (o' & s6 & E6 & R). apply search_found in E6 as [Em E6]. destruct o' as [t'|]; [|now injection R as <- _ _ _]. symmetry in Em. apply first_match_spec in Em as [_ Em]. rewrite E5 in Em.
  unfold bind at 1, sock at 1, gets at 1 in R. destruct (_ =? PENDING_COUNT); [now injection R as <- _ _ _|]. unfold bind at 1, sock at 1, gets at 1 in R. apply bind_ok in R as ([] & s7 & E7 & R). injection E7 as <-. set (s7 := set_sockets _ s6) in *.
  unfold bind at 1, sock at 1, gets at 1 in R. apply bind_ok in R as ([] & s8 & E8 & R). injection E8 as <-. unfold bind at 1, sock at 1, gets at 1 in R. apply bind_ok in R as ([] & s9 & E9 & R). apply frozen_unlock in E9. injection R as _ -> _ <-.
  assert (S9 : sockets s9 = sockets s7) by exact E9. rewrite S9. assert (S6 : sockets s6 = sockets s4) by (unfold frozen in *; congruence).
  assert (S7i : sockets s7 i = with_target a (with_addr g (sockets s i))) by (unfold s7; cbn [sockets set_sockets]; rewrite upd_ne, S6 by easy; exact K4).
  rewrite K4' in Em by easy. cbn zeta. split; [exact Em|]. rewrite S7i. cbn [with_target with_addr target_addr used addr]. split; [easy|]. split; [easy|]. split; [|exact Bm].
  unfold s7. cbn [sockets set_sockets]. rewrite upd_eq, S6, K4, K4' by easy. reflexivity.
Qed.
Lemma take_sockets domain ty me s n s' : socket_take domain ty me s = Ok (n, s') -> 0 <= n ->
  bit_taken s.(socket_bitmap) n = false /\ s'.(sockets) n = fresh_socket domain ty me (s.(sockets) n) /\ forall j, j <> n -> s'.(sockets) j = s.(sockets) j.
Proof.
  intros R Hn. unfold socket_take in R. apply bind_ok in R as (k & s1 & E1 & R). destruct (socketAlloc_cases _ _ _ _ _ E1 ltac:(lia)) as [[-> ->]|(Hk & Ht & ->)]; [injection R as <- _; lia|].
  destruct (Z.ltb_spec k 0); [lia|]. apply bind_ok in R as ([] & s2 & E2 & R). apply frozen_lock in E2. apply bind_ok in R as ([] & s3 & E3 & R). injection E3 as <-. apply bind_ok in R as ([] & s4 & E4 & R). injection E4 as <-.
  apply bind_ok in R as ([] & s5 & E5 & R). injection R as <- <-. unfold unlock_state in E5. minv E5. injection E as <- <-. apply massert_ok in E0 as [_ ->]. injection E5 as <-. cbn [sockets set_sockets set_stlock]. rewrite E2. cbn [sockets set_sbitmap].
  split; [exact Ht|]. split; [apply upd_eq|]. intros j Hj. now apply upd_ne.
Qed.
Lemma accept_sockets i n s a s' : i <> n -> accept_finish i n s = Ok (a, s') ->
  a = (s.(sockets) i).(waiting_queue) ((s.(sockets) i).(waiting_h) mod PENDING_COUNT) /\ s'.(sockets) n = with_target a (with_addr (s.(sockets) i).(addr) (s.(sockets) n)) /\
  s'.(sockets) i = with_waiting (s.(sockets) i).(waiting_queue) ((s.(sockets) i).(waiting_h) + 1) (s.(sockets) i).(waiting_t) (s.(sockets) i) /\ forall j, j <> i -> j <> n -> s'.(sockets) j = s.(sockets) j.
Proof.
  intros Hin R. unfold accept_finish in R. unfold bind at 1, sock at 1, gets at 1 in R. do 3 (apply bind_ok in R as ([] & ? & E & R); injection E as <-). unfold bind at 1, sock at 1, gets at 1 in R. apply bind_ok in R as ([] & s4 & E & R). injection E as <-.
  apply bind_ok in R as ([] & s5 & E & R). apply frozen_unlock in E. injection R as <- <-. rewrite E. cbn [sockets set_sockets wake_chan]. split; [easy|]. rewrite !upd_eq. rewrite (upd_ne _ i _ n), upd_eq by congruence. split; [easy|].
  rewrite !(upd_ne _ n _ i) by easy. split; [easy|]. intros j Hj Hj'. now rewrite !upd_ne.
Qed.

(** A connection is made between two peers: a client whose [connect] reached
    a listener with no one waiting, and the socket that the listener's [accept]
    makes for it, find each other as peers, and [accept] reports the client's
    address; nobody is left waiting. *)
Theorem connect_accept_peers i t a s o pos s1 l1 domain ty me n s2 u2 adr s3 : (s.(sockets) i).(used) = true -> SOCK_IS_UDP (s.(sockets) i).(type) = false -> i <> t ->
  bit_taken s.(socket_bitmap) i = true -> bit_taken s.(socket_bitmap) t = true -> (s.(sockets) t).(waiting_h) = (s.(sockets) t).(waiting_t) ->
  connect_sock i a s = Ok (o, (t, pos), s1) -> o <> Returns (-1) ->
  lock_sock t s1 = Ok (tt, l1) -> socket_take domain ty me l1 = Ok (n, s2) -> 0 <= n -> unlock_sock n s2 = Ok (tt, u2) -> accept_finish t n u2 = Ok (adr, s3) ->
  adr = (s3.(sockets) i).(addr) /\ is_peer i (s3.(sockets) i) n (s3.(sockets) n) = true /\ is_peer n (s3.(sockets) n) i (s3.(sockets) i) = true /\
  (s3.(sockets) t).(waiting_h) = (s3.(sockets) t).(waiting_t).
Proof.
  intros Hu Ht Hit Bi Bt Hq C Ho Lk T Hn Ul A. injection Lk as <-. apply frozen_unlock in Ul. destruct (connect_queues i a s o t pos s1 Ht C Ho Hit) as (Hl & Ca & Cu & Ct & Cb). cbn zeta in *.
  destruct (take_sockets _ _ _ _ _ _ T Hn) as (Tb & Tn & To). cbn [sockets socket_bitmap set_lock] in Tb, Tn, To. rewrite Cb in Tb. assert (Hin : i <> n) by congruence. assert (Htn : t <> n) by congruence.
  destruct (accept_sockets t n u2 adr s3 Htn A) as (Aa & An & At & Ao). rewrite Ul in Aa, An, At, Ao. rewrite To, Ct in Aa, An, At by easy. cbn [with_waiting waiting_queue waiting_h waiting_t addr] in Aa, An, At. rewrite Hq, upd_eq in Aa.
  rewrite Ao, To by easy. rewrite Aa in An. split; [exact Aa|]. unfold is_peer. rewrite An, At, Tn. cbn [with_target with_addr fresh_socket used addr target_addr port waiting_h waiting_t with_waiting]. rewrite Cu, Hu, Ca.
  unfold is_listening in Hl. rewrite !andb_true_iff, Z.eqb_eq in Hl. destruct Hl as [[[_ _] Hp] _]. rewrite Hp, !Z.eqb_refl, (proj2 (Z.eqb_neq i n) Hin), (proj2 (Z.eqb_neq n i)) by congruence. rewrite Hq, (Z.eqb_sym (port a)), Hp. easy.
Qed.

(** ** Datagrams arrive *)

Lemma search_free_run test n : forall i s, (forall j, 0 <= s.(lock) j) -> exists s', search test false n i s = Ok (first_match test s.(sockets) n i, s') /\ locked none none s s'.
Proof.
  induction n as [|n IH]; intros i s L; cbn [search first_match]; [exists s; split; [reflexivity|apply locked_refl]|].
  destruct (lock_run i s) as (s1 & E1 & K1). rewrite (bind_run _ _ _ _ _ E1). unfold bind at 1, sock at 1, gets at 1. rewrite (lk_sockets _ _ _ _ K1).
  destruct (unlock_run i s1) as (s2 & E2 & K2); [rewrite (lk_lock _ _ _ _ K1); unfold at1; rewrite Z.eqb_refl; specialize (L i); lia|].
  assert (K : locked none none s s2) by (eapply locked_ext; [| |eapply locked_trans; eassumption]; intros j; unfold add2, at1, none; destruct (j =? i); lia).
  destruct (test i (sockets s i)); rewrite (bind_run _ _ _ _ _ E2); [now exists s2|].
  destruct (IH (i + 1) s2) as (s3 & E3 & K3); [intros j; rewrite (lk_lock _ _ _ _ K); unfold none; specialize (L j); lia|]. rewrite (lk_sockets _ _ _ _ K) in E3. exists s3. split; [exact E3|].
  eapply locked_ext; [| |eapply locked_trans; [exact K|exact K3]]; intros j; unfold add2, none; lia.
Qed.
Definition receiver (s : net) (i : Z) (dst : SocketAddr) : option Z := first_match (takes_datagrams dst (s.(sockets) i).(type) i) s.(sockets) (Z.to_nat SOCKET_COUNT) 0.
(** A message is in the pool with its sender and bytes, and at the end of the
    receiver's queue. *)
Record queued_at (t m : Z) (from : SocketAddr) (bytes : list Z) (s s' : net) : Prop := {
  qa_messages : (s'.(sockets) t).(messages) = (s.(sockets) t).(messages) ++ [m];
  qa_from : (s'.(message_pool) m).(m_from) = from;
  qa_bytes : mem_read (s'.(message_pool) m).(m_data) 0 (s'.(message_pool) m).(m_length) = bytes;
  qa_length : (s'.(message_pool) m).(m_length) = Z.of_nat (length bytes);
  qa_free : s.(message_free_list) = m :: s'.(message_free_list);
  qa_umem : s'.(umem) = s.(umem);
  qa_locks : forall j, s'.(lock) j = s.(lock) j
}.
Lemma read_back a f l : mem_read (mem_write a l f) a (Z.of_nat (length l)) = l.
Proof.
  apply (nth_ext _ _ 0 0); [apply Nat2Z.inj; rewrite length_mem_read; lia|]. intros k Hk. assert (Hk' : (k < length l)%nat) by (apply Nat2Z.inj_lt in Hk; rewrite length_mem_read in Hk by lia; lia).
  pose proof (byte_at_mem_read (mem_write a l f) a (Z.of_nat (length l)) (Z.of_nat k) ltac:(lia)) as B. unfold byte_at in B. rewrite Nat2Z.id in B. rewrite B, mem_write_dset, dset_in by lia. unfold byte_at. f_equal. lia.
Qed.
Lemma udp_send_run p i dst buf len s t m l : (forall j, 0 <= s.(lock) j) -> receiver s i dst = Some t -> s.(message_free_list) = m :: l -> 0 <= len <= PAGE_SIZE ->
  exists s', udp_send p i dst buf len s = Ok (len, s') /\ queued_at t m (s.(sockets) i).(addr) (mem_read (s.(umem) p) buf len) s s'.
Proof.
  intros L Hr Hf Hl. unfold PAGE_SIZE in Hl. unfold udp_send. unfold bind at 1, sock at 1, gets at 1. destruct (search_free_run (takes_datagrams dst (type (sockets s i)) i) (Z.to_nat SOCKET_COUNT) 0 s L) as (s1 & E1 & K1).
  fold (receiver s i dst) in E1. rewrite Hr in E1. unfold find_udp_remote_socket. rewrite (bind_run _ _ _ _ _ E1). destruct (lk_pool _ _ _ _ K1) as [Kp Kf]. pose proof (lk_sockets _ _ _ _ K1) as Ks. pose proof (lk_umem _ _ _ _ K1) as Ku.
  assert (Ma : message_alloc s1 = Ok (Some m, set_pool (upd (message_pool s1) m (MkMsg (m_from (message_pool s1 m)) (fun _ => 0) 0)) (set_mfree l s1))) by (unfold message_alloc, bind at 1, gets at 1; now rewrite Kf, Hf).
  rewrite (bind_run _ _ _ _ _ Ma). rewrite Z.min_l by lia. destruct (Z.ltb_spec PAGE_SIZE len); [unfold PAGE_SIZE in *; lia|]. unfold bind at 1, ret at 1. unfold bind at 1, copyIn, gets at 1. cbn [umem set_pool set_mfree]. rewrite Ku.
  unfold bind at 1, modify. cbn [message_pool set_pool set_mfree]. rewrite upd_eq. cbn [m_data]. set (bytes := mem_read (umem s p) buf len). set (s2 := set_pool _ _).
  destruct (lock_run t s2) as (s3 & E3 & K3). rewrite (bind_run _ _ _ _ _ E3). unfold bind at 1, upd_sock, modify. set (s4 := set_sockets _ s3). unfold bind at 1, wakeup, modify. set (s5 := wake_chan _ s4).
  destruct (unlock_run t s5) as (s6 & E6 & K6); [change (lock s5 t) with (lock s3 t); rewrite (lk_lock _ _ _ _ K3); change (lock s2 t) with (lock s1 t); rewrite (lk_lock _ _ _ _ K1); unfold at1, none; rewrite Z.eqb_refl; specialize (L t); lia|].
  rewrite (bind_run _ _ _ _ _ E6). exists s6. split; [reflexivity|]. assert (Bl : Z.of_nat (length bytes) = len) by (unfold bytes; rewrite length_mem_read; lia).
  destruct (lk_pool _ _ _ _ K6) as [P6 F6], (lk_pool _ _ _ _ K3) as [P3 F3]. assert (Pm : message_pool s6 m = MkMsg (addr (sockets s i)) (mem_write 0 bytes (fun _ => 0)) len).
  { rewrite P6. change (message_pool s5) with (message_pool s3). rewrite P3. unfold s2. cbn [message_pool set_pool]. now rewrite upd_eq. }
  constructor.
  - rewrite (lk_sockets _ _ _ _ K6). change (sockets s5) with (sockets s4). unfold s4. cbn [sockets set_sockets]. rewrite upd_eq. cbn [with_messages messages]. rewrite (lk_sockets _ _ _ _ K3). change (sockets s2) with (sockets s1). now rewrite Ks.
  - now rewrite Pm.
  - rewrite Pm. cbn [m_data m_length]. rewrite <- Bl. apply read_back.
  - now rewrite Pm.
  - rewrite F6. change (message_free_list s5) with (message_free_list s3). rewrite F3. exact Hf.
  - rewrite (lk_umem _ _ _ _ K6). change (umem s5) with (umem s3). rewrite (lk_umem _ _ _ _ K3). exact Ku.
  - intros j. rewrite (lk_lock _ _ _ _ K6). change (lock s5 j) with (lock s3 j). rewrite (lk_lock _ _ _ _ K3). change (lock s2 j) with (lock s1 j). rewrite (lk_lock _ _ _ _ K1). count.
Qed.

(** A datagram of at most a page sent to a socket that takes it is received
    whole: it waits behind those sent before; when it is the only one, [recvfrom]
    returns its length with the bytes in the receiver's memory and the sender's
    address, and the message is back in the pool. *)
Theorem udp_roundtrip p q i t dst buf rbuf len s m l : (forall j, 0 <= s.(lock) j) -> receiver s i dst = Some t -> s.(message_free_list) = m :: l -> 0 <= len <= PAGE_SIZE ->
  exists s1, udp_send p i dst buf len s = Ok (len, s1) /\ (s1.(sockets) t).(messages) = (s.(sockets) t).(messages) ++ [m] /\
    ((s.(sockets) t).(messages) = [] -> exists s2, udp_recv q t rbuf len None s1 = Ok (Returns len, (s.(sockets) i).(addr), s2) /\
      mem_read (s2.(umem) q) rbuf len = mem_read (s.(umem) p) buf len /\ (s2.(sockets) t).(messages) = [] /\ s2.(message_free_list) = l ++ [m] /\ forall j, s2.(lock) j = s.(lock) j).
Proof.
  intros L Hr Hf Hl. destruct (udp_send_run p i dst buf len s t m l L Hr Hf Hl) as (s1 & E1 & [Q1 Q2 Q3 Q4 Q5 Q6 Q7]). exists s1. split; [exact E1|]. split; [exact Q1|]. intros Hm. rewrite Hm in Q1. cbn [app] in Q1. unfold PAGE_SIZE in Hl.
  assert (Bl : Z.of_nat (length (mem_read (umem s p) buf len)) = len) by (rewrite length_mem_read; lia). rewrite Bl in Q4. unfold udp_recv.
  destruct (lock_run t s1) as (s2 & E2 & K2). rewrite (bind_run _ _ _ _ _ E2). unfold bind at 1, sock at 1, gets at 1. rewrite (lk_sockets _ _ _ _ K2), Q1. unfold bind at 1, gets at 1. cbn [message_from hd_error].
  unfold bind at 1, gets at 1. destruct (lk_pool _ _ _ _ K2) as [P2 F2]. rewrite P2, Q4, Z.min_id. rewrite Q4 in Q3. rewrite Q3. unfold bind at 1, copyOut, modify. unfold bind at 1, upd_sock, modify. set (s3 := set_sockets _ _).
  destruct (unlock_run t s3) as (s4 & E4 & K4); [change (lock s3 t) with (lock s2 t); rewrite (lk_lock _ _ _ _ K2), Q7; unfold at1; rewrite Z.eqb_refl; specialize (L t); lia|]. rewrite (bind_run _ _ _ _ _ E4).
  destruct (lk_pool _ _ _ _ K4) as [P4 F4]. unfold message_free. eexists. rewrite Q2, sext32_small by lia. split; [reflexivity|]. cbn [umem sockets message_free_list lock set_mfree set_pool].
  rewrite (lk_umem _ _ _ _ K4), (lk_sockets _ _ _ _ K4), F4. split; [|split; [|split]].
  - unfold s3. cbn [umem set_sockets set_umem]. rewrite upd_eq.
    transitivity (mem_read (mem_write rbuf (mem_read (umem s p) buf len) (umem s2 q)) rbuf (Z.of_nat (length (mem_read (umem s p) buf len)))); [now rewrite Bl|apply read_back].
  - unfold s3. cbn [sockets set_sockets set_umem]. rewrite upd_eq. cbn [with_messages messages]. rewrite (lk_sockets _ _ _ _ K2), Q1. unfold without. cbn [List.filter]. now rewrite Z.eqb_refl.
  - change (message_free_list s3) with (message_free_list s2). rewrite F2. congruence.
  - intros j. rewrite (lk_lock _ _ _ _ K4). change (lock s3 j) with (lock s2 j). rewrite (lk_lock _ _ _ _ K2), Q7. count.
Qed.

(** ** Defects *)

(** A writer that was asleep with part of its bytes written, and whose peer has
    closed meanwhile, unlocks its state's lock twice: the kernel stops. *)
Theorem write_after_close_panics p i t buf n k s : (s.(sockets) i).(is_close) = true -> 0 < k < n -> n < 1073741824 -> s.(state_lock) i = 0 ->
  tcp_write_wake p i t buf n k s = Err Panic.
Proof.
  intros Hc Hk Hn Hs. unfold tcp_write_wake. destruct (lock_run t s) as (s1 & E1 & K1). rewrite (bind_run _ _ _ _ _ E1). destruct (lock_state_run i s1) as (s2 & E2 & K2). rewrite (bind_run _ _ _ _ _ E2).
  cbn [tcp_write_loop]. rewrite wrap64_small by lia. destruct (Z.ltb_spec k n); [|lia]. unfold bind at 1, sock at 1, gets at 1. rewrite (lk_sockets _ _ _ _ K2), (lk_sockets _ _ _ _ K1), Hc. destruct (Z.eqb_spec k 0); [lia|].
  destruct (unlock_state_run i s2) as (s3 & E3 & K3); [rewrite (lk_state _ _ _ _ K2), (lk_state _ _ _ _ K1), Hs; unfold at1, none; rewrite Z.eqb_refl; lia|]. rewrite (bind_run _ _ _ _ _ E3).
  unfold tcp_write_end, unlock_state. unfold bind at 1, bind at 1, gets at 1. rewrite (lk_state _ _ _ _ K3), (lk_state _ _ _ _ K2), (lk_state _ _ _ _ K1), Hs. unfold at1, none. rewrite Z.eqb_refl. reflexivity.
Qed.
(** A datagram longer than a page is copied past the page of its message. *)
Theorem long_datagram_overruns p i t dst buf len s m l : (forall j, 0 <= s.(lock) j) -> receiver s i dst = Some t -> s.(message_free_list) = m :: l -> PAGE_SIZE < len ->
  udp_send p i dst buf len s = Err BadPtr.
Proof.
  intros L Hr Hf Hl. unfold PAGE_SIZE in Hl. unfold udp_send. unfold bind at 1, sock at 1, gets at 1. destruct (search_free_run (takes_datagrams dst (type (sockets s i)) i) (Z.to_nat SOCKET_COUNT) 0 s L) as (s1 & E1 & K1).
  fold (receiver s i dst) in E1. rewrite Hr in E1. unfold find_udp_remote_socket. rewrite (bind_run _ _ _ _ _ E1). destruct (lk_pool _ _ _ _ K1) as [_ Kf].
  unfold bind at 1, message_alloc at 1, bind at 1, gets at 1. rewrite Kf, Hf. unfold bind at 1, modify at 1. unfold bind at 1, modify at 1, ret at 1. unfold bind at 1. destruct (Z.ltb_spec PAGE_SIZE (Z.min len 65535)); [reflexivity|unfold PAGE_SIZE in *; lia].
Qed.

(** ** A run *)

Definition sock0 : Socket := MkSock false 0 zero_sa zero_sa 0 0 None (fun _ => zero_sa) 0 0 false false false 0 false false [] false 0.
Definition boot : net := MkNet (fun _ => sock0) (fun _ => 0) (fun _ => MkMsg zero_sa (fun _ => 0) 0) [] 10000 (fun _ a => a mod 256) (fun _ => 0) (fun _ => 0) [].
Lemma boot_ok : net_boot boot.
Proof. constructor; [easy|]. intros j. unfold bit_taken. cbn [socket_bitmap boot]. now rewrite Z.land_0_l. Qed.
(** A listener at port 80, a client, and the connection between them. *)
Definition net1 : net := after (socket_take 2 1 7 ;;; unlock_sock 0 ;;; bind_sock 0 (MkSA 2 80 0) ;;; listen_sock 0 ;;; socket_take 2 1 8 ;;; unlock_sock 1) (socket_init boot).
Definition net2 : net := after (connect_sock 1 (MkSA 2 80 0)) net1.
Definition net2' : net := after (lock_sock 0) net2.
Definition net3 : net := after (socket_take 2 1 7) net2'.
Definition net3' : net := after (unlock_sock 2) net3.
Definition net4 : net := after (accept_finish 0 2) net3'.
Lemma connect_accept_peers_witness : is_peer 1 (net4.(sockets) 1) 2 (net4.(sockets) 2) = true.
Proof.
  refine (proj1 (proj2 (connect_accept_peers 1 0 (MkSA 2 80 0) net1 Sleeps 0 net2 net2' 2 1 7 2 net3 net3' (MkSA 2 10000 2130706433) net4 _ _ _ _ _ _ _ _ _ _ _ _ _))).
  - evals.
  - evals.
  - lia.
  - evals.
  - evals.
  - evals.
  - runs (connect_sock 1 (MkSA 2 80 0)) net1 (Sleeps, (0, 0)).
  - discriminate.
  - runs (lock_sock 0) net2 tt.
  - runs (socket_take 2 1 7) net2' 2.
  - lia.
  - runs (unlock_sock 2) net3 tt.
  - runs (accept_finish 0 2) net3' (MkSA 2 10000 2130706433).
Defined.
(** Two connected sockets, given directly. *)
Definition end_of (own far : Z) : Socket := MkSock true 1 (MkSA 2 own 0) (MkSA 2 far 0) 0 0 (Some (fun _ => 0)) (fun _ => zero_sa) 0 0 false false false 0 false false [] false (-1).
Definition pair0 : net := set_sockets (fun j => if j =? 1 then end_of 10000 80 else if j =? 2 then end_of 80 10000 else sock0) boot.
Lemma end_ok own far : sock_ok (end_of own far).
Proof. unfold sock_ok. cbn [end_of bufferAddr]. constructor; cbn [as_pipe end_of socketReadPos socketWritePos bufferAddr pipeReadPos pipeWritePos Pipe.pcount pipeBuf]; try (unfold PIPE_BUF_SIZE; lia). eauto. Qed.
Lemma pair0_usable : usable pair0.
Proof.
  constructor; try easy; unfold wpos; cbn [sockets pair0 set_sockets]; intros j; destruct (j =? 1); [| | | | |]; try destruct (j =? 2); try apply end_ok; try easy; cbn [end_of bufferAddr]; eauto.
Qed.
Lemma socket_roundtrip_witness : exists s1 s2, tcp_write 1 1 65 4 pair0 = Ok (Some 2, 4, Returns 4, s1) /\ tcp_read 3 2 200 4 s1 = Ok (Returns 4, s2) /\ mem_read (s2.(umem) 3) 200 4 = [65; 66; 67; 68].
Proof.
  destruct (socket_roundtrip 1 3 1 2 65 200 4 pair0 pair0_usable) as (s1 & s2 & A & B & C & _); [evals|unfold SOCKET_BUFFER_SIZE; lia|evals|unfold POS_MAX; evals|evals|evals|evals|].
  exists s1, s2. split; [exact A|]. split; [exact B|]. rewrite C. evals.
Defined.
(** Two datagram sockets at ports 5 and 6. *)
Definition dgram (p : Z) : Socket := with_addr (MkSA 2 p 0) (MkSock true 2 zero_sa zero_sa 0 0 None (fun _ => zero_sa) 0 0 false false false 0 false false [] false (-1)).
Definition pair1 : net := set_sockets (fun j => if j =? 1 then dgram 5 else if j =? 2 then dgram 6 else sock0) (set_mfree [3; 4] boot).
Lemma udp_roundtrip_witness : exists s1 s2, udp_send 1 1 (MkSA 2 6 0) 65 3 pair1 = Ok (3, s1) /\ udp_recv 7 2 500 3 None s1 = Ok (Returns 3, MkSA 2 5 0, s2) /\ mem_read (s2.(umem) 7) 500 3 = [65; 66; 67].
Proof.
  destruct (udp_roundtrip 1 7 1 2 (MkSA 2 6 0) 65 500 3 pair1 3 [4]) as (s1 & A & _ & B); [easy|evals|evals|unfold PAGE_SIZE; lia|]. destruct (B eq_refl) as (s2 & C & D & _).
  exists s1, s2. split; [exact A|]. split; [exact C|]. rewrite D. evals.
Defined.

(** Two sockets that were never connected have port 0 on both sides, so they are
    peers: what a process writes to the one, the owner of the other reads. *)
Definition fresh1 : net := after (socket_take 2 1 7 ;;; unlock_sock 0) (socket_init boot).
Definition fresh2 : net := after (socket_take 2 1 8) fresh1.
Definition fresh3 : net := after (unlock_sock 1) fresh2.
Definition fresh4 : net := after (tcp_write 5 0 65 3) fresh3.
Lemma unconnected_sockets_talk : tcp_write 5 0 65 3 fresh3 = Ok (Some 1, 3, Returns 3, fresh4) /\ value (tcp_read 6 1 0 3) fresh4 = Some (Returns 3).
Proof. split; [runs (tcp_write 5 0 65 3) fresh3 (Some 1, 3, Returns 3)|evals]. Qed.
(** A full queue of pending connections: [connect] returns with the listener's
    lock taken. *)
Lemma connect_full_keeps_lock : let s := set_sockets (upd net1.(sockets) 0 (with_waiting (fun _ => zero_sa) 0 128 (net1.(sockets) 0))) net1 in
  exists s', connect_sock 1 (MkSA 2 80 0) s = Ok (Returns (-1), (0, 0), s') /\ s.(lock) 0 = 0 /\ s'.(lock) 0 = 1.
Proof.
  cbn zeta. set (s := set_sockets _ net1). exists (after (connect_sock 1 (MkSA 2 80 0)) s). split; [runs (connect_sock 1 (MkSA 2 80 0)) s (Returns (-1), (0, 0))|]. split; evals.
Qed.

Lemma nreach_still g s' : nreach g -> still g.(nt) s' -> nstep g (same_bytes g s') -> nreach (same_bytes g s').
Proof. intros R S N. eapply nr_step; [exact R|exact N|]. intros j. exact (ni_max _ (ninv_still g s' (nreach_inv _ R) S) j). Qed.
Lemma nreach_take g domain ty me n s' : nreach g -> socket_take domain ty me g.(nt) = Ok (n, s') -> nreach (same_bytes g s').
Proof.
  intros R E. eapply nr_step; [exact R|eapply ns_take, E|]. intros j. destruct (socket_take_opened _ _ _ _ _ _ E) as [[_ ->]|W]; [apply (ni_max _ (nreach_inv _ R))|]. exact (ni_max _ (ninv_opened g n s' (nreach_inv _ R) W) j).
Qed.
Lemma nreach_unlock g i s' : nreach g -> unlock_sock i g.(nt) = Ok (tt, s') -> nreach (same_bytes g s').
Proof. intros R E. apply nreach_still; [exact R|eapply (does_still _ (calm_unlock i)), E|eapply ns_unlock, E]. Qed.
Lemma nreach_write g p i buf n ot k o s' : nreach g -> 0 <= n < 1073741824 -> tcp_write p i buf n g.(nt) = Ok (ot, k, o, s') -> wpos s' (peer_or_0 ot) < POS_MAX -> nreach (after_write p buf g s').
Proof.
  intros R Hn E Hw. pose proof (nreach_inv _ R) as I. eapply nr_step; [exact R|eapply ns_write; eassumption|]. pose proof (tcp_write_wrote p i buf n (nt g) ot k o s' (ni_ok _ I) (ni_max _ I) Hn E) as W.
  intros j. cbn [after_write nt]. destruct (Z.eq_dec j (peer_or_0 ot)) as [-> | Hj]; [exact Hw|]. pose proof (wr_others _ _ _ _ _ _ _ W j Hj) as [= _ Ew _]. unfold wpos. rewrite Ew. apply I.
Qed.
Definition g0 : gnet := MkG (socket_init boot) (fun _ => []) (fun _ => []).
Definition g1 : gnet := same_bytes g0 (after (socket_take 2 1 7) (socket_init boot)).
Definition g4 : gnet := after_write 5 65 (same_bytes (same_bytes (same_bytes g1 fresh1) fresh2) fresh3) fresh4.
Lemma g4_reach : nreach g4.
Proof.
  eapply (nreach_write _ 5 0 65 3 (Some 1) 3 (Returns 3)); [|lia| |evals].
  - eapply nreach_unlock; [eapply nreach_take; [eapply nreach_unlock; [eapply nreach_take; [apply nr_boot, boot_ok|]|]|]|].
    + runs (socket_take 2 1 7) (socket_init boot) 0.
    + runs (unlock_sock 0) (after (socket_take 2 1 7) (socket_init boot)) tt.
    + runs (socket_take 2 1 8) fresh1 1.
    + runs (unlock_sock 1) fresh2 tt.
  - runs (tcp_write 5 0 65 3) fresh3 (Some 1, 3, Returns 3).
Qed.
Lemma stream_is_fifo_witness : g4.(sent) 1 = [65; 66; 67] /\ g4.(sent) 1 = g4.(received) 1 ++ stream (g4.(nt).(sockets) 1).
Proof. split; [evals|]. exact (proj1 (stream_is_fifo g4 g4_reach 1)). Defined.
Lemma write_after_close_panics_witness : tcp_write_wake 1 1 2 0 9 4 (set_sockets (upd pair0.(sockets) 1 (with_state true false (pair0.(sockets) 1))) pair0) = Err Panic.
Proof. apply write_after_close_panics; [evals|lia|lia|evals]. Defined.
Lemma long_datagram_overruns_witness : udp_send 1 1 (MkSA 2 6 0) 65 5000 pair1 = Err BadPtr.
Proof. apply (long_datagram_overruns 1 1 2 (MkSA 2 6 0) 65 5000 pair1 3 [4]); [easy|evals|evals|unfold PAGE_SIZE; lia]. Defined.
