(* ===== verification/HashMap.v ===== *)
(** * The hash table and the profiler on top of it

    [src/kern/lib/hashmap.c] and [src/kern/lib/profiling.c].  A table of 1013
    lists of entries; the functions that hash and compare are arguments.  Strings
    are lists of bytes without the terminator.  An object of [kmalloc] is its
    number in the order of allocation. *)

From S2P Require Import Prelude.
From Stdlib Require Import ZArith Lia Bool Permutation.
From stdpp Require Import base tactics numbers list.
Open Scope Z_scope.

Definition HASHMAP_CAPACITY : Z := 1013.

Section Map.
Context {K D : Type} (hash : K -> Z) (equal_to : K -> D -> bool).

Definition hashmap_t : Type := Z -> list D.
Definition hashmap_init : hashmap_t := fun _ => [].
Definition bucket (key : K) : Z := hash key mod HASHMAP_CAPACITY.
Definition hashmap_put (m : hashmap_t) (key : K) (data : D) : hashmap_t := upd m (bucket key) (data :: m (bucket key)).
Definition hashmap_get (m : hashmap_t) (key : K) : option D := List.find (equal_to key) (m (bucket key)).
Fixpoint foreach_entry {S} (callback : D -> M S unit) (l : list D) : M S unit :=
  match l with [] => ret tt | d :: l' => callback d ;;; foreach_entry callback l' end.
Fixpoint foreach_bucket {S} (callback : D -> M S unit) (m : hashmap_t) (n : nat) (i : Z) : M S unit :=
  match n with O => ret tt | S n' => foreach_entry callback (m i) ;;; foreach_bucket callback m n' (i + 1) end.
Definition hashmap_foreach {S} (m : hashmap_t) (callback : D -> M S unit) : M S unit := foreach_bucket callback m (Z.to_nat HASHMAP_CAPACITY) 0.
(** [LIST_UNTIL_EMPTY] with the removal of the head. *)
Definition hashmap_free {S} (m : hashmap_t) (free : D -> M S unit) : M S unit := foreach_bucket free m (Z.to_nat HASHMAP_CAPACITY) 0.

(** ** The table is an association list *)

(** Every datum has a key, and data that equal a key hash like it. *)
Context (key_of : D -> K) (key_ok : forall k d, equal_to k d = true -> hash k = hash (key_of d)).

(** The table after the data were put in, the newest first. *)
Definition filled (ds : list D) : hashmap_t := fold_right (fun d m => hashmap_put m (key_of d) d) hashmap_init ds.
Lemma filled_bucket ds i : filled ds i = List.filter (fun d => bucket (key_of d) =? i) ds.
Proof using.
  induction ds as [|d ds IH]; [reflexivity|]. cbn [filled fold_right List.filter]. fold (filled ds). unfold hashmap_put, upd. destruct (Z.eqb_spec i (bucket (key_of d))) as [-> |Hi].
  - rewrite Z.eqb_refl. now rewrite IH.
  - destruct (Z.eqb_spec (bucket (key_of d)) i); [congruence|exact IH].
Qed.
Lemma find_filter {A} (p q : A -> bool) l : (forall x, p x = true -> q x = true) -> List.find p (List.filter q l) = List.find p l.
Proof.
  intros H. induction l as [|x l IH]; [reflexivity|]. cbn [List.filter List.find]. destruct (q x) eqn:E; cbn [List.find]; rewrite IH; [easy|]. destruct (p x) eqn:Ep; [apply H in Ep; congruence|easy].
Qed.
(** The table answers as a list of all data that was put in would: a lookup
    gives the newest datum equal to the key, and nothing when there is none. *)
Theorem hashmap_refines_list ds k : hashmap_get (filled ds) k = List.find (equal_to k) ds.
Proof using key_ok.
  unfold hashmap_get. rewrite filled_bucket. apply find_filter. intros d Hd. apply Z.eqb_eq. unfold bucket. now rewrite (key_ok k d Hd).
Qed.
Lemma foreach_app {S} (cb : D -> M S unit) l l' s : foreach_entry cb (l ++ l') s = (foreach_entry cb l ;;; foreach_entry cb l') s.
Proof using. revert s. induction l as [|d l IH]; intros s; [reflexivity|]. cbn [app foreach_entry]. unfold bind at 1 2 3. destruct (cb d s) as [[[] s1]|]; [apply IH|reflexivity]. Qed.
Fixpoint buckets (m : hashmap_t) (n : nat) (i : Z) : list D := match n with O => [] | S n' => m i ++ buckets m n' (i + 1) end.
Lemma foreach_buckets {S} (cb : D -> M S unit) m n : forall i s, foreach_bucket cb m n i s = foreach_entry cb (buckets m n i) s.
Proof using.
  induction n as [|n IH]; intros i s; [reflexivity|]. cbn [foreach_bucket buckets]. rewrite foreach_app. unfold bind. destruct (foreach_entry cb (m i) s) as [[[] s1]|]; [apply IH|reflexivity].
Qed.
Lemma filter_split {A} (p q r : A -> bool) l : (forall x, r x = p x || q x) -> (forall x, p x && q x = false) -> List.filter p l ++ List.filter q l ≡ₚ List.filter r l.
Proof.
  intros Hr Hd. induction l as [|x l IH]; [reflexivity|]. cbn [List.filter]. rewrite Hr. specialize (Hd x). destruct (p x), (q x); cbn [orb andb app] in *; [discriminate|now rewrite IH| |exact IH].
  rewrite <- Permutation_middle. now rewrite IH.
Qed.
Lemma buckets_filter ds n : forall i, buckets (filled ds) n i ≡ₚ List.filter (fun d => (i <=? bucket (key_of d)) && (bucket (key_of d) <? i + Z.of_nat n)) ds.
Proof using.
  induction n as [|n IH]; intros i; cbn [buckets].
  - induction ds as [|d ds IHd]; [reflexivity|]. cbn [List.filter]. destruct (_ && _) eqn:E; [zbool; lia|exact IHd].
  - rewrite IH, filled_bucket. apply filter_split; intros d; destruct (Z.eqb_spec (bucket (key_of d)) i), (Z.leb_spec i (bucket (key_of d))), (Z.leb_spec (i + 1) (bucket (key_of d))), (Z.ltb_spec (bucket (key_of d)) (i + Z.of_nat (S n))), (Z.ltb_spec (bucket (key_of d)) (i + 1 + Z.of_nat n)); cbn; lia || easy.
Qed.
Lemma filter_all {A} (p : A -> bool) l : (forall x, p x = true) -> List.filter p l = l.
Proof. intros H. induction l as [|x l IH]; [reflexivity|]. cbn [List.filter]. now rewrite H, IH. Qed.
(** [hashmap_foreach] and [hashmap_free] call their function on every datum
    in the table, once each. *)
Theorem hashmap_foreach_all {S} (ds : list D) (cb : D -> M S unit) :
  exists l, l ≡ₚ ds /\ forall s, hashmap_foreach (filled ds) cb s = foreach_entry cb l s /\ hashmap_free (filled ds) cb s = foreach_entry cb l s.
Proof using.
  exists (buckets (filled ds) (Z.to_nat HASHMAP_CAPACITY) 0). split; [|intros s; split; apply foreach_buckets]. rewrite buckets_filter, filter_all; [reflexivity|].
  intros d. unfold bucket. change (Z.of_nat (Z.to_nat HASHMAP_CAPACITY)) with HASHMAP_CAPACITY. pose proof (Z.mod_pos_bound (hash (key_of d)) HASHMAP_CAPACITY ltac:(easy)). apply andb_true_intro. split; [apply Z.leb_le|apply Z.ltb_lt]; lia.
Qed.
End Map.

(** ** Strings *)

(** Bytes of the string at most, 100 are used. *)
Fixpoint hash_string_loop (n : nat) (s : list Z) (value : Z) : Z :=
  match n, s with
  | S n', c :: s' => hash_string_loop n' s' (wrap64 (value * 128 + c) mod 9973)
  | _, _ => value
  end.
Definition hash_string (s : list Z) : Z := hash_string_loop 100 s 0.
Lemma hash_loop_take n : forall s v, hash_string_loop n s v = hash_string_loop n (take n s) v.
Proof. induction n as [|n IH]; intros [|c s] v; cbn [hash_string_loop take]; easy. Qed.
(** The value stays below the prime: no step overflows 64 bits. *)
Lemma hash_loop_exact n : forall s v, 0 <= v < 9973 -> (forall c, c ∈ s -> 0 <= c < 256) ->
  hash_string_loop n s v = fold_left (fun v c => (v * 128 + c) mod 9973) (take n s) v /\ 0 <= hash_string_loop n s v < 9973.
Proof.
  induction n as [|n IH]; intros [|c s] v Hv Hs; cbn [hash_string_loop take fold_left]; try easy. pose proof (Hs c ltac:(left)) as Hc.
  assert (E : wrap64 (v * 128 + c) = v * 128 + c) by (apply wrap64_small; lia). rewrite E. apply IH; [apply Z.mod_pos_bound; lia|]. intros x Hx. apply Hs. now right.
Qed.

(** ** The profiler *)

Record profiling_t : Type := MkProf { item : list Z; total_runtime_us : Z; run_count : Z }.
(** The static pointer [hashmap] ([None] is [NULL]) and the objects allocated. *)
Record prof_st : Type := MkProfSt { table : option (@hashmap_t nat); objects : list profiling_t }.
Definition no_prof : profiling_t := MkProf [] 0 0.
Definition object (s : prof_st) (i : nat) : profiling_t := nth i s.(objects) no_prof.
(** [strncmp(key, item, 128) == 0]. *)
Definition same_name (a b : list Z) : bool := bool_decide (take 128 a = take 128 b).
Definition equal_to (s : prof_st) (key : list Z) (p : nat) : bool := same_name key (object s p).(item).
Definition profiling_init : M prof_st unit := modify (fun s => MkProfSt (Some hashmap_init) s.(objects)).
Definition get_table : M prof_st (@hashmap_t nat) := fun s => match s.(table) with Some m => Ok (m, s) | None => Err BadPtr end.
Definition profiling_find (func : list Z) : M prof_st (option nat) :=
  let* m := get_table in
  gets (fun s => hashmap_get hash_string (equal_to s) m func).
(** [kmalloc], the fields, and the entry in the table. *)
Definition profiling_new (func : list Z) : M prof_st nat :=
  let* m := get_table in
  let* n := gets (fun s => length s.(objects)) in
  modify (fun s => MkProfSt (Some (hashmap_put hash_string m func n)) (s.(objects) ++ [MkProf (take 128 func) 0 0])) ;;;
  ret n.
Definition profiling_count (p : nat) (time : Z) : M prof_st unit :=
  modify (fun s => MkProfSt s.(table) (<[p := let x := object s p in MkProf x.(item) (wrap64 (x.(total_runtime_us) + time)) (wrap64 (x.(run_count) + 1))]> s.(objects))).
Definition profiling_end_with_time (func : list Z) (time : Z) : M prof_st unit :=
  let* o := profiling_find func in
  let* p := (match o with Some p => ret p | None => profiling_new func end) in
  profiling_count p time.
(** [now] is the clock at the call. *)
Definition profiling_end (func : list Z) (begin now : Z) : M prof_st unit :=
  let* none := gets (fun s => match s.(table) with None => true | Some _ => false end) in
  if none then ret tt else profiling_end_with_time func (wrap64 (now - begin)).
Definition profiling_off : prof_st := MkProfSt None [].
Definition profiling_ready : prof_st := MkProfSt (Some hashmap_init) [].

(** ** The profiler counts *)

(** The total and the count under a name. *)
Definition profile (s : prof_st) (k : list Z) : option (Z * Z) :=
  match profiling_find k s with Ok (Some p, _) => Some ((object s p).(total_runtime_us), (object s p).(run_count)) | _ => None end.
Record prof_ok (s : prof_st) : Prop := MkProfOk {
  po_table : exists m, s.(table) = Some m /\ forall b, m b = List.filter (fun i => bucket hash_string (object s i).(item) =? b) (rev (seq 0 (length s.(objects))));
  po_names : forall i j, (i < length s.(objects))%nat -> (j < length s.(objects))%nat -> same_name (object s i).(item) (object s j).(item) = true -> i = j }.
Lemma same_name_spec a b : same_name a b = true <-> take 128 a = take 128 b.
Proof. unfold same_name. now rewrite bool_decide_eq_true. Qed.
Lemma same_name_hash a b : same_name a b = true -> hash_string a = hash_string b.
Proof.
  rewrite same_name_spec. intros H. unfold hash_string. rewrite hash_loop_take, (hash_loop_take 100 b).
  change 100%nat with (Nat.min 100 128). now rewrite <- !firstn_firstn, H.
Qed.
Lemma same_name_trans a b c : same_name a c = true -> same_name b c = true -> same_name a b = true.
Proof. rewrite !same_name_spec. congruence. Qed.
Lemma same_name_take a : same_name (take 128 a) a = true.
Proof. rewrite same_name_spec. now rewrite firstn_firstn. Qed.
Lemma find_none_all {A} (p : A -> bool) l x : List.find p l = None -> In x l -> p x = false.
Proof. intros H Hx. now apply (List.find_none p l). Qed.

(** What a search finds is the one object of that name. *)
Lemma find_spec s k : prof_ok s -> exists o, profiling_find k s = Ok (o, s) /\
  match o with
  | Some p => (p < length s.(objects))%nat /\ equal_to s k p = true
  | None => forall p, (p < length s.(objects))%nat -> equal_to s k p = false
  end.
Proof.
  intros [(m & Em & Hm) _]. unfold profiling_find, get_table, bind, gets, hashmap_get. rewrite Em. eexists; split; [reflexivity|].
  rewrite Hm, find_filter.
  - destruct (List.find _ _) as [p|] eqn:E.
    + apply List.find_some in E as [Hp Ee]. apply in_rev, in_seq in Hp. split; [lia|exact Ee].
    + intros p Hp. apply (find_none_all _ _ p E). rewrite <- in_rev. apply in_seq. lia.
  - intros p Hp. apply Z.eqb_eq. unfold bucket. f_equal. symmetry. now apply same_name_hash.
Qed.
Lemma profile_some s k p : prof_ok s -> (p < length s.(objects))%nat -> equal_to s k p = true -> profile s k = Some ((object s p).(total_runtime_us), (object s p).(run_count)).
Proof.
  intros Hs Hp He. unfold profile. destruct (find_spec s k Hs) as ([q|] & -> & Hq); [|now rewrite (Hq p Hp) in He]. destruct Hq as [Hq Heq].
  assert (q = p) as ->; [|reflexivity]. apply (po_names s Hs); [easy..|]. unfold equal_to in *. rewrite same_name_spec in *. congruence.
Qed.
Lemma profile_none s k : prof_ok s -> (forall p, (p < length s.(objects))%nat -> equal_to s k p = false) -> profile s k = None.
Proof. intros Hs Hn. unfold profile. destruct (find_spec s k Hs) as ([q|] & -> & Hq); [|reflexivity]. destruct Hq as [Hq Heq]. now rewrite (Hn q Hq) in Heq. Qed.

Definition add_time (t : Z) (o : option (Z * Z)) : option (Z * Z) :=
  match o with Some (T, c) => Some (wrap64 (T + t), wrap64 (c + 1)) | None => Some (wrap64 t, 1) end.
Lemma object_insert s m p x q : (p < length s.(objects))%nat -> object (MkProfSt m (<[p := x]> s.(objects))) q = if decide (q = p) then x else object s q.
Proof.
  intros Hp. unfold object. cbn [objects]. rewrite !nth_lookup. destruct (decide (q = p)) as [-> |Hq]; [now rewrite list_lookup_insert_eq|now rewrite list_lookup_insert_ne].
Qed.
Lemma object_app s m x q : (q <= length s.(objects))%nat -> object (MkProfSt m (s.(objects) ++ [x])) q = if decide (q = length s.(objects)) then x else object s q.
Proof.
  intros Hq. unfold object. cbn [objects]. destruct (decide (q = _)) as [-> |Hn]; [now rewrite app_nth2, Nat.sub_diag by lia|apply app_nth1; lia].
Qed.
Lemma count_names s p t q : (p < length s.(objects))%nat ->
  (object (MkProfSt s.(table) (<[p := let x := object s p in MkProf x.(item) (wrap64 (x.(total_runtime_us) + t)) (wrap64 (x.(run_count) + 1))]> s.(objects))) q).(item) = (object s q).(item).
Proof. intros Hp. rewrite object_insert by exact Hp. now destruct (decide (q = p)) as [-> |]. Qed.
Lemma count_spec s p t : prof_ok s -> (p < length s.(objects))%nat -> exists s', profiling_count p t s = Ok (tt, s') /\ prof_ok s' /\
  forall k, profile s' k = if equal_to s k p then add_time t (profile s k) else profile s k.
Proof.
  intros Hs Hp. eexists. split; [reflexivity|]. set (s' := MkProfSt _ _).
  assert (Hn : length s'.(objects) = length s.(objects)) by apply length_insert.
  assert (He : forall k q, equal_to s' k q = equal_to s k q) by (intros k q; unfold equal_to, s'; now rewrite count_names).
  assert (Hs' : prof_ok s'). { split.
    - destruct (po_table s Hs) as (m & Em & Hm). exists m. split; [exact Em|]. intros b. rewrite Hn, Hm. apply filter_ext. intros q. unfold s'. now rewrite count_names.
    - intros i j. rewrite Hn. unfold s'. rewrite !count_names by exact Hp. apply (po_names s Hs). }
  split; [exact Hs'|]. intros k. destruct (find_spec s k Hs) as ([q|] & _ & Hq).
  - destruct Hq as [Hq Heq]. rewrite (profile_some s k q), (profile_some s' k q); rewrite ?Hn, ?He; try easy. unfold s'. rewrite !object_insert by exact Hp.
    destruct (decide (q = p)) as [-> |Hne]; [now rewrite Heq|]. destruct (equal_to s k p) eqn:Ep; [|easy]. destruct Hne. apply (po_names s Hs); [easy..|]. unfold equal_to in *. rewrite same_name_spec in *. congruence.
  - rewrite (Hq p Hp), (profile_none s k), (profile_none s' k); try easy. intros q. rewrite Hn, He. apply Hq.
Qed.

(** The state after a new object. *)
Definition with_new (s : prof_st) (m : @hashmap_t nat) (f : list Z) : prof_st :=
  MkProfSt (Some (hashmap_put hash_string m f (length s.(objects)))) (s.(objects) ++ [MkProf (take 128 f) 0 0]).
Lemma new_length s m f : length (with_new s m f).(objects) = S (length s.(objects)).
Proof. cbn [with_new objects]. rewrite length_app. cbn [length]. lia. Qed.
Lemma new_object s m f q : (q <= length s.(objects))%nat -> object (with_new s m f) q = if decide (q = length s.(objects)) then MkProf (take 128 f) 0 0 else object s q.
Proof. apply object_app. Qed.
Lemma new_object_old s m f q : (q < length s.(objects))%nat -> object (with_new s m f) q = object s q.
Proof. intros H. now rewrite new_object, decide_False by lia. Qed.
Lemma new_object_last s m f : object (with_new s m f) (length s.(objects)) = MkProf (take 128 f) 0 0.
Proof. now rewrite new_object, decide_True by lia. Qed.
Lemma new_equal_last s m f k : equal_to (with_new s m f) k (length s.(objects)) = same_name k f.
Proof. unfold equal_to. rewrite new_object_last. unfold same_name. cbn [item]. now rewrite firstn_firstn. Qed.
Lemma new_equal_old s m f k q : (q < length s.(objects))%nat -> equal_to (with_new s m f) k q = equal_to s k q.
Proof. intros H. unfold equal_to. now rewrite new_object_old. Qed.
Lemma same_name_sym a b : same_name a b = true -> same_name b a = true.
Proof. rewrite !same_name_spec. easy. Qed.
Lemma new_table s m f : (forall b, m b = List.filter (fun i => bucket hash_string (object s i).(item) =? b) (rev (seq 0 (length s.(objects))))) ->
  forall b, hashmap_put hash_string m f (length s.(objects)) b = List.filter (fun i => bucket hash_string (object (with_new s m f) i).(item) =? b) (rev (seq 0 (S (length s.(objects))))).
Proof.
  intros Hm b. rewrite seq_S, rev_app_distr. cbn [rev app List.filter Nat.add]. rewrite new_object_last. cbn [item].
  unfold bucket at 1. rewrite (same_name_hash _ _ (same_name_take f)). fold (bucket hash_string f). unfold hashmap_put, upd.
  assert (m b = List.filter (fun i => bucket hash_string (object (with_new s m f) i).(item) =? b) (rev (seq 0 (length s.(objects))))) as <-.
  { rewrite Hm. apply filter_ext_in. intros q Hq. apply in_rev, in_seq in Hq. now rewrite new_object_old by lia. }
  rewrite (Z.eqb_sym (bucket hash_string f)). destruct (Z.eqb_spec b (bucket hash_string f)) as [-> |]; easy.
Qed.
Lemma new_ok s m f : prof_ok s -> s.(table) = Some m -> (forall p, (p < length s.(objects))%nat -> equal_to s f p = false) -> prof_ok (with_new s m f).
Proof.
  intros Hs Em Hf. split; rewrite new_length.
  - destruct (po_table s Hs) as (m' & Em' & Hm). rewrite Em in Em'. injection Em' as <-. eexists. split; [reflexivity|]. apply new_table, Hm.
  - assert (Hx : forall j, (j < length s.(objects))%nat -> same_name (take 128 f) (object s j).(item) = true -> False).
    { intros j Hj E. specialize (Hf j Hj). unfold equal_to in Hf. apply same_name_spec in E. rewrite firstn_firstn in E. apply same_name_spec in E. cbn [Nat.min] in E. congruence. }
    intros i j Hi Hj E. destruct (decide (i = length s.(objects))) as [-> |], (decide (j = length s.(objects))) as [-> |]; [easy|..].
    + rewrite new_object_last, new_object_old in E by lia. destruct (Hx j); [lia|exact E].
    + rewrite new_object_last, new_object_old in E by lia. destruct (Hx i); [lia|now apply same_name_sym].
    + rewrite !new_object_old in E by lia. apply (po_names s Hs); [lia..|exact E].
Qed.
Lemma new_profile s m f k : prof_ok s -> prof_ok (with_new s m f) -> profile (with_new s m f) k = if same_name k f then Some (0, 0) else profile s k.
Proof.
  intros Hs Hs'. pose proof (new_length s m f) as Hn. destruct (same_name k f) eqn:Ek.
  - rewrite (profile_some _ k (length s.(objects))); rewrite ?new_equal_last, ?Hn, ?new_object_last; easy || lia.
  - destruct (find_spec s k Hs) as ([q|] & _ & Hq).
    + destruct Hq as [Hq Heq]. rewrite (profile_some s k q), (profile_some _ k q); rewrite ?new_equal_old, ?new_object_old, ?Hn; easy || lia.
    + rewrite (profile_none s k), (profile_none (with_new s m f) k); try easy. intros q. rewrite Hn. intros Hl.
      destruct (decide (q = length s.(objects))) as [-> |]; [now rewrite new_equal_last|]. rewrite new_equal_old by lia. apply Hq. lia.
Qed.
Lemma new_spec s f : prof_ok s -> (forall p, (p < length s.(objects))%nat -> equal_to s f p = false) -> exists m, s.(table) = Some m /\ profiling_new f s = Ok (length s.(objects), with_new s m f) /\ prof_ok (with_new s m f).
Proof.
  intros Hs Hf. destruct (po_table s Hs) as (m & Em & _). exists m. repeat split; [exact Em|unfold profiling_new, get_table, bind; now rewrite Em|..]; now apply new_ok.
Qed.

(** A call adds its time and one run to its name and to no other. *)
Lemma end_with_time_spec s f t : prof_ok s -> exists s', profiling_end_with_time f t s = Ok (tt, s') /\ prof_ok s' /\ forall k, profile s' k = if same_name k f then add_time t (profile s k) else profile s k.
Proof.
  intros Hs. unfold profiling_end_with_time, bind. destruct (find_spec s f Hs) as ([p|] & -> & Hp).
  - destruct Hp as [Hp He]. destruct (count_spec s p t Hs Hp) as (s' & E & Hs' & Hk). exists s'. split; [exact E|]. split; [exact Hs'|]. intros k. rewrite Hk.
    replace (equal_to s k p) with (same_name k f); [easy|]. unfold equal_to, same_name in *. apply bool_decide_eq_true in He. now rewrite He.
  - destruct (new_spec s f Hs Hp) as (m & _ & -> & Hn). destruct (count_spec _ (length s.(objects)) t Hn) as (s' & E & Hs' & Hk); [rewrite new_length; lia|]. exists s'. split; [exact E|]. split; [exact Hs'|].
    intros k. rewrite Hk, new_equal_last, new_profile by easy. destruct (same_name k f) eqn:Ek; [|easy]. rewrite (profile_none s k Hs); [cbn [add_time]; now rewrite Z.add_0_l|].
    intros p Hl. specialize (Hp p Hl). unfold equal_to, same_name in *. apply bool_decide_eq_true in Ek. now rewrite Ek.
Qed.
Fixpoint run_profile (calls : list (list Z * Z)) : M prof_st unit :=
  match calls with [] => ret tt | (f, t) :: calls' => profiling_end_with_time f t ;;; run_profile calls' end.
Definition times_of (k : list Z) (calls : list (list Z * Z)) : list Z := map snd (List.filter (fun c => same_name k c.1) calls).
Definition add_times (ts : list Z) (o : option (Z * Z)) : option (Z * Z) := fold_left (fun o t => add_time t o) ts o.
Lemma run_profile_spec calls : forall s, prof_ok s -> exists s', run_profile calls s = Ok (tt, s') /\ prof_ok s' /\ forall k, profile s' k = add_times (times_of k calls) (profile s k).
Proof.
  induction calls as [|[f t] calls IH]; intros s Hs; [now exists s|]. cbn [run_profile]. destruct (end_with_time_spec s f t Hs) as (s1 & E1 & H1 & Hk1). destruct (IH s1 H1) as (s2 & E2 & H2 & Hk2).
  exists s2. unfold bind. rewrite E1. repeat split; [exact E2|apply H2..|]. intros k. rewrite Hk2, Hk1. unfold times_of. cbn [List.filter fst]. now destruct (same_name k f).
Qed.
Definition sum_times (ts : list Z) : Z := fold_right Z.add 0 ts.
Lemma add_times_some ts : forall T c, add_times ts (Some (wrap64 T, wrap64 c)) = Some (wrap64 (T + sum_times ts), wrap64 (c + Z.of_nat (length ts))).
Proof.
  induction ts as [|t ts IH]; intros T c; cbn [add_times fold_left add_time sum_times fold_right length]; [now rewrite !Z.add_0_r|].
  replace (wrap64 (wrap64 T + t)) with (wrap64 (T + t)) by (symmetry; apply Zplus_mod_idemp_l). replace (wrap64 (wrap64 c + 1)) with (wrap64 (c + 1)) by (symmetry; apply Zplus_mod_idemp_l).
  fold (add_times ts (Some (wrap64 (T + t), wrap64 (c + 1)))). rewrite IH. unfold sum_times. do 3 f_equal; lia.
Qed.
Lemma ready_ok : prof_ok profiling_ready.
Proof. split; [now exists hashmap_init|]. intros i j H. cbn in H. lia. Qed.

(** Whatever calls the profiler gets, under every name it holds the sum of
    the times reported for that name (two names are one when their first 128
    bytes agree) and their number, to 64 bits, and nothing for a name never
    reported: no collision of the hash mixes two names. *)
Theorem profiling_sums (calls : list (list Z * Z)) :
  exists s, (profiling_init ;;; run_profile calls) profiling_off = Ok (tt, s) /\ forall k, profile s k = match times_of k calls with [] => None | ts => Some (wrap64 (sum_times ts), wrap64 (Z.of_nat (length ts))) end.
Proof.
  destruct (run_profile_spec calls profiling_ready ready_ok) as (s & E & _ & Hk). exists s. split; [exact E|]. intros k. rewrite Hk. destruct (times_of k calls) as [|t ts]; [reflexivity|].
  change (profile profiling_ready k) with (@None (Z * Z)). cbn [add_times fold_left add_time]. pose proof (add_times_some ts t 1) as H. cbn [add_times] in H. unfold add_times in H. rewrite (wrap64_small 1) in H by lia. rewrite H. cbn [sum_times fold_right length]. do 3 f_equal. lia.
Qed.

(** Two harts that report a new name at once: both find nothing and both add an
    object, and the time of the first is no longer found. *)
Definition two_reports (f : list Z) (t1 t2 : Z) : M prof_st unit :=
  let* o1 := profiling_find f in
  let* o2 := profiling_find f in
  let* p1 := (match o1 with Some p => ret p | None => profiling_new f end) in
  let* p2 := (match o2 with Some p => ret p | None => profiling_new f end) in
  profiling_count p1 t1 ;;; profiling_count p2 t2.
Theorem profiling_race_loses : exists s, two_reports [65] 5 7 profiling_ready = Ok (tt, s) /\ profile s [65] = Some (7, 1).
Proof. eexists. split; [reflexivity|reflexivity]. Qed.
