(* ===== verification/Mmap.v ===== *)
(** * The memory calls of a process

    [src/kern/syscall/sys_mm.c] ([sys_map], [sys_brk]) and
    [src/kern/syscall/sys_mmap.c] ([sys_mmap], [sys_unmap], [sys_mprotect]) on
    the page tables of [Vmm].  The state is the memory, the calling process's
    directory, its break, the next address [mmap] hands out, and the depth of
    its recursive lock [p_lock].  The mapping of files goes through the class
    [FileMapper]. *)

From S2P Require Import Prelude StringLib Pmm Vmm UserMem Fork.
From Stdlib Require Import ZArith Lia Bool.
From stdpp Require Import base tactics numbers list.
Open Scope Z_scope.

Record pvm : Type := MkPvm { vm : mm; p_pt : Z; p_brk : Z; p_mmap : Z; p_depth : Z }.
Definition on_vm {A : Type} (c : M mm A) : M pvm A := fun s =>
  match c s.(vm) with Ok (a, v) => Ok (a, MkPvm v s.(p_pt) s.(p_brk) s.(p_mmap) s.(p_depth)) | Err f => Err f end.
Definition with_depth (d : Z) (s : pvm) : pvm := MkPvm s.(vm) s.(p_pt) s.(p_brk) s.(p_mmap) d.
Definition lock_proc : M pvm unit := modify (fun s => with_depth (s.(p_depth) + 1) s).
Definition unlock_proc : M pvm unit := fun s => if s.(p_depth) <=? 0 then Err Panic else Ok (tt, with_depth (s.(p_depth) - 1) s).
Definition set_brk (a : Z) : M pvm unit := modify (fun s => MkPvm s.(vm) s.(p_pt) a s.(p_mmap) s.(p_depth)).
Definition set_mmap (a : Z) : M pvm unit := modify (fun s => MkPvm s.(vm) s.(p_pt) s.(p_brk) a s.(p_depth)).

(** The two roundings on 64-bit words. *)
Definition pgup (a : Z) : Z := wrap64 (PGROUNDUP a).
Definition pgdown (a : Z) : Z := wrap64 (PGROUNDDOWN a).

(** [for (va = ...; va < to; va += PAGE_SIZE)]. *)
Fixpoint each_page (fuel : nat) (to : Z) (body : Z -> M mm unit) (va : Z) : M mm unit :=
  if va <? to then
    match fuel with
    | O => fail NoFuel
    | S fuel' => body va ;;; each_page fuel' to body (wrap64 (va + PAGE_SIZE))
    end
  else ret tt.
Definition pages_between (from to : Z) : nat := Z.to_nat ((to - from + 4095) / 4096).
Definition panic_on (c : M mm Z) : M mm unit := let* r := c in massert (r =? 0).

(** ** [sys_mm.c] *)

Definition PASSIVE_THRESHOLD : Z := 33554432.
Definition map_page (pt perm va : Z) : M mm unit :=
  let* e := ptLookup pt va in
  if pteToPa e =? 0 then
    if va <? PASSIVE_THRESHOLD then
      let* pa := vmAlloc in
      panic_on (ptMap pt va pa perm)
    else
      massert (has perm PTE_U) ;;;
      panic_on (ptMap pt va 0 perm)
  else ret tt.
Definition sys_map (start len perm : Z) : M pvm Z :=
  let from := pgdown start in
  let to := pgup (wrap64 (start + len - 1)) in
  let* pt := gets p_pt in
  on_vm (each_page (pages_between from to) to (map_page pt perm) from) ;;;
  ret 0.

(** ** [sys_mmap.c] *)

Definition PROT_READ : Z := 1.
Definition PROT_WRITE : Z := 2.
Definition PROT_EXEC : Z := 4.
Definition MAP_SHARED : Z := 1.
Definition MAP_ANONYMOUS : Z := 32.
Definition MAP_FAILED : Z := 18446744073709551615.
Definition MMAP_START : Z := 25769803776.
Definition MMAP_END : Z := 34359738368.

Definition get_perm_by_prot (prot : Z) : Z :=
  let perm := PTE_U in
  let perm := if has prot PROT_EXEC then Z.lor perm PTE_X else perm in
  let perm := if has prot PROT_READ then Z.lor perm PTE_R else perm in
  if has prot PROT_WRITE then Z.lor perm PTE_W else perm.

(** [getIntersection]: the common part of two ranges, length 0 when there is none. *)
Definition getIntersection (start1 len1 start2 len2 : Z) : Z * Z :=
  let '(start1, len1, start2, len2) := if start2 <? start1 then (start2, len2, start1, len1) else (start1, len1, start2, len2) in
  if wrap64 (start1 + len1) <=? start2 then (0, 0)
  else (start2, Z.min (wrap64 (start1 + len1 - start2)) len2).

(** What the mapping of files offers: the file of a descriptor, or an error,
    and [file_map] of [kload.c]. *)
Class FileMapper := {
  getDirentByFd : Z -> M pvm (Z * Z);
  file_map : Z -> Z -> Z -> Z -> Z -> M pvm Z }.

Section Calls.
Context `{FileMapper}.

Definition sys_mmap (start len prot flags fd off : Z) : M pvm Z :=
  lock_proc ;;;
  let len := pgup len in
  if len =? 0 then unlock_proc ;;; ret MAP_FAILED
  else
    let start := pgup start in
    let* next := gets p_mmap in
    let new_addr := pgup (wrap64 (next + len)) in
    if (start =? 0) && (MMAP_END <? new_addr) then unlock_proc ;;; ret MAP_FAILED
    else
      (if start =? 0 then set_mmap new_addr else ret tt) ;;;
      let start := if start =? 0 then next else start in
      let perm := get_perm_by_prot prot in
      let perm := if has flags MAP_SHARED then Z.lor perm PTE_SHARED else perm in
      if has flags MAP_ANONYMOUS then
        let* r := sys_map start len perm in
        if r <? 0 then unlock_proc ;;; ret MAP_FAILED
        else unlock_proc ;;; ret start
      else
        unlock_proc ;;;
        let* found := getDirentByFd fd in
        let '(r, file) := found in
        if r <? 0 then ret MAP_FAILED
        else file_map file start len perm off.

Definition sys_unmap (start len : Z) : M pvm Z :=
  let from := pgup start in
  let to := pgdown (wrap64 (start + len - 1)) in
  lock_proc ;;;
  let* pt := gets p_pt in
  on_vm (each_page (pages_between from (to + 1)) (to + 1) (fun va => panic_on (ptUnmap pt va)) from) ;;;
  unlock_proc ;;;
  ret 0.

Definition sys_brk (addr : Z) : M pvm Z :=
  lock_proc ;;;
  let* cur_brk := gets p_brk in
  if addr =? 0 then unlock_proc ;;; ret (sext32 cur_brk)
  else
    set_brk addr ;;;
    let* r := (if addr <? cur_brk then sys_unmap (wrap64 (addr + 1)) cur_brk
               else sys_map cur_brk (wrap64 (addr - cur_brk)) (Z.lor (Z.lor PTE_R PTE_W) PTE_U)) in
    unlock_proc ;;;
    ret (if r <? 0 then r else sext32 addr).

Definition protect_page (pt perm va : Z) : M mm unit :=
  let* pte := ptLookup pt va in
  if negb (has pte PTE_V) && has pte PTE_U then
    massert (has perm PTE_U) ;;;
    panic_on (ptMap pt va 0 perm)
  else if has pte PTE_V then panic_on (ptMap pt va (pteToPa pte) perm)
  else ret tt.
Definition sys_mprotect (addr len prot : Z) : M pvm Z :=
  let from := pgdown addr in
  let to := pgup (wrap64 (addr + len - 1)) in
  let* pt := gets p_pt in
  on_vm (each_page (pages_between from to) to (protect_page pt (get_perm_by_prot prot)) from) ;;;
  ret 0.
End Calls.

(** ** Loops over the pages of a range *)

(** An invariant of the pages done and the memory carries a loop through. *)
Lemma each_page_run (J : Z -> mm -> Prop) (body : Z -> M mm unit) (to : Z) : to mod 4096 = 0 -> to < 18446744073709551616 ->
  (forall va s, va mod 4096 = 0 -> va < to -> J va s -> exists s', body va s = Ok (tt, s') /\ J (va + 4096) s') ->
  forall n va s, va mod 4096 = 0 -> 0 <= va <= to -> to - va = 4096 * Z.of_nat n -> J va s ->
  exists s', each_page n to body va s = Ok (tt, s') /\ J to s'.
Proof.
  intros Hto Hmax Hstep. induction n as [|n IH]; intros va s Hva Hr Hn HJ; cbn [each_page].
  - replace to with va in * by lia. rewrite Z.ltb_irrefl. now exists s.
  - rewrite (proj2 (Z.ltb_lt va to)) by lia. destruct (Hstep va s Hva ltac:(lia) HJ) as (s1 & E1 & J1). unfold bind. rewrite E1.
    unfold PAGE_SIZE. rewrite wrap64_small by lia. apply IH; auto; [zlia|lia|lia].
Qed.
Lemma pages_between_eq from to : from mod 4096 = 0 -> to mod 4096 = 0 -> from <= to -> to - from = 4096 * Z.of_nat (pages_between from to).
Proof. intros. unfold pages_between. rewrite Z2Nat.id by (apply Z.div_pos; lia). zlia. Qed.
Lemma pgup_eq a : 0 <= a < 18446744073709547520 -> pgup a = (a + 4095) / 4096 * 4096.
Proof. intros. unfold pgup. rewrite PGROUNDUP_eq by lia. apply wrap64_small. zlia. Qed.
Lemma pgdown_eq a : 0 <= a < 18446744073709551616 -> pgdown a = a / 4096 * 4096.
Proof. intros. unfold pgdown. rewrite PGROUNDDOWN_eq by lia. apply wrap64_small. zlia. Qed.
(** A page of the loop is before, at or after an address of its own. *)
Lemma page_cases va va' : va mod 4096 = 0 -> 0 <= va < USER_TOP -> 0 <= va' < USER_TOP ->
  same_page va va' = (va <=? va') && (va' <? va + 4096).
Proof. intros Ha Hv Hv'. rewrite same_page_div by exact Hv || exact Hv'. mem_cases; (apply Z.eqb_eq || apply Z.eqb_neq); zlia. Qed.

(** ** [sys_map] *)

(** The permissions a caller may ask for: a user page, not yet valid. *)
Definition user_perm (perm : Z) : Prop := 0 <= perm < 1024 /\ has perm PTE_V = false /\ has perm PTE_U = true.
(** The entry of a page that was added: below the threshold a page of its own,
    above it a promise. *)
Definition given (m : Z -> Z) (R R2 perm va : Z) : Prop :=
  if va <? PASSIVE_THRESHOLD
  then exists p, lookup_va m R va = mk_pte (frame p) perm /\ 0 < p < 4294967296 /\ forall va2, ~ maps m R2 va2 p
  else lookup_va m R va = perm.
Record added (s s' : mm) (R R2 perm : Z) (here : Z -> bool) : Prop := {
  ad_sp : spaces s' R R2;
  ad_new : forall va, 0 <= va < USER_TOP -> here va = true -> pteToPa (lookup_va s.(pmem) R va) = 0 -> given s'.(pmem) R R2 perm va;
  ad_old : forall va, 0 <= va < USER_TOP -> here va = false \/ pteToPa (lookup_va s.(pmem) R va) <> 0 -> lookup_va s'.(pmem) R va = lookup_va s.(pmem) R va;
  ad_lk2 : forall va, lookup_va s'.(pmem) R2 va = lookup_va s.(pmem) R2 va;
  ad_u : forall va, ubyte s'.(pmem) R va = ubyte s.(pmem) R va;
  ad_u2 : forall va, ubyte s'.(pmem) R2 va = ubyte s.(pmem) R2 va }.
Lemma threshold_page va va' : va mod 4096 = 0 -> 0 <= va < USER_TOP -> 0 <= va' < USER_TOP -> same_page va va' = true ->
  (va' <? PASSIVE_THRESHOLD) = (va <? PASSIVE_THRESHOLD).
Proof.
  intros Ha Hv Hv'. rewrite page_cases by assumption. intros E. zbool. unfold PASSIVE_THRESHOLD. mem_cases; try reflexivity; zlia.
Qed.
Lemma given_page m R R2 perm va va' : va mod 4096 = 0 -> 0 <= va < USER_TOP -> 0 <= va' < USER_TOP -> same_page va va' = true ->
  given m R R2 perm va -> given m R R2 perm va'.
Proof. intros Ha Hv Hv' E. unfold given. now rewrite (threshold_page va va'), (same_page_lookup _ _ _ _ E). Qed.

Lemma promise_added s R R2 perm va : spaces s R R2 -> (3 <= length s.(pageFreeList))%nat -> user_perm perm -> va mod 4096 = 0 -> 0 <= va < USER_TOP ->
  PASSIVE_THRESHOLD <= va -> has (lookup_va s.(pmem) R va) PTE_V = false -> 
  exists s', ptMap R va 0 perm s = Ok (0, s') /\ added s s' R R2 perm (same_page va) /\ (length s.(pageFreeList) <= length s'.(pageFreeList) + 3)%nat.
Proof.
  intros Sp Hf (Hp & Hv & Hu) Ha Hva Hth H0. destruct (ptMap_promise s R R2 va perm Sp ltac:(lia) Hp Hv Hu H0) as (s' & E & N & Hfr).
  pose proof (na_lk _ _ _ _ _ _ N) as L. assert (Hpp : pte_page perm = None) by (unfold pte_page; now rewrite Hv).
  assert (Hpo : pte_page (lookup_va s.(pmem) R va) = None) by (unfold pte_page; now rewrite H0).
  exists s'. split; [exact E|]. split; [|lia]. constructor; [apply N| | |apply (same_tables_lookup _ _ _ (na_t2 _ _ _ _ _ _ N))| |apply N].
  - intros va' Hva' Es _. apply (given_page _ _ _ _ va va'); auto. unfold given. rewrite (proj2 (Z.ltb_ge _ _)) by lia. now rewrite L, same_page_refl.
  - intros va' Hva' [Es|Es]; rewrite L; [now rewrite Es|]. destruct (same_page va va') eqn:E'; [|reflexivity]. rewrite (same_page_lookup _ _ _ _ E') in Es. destruct Es.
    destruct Sp as [_ _ S1 _]. now apply (wf_leaf _ _ (sp_wf _ _ _ S1)); try apply PTX_range.
  - intros va'. destruct (same_page va va') eqn:E'; [|exact (narrowed_u_other _ _ _ _ _ _ _ N E')].
    rewrite (na_u _ _ _ _ _ _ N), L, E', Hpp. unfold ubyte. now rewrite (same_page_lookup _ _ _ _ E'), Hpo.
Qed.
Lemma fresh_added s R R2 perm va : spaces s R R2 -> (3 <= length s.(pageFreeList))%nat -> user_perm perm -> va mod 4096 = 0 -> 0 <= va < USER_TOP ->
  va < PASSIVE_THRESHOLD -> has (lookup_va s.(pmem) R va) PTE_V = false ->
  exists s', (let* pa := vmAlloc in ptMap R va pa perm) s = Ok (0, s') /\ added s s' R R2 perm (same_page va) /\ (length s.(pageFreeList) <= length s'.(pageFreeList) + 3)%nat.
Proof.
  intros Sp Hf (Hp & Hv & Hu) Ha Hva Hth H0. destruct (vmAlloc_fresh s R R2 Sp) as (p & s1 & E1 & F & Hz); [now destruct (pageFreeList s)|].
  assert (Hpo : pte_page (lookup_va s.(pmem) R va) = None) by (unfold pte_page; now rewrite H0).
  destruct (fresh_mapped s s1 R R2 va perm p Sp F Hf Hp) as (s' & E2 & Rs).
  { intros o Ho. rewrite Hpo. unfold ldb. rewrite Hz by (unfold frame, MEMBASE; zlia). now rewrite Z.shiftr_0_l. }
  exists s'. split; [now rewrite (bind_run _ _ _ _ _ E1)|]. destruct Rs as [Sp' Hn (q & Hq & Hq0 & El) L L2 U U2 Hfr _ _]. pose proof (mm_npage _ (ss_ok _ _ _ Sp)).
  split; [|exact Hfr]. constructor; auto.
  - intros va' Hva' Es _. apply (given_page _ _ _ _ va va'); auto. unfold given. rewrite (proj2 (Z.ltb_lt _ _)) by lia. exists q. split; [exact El|]. split; [lia|].
    intros va2. unfold maps. rewrite L2. intros H2. apply Hq. now apply (sp_leaf _ _ _ (ss_other _ _ _ Sp) va2 q).
  - intros va' Hva' [Es|Es]; [now apply L|]. destruct (same_page va va') eqn:E'; [|now apply L]. rewrite (same_page_lookup _ _ _ _ E') in Es. destruct Es.
    destruct Sp as [_ _ S1 _]. now apply (wf_leaf _ _ (sp_wf _ _ _ S1)); try apply PTX_range.
Qed.
Lemma added_refl s R R2 perm : spaces s R R2 -> added s s R R2 perm (fun _ => false).
Proof. intros Sp. now constructor. Qed.
Lemma given_same m m' R R2 perm va : lookup_va m' R va = lookup_va m R va -> (forall va2, lookup_va m' R2 va2 = lookup_va m R2 va2) ->
  given m R R2 perm va -> given m' R R2 perm va.
Proof.
  intros E E2. unfold given. rewrite E. destruct (_ <? _); [|auto]. intros (p & H1 & H2 & H3). exists p. split; [exact H1|]. split; [exact H2|].
  intros va2. unfold maps. rewrite E2. apply H3.
Qed.
Lemma added_trans s s1 s2 R R2 perm h1 h2 h : added s s1 R R2 perm h1 -> added s1 s2 R R2 perm h2 ->
  (forall va, 0 <= va < USER_TOP -> h va = h1 va || h2 va) -> (forall va, 0 <= va < USER_TOP -> h1 va && h2 va = false) -> added s s2 R R2 perm h.
Proof.
  intros [Sp1 N1 O1 L1 U1 V1] [Sp2 N2 O2 L2 U2 V2] Hh Hd. constructor; [exact Sp2| | |congruence|congruence|congruence].
  - intros va Hva. rewrite (Hh va Hva). specialize (Hd va Hva). destruct (h1 va) eqn:E1; cbn [orb andb] in *; intros E H0.
    + apply (given_same s1.(pmem)); [now apply O2; [|left]|exact L2|]. now apply N1.
    + apply N2; [exact Hva|exact E|]. rewrite O1; [exact H0|exact Hva|now left].
  - intros va Hva. rewrite (Hh va Hva). intros H. assert (E1 : lookup_va s1.(pmem) R va = lookup_va s.(pmem) R va).
    { apply O1; [exact Hva|]. destruct H as [H|H]; [left; now apply orb_false_iff in H|now right]. }
    rewrite <- E1. apply O2; [exact Hva|]. rewrite E1. destruct H as [H|H]; [left; now apply orb_false_iff in H|now right].
Qed.
(** A valid entry names a page. *)
Definition names_page (m : Z -> Z) (R va : Z) : Prop := has (lookup_va m R va) PTE_V = true -> pteToPa (lookup_va m R va) <> 0.
Lemma map_page_run s R R2 perm va : spaces s R R2 -> (3 <= length s.(pageFreeList))%nat -> user_perm perm -> va mod 4096 = 0 -> 0 <= va < USER_TOP -> names_page s.(pmem) R va ->
  exists s', map_page R perm va s = Ok (tt, s') /\ added s s' R R2 perm (same_page va) /\ (length s.(pageFreeList) <= length s'.(pageFreeList) + 3)%nat.
Proof.
  intros Sp Hf Hp Ha Hva Hv. unfold map_page. rewrite (bind_run _ _ _ _ _ (lookup_run s R R2 va Sp)).
  destruct (Z.eqb_spec (pteToPa (lookup_va s.(pmem) R va)) 0) as [E0|E0].
  - assert (H0 : has (lookup_va s.(pmem) R va) PTE_V = false) by (destruct (has (lookup_va s.(pmem) R va) PTE_V) eqn:E; [now destruct (Hv E)|reflexivity]).
    destruct (Z.ltb_spec va PASSIVE_THRESHOLD) as [Ht|Ht].
    + destruct (fresh_added s R R2 perm va Sp Hf Hp Ha Hva Ht H0) as (s' & E & A & Hfr). exists s'. split; [|auto].
      unfold panic_on, bind in *. destruct (vmAlloc s) as [[pa s1]|]; [|discriminate]. now rewrite E.
    + destruct (promise_added s R R2 perm va Sp Hf Hp Ha Hva Ht H0) as (s' & E & A & Hfr). exists s'. split; [|auto].
      rewrite massert_run by apply Hp. unfold panic_on. now rewrite (bind_run _ _ _ _ _ E).
  - exists s. split; [reflexivity|]. split; [|lia]. constructor; auto.
    intros va' _ Es E. now rewrite (same_page_lookup _ _ _ _ Es) in E.
Qed.
Lemma map_loop_run s R R2 perm from to : spaces s R R2 -> user_perm perm -> from mod 4096 = 0 -> to mod 4096 = 0 -> 0 <= from <= to -> to <= USER_TOP ->
  (3 * pages_between from to <= length s.(pageFreeList))%nat -> (forall va, from <= va < to -> names_page s.(pmem) R va) ->
  exists s', each_page (pages_between from to) to (map_page R perm) from s = Ok (tt, s') /\
    added s s' R R2 perm (fun va => (from <=? va) && (va <? to)) /\ (length s.(pageFreeList) <= length s'.(pageFreeList) + 3 * pages_between from to)%nat.
Proof.
  intros Sp Hp Hfr Hto Hr Ht Hf Hv.
  assert (Hn : to - from = 4096 * Z.of_nat (pages_between from to)) by (apply pages_between_eq; lia). set (n := pages_between from to) in *.
  destruct (each_page_run (fun va s1 => from <= va <= to /\ added s s1 R R2 perm (fun x => (from <=? x) && (x <? va)) /\
      Z.of_nat (length s.(pageFreeList)) <= Z.of_nat (length s1.(pageFreeList)) + 3 * ((va - from) / 4096)) (map_page R perm) to Hto ltac:(unfold USER_TOP in *; lia)) with (n := n) (va := from) (s := s) as (s' & E & _ & A & Hl); auto.
  - intros va s1 Ha Hlt (Hva & A & Hl). assert (Hva0 : 0 <= va < USER_TOP) by lia.
    assert (El : lookup_va s1.(pmem) R va = lookup_va s.(pmem) R va) by (apply (ad_old _ _ _ _ _ _ A); [exact Hva0|left; zcases]).
    destruct (map_page_run s1 R R2 perm va (ad_sp _ _ _ _ _ _ A)) as (s2 & E2 & A2 & Hl2); auto; [zlia|unfold names_page; rewrite El; apply Hv; lia|].
    exists s2. split; [exact E2|]. split; [zlia|]. split; [|zlia].
    apply (added_trans s s1 s2 R R2 perm _ _ _ A A2); intros x Hx; rewrite page_cases by assumption; mem_cases; try reflexivity; zlia.
  - split; [lia|]. split; [|zlia]. destruct (added_refl s R R2 perm Sp) as [H1 H2 H3 H4 H5 H6]. constructor; auto. intros va _ Hh. zbool; lia.
  - exists s'. split; [exact E|]. split; [exact A|]. zlia.
Qed.

(** ** The calls *)

Definition with_vm (v : mm) (s : pvm) : pvm := MkPvm v s.(p_pt) s.(p_brk) s.(p_mmap) s.(p_depth).
Lemma on_vm_run {A : Type} (c : M mm A) s a v : c s.(vm) = Ok (a, v) -> on_vm c s = Ok (a, with_vm v s).
Proof. unfold on_vm. now intros ->. Qed.
(** The pages [sys_map] and [sys_mprotect] go through. *)
Definition first_page (start : Z) : Z := start / 4096 * 4096.
Definition end_page (start len : Z) : Z := (start + len - 1 + 4095) / 4096 * 4096.
Lemma range_pages start len : 0 <= start -> 0 <= len -> 1 <= start + len -> start + len <= USER_TOP ->
  pgdown start = first_page start /\ pgup (wrap64 (start + len - 1)) = end_page start len /\
  first_page start mod 4096 = 0 /\ end_page start len mod 4096 = 0 /\ 0 <= first_page start /\ end_page start len <= USER_TOP.
Proof.
  unfold USER_TOP. intros Hs Hl H1 Hu. rewrite (wrap64_small (start + len - 1)), pgdown_eq, pgup_eq by lia. unfold first_page, end_page.
  repeat split; try reflexivity; zlia.
Qed.
Lemma sys_map_run s R2 start len perm : spaces s.(vm) s.(p_pt) R2 -> user_perm perm -> 0 <= start -> 0 < len -> start + len <= USER_TOP ->
  (3 * pages_between (first_page start) (end_page start len) <= length s.(vm).(pageFreeList))%nat ->
  (forall va, first_page start <= va < end_page start len -> names_page s.(vm).(pmem) s.(p_pt) va) ->
  exists v, sys_map start len perm s = Ok (0, with_vm v s) /\
    added s.(vm) v s.(p_pt) R2 perm (fun va => (first_page start <=? va) && (va <? end_page start len)) /\
    (length s.(vm).(pageFreeList) <= length v.(pageFreeList) + 3 * pages_between (first_page start) (end_page start len))%nat.
Proof.
  intros Sp Hp Hs Hl Hu Hf Hv. destruct (range_pages start len Hs ltac:(lia) ltac:(lia) Hu) as (E1 & E2 & M1 & M2 & H0 & Hmax). unfold sys_map. rewrite E1, E2.
  assert (Hle : first_page start <= end_page start len) by (unfold first_page, end_page; zlia).
  destruct (map_loop_run s.(vm) s.(p_pt) R2 perm (first_page start) (end_page start len) Sp Hp M1 M2) as (v & E & A & Hfr); auto.
  exists v. split; [|auto]. rewrite (bind_run (gets p_pt) _ s _ s eq_refl). now rewrite (bind_run _ _ _ _ _ (on_vm_run _ _ _ _ E)).
Qed.

(** The permissions of a protection. *)
Definition prot_perm (prot flags : Z) : Z := let perm := get_perm_by_prot prot in if has flags MAP_SHARED then Z.lor perm PTE_SHARED else perm.
Lemma prot_perm_user prot flags : user_perm (prot_perm prot flags).
Proof.
  unfold user_perm, prot_perm, get_perm_by_prot. destruct (has prot PROT_EXEC), (has prot PROT_READ), (has prot PROT_WRITE), (has flags MAP_SHARED);
    (split; [vm_compute; split; congruence|split; reflexivity]).
Qed.
Definition round_up (len : Z) : Z := (len + 4095) / 4096 * 4096.
(** The state after a mapping of [n] bytes at the next address. *)
Definition mmapped (v : mm) (n : Z) (s : pvm) : pvm := MkPvm v s.(p_pt) s.(p_brk) (s.(p_mmap) + n) s.(p_depth).

Lemma pteToPa_0 : pteToPa 0 = 0.
Proof. reflexivity. Qed.
Lemma pgup_0 : pgup 0 = 0.
Proof. reflexivity. Qed.
Lemma sys_mmap_anon `{FileMapper} s len prot flags fd off n a v : pgup len = n -> n <> 0 -> pgup (wrap64 (s.(p_mmap) + n)) = a -> a <= MMAP_END ->
  0 <= s.(p_depth) -> has flags MAP_ANONYMOUS = true ->
  (let s2 := MkPvm s.(vm) s.(p_pt) s.(p_brk) a (s.(p_depth) + 1) in sys_map s.(p_mmap) n (prot_perm prot flags) s2 = Ok (0, with_vm v s2)) ->
  sys_mmap 0 len prot flags fd off s = Ok (s.(p_mmap), MkPvm v s.(p_pt) s.(p_brk) a s.(p_depth)).
Proof.
  intros Hn Hn0 Ha Hle Hd Hfl E. cbv zeta in E. unfold sys_mmap. rewrite (bind_run lock_proc _ s tt (with_depth (s.(p_depth) + 1) s)) by reflexivity. cbv zeta.
  rewrite Hn, (proj2 (Z.eqb_neq n 0) Hn0), pgup_0, Z.eqb_refl. rewrite (bind_run (gets p_mmap) _ _ s.(p_mmap) (with_depth (s.(p_depth) + 1) s)) by reflexivity.
  rewrite Ha, (proj2 (Z.ltb_ge MMAP_END a) Hle). cbn [andb]. rewrite (bind_run (set_mmap a) _ _ tt (MkPvm s.(vm) s.(p_pt) s.(p_brk) a (s.(p_depth) + 1))) by reflexivity.
  rewrite Hfl. fold (prot_perm prot flags). rewrite (bind_run _ _ _ _ _ E). change (0 <? 0) with false. cbv iota. unfold unlock_proc, bind. cbn [with_vm p_depth].
  rewrite (proj2 (Z.leb_gt _ _)) by lia. replace (s.(p_depth) + 1 - 1) with s.(p_depth) by lia. reflexivity.
Qed.

Section MmapSpec.
Context `{FileMapper} (s : pvm) (R2 len prot flags fd off : Z).
Context (Sp : spaces s.(vm) s.(p_pt) R2) (Hd : 0 <= s.(p_depth)) (Hfl : has flags MAP_ANONYMOUS = true).
Context (Hal : s.(p_mmap) mod 4096 = 0) (Hst : MMAP_START <= s.(p_mmap)) (Hl : 0 < len) (Hend : s.(p_mmap) + round_up len <= MMAP_END).
Context (Hfree : 3 * (round_up len / 4096) <= Z.of_nat (length s.(vm).(pageFreeList))).
Context (Hempty : forall va, s.(p_mmap) <= va < s.(p_mmap) + round_up len -> lookup_va s.(vm).(pmem) s.(p_pt) va = 0).
Lemma sys_mmap_run : exists v, sys_mmap 0 len prot flags fd off s = Ok (s.(p_mmap), mmapped v (round_up len) s) /\ spaces v s.(p_pt) R2 /\
    (forall va, 0 <= va < USER_TOP -> lookup_va v.(pmem) s.(p_pt) va =
       if (s.(p_mmap) <=? va) && (va <? s.(p_mmap) + round_up len) then prot_perm prot flags else lookup_va s.(vm).(pmem) s.(p_pt) va) /\
    (forall va, ubyte v.(pmem) s.(p_pt) va = ubyte s.(vm).(pmem) s.(p_pt) va) /\
    (forall va, lookup_va v.(pmem) R2 va = lookup_va s.(vm).(pmem) R2 va) /\ (forall va, ubyte v.(pmem) R2 va = ubyte s.(vm).(pmem) R2 va) /\
    Z.of_nat (length s.(vm).(pageFreeList)) <= Z.of_nat (length v.(pageFreeList)) + 3 * (round_up len / 4096).
Proof using All.
  unfold MMAP_START, MMAP_END in *. assert (Hlen : pgup len = round_up len) by (apply pgup_eq; unfold round_up in *; zlia).
  assert (Hr : 0 < round_up len /\ round_up len mod 4096 = 0) by (unfold round_up; zlia).
  assert (Hna : pgup (wrap64 (s.(p_mmap) + round_up len)) = s.(p_mmap) + round_up len) by (rewrite (wrap64_small (_ + _)), pgup_eq by lia; zlia).
  set (s1 := with_depth (s.(p_depth) + 1) s). set (s2 := MkPvm s1.(vm) s1.(p_pt) s1.(p_brk) (s.(p_mmap) + round_up len) s1.(p_depth)).
  assert (Hfp : first_page s.(p_mmap) = s.(p_mmap) /\ end_page s.(p_mmap) (round_up len) = s.(p_mmap) + round_up len) by (unfold first_page, end_page; zlia). destruct Hfp as [Ef Ee].
  assert (Hn : Z.of_nat (pages_between (first_page s.(p_mmap)) (end_page s.(p_mmap) (round_up len))) = round_up len / 4096).
  { rewrite Ef, Ee. pose proof (pages_between_eq s.(p_mmap) (s.(p_mmap) + round_up len) Hal ltac:(zlia) ltac:(lia)). zlia. }
  destruct (sys_map_run s2 R2 s.(p_mmap) (round_up len) (prot_perm prot flags)) as (v & E & A & Hfr); auto using prot_perm_user; try (unfold USER_TOP; lia).
  { change (vm s2) with (vm s). lia. }
  { rewrite Ef, Ee. intros va Hva. unfold names_page. change (vm s2) with (vm s). change (p_pt s2) with (p_pt s). rewrite Hempty by exact Hva. discriminate. }
  change (vm s2) with (vm s) in *. change (p_pt s2) with (p_pt s) in *.
  exists v. split; [|split; [apply A|split; [|split; [apply A|split; [apply A|split; [apply A|lia]]]]]].
  - unfold mmapped. apply (sys_mmap_anon s len prot flags fd off (round_up len) (s.(p_mmap) + round_up len) v); auto; lia.
  - intros va Hva. rewrite Ef, Ee in A. destruct ((s.(p_mmap) <=? va) && (va <? s.(p_mmap) + round_up len)) eqn:Er; [|apply (ad_old _ _ _ _ _ _ A va Hva); now left].
    pose proof (ad_new _ _ _ _ _ _ A va Hva Er) as Hg. zbool. rewrite Hempty in Hg by lia. specialize (Hg pteToPa_0). unfold given in Hg. rewrite (proj2 (Z.ltb_ge va PASSIVE_THRESHOLD)) in Hg by (unfold PASSIVE_THRESHOLD; lia). exact Hg.
Qed.
End MmapSpec.

Lemma prot_bits prot flags : let e := prot_perm prot flags in
  PTE_PASSIVE e = true /\ has e PTE_R = has prot PROT_READ /\ has e PTE_W = has prot PROT_WRITE /\ has e PTE_X = has prot PROT_EXEC /\
  has e PTE_SHARED = has flags MAP_SHARED /\ has e PTE_COW = false.
Proof.
  unfold prot_perm, get_perm_by_prot. destruct (has prot PROT_EXEC), (has prot PROT_READ), (has prot PROT_WRITE), (has flags MAP_SHARED); repeat split; reflexivity.
Qed.
(** An anonymous [mmap] without an address returns the next address of the
    process, promises exactly the pages of the range there with exactly the
    access asked for, changes no other entry and no byte that any program sees,
    and moves the next address behind the range; the lock is released. *)
Theorem mmap_gives `{FileMapper} (s : pvm) (R2 len prot flags fd off : Z) :
  spaces s.(vm) s.(p_pt) R2 -> 0 <= s.(p_depth) -> has flags MAP_ANONYMOUS = true ->
  s.(p_mmap) mod 4096 = 0 -> MMAP_START <= s.(p_mmap) -> 0 < len -> s.(p_mmap) + round_up len <= MMAP_END ->
  3 * (round_up len / 4096) <= Z.of_nat (length s.(vm).(pageFreeList)) ->
  (forall va, s.(p_mmap) <= va < s.(p_mmap) + round_up len -> lookup_va s.(vm).(pmem) s.(p_pt) va = 0) ->
  exists v, sys_mmap 0 len prot flags fd off s = Ok (s.(p_mmap), MkPvm v s.(p_pt) s.(p_brk) (s.(p_mmap) + round_up len) s.(p_depth)) /\ spaces v s.(p_pt) R2 /\
    (forall va, s.(p_mmap) <= va < s.(p_mmap) + round_up len -> let e := lookup_va v.(pmem) s.(p_pt) va in
       PTE_PASSIVE e = true /\ has e PTE_R = has prot PROT_READ /\ has e PTE_W = has prot PROT_WRITE /\ has e PTE_X = has prot PROT_EXEC /\
       has e PTE_SHARED = has flags MAP_SHARED /\ has e PTE_COW = false) /\
    (forall va, 0 <= va < USER_TOP -> ~ (s.(p_mmap) <= va < s.(p_mmap) + round_up len) -> lookup_va v.(pmem) s.(p_pt) va = lookup_va s.(vm).(pmem) s.(p_pt) va) /\
    (forall va, ubyte v.(pmem) s.(p_pt) va = ubyte s.(vm).(pmem) s.(p_pt) va) /\ (forall va, ubyte v.(pmem) R2 va = ubyte s.(vm).(pmem) R2 va).
Proof.
  intros Sp Hd Hfl Hal Hst Hl Hend Hfree Hempty.
  destruct (sys_mmap_run s R2 len prot flags fd off Sp Hd Hfl Hal Hst Hl Hend Hfree Hempty) as (v & E & Sp' & L & U & _ & U2 & _).
  unfold MMAP_START, MMAP_END in *. exists v. split; [exact E|]. split; [exact Sp'|]. split; [|split; [|split; [exact U|exact U2]]]; intros va Hva.
  - rewrite L by (unfold USER_TOP; lia). rewrite (proj2 (andb_true_iff _ _)) by (split; zcases). apply prot_bits.
  - intros Hn. rewrite L by exact Hva. destruct ((s.(p_mmap) <=? va) && _) eqn:E'; [zbool; lia|reflexivity].
Qed.

(** C16. Memory from [mmap] is fresh and the process's own: bytes then written to
    a part of it are seen there, the rest of it is zero, the rest of the
    process's memory is as before, and no other program sees a change. *)
Theorem mmap_then_write `{FileMapper} (s : pvm) (km : mem) (R2 len prot flags fd off uptr kptr cnt : Z) (n fuel : nat) :
  spaces s.(vm) s.(p_pt) R2 -> 0 <= s.(p_depth) -> has flags MAP_ANONYMOUS = true -> has prot PROT_WRITE = true ->
  s.(p_mmap) mod 4096 = 0 -> MMAP_START <= s.(p_mmap) -> 0 < len -> s.(p_mmap) + round_up len <= MMAP_END ->
  3 * (round_up len / 4096 + Z.of_nat n) <= Z.of_nat (length s.(vm).(pageFreeList)) ->
  (forall va, s.(p_mmap) <= va < s.(p_mmap) + round_up len -> lookup_va s.(vm).(pmem) s.(p_pt) va = 0) ->
  s.(p_mmap) <= uptr -> 0 <= cnt -> uptr + cnt <= s.(p_mmap) + round_up len -> uptr mod 4096 + cnt <= 4096 * Z.of_nat n -> (n <= fuel)%nat ->
  4096 <= kptr -> (forall x, 0 <= km x < 256) ->
  exists s1 v2, sys_mmap 0 len prot flags fd off s = Ok (s.(p_mmap), s1) /\ copy_out fuel s.(p_pt) uptr kptr cnt (MkUst s1.(vm) km) = Ok (tt, MkUst v2 km) /\
    (forall va, s.(p_mmap) <= va < s.(p_mmap) + round_up len -> ubyte v2.(pmem) s.(p_pt) va = if (uptr <=? va) && (va <? uptr + cnt) then km (kptr + (va - uptr)) else 0) /\
    (forall va, 0 <= va < USER_TOP -> ~ (s.(p_mmap) <= va < s.(p_mmap) + round_up len) -> ubyte v2.(pmem) s.(p_pt) va = ubyte s.(vm).(pmem) s.(p_pt) va) /\
    (forall va, ubyte v2.(pmem) R2 va = ubyte s.(vm).(pmem) R2 va).
Proof.
  intros Sp Hd Hfl Hw Hal Hst Hl Hend Hfree Hempty Hu Hc Huc Hn Hfuel Hk Hkm.
  destruct (sys_mmap_run s R2 len prot flags fd off Sp Hd Hfl Hal Hst Hl Hend ltac:(lia) Hempty) as (v & E & Sp' & L & U & L2 & U2 & Hf).
  unfold MMAP_START, MMAP_END in *.
  destruct (copy_out_loop s.(p_pt) R2 uptr kptr cnt ltac:(unfold USER_TOP; lia) Hk n fuel 0 (uptr mod PAGE_SIZE) v km Hfuel Hkm) as (v2 & E2 & _ & _ & V & V2 & _).
  - constructor; rewrite ?Z.add_0_r; try (intros; unfold PAGE_SIZE; auto; lia). intros va Hva.
    assert (El : lookup_va v.(pmem) s.(p_pt) va = prot_perm prot flags) by (rewrite L by (unfold USER_TOP; lia); rewrite (proj2 (andb_true_iff _ _)) by (split; zcases); reflexivity).
    destruct (prot_bits prot flags) as (B1 & _ & B3 & _). destruct (prot_perm_user prot flags) as (P1 & P2 & _). unfold may_write, private, maps. rewrite El. split.
    + right. split; [exact B1|]. split; [exact P1|]. now rewrite B3.
    + intros q va' Hq. unfold pte_page in Hq. now rewrite P2 in Hq.
  - eexists _, v2. split; [exact E|]. split; [exact E2|]. split; [|split]; [intros va Hva|intros va Hva Hno|intros va].
    + rewrite V, U, Z.add_0_r by (unfold USER_TOP; lia). destruct ((uptr <=? va) && _); [reflexivity|]. unfold ubyte. now rewrite Hempty by exact Hva.
    + rewrite V, U, Z.add_0_r by exact Hva. destruct ((uptr <=? va) && _) eqn:E'; [zbool; lia|reflexivity].
    + rewrite V2. apply U2.
Qed.

(** A length of zero, and a range that does not fit below [MMAP_END], are
    refused, with nothing changed. *)
Theorem mmap_refuses `{FileMapper} (s : pvm) (len prot flags fd off : Z) :
  0 <= s.(p_depth) -> pgup len = 0 \/ MMAP_END < pgup (wrap64 (s.(p_mmap) + pgup len)) ->
  sys_mmap 0 len prot flags fd off s = Ok (MAP_FAILED, s).
Proof.
  intros Hd Hbad. assert (Eu : (unlock_proc ;;; ret MAP_FAILED) (with_depth (s.(p_depth) + 1) s) = Ok (MAP_FAILED, s)).
  { unfold bind, unlock_proc. cbn [with_depth p_depth]. rewrite (proj2 (Z.leb_gt _ _)) by lia. unfold ret, with_depth. cbn. replace (s.(p_depth) + 1 - 1) with s.(p_depth) by lia. now destruct s. }
  unfold sys_mmap. rewrite (bind_run lock_proc _ s tt (with_depth (s.(p_depth) + 1) s)) by reflexivity. cbv zeta. destruct (Z.eqb_spec (pgup len) 0) as [E|E]; [exact Eu|].
  destruct Hbad as [Hb|Hb]; [easy|]. rewrite (bind_run (gets p_mmap) _ _ s.(p_mmap) (with_depth (s.(p_depth) + 1) s)) by reflexivity.
  rewrite pgup_0, Z.eqb_refl, (proj2 (Z.ltb_lt _ _) Hb). exact Eu.
Qed.

(** ** [sys_unmap] *)

Record unmapped (s s' : mm) (R R2 : Z) (here : Z -> bool) : Prop := {
  un_sp : spaces s' R R2;
  un_lk : forall va, 0 <= va < USER_TOP -> lookup_va s'.(pmem) R va = if here va then 0 else lookup_va s.(pmem) R va;
  un_u : forall va, 0 <= va < USER_TOP -> ubyte s'.(pmem) R va = if here va then 0 else ubyte s.(pmem) R va;
  un_u2 : forall va, ubyte s'.(pmem) R2 va = ubyte s.(pmem) R2 va;
  un_free : (length s.(pageFreeList) <= length s'.(pageFreeList))%nat }.
Lemma unmap_page_run s R R2 va : spaces s R R2 -> lookup_va s.(pmem) R va <> 0 ->
  exists s', panic_on (ptUnmap R va) s = Ok (tt, s') /\ unmapped s s' R R2 (same_page va).
Proof.
  intros Sp Hne. destruct (ptUnmap_narrows s R R2 va Sp Hne) as (s' & E & N & Hf & _). exists s'. unfold panic_on. rewrite (bind_run _ _ _ _ _ E). split; [reflexivity|].
  constructor; [apply N|intros va' _; apply N| |apply N|exact Hf].
  intros va' _. destruct (same_page va va') eqn:E'; [|exact (narrowed_u_other _ _ _ _ _ _ _ N E')]. now rewrite (na_u _ _ _ _ _ _ N), (na_lk _ _ _ _ _ _ N), E'.
Qed.
Lemma unmapped_trans s s1 s2 R R2 h1 h2 h : unmapped s s1 R R2 h1 -> unmapped s1 s2 R R2 h2 ->
  (forall va, 0 <= va < USER_TOP -> h va = h1 va || h2 va) -> unmapped s s2 R R2 h.
Proof.
  intros [Sp1 L1 U1 V1 F1] [Sp2 L2 U2 V2 F2] Hh. constructor; [exact Sp2| | |congruence|lia]; intros va Hva; rewrite (Hh va Hva).
  - rewrite L2, L1 by exact Hva. now destruct (h1 va), (h2 va).
  - rewrite U2, U1 by exact Hva. now destruct (h1 va), (h2 va).
Qed.
Lemma unmap_loop_run s R R2 from to : spaces s R R2 -> from mod 4096 = 0 -> to mod 4096 = 0 -> 0 <= from <= to -> to <= USER_TOP ->
  (forall va, from <= va < to -> lookup_va s.(pmem) R va <> 0) ->
  exists s', each_page (pages_between from to) to (fun va => panic_on (ptUnmap R va)) from s = Ok (tt, s') /\ unmapped s s' R R2 (fun va => (from <=? va) && (va <? to)).
Proof.
  intros Sp Hfr Hto Hr Ht Hne.
  destruct (each_page_run (fun va s1 => from <= va <= to /\ unmapped s s1 R R2 (fun x => (from <=? x) && (x <? va))) (fun va => panic_on (ptUnmap R va)) to Hto ltac:(unfold USER_TOP in *; lia))
    with (n := pages_between from to) (va := from) (s := s) as (s' & E & _ & A); auto.
  - intros va s1 Ha Hlt (Hva & A). assert (Hva0 : 0 <= va < USER_TOP) by lia.
    destruct (unmap_page_run s1 R R2 va (un_sp _ _ _ _ _ A)) as (s2 & E2 & A2).
    { rewrite (un_lk _ _ _ _ _ A va Hva0), Z.ltb_irrefl, andb_false_r. apply Hne. lia. }
    exists s2. split; [exact E2|]. split; [zlia|]. apply (unmapped_trans s s1 s2 R R2 _ _ _ A A2). intros x Hx. rewrite page_cases by assumption. mem_cases; try reflexivity; zlia.
  - apply pages_between_eq; lia.
  - split; [lia|]. constructor; auto; intros va _; destruct ((from <=? va) && (va <? from)) eqn:E; try reflexivity; zbool; lia.
  - now exists s'.
Qed.
(** A bound inside a page is as good as the end of that page. *)
Lemma each_page_round n to to' body : to' mod 4096 = 0 -> to <= to' < to + 4096 -> to' < 18446744073709551616 ->
  forall va s, va mod 4096 = 0 -> 0 <= va -> each_page n to body va s = each_page n to' body va s.
Proof.
  intros Hto H0 Hmax. induction n as [|n IH]; intros va s Hva Hv; cbn [each_page].
  - destruct (Z.ltb_spec va to), (Z.ltb_spec va to'); try reflexivity; zlia.
  - destruct (Z.ltb_spec va to), (Z.ltb_spec va to'); try reflexivity; try zlia. unfold bind. destruct (body va s) as [[[] s1]|]; [|reflexivity].
    unfold PAGE_SIZE. rewrite wrap64_small by zlia. apply IH; zlia.
Qed.
Lemma pages_between_round from to to' : from mod 4096 = 0 -> to' mod 4096 = 0 -> to <= to' < to + 4096 -> pages_between from to = pages_between from to'.
Proof. intros. unfold pages_between. f_equal. zlia. Qed.
(** [munmap] of mapped pages removes exactly them: the process sees nothing
    there any more and its other memory as before, other programs see no
    change, and the lock is released. *)
Theorem munmap_unmaps (s : pvm) (R2 start len : Z) :
  spaces s.(vm) s.(p_pt) R2 -> 0 <= s.(p_depth) -> start mod 4096 = 0 -> 0 <= start -> 0 < len -> start + round_up len <= USER_TOP ->
  (forall va, start <= va < start + round_up len -> lookup_va s.(vm).(pmem) s.(p_pt) va <> 0) ->
  exists v, sys_unmap start len s = Ok (0, with_vm v s) /\ unmapped s.(vm) v s.(p_pt) R2 (fun va => (start <=? va) && (va <? start + round_up len)).
Proof.
  intros Sp Hd Ha Hs Hl Hu Hne. unfold USER_TOP in Hu. assert (Hr : len <= round_up len /\ round_up len mod 4096 = 0 /\ round_up len < len + 4096) by (unfold round_up; zlia).
  assert (Ef : pgup start = start) by (rewrite pgup_eq by lia; zlia).
  assert (Et : pgdown (wrap64 (start + len - 1)) = start + round_up len - 4096) by (rewrite (wrap64_small (_ - _)), pgdown_eq by lia; unfold round_up; zlia).
  destruct (unmap_loop_run s.(vm) s.(p_pt) R2 start (start + round_up len) Sp Ha) as (v & E & A); auto; try (unfold USER_TOP; lia); [zlia|].
  exists v. split; [|exact A]. unfold sys_unmap. rewrite Ef, Et. rewrite (bind_run lock_proc _ s tt (with_depth (s.(p_depth) + 1) s)) by reflexivity.
  rewrite (bind_run (gets p_pt) _ _ s.(p_pt) (with_depth (s.(p_depth) + 1) s)) by reflexivity.
  rewrite (bind_run _ _ _ tt (with_vm v (with_depth (s.(p_depth) + 1) s))).
  - unfold bind, unlock_proc. cbn [with_vm with_depth p_depth]. rewrite (proj2 (Z.leb_gt _ _)) by lia. replace (s.(p_depth) + 1 - 1) with s.(p_depth) by lia. reflexivity.
  - apply on_vm_run. cbn [with_depth vm]. rewrite (pages_between_round _ _ (start + round_up len)), (each_page_round _ _ (start + round_up len)) by (lia || zlia). exact E.
Qed.

(** ** [sys_mprotect] *)

(** What the permissions [perm] make of an entry. *)
Definition protected (perm e : Z) : Z :=
  match pte_page e with Some q => mk_pte (frame q) perm | None => if PTE_PASSIVE e then perm else e end.
Record protects (s s' : mm) (R R2 perm : Z) (here : Z -> bool) : Prop := {
  pr_sp : spaces s' R R2;
  pr_lk : forall va, 0 <= va < USER_TOP -> lookup_va s'.(pmem) R va = if here va then protected perm (lookup_va s.(pmem) R va) else lookup_va s.(pmem) R va;
  pr_ref : forall va q, 0 <= va < USER_TOP -> maps s.(pmem) R va q -> s'.(page_ref) q = s.(page_ref) q;
  pr_u : forall va, ubyte s'.(pmem) R va = ubyte s.(pmem) R va;
  pr_u2 : forall va, ubyte s'.(pmem) R2 va = ubyte s.(pmem) R2 va }.
(** An entry [mprotect] can change: a page in memory, a promise, or nothing. *)
Definition protectable (s : mm) (R va : Z) : Prop :=
  has (lookup_va s.(pmem) R va) PTE_V = true -> exists q, maps s.(pmem) R va q /\ s.(page_ref) q < 4294967295.
Lemma narrowed_protects s s' R R2 va perm e' : narrowed s s' R R2 va e' -> e' = protected perm (lookup_va s.(pmem) R va) -> pte_page e' = pte_page (lookup_va s.(pmem) R va) ->
  spaces s R R2 -> protects s s' R R2 perm (same_page va).
Proof.
  intros N He Hp Sp. constructor; [apply N| | | |apply N].
  - intros va' _. rewrite (na_lk _ _ _ _ _ _ N), He. destruct (same_page va va') eqn:E; [|reflexivity]. now rewrite (same_page_lookup _ _ _ _ E).
  - intros va' q _ Hq. rewrite (na_ref _ _ _ _ _ _ N), Hp by now apply (sp_leaf _ _ _ (ss_this _ _ _ Sp) va' q). lia.
  - intros va'. destruct (same_page va va') eqn:E; [|exact (narrowed_u_other _ _ _ _ _ _ _ N E)].
    rewrite (na_u _ _ _ _ _ _ N), (na_lk _ _ _ _ _ _ N), E, Hp, <- (same_page_lookup s.(pmem) R va va' E). unfold ubyte. now destruct (pte_page (lookup_va s.(pmem) R va')).
Qed.
Lemma protect_page_run s R R2 perm va : spaces s R R2 -> (2 <= length s.(pageFreeList))%nat -> user_perm perm -> protectable s R va ->
  exists s', protect_page R perm va s = Ok (tt, s') /\ protects s s' R R2 perm (same_page va) /\ (length s.(pageFreeList) <= length s'.(pageFreeList) + 2)%nat.
Proof.
  intros Sp Hf (Hp & Hv & Hu) Hq. unfold protect_page. rewrite (bind_run _ _ _ _ _ (lookup_run s R R2 va Sp)).
  destruct (has (lookup_va s.(pmem) R va) PTE_V) eqn:EV; cbn [negb andb].
  - destruct (Hq EV) as (q & Hm & Hr). pose proof (sp_leaf _ _ _ (ss_this _ _ _ Sp) va q Hm) as (Hin & _). pose proof (mm_npage _ (ss_ok _ _ _ Sp)).
    assert (Hq0 : 0 < q < 4294967296) by (destruct Hin; lia). destruct (maps_page _ _ _ _ Hm) as [_ Hpa]; [lia|lia|].
    destruct (ptMap_reperm s R R2 va q perm Sp Hp Hm Hr) as (s' & E & N & Hfr). exists s'. rewrite Hpa. unfold panic_on. rewrite (bind_run _ _ _ _ _ E). split; [reflexivity|].
    split; [|rewrite Hfr; lia]. apply (narrowed_protects _ _ _ _ _ _ _ N); auto; [unfold protected, maps in *; now rewrite Hm|transitivity (Some q); [now apply mk_facts|symmetry; exact Hm]].
  - assert (Hn : pte_page (lookup_va s.(pmem) R va) = None) by (unfold pte_page; now rewrite EV).
    destruct (has (lookup_va s.(pmem) R va) PTE_U) eqn:EU.
    + destruct (ptMap_promise s R R2 va perm Sp Hf Hp Hv Hu EV) as (s' & E & N & Hfr). exists s'. rewrite massert_run by exact Hu. unfold panic_on. rewrite (bind_run _ _ _ _ _ E). split; [reflexivity|].
      split; [|exact Hfr]. apply (narrowed_protects _ _ _ _ _ _ _ N); auto; [unfold protected, PTE_PASSIVE; now rewrite Hn, EV, EU|rewrite Hn; unfold pte_page; now rewrite Hv].
    + exists s. split; [reflexivity|]. split; [|lia]. constructor; auto. intros va' _. destruct (same_page va va') eqn:E; [|reflexivity].
      rewrite (same_page_lookup _ _ _ _ E). unfold protected, PTE_PASSIVE. now rewrite Hn, EV, EU.
Qed.
Lemma protected_page perm e : 0 <= perm < 1024 -> has perm PTE_V = false -> (forall q, pte_page e = Some q -> 0 < q < 4294967296) -> pte_page (protected perm e) = pte_page e.
Proof.
  intros Hp Hv Hq. unfold protected. destruct (pte_page e) as [q|] eqn:E; [apply mk_facts; auto|]. destruct (PTE_PASSIVE e); [unfold pte_page; now rewrite Hv|exact E].
Qed.
Lemma space_page s R R2 va q : spaces s R R2 -> maps s.(pmem) R va q -> 0 < q < 4294967296.
Proof. intros Sp Hq. destruct (sp_leaf _ _ _ (ss_this _ _ _ Sp) va q Hq) as (Hin & _). pose proof (mm_npage _ (ss_ok _ _ _ Sp)). destruct Hin. lia. Qed.
Lemma protects_maps s s' R R2 perm h va q : user_perm perm -> spaces s R R2 -> protects s s' R R2 perm h -> 0 <= va < USER_TOP -> maps s.(pmem) R va q -> maps s'.(pmem) R va q.
Proof.
  intros (Hp & Hv & _) Sp P Hva Hq. unfold maps. rewrite (pr_lk _ _ _ _ _ _ P va Hva). destruct (h va); [|exact Hq]. rewrite protected_page; auto. intros q' Hq'. now apply (space_page s R R2 va).
Qed.
Lemma protects_trans s s1 s2 R R2 perm h1 h2 h : user_perm perm -> spaces s R R2 -> protects s s1 R R2 perm h1 -> protects s1 s2 R R2 perm h2 ->
  (forall va, 0 <= va < USER_TOP -> h va = h1 va || h2 va) -> (forall va, 0 <= va < USER_TOP -> h1 va && h2 va = false) -> protects s s2 R R2 perm h.
Proof.
  intros Hp Sp P1 P2 Hh Hd. pose proof P1 as [Sp1 L1 R1 U1 V1]. pose proof P2 as [Sp2 L2 R2' U2 V2]. constructor; [exact Sp2| | |congruence|congruence].
  - intros va Hva. rewrite (L2 va Hva), (L1 va Hva), (Hh va Hva). specialize (Hd va Hva). now destruct (h1 va), (h2 va).
  - intros va q Hva Hq. rewrite (R2' va q Hva), (R1 va q Hva Hq); [reflexivity|]. now apply (protects_maps s s1 R R2 perm h1).
Qed.
Lemma protect_loop_run s R R2 perm from to : spaces s R R2 -> user_perm perm -> from mod 4096 = 0 -> to mod 4096 = 0 -> 0 <= from <= to -> to <= USER_TOP ->
  (2 * pages_between from to <= length s.(pageFreeList))%nat -> (forall va, from <= va < to -> protectable s R va) ->
  exists s', each_page (pages_between from to) to (protect_page R perm) from s = Ok (tt, s') /\ protects s s' R R2 perm (fun va => (from <=? va) && (va <? to)).
Proof.
  intros Sp Hp Hfr Hto Hr Ht Hf Hq.
  assert (Hn : to - from = 4096 * Z.of_nat (pages_between from to)) by (apply pages_between_eq; lia). set (n := pages_between from to) in *.
  destruct (each_page_run (fun va s1 => from <= va <= to /\ protects s s1 R R2 perm (fun x => (from <=? x) && (x <? va)) /\
      Z.of_nat (length s.(pageFreeList)) <= Z.of_nat (length s1.(pageFreeList)) + 2 * ((va - from) / 4096)) (protect_page R perm) to Hto ltac:(unfold USER_TOP in *; lia)) with (n := n) (va := from) (s := s) as (s' & E & _ & A & _); auto.
  - intros va s1 Ha Hlt (Hva & A & Hl). assert (Hva0 : 0 <= va < USER_TOP) by lia.
    assert (El : lookup_va s1.(pmem) R va = lookup_va s.(pmem) R va) by (rewrite (pr_lk _ _ _ _ _ _ A va Hva0), Z.ltb_irrefl, andb_false_r; reflexivity).
    destruct (protect_page_run s1 R R2 perm va (pr_sp _ _ _ _ _ _ A)) as (s2 & E2 & A2 & Hl2); auto; [zlia| |].
    { unfold protectable, maps. rewrite El. intros HV. destruct (Hq va ltac:(lia) HV) as (q & Hm & Hrq). exists q. split; [exact Hm|]. now rewrite (pr_ref _ _ _ _ _ _ A va q Hva0 Hm). }
    exists s2. split; [exact E2|]. split; [zlia|]. split; [|zlia].
    apply (protects_trans s s1 s2 R R2 perm _ _ _ Hp Sp A A2); intros x Hx; rewrite page_cases by assumption; mem_cases; try reflexivity; zlia.
  - split; [lia|]. split; [|zlia]. constructor; auto. intros va _. destruct ((from <=? va) && (va <? from)) eqn:E; [zbool; lia|reflexivity].
  - now exists s'.
Qed.
(** [mprotect] gives every page of its range that is present or promised
    exactly the access asked for, with the same page behind it, and leaves the
    other entries and the memory every program sees alone. *)
Theorem mprotect_sets (s : pvm) (R2 addr len prot : Z) :
  spaces s.(vm) s.(p_pt) R2 -> 0 <= addr -> 0 < len -> addr + len <= USER_TOP ->
  (2 * pages_between (first_page addr) (end_page addr len) <= length s.(vm).(pageFreeList))%nat ->
  (forall va, first_page addr <= va < end_page addr len -> protectable s.(vm) s.(p_pt) va) ->
  exists v, sys_mprotect addr len prot s = Ok (0, with_vm v s) /\
    protects s.(vm) v s.(p_pt) R2 (get_perm_by_prot prot) (fun va => (first_page addr <=? va) && (va <? end_page addr len)).
Proof.
  intros Sp Hs Hl Hu Hf Hq. destruct (range_pages addr len Hs ltac:(lia) ltac:(lia) Hu) as (E1 & E2 & M1 & M2 & H0 & Hmax). unfold sys_mprotect. rewrite E1, E2.
  assert (Hle : first_page addr <= end_page addr len) by (unfold first_page, end_page; zlia).
  destruct (protect_loop_run s.(vm) s.(p_pt) R2 (get_perm_by_prot prot) (first_page addr) (end_page addr len) Sp (prot_perm_user prot 0) M1 M2) as (v & E & A); auto.
  exists v. split; [|exact A]. rewrite (bind_run (gets p_pt) _ s _ s eq_refl). now rewrite (bind_run _ _ _ _ _ (on_vm_run _ _ _ _ E)).
Qed.

(** ** [sys_brk] *)

(** A break that grows adds the pages from the old break on. *)
Theorem brk_grows (s : pvm) (R2 addr : Z) :
  spaces s.(vm) s.(p_pt) R2 -> 0 <= s.(p_depth) -> 0 <= s.(p_brk) < addr -> addr <= USER_TOP ->
  (3 * pages_between (first_page s.(p_brk)) (end_page s.(p_brk) (addr - s.(p_brk))) <= length s.(vm).(pageFreeList))%nat ->
  (forall va, first_page s.(p_brk) <= va < end_page s.(p_brk) (addr - s.(p_brk)) -> names_page s.(vm).(pmem) s.(p_pt) va) ->
  exists v, sys_brk addr s = Ok (sext32 addr, MkPvm v s.(p_pt) addr s.(p_mmap) s.(p_depth)) /\
    added s.(vm) v s.(p_pt) R2 22 (fun va => (first_page s.(p_brk) <=? va) && (va <? end_page s.(p_brk) (addr - s.(p_brk)))).
Proof.
  intros Sp Hd Hb Ha Hf Hv. unfold USER_TOP in Ha. set (s1 := MkPvm s.(vm) s.(p_pt) addr s.(p_mmap) (s.(p_depth) + 1)).
  destruct (sys_map_run s1 R2 s.(p_brk) (addr - s.(p_brk)) 22) as (v & E & A & _); auto; try (unfold USER_TOP; lia); [repeat split; reflexivity || lia|].
  exists v. split; [|exact A]. unfold sys_brk. rewrite (bind_run lock_proc _ s tt (with_depth (s.(p_depth) + 1) s)) by reflexivity.
  rewrite (bind_run (gets p_brk) _ _ s.(p_brk) (with_depth (s.(p_depth) + 1) s)) by reflexivity. rewrite (proj2 (Z.eqb_neq addr 0)) by lia.
  rewrite (bind_run (set_brk addr) _ _ tt s1) by reflexivity. rewrite (proj2 (Z.ltb_ge addr s.(p_brk))), (wrap64_small (addr - _)) by lia.
  change (Z.lor (Z.lor PTE_R PTE_W) PTE_U) with 22. rewrite (bind_run _ _ _ _ _ E). unfold bind, unlock_proc. cbn [with_vm p_depth s1].
  rewrite (proj2 (Z.leb_gt _ _)) by lia. replace (s.(p_depth) + 1 - 1) with s.(p_depth) by lia. reflexivity.
Qed.

(** ** Defects *)

(** A kernel without files. *)
#[local] Instance no_files : FileMapper := {| getDirentByFd _ := ret (-9, 0); file_map _ _ _ _ _ := fail BadPtr |}.
Definition twin_proc : pvm := MkPvm twin_vm dirA 65536 MMAP_START 0.
(** [brk] passes the old break, not the length, to [sys_unmap], which goes on
    behind the heap and stops the kernel at the first page that is not mapped. *)
Theorem brk_shrink_panics : exists s, sys_brk 73728 twin_proc = Ok (73728, s) /\ sys_brk 69632 s = Err Panic.
Proof. exists (after (sys_brk 73728) twin_proc). split; [apply after_ok; evals|evals]. Qed.
(** The page of the last byte is left out when that byte is its first one. *)
Theorem brk_misses_page : exists s, sys_brk 65537 twin_proc = Ok (65537, s) /\ s.(p_brk) = 65537 /\ lookup_va s.(vm).(pmem) dirA 65536 = 0.
Proof. exists (after (sys_brk 65537) twin_proc). split; [apply after_ok; evals|split; evals]. Qed.
(** [munmap] of pages that are not mapped stops the kernel. *)
Theorem munmap_hole_panics : sys_unmap 4096 4096 twin_proc = Err BadPtr.
Proof. evals. Qed.
(** A huge length wraps around: [mmap] reports success with nothing mapped, and
    the next address moves down, into memory already handed out. *)
Definition wrap_first : pvm := after (sys_mmap 0 8192 3 32 (-1) 0) twin_proc.
Definition wrap_huge : pvm := after (sys_mmap 0 18446744073709543424 3 32 (-1) 0) wrap_first.
Definition wrap_third : pvm := after (sys_mmap 0 4096 3 32 (-1) 0) wrap_huge.
Theorem mmap_length_wraps : sys_mmap 0 8192 3 32 (-1) 0 twin_proc = Ok (MMAP_START, wrap_first) /\
  sys_mmap 0 18446744073709543424 3 32 (-1) 0 wrap_first = Ok (MMAP_START + 8192, wrap_huge) /\ lookup_va wrap_huge.(vm).(pmem) dirA (MMAP_START + 8192) = 0 /\
  sys_mmap 0 4096 3 32 (-1) 0 wrap_huge = Ok (MMAP_START, wrap_third).
Proof.
  split; [runs (sys_mmap 0 8192 3 32 (-1) 0) twin_proc MMAP_START|]. split; [runs (sys_mmap 0 18446744073709543424 3 32 (-1) 0) wrap_first (MMAP_START + 8192)|].
  split; [evals|]. runs (sys_mmap 0 4096 3 32 (-1) 0) wrap_huge MMAP_START.
Qed.
(** [mprotect] forgets that a page is copy-on-write: after a fork, a child that
    asks for write access to a page and writes to it changes its parent's memory. *)
Definition cow_forked : mm := after (fork_memory dirA dirB) paged_vm.
Definition cow_protected : pvm := after (sys_mprotect 4096 4096 3) (MkPvm cow_forked dirB 0 MMAP_START 0).
Definition cow_written : ust := after (copy_out 1 dirB 4100 8192 5) (MkUst cow_protected.(vm) (fun _ => 7)).
Theorem mprotect_breaks_cow : fork_memory dirA dirB paged_vm = Ok (0, cow_forked) /\
  sys_mprotect 4096 4096 3 (MkPvm cow_forked dirB 0 MMAP_START 0) = Ok (0, cow_protected) /\
  copy_out 1 dirB 4100 8192 5 (MkUst cow_protected.(vm) (fun _ => 7)) = Ok (tt, cow_written) /\
  ubyte cow_forked.(pmem) dirA 4102 = 0 /\ ubyte cow_written.(umm).(pmem) dirA 4102 = 7.
Proof.
  split; [runs (fork_memory dirA dirB) paged_vm 0|]. split; [runs (sys_mprotect 4096 4096 3) (MkPvm cow_forked dirB 0 MMAP_START 0) 0|].
  split; [runs (copy_out 1 dirB 4100 8192 5) (MkUst cow_protected.(vm) (fun _ => 7)) tt|]. split; evals.
Qed.

(** ** Witnesses *)

Lemma twin_empty va : lookup_va twin_vm.(pmem) dirA va = 0.
Proof. reflexivity. Qed.
Lemma twin_room : length twin_vm.(pageFreeList) = 50%nat.
Proof. reflexivity. Qed.
Lemma mmap_gives_witness : exists v, sys_mmap 0 5000 3 32 (-1) 0 twin_proc = Ok (MMAP_START, MkPvm v dirA 65536 (MMAP_START + 8192) 0) /\ spaces v dirA dirB.
Proof.
  destruct (mmap_gives twin_proc dirB 5000 3 32 (-1) 0 twin_spaces ltac:(cbn; lia) eq_refl eq_refl ltac:(cbn; lia) ltac:(lia)) as (v & E & Sp & _);
    [vm_compute; congruence|cbn [twin_proc vm]; rewrite twin_room; vm_compute; congruence|intros va _; apply twin_empty|].
  exists v. split; [exact E|exact Sp].
Defined.
Lemma mmap_then_write_witness : exists s1 v2, sys_mmap 0 5000 3 32 (-1) 0 twin_proc = Ok (MMAP_START, s1) /\
  copy_out 1 dirA (MMAP_START + 10) 8192 5 (MkUst s1.(vm) (fun _ => 7)) = Ok (tt, MkUst v2 (fun _ => 7)) /\ ubyte v2.(pmem) dirA (MMAP_START + 12) = 7.
Proof.
  destruct (mmap_then_write twin_proc (fun _ => 7) dirB 5000 3 32 (-1) 0 (MMAP_START + 10) 8192 5 1 1 twin_spaces ltac:(cbn; lia) eq_refl eq_refl eq_refl ltac:(cbn; lia) ltac:(lia)) as (s1 & v2 & E1 & E2 & U & _);
    [vm_compute; congruence|cbn [twin_proc vm]; rewrite twin_room; vm_compute; congruence|intros va _; apply twin_empty|cbn [twin_proc p_mmap]; lia|lia|vm_compute; congruence|vm_compute; congruence|lia|lia|intros; lia|].
  exists s1, v2. split; [exact E1|]. split; [exact E2|]. apply (U (MMAP_START + 12)). change (round_up 5000) with 8192. cbn [twin_proc p_mmap]. lia.
Defined.
Lemma munmap_unmaps_witness : exists v, sys_unmap 4096 10 (MkPvm paged_vm dirA 0 MMAP_START 0) = Ok (0, MkPvm v dirA 0 MMAP_START 0) /\ lookup_va v.(pmem) dirA 4100 = 0.
Proof.
  destruct paged_facts as (Sp & _ & L & _).
  destruct (munmap_unmaps (MkPvm paged_vm dirA 0 MMAP_START 0) dirB 4096 10 Sp ltac:(cbn; lia) eq_refl ltac:(lia) ltac:(lia) ltac:(vm_compute; congruence)) as (v & E & A).
  { change (round_up 10) with 4096. intros va Hva. cbn [vm p_pt]. rewrite page1_lookup, L by lia. vm_compute. congruence. }
  exists v. split; [exact E|]. rewrite (un_lk _ _ _ _ _ A) by (unfold USER_TOP; cbn; lia). reflexivity.
Defined.
Lemma mprotect_sets_witness : exists v, sys_mprotect 4096 10 1 (MkPvm paged_vm dirA 0 MMAP_START 0) = Ok (0, MkPvm v dirA 0 MMAP_START 0) /\ has (lookup_va v.(pmem) dirA 4100) PTE_W = false.
Proof.
  destruct paged_facts as (Sp & _ & L & Hr & _).
  destruct (mprotect_sets (MkPvm paged_vm dirA 0 MMAP_START 0) dirB 4096 10 1 Sp ltac:(lia) ltac:(lia) ltac:(vm_compute; congruence)) as (v & E & A).
  { vm_compute. lia. }
  { intros va Hva _. exists 70. split; [|cbn [vm]; rewrite Hr; lia]. unfold maps. cbn [vm p_pt]. change (first_page 4096) with 4096 in Hva. change (end_page 4096 10) with 8192 in Hva. rewrite page1_lookup, L by lia. reflexivity. }
  exists v. split; [exact E|]. rewrite (pr_lk _ _ _ _ _ _ A) by (unfold USER_TOP; cbn; lia). cbn [vm p_pt]. rewrite page1_lookup, L by lia. reflexivity.
Defined.
