(* ===== verification/Shm.v ===== *)
(** * Shared memory segments

    [src/kern/ipc/shm.c].  A segment is a range of the kernel's address space;
    attaching it maps its pages into the process.  The state is the list of
    segments with the two counters, the kernel's directory, and the memory and
    directory of the calling process ([Mmap.pvm]).  A call is one critical
    section of [shm_list_lock].  The descriptor of a segment that is removed is
    never freed, so [kmalloc] is a new element of the list. *)

From S2P Require Import Prelude StringLib Pmm Vmm UserMem Fork Mmap.
From Stdlib Require Import ZArith Lia Bool.
From stdpp Require Import base tactics numbers list.
Open Scope Z_scope.

Record shm_t : Type := MkShm { shm_key : Z; shmid : Z; shm_size : Z; shm_flags : Z; kaddr : Z }.
Record ist : Type := MkIst { shm_list : list shm_t; tot_shmid : Z; cur_addr : Z; kernPd : Z; proc : pvm }.
Definition on_proc {A : Type} (c : M pvm A) : M ist A := fun s =>
  match c s.(proc) with Ok (a, p) => Ok (a, MkIst s.(shm_list) s.(tot_shmid) s.(cur_addr) s.(kernPd) p) | Err f => Err f end.
Definition IPC_PRIVATE : Z := 0.
Definition IPC_CREAT : Z := 512.
Definition IPC_RMID : Z := 0.
Definition ENOENT : Z := 2.
Definition EINVAL : Z := 22.
Definition KERNEL_SHM : Z := 38654705664.

Definition shm_init : M ist unit := modify (fun s => MkIst [] s.(tot_shmid) s.(cur_addr) s.(kernPd) s.(proc)).
Definition alloc_page (kern va : Z) : M mm unit :=
  let* pa := vmAlloc in
  Mmap.panic_on (ptMap kern va pa (Z.lor PTE_R PTE_W)).
Definition alloc_kmem (size : Z) : M ist Z :=
  let size := pgup size in
  let* addr := gets cur_addr in
  let* kern := gets kernPd in
  let to := wrap64 (addr + size) in
  on_proc (on_vm (each_page (pages_between addr to) to (alloc_page kern) addr)) ;;;
  modify (fun s => MkIst s.(shm_list) s.(tot_shmid) to s.(kernPd) s.(proc)) ;;;
  ret addr.
Definition free_kmem (addr size : Z) : M ist unit :=
  let size := pgup size in
  let* kern := gets kernPd in
  let to := wrap64 (addr + size) in
  on_proc (on_vm (each_page (pages_between addr to) to (fun va => Mmap.panic_on (ptUnmap kern va)) addr)).
Definition with_list (l : list shm_t) (s : ist) : ist := MkIst l s.(tot_shmid) s.(cur_addr) s.(kernPd) s.(proc).

Definition shmget (key size shmflg : Z) : M ist Z :=
  if (shmflg =? 0) && negb (key =? IPC_PRIVATE) then
    let* l := gets shm_list in
    match List.find (fun x => x.(shm_key) =? key) l with
    | Some x => ret (sext32 x.(shmid))
    | None => ret (- ENOENT)
    end
  else if has shmflg IPC_CREAT then
    modify (fun s => MkIst s.(shm_list) (sext32 (s.(tot_shmid) + 1)) s.(cur_addr) s.(kernPd) s.(proc)) ;;;
    let* id := gets tot_shmid in
    let* addr := alloc_kmem size in
    modify (fun s => with_list (MkShm key (wrap64 id) size shmflg addr :: s.(shm_list)) s) ;;;
    ret (sext32 id)
  else ret (- EINVAL).

Definition find_shm (id : Z) : M ist (option shm_t) := gets (fun s => List.find (fun x => x.(shmid) =? wrap64 id) s.(shm_list)).
Definition SHM_PERM : Z := Z.lor (Z.lor (Z.lor PTE_R PTE_W) PTE_U) PTE_SHARED.
Definition attach_page (kern pt base shmaddr va : Z) : M mm unit :=
  let* e := ptLookup kern (wrap64 (base + va - shmaddr)) in
  Mmap.panic_on (ptMap pt va (pteToPa e) SHM_PERM).
(** The result is a pointer: an error is a negative number as a 64-bit word. *)
Definition shmat (id shmaddr shmflg : Z) : M ist Z :=
  let* o := find_shm id in
  match o with
  | None => ret (wrap64 (- EINVAL))
  | Some x =>
      let* next := gets (fun s => s.(proc).(p_mmap)) in
      (if shmaddr =? 0 then on_proc (set_mmap (wrap64 (next + x.(shm_size)))) else ret tt) ;;;
      let shmaddr := if shmaddr =? 0 then next else shmaddr in
      let* kern := gets kernPd in
      let* pt := gets (fun s => s.(proc).(p_pt)) in
      let to := wrap64 (shmaddr + x.(shm_size)) in
      on_proc (on_vm (each_page (pages_between shmaddr to) to (attach_page kern pt x.(kaddr) shmaddr) shmaddr)) ;;;
      ret shmaddr
  end.

(** The segment found is the first one with its id. *)
Fixpoint shm_remove (id : Z) (l : list shm_t) : list shm_t :=
  match l with [] => [] | y :: l' => if y.(shmid) =? id then l' else y :: shm_remove id l' end.
Definition shmctl (id cmd : Z) : M ist Z :=
  let* o := find_shm id in
  match o with
  | None => ret (- EINVAL)
  | Some x =>
      if cmd =? IPC_RMID then
        modify (fun s => with_list (shm_remove x.(shmid) s.(shm_list)) s) ;;;
        free_kmem x.(kaddr) x.(shm_size) ;;;
        ret 0
      else ret (- EINVAL)
  end.

(** ** A new segment *)

(** The kernel holds new pages, zero and of its own, in the range. *)
Record held (s s' : mm) (K P : Z) (here : Z -> bool) : Prop := {
  he_sp : spaces s' K P;
  he_new : forall va, 0 <= va < USER_TOP -> here va = true -> exists q, maps s'.(pmem) K va q /\ s'.(page_ref) q = 1 /\ forall va2, ~ maps s'.(pmem) P va2 q;
  he_old : forall va, 0 <= va < USER_TOP -> here va = false -> lookup_va s'.(pmem) K va = lookup_va s.(pmem) K va;
  he_lk2 : forall va, lookup_va s'.(pmem) P va = lookup_va s.(pmem) P va;
  he_u : forall va, ubyte s'.(pmem) K va = ubyte s.(pmem) K va;
  he_u2 : forall va, ubyte s'.(pmem) P va = ubyte s.(pmem) P va }.
Lemma alloc_page_run s K P va : spaces s K P -> (3 <= length s.(pageFreeList))%nat -> lookup_va s.(pmem) K va = 0 ->
  exists s', alloc_page K va s = Ok (tt, s') /\ resolved s s' K P va 6 /\ (length s.(pageFreeList) <= length s'.(pageFreeList) + 3)%nat.
Proof.
  intros Sp Hf H0. destruct (vmAlloc_fresh s K P Sp) as (p & s1 & E1 & F & Hz); [now destruct (pageFreeList s)|].
  destruct (fresh_mapped s s1 K P va 6 p Sp F Hf ltac:(lia)) as (s' & E2 & Rs).
  { intros o Ho. rewrite H0. change (pte_page 0) with (@None Z). unfold ldb. rewrite Hz by (unfold frame, MEMBASE; zlia). now rewrite Z.shiftr_0_l. }
  exists s'. split; [|split; [exact Rs|apply Rs]]. unfold alloc_page. rewrite (bind_run _ _ _ _ _ E1). unfold Mmap.panic_on. now rewrite (bind_run _ _ _ _ _ E2).
Qed.
Lemma held_step s s1 s2 K P from va : held s s1 K P (fun x => (from <=? x) && (x <? va)) -> resolved s1 s2 K P va 6 -> lookup_va s1.(pmem) K va = 0 ->
  from <= va -> va mod 4096 = 0 -> 0 <= va < USER_TOP -> held s s2 K P (fun x => (from <=? x) && (x <? va + 4096)).
Proof.
  intros [Sp1 N1 O1 L1 U1 V1] [Sp2 Hn (p & Hp & Hp0 & El) L L2 U U2 Hf R1 Rr] H0 Hfr Ha Hva. pose proof (mm_npage _ (ss_ok _ _ _ Sp1)) as Hnp.
  constructor; [exact Sp2| | |intros; rewrite L2; apply L1|intros; rewrite U; apply U1|intros; rewrite U2; apply V1].
  - intros x Hx Hh. destruct (same_page va x) eqn:E.
    + assert (Hm : maps s2.(pmem) K x p) by (unfold maps; rewrite (same_page_lookup _ _ _ _ E), El; apply mk_facts; lia).
      exists p. split; [exact Hm|]. split; [apply R1; unfold maps in *; now rewrite <- (same_page_lookup _ _ _ _ E)|].
      intros va2. unfold maps. rewrite L2. intros H2. apply Hp. now apply (sp_leaf _ _ _ (ss_other _ _ _ Sp1) va2 p).
    + pose proof E as E'. rewrite page_cases in E' by assumption. destruct (N1 x Hx) as (q & Hq & Hr & Hnq); [mem_cases; cbn in *; try reflexivity; try discriminate; lia|].
      exists q. split; [unfold maps; rewrite L by exact E; exact Hq|]. destruct (sp_leaf _ _ _ (ss_this _ _ _ Sp1) x q Hq) as (Hin & _). split.
      * rewrite Rr; [exact Hr|exact Hin|]. unfold maps. rewrite H0. discriminate.
      * intros va2. unfold maps. rewrite L2. apply Hnq.
  - intros x Hx Hh. rewrite L, O1; [reflexivity|exact Hx|..]; [|rewrite page_cases by assumption]; mem_cases; cbn in *; try reflexivity; try discriminate; lia.
Qed.
Lemma alloc_loop_run s K P from to : spaces s K P -> from mod 4096 = 0 -> to mod 4096 = 0 -> 0 <= from <= to -> to <= USER_TOP ->
  (3 * pages_between from to <= length s.(pageFreeList))%nat -> (forall va, from <= va < to -> lookup_va s.(pmem) K va = 0) ->
  exists s', each_page (pages_between from to) to (alloc_page K) from s = Ok (tt, s') /\ held s s' K P (fun va => (from <=? va) && (va <? to)) /\
    (length s.(pageFreeList) <= length s'.(pageFreeList) + 3 * pages_between from to)%nat.
Proof.
  intros Sp Hfr Hto Hr Ht Hf H0. assert (Hn : to - from = 4096 * Z.of_nat (pages_between from to)) by (apply pages_between_eq; lia). set (n := pages_between from to) in *.
  destruct (each_page_run (fun va s1 => from <= va <= to /\ held s s1 K P (fun x => (from <=? x) && (x <? va)) /\
      Z.of_nat (length s.(pageFreeList)) <= Z.of_nat (length s1.(pageFreeList)) + 3 * ((va - from) / 4096)) (alloc_page K) to Hto ltac:(unfold USER_TOP in *; lia)) with (n := n) (va := from) (s := s) as (s' & E & _ & A & Hl); auto.
  - intros va s1 Ha Hlt (Hva & A & Hl). assert (Hva0 : 0 <= va < USER_TOP) by lia.
    assert (E0 : lookup_va s1.(pmem) K va = 0) by (rewrite (he_old _ _ _ _ _ A va Hva0); [apply H0; lia|now rewrite Z.ltb_irrefl, andb_false_r]).
    destruct (alloc_page_run s1 K P va (he_sp _ _ _ _ _ A)) as (s2 & E2 & Rs & Hl2); [zlia|exact E0|]. exists s2. split; [exact E2|]. split; [zlia|]. split; [|zlia].
    apply (held_step s s1 s2); auto. lia.
  - split; [lia|]. split; [|zlia]. constructor; auto. intros va _ Hh. zbool; lia.
  - exists s'. split; [exact E|]. split; [exact A|]. zlia.
Qed.

(** ** Attaching *)

(** The pages behind [base] in the kernel are mapped at [A] in the process,
    up to [va]; those up to [stop] are still to come. *)
Record attaching (s s' : mm) (K P base A va stop : Z) : Prop := {
  at_sp : spaces s' P K;
  at_done : forall x, A <= x < va -> exists q, maps s'.(pmem) K (base + (x - A)) q /\ lookup_va s'.(pmem) P x = mk_pte (frame q) SHM_PERM;
  at_todo : forall x, va <= x < stop -> lookup_va s'.(pmem) P x = 0 /\ exists q, maps s'.(pmem) K (base + (x - A)) q /\ s'.(page_ref) q = 1 /\ forall va2, ~ maps s'.(pmem) P va2 q;
  at_old : forall x, 0 <= x < USER_TOP -> ~ (A <= x < va) -> lookup_va s'.(pmem) P x = lookup_va s.(pmem) P x /\ ubyte s'.(pmem) P x = ubyte s.(pmem) P x;
  at_lk2 : forall x, lookup_va s'.(pmem) K x = lookup_va s.(pmem) K x;
  at_u2 : forall x, ubyte s'.(pmem) K x = ubyte s.(pmem) K x;
  at_free : (2 * pages_between va stop <= length s'.(pageFreeList))%nat }.
Lemma shm_perm_range : 0 <= SHM_PERM < 1024.
Proof. vm_compute. split; congruence. Qed.
Section Attach.
Context (s : mm) (K P base A stop : Z).
Context (Hb : base mod 4096 = 0) (HA : A mod 4096 = 0) (Hst : stop mod 4096 = 0).
Context (HA0 : 0 <= A) (Hmax : stop <= USER_TOP) (Hb0 : 0 <= base) (Hbmax : base + (stop - A) <= USER_TOP).
Lemma attach_step va s1 : va mod 4096 = 0 -> A <= va -> va < stop -> attaching s s1 K P base A va stop ->
  exists s2, attach_page K P base A va s1 = Ok (tt, s2) /\ attaching s s2 K P base A (va + 4096) stop.
Proof using All.
  intros Ha Hva Hlt [Sp1 D1 T1 O1 L1 U1 F1]. destruct (T1 va ltac:(lia)) as (H0 & q & Hq & Hr & Hnq). unfold USER_TOP in Hmax, Hbmax. assert (Hnext : va + 4096 <= stop) by zlia.
  destruct (sp_leaf _ _ _ (ss_other _ _ _ Sp1) _ q Hq) as (Hin & _ & Ht2 & Ht). pose proof (mm_npage _ (ss_ok _ _ _ Sp1)) as Hnp.
  assert (Hq0 : 0 < q < 4294967296) by (destruct Hin; lia). destruct (maps_page _ _ _ _ Hq) as [_ Hpa]; [lia|lia|].
  assert (Hpn : pages_between va stop = S (pages_between (va + 4096) stop)) by (unfold pages_between; rewrite <- Z2Nat.inj_succ by (apply Z.div_pos; lia); f_equal; zlia).
  destruct (ptMap_spaces s1 P K va q SHM_PERM Sp1) as (s2 & E & Mi); auto using shm_perm_range; try lia; try (intros; exfalso; eapply Hnq; eassumption).
  exists s2. split.
  { unfold attach_page. rewrite wrap64_small by lia. replace (base + va - A) with (base + (va - A)) by lia. rewrite (bind_run _ _ _ _ _ (lookup_run s1 K P _ (spaces_sym _ _ _ Sp1))), Hpa.
    unfold Mmap.panic_on. now rewrite (bind_run _ _ _ _ _ E). }
  pose proof (mi_lk _ _ _ _ _ _ _ Mi) as L. pose proof (same_tables_lookup _ _ _ (mi_t2 _ _ _ _ _ _ _ Mi)) as L2.
  assert (Hpg : pte_page (mk_pte (frame q) SHM_PERM) = Some q) by (apply mk_facts; [lia|apply shm_perm_range]).
  assert (Hold : forall q', ~ maps s1.(pmem) P va q') by (intros q'; unfold maps; rewrite H0; discriminate).
  assert (Hu : forall x q', maps s1.(pmem) P x q' -> same_frame s1.(pmem) s2.(pmem) q').
  { intros x q' Hq' y Hy. destruct (sp_leaf _ _ _ (ss_this _ _ _ Sp1) x q' Hq') as (? & _ & ? & _). apply (mi_keep _ _ _ _ _ _ _ Mi q'); auto. }
  constructor.
  - apply Mi.
  - intros x Hx. destruct (same_page va x) eqn:Es.
    + exists q. pose proof Es as Es'. rewrite page_cases in Es' by (unfold USER_TOP; lia). zbool. split; [|now rewrite L, Es]. unfold maps. rewrite L2, (same_page_lookup _ _ (base + (va - A))); [exact Hq|].
      rewrite page_cases by (unfold USER_TOP; zlia). apply andb_true_iff. split; zcases.
    + pose proof Es as Es'. rewrite page_cases in Es' by (unfold USER_TOP; lia). destruct (D1 x) as (q' & H1 & H2); [mem_cases; cbn in *; try discriminate; lia|].
      exists q'. unfold maps. now rewrite L2, L, Es.
  - intros x Hx. assert (Es : same_page va x = false) by (rewrite page_cases by (unfold USER_TOP; lia); mem_cases; try reflexivity; lia).
    destruct (T1 x ltac:(lia)) as (H0' & q' & Hq' & Hr' & Hnq'). rewrite L, Es. split; [exact H0'|]. exists q'. split; [unfold maps; now rewrite L2|].
    assert (Hne : q' <> q).
    { intros ->. pose proof (sp_once _ _ _ (ss_other _ _ _ Sp1) _ _ q Hq Hq') as Eo. rewrite page_cases in Eo by (unfold USER_TOP; zlia). zbool. lia. }
    destruct (sp_leaf _ _ _ (ss_other _ _ _ Sp1) _ q' Hq') as (Hin' & _). split.
    + rewrite (mi_ref _ _ _ _ _ _ _ Mi q' Hin'), H0, !ref_delta_ne; [lia|congruence|discriminate].
    + intros va2. unfold maps. rewrite L. destruct (same_page va va2); [rewrite Hpg; congruence|apply Hnq'].
  - intros x Hx Hno. assert (Es : same_page va x = false) by (rewrite page_cases by (unfold USER_TOP in *; lia); mem_cases; try reflexivity; lia).
    destruct (O1 x Hx ltac:(lia)) as [O2 O3]. rewrite L, Es. split; [exact O2|]. rewrite <- O3. apply ubyte_same; [now rewrite L, Es|]. intros q'. apply Hu.
  - intros x. rewrite L2. apply L1.
  - intros x. rewrite <- U1. apply ubyte_same; [apply L2|]. intros q' Hq' y Hy. destruct (sp_leaf _ _ _ (ss_other _ _ _ Sp1) x q' Hq') as (? & _ & _ & ?). apply (mi_keep _ _ _ _ _ _ _ Mi q'); auto.
  - pose proof (mi_free _ _ _ _ _ _ _ Mi). lia.
Qed.
Lemma attach_loop_run : A <= stop -> attaching s s K P base A A stop ->
  exists s', each_page (pages_between A stop) stop (attach_page K P base A) A s = Ok (tt, s') /\ attaching s s' K P base A stop stop.
Proof using All.
  intros Hle At. destruct (each_page_run (fun va s1 => A <= va /\ attaching s s1 K P base A va stop) (attach_page K P base A) stop Hst ltac:(unfold USER_TOP in *; lia))
    with (n := pages_between A stop) (va := A) (s := s) as (s' & E & _ & At'); auto; try lia.
  - intros va s1 Ha Hlt (Hva & At1). destruct (attach_step va s1 Ha Hva Hlt At1) as (s2 & E2 & At2). exists s2. split; [exact E2|]. split; [lia|exact At2].
  - apply pages_between_eq; lia.
  - split; [lia|exact At].
  - now exists s'.
Qed.
End Attach.

(** ** A segment from creation to attachment *)

Lemma on_proc_run {A : Type} (c : M mm A) s a v : c s.(proc).(vm) = Ok (a, v) ->
  on_proc (on_vm c) s = Ok (a, MkIst s.(shm_list) s.(tot_shmid) s.(cur_addr) s.(kernPd) (with_vm v s.(proc))).
Proof. intros E. unfold on_proc. now rewrite (on_vm_run _ _ _ _ E). Qed.
(** The segment [shmget] makes, and the state it leaves. *)
Definition new_shm (s : ist) (key size flg : Z) : shm_t := MkShm key (s.(tot_shmid) + 1) size flg s.(cur_addr).
Definition with_shm (s : ist) (x : shm_t) (v : mm) : ist :=
  MkIst (x :: s.(shm_list)) (s.(tot_shmid) + 1) (s.(cur_addr) + round_up x.(shm_size)) s.(kernPd) (with_vm v s.(proc)).

Section Segment.
Context (s : ist) (key size flg : Z).
Context (Sp : spaces s.(proc).(vm) s.(kernPd) s.(proc).(p_pt)).
Context (Hid : 0 <= s.(tot_shmid) < 2147483647) (Hflg : has flg IPC_CREAT = true) (Hsz : 0 < size).
Context (Hca : s.(cur_addr) mod 4096 = 0) (Hc0 : 0 <= s.(cur_addr)) (Hcm : s.(cur_addr) + round_up size <= USER_TOP).
Context (Hke : forall va, s.(cur_addr) <= va < s.(cur_addr) + round_up size -> lookup_va s.(proc).(vm).(pmem) s.(kernPd) va = 0).
Lemma shmget_run : 3 * (round_up size / 4096) <= Z.of_nat (length s.(proc).(vm).(pageFreeList)) ->
  exists v, shmget key size flg s = Ok (s.(tot_shmid) + 1, with_shm s (new_shm s key size flg) v) /\
    held s.(proc).(vm) v s.(kernPd) s.(proc).(p_pt) (fun va => (s.(cur_addr) <=? va) && (va <? s.(cur_addr) + round_up size)) /\
    Z.of_nat (length s.(proc).(vm).(pageFreeList)) <= Z.of_nat (length v.(pageFreeList)) + 3 * (round_up size / 4096).
Proof using All.
  intros Hf. unfold USER_TOP in Hcm. assert (Hr : 0 < round_up size /\ round_up size mod 4096 = 0 /\ size <= round_up size) by (unfold round_up; zlia).
  assert (Eu : pgup size = round_up size) by (apply pgup_eq; lia).
  assert (Hn : s.(cur_addr) + round_up size - s.(cur_addr) = 4096 * Z.of_nat (pages_between s.(cur_addr) (s.(cur_addr) + round_up size))) by (apply pages_between_eq; zlia).
  destruct (alloc_loop_run s.(proc).(vm) s.(kernPd) s.(proc).(p_pt) s.(cur_addr) (s.(cur_addr) + round_up size) Sp Hca) as (v & E & A & Hl); auto; try (unfold USER_TOP; lia); [zlia|zlia|].
  exists v. split; [|split; [exact A|zlia]]. unfold shmget. rewrite (proj2 (Z.eqb_neq flg 0)) by (intros ->; discriminate). cbn [andb]. rewrite Hflg.
  assert (Ei : sext32 (s.(tot_shmid) + 1) = s.(tot_shmid) + 1) by (unfold sext32; rewrite Z.mod_small; lia).
  assert (Ew : wrap64 (s.(tot_shmid) + 1) = s.(tot_shmid) + 1) by (apply wrap64_small; lia).
  set (s1 := MkIst s.(shm_list) (s.(tot_shmid) + 1) s.(cur_addr) s.(kernPd) s.(proc)).
  rewrite (bind_run (modify _) _ s tt s1) by (unfold modify, s1; now rewrite Ei).
  rewrite (bind_run (gets tot_shmid) _ s1 (s.(tot_shmid) + 1) s1) by reflexivity. rewrite Ew, Ei.
  rewrite (bind_run (alloc_kmem size) _ s1 s.(cur_addr) (MkIst s.(shm_list) (s.(tot_shmid) + 1) (s.(cur_addr) + round_up size) s.(kernPd) (with_vm v s.(proc)))); [reflexivity|].
  unfold alloc_kmem. rewrite Eu. rewrite (bind_run (gets cur_addr) _ s1 s.(cur_addr) s1) by reflexivity. rewrite (bind_run (gets kernPd) _ s1 s.(kernPd) s1) by reflexivity.
  cbv zeta. rewrite wrap64_small by lia. now rewrite (bind_run _ _ _ _ _ (on_proc_run _ s1 tt v E)).
Qed.
End Segment.
Lemma shm_bits q : 0 < q < 4294967296 -> pte_page (mk_pte (frame q) SHM_PERM) = Some q /\ has (mk_pte (frame q) SHM_PERM) PTE_W = true /\
  has (mk_pte (frame q) SHM_PERM) PTE_R = true /\ has (mk_pte (frame q) SHM_PERM) PTE_U = true /\ has (mk_pte (frame q) SHM_PERM) PTE_SHARED = true.
Proof.
  intros Hq. split; [apply mk_facts; [exact Hq|apply shm_perm_range]|]. change PTE_W with (2 ^ 2). change PTE_R with (2 ^ 1). change PTE_U with (2 ^ 4). change PTE_SHARED with (2 ^ 9).
  rewrite !has_mk by (exact Hq || apply shm_perm_range || lia). repeat split; reflexivity.
Qed.
(** The first segment in the list is attached at the next address. *)
Lemma shmat_run s x l v : s.(shm_list) = x :: l -> 0 <= x.(shmid) < 2147483648 -> 0 < x.(shm_size) -> s.(proc).(p_mmap) mod 4096 = 0 -> 0 < s.(proc).(p_mmap) ->
  s.(proc).(p_mmap) + round_up x.(shm_size) <= USER_TOP ->
  (let A := s.(proc).(p_mmap) in let stop := A + round_up x.(shm_size) in
   each_page (pages_between A stop) stop (attach_page s.(kernPd) s.(proc).(p_pt) x.(kaddr) A) A s.(proc).(vm) = Ok (tt, v)) ->
  shmat x.(shmid) 0 0 s = Ok (s.(proc).(p_mmap), MkIst s.(shm_list) s.(tot_shmid) s.(cur_addr) s.(kernPd)
    (MkPvm v s.(proc).(p_pt) s.(proc).(p_brk) (s.(proc).(p_mmap) + x.(shm_size)) s.(proc).(p_depth))).
Proof.
  intros El Hid Hsz Ha H0 Hmax E. cbv zeta in E. unfold USER_TOP in Hmax. assert (Hr : round_up x.(shm_size) mod 4096 = 0 /\ x.(shm_size) <= round_up x.(shm_size) < x.(shm_size) + 4096) by (unfold round_up; zlia).
  unfold shmat. rewrite (bind_run (find_shm x.(shmid)) _ s (Some x) s) by (unfold find_shm, gets; rewrite El; cbn [List.find]; now rewrite wrap64_small, Z.eqb_refl by lia).
  rewrite (bind_run (gets _) _ s s.(proc).(p_mmap) s) by reflexivity. rewrite Z.eqb_refl, !(wrap64_small (_ + _)) by lia.
  set (s1 := MkIst s.(shm_list) s.(tot_shmid) s.(cur_addr) s.(kernPd) (MkPvm s.(proc).(vm) s.(proc).(p_pt) s.(proc).(p_brk) (s.(proc).(p_mmap) + x.(shm_size)) s.(proc).(p_depth))).
  rewrite (bind_run (on_proc (set_mmap _)) _ s tt s1) by reflexivity. rewrite (bind_run (gets kernPd) _ s1 s.(kernPd) s1) by reflexivity.
  rewrite (bind_run (gets (fun s => s.(proc).(p_pt))) _ s1 s.(proc).(p_pt) s1) by reflexivity. cbv zeta.
  assert (E' : each_page (pages_between s.(proc).(p_mmap) (s.(proc).(p_mmap) + x.(shm_size))) (s.(proc).(p_mmap) + x.(shm_size)) (attach_page s.(kernPd) s.(proc).(p_pt) x.(kaddr) s.(proc).(p_mmap)) s.(proc).(p_mmap) s.(proc).(vm) = Ok (tt, v)).
  { rewrite (pages_between_round _ _ (s.(proc).(p_mmap) + round_up x.(shm_size))), (each_page_round _ _ (s.(proc).(p_mmap) + round_up x.(shm_size))) by (lia || zlia). exact E. }
  now rewrite (bind_run _ _ _ _ _ (on_proc_run _ s1 tt v E')).
Qed.


(** Removing a segment takes it off the list and out of the kernel, and a
    process that has it attached keeps its memory. *)
Theorem shmctl_removes (s : ist) (x : shm_t) (l : list shm_t) :
  spaces s.(proc).(vm) s.(kernPd) s.(proc).(p_pt) -> s.(shm_list) = x :: l -> 0 <= x.(shmid) < 2147483648 -> 0 < x.(shm_size) ->
  x.(kaddr) mod 4096 = 0 -> 0 <= x.(kaddr) -> x.(kaddr) + round_up x.(shm_size) <= USER_TOP ->
  (forall va, x.(kaddr) <= va < x.(kaddr) + round_up x.(shm_size) -> lookup_va s.(proc).(vm).(pmem) s.(kernPd) va <> 0) ->
  exists v, shmctl x.(shmid) IPC_RMID s = Ok (0, MkIst l s.(tot_shmid) s.(cur_addr) s.(kernPd) (with_vm v s.(proc))) /\
    spaces v s.(kernPd) s.(proc).(p_pt) /\ (forall va, ubyte v.(pmem) s.(proc).(p_pt) va = ubyte s.(proc).(vm).(pmem) s.(proc).(p_pt) va) /\
    (forall va, x.(kaddr) <= va < x.(kaddr) + round_up x.(shm_size) -> lookup_va v.(pmem) s.(kernPd) va = 0).
Proof.
  intros Sp El Hid Hsz Ha H0 Hmax Hne. unfold USER_TOP in Hmax. assert (Hr : 0 < round_up x.(shm_size) /\ round_up x.(shm_size) mod 4096 = 0 /\ x.(shm_size) <= round_up x.(shm_size)) by (unfold round_up; zlia).
  assert (Eu : pgup x.(shm_size) = round_up x.(shm_size)) by (apply pgup_eq; lia).
  destruct (unmap_loop_run s.(proc).(vm) s.(kernPd) s.(proc).(p_pt) x.(kaddr) (x.(kaddr) + round_up x.(shm_size)) Sp Ha) as (v & E & U); auto; try (unfold USER_TOP; lia); [zlia|].
  exists v. split; [|split; [apply U|split; [apply U|]]].
  - unfold shmctl. rewrite (bind_run (find_shm x.(shmid)) _ s (Some x) s) by (unfold find_shm, gets; rewrite El; cbn [List.find]; now rewrite wrap64_small, Z.eqb_refl by lia).
    change (IPC_RMID =? IPC_RMID) with true. cbv iota. rewrite (bind_run (modify _) _ s tt (with_list l s)) by (unfold modify; rewrite El; cbn [shm_remove]; now rewrite Z.eqb_refl).
    rewrite (bind_run (free_kmem _ _) _ (with_list l s) tt (MkIst l s.(tot_shmid) s.(cur_addr) s.(kernPd) (with_vm v s.(proc)))); [reflexivity|].
    unfold free_kmem. rewrite (bind_run (gets kernPd) _ (with_list l s) s.(kernPd) (with_list l s)) by reflexivity. cbv zeta. rewrite Eu, wrap64_small by lia. exact (on_proc_run _ (with_list l s) tt v E).
  - intros va Hva. rewrite (un_lk _ _ _ _ _ U) by (unfold USER_TOP; lia). rewrite (proj2 (andb_true_iff _ _)) by (split; zcases). reflexivity.
Qed.

(** ** Defects *)

Definition shm_start : ist := MkIst [] 0 KERNEL_SHM dirB (MkPvm twin_vm dirA 0 MMAP_START 0).
Definition shm_one : ist := after (shmget 0 100 512) shm_start.
Definition shm_two : ist := after (shmget 0 100 512) shm_one.
Definition shm_att : ist := after (shmat 1 0 0) shm_two.
Definition shm_att2 : ist := after (shmat 2 0 0) shm_att.
(** The next address moves on by the size of the segment and not by its pages:
    a second segment replaces the last page of the first. *)
Theorem shm_attach_overlaps : shmget 0 100 512 shm_start = Ok (1, shm_one) /\ shmget 0 100 512 shm_one = Ok (2, shm_two) /\
  shmat 1 0 0 shm_two = Ok (MMAP_START, shm_att) /\ shmat 2 0 0 shm_att = Ok (MMAP_START + 100, shm_att2) /\
  pte_page (lookup_va shm_att.(proc).(vm).(pmem) dirA MMAP_START) = pte_page (lookup_va shm_att.(proc).(vm).(pmem) dirB KERNEL_SHM) /\
  pte_page (lookup_va shm_att2.(proc).(vm).(pmem) dirA MMAP_START) <> pte_page (lookup_va shm_att2.(proc).(vm).(pmem) dirB KERNEL_SHM).
Proof.
  split; [runs (shmget 0 100 512) shm_start 1|]. split; [runs (shmget 0 100 512) shm_one 2|]. split; [runs (shmat 1 0 0) shm_two MMAP_START|].
  split; [runs (shmat 2 0 0) shm_att (MMAP_START + 100)|]. split; [evals|]. vm_compute. congruence.
Qed.
(** [IPC_CREAT] with a key that has a segment makes another one. *)
Theorem shmget_duplicates : value (let* a := shmget 5 4096 512 in let* b := shmget 5 4096 512 in let* c := shmget 5 0 0 in ret (a, b, c)) shm_start = Some (1, 2, 2).
Proof. evals. Qed.

(** ** Witnesses *)

Lemma twin_empty_B va : lookup_va twin_vm.(pmem) dirB va = 0.
Proof. reflexivity. Qed.
