(* ===== verification/Elf.v ===== *)
(** * Loading programs

    [src/lib/elfloader.c] and [src/kern/proc/elf.c]: the segments of an ELF
    image that lies in kernel memory are copied to fresh pages and mapped at
    the addresses the image asks for.  The state is that of [UserMem]: the
    machine's memory and the kernel's view of its own. *)

From S2P Require Import Prelude StringLib Pmm Vmm Bytes UserMem Mmap.
From Stdlib Require Import ZArith Lia Bool.
From stdpp Require Import base tactics numbers list.
Open Scope Z_scope.

(** ** The image *)

Definition ELF_MAGIC : Z := 1179403647.
Definition ELF_PROG_LOAD : Z := 1.
Definition ELF_PROG_FLAG_EXEC : Z := 1.
Definition ELF_PROG_FLAG_WRITE : Z := 2.
Definition E_BAD_ELF : Z := 3.
Definition u16 (m : mem) (a : Z) : Z := le_val (mem_read m a 2).
Definition u32 (m : mem) (a : Z) : Z := le_val (mem_read m a 4).
Record ElfHeader : Type := MkElf { e_entry : Z; e_phoff : Z; e_phentsize : Z; e_phnum : Z }.
Definition elf_header (m : mem) (a : Z) : ElfHeader := MkElf (mem_u64 m (a + 24)) (mem_u64 m (a + 32)) (u16 m (a + 54)) (u16 m (a + 56)).
Record ProgramHeader : Type := MkPh { p_type : Z; p_flags : Z; p_off : Z; p_vaddr : Z; p_filesz : Z; p_memsz : Z }.
Definition program_header (m : mem) (a : Z) : ProgramHeader :=
  MkPh (u32 m a) (u32 m (a + 4)) (mem_u64 m (a + 8)) (mem_u64 m (a + 16)) (mem_u64 m (a + 32)) (mem_u64 m (a + 40)).
Definition getElfFrom (m : mem) (binary size : Z) : option ElfHeader :=
  if (64 <=? size) && (u32 m binary =? ELF_MAGIC) then Some (elf_header m binary) else None.

(** ** Pages *)

(** [memcpy((void * )dst, src, len)] to physical memory. *)
Definition memcpy_to (dst src len : Z) : M ust unit := fun s =>
  if in_ram s.(umm) dst len then
    Ok (tt, MkUst (set_pmem (fill_bytes (Z.to_nat len) s.(umm).(pmem) dst (fun i => s.(kmem) (src + i)) 0) s.(umm)) s.(kmem))
  else Err BadPtr.
Definition loadDataMapper (pt va offset perm src len : Z) : M ust Z :=
  let* pa := on_mm vmAlloc in
  (if src =? 0 then ret tt else memcpy_to (pa + offset) src len) ;;;
  on_mm (ptMap pt va pa perm).

(** The callback gets address, offset, permissions, source and length. *)
Definition ElfMapper : Type := Z -> Z -> Z -> Z -> Z -> M ust Z.
(** The two loops over whole pages: result and length reached. *)
Fixpoint load_pages (fuel : nat) (mapPage : ElfMapper) (va perm stop : Z) (src : Z -> Z) (i : Z) : M ust (Z * Z) :=
  if i <? stop then
    match fuel with
    | O => fail NoFuel
    | S fuel' =>
        let* r := mapPage (wrap64 (va + i)) 0 perm (src i) (Z.min (stop - i) PAGE_SIZE) in
        if negb (r =? 0) then ret (r, i) else load_pages fuel' mapPage va perm stop src (wrap64 (i + PAGE_SIZE))
    end
  else ret (0, i).
Definition segment_perm (ph : ProgramHeader) : Z :=
  let perm := Z.lor (Z.lor PTE_V PTE_R) PTE_U in
  let perm := if has ph.(p_flags) ELF_PROG_FLAG_WRITE then Z.lor perm PTE_W else perm in
  if has ph.(p_flags) ELF_PROG_FLAG_EXEC then Z.lor perm PTE_X else perm.
Definition page_fuel (n : Z) : nat := Z.to_nat (n / 4096 + 1).
Definition loadElfSegment (ph : ProgramHeader) (binary : Z) (mapPage : ElfMapper) : M ust Z :=
  let va := ph.(p_vaddr) in
  let perm := segment_perm ph in
  let offset := va - PGROUNDDOWN va in
  let first := Z.min ph.(p_filesz) (PAGE_SIZE - offset) in
  let* r := (if negb (offset =? 0) then mapPage va offset perm binary first else ret 0) in
  if negb (r =? 0) then ret r
  else
    let* loaded := load_pages (page_fuel ph.(p_filesz)) mapPage va perm ph.(p_filesz) (fun i => wrap64 (binary + i)) (if offset =? 0 then 0 else first) in
    let '(r, i) := loaded in
    if negb (r =? 0) then ret r
    else
      let* cleared := load_pages (page_fuel ph.(p_memsz)) mapPage va perm ph.(p_memsz) (fun _ => 0) i in
      ret (fst cleared).

(** ** The image as a whole *)

Fixpoint load_headers (n : nat) (pt binary phentsize phOff maxva : Z) : M ust Z :=
  match n with
  | O => ret maxva
  | S n' =>
      let* ph := gets (fun s => program_header s.(kmem) (wrap64 (binary + phOff))) in
      let next := wrap64 (phOff + phentsize) in
      if ph.(p_type) =? ELF_PROG_LOAD then
        let* r := loadElfSegment ph (wrap64 (binary + ph.(p_off))) (loadDataMapper pt) in
        massert (r =? 0) ;;;
        load_headers n' pt binary phentsize next (Z.max maxva (wrap64 (ph.(p_vaddr) + ph.(p_memsz) - 1)))
      else load_headers n' pt binary phentsize next maxva
  end.
(** The result is the error code, the program break and the entry point. *)
Definition loadCode (pt binary size : Z) : M ust (Z * Z * Z) :=
  let* h := gets (fun s => getElfFrom s.(kmem) binary size) in
  match h with
  | None => ret (- E_BAD_ELF, 0, 0)
  | Some h =>
      let* maxva := load_headers (Z.to_nat h.(e_phnum)) pt binary h.(e_phentsize) h.(e_phoff) 0 in
      ret (0, pgup maxva, h.(e_entry))
  end.

(** ** What a page of the image leaves *)

(** The bytes of a fresh page that gets [len] bytes of [src] at [offset]. *)
Definition page_bytes (km : mem) (offset src len o : Z) : Z :=
  if negb (src =? 0) && (offset <=? o) && (o <? offset + len) then km (src + (o - offset)) else 0.
Lemma zero_ldb m q o : (forall x, frame q <= x < frame q + 4096 -> m x = 0) -> 0 <= o < 4096 -> ldb m (frame q + o) = 0.
Proof. intros Hz Ho. unfold ldb. rewrite Hz by (unfold frame, MEMBASE; zlia). now rewrite Z.shiftr_0_l. Qed.
Lemma mapper_run s km R R2 va offset perm src len : spaces s R R2 -> (3 <= length s.(pageFreeList))%nat -> 0 <= perm < 1024 ->
  0 <= offset -> 0 <= len -> offset + len <= 4096 -> (forall x, 0 <= km x < 256) ->
  exists s', loadDataMapper R va offset perm src len (MkUst s km) = Ok (0, MkUst s' km) /\ placed s s' R R2 va perm (page_bytes km offset src len).
Proof.
  intros Sp Hf Hperm Ho Hl Hol Hkm. destruct (vmAlloc_fresh s R R2 Sp) as (p & s1 & E1 & F & Hz); [now destruct (pageFreeList s)|].
  unfold loadDataMapper. rewrite (bind_run _ _ _ _ _ (on_mm_run _ s km _ _ E1)). pose proof (zero_ldb s1.(pmem) p) as Hz0. destruct (Z.eqb_spec src 0) as [-> |Hs].
  - destruct (fresh_placed s s1 R R2 va perm p (page_bytes km offset 0 len) Sp F Hf Hperm) as (s' & E2 & P); [intros o Hoo; unfold page_bytes; cbn [negb andb Z.eqb]; now apply Hz0|].
    exists s'. rewrite (bind_run (ret tt) _ _ tt (MkUst s1 km) eq_refl). split; [exact (on_mm_run _ s1 km _ _ E2)|exact P].
  - pose proof (mm_npage _ (ss_ok _ _ _ (wf_sp _ _ _ _ _ F))) as Hnp. pose proof (wf_use _ _ _ _ _ F) as Hu.
    set (m2 := fill_bytes (Z.to_nat len) s1.(pmem) (frame p + offset) (fun i => km (src + i)) 0).
    assert (Em : memcpy_to (frame p + offset) src len (MkUst s1 km) = Ok (tt, MkUst (set_pmem m2 s1) km)).
    { unfold memcpy_to. cbn [umm kmem]. rewrite (frame_in_ram s1 p offset len) by (exact Hu || lia). reflexivity. }
    rewrite (bind_run _ _ _ _ _ Em). destruct (fresh_placed s (set_pmem m2 s1) R R2 va perm p (page_bytes km offset src len) Sp) as (s' & E2 & P); auto.
    + apply with_fresh_write; auto. intros w Hw. apply (fill_bytes_word _ s1.(pmem) (frame p + offset) _ 0 (frame p) (frame p + 4096)); [unfold frame, MEMBASE; zlia|lia|lia|exact Hw].
    + intros o Hoo. cbn [set_pmem pmem]. unfold m2. rewrite fill_bytes_ldb by auto. unfold page_bytes. rewrite (proj2 (Z.eqb_neq src 0) Hs). cbn [negb andb].
      replace (frame p + offset + 0 <=? frame p + o) with (offset <=? o) by (mem_cases; try reflexivity; lia). replace (frame p + o <? frame p + offset + 0 + Z.of_nat (Z.to_nat len)) with (o <? offset + len) by (mem_cases; try reflexivity; lia).
      destruct ((offset <=? o) && (o <? offset + len)); [f_equal; lia|now apply Hz0].
    + exists s'. split; [exact (on_mm_run _ _ km _ _ E2)|exact P].
Qed.

(** ** A range of pages that has been loaded *)

(** The pages of [lo, hi) are fresh, have the permissions [perm] and hold the
    bytes [f]; nothing else has changed. *)
Record loaded (s v : mm) (R R2 perm lo hi : Z) (f : Z -> Z) : Prop := {
  ld_sp : spaces v R R2;
  ld_in : forall x, 0 <= x < USER_TOP -> lo <= x < hi -> exists q, lookup_va v.(pmem) R x = mk_pte (frame q) perm /\ 0 < q < 4294967296;
  ld_out : forall x, 0 <= x < USER_TOP -> ~ (lo <= x < hi) -> lookup_va v.(pmem) R x = lookup_va s.(pmem) R x;
  ld_u : forall x, 0 <= x < USER_TOP -> ubyte v.(pmem) R x = if (lo <=? x) && (x <? hi) then f x else ubyte s.(pmem) R x;
  ld_lk2 : forall x, lookup_va v.(pmem) R2 x = lookup_va s.(pmem) R2 x;
  ld_u2 : forall x, ubyte v.(pmem) R2 x = ubyte s.(pmem) R2 x;
  ld_free : Z.of_nat (length s.(pageFreeList)) <= Z.of_nat (length v.(pageFreeList)) + 3 * ((hi - lo) / 4096) }.
Lemma loaded_none s R R2 perm lo f : spaces s R R2 -> loaded s s R R2 perm lo lo f.
Proof. intros Sp. constructor; auto; try (intros; lia); [|zlia]. intros x _. destruct ((lo <=? x) && (x <? lo)) eqn:E; [zbool; lia|reflexivity]. Qed.
(** One more page, at [hi] or at an address inside that page. *)
Lemma loaded_page s v v' R R2 perm lo hi va f g : loaded s v R R2 perm lo hi f -> placed v v' R R2 va perm g -> hi mod 4096 = 0 -> hi <= va < hi + 4096 -> lo <= hi -> 0 <= lo -> hi + 4096 <= USER_TOP ->
  lo mod 4096 = 0 -> 0 <= perm < 1024 -> (forall x, hi <= x < hi + 4096 -> f x = g (x mod 4096)) -> loaded s v' R R2 perm lo (hi + 4096) f.
Proof.
  intros [Sp I O U L2 U2 F] [Sp' Hn (p & Hp & Hp0 & El) Lk Lk2 V V2 Hf _ _] Hh Hva Hlo H0 Hmax Hla Hperm Hfg. pose proof (mm_npage _ (ss_ok _ _ _ Sp)) as Hnp.
  assert (Hs : forall x, 0 <= x < USER_TOP -> same_page va x = (hi <=? x) && (x <? hi + 4096)).
  { intros x Hx. rewrite same_page_div by (unfold USER_TOP in *; lia). mem_cases; (apply Z.eqb_eq || apply Z.eqb_neq); zlia. }
  constructor; [exact Sp'| | | |congruence|congruence|zlia].
  - intros x Hx Hr. destruct (same_page va x) eqn:E.
    + exists p. rewrite (same_page_lookup _ _ _ _ E). split; [exact El|lia].
    + rewrite Lk by exact E. apply I; [exact Hx|]. rewrite Hs in E by exact Hx. mem_cases; cbn in E; try discriminate; lia.
  - intros x Hx Hr. rewrite Lk; [apply O; [exact Hx|lia]|]. rewrite Hs by exact Hx. mem_cases; try reflexivity; lia.
  - intros x Hx. rewrite V, Hs, U by exact Hx. destruct ((hi <=? x) && (x <? hi + 4096)) eqn:E.
    + zbool. rewrite (proj2 (andb_true_iff _ _)) by (split; zcases). symmetry. apply Hfg. lia.
    + mem_cases; cbn in E; try discriminate; try reflexivity; lia.
Qed.

Section Pages.
Context (s : mm) (km : mem) (R R2 va perm lo from stop : Z) (src f : Z -> Z).
Context (Hkm : forall x, 0 <= km x < 256) (Hperm : 0 <= perm < 1024) (Hlo : lo mod 4096 = 0) (H0 : 0 <= lo <= va) (Hmax : va + stop <= USER_TOP) (Hst : 0 <= stop).
Context (Hf : forall i o, 0 <= i < stop -> from <= i -> (va + i) mod 4096 = 0 -> 0 <= o < 4096 -> f (va + i + o) = page_bytes km 0 (src i) (Z.min (stop - i) 4096) o).
Definition end_of (i : Z) : Z := if i <? stop then round_up (va + stop) else va + i.
(** Pages of the loop, from a page boundary on. *)
Lemma load_pages_run n : forall i v, (va + i) mod 4096 = 0 -> 0 <= i -> from <= i -> lo <= va + i -> va + i <= USER_TOP -> stop - i <= 4096 * Z.of_nat n -> loaded s v R R2 perm lo (va + i) f ->
  3 * ((end_of i - lo) / 4096) <= Z.of_nat (length s.(pageFreeList)) ->
  exists v', load_pages n (loadDataMapper R) va perm stop src i (MkUst v km) = Ok ((0, end_of i - va), MkUst v' km) /\ loaded s v' R R2 perm lo (end_of i) f.
Proof using All.
  induction n as [|n IH]; intros i v Ha Hi Hfi Hli Hu Hn Ld Hfree; cbn [load_pages]; unfold end_of in *; destruct (Z.ltb_spec i stop) as [Hlt|Hge]; try lia.
  - exists v. replace (va + i - va) with i by lia. split; [reflexivity|exact Ld].
  - unfold USER_TOP in Hmax, Hu. assert (Hr : va + i + 4096 <= round_up (va + stop) <= 549755813888) by (unfold round_up; zlia).
    rewrite (wrap64_small (va + i)), (wrap64_small (i + PAGE_SIZE)) by (unfold PAGE_SIZE; lia). pose proof (ld_free _ _ _ _ _ _ _ _ Ld) as Hfr.
    destruct (mapper_run v km R R2 (va + i) 0 perm (src i) (Z.min (stop - i) PAGE_SIZE) (ld_sp _ _ _ _ _ _ _ _ Ld)) as (v1 & E1 & P1); auto; try (unfold PAGE_SIZE; lia); [zlia|].
    rewrite (bind_run _ _ _ _ _ E1). cbn [Z.eqb negb].
    assert (Ld1 : loaded s v1 R R2 perm lo (va + (i + 4096)) f).
    { replace (va + (i + 4096)) with (va + i + 4096) by lia. apply (loaded_page s v v1 R R2 perm lo (va + i) (va + i) f _ Ld P1); auto; try (unfold USER_TOP; lia).
      intros x Hx. change (Z.min (stop - i) PAGE_SIZE) with (Z.min (stop - i) 4096). rewrite <- (Hf i (x mod 4096)) by (auto; lia || zlia). f_equal. zlia. }
    destruct (IH (i + 4096) v1) as (v' & E2 & Ld2); auto; try lia; try (unfold USER_TOP; lia); [zlia| |].
    { destruct (Z.ltb_spec (i + 4096) stop) as [|Hge2]; [exact Hfree|]. replace (va + (i + 4096)) with (round_up (va + stop)) by (unfold round_up; zlia). exact Hfree. }
    exists v'. change (i + PAGE_SIZE) with (i + 4096). destruct (Z.ltb_spec (i + 4096) stop) as [|Hge2]; [now split|].
    replace (va + (i + 4096)) with (round_up (va + stop)) in * by (unfold round_up; zlia). now split.
  - exists v. replace (va + i - va) with i by lia. split; [reflexivity|exact Ld].
Qed.
End Pages.
Lemma load_pages_end n mapPage va perm stop src i s : stop <= i -> load_pages n mapPage va perm stop src i s = Ok ((0, i), s).
Proof. intros H. destruct n; cbn [load_pages]; now rewrite (proj2 (Z.ltb_ge i stop) H). Qed.
Lemma segment_perm_range ph : 0 <= segment_perm ph < 1024.
Proof. unfold segment_perm. destruct (has _ ELF_PROG_FLAG_WRITE), (has _ ELF_PROG_FLAG_EXEC); vm_compute; split; congruence. Qed.
(** The bytes a segment puts behind its address. *)
Definition segment_bytes (km : mem) (ph : ProgramHeader) (binary x : Z) : Z :=
  if (ph.(p_vaddr) <=? x) && (x <? ph.(p_vaddr) + ph.(p_filesz)) then km (binary + (x - ph.(p_vaddr))) else 0.

Section Segment.
Context (s : mm) (km : mem) (R R2 binary : Z) (ph : ProgramHeader).
Context (Sp : spaces s R R2) (Hkm : forall x, 0 <= km x < 256) (Hb : 0 < binary) (Hbm : binary + ph.(p_filesz) < 18446744073709551616).
Context (Hva : 0 <= ph.(p_vaddr)) (Hfs : 0 <= ph.(p_filesz) <= ph.(p_memsz)) (Hmax : ph.(p_vaddr) + ph.(p_memsz) <= USER_TOP).
Context (Hfit : ph.(p_vaddr) mod 4096 = 0 \/ 4096 - ph.(p_vaddr) mod 4096 <= ph.(p_filesz) \/ ph.(p_memsz) = ph.(p_filesz)).
Let va := ph.(p_vaddr).
Let lo := first_page va.
Let hi := round_up (va + ph.(p_memsz)).
Context (Hfree : 3 * ((hi - lo) / 4096) <= Z.of_nat (length s.(pageFreeList))).
Let f := segment_bytes km ph binary.

(** The first page, when the segment does not start on a boundary. *)
Lemma first_page_run : va mod 4096 <> 0 ->
  exists v, loadDataMapper R va (va mod 4096) (segment_perm ph) binary (Z.min ph.(p_filesz) (4096 - va mod 4096)) (MkUst s km) = Ok (0, MkUst v km) /\
    loaded s v R R2 (segment_perm ph) lo (lo + 4096) f.
Proof using All.
  intros Hne. unfold USER_TOP in Hmax. assert (Hlo : lo = va - va mod 4096 /\ 0 <= lo /\ lo mod 4096 = 0) by (unfold lo, first_page; zlia). destruct Hlo as (El & H0 & Ha).
  assert (Hhi : lo + 4096 <= hi) by (unfold hi, round_up, lo, first_page; zlia). assert (Hhm : hi <= 549755813888) by (unfold hi, round_up; zlia).
  destruct (mapper_run s km R R2 va (va mod 4096) (segment_perm ph) binary (Z.min ph.(p_filesz) (4096 - va mod 4096)) Sp) as (v & E & P); auto using segment_perm_range; try zlia.
  exists v. split; [exact E|]. apply (loaded_page s s v R R2 (segment_perm ph) lo lo va f _ (loaded_none _ _ _ _ _ _ Sp) P); auto using segment_perm_range; try (unfold USER_TOP; lia); try zlia.
  intros x Hx. unfold f, segment_bytes, page_bytes. fold va. rewrite (proj2 (Z.eqb_neq binary 0)) by lia. cbn [negb andb].
  replace (x mod 4096) with (x - lo) by zlia. replace (va mod 4096) with (va - lo) by lia.
  mem_cases; try reflexivity; try lia. f_equal. lia.
Qed.
Lemma file_pages_run i v : (va + i) mod 4096 = 0 -> 0 <= i -> lo <= va + i -> va + i <= hi -> loaded s v R R2 (segment_perm ph) lo (va + i) f ->
  exists v' i', load_pages (page_fuel ph.(p_filesz)) (loadDataMapper R) va (segment_perm ph) ph.(p_filesz) (fun i => wrap64 (binary + i)) i (MkUst v km) = Ok ((0, i'), MkUst v' km) /\
    loaded s v' R R2 (segment_perm ph) lo (va + i') f /\ (va + i') mod 4096 = 0 /\ ph.(p_filesz) <= i' /\ lo <= va + i' <= hi.
Proof using All.
  intros Ha Hi Hli Hu Ld. unfold USER_TOP in Hmax. assert (Hhm : hi <= 549755813888) by (unfold hi, round_up; zlia). assert (Hlo : lo <= va /\ 0 <= lo /\ lo mod 4096 = 0) by (unfold lo, first_page; zlia).
  assert (Hpf : Z.of_nat (page_fuel ph.(p_filesz)) = ph.(p_filesz) / 4096 + 1) by (unfold page_fuel; rewrite Z2Nat.id by zlia; reflexivity).
  set (e := end_of va ph.(p_filesz) i). assert (He : e mod 4096 = 0 /\ va + ph.(p_filesz) <= e <= hi /\ lo <= e) by (unfold e, end_of, hi, round_up; destruct (Z.ltb_spec i ph.(p_filesz)); unfold hi, round_up in *; zlia).
  destruct (load_pages_run s km R R2 va (segment_perm ph) lo 0 ph.(p_filesz) (fun i => wrap64 (binary + i)) f Hkm (segment_perm_range ph)) with (n := page_fuel ph.(p_filesz)) (i := i) (v := v) as (v' & E & Ld'); auto; try lia; try (unfold USER_TOP; lia).
  - intros j o Hj _ Hja Ho. unfold f, segment_bytes, page_bytes. fold va. rewrite wrap64_small, (proj2 (Z.eqb_neq (binary + j) 0)) by lia. cbn [negb andb]. mem_cases; try reflexivity; try lia. f_equal. lia.
  - zlia.
  - fold e. pose proof (Z.div_le_mono (e - lo) (hi - lo) 4096). lia.
  - fold e in E, Ld'. exists v', (e - va). split; [exact E|]. replace (va + (e - va)) with e by lia. split; [exact Ld'|]. lia.
Qed.
Lemma zero_pages_run i v : (va + i) mod 4096 = 0 -> ph.(p_filesz) <= i -> lo <= va + i -> va + i <= hi -> loaded s v R R2 (segment_perm ph) lo (va + i) f ->
  exists v' i', load_pages (page_fuel ph.(p_memsz)) (loadDataMapper R) va (segment_perm ph) ph.(p_memsz) (fun _ => 0) i (MkUst v km) = Ok ((0, i'), MkUst v' km) /\
    loaded s v' R R2 (segment_perm ph) lo hi f.
Proof using All.
  intros Ha Hi Hli Hu Ld. unfold USER_TOP in Hmax. assert (Hhm : hi <= 549755813888) by (unfold hi, round_up; zlia). assert (Hlo : lo <= va /\ 0 <= lo /\ lo mod 4096 = 0) by (unfold lo, first_page; zlia).
  assert (Hpf : Z.of_nat (page_fuel ph.(p_memsz)) = ph.(p_memsz) / 4096 + 1) by (unfold page_fuel; rewrite Z2Nat.id by zlia; reflexivity).
  assert (He : end_of va ph.(p_memsz) i = hi) by (unfold end_of, hi, round_up; destruct (Z.ltb_spec i ph.(p_memsz)); unfold hi, round_up in *; zlia).
  destruct (load_pages_run s km R R2 va (segment_perm ph) lo ph.(p_filesz) ph.(p_memsz) (fun _ => 0) f Hkm (segment_perm_range ph)) with (n := page_fuel ph.(p_memsz)) (i := i) (v := v) as (v' & E & Ld'); auto; try lia; try (unfold USER_TOP; lia).
  - intros j o Hj Hjf Hja Ho. unfold f, segment_bytes, page_bytes. fold va. cbn [Z.eqb negb andb]. mem_cases; try reflexivity; lia.
  - zlia.
  - now rewrite He.
  - rewrite He in *. now exists v', (hi - va).
Qed.
End Segment.

(** ** Segments and images *)

Definition seg_first (ph : ProgramHeader) : Z := first_page ph.(p_vaddr).
Definition seg_end (ph : ProgramHeader) : Z := round_up (ph.(p_vaddr) + ph.(p_memsz)).
Definition seg_pages (ph : ProgramHeader) : Z := (seg_end ph - seg_first ph) / 4096.
(** What the loader needs of a segment whose bytes are at [binary]: it lies in
    user space, its file part is not larger than its memory, and it does not end
    its file part inside a first page that is not whole. *)
Record seg_ok (ph : ProgramHeader) (binary : Z) : Prop := {
  so_b : 0 < binary;
  so_bm : binary + ph.(p_filesz) < 18446744073709551616;
  so_va : 0 <= ph.(p_vaddr);
  so_fs : 0 <= ph.(p_filesz) <= ph.(p_memsz);
  so_max : ph.(p_vaddr) + ph.(p_memsz) <= USER_TOP;
  so_fit : ph.(p_vaddr) mod 4096 = 0 \/ 4096 - ph.(p_vaddr) mod 4096 <= ph.(p_filesz) \/ ph.(p_memsz) = ph.(p_filesz) }.
Lemma segment_run s km R R2 binary ph : spaces s R R2 -> (forall x, 0 <= km x < 256) -> seg_ok ph binary -> 3 * seg_pages ph <= Z.of_nat (length s.(pageFreeList)) ->
  exists v, loadElfSegment ph binary (loadDataMapper R) (MkUst s km) = Ok (0, MkUst v km) /\ loaded s v R R2 (segment_perm ph) (seg_first ph) (seg_end ph) (segment_bytes km ph binary).
Proof.
  intros Sp Hkm [Hb Hbm Hva Hfs Hmax Hfit] Hfree. unfold loadElfSegment. rewrite PGROUNDDOWN_eq by exact Hva. replace (ph.(p_vaddr) - ph.(p_vaddr) / 4096 * 4096) with (ph.(p_vaddr) mod 4096) by zlia. change PAGE_SIZE with 4096.
  destruct (Z.eqb_spec (ph.(p_vaddr) mod 4096) 0) as [E0|E0]; cbn [negb].
  - rewrite (bind_run (ret 0) _ _ 0 (MkUst s km) eq_refl). cbn [Z.eqb negb].
    assert (Ef : seg_first ph = ph.(p_vaddr)) by (unfold seg_first, first_page; zlia). assert (He : ph.(p_vaddr) <= seg_end ph) by (unfold seg_end, round_up; zlia).
    destruct (file_pages_run s km R R2 binary ph Sp Hkm Hb Hbm Hva Hfs Hmax Hfit Hfree 0 s) as (v1 & i1 & E1 & L1 & A1 & F1 & B1); try (rewrite ?Z.add_0_r; unfold seg_first, seg_end in *; lia).
    { rewrite Z.add_0_r. unfold seg_first in Ef. rewrite Ef. now apply loaded_none. }
    rewrite (bind_run _ _ _ _ _ E1). cbn [Z.eqb negb]. destruct (zero_pages_run s km R R2 binary ph Sp Hkm Hb Hbm Hva Hfs Hmax Hfit Hfree i1 v1) as (v2 & i2 & E2 & L2); auto; try lia.
    exists v2. rewrite (bind_run _ _ _ _ _ E2). split; [reflexivity|exact L2].
  - destruct (first_page_run s km R R2 binary ph Sp Hkm Hb Hbm Hva Hfs Hmax Hfit Hfree E0) as (v0 & E & L). rewrite (bind_run _ _ _ _ _ E). cbn [Z.eqb negb]. set (i0 := Z.min ph.(p_filesz) (4096 - ph.(p_vaddr) mod 4096)) in *.
    destruct (Z.le_gt_cases (4096 - ph.(p_vaddr) mod 4096) ph.(p_filesz)) as [Hle|Hgt].
    + assert (Ei : ph.(p_vaddr) + i0 = first_page ph.(p_vaddr) + 4096) by (unfold i0, first_page; zlia). rewrite <- Ei in L.
      destruct (file_pages_run s km R R2 binary ph Sp Hkm Hb Hbm Hva Hfs Hmax Hfit Hfree i0 v0) as (v1 & i1 & E1 & L1 & A1 & F1 & B1); auto; try (unfold first_page, round_up in *; zlia).
      rewrite (bind_run _ _ _ _ _ E1). cbn [Z.eqb negb]. destruct (zero_pages_run s km R R2 binary ph Sp Hkm Hb Hbm Hva Hfs Hmax Hfit Hfree i1 v1) as (v2 & i2 & E2 & L2); auto; try lia.
      exists v2. rewrite (bind_run _ _ _ _ _ E2). split; [reflexivity|exact L2].
    + assert (Em : ph.(p_memsz) = ph.(p_filesz)) by lia. rewrite (bind_run _ _ _ (0, i0) (MkUst v0 km)) by (apply load_pages_end; lia). cbn [Z.eqb negb].
      rewrite (bind_run _ _ _ (0, i0) (MkUst v0 km)) by (apply load_pages_end; lia). exists v0. split; [reflexivity|].
      replace (seg_end ph) with (first_page ph.(p_vaddr) + 4096) by (unfold seg_end, round_up, first_page; zlia). exact L.
Qed.
Lemma segment_access ph q : 0 < q < 4294967296 -> let e := mk_pte (frame q) (segment_perm ph) in
  pte_page e = Some q /\ has e PTE_R = true /\ has e PTE_U = true /\ has e PTE_W = has ph.(p_flags) ELF_PROG_FLAG_WRITE /\ has e PTE_X = has ph.(p_flags) ELF_PROG_FLAG_EXEC.
Proof.
  intros Hq. cbv zeta. pose proof (segment_perm_range ph) as Hr. split; [now apply mk_facts|]. change PTE_R with (2 ^ 1). change PTE_U with (2 ^ 4). change PTE_W with (2 ^ 2). change PTE_X with (2 ^ 3).
  rewrite !has_mk by (exact Hq || exact Hr || lia). unfold segment_perm. destruct (has _ ELF_PROG_FLAG_WRITE), (has _ ELF_PROG_FLAG_EXEC); repeat split; reflexivity.
Qed.

(** A segment of an ELF image is loaded as the format says: its file bytes
    at its address, zero up to its size in memory and on the rest of its first
    and last page, with exactly the access its flags ask for; the program's
    other memory and the other program's are as before. *)
Theorem elf_segment_loads (s : mm) (km : mem) (R R2 binary : Z) (ph : ProgramHeader) :
  spaces s R R2 -> (forall x, 0 <= km x < 256) -> seg_ok ph binary -> 3 * seg_pages ph <= Z.of_nat (length s.(pageFreeList)) ->
  exists v, loadElfSegment ph binary (loadDataMapper R) (MkUst s km) = Ok (0, MkUst v km) /\ spaces v R R2 /\
    (forall x, 0 <= x < USER_TOP -> ubyte v.(pmem) R x =
       if (ph.(p_vaddr) <=? x) && (x <? ph.(p_vaddr) + ph.(p_filesz)) then km (binary + (x - ph.(p_vaddr)))
       else if (seg_first ph <=? x) && (x <? seg_end ph) then 0 else ubyte s.(pmem) R x) /\
    (forall x, ph.(p_vaddr) <= x < ph.(p_vaddr) + ph.(p_memsz) -> let e := lookup_va v.(pmem) R x in
       (exists q, pte_page e = Some q) /\ has e PTE_R = true /\ has e PTE_U = true /\ has e PTE_W = has ph.(p_flags) ELF_PROG_FLAG_WRITE /\ has e PTE_X = has ph.(p_flags) ELF_PROG_FLAG_EXEC) /\
    (forall x, ubyte v.(pmem) R2 x = ubyte s.(pmem) R2 x).
Proof.
  intros Sp Hkm Ho Hf. destruct (segment_run s km R R2 binary ph Sp Hkm Ho Hf) as (v & E & [Sp' I O U _ U2 _]). exists v. split; [exact E|]. split; [exact Sp'|]. pose proof Ho as [_ _ Hva Hfs Hmax _].
  assert (Hin : forall x, ph.(p_vaddr) <= x < ph.(p_vaddr) + ph.(p_memsz) -> seg_first ph <= x < seg_end ph) by (intros x Hx; unfold seg_first, seg_end, first_page, round_up; zlia).
  split; [|split; [|exact U2]].
  - intros x Hx. rewrite (U x Hx). unfold segment_bytes. destruct ((ph.(p_vaddr) <=? x) && (x <? ph.(p_vaddr) + ph.(p_filesz))) eqn:Ex; [|reflexivity].
    zbool. rewrite (proj2 (andb_true_iff _ _)); [reflexivity|]. pose proof (Hin x). split; zcases.
  - intros x Hx. destruct (I x) as (q & Eq & Hq); [lia|now apply Hin|]. cbv zeta. rewrite Eq. destruct (segment_access ph q Hq) as (B1 & B2). split; [now exists q|exact B2].
Qed.

(** The program headers the loop of [loadCode] sees, and those it loads, each
    with the place of its bytes. *)
Fixpoint headers (n : nat) (km : mem) (binary phentsize off : Z) : list ProgramHeader :=
  match n with O => [] | S n' => program_header km (wrap64 (binary + off)) :: headers n' km binary phentsize (wrap64 (off + phentsize)) end.
Definition is_load (ph : ProgramHeader) : bool := ph.(p_type) =? ELF_PROG_LOAD.
Definition seg_at (binary : Z) (ph : ProgramHeader) : Z := wrap64 (binary + ph.(p_off)).
Definition loads (n : nat) (km : mem) (binary phentsize off : Z) : list ProgramHeader := List.filter is_load (headers n km binary phentsize off).
(** Memory after the segments [phs] over the memory [g]: a later one wins. *)
Fixpoint image (km : mem) (binary : Z) (phs : list ProgramHeader) (g : Z -> Z) : Z -> Z :=
  match phs with
  | [] => g
  | ph :: phs' => image km binary phs' (fun x => if (seg_first ph <=? x) && (x <? seg_end ph) then segment_bytes km ph (seg_at binary ph) x else g x)
  end.
Definition break_of (phs : list ProgramHeader) (maxva : Z) : Z := fold_left (fun m ph => Z.max m (wrap64 (ph.(p_vaddr) + ph.(p_memsz) - 1))) phs maxva.
Definition pages_of (phs : list ProgramHeader) : Z := fold_right (fun ph n => seg_pages ph + n) 0 phs.
Lemma image_ext km binary phs : forall g g' x, g x = g' x -> image km binary phs g x = image km binary phs g' x.
Proof. induction phs as [|ph phs IH]; intros g g' x H; cbn [image]; [exact H|]. apply IH. now destruct (_ && _). Qed.
Lemma load_headers_run km R R2 binary phentsize n : (forall x, 0 <= km x < 256) -> forall off maxva s, spaces s R R2 ->
  Forall (fun ph => seg_ok ph (seg_at binary ph)) (loads n km binary phentsize off) -> 3 * pages_of (loads n km binary phentsize off) <= Z.of_nat (length s.(pageFreeList)) ->
  exists v, load_headers n R binary phentsize off maxva (MkUst s km) = Ok (break_of (loads n km binary phentsize off) maxva, MkUst v km) /\ spaces v R R2 /\
    (forall x, 0 <= x < USER_TOP -> ubyte v.(pmem) R x = image km binary (loads n km binary phentsize off) (ubyte s.(pmem) R) x) /\ (forall x, ubyte v.(pmem) R2 x = ubyte s.(pmem) R2 x).
Proof.
  intros Hkm. induction n as [|n IH]; intros off maxva s Sp Hok Hf; [now exists s|]. unfold loads in *. cbn [load_headers headers List.filter] in *.
  rewrite (bind_run (gets _) _ _ (program_header km (wrap64 (binary + off))) (MkUst s km) eq_refl). set (ph := program_header km (wrap64 (binary + off))) in *. cbv zeta.
  change (is_load ph) with (ph.(p_type) =? ELF_PROG_LOAD) in *. destruct (ph.(p_type) =? ELF_PROG_LOAD); [|now apply IH].
  apply Forall_cons in Hok as [Ho Hok]. cbn [pages_of fold_right] in Hf. fold (pages_of (List.filter is_load (headers n km binary phentsize (wrap64 (off + phentsize))))) in Hf.
  assert (Hp : 0 <= pages_of (List.filter is_load (headers n km binary phentsize (wrap64 (off + phentsize))))).
  { clear -Hok. induction Hok as [|x l [_ _ ? ? _ _] _ IHl]; cbn [pages_of fold_right]; [lia|]. fold (pages_of l). assert (0 <= seg_pages x) by (unfold seg_pages, seg_end, seg_first, round_up, first_page; zlia). lia. }
  destruct (segment_run s km R R2 (seg_at binary ph) ph Sp Hkm Ho ltac:(lia)) as (v1 & E1 & L1). unfold seg_at in E1. rewrite (bind_run _ _ _ _ _ E1), massert_run by reflexivity.
  pose proof (ld_free _ _ _ _ _ _ _ _ L1) as Hfr. fold (seg_pages ph) in Hfr.
  destruct (IH (wrap64 (off + phentsize)) (Z.max maxva (wrap64 (ph.(p_vaddr) + ph.(p_memsz) - 1))) v1 (ld_sp _ _ _ _ _ _ _ _ L1) Hok ltac:(lia)) as (v2 & E2 & Sp2 & U2 & V2).
  exists v2. split; [exact E2|]. split; [exact Sp2|]. split; [|intros x; rewrite V2; apply L1].
  intros x Hx. rewrite (U2 x Hx). cbn [image]. apply image_ext. exact (ld_u _ _ _ _ _ _ _ _ L1 x Hx).
Qed.
Lemma image_off km binary phs x : forall g, Forall (fun ph => ~ (seg_first ph <= x < seg_end ph)) phs -> image km binary phs g x = g x.
Proof.
  induction phs as [|ph phs IH]; intros g Hn; [reflexivity|]. apply Forall_cons in Hn as [Hx Hn]. cbn [image]. rewrite IH by exact Hn. destruct ((seg_first ph <=? x) && (x <? seg_end ph)) eqn:E; [zbool; lia|reflexivity].
Qed.
Lemma image_seg km binary l1 ph l2 x g : Forall (fun ph => ~ (seg_first ph <= x < seg_end ph)) l2 -> seg_first ph <= x < seg_end ph ->
  image km binary (l1 ++ ph :: l2) g x = segment_bytes km ph (seg_at binary ph) x.
Proof.
  intros Hn Hx. revert g. induction l1 as [|p l1 IH]; intros g; cbn [app image]; [|apply IH]. rewrite image_off by exact Hn. rewrite (proj2 (andb_true_iff _ _)) by (split; zcases). reflexivity.
Qed.


(** ** Defects *)

(** A segment whose file part ends inside its first page, that page not being
    whole, loses its bytes when it is larger in memory: the page for the rest is
    mapped over the first one; and its last page may be missing. *)
Definition lost_ph : ProgramHeader := MkPh 1 6 0 65552 4 8.
Definition lost_state : ust := after (loadElfSegment lost_ph 8192 (loadDataMapper dirA)) (MkUst twin_vm (fun _ => 7)).
Definition short_ph : ProgramHeader := MkPh 1 6 0 69376 16 768.
Definition short_state : ust := after (loadElfSegment short_ph 8192 (loadDataMapper dirA)) (MkUst twin_vm (fun _ => 7)).
Theorem elf_small_segment_lost :
  loadElfSegment lost_ph 8192 (loadDataMapper dirA) (MkUst twin_vm (fun _ => 7)) = Ok (0, lost_state) /\ ubyte lost_state.(umm).(pmem) dirA 65552 = 0 /\
  loadElfSegment short_ph 8192 (loadDataMapper dirA) (MkUst twin_vm (fun _ => 7)) = Ok (0, short_state) /\ lookup_va short_state.(umm).(pmem) dirA (69376 + 767) = 0.
Proof.
  split; [runs (loadElfSegment lost_ph 8192 (loadDataMapper dirA)) (MkUst twin_vm (fun _ => 7)) 0|]. split; [evals|].
  split; [runs (loadElfSegment short_ph 8192 (loadDataMapper dirA)) (MkUst twin_vm (fun _ => 7)) 0|evals].
Qed.

(** ** Witnesses *)

Lemma elf_segment_loads_witness : exists v, loadElfSegment (MkPh 1 5 0 65552 5000 9000) 8192 (loadDataMapper dirA) (MkUst twin_vm (fun _ => 7)) = Ok (0, MkUst v (fun _ => 7)) /\
  ubyte v.(pmem) dirA 70000 = 7 /\ ubyte v.(pmem) dirA 74000 = 0 /\ has (lookup_va v.(pmem) dirA 74000) PTE_W = false.
Proof.
  destruct (elf_segment_loads twin_vm (fun _ => 7) dirA dirB 8192 (MkPh 1 5 0 65552 5000 9000) twin_spaces ltac:(intros; lia)) as (v & E & _ & U & A & _).
  - constructor; cbn [p_vaddr p_filesz p_memsz]; unfold USER_TOP; zlia.
  - rewrite twin_room. vm_compute. congruence.
  - exists v. split; [exact E|]. rewrite !U by (unfold USER_TOP; lia). split; [reflexivity|]. split; [reflexivity|]. apply (A 74000). cbn [p_vaddr p_memsz]. lia.
Defined.
(** An image with one segment of 16 bytes, 20 in memory. *)
Definition tiny_elf : list Z :=
  le_bytes 4 ELF_MAGIC ++ replicate 20 0 ++ le_bytes 8 65536 ++ le_bytes 8 64 ++ replicate 14 0 ++ le_bytes 2 56 ++ le_bytes 2 1 ++ replicate 6 0 ++
  le_bytes 4 1 ++ le_bytes 4 5 ++ le_bytes 8 128 ++ le_bytes 8 65536 ++ replicate 8 0 ++ le_bytes 8 16 ++ le_bytes 8 20 ++ replicate 16 0 ++ replicate 16 7.
Definition tiny_mem : mem := fun x => byte_at tiny_elf (x - 8192).
Lemma tiny_bytes x : 0 <= tiny_mem x < 256.
Proof.
  assert (H : Forall (fun b => 0 <= b < 256) tiny_elf) by (vm_compute; repeat (constructor; [split; congruence|]); constructor).
  unfold tiny_mem, byte_at. destruct (nth_in_or_default (Z.to_nat (x - 8192)) tiny_elf 0) as [Hi|Hd]; [|rewrite Hd; lia]. apply list_elem_of_In in Hi. exact (proj1 (Forall_forall _ _) H _ Hi).
Qed.
