(* ===== verification/AddrSpace.v ===== *)
(** * The life of an address space

    [proc_initupt], [proc_initustack] and [proc_recycleupt] of
    [src/kern/proc/procinit.c]: the page table of a new process with its
    trampolines and its stack, and the release of everything when the process
    ends, with the two callbacks of [src/kern/mm/vmtools.c].  The release frees
    tables while the walk goes on reading the ones above. *)

From S2P Require Import Prelude StringLib Pmm Vmm UserMem Fork Mmap.
From Stdlib Require Import ZArith Lia Bool.
From stdpp Require Import base tactics numbers list.
Open Scope Z_scope.

Definition MAXVA : Z := 274877906944.
Definition SIGNAL_TRAMPOLINE : Z := TRAMPOLINE - PAGE_SIZE.
Definition TRAPFRAME : Z := SIGNAL_TRAMPOLINE - PAGE_SIZE.
Definition USTACKTOP : Z := TRAPFRAME - PAGE_SIZE.
Definition TD_USTACK_PAGE_NUM : Z := 72.
Definition TD_USTACK_INIT_PAGE_NUM : Z := 8.
Definition TD_USTACK_INIT_BOTTOM : Z := USTACKTOP - TD_USTACK_INIT_PAGE_NUM * PAGE_SIZE.
Definition TD_USTACK_BOTTOM : Z := TD_USTACK_INIT_BOTTOM - (TD_USTACK_PAGE_NUM - TD_USTACK_INIT_PAGE_NUM) * PAGE_SIZE.
Definition PTE_G : Z := 32.

(** The addresses of the two trampolines are the linker's.  The result is the
    page table and the trap frame. *)
Definition proc_initupt (trampoline user_sig_return : Z) : M mm (Z * Z) :=
  let* upt := kvmAlloc in
  Mmap.panic_on (ptMap upt TRAMPOLINE trampoline (Z.lor (Z.lor PTE_R PTE_X) PTE_G)) ;;;
  Mmap.panic_on (ptMap upt SIGNAL_TRAMPOLINE user_sig_return (Z.lor (Z.lor PTE_R PTE_X) PTE_U)) ;;;
  let* trapframe := vmAlloc in
  Mmap.panic_on (ptMap upt TRAPFRAME trapframe (Z.lor PTE_R PTE_W)) ;;;
  ret (upt, trapframe).

Definition stack_page (pt va : Z) : M mm unit :=
  let* pa := vmAlloc in
  Mmap.panic_on (ptMap pt va pa (Z.lor (Z.lor PTE_R PTE_W) PTE_U)).
Definition stack_promise (pt va : Z) : M mm unit := Mmap.panic_on (ptMap pt va 0 (Z.lor (Z.lor PTE_R PTE_W) PTE_U)).
(** [for (int i = 0; i < n; i++)] over the pages from [base]. *)
Fixpoint stack_loop (n : nat) (body : Z -> M mm unit) (base i : Z) : M mm unit :=
  match n with O => ret tt | S n' => body (base + i * PAGE_SIZE) ;;; stack_loop n' body base (i + 1) end.
(** The result is the stack pointer. *)
Definition proc_initustack : M pvm Z :=
  let* pt := gets p_pt in
  on_vm (stack_loop (Z.to_nat TD_USTACK_INIT_PAGE_NUM) (stack_page pt) TD_USTACK_INIT_BOTTOM 0) ;;;
  on_vm (stack_loop (Z.to_nat (TD_USTACK_PAGE_NUM - TD_USTACK_INIT_PAGE_NUM)) (stack_promise pt) TD_USTACK_BOTTOM 0) ;;;
  set_brk 0 ;;;
  ret USTACKTOP.

(** The error code of the walk is not looked at. *)
Definition proc_recycleupt : M pvm unit :=
  let* pt := gets p_pt in
  on_vm (pdWalk pt (Some vmUnmapper) (Some kvmUnmapper)) ;;;
  modify (fun s => MkPvm s.(vm) 0 0 s.(p_mmap) s.(p_depth)).

(** ** The events of a release *)

(** What the walk does, in order: unmap an address, free a table. *)
Inductive event : Type := Unmap (va : Z) | Drop (t : Z).
#[export] Instance event_eq_dec : EqDecision event.
Proof. solve_decision. Defined.
Definition ev3 (n : nat) (m : Z -> Z) (t i j k : Z) : list event := map Unmap (vas3 n m t i j k).
Fixpoint ev2 (n : nat) (m : Z -> Z) (t i j : Z) : list event :=
  match n with O => [] | S n' => match child m t j with Some t3 => ev3 512 m t3 i j 0 ++ [Drop t3] | None => [] end ++ ev2 n' m t i (j + 1) end.
Fixpoint ev1 (n : nat) (m : Z -> Z) (root i : Z) : list event :=
  match n with O => [] | S n' => match child m root i with Some t => ev2 512 m t i 0 ++ [Drop t] | None => [] end ++ ev1 n' m root (i + 1) end.
Definition release_events (m : Z -> Z) (root : Z) : list event := ev1 512 m root 0 ++ [Drop root].

(** The walk performs exactly these, when each can be done in its turn. *)
Section Release.
Context (s0 : mm) (R : Z) (J : list event -> mm -> Prop).
Context (W0 : wf_pt s0 R) (Hok0 : mm_ok s0).
Context (Jnp : forall l s, J l s -> s.(npage) = s0.(npage)).
Context (Jdir : forall l s, J l s -> dirs_kept s0 s R).
Context (Jleaf : forall l s i j k t, J l s -> idx i -> idx j -> idx k -> tab3 s0.(pmem) R i j = Some t ->
  (s0.(pmem) (t + 8 * k) = 0 -> s.(pmem) (t + 8 * k) = 0) /\ (Unmap (walk_va i j k) ∈ l -> s.(pmem) (t + 8 * k) <> 0)).
Context (Jun : forall va l s, J (Unmap va :: l) s -> exists s', ptUnmap R va s = Ok (0, s') /\ J l s').
Context (Jdr : forall t l s, J (Drop t :: l) s -> exists s', kvmFree t s = Ok (tt, s') /\ J l s').
Lemma old_ram l s a k : J l s -> frame_of s0 a -> idx k -> ram s (a + 8 * k) = true.
Proof using Hok0 Jnp.
  intros HJ Hf Hk. pose proof (frame_ram s0 a k (mm_npage _ Hok0) Hf Hk) as H. unfold ram, pmTop in *. now rewrite (Jnp _ _ HJ).
Qed.
Lemma release_drop t lv l s : J (Drop t :: l) s -> exists s', call_pt R (Some kvmUnmapper) t lv s = Ok (0, s') /\ J l s'.
Proof using Jdr. intros HJ. destruct (Jdr t l s HJ) as (s' & E & HJ'). exists s'. split; [|exact HJ']. unfold call_pt, kvmUnmapper. now rewrite (bind_run _ _ _ _ _ E). Qed.
Lemma rel3_run n : forall k l s t i j, idx i -> idx j -> 0 <= k -> k + Z.of_nat n <= 512 -> tab3 s0.(pmem) R i j = Some t ->
  J (ev3 n s0.(pmem) t i j k ++ l) s -> exists s', pdWalk_pt2 R (Some vmUnmapper) n t i j k s = Ok (0, s') /\ J l s'.
Proof using All.
  induction n as [|n IH]; intros k l s t i j Hi Hj Hk Hn Ht HJ; [now exists s|]. unfold ev3 in *. cbn [vas3 map pdWalk_pt2] in *. rewrite map_app, <- app_assoc in HJ.
  assert (Hkx : idx k) by (unfold idx; lia). destruct (wf_t3 _ _ W0 i j t Hi Hj Ht) as (Hf & _).
  rewrite (bind_run _ _ _ _ _ (rd_run s _ (old_ram _ s t k HJ Hf Hkx))). destruct (Jleaf _ s i j k t HJ Hi Hj Hkx Ht) as [H0 H1].
  destruct (Z.eqb_spec (s0.(pmem) (t + 8 * k)) 0) as [E0|N0].
  - rewrite (H0 E0). cbn [Z.eqb negb]. apply IH; auto; lia.
  - cbn [map app] in HJ, H1. rewrite (proj2 (Z.eqb_neq (s.(pmem) (t + 8 * k)) 0)) by (apply H1; left). cbn [negb].
    destruct (Jun _ _ _ HJ) as (s1 & E & HJ1). rewrite (unwrap_run _ _ s s1) by exact E. apply IH; auto; lia.
Qed.
Lemma rel2_run n : forall j l s t i, idx i -> 0 <= j -> j + Z.of_nat n <= 512 -> child s0.(pmem) R i = Some t ->
  J (ev2 n s0.(pmem) t i j ++ l) s -> exists s', pdWalk_pt1 R (Some vmUnmapper) (Some kvmUnmapper) n t i j s = Ok (0, s') /\ J l s'.
Proof using All.
  induction n as [|n IH]; intros j l s t i Hi Hj Hn Ht HJ; [now exists s|]. cbn [ev2 pdWalk_pt1] in *. rewrite <- app_assoc in HJ.
  assert (Hjx : idx j) by (unfold idx; lia). destruct (wf_t2 _ _ W0 i t Hi Ht) as (Hf & _).
  rewrite (bind_run _ _ _ _ _ (rd_run s _ (old_ram _ s t j HJ Hf Hjx))). rewrite (Jdir _ _ HJ t j) by (auto; right; eauto).
  destruct (child s0.(pmem) t j) as [t3|] eqn:Et3.
  - pose proof Et3 as Et3'. unfold child in Et3'. destruct (has _ PTE_V); [|discriminate]. injection Et3' as ->.
    assert (Ht3 : tab3 s0.(pmem) R i j = Some t3) by (unfold tab3; now rewrite Ht). rewrite <- app_assoc in HJ.
    destruct (rel3_run 512 0 _ s t3 i j Hi Hjx ltac:(lia) ltac:(lia) Ht3 HJ) as (s1 & E & HJ1). rewrite (unwrap_run _ _ s s1 E).
    destruct (release_drop t3 3 _ s1 HJ1) as (s2 & E2 & HJ2). rewrite (unwrap_run _ _ s1 s2 E2). apply IH; auto; lia.
  - unfold child in Et3. destruct (has _ PTE_V); [discriminate|]. apply IH; auto; lia.
Qed.
Lemma rel1_run n : forall i l s, 0 <= i -> i + Z.of_nat n <= 512 ->
  J (ev1 n s0.(pmem) R i ++ l) s -> exists s', pdWalk_pd R (Some vmUnmapper) (Some kvmUnmapper) n i s = Ok (0, s') /\ J l s'.
Proof using All.
  induction n as [|n IH]; intros i l s Hi Hn HJ; [now exists s|]. cbn [ev1 pdWalk_pd] in *. rewrite <- app_assoc in HJ.
  assert (Hix : idx i) by (unfold idx; lia). rewrite (bind_run _ _ _ _ _ (rd_run s _ (old_ram _ s R i HJ (wf_root _ _ W0) Hix))).
  rewrite (Jdir _ _ HJ R i) by (auto; now left). destruct (child s0.(pmem) R i) as [t|] eqn:Et.
  - pose proof Et as Et'. unfold child in Et'. destruct (has _ PTE_V); [|discriminate]. injection Et' as ->. rewrite <- app_assoc in HJ.
    destruct (rel2_run 512 0 _ s t i Hix ltac:(lia) ltac:(lia) Et HJ) as (s1 & E & HJ1). rewrite (unwrap_run _ _ s s1 E).
    destruct (release_drop t 2 _ s1 HJ1) as (s2 & E2 & HJ2). rewrite (unwrap_run _ _ s1 s2 E2). apply IH; auto; lia.
  - unfold child in Et. destruct (has _ PTE_V); [discriminate|]. apply IH; auto; lia.
Qed.
Lemma release_run s : J (release_events s0.(pmem) R) s -> exists s', pdWalk R (Some vmUnmapper) (Some kvmUnmapper) s = Ok (0, s') /\ J [] s'.
Proof using All.
  intros HJ. destruct (rel1_run 512 0 [Drop R] s ltac:(lia) ltac:(lia) HJ) as (s1 & E & HJ1). unfold pdWalk. rewrite (unwrap_run _ _ s s1 E).
  destruct (release_drop R 1 [] s1 HJ1) as (s2 & E2 & HJ2). rewrite (unwrap_run _ _ s1 s2 E2). exists s2. split; [reflexivity|exact HJ2].
Qed.
End Release.

(** *** Which events there are *)

Section Events.
Context (m : Z -> Z).
Lemma ev3_in n t i j k e : e ∈ ev3 n m t i j k <-> exists va, e = Unmap va /\ va ∈ vas3 n m t i j k.
Proof. unfold ev3. apply list_elem_of_fmap. Qed.
Lemma ev2_unmap n t i : forall j va, Unmap va ∈ ev2 n m t i j <-> va ∈ vas2 n m t i j.
Proof.
  induction n as [|n IH]; intros j va; cbn [ev2 vas2]; [now rewrite !elem_of_nil|]. rewrite !elem_of_app, IH.
  destruct (child m t j); [|now rewrite !elem_of_nil]. rewrite elem_of_app, ev3_in, list_elem_of_singleton. split.
  - intros [[(v & [= ->] & H)|H]|H]; [now left|discriminate|now right].
  - intros [H|H]; [left; left; eauto|now right].
Qed.
Lemma ev1_unmap n root : forall i va, Unmap va ∈ ev1 n m root i <-> va ∈ vas1 n m root i.
Proof.
  induction n as [|n IH]; intros i va; cbn [ev1 vas1]; [now rewrite !elem_of_nil|]. rewrite !elem_of_app, IH.
  destruct (child m root i); [|now rewrite !elem_of_nil]. rewrite elem_of_app, ev2_unmap, list_elem_of_singleton. split.
  - intros [[H|H]|H]; [now left|discriminate|now right].
  - intros [H|H]; [left; now left|now right].
Qed.
Lemma ev2_drop n t i : forall j0 a, Drop a ∈ ev2 n m t i j0 <-> exists j, j0 <= j < j0 + Z.of_nat n /\ child m t j = Some a.
Proof.
  induction n as [|n IH]; intros j0 a; cbn [ev2]; [rewrite elem_of_nil; split; [tauto|intros (j & H & _); lia]|]. rewrite elem_of_app, IH. split.
  - intros [H|(j & H & E)]; [|exists j; split; [lia|exact E]]. destruct (child m t j0) as [t3|] eqn:E; [|now apply not_elem_of_nil in H].
    rewrite elem_of_app, ev3_in, list_elem_of_singleton in H. destruct H as [(v & [=] & _)|[= ->]]. exists j0. split; [lia|exact E].
  - intros (j & H & E). destruct (Z.eq_dec j j0) as [->|]; [left|right; exists j; split; [lia|exact E]].
    rewrite E, elem_of_app. right. left.
Qed.
Lemma ev1_drop n root : forall i0 a, Drop a ∈ ev1 n m root i0 <-> exists i t, i0 <= i < i0 + Z.of_nat n /\ child m root i = Some t /\ (a = t \/ exists j, idx j /\ child m t j = Some a).
Proof.
  induction n as [|n IH]; intros i0 a; cbn [ev1]; [rewrite elem_of_nil; split; [tauto|intros (i & t & H & _); lia]|]. rewrite elem_of_app, IH. split.
  - intros [H|(i & t & H & E)]; [|exists i, t; split; [lia|exact E]]. destruct (child m root i0) as [t|] eqn:E; [|now apply not_elem_of_nil in H].
    exists i0, t. split; [lia|]. split; [exact E|]. rewrite elem_of_app, ev2_drop, list_elem_of_singleton in H. destruct H as [(j & Hj & H)|[= ->]]; [right; exists j; split; [unfold idx; lia|exact H]|now left].
  - intros (i & t & H & E & Ha). destruct (Z.eq_dec i i0) as [->|]; [left|right; exists i, t; split; [lia|auto]].
    rewrite E, elem_of_app, ev2_drop. destruct Ha as [->|(j & Hj & Ha)]; [right; left|left; exists j; split; [unfold idx in Hj; lia|exact Ha]].
Qed.
(** The tables that are dropped are those of the tree. *)
Lemma drop_in root a : Drop a ∈ release_events m root <-> is_table m root a.
Proof.
  unfold release_events. rewrite elem_of_app, ev1_drop, list_elem_of_singleton. unfold is_table, tab3. split.
  - intros [(i & t & Hi & Ht & [->|(j & Hj & Ha)])|[= ->]]; [right; left|right; right|now left].
    + exists i. split; [unfold idx; lia|exact Ht].
    + exists i, j. rewrite Ht. split; [unfold idx; lia|auto].
  - intros [->|[(i & Hi & Ht)|(i & j & Hi & Hj & Ht)]]; [now right|left|left].
    + exists i, a. split; [unfold idx in Hi; lia|auto].
    + destruct (child m root i) as [t|] eqn:E; [|discriminate]. exists i, t. split; [unfold idx in Hi; lia|]. eauto.
Qed.
Lemma unmap_in root va : Unmap va ∈ release_events m root <-> va ∈ walk_vas m root.
Proof. unfold release_events, walk_vas. rewrite elem_of_app, ev1_unmap, list_elem_of_singleton. split; [intros [H|H]; [exact H|discriminate]|now left]. Qed.
End Events.

(** *** No event twice *)

Lemma walk_va_inj i j k i' j' k' : idx i -> idx j -> idx k -> idx i' -> idx j' -> idx k' -> walk_va i j k = walk_va i' j' k' -> i = i' /\ j = j' /\ k = k'.
Proof.
  intros Hi Hj Hk Hi' Hj' Hk' E. destruct (PTX_walk i j k Hi Hj Hk) as (E1 & E2 & E3). destruct (PTX_walk i' j' k' Hi' Hj' Hk') as (F1 & F2 & F3). rewrite E in E1, E2, E3. clear E. repeat split; [rewrite <- E1|rewrite <- E2|rewrite <- E3]; assumption.
Qed.
Lemma vas3_nodup n m t i j : idx i -> idx j -> forall k, 0 <= k -> k + Z.of_nat n <= 512 -> NoDup (vas3 n m t i j k).
Proof.
  intros Hi Hj. induction n as [|n IH]; intros k Hk Hn; cbn [vas3]; [constructor|]. apply NoDup_app. split; [|split; [|apply IH; lia]].
  - destruct (_ =? 0); [constructor|apply NoDup_singleton].
  - intros va Hv Hv'. destruct (_ =? 0); [now apply not_elem_of_nil in Hv|]. apply list_elem_of_singleton in Hv as ->.
    destruct (vas3_sound _ _ _ _ _ _ _ Hv') as (k' & Hk' & E & _). apply walk_va_inj in E; unfold idx in *; lia.
Qed.
Lemma ev2_nodup n m t i : idx i -> (forall j j' a, idx j -> idx j' -> child m t j = Some a -> child m t j' = Some a -> j = j') ->
  forall j, 0 <= j -> j + Z.of_nat n <= 512 -> NoDup (ev2 n m t i j).
Proof.
  intros Hi Hinj. induction n as [|n IH]; intros j Hj Hn; cbn [ev2]; [constructor|]. apply NoDup_app. split; [|split; [|apply IH; lia]].
  - destruct (child m t j) as [t3|]; [|constructor]. apply NoDup_app. split; [|split; [|apply NoDup_singleton]].
    + apply NoDup_fmap_2; [intros x y [= E]; exact E|]. apply vas3_nodup; auto; unfold idx; lia.
    + intros e (va & -> & _)%ev3_in H. now apply list_elem_of_singleton in H.
  - intros e He He'. destruct (child m t j) as [t3|] eqn:E; [|now apply not_elem_of_nil in He]. apply elem_of_app in He as [(va & -> & Hv)%ev3_in|He].
    + apply ev2_unmap, vas2_sound in He' as (j' & t3' & k' & Hj' & Hk' & Ev & _).
      destruct (vas3_sound _ _ _ _ _ _ _ Hv) as (k & Hk & Ev2 & _). rewrite Ev2 in Ev. apply walk_va_inj in Ev; unfold idx in *; lia.
    + apply list_elem_of_singleton in He as ->. apply ev2_drop in He' as (j' & Hj' & E'). pose proof (Hinj j j' t3 ltac:(unfold idx; lia) ltac:(unfold idx; lia) E E'). lia.
Qed.
Lemma ev1_nodup s R n : wf_pt s R -> forall i, 0 <= i -> i + Z.of_nat n <= 512 -> NoDup (ev1 n s.(pmem) R i).
Proof.
  intros W. assert (Htab : forall i t j, idx i -> child s.(pmem) R i = Some t -> child s.(pmem) t j = tab3 s.(pmem) R i j) by (intros i t j _ E; unfold tab3; now rewrite E).
  induction n as [|n IH]; intros i Hi Hn; cbn [ev1]; [constructor|]. assert (Hix : idx i) by (unfold idx; lia).
  apply NoDup_app. split; [|split; [|apply IH; lia]]; destruct (child s.(pmem) R i) as [t|] eqn:E; [|constructor| |intros e H; now apply not_elem_of_nil in H].
  - apply NoDup_app. split; [|split; [|apply NoDup_singleton]].
    + apply ev2_nodup; auto; try lia. intros j j' a Hj Hj'. rewrite !(Htab i t) by auto. intros E1 E2. now destruct (wf_inj3 _ _ W i j i j' a).
    + intros e He H. apply list_elem_of_singleton in H as ->. apply ev2_drop in He as (j & Hj & Ej). rewrite (Htab i t) in Ej by auto.
      destruct (wf_t3 _ _ W i j t Hix ltac:(unfold idx; lia) Ej) as (_ & _ & H). exact (H i Hix E).
  - intros e He He'. apply elem_of_app in He as [He|He].
    + destruct e as [va|a].
      * apply ev2_unmap, vas2_sound in He as (j & t3 & k & Hj & Hk & -> & _). apply ev1_unmap, vas1_sound in He' as (i' & t' & j' & t3' & k' & Hi' & Hj' & Hk' & Ev & _).
        apply walk_va_inj in Ev; unfold idx in *; lia.
      * apply ev2_drop in He as (j & Hj & Ej). rewrite (Htab i t) in Ej by auto. assert (Hjx : idx j) by (unfold idx; lia).
        apply ev1_drop in He' as (i' & t' & Hi' & E' & [->|(j' & Hj' & Ej')]); assert (Hix' : idx i') by (unfold idx; lia).
        -- destruct (wf_t3 _ _ W i j t' Hix Hjx Ej) as (_ & _ & H). exact (H i' Hix' E').
        -- rewrite (Htab i' t') in Ej' by auto. destruct (wf_inj3 _ _ W i j i' j' a Hix Hjx Hix' Hj' Ej Ej'). lia.
    + apply list_elem_of_singleton in He as ->. apply ev1_drop in He' as (i' & t' & Hi' & E' & [<-|(j' & Hj' & Ej')]); assert (Hix' : idx i') by (unfold idx; lia).
      * pose proof (wf_inj2 _ _ W i i' t Hix Hix' E E'). lia.
      * rewrite (Htab i' t') in Ej' by auto. destruct (wf_t3 _ _ W i' j' t Hix' Hj' Ej') as (_ & _ & H). exact (H i Hix E).
Qed.
Lemma release_nodup s R : wf_pt s R -> NoDup (release_events s.(pmem) R).
Proof.
  intros W. apply NoDup_app. split; [apply ev1_nodup; auto; lia|]. split; [|apply NoDup_singleton].
  intros e He H. apply list_elem_of_singleton in H as ->. apply ev1_drop in He as (i & t & Hi & E & Ht). assert (Hix : idx i) by (unfold idx; lia).
  destruct Ht as [<-|(j & Hj & Ej)]; [now destruct (wf_t2 _ _ W i R Hix E)|].
  destruct (wf_t3 _ _ W i j R Hix Hj) as (_ & H & _); [unfold tab3; now rewrite E|]. now apply H.
Qed.

(** *** Giving up a reference *)

Record released (o : option Z) (s s' : mm) : Prop := {
  rl_ok : mm_ok s';
  rl_np : s'.(npage) = s.(npage);
  rl_depth : s'.(kvm_depth) = s.(kvm_depth);
  rl_ref : s'.(page_ref) = (dec_opt o s).(page_ref);
  rl_free : s'.(pageFreeList) = (dec_opt o s).(pageFreeList) }.
Lemma released_use o s s' q : released o s s' -> in_use s q -> o <> Some q \/ 1 < s.(page_ref) q -> in_use s' q.
Proof.
  intros Hr Hq Ho. assert (H : in_use (dec_opt o s) q) by (destruct Ho; [now apply dec_opt_use|now apply dec_opt_shared]).
  destruct H as [_ Hf], Hq as [Hq _]. split; [now rewrite (rl_np _ _ _ Hr)|now rewrite (rl_free _ _ _ Hr)].
Qed.
Lemma released_ref o s s' q : released o s s' -> s'.(page_ref) q = s.(page_ref) q - ref_delta o q.
Proof. intros Hr. rewrite (rl_ref _ _ _ Hr). apply dec_opt_ref. Qed.
Lemma released_keeps o s s' q : released o s s' -> q ∈ s.(pageFreeList) -> q ∈ s'.(pageFreeList).
Proof.
  intros Hr Hq. rewrite (rl_free _ _ _ Hr). destruct o as [p|]; [|exact Hq]. cbn. unfold dec_ref. destruct (_ =? 1); [now right|exact Hq].
Qed.
Lemma released_last s s' q : released (Some q) s s' -> s.(page_ref) q = 1 -> q ∈ s'.(pageFreeList).
Proof. intros Hr H1. rewrite (rl_free _ _ _ Hr). cbn. unfold dec_ref. rewrite H1. left. Qed.

(** [kvmFree] gives up the only reference of a page. *)
Lemma kvmFree_run s t : mm_ok s -> 0 <= s.(kvm_depth) -> in_use s (paToPage t) -> 0 < s.(page_ref) (paToPage t) ->
  exists s', kvmFree t s = Ok (tt, s') /\ released (Some (paToPage t)) s s' /\ s'.(pmem) = s.(pmem).
Proof.
  intros Hok Hd Hu Hr. set (s1 := set_depth (s.(kvm_depth) + 1) s). destruct (pmPageDecRef_spec s1 (paToPage t)) as [E Hok2]; [now apply mm_ok_depth|exact Hu|exact Hr|].
  pose proof (dec_opt_fields (Some (paToPage t)) s1) as (En & Em & Ed & _). cbn [dec_opt] in *. set (s2 := dec_ref s1 (paToPage t)) in *.
  change (kvm_depth s1) with (s.(kvm_depth) + 1) in Ed. exists (set_depth (s2.(kvm_depth) - 1) s2). split; [|split; [|exact Em]].
  - unfold kvmFree. rewrite (bind_run kvm_lock _ s tt s1), (bind_run _ _ _ _ _ E) by reflexivity. apply kvm_unlock_run. lia.
  - constructor; [now apply mm_ok_depth|exact En|cbn; lia| |]; cbn; unfold s2, dec_ref; change (page_ref s1) with (page_ref s); now destruct (_ =? 1).
Qed.
(** [ptUnmap] of a live entry, from what it reads alone. *)
Lemma ptUnmap_reads s R va t1 t : mm_ok s -> 0 <= s.(kvm_depth) -> child s.(pmem) R (PTX va 1) = Some t1 -> child s.(pmem) t1 (PTX va 2) = Some t ->
  ram s (R + 8 * PTX va 1) = true -> ram s (t1 + 8 * PTX va 2) = true -> ram s (t + 8 * PTX va 3) = true ->
  let a := t + 8 * PTX va 3 in s.(pmem) a <> 0 ->
  (forall q, pte_page (s.(pmem) a) = Some q -> in_use s q /\ 0 < s.(page_ref) q) ->
  exists s', ptUnmap R va s = Ok (0, s') /\ released (pte_page (s.(pmem) a)) s s' /\ s'.(pmem) = upd s.(pmem) a 0.
Proof.
  intros Hok Hd E1 E2 R1 R2 R3 a Ha Hp. set (s1 := set_depth (s.(kvm_depth) + 1) s). assert (Hok1 : mm_ok s1) by now apply mm_ok_depth.
  destruct (ptClear_run s1 a Hok1 R3 Hp) as [Ec Hok2]. change (pmem s1) with (pmem s) in *. set (o := pte_page (pmem s a)) in *.
  destruct (dec_opt_fields o s1) as (En & _ & Ed & _). change (kvm_depth s1) with (s.(kvm_depth) + 1) in Ed. set (s2 := set_pmem _ _) in *.
  set (s3 := set_tlb (PGROUNDDOWN va :: s2.(tlb_flushed)) s2). assert (Hd3 : s3.(kvm_depth) = s.(kvm_depth) + 1) by exact Ed.
  exists (set_depth (s3.(kvm_depth) - 1) s3). split; [|split; [|reflexivity]].
  - unfold ptUnmap. rewrite (bind_run kvm_lock _ s tt s1) by reflexivity.
    assert (Ew : ptWalk R va false s1 = Ok (Some a, s1)).
    { unfold ptWalk, ptWalk_level. rewrite <- !bind_assoc. rewrite (bind_run _ _ _ _ _ (rd_run s1 _ R1)). change (pmem s1) with (pmem s).
      unfold child in E1, E2. destruct (has (pmem s (R + _)) PTE_V); [|discriminate]. injection E1 as ->. rewrite (bind_run (ret _) _ s1 (Some t1) s1) by reflexivity.
      rewrite <- !bind_assoc. rewrite (bind_run _ _ _ _ _ (rd_run s1 _ R2)). change (pmem s1) with (pmem s).
      destruct (has (pmem s (t1 + _)) PTE_V); [|discriminate]. injection E2 as ->. reflexivity. }
    rewrite (bind_run _ _ _ _ _ Ew). cbn [deref]. rewrite (bind_run _ _ _ _ _ (rd_run s1 a R3)). change (pmem s1) with (pmem s).
    rewrite (proj2 (Z.eqb_neq _ 0) Ha). cbn [default id]. change (default 0 (Some a)) with a. rewrite (bind_run _ _ _ _ _ Ec). unfold flush_tlb_if_need, tlbFlush.
    rewrite (bind_run (modify _) _ s2 tt s3) by reflexivity. rewrite (bind_run _ _ _ _ _ (kvm_unlock_run s3 ltac:(lia))). reflexivity.
  - constructor; [now apply mm_ok_depth, mm_ok_tlb|exact En|change (s3.(kvm_depth) - 1 = s.(kvm_depth)); lia| |]; unfold s3, s2; cbn; destruct o as [q|]; try reflexivity; cbn; unfold dec_ref; change (page_ref s1) with (page_ref s); now destruct (_ =? 1).
Qed.

(** ** The release of an address space *)

Section Teardown.
Context (s0 : mm) (R R2 : Z) (Sp : spaces s0 R R2).
Context (Htab : forall a, is_table s0.(pmem) R a -> s0.(page_ref) (paToPage a) = 1).
Let W : wf_pt s0 R := sp_wf _ _ _ (ss_this _ _ _ Sp).

(** The page an event gives up a reference of. *)
Definition rel (e : event) : option Z := match e with Unmap va => pte_page (lookup_va s0.(pmem) R va) | Drop t => Some (paToPage t) end.
Definition entry_of (va a : Z) : Prop := exists t, tab3 s0.(pmem) R (PTX va 1) (PTX va 2) = Some t /\ a = t + 8 * PTX va 3.
Definition cleared (d : list event) (a : Z) : Prop := exists va, Unmap va ∈ d /\ entry_of va a.
Definition untouched (d : list event) (q : Z) : Prop := forall e, e ∈ d -> rel e <> Some q.
(** The state after the events [d]. *)
Record torn (d : list event) (s : mm) : Prop := {
  td_ok : mm_ok s;
  td_np : s.(npage) = s0.(npage);
  td_depth : s.(kvm_depth) = s0.(kvm_depth);
  td_set : forall a, ~ cleared d a -> s.(pmem) a = s0.(pmem) a;
  td_clr : forall a, cleared d a -> s.(pmem) a = 0;
  td_same : forall q, untouched d q -> s.(page_ref) q = s0.(page_ref) q;
  td_ref : forall e q, e ∈ d -> rel e = Some q -> s.(page_ref) q = s0.(page_ref) q - 1;
  td_use : forall q, in_use s0 q -> untouched d q \/ 1 < s0.(page_ref) q -> in_use s q;
  td_free : forall e q, e ∈ d -> rel e = Some q -> s0.(page_ref) q = 1 -> q ∈ s.(pageFreeList) }.

Lemma table_in_use a : is_table s0.(pmem) R a -> in_use s0 (paToPage a) /\ a = frame (paToPage a).
Proof using Sp W.
  intros Ha. destruct (is_table_frame s0 R a W Ha) as (p & Hp & ->). pose proof (mm_npage _ (ss_ok _ _ _ Sp)). destruct Hp as [Hr Hf].
  replace (paToPage (MEMBASE + 4096 * p)) with p; [split; [split; auto|reflexivity]|]. rewrite paToPage_eq by (unfold MEMBASE; lia). unfold MEMBASE. zlia.
Qed.
Lemma unmap_sound va : Unmap va ∈ release_events s0.(pmem) R -> exists t, tab3 s0.(pmem) R (PTX va 1) (PTX va 2) = Some t /\
  s0.(pmem) (t + 8 * PTX va 3) = lookup_va s0.(pmem) R va /\ lookup_va s0.(pmem) R va <> 0.
Proof.
  intros H%unmap_in%walk_vas_sound. pose proof H as H'. unfold lookup_va, pte_at in H. destruct (tab3 _ _ _ _) as [t|] eqn:E; [|congruence].
  exists t. split; [reflexivity|]. split; [|exact H']. unfold lookup_va, pte_at. now rewrite E.
Qed.
(** An address is determined by its indices among those a walk visits. *)
Lemma visited_eq va va' : Unmap va ∈ release_events s0.(pmem) R -> Unmap va' ∈ release_events s0.(pmem) R -> same_page va va' = true -> va = va'.
Proof.
  intros H%unmap_in H'%unmap_in E. apply vas1_sound in H as (i & t & j & t3 & k & Hi & Hj & Hk & -> & _). apply vas1_sound in H' as (i' & t' & j' & t3' & k' & Hi' & Hj' & Hk' & -> & _).
  apply same_page_eq in E as (E1 & E2 & E3). destruct (PTX_walk i j k) as (F1 & F2 & F3); [unfold idx; lia|auto|auto|].
  destruct (PTX_walk i' j' k') as (G1 & G2 & G3); [unfold idx; lia|auto|auto|]. rewrite F1, G1 in E1. rewrite F2, G2 in E2. rewrite F3, G3 in E3. now rewrite E1, E2, E3.
Qed.
(** No two events concern one page. *)
Lemma rel_inj e e' q : e ∈ release_events s0.(pmem) R -> e' ∈ release_events s0.(pmem) R -> rel e = Some q -> rel e' = Some q -> e = e'.
Proof using Sp W.
  pose proof (ss_this _ _ _ Sp) as S1.
  assert (Hmix : forall va t, Drop t ∈ release_events s0.(pmem) R -> maps s0.(pmem) R va (paToPage t) -> False).
  { intros va t Ht%drop_in Hv. destruct (sp_leaf _ _ _ S1 va _ Hv) as (_ & _ & H & _). apply H. now destruct (table_in_use t Ht) as [_ <-]. }
  destruct e as [va|t], e' as [va'|t']; cbn [rel]; intros He He' E E'.
  - f_equal. apply visited_eq; auto. exact (sp_once _ _ _ S1 va va' q E E').
  - injection E' as <-. now destruct (Hmix va t').
  - injection E as <-. now destruct (Hmix va' t).
  - f_equal. apply drop_in, table_in_use in He as [_ ->], He' as [_ ->]. congruence.
Qed.
Lemma rel_valid e q : e ∈ release_events s0.(pmem) R -> rel e = Some q -> in_use s0 q /\ 0 < s0.(page_ref) q.
Proof using Sp Htab W.
  destruct e as [va|t]; cbn [rel]; intros He E; [now destruct (sp_leaf _ _ _ (ss_this _ _ _ Sp) va q E) as (? & ? & _)|].
  injection E as <-. apply drop_in in He. rewrite (Htab t He). split; [now apply table_in_use|lia].
Qed.
Lemma entry_inj va va' a : Unmap va ∈ release_events s0.(pmem) R -> Unmap va' ∈ release_events s0.(pmem) R -> entry_of va a -> entry_of va' a -> va = va'.
Proof using W.
  intros H H' (t & E & ->) (t' & E' & Ea). apply visited_eq; auto. pose proof (PTX_range va) as P. pose proof (PTX_range va') as P'.
  destruct (wf_t3 _ _ W _ _ t (P 1) (P 2) E) as (Hf & _). destruct (wf_t3 _ _ W _ _ t' (P' 1) (P' 2) E') as (Hf' & _).
  destruct (entry_addr_inj s0 t t' _ _ Hf Hf' (P 3) (P' 3) Ea) as [-> E3]. destruct (wf_inj3 _ _ W _ _ _ _ t' (P 1) (P 2) (P' 1) (P' 2) E E') as [E1 E2].
  unfold same_page. now rewrite E1, E2, E3, !Z.eqb_refl.
Qed.

(** The tables above the last level are only read. *)
Lemma dir_kept d a k : is_dir s0.(pmem) R a -> idx k -> ~ cleared d (a + 8 * k).
Proof using W.
  intros Ha Hk (va & _ & t & E & Ea). pose proof (PTX_range va) as P. destruct (wf_t3 _ _ W _ _ t (P 1) (P 2) E) as (Hf & Hr & Hc).
  pose proof (is_table_frame s0 R a W (dir_table _ _ _ Ha)) as Hfa. destruct (entry_addr_inj s0 a t _ _ Hfa Hf Hk (P 3) Ea) as [-> _].
  destruct Ha as [->|(i & Hi & Hc')]; [now apply Hr|exact (Hc i Hi Hc')].
Qed.
(** The next event is a new one, and so is its page. *)
Lemma next_new d e l : release_events s0.(pmem) R = d ++ e :: l ->
  e ∈ release_events s0.(pmem) R /\ (e ∉ d) /\ forall e', e' ∈ d -> e' ∈ release_events s0.(pmem) R.
Proof using W.
  intros Eev. pose proof (release_nodup s0 R W) as Hnd. rewrite Eev in *. apply NoDup_app in Hnd as (_ & Hdis & _).
  split; [apply elem_of_app; right; left|]. split; [intros H; apply (Hdis e H); left|]. intros e' H. apply elem_of_app. now left.
Qed.
Lemma next_fresh d e l q : release_events s0.(pmem) R = d ++ e :: l -> rel e = Some q -> untouched d q.
Proof using Sp W.
  intros Eev Eq e' He' Eq'. destruct (next_new d e l Eev) as (He & Hn & Hd). now pose proof (rel_inj e e' q He (Hd _ He') Eq Eq') as <-.
Qed.
(** One more event. *)
Lemma torn_step d e l s s' : release_events s0.(pmem) R = d ++ e :: l -> torn d s -> released (rel e) s s' ->
  (forall a, ~ cleared (d ++ [e]) a -> s'.(pmem) a = s.(pmem) a) -> (forall a, cleared (d ++ [e]) a -> s'.(pmem) a = 0) -> torn (d ++ [e]) s'.
Proof using Sp W.
  intros Eev T Hr P1 P2. pose proof (fun q => next_fresh d e l q Eev) as Hfresh.
  assert (Hun : forall q, untouched (d ++ [e]) q -> untouched d q /\ rel e <> Some q).
  { intros q H. split; [intros e' H'|]; apply H; apply elem_of_app; [now left|right; left]. }
  constructor.
  - apply Hr.
  - rewrite (rl_np _ _ _ Hr). apply T.
  - rewrite (rl_depth _ _ _ Hr). apply T.
  - intros a Ha. rewrite P1 by exact Ha. apply T. intros (va & Hv & H). apply Ha. exists va. split; [apply elem_of_app; now left|exact H].
  - exact P2.
  - intros q [H1 H2]%Hun. rewrite (released_ref _ _ _ q Hr), (td_same _ _ T q H1). unfold ref_delta. destruct (rel e) as [p|]; [|lia].
    destruct (Z.eqb_spec q p); [congruence|lia].
  - intros e' q [H|H%list_elem_of_singleton]%elem_of_app Eq; rewrite (released_ref _ _ _ q Hr); [|subst; rewrite (td_same _ _ T q (Hfresh q Eq)), Eq; cbn; rewrite Z.eqb_refl; lia].
    rewrite (td_ref _ _ T e' q H Eq). unfold ref_delta. destruct (rel e) as [p|] eqn:Ee; [|lia]. destruct (Z.eqb_spec q p); [|lia].
    subst p. now destruct (Hfresh q eq_refl e' H).
  - intros q Hq Ho. destruct (decide (rel e = Some q)) as [Ee|Ne].
    + destruct Ho as [Ho|Ho]; [now destruct (Hun q Ho)|]. apply (released_use _ s s' q Hr); [apply (td_use _ _ T); auto|]. right. now rewrite (td_same _ _ T q (Hfresh q Ee)).
    + apply (released_use _ s s' q Hr); [apply (td_use _ _ T); auto|now left]. destruct Ho as [Ho|Ho]; [left; now apply Hun|now right].
  - intros e' q [H|H%list_elem_of_singleton]%elem_of_app Eq E1; [apply (released_keeps _ s s' q Hr); now apply (td_free _ _ T e')|].
    subst e'. rewrite Eq in Hr. apply (released_last s s' q Hr). now rewrite (td_same _ _ T q (Hfresh q Eq)).
Qed.
(** What the next event gives up is still held. *)
Lemma next_held d e l s q : release_events s0.(pmem) R = d ++ e :: l -> torn d s -> rel e = Some q -> in_use s q /\ 0 < s.(page_ref) q.
Proof using Sp Htab W.
  intros Eev T Eq. destruct (next_new d e l Eev) as (He & _). destruct (rel_valid e q He Eq) as [Hu Hr]. pose proof (next_fresh d e l q Eev Eq) as H.
  split; [apply (td_use _ _ T); auto|now rewrite (td_same _ _ T q H)].
Qed.
Lemma next_entry d va l a : release_events s0.(pmem) R = d ++ Unmap va :: l -> entry_of va a -> ~ cleared d a.
Proof using W.
  intros Eev Ha (va' & Hv & Ha'). destruct (next_new _ _ _ Eev) as (He & Hn & Hd). now pose proof (entry_inj va va' a He (Hd _ Hv) Ha Ha') as <-.
Qed.

(** [l] is left to do. *)
Definition tearing (l : list event) (s : mm) : Prop := exists d, release_events s0.(pmem) R = d ++ l /\ torn d s.
Lemma tearing_dir l s : tearing l s -> dirs_kept s0 s R.
Proof using W. intros (d & _ & T) a k Ha Hk. apply T. now apply dir_kept. Qed.
Lemma tearing_ram l s a k : tearing l s -> is_table s0.(pmem) R a -> idx k -> ram s (a + 8 * k) = true.
Proof using Sp W.
  intros (d & _ & T) Ha Hk. pose proof (frame_ram s0 a k (mm_npage _ (ss_ok _ _ _ Sp)) (is_table_frame s0 R a W Ha) Hk) as H.
  unfold ram, pmTop in *. now rewrite (td_np _ _ T).
Qed.
Lemma tearing_leaf l s i j k t : tearing l s -> idx i -> idx j -> idx k -> tab3 s0.(pmem) R i j = Some t ->
  (s0.(pmem) (t + 8 * k) = 0 -> s.(pmem) (t + 8 * k) = 0) /\ (Unmap (walk_va i j k) ∈ l -> s.(pmem) (t + 8 * k) <> 0).
Proof using Sp W.
  intros (d & Eev & T) Hi Hj Hk Et. assert (He : entry_of (walk_va i j k) (t + 8 * k)).
  { exists t. destruct (PTX_walk i j k Hi Hj Hk) as (-> & -> & ->). auto. } split.
  - intros H0. destruct (Z.eq_dec (s.(pmem) (t + 8 * k)) 0) as [|N]; [assumption|].
    rewrite (td_set _ _ T); [exact H0|]. intros Hc. now rewrite (td_clr _ _ T _ Hc) in N.
  - intros (l1 & l2 & ->)%list_elem_of_split. rewrite app_assoc in Eev. rewrite (td_set _ _ T).
    + destruct (next_new _ _ _ Eev) as (Hin & _). destruct (unmap_sound _ Hin) as (t' & Et' & E & N).
      destruct (PTX_walk i j k Hi Hj Hk) as (E1 & E2 & E3). rewrite E1, E2, Et in Et'. injection Et' as <-. rewrite E3 in E. now rewrite E.
    + intros (v & Hv & Hc). apply (next_entry _ _ _ _ Eev He). exists v. split; [apply elem_of_app; now left|exact Hc].
Qed.
Lemma tearing_unmap va l s : tearing (Unmap va :: l) s -> exists s', ptUnmap R va s = Ok (0, s') /\ tearing l s'.
Proof using Sp Htab W.
  intros HJ. pose proof HJ as (d & Eev & T). destruct (next_new _ _ _ Eev) as (Hin & _). destruct (unmap_sound va Hin) as (t & Et & Ea & Hne).
  pose proof (PTX_range va) as P. assert (He : entry_of va (t + 8 * PTX va 3)) by (exists t; auto). pose proof (next_entry _ _ _ _ Eev He) as Hc.
  destruct (child s0.(pmem) R (PTX va 1)) as [t1|] eqn:E1; [|unfold tab3 in Et; now rewrite E1 in Et]. pose proof Et as E2. unfold tab3 in E2. rewrite E1 in E2.
  assert (D1 : is_dir s0.(pmem) R t1) by (right; exists (PTX va 1); split; [apply P|exact E1]).
  destruct (ptUnmap_reads s R va t1 t) as (s' & E & Hr & Em).
  - apply T.
  - rewrite (td_depth _ _ T). apply Sp.
  - rewrite <- E1. apply child_same, (tearing_dir _ _ HJ); [now left|apply P].
  - rewrite <- E2. apply child_same, (tearing_dir _ _ HJ); [exact D1|apply P].
  - apply (tearing_ram _ _ _ _ HJ); [now left|apply P].
  - apply (tearing_ram _ _ _ _ HJ); [now apply dir_table|apply P].
  - apply (tearing_ram _ _ _ _ HJ); [right; right; exists (PTX va 1), (PTX va 2); split; [apply P|split; [apply P|exact Et]]|apply P].
  - rewrite (td_set _ _ T _ Hc), Ea. exact Hne.
  - intros q Hq. rewrite (td_set _ _ T _ Hc), Ea in Hq. exact (next_held _ _ _ _ _ Eev T Hq).
  - exists s'. split; [exact E|]. exists (d ++ [Unmap va]). split; [now rewrite <- app_assoc|]. rewrite (td_set _ _ T _ Hc), Ea in Hr.
    apply (torn_step d (Unmap va) l s); auto.
    + intros a Ha. rewrite Em. apply upd_ne. intros ->. apply Ha. exists va. split; [apply elem_of_app; right; left|exact He].
    + intros a (v & Hv & Ha). rewrite Em. unfold upd. destruct (Z.eqb_spec a (t + 8 * PTX va 3)); [reflexivity|].
      apply elem_of_app in Hv as [Hv|Hv%list_elem_of_singleton]; [apply T; exists v; auto|]. injection Hv as ->.
      destruct Ha as (t' & Et' & ->), He as (t'' & Et'' & _). congruence.
Qed.
Lemma tearing_drop t l s : tearing (Drop t :: l) s -> exists s', kvmFree t s = Ok (tt, s') /\ tearing l s'.
Proof using Sp Htab W.
  intros (d & Eev & T). destruct (next_held d (Drop t) l s _ Eev T eq_refl) as [Hu Hr].
  destruct (kvmFree_run s t) as (s' & E & Hrl & Em); [apply T|rewrite (td_depth _ _ T); apply Sp|exact Hu|exact Hr|].
  exists s'. split; [exact E|]. exists (d ++ [Drop t]). split; [now rewrite <- app_assoc|].
  assert (Hcl : forall a, cleared (d ++ [Drop t]) a -> cleared d a).
  { intros a (v & [Hv|Hv%list_elem_of_singleton]%elem_of_app & Ha); [exists v; auto|discriminate]. }
  apply (torn_step d (Drop t) l s); auto; intros a Ha; rewrite Em; [reflexivity|]. apply T. auto.
Qed.
Lemma walk_torn : exists s', pdWalk R (Some vmUnmapper) (Some kvmUnmapper) s0 = Ok (0, s') /\ torn (release_events s0.(pmem) R) s'.
Proof using Sp Htab W.
  destruct (release_run s0 R tearing W (ss_ok _ _ _ Sp)) with (s := s0) as (s' & E & d & Eev & T).
  - intros l s (d & _ & T). apply T.
  - exact tearing_dir.
  - exact tearing_leaf.
  - exact tearing_unmap.
  - exact tearing_drop.
  - exists []. split; [reflexivity|]. constructor; auto.
    + apply Sp.
    + intros a (v & Hv & _). now apply not_elem_of_nil in Hv.
    + intros e q He. now apply not_elem_of_nil in He.
    + intros e q He. now apply not_elem_of_nil in He.
  - exists s'. split; [exact E|]. now rewrite app_nil_r in Eev; subst d.
Qed.
Lemma cleared_table d a : cleared d a -> exists t k, is_table s0.(pmem) R t /\ idx k /\ a = t + 8 * k.
Proof. intros (va & _ & t & Et & ->). pose proof (PTX_range va) as P. exists t, (PTX va 3). split; [right; right; exists (PTX va 1), (PTX va 2); split; [apply P|split; [apply P|exact Et]]|]. split; [apply P|reflexivity]. Qed.
(** Pages that are no tables of the process keep their contents. *)
Lemma torn_frame d s q : torn d s -> ~ is_table s0.(pmem) R (frame q) -> same_frame s0.(pmem) s.(pmem) q.
Proof using W.
  intros T Hq x Hx. apply (td_set _ _ T). intros (t & k & Ht & Hk & ->)%cleared_table. apply Hq. replace (frame q) with t; [exact Ht|].
  destruct (is_table_frame s0 R t W Ht) as (p & _ & ->). unfold frame, idx in *. lia.
Qed.
(** The tables of another process. *)
Lemma torn_other s : torn (release_events s0.(pmem) R) s -> same_tables s0 s R2.
Proof using Sp W.
  intros T a Ha. pose proof (ss_other _ _ _ Sp) as S2. destruct (is_table_frame s0 R2 a (sp_wf _ _ _ S2) Ha) as (p & Hp & ->).
  assert (Hn : ~ is_table s0.(pmem) R (frame p)) by (intros H; exact (sp_apart _ _ _ S2 _ Ha H)). split.
  - exists p. split; [|reflexivity]. apply (td_use _ _ T); [exact Hp|]. left. intros [va|t] He; cbn [rel].
    + intros E. destruct (sp_leaf _ _ _ (ss_this _ _ _ Sp) va p E) as (_ & _ & _ & H). now apply H.
    + intros [= <-]. apply drop_in in He. apply Hn. now destruct (table_in_use t He) as [_ <-].
  - intros i Hi. apply (torn_frame _ s p T Hn). unfold frame, idx in *. lia.
Qed.
Lemma torn_bytes s va : torn (release_events s0.(pmem) R) s -> ubyte s.(pmem) R2 va = ubyte s0.(pmem) R2 va.
Proof using Sp W.
  intros T. unfold ubyte. rewrite (same_tables_lookup _ _ _ (torn_other s T)). destruct (pte_page (lookup_va s0.(pmem) R2 va)) as [q|] eqn:E; [|reflexivity].
  apply ldb_same; [|zlia]. apply (torn_frame _ s q T). now destruct (sp_leaf _ _ _ (ss_other _ _ _ Sp) va q E) as (_ & _ & _ & H).
Qed.
Lemma torn_table s a : torn (release_events s0.(pmem) R) s -> is_table s0.(pmem) R a -> paToPage a ∈ s.(pageFreeList).
Proof using Htab. intros T Ha. apply (td_free _ _ T (Drop a)); [now apply drop_in|reflexivity|now apply Htab]. Qed.
Lemma torn_page s va q : torn (release_events s0.(pmem) R) s -> maps s0.(pmem) R va q ->
  s.(page_ref) q = s0.(page_ref) q - 1 /\ if s0.(page_ref) q =? 1 then q ∈ s.(pageFreeList) else in_use s q.
Proof using Sp.
  intros T Hq. destruct (walk_vas_complete s0.(pmem) R va) as (v & Hv & Es & _); [intros E0; unfold maps in Hq; rewrite E0 in Hq; discriminate|].
  apply unmap_in in Hv. assert (Eq : rel (Unmap v) = Some q) by (cbn; rewrite <- (same_page_lookup _ R v va Es); exact Hq).
  split; [exact (td_ref _ _ T _ q Hv Eq)|]. destruct (sp_leaf _ _ _ (ss_this _ _ _ Sp) va q Hq) as (Hu & Hr & _). destruct (Z.eqb_spec (s0.(page_ref) q) 1) as [E1|N1].
  - exact (td_free _ _ T _ q Hv Eq E1).
  - apply (td_use _ _ T); [exact Hu|]. right. lia.
Qed.
Lemma torn_rest s q : torn (release_events s0.(pmem) R) s -> in_use s0 q -> ~ is_table s0.(pmem) R (frame q) -> (forall va, ~ maps s0.(pmem) R va q) ->
  in_use s q /\ s.(page_ref) q = s0.(page_ref) q.
Proof using Sp W.
  intros T Hq Hn Hm. assert (H : untouched (release_events s0.(pmem) R) q); [|split; [apply (td_use _ _ T); auto|now apply (td_same _ _ T)]].
  intros [va|t] He; cbn [rel]; [apply Hm|]. intros [= <-]. apply drop_in in He. apply Hn. now destruct (table_in_use t He) as [_ <-].
Qed.
End Teardown.

(** C5. When a process ends, [proc_recycleupt] gives up exactly what the
    process held: every table of its page table is back on the free list, a
    page it alone mapped is too, a page it shared loses one reference and stays
    in use, every other page keeps its count, no page that was not one of its
    tables changes, and the tables and the bytes of another process are
    untouched, although the walk frees tables while it runs. *)
Theorem recycle_releases (s : pvm) (R2 : Z) :
  spaces s.(vm) s.(p_pt) R2 -> (forall a, is_table s.(vm).(pmem) s.(p_pt) a -> s.(vm).(page_ref) (paToPage a) = 1) ->
  exists s', proc_recycleupt s = Ok (tt, s') /\ s'.(p_pt) = 0 /\ s'.(p_brk) = 0 /\ mm_ok s'.(vm) /\
    (forall a, is_table s.(vm).(pmem) s.(p_pt) a -> paToPage a ∈ s'.(vm).(pageFreeList)) /\
    (forall va q, maps s.(vm).(pmem) s.(p_pt) va q -> s'.(vm).(page_ref) q = s.(vm).(page_ref) q - 1 /\
       if s.(vm).(page_ref) q =? 1 then q ∈ s'.(vm).(pageFreeList) else in_use s'.(vm) q) /\
    (forall q, in_use s.(vm) q -> ~ is_table s.(vm).(pmem) s.(p_pt) (frame q) ->
       same_frame s.(vm).(pmem) s'.(vm).(pmem) q /\
       ((forall va, ~ maps s.(vm).(pmem) s.(p_pt) va q) -> in_use s'.(vm) q /\ s'.(vm).(page_ref) q = s.(vm).(page_ref) q)) /\
    same_tables s.(vm) s'.(vm) R2 /\ forall va, ubyte s'.(vm).(pmem) R2 va = ubyte s.(vm).(pmem) R2 va.
Proof.
  intros Sp Htab. destruct (walk_torn s.(vm) s.(p_pt) R2 Sp Htab) as (v & E & T).
  exists (MkPvm v 0 0 s.(p_mmap) s.(p_depth)). split; [|repeat (split; [reflexivity|]); split; [apply T|]; split; [|split; [|split; [|split]]]].
  - unfold proc_recycleupt. rewrite (bind_run (gets p_pt) _ s _ s eq_refl). now rewrite (bind_run _ _ _ _ _ (on_vm_run _ _ _ _ E)).
  - intros a Ha. exact (torn_table _ _ Htab _ a T Ha).
  - intros va q Hq. exact (torn_page _ _ _ Sp _ va q T Hq).
  - intros q Hq Hn. split; [exact (torn_frame _ _ _ Sp _ _ q T Hn)|]. intros Hm. exact (torn_rest _ _ _ Sp _ q T Hq Hn Hm).
  - exact (torn_other _ _ _ Sp _ T).
  - intros va. exact (torn_bytes _ _ _ Sp _ va T).
Qed.

(** ** A new stack *)

Section Stack.
Context (R R2 : Z).
(** Pages were added at the addresses [here]: they can be written and are the
    process's own, and nobody sees any byte change. *)
Record grown (s s' : mm) (here : Z -> bool) : Prop := {
  gr_sp : spaces s' R R2;
  gr_new : forall va, 0 <= va < USER_TOP -> here va = true -> writable (lookup_va s'.(pmem) R va) /\ private s' R R2 va;
  gr_old : forall va, 0 <= va < USER_TOP -> here va = false -> lookup_va s'.(pmem) R va = lookup_va s.(pmem) R va;
  gr_lk2 : forall va, lookup_va s'.(pmem) R2 va = lookup_va s.(pmem) R2 va;
  gr_u : forall va, ubyte s'.(pmem) R va = ubyte s.(pmem) R va;
  gr_u2 : forall va, ubyte s'.(pmem) R2 va = ubyte s.(pmem) R2 va }.
Lemma stacked_trans s s1 s2 h1 h2 h : grown s s1 h1 -> grown s1 s2 h2 -> (forall va, 0 <= va < USER_TOP -> h va = h1 va || h2 va) -> grown s s2 h.
Proof.
  intros [Sp1 N1 O1 L1 U1 V1] [Sp2 N2 O2 L2 U2 V2] Hh. constructor; [exact Sp2| | |congruence|congruence|congruence].
  - intros va Hva. rewrite (Hh va Hva). destruct (h2 va) eqn:E2; [intros _; now apply N2|]. rewrite orb_false_r. intros E1. destruct (N1 va Hva E1) as [Hw Hp].
    rewrite (O2 va Hva E2). split; [exact Hw|]. unfold private, maps in *. intros q va'. rewrite (O2 va Hva E2), L2. apply Hp.
  - intros va Hva. rewrite (Hh va Hva). intros [E1 E2]%orb_false_iff. rewrite O2 by auto. now apply O1.
Qed.
Lemma grown_none s : spaces s R R2 -> grown s s (fun _ => false).
Proof. intros Sp. constructor; auto; discriminate. Qed.
Definition stack_perm : Z := Z.lor (Z.lor PTE_R PTE_W) PTE_U.
Lemma stack_promise_run s va : spaces s R R2 -> (3 <= length s.(pageFreeList))%nat -> lookup_va s.(pmem) R va = 0 ->
  exists s', stack_promise R va s = Ok (tt, s') /\ grown s s' (same_page va) /\ (length s.(pageFreeList) <= length s'.(pageFreeList) + 3)%nat.
Proof.
  intros Sp Hf H0. destruct (ptMap_promise s R R2 va stack_perm Sp) as (s' & E & N & Hfr); try reflexivity; [lia|vm_compute; split; congruence|now rewrite H0|].
  exists s'. split; [unfold stack_promise, Mmap.panic_on; now rewrite (bind_run _ _ _ _ _ E)|]. split; [|lia]. pose proof (na_lk _ _ _ _ _ _ N) as L. constructor.
  - apply N.
  - intros va' _ Ev. unfold private, maps. rewrite L, Ev. split; [right; vm_compute; repeat split; congruence|]. intros q va2 Hq. discriminate.
  - intros va' _ Ev. now rewrite L, Ev.
  - apply (same_tables_lookup _ _ _ (na_t2 _ _ _ _ _ _ N)).
  - intros va'. destruct (same_page va va') eqn:Ev; [|exact (narrowed_u_other _ _ _ _ _ _ _ N Ev)]. unfold ubyte. now rewrite L, Ev, (same_page_lookup _ _ _ _ Ev), H0.
  - apply N.
Qed.
Lemma stack_page_run s va : spaces s R R2 -> (3 <= length s.(pageFreeList))%nat -> lookup_va s.(pmem) R va = 0 ->
  exists s', stack_page R va s = Ok (tt, s') /\ grown s s' (same_page va) /\ (length s.(pageFreeList) <= length s'.(pageFreeList) + 3)%nat.
Proof.
  intros Sp Hf H0. destruct (vmAlloc_fresh s R R2 Sp) as (p & s1 & E1 & F & Hz); [now destruct (pageFreeList s)|].
  destruct (fresh_placed s s1 R R2 va stack_perm p (fun _ => 0) Sp F Hf) as (s' & E2 & Pl).
  { vm_compute; split; congruence. }
  { intros o Ho. unfold ldb. rewrite Hz by (unfold frame, MEMBASE; zlia). now rewrite Z.shiftr_0_l. }
  exists s'. split; [unfold stack_page, Mmap.panic_on; rewrite (bind_run _ _ _ _ _ E1); fold stack_perm; now rewrite (bind_run _ _ _ _ _ E2)|].
  destruct Pl as [Sp' Hn (q & Hq & Hq0 & El) L L2 U U2 Hfr _ _]. pose proof (mm_npage _ (ss_ok _ _ _ Sp)). split; [|exact Hfr]. constructor; auto.
  - intros va' _ Ev. unfold private, maps. rewrite (same_page_lookup _ _ _ _ Ev), El. destruct (mk_facts q stack_perm) as (_ & _ & _ & Eq); [lia|vm_compute; split; congruence|].
    split; [|intros q' va2; rewrite Eq, L2; intros [= <-] _ H2; apply Hq; now apply (sp_leaf _ _ _ (ss_other _ _ _ Sp) va2 q)].
    left. split; [exists q; exact Eq|]. left. change PTE_W with (2 ^ 2). rewrite (has_mk q stack_perm 2 ltac:(lia) ltac:(vm_compute; split; congruence) ltac:(lia)). reflexivity.
  - intros va'. rewrite U. destruct (same_page va va') eqn:Ev; [|reflexivity]. unfold ubyte. now rewrite (same_page_lookup _ _ _ _ Ev), H0.
Qed.
Definition between (lo hi va : Z) : bool := (lo <=? va) && (va <? hi).
Lemma stack_loop_run (body : Z -> M mm unit) base : base mod 4096 = 0 -> 0 <= base ->
  (forall s va, spaces s R R2 -> (3 <= length s.(pageFreeList))%nat -> lookup_va s.(pmem) R va = 0 ->
     exists s', body va s = Ok (tt, s') /\ grown s s' (same_page va) /\ (length s.(pageFreeList) <= length s'.(pageFreeList) + 3)%nat) ->
  forall n i s, 0 <= i -> base + 4096 * (i + Z.of_nat n) <= USER_TOP -> spaces s R R2 -> (3 * n <= length s.(pageFreeList))%nat ->
  (forall va, between (base + 4096 * i) (base + 4096 * (i + Z.of_nat n)) va = true -> lookup_va s.(pmem) R va = 0) ->
  exists s', stack_loop n body base i s = Ok (tt, s') /\ grown s s' (between (base + 4096 * i) (base + 4096 * (i + Z.of_nat n))) /\
    (length s.(pageFreeList) <= length s'.(pageFreeList) + 3 * n)%nat.
Proof.
  intros Ha H0 Hbody. unfold between. induction n as [|n IH]; intros i s Hi Hmax Sp Hf Hz; cbn [stack_loop].
  - exists s. split; [reflexivity|]. split; [|lia]. destruct (grown_none s Sp) as [A B C D E F]. constructor; auto. intros va _ H. zbool. lia.
  - destruct (Hbody s (base + i * PAGE_SIZE) Sp ltac:(lia)) as (s1 & E1 & G1 & F1); [apply Hz; unfold PAGE_SIZE; mem_cases; lia || reflexivity|].
    rewrite (bind_run _ _ _ _ _ E1). assert (Hpg : forall va, 0 <= va < USER_TOP -> same_page (base + i * PAGE_SIZE) va = (base + 4096 * i <=? va) && (va <? base + 4096 * i + 4096)).
    { intros va Hva. replace (base + i * PAGE_SIZE) with (base + 4096 * i) by (unfold PAGE_SIZE; lia). apply page_cases; [zlia|lia|exact Hva]. }
    destruct (IH (i + 1) s1) as (s2 & E2 & G2 & F2); try lia; [apply G1| |].
    + intros va Hva. zbool. rewrite (gr_old _ _ _ G1) by (try (rewrite Hpg by lia); lia || zcases). apply Hz. mem_cases; lia || reflexivity.
    + exists s2. split; [exact E2|]. split; [|lia]. apply (stacked_trans _ _ _ _ _ _ G1 G2). intros va Hva. rewrite (Hpg va Hva). mem_cases; lia || reflexivity.
Qed.
End Stack.

(** The stack of a new process: 72 pages below [USTACKTOP], all writable and its
    own. *)
Lemma ustack_run s R2 : spaces s.(vm) s.(p_pt) R2 -> (216 <= length s.(vm).(pageFreeList))%nat ->
  (forall va, TD_USTACK_BOTTOM <= va < USTACKTOP -> lookup_va s.(vm).(pmem) s.(p_pt) va = 0) ->
  exists v, proc_initustack s = Ok (USTACKTOP, MkPvm v s.(p_pt) 0 s.(p_mmap) s.(p_depth)) /\
    grown s.(p_pt) R2 s.(vm) v (between TD_USTACK_BOTTOM USTACKTOP) /\ (length s.(vm).(pageFreeList) <= length v.(pageFreeList) + 216)%nat.
Proof.
  intros Sp Hf Hz. set (R := s.(p_pt)) in *.
  assert (E1 : TD_USTACK_INIT_BOTTOM = 274877857792 /\ USTACKTOP = 274877890560 /\ TD_USTACK_BOTTOM = 274877595648) by (vm_compute; auto). destruct E1 as (E1 & E2 & E3).
  destruct (stack_loop_run R R2 (stack_page R) TD_USTACK_INIT_BOTTOM) with (n := 8%nat) (i := 0) (s := s.(vm)) as (v1 & R1 & G1 & F1); try (rewrite E1; unfold USER_TOP; lia || reflexivity); auto using stack_page_run; try lia.
  { intros va Hva. apply Hz. rewrite E1 in Hva. unfold between in Hva. zbool. lia. }
  destruct (stack_loop_run R R2 (stack_promise R) TD_USTACK_BOTTOM) with (n := 64%nat) (i := 0) (s := v1) as (v2 & R2' & G2 & F2); try (rewrite E3; unfold USER_TOP; lia || reflexivity); auto using stack_promise_run; try lia; [apply G1| |].
  { intros va Hva. rewrite E3 in Hva. unfold between in Hva. zbool. rewrite (gr_old _ _ _ _ _ G1) by (rewrite ?E1; unfold between, USER_TOP; lia || zcases). apply Hz. lia. }
  exists v2. split; [|split; [|lia]].
  - unfold proc_initustack. rewrite (bind_run (gets p_pt) _ s _ s eq_refl). fold R. change (Z.to_nat TD_USTACK_INIT_PAGE_NUM) with 8%nat.
    change (Z.to_nat (TD_USTACK_PAGE_NUM - TD_USTACK_INIT_PAGE_NUM)) with 64%nat. rewrite (bind_run _ _ _ _ _ (on_vm_run _ s tt v1 R1)), (bind_run _ _ _ _ _ (on_vm_run _ (with_vm v1 s) tt v2 R2')). reflexivity.
  - apply (stacked_trans _ _ _ _ _ _ _ _ G1 G2). intros va Hva. rewrite E1, E2, E3. unfold between. mem_cases; lia || reflexivity.
Qed.
(** The stack of a new process works: after [proc_initustack] any range of
    the 72 pages below the stack pointer, the promised ones included, can be
    written, what was written is seen there, the rest of the stack is zero, and
    the rest of the process's memory and another process's is unchanged. *)
Theorem ustack_works (s : pvm) (km : mem) (R2 uptr kptr cnt : Z) (n fuel : nat) :
  spaces s.(vm) s.(p_pt) R2 -> (216 + 3 * n <= length s.(vm).(pageFreeList))%nat ->
  (forall va, TD_USTACK_BOTTOM <= va < USTACKTOP -> lookup_va s.(vm).(pmem) s.(p_pt) va = 0) ->
  TD_USTACK_BOTTOM <= uptr -> 0 <= cnt -> uptr + cnt <= USTACKTOP -> uptr mod 4096 + cnt <= 4096 * Z.of_nat n -> (n <= fuel)%nat ->
  4096 <= kptr -> (forall x, 0 <= km x < 256) ->
  exists s1 v2, proc_initustack s = Ok (USTACKTOP, s1) /\ s1.(p_pt) = s.(p_pt) /\ s1.(p_brk) = 0 /\
    copy_out fuel s.(p_pt) uptr kptr cnt (MkUst s1.(vm) km) = Ok (tt, MkUst v2 km) /\
    (forall va, TD_USTACK_BOTTOM <= va < USTACKTOP -> ubyte v2.(pmem) s.(p_pt) va = if (uptr <=? va) && (va <? uptr + cnt) then km (kptr + (va - uptr)) else 0) /\
    (forall va, 0 <= va < USER_TOP -> ~ (TD_USTACK_BOTTOM <= va < USTACKTOP) -> ubyte v2.(pmem) s.(p_pt) va = ubyte s.(vm).(pmem) s.(p_pt) va) /\
    (forall va, ubyte v2.(pmem) R2 va = ubyte s.(vm).(pmem) R2 va).
Proof.
  intros Sp Hf Hz Hu Hc Huc Hn Hfuel Hk Hkm. destruct (ustack_run s R2 Sp ltac:(lia) Hz) as (v & E & [Sp' Nw Od L2 U U2] & Hfr).
  assert (E2 : USTACKTOP = 274877890560 /\ TD_USTACK_BOTTOM = 274877595648) by (vm_compute; auto). destruct E2 as [E2 E3]. rewrite E2, E3 in *. set (R := s.(p_pt)) in *.
  destruct (copy_out_loop R R2 uptr kptr cnt ltac:(unfold USER_TOP; lia) Hk n fuel 0 (uptr mod PAGE_SIZE) v km Hfuel Hkm) as (v2 & E4 & _ & _ & V & V2 & _).
  - constructor; rewrite ?Z.add_0_r; try (intros; unfold PAGE_SIZE; auto; lia). intros va Hva. apply Nw; unfold USER_TOP, between; lia || zcases.
  - eexists _, v2. split; [exact E|]. split; [reflexivity|]. split; [reflexivity|]. split; [exact E4|]. split; [|split]; [intros va Hva|intros va Hva Hno|intros va].
    + rewrite V, U, Z.add_0_r by (unfold USER_TOP; lia). destruct ((uptr <=? va) && _); [reflexivity|]. unfold ubyte. now rewrite Hz by exact Hva.
    + rewrite V, U, Z.add_0_r by exact Hva. destruct ((uptr <=? va) && _) eqn:E'; [zbool; lia|reflexivity].
    + rewrite V2. apply U2.
Qed.

(** ** A new page table *)

Lemma kvmAlloc_ref s p s1 : mm_ok s -> vmAlloc s = Ok (frame p, s1) -> mm_ok s1 -> in_use s1 p -> s1.(page_ref) p = 0 ->
  let s2 := set_ref (upd s1.(page_ref) p 1) s1 in kvmAlloc s = Ok (frame p, s2) /\ mm_ok s2.
Proof.
  intros Hok E Hok1 Hu Hr. assert (Hok2 : mm_ok (set_ref (upd s1.(page_ref) p 1) s1)).
  { destruct (pmPageIncRef_spec s1 p Hok1 Hu ltac:(lia)) as [_ H]. now rewrite Hr in H. }
  split; [|exact Hok2]. set (s0 := set_depth (s.(kvm_depth) + 1) s). destruct s.(pageFreeList) as [|pp rest] eqn:Hf.
  { unfold vmAlloc in E. rewrite (bind_run kvm_lock _ s tt s0) in E by reflexivity. unfold bind, pmAlloc in E. change (pageFreeList s0) with (pageFreeList s) in E. now rewrite Hf in E. }
  destruct (pmAlloc_spec s0 pp rest) as (Ea & Hoka & Hua & Hra); [now apply mm_ok_depth|exact Hf|]. cbv zeta in *. set (sa := set_pmem _ _) in *.
  unfold vmAlloc in E. rewrite (bind_run kvm_lock _ s tt s0), (bind_run _ _ _ _ _ Ea) in E by reflexivity.
  unfold kvmAlloc. rewrite (bind_run kvm_lock _ s tt s0), (bind_run _ _ _ _ _ Ea) by reflexivity.
  change (page_ref s0 pp) with (page_ref sa pp) in Hra.
  destruct (pmPageIncRef_spec sa pp Hoka Hua) as [Ei _]; [lia|]. rewrite (bind_run _ _ _ _ _ Ei). rewrite Hra.
  unfold bind, kvm_unlock in *. change (kvm_depth (set_ref _ sa)) with (kvm_depth sa). destruct (kvm_depth sa =? 0); [discriminate|]. cbn [ret] in *.
  injection E as Epa <-. rewrite Epa. pose proof (mm_npage _ Hoka). destruct Hua as [Hpp _].
  rewrite pageToPa_eq in Epa by lia. assert (pp = p) as -> by (unfold frame in Epa; lia). reflexivity.
Qed.
(** A table of zeros maps nothing. *)
Section Empty.
Context (s : mm) (p R2 : Z) (Hp : in_use s p) (Hz : forall x, frame p <= x < frame p + 4096 -> s.(pmem) x = 0).
Lemma zero_child i : idx i -> child s.(pmem) (frame p) i = None.
Proof using Hz. intros Hi. unfold child. rewrite Hz by (unfold idx in Hi; lia). reflexivity. Qed.
Lemma empty_tab3 i j : idx i -> tab3 s.(pmem) (frame p) i j = None.
Proof using Hz. intros Hi. unfold tab3. now rewrite zero_child. Qed.
Lemma empty_lookup va : lookup_va s.(pmem) (frame p) va = 0.
Proof using Hz. unfold lookup_va, pte_at. rewrite empty_tab3; [reflexivity|apply PTX_range]. Qed.
Lemma empty_table a : is_table s.(pmem) (frame p) a -> a = frame p.
Proof using Hz. intros [->|[(i & Hi & E)|(i & j & Hi & Hj & E)]]; [reflexivity| |]; [now rewrite zero_child in E|now rewrite empty_tab3 in E]. Qed.
Lemma empty_space : ~ is_table s.(pmem) R2 (frame p) -> space s (frame p) R2.
Proof using Hp Hz.
  intros Hn. constructor; unfold maps; try (intros va; rewrite empty_lookup; discriminate); try (intros va ?; rewrite empty_lookup; discriminate).
  - constructor; try (intros i a Hi; rewrite zero_child by exact Hi; discriminate); try (intros i j a Hi Hj; rewrite empty_tab3 by exact Hi; discriminate).
    + now exists p.
    + intros i i' a Hi Hi'. rewrite zero_child by exact Hi. discriminate.
    + intros i j i' j' a Hi Hj Hi' Hj'. rewrite empty_tab3 by exact Hi. discriminate.
    + intros i Hi _. apply Hz. unfold idx in Hi. lia.
    + intros i t j Hi Hj. rewrite zero_child by exact Hi. discriminate.
    + intros i j k Hi Hj Hk. unfold pte_at. now rewrite empty_tab3 by exact Hi.
  - intros a Ha%empty_table. now subst.
Qed.
Lemma empty_beside X : ~ is_table s.(pmem) R2 (frame p) -> (forall va, ~ maps s.(pmem) R2 va p) -> space s R2 X -> space s R2 (frame p).
Proof using Hp Hz.
  intros Hn Hm [W Ha Hl Ho Ht]. constructor; auto.
  - intros a Ha' Hb%empty_table. now subst.
  - intros va q Hq. destruct (Hl va q Hq) as (H1 & H2 & H3 & _). repeat (split; [assumption|]). intros Hb%empty_table.
    apply (Hm va). replace p with q; [exact Hq|]. unfold frame in Hb. lia.
  - intros va va' q Hq. unfold maps. rewrite empty_lookup. discriminate.
Qed.
End Empty.

(** What a new, empty table leaves of the other process. *)
Record begun (s s' : mm) (R R2 : Z) : Prop := {
  bg_sp : spaces s' R R2;
  bg_np : s'.(npage) = s.(npage);
  bg_lk : forall va, lookup_va s'.(pmem) R va = 0;
  bg_tab : forall a, is_table s'.(pmem) R a -> a = R;
  bg_ref : s'.(page_ref) (paToPage R) = 1;
  bg_use : forall q, in_use s q -> in_use s' q /\ frame q <> R /\ s'.(page_ref) q = s.(page_ref) q;
  bg_t2 : same_tables s s' R2;
  bg_u2 : forall va, ubyte s'.(pmem) R2 va = ubyte s.(pmem) R2 va;
  bg_free : length s.(pageFreeList) = S (length s'.(pageFreeList)) }.
Lemma kvmAlloc_space s R2 X : spaces s R2 X -> s.(pageFreeList) <> [] -> exists R s', kvmAlloc s = Ok (R, s') /\ begun s s' R R2.
Proof.
  intros Sp Hne. destruct (vmAlloc_fresh s R2 X Sp Hne) as (p & s1 & E & F & Hz). pose proof Sp as [Hok Hd S1 _]. pose proof F as [Sp1 Hn Hl Hu Hr Hnew T2 TX Hold Href].
  destruct (kvmAlloc_ref s p s1 Hok E (ss_ok _ _ _ Sp1) Hu Hr) as [E2 Hok2]. set (s2 := set_ref _ s1) in *.
  assert (Hne' : forall q, in_use s q -> q <> p) by (intros q Hq ->; contradiction).
  assert (Hnt : ~ is_table s2.(pmem) R2 (frame p)) by (apply (fresh_not_table s s1); auto; apply S1).
  assert (Hnm : forall va, ~ maps s2.(pmem) R2 va p).
  { intros va. unfold maps. change (pmem s2) with (pmem s1). rewrite (same_tables_lookup _ _ _ T2). intros Hq. apply Hnew. now destruct (sp_leaf _ _ _ S1 va p Hq). }
  assert (Huse : forall q, in_use s q -> in_use s2 q /\ s2.(page_ref) q = s.(page_ref) q).
  { intros q Hq. split; [apply (Hold q Hq)|]. cbn. rewrite upd_ne by auto. now apply Href. }
  assert (TX' : same_tables s s2 X) by exact TX. assert (T2' : same_tables s s2 R2) by exact T2.
  exists (frame p), s2. split; [exact E2|]. constructor; auto.
  - constructor; [exact Hok2|apply Sp1|now apply empty_space|]. apply (empty_beside s2 p R2) with (X := X); auto. apply (space_same s); auto.
  - intros va. now apply (empty_lookup s2 p).
  - intros a. now apply (empty_table s2 p).
  - pose proof (mm_npage _ (ss_ok _ _ _ Sp1)). destruct Hu as [Hpr _]. replace (paToPage (frame p)) with p; [cbn; apply upd_eq|]. rewrite paToPage_eq by (unfold frame, MEMBASE; lia). unfold frame, MEMBASE. zlia.
  - intros q Hq. destruct (Huse q Hq) as [H1 H2]. split; [exact H1|]. split; [|exact H2]. intros Ef. apply (Hne' q Hq). unfold frame in Ef. lia.
  - intros va. unfold ubyte. rewrite (same_tables_lookup _ _ _ T2'). destruct (pte_page (lookup_va s.(pmem) R2 va)) as [q|] eqn:Eq; [|reflexivity].
    apply ldb_same; [|zlia]. apply (Hold q). now destruct (sp_leaf _ _ _ S1 va q Eq).
Qed.
Lemma with_fresh_u2 s s1 R R2 p : spaces s R R2 -> with_fresh s s1 R R2 p -> forall va, ubyte s1.(pmem) R2 va = ubyte s.(pmem) R2 va.
Proof.
  intros Sp F va. apply ubyte_same; [apply (same_tables_lookup _ _ _ (wf_t2' _ _ _ _ _ F))|]. intros q Hq. apply (wf_old _ _ _ _ _ F). now destruct (sp_leaf _ _ _ (ss_other _ _ _ Sp) va q Hq).
Qed.
(** A page of the kernel's gets an entry where there was none. *)
Definition keep_going (s s' : mm) (R R2 : Z) : Prop :=
  (forall q, in_use s q -> ~ is_table s.(pmem) R (frame q) -> in_use s' q /\ ~ is_table s'.(pmem) R (frame q)) /\
  same_tables s s' R2 /\ (forall va, ubyte s'.(pmem) R2 va = ubyte s.(pmem) R2 va).
Lemma map_kernel s R R2 va p perm : spaces s R R2 -> (2 <= length s.(pageFreeList))%nat -> in_use s p -> s.(page_ref) p < 4294967295 -> 0 <= perm < 1024 ->
  ~ is_table s.(pmem) R (frame p) -> ~ is_table s.(pmem) R2 (frame p) -> (forall va', ~ maps s.(pmem) R va' p) -> lookup_va s.(pmem) R va = 0 ->
  exists s', ptMap R va (frame p) perm s = Ok (0, s') /\ mapped_into s s' R R2 va p perm /\ keep_going s s' R R2.
Proof.
  intros Sp Hf Hp Hr Hperm Nt Nt2 Nm H0. destruct (ptMap_spaces s R R2 va p perm Sp Hf Hp Hr Hperm Nt Nt2) as (s' & E & Mi); [intros H; now apply Nm in H|intros va' H; now apply Nm in H|].
  exists s'. split; [exact E|]. split; [exact Mi|]. assert (N0 : pte_page (lookup_va s.(pmem) R va) = None) by now rewrite H0.
  split; [|split; [apply Mi|]].
  - intros q Hq Hqt. destruct (mi_spared _ _ _ _ _ _ _ Mi q Hq Hqt) as (H1 & H2 & _); [left; rewrite N0; discriminate|auto].
  - intros va'. apply ubyte_same; [apply (same_tables_lookup _ _ _ (mi_t2 _ _ _ _ _ _ _ Mi))|]. intros q Hq. destruct (sp_leaf _ _ _ (ss_other _ _ _ Sp) va' q Hq) as (Hu & _ & _ & Hqt).
    intros x. apply (mi_keep _ _ _ _ _ _ _ Mi q); auto. left. unfold maps. rewrite N0. discriminate.
Qed.
Definition tramp_perm : Z := Z.lor (Z.lor PTE_R PTE_X) PTE_G.
Definition sig_perm : Z := Z.lor (Z.lor PTE_R PTE_X) PTE_U.
Definition frame_perm : Z := Z.lor PTE_R PTE_W.
Ltac perm_range := vm_compute; split; congruence.
Lemma entry_bits q perm : 0 < q < 4294967296 -> 0 <= perm < 1024 -> let e := mk_pte (frame q) perm in
  pte_page e = Some q /\ has e PTE_U = has perm PTE_U /\ has e PTE_W = has perm PTE_W /\ has e PTE_X = has perm PTE_X.
Proof.
  intros Hq Hp. cbv zeta. split; [now apply mk_facts|]. change PTE_U with (2 ^ 4). change PTE_W with (2 ^ 2). change PTE_X with (2 ^ 3). rewrite !has_mk by (assumption || lia). auto.
Qed.
(** The entries of the new table. *)
Definition initial_entry (tq sq f va : Z) : Z :=
  if same_page TRAPFRAME va then mk_pte (frame f) frame_perm else
  if same_page SIGNAL_TRAMPOLINE va then mk_pte (frame sq) sig_perm else
  if same_page TRAMPOLINE va then mk_pte (frame tq) tramp_perm else 0.
Lemma initupt_run (s : mm) (R2 X tq sq : Z) :
  spaces s R2 X -> (8 <= length s.(pageFreeList))%nat -> in_use s tq -> in_use s sq -> tq <> sq ->
  s.(page_ref) tq < 4294967295 -> s.(page_ref) sq < 4294967295 -> ~ is_table s.(pmem) R2 (frame tq) -> ~ is_table s.(pmem) R2 (frame sq) ->
  exists R f v, proc_initupt (frame tq) (frame sq) s = Ok ((R, frame f), v) /\ spaces v R R2 /\ 0 < f < 4294967296 /\
    (forall va, lookup_va v.(pmem) R va = initial_entry tq sq f va) /\ v.(page_ref) f = 1 /\
    (forall va, same_page TRAPFRAME va = true -> ubyte v.(pmem) R va = 0) /\ forall va, ubyte v.(pmem) R2 va = ubyte s.(pmem) R2 va.
Proof.
  intros Sp Hf Ht Hs Hne Rt Rs Nt Ns.
  destruct (kvmAlloc_space s R2 X Sp) as (R & s0 & E0 & [Sp0 Hn0 L0 Tb0 Hr0 U0 T0 V0 F0]); [now destruct (pageFreeList s)|].
  assert (NR : forall q, in_use s q -> ~ is_table s0.(pmem) R (frame q)) by (intros q Hq H%Tb0; now destruct (U0 q Hq) as (_ & N & _)).
  destruct (U0 tq Ht) as (Ut & _ & Et). destruct (U0 sq Hs) as (Us & _ & Es).
  destruct (map_kernel s0 R R2 TRAMPOLINE tq tramp_perm Sp0) as (s1 & E1 & M1 & K1 & T1 & V1); auto; [lia|lia|perm_range|now rewrite (same_tables_is _ _ _ _ T0)|intros va; unfold maps; rewrite L0; discriminate|].
  pose proof (mi_lk _ _ _ _ _ _ _ M1) as L1. pose proof (mi_free _ _ _ _ _ _ _ M1) as F1. destruct (K1 sq Us (NR sq Hs)) as [Us1 Ns1].
  assert (Es1 : s1.(page_ref) sq = s.(page_ref) sq) by (rewrite (mi_ref _ _ _ _ _ _ _ M1 sq Us), L0, (ref_delta_ne (Some tq)) by congruence; change (ref_delta (pte_page 0) sq) with 0; lia).
  pose proof (mm_npage _ (ss_ok _ _ _ Sp)) as Hnp. destruct (mk_facts tq tramp_perm) as (_ & _ & _ & Pt); [destruct Ht; lia|perm_range|]. destruct (mk_facts sq sig_perm) as (_ & _ & _ & Ps); [destruct Hs; lia|perm_range|].
  destruct (map_kernel s1 R R2 SIGNAL_TRAMPOLINE sq sig_perm (mi_sp _ _ _ _ _ _ _ M1)) as (s2 & E2 & M2 & K2 & T2 & V2); auto; [lia|lia|perm_range|now rewrite (same_tables_is _ _ _ _ T1), (same_tables_is _ _ _ _ T0)| |rewrite L1, L0; reflexivity|].
  { intros va. unfold maps. rewrite L1, L0. destruct (same_page _ _); [rewrite Pt; congruence|discriminate]. }
  pose proof (mi_lk _ _ _ _ _ _ _ M2) as L2. pose proof (mi_free _ _ _ _ _ _ _ M2) as F2. pose proof (mi_sp _ _ _ _ _ _ _ M2) as Sp2.
  destruct (vmAlloc_fresh s2 R R2 Sp2) as (f & s3 & E3 & Fr & Hz); [destruct (pageFreeList s2); [cbn in F2; lia|discriminate]|].
  pose proof Fr as [Sp3 Hn3 F3 Uf Rf Nf TR3 T3 O3 _].
  pose proof (same_tables_lookup _ _ _ TR3) as L3. pose proof (sp_leaf _ _ _ (ss_this _ _ _ Sp2)) as Lf2.
  assert (Nmf : forall va, ~ maps s3.(pmem) R va f) by (intros va; unfold maps; rewrite L3; intros Hq; apply Nf; now destruct (Lf2 va f Hq)).
  assert (Ntf : ~ is_table s3.(pmem) R (frame f)) by (apply (fresh_not_table s2 s3); auto; apply Sp2).
  destruct (map_kernel s3 R R2 TRAPFRAME f frame_perm Sp3) as (v & E4 & M4 & K4 & T4 & V4); auto; [lia|lia|perm_range|apply (fresh_not_table s2 s3); auto; apply Sp2|rewrite L3, L2, L1, L0; reflexivity|].
  pose proof (mi_lk _ _ _ _ _ _ _ M4) as L4. assert (Hf0 : 0 < f < 4294967296) by (destruct Uf; pose proof (mm_npage _ (ss_ok _ _ _ Sp3)); lia). destruct (mk_facts f frame_perm Hf0) as (_ & _ & _ & Pf); [perm_range|].
  exists R, f, v. split; [|split; [apply M4|split; [exact Hf0|split; [intros va; now rewrite L4, L3, L2, L1, L0|split; [|split]]]]].
  - unfold proc_initupt, Mmap.panic_on. rewrite (bind_run _ _ _ _ _ E0). fold tramp_perm sig_perm frame_perm. rewrite <- !bind_assoc. rewrite (bind_run _ _ _ _ _ E1). cbn [Z.eqb]. rewrite massert_run by reflexivity.
    rewrite <- !bind_assoc. rewrite (bind_run _ _ _ _ _ E2). cbn [Z.eqb]. rewrite massert_run, (bind_run _ _ _ _ _ E3) by reflexivity. rewrite <- !bind_assoc. rewrite (bind_run _ _ _ _ _ E4). reflexivity.
  - rewrite (mi_ref _ _ _ _ _ _ _ M4 f Uf), L3, L2, L1, L0, Rf. cbn [ref_delta]. rewrite Z.eqb_refl. reflexivity.
  - intros va Ev. unfold ubyte. rewrite L4, Ev, Pf. unfold ldb. rewrite (mi_keep _ _ _ _ _ _ _ M4 f); auto; try (unfold frame, MEMBASE; zlia).
    rewrite Hz by (unfold frame, MEMBASE; zlia). now rewrite Z.shiftr_0_l.
  - intros va. now rewrite V4, (with_fresh_u2 s2 s3 R R2 f Sp2 Fr), V2, V1, V0.
Qed.

(** ** Witnesses *)

(** [paged_vm] is a process with one page of its own. *)
Definition one_reference (s : mm) (e : event) : bool := match e with Drop a => s.(page_ref) (paToPage a) =? 1 | Unmap _ => true end.
Lemma tables_checked s R : forallb (one_reference s) (release_events s.(pmem) R) = true -> forall a, is_table s.(pmem) R a -> s.(page_ref) (paToPage a) = 1.
Proof. rewrite forallb_forall. intros H a Ha%drop_in%list_elem_of_In. specialize (H _ Ha). unfold one_reference in H. now apply Z.eqb_eq. Qed.
Definition paged_proc : pvm := MkPvm paged_vm dirA 4096 MMAP_START 0.
Lemma paged_proc_spaces : spaces paged_proc.(vm) paged_proc.(p_pt) dirB.
Proof. exact (proj1 paged_facts). Qed.
Lemma paged_proc_tables : forall a, is_table paged_proc.(vm).(pmem) paged_proc.(p_pt) a -> paged_proc.(vm).(page_ref) (paToPage a) = 1.
Proof. apply tables_checked. vm_compute. reflexivity. Qed.
Lemma paged_proc_page : maps paged_proc.(vm).(pmem) paged_proc.(p_pt) 4096 70 /\ paged_proc.(vm).(page_ref) 70 = 1.
Proof. split; vm_compute; reflexivity. Qed.
Lemma paged_proc_root : is_table paged_proc.(vm).(pmem) paged_proc.(p_pt) dirA.
Proof. now left. Qed.
Lemma recycle_releases_witness : exists s', proc_recycleupt paged_proc = Ok (tt, s') /\ s'.(p_pt) = 0 /\
  paToPage dirA ∈ s'.(vm).(pageFreeList) /\ 70 ∈ s'.(vm).(pageFreeList) /\ s'.(vm).(page_ref) 70 = 0.
Proof.
  destruct (recycle_releases paged_proc dirB paged_proc_spaces paged_proc_tables) as (s' & E & Ept & _ & _ & Ht & Hp & _).
  destruct paged_proc_page as [Hm Hr]. destruct (Hp 4096 70 Hm) as [H1 H2]. rewrite Hr in H1, H2.
  exists s'. split; [exact E|]. split; [exact Ept|]. split; [exact (Ht dirA paged_proc_root)|]. split; [exact H2|exact H1].
Defined.

(** [twin_vm] with more free pages. *)
Definition roomy_vm : mm := MkMm 400 twin_vm.(page_ref) (seqZ 10 300) 300 (fun _ => 0) 0 [].
Lemma roomy_free p : p ∈ seqZ 10 300 -> 10 <= p < 310.
Proof. intros Hp%elem_of_seqZ. lia. Qed.
Lemma roomy_space root root2 : (root = dirA /\ root2 = dirB) \/ (root = dirB /\ root2 = dirA) -> space roomy_vm root root2.
Proof.
  intros Hr. constructor; try (intros; discriminate).
  - constructor; try (intros; discriminate); try (intros; reflexivity).
    destruct Hr as [[-> _]|[-> _]]; [exists 3|exists 4]; (split; [|reflexivity]; split; [cbn; lia|intros Hp%roomy_free; lia]).
  - apply (sp_apart _ _ _ (twin_space root root2 Hr)).
Qed.
Lemma roomy_spaces : spaces roomy_vm dirA dirB.
Proof.
  constructor; [|cbn; lia|apply roomy_space; auto|apply roomy_space; auto].
  constructor; cbn [roomy_vm npage pageFreeList page_ref pageleft]; [lia|apply NoDup_seqZ| |reflexivity|apply (ss_ok _ _ _ twin_spaces)].
  intros p Hp%roomy_free. split; [lia|]. cbn. zcases.
Qed.
Lemma ustack_works_witness : exists s1 v2, proc_initustack (MkPvm roomy_vm dirA 5 MMAP_START 0) = Ok (USTACKTOP, s1) /\
  copy_out 1 dirA (USTACKTOP - 100000) 8192 5 (MkUst s1.(vm) (fun _ => 7)) = Ok (tt, MkUst v2 (fun _ => 7)) /\ ubyte v2.(pmem) dirA (USTACKTOP - 99999) = 7.
Proof.
  destruct (ustack_works (MkPvm roomy_vm dirA 5 MMAP_START 0) (fun _ => 7) dirB (USTACKTOP - 100000) 8192 5 1 1 roomy_spaces) as (s1 & v2 & E1 & _ & _ & E2 & U & _);
    [cbn [vm]; change (length (pageFreeList roomy_vm)) with 300%nat; lia|intros; reflexivity|vm_compute; congruence|lia|lia|vm_compute; congruence|lia|lia|intros; lia|].
  exists s1, v2. split; [exact E1|]. split; [exact E2|]. change 7 with ((fun _ : Z => 7) (8192 + 1)). apply (U (USTACKTOP - 99999)). vm_compute. split; congruence.
Defined.
