(* ===== verification/Print.v ===== *)
(** * Formatted printing

    [src/lib/vprint.c] and the two callbacks and [sprintf] of
    [src/kern/lib/printf.c].  A number is laid out in a buffer that every store
    is checked against; what the text goes to is behind an interface, with the
    console and a string in memory as its implementations. *)

From S2P Require Import Prelude StringLib Bytes.
From Stdlib Require Import ZArith Lia Bool.
From stdpp Require Import base tactics numbers list.
Open Scope Z_scope.

(** ** [print_num]: the buffer *)

(** [buf[i] = c], within the buffer. *)
Definition put (i c : Z) : M (list Z) unit := fun b =>
  if (0 <=? i) && (i <? Z.of_nat (length b)) then Ok (tt, <[Z.to_nat i := c]> b) else Err BadPtr.
Definition get (i : Z) : M (list Z) Z := fun b =>
  if (0 <=? i) && (i <? Z.of_nat (length b)) then Ok (byte_at b i, b) else Err BadPtr.
Definition digit_char (upcase : bool) (tmp : Z) : Z :=
  if tmp <=? 9 then 48 + tmp else if upcase then 65 + tmp - 10 else 97 + tmp - 10.
(** The loop [do ... while (u != 0)]; the result is [p - buf]. *)
Fixpoint digit_loop (fuel : nat) (u base : Z) (upcase : bool) (p : Z) : M (list Z) Z :=
  match fuel with
  | O => fail NoFuel
  | S fuel' =>
      put p (digit_char upcase (u mod base)) ;;;
      let u := u / base in
      if negb (u =? 0) then digit_loop fuel' u base upcase (p + 1) else ret (p + 1)
  end.
(** [n] rounds of [buf[i] = padc] from [i] on. *)
Fixpoint pad_loop (n : nat) (padc i : Z) : M (list Z) unit :=
  match n with O => ret tt | S n' => put i padc ;;; pad_loop n' padc (i + 1) end.
Fixpoint reverse_loop (fuel : nat) (begin end_ : Z) : M (list Z) unit :=
  if begin <? end_ then
    match fuel with
    | O => fail NoFuel
    | S fuel' =>
        let* tmp := get begin in
        let* x := get end_ in
        put begin x ;;;
        put end_ tmp ;;;
        reverse_loop fuel' (begin + 1) (end_ - 1)
    end
  else ret tt.
(** What [print_num] does to its buffer; the result is the length of the text. *)
Definition layout_num (u base : Z) (neg_flag : bool) (length : Z) (ladjust : bool) (padc : Z) (upcase : bool) : M (list Z) Z :=
  let* p := digit_loop 64 u base upcase 0 in
  (if neg_flag then put p 45 else ret tt) ;;;
  let actualLength := if neg_flag then p + 1 else p in
  let length := Z.max length actualLength in
  let padc := if ladjust then 32 else padc in
  (if neg_flag && negb ladjust && (padc =? 48) then
     pad_loop (Z.to_nat (length - actualLength)) padc (actualLength - 1) ;;;
     put (length - 1) 45
   else pad_loop (Z.to_nat (length - actualLength)) padc actualLength) ;;;
  let end_ := if ladjust then actualLength - 1 else length - 1 in
  reverse_loop (Z.to_nat length) 0 end_ ;;;
  ret length.

(** ** Where the text goes *)

(** The memory of the kernel, what the console has shown, and [*strBuf]. *)
Record pst : Type := MkPst { kmem : mem; console : list Z; strBuf : Z }.
Definition fmt_callback_t : Type := list Z -> M pst unit.
Definition output : fmt_callback_t := fun buf => modify (fun s => MkPst s.(kmem) (s.(console) ++ buf) s.(strBuf)).
Definition outputToStr : fmt_callback_t := fun buf => modify (fun s =>
  MkPst (mem_write s.(strBuf) (buf ++ [0]) s.(kmem)) s.(console) (s.(strBuf) + Z.of_nat (length buf))).

(** ** [vprintfmt] *)

Section Vprint.
Context (out : fmt_callback_t).
Definition rdc (a : Z) : M pst Z := gets (fun s => s.(kmem) a).
Definition out_mem (a n : Z) : M pst unit := let* l := gets (fun s => mem_read s.(kmem) a n) in out l.
Definition lift {A : Type} (r : res A) : M pst A := fun s => match r with Ok a => Ok (a, s) | Err f => Err f end.

(** [junk] is what the buffer on the stack holds before. *)
Definition print_num (junk u base : Z) (neg_flag : bool) (length : Z) (ladjust : bool) (padc : Z) (upcase : bool) : M pst unit :=
  let* r := lift (layout_num u base neg_flag length ladjust padc upcase (replicate (Z.to_nat (length + 70)) junk)) in
  let '(n, buf) := r in
  out (take (Z.to_nat n) buf).
Fixpoint out_spaces (n : nat) : M pst unit := match n with O => ret tt | S n' => out [32] ;;; out_spaces n' end.
Definition print_char (c length : Z) (ladjust : bool) : M pst unit :=
  let length := Z.max length 1 in
  if ladjust then out [c] ;;; out_spaces (Z.to_nat (length - 1))
  else out_spaces (Z.to_nat (length - 1)) ;;; out [c].
Definition print_str (fuel : nat) (s length : Z) (ladjust : bool) : M pst unit :=
  let* km := gets kmem in
  let* len := lift (strlen fuel km s) in
  let length := Z.max length len in
  if ladjust then out_mem s len ;;; out_spaces (Z.to_nat (length - len))
  else out_spaces (Z.to_nat (length - len)) ;;; out_mem s len.

(** [for (; *fmt != 0; fmt++)]: the new [fmt] and the length not yet output. *)
Fixpoint scan (fuel : nat) (s fmt length : Z) : M pst (Z * Z) :=
  match fuel with
  | O => fail NoFuel
  | S fuel' =>
      let* c := rdc fmt in
      if c =? 0 then ret (fmt, length)
      else if negb (c =? 37) then scan fuel' s (fmt + 1) (length + 1)
      else out_mem s length ;;; ret (fmt + 1, 0)
  end.
Definition is_digit (c : Z) : bool := (48 <=? c) && (c <=? 57).
Fixpoint get_width (fuel : nat) (fmt width : Z) : M pst (Z * Z) :=
  match fuel with
  | O => fail NoFuel
  | S fuel' =>
      let* c := rdc fmt in
      if is_digit c then get_width fuel' (fmt + 1) (sext32 (width * 10 + c - 48)) else ret (fmt, width)
  end.
Fixpoint get_long (fuel : nat) (fmt : Z) (long_flag : bool) : M pst (Z * bool) :=
  match fuel with
  | O => fail NoFuel
  | S fuel' => let* c := rdc fmt in if c =? 108 then get_long fuel' (fmt + 1) true else ret (fmt, long_flag)
  end.
Definition sext64 (z : Z) : Z := (z + 9223372036854775808) mod 18446744073709551616 - 9223372036854775808.
(** [va_arg]: the next argument, and the ones behind it. *)
Definition va_arg (ap : list Z) : M pst (Z * list Z) := match ap with v :: ap' => ret (v, ap') | [] => fail Undef end.
Definition as_num (long_flag : bool) (v : Z) : Z := if long_flag then sext64 v else sext32 v.
(** The base a conversion prints in. *)
Definition num_base (c : Z) : option (Z * bool) :=
  if c =? 98 then Some (2, false)
  else if (c =? 111) || (c =? 79) then Some (8, false)
  else if (c =? 117) || (c =? 85) then Some (10, false)
  else if (c =? 120) || (c =? 112) then Some (16, false)
  else if c =? 88 then Some (16, true)
  else None.
(** The [switch]: the arguments left, and whether [fmt] has to step back. *)
Definition convert (fuel : nat) (junk c fmt width : Z) (long_flag ladjust : bool) (padc : Z) (ap : list Z) : M pst (list Z * Z) :=
  if (c =? 100) || (c =? 68) then
    let* a := va_arg ap in
    let num := as_num long_flag (fst a) in
    let neg_flag := num <? 0 in
    let num := if neg_flag then sext64 (- num) else num in
    print_num junk (wrap64 num) 10 neg_flag width ladjust padc false ;;; ret (snd a, fmt)
  else
    match num_base c with
    | Some (base, upcase) =>
        let* a := va_arg ap in
        print_num junk (wrap64 (as_num long_flag (fst a))) base false width ladjust padc upcase ;;; ret (snd a, fmt)
    | None =>
        if c =? 99 then let* a := va_arg ap in print_char (wrap8 (fst a)) width ladjust ;;; ret (snd a, fmt)
        else if c =? 115 then let* a := va_arg ap in print_str fuel (fst a) width ladjust ;;; ret (snd a, fmt)
        else if c =? 0 then ret (ap, fmt - 1)
        else out_mem fmt 1 ;;; ret (ap, fmt)
    end.
Fixpoint vprintfmt (fuel : nat) (junk fmt : Z) (ap : list Z) : M pst unit :=
  match fuel with
  | O => fail NoFuel
  | S fuel' =>
      let* sc := scan fuel fmt fmt 0 in
      (* [s] is where the scan began; nothing is left when it met a [%] *)
      out_mem fmt (snd sc) ;;;
      let* c := rdc (fst sc) in
      if c =? 0 then ret tt
      else
        let ladjust := c =? 45 in
        let padc := if c =? 48 then 48 else 32 in
        let fmt := if (c =? 45) || (c =? 48) then fst sc + 1 else fst sc in
        let* w := get_width fuel fmt 0 in
        let* l := get_long fuel (fst w) false in
        let* c := rdc (fst l) in
        let* r := convert fuel junk c (fst l) (snd w) (snd l) ladjust padc ap in
        vprintfmt fuel' junk (snd r + 1) (fst r)
  end.
End Vprint.

(** [sprintf]; [printf] is [vprintfmt] with [output] under a lock. *)
Definition sprintf (fuel : nat) (junk buf fmt : Z) (ap : list Z) : M pst unit :=
  modify (fun s => MkPst s.(kmem) s.(console) buf) ;;;
  vprintfmt outputToStr fuel junk fmt ap.

(** ** Digits *)

(** The digits of a number, the lowest first, and the number they stand for. *)
Fixpoint digits (fuel : nat) (u base : Z) : list Z :=
  match fuel with O => [] | S f => u mod base :: if u / base =? 0 then [] else digits f (u / base) base end.
Fixpoint digits_val (base : Z) (l : list Z) : Z := match l with [] => 0 | d :: l' => d + base * digits_val base l' end.
Lemma digits_ok fuel base : 2 <= base -> forall u, 0 <= u < base ^ Z.of_nat fuel -> (0 < fuel)%nat ->
  digits_val base (digits fuel u base) = u /\ Forall (fun d => 0 <= d < base) (digits fuel u base) /\ (length (digits fuel u base) <= fuel)%nat.
Proof.
  intros Hb. induction fuel as [|f IH]; intros u Hu Hf; [lia|]. rewrite Nat2Z.inj_succ, Z.pow_succ_r in Hu by lia. cbn [digits digits_val length].
  pose proof (Z.mod_pos_bound u base ltac:(lia)) as Hm. pose proof (Z.div_mod u base ltac:(lia)) as Hdm. destruct (Z.eqb_spec (u / base) 0) as [E|N].
  - cbn. rewrite E in Hdm. split; [lia|]. split; [constructor; [lia|constructor]|lia].
  - assert (Hd : 0 <= u / base < base ^ Z.of_nat f) by (split; [apply Z.div_pos; lia|apply Z.div_lt_upper_bound; lia]).
    destruct f as [|f]; [cbn in Hd; lia|]. destruct (IH (u / base) Hd ltac:(lia)) as (V & F & L). rewrite V. split; [lia|]. split; [now constructor|lia].
Qed.

(** ** The buffer *)

Lemma put_run pre x post i c : i = Z.of_nat (length pre) -> put i c (pre ++ x :: post) = Ok (tt, pre ++ c :: post).
Proof.
  intros ->. unfold put. rewrite length_app. cbn [length]. rewrite (proj2 (andb_true_iff _ _)) by (split; zcases). rewrite Nat2Z.id.
  replace (length pre) with (length pre + 0)%nat by lia. now rewrite insert_app_r.
Qed.
Lemma get_at pre x post i : i = Z.of_nat (length pre) -> get i (pre ++ x :: post) = Ok (x, pre ++ x :: post).
Proof.
  intros ->. unfold get. rewrite length_app. cbn [length]. rewrite (proj2 (andb_true_iff _ _)) by (split; zcases). unfold byte_at. rewrite Nat2Z.id. now rewrite nth_middle.
Qed.
Lemma pad_loop_run n c : forall pre old i, i = Z.of_nat (length pre) -> (n <= length old)%nat ->
  pad_loop n c i (pre ++ old) = Ok (tt, pre ++ replicate n c ++ drop n old).
Proof.
  induction n as [|n IH]; intros pre old i Hi Hn; cbn [pad_loop replicate app drop]; [reflexivity|]. destruct old as [|x old]; [cbn in Hn; lia|]. cbn in Hn.
  rewrite (bind_run _ _ _ _ _ (put_run pre x old i c Hi)). rewrite (cons_middle c pre old). rewrite app_assoc, IH by (rewrite ?length_app; cbn [length]; lia).
  now rewrite <- app_assoc.
Qed.
Lemma digit_loop_run base up : 2 <= base -> forall fuel u pre old i, i = Z.of_nat (length pre) -> 0 <= u < base ^ Z.of_nat fuel -> (0 < fuel)%nat -> (fuel <= length old)%nat ->
  digit_loop fuel u base up i (pre ++ old) =
    Ok (i + Z.of_nat (length (digits fuel u base)), pre ++ map (digit_char up) (digits fuel u base) ++ drop (length (digits fuel u base)) old).
Proof.
  intros Hb. induction fuel as [|f IH]; intros u pre old i Hi Hu Hf Hn; [lia|]. destruct old as [|x old]; [cbn in Hn; lia|]. cbn [length] in Hn.
  rewrite Nat2Z.inj_succ, Z.pow_succ_r in Hu by lia. cbn [digit_loop digits length map app drop]. rewrite (bind_run _ _ _ _ _ (put_run pre x old i _ Hi)).
  destruct (Z.eqb_spec (u / base) 0) as [E|N]; cbn [negb]; [cbn [length map app]; now rewrite drop_0|].
  assert (Hd : 0 <= u / base < base ^ Z.of_nat f) by (split; [apply Z.div_pos; lia|apply Z.div_lt_upper_bound; lia]).
  destruct f as [|f]; [cbn in Hd; lia|]. rewrite (cons_middle _ pre old), app_assoc, IH; try (rewrite ?length_app; cbn [length]; lia).
  rewrite <- app_assoc. cbn [app]. do 2 f_equal. lia.
Qed.
Lemma reverse_loop_run fuel : forall pre x post i j, i = Z.of_nat (length pre) -> j = i + Z.of_nat (length x) - 1 -> (length x <= 2 * fuel + 1)%nat ->
  reverse_loop fuel i j (pre ++ x ++ post) = Ok (tt, pre ++ rev x ++ post).
Proof.
  induction fuel as [|f IH]; intros pre x post i j Hi Hj Hn; cbn [reverse_loop].
  - destruct x as [|a [|b x]]; cbn [length] in *; [| |lia]; rewrite (proj2 (Z.ltb_ge _ _)) by lia; reflexivity.
  - destruct x as [|a x]; [cbn [length] in *; rewrite (proj2 (Z.ltb_ge _ _)) by lia; reflexivity|].
    destruct (List.exists_last (l := a :: x)) as (y & b & E); [discriminate|]. destruct y as [|a' y].
    { rewrite E in *. cbn [length app] in *. rewrite (proj2 (Z.ltb_ge _ _)) by lia. reflexivity. }
    cbn [app] in E. injection E as <- ->. rewrite length_cons, length_app in *. cbn [length] in *. rewrite (proj2 (Z.ltb_lt _ _)) by lia.
    replace (pre ++ (a :: y ++ [b]) ++ post) with (pre ++ a :: y ++ b :: post) by (cbn [app]; now rewrite <- app_assoc).
    rewrite (bind_run _ _ _ _ _ (get_at pre a (y ++ b :: post) i Hi)). replace (pre ++ a :: y ++ b :: post) with ((pre ++ a :: y) ++ b :: post) by now rewrite <- app_assoc.
    assert (Hj' : j = Z.of_nat (length (pre ++ a :: y))) by (rewrite length_app; cbn [length]; lia).
    rewrite (bind_run _ _ _ _ _ (get_at (pre ++ a :: y) b post j Hj')). replace ((pre ++ a :: y) ++ b :: post) with (pre ++ a :: y ++ b :: post) by now rewrite <- app_assoc.
    rewrite (bind_run _ _ _ _ _ (put_run pre a (y ++ b :: post) i b Hi)). replace (pre ++ b :: y ++ b :: post) with ((pre ++ b :: y) ++ b :: post) by now rewrite <- app_assoc.
    assert (Hj2 : j = Z.of_nat (length (pre ++ b :: y))) by (rewrite length_app; cbn [length]; lia).
    rewrite (bind_run _ _ _ _ _ (put_run (pre ++ b :: y) b post j a Hj2)). replace ((pre ++ b :: y) ++ a :: post) with ((pre ++ [b]) ++ y ++ a :: post) by now rewrite <- !app_assoc.
    rewrite IH by (rewrite ?length_app; cbn [length]; lia). cbn [rev]. rewrite rev_app_distr. cbn [rev app]. now rewrite <- !app_assoc.
Qed.

(** ** What [print_num] prints *)

(** The text of a number: sign and digits, filled up to the width in front, or
    between sign and digits with zeros, or behind when left adjusted. *)
Definition num_digits (u base : Z) (upcase : bool) : list Z := map (digit_char upcase) (rev (digits 64 u base)).
Definition num_text (u base : Z) (neg_flag : bool) (width : Z) (ladjust : bool) (padc : Z) (upcase : bool) : list Z :=
  let ds := num_digits u base upcase in
  let sign := if neg_flag then [45] else [] in
  let fill := Z.to_nat (width - Z.of_nat (length (sign ++ ds))) in
  if ladjust then sign ++ ds ++ replicate fill 32
  else if padc =? 48 then sign ++ replicate fill 48 ++ ds
  else replicate fill padc ++ sign ++ ds.

(** A laid out text [d], reversed, with [k] fillers. *)
Lemma fill_back k c (d rest : list Z) : (k <= length rest)%nat ->
  exists rest', (pad_loop k c (Z.of_nat (length d)) ;;; reverse_loop (length d + k) 0 (Z.of_nat (length d) - 1)) (d ++ rest) = Ok (tt, rev d ++ replicate k c ++ rest').
Proof.
  intros Hk. exists (drop k rest). rewrite (bind_run _ _ _ _ _ (pad_loop_run k c d rest _ eq_refl Hk)).
  exact (reverse_loop_run (length d + k) [] d (replicate k c ++ drop k rest) 0 (Z.of_nat (length d) - 1) eq_refl ltac:(lia) ltac:(lia)).
Qed.
Lemma rev_replicate k (c : Z) : rev (replicate k c) = replicate k c.
Proof. induction k as [|k IH]; [reflexivity|]. cbn [replicate rev]. rewrite IH. symmetry. apply replicate_cons_app. Qed.
Lemma fill_front k c (d rest : list Z) : (k <= length rest)%nat ->
  exists rest', (pad_loop k c (Z.of_nat (length d)) ;;; reverse_loop (length d + k) 0 (Z.of_nat (length d + k) - 1)) (d ++ rest) = Ok (tt, replicate k c ++ rev d ++ rest').
Proof.
  intros Hk. exists (drop k rest). rewrite (bind_run _ _ _ _ _ (pad_loop_run k c d rest _ eq_refl Hk)). rewrite app_assoc.
  pose proof (reverse_loop_run (length d + k) [] (d ++ replicate k c) (drop k rest) 0 (Z.of_nat (length d + k) - 1) eq_refl) as H. cbn [app] in H.
  rewrite H by (rewrite length_app, length_replicate; lia). now rewrite rev_app_distr, rev_replicate, <- app_assoc.
Qed.
Lemma fill_middle k (d rest : list Z) : (k < length rest)%nat ->
  exists rest', (pad_loop k 48 (Z.of_nat (length d)) ;;; put (Z.of_nat (length d + k)) 45 ;;; reverse_loop (S (length d + k)) 0 (Z.of_nat (length d + k))) (d ++ rest)
    = Ok (tt, 45 :: replicate k 48 ++ rev d ++ rest').
Proof.
  intros Hk. rewrite (bind_run _ _ _ _ _ (pad_loop_run k 48 d rest _ eq_refl ltac:(lia))). destruct (drop k rest) as [|x rest'] eqn:E.
  { apply (f_equal length) in E. rewrite length_drop in E. cbn in E. lia. }
  exists rest'. rewrite app_assoc, (bind_run _ _ _ _ _ (put_run (d ++ replicate k 48) x rest' (Z.of_nat (length d + k)) 45 ltac:(rewrite length_app, length_replicate; lia))).
  pose proof (reverse_loop_run (S (length d + k)) [] ((d ++ replicate k 48) ++ [45]) rest' 0 (Z.of_nat (length d + k)) eq_refl) as H. cbn [app] in H.
  replace ((d ++ replicate k 48) ++ 45 :: rest') with (((d ++ replicate k 48) ++ [45]) ++ rest') by now rewrite <- !app_assoc.
  rewrite H by (rewrite !length_app, length_replicate; cbn [length]; lia). rewrite !rev_app_distr, rev_replicate. cbn [rev app]. now rewrite <- app_assoc.
Qed.
Definition u64 (u : Z) : Prop := 0 <= u < 18446744073709551616.
Lemma digits_64 u base : u64 u -> 2 <= base -> 0 <= u < base ^ Z.of_nat 64.
Proof. intros Hu Hb. pose proof (Z.pow_le_mono_l 2 base 64 ltac:(lia)) as H. change (2 ^ 64) with 18446744073709551616 in H. unfold u64 in Hu. change (Z.of_nat 64) with 64. lia. Qed.
Lemma fill_run (ladjust : bool) c (d rest : list Z) w : 0 <= w -> let k := Z.to_nat (w - Z.of_nat (length d)) in (k <= length rest)%nat ->
  let A := Z.of_nat (length d) in let L := Z.max w A in
  exists rest', (pad_loop (Z.to_nat (L - A)) c A ;;; reverse_loop (Z.to_nat L) 0 (if ladjust then A - 1 else L - 1) ;;; ret L) (d ++ rest) =
    Ok (Z.of_nat (length d + k), (if ladjust then rev d ++ replicate k c else replicate k c ++ rev d) ++ rest').
Proof.
  intros Hw k Hk A L. assert (El : L = Z.of_nat (length d + k)) by lia. replace (Z.to_nat (L - A)) with k by lia. rewrite El, Nat2Z.id, bind_assoc. unfold A.
  destruct ladjust; [destruct (fill_back k c d rest Hk) as (r & E)|destruct (fill_front k c d rest Hk) as (r & E)]; exists r; rewrite (bind_run _ _ _ _ _ E), <- app_assoc; reflexivity.
Qed.
Lemma fill_zero_run (d rest : list Z) w : 0 <= w -> let k := Z.to_nat (w - Z.of_nat (length d) - 1) in (k < length rest)%nat ->
  let A := Z.of_nat (length d) + 1 in let L := Z.max w A in
  exists rest', ((pad_loop (Z.to_nat (L - A)) 48 (A - 1) ;;; put (L - 1) 45) ;;; reverse_loop (Z.to_nat L) 0 (L - 1) ;;; ret L) (d ++ rest) =
    Ok (Z.of_nat (S (length d + k)), (45 :: replicate k 48 ++ rev d) ++ rest').
Proof.
  intros Hw k Hk A L. assert (El : L = Z.of_nat (S (length d + k))) by lia. replace (Z.to_nat (L - A)) with k by lia. replace (A - 1) with (Z.of_nat (length d)) by lia.
  rewrite El, Nat2Z.id, <- !bind_assoc. replace (Z.of_nat (S (length d + k)) - 1) with (Z.of_nat (length d + k)) by lia.
  destruct (fill_middle k d rest Hk) as (r & E). exists r. apply bind_ok in E as (u1 & s1 & E1 & E). apply bind_ok in E as (u2 & s2 & E2 & E).
  rewrite (bind_run _ _ _ _ _ E1), (bind_run _ _ _ _ _ E2), (bind_run _ _ _ _ _ E). cbn [app]. now rewrite <- app_assoc.
Qed.
Lemma layout_num_run u base neg w ladjust padc upcase (b : list Z) : u64 u -> 2 <= base -> 0 <= w -> Z.of_nat (length b) = w + 70 ->
  let text := num_text u base neg w ladjust padc upcase in
  exists b', layout_num u base neg w ladjust padc upcase b = Ok (Z.of_nat (length text), text ++ b').
Proof.
  intros Hu Hb Hw Hlen. pose proof (digits_64 u base Hu Hb) as Hub. destruct (digits_ok 64 base Hb u Hub ltac:(lia)) as (_ & _ & Hl64).
  unfold layout_num. pose proof (digit_loop_run base upcase Hb 64 u [] b 0 eq_refl Hub ltac:(lia) ltac:(lia)) as E. cbn [app] in E. rewrite (bind_run _ _ _ _ _ E).
  cbv zeta. unfold num_text, num_digits. rewrite map_rev. set (ds := digits 64 u base) in *. set (D := map (digit_char upcase) ds). assert (HD : length D = length ds) by apply length_map.
  set (rest := drop (length ds) b). assert (Hrest : (length rest = length b - length ds)%nat) by apply length_drop. rewrite Z.add_0_l, <- HD. set (k := Z.to_nat (w - _)).
  destruct neg; cbn [app andb] in *.
  - clearbody rest. destruct rest as [|x rest']; cbn [length] in Hrest; [lia|]. rewrite (bind_run _ _ _ _ _ (put_run D x rest' _ 45 eq_refl)).
    assert (Hk : k = Z.to_nat (w - Z.of_nat (length D) - 1)) by (unfold k; rewrite length_cons, length_rev; lia). clearbody k.
    destruct (negb ladjust && ((if ladjust then 32 else padc) =? 48)) eqn:Ez.
    + destruct ladjust; [discriminate|]. cbn [negb andb] in Ez. rewrite Ez. apply Z.eqb_eq in Ez as ->.
      destruct (fill_zero_run D (45 :: rest') w Hw) as (r & E'); [cbn [length]; lia|]. exists r. rewrite E'. cbn [length]. rewrite length_app, length_replicate, length_rev.
      rewrite <- Hk. do 3 f_equal. lia.
    + destruct (fill_run ladjust (if ladjust then 32 else padc) (D ++ [45]) rest' w Hw) as (r & E'); [rewrite length_app; cbn [length]; lia|].
      rewrite length_app in E'. cbn [length] in E'. rewrite Nat2Z.inj_add in E'. change (Z.of_nat 1) with 1 in E'. rewrite <- app_assoc in E'. cbn [app] in E'. exists r. rewrite E'.
      rewrite rev_app_distr. cbn [rev app]. replace (Z.to_nat (w - (Z.of_nat (length D) + 1))) with k by lia. destruct ladjust; cbn [negb andb] in Ez; [|rewrite Ez]; f_equal; f_equal;
        rewrite ?length_cons, ?length_app, ?length_cons, ?length_app, ?length_replicate, ?length_rev; lia.
  - rewrite (bind_run (ret tt) _ _ tt (D ++ rest) eq_refl). assert (Hk : k = Z.to_nat (w - Z.of_nat (length D))) by (unfold k; rewrite length_rev; lia). clearbody k.
    destruct (fill_run ladjust (if ladjust then 32 else padc) D rest w Hw) as (r & E'); [lia|]. exists r. rewrite E', <- Hk.
    destruct ladjust; [|destruct (Z.eqb_spec padc 48) as [->|]]; f_equal; f_equal; rewrite ?length_app, ?length_replicate, ?length_rev; lia.
Qed.

(** ** The interface of a sink *)

(** A callback that takes up to [cap] bytes of text in order and leaves the
    memory [good] alone, which holds the format and the strings. *)
Class Sink (out : fmt_callback_t) (cap : nat) (m0 : mem) (good : Z -> Prop) : Type := {
  sk_inv : list Z -> pst -> Prop;
  sk_mem : forall t s, sk_inv t s -> forall x, good x -> s.(kmem) x = m0 x;
  sk_out : forall t l s, sk_inv t s -> (length (t ++ l) <= cap)%nat -> exists s', out l s = Ok (tt, s') /\ sk_inv (t ++ l) s' }.

(** ** What a format means *)

Inductive flag : Type := NoFlag | Minus | Zero.
Definition flag_text (f : flag) : list Z := match f with NoFlag => [] | Minus => [45] | Zero => [48] end.
(** [%], a flag, the digits of a width, a number of [l]s and a letter. *)
Record conv : Type := MkConv { cv_flag : flag; cv_width : list Z; cv_longs : nat; cv_char : Z }.
Definition conv_tail (c : conv) : list Z := replicate c.(cv_longs) 108 ++ [c.(cv_char)].
Definition conv_text (c : conv) : list Z := 37 :: flag_text c.(cv_flag) ++ map (Z.add 48) c.(cv_width) ++ conv_tail c.
Definition width_of (ds : list Z) : Z := fold_left (fun w d => w * 10 + d) ds 0.
Definition ladjust_of (c : conv) : bool := match c.(cv_flag) with Minus => true | _ => false end.
Definition padc_of (c : conv) : Z := match c.(cv_flag) with Zero => 48 | _ => 32 end.
Definition long_of (c : conv) : bool := negb (c.(cv_longs) =? 0)%nat.
Record conv_ok (c : conv) : Prop := {
  co_digits : Forall (fun d => 0 <= d <= 9) c.(cv_width);
  co_width : width_of c.(cv_width) < 2147483648;
  co_char : c.(cv_char) <> 0 /\ is_digit c.(cv_char) = false /\ c.(cv_char) <> 108;
  co_first : c.(cv_flag) = NoFlag -> match c.(cv_width) with d :: _ => d <> 0 | [] => c.(cv_longs) = O -> c.(cv_char) <> 45 end }.
(** The text of a conversion and the arguments behind it; strings are shorter
    than [n]. *)
Section Meaning.
Context (m0 : mem) (good : Z -> Prop) (n : nat).
Fixpoint holds (a : Z) (l : list Z) : Prop := match l with [] => True | x :: l' => m0 a = x /\ good a /\ holds (a + 1) l' end.
Definition spaces (k : Z) : list Z := replicate (Z.to_nat k) 32.
Definition aligned (ladjust : bool) (w : Z) (l : list Z) : list Z :=
  let fill := spaces (w - Z.of_nat (length l)) in if ladjust then l ++ fill else fill ++ l.
Inductive renders (c : conv) : list Z -> list Z -> list Z -> Prop :=
| R_dec v ap : c.(cv_char) = 100 \/ c.(cv_char) = 68 -> let num := as_num (long_of c) v in
    renders c (v :: ap) ap (num_text (Z.abs num) 10 (num <? 0) (width_of c.(cv_width)) (ladjust_of c) (padc_of c) false)
| R_num v ap base up : num_base c.(cv_char) = Some (base, up) ->
    renders c (v :: ap) ap (num_text (wrap64 (as_num (long_of c) v)) base false (width_of c.(cv_width)) (ladjust_of c) (padc_of c) up)
| R_char v ap : c.(cv_char) = 99 -> renders c (v :: ap) ap (aligned (ladjust_of c) (width_of c.(cv_width)) [wrap8 v])
| R_str v ap l : c.(cv_char) = 115 -> Forall (fun x => x <> 0) l -> holds v (l ++ [0]) -> (length l < n)%nat ->
    renders c (v :: ap) ap (aligned (ladjust_of c) (width_of c.(cv_width)) l)
| R_other ap : c.(cv_char) ∉ [100; 68; 98; 111; 79; 117; 85; 120; 112; 88; 99; 115] -> renders c ap ap [c.(cv_char)].
(** A format is a list of conversions, each behind some plain text. *)
Definition plain (l : list Z) : Prop := Forall (fun c => c <> 0 /\ c <> 37) l.
Fixpoint format_text (f : list (list Z * conv)) (last : list Z) : list Z :=
  match f with [] => last | (lit, c) :: f' => lit ++ conv_text c ++ format_text f' last end.
Inductive formats (last : list Z) : list (list Z * conv) -> list Z -> list Z -> Prop :=
| F_end ap : plain last -> formats last [] ap last
| F_conv lit c f ap ap' t t' : plain lit -> conv_ok c -> renders c ap ap' t -> formats last f ap' t' -> formats last ((lit, c) :: f) ap (lit ++ t ++ t').
End Meaning.

(** ** [vprintfmt] prints what the format means *)

Section Prints.
Context (out : fmt_callback_t) (cap n : nat) (m0 : mem) (good : Z -> Prop) {SK : Sink out cap m0 good}.

Lemma holds_app a l1 l2 : holds m0 good a (l1 ++ l2) <-> holds m0 good a l1 /\ holds m0 good (a + Z.of_nat (length l1)) l2.
Proof using.
  revert a. induction l1 as [|x l1 IH]; intros a; cbn [app holds length]; [rewrite Z.add_0_r; tauto|]. rewrite IH. replace (a + Z.of_nat (S (length l1))) with (a + 1 + Z.of_nat (length l1)) by lia. tauto.
Qed.
Lemma holds_mem_read t s l : sk_inv t s -> forall a k, holds m0 good (a + k) l -> map (fun i => s.(kmem) (a + i)) (seqZ k (Z.of_nat (length l))) = l.
Proof using.
  intros HJ a. induction l as [|x l IH]; intros k H; [reflexivity|]. cbn [holds] in H. destruct H as (Hx & Hg & H). rewrite seqZ_cons by (cbn; lia). cbn [map].
  rewrite (sk_mem t s HJ _ Hg), Hx. f_equal. replace (Z.pred _) with (Z.of_nat (length l)) by (cbn [length]; lia). apply IH. now replace (a + Z.succ k) with (a + k + 1) by lia.
Qed.
Lemma out_mem_run t s a l : sk_inv t s -> holds m0 good a l -> (length (t ++ l) <= cap)%nat -> exists s', out_mem out a (Z.of_nat (length l)) s = Ok (tt, s') /\ sk_inv (t ++ l) s'.
Proof using.
  intros HJ H Hc. unfold out_mem, mem_read. rewrite (bind_run (gets _) _ s _ s eq_refl). rewrite (holds_mem_read t s l HJ a 0) by now rewrite Z.add_0_r. now apply sk_out.
Qed.
Lemma rdc_run t s a x : sk_inv t s -> m0 a = x -> good a -> rdc a s = Ok (x, s).
Proof using. intros HJ <- Hg. unfold rdc, gets. now rewrite (sk_mem t s HJ a Hg). Qed.
Lemma out_spaces_run k : forall t s, sk_inv t s -> (length (t ++ replicate k 32%Z) <= cap)%nat -> exists s', out_spaces out k s = Ok (tt, s') /\ sk_inv (t ++ replicate k 32) s'.
Proof using.
  induction k as [|k IH]; intros t s HJ Hc; cbn [out_spaces replicate] in *; [exists s; now rewrite app_nil_r|].
  rewrite length_app in Hc. cbn [length] in Hc. rewrite length_replicate in Hc. destruct (sk_out t [32] s HJ) as (s1 & E & HJ1); [rewrite length_app; cbn; lia|].
  rewrite (bind_run _ _ _ _ _ E). destruct (IH (t ++ [32]) s1 HJ1) as (s2 & E2 & HJ2); [rewrite !length_app, length_replicate; cbn; lia|]. exists s2. split; [exact E2|]. now rewrite <- app_assoc in HJ2.
Qed.

(** The scan for the next [%]. *)
Lemma scan_percent lit : forall fuel t s s0 a k, sk_inv t s -> plain lit -> holds m0 good a (lit ++ [37]) -> (length lit < fuel)%nat ->
  scan out fuel s0 a k s = (out_mem out s0 (k + Z.of_nat (length lit)) ;;; ret (a + Z.of_nat (length lit) + 1, 0)) s.
Proof using.
  induction lit as [|c lit IH]; intros fuel t s s0 a k HJ Hp H Hf; (destruct fuel as [|fuel]; [lia|]); cbn [scan app holds length] in *; destruct H as (Hc & Hg & H); rewrite (bind_run _ _ _ _ _ (rdc_run t s a _ HJ Hc Hg)).
  - cbn [Z.eqb negb]. now rewrite !Z.add_0_r.
  - apply Forall_cons in Hp as ((H0 & H37) & Hp). rewrite (proj2 (Z.eqb_neq c 0) H0), (proj2 (Z.eqb_neq c 37) H37). cbn [negb].
    rewrite (IH fuel t s s0 (a + 1) (k + 1) HJ Hp H ltac:(lia)).
    now replace (k + 1 + Z.of_nat (length lit)) with (k + Z.of_nat (S (length lit))) by lia; replace (a + 1 + Z.of_nat (length lit)) with (a + Z.of_nat (S (length lit))) by lia.
Qed.
Lemma scan_end lit : forall fuel t s s0 a k, sk_inv t s -> plain lit -> holds m0 good a (lit ++ [0]) -> (length lit < fuel)%nat ->
  scan out fuel s0 a k s = Ok ((a + Z.of_nat (length lit), k + Z.of_nat (length lit)), s).
Proof using.
  induction lit as [|c lit IH]; intros fuel t s s0 a k HJ Hp H Hf; (destruct fuel as [|fuel]; [lia|]); cbn [scan app holds length] in *; destruct H as (Hc & Hg & H); rewrite (bind_run _ _ _ _ _ (rdc_run t s a _ HJ Hc Hg)).
  - cbn [Z.eqb]. now rewrite !Z.add_0_r.
  - apply Forall_cons in Hp as ((H0 & H37) & Hp). rewrite (proj2 (Z.eqb_neq c 0) H0), (proj2 (Z.eqb_neq c 37) H37). cbn [negb].
    rewrite (IH fuel t s s0 (a + 1) (k + 1) HJ Hp H ltac:(lia)).
    now replace (k + 1 + Z.of_nat (length lit)) with (k + Z.of_nat (S (length lit))) by lia; replace (a + 1 + Z.of_nat (length lit)) with (a + Z.of_nat (S (length lit))) by lia.
Qed.
(** Width and [l]s. *)
Lemma width_grow ds : forall w, Forall (fun d => 0 <= d <= 9) ds -> 0 <= w -> w <= fold_left (fun w d => w * 10 + d) ds w.
Proof using. induction ds as [|d ds IH]; intros w Hd Hw; cbn [fold_left]; [lia|]. apply Forall_cons in Hd as [Hd0 Hd]. specialize (IH (w * 10 + d) Hd ltac:(lia)). lia. Qed.
Lemma width_run ds c : is_digit c = false -> forall fuel t s a w, sk_inv t s -> Forall (fun d => 0 <= d <= 9) ds -> 0 <= w -> fold_left (fun w d => w * 10 + d) ds w < 2147483648 ->
  holds m0 good a (map (Z.add 48) ds ++ [c]) -> (length ds < fuel)%nat -> get_width fuel a w s = Ok ((a + Z.of_nat (length ds), fold_left (fun w d => w * 10 + d) ds w), s).
Proof using.
  intros Hc. induction ds as [|d ds IH]; intros fuel t s a w HJ Hd Hw Hm H Hf; (destruct fuel as [|fuel]; [lia|]); cbn [get_width map app holds length fold_left] in *; destruct H as (Hx & Hg & H); rewrite (bind_run _ _ _ _ _ (rdc_run t s a _ HJ Hx Hg)).
  - rewrite Hc, Z.add_0_r. reflexivity.
  - apply Forall_cons in Hd as [Hd0 Hd]. assert (is_digit (48 + d) = true) as -> by (unfold is_digit; rewrite andb_true_iff; split; zcases).
    pose proof (width_grow ds (w * 10 + d) Hd ltac:(lia)) as Hg2. replace (w * 10 + (48 + d) - 48) with (w * 10 + d) by lia.
    assert (Es : sext32 (w * 10 + d) = w * 10 + d) by (unfold sext32; zlia). rewrite Es. rewrite (IH fuel t s (a + 1) (w * 10 + d)) by (auto; lia). do 3 f_equal; lia.
Qed.
Lemma long_run k c : c <> 108 -> forall fuel t s a b, sk_inv t s -> holds m0 good a (replicate k 108 ++ [c]) -> (k < fuel)%nat ->
  get_long fuel a b s = Ok ((a + Z.of_nat k, if (k =? 0)%nat then b else true), s).
Proof using.
  intros Hc. induction k as [|k IH]; intros fuel t s a b HJ H Hf; (destruct fuel as [|fuel]; [lia|]); cbn [get_long replicate app holds] in *; destruct H as (Hx & Hg & H); rewrite (bind_run _ _ _ _ _ (rdc_run t s a _ HJ Hx Hg)).
  - rewrite (proj2 (Z.eqb_neq c 108) Hc), Z.add_0_r. reflexivity.
  - cbn [Z.eqb Pos.eqb]. rewrite (IH fuel t s (a + 1) true HJ H ltac:(lia)). cbn [Nat.eqb]. destruct (k =? 0)%nat; do 3 f_equal; lia.
Qed.
(** The conversions. *)
Lemma print_num_run t s junk u base neg w ladjust padc up : sk_inv t s -> u64 u -> 2 <= base -> 0 <= w -> (length (t ++ num_text u base neg w ladjust padc up) <= cap)%nat ->
  exists s', print_num out junk u base neg w ladjust padc up s = Ok (tt, s') /\ sk_inv (t ++ num_text u base neg w ladjust padc up) s'.
Proof using.
  intros HJ Hu Hb Hw Hc. unfold print_num. destruct (layout_num_run u base neg w ladjust padc up (replicate (Z.to_nat (w + 70)) junk) Hu Hb Hw) as (b' & E); [rewrite length_replicate; lia|].
  unfold lift. rewrite E. unfold bind. rewrite Nat2Z.id, take_app_length. now apply sk_out.
Qed.
Lemma aligned_run t s (put_text : M pst unit) ladjust w l : sk_inv t s -> (forall t s, sk_inv t s -> (length (t ++ l) <= cap)%nat -> exists s', put_text s = Ok (tt, s') /\ sk_inv (t ++ l) s') ->
  (length (t ++ aligned ladjust w l) <= cap)%nat -> let k := Z.to_nat (w - Z.of_nat (length l)) in
  exists s', (if ladjust then put_text ;;; out_spaces out k else out_spaces out k ;;; put_text) s = Ok (tt, s') /\ sk_inv (t ++ aligned ladjust w l) s'.
Proof using.
  intros HJ Hput Hc k. unfold aligned, spaces in *. fold k in Hc |- *. destruct ladjust; rewrite ?length_app, ?length_replicate in Hc.
  - destruct (Hput t s HJ) as (s1 & E1 & J1); [rewrite length_app; lia|]. rewrite (bind_run _ _ _ _ _ E1).
    destruct (out_spaces_run k (t ++ l) s1 J1) as (s2 & E2 & J2); [rewrite !length_app, length_replicate; lia|]. exists s2. split; [exact E2|]. now rewrite app_assoc.
  - destruct (out_spaces_run k t s HJ) as (s1 & E1 & J1); [rewrite length_app, length_replicate; lia|]. rewrite (bind_run _ _ _ _ _ E1).
    destruct (Hput _ s1 J1) as (s2 & E2 & J2); [rewrite !length_app, length_replicate; lia|]. exists s2. split; [exact E2|]. now rewrite app_assoc.
Qed.
Lemma holds_cstr t s l : sk_inv t s -> forall a, Forall (fun x => x <> 0) l -> holds m0 good a (l ++ [0]) -> cstr s.(kmem) a l.
Proof using.
  intros HJ. induction l as [|x l IH]; intros a Hl H; cbn [app holds] in H; destruct H as (Hx & Hg & H).
  - apply cstr_nil. now rewrite (sk_mem t s HJ a Hg).
  - apply Forall_cons in Hl as [Hx0 Hl]. apply cstr_cons. split; [exact Hx0|]. split; [now rewrite (sk_mem t s HJ a Hg)|]. now apply IH.
Qed.
Lemma as_num_range b v : -9223372036854775808 <= as_num b v < 9223372036854775808.
Proof using. unfold as_num, sext64, sext32. destruct b; zlia. Qed.
Lemma abs_num num : -9223372036854775808 <= num < 9223372036854775808 -> wrap64 (if num <? 0 then sext64 (- num) else num) = Z.abs num /\ u64 (Z.abs num).
Proof using. intros H. unfold wrap64, sext64, u64. destruct (Z.ltb_spec num 0); split; zlia. Qed.
Lemma convert_run c t s fuel junk fmt ap ap' tx : sk_inv t s -> conv_ok c -> renders m0 good n c ap ap' tx -> (n <= fuel)%nat -> holds m0 good fmt [c.(cv_char)] -> (length (t ++ tx) <= cap)%nat ->
  exists s', convert out fuel junk c.(cv_char) fmt (width_of c.(cv_width)) (long_of c) (ladjust_of c) (padc_of c) ap s = Ok ((ap', fmt), s') /\ sk_inv (t ++ tx) s'.
Proof using.
  intros HJ [Hd Hw (H0 & _) _] Hr Hn Hh Hc. assert (Hw0 : 0 <= width_of c.(cv_width)) by (apply width_grow; auto; lia). unfold convert.
  destruct Hr as [v ap Hch num|v ap base up Hb|v ap Hch|v ap l Hch Hl Hs Hln|ap Hch].
  - rewrite (proj2 (orb_true_iff _ _)) by (destruct Hch; [left|right]; now apply Z.eqb_eq). rewrite (bind_run (va_arg (v :: ap)) _ s (v, ap) s eq_refl). cbn [fst snd]. fold num.
    destruct (abs_num num (as_num_range _ _)) as [-> Hu]. destruct (print_num_run t s junk (Z.abs num) 10 (num <? 0) _ _ _ _ HJ Hu ltac:(lia) Hw0 Hc) as (s' & E & J'). exists s'. now rewrite (bind_run _ _ _ _ _ E).
  - assert (Hnd : (cv_char c =? 100) || (cv_char c =? 68) = false).
    { destruct (Z.eqb_spec (cv_char c) 100) as [E|]; [now rewrite E in Hb|]. destruct (Z.eqb_spec (cv_char c) 68) as [E|]; [now rewrite E in Hb|reflexivity]. }
    rewrite Hnd, Hb. rewrite (bind_run (va_arg (v :: ap)) _ s (v, ap) s eq_refl). cbn [fst snd].
    assert (Hb2 : 2 <= base) by (unfold num_base in Hb; repeat (destruct (_ : bool) in Hb; [injection Hb as <- <-; lia|]); discriminate).
    destruct (print_num_run t s junk (wrap64 (as_num (long_of c) v)) base false _ _ _ up HJ (wrap64_range _) Hb2 Hw0 Hc) as (s' & E & J'). exists s'. now rewrite (bind_run _ _ _ _ _ E).
  - rewrite Hch. cbn [Z.eqb Pos.eqb orb num_base]. rewrite (bind_run (va_arg (v :: ap)) _ s (v, ap) s eq_refl). cbn [fst snd]. unfold print_char.
    destruct (aligned_run t s (out [wrap8 v]) (ladjust_of c) (width_of c.(cv_width)) [wrap8 v] HJ) as (s' & E & J'); [intros; now apply sk_out|exact Hc|]. cbn [length] in E.
    replace (Z.to_nat (width_of c.(cv_width) `max` 1 - 1)) with (Z.to_nat (width_of c.(cv_width) - Z.of_nat 1)) by lia. exists s'. now rewrite (bind_run _ _ _ _ _ E).
  - rewrite Hch. cbn [Z.eqb Pos.eqb orb num_base]. rewrite (bind_run (va_arg (v :: ap)) _ s (v, ap) s eq_refl). cbn [fst snd]. unfold print_str.
    rewrite <- !bind_assoc. rewrite (bind_run (gets kmem) _ s _ s eq_refl). rewrite <- !bind_assoc. rewrite (bind_run (lift _) _ s (Z.of_nat (length l)) s) by (unfold lift; now rewrite (strlen_cstr fuel _ _ l (holds_cstr t s l HJ v Hl Hs) ltac:(lia))).
    destruct (aligned_run t s (out_mem out v (Z.of_nat (length l))) (ladjust_of c) (width_of c.(cv_width)) l HJ) as (s' & E & J'); [|exact Hc|].
    { intros t1 s1 J1 C1. apply out_mem_run; auto. now apply holds_app in Hs. }
    replace (Z.to_nat (width_of c.(cv_width) `max` Z.of_nat (length l) - Z.of_nat (length l))) with (Z.to_nat (width_of c.(cv_width) - Z.of_nat (length l))) by lia. exists s'. now rewrite (bind_run _ _ _ _ _ E).
  - rewrite !not_elem_of_cons in Hch. unfold num_base. repeat match goal with |- context [cv_char c =? ?k] => rewrite (proj2 (Z.eqb_neq (cv_char c) k)) by tauto end. cbn [orb].
    destruct (out_mem_run t s fmt [c.(cv_char)] HJ Hh Hc) as (s' & E & J'). exists s'. cbn [length] in E. now rewrite (bind_run _ _ _ _ _ E).
Qed.
(** What follows the [%]. *)
Lemma tail_head c : conv_ok c -> exists x l, conv_tail c = x :: l /\ is_digit x = false /\ x <> 0 /\ (cv_longs c = O -> x = c.(cv_char)) /\ (cv_longs c <> O -> x = 108).
Proof using.
  intros [_ _ (H0 & Hd & Hl) _]. unfold conv_tail. destruct (cv_longs c) as [|k]; cbn [replicate app]; [exists c.(cv_char), []|exists 108, (replicate k 108 ++ [c.(cv_char)])]; repeat split; auto; congruence || lia.
Qed.
Lemma flag_step c p : conv_ok c -> holds m0 good p (flag_text c.(cv_flag) ++ map (Z.add 48) c.(cv_width) ++ conv_tail c) ->
  exists x, m0 p = x /\ good p /\ x <> 0 /\ (x =? 45) = ladjust_of c /\ (if x =? 48 then 48 else 32) = padc_of c /\ (if (x =? 45) || (x =? 48) then p + 1 else p) = p + Z.of_nat (length (flag_text c.(cv_flag))).
Proof using.
  intros Hok H. pose proof Hok as [Hd _ (H0 & Hdc & Hl) Hf]. destruct (tail_head c Hok) as (y & l & Et & Hy & Hy0 & Hyc & Hyl). unfold ladjust_of, padc_of. rewrite Et in H.
  destruct (cv_flag c); cbn [flag_text app holds length] in *; [|destruct H as (Hx & Hg & _); exists 45; auto 8|destruct H as (Hx & Hg & _); exists 48; auto 8].
  specialize (Hf eq_refl). assert (Hx : exists x, m0 p = x /\ good p /\ x <> 0 /\ x <> 45 /\ x <> 48).
  { destruct (cv_width c) as [|d w]; cbn [map app holds] in H; destruct H as (Hx & Hg & _); [exists y|exists (48 + d); apply Forall_cons in Hd as [Hd _]; repeat split; auto; lia].
    repeat split; auto; [|intros ->; discriminate]. destruct (cv_longs c) as [|k] eqn:El; [rewrite Hyc by reflexivity; now apply Hf|rewrite Hyl by lia; lia]. }
  destruct Hx as (x & Hx & Hg & Hx0 & H45 & H48). exists x. rewrite (proj2 (Z.eqb_neq x 45) H45), (proj2 (Z.eqb_neq x 48) H48). cbn [orb]. repeat split; auto. lia.
Qed.
Lemma conv_step c t s fuel junk p ap ap' tx (K : list Z * Z -> M pst unit) : sk_inv t s -> conv_ok c -> renders m0 good n c ap ap' tx -> (length (conv_text c) + n <= fuel)%nat ->
  holds m0 good p (flag_text c.(cv_flag) ++ map (Z.add 48) c.(cv_width) ++ conv_tail c) -> (length (t ++ tx) <= cap)%nat ->
  exists s', sk_inv (t ++ tx) s' /\
    (let* x := rdc p in
     if x =? 0 then ret tt
     else
       let* w := get_width fuel (if (x =? 45) || (x =? 48) then p + 1 else p) 0 in
       let* l := get_long fuel (fst w) false in
       let* c := rdc (fst l) in
       let* r := convert out fuel junk c (fst l) (snd w) (snd l) (x =? 45) (if x =? 48 then 48 else 32) ap in K r) s =
    K (ap', p + Z.of_nat (length (conv_text c)) - 2) s'.
Proof using.
  intros HJ Hok Hr Hf Hh Hc. destruct (flag_step c p Hok Hh) as (x & Hx & Hg & Hx0 & E1 & E2 & E3). rewrite (bind_run _ _ _ _ _ (rdc_run t s p x HJ Hx Hg)).
  rewrite (proj2 (Z.eqb_neq x 0) Hx0), E3, E2, E1. apply holds_app in Hh as [_ Hh]. set (q := p + Z.of_nat (length (flag_text (cv_flag c)))) in *.
  pose proof Hok as [Hd Hw (H0 & Hdc & Hl) _]. destruct (tail_head c Hok) as (y & l & Et & Hy & _). unfold conv_text, conv_tail in Hf. rewrite length_cons, !length_app, length_map, length_replicate in Hf. cbn [length] in Hf.
  assert (Hq : holds m0 good q (map (Z.add 48) (cv_width c) ++ [y])).
  { rewrite Et in Hh. apply holds_app in Hh as [H1 H2]. apply holds_app. split; [exact H1|]. cbn [holds] in *. tauto. }
  rewrite (bind_run _ _ _ _ _ (width_run (cv_width c) y Hy fuel t s q 0 HJ Hd ltac:(lia) Hw Hq ltac:(lia))). cbn [fst snd]. apply holds_app in Hh as [_ Hh]. rewrite length_map in Hh.
  rewrite (bind_run _ _ _ _ _ (long_run (cv_longs c) (cv_char c) Hl fuel t s _ false HJ Hh ltac:(lia))). cbn [fst snd]. unfold conv_tail in Hh. apply holds_app in Hh as [_ Hh]. rewrite length_replicate in Hh.
  set (r := q + Z.of_nat (length (cv_width c)) + Z.of_nat (cv_longs c)) in *. pose proof Hh as Hch. cbn [holds] in Hch. destruct Hch as (Hch & Hgr & _). rewrite (bind_run _ _ _ _ _ (rdc_run t s r _ HJ Hch Hgr)).
  destruct (convert_run c t s fuel junk r ap ap' tx HJ Hok Hr ltac:(lia) Hh Hc) as (s' & E & J'). exists s'. split; [exact J'|].
  replace (if (cv_longs c =? 0)%nat then false else true) with (long_of c) by (unfold long_of; now destruct (_ =? _)%nat). fold (width_of (cv_width c)). rewrite (bind_run _ _ _ _ _ E).
  f_equal. f_equal. unfold r, q, conv_text, conv_tail. rewrite length_cons, !length_app, length_map, length_replicate. cbn [length]. lia.
Qed.
Lemma vprintfmt_run last f ap tx junk : formats m0 good n last f ap tx -> forall fuel t s fmt, sk_inv t s -> holds m0 good fmt (format_text f last ++ [0]) ->
  (length (format_text f last) + n < fuel)%nat -> (length (t ++ tx) <= cap)%nat -> exists s', vprintfmt out fuel junk fmt ap s = Ok (tt, s') /\ sk_inv (t ++ tx) s'.
Proof using.
  induction 1 as [ap Hp|lit c f ap ap' tx tx' Hp Hok Hr _ IH]; intros fuel t s fmt HJ Hh Hf Hc; (destruct fuel as [|fuel]; [lia|]); cbn [format_text vprintfmt] in *.
  - rewrite (bind_run _ _ _ _ _ (scan_end last (S fuel) t s fmt fmt 0 HJ Hp Hh ltac:(lia))). cbn [fst snd]. rewrite Z.add_0_l. apply holds_app in Hh as [H1 H2].
    destruct (out_mem_run t s fmt last HJ H1 Hc) as (s1 & E1 & J1). rewrite (bind_run _ _ _ _ _ E1). cbn [holds] in H2. destruct H2 as (Hx & Hg & _).
    rewrite (bind_run _ _ _ _ _ (rdc_run _ s1 _ 0 J1 Hx Hg)). cbn [Z.eqb]. now exists s1.
  - rewrite !length_app in Hf. rewrite <- !app_assoc in Hh. apply holds_app in Hh as [Hl Hh]. apply holds_app in Hh as [Hct Hrest]. rewrite !length_app in Hc.
    set (a := fmt + Z.of_nat (length lit)) in *. pose proof Hct as Hct'. unfold conv_text in Hct'. cbn [holds] in Hct'. destruct Hct' as (H37 & Hg37 & Hcv).
    assert (Hlit : holds m0 good fmt (lit ++ [37])) by (apply holds_app; split; [exact Hl|]; cbn [holds]; auto).
    destruct (out_mem_run t s fmt lit HJ Hl) as (s1 & E1 & J1); [rewrite length_app; lia|].
    assert (Es : scan out (S fuel) fmt fmt 0 s = Ok ((a + 1, 0), s1)) by (rewrite (scan_percent lit (S fuel) t s fmt fmt 0 HJ Hp Hlit ltac:(lia)), Z.add_0_l; now rewrite (bind_run _ _ _ _ _ E1)).
    rewrite (bind_run _ _ _ _ _ Es). cbn [fst snd]. destruct (out_mem_run (t ++ lit) s1 fmt [] J1 I) as (s2 & E2 & J2); [rewrite app_nil_r, length_app; lia|]. rewrite app_nil_r in J2. rewrite (bind_run _ _ _ _ _ E2).
    destruct (conv_step c (t ++ lit) s2 (S fuel) junk (a + 1) ap ap' tx (fun r => vprintfmt out fuel junk (snd r + 1) (fst r)) J2 Hok Hr ltac:(lia) Hcv ltac:(rewrite !length_app; lia)) as (s3 & J3 & E3).
    rewrite E3. cbn [fst snd]. replace (a + 1 + Z.of_nat (length (conv_text c)) - 2 + 1) with (a + Z.of_nat (length (conv_text c))) by lia.
    destruct (IH fuel ((t ++ lit) ++ tx) s3 (a + Z.of_nat (length (conv_text c))) J3 Hrest) as (s4 & E4 & J4); [unfold conv_text in Hf; cbn [length] in Hf; lia|rewrite !length_app; lia|].
    exists s4. split; [exact E4|]. now rewrite <- !app_assoc in J4.
Qed.
End Prints.

(** ** The console and strings *)

#[export] Instance console_sink (cap : nat) (m0 : mem) (c0 : list Z) (sb : Z) : Sink output cap m0 (fun _ => True).
Proof.
  refine {| sk_inv t s := s = MkPst m0 (c0 ++ t) sb |}.
  - intros t s -> x _. reflexivity.
  - intros t l s -> _. eexists. split; [reflexivity|]. cbn. now rewrite app_assoc.
Defined.
(** C31. [printf] shows what its format means: plain text as it is, every
    conversion by its letter, flag, width and [l]s applied to its argument, in
    order, for every format and every number of conversions. *)
Theorem printf_prints (m0 : mem) (c0 : list Z) (sb : Z) (n fuel : nat) (junk fmt : Z) (f : list (list Z * conv)) (last ap tx : list Z) :
  formats m0 (fun _ => True) n last f ap tx -> holds m0 (fun _ => True) fmt (format_text f last ++ [0]) -> (length (format_text f last) + n < fuel)%nat ->
  vprintfmt output fuel junk fmt ap (MkPst m0 c0 sb) = Ok (tt, MkPst m0 (c0 ++ tx) sb).
Proof.
  intros Hf Hh Hfu. destruct (vprintfmt_run output (length tx) n m0 (fun _ => True) (SK := console_sink (length tx) m0 c0 sb) last f ap tx junk Hf fuel [] (MkPst m0 c0 sb) fmt) as (s' & E & J); auto.
  - cbn. now rewrite app_nil_r.
  - cbn in J. now rewrite J in E.
Qed.

(** The text so far is at [dst], with a terminator once something was output. *)
Definition outside (dst : Z) (cap : nat) (x : Z) : Prop := ~ (dst <= x <= dst + Z.of_nat cap).
Record written (dst : Z) (cap : nat) (m0 : mem) (c0 t : list Z) (s : pst) : Prop := {
  wt_cons : s.(console) = c0;
  wt_ptr : s.(strBuf) = dst + Z.of_nat (length t);
  wt_text : forall i, 0 <= i < Z.of_nat (length t) -> s.(kmem) (dst + i) = byte_at t i;
  wt_end : t <> [] -> s.(kmem) (dst + Z.of_nat (length t)) = 0;
  wt_mem : forall x, outside dst cap x -> s.(kmem) x = m0 x }.
Lemma written_out dst cap m0 c0 t l s : written dst cap m0 c0 t s -> (length (t ++ l) <= cap)%nat -> exists s', outputToStr l s = Ok (tt, s') /\ written dst cap m0 c0 (t ++ l) s'.
Proof.
  intros [W1 W2 W3 W4 W5] Hc. rewrite length_app in Hc. eexists. split; [reflexivity|]. constructor; cbn [kmem console strBuf]; rewrite ?length_app; unfold mem_write; rewrite ?W2, ?length_app; cbn [length].
  - exact W1.
  - lia.
  - intros i Hi. rewrite (byte_at_app t l i) by lia. destruct (Z.ltb_spec i (Z.of_nat (length t))).
    + destruct ((_ <=? dst + i) && _) eqn:E; [zbool; lia|]. apply W3. lia.
    + rewrite (proj2 (andb_true_iff _ _)) by (split; zcases). rewrite byte_at_app, (proj2 (Z.ltb_lt _ _)) by lia. f_equal. lia.
  - intros _. rewrite (proj2 (andb_true_iff _ _)) by (split; zcases). rewrite byte_at_app, (proj2 (Z.ltb_ge _ _)) by lia. now replace (_ - _ - _) with 0 by lia.
  - intros x Hx. unfold outside in Hx. destruct ((dst + _ <=? x) && _) eqn:E; [zbool; lia|]. now apply W5.
Qed.
#[export] Instance string_sink (cap : nat) (m0 : mem) (c0 : list Z) (dst : Z) : Sink outputToStr cap m0 (outside dst cap).
Proof.
  refine {| sk_inv t s := written dst cap m0 c0 t s |}.
  - intros t s W x Hx. now apply (wt_mem _ _ _ _ _ _ W).
  - intros t l s W Hc. now apply written_out.
Defined.
(** [sprintf] stores the text its format means at the buffer, with a
    terminator behind it, and changes no other memory, as long as the format and
    its strings do not lie in the part it writes. *)
Theorem sprintf_writes (m0 : mem) (c0 : list Z) (sb buf : Z) (n fuel : nat) (junk fmt : Z) (f : list (list Z * conv)) (last ap tx : list Z) :
  let good := outside buf (length tx) in
  formats m0 good n last f ap tx -> holds m0 good fmt (format_text f last ++ [0]) -> (length (format_text f last) + n < fuel)%nat -> tx <> [] ->
  exists m', sprintf fuel junk buf fmt ap (MkPst m0 c0 sb) = Ok (tt, MkPst m' c0 (buf + Z.of_nat (length tx))) /\
    (forall i, 0 <= i < Z.of_nat (length tx) -> m' (buf + i) = byte_at tx i) /\ m' (buf + Z.of_nat (length tx)) = 0 /\ forall x, good x -> m' x = m0 x.
Proof.
  intros good Hf Hh Hfu Hne. change (sprintf fuel junk buf fmt ap (MkPst m0 c0 sb)) with (vprintfmt outputToStr fuel junk fmt ap (MkPst m0 c0 buf)).
  destruct (vprintfmt_run outputToStr (length tx) n m0 good (SK := string_sink (length tx) m0 c0 buf) last f ap tx junk Hf fuel [] (MkPst m0 c0 buf) fmt) as ([m' c' p'] & E & [J1 J2 J3 J4 J5]); auto.
  - constructor; cbn; auto; [lia|lia|congruence].
  - cbn in J1, J2. subst. exists m'. split; [exact E|]. split; [exact J3|]. split; [now apply J4|exact J5].
Qed.

(** ** Numbers can be read back *)

Definition char_digit (c : Z) : Z := if c <=? 57 then c - 48 else if c <=? 90 then c - 55 else c - 87.
Lemma char_digit_char up d : 0 <= d < 36 -> char_digit (digit_char up d) = d.
Proof. intros Hd. unfold char_digit, digit_char. destruct (Z.leb_spec d 9), up; zcases. Qed.
Lemma read_rev base l : fold_left (fun a d => a * base + d) (rev l) 0 = digits_val base l.
Proof. rewrite <- (fold_left_rev_right (fun d a => a * base + d)), rev_involutive. induction l as [|d l IH]; [reflexivity|]. cbn [fold_right digits_val]. rewrite IH. lia. Qed.
(** Spaces, a sign, and digits up to a space or the end. *)
Fixpoint skip_spaces (l : list Z) : list Z := match l with c :: l' => if c =? 32 then skip_spaces l' else l | [] => [] end.
Fixpoint read_digits (base a : Z) (l : list Z) : Z :=
  match l with [] => a | c :: l' => if c =? 32 then a else read_digits base (a * base + char_digit c) l' end.
Definition read_num (base : Z) (l : list Z) : Z :=
  match skip_spaces l with [] => 0 | c :: l' => if c =? 45 then - read_digits base 0 l' else read_digits base 0 (c :: l') end.
Lemma skip_run k l : skip_spaces (replicate k 32 ++ l) = skip_spaces l.
Proof. induction k as [|k IH]; [reflexivity|exact IH]. Qed.
Lemma read_zeros base k : forall l, read_digits base 0 (replicate k 48 ++ l) = read_digits base 0 l.
Proof. induction k as [|k IH]; intros l; [reflexivity|]. cbn [replicate app read_digits]. exact (IH l). Qed.
Lemma read_chars base up l : Forall (fun d => 0 <= d < 36) l -> forall a r, r = [] \/ (exists r', r = 32 :: r') ->
  read_digits base a (map (digit_char up) l ++ r) = fold_left (fun a d => a * base + d) l a.
Proof.
  induction 1 as [|d l Hd _ IH]; intros a r Hr; cbn [map app read_digits fold_left].
  - destruct Hr as [->|(r' & ->)]; reflexivity.
  - assert (Hc : digit_char up d <> 32) by (unfold digit_char; destruct (_ <=? _), up; lia). rewrite (proj2 (Z.eqb_neq _ _) Hc), char_digit_char by exact Hd. now apply IH.
Qed.
Lemma num_digits_read u base up r : u64 u -> 2 <= base <= 36 -> r = [] \/ (exists r', r = 32 :: r') -> read_digits base 0 (num_digits u base up ++ r) = u.
Proof.
  intros Hu Hb Hr. destruct (digits_ok 64 base ltac:(lia) u (digits_64 u base Hu ltac:(lia)) ltac:(lia)) as (V & F & _). unfold num_digits.
  rewrite read_chars; [now rewrite read_rev|apply Forall_rev; eapply Forall_impl; [exact F|cbn; lia]|exact Hr].
Qed.
(** The first character of the digits is neither a space nor a sign. *)
Lemma num_digits_head u base up : u64 u -> 2 <= base -> exists c l, num_digits u base up = c :: l /\ 48 <= c.
Proof.
  intros Hu Hb. destruct (digits_ok 64 base Hb u (digits_64 u base Hu Hb) ltac:(lia)) as (_ & F & _). unfold num_digits. destruct (rev (digits 64 u base)) as [|d l] eqn:E.
  - apply (f_equal (length (A:=Z))) in E. rewrite length_rev in E. cbn [digits length] in E. lia.
  - exists (digit_char up d), (map (digit_char up) l). split; [reflexivity|]. assert (Hd : 0 <= d < base) by (rewrite Forall_forall in F; apply F, list_elem_of_In, in_rev; rewrite E; now left).
    unfold digit_char. destruct (_ <=? _), up; lia.
Qed.
(** Numbers survive printing: what any numeric conversion prints, whatever
    its sign, width, alignment and padding, reads back as the number. *)
Theorem num_text_reads_back (u base w padc : Z) (neg ladjust up : bool) :
  u64 u -> 2 <= base <= 36 -> padc = 32 \/ padc = 48 -> read_num base (num_text u base neg w ladjust padc up) = if neg then - u else u.
Proof.
  intros Hu Hb Hpad. unfold num_text. set (ds := num_digits u base up). set (k := Z.to_nat _).
  destruct (num_digits_head u base up Hu ltac:(lia)) as (c & l & Ec & Hc). fold ds in Ec.
  assert (Hnum : forall r, r = [] \/ (exists r', r = 32 :: r') -> read_digits base 0 (ds ++ r) = u) by (intros r Hr; now apply num_digits_read).
  assert (Hrun : forall z r, r = [] \/ (exists r', r = 32 :: r') -> read_num base ((if neg then [45] else []) ++ replicate z 48 ++ ds ++ r) = if neg then - u else u).
  { intros z r Hr. unfold read_num. destruct neg; cbn [app skip_spaces Z.eqb Pos.eqb].
    - now rewrite read_zeros, Hnum.
    - destruct z as [|z]; [|change (replicate (S z) 48 ++ ds ++ r) with (48 :: replicate z 48 ++ ds ++ r); cbn [skip_spaces Z.eqb Pos.eqb read_digits]; change (0 * base + char_digit 48) with 0; now rewrite read_zeros, Hnum].
      rewrite <- (Hnum r Hr). cbn [replicate app]. rewrite Ec. cbn [app skip_spaces]. rewrite (proj2 (Z.eqb_neq c 32)), (proj2 (Z.eqb_neq c 45)) by lia. reflexivity. }
  destruct ladjust; [|destruct (Z.eqb_spec padc 48)].
  - apply (Hrun O). destruct k; [now left|right]. now eexists.
  - rewrite <- (app_nil_r ds). apply (Hrun k []). now left.
  - destruct Hpad as [->|]; [|contradiction]. unfold read_num. rewrite skip_run. rewrite <- (app_nil_r ds). apply (Hrun O []). now left.
Qed.

(** ** A defect, and witnesses *)

Definition text_at (a : Z) (l : list Z) (m : mem) : mem := mem_write a (l ++ [0]) m.
(** [%u] and [%x] without an [l] sign-extend their argument: the largest 32-bit
    number is printed as the largest 64-bit one. *)
Theorem unsigned_prints_signed : option_map console (match vprintfmt output 10 0 100 [4294967295] (MkPst (text_at 100 [37; 117] (fun _ => 0)) [] 0) with Ok (_, s) => Some s | Err _ => None end)
  = Some [49; 56; 52; 52; 54; 55; 52; 52; 48; 55; 51; 55; 48; 57; 53; 53; 49; 54; 49; 53].
Proof. evals. Qed.

(** The format [n=%-5d s=%s%%] and the string [hi]. *)
Definition sample_format : list (list Z * conv) :=
  [([110; 61], MkConv Minus [5] 0 100); ([32; 115; 61], MkConv NoFlag [] 0 115); ([], MkConv NoFlag [] 0 37)].
Definition sample_mem : mem := text_at 200 [104; 105] (text_at 100 (format_text sample_format []) (fun _ => 0)).
Definition sample_text : list Z := [110; 61; 45; 52; 50; 32; 32; 32; 115; 61; 104; 105; 37].
Ltac holds_all := cbn -[sample_mem]; repeat (split; [evals|split; [first [exact I|unfold outside; cbn; lia]|]]); try exact I.
Ltac plain_all := repeat (constructor; [split; discriminate|]); constructor.
Lemma sample_means good : holds sample_mem good 200 [104; 105; 0] -> formats sample_mem good 3 [] sample_format [18446744073709551574; 200] sample_text.
Proof.
  intros Hs. change sample_text with ([110; 61] ++ [45; 52; 50; 32; 32] ++ [32; 115; 61] ++ [104; 105] ++ [] ++ [37] ++ []).
  apply (F_conv _ _ _ [] [110; 61] (MkConv Minus [5] 0 100) _ _ [200] [45; 52; 50; 32; 32]); [plain_all| | |].
  - constructor; cbn; [constructor; [lia|constructor]|lia|repeat split; discriminate|discriminate].
  - exact (R_dec sample_mem good 3 (MkConv Minus [5] 0 100) 18446744073709551574 [200] (or_introl eq_refl)).
  - apply (F_conv _ _ _ [] [32; 115; 61] (MkConv NoFlag [] 0 115) _ _ [] [104; 105]); [plain_all| | |].
    + constructor; cbn; [constructor|lia|repeat split; discriminate|discriminate].
    + refine (R_str sample_mem good 3 (MkConv NoFlag [] 0 115) 200 [] [104; 105] eq_refl _ Hs _); [repeat (constructor; [discriminate|]); constructor|cbn; lia].
    + apply (F_conv _ _ _ [] [] (MkConv NoFlag [] 0 37) _ _ [] [37]); [constructor| | |].
      * constructor; cbn; [constructor|lia|repeat split; discriminate|discriminate].
      * apply R_other. cbn. rewrite !not_elem_of_cons. repeat split; try discriminate. apply not_elem_of_nil.
      * constructor. constructor.
Qed.
Lemma printf_prints_witness : vprintfmt output 20 9 100 [18446744073709551574; 200] (MkPst sample_mem [] 0) = Ok (tt, MkPst sample_mem ([] ++ sample_text) 0).
Proof.
  apply (printf_prints sample_mem [] 0 3 20 9 100 sample_format [] [18446744073709551574; 200] sample_text); [apply sample_means; holds_all|holds_all|cbn; lia].
Defined.
Lemma sprintf_writes_witness : exists m', sprintf 20 9 1000 100 [18446744073709551574; 200] (MkPst sample_mem [] 0) = Ok (tt, MkPst m' [] 1013) /\ m' 1012 = 37 /\ m' 1013 = 0.
Proof.
  assert (H1 : formats sample_mem (outside 1000 (length sample_text)) 3 [] sample_format [18446744073709551574; 200] sample_text) by (apply sample_means; holds_all).
  assert (H2 : holds sample_mem (outside 1000 (length sample_text)) 100 (format_text sample_format [] ++ [0])) by holds_all.
  destruct (sprintf_writes sample_mem [] 0 1000 3 20 9 100 sample_format [] [18446744073709551574; 200] sample_text H1 H2 ltac:(cbn; lia) ltac:(discriminate)) as (m' & E & T & Z0 & _).
  exists m'. split; [exact E|]. split; [exact (T 12 ltac:(cbn; lia))|exact Z0].
Defined.
Lemma num_text_reads_back_witness : read_num 10 (num_text 42 10 true 6 false 48 false) = -42.
Proof. apply (num_text_reads_back 42 10 6 48 true false false); [unfold u64; lia|lia|now right]. Defined.
