(* ===== verification/Virtio.v ===== *)
(** * The disk driver

    [src/kern/driver/virtio.c].  Driver and device share a table of
    descriptors and two rings; requests of several threads, interrupts and the
    steps of the device interleave.  The device is behind the interface
    [VirtioDevice], whose laws are those of the virtio standard (split rings,
    2.6, and block requests, 5.2.6): a request that is well formed is carried
    out once and then reported, in any order; nothing is promised of others.
    The driver is a refinement of a disk whose reads and writes are atomic. *)

From S2P Require Import Prelude.
From Stdlib Require Import ZArith Lia Bool.
From stdpp Require Import base tactics numbers list sets.
Open Scope Z_scope.

(** ** Data *)

Definition NUM : Z := 8.
Definition BLK_SIZE : Z := 512.
Definition VRING_DESC_F_NEXT : Z := 1.
Definition VRING_DESC_F_WRITE : Z := 2.
Definition VIRTIO_BLK_T_IN : Z := 0.
Definition VIRTIO_BLK_T_OUT : Z := 1.

(** The objects a descriptor can point to: [disk.ops[i]], [b->data],
    [disk.info[i].status]. *)
Inductive vaddr : Type := ANull | AOps (i : Z) | AData (b : Z) | AStatus (i : Z).
Record virtq_desc : Type := MkDesc { d_addr : vaddr; d_len : Z; d_flags : Z; d_next : Z }.
Record virtio_blk_req : Type := MkReq { r_type : Z; r_reserved : Z; r_sector : Z }.
Record vinfo : Type := MkInfo { i_b : Z; i_status : Z }.
(** The fields of a [Buffer] the driver uses. *)
Record vbuf : Type := MkVbuf { vb_blockno : Z; vb_disk : Z; vb_data : list Z }.

(** [struct disk] with the rings, the buffers, the threads asleep with what
    they sleep on, the interrupt status register, and the registers written so
    far with their values. *)
Record vst : Type := MkV {
  desc : Z -> virtq_desc;
  avail_idx : Z; avail_ring : Z -> Z;
  used_idx_dev : Z; used_ring : Z -> Z;      (* disk.used->idx, disk.used->ring[].id *)
  dfree : Z -> bool;
  used_idx : Z;
  info : Z -> vinfo;
  ops : Z -> virtio_blk_req;
  bufs : Z -> vbuf;
  sleepers : list (Z * Z);
  irq_status : Z;
  mmio : list (Z * Z)
}.
Definition set_desc (i : Z) (d : virtq_desc) (s : vst) : vst := MkV (upd s.(desc) i d) s.(avail_idx) s.(avail_ring) s.(used_idx_dev) s.(used_ring) s.(dfree) s.(used_idx) s.(info) s.(ops) s.(bufs) s.(sleepers) s.(irq_status) s.(mmio).
Definition set_avail (k : Z) (r : Z -> Z) (s : vst) : vst := MkV s.(desc) k r s.(used_idx_dev) s.(used_ring) s.(dfree) s.(used_idx) s.(info) s.(ops) s.(bufs) s.(sleepers) s.(irq_status) s.(mmio).
Definition set_used (k : Z) (r : Z -> Z) (s : vst) : vst := MkV s.(desc) s.(avail_idx) s.(avail_ring) k r s.(dfree) s.(used_idx) s.(info) s.(ops) s.(bufs) s.(sleepers) s.(irq_status) s.(mmio).
Definition set_dfree (i : Z) (b : bool) (s : vst) : vst := MkV s.(desc) s.(avail_idx) s.(avail_ring) s.(used_idx_dev) s.(used_ring) (upd s.(dfree) i b) s.(used_idx) s.(info) s.(ops) s.(bufs) s.(sleepers) s.(irq_status) s.(mmio).
Definition set_used_idx (k : Z) (s : vst) : vst := MkV s.(desc) s.(avail_idx) s.(avail_ring) s.(used_idx_dev) s.(used_ring) s.(dfree) k s.(info) s.(ops) s.(bufs) s.(sleepers) s.(irq_status) s.(mmio).
Definition set_info (i : Z) (x : vinfo) (s : vst) : vst := MkV s.(desc) s.(avail_idx) s.(avail_ring) s.(used_idx_dev) s.(used_ring) s.(dfree) s.(used_idx) (upd s.(info) i x) s.(ops) s.(bufs) s.(sleepers) s.(irq_status) s.(mmio).
Definition set_op (i : Z) (x : virtio_blk_req) (s : vst) : vst := MkV s.(desc) s.(avail_idx) s.(avail_ring) s.(used_idx_dev) s.(used_ring) s.(dfree) s.(used_idx) s.(info) (upd s.(ops) i x) s.(bufs) s.(sleepers) s.(irq_status) s.(mmio).
Definition set_vbuf (b : Z) (x : vbuf) (s : vst) : vst := MkV s.(desc) s.(avail_idx) s.(avail_ring) s.(used_idx_dev) s.(used_ring) s.(dfree) s.(used_idx) s.(info) s.(ops) (upd s.(bufs) b x) s.(sleepers) s.(irq_status) s.(mmio).
Definition set_sleepers (l : list (Z * Z)) (s : vst) : vst := MkV s.(desc) s.(avail_idx) s.(avail_ring) s.(used_idx_dev) s.(used_ring) s.(dfree) s.(used_idx) s.(info) s.(ops) s.(bufs) l s.(irq_status) s.(mmio).
Definition set_irq (k : Z) (s : vst) : vst := MkV s.(desc) s.(avail_idx) s.(avail_ring) s.(used_idx_dev) s.(used_ring) s.(dfree) s.(used_idx) s.(info) s.(ops) s.(bufs) s.(sleepers) k s.(mmio).
Definition set_mmio (l : list (Z * Z)) (s : vst) : vst := MkV s.(desc) s.(avail_idx) s.(avail_ring) s.(used_idx_dev) s.(used_ring) s.(dfree) s.(used_idx) s.(info) s.(ops) s.(bufs) s.(sleepers) s.(irq_status) l.
Definition set_disk_flag (b k : Z) (s : vst) : vst := let x := s.(bufs) b in set_vbuf b (MkVbuf x.(vb_blockno) k x.(vb_data)) s.

(** ** Descriptors *)

Definition at_state {A : Type} (f : vst -> M vst A) : M vst A := fun s => f s s.
Fixpoint alloc_desc_loop (n : nat) (i : Z) : M vst Z :=
  match n with
  | O => ret (-1)
  | S n' => at_state (fun s => if s.(dfree) i then modify (set_dfree i false) ;;; ret i else alloc_desc_loop n' (i + 1))
  end.
Definition alloc_desc : M vst Z := alloc_desc_loop (Z.to_nat NUM) 0.
Definition zero_desc : virtq_desc := MkDesc ANull 0 0 0.
Definition free_desc (i : Z) : M vst unit := at_state (fun s =>
  if NUM <=? i then fail Panic
  else if i <? 0 then fail BadPtr
  else if s.(dfree) i then fail Panic
  else modify (set_desc i zero_desc) ;;; modify (set_dfree i true)).
Fixpoint free_chain (fuel : nat) (i : Z) : M vst unit :=
  match fuel with
  | O => fail NoFuel
  | S fuel' => at_state (fun s =>
      let flag := (s.(desc) i).(d_flags) in
      let nxt := (s.(desc) i).(d_next) in
      free_desc i ;;;
      if negb (Z.land flag VRING_DESC_F_NEXT =? 0) then free_chain fuel' nxt else ret tt)
  end.
Fixpoint free_descs (l : list Z) : M vst unit := match l with [] => ret tt | i :: l' => free_desc i ;;; free_descs l' end.
(** The entries of [idx] so far, and the result. *)
Fixpoint alloc3_loop (n : nat) (idx : list Z) : M vst (Z * list Z) :=
  match n with
  | O => ret (0, idx)
  | S n' =>
      let* d := alloc_desc in
      if d <? 0 then free_descs idx ;;; ret (-1, idx ++ [d]) else alloc3_loop n' (idx ++ [d])
  end.
Definition alloc3_desc : M vst (Z * list Z) := alloc3_loop 3 [].

(** ** [virtio_disk_rw] and [virtio_disk_intr] *)

Definition wr_reg (r v : Z) : M vst unit := modify (fun s => set_mmio (s.(mmio) ++ [(r, v)]) s).
Definition VIRTIO_MMIO_QUEUE_NOTIFY : Z := 80.
Definition VIRTIO_MMIO_INTERRUPT_ACK : Z := 100.

(** The three descriptors of a request and what they point to. *)
Definition format_request (b : Z) (write : bool) (i0 i1 i2 : Z) : M vst unit := at_state (fun s =>
  let sector := wrap64 ((s.(bufs) b).(vb_blockno) * (BLK_SIZE / 512)) in
  modify (set_op i0 (MkReq (if write then VIRTIO_BLK_T_OUT else VIRTIO_BLK_T_IN) 0 sector)) ;;;
  modify (set_desc i0 (MkDesc (AOps i0) 16 VRING_DESC_F_NEXT i1)) ;;;
  modify (set_desc i1 (MkDesc (AData b) BLK_SIZE (Z.lor (if write then 0 else VRING_DESC_F_WRITE) VRING_DESC_F_NEXT) i2)) ;;;
  modify (set_desc i2 (MkDesc (AStatus i0) 1 VRING_DESC_F_WRITE 0)) ;;;
  modify (set_disk_flag b 1) ;;;
  modify (set_info i0 (MkInfo b 255))).
(** The ring entry, then the index, then the notification. *)
Definition publish (i0 : Z) : M vst unit :=
  modify (fun s => set_avail s.(avail_idx) (upd s.(avail_ring) (s.(avail_idx) mod NUM) i0) s) ;;;
  modify (fun s => set_avail (wrap16 (s.(avail_idx) + 1)) s.(avail_ring) s) ;;;
  wr_reg VIRTIO_MMIO_QUEUE_NOTIFY 0.
Definition rw_submit (b : Z) (write : bool) : M vst (Z * Z * Z) :=
  let* r := alloc3_desc in
  match r with
  | (0, [i0; i1; i2]) => format_request b write i0 i1 i2 ;;; publish i0 ;;; ret (i0, i1, i2)
  | _ => fail Panic
  end.
(** The loop [while (b->disk == 1)] up to its next sleep, or the end of the
    call: whether it returned. *)
Definition rw_wait (td b i0 : Z) : M vst bool := at_state (fun s =>
  if (s.(bufs) b).(vb_disk) =? 1 then modify (set_sleepers (s.(sleepers) ++ [(td, b)])) ;;; ret false
  else
    modify (set_info i0 (MkInfo 0 (s.(info) i0).(i_status))) ;;;
    free_chain (Z.to_nat NUM) i0 ;;;
    ret true).
Definition virtio_disk_rw (td b : Z) (write : bool) : M vst (Z * Z * Z * bool) :=
  let* i := rw_submit b write in
  let* r := rw_wait td b (fst (fst i)) in
  ret (i, r).

Definition wakeup_buf (b : Z) : M vst unit := modify (fun s => set_sleepers (List.filter (fun p => negb (snd p =? b)) s.(sleepers)) s).
(** The write to the acknowledge register clears the bits it names. *)
Definition intr_ack : M vst unit := at_state (fun s =>
  let v := Z.land s.(irq_status) 3 in
  wr_reg VIRTIO_MMIO_INTERRUPT_ACK v ;;; modify (set_irq (Z.ldiff s.(irq_status) v))).
(** One round of the loop of the interrupt handler. *)
Definition intr_round : M vst unit := at_state (fun s =>
  let id := s.(used_ring) (s.(used_idx) mod NUM) in
  if negb ((0 <=? id) && (id <? NUM)) then fail BadPtr
  else if negb ((s.(info) id).(i_status) =? 0) then fail Panic
  else
    let b := (s.(info) id).(i_b) in
    if b =? 0 then fail BadPtr
    else
      massert ((s.(bufs) b).(vb_disk) =? 1) ;;;
      modify (set_disk_flag b 0) ;;;
      wakeup_buf b ;;;
      modify (set_used_idx (wrap16 (s.(used_idx) + 1)))).
Fixpoint intr_loop (fuel : nat) : M vst unit :=
  match fuel with
  | O => fail NoFuel
  | S fuel' => at_state (fun s => if s.(used_idx) =? s.(used_idx_dev) then ret tt else intr_round ;;; intr_loop fuel')
  end.
Definition virtio_disk_intr (fuel : nat) : M vst unit := intr_ack ;;; intr_loop fuel.

(** ** [virtio_disk_init] *)

Definition VIRTIO_MMIO_MAGIC_VALUE : Z := 0.
Definition VIRTIO_MMIO_VERSION : Z := 4.
Definition VIRTIO_MMIO_DEVICE_ID : Z := 8.
Definition VIRTIO_MMIO_VENDOR_ID : Z := 12.
Definition VIRTIO_MMIO_DEVICE_FEATURES : Z := 16.
Definition VIRTIO_MMIO_DRIVER_FEATURES : Z := 32.
Definition VIRTIO_MMIO_PAGE_SIZE : Z := 40.
Definition VIRTIO_MMIO_QUEUE_SEL : Z := 48.
Definition VIRTIO_MMIO_QUEUE_NUM_MAX : Z := 52.
Definition VIRTIO_MMIO_QUEUE_NUM : Z := 56.
Definition VIRTIO_MMIO_QUEUE_ALIGN : Z := 60.
Definition VIRTIO_MMIO_QUEUE_PFN : Z := 64.
Definition VIRTIO_MMIO_STATUS : Z := 112.
(** The features the driver does not take: [RO], [SCSI], [CONFIG_WCE], [MQ],
    [ANY_LAYOUT], [EVENT_IDX], [INDIRECT_DESC]. *)
Definition refused_features : list Z := [5; 7; 11; 12; 27; 29; 28].
Definition negotiate (features : Z) : Z := fold_left (fun f b => Z.ldiff f (Z.shiftl 1 b)) refused_features features.
(** [reg] gives the registers of the device as the driver reads them. *)
Definition virtio_disk_init (reg : Z -> Z) (virtioDriverBuffer : Z) : M vst unit :=
  if negb ((reg VIRTIO_MMIO_MAGIC_VALUE =? 1953655158) && (reg VIRTIO_MMIO_VERSION =? 1) && (reg VIRTIO_MMIO_DEVICE_ID =? 2) && (reg VIRTIO_MMIO_VENDOR_ID =? 1431127377)) then fail Panic
  else
    wr_reg VIRTIO_MMIO_STATUS 0 ;;;
    wr_reg VIRTIO_MMIO_STATUS 1 ;;;
    wr_reg VIRTIO_MMIO_STATUS 3 ;;;
    wr_reg VIRTIO_MMIO_DRIVER_FEATURES (wrap32 (negotiate (reg VIRTIO_MMIO_DEVICE_FEATURES))) ;;;
    wr_reg VIRTIO_MMIO_QUEUE_SEL 0 ;;;
    if negb (reg VIRTIO_MMIO_QUEUE_PFN =? 0) then fail Panic
    else if (reg VIRTIO_MMIO_QUEUE_NUM_MAX =? 0) || (reg VIRTIO_MMIO_QUEUE_NUM_MAX <? NUM) then fail Panic
    else
      wr_reg VIRTIO_MMIO_PAGE_SIZE 4096 ;;;
      if (virtioDriverBuffer =? 0) || (wrap64 (virtioDriverBuffer + 4096) =? 0) then fail Panic
      else
        modify (fun s => MkV (fun _ => zero_desc) 0 (fun _ => 0) 0 (fun _ => 0) s.(dfree) s.(used_idx) s.(info) s.(ops) s.(bufs) s.(sleepers) s.(irq_status) s.(mmio)) ;;;
        wr_reg VIRTIO_MMIO_QUEUE_NUM NUM ;;;
        wr_reg VIRTIO_MMIO_QUEUE_ALIGN 4096 ;;;
        wr_reg VIRTIO_MMIO_QUEUE_PFN (wrap32 (Z.shiftr virtioDriverBuffer 12)) ;;;
        modify (fun s => fold_left (fun s i => set_dfree i true s) (seqZ 0 NUM) s) ;;;
        wr_reg VIRTIO_MMIO_STATUS 7.

(** ** The device *)

Definition has_flag (d : virtq_desc) (f : Z) : bool := negb (Z.land d.(d_flags) f =? 0).
(** What a block device does with the chain that starts at [id]: the new
    memory and sectors, or [None] when the chain is not a request of one
    sector. *)
Definition exec_chain (s : vst) (id : Z) (sectors : Z -> list Z) : option (vst * (Z -> list Z)) :=
  let d0 := s.(desc) id in
  let d1 := s.(desc) d0.(d_next) in
  let d2 := s.(desc) d1.(d_next) in
  match d0.(d_addr), d1.(d_addr), d2.(d_addr) with
  | AOps o, AData b, AStatus i =>
      if has_flag d0 VRING_DESC_F_NEXT && has_flag d1 VRING_DESC_F_NEXT && negb (has_flag d2 VRING_DESC_F_NEXT) && has_flag d2 VRING_DESC_F_WRITE
         && (d0.(d_len) =? 16) && (d1.(d_len) =? BLK_SIZE) && (d2.(d_len) =? 1) then
        let q := s.(ops) o in
        let x := s.(bufs) b in
        let done := set_info i (MkInfo (s.(info) i).(i_b) 0) s in
        if (q.(r_type) =? VIRTIO_BLK_T_OUT) && negb (has_flag d1 VRING_DESC_F_WRITE) then
          Some (done, upd sectors q.(r_sector) x.(vb_data))
        else if (q.(r_type) =? VIRTIO_BLK_T_IN) && has_flag d1 VRING_DESC_F_WRITE then
          Some (set_vbuf b (MkVbuf x.(vb_blockno) x.(vb_disk) (sectors q.(r_sector))) done, sectors)
        else None
      else None
  | _, _, _ => None
  end.
(** The entry in the used ring, and the interrupt. *)
Definition report (id : Z) (s : vst) : vst :=
  set_irq (Z.lor s.(irq_status) 1) (set_used (wrap16 (s.(used_idx_dev) + 1)) (upd s.(used_ring) (s.(used_idx_dev) mod NUM) id) s).

(** A device has read the available ring up to [dv_seen], has the chains
    [dv_pending] in work, and holds sectors.  A step takes a chain from the
    ring or finishes one in work. *)
Class VirtioDevice (D : Type) : Type := {
  dv_seen : D -> Z;
  dv_pending : D -> list Z;
  dv_sectors : D -> Z -> list Z;
  dv_step : D -> vst -> D -> vst -> Prop;
  dv_spec : forall d s d' s', dv_step d s d' s' ->
    (dv_seen d <> s.(avail_idx) /\ s' = s /\ dv_seen d' = wrap16 (dv_seen d + 1) /\
     dv_pending d' = dv_pending d ++ [s.(avail_ring) (dv_seen d mod NUM)] /\ dv_sectors d' = dv_sectors d) \/
    (exists id, id ∈ dv_pending d /\
      match exec_chain s id (dv_sectors d) with
      | Some (s1, sectors) => s' = report id s1 /\ dv_seen d' = dv_seen d /\ dv_pending d' = without id (dv_pending d) /\ dv_sectors d' = sectors
      | None => True
      end)
}.

(** ** The system: threads in requests, the handler and the device *)

(** A thread inside [virtio_disk_rw], with its locals. *)
Record frame : Type := MkFrame { f_td : Z; f_b : Z; f_write : bool; f_idx : Z * Z * Z }.
#[export] Instance frame_eq_dec : EqDecision frame.
Proof. solve_decision. Defined.
Definition f_head (f : frame) : Z := fst (fst f.(f_idx)).
Record vsys (D : Type) : Type := MkSys { sv : vst; frames : list frame; in_intr : bool; sdev : D }.
Arguments MkSys {D} _ _ _ _.
Arguments sv {D} _.
Arguments frames {D} _.
Arguments in_intr {D} _.
Arguments sdev {D} _.
(** What the users of the driver see. *)
Inductive label : Type := LStart (td b : Z) (write : bool) | LReturn (td : Z) | LFill (b blk : Z) (data : list Z) | LTau.

(** A buffer is in one request at a time and is not changed meanwhile (its
    user holds it).  Requests hold [mtx_virtio] except while they sleep, the
    handler holds it throughout; the device steps at any time. *)
Inductive vstep {D : Type} `{VirtioDevice D} : vsys D -> label -> vsys D -> Prop :=
| v_start s td b w v' i r : s.(in_intr) = false -> td ∉ map f_td s.(frames) -> b <> 0 -> b ∉ map f_b s.(frames) ->
    virtio_disk_rw td b w s.(sv) = Ok ((i, r), v') ->
    vstep s (LStart td b w) (MkSys v' (s.(frames) ++ [MkFrame td b w i]) false s.(sdev))
| v_wake s td b : vstep s LTau (MkSys (set_sleepers (List.filter (fun p => negb ((fst p =? td) && (snd p =? b))) s.(sv).(sleepers)) s.(sv)) s.(frames) s.(in_intr) s.(sdev))
| v_again s l1 f l2 v' : s.(in_intr) = false -> s.(frames) = l1 ++ f :: l2 -> (f.(f_td), f.(f_b)) ∉ s.(sv).(sleepers) ->
    rw_wait f.(f_td) f.(f_b) (f_head f) s.(sv) = Ok (false, v') -> vstep s LTau (MkSys v' s.(frames) false s.(sdev))
| v_return s l1 f l2 v' : s.(in_intr) = false -> s.(frames) = l1 ++ f :: l2 -> (f.(f_td), f.(f_b)) ∉ s.(sv).(sleepers) ->
    rw_wait f.(f_td) f.(f_b) (f_head f) s.(sv) = Ok (true, v') -> vstep s (LReturn f.(f_td)) (MkSys v' (l1 ++ l2) false s.(sdev))
| v_fill s b blk data : b ∉ map f_b s.(frames) -> 0 <= blk < 18446744073709551616 ->
    vstep s (LFill b blk data) (MkSys (set_vbuf b (MkVbuf blk (s.(sv).(bufs) b).(vb_disk) data) s.(sv)) s.(frames) s.(in_intr) s.(sdev))
| v_intr s v' : s.(in_intr) = false -> intr_ack s.(sv) = Ok (tt, v') -> vstep s LTau (MkSys v' s.(frames) true s.(sdev))
| v_round s v' : s.(in_intr) = true -> s.(sv).(used_idx) <> s.(sv).(used_idx_dev) -> intr_round s.(sv) = Ok (tt, v') ->
    vstep s LTau (MkSys v' s.(frames) true s.(sdev))
| v_iret s : s.(in_intr) = true -> s.(sv).(used_idx) = s.(sv).(used_idx_dev) -> vstep s LTau (MkSys s.(sv) s.(frames) false s.(sdev))
| v_dev s d' v' : dv_step s.(sdev) s.(sv) d' v' -> vstep s LTau (MkSys v' s.(frames) s.(in_intr) d').
Inductive vsteps {D : Type} `{VirtioDevice D} (s0 : vsys D) : list label -> vsys D -> Prop :=
| vs_refl : vsteps s0 [] s0
| vs_step tr s l s' : vsteps s0 tr s -> vstep s l s' -> vsteps s0 (tr ++ [l]) s'.

(** ** The specification: a disk with atomic reads and writes *)

Record preq : Type := MkPreq { q_td : Z; q_b : Z; q_write : bool; q_done : bool }.
Record pdisk : Type := MkPdisk { p_sectors : Z -> list Z; p_blockno : Z -> Z; p_data : Z -> list Z; p_reqs : list preq }.
Inductive pstep : pdisk -> label -> pdisk -> Prop :=
| p_start p td b w : td ∉ map q_td p.(p_reqs) -> b ∉ map q_b p.(p_reqs) ->
    pstep p (LStart td b w) (MkPdisk p.(p_sectors) p.(p_blockno) p.(p_data) (p.(p_reqs) ++ [MkPreq td b w false]))
| p_read p l1 td b l2 : p.(p_reqs) = l1 ++ MkPreq td b false false :: l2 ->
    pstep p LTau (MkPdisk p.(p_sectors) p.(p_blockno) (upd p.(p_data) b (p.(p_sectors) (p.(p_blockno) b))) (l1 ++ MkPreq td b false true :: l2))
| p_write p l1 td b l2 : p.(p_reqs) = l1 ++ MkPreq td b true false :: l2 ->
    pstep p LTau (MkPdisk (upd p.(p_sectors) (p.(p_blockno) b) (p.(p_data) b)) p.(p_blockno) p.(p_data) (l1 ++ MkPreq td b true true :: l2))
| p_return p l1 td b w l2 : p.(p_reqs) = l1 ++ MkPreq td b w true :: l2 ->
    pstep p (LReturn td) (MkPdisk p.(p_sectors) p.(p_blockno) p.(p_data) (l1 ++ l2))
| p_fill p b blk data : b ∉ map q_b p.(p_reqs) ->
    pstep p (LFill b blk data) (MkPdisk p.(p_sectors) (upd p.(p_blockno) b blk) (upd p.(p_data) b data) p.(p_reqs)).
Inductive psteps (p0 : pdisk) : list label -> pdisk -> Prop :=
| ps_refl : psteps p0 [] p0
| ps_step tr p l p' : psteps p0 tr p -> pstep p l p' -> psteps p0 (tr ++ [l]) p'.
Definition is_visible (l : label) : bool := match l with LTau => false | _ => true end.
Definition visible (tr : list label) : list label := List.filter is_visible tr.

(** ** Descriptors are handed out once *)

Lemma alloc_desc_spec s d s' : alloc_desc s = Ok (d, s') ->
  (d = -1 /\ s' = s /\ forall i, 0 <= i < NUM -> s.(dfree) i = false) \/
  (0 <= d < NUM /\ s.(dfree) d = true /\ s' = set_dfree d false s).
Proof.
  unfold alloc_desc. assert (G : forall n i, 0 <= i -> i + Z.of_nat n = NUM -> (forall j, 0 <= j < i -> s.(dfree) j = false) ->
    alloc_desc_loop n i s = Ok (d, s') -> (d = -1 /\ s' = s /\ forall i, 0 <= i < NUM -> s.(dfree) i = false) \/
    (0 <= d < NUM /\ s.(dfree) d = true /\ s' = set_dfree d false s)).
  { induction n as [|n IH]; intros i Hi Hn Hlow; cbn [alloc_desc_loop].
    - intros [= <- <-]. left. split; [reflexivity|]. split; [reflexivity|]. intros j Hj. apply Hlow. lia.
    - unfold at_state. destruct (dfree s i) eqn:E; [intros [= <- <-]; right; split; [lia|now split]|].
      apply IH; [lia|lia|]. intros j Hj. destruct (Z.eq_dec j i) as [->|]; [exact E|apply Hlow; lia]. }
  apply G; [lia|reflexivity|lia].
Qed.
(** When enough are free, three are taken. *)
Definition taken (i0 i1 i2 : Z) (s : vst) : vst := set_dfree i2 false (set_dfree i1 false (set_dfree i0 false s)).
Record fresh3 (i0 i1 i2 : Z) (s : vst) : Prop := {
  fr_rng : 0 <= i0 < NUM /\ 0 <= i1 < NUM /\ 0 <= i2 < NUM;
  fr_ne : i0 <> i1 /\ i0 <> i2 /\ i1 <> i2;
  fr_free : s.(dfree) i0 = true /\ s.(dfree) i1 = true /\ s.(dfree) i2 = true
}.
Lemma alloc3_spec s idx s' : alloc3_desc s = Ok ((0, idx), s') ->
  exists i0 i1 i2, idx = [i0; i1; i2] /\ fresh3 i0 i1 i2 s /\ s' = taken i0 i1 i2 s.
Proof.
  unfold alloc3_desc. cbn [alloc3_loop app]. intros H. apply bind_ok in H as (a & s1 & Ha & H).
  destruct (Z.ltb_spec a 0); [apply bind_ok in H as (? & ? & _ & H); discriminate|]. apply alloc_desc_spec in Ha as [(-> & _)|(Ra & Fa & ->)]; [lia|].
  apply bind_ok in H as (b & s2 & Hb & H). destruct (Z.ltb_spec b 0); [apply bind_ok in H as (? & ? & _ & H); discriminate|].
  apply alloc_desc_spec in Hb as [(-> & _)|(Rb & Fb & ->)]; [lia|]. apply bind_ok in H as (c & s3 & Hc & H).
  destruct (Z.ltb_spec c 0); [apply bind_ok in H as (? & ? & _ & H); discriminate|]. apply alloc_desc_spec in Hc as [(-> & _)|(Rc & Fc & ->)]; [lia|].
  injection H as <- <-. exists a, b, c. split; [reflexivity|]. cbn [dfree set_dfree] in *. unfold upd in Fb, Fc.
  destruct (Z.eqb_spec b a); [discriminate|]. destruct (Z.eqb_spec c b); [discriminate|]. destruct (Z.eqb_spec c a); [discriminate|].
  split; [|reflexivity]. repeat split; try lia; assumption.
Qed.
(** The state after [virtio_disk_rw] went to sleep. *)
Definition requested (td b : Z) (w : bool) (i0 i1 i2 : Z) (s : vst) : vst :=
  let x := s.(bufs) b in
  MkV (upd (upd (upd s.(desc) i0 (MkDesc (AOps i0) 16 1 i1)) i1 (MkDesc (AData b) 512 (if w then 1 else 3) i2)) i2 (MkDesc (AStatus i0) 1 2 0))
    (wrap16 (s.(avail_idx) + 1)) (upd s.(avail_ring) (s.(avail_idx) mod NUM) i0) s.(used_idx_dev) s.(used_ring)
    (upd (upd (upd s.(dfree) i0 false) i1 false) i2 false) s.(used_idx) (upd s.(info) i0 (MkInfo b 255))
    (upd s.(ops) i0 (MkReq (if w then 1 else 0) 0 (wrap64 (x.(vb_blockno) * 1))))
    (upd s.(bufs) b (MkVbuf x.(vb_blockno) 1 x.(vb_data))) (s.(sleepers) ++ [(td, b)]) s.(irq_status) (s.(mmio) ++ [(80, 0)]).
Lemma rw_run td b w i0 i1 i2 s s' : alloc3_desc s = Ok ((0, [i0; i1; i2]), s') -> s' = taken i0 i1 i2 s ->
  virtio_disk_rw td b w s = Ok ((i0, i1, i2, false), requested td b w i0 i1 i2 s).
Proof.
  intros E ->. unfold virtio_disk_rw, rw_submit. rewrite <- bind_assoc, (bind_run _ _ _ _ _ E). unfold bind at 1. cbn.
  unfold bind, rw_wait, at_state, modify, ret. cbn. rewrite upd_eq. cbn. unfold requested. destruct w; reflexivity.
Qed.
Lemma rw_inv td b w s i r s' : virtio_disk_rw td b w s = Ok ((i, r), s') ->
  exists i0 i1 i2, fresh3 i0 i1 i2 s /\ i = (i0, i1, i2) /\ s' = requested td b w i0 i1 i2 s.
Proof.
  intros H. assert (exists idx s1, alloc3_desc s = Ok ((0, idx), s1)) as (idx & s1 & E).
  { unfold virtio_disk_rw, rw_submit in H. rewrite <- bind_assoc in H. apply bind_ok in H as ([z idx] & s1 & E & H). destruct z; [eauto|discriminate|discriminate]. }
  pose proof (alloc3_spec _ _ _ E) as (i0 & i1 & i2 & -> & Hf & ->). rewrite (rw_run td b w i0 i1 i2 s _ E eq_refl) in H. injection H as <- <- <-. eauto 8.
Qed.

(** ** Rings *)

(** The ring [r] holds [l] between the indices [k] and [e]. *)
Record ring (r : Z -> Z) (k e : Z) (l : list Z) : Prop := {
  rg_start : 0 <= k < 65536;
  rg_end : e = wrap16 (k + Z.of_nat (length l));
  rg_holds : forall j x, l !! j = Some x -> r (wrap16 (k + Z.of_nat j) mod NUM) = x
}.
Lemma ring_push r k e l x : ring r k e l -> (length l < 8)%nat -> ring (upd r (e mod NUM) x) k (wrap16 (e + 1)) (l ++ [x]).
Proof.
  intros [Hk -> Hl] Hn. split; [exact Hk|unfold wrap16; rewrite length_app; cbn [length]; zlia|]. intros j y Hj. apply lookup_app_Some in Hj as [Hj|[Hge Hj]].
  - pose proof (lookup_lt_Some _ _ _ Hj). rewrite upd_ne; [now apply Hl|]. unfold wrap16, NUM. zlia.
  - apply list_lookup_singleton_Some in Hj as [Hj ->]. replace j with (length l) by lia. apply upd_eq.
Qed.
Lemma ring_pop r k e x l : ring r k e (x :: l) -> r (k mod NUM) = x /\ ring r (wrap16 (k + 1)) e l.
Proof.
  intros [Hk -> Hl]. split; [specialize (Hl O x eq_refl); rewrite Z.add_0_r, wrap16_small in Hl by exact Hk; exact Hl|].
  split; [unfold wrap16; zlia|unfold wrap16; cbn [length]; zlia|]. intros j y Hj. specialize (Hl (S j) y Hj). rewrite <- Hl. f_equal. f_equal. unfold wrap16. zlia.
Qed.
Lemma ring_nil r k e l : ring r k e l -> (length l < 8)%nat -> k = e -> l = [].
Proof. intros [Hk -> Hl] Hn H. destruct l as [|x l]; [reflexivity|]. exfalso. cbn [length] in *. unfold wrap16 in H. zlia. Qed.
Lemma ring_cons r k e l : ring r k e l -> k <> e -> exists x l', l = x :: l'.
Proof. intros [Hk -> _] H. destruct l as [|x l]; [|eauto]. exfalso. apply H. cbn. rewrite Z.add_0_r, wrap16_small; [reflexivity|exact Hk]. Qed.

(** ** The invariant *)

Definition f_all (f : frame) : list Z := let '(i0, i1, i2) := f.(f_idx) in [i0; i1; i2].
Definition all_idx (l : list frame) : list Z := concat (map f_all l).
(** The descriptors of a request are as [virtio_disk_rw] left them. *)
Record frame_ok (v : vst) (f : frame) : Prop := {
  fo_d0 : v.(desc) (f_head f) = MkDesc (AOps (f_head f)) 16 1 (snd (fst f.(f_idx)));
  fo_d1 : v.(desc) (snd (fst f.(f_idx))) = MkDesc (AData f.(f_b)) 512 (if f.(f_write) then 1 else 3) (snd f.(f_idx));
  fo_d2 : v.(desc) (snd f.(f_idx)) = MkDesc (AStatus (f_head f)) 1 2 0;
  fo_info : (v.(info) (f_head f)).(i_b) = f.(f_b);
  fo_op : v.(ops) (f_head f) = MkReq (if f.(f_write) then 1 else 0) 0 (v.(bufs) f.(f_b)).(vb_blockno)
}.
(** [Q] is queued for the device, [U] reported and not yet seen by the
    handler, [F] finished. *)
Record vinv {D : Type} `{VirtioDevice D} (s : vsys D) (Q U F : list Z) : Prop := {
  vi_td : NoDup (map f_td s.(frames));
  vi_b : NoDup (map f_b s.(frames));
  vi_bnz : forall f, f ∈ s.(frames) -> f.(f_b) <> 0;
  vi_idx : NoDup (all_idx s.(frames));
  vi_rng : forall i, i ∈ all_idx s.(frames) -> 0 <= i < NUM;
  vi_free : forall i, 0 <= i < NUM -> (s.(sv).(dfree) i = false <-> i ∈ all_idx s.(frames));
  vi_frame : forall f, f ∈ s.(frames) -> frame_ok s.(sv) f;
  vi_perm : Q ++ dv_pending s.(sdev) ++ U ++ F ≡ₚ map f_head s.(frames);
  vi_avail : ring s.(sv).(avail_ring) (dv_seen s.(sdev)) s.(sv).(avail_idx) Q;
  vi_used : ring s.(sv).(used_ring) s.(sv).(used_idx) s.(sv).(used_idx_dev) U;
  vi_done : forall f, f ∈ s.(frames) -> f_head f ∈ F -> (s.(sv).(bufs) f.(f_b)).(vb_disk) = 0;
  vi_open : forall f, f ∈ s.(frames) -> f_head f ∉ F -> (s.(sv).(bufs) f.(f_b)).(vb_disk) = 1;
  vi_status : forall i, i ∈ U -> (s.(sv).(info) i).(i_status) = 0;
  vi_irq : U <> [] -> s.(in_intr) = true \/ Z.testbit s.(sv).(irq_status) 0 = true;
  vi_sleep : forall td b, (td, b) ∈ s.(sv).(sleepers) -> exists f, f ∈ s.(frames) /\ f.(f_td) = td /\ f.(f_b) = b /\ f_head f ∉ F;
  vi_blk : forall b, 0 <= (s.(sv).(bufs) b).(vb_blockno) < 18446744073709551616
}.

Lemma all_idx_split l1 f l2 : all_idx (l1 ++ f :: l2) ≡ₚ f_all f ++ all_idx (l1 ++ l2).
Proof. unfold all_idx. rewrite !map_app, !concat_app. cbn [map concat]. rewrite !app_assoc, (Permutation_app_comm (concat (map f_all l1)) (f_all f)). now rewrite <- !app_assoc. Qed.
Lemma f_all_eq f : f_all f = [f_head f; snd (fst f.(f_idx)); snd f.(f_idx)].
Proof. unfold f_all, f_head. now destruct (f_idx f) as [[a b] c]. Qed.
Lemma all_idx_in l f i : f ∈ l -> i ∈ f_all f -> i ∈ all_idx l.
Proof. intros Hf Hi. apply list_elem_of_split in Hf as (l1 & l2 & ->). rewrite all_idx_split. set_solver. Qed.
Lemma head_in_all f : f_head f ∈ f_all f.
Proof. rewrite f_all_eq. set_solver. Qed.
Lemma idx_apart l f g i : NoDup (all_idx l) -> f ∈ l -> g ∈ l -> i ∈ f_all f -> i ∈ f_all g -> f = g.
Proof.
  intros Hn Hf Hg Hif Hig. apply list_elem_of_split in Hf as (l1 & l2 & ->). rewrite all_idx_split in Hn. apply NoDup_app in Hn as (_ & Hd & _).
  destruct (decide (g ∈ l1 ++ l2)) as [Hin|Hout]; [exfalso; exact (Hd i Hif (all_idx_in _ g i Hin Hig))|]. set_solver.
Qed.
Lemma all_idx_length l : length (all_idx l) = (3 * length l)%nat.
Proof. unfold all_idx. induction l as [|f l IH]; [reflexivity|]. cbn [map concat length]. rewrite length_app, IH, f_all_eq. cbn [length]. lia. Qed.
Lemma idx_count l : NoDup (all_idx l) -> (forall i, i ∈ all_idx l -> 0 <= i < NUM) -> (length l <= 2)%nat.
Proof.
  intros Hn Hr. assert (Hs : all_idx l ⊆+ seqZ 0 NUM) by (apply NoDup_submseteq; [exact Hn|]; intros x Hx; apply elem_of_seqZ; specialize (Hr x Hx); lia).
  apply submseteq_length in Hs. rewrite length_seqZ in Hs. rewrite all_idx_length in Hs. unfold NUM in Hs. lia.
Qed.
Lemma heads_NoDup l : NoDup (all_idx l) -> NoDup (map f_head l).
Proof.
  induction l as [|f l IH]; intros Hn; [constructor|]. cbn [map]. pose proof (all_idx_split [] f l) as E. cbn [app] in E. rewrite E in Hn. apply NoDup_app in Hn as (_ & Hd & Hn).
  constructor; [|now apply IH]. intros Hin. apply list_elem_of_fmap in Hin as (g & Hg & Hin). apply (Hd (f_head f)); [apply head_in_all|]. rewrite Hg. exact (all_idx_in l g _ Hin (head_in_all g)).
Qed.
Lemma frame_ok_agree v v' f : frame_ok v f -> (forall i, i ∈ f_all f -> v'.(desc) i = v.(desc) i) -> (v'.(info) (f_head f)).(i_b) = (v.(info) (f_head f)).(i_b) ->
  v'.(ops) (f_head f) = v.(ops) (f_head f) -> (v'.(bufs) f.(f_b)).(vb_blockno) = (v.(bufs) f.(f_b)).(vb_blockno) -> frame_ok v' f.
Proof.
  intros [D0 D1 D2 Hi Ho] Hd Hb Hop Hblk. rewrite f_all_eq in Hd.
  split; [rewrite Hd by set_solver|rewrite Hd by set_solver|rewrite Hd by set_solver|congruence|congruence]; assumption.
Qed.

Section Invariant.
Context {D : Type} `{VirtioDevice D}.
Implicit Types s : vsys D.

Lemma inv_count s Q U F : vinv s Q U F -> (length Q + length (dv_pending s.(sdev)) + length U + length F <= 2)%nat.
Proof. intros I. pose proof (idx_count _ (vi_idx _ _ _ _ I) (vi_rng _ _ _ _ I)) as Hc. pose proof (Permutation_length (vi_perm _ _ _ _ I)) as Hl. rewrite !length_app, length_map in Hl. lia. Qed.
Lemma inv_NoDup s Q U F : vinv s Q U F -> NoDup (Q ++ dv_pending s.(sdev) ++ U ++ F).
Proof. intros I. rewrite (vi_perm _ _ _ _ I). apply heads_NoDup, (vi_idx _ _ _ _ I). Qed.
Lemma inv_owner s Q U F i : vinv s Q U F -> i ∈ Q ++ dv_pending s.(sdev) ++ U ++ F -> exists f, f ∈ s.(frames) /\ f_head f = i.
Proof. intros I Hi. rewrite (vi_perm _ _ _ _ I) in Hi. apply list_elem_of_fmap in Hi as (f & -> & Hf). eauto. Qed.
Lemma inv_part s Q U F f : vinv s Q U F -> f ∈ s.(frames) -> f_head f ∈ Q ++ dv_pending s.(sdev) ++ U ++ F.
Proof. intros I Hf. rewrite (vi_perm _ _ _ _ I). now apply list_elem_of_fmap_2. Qed.
Lemma head_inj s Q U F f g : vinv s Q U F -> f ∈ s.(frames) -> g ∈ s.(frames) -> f_head f = f_head g -> f = g.
Proof. intros I Hf Hg E. apply (idx_apart s.(frames) f g (f_head f) (vi_idx _ _ _ _ I) Hf Hg (head_in_all f)). rewrite E. apply head_in_all. Qed.
Lemma b_inj s Q U F f g : vinv s Q U F -> f ∈ s.(frames) -> g ∈ s.(frames) -> f.(f_b) = g.(f_b) -> f = g.
Proof.
  intros I Hf Hg E. pose proof (vi_b _ _ _ _ I) as Hn. apply list_elem_of_split in Hf as (l1 & l2 & El). rewrite El in *. rewrite map_app in Hn. cbn [map] in Hn.
  assert (Hx : f.(f_b) ∉ map f_b l1 /\ f.(f_b) ∉ map f_b l2) by (rewrite NoDup_app, NoDup_cons in Hn; set_solver). rewrite elem_of_app, elem_of_cons in Hg.
  destruct Hg as [Hg|[Hg|Hg]]; [exfalso; apply (proj1 Hx); rewrite E; now apply list_elem_of_fmap_2|easy|exfalso; apply (proj2 Hx); rewrite E; now apply list_elem_of_fmap_2].
Qed.

(** Only the sleepers, the buffers outside requests, the interrupt or the
    registers change. *)
Lemma inv_light s Q U F v' k : vinv s Q U F ->
  v'.(desc) = s.(sv).(desc) -> v'.(avail_idx) = s.(sv).(avail_idx) -> v'.(avail_ring) = s.(sv).(avail_ring) ->
  v'.(used_idx_dev) = s.(sv).(used_idx_dev) -> v'.(used_ring) = s.(sv).(used_ring) -> v'.(used_idx) = s.(sv).(used_idx) ->
  v'.(dfree) = s.(sv).(dfree) -> v'.(info) = s.(sv).(info) -> v'.(ops) = s.(sv).(ops) ->
  (forall b, b ∈ map f_b s.(frames) -> v'.(bufs) b = s.(sv).(bufs) b) -> (forall b, 0 <= (v'.(bufs) b).(vb_blockno) < 18446744073709551616) ->
  (forall td b, (td, b) ∈ v'.(sleepers) -> (td, b) ∈ s.(sv).(sleepers) \/ exists f, f ∈ s.(frames) /\ f.(f_td) = td /\ f.(f_b) = b /\ f_head f ∉ F) ->
  (U <> [] -> k = true \/ Z.testbit v'.(irq_status) 0 = true) ->
  vinv (MkSys v' s.(frames) k s.(sdev)) Q U F.
Proof.
  intros I E1 E2 E3 E4 E5 E6 E7 E8 E9 Hb Hblk Hsl Hirq. assert (Hb' : forall f, f ∈ s.(frames) -> v'.(bufs) f.(f_b) = s.(sv).(bufs) f.(f_b)) by (intros f Hf; apply Hb; now apply list_elem_of_fmap_2).
  destruct I. split; cbn [sv frames in_intr sdev]; rewrite ?E1, ?E2, ?E3, ?E4, ?E5, ?E6, ?E7, ?E8, ?E9; auto.
  - intros f Hf. apply (frame_ok_agree s.(sv) v' f (vi_frame0 f Hf)); rewrite ?E1, ?E8, ?E9, ?(Hb' f Hf); auto.
  - intros f Hf HF. rewrite (Hb' f Hf). auto.
  - intros f Hf HF. rewrite (Hb' f Hf). auto.
  - intros td b Hin. destruct (Hsl td b Hin) as [Hin'|Hin']; [now apply vi_sleep0|exact Hin'].
Qed.
Lemma keeps_wake s Q U F td b : vinv s Q U F ->
  vinv (MkSys (set_sleepers (List.filter (fun p => negb ((fst p =? td) && (snd p =? b))) s.(sv).(sleepers)) s.(sv)) s.(frames) s.(in_intr) s.(sdev)) Q U F.
Proof.
  intros I. apply (inv_light s Q U F _ s.(in_intr) I); try reflexivity; [exact (vi_blk _ _ _ _ I)| |exact (vi_irq _ _ _ _ I)].
  intros t c Hin. left. cbn [sleepers set_sleepers] in Hin. now apply filter_in in Hin as [Hin _].
Qed.
Lemma keeps_again s Q U F l1 f l2 v' : vinv s Q U F -> s.(in_intr) = false -> s.(frames) = l1 ++ f :: l2 -> rw_wait f.(f_td) f.(f_b) (f_head f) s.(sv) = Ok (false, v') ->
  vinv (MkSys v' s.(frames) false s.(sdev)) Q U F /\ v'.(bufs) = s.(sv).(bufs).
Proof.
  intros I Hk Hl. assert (Hf : f ∈ s.(frames)) by (rewrite Hl; set_solver). unfold rw_wait, at_state. destruct (Z.eqb_spec (vb_disk (bufs (sv s) (f_b f))) 1) as [E|E].
  - intros [= <-]. split; [|reflexivity]. apply (inv_light s Q U F _ false I); try reflexivity; [exact (vi_blk _ _ _ _ I)| |rewrite <- Hk; exact (vi_irq _ _ _ _ I)].
    intros t c Hin. cbn [sleepers set_sleepers] in Hin. rewrite elem_of_app, list_elem_of_singleton in Hin. destruct Hin as [Hin|[= -> ->]]; [now left|]. right. exists f.
    split; [exact Hf|]. split; [reflexivity|]. split; [reflexivity|]. intros HF. rewrite (vi_done _ _ _ _ I f Hf HF) in E. lia.
  - intros Hr. apply bind_ok in Hr as (? & ? & _ & Hr). apply bind_ok in Hr as (? & ? & _ & Hr). discriminate.
Qed.
Lemma keeps_fill s Q U F b blk data : vinv s Q U F -> b ∉ map f_b s.(frames) -> 0 <= blk < 18446744073709551616 ->
  vinv (MkSys (set_vbuf b (MkVbuf blk (s.(sv).(bufs) b).(vb_disk) data) s.(sv)) s.(frames) s.(in_intr) s.(sdev)) Q U F.
Proof.
  intros I Hb Hblk. apply (inv_light s Q U F _ s.(in_intr) I); try reflexivity; cbn [bufs set_vbuf sleepers irq_status].
  - intros c Hc. apply upd_ne. intros ->. contradiction.
  - intros c. unfold upd. destruct (Z.eqb_spec c b); [exact Hblk|apply (vi_blk _ _ _ _ I)].
  - intros t c Hin. now left.
  - exact (vi_irq _ _ _ _ I).
Qed.
Lemma keeps_intr s Q U F v' : vinv s Q U F -> intr_ack s.(sv) = Ok (tt, v') -> vinv (MkSys v' s.(frames) true s.(sdev)) Q U F /\ v'.(bufs) = s.(sv).(bufs).
Proof.
  intros I Hr. unfold intr_ack, at_state, wr_reg, modify, bind in Hr. injection Hr as <-. split; [|reflexivity].
  apply (inv_light s Q U F _ true I); try reflexivity; [exact (vi_blk _ _ _ _ I)|intros t c Hin; now left|now left].
Qed.
Lemma keeps_iret s Q U F : vinv s Q U F -> s.(sv).(used_idx) = s.(sv).(used_idx_dev) -> vinv (MkSys s.(sv) s.(frames) false s.(sdev)) Q U F /\ U = [].
Proof.
  intros I E. pose proof (inv_count s Q U F I). pose proof (ring_nil _ _ _ _ (vi_used _ _ _ _ I) ltac:(lia) E) as ->. split; [|reflexivity].
  apply (inv_light s Q [] F _ false I); try reflexivity; [exact (vi_blk _ _ _ _ I)|intros t c Hin; now left|easy].
Qed.
Lemma frame_requested_old td b w i0 i1 i2 v g : frame_ok v g -> (forall i, i ∈ f_all g -> i <> i0 /\ i <> i1 /\ i <> i2) -> g.(f_b) <> b -> frame_ok (requested td b w i0 i1 i2 v) g.
Proof.
  intros Hg Hn Hb. pose proof (Hn _ (head_in_all g)) as (N0 & _). apply (frame_ok_agree v _ g Hg); cbn [desc info ops bufs requested].
  - intros i Hi. destruct (Hn i Hi) as (? & ? & ?). now rewrite !upd_ne.
  - now rewrite upd_ne.
  - now rewrite upd_ne.
  - now rewrite upd_ne.
Qed.
Lemma frame_requested_new td b w i0 i1 i2 v : i0 <> i1 /\ i0 <> i2 /\ i1 <> i2 -> 0 <= (v.(bufs) b).(vb_blockno) < 18446744073709551616 ->
  frame_ok (requested td b w i0 i1 i2 v) (MkFrame td b w (i0, i1, i2)).
Proof.
  intros (N01 & N02 & N12) Hblk. split; unfold f_head; cbn [f_idx f_b f_write fst snd desc info ops bufs requested].
  - rewrite upd_ne, upd_ne by congruence. apply upd_eq.
  - rewrite upd_ne by congruence. apply upd_eq.
  - apply upd_eq.
  - now rewrite upd_eq.
  - rewrite !upd_eq. cbn [vb_blockno]. now rewrite Z.mul_1_r, wrap64_small by exact Hblk.
Qed.
Lemma keeps_start s Q U F td b w i0 i1 i2 : vinv s Q U F -> s.(in_intr) = false -> td ∉ map f_td s.(frames) -> b <> 0 -> b ∉ map f_b s.(frames) -> fresh3 i0 i1 i2 s.(sv) ->
  vinv (MkSys (requested td b w i0 i1 i2 s.(sv)) (s.(frames) ++ [MkFrame td b w (i0, i1, i2)]) false s.(sdev)) (Q ++ [i0]) U F.
Proof.
  intros I Hk Htd Hb0 Hb [Rng Ne Fr]. pose proof (inv_count s Q U F I) as Hc. set (f := MkFrame td b w (i0, i1, i2)).
  assert (Hnew : i0 ∉ all_idx s.(frames) /\ i1 ∉ all_idx s.(frames) /\ i2 ∉ all_idx s.(frames)).
  { repeat split; intros Hin; apply (vi_free _ _ _ _ I) in Hin; try lia; destruct Fr as (? & ? & ?); congruence. }
  assert (Hall : all_idx (s.(frames) ++ [f]) ≡ₚ [i0; i1; i2] ++ all_idx s.(frames)) by (rewrite (all_idx_split s.(frames) f []), app_nil_r; reflexivity).
  assert (Hhead : forall g, g ∈ s.(frames) -> f_head g ∈ all_idx s.(frames)) by (intros g Hg; exact (all_idx_in _ g _ Hg (head_in_all g))).
  assert (Hgb : forall g, g ∈ s.(frames) -> g.(f_b) <> b) by (intros g Hg <-; apply Hb; now apply list_elem_of_fmap_2).
  assert (HU : forall i, i ∈ U -> i <> i0) by (intros i Hi ->; destruct (inv_owner s Q U F i0 I) as (g & Hg & <-); [set_solver|]; now apply (proj1 Hnew), Hhead).
  assert (HF : i0 ∉ F) by (intros Hi; destruct (inv_owner s Q U F i0 I) as (g & Hg & <-); [set_solver|]; now apply (proj1 Hnew), Hhead).
  destruct I. split; cbn [sv frames in_intr sdev requested desc avail_idx avail_ring used_idx_dev used_ring dfree used_idx info ops bufs sleepers irq_status].
  - rewrite map_app. cbn [map f_td]. apply NoDup_app. split; [exact vi_td0|]. split; [set_solver|apply NoDup_singleton].
  - rewrite map_app. cbn [map f_b]. apply NoDup_app. split; [exact vi_b0|]. split; [set_solver|apply NoDup_singleton].
  - intros g Hg. rewrite elem_of_app, list_elem_of_singleton in Hg. destruct Hg as [Hg| ->]; [now apply vi_bnz0|exact Hb0].
  - rewrite Hall. apply NoDup_app. split; [repeat (apply NoDup_cons; split; [set_solver|]); apply NoDup_nil_2|]. split; [set_solver|exact vi_idx0].
  - intros i Hi. rewrite Hall in Hi. cbn [app] in Hi. rewrite !elem_of_cons in Hi. destruct Hi as [->|[->|[->|Hi]]]; [lia|lia|lia|now apply vi_rng0].
  - intros i Hi. rewrite Hall. cbn [app]. rewrite !elem_of_cons, <- (vi_free0 i Hi). unfold upd. destruct (Z.eqb_spec i i2), (Z.eqb_spec i i1), (Z.eqb_spec i i0); subst; tauto.
  - intros g Hg. rewrite elem_of_app, list_elem_of_singleton in Hg. destruct Hg as [Hg| ->].
    + apply frame_requested_old; [now apply vi_frame0|intros i Hi; pose proof (all_idx_in _ g i Hg Hi); repeat split; intros ->; tauto|now apply Hgb].
    + apply frame_requested_new; [exact Ne|apply vi_blk0].
  - rewrite map_app. cbn [map]. unfold f_head at 2. cbn [f f_idx fst]. rewrite <- vi_perm0, <- !app_assoc. apply Permutation_app_head. rewrite (Permutation_app_comm [i0]), <- !app_assoc. reflexivity.
  - apply ring_push; [exact vi_avail0|lia].
  - exact vi_used0.
  - intros g Hg HgF. rewrite elem_of_app, list_elem_of_singleton in Hg. destruct Hg as [Hg| ->]; [rewrite upd_ne by (now apply Hgb); now apply vi_done0|exfalso; exact (HF HgF)].
  - intros g Hg HgF. rewrite elem_of_app, list_elem_of_singleton in Hg. destruct Hg as [Hg| ->]; [rewrite upd_ne by (now apply Hgb); now apply vi_open0|cbn [f f_b]; now rewrite upd_eq].
  - intros i Hi. rewrite upd_ne by (now apply HU). auto.
  - rewrite <- Hk. exact vi_irq0.
  - intros t c Hin. rewrite elem_of_app, list_elem_of_singleton in Hin. destruct Hin as [Hin|[= -> ->]].
    + destruct (vi_sleep0 t c Hin) as (g & Hg & Et & Ec & HgF). exists g. split; [set_solver|auto].
    + exists f. split; [set_solver|auto].
  - intros c. unfold upd. destruct (Z.eqb_spec c b) as [->|]; [cbn|]; apply vi_blk0.
Qed.
Lemma at_run {A B : Type} (g : vst -> M vst A) (k : A -> M vst B) v : bind (at_state g) k v = bind (g v) k v.
Proof. reflexivity. Qed.
Definition returned (i0 i1 i2 : Z) (v : vst) : vst :=
  MkV (upd (upd (upd v.(desc) i0 zero_desc) i1 zero_desc) i2 zero_desc) v.(avail_idx) v.(avail_ring) v.(used_idx_dev) v.(used_ring)
    (upd (upd (upd v.(dfree) i0 true) i1 true) i2 true) v.(used_idx) (upd v.(info) i0 (MkInfo 0 (v.(info) i0).(i_status))) v.(ops) v.(bufs) v.(sleepers) v.(irq_status) v.(mmio).
Lemma free_desc_run i v : 0 <= i < NUM -> v.(dfree) i = false -> free_desc i v = Ok (tt, set_dfree i true (set_desc i zero_desc v)).
Proof. intros Hi Hf. unfold free_desc, at_state. rewrite (proj2 (Z.leb_gt _ _)), (proj2 (Z.ltb_ge _ _)), Hf by lia. reflexivity. Qed.
Lemma return_run f v : frame_ok v f -> NoDup (f_all f) -> (forall i, i ∈ f_all f -> 0 <= i < NUM /\ v.(dfree) i = false) -> (v.(bufs) f.(f_b)).(vb_disk) <> 1 ->
  rw_wait f.(f_td) f.(f_b) (f_head f) v = Ok (true, returned (f_head f) (snd (fst f.(f_idx))) (snd f.(f_idx)) v).
Proof.
  intros [D0 D1 D2 _ _] Hn Hf Hd. rewrite f_all_eq in Hn, Hf. set (i0 := f_head f) in *. set (i1 := snd (fst (f_idx f))) in *. set (i2 := snd (f_idx f)) in *.
  assert (N01 : i0 <> i1 /\ i0 <> i2 /\ i1 <> i2) by (rewrite !NoDup_cons in Hn; set_solver). destruct N01 as (N01 & N02 & N12).
  destruct (Hf i0 ltac:(set_solver)) as [R0 F0]. destruct (Hf i1 ltac:(set_solver)) as [R1 F1]. destruct (Hf i2 ltac:(set_solver)) as [R2 F2].
  unfold rw_wait. unfold at_state at 1. rewrite (proj2 (Z.eqb_neq _ _) Hd). set (v1 := set_info i0 (MkInfo 0 (v.(info) i0).(i_status)) v). rewrite (bind_run (modify (set_info i0 (MkInfo 0 (v.(info) i0).(i_status)))) _ v tt v1 eq_refl).
  change (Z.to_nat NUM) with 8%nat. cbn [free_chain]. rewrite at_run. change (desc v1 i0) with (desc v i0). rewrite D0. cbn [d_flags d_next].
  rewrite <- bind_assoc, (bind_run _ _ _ _ _ (free_desc_run i0 v1 R0 F0)). change (negb (Z.land 1 VRING_DESC_F_NEXT =? 0)) with true. cbv iota.
  rewrite at_run. cbn [desc set_dfree set_desc v1 set_info]. rewrite (upd_ne _ _ _ i1) by congruence. rewrite D1. cbn [d_flags d_next].
  rewrite <- bind_assoc. erewrite (bind_run (free_desc i1)) by (apply free_desc_run; [exact R1|cbn [dfree set_dfree set_desc]; rewrite upd_ne by congruence; exact F1]).
  replace (negb (Z.land (if f_write f then 1 else 3) VRING_DESC_F_NEXT =? 0)) with true by (destruct (f_write f); reflexivity). cbv iota.
  rewrite at_run. cbn [desc set_dfree set_desc v1 set_info]. rewrite (upd_ne _ _ _ i2), (upd_ne _ _ _ i2) by congruence. rewrite D2. cbn [d_flags d_next].
  rewrite <- bind_assoc. erewrite (bind_run (free_desc i2)) by (apply free_desc_run; [exact R2|cbn [dfree set_dfree set_desc]; rewrite !upd_ne by congruence; exact F2]). reflexivity.
Qed.
Lemma part_drop x (A B C F : list Z) : NoDup F -> x ∈ F -> A ++ B ++ C ++ F ≡ₚ x :: A ++ B ++ C ++ without x F.
Proof. intros Hn Hx. etransitivity; [do 3 apply Permutation_app_head; exact (without_perm x F Hn Hx)|]. now rewrite !app_assoc, <- Permutation_middle. Qed.
Lemma frame_facts s Q U F l1 f l2 : vinv s Q U F -> s.(frames) = l1 ++ f :: l2 ->
  NoDup (f_all f) /\ (forall i, i ∈ f_all f -> 0 <= i < NUM /\ s.(sv).(dfree) i = false) /\ NoDup (all_idx (l1 ++ l2)) /\ (forall i, i ∈ f_all f -> i ∉ all_idx (l1 ++ l2)).
Proof.
  intros I Hl. pose proof (vi_idx _ _ _ _ I) as Hn. rewrite Hl, all_idx_split in Hn. apply NoDup_app in Hn as (H1 & H2 & H3). split; [exact H1|]. split; [|now split].
  intros i Hi. assert (Ha : i ∈ all_idx s.(frames)) by (apply (all_idx_in _ f); [rewrite Hl; set_solver|exact Hi]). pose proof (vi_rng _ _ _ _ I i Ha) as Hr. split; [exact Hr|now apply (vi_free _ _ _ _ I)].
Qed.
Lemma heads_split l1 f l2 : map f_head (l1 ++ f :: l2) ≡ₚ f_head f :: map f_head (l1 ++ l2).
Proof. rewrite !map_app. cbn [map]. symmetry. apply Permutation_middle. Qed.
Lemma keeps_return s Q U F l1 f l2 v' : vinv s Q U F -> s.(in_intr) = false -> s.(frames) = l1 ++ f :: l2 -> (f.(f_td), f.(f_b)) ∉ s.(sv).(sleepers) ->
  rw_wait f.(f_td) f.(f_b) (f_head f) s.(sv) = Ok (true, v') ->
  f_head f ∈ F /\ vinv (MkSys v' (l1 ++ l2) false s.(sdev)) Q U (without (f_head f) F) /\ v'.(bufs) = s.(sv).(bufs).
Proof.
  intros I Hk Hl Hsl Hr. destruct (frame_facts s Q U F l1 f l2 I Hl) as (Hfn & Hff & Hrest & Hout). pose proof (inv_NoDup s Q U F I) as Hnd.
  assert (Hf : f ∈ s.(frames)) by (rewrite Hl; set_solver). assert (Hsub : forall g, g ∈ l1 ++ l2 -> g ∈ s.(frames)) by (intros g; rewrite Hl; set_solver).
  assert (HF : f_head f ∈ F).
  { destruct (decide (f_head f ∈ F)) as [|Hno]; [assumption|]. exfalso. unfold rw_wait, at_state in Hr. rewrite (vi_open _ _ _ _ I f Hf Hno) in Hr. discriminate. }
  rewrite (return_run f s.(sv) (vi_frame _ _ _ _ I f Hf) Hfn Hff) in Hr by (rewrite (vi_done _ _ _ _ I f Hf HF); lia). injection Hr as <-.
  assert (Hne : forall g, g ∈ l1 ++ l2 -> forall i, i ∈ f_all g -> i <> f_head f /\ i <> snd (fst (f_idx f)) /\ i <> snd (f_idx f)).
  { intros g Hg i Hi. pose proof (all_idx_in _ g i Hg Hi) as Ha. rewrite f_all_eq in Hout. repeat split; intros ->; eapply Hout; [|exact Ha| |exact Ha| |exact Ha]; set_solver. }
  assert (Hpart : NoDup F /\ f_head f ∉ U) by (rewrite !NoDup_app in Hnd; set_solver). destruct Hpart as [HnF HU].
  split; [exact HF|]. split; [|reflexivity]. pose proof (vi_td _ _ _ _ I) as Htd. pose proof (vi_b _ _ _ _ I) as Hb. rewrite Hl, map_app in Htd, Hb. cbn [map] in Htd, Hb.
  destruct I. split; cbn [sv frames in_intr sdev returned desc avail_idx avail_ring used_idx_dev used_ring dfree used_idx info ops bufs sleepers irq_status].
  - rewrite map_app. rewrite <- Permutation_middle in Htd. now apply NoDup_cons in Htd as [_ Htd].
  - rewrite map_app. rewrite <- Permutation_middle in Hb. now apply NoDup_cons in Hb as [_ Hb].
  - auto.
  - exact Hrest.
  - intros i Hi. apply vi_rng0. rewrite Hl, all_idx_split. set_solver.
  - intros i Hi. specialize (vi_free0 i Hi). rewrite Hl, all_idx_split, f_all_eq in vi_free0. cbn [app] in vi_free0. rewrite !elem_of_cons in vi_free0. rewrite f_all_eq in Hout. unfold upd.
    repeat match goal with |- context [i =? ?j] => destruct (Z.eqb_spec i j) as [->|]; [split; [discriminate|intros Ha; exfalso; refine (Hout _ _ Ha); clear; set_solver]|] end. tauto.
  - intros g Hg. pose proof (Hne g Hg _ (head_in_all g)) as (N0 & _). apply (frame_ok_agree s.(sv) _ g (vi_frame0 g (Hsub g Hg))); cbn [desc info ops bufs returned]; [|now rewrite upd_ne|reflexivity|reflexivity].
    intros i Hi. destruct (Hne g Hg i Hi) as (? & ? & ?). now rewrite !upd_ne.
  - rewrite Hl, heads_split in vi_perm0. apply (Permutation_cons_inv (a := f_head f)). rewrite <- vi_perm0. symmetry. now apply part_drop.
  - exact vi_avail0.
  - exact vi_used0.
  - intros g Hg Hd. apply without_in in Hd as [Hd _]. auto.
  - intros g Hg Hd. apply vi_open0; [auto|]. intros HgF. apply Hd, without_in. split; [exact HgF|]. apply (Hne g Hg _ (head_in_all g)).
  - intros i Hi. rewrite upd_ne by (intros ->; contradiction). auto.
  - rewrite <- Hk. exact vi_irq0.
  - intros t c Hin. destruct (vi_sleep0 t c Hin) as (g & Hg & Et & Ec & HgF). exists g. assert (g <> f) by (intros ->; apply Hsl; now rewrite Et, Ec).
    rewrite Hl in Hg. split; [set_solver|]. split; [exact Et|]. split; [exact Ec|]. intros Hd. apply without_in in Hd as [Hd _]. contradiction.
  - exact vi_blk0.
Qed.
Definition rounded (b : Z) (v : vst) : vst :=
  set_used_idx (wrap16 (v.(used_idx) + 1)) (set_sleepers (List.filter (fun p => negb (snd p =? b)) v.(sleepers)) (set_disk_flag b 0 v)).
Lemma round_run s Q i U F : vinv s Q (i :: U) F -> exists f, f ∈ s.(frames) /\ f_head f = i /\ f_head f ∉ F /\ f_head f ∉ U /\ intr_round s.(sv) = Ok (tt, rounded f.(f_b) s.(sv)).
Proof.
  intros I. pose proof (inv_NoDup _ _ _ _ I) as Hnd. destruct (inv_owner s Q (i :: U) F i I) as (f & Hf & Hi); [set_solver|]. exists f. split; [exact Hf|]. split; [exact Hi|].
  assert (HU : i ∉ F /\ i ∉ U) by (cbn [app] in Hnd; rewrite !NoDup_app, NoDup_cons in Hnd; set_solver). rewrite Hi. split; [exact (proj1 HU)|]. split; [exact (proj2 HU)|].
  destruct (ring_pop _ _ _ _ _ (vi_used _ _ _ _ I)) as [Hr _]. assert (Hrng : 0 <= i < NUM) by (apply (vi_rng _ _ _ _ I), (all_idx_in _ f); [exact Hf|rewrite <- Hi; apply head_in_all]).
  unfold intr_round, at_state. rewrite Hr. rewrite (proj2 (Z.leb_le _ _)), (proj2 (Z.ltb_lt _ _)) by lia. cbn [negb andb].
  rewrite (vi_status _ _ _ _ I i ltac:(set_solver)). cbn [Z.eqb negb]. rewrite <- Hi, (fo_info _ _ (vi_frame _ _ _ _ I f Hf)). rewrite (proj2 (Z.eqb_neq _ _) (vi_bnz _ _ _ _ I f Hf)).
  rewrite massert_run by (rewrite (vi_open _ _ _ _ I f Hf) by (rewrite Hi; exact (proj1 HU)); reflexivity). reflexivity.
Qed.
Lemma keeps_round s Q i U F v' : vinv s Q (i :: U) F -> intr_round s.(sv) = Ok (tt, v') -> vinv (MkSys v' s.(frames) true s.(sdev)) Q U (i :: F).
Proof.
  intros I Hr. destruct (round_run s Q i U F I) as (f & Hf & <- & HF & HU & E). rewrite E in Hr. injection Hr as <-.
  assert (Hother : forall g, g ∈ s.(frames) -> f_head g <> f_head f -> g.(f_b) <> f.(f_b)) by (intros g Hg Hne Hb; apply Hne; now rewrite (b_inj _ _ _ _ g f I Hg Hf Hb)).
  pose proof (fun g Hg => head_inj _ _ _ _ g f I Hg Hf) as Hinj. destruct I.
  split; cbn [sv frames in_intr sdev rounded set_used_idx set_sleepers set_disk_flag set_vbuf desc avail_idx avail_ring used_idx_dev used_ring dfree used_idx info ops bufs sleepers irq_status]; auto.
  - intros g Hg. apply (frame_ok_agree s.(sv) _ g (vi_frame0 g Hg)); try reflexivity. cbn. unfold upd. now destruct (Z.eqb_spec (f_b g) (f_b f)) as [->|].
  - rewrite <- vi_perm0. cbn [app]. do 2 apply Permutation_app_head. symmetry. apply (Permutation_middle U F (f_head f)).
  - now apply (ring_pop _ _ _ _ _ vi_used0).
  - intros g Hg Hd. destruct (Z.eq_dec (f_head g) (f_head f)) as [Eg|Ng]; [rewrite (Hinj g Hg Eg); now rewrite upd_eq|]. rewrite upd_ne by now apply Hother. apply vi_done0; [exact Hg|set_solver].
  - intros g Hg Hd. rewrite upd_ne by (apply Hother; [exact Hg|set_solver]). apply vi_open0; [exact Hg|set_solver].
  - intros j Hj. apply vi_status0. set_solver.
  - intros t c Hin. apply filter_in in Hin as [Hin Hc]. cbn [snd] in Hc. apply negb_true_iff, Z.eqb_neq in Hc. destruct (vi_sleep0 t c Hin) as (g & Hg & Et & Ec & HgF).
    exists g. split; [exact Hg|]. split; [exact Et|]. split; [exact Ec|]. rewrite not_elem_of_cons. split; [|exact HgF]. intros Eg. apply Hc. now rewrite <- Ec, (Hinj g Hg Eg).
  - intros c. unfold upd. destruct (Z.eqb_spec c (f_b f)); cbn; apply vi_blk0.
Qed.
(** ** The device *)

Lemma keeps_fetch s Q U F d' : vinv s Q U F -> dv_seen s.(sdev) <> s.(sv).(avail_idx) -> dv_seen d' = wrap16 (dv_seen s.(sdev) + 1) ->
  dv_pending d' = dv_pending s.(sdev) ++ [s.(sv).(avail_ring) (dv_seen s.(sdev) mod NUM)] -> exists Q', vinv (MkSys s.(sv) s.(frames) s.(in_intr) d') Q' U F.
Proof.
  intros I Hne Hs Hp. destruct (ring_cons _ _ _ _ (vi_avail _ _ _ _ I) Hne) as (x & Q' & ->). destruct (ring_pop _ _ _ _ _ (vi_avail _ _ _ _ I)) as [Hx Hr]. rewrite Hx in Hp.
  exists Q'. destruct I. split; cbn [sv frames in_intr sdev]; auto.
  - rewrite <- vi_perm0, Hp, <- !app_assoc. cbn [app]. rewrite (app_assoc Q' (dv_pending (sdev s)) (x :: _)), <- Permutation_middle, <- app_assoc. reflexivity.
  - now rewrite Hs.
Qed.
(** What the device does with a request of the driver. *)
Definition executed (f : frame) (sectors : Z -> list Z) (v : vst) : vst :=
  let x := v.(bufs) f.(f_b) in
  let v1 := set_info (f_head f) (MkInfo f.(f_b) 0) v in
  if f.(f_write) then v1 else set_vbuf f.(f_b) (MkVbuf x.(vb_blockno) x.(vb_disk) (sectors x.(vb_blockno))) v1.
Lemma exec_run f v sectors : frame_ok v f ->
  exec_chain v (f_head f) sectors =
    Some (executed f sectors v, if f.(f_write) then upd sectors (v.(bufs) f.(f_b)).(vb_blockno) (v.(bufs) f.(f_b)).(vb_data) else sectors).
Proof.
  intros [D0 D1 D2 Hi Ho]. unfold exec_chain. rewrite D0. cbn [d_next d_addr]. rewrite D1. cbn [d_next d_addr]. rewrite D2. cbn [d_next d_addr d_len].
  rewrite Ho, Hi. unfold executed, has_flag. cbn [d_flags r_type r_sector]. destruct (f_write f); reflexivity.
Qed.
Lemma keeps_complete s Q U F d' f : vinv s Q U F -> f ∈ s.(frames) -> f_head f ∈ dv_pending s.(sdev) ->
  dv_seen d' = dv_seen s.(sdev) -> dv_pending d' = without (f_head f) (dv_pending s.(sdev)) ->
  vinv (MkSys (report (f_head f) (executed f (dv_sectors s.(sdev)) s.(sv))) s.(frames) s.(in_intr) d') Q (U ++ [f_head f]) F.
Proof.
  intros I Hf Hp Hs Hd. pose proof (inv_count _ _ _ _ I) as Hc. pose proof (inv_NoDup _ _ _ _ I) as Hnd. assert (Hpn : NoDup (dv_pending (sdev s))) by (rewrite !NoDup_app in Hnd; tauto).
  assert (Eblk : forall b, (bufs (executed f (dv_sectors (sdev s)) (sv s)) b).(vb_blockno) = (s.(sv).(bufs) b).(vb_blockno) /\ (bufs (executed f (dv_sectors (sdev s)) (sv s)) b).(vb_disk) = (s.(sv).(bufs) b).(vb_disk)).
  { intros b. unfold executed. destruct (f_write f); [easy|]. cbn. unfold upd. now destruct (Z.eqb_spec b (f_b f)) as [->|]. }
  assert (E : desc (executed f (dv_sectors (sdev s)) (sv s)) = desc (sv s) /\ info (executed f (dv_sectors (sdev s)) (sv s)) = upd (info (sv s)) (f_head f) (MkInfo (f_b f) 0) /\
    ops (executed f (dv_sectors (sdev s)) (sv s)) = ops (sv s)) by (unfold executed; now destruct (f_write f)). destruct E as (E1 & E2 & E3).
  destruct I. split; cbn [sv frames in_intr sdev report set_irq set_used desc avail_idx avail_ring used_idx_dev used_ring dfree used_idx info ops bufs sleepers irq_status]; auto.
  all: try (unfold executed; destruct (f_write f); cbn; solve [auto]).
  - intros g Hg. apply (frame_ok_agree s.(sv) _ g (vi_frame0 g Hg)); cbn [report set_irq set_used desc info ops bufs]; rewrite ?E1, ?E2, ?E3; try reflexivity; [|apply Eblk].
    unfold upd. destruct (Z.eqb_spec (f_head g) (f_head f)) as [Eg|]; [|reflexivity]. cbn [i_b]. rewrite Eg. symmetry. apply (fo_info _ _ (vi_frame0 f Hf)).
  - rewrite <- vi_perm0, Hd. apply Permutation_app_head. etransitivity; [|apply Permutation_app_tail; symmetry; exact (without_perm _ _ Hpn Hp)].
    rewrite <- app_assoc, (app_assoc (without _ _) U). cbn [app]. rewrite <- Permutation_middle, <- app_assoc. reflexivity.
  - rewrite Hs. unfold executed; destruct (f_write f); exact vi_avail0.
  - pose proof (ring_push _ _ _ _ (f_head f) vi_used0 ltac:(lia)) as R. unfold executed; destruct (f_write f); exact R.
  - intros g Hg HgF. rewrite (proj2 (Eblk _)). auto.
  - intros g Hg HgF. rewrite (proj2 (Eblk _)). auto.
  - intros j Hj. rewrite E2. unfold upd. destruct (Z.eqb_spec j (f_head f)) as [->|]; [reflexivity|]. apply vi_status0. set_solver.
  - intros _. right. rewrite Z.lor_spec. apply orb_true_r.
  - intros b. rewrite (proj1 (Eblk _)). auto.
Qed.
End Invariant.

(** ** The simulation *)

Section Refinement.
Context {D : Type} `{VirtioDevice D}.
Implicit Types s : vsys D.

(** A request of the specification is done once the device reported it. *)
Definition abs_req (W : list Z) (f : frame) : preq := MkPreq f.(f_td) f.(f_b) f.(f_write) (bool_decide (f_head f ∈ W)).
Record vrel (s : vsys D) (p : pdisk) (Q U F : list Z) : Prop := {
  vr_inv : vinv s Q U F;
  vr_sec : forall n, p.(p_sectors) n = dv_sectors s.(sdev) n;
  vr_blk : forall b, p.(p_blockno) b = (s.(sv).(bufs) b).(vb_blockno);
  vr_data : forall b, p.(p_data) b = (s.(sv).(bufs) b).(vb_data);
  vr_reqs : p.(p_reqs) = map (abs_req (U ++ F)) s.(frames)
}.
Lemma abs_ext W W' l : (forall f, f ∈ l -> f_head f ∈ W <-> f_head f ∈ W') -> map (abs_req W) l = map (abs_req W') l.
Proof. intros Hx. apply map_ext_in. intros f Hf. unfold abs_req. f_equal. apply bool_decide_ext, Hx. now apply list_elem_of_In. Qed.
Lemma abs_b W l : map q_b (map (abs_req W) l) = map f_b l.
Proof. rewrite map_map. reflexivity. Qed.
Lemma abs_td W l : map q_td (map (abs_req W) l) = map f_td l.
Proof. rewrite map_map. reflexivity. Qed.
Lemma ps_one p l p' : pstep p l p' -> psteps p [l] p'.
Proof. intros E. exact (ps_step p [] p l p' (ps_refl p) E). Qed.
(** A step of the driver or the device is none or one of the disk. *)
Definition simulated (l : label) (p : pdisk) (s' : vsys D) : Prop :=
  exists p' tr Q U F, psteps p tr p' /\ visible tr = visible [l] /\ vrel s' p' Q U F.
Lemma sim_silent p s Q U F s' Q' U' F' : vrel s p Q U F -> vinv s' Q' U' F' -> s'.(frames) = s.(frames) -> s'.(sv).(bufs) = s.(sv).(bufs) -> dv_sectors s'.(sdev) = dv_sectors s.(sdev) ->
  (forall i, i ∈ U' ++ F' <-> i ∈ U ++ F) -> simulated LTau p s'.
Proof.
  intros [I Hs Hb Hd Hr] I' Ef Eb Es Hw. exists p, [], Q', U', F'. split; [constructor|]. split; [reflexivity|]. split; [exact I'| | | |].
  - now rewrite Es.
  - now rewrite Eb.
  - now rewrite Eb.
  - rewrite Hr, Ef. apply abs_ext. intros f _. symmetry. apply Hw.
Qed.
Lemma sim_round p s Q i U F v' f : vrel s p Q (i :: U) F -> vinv (MkSys v' s.(frames) true s.(sdev)) Q U (i :: F) -> f ∈ s.(frames) -> v' = rounded f.(f_b) s.(sv) ->
  simulated LTau p (MkSys v' s.(frames) true s.(sdev)).
Proof.
  intros [I Hs Hb Hd Hr] I' Hf ->. exists p, [], Q, U, (i :: F). split; [constructor|]. split; [reflexivity|]. split; [exact I'|exact Hs| | |]; cbn [sv frames].
  - intros b. rewrite Hb. cbn. unfold upd. now destruct (Z.eqb_spec b (f_b f)) as [->|].
  - intros b. rewrite Hd. cbn. unfold upd. now destruct (Z.eqb_spec b (f_b f)) as [->|].
  - rewrite Hr. apply abs_ext. intros g _. cbn [app]. rewrite !elem_of_cons, !elem_of_app, elem_of_cons. tauto.
Qed.
Lemma sim_start p s Q U F td b w i r v' : vrel s p Q U F -> s.(in_intr) = false -> td ∉ map f_td s.(frames) -> b <> 0 -> b ∉ map f_b s.(frames) ->
  virtio_disk_rw td b w s.(sv) = Ok ((i, r), v') -> simulated (LStart td b w) p (MkSys v' (s.(frames) ++ [MkFrame td b w i]) false s.(sdev)).
Proof.
  intros [I Hs Hb Hd Hr] Hk Htd Hb0 Hbf Hrw. apply rw_inv in Hrw as (i0 & i1 & i2 & Hfr & -> & ->). pose proof (keeps_start s Q U F td b w i0 i1 i2 I Hk Htd Hb0 Hbf Hfr) as I'.
  exists (MkPdisk p.(p_sectors) p.(p_blockno) p.(p_data) (p.(p_reqs) ++ [MkPreq td b w false])), [LStart td b w], (Q ++ [i0]), U, F.
  split; [apply ps_one, p_start; [now rewrite Hr, abs_td|now rewrite Hr, abs_b]|]. split; [reflexivity|]. split; [exact I'|exact Hs| | |]; cbn [p_blockno p_data p_reqs sv frames requested bufs].
  - intros c. rewrite Hb. unfold upd. now destruct (Z.eqb_spec c b) as [->|].
  - intros c. rewrite Hd. unfold upd. now destruct (Z.eqb_spec c b) as [->|].
  - rewrite Hr, map_app. cbn [map]. unfold abs_req at 3. cbn [f_td f_b f_write]. do 3 f_equal. symmetry. apply bool_decide_eq_false. unfold f_head. cbn [f_idx fst].
    pose proof (inv_NoDup _ _ _ _ I') as Hn. cbn [sdev] in Hn. rewrite <- app_assoc in Hn. apply NoDup_app in Hn as (_ & _ & Hn). cbn [app] in Hn. apply NoDup_cons in Hn as [Hn _]. set_solver.
Qed.
Lemma sim_return p s Q U F l1 f l2 v' : vrel s p Q U F -> s.(in_intr) = false -> s.(frames) = l1 ++ f :: l2 -> (f.(f_td), f.(f_b)) ∉ s.(sv).(sleepers) ->
  rw_wait f.(f_td) f.(f_b) (f_head f) s.(sv) = Ok (true, v') -> simulated (LReturn f.(f_td)) p (MkSys v' (l1 ++ l2) false s.(sdev)).
Proof.
  intros [I Hs Hb Hd Hr] Hk Hl Hsl Hw. destruct (keeps_return s Q U F l1 f l2 v' I Hk Hl Hsl Hw) as (HF & I' & Eb).
  exists (MkPdisk p.(p_sectors) p.(p_blockno) p.(p_data) (map (abs_req (U ++ F)) (l1 ++ l2))), [LReturn f.(f_td)], Q, U, (without (f_head f) F).
  split; [apply ps_one; rewrite map_app; apply (p_return p _ f.(f_td) f.(f_b) f.(f_write)); rewrite Hr, Hl, map_app; cbn [map]; unfold abs_req at 2; rewrite bool_decide_eq_true_2 by set_solver; reflexivity|].
  split; [reflexivity|]. split; [exact I'|exact Hs|intros c; cbn [sv]; rewrite Eb; apply Hb|intros c; cbn [sv]; rewrite Eb; apply Hd|]. cbn [p_reqs frames].
  apply abs_ext. intros g Hg. rewrite !elem_of_app, without_in. destruct (frame_facts s Q U F l1 f l2 I Hl) as (_ & _ & _ & Hout).
  assert (f_head g <> f_head f) by (intros E; apply (Hout (f_head f) (head_in_all f)); rewrite <- E; exact (all_idx_in _ g _ Hg (head_in_all g))). tauto.
Qed.
Lemma sim_complete p s Q U F d' f : vrel s p Q U F -> f ∈ s.(frames) -> f_head f ∈ dv_pending s.(sdev) ->
  dv_seen d' = dv_seen s.(sdev) -> dv_pending d' = without (f_head f) (dv_pending s.(sdev)) ->
  dv_sectors d' = (if f.(f_write) then upd (dv_sectors s.(sdev)) (s.(sv).(bufs) f.(f_b)).(vb_blockno) (s.(sv).(bufs) f.(f_b)).(vb_data) else dv_sectors s.(sdev)) ->
  simulated LTau p (MkSys (report (f_head f) (executed f (dv_sectors s.(sdev)) s.(sv))) s.(frames) s.(in_intr) d').
Proof.
  intros [I Hs Hb Hd Hr] Hf Hp Hseen Hpend Hsec. pose proof (keeps_complete s Q U F d' f I Hf Hp Hseen Hpend) as I'. pose proof (inv_NoDup _ _ _ _ I) as Hn.
  assert (Hout : f_head f ∉ U ++ F) by (rewrite !NoDup_app in Hn; set_solver). pose proof (fun g Hg => head_inj _ _ _ _ g f I Hg Hf) as Hinj.
  apply list_elem_of_split in Hf as (l1 & l2 & Hl). destruct (frame_facts s Q U F l1 f l2 I Hl) as (_ & _ & _ & Hfr). clear I.
  assert (Hrest : forall l, l ⊆ l1 ++ l2 -> map (abs_req ((U ++ [f_head f]) ++ F)) l = map (abs_req (U ++ F)) l).
  { intros l Hsub. apply abs_ext. intros g Hg. assert (f_head g <> f_head f); [|set_solver]. intros E. apply (Hfr (f_head f) (head_in_all f)). rewrite <- E. exact (all_idx_in _ g _ (Hsub g Hg) (head_in_all g)). }
  assert (Hreq : p.(p_reqs) = map (abs_req (U ++ F)) l1 ++ MkPreq f.(f_td) f.(f_b) f.(f_write) false :: map (abs_req (U ++ F)) l2).
  { rewrite Hr, Hl, map_app. cbn [map]. unfold abs_req at 2. now rewrite bool_decide_eq_false_2. }
  assert (Hreq' : map (abs_req ((U ++ [f_head f]) ++ F)) s.(frames) = map (abs_req (U ++ F)) l1 ++ MkPreq f.(f_td) f.(f_b) f.(f_write) true :: map (abs_req (U ++ F)) l2).
  { rewrite Hl, map_app. cbn [map]. unfold abs_req at 2. rewrite bool_decide_eq_true_2 by set_solver. rewrite (Hrest l1), (Hrest l2) by set_solver. reflexivity. }
  destruct (f_write f) eqn:Ew.
  - eexists (MkPdisk _ _ _ _), [LTau], Q, (U ++ [f_head f]), F. split; [apply ps_one, (p_write p _ _ _ _ Hreq)|]. split; [reflexivity|]. split; [exact I'| | | |now rewrite <- Hreq']; cbn [p_sectors p_blockno p_data sdev sv].
    + intros n. rewrite Hsec, Hb, Hd. unfold upd. destruct (n =? _); [reflexivity|apply Hs].
    + intros b. rewrite Hb. unfold executed. now rewrite Ew.
    + intros b. rewrite Hd. unfold executed. now rewrite Ew.
  - eexists (MkPdisk _ _ _ _), [LTau], Q, (U ++ [f_head f]), F. split; [apply ps_one, (p_read p _ _ _ _ Hreq)|]. split; [reflexivity|]. split; [exact I'| | | |now rewrite <- Hreq']; cbn [p_sectors p_blockno p_data sdev sv].
    + intros n. now rewrite Hsec.
    + intros b. rewrite Hb. unfold executed. rewrite Ew. cbn. unfold upd. now destruct (Z.eqb_spec b (f_b f)) as [->|].
    + intros b. unfold executed. rewrite Ew. cbn. unfold upd. destruct (Z.eqb_spec b (f_b f)) as [->|]; [|apply Hd]. cbn [vb_data]. now rewrite Hs, Hb.
Qed.
Lemma sim_step p s Q U F l s' : vrel s p Q U F -> vstep s l s' -> simulated l p s'.
Proof.
  intros R St. pose proof (vr_inv _ _ _ _ _ R) as I. destruct St.
  - now apply (sim_start p s Q U F td b w i r v').
  - exact (sim_silent p s Q U F _ Q U F R (keeps_wake s Q U F td b I) eq_refl eq_refl eq_refl ltac:(easy)).
  - destruct (keeps_again s Q U F l1 f l2 v' I ltac:(assumption) ltac:(assumption) ltac:(assumption)) as [I' Eb]. exact (sim_silent p s Q U F _ Q U F R I' eq_refl Eb eq_refl ltac:(easy)).
  - now apply (sim_return p s Q U F l1 f l2 v').
  - pose proof (keeps_fill s Q U F b blk data I ltac:(assumption) ltac:(assumption)) as I'. destruct R as [_ Hs Hb Hd Hr].
    exists (MkPdisk p.(p_sectors) (upd p.(p_blockno) b blk) (upd p.(p_data) b data) p.(p_reqs)), [LFill b blk data], Q, U, F.
    split; [apply ps_one, p_fill; now rewrite Hr, abs_b|]. split; [reflexivity|]. split; [exact I'|exact Hs| | |exact Hr]; intros c; cbn; unfold upd; destruct (c =? b); auto.
  - destruct (keeps_intr s Q U F v' I ltac:(assumption)) as [I' Eb]. exact (sim_silent p s Q U F _ Q U F R I' eq_refl Eb eq_refl ltac:(easy)).
  - destruct (ring_cons _ _ _ _ (vi_used _ _ _ _ I) ltac:(assumption)) as (i & U' & ->). pose proof (keeps_round s Q i U' F v' I ltac:(assumption)) as I'.
    destruct (round_run s Q i U' F I) as (f & Hf & _ & _ & _ & E).
    apply (sim_round p s Q i U' F v' f R I' Hf). congruence.
  - destruct (keeps_iret s Q U F I ltac:(assumption)) as [I' _]. exact (sim_silent p s Q U F _ Q U F R I' eq_refl eq_refl eq_refl ltac:(easy)).
  - pose proof (dv_spec _ _ _ _ ltac:(eassumption)) as [(Hne & -> & Hs & Hp & He)|(id & Hid & Hx)].
    + destruct (keeps_fetch s Q U F d' I Hne Hs Hp) as [Q' I']. exact (sim_silent p s Q U F _ Q' U F R I' eq_refl eq_refl He ltac:(easy)).
    + destruct (inv_owner s Q U F id I) as (f & Hf & <-); [set_solver|]. rewrite (exec_run f s.(sv) (dv_sectors (sdev s)) (vi_frame _ _ _ _ I f Hf)) in Hx. destruct Hx as (-> & Hs & Hp & He).
      now apply (sim_complete p s Q U F d' f).
Qed.
Lemma sim_run p0 s0 tr s : (exists Q U F, vrel s0 p0 Q U F) -> vsteps s0 tr s -> exists p tr' Q U F, psteps p0 tr' p /\ visible tr' = visible tr /\ vrel s p Q U F.
Proof.
  intros (Q0 & U0 & F0 & R0) Hs. induction Hs as [|tr s l s' _ IH St]; [exists p0, [], Q0, U0, F0; split; [constructor|now split]|].
  destruct IH as (p & tr' & Q & U & F & Hp & Hv & R). destruct (sim_step p s Q U F l s' R St) as (p' & tr2 & Q' & U' & F' & Hp' & Hv' & R').
  exists p', (tr' ++ tr2), Q', U', F'. split; [|split; [unfold visible in *; now rewrite !List.filter_app, Hv, Hv'|exact R']].
  clear -Hp Hp'. induction Hp' as [|tr2 q l q' Hq IH St]; [now rewrite app_nil_r|]. rewrite app_assoc. now apply (ps_step _ _ q).
Qed.
(** The machine before the driver starts, and the devices it may find. *)
Record before_init (v : vst) : Prop := {
  bi_used : v.(used_idx) = 0;
  bi_sleep : v.(sleepers) = [];
  bi_blk : forall b, 0 <= (v.(bufs) b).(vb_blockno) < 18446744073709551616
}.
Definition idle_device (d : D) : Prop := dv_seen d = 0 /\ dv_pending d = [].
Definition p_init (v : vst) (d : D) : pdisk := MkPdisk (dv_sectors d) (fun b => (v.(bufs) b).(vb_blockno)) (fun b => (v.(bufs) b).(vb_data)) [].
Record inited (v v' : vst) : Prop := {
  in_rings : v'.(avail_idx) = 0 /\ v'.(used_idx_dev) = 0 /\ v'.(used_idx) = v.(used_idx);
  in_free : forall i, 0 <= i < NUM -> v'.(dfree) i = true;
  in_bufs : v'.(bufs) = v.(bufs);
  in_sleep : v'.(sleepers) = v.(sleepers)
}.
Lemma init_run reg buf v v' : virtio_disk_init reg buf v = Ok (tt, v') -> inited v v'.
Proof.
  unfold virtio_disk_init. destruct (negb _); [discriminate|]. unfold wr_reg, modify, bind. destruct (negb _); [discriminate|]. destruct (_ || _); [discriminate|]. destruct (_ || _); [discriminate|].
  intros Hr. injection Hr as <-. split; cbn; [now split| |reflexivity|reflexivity]. intros i Hi. unfold upd.
  repeat match goal with |- context [i =? ?j] => destruct (Z.eqb_spec i j); [reflexivity|] end. unfold NUM in Hi. lia.
Qed.
Lemma init_rel reg buf v v' d : virtio_disk_init reg buf v = Ok (tt, v') -> before_init v -> idle_device d -> vrel (MkSys v' [] false d) (p_init v d) [] [] [].
Proof.
  intros Hr [B1 B2 B3] [D1 D2]. apply init_run in Hr as [(I1 & I2 & I3) If Ib Is]. rewrite B1 in I3. rewrite B2 in Is.
  split; [|reflexivity|intros b; cbn; now rewrite Ib|intros b; cbn; now rewrite Ib|reflexivity].
  split; cbn [sv frames in_intr sdev map]; try (now constructor); try set_solver.
  - intros i Hi. rewrite If by exact Hi. cbn. set_solver.
  - now rewrite D2.
  - rewrite D1, I1. split; [lia|reflexivity|easy].
  - rewrite I2, I3. split; [lia|reflexivity|easy].
  - rewrite Is. set_solver.
  - now rewrite Ib.
Qed.

(** ** Interrupts *)

Lemma intr_loop_run U : forall s Q F fuel, vinv s Q U F -> s.(in_intr) = true -> (length U < fuel)%nat ->
  exists v' F', intr_loop fuel s.(sv) = Ok (tt, v') /\ vinv (MkSys v' s.(frames) true s.(sdev)) Q [] F'.
Proof.
  induction U as [|i U IH]; intros s Q F fuel I Hk Hf; (destruct fuel as [|fuel]; [lia|]); cbn [intr_loop]; unfold at_state.
  - destruct (vi_used _ _ _ _ I) as [Hs He _]. cbn [length] in He. rewrite Z.add_0_r, wrap16_small in He by exact Hs. rewrite He, Z.eqb_refl.
    exists s.(sv), F. split; [reflexivity|]. destruct s. cbn in *. now subst.
  - destruct (Z.eqb_spec (used_idx (sv s)) (used_idx_dev (sv s))) as [E|_].
    { pose proof (inv_count _ _ _ _ I). pose proof (ring_nil _ _ _ _ (vi_used _ _ _ _ I) ltac:(lia) E). discriminate. }
    destruct (round_run s Q i U F I) as (f & _ & _ & _ & _ & E). rewrite (bind_run _ _ _ _ _ E). cbn [length] in Hf.
    exact (IH (MkSys (rounded (f_b f) (sv s)) s.(frames) true s.(sdev)) Q (i :: F) fuel (keeps_round s Q i U F _ I E) eq_refl ltac:(lia)).
Qed.
Lemma intr_run s Q U F fuel : vinv s Q U F -> (3 <= fuel)%nat -> exists v' F', virtio_disk_intr fuel s.(sv) = Ok (tt, v') /\ vinv (MkSys v' s.(frames) false s.(sdev)) Q [] F'.
Proof.
  intros I Hf. assert (exists v1, intr_ack s.(sv) = Ok (tt, v1)) as [v1 E] by (eexists; reflexivity). destruct (keeps_intr s Q U F v1 I E) as [I1 _].
  pose proof (inv_count _ _ _ _ I). destruct (intr_loop_run U _ Q F fuel I1 eq_refl ltac:(lia)) as (v' & F' & E' & I'). exists v', F'. unfold virtio_disk_intr. rewrite (bind_run _ _ _ _ _ E).
  split; [exact E'|]. cbn [frames sdev] in I'.
  apply (keeps_iret _ _ _ _ I'). cbn [sv]. destruct (vi_used _ _ _ _ I') as [Hs He _]. cbn [sv length] in *. rewrite Z.add_0_r, wrap16_small in He by exact Hs. now symmetry.
Qed.
Lemma wait_run s Q U F f : vinv s Q U F -> f ∈ s.(frames) -> exists r v', rw_wait f.(f_td) f.(f_b) (f_head f) s.(sv) = Ok (r, v') /\ (f_head f ∈ F -> r = true).
Proof.
  intros I Hf. destruct (decide (f_head f ∈ F)) as [HF|HF].
  - destruct (list_elem_of_split _ _ Hf) as (l1 & l2 & Hl). destruct (frame_facts s Q U F l1 f l2 I Hl) as (Hn & Hr & _ & _). do 2 eexists.
    split; [|reflexivity]. apply return_run; [exact (vi_frame _ _ _ _ I f Hf)|exact Hn|exact Hr|]. rewrite (vi_done _ _ _ _ I f Hf HF). lia.
  - do 2 eexists. split; [|contradiction]. unfold rw_wait, at_state. rewrite (vi_open _ _ _ _ I f Hf HF). reflexivity.
Qed.
Lemma reach_inv reg buf v0 v d tr s : virtio_disk_init reg buf v0 = Ok (tt, v) -> before_init v0 -> idle_device d -> vsteps (MkSys v [] false d) tr s -> exists Q U F, vinv s Q U F.
Proof.
  intros Hi B0 D0 Hs. destruct (sim_run (p_init v0 d) (MkSys v [] false d) tr s (ex_intro _ [] (ex_intro _ [] (ex_intro _ [] (init_rel _ _ _ _ _ Hi B0 D0)))) Hs) as (p & tr' & Q & U & F & _ & _ & R).
  exists Q, U, F. exact (vr_inv _ _ _ _ _ R).
Qed.

(** ** How many requests fit *)

Lemma alloc_desc_total v : exists d v', alloc_desc v = Ok (d, v').
Proof.
  unfold alloc_desc. generalize (Z.to_nat NUM), 0. induction n as [|n IH]; intros i; cbn [alloc_desc_loop]; [eauto|]. unfold at_state. destruct (dfree v i); [do 2 eexists; reflexivity|apply IH].
Qed.
Lemma pigeon (T : list Z) : (forall i, 0 <= i < NUM -> i ∈ T) -> (8 <= length T)%nat.
Proof. intros Hall. assert (Hs : seqZ 0 NUM ⊆+ T) by (apply NoDup_submseteq; [apply NoDup_seqZ|]; intros x Hx; apply elem_of_seqZ in Hx; apply Hall; lia). apply submseteq_length in Hs. now rewrite length_seqZ in Hs. Qed.
Definition only_taken (v : vst) (T : list Z) : Prop := forall i, 0 <= i < NUM -> v.(dfree) i = false -> i ∈ T.
Lemma alloc_ok v T : only_taken v T -> (length T < 8)%nat -> exists d, alloc_desc v = Ok (d, set_dfree d false v) /\ 0 <= d /\ only_taken (set_dfree d false v) (d :: T).
Proof.
  intros Ht Hl. destruct (alloc_desc_total v) as (d & v' & E). destruct (alloc_desc_spec _ _ _ E) as [(_ & _ & Hall)|(Hd & _ & ->)].
  - pose proof (pigeon T (fun i Hi => Ht i Hi (Hall i Hi))). lia.
  - exists d. split; [exact E|]. split; [lia|]. intros i Hi. cbn. unfold upd. destruct (Z.eqb_spec i d) as [->|]; [set_solver|]. intros Hx. specialize (Ht i Hi Hx). set_solver.
Qed.
Lemma alloc3_ok v T : only_taken v T -> (length T <= 5)%nat -> exists i0 i1 i2, alloc3_desc v = Ok ((0, [i0; i1; i2]), taken i0 i1 i2 v).
Proof.
  intros Ht Hl. destruct (alloc_ok v T Ht ltac:(lia)) as (a & Ea & Ra & Ta). destruct (alloc_ok _ _ Ta ltac:(cbn; lia)) as (b & Eb & Rb & Tb). destruct (alloc_ok _ _ Tb ltac:(cbn; lia)) as (c & Ec & Rc & _).
  exists a, b, c. unfold alloc3_desc. cbn [alloc3_loop app].
  rewrite (bind_run _ _ _ _ _ Ea), (proj2 (Z.ltb_ge _ _) Ra), (bind_run _ _ _ _ _ Eb), (proj2 (Z.ltb_ge _ _) Rb), (bind_run _ _ _ _ _ Ec), (proj2 (Z.ltb_ge _ _) Rc). reflexivity.
Qed.
Lemma alloc3_total v : exists r v', alloc3_desc v = Ok (r, v').
Proof.
  unfold alloc3_desc. cbn [alloc3_loop app]. destruct (alloc_desc_total v) as (a & v1 & Ea). rewrite (bind_run _ _ _ _ _ Ea). destruct (Z.ltb_spec a 0); [do 2 eexists; reflexivity|].
  destruct (alloc_desc_spec _ _ _ Ea) as [(-> & _)|(Ra & _ & ->)]; [lia|].
  destruct (alloc_desc_total (set_dfree a false v)) as (b & v2 & Eb). rewrite (bind_run _ _ _ _ _ Eb). destruct (alloc_desc_spec _ _ _ Eb) as [(-> & -> & _)|(Rb & Fb & ->)].
  { cbn [Z.ltb Z.compare free_descs]. rewrite <- bind_assoc, (bind_run _ _ _ _ _ (free_desc_run a (set_dfree a false v) Ra (upd_eq _ _ _))). do 2 eexists; reflexivity. }
  rewrite (proj2 (Z.ltb_ge b 0)) by lia. cbn [dfree set_dfree] in Fb. assert (Hab : a <> b) by (intros <-; rewrite upd_eq in Fb; discriminate).
  destruct (alloc_desc_total (set_dfree b false (set_dfree a false v))) as (c & v3 & Ec). rewrite (bind_run _ _ _ _ _ Ec). destruct (alloc_desc_spec _ _ _ Ec) as [(-> & -> & _)|(Rc & _ & ->)].
  - cbn [Z.ltb Z.compare free_descs]. rewrite <- bind_assoc. erewrite (bind_run (free_desc a)) by (apply free_desc_run; [exact Ra|cbn; rewrite upd_ne by exact Hab; apply upd_eq]).
    rewrite <- bind_assoc. erewrite (bind_run (free_desc b)) by (apply free_desc_run; [exact Rb|cbn; rewrite upd_ne by congruence; apply upd_eq]). do 2 eexists; reflexivity.
  - rewrite (proj2 (Z.ltb_ge c 0)) by lia. do 2 eexists; reflexivity.
Qed.
Lemma rw_full s Q U F td b w : vinv s Q U F -> length s.(frames) = 2%nat -> virtio_disk_rw td b w s.(sv) = Err Panic.
Proof.
  intros I Hl. destruct (alloc3_total s.(sv)) as ([z idx] & v1 & E). assert (Hz : z <> 0).
  { intros ->. destruct (alloc3_spec _ _ _ E) as (i0 & i1 & i2 & -> & [Rng Ne Fr] & _). pose proof (idx_count (MkFrame td b w (i0, i1, i2) :: s.(frames))) as Hc. cbn [length] in Hc.
    assert (Hout : forall i, i = i0 \/ i = i1 \/ i = i2 -> i ∉ all_idx s.(frames)) by (intros i Hi Hin; apply (vi_free _ _ _ _ I) in Hin; [|lia]; destruct Fr as (? & ? & ?); destruct Hi as [->|[->| ->]]; congruence).
    unfold all_idx in Hc. cbn [map concat f_all f_idx] in Hc. fold (all_idx s.(frames)) in Hc.
    enough (S (length (frames s)) <= 2)%nat by lia. apply Hc.
    - apply NoDup_app. split; [repeat (apply NoDup_cons; split; [set_solver|]); apply NoDup_nil_2|]. split; [|exact (vi_idx _ _ _ _ I)]. intros i Hi. apply Hout. set_solver.
    - intros i Hi. apply elem_of_app in Hi as [Hi|Hi]; [|exact (vi_rng _ _ _ _ I i Hi)]. assert (i = i0 \/ i = i1 \/ i = i2) by set_solver. lia. }
  unfold virtio_disk_rw, rw_submit. rewrite <- bind_assoc, (bind_run _ _ _ _ _ E). destruct z; [contradiction|reflexivity|reflexivity].
Qed.
(** The driver never stops the kernel by a step of its own: in every
    reachable state at most two requests are under way, every round of the
    handler and every wait go through, and a call with at most one request
    under way is accepted.  A third one, for which no descriptors are left, is
    a panic. *)
Theorem virtio_accepts_two (reg : Z -> Z) (buf : Z) (v0 v : vst) (d : D) (tr : list label) (s : vsys D) :
  virtio_disk_init reg buf v0 = Ok (tt, v) -> before_init v0 -> idle_device d -> vsteps (MkSys v [] false d) tr s ->
  (length s.(frames) <= 2)%nat /\
  (s.(sv).(used_idx) <> s.(sv).(used_idx_dev) -> exists v', intr_round s.(sv) = Ok (tt, v')) /\
  (forall f, f ∈ s.(frames) -> exists r v', rw_wait f.(f_td) f.(f_b) (f_head f) s.(sv) = Ok (r, v')) /\
  (forall td b w, if (length s.(frames) <? 2)%nat then exists i v', virtio_disk_rw td b w s.(sv) = Ok ((i, false), v') else virtio_disk_rw td b w s.(sv) = Err Panic).
Proof.
  intros Hi B0 D0 Hs. destruct (reach_inv _ _ _ _ _ _ _ Hi B0 D0 Hs) as (Q & U & F & I). pose proof (idx_count _ (vi_idx _ _ _ _ I) (vi_rng _ _ _ _ I)) as Hc. split; [exact Hc|].
  split; [|split].
  - intros Hne. destruct (ring_cons _ _ _ _ (vi_used _ _ _ _ I) Hne) as (i & U' & ->). destruct (round_run s Q i U' F I) as (f & _ & _ & _ & _ & E). eauto.
  - intros f Hf. destruct (wait_run _ _ _ _ f I Hf) as (r & v' & E & _). eauto.
  - intros td b w. destruct (Nat.ltb_spec (length (frames s)) 2) as [Hl|Hl]; [|apply (rw_full s Q U F td b w I); lia].
    destruct (alloc3_ok s.(sv) (all_idx s.(frames))) as (i0 & i1 & i2 & E); [intros i Hi' Hx; now apply (vi_free _ _ _ _ I)| |].
    + assert (length (all_idx (frames s)) = 3 * length (frames s))%nat; [|lia]. apply all_idx_length.
    + exists (i0, i1, i2), (requested td b w i0 i1 i2 s.(sv)). exact (rw_run td b w i0 i1 i2 s.(sv) _ E eq_refl).
Qed.
End Refinement.

(** ** What the driver tells the device at the start *)

Lemma negotiate_bit f b : b ∈ refused_features -> Z.testbit (negotiate f) b = false.
Proof.
  intros Hb. unfold negotiate, refused_features in *. cbn [fold_left]. rewrite !Z.ldiff_spec, !Z.shiftl_1_l.
  rewrite !elem_of_cons in Hb. destruct Hb as [->|[->|[->|[->|[->|[->|[->|Hb]]]]]]]; [..|set_solver]; rewrite Z.pow2_bits_true by lia; cbn [negb]; rewrite ?andb_false_r; reflexivity.
Qed.
(** The registers are written in the order of the standard (reset, acknowledge,
    driver, features, queue, ready) and no refused feature is taken; a device
    that is not a block device with a free queue of eight entries is a panic. *)
Theorem virtio_init_handshake (reg : Z -> Z) (buf : Z) (v : vst) :
  match virtio_disk_init reg buf v with
  | Ok (_, v') =>
      exists f, v'.(mmio) = v.(mmio) ++ [(VIRTIO_MMIO_STATUS, 0); (VIRTIO_MMIO_STATUS, 1); (VIRTIO_MMIO_STATUS, 3); (VIRTIO_MMIO_DRIVER_FEATURES, f); (VIRTIO_MMIO_QUEUE_SEL, 0);
          (VIRTIO_MMIO_PAGE_SIZE, 4096); (VIRTIO_MMIO_QUEUE_NUM, NUM); (VIRTIO_MMIO_QUEUE_ALIGN, 4096); (VIRTIO_MMIO_QUEUE_PFN, wrap32 (Z.shiftr buf 12)); (VIRTIO_MMIO_STATUS, 7)] /\
        (forall b, b ∈ refused_features -> Z.testbit f b = false) /\ NUM <= reg VIRTIO_MMIO_QUEUE_NUM_MAX /\ reg VIRTIO_MMIO_QUEUE_PFN = 0
  | Err e => e = Panic
  end.
Proof.
  unfold virtio_disk_init. destruct (negb _) eqn:E1; [reflexivity|]. unfold wr_reg, modify, bind. destruct (negb (reg VIRTIO_MMIO_QUEUE_PFN =? 0)) eqn:E2; [reflexivity|].
  destruct (_ || _) eqn:E3; [reflexivity|]. destruct ((buf =? 0) || _); [reflexivity|]. cbn [mmio set_mmio]. exists (wrap32 (negotiate (reg VIRTIO_MMIO_DEVICE_FEATURES))). zbool.
  change (seqZ 0 NUM) with [0; 1; 2; 3; 4; 5; 6; 7]. split; [cbn; now rewrite <- !app_assoc|]. split; [|split; assumption]. intros b Hb. unfold wrap32. change 4294967296 with (2 ^ 32). rewrite Z.mod_pow2_bits_low; [now apply negotiate_bit|].
  unfold refused_features in Hb. rewrite !elem_of_cons in Hb. destruct Hb as [->|[->|[->|[->|[->|[->|[->|Hb]]]]]]]; [..|set_solver]; lia.
Qed.

(** ** A device, and runs with it *)

(** It takes one request at a time. *)
Record fifo_dev : Type := MkFifo { fd_seen : Z; fd_pending : list Z; fd_sectors : Z -> list Z }.
Definition fifo_step (d : fifo_dev) (v : vst) : option (fifo_dev * vst) :=
  match d.(fd_pending) with
  | id :: _ => match exec_chain v id d.(fd_sectors) with
               | Some (v1, sectors) => Some (MkFifo d.(fd_seen) (without id d.(fd_pending)) sectors, report id v1)
               | None => None
               end
  | [] => if d.(fd_seen) =? v.(avail_idx) then None
          else Some (MkFifo (wrap16 (d.(fd_seen) + 1)) [v.(avail_ring) (d.(fd_seen) mod NUM)] d.(fd_sectors), v)
  end.
#[export] Instance fifo_device : VirtioDevice fifo_dev.
Proof.
  refine {| dv_seen := fd_seen; dv_pending := fd_pending; dv_sectors := fd_sectors; dv_step := fun d s d' s' => fifo_step d s = Some (d', s') |}.
  intros d s d' s'. unfold fifo_step. destruct (fd_pending d) as [|id l] eqn:Ep.
  - destruct (Z.eqb_spec (fd_seen d) (avail_idx s)) as [|Ne]; [discriminate|]. intros [= <- <-]. left. cbn. now repeat split.
  - destruct (exec_chain s id (fd_sectors d)) as [[v1 sec]|] eqn:E; [|discriminate]. intros [= <- <-]. right. exists id. split; [left|]. rewrite E. cbn. now repeat split.
Defined.

Definition qemu_regs (r : Z) : Z := if r =? 0 then 1953655158 else if r =? 4 then 1 else if r =? 8 then 2 else if r =? 12 then 1431127377 else if r =? 52 then 1024 else if r =? 16 then 805306964 else 0.
Definition boot_v : vst := MkV (fun _ => zero_desc) 0 (fun _ => 0) 0 (fun _ => 0) (fun _ => false) 0 (fun _ => MkInfo 0 0) (fun _ => MkReq 0 0 0) (fun _ => MkVbuf 0 0 []) [] 0 [].
Definition blank_dev : fifo_dev := MkFifo 0 [] (fun _ => []).
Definition ready_v : vst := after (virtio_disk_init qemu_regs 2147483648) boot_v.
Definition dev_after (s : vsys fifo_dev) : vsys fifo_dev :=
  match fifo_step s.(sdev) s.(sv) with Some (d', v') => MkSys v' s.(frames) s.(in_intr) d' | None => s end.
Definition run0 : vsys fifo_dev := MkSys ready_v [] false blank_dev.
Definition run1 : vsys fifo_dev := MkSys (set_vbuf 7 (MkVbuf 3 (ready_v.(bufs) 7).(vb_disk) [5; 6]) ready_v) [] false blank_dev.
Definition run2 : vsys fifo_dev := MkSys (after (virtio_disk_rw 1 7 true) run1.(sv)) [MkFrame 1 7 true (0, 1, 2)] false blank_dev.
Definition run3 : vsys fifo_dev := MkSys (after (virtio_disk_rw 2 8 false) run2.(sv)) [MkFrame 1 7 true (0, 1, 2); MkFrame 2 8 false (3, 4, 5)] false blank_dev.
Definition run4 : vsys fifo_dev := dev_after (dev_after (dev_after (dev_after run3))).
Definition run_trace : list label := [LFill 7 3 [5; 6]; LStart 1 7 true; LStart 2 8 false; LTau; LTau; LTau; LTau].

Lemma boot_ready : virtio_disk_init qemu_regs 2147483648 boot_v = Ok (tt, ready_v) /\ before_init boot_v /\ idle_device blank_dev.
Proof. split; [runs (virtio_disk_init qemu_regs 2147483648) boot_v tt|]. split; [split; [reflexivity|reflexivity|intros b; cbn; lia]|now split]. Qed.
Lemma run3_reached : vsteps run0 [LFill 7 3 [5; 6]; LStart 1 7 true; LStart 2 8 false] run3.
Proof.
  apply (vs_step run0 [LFill 7 3 [5; 6]; LStart 1 7 true] run2).
  - apply (vs_step run0 [LFill 7 3 [5; 6]] run1).
    + apply (vs_step run0 [] run0); [constructor|]. apply (v_fill run0 7 3 [5; 6]); [set_solver|lia].
    + apply (v_start run1 1 7 true _ (0, 1, 2) false); [reflexivity|set_solver|lia|set_solver|]. runs (virtio_disk_rw 1 7 true) run1.(sv) (0, 1, 2, false).
  - apply (v_start run2 2 8 false _ (3, 4, 5) false); [reflexivity|cbn; set_solver|lia|cbn; set_solver|]. runs (virtio_disk_rw 2 8 false) run2.(sv) (3, 4, 5, false).
Qed.
Definition can_step (s : vsys fifo_dev) : bool := match fifo_step s.(sdev) s.(sv) with Some _ => true | None => false end.
Lemma dev_run tr s : vsteps run0 tr s -> can_step s = true -> vsteps run0 (tr ++ [LTau]) (dev_after s).
Proof.
  unfold can_step, dev_after. intros Hs. destruct (fifo_step s.(sdev) s.(sv)) as [[d' v']|] eqn:E; [|discriminate]. intros _.
  exact (vs_step run0 tr s LTau _ Hs (v_dev s d' v' E)).
Qed.
Lemma run4_reached : vsteps run0 run_trace run4.
Proof. exact (dev_run _ _ (dev_run _ _ (dev_run _ _ (dev_run _ _ run3_reached ltac:(evals)) ltac:(evals)) ltac:(evals)) ltac:(evals)). Qed.
Lemma virtio_accepts_two_witness : virtio_disk_rw 3 9 true run4.(sv) = Err Panic.
Proof.
  destruct boot_ready as (Hi & B0 & D0). destruct (virtio_accepts_two qemu_regs 2147483648 boot_v ready_v blank_dev run_trace run4 Hi B0 D0 run4_reached) as (_ & _ & _ & Ha). assert (E : (length run4.(frames) <? 2)%nat = false) by evals.
  specialize (Ha 3 9 true). rewrite E in Ha. exact Ha.
Defined.
