(* ===== verification/Unlink.v ===== *)
(** * Removing a file

    [rm_unused_file] of [src/kern/fs/fat32/link.c] for a regular file that is
    no link: its clusters are freed and its directory entries marked deleted.
    (What it does to the target of a link, to the children of a directory and
    to the pool of entries concerns the tree, which [Dirent] models.) *)

From S2P Require Import Prelude Bytes BufCache Cluster FatFile Directory FatDir.
From Stdlib Require Import ZArith Lia Bool.
From stdpp Require Import base tactics numbers list.
Open Scope Z_scope.

(** Step 4: [file_write] returns the number of bytes, so [panic_on] never
    fires. *)
Fixpoint rm_entries {S : Type} {DF : DirFile S} (n : nat) (i parent_dir_off : Z) : M S unit :=
  match n with
  | O => ret tt
  | Datatypes.S n' => df_write (wrap32 (parent_dir_off - i * DIR_SIZE)) [FAT32_INVALID_ENTRY] ;;; rm_entries n' (i + 1) parent_dir_off
  end.
Definition without_child (f : Z) (d : Dirent) : Dirent :=
  MkDirent d.(name) d.(first_clus) d.(file_size) d.(FatFile.head) d.(pointer) d.(parent_dir_off) d.(dtype) d.(is_rm) (without f d.(child_list))
    d.(parent_dirent) d.(mode) d.(linkcnt) d.(refcnt) d.(holders).
Definition rm_unused_file {S : Type} {SS : SectorStore S} (fs : FileSystem) (fuel : nat) (file : Z) : M (world S) unit :=
  let* d := get_dent file in
  massert (d.(refcnt) =? 0) ;;;
  let cnt := get_entry_count_by_name d.(name) in
  massert (negb (d.(parent_dirent) =? 0)) ;;;
  upd_dent d.(parent_dirent) (without_child file) ;;;
  file_shrink fs fuel file 0 ;;;
  rm_entries (DF := fat_dir fs d.(parent_dirent) fuel) (Z.to_nat cnt) 0 d.(parent_dir_off).

(** ** The entries *)

Definition deleted (e : list Z) : list Z := FAT32_INVALID_ENTRY :: drop 1 e.
(** An entry that no scan stops at. *)
Definition dead (e : list Z) : Prop := byte_at e 0 = 0 \/ byte_at e 0 = FAT32_INVALID_ENTRY.
Lemma splice_head (E : list (list Z)) k e : Forall (fun e => length e = 32%nat) E -> E !! k = Some e ->
  splice (32 * Z.of_nat k) [FAT32_INVALID_ENTRY] (concat E) = concat (<[k := deleted e]> E).
Proof.
  intros Hl Hk. pose proof (proj1 (Forall_lookup _ _) Hl _ _ Hk) as He. cbn beta in He. pose proof (lookup_lt_Some _ _ _ Hk) as Hlt.
  assert (Hd : length (deleted e) = 32%nat) by (unfold deleted; cbn [length]; rewrite length_drop, He; reflexivity).
  rewrite <- (splice_concat32 E k (deleted e) Hl Hlt Hd). assert (Hc : length (concat E) = (32 * length E)%nat) by now apply concat_length32.
  apply byte_ext; [rewrite !length_splice by (cbn [length]; lia); reflexivity|]. rewrite length_splice by (cbn [length]; lia). intros i Hi.
  rewrite !byte_at_splice by (cbn [length]; lia). rewrite Hd. cbn [length].
  destruct (Z.leb_spec (32 * Z.of_nat k) i); cbn [andb]; [|reflexivity]. destruct (Z.ltb_spec i (32 * Z.of_nat k + Z.of_nat 1)) as [H1|H1], (Z.ltb_spec i (32 * Z.of_nat k + Z.of_nat 32)) as [H2|H2]; try lia; [|].
  - replace (i - 32 * Z.of_nat k) with 0 by lia. reflexivity.
  - rewrite <- (slice_concat32 E k e Hl Hk) at 1. unfold deleted, byte_at at 2. destruct (Z.to_nat (i - 32 * Z.of_nat k)) as [|j] eqn:Ej; [lia|]. cbn [nth].
    rewrite nth_drop. change (nth (1 + j) (slice (32 * Z.of_nat k) 32 (concat E)) 0) with (nth (Datatypes.S j) (slice (32 * Z.of_nat k) 32 (concat E)) 0). rewrite <- Ej.
    fold (byte_at (slice (32 * Z.of_nat k) 32 (concat E)) (i - 32 * Z.of_nat k)). rewrite byte_at_slice by lia. f_equal. lia.
Qed.
Lemma deleted_length e : length e = 32%nat -> length (deleted e) = 32%nat.
Proof. intros He. unfold deleted. cbn [length]. rewrite length_drop, He. reflexivity. Qed.

Section Entries.
Context {S : Type} {DF : DirFile S} {DL : DirFileLaws S}.
Lemma delete_run s E k e : holds s E -> E !! k = Some e ->
  exists s', df_write (32 * Z.of_nat k) [FAT32_INVALID_ENTRY] s = Ok (tt, s') /\ holds s' (<[k := deleted e]> E).
Proof.
  intros (Hh & Hl & Hb) Hk. pose proof (lookup_lt_Some _ _ _ Hk) as Hlt. pose proof (concat_length32 E Hl) as Hc.
  destruct (df_write_law s _ (32 * Z.of_nat k) [FAT32_INVALID_ENTRY] Hh) as (s' & Ew & H'); [lia|discriminate|repeat constructor; discriminate|rewrite Hc; cbn [length]; lia|].
  exists s'. split; [exact Ew|]. rewrite (splice_head E k e Hl Hk) in H'. split; [exact H'|]. split; [|now rewrite length_insert].
  apply Forall_insert; [exact Hl|]. exact (deleted_length e (proj1 (Forall_lookup _ _) Hl _ _ Hk)).
Qed.
Lemma rm_entries_run : forall n i s pre mid post, length mid = n -> 0 <= i -> holds s (pre ++ mid ++ post) -> Z.of_nat (length pre + n) + i < 67108864 ->
  exists s', rm_entries n i (32 * (Z.of_nat (length pre) + Z.of_nat n - 1 + i)) s = Ok (tt, s') /\ holds s' (pre ++ map deleted mid ++ post).
Proof.
  induction n as [|n IH]; intros i s pre mid post Hm Hi Hh Hb.
  { destruct mid; [|discriminate]. exists s. split; [reflexivity|exact Hh]. }
  destruct (@exists_last _ mid) as (mid' & x & ->); [intros ->; discriminate|]. rewrite length_app in Hm. cbn [length] in Hm. assert (Hm' : length mid' = n) by lia.
  replace (pre ++ (mid' ++ [x]) ++ post) with ((pre ++ mid') ++ x :: post) in Hh by (rewrite <- !app_assoc; reflexivity).
  destruct (delete_run s _ (length (pre ++ mid')) x Hh) as (s1 & E1 & H1); [rewrite lookup_app_r, Nat.sub_diag by lia; reflexivity|].
  rewrite insert_mid, <- app_assoc in H1. destruct (IH (i + 1) s1 pre mid' (deleted x :: post) Hm' ltac:(lia) H1 ltac:(lia)) as (s2 & E2 & H2).
  exists s2. split; [|rewrite map_app; cbn [map]; rewrite <- app_assoc; exact H2]. cbn [rm_entries].
  replace (wrap32 _) with (32 * Z.of_nat (length (pre ++ mid'))) by (rewrite length_app, wrap32_small; unfold DIR_SIZE; lia).
  rewrite (bind_run _ _ _ _ _ E1), <- E2. f_equal. lia.
Qed.
Lemma scan_dead : forall tail fuel s pre full, holds s (pre ++ tail) -> Forall dead tail -> (length tail < fuel)%nat ->
  exists s', dir_scan fuel (32 * Z.of_nat (length pre)) full s = Ok ((None, df_size s), s') /\ holds s' (pre ++ tail).
Proof.
  induction tail as [|e tail IH]; intros fuel s pre full Hh Hd Hf; (destruct fuel as [|fuel]; [lia|]).
  - exists s. split; [|exact Hh]. pose proof (holds_size _ _ Hh) as Hs. rewrite app_nil_r in Hs. cbn [dir_scan]. erewrite bind_run by reflexivity. rewrite Hs, Z.ltb_irrefl. reflexivity.
  - apply Forall_cons in Hd as [He Hd]. destruct (scan_read zeros13 (Nat.le_refl 13) s _ (length pre) e Hh) with (fuel := fuel) (full := full) as (s1 & H1 & E1); [rewrite lookup_app_r, Nat.sub_diag by lia; reflexivity|].
    rewrite E1. replace ((byte_at e 0 =? 0) || (byte_at e 0 =? FAT32_INVALID_ENTRY)) with true by (destruct He as [-> | ->]; reflexivity). cbn [length] in Hf.
    replace (pre ++ e :: tail) with ((pre ++ [e]) ++ tail) in * by (rewrite <- app_assoc; reflexivity).
    destruct (IH fuel s1 (pre ++ [e]) full H1 Hd ltac:(lia)) as (s2 & E2 & H2). rewrite length_app, Nat.add_1_r in E2. exists s2.
    split; [|exact H2]. rewrite E2. now rewrite (holds_size _ _ H1), (holds_size _ _ Hh).
Qed.
(** From [pre] on there is nothing left to find. *)
Lemma find_dead s pre tail : holds s (pre ++ tail) -> Forall dead tail -> exists s', dirGetDentFrom (32 * Z.of_nat (length pre)) s = Ok ((None, df_size s), s').
Proof.
  intros Hh Hd. pose proof (proj2 (proj2 Hh)) as Hb. pose proof (holds_size _ _ Hh) as Hs. rewrite length_app in Hb, Hs. unfold dirGetDentFrom.
  rewrite massert_run by (unfold DIR_SIZE; rewrite Z.mul_comm, Z.mod_mul by lia; reflexivity). erewrite bind_run by reflexivity. rewrite wrap32_small by lia.
  destruct (scan_dead tail (Z.to_nat (df_size s / DIR_SIZE + 1)) s pre [] Hh Hd) as (s' & E & _); [|eauto].
  rewrite Hs. unfold DIR_SIZE. rewrite Z.mul_comm, Z.div_mul by lia. lia.
Qed.
Lemma deleted_dead mid : Forall dead (map deleted mid).
Proof. apply Forall_map, Forall_true. intros e. right. reflexivity. Qed.
End Entries.

(** ** The volume *)

Section Volume.
Context {S : Type} {SS : SectorStore S} {SL : SectorStoreLaws S}.
Context (fs : FileSystem) (Hfs : fs_ok fs) (fuel : nat) (Hfuel : (0 < fuel)%nat).

(** Only data of the file on [lp] changed on the disk. *)
Record only_data (lp : list Z) (w w' : world S) : Prop := {
  od_inv : winv w';
  od_dents : w'.(dents) = w.(dents);
  od_depth : w'.(mtx_depth) = w.(mtx_depth);
  od_meta : forall x, 0 <= x < 512 * fs.(first_data_sec) -> wdisk w' x = wdisk w x;
  od_other : forall c o, valid_clus fs c -> c ∉ lp -> 0 <= o < fs.(bytes_per_clus) -> wdisk w' (clus_addr fs c + o) = wdisk w (clus_addr fs c + o)
}.
Lemma rm_entries_frame p lp : forall n i off w, winv w -> file_ok fs (wdisk w) (w.(dents) p) lp -> 0 <= i -> 0 <= off - (i + Z.of_nat n - 1) * 32 ->
  off - i * 32 < (w.(dents) p).(file_size) -> off < 4294967296 ->
  exists w', rm_entries (DF := fat_dir fs p fuel) n i off w = Ok (tt, w') /\ only_data lp w w'.
Proof using SL Hfs Hfuel.
  induction n as [|n IH]; intros i off w Hi Hf Hi0 Ho Hsz Hoff; [exists w; split; [reflexivity|now split]|].
  cbn [rm_entries]. rewrite wrap32_small by (unfold DIR_SIZE; lia). cbn [df_write fat_dir]. rewrite <- bind_assoc. erewrite bind_run by reflexivity. set (w1 := MkWorld _ _ _).
  destruct (file_write_inplace fs Hfs fuel p lp (off - i * DIR_SIZE) 1 false STACK_BUF w1 Hfuel Hi Hf) as (w2 & E & D & F); [unfold DIR_SIZE; lia|lia|cbn; unfold DIR_SIZE; lia|].
  rewrite <- bind_assoc. cbn [length]. change (Z.of_nat 1) with 1. rewrite (bind_run _ _ _ _ _ E). erewrite bind_run by reflexivity.
  destruct D as [DI _ _ DD DP]. cbn [dents mtx_depth w1] in DD, DP.
  destruct (IH (i + 1) off w2 DI) as (w3 & E3 & [I3 D3 P3 M3 O3]); [rewrite DD; eapply file_ok_meta; [exact Hfs|apply F|exact Hf]|lia|lia|rewrite DD; lia|exact Hoff|].
  exists w3. split; [exact E3|]. split; [exact I3|congruence|congruence| |].
  - intros x Hx. rewrite M3 by exact Hx. apply (fw_meta _ _ _ _ _ _ _ F). exact Hx.
  - intros c o Hc Hn Hr. rewrite O3 by assumption. now apply (fw_other _ _ _ _ _ _ _ F).
Qed.
Lemma only_data_fat lp w w' x : only_data lp w w' -> valid_clus fs x -> fatv fs (wdisk w') 0 x = fatv fs (wdisk w) 0 x.
Proof using Hfs.
  clear Hfuel. intros D Hx. destruct (fat_addr_bound fs Hfs 0 x Hx (fat0 fs Hfs)) as [B1 B2]. unfold fatv, word_at. rewrite !(od_meta _ _ _ D) by lia. reflexivity.
Qed.
Lemma only_data_file lp w w' h lh : only_data lp w w' -> file_ok fs (wdisk w) h lh -> (forall x, x ∈ lh -> x ∉ lp) ->
  file_ok fs (wdisk w') h lh /\ forall x, 0 <= x < fs.(bytes_per_clus) * Z.of_nat (length lh) -> fbyte fs (wdisk w') lh x = fbyte fs (wdisk w) lh x.
Proof using Hfs.
  clear Hfuel. intros D Hh Hd. split; [eapply file_ok_meta; [exact Hfs|exact (od_meta _ _ _ D)|exact Hh]|]. destruct (file_ok_nodup fs Hfs _ _ _ Hh) as [_ Hv]. intros x Hx. pose proof (bpc_pos fs Hfs). unfold fbyte.
  assert (Hin : nth_clus lh (x / fs.(bytes_per_clus)) ∈ lh) by (apply nth_clus_in; split; [apply Z.div_pos; lia|apply Z.div_lt_upper_bound; lia]).
  apply (od_other _ _ _ D); [now apply Hv|now apply Hd|apply Z.mod_pos_bound; lia].
Qed.

(** The bytes of the directory [p], which is the file on [lp]. *)
Record dir_on (p : Z) (lp : list Z) (w : world S) (c : list Z) : Prop := {
  do_inv : winv w;
  do_file : file_ok fs (wdisk w) (w.(dents) p) lp;
  do_size : Z.of_nat (length c) = (w.(dents) p).(file_size);
  do_bytes : forall i, 0 <= i < Z.of_nat (length c) -> byte_at c i = fbyte fs (wdisk w) lp i
}.
Lemma dir_on_bytes p lp w c : dir_on p lp w c -> dir_bytes fs p w c.
Proof using. intros [I F Z1 B]. split; [exact I|]. exists lp. auto. Qed.
Lemma file_ok_child d f x l : file_ok fs d x l -> file_ok fs d (without_child f x) l.
Proof using. intros []. now constructor. Qed.
(** The directory after [file_shrink] rewrote the entry of the file. *)
Lemma dir_on_rewritten p lp w c w' off : dir_on p lp w c -> winv w' -> w'.(dents) p = w.(dents) p -> file_ok fs (wdisk w') (w.(dents) p) lp ->
  0 <= off -> off + 32 <= Z.of_nat (length c) ->
  (forall x, 0 <= x < fs.(bytes_per_clus) * Z.of_nat (length lp) -> x < off \/ off + 32 <= x -> fbyte fs (wdisk w') lp x = fbyte fs (wdisk w) lp x) ->
  exists e, length e = 32%nat /\ dir_on p lp w' (splice off e c).
Proof using Hfs.
  clear Hfuel. intros [I F Z1 B] I' Ed F' Ho Hl Hb. pose proof (fo_size _ _ _ _ F) as [Hs1 _]. exists (map (fun i => fbyte fs (wdisk w') lp (off + i)) (seqZ 0 32)).
  assert (He : length (map (fun i => fbyte fs (wdisk w') lp (off + i)) (seqZ 0 32)) = 32%nat) by (rewrite length_map, length_seqZ; reflexivity).
  split; [exact He|]. assert (Hsp : length (splice off (map (fun i => fbyte fs (wdisk w') lp (off + i)) (seqZ 0 32)) c) = length c) by (apply length_splice; rewrite ?He; lia).
  split; [exact I'|now rewrite Ed|now rewrite Hsp, Ed|]. rewrite Hsp. intros i Hi. rewrite byte_at_splice by (rewrite ?He; lia). rewrite He.
  destruct (Z.leb_spec off i); cbn [andb]; [destruct (Z.ltb_spec i (off + Z.of_nat 32))|].
  - unfold byte_at. rewrite (nth_lookup_Some _ _ 0 (fbyte fs (wdisk w') lp i)); [reflexivity|]. rewrite list_lookup_fmap, lookup_seqZ_lt by lia. cbn. do 2 f_equal. lia.
  - rewrite B by lia. symmetry. apply Hb; [nia|lia].
  - rewrite B by lia. symmetry. apply Hb; [nia|lia].
Qed.
(** What of [w] is left when the clusters are free and the entry is written
    back. *)
Record emptied (f p : Z) (l lp : list Z) (w w' : world S) : Prop := {
  em_free : forall x, x ∈ l -> fatv fs (wdisk w') 0 x = 0;
  em_child : (w'.(dents) p).(child_list) = without f (w.(dents) p).(child_list);
  em_size : (w'.(dents) p).(file_size) = (w.(dents) p).(file_size);
  em_depth : w'.(mtx_depth) = w.(mtx_depth);
  em_other : forall h lh, file_ok fs (wdisk w) h lh -> (forall x, x ∈ lh -> (x ∉ l) /\ (x ∉ lp)) ->
    file_ok fs (wdisk w') h lh /\ forall x, 0 <= x < fs.(bytes_per_clus) * Z.of_nat (length lh) -> fbyte fs (wdisk w') lh x = fbyte fs (wdisk w) lh x
}.
Lemma shrink_run f l lp c w : let d := w.(dents) f in let p := d.(parent_dirent) in
  d.(refcnt) = 0 -> p <> 0 -> p <> f -> file_ok fs (wdisk w) d l -> dir_on p lp w c -> 0 <= d.(parent_dir_off) -> d.(parent_dir_off) + 32 <= Z.of_nat (length c) ->
  (forall x, x ∈ lp -> x ∉ l) ->
  exists w' e, rm_unused_file fs fuel f w = rm_entries (DF := fat_dir fs p fuel) (Z.to_nat (get_entry_count_by_name d.(name))) 0 d.(parent_dir_off) w' /\
    length e = 32%nat /\ dir_on p lp w' (splice d.(parent_dir_off) e c) /\ emptied f p l lp w w'.
Proof using SL Hfs Hfuel.
  intros d p Hrc Hp0 Hpf Hf Hdir Ho Hl Hdis. pose proof (bpc_pos fs Hfs) as Hb.
  unfold rm_unused_file. rewrite (bind_run (get_dent f) _ w d w eq_refl). rewrite massert_run by (now apply Z.eqb_eq). fold p. rewrite massert_run by (apply negb_true_iff; now apply Z.eqb_neq).
  set (w1 := MkWorld w.(wfs) (upd w.(dents) p (without_child f (w.(dents) p))) w.(mtx_depth)). rewrite (bind_run (upd_dent p (without_child f)) _ w tt w1 eq_refl).
  assert (Ef : w1.(dents) f = d) by (cbn; now rewrite upd_ne by congruence). assert (Ep : w1.(dents) p = without_child f (w.(dents) p)) by (cbn; apply upd_eq).
  assert (Hpk : parent_ok fs w1 (wdisk w1) f lp).
  { right. rewrite Ef. fold p. rewrite Ep. split; [exact Hp0|]. split; [exact Hpf|]. split; [apply file_ok_child, (do_file _ _ _ _ Hdir)|].
    cbn [file_size without_child]. pose proof (do_size _ _ _ _ Hdir) as Hs. unfold FatFile.DIR_SIZE. lia. }
  assert (Hd1 : dir_on p lp w1 c) by (destruct Hdir; split; rewrite ?Ep; auto using file_ok_child).
  destruct (file_shrink_ok fs Hfs fuel f l lp 0 w1 Hfuel (do_inv _ _ _ _ Hd1) ltac:(now rewrite Ef) Hpk Hdis ltac:(lia)) as (w2 & E2 & I2 & _ & _ & _ & _ & C2 & D2 & M2 & O2 & P2 & _).
  { rewrite Ef. change (PGROUNDUP 0) with 0. pose proof (fo_size _ _ _ _ Hf). lia. }
  rewrite (bind_run _ _ _ _ _ E2). rewrite Ef in P2. destruct (P2 Hp0) as [Pf Pb]. fold p in Pf, Pb. replace (clusters_of fs 0) with 0 in C2 by (unfold clusters_of; symmetry; apply Z.div_small; lia).
  destruct (dir_on_rewritten p lp w1 c w2 d.(parent_dir_off) Hd1 I2 (D2 p Hpf) Pf Ho Hl Pb) as (e & He & Hd2).
  exists w2, e. split; [reflexivity|]. split; [exact He|]. split; [exact Hd2|]. split; [exact C2|now rewrite (D2 p Hpf), Ep|now rewrite (D2 p Hpf), Ep|exact M2|exact O2].
Qed.
End Volume.

Section Remove.
Context {S : Type} {SS : SectorStore S} {SL : SectorStoreLaws S}.
Context (fs : FileSystem) (fuel : nat).

End Remove.

(** ** A file in a root directory *)

Definition uvol : world bcache :=
  MkWorld dvol.(wfs) (upd vol_dents 2 (MkDirent [97] 2 700 0 (table_of [2; 3]) 64 DIRENT_FILE 0 [] 1 511 1 0 [])) 0.
Lemma uvol_file : file_ok vol_fs (wdisk uvol) (uvol.(dents) 2) [2; 3].
Proof.
  constructor; cbn [uvol dents upd Z.eqb Pos.eqb first_clus pointer file_size].
  - right. split; [vol_chain|discriminate].
  - intros i Hi. apply table_of_ok; cbn in *; lia.
  - cbn. lia.
  - change TABLE_MAX with 529408. cbn. lia.
Qed.
Lemma uvol_root : dir_on vol_fs 1 [4] uvol (concat ([zero_entry] ++ [zero_entry; zero_entry] ++ replicate 13 zero_entry)).
Proof.
  destruct dvol_root as (I & l & F & Hs & Hb). assert (l = [4]) as ->.
  { destruct (fo_chain _ _ _ _ F) as [[H _]|[H _]]; [discriminate|]. destruct l as [|a [|b l]]; cbn [chain] in H.
    - exfalso. cbn in H. lia.
    - destruct H as [-> _]. reflexivity.
    - exfalso. destruct H as (_ & _ & _ & Hv & _). unfold valid_clus in Hv. vm_compute in Hv. destruct Hv as [_ Hv]. discriminate. }
  split; [exact I|exact F|exact Hs|exact Hb].
Qed.

(** Deleted entries are never taken again, so a directory only grows: after a
    file was created in a directory with room for it and removed, a search for
    as many free entries finds none. *)
Theorem deleted_never_reused : exists raw s1 s2 s3, dir_alloc_file zeros13 [66] (concat (replicate 4 zero_entry)) = Ok ((96, raw), s1) /\
  sync_back 96 raw 32 0 0 s1 = Ok (tt, s2) /\ rm_entries 2 0 96 s2 = Ok (tt, s3) /\ alloc_scan 5 0 0 2 128 s3 = Ok (None, s3).
Proof. eexists _, _, _, _. repeat (split; [vm_compute; reflexivity|]). vm_compute. reflexivity. Qed.
