(* ===== verification/ProcArg.v ===== *)
(** * Arguments of a new program

    [src/kern/proc/procarg.c], [proc_setustack] of [src/kern/proc/procinit.c]
    and the part of [parseElf] in [src/kern/proc/dynamic_link.c] that finishes
    the stack: the argument and environment strings of the calling program are
    brought into the kernel and pushed on the stack of the new one, the vector
    of their addresses is collected in the heap block [argvbuf], and the
    auxiliary words, that vector and the count follow on the stack.

    The state is that of [UserMem].  The array [kstr_arr] of kernel strings is
    a local of the C functions: here the list of its entries before the [NULL].
    Where a call of [kmalloc] puts its block is a parameter ([blk], [argvbuf]);
    the theorems assume of the blocks what [Kmalloc.kmalloc_fresh] proves, that
    they are apart.  [slot] is the address of a local on the kernel's stack. *)

From S2P Require Import Prelude StringLib Pmm Vmm Bytes UserMem Fork Mmap Elf AddrSpace.
From Stdlib Require Import ZArith Lia Bool.
From stdpp Require Import base tactics numbers list.
Open Scope Z_scope.

Definition MAXARG : Z := 256.
Definition MAXARGLEN : Z := 256.
(** The pages that [len] bytes can touch. *)
Definition span_fuel (len : Z) : nat := Z.to_nat (len / 4096 + 2).

(** ** Kernel memory *)

Definition poke (a : Z) (l : list Z) : M ust unit := modify (fun s => MkUst s.(umm) (mem_write a l s.(kmem))).
Definition poke64 (a v : Z) : M ust unit := poke a (le_bytes 8 v).
Definition peek64 (a : Z) : M ust Z := gets (fun s => mem_u64 s.(kmem) a).
(** [strlen] of an argument; [copyin_uarg_array] ends all of them within the
    first [MAXARGLEN + 1] bytes. *)
Definition arg_len (a : Z) : M ust Z := fun s =>
  match strlen (Z.to_nat (MAXARGLEN + 1)) s.(kmem) a with Ok n => Ok (n, s) | Err f => Err f end.

(** [kmalloc(n)], which clears the block it returns, here the one at [a]. *)
Definition kmalloc_at (a n : Z) : M ust unit := poke a (replicate (Z.to_nat n) 0).

(** ** procarg.c *)

(** The new value of [*sp] is the result. *)
Definition push_data (argpt sp data len : Z) (align : bool) : M ust Z :=
  let sp1 := wrap64 (sp - len) in
  let sp2 := if align then sp1 - sp1 mod 16 else sp1 in
  copy_out (span_fuel len) argpt sp2 data len ;;;
  ret sp2.

Fixpoint copyin_loop (n : nat) (in_pt arg_array : Z) (blk : Z -> Z) (slot arg_count : Z) : M ust (list Z) :=
  match n with
  | O => fail NoFuel
  | S n' =>
      let buf := blk arg_count in
      kmalloc_at buf (MAXARGLEN + 1) ;;;
      copy_in (span_fuel 8) in_pt (wrap64 (arg_array + 8 * arg_count)) slot 8 ;;;
      let* arg := peek64 slot in
      if arg =? 0 then ret []
      else
        copy_in_str (span_fuel MAXARGLEN) in_pt arg buf MAXARGLEN ;;;
        poke (buf + MAXARGLEN) [0] ;;;
        let* n := arg_len buf in
        let len := n + 1 in
        poke (buf + (len - 1)) [0] ;;;
        massert (arg_count + 1 <? MAXARG) ;;;
        let* rest := copyin_loop n' in_pt arg_array blk slot (arg_count + 1) in
        ret (buf :: rest)
  end.
Definition copyin_uarg_array (in_pt arg_array : Z) (blk : Z -> Z) (slot : Z) : M ust (list Z) :=
  if arg_array =? 0 then ret [] else copyin_loop (Z.to_nat MAXARG) in_pt arg_array blk slot 0.

(** [while (arg_buf[arg_count] != NULL)]. *)
Fixpoint count_args (n : nat) (arg_buf arg_count : Z) : M ust Z :=
  let* p := peek64 (arg_buf + 8 * arg_count) in
  if p =? 0 then ret arg_count
  else
    match n with
    | O => fail NoFuel
    | S n' =>
        massert (arg_count + 1 <? MAXARG) ;;;
        count_args n' arg_buf (arg_count + 1)
    end.
(** [for (i = 0; karg_array[i] != NULL; i++)]. *)
Fixpoint push_strings (karg_array : list Z) (out_pt sp arg_buf arg_count : Z) : M ust (Z * Z) :=
  match karg_array with
  | [] => ret (sp, arg_count)
  | buf :: rest =>
      let* n := arg_len buf in
      let* sp := push_data out_pt sp buf (n + 1) true in
      poke64 (arg_buf + 8 * arg_count) sp ;;;
      massert (arg_count + 1 <? MAXARG) ;;;
      push_strings rest out_pt sp arg_buf (arg_count + 1)
  end.
Definition push_karg_array (out_pt : Z) (karg_array : list Z) (sp arg_buf : Z) : M ust (Z * Z) :=
  let* arg_count := count_args (Z.to_nat MAXARG) arg_buf 0 in
  let* pushed := push_strings karg_array out_pt sp arg_buf arg_count in
  let '(sp, arg_count) := pushed in
  poke64 (arg_buf + 8 * arg_count) 0 ;;;
  ret (sp, arg_count + 1).

Definition push_uarg_array (in_pt out_pt arg_array sp arg_buf : Z) (cb : list Z -> M ust (list Z)) (blk : Z -> Z) (slot : Z) : M ust (Z * Z) :=
  let* kstr_arr := copyin_uarg_array in_pt arg_array blk slot in
  let* kstr_arr := cb kstr_arr in
  poke64 arg_buf 0 ;;;
  push_karg_array out_pt kstr_arr sp arg_buf.

Definition append_auxiliary_vector (arg_buf : Z) (auxiliary_vector : Z * Z) (len : Z) : M ust Z :=
  poke64 (arg_buf + 8 * len) (fst auxiliary_vector) ;;;
  poke64 (arg_buf + 8 * (len + 1)) (snd auxiliary_vector) ;;;
  ret (len + 2).

(** ** proc_setustack *)

(** The fields of [stack_arg_t], and the stack pointer of the thread. *)
Record stack_arg_t : Type := MkStackArg { total_len : Z; argc : Z; td_sp : Z }.
Definition proc_setustack (src_pt argpt argv envp sp argvbuf : Z) (cb : list Z -> M ust (list Z)) (vblk eblk : Z -> Z) (slot : Z) : M ust stack_arg_t :=
  kmalloc_at argvbuf (MAXARG * 8) ;;;
  let* pushed := push_uarg_array src_pt argpt argv sp argvbuf cb vblk slot in
  let '(sp, len_argv) := pushed in
  let* pushed := push_uarg_array src_pt argpt envp sp (argvbuf + 8 * len_argv) ret eblk slot in
  let '(sp, len_envp) := pushed in
  ret (MkStackArg (len_argv + len_envp) (len_argv - 1) sp).

(** ** The end of parseElf *)

Definition AT_NULL : Z := 0.
Definition AT_PHDR : Z := 3.
Definition AT_PHENT : Z := 4.
Definition AT_PHNUM : Z := 5.
Definition AT_PAGESZ : Z := 6.
Definition AT_BASE : Z := 7.
Definition AT_ENTRY : Z := 9.
Definition AT_HWCAP : Z := 16.
Definition AT_SECURE : Z := 23.
Definition AT_RANDOM : Z := 25.
Definition AT_EXECFN : Z := 31.
Definition sizeof_ProgramHeader : Z := 56.

(** The address at which the program finds its own program headers. *)
Fixpoint find_segtable (n : nat) (m : mem) (binary phentsize phtable_off phOff : Z) : option Z :=
  match n with
  | O => None
  | S n' =>
      let ph := program_header m (wrap64 (binary + phOff)) in
      if (ph.(p_type) =? ELF_PROG_LOAD) && ((ph.(p_off) <=? phtable_off) && (phtable_off <? wrap64 (ph.(p_off) + ph.(p_filesz))))
      then Some (wrap64 (ph.(p_vaddr) + (phtable_off - ph.(p_off))))
      else find_segtable n' m binary phentsize phtable_off (wrap64 (phOff + phentsize))
  end.

Fixpoint append_all (arg_buf : Z) (l : list (Z * Z)) (len : Z) : M ust Z :=
  match l with
  | [] => ret len
  | x :: l' => let* len := append_auxiliary_vector arg_buf x len in append_all arg_buf l' len
  end.
(** The auxiliary words behind the [total] words of [argvbuf]. *)
Definition fill_auxv (argvbuf va_segtable dynamic_base : Z) (elf : ElfHeader) (uaddr_rand total : Z) : M ust Z :=
  let* total := append_all argvbuf
    [(AT_HWCAP, 0); (AT_PAGESZ, PAGE_SIZE); (AT_PHDR, va_segtable); (AT_PHENT, sizeof_ProgramHeader); (AT_PHNUM, elf.(e_phnum))] total in
  let* total := (if negb (dynamic_base =? 0) then append_auxiliary_vector argvbuf (AT_BASE, dynamic_base) total else ret total) in
  let* total := append_all argvbuf [(AT_ENTRY, elf.(e_entry)); (AT_SECURE, 0); (AT_RANDOM, uaddr_rand)] total in
  let* name := peek64 argvbuf in
  append_all argvbuf [(AT_EXECFN, name); (AT_NULL, AT_NULL)] total.
(** [u_rand_bytes] is at [slot] and [parg->argc] behind it. *)
Definition start_stack (pt argvbuf slot va_segtable dynamic_base : Z) (elf : ElfHeader) (parg : stack_arg_t) : M ust Z :=
  poke slot (seqZ 1 16) ;;;
  let* uaddr_rand := push_data pt parg.(td_sp) slot 16 true in
  let* total := fill_auxv argvbuf va_segtable dynamic_base elf uaddr_rand parg.(total_len) in
  let* sp := push_data pt uaddr_rand argvbuf (8 * total) true in
  poke64 (slot + 16) parg.(argc) ;;;
  push_data pt sp (slot + 16) 8 false.

(** ** copy_arg *)

(** One page of the new stack takes the place of the old one. *)
Definition migrate_page (temppt pt va : Z) : M mm unit :=
  panic_on (ptUnmap pt va) ;;;
  let* pte := ptLookup temppt va in
  panic_on (ptMap pt va (pteToPa pte) (PTE_PERM pte)).
Definition migrate_stack (temppt pt : Z) : M mm unit :=
  stack_loop (Z.to_nat TD_USTACK_PAGE_NUM) (migrate_page temppt pt) TD_USTACK_BOTTOM 0.

(** ** Words and bytes of a memory *)

Definition bytes (m : mem) : Prop := forall x, 0 <= m x < 256.
(** The words [l] from address [a] on. *)
Definition words (m : mem) (a : Z) (l : list Z) : Prop := forall i w, l !! i = Some w -> mem_u64 m (a + 8 * Z.of_nat i) = w.

Lemma mem_u64_ext m m' a : (forall x, a <= x < a + 8 -> m x = m' x) -> mem_u64 m a = mem_u64 m' a.
Proof. intros H. unfold mem_u64. f_equal. apply mem_read_ext. intros i Hi. apply H. lia. Qed.
Lemma mem_read_write m a l : mem_read (mem_write a l m) a (Z.of_nat (length l)) = l.
Proof.
  apply list_eq_same_length with (n := length l); [reflexivity|apply Nat2Z.inj; now rewrite length_mem_read by lia|].
  intros i x y Hi Hx Hy. unfold mem_read in Hx. rewrite list_lookup_fmap in Hx.
  assert (Es : seqZ 0 (Z.of_nat (length l)) !! i = Some (Z.of_nat i)) by (apply lookup_seqZ; lia). rewrite Es in Hx. injection Hx as <-.
  unfold mem_write. zcases. replace (a + Z.of_nat i - a) with (Z.of_nat i) by lia. unfold byte_at. rewrite Nat2Z.id. now apply nth_lookup_Some.
Qed.
Lemma mem_u64_write m a v : 0 <= v < 18446744073709551616 -> mem_u64 (mem_write a (le_bytes 8 v) m) a = v.
Proof.
  intros Hv. unfold mem_u64. pose proof (mem_read_write m a (le_bytes 8 v)) as E. rewrite length_le_bytes in E. change (Z.of_nat 8) with 8 in E.
  rewrite E, le_val_bytes. now apply Z.mod_small.
Qed.
Lemma mem_u64_write_out m a l b : b + 8 <= a \/ a + Z.of_nat (length l) <= b -> mem_u64 (mem_write a l m) b = mem_u64 m b.
Proof. intros H. apply mem_u64_ext. intros x Hx. apply mem_write_out. lia. Qed.
Lemma le_bytes_range n v : Forall (fun b => 0 <= b < 256) (le_bytes n v).
Proof. revert v. induction n as [|n IH]; intros v; cbn [le_bytes]; constructor; [apply Z.mod_pos_bound; lia|apply IH]. Qed.
Lemma bytes_write m a l : bytes m -> Forall (fun b => 0 <= b < 256) l -> bytes (mem_write a l m).
Proof.
  intros Hm Hl x. unfold mem_write. destruct (_ && _) eqn:E; [|apply Hm]. zbool. unfold byte_at.
  destruct (lookup_lt_is_Some_2 l (Z.to_nat (x - a))) as [b Eb]; [lia|]. rewrite (nth_lookup_Some _ _ 0 _ Eb). exact (proj1 (Forall_lookup _ l) Hl _ _ Eb).
Qed.
Lemma words_nil m a : words m a [].
Proof. intros i w H. rewrite lookup_nil in H. discriminate. Qed.
Lemma words_cons m a w l : mem_u64 m a = w -> words m (a + 8) l -> words m a (w :: l).
Proof.
  intros H1 H2 [|i] w' E; [injection E as <-; now rewrite Z.add_0_r|]. cbn in E. rewrite <- (H2 i w' E). f_equal. lia.
Qed.
Lemma words_app m a l1 l2 : words m a (l1 ++ l2) <-> words m a l1 /\ words m (a + 8 * Z.of_nat (length l1)) l2.
Proof.
  split.
  - intros H. split; intros i w E; [apply H; now apply lookup_app_l_Some|].
    rewrite <- (H (length l1 + i)%nat w); [f_equal; lia|]. rewrite lookup_app_r by lia. now replace (length l1 + i - length l1)%nat with i by lia.
  - intros [H1 H2] i w E. apply lookup_app_Some in E as [E|[Hi E]]; [auto|]. rewrite <- (H2 _ _ E). f_equal. lia.
Qed.
Lemma words_ext m m' a l : (forall x, a <= x < a + 8 * Z.of_nat (length l) -> m' x = m x) -> words m a l -> words m' a l.
Proof. intros H Hw i w E. rewrite <- (Hw i w E). apply lookup_lt_Some in E. apply mem_u64_ext. intros x Hx. apply H. lia. Qed.

Lemma poke_run a l s km : poke a l (MkUst s km) = Ok (tt, MkUst s (mem_write a l km)).
Proof. reflexivity. Qed.
Lemma poke64_run a v s km : poke64 a v (MkUst s km) = Ok (tt, MkUst s (mem_write a (le_bytes 8 v) km)).
Proof. reflexivity. Qed.

(** ** One push *)

Section Stack.
(** The new program's table and the calling one's. *)
Context (R R2 : Z).

(** What copies in either direction leave, after taking [n] pages at most. *)
Record kept (n : nat) (s s' : mm) : Prop := {
  k_sp : spaces s' R R2;
  k_u2 : forall va, ubyte s'.(pmem) R2 va = ubyte s.(pmem) R2 va;
  k_w : forall va, may_write R R2 s va -> may_write R R2 s' va;
  k_r : forall va, may_read R2 s va -> may_read R2 s' va;
  k_free : (length s.(pageFreeList) <= length s'.(pageFreeList) + n)%nat }.
Lemma kept_refl s : spaces s R R2 -> kept 0 s s.
Proof. constructor; auto; lia. Qed.
Lemma kept_trans n1 n2 s s1 s2 : kept n1 s s1 -> kept n2 s1 s2 -> kept (n1 + n2) s s2.
Proof.
  intros [A1 A2 A3 A4 A5] [B1 B2 B3 B4 B5]. constructor; auto; [|lia]. intros va. now rewrite B2.
Qed.
Lemma kept_more n1 n2 s s' : (n1 <= n2)%nat -> kept n1 s s' -> kept n2 s s'.
Proof. intros H [A1 A2 A3 A4 A5]. constructor; auto; lia. Qed.

Lemma span_enough x len : 0 <= len -> x mod 4096 + len <= 4096 * Z.of_nat (span_fuel len).
Proof. intros. unfold span_fuel. pose proof (Z.mod_pos_bound x 4096 ltac:(lia)). pose proof (Z.div_pos len 4096 ltac:(lia) ltac:(lia)). zlia. Qed.

(** Where [push_data] puts [len] bytes. *)
Definition pushed_at (sp len : Z) (align : bool) : Z := if align then sp - len - (sp - len) mod 16 else sp - len.
Lemma pushed_at_range sp len align : 0 <= len -> sp - len - 15 <= pushed_at sp len align /\ pushed_at sp len align + len <= sp.
Proof. intros. unfold pushed_at. pose proof (Z.mod_pos_bound (sp - len) 16 ltac:(lia)). destruct align; lia. Qed.
Lemma push_data_run s km lo sp data len align : spaces s R R2 -> bytes km -> 4096 <= data -> 0 <= len -> 0 <= lo -> lo + len + 15 <= sp -> sp <= USER_TOP ->
  (forall va, lo <= va < sp -> may_write R R2 s va) -> (3 * span_fuel len <= length s.(pageFreeList))%nat ->
  let p := pushed_at sp len align in
  exists s', push_data R sp data len align (MkUst s km) = Ok (p, MkUst s' km) /\ kept (3 * span_fuel len) s s' /\
    forall va, 0 <= va < USER_TOP -> ubyte s'.(pmem) R va = if (p <=? va) && (va <? p + len) then km (data + (va - p)) else ubyte s.(pmem) R va.
Proof.
  intros Sp Hkm Hd Hl Hlo Hroom Htop Hw Hf p. pose proof (pushed_at_range sp len align Hl) as Hp. fold p in Hp.
  assert (Ep : (if align then wrap64 (sp - len) - wrap64 (sp - len) mod 16 else wrap64 (sp - len)) = p).
  { unfold p, pushed_at. rewrite wrap64_small by (unfold USER_TOP in Htop; lia). reflexivity. }
  destruct (copy_out_loop R R2 p data len ltac:(lia) Hd (span_fuel len) (span_fuel len) 0 (p mod PAGE_SIZE) s km ltac:(lia) Hkm) as (s' & E & Sp' & L2 & U & U2 & W & F).
  { constructor; auto; try (intros; rewrite ?Z.add_0_r in *; unfold PAGE_SIZE; auto; lia).
    - intros _. rewrite Z.sub_0_r. now apply span_enough.
    - intros va Hva. apply Hw. lia. }
  exists s'. split; [|split].
  - unfold push_data. rewrite Ep. unfold copy_out, userToKernel. unfold bind. rewrite E. reflexivity.
  - constructor; auto. intros va. unfold may_read. now rewrite L2.
  - intros va Hva. rewrite (U va Hva), Z.add_0_r. reflexivity.
Qed.

(** ** A vector of strings *)

Lemma arg_len_run s km a l : cstr km a l -> Z.of_nat (length l) <= MAXARGLEN -> arg_len a (MkUst s km) = Ok (Z.of_nat (length l), MkUst s km).
Proof. intros Hc Hl. unfold arg_len. cbn [kmem]. rewrite (strlen_cstr _ _ _ _ Hc); [reflexivity|]. unfold MAXARGLEN in *. lia. Qed.
Lemma cstr_ext m m' a l : (forall x, a <= x < a + Z.of_nat (length l) + 1 -> m' x = m x) -> cstr m a l -> cstr m' a l.
Proof. intros H. apply cstr_copied. intros x Hx. rewrite (H x Hx). f_equal. lia. Qed.

(** [k] holds the string [l] in the kernel, away from [argvbuf]'s words. *)
Record kstring (km : mem) (lo hi k : Z) (l : list Z) : Prop := {
  ks_str : cstr km k l;
  ks_len : Z.of_nat (length l) <= MAXARGLEN;
  ks_at : 4096 <= k;
  ks_apart : k + MAXARGLEN + 1 <= lo \/ hi <= k }.
Lemma kstring_ext km km' lo hi k l : (forall x, x < lo \/ hi <= x -> km' x = km x) -> kstring km lo hi k l -> kstring km' lo hi k l.
Proof. intros H [A B C D]. constructor; auto. revert A. apply cstr_ext. intros x Hx. apply H. unfold MAXARGLEN in *. lia. Qed.

(** The strings [strs] are at [vs], one below the other between [lo] and [hi]. *)
Definition ustrings (m : mem) (lo hi : Z) (vs : list Z) (strs : list (list Z)) : Prop :=
  Forall2 (fun v l => cstr m v l /\ lo <= v /\ v + Z.of_nat (length l) < hi) vs strs.
Lemma ustrings_ext m m' lo hi lo' hi' vs strs : lo' <= lo -> hi <= hi' -> (forall x, lo <= x < hi -> m' x = m x) -> ustrings m lo hi vs strs -> ustrings m' lo' hi' vs strs.
Proof.
  intros Hlo Hhi H HF. eapply Forall2_impl; [exact HF|]. intros v l (A & B & C). split; [|lia]. revert A. apply cstr_ext. intros x Hx. apply H. lia.
Qed.

(** A push takes 272 bytes and six pages at most. *)
Definition STRMAX : Z := 272.
Lemma push_strings_run abuf cap kargs strs : 0 <= abuf -> forall c sp lo s km, Forall2 (kstring km abuf (abuf + 8 * cap)) kargs strs ->
  spaces s R R2 -> bytes km -> 0 <= lo -> lo + STRMAX * Z.of_nat (length kargs) <= sp -> sp <= USER_TOP ->
  (forall va, lo <= va < sp -> may_write R R2 s va) -> (6 * length kargs <= length s.(pageFreeList))%nat ->
  0 <= c -> c + Z.of_nat (length kargs) < MAXARG -> c + Z.of_nat (length kargs) <= cap ->
  exists sp' s' km' vs, push_strings kargs R sp abuf c (MkUst s km) = Ok ((sp', c + Z.of_nat (length kargs)), MkUst s' km') /\
    kept (6 * length kargs) s s' /\ bytes km' /\ length vs = length kargs /\
    (forall x, x < abuf + 8 * c \/ abuf + 8 * (c + Z.of_nat (length kargs)) <= x -> km' x = km x) /\
    words km' (abuf + 8 * c) vs /\ ustrings (ubyte s'.(pmem) R) sp' sp vs strs /\
    sp - STRMAX * Z.of_nat (length kargs) <= sp' <= sp /\ (sp mod 16 = 0 -> sp' mod 16 = 0) /\
    (forall va, 0 <= va < USER_TOP -> va < sp' \/ sp <= va -> ubyte s'.(pmem) R va = ubyte s.(pmem) R va).
Proof.
  intros Hab. revert strs. induction kargs as [|k kargs IH]; intros strs c sp lo s km HF Sp Hkm Hlo Hroom Htop Hw Hf Hc Hmax Hcap.
  - inversion HF; subst. exists sp, s, km, []. cbn [length Z.of_nat Nat.mul]. rewrite Z.add_0_r.
    split; [reflexivity|]. split; [now apply kept_refl|]. split; [exact Hkm|]. split; [reflexivity|]. split; [auto|]. split; [apply words_nil|]. split; [constructor|].
    split; [lia|]. auto.
  - inversion HF as [|? l ? strs' HK HF']; subst. cbn [length] in *. rewrite Nat2Z.inj_succ in *. unfold STRMAX in Hroom.
    pose proof (ks_len _ _ _ _ _ HK) as Hlen. unfold MAXARGLEN in Hlen. set (n := Z.of_nat (length l)) in *. assert (Hn : 0 <= n) by lia.
    assert (Es : span_fuel (n + 1) = 2%nat) by (unfold span_fuel; replace ((n + 1) / 4096) with 0 by zlia; reflexivity).
    destruct (push_data_run s km lo sp k (n + 1) true Sp Hkm (ks_at _ _ _ _ _ HK) ltac:(lia) Hlo ltac:(lia) Htop Hw ltac:(rewrite Es; lia)) as (s1 & E1 & K1 & U1).
    rewrite Es in K1. change (3 * 2)%nat with 6%nat in K1. pose proof (pushed_at_range sp (n + 1) true ltac:(lia)) as Hp.
    assert (Hmod : pushed_at sp (n + 1) true mod 16 = 0) by (unfold pushed_at; zlia). set (p := pushed_at sp (n + 1) true) in *. clearbody p.
    set (km1 := mem_write (abuf + 8 * c) (le_bytes 8 p) km).
    assert (Hout : forall x, x < abuf + 8 * c \/ abuf + 8 * c + 8 <= x -> km1 x = km x) by (intros x Hx; apply mem_write_out; rewrite length_le_bytes; lia).
    destruct (IH strs' (c + 1) p lo s1 km1) as (sp' & s' & km' & vs & E & K & B & Ev & Ho & Hws & Hus & Hr & Hm & Hu); try lia.
    + eapply Forall2_impl; [exact HF'|]. intros k' l'. apply kstring_ext. intros x Hx. apply Hout. lia.
    + apply K1.
    + apply bytes_write; [exact Hkm|apply le_bytes_range].
    + unfold STRMAX. lia.
    + intros va Hva. apply K1, Hw. lia.
    + pose proof (k_free _ _ _ K1). lia.
    + unfold STRMAX in Hr. exists sp', s', km', (p :: vs). split; [|split; [|split; [exact B|split; [cbn; lia|split; [|split; [|split; [|split; [|split]]]]]]]].
      * cbn [push_strings]. rewrite (bind_run _ _ _ _ _ (arg_len_run s km k l (ks_str _ _ _ _ _ HK) (ks_len _ _ _ _ _ HK))). fold n.
        rewrite (bind_run _ _ _ _ _ E1). rewrite (bind_run _ _ _ _ _ (poke64_run _ _ s1 km)). fold km1.
        rewrite massert_run by (apply Z.ltb_lt; unfold MAXARG in *; lia). replace (c + Z.succ (Z.of_nat (length kargs))) with (c + 1 + Z.of_nat (length kargs)) by lia. exact E.
      * replace (6 * S (length kargs))%nat with (6 + 6 * length kargs)%nat by lia. exact (kept_trans _ _ _ _ _ K1 K).
      * intros x Hx. rewrite Ho by lia. apply Hout. lia.
      * apply words_cons; [|replace (abuf + 8 * c + 8) with (abuf + 8 * (c + 1)) by lia; exact Hws].
        rewrite (mem_u64_ext km' km1) by (intros x Hx; apply Ho; lia). apply mem_u64_write. unfold USER_TOP in Htop. lia.
      * constructor; [|revert Hus; apply ustrings_ext; [lia|lia|auto]]. split; [|fold n; lia].
        apply (cstr_copied km _ _ k l); [|apply HK]. intros x Hx. fold n in Hx. unfold USER_TOP in *. rewrite Hu, U1 by (unfold USER_TOP; lia). zcases.
      * unfold STRMAX. lia.
      * intros _. now apply Hm.
      * intros va Hva Hx. rewrite Hu by (auto; lia). rewrite U1 by exact Hva. zcases.
Qed.

Lemma push_karg_array_run abuf cap kargs strs sp lo s km : 0 <= abuf -> Forall2 (kstring km abuf (abuf + 8 * cap)) kargs strs ->
  spaces s R R2 -> bytes km -> 0 <= lo -> lo + STRMAX * Z.of_nat (length kargs) <= sp -> sp <= USER_TOP ->
  (forall va, lo <= va < sp -> may_write R R2 s va) -> (6 * length kargs <= length s.(pageFreeList))%nat ->
  mem_u64 km abuf = 0 -> Z.of_nat (length kargs) < MAXARG -> Z.of_nat (length kargs) < cap ->
  exists sp' s' km' vs, push_karg_array R kargs sp abuf (MkUst s km) = Ok ((sp', Z.of_nat (length kargs) + 1), MkUst s' km') /\
    kept (6 * length kargs) s s' /\ bytes km' /\ length vs = length kargs /\
    (forall x, x < abuf \/ abuf + 8 * (Z.of_nat (length kargs) + 1) <= x -> km' x = km x) /\
    words km' abuf (vs ++ [0]) /\ ustrings (ubyte s'.(pmem) R) sp' sp vs strs /\
    sp - STRMAX * Z.of_nat (length kargs) <= sp' <= sp /\ (sp mod 16 = 0 -> sp' mod 16 = 0) /\
    (forall va, 0 <= va < USER_TOP -> va < sp' \/ sp <= va -> ubyte s'.(pmem) R va = ubyte s.(pmem) R va).
Proof.
  intros Hab HF Sp Hkm Hlo Hroom Htop Hw Hf H0 Hmax Hcap.
  destruct (push_strings_run abuf cap kargs strs Hab 0 sp lo s km HF Sp Hkm Hlo Hroom Htop Hw Hf ltac:(lia) ltac:(lia) ltac:(lia))
    as (sp' & s' & km1 & vs & E & K & B & Ev & Ho & Hws & Hus & Hr & Hm & Hu).
  rewrite Z.add_0_l, Z.mul_0_r, Z.add_0_r in *. set (n := Z.of_nat (length kargs)) in *.
  exists sp', s', (mem_write (abuf + 8 * n) (le_bytes 8 0) km1), vs. split; [|split; [exact K|split; [|split; [exact Ev|split; [|split; [|split; [exact Hus|split; [exact Hr|split; [exact Hm|exact Hu]]]]]]]]].
  - unfold push_karg_array. rewrite (bind_run _ _ _ 0 (MkUst s km)).
    + rewrite (bind_run _ _ _ _ _ E). rewrite (bind_run _ _ _ _ _ (poke64_run _ _ s' km1)). reflexivity.
    + destruct (Z.to_nat MAXARG); cbn [count_args]; unfold bind, peek64, gets; cbn [kmem]; rewrite Z.mul_0_r, Z.add_0_r, H0; reflexivity.
  - apply bytes_write; [exact B|apply le_bytes_range].
  - intros x Hx. rewrite mem_write_out by (rewrite length_le_bytes; lia). apply Ho. lia.
  - apply words_app. rewrite Ev. fold n. split; [|apply words_cons; [apply mem_u64_write; lia|apply words_nil]].
    revert Hws. apply words_ext. intros x Hx. rewrite Ev in Hx. fold n in Hx. apply mem_write_out. lia.
Qed.

(** ** Bringing the strings in *)

Lemma copy_in_kept s km uptr kptr len : spaces s R R2 -> 0 <= uptr -> 0 <= len -> uptr + len <= USER_TOP -> 4096 <= kptr ->
  (3 * span_fuel len <= length s.(pageFreeList))%nat -> (forall va, uptr <= va < uptr + len -> may_read R2 s va) ->
  exists s' km', copy_in (span_fuel len) R2 uptr kptr len (MkUst s km) = Ok (tt, MkUst s' km') /\ kept (3 * span_fuel len) s s' /\
    (forall x, km' x = if (kptr <=? x) && (x <? kptr + len) then ubyte s.(pmem) R2 (uptr + (x - kptr)) else km x) /\
    (forall va, ubyte s'.(pmem) R va = ubyte s.(pmem) R va).
Proof.
  intros Sp Hu Hl Ht Hk Hf Hr.
  destruct (copy_in_loop R2 R uptr kptr len (conj Hu Ht) Hk (span_fuel len) (span_fuel len) 0 (uptr mod PAGE_SIZE) s km ltac:(lia)) as (s' & km' & E & Sp' & L & K & U2 & U & Kp).
  - constructor; auto; try (intros; rewrite ?Z.add_0_r in *; unfold PAGE_SIZE; auto; lia); [now apply spaces_sym|]. intros _. rewrite Z.sub_0_r. now apply span_enough.
  - exists s', km'. split; [exact E|]. split; [|split; [|exact U]].
    + constructor; [now apply spaces_sym|exact U2| |apply Kp|apply Kp]. intros va [H1 H2]. split; [now rewrite L|now apply Kp].
    + intros x. rewrite K, Z.add_0_r. reflexivity.
Qed.
Lemma copy_in_str_kept s km uptr kptr len : spaces s R R2 -> 0 <= uptr -> 0 <= len -> uptr + len <= USER_TOP -> 4096 <= kptr ->
  (3 * span_fuel len <= length s.(pageFreeList))%nat ->
  let c := upto_nul (Z.to_nat len) (fun k => ubyte s.(pmem) R2 (uptr + k)) 0 in
  (forall va, uptr <= va < uptr + c -> may_read R2 s va) ->
  exists s' km', copy_in_str (span_fuel len) R2 uptr kptr len (MkUst s km) = Ok (tt, MkUst s' km') /\ kept (3 * span_fuel len) s s' /\
    (forall x, km' x = if (kptr <=? x) && (x <? kptr + c) then ubyte s.(pmem) R2 (uptr + (x - kptr)) else km x) /\
    (forall va, ubyte s'.(pmem) R va = ubyte s.(pmem) R va).
Proof.
  intros Sp Hu Hl Ht Hk Hf c Hr.
  destruct (copy_in_str_loop R2 R uptr kptr len (conj Hu Ht) Hk (span_fuel len) (span_fuel len) 0 (uptr mod PAGE_SIZE) s km ltac:(lia)) as (s' & km' & E & Sp' & L & K & U2 & U & Kp).
  - constructor; auto; try (intros; rewrite ?Z.add_0_r in *; unfold PAGE_SIZE; auto; lia); [now apply spaces_sym|]. intros _. rewrite Z.sub_0_r. now apply span_enough.
  - rewrite Z.add_0_r, Z.sub_0_r. exact Hr.
  - exists s', km'. split; [exact E|]. split; [|split; [|exact U]].
    + constructor; [now apply spaces_sym|exact U2| |apply Kp|apply Kp]. intros va [H1 H2]. split; [now rewrite L|now apply Kp].
    + intros x. rewrite K, Z.add_0_r, Z.sub_0_r. reflexivity.
Qed.
End Stack.

(** The argument the kernel takes from address [p]: the string there, cut at
    [n] bytes. *)
Fixpoint arg_bytes (n : nat) (m : mem) (p : Z) : list Z :=
  match n with O => [] | S n' => if m p =? 0 then [] else m p :: arg_bytes n' m (p + 1) end.
Definition arg_string (m : mem) (p : Z) : list Z := arg_bytes (Z.to_nat MAXARGLEN) m p.
Lemma arg_bytes_length n : forall m p, (length (arg_bytes n m p) <= n)%nat.
Proof. induction n as [|n IH]; intros m p; cbn [arg_bytes]; [cbn; lia|]. destruct (m p =? 0); cbn [length]; [lia|]. specialize (IH m (p + 1)). lia. Qed.
Lemma arg_bytes_upto n : forall m p, upto_nul n (fun k => m (p + k)) 0 <= Z.of_nat (length (arg_bytes n m p)) + 1.
Proof.
  induction n as [|n IH]; intros m p; cbn [arg_bytes upto_nul]; [cbn; lia|]. rewrite Z.add_0_r. destruct (m p =? 0); cbn [length]; [lia|].
  rewrite (upto_nul_ext n _ (fun k => m (p + 1 + k)) (0 + 1) 0) by (intros; f_equal; lia). specialize (IH m (p + 1)). lia.
Qed.
Lemma arg_bytes_cstr n : forall m p g a, (forall k, 0 <= k < upto_nul n (fun k => m (p + k)) 0 -> g (a + k) = m (p + k)) -> g (a + Z.of_nat n) = 0 ->
  cstr g a (arg_bytes n m p).
Proof.
  induction n as [|n IH]; intros m p g a H Hz; cbn [arg_bytes]; [apply cstr_nil; now rewrite Z.add_0_r in Hz|].
  cbn [upto_nul] in H. rewrite Z.add_0_r in H. destruct (m p =? 0) eqn:E0.
  - apply cstr_nil. specialize (H 0 ltac:(lia)). rewrite !Z.add_0_r in H. rewrite H. lia.
  - rewrite (upto_nul_ext n _ (fun k => m (p + 1 + k)) (0 + 1) 0) in H by (intros; f_equal; lia).
    pose proof (upto_nul_range n (fun k => m (p + 1 + k)) 0) as Hr. apply cstr_cons. split; [lia|]. split; [specialize (H 0 ltac:(lia)); now rewrite !Z.add_0_r in H|].
    apply IH; [|replace (a + 1 + Z.of_nat n) with (a + Z.of_nat (S n)) by lia; exact Hz].
    intros k Hk. specialize (H (k + 1) ltac:(lia)). replace (a + 1 + k) with (a + (k + 1)) by lia. replace (p + 1 + k) with (p + (k + 1)) by lia. exact H.
Qed.
Lemma arg_bytes_ext n : forall m m' p, (forall x, m' x = m x) -> arg_bytes n m' p = arg_bytes n m p.
Proof. induction n as [|n IH]; intros m m' p H; cbn [arg_bytes]; [reflexivity|]. now rewrite H, (IH m m' (p + 1) H). Qed.
Lemma mem_u64_copied m m' a b : (forall i, 0 <= i < 8 -> m (a + i) = m' (b + i)) -> mem_u64 m a = mem_u64 m' b.
Proof. intros H. unfold mem_u64, mem_read. f_equal. apply map_ext_in. intros i Hi. apply list_elem_of_In, elem_of_seqZ in Hi. apply H. lia. Qed.
Lemma cstr_end m a l : cstr m a l -> m (a + Z.of_nat (length l)) = 0.
Proof. intros [H _]. apply H. rewrite lookup_app_r, Nat.sub_diag by lia. reflexivity. Qed.

(** A vector of strings in user memory: the words [ptrs] and a zero at [arr],
    and behind each word bytes that may be read up to where its string ends. *)
Record uargs (s : mm) (pt arr : Z) (ptrs : list Z) : Prop := {
  ua_at : 0 < arr /\ arr + 8 * (Z.of_nat (length ptrs) + 1) <= USER_TOP;
  ua_words : words (ubyte s.(pmem) pt) arr (ptrs ++ [0]);
  ua_read : forall va, arr <= va < arr + 8 * (Z.of_nat (length ptrs) + 1) -> may_read pt s va;
  ua_ptr : Forall (fun p => 0 < p /\ p + MAXARGLEN <= USER_TOP /\
    forall va, p <= va <= p + Z.of_nat (length (arg_string (ubyte s.(pmem) pt) p)) -> may_read pt s va) ptrs }.
Lemma arg_strings_kept R R2 n s s' ptrs : kept R R2 n s s' -> map (arg_string (ubyte s'.(pmem) R2)) ptrs = map (arg_string (ubyte s.(pmem) R2)) ptrs.
Proof. intros K. apply map_ext. intros p. apply arg_bytes_ext, K. Qed.
Lemma uargs_kept R R2 n s s' arr ptrs : kept R R2 n s s' -> uargs s R2 arr ptrs -> uargs s' R2 arr ptrs.
Proof.
  intros K [A B C D]. constructor; [exact A| |intros va Hva; apply K; auto|].
  - revert B. apply words_ext. intros x _. apply K.
  - eapply Forall_impl; [exact D|]. intros p (H1 & H2 & H3). split; [exact H1|]. split; [exact H2|]. intros va Hva. apply K, H3.
    unfold arg_string in *. now rewrite (arg_bytes_ext _ (ubyte s.(pmem) R2)) in Hva by apply K.
Qed.
Lemma uargs_next s pt arr p ptrs : uargs s pt arr (p :: ptrs) -> uargs s pt (arr + 8) ptrs.
Proof.
  intros [A B C D]. cbn [length] in *. rewrite Nat2Z.inj_succ in *. constructor; [lia| |intros; apply C; lia|now inversion D].
  apply (words_app _ _ [p]) in B as [_ B]. exact B.
Qed.

Section Copyin.
Context (R R2 slot arr : Z) (blk : Z -> Z).
Context (Hslot : 4096 <= slot).
Context (Hblk : forall i, 0 <= i < MAXARG -> 4096 <= blk i /\ (slot + 8 <= blk i \/ blk i + 257 <= slot)).
Context (Hapart : forall i j, 0 <= i < MAXARG -> 0 <= j < MAXARG -> i <> j -> blk i + 257 <= blk j \/ blk j + 257 <= blk i).

(** The memory the copies of arguments [c] to [d] may change. *)
Definition scratch (c d x : Z) : Prop := slot <= x < slot + 8 \/ exists i, c <= i <= d /\ blk i <= x < blk i + 257.

(** The word of the vector. *)
Lemma read_pointer s km c p ptrs : spaces s R R2 -> bytes km -> 0 <= c < MAXARG -> uargs s R2 (arr + 8 * c) ptrs -> 0 < arr -> (ptrs ++ [0]) !! 0%nat = Some p ->
  (6 <= length s.(pageFreeList))%nat ->
  exists s1 km1, (kmalloc_at (blk c) (MAXARGLEN + 1) ;;; copy_in (span_fuel 8) R2 (wrap64 (arr + 8 * c)) slot 8) (MkUst s km) = Ok (tt, MkUst s1 km1) /\
    kept R R2 6 s s1 /\ (forall va, ubyte s1.(pmem) R va = ubyte s.(pmem) R va) /\ bytes km1 /\ mem_u64 km1 slot = p /\
    (forall x, ~ scratch c c x -> km1 x = km x).
Proof.
  intros Sp Hkm Hc [A B C D] Ha Hp Hf. set (km0 := mem_write (blk c) (replicate (Z.to_nat 257) 0) km).
  assert (Hlen : 0 <= Z.of_nat (length ptrs)) by lia. specialize (B 0%nat p Hp). rewrite Z.add_0_r in B.
  destruct (copy_in_kept R R2 s km0 (arr + 8 * c) slot 8 Sp) as (s1 & km1 & E & K & F & U); try lia; [exact Hf|intros; apply C; lia|].
  exists s1, km1. split; [|split; [exact K|split; [exact U|split; [|split]]]].
  - unfold kmalloc_at. rewrite (bind_run _ _ _ _ _ (poke_run _ _ s km)). rewrite wrap64_small by (unfold USER_TOP in A; lia). exact E.
  - intros x. rewrite F. destruct (_ && _); [unfold ubyte; destruct (pte_page _); [apply ldb_range|lia]|]. apply bytes_write; [exact Hkm|]. apply Forall_replicate. lia.
  - rewrite <- B. apply mem_u64_copied. intros i Hi. rewrite F. replace (arr + 8 * c + (slot + i - slot)) with (arr + 8 * c + i) by lia. zcases.
  - intros x Hx. rewrite F. destruct (_ && _) eqn:Ex; [exfalso; zbool; apply Hx; left; lia|]. apply mem_write_out. rewrite length_replicate.
    intros H. apply Hx. right. exists c. unfold MAXARGLEN. lia.
Qed.

(** The string behind it. *)
Lemma read_string s km c p : spaces s R R2 -> bytes km -> 0 <= c < MAXARG -> 0 < p -> p + MAXARGLEN <= USER_TOP ->
  let l := arg_string (ubyte s.(pmem) R2) p in
  (forall va, p <= va <= p + Z.of_nat (length l) -> may_read R2 s va) -> (6 <= length s.(pageFreeList))%nat ->
  exists s1 km1, (copy_in_str (span_fuel MAXARGLEN) R2 p (blk c) MAXARGLEN ;;; poke (blk c + MAXARGLEN) [0] ;;;
      let* n := arg_len (blk c) in poke (blk c + (n + 1 - 1)) [0]) (MkUst s km) = Ok (tt, MkUst s1 km1) /\
    kept R R2 6 s s1 /\ (forall va, ubyte s1.(pmem) R va = ubyte s.(pmem) R va) /\ bytes km1 /\ cstr km1 (blk c) l /\
    (forall x, ~ blk c <= x < blk c + 257 -> km1 x = km x).
Proof.
  intros Sp Hkm Hc Hp Ht l Hr Hf. pose proof (Hblk c Hc) as [Hb _]. set (u := ubyte s.(pmem) R2) in *.
  assert (Hl : Z.of_nat (length l) <= MAXARGLEN) by (pose proof (arg_bytes_length (Z.to_nat MAXARGLEN) u p); unfold l, arg_string, MAXARGLEN in *; lia).
  pose proof (arg_bytes_upto (Z.to_nat MAXARGLEN) u p) as Hc1. change (arg_bytes (Z.to_nat MAXARGLEN) u p) with l in Hc1.
  pose proof (upto_nul_range (Z.to_nat MAXARGLEN) (fun k => u (p + k)) 0) as Hc2.
  destruct (copy_in_str_kept R R2 s km p (blk c) MAXARGLEN Sp) as (s1 & km1 & E & K & F & U); try (unfold MAXARGLEN; lia); [lia|exact Hf|intros va Hva; fold u in Hva; apply Hr; lia|].
  fold u in F. set (cc := upto_nul (Z.to_nat MAXARGLEN) (fun k => u (p + k)) 0) in *. set (km2 := mem_write (blk c + MAXARGLEN) [0] km1).
  assert (Hz : forall b, Forall (fun b => 0 <= b < 256) [b] <-> 0 <= b < 256) by (intros; rewrite Forall_singleton; reflexivity).
  assert (B2 : bytes km2).
  { apply bytes_write; [|apply Hz; lia]. intros x. rewrite F. destruct (_ && _); [unfold u, ubyte; destruct (pte_page _); [apply ldb_range|lia]|apply Hkm]. }
  assert (Hs : cstr km2 (blk c) l).
  { apply arg_bytes_cstr; fold cc.
    - intros k Hk. unfold km2. rewrite mem_write_out by (cbn [length]; unfold MAXARGLEN in *; lia). rewrite F. replace (p + (blk c + k - blk c)) with (p + k) by lia. zcases.
    - unfold km2, mem_write, MAXARGLEN. cbn [length]. zcases. now rewrite Z.sub_diag. }
  exists s1, (mem_write (blk c + Z.of_nat (length l)) [0] km2). split; [|split; [exact K|split; [exact U|split; [|split]]]].
  - rewrite (bind_run _ _ _ _ _ E). rewrite (bind_run _ _ _ _ _ (poke_run _ _ s1 km1)). fold km2. rewrite (bind_run _ _ _ _ _ (arg_len_run s1 km2 _ _ Hs Hl)).
    replace (Z.of_nat (length l) + 1 - 1) with (Z.of_nat (length l)) by lia. apply poke_run.
  - apply bytes_write; [exact B2|apply Hz; lia].
  - revert Hs. intros Hs. generalize Hs. apply cstr_ext. intros x _. unfold mem_write. cbn [length]. destruct (_ && _) eqn:Ex; [|reflexivity]. zbool.
    replace x with (blk c + Z.of_nat (length l)) by lia. rewrite Z.sub_diag, (cstr_end _ _ _ Hs). reflexivity.
  - intros x Hx. unfold km2. rewrite !mem_write_out by (cbn [length]; unfold MAXARGLEN in *; lia). rewrite F. unfold MAXARGLEN in *. zcases.
Qed.

Lemma copyin_loop_run ptrs : forall n c s km, (length ptrs < n)%nat -> 0 <= c -> c + Z.of_nat (length ptrs) < MAXARG -> 0 < arr ->
  spaces s R R2 -> bytes km -> uargs s R2 (arr + 8 * c) ptrs -> (12 * length ptrs + 6 <= length s.(pageFreeList))%nat ->
  let blks := map blk (seqZ c (Z.of_nat (length ptrs))) in
  exists s' km', copyin_loop n R2 arr blk slot c (MkUst s km) = Ok (blks, MkUst s' km') /\
    kept R R2 (12 * length ptrs + 6) s s' /\ (forall va, ubyte s'.(pmem) R va = ubyte s.(pmem) R va) /\ bytes km' /\
    Forall2 (cstr km') blks (map (arg_string (ubyte s.(pmem) R2)) ptrs) /\
    (forall x, ~ scratch c (c + Z.of_nat (length ptrs)) x -> km' x = km x).
Proof.
  induction ptrs as [|p ptrs IH]; intros n c s km Hn Hc Hmax Ha Sp Hkm Hu Hf blks; (destruct n as [|n]; [lia|]); cbn [copyin_loop].
  - destruct (read_pointer s km c 0 [] Sp Hkm ltac:(cbn [length] in *; lia) Hu Ha eq_refl ltac:(cbn [length] in *; lia)) as (s1 & km1 & E & K & U & B & Hp & F).
    exists s1, km1. split; [|split; [exact K|split; [exact U|split; [exact B|split; [constructor|]]]]].
    + rewrite bind_assoc. rewrite (bind_run _ _ _ _ _ E). unfold peek64, gets. unfold bind at 1. cbn [kmem]. rewrite Hp. reflexivity.
    + cbn [length]. rewrite Z.add_0_r. exact F.
  - cbn [length] in *. rewrite Nat2Z.inj_succ in *.
    destruct (read_pointer s km c p (p :: ptrs) Sp Hkm ltac:(lia) Hu Ha eq_refl ltac:(lia)) as (s1 & km1 & E1 & K1 & U1 & B1 & Hp1 & F1).
    pose proof (uargs_kept _ _ _ _ _ _ _ K1 Hu) as Hu1. pose proof (Forall_inv (ua_ptr _ _ _ _ Hu1)) as (Hp0 & Hpt & Hpr).
    destruct (read_string s1 km1 c p (k_sp _ _ _ _ _ K1) B1 ltac:(lia) Hp0 Hpt Hpr ltac:(pose proof (k_free _ _ _ _ _ K1); lia)) as (s2 & km2 & E2 & K2 & U2 & B2 & Hs & F2).
    pose proof (kept_trans _ _ _ _ _ _ _ K1 K2) as K12.
    destruct (IH n (c + 1) s2 km2) as (s' & km' & E & K & U & B & Hss & F); try lia; [apply K2|exact B2| |pose proof (k_free _ _ _ _ _ K12); lia|].
    { replace (arr + 8 * (c + 1)) with (arr + 8 * c + 8) by lia. exact (uargs_next _ _ _ _ _ (uargs_kept _ _ _ _ _ _ _ K2 Hu1)). }
    assert (Eb : blks = blk c :: map blk (seqZ (c + 1) (Z.of_nat (length ptrs)))).
    { unfold blks. rewrite seqZ_cons by lia. cbn [map]. do 3 f_equal; lia. }
    exists s', km'. split; [|split; [|split; [|split; [exact B|split]]]].
    + rewrite bind_assoc. rewrite (bind_run _ _ _ _ _ E1). unfold peek64, gets. unfold bind at 1. cbn [kmem]. rewrite Hp1, (proj2 (Z.eqb_neq p 0)) by lia.
      cbv zeta. rewrite (bind_run4 _ _ _ _ _ _ _ _ E2). rewrite massert_run by (apply Z.ltb_lt; lia). rewrite (bind_run _ _ _ _ _ E). now rewrite Eb.
    + replace (12 * S (length ptrs) + 6)%nat with (6 + 6 + (12 * length ptrs + 6))%nat by lia. exact (kept_trans _ _ _ _ _ _ _ K12 K).
    + intros va. now rewrite U, U2, U1.
    + rewrite Eb. cbn [map]. rewrite <- (arg_strings_kept _ _ _ _ _ ptrs K12). constructor; [|exact Hss].
      replace (arg_string (ubyte s.(pmem) R2) p) with (arg_string (ubyte s1.(pmem) R2) p) by (apply arg_bytes_ext, K1).
      pose proof (arg_bytes_length (Z.to_nat MAXARGLEN) (ubyte s1.(pmem) R2) p) as Hl. change (arg_bytes _ _ _) with (arg_string (ubyte s1.(pmem) R2) p) in Hl.
      revert Hs. apply cstr_ext. intros x Hx. apply F. unfold MAXARGLEN in Hl. intros [Hx'|(i & Hi & Hx')].
      * pose proof (Hblk c ltac:(lia)). lia.
      * pose proof (Hapart c i ltac:(lia) ltac:(lia) ltac:(lia)). lia.
    + intros x Hx. rewrite F by (intros [H|(i & Hi & H)]; apply Hx; [now left|right; exists i; lia]).
      rewrite F2 by (intros H; apply Hx; right; exists c; lia). apply F1. intros [H|(i & Hi & H)]; apply Hx; [now left|right; exists i; lia].
Qed.
End Copyin.

(** ** A whole vector, and both *)

(** The blocks [kmalloc] gives for a vector: apart from each other, from the
    local variable and from the range [lo..hi) of [argvbuf]. *)
Record blocks_ok (slot lo hi : Z) (blk : Z -> Z) : Prop := {
  bo_at : forall i, 0 <= i < MAXARG -> 4096 <= blk i /\ (slot + 8 <= blk i \/ blk i + 257 <= slot);
  bo_apart : forall i j, 0 <= i < MAXARG -> 0 <= j < MAXARG -> i <> j -> blk i + 257 <= blk j \/ blk j + 257 <= blk i;
  bo_buf : forall i, 0 <= i < MAXARG -> blk i + 257 <= lo \/ hi <= blk i }.
(** A null pointer is an empty vector. *)
Definition vector (s : mm) (pt arr : Z) (ptrs : list Z) : Prop := arr = 0 /\ ptrs = [] \/ uargs s pt arr ptrs.

Section Vector.
Context (R R2 slot lo hi : Z).
Context (Hslot : 4096 <= slot) (Hsb : slot + 8 <= lo \/ hi <= slot) (Hlo : 0 <= lo).

Lemma copyin_run blk arr ptrs s km : blocks_ok slot lo hi blk -> vector s R2 arr ptrs -> Z.of_nat (length ptrs) < MAXARG -> spaces s R R2 -> bytes km ->
  (12 * length ptrs + 6 <= length s.(pageFreeList))%nat ->
  exists kargs s' km', copyin_uarg_array R2 arr blk slot (MkUst s km) = Ok (kargs, MkUst s' km') /\ length kargs = length ptrs /\
    kept R R2 (12 * length ptrs + 6) s s' /\ (forall va, ubyte s'.(pmem) R va = ubyte s.(pmem) R va) /\ bytes km' /\
    Forall2 (kstring km' lo hi) kargs (map (arg_string (ubyte s.(pmem) R2)) ptrs) /\ (forall x, lo <= x < hi -> km' x = km x).
Proof.
  intros [Ha Hp Hb] Hv Hm Sp Hkm Hf. unfold copyin_uarg_array. destruct Hv as [[-> ->]|Hu].
  - exists [], s, km. split; [reflexivity|]. split; [reflexivity|]. split; [apply (kept_more _ _ 0); [lia|now apply kept_refl]|]. split; [auto|]. split; [exact Hkm|]. split; [constructor|auto].
  - pose proof (ua_at _ _ _ _ Hu) as [Hpos _]. rewrite (proj2 (Z.eqb_neq arr 0)) by lia.
    destruct (copyin_loop_run R R2 slot arr blk Hslot Ha Hp ptrs (Z.to_nat MAXARG) 0 s km ltac:(unfold MAXARG in *; lia) ltac:(lia) ltac:(lia) Hpos Sp Hkm ltac:(now rewrite Z.mul_0_r, Z.add_0_r) Hf)
      as (s' & km' & E & K & U & B & Hs & F).
    eexists _, s', km'. split; [exact E|]. rewrite length_map, length_seqZ. split; [lia|]. split; [exact K|]. split; [exact U|]. split; [exact B|]. split.
    + apply Forall2_lookup. intros i. pose proof (proj1 (Forall2_lookup _ _ _) Hs i) as Hi. rewrite !list_lookup_fmap in *.
      destruct (seqZ 0 _ !! i) as [j|] eqn:Ej; inversion Hi as [? l Hc|]; constructor. apply lookup_seqZ in Ej as [-> Hj]. pose proof (Ha (0 + Z.of_nat i) ltac:(lia)) as [Hk _].
      constructor; [exact Hc| |exact Hk|unfold MAXARGLEN; pose proof (Hb (0 + Z.of_nat i) ltac:(lia)); lia].
      destruct (ptrs !! i); [|discriminate]. cbn in *. assert (l = arg_string (ubyte s.(pmem) R2) z) as -> by congruence.
      pose proof (arg_bytes_length (Z.to_nat MAXARGLEN) (ubyte s.(pmem) R2) z). unfold arg_string, MAXARGLEN in *. lia.
    + intros x Hx. apply F. intros [H|(i & Hi & H)]; [lia|]. pose proof (Hb i ltac:(lia)). lia.
Qed.

Lemma push_uarg_array_run blk arr ptrs abuf sp bot s km : blocks_ok slot lo hi blk -> vector s R2 arr ptrs -> Z.of_nat (length ptrs) < MAXARG -> spaces s R R2 -> bytes km ->
  (18 * length ptrs + 6 <= length s.(pageFreeList))%nat -> lo <= abuf -> abuf + 8 * (Z.of_nat (length ptrs) + 1) <= hi ->
  0 <= bot -> bot + STRMAX * Z.of_nat (length ptrs) <= sp -> sp <= USER_TOP -> (forall va, bot <= va < sp -> may_write R R2 s va) ->
  exists sp' s' km' vs, push_uarg_array R2 R arr sp abuf ret blk slot (MkUst s km) = Ok ((sp', Z.of_nat (length ptrs) + 1), MkUst s' km') /\
    kept R R2 (18 * length ptrs + 6) s s' /\ bytes km' /\ length vs = length ptrs /\
    (forall x, lo <= x < abuf \/ abuf + 8 * (Z.of_nat (length ptrs) + 1) <= x < hi -> km' x = km x) /\
    words km' abuf (vs ++ [0]) /\ ustrings (ubyte s'.(pmem) R) sp' sp vs (map (arg_string (ubyte s.(pmem) R2)) ptrs) /\
    sp - STRMAX * Z.of_nat (length ptrs) <= sp' <= sp /\ (sp mod 16 = 0 -> sp' mod 16 = 0) /\
    (forall va, 0 <= va < USER_TOP -> va < sp' \/ sp <= va -> ubyte s'.(pmem) R va = ubyte s.(pmem) R va).
Proof.
  intros Hbo Hv Hm Sp Hkm Hf Hab Hhi Hbot Hroom Htop Hw.
  destruct (copyin_run blk arr ptrs s km Hbo Hv Hm Sp Hkm ltac:(lia)) as (kargs & s1 & km1 & E1 & En & K1 & U1 & B1 & Hs & F1).
  set (km2 := mem_write abuf (le_bytes 8 0) km1).
  destruct (push_karg_array_run R R2 abuf ((hi - abuf) / 8) kargs (map (arg_string (ubyte s.(pmem) R2)) ptrs) sp bot s1 km2) as (sp' & s' & km' & vs & E & K & B & Ev & Fo & Hws & Hus & Hr & Hmod & Hu);
    rewrite ?En in *; try assumption; try lia.
  - eapply Forall2_impl; [exact Hs|]. intros k l HK. assert (kstring km2 lo hi k l) as [A1 A2 A3 A4].
    { revert HK. apply kstring_ext. intros x Hx. apply mem_write_out. rewrite length_le_bytes. lia. }
    constructor; auto. zlia.
  - apply K1.
  - apply bytes_write; [exact B1|apply le_bytes_range].
  - intros va Hva. apply K1, Hw. lia.
  - pose proof (k_free _ _ _ _ _ K1). lia.
  - apply mem_u64_write. lia.
  - zlia.
  - exists sp', s', km', vs. split; [|split; [|split; [exact B|split; [exact Ev|split; [|split; [exact Hws|split; [exact Hus|split; [exact Hr|split; [exact Hmod|]]]]]]]]].
    + unfold push_uarg_array. rewrite (bind_run _ _ _ _ _ E1). rewrite (bind_run (ret kargs) _ _ kargs _ eq_refl). rewrite (bind_run _ _ _ _ _ (poke64_run _ _ s1 km1)). exact E.
    + replace (18 * length ptrs + 6)%nat with (12 * length ptrs + 6 + 6 * length ptrs)%nat by lia. exact (kept_trans _ _ _ _ _ _ _ K1 K).
    + intros x Hx. rewrite Fo by lia. unfold km2. rewrite mem_write_out by (rewrite length_le_bytes; lia). apply F1. lia.
    + intros va Hva Hx. rewrite Hu by auto. apply U1.
Qed.
End Vector.

Section Start.
Context (R R2 : Z).
Implicit Types (s : mm) (km : mem).

Definition flat (l : list (Z * Z)) : list Z := concat (map (fun x => [x.1; x.2]) l).
Lemma length_flat l : length (flat l) = (2 * length l)%nat.
Proof. unfold flat. induction l as [|x l IH]; cbn [map concat length app]; [reflexivity|]. rewrite IH. lia. Qed.
Definition u64 (w : Z) : Prop := 0 <= w < 18446744073709551616.
Lemma append_run abuf x len s km ws : words km abuf ws -> len = Z.of_nat (length ws) -> bytes km -> u64 x.1 -> u64 x.2 ->
  exists km', append_auxiliary_vector abuf x len (MkUst s km) = Ok (len + 2, MkUst s km') /\ bytes km' /\ words km' abuf (ws ++ [x.1; x.2]) /\
    forall y, y < abuf + 8 * len \/ abuf + 8 * (len + 2) <= y -> km' y = km y.
Proof.
  intros Hw -> Hkm H1 H2. set (len := Z.of_nat (length ws)) in *. set (k1 := mem_write (abuf + 8 * len) (le_bytes 8 x.1) km).
  set (k2 := mem_write (abuf + 8 * (len + 1)) (le_bytes 8 x.2) k1). assert (B1 : bytes k1) by (apply bytes_write; [exact Hkm|apply le_bytes_range]).
  assert (F : forall y, y < abuf + 8 * len \/ abuf + 8 * (len + 2) <= y -> k2 y = km y).
  { intros y Hy. unfold k2, k1. rewrite !mem_write_out by (rewrite length_le_bytes; lia). reflexivity. }
  exists k2. split; [reflexivity|]. split; [apply bytes_write; [exact B1|apply le_bytes_range]|]. split; [|exact F].
  apply words_app. fold len. split; [revert Hw; apply words_ext; intros y Hy; apply F; fold len in Hy; lia|].
  apply words_cons; [|apply words_cons; [|apply words_nil]].
  - unfold k2. rewrite mem_u64_write_out by lia. now apply mem_u64_write.
  - unfold k2. replace (abuf + 8 * len + 8) with (abuf + 8 * (len + 1)) by lia. now apply mem_u64_write.
Qed.
Lemma append_all_run abuf l s : forall km ws len, words km abuf ws -> len = Z.of_nat (length ws) -> bytes km -> Forall (fun x => u64 x.1 /\ u64 x.2) l ->
  exists km', append_all abuf l len (MkUst s km) = Ok (len + 2 * Z.of_nat (length l), MkUst s km') /\ bytes km' /\ words km' abuf (ws ++ flat l) /\
    forall y, y < abuf + 8 * len \/ abuf + 8 * (len + 2 * Z.of_nat (length l)) <= y -> km' y = km y.
Proof.
  induction l as [|x l IH]; intros km ws len Hw Hlen Hkm Hl; cbn [append_all length].
  - exists km. rewrite app_nil_r, Z.mul_0_r, Z.add_0_r. auto.
  - apply Forall_cons in Hl as [[H1 H2] Hl]. destruct (append_run abuf x len s km ws Hw Hlen Hkm H1 H2) as (k1 & E1 & B1 & W1 & F1).
    destruct (IH k1 (ws ++ [x.1; x.2]) (len + 2) W1 ltac:(rewrite length_app; cbn [length]; lia) B1 Hl) as (k2 & E2 & B2 & W2 & F2).
    exists k2. replace (len + 2 * Z.of_nat (S (length l))) with (len + 2 + 2 * Z.of_nat (length l)) by lia.
    split; [rewrite (bind_run _ _ _ _ _ E1); exact E2|]. split; [exact B2|]. split; [rewrite <- app_assoc in W2; exact W2|].
    intros y Hy. rewrite F2 by lia. apply F1. lia.
Qed.

(** The auxiliary vector. *)
Definition auxv (va_segtable dynamic_base : Z) (elf : ElfHeader) (uaddr_rand name : Z) : list (Z * Z) :=
  [(AT_HWCAP, 0); (AT_PAGESZ, PAGE_SIZE); (AT_PHDR, va_segtable); (AT_PHENT, sizeof_ProgramHeader); (AT_PHNUM, elf.(e_phnum))] ++
  (if dynamic_base =? 0 then [] else [(AT_BASE, dynamic_base)]) ++
  [(AT_ENTRY, elf.(e_entry)); (AT_SECURE, 0); (AT_RANDOM, uaddr_rand)] ++ [(AT_EXECFN, name); (AT_NULL, AT_NULL)].
Lemma fill_auxv_run abuf va_segtable dynamic_base elf uaddr_rand s km w ws : words km abuf (w :: ws) -> bytes km ->
  u64 va_segtable -> u64 dynamic_base -> u64 elf.(e_phnum) -> u64 elf.(e_entry) -> u64 uaddr_rand -> u64 w ->
  let len := Z.of_nat (length (w :: ws)) in let aux := auxv va_segtable dynamic_base elf uaddr_rand w in
  exists km', fill_auxv abuf va_segtable dynamic_base elf uaddr_rand len (MkUst s km) = Ok (len + 2 * Z.of_nat (length aux), MkUst s km') /\ bytes km' /\
    words km' abuf (w :: ws ++ flat aux) /\ forall y, y < abuf + 8 * len \/ abuf + 8 * (len + 2 * Z.of_nat (length aux)) <= y -> km' y = km y.
Proof.
  intros Hw Hkm H1 H2 H3 H4 H5 H6 len aux. assert (Hc : u64 0 /\ u64 PAGE_SIZE /\ u64 sizeof_ProgramHeader) by (unfold u64; vm_compute; intuition congruence).
  set (a1 := [(AT_HWCAP, 0); (AT_PAGESZ, PAGE_SIZE); (AT_PHDR, va_segtable); (AT_PHENT, sizeof_ProgramHeader); (AT_PHNUM, elf.(e_phnum))]).
  set (a2 := if dynamic_base =? 0 then [] else [(AT_BASE, dynamic_base)]). set (a3 := [(AT_ENTRY, elf.(e_entry)); (AT_SECURE, 0); (AT_RANDOM, uaddr_rand)]).
  set (a4 := [(AT_EXECFN, w); (AT_NULL, AT_NULL)]). assert (Hk : forall k, 0 <= k < 32 -> u64 k) by (unfold u64; lia).
  assert (Hl1 : Forall (fun x => u64 x.1 /\ u64 x.2) a1) by (repeat (apply Forall_cons; split; [split; [apply Hk; vm_compute; intuition congruence|cbn [snd]; tauto]|]); constructor).
  assert (Hl2 : Forall (fun x => u64 x.1 /\ u64 x.2) a2) by (unfold a2; destruct (_ =? _); [constructor|apply Forall_singleton; split; [apply Hk; vm_compute; intuition congruence|exact H2]]).
  assert (Hl3 : Forall (fun x => u64 x.1 /\ u64 x.2) a3) by (repeat (apply Forall_cons; split; [split; [apply Hk; vm_compute; intuition congruence|cbn [snd]; tauto]|]); constructor).
  assert (Hl4 : Forall (fun x => u64 x.1 /\ u64 x.2) a4) by (repeat (apply Forall_cons; split; [split; [apply Hk; vm_compute; intuition congruence|cbn [snd]; tauto]|]); constructor).
  assert (Ea : aux = a1 ++ a2 ++ a3 ++ a4) by reflexivity. set (n1 := Z.of_nat (length a1)). set (n2 := Z.of_nat (length a2)). set (n3 := Z.of_nat (length a3)). set (n4 := Z.of_nat (length a4)).
  assert (En : Z.of_nat (length aux) = n1 + n2 + n3 + n4) by (rewrite Ea, !length_app; lia). assert (E2' : forall t st, (if negb (dynamic_base =? 0) then append_auxiliary_vector abuf (AT_BASE, dynamic_base) t else ret t) st = append_all abuf a2 t st).
  { intros t st. unfold a2. destruct (dynamic_base =? 0); cbn [negb append_all]; [reflexivity|]. unfold bind. destruct (append_auxiliary_vector abuf _ t st) as [[? ?]|]; reflexivity. }
  destruct (append_all_run abuf a1 s km (w :: ws) len Hw eq_refl Hkm Hl1) as (k1 & E1 & B1 & W1 & F1).
  destruct (append_all_run abuf a2 s k1 _ (len + 2 * n1) W1 ltac:(rewrite length_app, length_flat; unfold len, n1; lia) B1 Hl2) as (k2 & E2 & B2 & W2 & F2).
  destruct (append_all_run abuf a3 s k2 _ (len + 2 * n1 + 2 * n2) W2 ltac:(rewrite !length_app, !length_flat; unfold len, n1, n2, n3; lia) B2 Hl3) as (k3 & E3 & B3 & W3 & F3).
  destruct (append_all_run abuf a4 s k3 _ (len + 2 * n1 + 2 * n2 + 2 * n3) W3 ltac:(rewrite !length_app, !length_flat; unfold len, n1, n2, n3; lia) B3 Hl4) as (k4 & E4 & B4 & W4 & F4).
  fold n1 in E1, F1. fold n2 in E2, F2. fold n3 in E3, F3. fold n4 in E4, F4. assert (0 <= n1 /\ 0 <= n2 /\ 0 <= n3 /\ 0 <= n4) by (unfold n1, n2, n3, n4; lia). clearbody n1 n2 n3 n4. exists k4. split; [|split; [exact B4|split]].
  - unfold fill_auxv. fold a1 a3. rewrite (bind_run _ _ _ _ _ E1). unfold bind at 1. rewrite E2', E2. rewrite (bind_run _ _ _ _ _ E3). unfold peek64, gets. unfold bind. cbn [kmem].
    assert (Ew : mem_u64 k3 abuf = w) by (rewrite <- (Z.add_0_r abuf); exact (W3 0%nat w eq_refl)). rewrite Ew. fold a4. rewrite E4. do 2 f_equal. lia.
  - revert W4. rewrite Ea. unfold flat. rewrite !map_app, !concat_app, <- !app_assoc. exact (fun h => h).
  - intros y Hy. rewrite F4, F3, F2, F1 by lia. reflexivity.
Qed.
End Start.

Lemma words_copied m m' a p l : (forall x, p <= x < p + 8 * Z.of_nat (length l) -> m' x = m (a + (x - p))) -> words m a l -> words m' p l.
Proof.
  intros H Hw i w E. rewrite <- (Hw i w E). apply lookup_lt_Some in E. apply mem_u64_copied. intros k Hk. rewrite H by lia. f_equal. lia.
Qed.
Lemma mem_write_at m a l i x : l !! i = Some x -> mem_write a l m (a + Z.of_nat i) = x.
Proof.
  intros E. pose proof (lookup_lt_Some _ _ _ E). unfold mem_write. zcases. replace (a + Z.of_nat i - a) with (Z.of_nat i) by lia.
  unfold byte_at. rewrite Nat2Z.id. now apply nth_lookup_Some.
Qed.

(** ** What the new program finds *)

(** C14. The strings a program passes to a new one arrive: the stack of the new
    program holds the arguments and the environment of the caller, each cut at
    256 bytes, between the new stack pointer and the old one; [argvbuf] holds
    their addresses, each vector ended by a null pointer; the count is that of
    the arguments; and neither program sees any other change. *)
Theorem setustack_passes (s : mm) (km : mem) (R R2 slot argvbuf argv envp sp bot : Z) (vblk eblk : Z -> Z) (vptrs eptrs : list Z) :
  spaces s R R2 -> bytes km -> 4096 <= slot -> 0 <= argvbuf -> (slot + 8 <= argvbuf \/ argvbuf + 8 * MAXARG <= slot) ->
  blocks_ok slot argvbuf (argvbuf + 8 * MAXARG) vblk -> blocks_ok slot argvbuf (argvbuf + 8 * MAXARG) eblk ->
  vector s R2 argv vptrs -> vector s R2 envp eptrs ->
  let n := Z.of_nat (length vptrs) in let e := Z.of_nat (length eptrs) in
  n + e + 2 <= MAXARG -> (18 * (length vptrs + length eptrs) + 12 <= length s.(pageFreeList))%nat ->
  0 <= bot -> bot + STRMAX * (n + e) <= sp -> sp <= USER_TOP -> sp mod 16 = 0 ->
  (forall va, bot <= va < sp -> may_write R R2 s va) ->
  exists parg s' km' vs es, proc_setustack R2 R argv envp sp argvbuf ret vblk eblk slot (MkUst s km) = Ok (parg, MkUst s' km') /\
    parg.(argc) = n /\ parg.(total_len) = n + e + 2 /\ length vs = length vptrs /\ length es = length eptrs /\
    words km' argvbuf (vs ++ 0 :: es ++ [0]) /\
    ustrings (ubyte s'.(pmem) R) parg.(td_sp) sp vs (map (arg_string (ubyte s.(pmem) R2)) vptrs) /\
    ustrings (ubyte s'.(pmem) R) parg.(td_sp) sp es (map (arg_string (ubyte s.(pmem) R2)) eptrs) /\
    sp - STRMAX * (n + e) <= parg.(td_sp) <= sp /\ parg.(td_sp) mod 16 = 0 /\ spaces s' R R2 /\
    (forall va, 0 <= va < USER_TOP -> va < parg.(td_sp) \/ sp <= va -> ubyte s'.(pmem) R va = ubyte s.(pmem) R va) /\
    (forall va, ubyte s'.(pmem) R2 va = ubyte s.(pmem) R2 va).
Proof.
  intros Sp Hkm Hsl Hab Hsb Hvb Heb Hv He n e Hmax Hf Hbot Hroom Htop Hmod Hw. unfold STRMAX in Hroom.
  set (km0 := mem_write argvbuf (replicate (Z.to_nat (MAXARG * 8)) 0) km). assert (B0 : bytes km0) by (apply bytes_write; [exact Hkm|apply Forall_replicate; lia]).
  destruct (push_uarg_array_run R R2 slot argvbuf (argvbuf + 8 * MAXARG) Hsl Hsb Hab vblk argv vptrs argvbuf sp bot s km0 Hvb Hv) as (sp1 & s1 & km1 & vs & E1 & K1 & B1 & L1 & F1 & W1 & S1 & R1 & M1 & U1);
    try (unfold STRMAX; fold n; lia); auto. fold n in E1, F1, R1. unfold STRMAX in R1.
  destruct (push_uarg_array_run R R2 slot argvbuf (argvbuf + 8 * MAXARG) Hsl Hsb Hab eblk envp eptrs (argvbuf + 8 * (n + 1)) sp1 bot s1 km1 Heb) as (sp2 & s2 & km2 & es & E2 & K2 & B2 & L2 & F2 & W2 & S2 & R2' & M2 & U2);
    try (unfold STRMAX; fold e; lia); auto.
  - destruct He as [He|He]; [now left|right]. exact (uargs_kept _ _ _ _ _ _ _ K1 He).
  - apply K1.
  - pose proof (k_free _ _ _ _ _ K1). lia.
  - intros va Hva. apply K1, Hw. lia.
  - fold e in E2, F2, R2'. unfold STRMAX in R2'. rewrite (arg_strings_kept _ _ _ _ _ eptrs K1) in S2.
    exists (MkStackArg (n + 1 + (e + 1)) (n + 1 - 1) sp2), s2, km2, vs, es. cbn [argc total_len td_sp]. unfold STRMAX.
    split; [|split; [lia|split; [lia|split; [exact L1|split; [exact L2|split; [|split; [|split; [|split; [lia|split; [auto|split; [apply K2|split]]]]]]]]]]].
    + unfold proc_setustack, kmalloc_at. rewrite (bind_run _ _ _ _ _ (poke_run _ _ s km)). fold km0. rewrite (bind_run _ _ _ _ _ E1). rewrite (bind_run _ _ _ _ _ E2). reflexivity.
    + change (vs ++ 0 :: es ++ [0]) with (vs ++ [0] ++ es ++ [0]). rewrite app_assoc. apply words_app. rewrite length_app, L1. cbn [length].
      replace (argvbuf + 8 * Z.of_nat (length vptrs + 1)) with (argvbuf + 8 * (n + 1)) by lia. split; [|exact W2].
      revert W1. apply words_ext. intros x Hx. rewrite length_app, L1 in Hx. cbn [length] in Hx. apply F2. lia.
    + revert S1. apply ustrings_ext; [lia|lia|]. intros x Hx. apply U2; lia.
    + revert S2. apply ustrings_ext; [lia|lia|auto].
    + intros va Hva Hx. rewrite U2, U1 by (auto; lia). reflexivity.
    + intros va. rewrite (k_u2 _ _ _ _ _ K2). apply K1.
Qed.

(** C15. The stack a program starts with: at its stack pointer the count, behind
    it the vectors of argument and environment addresses and the auxiliary
    vector, which names sixteen bytes of the stack and ends with a null pair;
    the strings above it, and the rest of both programs' memory, are as they
    were. *)
Theorem start_stack_passes (s : mm) (km : mem) (R R2 argvbuf slot va_segtable dynamic_base bot w : Z) (elf : ElfHeader) (parg : stack_arg_t) (ws : list Z) :
  spaces s R R2 -> bytes km -> 4096 <= slot -> 4096 <= argvbuf -> (slot + 24 <= argvbuf \/ argvbuf + 8 * MAXARG <= slot) ->
  words km argvbuf (w :: ws) -> parg.(total_len) = Z.of_nat (length (w :: ws)) -> parg.(total_len) + 22 <= MAXARG ->
  u64 va_segtable -> u64 dynamic_base -> u64 elf.(e_phnum) -> u64 elf.(e_entry) -> u64 w -> u64 parg.(argc) ->
  (18 <= length s.(pageFreeList))%nat -> 0 <= bot -> bot + 8 * parg.(total_len) + 270 <= parg.(td_sp) -> parg.(td_sp) <= USER_TOP ->
  (forall va, bot <= va < parg.(td_sp) -> may_write R R2 s va) ->
  exists sp rand s' km', start_stack R argvbuf slot va_segtable dynamic_base elf parg (MkUst s km) = Ok (sp, MkUst s' km') /\
    words (ubyte s'.(pmem) R) sp (parg.(argc) :: w :: ws ++ flat (auxv va_segtable dynamic_base elf rand w)) /\
    bytes_at (ubyte s'.(pmem) R) rand (seqZ 1 16) /\ sp mod 16 = 8 /\ bot <= sp <= parg.(td_sp) /\ spaces s' R R2 /\
    (forall va, 0 <= va < USER_TOP -> va < sp \/ parg.(td_sp) <= va -> ubyte s'.(pmem) R va = ubyte s.(pmem) R va) /\
    (forall va, ubyte s'.(pmem) R2 va = ubyte s.(pmem) R2 va).
Proof.
  intros Sp Hkm Hsl Hab Hsb Hws Htl Hmax Hva Hdb Hpn Hen Hw Hac Hf Hbot Hroom Htop Hmw.
  set (sp0 := parg.(td_sp)) in *. set (tl := parg.(total_len)) in *. set (km0 := mem_write slot (seqZ 1 16) km).
  assert (B0 : bytes km0) by (apply bytes_write; [exact Hkm|vm_compute; repeat (apply List.Forall_cons; [intuition congruence|]); apply List.Forall_nil]).
  assert (F0 : forall x, argvbuf <= x < argvbuf + 8 * MAXARG -> km0 x = km x) by (intros x Hx; apply mem_write_out; change (length (seqZ 1 16)) with 16%nat; lia).
  destruct (push_data_run R R2 s km0 bot sp0 slot 16 true Sp B0 Hsl ltac:(lia) Hbot ltac:(lia) Htop Hmw ltac:(change (span_fuel 16) with 2%nat; lia)) as (s1 & E1 & K1 & U1).
  pose proof (pushed_at_range sp0 16 true ltac:(lia)) as R1. set (p1 := pushed_at sp0 16 true) in *.
  set (aux := auxv va_segtable dynamic_base elf p1 w). assert (Hn : 10 <= Z.of_nat (length aux) <= 11) by (unfold aux, auxv; destruct (_ =? _); cbn; lia).
  destruct (fill_auxv_run argvbuf va_segtable dynamic_base elf p1 s1 km0 w ws) as (km1 & E2 & B2 & W2 & F2); try assumption.
  { revert Hws. apply words_ext. intros x Hx. apply F0. lia. }
  { unfold u64, USER_TOP in *. lia. }
  fold aux in E2, W2, F2. rewrite <- Htl in E2, F2. set (tot := tl + 2 * Z.of_nat (length aux)) in *.
  assert (Es : span_fuel (8 * tot) = 2%nat) by (unfold span_fuel; replace (8 * tot / 4096) with 0 by (unfold MAXARG in Hmax; zlia); reflexivity).
  destruct (push_data_run R R2 s1 km1 bot p1 argvbuf (8 * tot) true (k_sp _ _ _ _ _ K1) B2 Hab ltac:(lia) Hbot ltac:(lia) ltac:(lia)) as (s2 & E3 & K3 & U3);
    [intros va Hva'; apply K1, Hmw; lia|rewrite Es; pose proof (k_free _ _ _ _ _ K1) as H; change (span_fuel 16) with 2%nat in H; lia|].
  pose proof (pushed_at_range p1 (8 * tot) true ltac:(lia)) as R3. assert (M3 : pushed_at p1 (8 * tot) true mod 16 = 0) by (unfold pushed_at; zlia). set (p2 := pushed_at p1 (8 * tot) true) in *.
  set (km2 := mem_write (slot + 16) (le_bytes 8 parg.(argc)) km1). assert (B3 : bytes km2) by (apply bytes_write; [exact B2|apply le_bytes_range]).
  destruct (push_data_run R R2 s2 km2 bot p2 (slot + 16) 8 false (k_sp _ _ _ _ _ K3) B3 ltac:(lia) ltac:(lia) Hbot ltac:(lia) ltac:(lia)) as (s3 & E4 & K4 & U4);
    [intros va Hva'; apply K3, K1, Hmw; lia|pose proof (k_free _ _ _ _ _ K1) as H; pose proof (k_free _ _ _ _ _ K3) as H'; rewrite Es in H'; change (span_fuel 16) with 2%nat in H; change (span_fuel 8) with 2%nat; lia|].
  change (pushed_at p2 8 false) with (p2 - 8) in *. clearbody p1 p2. exists (p2 - 8), p1, s3, km2.
  assert (Hlen : length (w :: ws ++ flat aux) = Z.to_nat tot) by (cbn [length]; rewrite length_app, length_flat; cbn [length] in Htl; lia).
  split; [|split; [|split; [|split; [zlia|split; [lia|split; [apply K4|split]]]]]].
  - unfold start_stack. rewrite (bind_run _ _ _ _ _ (poke_run _ _ s km)). fold km0. rewrite (bind_run _ _ _ _ _ E1). rewrite (bind_run _ _ _ _ _ E2).
    rewrite (bind_run _ _ _ _ _ E3). rewrite (bind_run _ _ _ _ _ (poke64_run _ _ s2 km1)). exact E4.
  - apply words_cons.
    + rewrite <- (mem_u64_write km1 (slot + 16) parg.(argc) Hac). fold km2. apply mem_u64_copied. intros i Hi. rewrite U4 by lia. replace (p2 - 8 + i - (p2 - 8)) with i by lia. zcases.
    + replace (p2 - 8 + 8) with p2 by lia. fold aux. revert W2. apply words_copied. intros x Hx. rewrite Hlen, Z2Nat.id in Hx by lia. rewrite U4, U3 by lia. zcases.
  - intros i x E. pose proof E as E'. apply lookup_seqZ in E' as [_ Hi]. rewrite U4, U3, U1 by lia. replace (slot + (p1 + Z.of_nat i - p1)) with (slot + Z.of_nat i) by lia.
    replace (_ && _) with false by (symmetry; apply andb_false_iff; rewrite Z.leb_gt, Z.ltb_ge; lia).
    replace (_ && _) with false by (symmetry; apply andb_false_iff; rewrite Z.leb_gt, Z.ltb_ge; lia).
    replace (_ && _) with true by (symmetry; apply andb_true_iff; rewrite Z.leb_le, Z.ltb_lt; lia). now apply mem_write_at.
  - intros va Hr Hx. rewrite U4, U3, U1 by lia. zcases.
  - intros va. rewrite (k_u2 _ _ _ _ _ K4), (k_u2 _ _ _ _ _ K3). apply K1.
Qed.

(** The address handed over as [AT_PHDR] is where the loaded image has the
    program headers of the file: it lies in a segment [loadCode] loads, and the
    bytes from it on are those of the file from [e_phoff] on, as far as that
    segment's file part goes. *)
Theorem segtable_found (n : nat) (m : mem) (binary phentsize tab off va : Z) :
  find_segtable n m binary phentsize tab off = Some va -> 0 <= binary ->
  Forall (fun ph => seg_ok ph (seg_at binary ph) /\ 0 <= ph.(p_off) /\ binary + ph.(p_off) + ph.(p_filesz) < 18446744073709551616) (loads n m binary phentsize off) ->
  exists ph, ph ∈ loads n m binary phentsize off /\ ph.(p_vaddr) <= va < ph.(p_vaddr) + ph.(p_filesz) /\
    forall k, 0 <= k -> tab + k < ph.(p_off) + ph.(p_filesz) -> segment_bytes m ph (seg_at binary ph) (va + k) = m (binary + tab + k).
Proof.
  intros H Hb. revert off H. unfold loads. induction n as [|n IH]; intros off H HF; [discriminate|]. cbn [find_segtable headers List.filter] in *.
  set (ph := program_header m (wrap64 (binary + off))) in *. clearbody ph. unfold is_load at 1 2 in HF. unfold is_load at 1 3. destruct (ph.(p_type) =? ELF_PROG_LOAD); cbn [andb] in H.
  - apply Forall_cons in HF as [([_ _ Hva Hfs Hmax _] & Ho & Hw) HF]. destruct (_ && _) eqn:E; [|destruct (IH _ H HF) as (ph' & Hin & H'); exists ph'; split; [now right|exact H']].
    rewrite (wrap64_small (ph.(p_off) + ph.(p_filesz))) in E by lia. zbool. injection H as <-. rewrite (wrap64_small (ph.(p_vaddr) + _)) by (unfold USER_TOP in Hmax; lia). exists ph. split; [left|]. split; [lia|]. intros k Hk Hkt.
    unfold segment_bytes, seg_at. rewrite (wrap64_small (binary + ph.(p_off))) by lia. rewrite (proj2 (andb_true_iff _ _)) by (rewrite Z.leb_le, Z.ltb_lt; lia). f_equal. lia.
  - exact (IH _ H HF).
Qed.

(** ** The stack changes tables *)

Section Migrate.
Context (T P : Z).

(** A page of the temporary table that the process does not have. *)
Definition movable (s : mm) (va : Z) : Prop :=
  PTE_PASSIVE (lookup_va s.(pmem) T va) = true /\ 0 <= lookup_va s.(pmem) T va < 1024 \/
  exists q, maps s.(pmem) T va q /\ s.(page_ref) q < 4294967295 /\ forall va', ~ maps s.(pmem) P va' q.
(** The pages [here] of the process are those of the temporary table. *)
Record moved (s s' : mm) (here : Z -> bool) : Prop := {
  mv_sp : spaces s' T P;
  mv_lk : forall va, lookup_va s'.(pmem) T va = lookup_va s.(pmem) T va;
  mv_ut : forall va, ubyte s'.(pmem) T va = ubyte s.(pmem) T va;
  mv_old : forall va, 0 <= va < USER_TOP -> here va = false -> lookup_va s'.(pmem) P va = lookup_va s.(pmem) P va;
  mv_new : forall va, 0 <= va < USER_TOP -> here va = true -> pte_page (lookup_va s'.(pmem) P va) = pte_page (lookup_va s.(pmem) T va) /\
    PTE_PERM (lookup_va s'.(pmem) P va) = PTE_PERM (lookup_va s.(pmem) T va);
  mv_u : forall va, 0 <= va < USER_TOP -> ubyte s'.(pmem) P va = if here va then ubyte s.(pmem) T va else ubyte s.(pmem) P va;
  mv_mov : forall va, 0 <= va < USER_TOP -> here va = false -> movable s va -> movable s' va }.

Lemma perm_small e : 0 <= e < 1024 -> PTE_PERM e = e /\ pteToPa e = 0.
Proof.
  intros H. split; [unfold PTE_PERM; change 1023 with (Z.ones 10); rewrite Z.land_ones by lia; now apply Z.mod_small|].
  unfold pteToPa. rewrite Z.shiftr_div_pow2 by lia. change (2 ^ 10) with 1024. rewrite Z.div_small by lia. reflexivity.
Qed.
(** The new entry, once the old one is gone. *)
Lemma place_page s va : spaces s T P -> (2 <= length s.(pageFreeList))%nat -> lookup_va s.(pmem) P va = 0 -> movable s va ->
  let e := lookup_va s.(pmem) T va in
  exists s', ptMap P va (pteToPa e) (PTE_PERM e) s = Ok (0, s') /\ shares s s' T P va /\ lookup_va s'.(pmem) T va = e /\
    PTE_PERM (lookup_va s'.(pmem) P va) = PTE_PERM e /\ (length s.(pageFreeList) <= length s'.(pageFreeList) + 2)%nat.
Proof.
  intros Sp Hf H0 [[Hps He]|(q & Hq & Hr & Hnm)] e.
  - fold e in Hps, He. destruct (perm_small e He) as [-> ->]. apply andb_true_iff in Hps as [Hv Hu]. apply negb_true_iff in Hv.
    destruct (child_promise s T P va e Sp Hf He Hv Hu H0 Hv) as (s' & E & Sh & Ec & Er & Hfr). exists s'. rewrite Ec. destruct (perm_small e He) as [-> _]. auto.
  - pose proof Sp as [Hok _ S1 _]. destruct (sp_leaf _ _ _ S1 va q Hq) as (Huse & _). pose proof (mm_npage _ Hok).
    destruct (maps_page _ _ _ _ Hq) as [Hv Hpa]; [destruct Huse; lia|destruct Huse; lia|]. fold e in Hv, Hpa. rewrite Hpa.
    destruct (child_map s T P va q (PTE_PERM e) Sp Hf (perm_range e) Hq H0 Hnm Hr) as (s' & E & Sh & Ec & Er & _ & Hfr).
    exists s'. split; [exact E|]. split; [exact Sh|]. split; [exact Er|]. split; [|exact Hfr]. rewrite Ec.
    destruct (mk_facts q (PTE_PERM e)) as (_ & _ & -> & _); [destruct Huse; lia|apply perm_range|]. apply lor_V. change PTE_V with (2 ^ 0). now rewrite has_perm by lia.
Qed.
Lemma page_moves s va : spaces s T P -> (2 <= length s.(pageFreeList))%nat -> lookup_va s.(pmem) P va <> 0 -> movable s va ->
  exists s', migrate_page T P va s = Ok (tt, s') /\ moved s s' (same_page va) /\ (length s.(pageFreeList) <= length s'.(pageFreeList) + 2)%nat.
Proof.
  intros Sp Hf Hne Hm. destruct (ptUnmap_narrows s P T va (spaces_sym _ _ _ Sp) Hne) as (s1 & E1 & N & F1 & _). pose proof (spaces_sym _ _ _ (na_sp _ _ _ _ _ _ N)) as Sp1.
  pose proof (same_tables_lookup _ _ _ (na_t2 _ _ _ _ _ _ N)) as L1. pose proof (na_lk _ _ _ _ _ _ N) as Lp1.
  assert (Hmv : forall va', movable s va' -> movable s1 va').
  { intros va' [H|(q & Hq & Hr & Hnm)]; unfold movable, maps in *; rewrite L1; [now left|right]. exists q. split; [exact Hq|]. split.
    - rewrite (na_ref _ _ _ _ _ _ N q) by apply (sp_leaf _ _ _ (ss_this _ _ _ Sp) va' q Hq). pose proof (ref_delta_range (pte_page (lookup_va s.(pmem) P va)) q). change (pte_page 0) with (@None Z). cbn [ref_delta]. lia.
    - intros vb. rewrite Lp1. destruct (same_page va vb); [discriminate|apply Hnm]. }
  destruct (place_page s1 va Sp1 ltac:(lia)) as (s2 & E2 & Sh & Er & Ep & F2); [now rewrite Lp1, same_page_refl|now apply Hmv|]. rewrite L1 in E2, Er, Ep.
  destruct Sh as [Sp2 _ Sl Slc Sg Sgc Su Suc Sr]. rewrite L1 in Sgc. exists s2.
  assert (Hlt : forall va', lookup_va s2.(pmem) T va' = lookup_va s.(pmem) T va').
  { intros va'. destruct (same_page va va') eqn:Ev; [now rewrite !(same_page_lookup _ T _ _ Ev), Er|rewrite Sl by exact Ev; apply L1]. }
  split; [|split; [|lia]].
  - unfold migrate_page, panic_on. rewrite <- bind_assoc. rewrite (bind_run _ _ _ _ _ E1). rewrite massert_run by reflexivity.
    rewrite (bind_run _ _ _ _ _ (lookup_run s1 T P va Sp1)), L1. rewrite (bind_run _ _ _ _ _ E2). reflexivity.
  - constructor; auto.
    + intros va'. rewrite Su. apply N.
    + intros va' _ Ev. now rewrite Slc, Lp1, Ev by exact Ev.
    + intros va' _ Ev. rewrite !(same_page_lookup _ _ _ _ Ev). auto.
    + intros va' _. rewrite Suc. destruct (same_page va va') eqn:Ev; [apply N|]. exact (narrowed_u_other _ _ _ _ _ _ _ N Ev).
    + intros va' _ Ev Hmo. apply Hmv in Hmo. destruct Hmo as [H|(q & Hq & Hr & Hnm)]; unfold movable, maps in *; rewrite Hlt; rewrite L1 in *; [now left|right].
      exists q. split; [exact Hq|]. split; [rewrite (Sr va' q); [exact Hr|unfold maps; now rewrite L1|exact Ev]|].
      intros vb. destruct (same_page va vb) eqn:Eb; [|rewrite Slc by exact Eb; apply Hnm]. rewrite (same_page_lookup _ _ _ _ Eb), Sgc. intros Hq'.
      rewrite (sp_once _ _ _ (ss_this _ _ _ Sp) va va' q Hq' Hq) in Ev. discriminate.
Qed.
Lemma moved_none s h : spaces s T P -> (forall va, 0 <= va < USER_TOP -> h va = false) -> moved s s h.
Proof. intros Sp H. constructor; auto; [intros va Hva; rewrite (H va Hva); discriminate|]. intros va Hva. now rewrite (H va Hva). Qed.
Lemma moved_trans s s1 s2 h1 h2 h : moved s s1 h1 -> moved s1 s2 h2 -> (forall va, 0 <= va < USER_TOP -> h va = h1 va || h2 va) -> moved s s2 h.
Proof.
  intros [A1 A2 A3 A4 A5 A6 A7] [B1 B2 B3 B4 B5 B6 B7] H. constructor; auto.
  - intros va. now rewrite B2.
  - intros va. now rewrite B3.
  - intros va Hva Hh. rewrite H in Hh by exact Hva. apply orb_false_iff in Hh as [H1 H2]. rewrite B4 by auto. auto.
  - intros va Hva Hh. rewrite H in Hh by exact Hva. destruct (h2 va) eqn:H2; [rewrite <- A2; auto|]. rewrite orb_false_r in Hh. rewrite B4 by auto. auto.
  - intros va Hva. rewrite H, B6, A6, A3 by exact Hva. now destruct (h1 va), (h2 va).
  - intros va Hva Hh. rewrite H in Hh by exact Hva. apply orb_false_iff in Hh as [H1 H2]. auto.
Qed.
Lemma migrate_loop base : base mod 4096 = 0 -> 0 <= base -> forall n i s, 0 <= i -> base + 4096 * (i + Z.of_nat n) <= USER_TOP -> spaces s T P ->
  (2 * n <= length s.(pageFreeList))%nat ->
  (forall va, base + 4096 * i <= va < base + 4096 * (i + Z.of_nat n) -> lookup_va s.(pmem) P va <> 0 /\ movable s va) ->
  exists s', stack_loop n (migrate_page T P) base i s = Ok (tt, s') /\ moved s s' (AddrSpace.between (base + 4096 * i) (base + 4096 * (i + Z.of_nat n))) /\
    (length s.(pageFreeList) <= length s'.(pageFreeList) + 2 * n)%nat.
Proof.
  intros Ha H0. unfold AddrSpace.between. induction n as [|n IH]; intros i s Hi Hmax Sp Hf Hz; cbn [stack_loop].
  - exists s. split; [reflexivity|]. split; [|lia]. apply moved_none; [exact Sp|]. intros va _. mem_cases; lia || reflexivity.
  - destruct (Hz (base + i * PAGE_SIZE)) as [Hne Hmv]; [unfold PAGE_SIZE; lia|].
    destruct (page_moves s (base + i * PAGE_SIZE) Sp ltac:(lia) Hne Hmv) as (s1 & E1 & G1 & F1). rewrite (bind_run _ _ _ _ _ E1).
    assert (Hpg : forall va, 0 <= va < USER_TOP -> same_page (base + i * PAGE_SIZE) va = (base + 4096 * i <=? va) && (va <? base + 4096 * i + 4096)).
    { intros va Hva. replace (base + i * PAGE_SIZE) with (base + 4096 * i) by (unfold PAGE_SIZE; lia). apply page_cases; [zlia|lia|exact Hva]. }
    assert (Hout : forall va, base + 4096 * (i + 1) <= va < USER_TOP -> same_page (base + i * PAGE_SIZE) va = false) by (intros va Hva; rewrite Hpg by lia; zcases).
    destruct (IH (i + 1) s1) as (s2 & E2 & G2 & F2); try lia; [apply G1| |].
    + intros va Hva. destruct (Hz va ltac:(lia)) as [H1 H2]. rewrite (mv_old _ _ _ G1) by (lia || apply Hout; lia). split; [exact H1|]. apply (mv_mov _ _ _ G1); [lia|apply Hout; lia|exact H2].
    + exists s2. split; [exact E2|]. split; [|lia]. apply (moved_trans _ _ _ _ _ _ G1 G2). intros va Hva. rewrite (Hpg va Hva). mem_cases; lia || reflexivity.
Qed.
End Migrate.

(** The prepared stack takes the place of the old one: afterwards the process
    sees at every stack address what was prepared in the temporary table, with
    the same pages and permissions, and everywhere else what it saw before; the
    temporary table is as it was, so that releasing it (see [AddrSpace]) leaves
    the process the only owner. *)
Theorem migrate_stack_moves (s : mm) (T P : Z) : spaces s T P -> (144 <= length s.(pageFreeList))%nat ->
  (forall va, TD_USTACK_BOTTOM <= va < USTACKTOP -> lookup_va s.(pmem) P va <> 0 /\ movable T P s va) ->
  exists s', migrate_stack T P s = Ok (tt, s') /\ spaces s' T P /\
    (forall va, TD_USTACK_BOTTOM <= va < USTACKTOP -> ubyte s'.(pmem) P va = ubyte s.(pmem) T va /\
       pte_page (lookup_va s'.(pmem) P va) = pte_page (lookup_va s.(pmem) T va) /\
       PTE_PERM (lookup_va s'.(pmem) P va) = PTE_PERM (lookup_va s.(pmem) T va)) /\
    (forall va, 0 <= va < USER_TOP -> ~ (TD_USTACK_BOTTOM <= va < USTACKTOP) ->
       ubyte s'.(pmem) P va = ubyte s.(pmem) P va /\ lookup_va s'.(pmem) P va = lookup_va s.(pmem) P va) /\
    (forall va, ubyte s'.(pmem) T va = ubyte s.(pmem) T va).
Proof.
  intros Sp Hf Hz. assert (E : TD_USTACK_BOTTOM = 274877595648 /\ USTACKTOP = 274877890560) by (vm_compute; auto). destruct E as [Eb Et].
  destruct (migrate_loop T P TD_USTACK_BOTTOM ltac:(now rewrite Eb) ltac:(rewrite Eb; lia) 72 0 s) as (s' & R & [A1 A2 A3 A4 A5 A6 _] & _); try lia;
    [rewrite Eb; unfold USER_TOP; lia|exact Sp|intros va Hva; apply Hz; rewrite Eb, Et in *; lia|].
  rewrite Eb, Et in *. exists s'. split; [exact R|]. split; [exact A1|]. split; [|split; [|exact A3]].
  - intros va Hva. assert (Hb : AddrSpace.between (274877595648 + 4096 * 0) (274877595648 + 4096 * (0 + Z.of_nat 72)) va = true) by (unfold AddrSpace.between; zcases).
    rewrite A6, Hb by (unfold USER_TOP; lia). split; [reflexivity|]. apply A5; [unfold USER_TOP; lia|exact Hb].
  - intros va Hva Hn. assert (Hb : AddrSpace.between (274877595648 + 4096 * 0) (274877595648 + 4096 * (0 + Z.of_nat 72)) va = false) by (unfold AddrSpace.between; zcases).
    rewrite A6, Hb by exact Hva. split; [reflexivity|]. now apply A4.
Qed.

(** ** Witnesses *)

(** A caller whose page at 4096 holds the vector and the string of one argument,
    and a new program with a promised stack page at 8192. *)
Definition caller_bytes : list Z := le_bytes 8 4160 ++ replicate 40 0 ++ [104; 105].
Definition caller_mem (va : Z) : Z := if (4112 <=? va) && (va <? 4162) then byte_at caller_bytes (va - 4112) else 0.
Lemma paged_zero x : frame 70 <= x < frame 70 + 4096 -> paged_vm.(pmem) x = 0.
Proof.
  intros Hx. assert (Hu : in_use twin_vm 70) by (split; [cbn; lia|intros Hp%twin_free; lia]).
  assert (Ht : ~ is_table twin_vm.(pmem) dirA (frame 70)) by (intros H%twin_table; unfold dirA, frame in H; lia).
  destruct (ptMap_spaces twin_vm dirA dirB 4096 70 22 twin_spaces) as (s & E & Mi); try lia; auto; try (intros ? || intros; discriminate).
  - change (pageFreeList twin_vm) with (seqZ 10 50). rewrite length_seqZ. lia.
  - cbn. lia.
  - intros H%twin_table. unfold dirB, frame in H. lia.
  - unfold paged_vm. rewrite E. rewrite (mi_keep _ _ _ _ _ _ _ Mi 70 Hu Ht); [reflexivity|left; discriminate|exact Hx].
Qed.
Lemma caller_from pv : spaces pv dirA dirB -> (forall va, lookup_va pv.(pmem) dirB va = 0) ->
  (forall va, lookup_va pv.(pmem) dirA va = if same_page 4096 va then mk_pte (frame 70) 22 else 0) -> (forall va, ~ maps pv.(pmem) dirB va 70) ->
  (forall x, frame 70 <= x < frame 70 + 4096 -> pv.(pmem) x = 0) -> length (pageFreeList pv) = 48%nat ->
  exists s, spaces s dirB dirA /\ (46 <= length s.(pageFreeList))%nat /\
  (forall va, 4096 <= va < 8192 -> ubyte s.(pmem) dirA va = caller_mem va /\ may_read dirA s va) /\
  (forall va, 8192 <= va < 12288 -> may_write dirB dirA s va).
Proof.
  intros Sp Lb La Hnb Hzero Hlen. assert (Hq : maps pv.(pmem) dirA 4112 70) by (unfold maps; rewrite La; reflexivity).
  assert (Hfb : forall k, 0 <= byte_at caller_bytes k < 256).
  { intros k. unfold byte_at. destruct (caller_bytes !! Z.to_nat k) as [b|] eqn:E; [rewrite (nth_lookup_Some _ _ 0 _ E)|rewrite nth_overflow by (apply lookup_ge_None in E; lia); lia].
    assert (H : Forall (fun b => 0 <= b < 256) caller_bytes) by (vm_compute; repeat (apply List.Forall_cons; [intuition congruence|]); apply List.Forall_nil).
    exact (proj1 (Forall_lookup _ caller_bytes) H _ _ E). }
  destruct (store_run pv dirA dirB 4112 70 50 (byte_at caller_bytes) Sp Hq Hnb Hfb ltac:(vm_compute; congruence)) as (Sp1 & L1 & Lb1 & U1 & _). set (s1 := set_pmem _ pv) in *.
  assert (Hl : length (pageFreeList s1) = 48%nat) by exact Hlen. clearbody s1.
  destruct (ptMap_promise s1 dirB dirA 8192 22 (spaces_sym _ _ _ Sp1)) as (s & _ & N & Hf); try reflexivity; try lia.
  { now rewrite Lb1, Lb. }
  pose proof (same_tables_lookup _ _ _ (na_t2 _ _ _ _ _ _ N)) as L. exists s. split; [apply N|]. split; [|split].
  - lia.
  - intros va Hva. assert (Ev : same_page 4096 va = true) by (rewrite same_page_div by lia; apply Z.eqb_eq; zlia). split.
    + rewrite (na_u2 _ _ _ _ _ _ N), U1. unfold caller_mem. rewrite same_page_div by lia. change (4112 / 4096) with 1. change (4112 mod 4096) with 16. change (Z.of_nat 50) with 50.
      replace (va / 4096) with 1 by zlia. cbn [Z.eqb Pos.eqb andb]. replace (va mod 4096) with (va - 4096) by zlia. replace (va - 4096 - 16) with (va - 4112) by lia.
      assert (Z0 : ubyte pv.(pmem) dirA va = 0); [|rewrite Z0; zcases].
      unfold ubyte. rewrite La, Ev. change (pte_page (mk_pte (frame 70) 22)) with (Some 70). unfold ldb.
      replace (pv.(pmem) _) with 0; [now rewrite Z.shiftr_0_l|]. symmetry. apply Hzero. unfold frame, MEMBASE. zlia.
    + unfold may_read. rewrite L, L1, La, Ev. left. split; [exists 70; reflexivity|reflexivity].
  - intros va Hva. assert (Ev : same_page 8192 va = true) by (rewrite same_page_div by lia; apply Z.eqb_eq; zlia).
    unfold may_write, private, maps. rewrite (na_lk _ _ _ _ _ _ N), Ev. split; [right; vm_compute; repeat split; congruence|]. intros q va' H. discriminate.
Qed.
Lemma caller_state : exists s, spaces s dirB dirA /\ (46 <= length s.(pageFreeList))%nat /\
  (forall va, 4096 <= va < 8192 -> ubyte s.(pmem) dirA va = caller_mem va /\ may_read dirA s va) /\
  (forall va, 8192 <= va < 12288 -> may_write dirB dirA s va).
Proof.
  destruct paged_facts as (Sp & Lb & La & _ & Hnb). exact (caller_from paged_vm Sp Lb La Hnb paged_zero ltac:(evals)).
Qed.
Lemma caller_vector s : (forall va, 4096 <= va < 8192 -> ubyte s.(pmem) dirA va = caller_mem va /\ may_read dirA s va) ->
  vector s dirA 4112 [4160] /\ map (arg_string (ubyte s.(pmem) dirA)) [4160] = [[104; 105]].
Proof.
  intros H. assert (Es : arg_string (ubyte s.(pmem) dirA) 4160 = [104; 105]).
  { unfold arg_string. change (Z.to_nat MAXARGLEN) with (S (S (S 253))). cbn [arg_bytes]. change (4160 + 1) with 4161. change (4161 + 1) with 4162. rewrite (proj1 (H 4160 ltac:(lia))), (proj1 (H 4161 ltac:(lia))), (proj1 (H 4162 ltac:(lia))). reflexivity. }
  split; [right|cbn [map]; now rewrite Es]. constructor; cbn [length app].
  - unfold USER_TOP. lia.
  - assert (Hw : forall a, 4112 <= a < 4128 -> mem_u64 (ubyte s.(pmem) dirA) a = mem_u64 caller_mem a) by (intros a Ha; apply mem_u64_ext; intros x Hx; apply (H x); lia).
    apply words_cons; [rewrite Hw by lia; evals|]. apply words_cons; [rewrite Hw by lia; evals|]. apply words_nil.
  - intros va Hva. apply H. lia.
  - apply Forall_singleton. unfold MAXARGLEN, USER_TOP. split; [lia|]. split; [lia|]. rewrite Es. intros va Hva. apply H. cbn [length] in Hva. lia.
Qed.

Definition blocks_at (i : Z) : Z := 100000 + 512 * i.
Lemma blocks_at_ok : blocks_ok 8192 50000 (50000 + 8 * MAXARG) blocks_at.
Proof. constructor; unfold blocks_at, MAXARG; intros; lia. Qed.
Lemma setustack_passes_witness : exists s parg s' km' v, proc_setustack dirA dirB 4112 0 12288 50000 ret blocks_at blocks_at 8192 (MkUst s (fun _ => 0)) = Ok (parg, MkUst s' km') /\
  parg.(argc) = 1 /\ mem_u64 km' 50000 = v /\ cstr (ubyte s'.(pmem) dirB) v [104; 105].
Proof.
  destruct caller_state as (s & Sp & Hf & Hu & Hw). destruct (caller_vector s Hu) as [Hv Ev].
  destruct (setustack_passes s (fun _ => 0) dirB dirA 8192 50000 4112 0 12288 8192 blocks_at blocks_at [4160] [] Sp) as (parg & s' & km' & vs & es & E & Ha & _ & Lv & _ & Hws & Hs & _);
    try exact blocks_at_ok; try exact Hv; try (left; split; reflexivity); try (unfold bytes, MAXARG, STRMAX, USER_TOP; cbn [length]; lia); [reflexivity|exact Hw|].
  rewrite Ev in Hs. destruct vs as [|v []]; try discriminate. exists s, parg, s', km', v. split; [exact E|]. split; [exact Ha|].
  split; [exact (Hws 0%nat v eq_refl)|]. unfold ustrings in Hs. inversion Hs as [|? ? ? ? [Hc _]]. exact Hc.
Defined.

Definition start_mem : mem := mem_write 50000 (le_bytes 8 4160) (fun _ => 0).
Definition start_elf : ElfHeader := MkElf 65536 64 56 2.
Lemma start_stack_passes_witness : exists s sp rand s' km', start_stack dirA 50000 60000 65600 0 start_elf (MkStackArg 3 1 8192) (MkUst s start_mem) = Ok (sp, MkUst s' km') /\
  mem_u64 (ubyte s'.(pmem) dirA) sp = 1 /\ mem_u64 (ubyte s'.(pmem) dirA) (sp + 8) = 4160 /\ ubyte s'.(pmem) dirA (rand + 15) = 16.
Proof.
  destruct twin_promised as (s & Sp & E & _ & Hf & _).
  destruct (start_stack_passes s start_mem dirA dirB 50000 60000 65600 0 4096 4160 start_elf (MkStackArg 3 1 8192) [0; 0] Sp) as (sp & rand & s' & km' & Er & Hw & Hb & _);
    try (unfold u64, MAXARG, USER_TOP; cbn [e_phnum e_entry start_elf argc total_len td_sp length]; lia).
  - apply bytes_write; [intros x; lia|apply le_bytes_range].
  - repeat (apply words_cons; [evals|]). apply words_nil.
  - cbn [td_sp]. intros va Hva. assert (El : lookup_va s.(pmem) dirA va = 22) by (rewrite page1_lookup by lia; exact E).
    split; [rewrite El; right; repeat split; vm_compute; congruence|now apply twin_private].
  - exists s, sp, rand, s', km'. split; [exact Er|]. split; [rewrite <- (Z.add_0_r sp); exact (Hw 0%nat _ eq_refl)|]. split; [exact (Hw 1%nat _ eq_refl)|]. exact (Hb 15%nat 16 eq_refl).
Defined.

(** Two programs whose stacks are promised pages. *)
Definition promise_stack (pt : Z) : M mm unit := stack_loop 72 (stack_promise pt) TD_USTACK_BOTTOM 0.
Lemma promise_run s R R2 : spaces s R R2 -> (216 <= length s.(pageFreeList))%nat -> (forall va, lookup_va s.(pmem) R va = 0) ->
  exists s', promise_stack R s = Ok (tt, s') /\ spaces s' R R2 /\ forall va, lookup_va s'.(pmem) R2 va = lookup_va s.(pmem) R2 va.
Proof.
  intros Sp Hf H0. assert (Eb : TD_USTACK_BOTTOM = 274877595648) by evals.
  destruct (stack_loop_run R R2 (stack_promise R) TD_USTACK_BOTTOM ltac:(now rewrite Eb) ltac:(rewrite Eb; lia) (fun s va => stack_promise_run R R2 s va) 72 0 s ltac:(lia)
    ltac:(rewrite Eb; unfold USER_TOP; lia) Sp ltac:(lia) (fun va _ => H0 va)) as (s' & E & G & _).
  exists s'. split; [exact E|]. split; apply G.
Qed.
Definition page_of (i : Z) : Z := TD_USTACK_BOTTOM + 4096 * i.
Definition both_promised (s : mm) : bool :=
  forallb (fun i => (lookup_va s.(pmem) dirA (page_of i) =? 22) && (lookup_va s.(pmem) dirB (page_of i) =? 22)) (seqZ 0 72).
Lemma stacks_checked s : both_promised s = true ->
  forall va, TD_USTACK_BOTTOM <= va < USTACKTOP -> lookup_va s.(pmem) dirA va = 22 /\ lookup_va s.(pmem) dirB va = 22.
Proof.
  intros H va Hva. assert (E : TD_USTACK_BOTTOM = 274877595648 /\ USTACKTOP = 274877890560) by (vm_compute; auto). destruct E as [Eb Et]. rewrite Eb, Et in Hva.
  set (i := (va - 274877595648) / 4096). assert (Hi : i ∈ seqZ 0 72) by (apply elem_of_seqZ; unfold i; zlia).
  assert (Ev : same_page (page_of i) va = true) by (unfold page_of, i; rewrite Eb, same_page_div by zlia; apply Z.eqb_eq; zlia).
  rewrite !(same_page_lookup _ _ _ _ Ev). unfold both_promised in H. rewrite forallb_forall in H. specialize (H i (proj1 (list_elem_of_In _ _) Hi)). zbool. auto.
Qed.
Lemma migrate_stack_moves_witness : exists s s', migrate_stack dirA dirB s = Ok (tt, s') /\ PTE_PERM (lookup_va s'.(pmem) dirB (USTACKTOP - 1)) = 22.
Proof.
  assert (Hr : (216 <= length (pageFreeList roomy_vm))%nat) by (change (length (pageFreeList roomy_vm)) with 300%nat; lia).
  destruct (promise_run roomy_vm dirA dirB roomy_spaces Hr (fun _ => eq_refl)) as (s1 & E1 & Sp1 & L1).
  assert (F1 : match promise_stack dirA roomy_vm with Ok (_, s) => length (pageFreeList s) | Err _ => 0%nat end = 298%nat) by evals. rewrite E1 in F1.
  destruct (promise_run s1 dirB dirA (spaces_sym _ _ _ Sp1) ltac:(lia)) as (s & E2 & Sp2 & _); [intros va; rewrite L1; reflexivity|].
  assert (F2 : match promise_stack dirA roomy_vm with Ok (_, s) => match promise_stack dirB s with Ok (_, s') => (length (pageFreeList s'), both_promised s') | Err _ => (0%nat, false) end
    | Err _ => (0%nat, false) end = (296%nat, true)) by evals.
  rewrite E1, E2 in F2. injection F2 as F2 Hb. pose proof (stacks_checked s Hb) as Hc.
  destruct (migrate_stack_moves s dirA dirB (spaces_sym _ _ _ Sp2) ltac:(lia)) as (s' & E & _ & Hn & _).
  - intros va Hva. destruct (Hc va Hva) as [Ha Hb']. unfold movable. rewrite Ha, Hb'. split; [lia|]. left. split; [reflexivity|lia].
  - exists s, s'. split; [exact E|]. assert (Hva : TD_USTACK_BOTTOM <= USTACKTOP - 1 < USTACKTOP) by (vm_compute; split; congruence).
    destruct (Hn _ Hva) as (_ & _ & ->). rewrite (proj1 (Hc _ Hva)). reflexivity.
Defined.
